(* ===== verification/_CoqProject ===== *)
-Q . S2P
Prelude.v
Errors.v
Extents.v
Lease.v
LeaseSpec.v
PageRanges.v
PageRangesSpec.v
PagePieces.v
TagQuery.v
TagQuerySpec.v
Loki.v
QueueStore.v
QueueStoreSpec.v
Conditions.v
ExtentMetadata.v
MemoryExtentStore.v
MemoryExtentStoreSpec.v
GC.v
GCSpec.v
QueueGC.v
Mutex.v
Utf8.v
QueueHandlers.v
BlobModels.v
BlobContainers.v
BlobStore.v
BlobChanges.v
BlobRefine.v
BlobRequests.v
BlobStoreSpec.v
BlobGC.v
BlobGCSpec.v
Texts.v
JsValues.v
QueueServiceHandlers.v
QueueHandlersSpec.v
TableErrors.v
TableEntities.v
TableEntitiesSpec.v
TableQuery.v
TableQuerySpec.v
TableStore.v
TableStoreSpec.v
TableTransactions.v
TablePages.v
TableRegistry.v
Uris.v
TableHandlers.v
TableHandlersSpec.v
Regex.v
TableBatchFormat.v
TableBatch.v
TableBatchSpec.v
BlobHttp.v
BlobHandlers.v
BlobContentSpec.v
BlobData.v
BlobWrites.v
BlobHandlersSpec.v
BlobPages.v
BlobPagesSpec.v
BlobLists.v
ContainerHandlers.v
BlobListsSpec.v
BlobUrls.v
BlobPropertyHandlers.v
BlobServiceHandlers.v
BlobService.v
BlobServiceSpec.v
BlobReads.v
Protocol.v
BlobSAS.v
BlobSpecifications.v
QueueSpecifications.v
TableSpecifications.v
Mappers.v
ProtocolSpec.v
BlobAuth.v
BlobAccess.v
BlobAuthSpec.v
