(* ===== verification/Prelude.v ===== *)
(** * Azurite: a verification library

    Azurite (src/src/) emulates the blob, queue and table services of Azure
    Storage. A request goes through the generated protocol layer to a handler
    (blob/handlers, queue/handlers, table/handlers), which validates it, reads
    and writes data in an extent store (common/persistence) and calls a metadata
    store (blob/persistence, queue/persistence, table/persistence). A background
    loop, the garbage collection (blob/gc, queue/gc), deletes the extents no
    metadata refers to. This library models the parts with logic of their own and
    proves what makes them correct. Paths below are relative to src/src/.

    ** The files

    Prelude, this file: results and exceptions, the [proc] monad of state and
    exceptions (a mutation before a [throw] survives it, as in JavaScript), the
    guards [throw_when], [===], strings, and the tactics [guards], [by_guards] and
    [run]. Errors: the exceptions and the error factories blob/errors,
    queue/errors.

    Lease, LeaseSpec: blob/lease. One Module per state class (Available, Leased,
    Breaking, Broken, Expired), the factory, the adapters, the syncers and the
    validators; a lease request is [lease_request]. Specification: an abstract
    lease protocol, [spec_op], on leases with their times. Theorems: a request
    refines the protocol, never ends in an internal error from states requests
    can reach, a lease is exclusive, a break never prolongs a lease, and what a
    write needs.

    PageRanges, PageRangesSpec: blob/handlers/PageBlobRangesManager.ts. Specification:
    the map from byte positions to extents. Theorems: merging and clearing
    refine the update of that map and keep the ranges sorted and disjoint;
    cutting and filling with zeros. The searches recurse on halves of an interval
    and are defined by well-founded recursion on its length. PagePieces: the bytes
    of a list of ranges as slices of extents.

    TagQuery, TagQuerySpec: blob/persistence/QueryInterpreter. The recursive
    descent parser of tag queries as a monad over the position, the checks on
    conditions, and the evaluation of queries. The visits get the fuel
    [visit_fuel], 3 * length + 3: a level of the grammar without input consumed
    goes three visits down, so that [parse_total] can prove that the fuel never
    runs out. Theorems: totality, shape of the accepted where queries, parsing
    after printing, correctness of the evaluation.

    Conditions: blob/conditions. The adapter of the headers and
    the validators of reads and writes. Theorems: the decision tables, and that
    if-match guards a write.

    Extents: common/persistence/IExtentStore.ts, chunks of extents and the
    interface [IExtentStore] with its laws [IExtentStoreLaws]. ExtentMetadata:
    LokiExtentMetadataStore.ts and AllExtentsAsyncIterator.ts.
    Theorems: the iterator ends and is complete; what the protection time of the
    collection protects. MemoryExtentStore, MemoryExtentStoreSpec: the chunk store
    with its accounting, appends, reads over several chunks, deletion;
    ZeroBytesStream.ts, whose reads get the length as fuel, since each takes a
    byte. Theorems: the accounting invariant, round trip, reads as slices of the
    concatenation, and the laws of [IExtentStore].

    Loki: the package lokijs as the classes [Loki] (operations on collections),
    [LokiLaws] and [LokiOrdered] (its documented behaviour), pages of documents,
    and an instance that shows the laws can be met. The order that lokijs gives texts is an
    operation of the class, a total order of which no more is assumed: names that look like
    numbers come before others.

    QueueStore, QueueStoreSpec: queue/persistence/LokiQueueMetadataStore.ts, one
    definition per method. Theorems: the store invariant, what a dequeue
    delivers, the lock of a delivered message, pop receipts, deletion, creation. Utf8: Node's encoding and decoding
    of texts, with their round trip. QueueHandlers, QueueHandlersSpec:
    queue/handlers/MessagesHandler.ts and MessageIdHandler.ts over the queue store
    and any extent store; the pieces in which a stream hands over its bytes, each decoded
    on its own, are those of a class [ReadStream]. QueueServiceHandlers: QueueHandler.ts and ServiceHandler.ts of
    the same directory. Theorems, for any requests to the service: it refines a map from
    message ids to texts, a delivered message is locked until its time, the invariant of
    the store; what an enqueue stores.

    BlobModels, BlobContainers, BlobStore: blob/persistence/LokiBlobMetadataStore.ts,
    one definition per method: the documents and the arrays of blocks and page
    ranges they refer to (copies share them), containers, blobs, snapshots, leases,
    blocks, pages, copies. BlobChanges: the specification, the changes [db_change]
    a request with a licence (the lease ids it presents, and whether it breaks a
    lease, copies or deletes a container) may make to the contents [View], the
    invariant [view_ok], and what a change leaves alone, also over histories of
    requests, known by their licences. BlobRefine: every method
    makes only such changes, by the rules of the postcondition [steps].
    BlobRequests: the methods as a request language, and the refinement for it.
    BlobStoreSpec: the exact results of committing block lists, appending and copying.

    BlobHttp: what the handlers read of a request: ranges, which may be
    infinite or NaN ([Quantity]), metadata and tags. BlobHandlers:
    BlockBlobHandler.ts, AppendBlobHandler.ts, PageBlobHandler.ts and the downloads
    of BlobHandler.ts in blob/handlers, over the blob store and any
    [IExtentReader]. Specification, in BlobData: what a blob holds as pieces of
    data ([Data]), its bytes, and when the documents, blocks, ranges and extents of
    a service represent such data ([represents]). BlobContentSpec: what each method
    of the store does to the content. BlobWrites: each write leaves what the
    specification says, whether it returns or throws. BlobHandlersSpec: the reads,
    and the refinement over any history of requests ([reaches]): a download, a block
    list and page ranges tell the data, and a download of a whole blob returns.

    BlobPages, BlobPagesSpec: blob/persistence/PageWithDelimiter.ts and
    FilterBlobPage.ts, the pages of lists. Specification: the items, the prefixes and
    the number of entries of a part of the source; [fill] reads the longest part with
    at most [maxResults] entries. BlobLists: the lists of the blob store.
    ContainerHandlers: blob/handlers/ContainerHandler.ts. BlobListsSpec: following
    the markers of a list visits every name once, folders included, and where a
    search loses blobs.

    BlobUrls: blob/middlewares/blobStorageContext.middleware.ts and the
    checks of names and versions in blob/utils/utils.ts: from the host and the path of
    a request to account, container and blob. Theorems: what is written into a URL is
    read back, and which names of containers pass.

    BlobPropertyHandlers, BlobServiceHandlers: the rest of BlobHandler.ts (properties,
    leases, snapshots, copies, tags) and blob/handlers/ServiceHandler.ts. BlobService:
    the operations of the blob service with the handler each goes to
    (blob/generated/handlers/handlerMappers.ts), its state and a server's settings.
    BlobServiceSpec: every operation, through its handler, makes only the changes its
    licence allows ([makes]); hence, over all histories of requests to the service, the
    invariant of the store, that a lease protects a blob, that snapshots are immutable.

    Protocol: blob/generated (and its copies for queues and tables): requests, the
    types of specifications of operations, and the dispatch of a request to the
    operation whose required parameters it has (middleware/dispatch.middleware.ts), the
    reading of its parameters (utils/serializer.ts) and the call of a handler [handle].
    BlobSpecifications, QueueSpecifications, TableSpecifications: the parameters and
    specifications of the operations of the three services, generated/artifacts, and the
    method that handles each. Mappers: the mappers of their models. The other way, Protocol
    has the serialisation of a response with ExpressResponseAdapter.ts. ProtocolSpec: which
    operation is dispatched to, that each but one is reached, that every parameter arrives
    at its handler, that the headers of a response are sent, and that every answer of the
    queue service is described by the specification of its operation.

    BlobReads: the operations of the blob service that only read leave its documents the
    same to everybody who reads them later ([at_rest], from a time on): they may save
    a lease that this time has ended, which it would find anyway, the right count of
    tags, and settings that were missing, with their defaults. BlobSAS,
    BlobAuth, BlobAccess: blob/authentication and
    blob/middlewares/AuthenticationMiddlewareFactory.ts, the tables of permissions, the
    strings that are signed, the five authenticators in the order of
    BlobRequestListenerFactory.ts. BlobAuthSpec: requests with the methods GET and HEAD
    change nothing; a request with no more than a signature
    for reading, sent to any operation through the authenticators, changes nothing; a
    signature is good for no other values than those that were signed; a stored policy
    replaces the times that were signed.

    GC, GCSpec: blob/gc/BlobGCManager.ts and queue/gc/QueueGCManager.ts as a state
    machine: events are calls, timers, changes of the stores by other code and
    steps of the loop between two awaits, so that every interleaving of the
    asynchronous code is a list of events. Theorems, for all lists: the life
    cycle, that closing ends, that a sweep spares what is referred to while the
    manager runs, and that closing it in the middle of the marking deletes what
    is not marked yet. The client is proved against the class [ReferredLaws] of
    the iterator over references, which QueueGC and BlobGCSpec discharge for
    the iterators of QueueGC (queue/persistence/QueueReferredExtentsAsyncIterator.ts)
    and BlobGC (blob/persistence/BlobReferredExtentsAsyncIterator.ts): no step of
    the collection touches the bytes of a message, a blob or a staged block, but
    for a block that is committed in the middle of the marking and for blobs that
    share their name across pages or are not in the order of texts.

    Mutex: common/Mutex.ts as a state machine with the handlers that are
    due. Theorems: exclusion for prompt callers, that a waiting caller gets the key after
    as many unlocks as there are callers up to it, and the double grant otherwise.

    Texts, JsValues, Uris: JavaScript strings as UTF-16 code units with base64,
    IEEE doubles with their literals and their printing, primitive values and
    objects with the order of their properties, JSON strings, and the URI
    functions, with decoding after encoding.

    TableErrors, TableEntities, TableEntitiesSpec: table/errors and table/entity, the
    Edm types and the reading and writing of an entity's properties. Theorem: what
    a client reads of an entity is what the response to its insertion showed. TableQuery, TableQuerySpec: table/persistence/QueryInterpreter, the
    filters of queries: lexer, parser and evaluation. Theorems: the parser
    is total, it reads back what is printed, and comparisons with 64-bit integers
    are numeric.

    TableStore: table/persistence/LokiTableMetadataStore.ts, one definition per
    method. TableStoreSpec: the operations on entities refine a map from keys to
    entities, [spec_op]. TableTransactions: the lists that undo a
    batch of operations ([in_batch], [batch_end]), so that it is all or nothing, and
    when its rollback does not work. TablePages:
    following the continuations of a query visits what it selects. TableRegistry: the invariant that relates
    the tables to their collections of entities. TableHandlers:
    table/handlers/TableHandler.ts, ServiceHandler.ts and table/utils/utils.ts, the
    requests with their checks and responses. TableHandlersSpec: a handler of
    entities makes at most the one call of the store its request describes
    ([performs]).

    Regex: the regular expressions of JavaScript, as a matcher with backtracking.
    A repetition gets the length of the text as fuel, since each of its rounds
    takes a unit; what the expressions of the programs match. TableBatchFormat, TableBatch: table/batch, from the text of a batch to its response. A
    request of a batch keeps what is set of it when an exception follows, so that
    it is part of the state. TableBatchSpec: a batch is all or nothing, whatever its
    requests, unless one fails with an exception that is no [StorageError], after
    which no batch works.

    ** Conventions

    Numbers are unbounded integers where the code keeps them integral (times in
    milliseconds, sizes, ids); strings are sequences of characters, texts of
    messages lists of UTF-16 code units; bytes are numbers. Random values, ids
    and the clock are arguments. Logging is left out. A theorem that is a
    property of the program carries an identifier C<n>; where it has hypotheses a
    witness applies it to a concrete case.

    ** Not modelled

    The serializer of ms-rest-js, which reads the mappers, and the parser and the printer
    of XML, which are arguments. The operations of the handlers
    are given as values of their own types, not as what the package makes of a request.
    Batches of blob requests, which run requests through that code. The authenticators of
    queues and tables, which repeat those of blobs; the HMAC, the parser of dates, the
    collation of header names and the decoding of tokens are arguments of those of
    blobs. The SQL stores, the
    extent store in files, servers, configuration, logging, telemetry and the
    editor extension, which are glue around packages, the file system and the network.
    Each request of the blob service runs from its start to its end; the interleavings
    of asynchronous code are modelled where it is written for them (GC, Mutex, batches
    of tables). *)

From stdpp Require Export base option list strings gmap sorting.
From Stdlib Require Export ZArith Lia.

Open Scope Z_scope.

(** ** Results and exceptions

    A TypeScript function that may [throw] is a function into [result E A]. *)

Inductive result (E A : Type) : Type :=
| Ok (a : A)
| Throw (e : E).
Arguments Ok {E A} a.
Arguments Throw {E A} e.

#[export] Instance result_ret {E} : MRet (result E) := fun _ a => Ok a.
#[export] Instance result_bind {E} : MBind (result E) :=
  fun _ _ f m => match m with Ok a => f a | Throw e => Throw e end.
#[export] Instance result_fmap {E} : FMap (result E) :=
  fun _ _ f m => match m with Ok a => Ok (f a) | Throw e => Throw e end.

#[export] Instance result_eq_dec {E A} `{EqDecision E, EqDecision A} :
  EqDecision (result E A).
Proof. solve_decision. Defined.

Definition is_ok {E A} (r : result E A) : bool :=
  match r with Ok _ => true | Throw _ => false end.

(** Stateful code that may throw: the state survives the exception, as the
    mutations made before a JavaScript [throw] do. *)
Definition proc (S E A : Type) : Type := S -> result E A * S.

#[export] Instance proc_ret {S E} : MRet (proc S E) := fun _ a s => (Ok a, s).
#[export] Instance proc_bind {S E} : MBind (proc S E) :=
  fun _ _ f m s =>
    match m s with
    | (Ok a, s') => f a s'
    | (Throw e, s') => (Throw e, s')
    end.

Definition throw {S E A} (e : E) : proc S E A := fun s => (Throw e, s).
Definition get_state {S E} : proc S E S := fun s => (Ok s, s).
Definition put_state {S E} (s : S) : proc S E unit := fun _ => (Ok tt, s).
Definition lift {S E A} (r : result E A) : proc S E A := fun s => (r, s).

Declare Scope azurite_scope.
Delimit Scope azurite_scope with azurite.
Open Scope azurite_scope.

(** [throw_when c e;; k]: the guard [if (c) { throw e; }] followed by [k]. *)
Notation "'throw_when' c e ;; k" := (if c then Throw e else k)
  (at level 100, c at level 9, e at level 9, k at level 200, right associativity)
  : azurite_scope.

(** ** A program logic for [proc]

    [wp_exn E m st Q]: run from [st], [m] returns a value and a state in [Q], or
    throws an exception in [E]. *)

Definition wp_exn {S Ex A} (E : Ex -> Prop) (m : proc S Ex A) (st : S) (Q : A -> S -> Prop) : Prop :=
  match m st with (Ok a, st') => Q a st' | (Throw e, _) => E e end.

Arguments wp_exn : simpl never.

Section Wp.
Context {S Ex : Type} (E : Ex -> Prop).
Implicit Types (st : S).

Lemma wp_bind {A B} (m : proc S Ex A) (f : A -> proc S Ex B) st Q :
  wp_exn E m st (fun a st' => wp_exn E (f a) st' Q) -> wp_exn E (m ≫= f) st Q.
Proof. unfold wp_exn, mbind, proc_bind. by destruct (m st) as [[a|e] st']. Qed.

Lemma wp_mono {A} (m : proc S Ex A) st (P Q : A -> S -> Prop) :
  wp_exn E m st P -> (forall a st', P a st' -> Q a st') -> wp_exn E m st Q.
Proof. unfold wp_exn. destruct (m st) as [[a|e] st']; auto. Qed.

Lemma wp_ret {A} (a : A) st (Q : A -> S -> Prop) : Q a st -> wp_exn E (mret a) st Q.
Proof. done. Qed.

Lemma wp_get st (Q : S -> S -> Prop) : Q st st -> wp_exn E get_state st Q.
Proof. done. Qed.

Lemma wp_put st st' (Q : unit -> S -> Prop) : Q tt st' -> wp_exn E (put_state st') st Q.
Proof. done. Qed.

Lemma wp_throw {A} e st (Q : A -> S -> Prop) : E e -> wp_exn E (throw e) st Q.
Proof. done. Qed.

Lemma wp_if {A} (b : bool) (m n : proc S Ex A) st Q :
  (b = true -> wp_exn E m st Q) -> (b = false -> wp_exn E n st Q) -> wp_exn E (if b then m else n) st Q.
Proof. destruct b; auto. Qed.

End Wp.

(** ** [undefined] and JavaScript truthiness *)

Definition defined {A} (o : option A) : bool :=
  match o with Some _ => true | None => false end.
Definition undefined {A} (o : option A) : bool := negb (defined o).

(** [a === b] on values of a type with decidable equality. *)
Notation "a === b" := (bool_decide (a = b)) (at level 70) : azurite_scope.
Notation "a !== b" := (negb (bool_decide (a = b))) (at level 70) : azurite_scope.

(** ** Strings

    A JavaScript string is the sequence of its characters; the case mapping is the ASCII one. *)

Definition lower_ascii (c : Ascii.ascii) : Ascii.ascii :=
  let n := Ascii.N_of_ascii c in
  if (65 <=? n)%N && (n <=? 90)%N then Ascii.ascii_of_N (n + 32) else c.

Fixpoint toLowerCase (s : string) : string :=
  match s with
  | EmptyString => EmptyString
  | String c s' => String (lower_ascii c) (toLowerCase s')
  end.

(** [s || t] on strings: the empty string is falsy. *)
Definition str_or (s t : string) : string :=
  match s with EmptyString => t | _ => s end.

(** [s !== undefined && s !== ""]. *)
Definition nonempty (s : option string) : bool :=
  match s with Some (String _ _) => true | _ => false end.

(** ** Tactics *)

(** Reduce boolean guards: the connectives in hypotheses, the comparisons on
    [Z] and the decidable equalities wherever they stand in the goal. *)
Ltac guards :=
  repeat first
    [ progress simplify_eq/=
    | case_bool_decide
    | match goal with
      | H : _ && _ = true |- _ => apply andb_prop in H as [? ?]
      | H : _ || _ = false |- _ => apply orb_false_elim in H as [? ?]
      | |- context [Z.ltb ?a ?b] => destruct (Z.ltb_spec a b)
      | |- context [Z.leb ?a ?b] => destruct (Z.leb_spec a b)
      | |- context [Z.eqb ?a ?b] => destruct (Z.eqb_spec a b)
      end ].

(** Close what [guards] leaves: contradictory comparisons or equalities. *)
Ltac by_guards :=
  guards; intros; guards;
  first [ done | lia | congruence | cbn in *; (lia || congruence || done) ].

(** Run a step of the [proc] monad. *)
Ltac run :=
  cbv beta iota delta [mbind proc_bind mret proc_ret throw get_state put_state lift].

Create HintDb azurite.
