(* ===== verification/Errors.v ===== *)
(** * Errors: the exceptions of the blob and queue services

    [StorageError] is the class of src/src/blob/errors/StorageError.ts and
    src/src/queue/errors/StorageError.ts: the fields a client observes (the
    status code, the error code and the message, the request id and the
    additional entries of the XML body); [StorageWith] has headers of its own. [exn] adds the JavaScript exceptions
    the code throws itself, whose messages are not modelled, and [OutOfFuel], which
    is no exception of the code: a recursive definition gives it when its fuel
    is spent, and the theorems show that it never is. *)

From S2P Require Import Prelude.

Record StorageError := mkStorageError {
  statusCode : Z;
  storageErrorCode : string;
  storageErrorMessage : string;
  storageRequestID : option string;
  storageAdditionalErrorMessages : list (string * string)
}.

Inductive exn :=
| RangeError
| JsError
| TypeError
| Storage (e : StorageError)
| StorageWith (e : StorageError) (headers : list (string * string))
| OutOfFuel.

#[export] Instance StorageError_eq_dec : EqDecision StorageError.
Proof. solve_decision. Defined.
#[export] Instance exn_eq_dec : EqDecision exn.
Proof. solve_decision. Defined.

Abbreviation res := (result exn).

(** The status code the client sees; an exception that is not a
    [StorageError] is an internal error. *)
Definition http_status (e : exn) : Z :=
  match e with Storage s | StorageWith s _ => s.(statusCode) | _ => 500 end.

(** [contextID: string = DefaultID]. *)
Definition default_id (d : string) (contextID : option string) : option string :=
  Some (default d contextID).

(** ** src/src/blob/errors/StorageErrorFactory.ts *)

Module BlobErrors.

Definition DefaultID : string := "DefaultBlobRequestID".

Definition getContainerNotFound (contextID : option string) : exn :=
  Storage (mkStorageError 404 "ContainerNotFound"
    "The specified container does not exist."
    (default_id DefaultID contextID) []).

Definition getBlobNotFound (contextID : option string) : exn :=
  Storage (mkStorageError 404 "BlobNotFound"
    "The specified blob does not exist."
    (default_id DefaultID contextID) []).

Definition getInvalidLeaseDuration (contextID : option string) : exn :=
  Storage (mkStorageError 400 "InvalidHeaderValue"
    "The value for one of the HTTP headers is not in the correct format."
    (default_id DefaultID contextID) []).

Definition getInvalidLeaseBreakPeriod (contextID : option string) : exn :=
  Storage (mkStorageError 400 "InvalidHeaderValue"
    "The value for one of the HTTP headers is not in the correct format."
    (default_id DefaultID contextID) []).

Definition getLeaseAlreadyPresent (contextID : option string) : exn :=
  Storage (mkStorageError 409 "LeaseAlreadyPresent"
    "There is already a lease present."
    (default_id DefaultID contextID) []).

Definition getLeaseIsBreakingAndCannotBeAcquired (contextID : option string) : exn :=
  Storage (mkStorageError 409 "LeaseIsBreakingAndCannotBeAcquired"
    "There is already a breaking lease, and can't  be acquired."
    (default_id DefaultID contextID) []).

Definition getLeaseNotPresentWithLeaseOperation (contextID : option string) : exn :=
  Storage (mkStorageError 409 "LeaseNotPresentWithLeaseOperation"
    "There is currently no lease on the container or blob."
    (default_id DefaultID contextID) []).

Definition getLeaseIdMismatchWithLeaseOperation (contextID : option string) : exn :=
  Storage (mkStorageError 409 "LeaseIdMismatchWithLeaseOperation"
    "The lease ID specified did not match the lease ID for the container or blob."
    (default_id DefaultID contextID) []).

Definition getLeaseIsBrokenAndCannotBeRenewed (contextID : option string) : exn :=
  Storage (mkStorageError 409 "LeaseIsBrokenAndCannotBeRenewed"
    "The lease ID matched, but the lease has been broken explicitly and cannot be renewed."
    (default_id DefaultID contextID) []).

Definition getLeaseIsBreakingAndCannotBeChanged (contextID : option string) : exn :=
  Storage (mkStorageError 409 "LeaseIsBreakingAndCannotBeChanged"
    "The lease ID matched, but the lease is currently in breaking state and cannot be changed."
    (default_id DefaultID contextID) []).

Definition getContainerLeaseIdMissing (contextID : option string) : exn :=
  Storage (mkStorageError 412 "LeaseIdMissing"
    "There is currently a lease on the container and no lease ID was specified in the request."
    (default_id DefaultID contextID) []).

Definition getContainerLeaseIdMismatchWithContainerOperation (contextID : option string) : exn :=
  Storage (mkStorageError 412 "LeaseIdMismatchWithContainerOperation"
    "The lease ID specified did not match the lease ID for the container."
    (default_id DefaultID contextID) []).

Definition getContainerLeaseLost (contextID : option string) : exn :=
  Storage (mkStorageError 412 "LeaseNotPresentWithContainerOperation"
    "A lease ID was specified, but the lease for the container has expired."
    (default_id DefaultID contextID) []).

Definition getBlobLeaseIdMissing (contextID : option string) : exn :=
  Storage (mkStorageError 412 "LeaseIdMissing"
    "There is currently a lease on the blob and no lease ID was specified in the request."
    (default_id DefaultID contextID) []).

Definition getBlobLeaseIdMismatchWithBlobOperation (contextID : option string) : exn :=
  Storage (mkStorageError 412 "LeaseIdMismatchWithBlobOperation"
    "The lease ID specified did not match the lease ID for the blob."
    (default_id DefaultID contextID) []).

Definition getBlobLeaseLost (contextID : option string) : exn :=
  Storage (mkStorageError 412 "LeaseNotPresentWithBlobOperation"
    "A lease ID was specified, but the lease for the blob has expired."
    (default_id DefaultID contextID) []).

Definition getMultipleConditionHeadersNotSupported (contextID : option string) : exn :=
  Storage (mkStorageError 400 "MultipleConditionHeadersNotSupported"
    "Multiple condition headers are not supported."
    contextID []).

Definition getConditionNotMet (contextID : option string) : exn :=
  Storage (mkStorageError 412 "ConditionNotMet"
    "The condition specified using HTTP conditional header(s) is not met."
    contextID []).

Definition getSequenceNumberConditionNotMet (contextID : option string) : exn :=
  Storage (mkStorageError 412 "SequenceNumberConditionNotMet"
    "The condition specified using HTTP conditional header(s) is not met."
    contextID []).

Definition getNotModified (contextID : option string) : exn :=
  Storage (mkStorageError 304 "ConditionNotMet"
    "The condition specified using HTTP conditional header(s) is not met."
    contextID []).

Definition getUnsatisfiableCondition (contextID : option string) : exn :=
  Storage (mkStorageError 400 "UnsatisfiableCondition"
    "The request includes an unsatisfiable condition for this operation."
    contextID []).

Definition getInvalidHeaderValue (contextID : option string)
    (additionalMessages : list (string * string)) : exn :=
  Storage (mkStorageError 400 "InvalidHeaderValue"
    "The value for one of the HTTP headers is not in the correct format."
    (default_id "" contextID) additionalMessages).

Definition getEmptyTagName (contextID : option string) : exn :=
  Storage (mkStorageError 400 "EmptyTagName"
    "The name of one of the tag key-value pairs is empty." contextID []).

Definition getTagsTooLarge (contextID : option string) : exn :=
  Storage (mkStorageError 400 "TagsTooLarge"
    "The tags specified exceed the maximum permissible limit." contextID []).

Definition getInvalidTag (contextID : option string) : exn :=
  Storage (mkStorageError 400 "DuplicateTagNames"
    "The tags specified are invalid. It contains characters that are not permitted." contextID []).

Definition getBlobAlreadyExists (contextID : option string) : exn :=
  Storage (mkStorageError 409 "BlobAlreadyExists"
    "The specified blob already exists."
    (default_id DefaultID contextID) []).

Definition getBlobArchived (contextID : option string) : exn :=
  Storage (mkStorageError 409 "BlobArchived"
    "This operation is not permitted on an archived blob."
    (default_id EmptyString contextID) []).

Definition getInvalidOperation (contextID : option string) (message : string) : exn :=
  Storage (mkStorageError 400 "InvalidOperation" message (default_id DefaultID contextID) []).

Definition getSnapshotsPresent (contextID : option string) : exn :=
  Storage (mkStorageError 409 "SnapshotsPresent"
    "This operation is not permitted while the blob has snapshots." contextID []).

Definition getBlobSnapshotsPresent (contextID : option string) : exn :=
  Storage (mkStorageError 400 "SnapshotsPresent"
    "This operation is not permitted because the blob is snapshot."
    (default_id DefaultID contextID) []).

Definition getBlobInvalidBlobType (contextID : option string) : exn :=
  Storage (mkStorageError 409 "InvalidBlobType"
    "The blob type is invalid for this operation."
    (default_id DefaultID contextID) []).

Definition getInvalidBlobOrBlock (contextID : option string) : exn :=
  Storage (mkStorageError 400 "InvalidBlobOrBlock"
    "The specified blob or block content is invalid."
    (default_id DefaultID contextID) []).

Definition getBlobSealed (contextID : option string) : exn :=
  Storage (mkStorageError 409 "BlobIsSealed"
    "The specified blob is sealed, and its contents can't be modified unless the blob is re-created after a delete."
    (default_id EmptyString contextID) []).

Definition getBlockCountExceedsLimit (contextID : option string) : exn :=
  Storage (mkStorageError 409 "BlockCountExceedsLimit"
    "The committed block count cannot exceed the maximum limit of 50,000 blocks."
    (default_id DefaultID contextID) []).

Definition getAppendPositionConditionNotMet (contextID : option string) : exn :=
  Storage (mkStorageError 412 "AppendPositionConditionNotMet"
    "The append position condition specified was not met."
    (default_id DefaultID contextID) []).

Definition getMaxBlobSizeConditionNotMet (contextID : option string) : exn :=
  Storage (mkStorageError 412 "MaxBlobSizeConditionNotMet"
    "The max blob size condition specified was not met."
    (default_id DefaultID contextID) []).

Definition getInvalidBlockList (contextID : option string) : exn :=
  Storage (mkStorageError 400 "InvalidBlockList"
    "The specified block list is invalid."
    (default_id DefaultID contextID) []).

Definition getContainerAlreadyExists (contextID : option string) : exn :=
  Storage (mkStorageError 409 "ContainerAlreadyExists"
    "The specified container already exists."
    (default_id DefaultID contextID) []).

Definition getAccessTierNotSupportedForBlobType (contextID : option string) : exn :=
  Storage (mkStorageError 400 "AccessTierNotSupportedForBlobType"
    "The access tier is not supported for this blob type." contextID []).

Definition getRequestEntityTooLarge (contextID : option string) : exn :=
  Storage (mkStorageError 413 "RequestEntityTooLarge"
    "The uploaded entity blob is too large." (default_id DefaultID contextID) []).

(** The entries of the parameters that are neither [undefined] nor empty. *)
Definition parameter_messages (parameterName parameterValue reason : option string) : list (string * string) :=
  let entry (k : string) (v : option string) :=
    match v with Some (String _ _ as v) => [(k, v)] | _ => [] end in
  entry "QueryParameterName"%string parameterName ++ entry "QueryParameterValue"%string parameterValue
  ++ entry "Reason"%string reason.

Definition getInvalidQueryParameterValue (contextID parameterName parameterValue reason : option string) : exn :=
  Storage (mkStorageError 400 "InvalidQueryParameterValue"
    "Value for one of the query parameters specified in the request URI is invalid."
    (default_id DefaultID contextID) (parameter_messages parameterName parameterValue reason)).

Definition getOutOfRangeInput (contextID parameterName parameterValue reason : option string) : exn :=
  Storage (mkStorageError 400 "OutOfRangeInput" "One of the request inputs is out of range."
    (default_id DefaultID contextID) (parameter_messages parameterName parameterValue reason)).

Definition getMd5Mismatch (contextID : option string) (userSpecifiedMd5 serverCalculatedMd5 : string) : exn :=
  Storage (mkStorageError 400 "Md5Mismatch"
    "The MD5 value specified in the request did not match with the MD5 value calculated by the server."
    (default_id DefaultID contextID)
    [("UserSpecifiedMd5", userSpecifiedMd5); ("ServerCalculatedMd5", serverCalculatedMd5)]%string).

Definition getInvalidPageRange (contextID : option string) : exn :=
  Storage (mkStorageError 416 "Requested Range Not Satisfiable" "The page range specified is invalid."
    contextID []).

Definition getInvalidPageRange2 (contextID : option string) (contentRange : string) : exn :=
  StorageWith (mkStorageError 416 "InvalidRange"
    "The range specified is invalid for the current size of the resource." contextID [])
    (match contentRange with EmptyString => [] | _ => [("Content-Range"%string, contentRange)] end).

Definition getCopyIdMismatch (contextID : option string) : exn :=
  Storage (mkStorageError 409 "CopyIdMismatch"
    "The specified copy ID did not match the copy ID for the pending copy operation." contextID []).

Definition getBothUserTagsAndSourceTagsCopyPresentException (contextID : option string) : exn :=
  Storage (mkStorageError 400 "BothUserTagsAndSourceTagsCopyPresentException"
    "x-ms-tags header must not be present with x-ms-copy-source-tag-option as COPY." contextID []).

Definition getNoPendingCopyOperation (contextID : option string) : exn :=
  Storage (mkStorageError 409 "NoPendingCopyOperation"
    "There is currently no pending copy operation." contextID []).

Definition getCannotVerifyCopySource (contextID : option string) (statusCode : Z) (message : string) : exn :=
  Storage (mkStorageError statusCode "CannotVerifyCopySource" message contextID []).

Definition getInvalidResourceName (contextID : option string) : exn :=
  Storage (mkStorageError 400 "InvalidResourceName"
    "The specified resource name contains invalid characters." (default_id EmptyString contextID) []).

Definition getOutOfRangeName (contextID : option string) : exn :=
  Storage (mkStorageError 400 "OutOfRangeInput"
    "The specified resource name length is not within the permissible limits."
    (default_id EmptyString contextID) []).

Definition getInvalidMetadata (contextID : option string) : exn :=
  Storage (mkStorageError 400 "InvalidMetadata"
    "The metadata specified is invalid. It has characters that are not permitted." contextID []).

Definition getInvalidXmlDocument (contextID : option string) : exn :=
  Storage (mkStorageError 400 "InvalidXmlDocument" "XML specified is not syntactically valid."
    (default_id EmptyString contextID) []).

Definition getInvalidAPIVersion (contextID apiVersion : option string) : exn :=
  let quoted s := String (Ascii.ascii_of_nat 34) (s ++ String (Ascii.ascii_of_nat 34) EmptyString)%string in
  Storage (mkStorageError 400 "InvalidHeaderValue"
    ("The API version " ++ default "undefined" apiVersion ++ " is not supported by Azurite. Please upgrade Azurite to latest version and retry. If you are using Azurite in Visual Studio, please check you have installed latest Visual Studio patch. Azurite command line parameter "
     ++ quoted "--skipApiVersionCheck" ++ " or Visual Studio Code configuration "
     ++ quoted "Skip Api Version Check" ++ " can skip this error. ")%string
    (default_id EmptyString contextID) []).

Definition getUnexpectedSyncCopyStatus (contextID : option string) (copyStatus : string) : exn :=
  Storage (mkStorageError 409 "UnexpectedSyncCopyStatus"
    ("Expected copyStatus to be " ++ String (Ascii.ascii_of_nat 34) ("success" ++ String (Ascii.ascii_of_nat 34) " but got different status."))%string
    contextID [("ReceivedCopyStatus"%string, copyStatus)]).

Definition ResourceNotFound (contextID : option string) : exn :=
  Storage (mkStorageError 404 "ResourceNotFound"
    "The specified resource does not exist."
    (default_id DefaultID contextID) []).

Definition getInvalidAuthenticationInfo (contextID : option string) : exn :=
  Storage (mkStorageError 400 "InvalidAuthenticationInfo"
    "Authentication information is not given in the correct format. Check the value of Authorization header."
    (default_id DefaultID contextID) []).

Definition getAuthorizationFailure (contextID : option string) : exn :=
  Storage (mkStorageError 403 "AuthorizationFailure"
    "Server failed to authenticate the request. Make sure the value of the Authorization header is formed correctly including the signature."
    contextID []).

Definition getAuthenticationFailed (contextID : option string) (authenticationErrorDetail : string) : exn :=
  Storage (mkStorageError 403 "AuthenticationFailed"
    "Server failed to authenticate the request. Make sure the value of the Authorization header is formed correctly including the signature."
    (default_id DefaultID contextID) [("AuthenticationErrorDetail"%string, authenticationErrorDetail)]).

Definition getAuthorizationSourceIPMismatch (contextID : option string) : exn :=
  Storage (mkStorageError 403 "AuthorizationSourceIPMismatch"
    "This request is not authorized to perform this operation using this source IP {SourceIP}."
    contextID []).

Definition getAuthorizationProtocolMismatch (contextID : option string) : exn :=
  Storage (mkStorageError 403 "AuthorizationProtocolMismatch"
    "This request is not authorized to perform this operation using this protocol."
    contextID []).

Definition getAuthorizationPermissionMismatch (contextID : option string) : exn :=
  Storage (mkStorageError 403 "AuthorizationPermissionMismatch"
    "This request is not authorized to perform this operation using this permission."
    contextID []).

Definition getAuthorizationServiceMismatch (contextID : option string) : exn :=
  Storage (mkStorageError 403 "AuthorizationServiceMismatch"
    "This request is not authorized to perform this operation using this service."
    contextID []).

Definition getAuthorizationResourceTypeMismatch (contextID : option string) : exn :=
  Storage (mkStorageError 403 "AuthorizationResourceTypeMismatch"
    "This request is not authorized to perform this operation using this resource type."
    contextID []).

(** src/src/blob/errors/StrictModelNotSupportedError.ts. *)
Definition StrictModelNotSupportedError (feature : string) (requestID : option string) : exn :=
  let quoted s := String (Ascii.ascii_of_nat 34) (s ++ String (Ascii.ascii_of_nat 34) EmptyString)%string in
  Storage (mkStorageError 500 "FeatureNotSupported"
    (feature ++ " header or parameter is not supported in Azurite strict mode. Switch to loose model by Azurite command line parameter "
     ++ quoted "--loose" ++ " or Visual Studio Code configuration " ++ quoted "Loose"
     ++ ". Please vote your wanted features to https://github.com/azure/azurite/issues")%string
    (default_id EmptyString requestID) []).

(** src/src/blob/errors/NotImplementedError.ts. *)
Definition NotImplementedError (requestID : option string) : exn :=
  Storage (mkStorageError 501 "APINotImplemented"
    "Current API is not implemented yet. Please vote your wanted features to https://github.com/azure/azurite/issues"
    (default_id EmptyString requestID) []).

End BlobErrors.

(** ** src/src/queue/errors/StorageErrorFactory.ts *)

Module QueueErrors.

Definition DefaultID : string := "DefaultID".

Definition getInvalidXmlDocument (contextID : option string) (additionalMessages : list (string * string)) : exn :=
  Storage (mkStorageError 400 "InvalidXmlDocument"
    "XML specified is not syntactically valid."
    (default_id DefaultID contextID) additionalMessages).

Definition getInvalidQueryParameterValue (contextID : option string) (additionalMessages : list (string * string)) : exn :=
  Storage (mkStorageError 400 "InvalidQueryParameterValue"
    "Value for one of the query parameters specified in the request URI is invalid."
    (default_id DefaultID contextID) additionalMessages).

Definition getOutOfRangeQueryParameterValue (contextID : option string) (additionalMessages : list (string * string)) : exn :=
  Storage (mkStorageError 400 "OutOfRangeQueryParameterValue"
    "One of the query parameters specified in the request URI is outside the permissible range."
    (default_id DefaultID contextID) additionalMessages).

Definition getRequestBodyTooLarge (contextID : option string) (additionalMessages : list (string * string)) : exn :=
  Storage (mkStorageError 413 "RequestBodyTooLarge"
    "The request body is too large and exceeds the maximum permissible limit."
    (default_id DefaultID contextID) additionalMessages).

Definition getPopReceiptMismatch (contextID : option string) : exn :=
  Storage (mkStorageError 400 "PopReceiptMismatch"
    "The specified pop receipt did not match the pop receipt for a dequeued message."
    (default_id DefaultID contextID) []).

Definition getMessageNotFound (contextID : option string) : exn :=
  Storage (mkStorageError 404 "MessageNotFound"
    "The specified message does not exist."
    (default_id DefaultID contextID) []).

Definition getQueueAlreadyExists (contextID : option string) : exn :=
  Storage (mkStorageError 409 "QueueAlreadyExists"
    "The specified queue already exists."
    (default_id DefaultID contextID) []).

Definition getQueueNotFound (contextID : option string) : exn :=
  Storage (mkStorageError 404 "QueueNotFound"
    "The specified queue does not exist."
    (default_id DefaultID contextID) []).

End QueueErrors.
