(* ===== verification/Extents.v ===== *)
(** * Extents: chunks of extents and the interface of the extent stores

    src/src/common/persistence/IExtentStore.ts: [IExtentChunk], and what the
    handlers rely on of the store behind the interface, as a class of
    operations and a class of their laws. A store keeps its state in a value of
    type [E]; bytes are numbers. *)

From S2P Require Import Prelude Errors.

(** [IExtentChunk]: a sub-range of an extent. *)
Record IExtentChunk := mkChunk {
  id : string;
  offset : Z;
  count : Z
}.

(** The extent of zeros, src/src/blob/persistence/IBlobMetadataStore.ts. *)
Definition ZERO_EXTENT_ID : string := "*ZERO*".

#[export] Instance IExtentChunk_eq_dec : EqDecision IExtentChunk.
Proof. solve_decision. Defined.

Abbreviation bytes := (list Z).

(** ** The interface of an extent store *)

(** A store that keeps data in extents: [appendExtent] is given the id a new
    extent would get and the time, [readExtent] gives the bytes of the stream. *)
Class IExtentStore (E : Type) := {
  appendExtent : bytes -> string -> Z -> option string -> proc E exn IExtentChunk;
  readExtent : option IExtentChunk -> E -> res bytes
}.

(** The numbers of positions that come from a header: integers, [Infinity] and
    [NaN]. Integers are exact: positions are below 2^53. *)
Inductive Quantity := Exact (z : Z) | Infinite | NotANumber.

#[export] Instance Quantity_eq_dec : EqDecision Quantity.
Proof. solve_decision. Defined.

(** The reads of a part of an extent and over several chunks, whose positions are
    calculated by the handlers: [readExtentAt id offset count] is [readExtent] of
    the chunk of these fields. *)
Class IExtentReader (E : Type) := {
  readExtentAt : string -> Quantity -> Quantity -> E -> res bytes;
  readExtents : list IExtentChunk -> Quantity -> Quantity -> E -> res bytes
}.

(** What a store promises: [stored e c b] says that the chunk [c] holds [b], and
    [fresh] that an id is not in use. Stored data reads back; appending stores
    the data or fails, and keeps what is stored. *)
Class IExtentStoreLaws (E : Type) `{IExtentStore E} := {
  stored : E -> IExtentChunk -> bytes -> Prop;
  fresh : E -> string -> Prop;
  read_stored e c b : stored e c b -> readExtent (Some c) e = Ok b;
  append_stored b id now ctx e r e' :
    appendExtent b id now ctx e = (r, e') -> fresh e id ->
    (forall c b', stored e c b' -> stored e' c b') /\
    forall c, r = Ok c -> stored e' c b
}.

(** The bytes from [i] on, [n] of them. *)
Definition part (i n : Z) (b : bytes) : bytes := take (Z.to_nat n) (drop (Z.to_nat i) b).

(** A chunk of stored data, or one of zeros. *)
Definition readable {E} `{IExtentStoreLaws E} (e : E) (c : IExtentChunk) (b : bytes) : Prop :=
  stored e c b \/ (c.(id) = ZERO_EXTENT_ID /\ c.(offset) = 0 /\ 0 <= c.(count) /\ b = replicate (Z.to_nat c.(count)) 0).

(** What a store promises about parts: a stored chunk has the length of its data,
    a part of it holds the part of the data, and chunks read one after the other
    give what they hold. *)
Class IExtentReaderLaws (E : Type) `{IExtentStoreLaws E} `{!IExtentReader E} := {
  stored_length e c b : stored e c b -> c.(count) = Z.of_nat (length b);
  stored_part e c b i n : stored e c b -> 0 <= i -> 0 <= n -> i + n <= c.(count) ->
    stored e (mkChunk c.(id) (c.(offset) + i) n) (part i n b);
  read_at c e : readExtentAt c.(id) (Exact c.(offset)) (Exact c.(count)) e = readExtent (Some c) e;
  read_nothing e : readExtent None e = Ok [];
  read_readable e l bs i n : Forall2 (readable e) l bs -> 0 <= i -> 0 <= n ->
    i + n <= Z.of_nat (length (concat bs)) ->
    readExtents l (Exact i) (Exact n) e = Ok (part i n (concat bs))
}.
