(* ===== verification/Lease.v ===== *)
(** * Lease: the lease state machine of blobs and containers

    src/src/blob/lease/: the five state classes (their constructors with every
    run-time check, their operations), [LeaseFactory.createLeaseState], the
    adapters, the syncers that write a lease back to a stored model, and the
    validators that gate reads, writes and deletes.

    LeaseSpec gives the abstract lease protocol ([LeaseView]) and shows that the
    classes refine it. *)

From S2P Require Import Prelude Errors.
Import BlobErrors.

(** ** Data (src/src/blob/generated/artifacts/models.ts) *)

Module LeaseStateType.
Inductive t := Available | Leased | Expired | Breaking | Broken.
End LeaseStateType.
#[export] Instance LeaseStateType_eq_dec : EqDecision LeaseStateType.t.
Proof. solve_decision. Defined.

Module LeaseStatusType.
Inductive t := Locked | Unlocked.
End LeaseStatusType.
#[export] Instance LeaseStatusType_eq_dec : EqDecision LeaseStatusType.t.
Proof. solve_decision. Defined.

Module LeaseDurationType.
Inductive t := Infinite | Fixed.
End LeaseDurationType.
#[export] Instance LeaseDurationType_eq_dec : EqDecision LeaseDurationType.t.
Proof. solve_decision. Defined.

(** The lease record. Times are milliseconds since the epoch. *)
Record ILease := mkLease {
  leaseId : option string;
  leaseState : option LeaseStateType.t;
  leaseStatus : option LeaseStatusType.t;
  leaseDurationType : option LeaseDurationType.t;
  leaseDurationSeconds : option Z;
  leaseExpireTime : option Z;
  leaseBreakTime : option Z
}.

#[export] Instance ILease_eq_dec : EqDecision ILease.
Proof. solve_decision. Defined.

(** What the lease code reads of the request context. *)
Record Context := mkContext {
  startTime : option Z;
  contextId : option string
}.

(** The five classes extending [LeaseStateBase]. *)
Inductive StateClass :=
| LeaseAvailableState
| LeaseLeasedState
| LeaseBreakingState
| LeaseBrokenState
| LeaseExpiredState.

(** An instance of [LeaseStateBase]: its class and its two fields. *)
Record ILeaseState := mkState {
  class_of : StateClass;
  lease : ILease;
  context : Context
}.

(** [minDate] of src/src/common/utils/utils.ts. *)
Definition minDate (date1 date2 : Z) : Z := if date2 <? date1 then date2 else date1.

(** ** Constructors of the state classes *)

Definition emptyLease : ILease := mkLease None None None None None None None.

Definition availableLease : ILease :=
  mkLease None (Some LeaseStateType.Available) (Some LeaseStatusType.Unlocked)
    None None None None.

Definition new_LeaseAvailableState (l : ILease) (ctx : Context) : res ILeaseState :=
  throw_when (undefined ctx.(startTime)) RangeError;;
  if undefined l.(leaseState) then Ok (mkState LeaseAvailableState emptyLease ctx)
  else
  throw_when (l.(leaseState) !== Some LeaseStateType.Available) RangeError;;
  throw_when (l.(leaseStatus) !== Some LeaseStatusType.Unlocked) RangeError;;
  throw_when (defined l.(leaseId)) RangeError;;
  throw_when (defined l.(leaseExpireTime)) RangeError;;
  throw_when (defined l.(leaseDurationSeconds)) RangeError;;
  throw_when (defined l.(leaseDurationType)) RangeError;;
  throw_when (defined l.(leaseBreakTime)) RangeError;;
  Ok (mkState LeaseAvailableState l ctx).

(** [context.startTime >= t], [false] when [t] is undefined. *)
Definition reached (ctx : Context) (t : option Z) : bool :=
  match ctx.(startTime), t with
  | Some now, Some t => t <=? now
  | _, _ => false
  end.

(** [context.startTime < t], [false] when [t] is undefined. *)
Definition pending (ctx : Context) (t : option Z) : bool :=
  match ctx.(startTime), t with
  | Some now, Some t => now <? t
  | _, _ => false
  end.

Definition new_LeaseLeasedState (l : ILease) (ctx : Context) : res ILeaseState :=
  throw_when (undefined ctx.(startTime)) RangeError;;
  throw_when (l.(leaseState) !== Some LeaseStateType.Leased) RangeError;;
  throw_when (l.(leaseStatus) !== Some LeaseStatusType.Locked) RangeError;;
  throw_when (undefined l.(leaseId)) RangeError;;
  throw_when (defined l.(leaseExpireTime) && reached ctx l.(leaseExpireTime)) RangeError;;
  throw_when (undefined l.(leaseDurationType)) RangeError;;
  throw_when (defined l.(leaseBreakTime)) RangeError;;
  Ok (mkState LeaseLeasedState l ctx).

Definition new_LeaseBreakingState (l : ILease) (ctx : Context) : res ILeaseState :=
  throw_when (undefined ctx.(startTime)) RangeError;;
  throw_when (l.(leaseState) !== Some LeaseStateType.Breaking) RangeError;;
  throw_when (l.(leaseStatus) !== Some LeaseStatusType.Locked) RangeError;;
  throw_when (undefined l.(leaseId)) RangeError;;
  throw_when (defined l.(leaseExpireTime)) RangeError;;
  throw_when (defined l.(leaseDurationSeconds)) RangeError;;
  throw_when (defined l.(leaseDurationType)) RangeError;;
  throw_when (undefined l.(leaseBreakTime) || reached ctx l.(leaseBreakTime)) RangeError;;
  Ok (mkState LeaseBreakingState l ctx).

Definition brokenLease (id : option string) : ILease :=
  mkLease id (Some LeaseStateType.Broken) (Some LeaseStatusType.Unlocked)
    None None None None.

Definition new_LeaseBrokenState (l : ILease) (ctx : Context) : res ILeaseState :=
  throw_when (undefined ctx.(startTime)) RangeError;;
  if l.(leaseState) === Some LeaseStateType.Broken then
    throw_when (l.(leaseStatus) !== Some LeaseStatusType.Unlocked) RangeError;;
    throw_when (undefined l.(leaseId)) RangeError;;
    throw_when (defined l.(leaseExpireTime)) RangeError;;
    throw_when (defined l.(leaseDurationSeconds)) RangeError;;
    throw_when (defined l.(leaseDurationType)) RangeError;;
    throw_when (defined l.(leaseBreakTime)) RangeError;;
    Ok (mkState LeaseBrokenState l ctx)
  else if l.(leaseState) === Some LeaseStateType.Breaking then
    throw_when (l.(leaseStatus) !== Some LeaseStatusType.Locked) RangeError;;
    throw_when (undefined l.(leaseId)) RangeError;;
    throw_when (defined l.(leaseExpireTime)) RangeError;;
    throw_when (defined l.(leaseDurationSeconds)) RangeError;;
    throw_when (defined l.(leaseDurationType)) RangeError;;
    throw_when (undefined l.(leaseBreakTime) || pending ctx l.(leaseBreakTime)) RangeError;;
    Ok (mkState LeaseBrokenState (brokenLease l.(leaseId)) ctx)
  else Throw RangeError.

Definition expiredLease (id : option string) (seconds : option Z) : ILease :=
  mkLease id (Some LeaseStateType.Expired) (Some LeaseStatusType.Unlocked)
    None seconds None None.

Definition new_LeaseExpiredState (l : ILease) (ctx : Context) : res ILeaseState :=
  throw_when (undefined ctx.(startTime)) RangeError;;
  if l.(leaseState) === Some LeaseStateType.Expired then
    throw_when (l.(leaseStatus) !== Some LeaseStatusType.Unlocked) RangeError;;
    throw_when (undefined l.(leaseId)) RangeError;;
    throw_when (defined l.(leaseExpireTime)) RangeError;;
    throw_when (undefined l.(leaseDurationSeconds)
                || (l.(leaseDurationSeconds) === Some (-1))) RangeError;;
    throw_when (defined l.(leaseDurationType)) RangeError;;
    throw_when (defined l.(leaseBreakTime)) RangeError;;
    Ok (mkState LeaseExpiredState l ctx)
  else if l.(leaseState) === Some LeaseStateType.Leased then
    throw_when (l.(leaseStatus) !== Some LeaseStatusType.Locked) RangeError;;
    throw_when (undefined l.(leaseId)) RangeError;;
    throw_when (undefined l.(leaseExpireTime) || pending ctx l.(leaseExpireTime)) RangeError;;
    throw_when (undefined l.(leaseDurationSeconds)
                || (l.(leaseDurationSeconds) === Some (-1))) RangeError;;
    throw_when (l.(leaseDurationType) !== Some LeaseDurationType.Fixed) RangeError;;
    throw_when (defined l.(leaseBreakTime)) RangeError;;
    Ok (mkState LeaseExpiredState (expiredLease l.(leaseId) l.(leaseDurationSeconds)) ctx)
  else Throw RangeError.

(** ** [LeaseFactory.createLeaseState] *)

Definition createLeaseState (l : ILease) (ctx : Context) : res ILeaseState :=
  throw_when (undefined ctx.(startTime)) RangeError;;
  if (l.(leaseState) === Some LeaseStateType.Available) || undefined l.(leaseState) then
    new_LeaseAvailableState l ctx
  else if l.(leaseState) === Some LeaseStateType.Leased then
    if undefined l.(leaseExpireTime) || pending ctx l.(leaseExpireTime)
    then new_LeaseLeasedState l ctx
    else new_LeaseExpiredState l ctx
  else if l.(leaseState) === Some LeaseStateType.Expired then
    new_LeaseExpiredState l ctx
  else if l.(leaseState) === Some LeaseStateType.Breaking then
    throw_when (undefined l.(leaseBreakTime)) RangeError;;
    if pending ctx l.(leaseBreakTime)
    then new_LeaseBreakingState l ctx
    else new_LeaseBrokenState l ctx
  else if l.(leaseState) === Some LeaseStateType.Broken then
    new_LeaseBrokenState l ctx
  else Throw RangeError.

(** ** Operations, class by class

    [uuid] is the value the call of the package [uuid] returns, should the
    operation draw one. [proposedLeaseId] has the default [""]. *)

Definition invalid_duration (duration : Z) : bool :=
  ((duration <? 15) || (60 <? duration)) && negb (duration =? -1).

(** The leased state every granting [acquire] builds. *)
Definition grant (uuid : string) (ctx : Context) (duration : Z) (proposedLeaseId : string) :
    res ILeaseState :=
  let id := str_or proposedLeaseId uuid in
  if duration =? -1 then
    new_LeaseLeasedState
      (mkLease (Some id) (Some LeaseStateType.Leased) (Some LeaseStatusType.Locked)
         (Some LeaseDurationType.Infinite) None None None) ctx
  else
    new_LeaseLeasedState
      (mkLease (Some id) (Some LeaseStateType.Leased) (Some LeaseStatusType.Locked)
         (Some LeaseDurationType.Fixed) (Some duration)
         ((fun now => now + duration * 1000) <$> ctx.(startTime)) None) ctx.

(** The breaking state that ends at [until]. *)
Definition breakingLease (id : option string) (until : option Z) : ILease :=
  mkLease id (Some LeaseStateType.Breaking) (Some LeaseStatusType.Locked)
    None None None until.

Module LeaseAvailable.

Definition acquire (uuid : string) (this : ILeaseState) (duration : Z)
    (proposedLeaseId : option string) : res ILeaseState :=
  throw_when (invalid_duration duration)
    (getInvalidLeaseDuration this.(context).(contextId));;
  grant uuid this.(context) duration (default EmptyString proposedLeaseId).

Definition break (this : ILeaseState) (breakPeriod : option Z) : res ILeaseState :=
  Throw (getLeaseNotPresentWithLeaseOperation this.(context).(contextId)).

Definition renew (this : ILeaseState) (id : string) : res ILeaseState :=
  Throw (getLeaseIdMismatchWithLeaseOperation this.(context).(contextId)).

Definition change (this : ILeaseState) (id proposedLeaseId : string) : res ILeaseState :=
  Throw (getLeaseNotPresentWithLeaseOperation this.(context).(contextId)).

Definition release (this : ILeaseState) (id : string) : res ILeaseState :=
  Throw (getLeaseIdMismatchWithLeaseOperation this.(context).(contextId)).

End LeaseAvailable.

Module LeaseLeased.

Definition acquire (uuid : string) (this : ILeaseState) (duration : Z)
    (proposedLeaseId : option string) : res ILeaseState :=
  let proposed := default EmptyString proposedLeaseId in
  throw_when (Some proposed !== this.(lease).(leaseId))
    (getLeaseAlreadyPresent this.(context).(contextId));;
  throw_when (invalid_duration duration)
    (getInvalidLeaseDuration this.(context).(contextId));;
  grant uuid this.(context) duration proposed.

Definition break (this : ILeaseState) (breakPeriod : option Z) : res ILeaseState :=
  let id := this.(lease).(leaseId) in
  let now := this.(context).(startTime) in
  if this.(lease).(leaseDurationType) === Some LeaseDurationType.Infinite then
    match breakPeriod with
    | None | Some 0 => new_LeaseBrokenState (brokenLease id) this.(context)
    | Some p =>
        new_LeaseBreakingState
          (breakingLease id ((fun t => t + p * 1000) <$> now)) this.(context)
    end
  else
    match breakPeriod with
    | Some 0 => new_LeaseBrokenState (brokenLease id) this.(context)
    | None =>
        new_LeaseBreakingState
          (breakingLease id this.(lease).(leaseExpireTime)) this.(context)
    | Some p =>
        throw_when ((p <? 0) || (60 <? p))
          (getInvalidLeaseBreakPeriod this.(context).(contextId));;
        new_LeaseBreakingState
          (breakingLease id
             (e ← this.(lease).(leaseExpireTime);
              t ← now; Some (minDate e (t + p * 1000)))) this.(context)
    end.

Definition renew (this : ILeaseState) (id : string) : res ILeaseState :=
  throw_when (this.(lease).(leaseId) !== Some id)
    (getLeaseIdMismatchWithLeaseOperation this.(context).(contextId));;
  if this.(lease).(leaseDurationType) === Some LeaseDurationType.Infinite then Ok this
  else
    new_LeaseLeasedState
      (mkLease this.(lease).(leaseId) (Some LeaseStateType.Leased)
         (Some LeaseStatusType.Locked) (Some LeaseDurationType.Fixed)
         this.(lease).(leaseDurationSeconds)
         (t ← this.(context).(startTime);
          s ← this.(lease).(leaseDurationSeconds); Some (t + s * 1000))
         None) this.(context).

Definition change (this : ILeaseState) (id proposedLeaseId : string) : res ILeaseState :=
  throw_when ((this.(lease).(leaseId) !== Some id)
              && (this.(lease).(leaseId) !== Some proposedLeaseId))
    (getLeaseIdMismatchWithLeaseOperation this.(context).(contextId));;
  new_LeaseLeasedState
    (mkLease (Some proposedLeaseId) (Some LeaseStateType.Leased)
       (Some LeaseStatusType.Locked) this.(lease).(leaseDurationType)
       this.(lease).(leaseDurationSeconds) this.(lease).(leaseExpireTime) None)
    this.(context).

Definition release (this : ILeaseState) (id : string) : res ILeaseState :=
  throw_when (this.(lease).(leaseId) !== Some id)
    (getLeaseIdMismatchWithLeaseOperation this.(context).(contextId));;
  new_LeaseAvailableState availableLease this.(context).

End LeaseLeased.

Module LeaseBreaking.

Definition acquire (uuid : string) (this : ILeaseState) (duration : Z)
    (proposedLeaseId : option string) : res ILeaseState :=
  if Some (default EmptyString proposedLeaseId) === this.(lease).(leaseId)
  then Throw (getLeaseIsBreakingAndCannotBeAcquired this.(context).(contextId))
  else Throw (getLeaseAlreadyPresent this.(context).(contextId)).

Definition break (this : ILeaseState) (breakPeriod : option Z) : res ILeaseState :=
  let id := this.(lease).(leaseId) in
  match breakPeriod with
  | None => Ok this
  | Some p =>
      if p =? 0 then new_LeaseBrokenState (brokenLease id) this.(context)
      else if (0 <? p) && (p <=? 60) then
        new_LeaseBreakingState
          (breakingLease id
             (e ← this.(lease).(leaseBreakTime);
              t ← this.(context).(startTime); Some (minDate e (t + p * 1000))))
          this.(context)
      else Throw (getInvalidLeaseBreakPeriod this.(context).(contextId))
  end.

Definition renew (this : ILeaseState) (proposedLeaseId : string) : res ILeaseState :=
  if Some proposedLeaseId === this.(lease).(leaseId)
  then Throw (getLeaseIsBrokenAndCannotBeRenewed this.(context).(contextId))
  else Throw (getLeaseIdMismatchWithLeaseOperation this.(context).(contextId)).

(** [change(proposedLeaseId)] is declared with one parameter and called with
    two: it receives the caller's current lease id. *)
Definition change (this : ILeaseState) (id proposedLeaseId : string) : res ILeaseState :=
  if Some id === this.(lease).(leaseId)
  then Throw (getLeaseIsBreakingAndCannotBeChanged this.(context).(contextId))
  else Throw (getLeaseIdMismatchWithLeaseOperation this.(context).(contextId)).

Definition release (this : ILeaseState) (id : string) : res ILeaseState :=
  throw_when (this.(lease).(leaseId) !== Some id)
    (getLeaseIdMismatchWithLeaseOperation this.(context).(contextId));;
  new_LeaseAvailableState availableLease this.(context).

End LeaseBreaking.

Module LeaseBroken.

Definition acquire (uuid : string) (this : ILeaseState) (duration : Z)
    (proposedLeaseId : option string) : res ILeaseState :=
  throw_when (invalid_duration duration)
    (getInvalidLeaseDuration this.(context).(contextId));;
  grant uuid this.(context) duration (default EmptyString proposedLeaseId).

Definition break (this : ILeaseState) (breakPeriod : option Z) : res ILeaseState :=
  Ok this.

Definition renew (this : ILeaseState) (proposedLeaseId : string) : res ILeaseState :=
  if Some proposedLeaseId === this.(lease).(leaseId)
  then Throw (getLeaseIsBrokenAndCannotBeRenewed this.(context).(contextId))
  else Throw (getLeaseIdMismatchWithLeaseOperation this.(context).(contextId)).

Definition change (this : ILeaseState) (id proposedLeaseId : string) : res ILeaseState :=
  Throw (getLeaseNotPresentWithLeaseOperation this.(context).(contextId)).

Definition release (this : ILeaseState) (id : string) : res ILeaseState :=
  throw_when (this.(lease).(leaseId) !== Some id)
    (getLeaseIdMismatchWithLeaseOperation this.(context).(contextId));;
  new_LeaseAvailableState availableLease this.(context).

End LeaseBroken.

Module LeaseExpired.

Definition acquire (uuid : string) (this : ILeaseState) (duration : Z)
    (proposedLeaseId : option string) : res ILeaseState :=
  throw_when (invalid_duration duration)
    (getInvalidLeaseDuration this.(context).(contextId));;
  grant uuid this.(context) duration (default EmptyString proposedLeaseId).

Definition break (this : ILeaseState) (breakPeriod : option Z) : res ILeaseState :=
  new_LeaseBrokenState (brokenLease this.(lease).(leaseId)) this.(context).

(** [renew()] ignores the lease id it is called with. *)
Definition renew (this : ILeaseState) (id : string) : res ILeaseState :=
  new_LeaseLeasedState
    (mkLease this.(lease).(leaseId) (Some LeaseStateType.Leased)
       (Some LeaseStatusType.Locked) (Some LeaseDurationType.Fixed)
       this.(lease).(leaseDurationSeconds)
       (t ← this.(context).(startTime);
        s ← this.(lease).(leaseDurationSeconds); Some (t + s * 1000))
       None) this.(context).

Definition change (this : ILeaseState) (id proposedLeaseId : string) : res ILeaseState :=
  Throw (getLeaseNotPresentWithLeaseOperation this.(context).(contextId)).

Definition release (this : ILeaseState) (id : string) : res ILeaseState :=
  throw_when (this.(lease).(leaseId) !== Some id)
    (getLeaseIdMismatchWithLeaseOperation this.(context).(contextId));;
  new_LeaseAvailableState availableLease this.(context).

End LeaseExpired.

(** ** Dynamic dispatch: the interface [ILeaseState] *)

Definition acquire (uuid : string) (this : ILeaseState) :=
  match this.(class_of) with
  | LeaseAvailableState => LeaseAvailable.acquire uuid this
  | LeaseLeasedState => LeaseLeased.acquire uuid this
  | LeaseBreakingState => LeaseBreaking.acquire uuid this
  | LeaseBrokenState => LeaseBroken.acquire uuid this
  | LeaseExpiredState => LeaseExpired.acquire uuid this
  end.

Definition break (this : ILeaseState) :=
  match this.(class_of) with
  | LeaseAvailableState => LeaseAvailable.break this
  | LeaseLeasedState => LeaseLeased.break this
  | LeaseBreakingState => LeaseBreaking.break this
  | LeaseBrokenState => LeaseBroken.break this
  | LeaseExpiredState => LeaseExpired.break this
  end.

Definition renew (this : ILeaseState) :=
  match this.(class_of) with
  | LeaseAvailableState => LeaseAvailable.renew this
  | LeaseLeasedState => LeaseLeased.renew this
  | LeaseBreakingState => LeaseBreaking.renew this
  | LeaseBrokenState => LeaseBroken.renew this
  | LeaseExpiredState => LeaseExpired.renew this
  end.

Definition change (this : ILeaseState) :=
  match this.(class_of) with
  | LeaseAvailableState => LeaseAvailable.change this
  | LeaseLeasedState => LeaseLeased.change this
  | LeaseBreakingState => LeaseBreaking.change this
  | LeaseBrokenState => LeaseBroken.change this
  | LeaseExpiredState => LeaseExpired.change this
  end.

Definition release (this : ILeaseState) :=
  match this.(class_of) with
  | LeaseAvailableState => LeaseAvailable.release this
  | LeaseLeasedState => LeaseLeased.release this
  | LeaseBreakingState => LeaseBreaking.release this
  | LeaseBrokenState => LeaseBroken.release this
  | LeaseExpiredState => LeaseExpired.release this
  end.

(** ** Adapters and syncers

    The seven fields of [BlobModel] and of [ContainerModel] that hold the
    lease of the stored resource. *)
Record LeaseFields := mkFields {
  f_leaseId : option string;
  f_leaseDurationSeconds : option Z;
  f_leaseExpireTime : option Z;
  f_leaseBreakTime : option Z;
  p_leaseDuration : option LeaseDurationType.t;
  p_leaseState : option LeaseStateType.t;
  p_leaseStatus : option LeaseStatusType.t
}.

(** [new BlobLeaseAdapter(blob)]: the adapter, and the model after the
    defaults the constructor writes into it. *)
Definition BlobLeaseAdapter (blob : LeaseFields) : ILease * LeaseFields :=
  let st := default LeaseStateType.Available blob.(p_leaseState) in
  let stt := default LeaseStatusType.Unlocked blob.(p_leaseStatus) in
  (mkLease blob.(f_leaseId) (Some st) (Some stt) blob.(p_leaseDuration)
     blob.(f_leaseDurationSeconds) blob.(f_leaseExpireTime) blob.(f_leaseBreakTime),
   mkFields blob.(f_leaseId) blob.(f_leaseDurationSeconds) blob.(f_leaseExpireTime)
     blob.(f_leaseBreakTime) blob.(p_leaseDuration) (Some st) (Some stt)).

Definition ContainerLeaseAdapter (container : LeaseFields) : res ILease :=
  throw_when (undefined container.(p_leaseState)) RangeError;;
  throw_when (undefined container.(p_leaseStatus)) RangeError;;
  Ok (mkLease container.(f_leaseId) container.(p_leaseState) container.(p_leaseStatus)
        container.(p_leaseDuration) container.(f_leaseDurationSeconds)
        container.(f_leaseExpireTime) container.(f_leaseBreakTime)).

Definition BlobLeaseSyncer_sync (blob : LeaseFields) (l : ILease) : LeaseFields :=
  mkFields l.(leaseId) l.(leaseDurationSeconds) l.(leaseExpireTime) l.(leaseBreakTime)
    l.(leaseDurationType) l.(leaseState) l.(leaseStatus).

Definition ContainerLeaseSyncer_sync (container : LeaseFields) (l : ILease) : LeaseFields :=
  mkFields l.(leaseId) l.(leaseDurationSeconds) l.(leaseExpireTime) l.(leaseBreakTime)
    l.(leaseDurationType) l.(leaseState) l.(leaseStatus).

Definition BlobWriteLeaseSyncer_sync (blob : LeaseFields) (l : ILease) : LeaseFields :=
  if (l.(leaseState) === Some LeaseStateType.Expired)
     || (l.(leaseState) === Some LeaseStateType.Broken) then
    mkFields None None None None None
      (Some LeaseStateType.Available) (Some LeaseStatusType.Unlocked)
  else
    mkFields l.(leaseId) l.(leaseDurationSeconds) l.(leaseExpireTime) l.(leaseBreakTime)
      l.(leaseDurationType) l.(leaseState) l.(leaseStatus).

(** ** Validators

    A validator carries [leaseAccessConditions?.leaseId] of the request. *)

(** [lease.leaseId !== undefined && id.toLowerCase() !== lease.leaseId.toLowerCase()]. *)
Definition id_mismatch (l : ILease) (id : string) : bool :=
  match l.(leaseId) with
  | Some lid => toLowerCase id !== toLowerCase lid
  | None => false
  end.

Definition BlobReadLeaseValidator (leaseAccessId : option string)
    (l : ILease) (ctx : Context) : res unit :=
  match leaseAccessId with
  | Some (String _ _ as id) =>
      if l.(leaseStatus) === Some LeaseStatusType.Unlocked
      then Throw (getBlobLeaseLost ctx.(contextId))
      else if id_mismatch l id
      then Throw (getBlobLeaseIdMismatchWithBlobOperation ctx.(contextId))
      else Ok tt
  | _ => Ok tt
  end.

Definition BlobWriteLeaseValidator (leaseAccessId : option string)
    (l : ILease) (ctx : Context) : res unit :=
  if l.(leaseStatus) === Some LeaseStatusType.Locked then
    match leaseAccessId with
    | None | Some EmptyString => Throw (getBlobLeaseIdMissing ctx.(contextId))
    | Some id =>
        if id_mismatch l id
        then Throw (getBlobLeaseIdMismatchWithBlobOperation ctx.(contextId))
        else Ok tt
    end
  else if nonempty leaseAccessId then Throw (getBlobLeaseLost ctx.(contextId))
  else Ok tt.

Definition ContainerReadLeaseValidator (leaseAccessId : option string)
    (l : ILease) (ctx : Context) : res unit :=
  match leaseAccessId with
  | Some (String _ _ as id) =>
      if l.(leaseStatus) === Some LeaseStatusType.Unlocked
      then Throw (getContainerLeaseLost ctx.(contextId))
      else if id_mismatch l id
      then Throw (getContainerLeaseIdMismatchWithContainerOperation ctx.(contextId))
      else Ok tt
  | _ => Ok tt
  end.

(** Unlike the blob validator, an empty lease id on a locked container is
    compared with the lease's. *)
Definition ContainerDeleteLeaseValidator (leaseAccessId : option string)
    (l : ILease) (ctx : Context) : res unit :=
  if l.(leaseStatus) === Some LeaseStatusType.Locked then
    match leaseAccessId with
    | None => Throw (getContainerLeaseIdMissing ctx.(contextId))
    | Some id =>
        if id_mismatch l id
        then Throw (getContainerLeaseIdMismatchWithContainerOperation ctx.(contextId))
        else Ok tt
    end
  else if nonempty leaseAccessId then Throw (getContainerLeaseLost ctx.(contextId))
  else Ok tt.

(** [LeaseStateBase.validate]. *)
Definition validate (this : ILeaseState)
    (validator : ILease -> Context -> res unit) : res ILeaseState :=
  _ ← validator this.(lease) this.(context); Ok this.

(** [LeaseStateBase.sync]. *)
Definition sync {T} (this : ILeaseState) (syncer : ILease -> T) : T :=
  syncer this.(lease).

