(* ===== verification/LeaseSpec.v ===== *)
(** * LeaseSpec: the lease protocol, and the refinement of the state classes

    [LeaseView] is a lease as a client thinks of it. [settle] is what the
    passing of time does to it, [spec_op] what a request does. The theorems
    show that [createLeaseState] is [settle], that every operation is
    [spec_op], that no run-time check of the state classes can fail on a lease
    the system stored itself, and what the protocol guarantees the holder. *)

From S2P Require Import Prelude Errors Lease.
Import BlobErrors.

(** ** The abstract lease *)

Inductive LeaseView :=
| VNone
| VAvailable
| VInfinite (id : string)
| VFixed (id : string) (seconds expire : Z)
| VBreaking (id : string) (until : Z)
| VBroken (id : string)
| VExpired (id : string) (seconds : Z).

(** The representation of a view as the stored record. *)
Definition encode (v : LeaseView) : ILease :=
  match v with
  | VNone => emptyLease
  | VAvailable => availableLease
  | VInfinite id =>
      mkLease (Some id) (Some LeaseStateType.Leased) (Some LeaseStatusType.Locked)
        (Some LeaseDurationType.Infinite) None None None
  | VFixed id s e =>
      mkLease (Some id) (Some LeaseStateType.Leased) (Some LeaseStatusType.Locked)
        (Some LeaseDurationType.Fixed) (Some s) (Some e) None
  | VBreaking id u => breakingLease (Some id) (Some u)
  | VBroken id => brokenLease (Some id)
  | VExpired id s => expiredLease (Some id) (Some s)
  end.

Definition view_class (v : LeaseView) : StateClass :=
  match v with
  | VNone | VAvailable => LeaseAvailableState
  | VInfinite _ | VFixed _ _ _ => LeaseLeasedState
  | VBreaking _ _ => LeaseBreakingState
  | VBroken _ => LeaseBrokenState
  | VExpired _ _ => LeaseExpiredState
  end.

Definition state_of (ctx : Context) (v : LeaseView) : ILeaseState :=
  mkState (view_class v) (encode v) ctx.

(** Time: a fixed lease expires, a breaking lease becomes broken. *)
Definition settle (now : Z) (v : LeaseView) : LeaseView :=
  match v with
  | VFixed id s e => if e <=? now then VExpired id s else v
  | VBreaking id u => if u <=? now then VBroken id else v
  | _ => v
  end.

(** The durations a stored fixed lease can have. *)
Definition valid (v : LeaseView) : Prop :=
  match v with
  | VFixed _ s _ | VExpired _ s => 15 <= s <= 60
  | _ => True
  end.

(** The id that holds the resource locked, if any. *)
Definition holder (v : LeaseView) : option string :=
  match v with
  | VInfinite id | VFixed id _ _ | VBreaking id _ => Some id
  | _ => None
  end.

(** ** The abstract operations *)

Inductive lease_op :=
| OpAcquire (uuid : string) (duration : Z) (proposed : option string)
| OpBreak (period : option Z)
| OpRenew (id : string)
| OpChange (id proposed : string)
| OpRelease (id : string).

Definition spec_grant (now : Z) (uuid : string) (duration : Z) (proposed : string) : LeaseView :=
  let id := str_or proposed uuid in
  if duration =? -1 then VInfinite id else VFixed id duration (now + duration * 1000).

Definition spec_acquire (cid : option string) (now : Z) (uuid : string) (duration : Z)
    (proposed : string) (v : LeaseView) : res LeaseView :=
  match v with
  | VInfinite id | VFixed id _ _ =>
      throw_when (proposed !== id) (getLeaseAlreadyPresent cid);;
      throw_when (invalid_duration duration) (getInvalidLeaseDuration cid);;
      Ok (spec_grant now uuid duration proposed)
  | VBreaking id _ =>
      if proposed === id then Throw (getLeaseIsBreakingAndCannotBeAcquired cid)
      else Throw (getLeaseAlreadyPresent cid)
  | _ =>
      throw_when (invalid_duration duration) (getInvalidLeaseDuration cid);;
      Ok (spec_grant now uuid duration proposed)
  end.

Definition spec_break (cid : option string) (now : Z) (period : option Z)
    (v : LeaseView) : res LeaseView :=
  match v, period with
  | (VNone | VAvailable), _ => Throw (getLeaseNotPresentWithLeaseOperation cid)
  | VInfinite id, None => Ok (VBroken id)
  | VInfinite id, Some p =>
      if p =? 0 then Ok (VBroken id)
      else throw_when (p <? 0) RangeError;; Ok (VBreaking id (now + p * 1000))
  | VFixed id _ e, None => Ok (VBreaking id e)
  | VFixed id _ e, Some p | VBreaking id e, Some p =>
      if p =? 0 then Ok (VBroken id)
      else throw_when ((p <? 0) || (60 <? p)) (getInvalidLeaseBreakPeriod cid);;
           Ok (VBreaking id (Z.min e (now + p * 1000)))
  | VBreaking _ _, None | VBroken _, _ => Ok v
  | VExpired id _, _ => Ok (VBroken id)
  end.

Definition spec_renew (cid : option string) (now : Z) (id : string)
    (v : LeaseView) : res LeaseView :=
  match v with
  | VNone | VAvailable => Throw (getLeaseIdMismatchWithLeaseOperation cid)
  | VInfinite i =>
      if i === id then Ok v else Throw (getLeaseIdMismatchWithLeaseOperation cid)
  | VFixed i s _ =>
      if i === id then Ok (VFixed i s (now + s * 1000))
      else Throw (getLeaseIdMismatchWithLeaseOperation cid)
  | VBreaking i _ | VBroken i =>
      if id === i then Throw (getLeaseIsBrokenAndCannotBeRenewed cid)
      else Throw (getLeaseIdMismatchWithLeaseOperation cid)
  | VExpired i s => Ok (VFixed i s (now + s * 1000))
  end.

Definition spec_change (cid : option string) (id proposed : string)
    (v : LeaseView) : res LeaseView :=
  match v with
  | VInfinite i =>
      if (i !== id) && (i !== proposed) then Throw (getLeaseIdMismatchWithLeaseOperation cid)
      else Ok (VInfinite proposed)
  | VFixed i s e =>
      if (i !== id) && (i !== proposed) then Throw (getLeaseIdMismatchWithLeaseOperation cid)
      else Ok (VFixed proposed s e)
  | VBreaking i _ =>
      if id === i then Throw (getLeaseIsBreakingAndCannotBeChanged cid)
      else Throw (getLeaseIdMismatchWithLeaseOperation cid)
  | _ => Throw (getLeaseNotPresentWithLeaseOperation cid)
  end.

Definition spec_release (cid : option string) (id : string) (v : LeaseView) : res LeaseView :=
  match v with
  | VNone | VAvailable => Throw (getLeaseIdMismatchWithLeaseOperation cid)
  | VInfinite i | VFixed i _ _ | VBreaking i _ | VBroken i | VExpired i _ =>
      if i === id then Ok VAvailable else Throw (getLeaseIdMismatchWithLeaseOperation cid)
  end.

Definition spec_op (cid : option string) (now : Z) (op : lease_op) (v : LeaseView) :
    res LeaseView :=
  match op with
  | OpAcquire uuid d p => spec_acquire cid now uuid d (default EmptyString p) v
  | OpBreak p => spec_break cid now p v
  | OpRenew id => spec_renew cid now id v
  | OpChange id p => spec_change cid id p v
  | OpRelease id => spec_release cid id v
  end.

(** ** The code's side: one request against a stored lease *)

Definition run_op (op : lease_op) (this : ILeaseState) : res ILeaseState :=
  match op with
  | OpAcquire uuid d p => acquire uuid this d p
  | OpBreak p => break this p
  | OpRenew id => renew this id
  | OpChange id p => change this id p
  | OpRelease id => release this id
  end.

(** [LeaseFactory.createLeaseState(lease, context).op(...).sync(syncer)]. *)
Definition lease_request (ctx : Context) (op : lease_op) (stored : ILease) : res ILease :=
  st ← createLeaseState stored ctx;
  st' ← run_op op st;
  Ok (sync st' id).

(** [createLeaseState(...).validate(new BlobWriteLeaseValidator(...)).sync(new BlobWriteLeaseSyncer(blob))]:
    what every write of a blob does with its lease. *)
Definition write_request (ctx : Context) (leaseAccessId : option string)
    (blob : LeaseFields) : res LeaseFields :=
  let (l, blob) := BlobLeaseAdapter blob in
  st ← createLeaseState l ctx;
  st' ← validate st (BlobWriteLeaseValidator leaseAccessId);
  Ok (sync st' (BlobWriteLeaseSyncer_sync blob)).

(** ** Reachable leases

    What the system can have stored: the lease of a new resource, then any
    sequence of lease requests, reads (which write the settled lease back) and
    blob writes, at any times, in any order. *)

Definition fields_of (l : ILease) : LeaseFields :=
  mkFields l.(leaseId) l.(leaseDurationSeconds) l.(leaseExpireTime) l.(leaseBreakTime)
    l.(leaseDurationType) l.(leaseState) l.(leaseStatus).

Definition lease_of (f : LeaseFields) : ILease :=
  mkLease f.(f_leaseId) f.(p_leaseState) f.(p_leaseStatus) f.(p_leaseDuration)
    f.(f_leaseDurationSeconds) f.(f_leaseExpireTime) f.(f_leaseBreakTime).

Inductive reachable : ILease -> Prop :=
| reach_none : reachable emptyLease
| reach_new : reachable availableLease
| reach_request cid now op l l' :
    reachable l ->
    lease_request (mkContext (Some now) cid) op l = Ok l' -> reachable l'
| reach_read cid now l st :
    reachable l ->
    createLeaseState l (mkContext (Some now) cid) = Ok st -> reachable (sync st id)
| reach_write cid now acc l f :
    reachable l ->
    write_request (mkContext (Some now) cid) acc (fields_of l) = Ok f ->
    reachable (lease_of f).

(** The request presents [id] as a lease id of its own. *)
Definition quotes (op : lease_op) (id : string) : bool :=
  match op with
  | OpAcquire _ _ p => default EmptyString p === id
  | OpBreak _ => false
  | OpRenew i | OpRelease i => i === id
  | OpChange i p => (i === id) || (p === id)
  end.

Definition is_break (op : lease_op) : bool :=
  match op with OpBreak _ => true | _ => false end.

(** A break request with a negative period: no check of the code rejects it
    on an infinite lease. *)
Definition negative_break (op : lease_op) : bool :=
  match op with OpBreak (Some p) => p <? 0 | _ => false end.

(** How long the resource stays locked if nobody touches it: [None] is for
    ever, [Some t] until [t]. *)
Definition locked_until (now : Z) (v : LeaseView) : option Z :=
  match settle now v with
  | VInfinite _ => None
  | VFixed _ _ e => Some e
  | VBreaking _ u => Some u
  | _ => Some now
  end.

(** ** Refinement *)

Section Refinement.
Context (cid : option string) (now : Z).
Local Abbreviation ctx := (mkContext (Some now) cid).

Lemma create_refines v :
  valid v -> createLeaseState (encode v) ctx = Ok (state_of ctx (settle now v)).
Proof.
  destruct v; intros Hv;
    unfold createLeaseState, new_LeaseLeasedState, new_LeaseExpiredState,
      new_LeaseBreakingState, new_LeaseBrokenState, reached, pending;
    by_guards.
Qed.

Lemma acquire_refines uuid d p v :
  valid v -> settle now v = v ->
  acquire uuid (state_of ctx v) d p
  = state_of ctx <$> spec_acquire cid now uuid d (default EmptyString p) v.
Proof.
  destruct v; intros Hv Hs; cbn in *;
    unfold LeaseAvailable.acquire, LeaseLeased.acquire, LeaseBreaking.acquire,
      LeaseBroken.acquire, LeaseExpired.acquire, grant, spec_grant,
      invalid_duration; cbn; by_guards.
Qed.

Lemma break_refines p v :
  valid v -> settle now v = v ->
  break (state_of ctx v) p = state_of ctx <$> spec_break cid now p v.
Proof.
  destruct p as [[|p|p]|], v; intros Hv Hs; cbn in *;
    unfold LeaseLeased.break, LeaseBreaking.break, LeaseExpired.break,
      minDate, Z.min; cbn;
    repeat match goal with |- context [(?a ?= ?b)] => destruct (Z.compare_spec a b) end;
    by_guards.
Qed.

Lemma renew_refines id v :
  valid v -> settle now v = v ->
  renew (state_of ctx v) id = state_of ctx <$> spec_renew cid now id v.
Proof.
  destruct v; intros Hv Hs; cbn in *;
    unfold LeaseLeased.renew, LeaseBreaking.renew, LeaseBroken.renew,
      LeaseExpired.renew; cbn; by_guards.
Qed.

Lemma change_refines id p v :
  valid v -> settle now v = v ->
  change (state_of ctx v) id p = state_of ctx <$> spec_change cid id p v.
Proof.
  destruct v; intros Hv Hs; cbn in *;
    unfold LeaseLeased.change, LeaseBreaking.change; cbn; by_guards.
Qed.

Lemma release_refines id v :
  valid v -> settle now v = v ->
  release (state_of ctx v) id = state_of ctx <$> spec_release cid id v.
Proof.
  destruct v; intros Hv Hs; cbn in *;
    unfold LeaseLeased.release, LeaseBreaking.release, LeaseBroken.release,
      LeaseExpired.release; cbn; by_guards.
Qed.

#[local] Hint Resolve acquire_refines break_refines renew_refines change_refines
  release_refines : azurite.

Lemma run_op_refines op v :
  valid v -> settle now v = v ->
  run_op op (state_of ctx v) = state_of ctx <$> spec_op cid now op v.
Proof. destruct op; cbn [run_op spec_op]; auto with azurite. Qed.

Lemma settle_valid v : valid v -> valid (settle now v).
Proof. destruct v; intros; by_guards. Qed.

Lemma settle_idemp v : settle now (settle now v) = settle now v.
Proof. destruct v; by_guards. Qed.

#[local] Hint Resolve settle_valid settle_idemp : azurite.

Lemma lease_request_spec op v :
  valid v ->
  lease_request ctx op (encode v) = encode <$> spec_op cid now op (settle now v).
Proof.
  intros Hv. unfold lease_request.
  rewrite create_refines by done. cbn.
  rewrite run_op_refines by auto with azurite.
  by destruct (spec_op _ _ _ _).
Qed.

Lemma spec_op_valid op v v' :
  valid v -> spec_op cid now op v = Ok v' -> valid v'.
Proof.
  destruct op as [u d p|p|i|i p|i], v; cbn; unfold spec_grant, invalid_duration;
    try destruct p; intros Hv H; revert H; by_guards.
Qed.

End Refinement.

(** ** The protocol's guarantees *)

(** Reading a stored blob's lease: the adapter turns a missing lease into an
    available one and the factory settles it. *)
Lemma adapter_settles cid now v :
  valid v ->
  createLeaseState (BlobLeaseAdapter (fields_of (encode v))).1 (mkContext (Some now) cid)
  = Ok (state_of (mkContext (Some now) cid)
          (match settle now v with VNone => VAvailable | w => w end)).
Proof.
  intros Hv. destruct v as [| |i|i s e|i u|i|i s]; try done.
  - change (BlobLeaseAdapter _).1 with (encode (VFixed i s e)).
    rewrite create_refines by done. cbn. by case_match.
  - change (BlobLeaseAdapter _).1 with (encode (VBreaking i u)).
    rewrite create_refines by done. cbn. by case_match.
  - exact (create_refines cid now (VExpired i s) Hv).
Qed.

Lemma write_request_spec cid now acc v :
  valid v ->
  write_request (mkContext (Some now) cid) acc (fields_of (encode v))
  = match holder (settle now v), acc with
    | Some id, Some (String _ _ as a) =>
        if toLowerCase a === toLowerCase id
        then Ok (fields_of (encode (settle now v)))
        else Throw (getBlobLeaseIdMismatchWithBlobOperation cid)
    | Some _, _ => Throw (getBlobLeaseIdMissing cid)
    | None, Some (String _ _) => Throw (getBlobLeaseLost cid)
    | None, _ => Ok (fields_of availableLease)
    end.
Proof.
  intros Hv. unfold write_request.
  rewrite (surjective_pairing (BlobLeaseAdapter _)), adapter_settles by done. cbn.
  destruct (settle now v) as [| |i|i s e|i u|i|i s], acc as [[|a acc]|]; try done;
    cbn; unfold validate, BlobWriteLeaseValidator, id_mismatch; cbn; by guards.
Qed.

Lemma reachable_view l : reachable l -> exists v, valid v /\ l = encode v.
Proof.
  induction 1 as [| |cid now op l l' _ [v [Hv ->]] H|cid now l st _ [v [Hv ->]] H
                  |cid now acc l f _ [v [Hv ->]] H].
  - by exists VNone.
  - by exists VAvailable.
  - rewrite lease_request_spec in H by done.
    destruct (spec_op _ _ _ _) as [v'|] eqn:E; simplify_eq/=.
    exists v'. split; [|done].
    eapply spec_op_valid, E. by apply settle_valid.
  - rewrite create_refines in H by done. simplify_eq/=.
    eauto using settle_valid.
  - rewrite write_request_spec in H by done.
    assert (Hs : valid (settle now v)) by by apply settle_valid.
    destruct (holder (settle now v)) eqn:Eh, acc as [[|a acc]|];
      try case_bool_decide; simplify_eq.
    + exists (settle now v). by destruct (settle now v).
    + by exists VAvailable.
    + by exists VAvailable.
Qed.

(** C7. On every reachable lease, each lease request (create the state object,
    run the operation, sync it back) returns exactly what the abstract protocol
    says of the time-settled lease: the same new lease, or the same error. *)
Theorem lease_request_refines_protocol (l : ILease) (Hr : reachable l) :
  exists v, valid v /\ l = encode v /\
    forall cid now op,
      lease_request (mkContext (Some now) cid) op l
      = encode <$> spec_op cid now op (settle now v).
Proof.
  destruct (reachable_view l Hr) as [v [Hv ->]].
  exists v. split_and!; [done|done|]. intros. by apply lease_request_spec.
Qed.

(** C8. The run-time checks of the five constructors and of the factory never
    fail on a reachable lease: a rejected lease request gets a [StorageError] of
    status 400 or 409, but for a break with a negative period of an infinite
    lease, which is an internal error. *)
Theorem lease_request_never_internal_error l cid now op e
    (Hr : reachable l)
    (He : lease_request (mkContext (Some now) cid) op l = Throw e) :
  (exists s, e = Storage s /\ (s.(statusCode) = 400 \/ s.(statusCode) = 409)) \/
  (negative_break op = true /\ l.(leaseDurationType) = Some LeaseDurationType.Infinite /\ e = RangeError).
Proof.
  destruct (reachable_view l Hr) as [v [Hv ->]].
  rewrite lease_request_spec in He by done.
  assert (Hinf : forall i, settle now v = VInfinite i -> (encode v).(leaseDurationType) = Some LeaseDurationType.Infinite).
  { intros i. destruct v; cbn; guards; done. }
  revert He Hinf. clear.
  destruct op as [u d p|[p|]|i|i p|i], (settle now v); cbn;
    try destruct (invalid_duration d); guards; intros; guards;
    first [by left; eexists; split; [reflexivity|]; auto
          | right; split_and!; [done|by eapply Hinf|done]
          | exfalso; lia].
Qed.

Lemma spec_op_exclusive cid now op v id :
  holder v = Some id -> is_break op = false -> quotes op id = false ->
  exists s, spec_op cid now op v = Throw (Storage s) /\ s.(statusCode) = 409.
Proof.
  intros Hh Hb Hq.
  destruct op as [u d p|p|i|i p|i], v; cbn in Hh, Hb, Hq |- *;
    simplify_eq; revert Hq; guards; intros; guards; eexists; split; reflexivity.
Qed.

(** C11. Exclusivity: while a lease is held, every acquire, renew, change or
    release that does not present the holder's id is refused with a 409, and the
    stored lease is left as it was. *)
Theorem lease_exclusive v cid now op id
    (Hv : valid v) (Hh : holder (settle now v) = Some id)
    (Hb : is_break op = false) (Hq : quotes op id = false) :
  exists s, lease_request (mkContext (Some now) cid) op (encode v) = Throw (Storage s)
            /\ s.(statusCode) = 409.
Proof.
  rewrite lease_request_spec by done.
  destruct (spec_op_exclusive cid now op _ id Hh Hb Hq) as (s&->&Hs). by exists s.
Qed.

(** Breaking only ever shortens the time a leased or breaking resource
    stays locked: the new end is no later than the old one, and no later than the
    requested period from now. *)
Theorem break_never_prolongs v cid now period l'
    (Hv : valid v)
    (H : lease_request (mkContext (Some now) cid) (OpBreak period) (encode v) = Ok l') :
  exists v' e', l' = encode v' /\ locked_until now v' = Some e' /\
    (forall e, locked_until now v = Some e -> e' <= e) /\
    (forall p, period = Some p -> holder (settle now v) <> None -> e' <= now + p * 1000).
Proof.
  rewrite lease_request_spec in H by done.
  destruct (spec_op _ _ _ _) as [v'|] eqn:E; simplify_eq/=.
  exists v'. unfold locked_until. revert E.
  assert (Hs : settle now (settle now v) = settle now v) by by apply settle_idemp.
  revert Hs.
  destruct (settle now v) as [| | |i s u|i u|i|i s], period as [[|p|p]|]; cbn;
    intros Hs HE; revert HE Hs; guards; intros; guards;
    (eexists; split_and!; [done|by cbn; by_guards|naive_solver lia..]).
Qed.

(** The write gate, on every reachable lease: a blob write goes through iff
    it presents the holder's id (compared without case) on a locked lease, or no
    id on an unlocked one; it then keeps a held lease and resets an expired or
    broken one to available; every refusal is the documented 412. *)
Theorem write_gate (l : ILease) (Hr : reachable l) :
  exists v, l = encode v /\
    forall cid now acc,
      write_request (mkContext (Some now) cid) acc (fields_of l)
      = match holder (settle now v), acc with
        | Some id, Some (String _ _ as a) =>
            if toLowerCase a === toLowerCase id
            then Ok (fields_of (encode (settle now v)))
            else Throw (getBlobLeaseIdMismatchWithBlobOperation cid)
        | Some _, _ => Throw (getBlobLeaseIdMissing cid)
        | None, Some (String _ _) => Throw (getBlobLeaseLost cid)
        | None, _ => Ok (fields_of availableLease)
        end.
Proof.
  destruct (reachable_view l Hr) as [v [Hv ->]].
  exists v. split; [done|]. intros. by apply write_request_spec.
Qed.

(** ** Witnesses *)

Definition w_ctx (now : Z) : Context := mkContext (Some now) (Some "ctx"%string).

(** A lease acquired at time 0 for 30 seconds by ["A"]. *)
Definition w_lease : ILease := encode (VFixed "A" 30 30000).

Lemma w_reachable : reachable w_lease.
Proof.
  apply (reach_request (Some "ctx"%string) 0 (OpAcquire "u" 30 (Some "A"%string)) availableLease).
  - constructor.
  - reflexivity.
Qed.

Lemma lease_request_refines_protocol_witness :
  exists v, valid v /\ w_lease = encode v /\
    forall cid now op,
      lease_request (mkContext (Some now) cid) op w_lease
      = encode <$> spec_op cid now op (settle now v).
Proof. exact (lease_request_refines_protocol w_lease w_reachable). Defined.

Lemma lease_request_never_internal_error_witness :
  (exists s, getLeaseAlreadyPresent (Some "ctx"%string) = Storage s
            /\ (s.(statusCode) = 400 \/ s.(statusCode) = 409)) \/
  (negative_break (OpAcquire "u" 30 (Some "B"%string)) = true /\
   w_lease.(leaseDurationType) = Some LeaseDurationType.Infinite /\ getLeaseAlreadyPresent (Some "ctx"%string) = RangeError).
Proof.
  apply (lease_request_never_internal_error w_lease (Some "ctx"%string) 1000
           (OpAcquire "u" 30 (Some "B"%string))).
  - exact w_reachable.
  - reflexivity.
Defined.

Lemma lease_exclusive_witness :
  exists s, lease_request (w_ctx 1000) (OpRelease "B") w_lease = Throw (Storage s)
            /\ s.(statusCode) = 409.
Proof.
  apply (lease_exclusive (VFixed "A" 30 30000) (Some "ctx"%string) 1000 (OpRelease "B") "A");
    [cbn; lia | reflexivity..].
Defined.

Lemma break_never_prolongs_witness :
  exists v' e', encode (VBreaking "A" 11000) = encode v' /\ locked_until 1000 v' = Some e' /\
    (forall e, locked_until 1000 (VFixed "A" 30 30000) = Some e -> e' <= e) /\
    (forall p, Some 10 = Some p ->
               holder (settle 1000 (VFixed "A" 30 30000)) <> None -> e' <= 1000 + p * 1000).
Proof.
  apply (break_never_prolongs (VFixed "A" 30 30000) (Some "ctx"%string) 1000 (Some 10));
    [cbn; lia | reflexivity].
Defined.

Lemma write_gate_witness :
  exists v, w_lease = encode v /\
    forall cid now acc,
      write_request (mkContext (Some now) cid) acc (fields_of w_lease)
      = match holder (settle now v), acc with
        | Some id, Some (String _ _ as a) =>
            if toLowerCase a === toLowerCase id
            then Ok (fields_of (encode (settle now v)))
            else Throw (getBlobLeaseIdMismatchWithBlobOperation cid)
        | Some _, _ => Throw (getBlobLeaseIdMissing cid)
        | None, Some (String _ _) => Throw (getBlobLeaseLost cid)
        | None, _ => Ok (fields_of availableLease)
        end.
Proof. exact (write_gate w_lease w_reachable). Defined.

(** ** Findings *)

(** An expired lease is renewed by a request that presents any id. *)
Lemma renew_expired_ignores_id cid now id s other :
  15 <= s <= 60 ->
  lease_request (mkContext (Some now) cid) (OpRenew other) (encode (VExpired id s))
  = Ok (encode (VFixed id s (now + s * 1000))).
Proof. intros Hs. by rewrite lease_request_spec. Qed.

(** A negative break period is an internal error on an infinite lease and a
    400 on a fixed one; more than 60 seconds are accepted on the former only. *)
Lemma break_infinite_unchecked cid now id :
  lease_request (mkContext (Some now) cid) (OpBreak (Some (-1))) (encode (VInfinite id))
    = Throw RangeError /\
  lease_request (mkContext (Some now) cid) (OpBreak (Some 61)) (encode (VInfinite id))
    = Ok (encode (VBreaking id (now + 61000))).
Proof. split; by rewrite lease_request_spec. Qed.
