(* ===== verification/PageRanges.v ===== *)
(** * PageRanges: the page ranges of a page blob

    src/src/blob/handlers/PageBlobRangesManager.ts, written on the arrays as
    the code has them: the search of the impacted ranges, and the operations
    that merge, clear, cut and zero-fill. PageRangesSpec reads an array of
    ranges as a map from byte positions to bytes of extents and shows what each
    operation does to that map.

    Positions are integers; a range that ends at [Infinity] is a range that
    ends beyond every stored one. *)

From S2P Require Import Prelude Errors Extents.
From Equations Require Import Equations.

(** ** Data *)

(** [PageRange]: both ends are inclusive. *)
Record PageRange := mkPageRange {
  pr_start : Z;
  pr_end : Z
}.

(** [PersistencyPageRange]: a page range and the chunk that holds its bytes. *)
Record PersistencyPageRange := mkRange {
  start : Z;
  end_ : Z;
  persistency : IExtentChunk
}.

#[export] Instance PersistencyPageRange_eq_dec : EqDecision PersistencyPageRange.
Proof. solve_decision. Defined.

(** The indexes the search returns: [Infinity] for no result. *)
Inductive Index := At (i : Z) | Infinity.

#[export] Instance Index_eq_dec : EqDecision Index.
Proof. solve_decision. Defined.

(** [i > j] on an index and a number. *)
Definition index_gt (i : Index) (j : Z) : bool :=
  match i with At i => j <? i | Infinity => true end.

(** [ranges[i]] where a property of the element is read: an index outside the
    array gives [undefined], and the property access throws. *)
Definition array_get {A} (l : list A) (i : Index) : res A :=
  match i with
  | At i =>
      throw_when (i <? 0) TypeError;;
      match l !! Z.to_nat i with Some r => Ok r | None => Throw TypeError end
  | Infinity => Throw TypeError
  end.

Arguments array_get : simpl never.

(** [l.splice(i, n, ...items)] for a non-negative [i]: a start beyond the end
    appends. *)
Definition splice {A} (l : list A) (i : Index) (n : Z) (items : list A) : list A :=
  match i with
  | At i => take (Z.to_nat i) l ++ items ++ drop (Z.to_nat i + Z.to_nat n) l
  | Infinity => l ++ items
  end.

(** ** The search *)

Definition positionInRange (range : PersistencyPageRange) (position : Z) : bool :=
  (range.(start) <=? position) && (position <=? range.(end_)).

Definition clamp0 (i : Z) : Z := if i <? 0 then 0 else i.

Lemma locate_left (s e m : Z) (Hse : clamp0 s < e) (Hl : clamp0 s <> e - 1)
    (Hm : m = (clamp0 s + e) / 2) :
  (Z.to_nat (m - clamp0 (clamp0 s)) < Z.to_nat (e - clamp0 s))%nat.
Proof.
  unfold clamp0 in *. subst m.
  repeat match goal with |- context [Z.ltb ?a ?b] => destruct (Z.ltb_spec a b) end;
    Z.to_euclidean_division_equations; lia.
Qed.

Lemma locate_right (s e m : Z) (Hse : clamp0 s < e) (Hm : m = (clamp0 s + e) / 2) :
  (Z.to_nat (e - clamp0 (m + 1)) < Z.to_nat (e - clamp0 s))%nat.
Proof.
  unfold clamp0 in *. subst m.
  repeat match goal with
         | |- context [Z.ltb ?a ?b] => destruct (Z.ltb_spec a b)
         | H : context [Z.ltb ?a ?b] |- _ => destruct (Z.ltb_spec a b)
         end;
    Z.to_euclidean_division_equations; lia.
Qed.

(** The clamping of [searchEnd] to the array's length has no effect in the
    code: both branches of its conditional are [searchEnd]. *)
Equations? locateFirstImpactedRange (ranges : list PersistencyPageRange)
    (searchStart searchEnd position : Z) : res Index
    by wf (Z.to_nat (searchEnd - clamp0 searchStart)) lt :=
  locateFirstImpactedRange ranges searchStart searchEnd position :=
    let first := clamp0 searchStart in
    if (Nat.eqb (length ranges) 0) then Ok Infinity else
    match decide (clamp0 searchStart < searchEnd) with
    | right _ => Ok Infinity
    | left Hse =>
        match decide (clamp0 searchStart = searchEnd - 1) with
        | left _ =>
            r ← array_get ranges (At first);
            Ok (if positionInRange r position || (position <? r.(start))
                then At first else Infinity)
        | right Hl =>
            let searchMid := (clamp0 searchStart + searchEnd) / 2 in
            indexInLeft ← locateFirstImpactedRange ranges first searchMid position;
            if indexInLeft !== Infinity then Ok indexInLeft else
            r ← array_get ranges (At searchMid);
            if positionInRange r position || (position <? r.(start))
            then Ok (At searchMid)
            else locateFirstImpactedRange ranges (searchMid + 1) searchEnd position
        end
    end.
Proof.
  all: first [ by apply locate_left | by apply locate_right ].
Defined.

Equations? locateLastImpactedRange (ranges : list PersistencyPageRange)
    (searchStart searchEnd position : Z) : res Z
    by wf (Z.to_nat (searchEnd - clamp0 searchStart)) lt :=
  locateLastImpactedRange ranges searchStart searchEnd position :=
    let first := clamp0 searchStart in
    if (Nat.eqb (length ranges) 0) then Ok (-1) else
    match decide (clamp0 searchStart < searchEnd) with
    | right _ => Ok (-1)
    | left Hse =>
        match decide (clamp0 searchStart = searchEnd - 1) with
        | left _ =>
            r ← array_get ranges (At first);
            Ok (if positionInRange r position || (r.(end_) <? position)
                then first else -1)
        | right Hl =>
            let searchMid := (clamp0 searchStart + searchEnd) / 2 in
            indexInRight ← locateLastImpactedRange ranges (searchMid + 1) searchEnd position;
            if -1 <? indexInRight then Ok indexInRight else
            r ← array_get ranges (At searchMid);
            if positionInRange r position || (r.(end_) <? position)
            then Ok searchMid
            else locateLastImpactedRange ranges first searchMid position
        end
    end.
Proof.
  all: first [ by apply locate_left | by apply locate_right ].
Defined.

Arguments locateFirstImpactedRange : simpl never.
Arguments locateLastImpactedRange : simpl never.

Definition selectImpactedRanges (ranges : list PersistencyPageRange) (s e : Z) :
    res (Index * Z) :=
  if (Nat.eqb (length ranges) 0) then Ok (Infinity, -1) else
  throw_when ((e <? s) || (s <? 0)) RangeError;;
  impactedRangeStartIndex ←
    locateFirstImpactedRange ranges 0 (Z.of_nat (length ranges)) s;
  impactedRangesEndIndex ←
    locateLastImpactedRange ranges 0 (Z.of_nat (length ranges)) e;
  Ok (impactedRangeStartIndex, impactedRangesEndIndex).

(** The number of impacted ranges of a scope. *)
Definition impactedCount (scope : Index * Z) : Z :=
  match scope with
  | (At i, j) => if j <? i then 0 else j - i + 1
  | (Infinity, _) => 0
  end.

(** ** The operations

    Each returns the array the code leaves in (or builds from) [ranges]. *)

(** The piece of [first] that stays before [s], if the range is split there. *)
Definition left_split (first : PersistencyPageRange) (s : Z) : list PersistencyPageRange :=
  if (s <=? first.(end_)) && (first.(start) <? s) then
    [mkRange first.(start) (s - 1)
       (mkChunk first.(persistency).(id) first.(persistency).(offset) (s - first.(start)))]
  else [].

(** The piece of [last] that stays after [e], if the range is split there. *)
Definition right_split (last : PersistencyPageRange) (e : Z) : list PersistencyPageRange :=
  if (last.(start) <=? e) && (e <? last.(end_)) then
    [mkRange (e + 1) last.(end_)
       (mkChunk last.(persistency).(id)
          (last.(persistency).(offset) + (e + 1 - last.(start))) (last.(end_) - e))]
  else [].

Definition mergeRange (ranges : list PersistencyPageRange) (range : PersistencyPageRange) :
    res (list PersistencyPageRange) :=
  let s := range.(start) in
  let e := range.(end_) in
  impactedScope ← selectImpactedRanges ranges s e;
  let impactedRangesCount := impactedCount impactedScope in
  let newRange := mkRange s e range.(persistency) in
  if impactedRangesCount =? 0 then
    Ok (splice ranges impactedScope.1 0 [newRange])
  else
    firstImpactedRange ← array_get ranges impactedScope.1;
    lastImpactedRange ← array_get ranges (At impactedScope.2);
    Ok (splice ranges impactedScope.1 impactedRangesCount
          (left_split firstImpactedRange s ++ [newRange]
             ++ right_split lastImpactedRange e)).

Definition clearRange (ranges : list PersistencyPageRange) (range : PageRange) :
    res (list PersistencyPageRange) :=
  let s := range.(pr_start) in
  let e := range.(pr_end) in
  impactedScope ← selectImpactedRanges ranges s e;
  let impactedRangesCount := impactedCount impactedScope in
  if 0 <? impactedRangesCount then
    firstImpactedRange ← array_get ranges impactedScope.1;
    lastImpactedRange ← array_get ranges (At impactedScope.2);
    Ok (splice ranges impactedScope.1 impactedRangesCount
          (left_split firstImpactedRange s ++ right_split lastImpactedRange e))
  else Ok ranges.

(** [ranges.slice(i, j + 1)]. *)
Definition slice {A} (l : list A) (i : Index) (j : Z) : list A :=
  match i with
  | At i => take (Z.to_nat (j + 1) - Z.to_nat i) (drop (Z.to_nat i) l)
  | Infinity => []
  end.

(** The first impacted range without its part before [s]. *)
Definition cut_first (first : PersistencyPageRange) (s : Z) : PersistencyPageRange :=
  if (s <=? first.(end_)) && (first.(start) <? s) then
    mkRange s first.(end_)
      (mkChunk first.(persistency).(id)
         (s - first.(start) + first.(persistency).(offset))
         (first.(persistency).(count) - (s - first.(start))))
  else first.

(** The last impacted range without its part after [e]. *)
Definition cut_last (last : PersistencyPageRange) (e : Z) : PersistencyPageRange :=
  if (last.(start) <=? e) && (e <? last.(end_)) then
    mkRange last.(start) e
      (mkChunk last.(persistency).(id) last.(persistency).(offset)
         (last.(persistency).(count) - (last.(end_) - e)))
  else last.

Definition cutRanges (ranges : list PersistencyPageRange) (range : PageRange) :
    res (list PersistencyPageRange) :=
  let s := range.(pr_start) in
  let e := range.(pr_end) in
  impactedScope ← selectImpactedRanges ranges s e;
  if 0 <? impactedCount impactedScope then
    let impactedRanges := slice ranges impactedScope.1 impactedScope.2 in
    firstImpactedRange ← array_get impactedRanges (At 0);
    let impactedRanges := <[0%nat := cut_first firstImpactedRange s]> impactedRanges in
    let n := (length impactedRanges - 1)%nat in
    lastImpactedRange ← array_get impactedRanges (At (Z.of_nat n));
    Ok (<[n := cut_last lastImpactedRange e]> impactedRanges)
  else Ok [].

(** A range of zeros. *)
Definition zeroRange (s e : Z) : PersistencyPageRange :=
  mkRange s e (mkChunk ZERO_EXTENT_ID 0 (e + 1 - s)).

(** The loop that copies the ranges and fills the gaps between them. *)
Fixpoint fillMiddle (ranges : list PersistencyPageRange) : list PersistencyPageRange :=
  match ranges with
  | currentRange :: ((nextRange :: _) as rest) =>
      let gap := nextRange.(start) - 1 - currentRange.(end_) in
      currentRange ::
        (if 0 <? gap
         then [mkRange (currentRange.(end_) + 1) (nextRange.(start) - 1)
                 (mkChunk ZERO_EXTENT_ID 0 gap)]
         else [])
        ++ fillMiddle rest
  | _ => ranges
  end.

Definition fillZeroRanges (ranges : list PersistencyPageRange) (range : PageRange) :
    res (list PersistencyPageRange) :=
  let s := range.(pr_start) in
  let e := range.(pr_end) in
  ranges ← cutRanges ranges range;
  if (Nat.eqb (length ranges) 0) then Ok [zeroRange s e]
  else
    firstRange ← array_get ranges (At 0);
    lastRange ← array_get ranges (At (Z.of_nat (length ranges) - 1));
    Ok ((if s <? firstRange.(start)
         then [mkRange s (firstRange.(start) - 1)
                 (mkChunk ZERO_EXTENT_ID 0 (firstRange.(start) - s))]
         else [])
        ++ fillMiddle ranges
        ++ (if lastRange.(end_) <? e
            then [mkRange (lastRange.(end_) + 1) e
                    (mkChunk ZERO_EXTENT_ID 0 (e - lastRange.(end_)))]
            else [])).

