(* ===== verification/PageRangesSpec.v ===== *)
(** * PageRangesSpec: what the page-range operations do to the bytes of a blob

    A sorted array of disjoint ranges is a partial map from byte positions to
    bytes of extents ([byte_at]). The search finds the impacted ranges, merging
    overrides the map, clearing removes from it, cutting restricts it and
    zero-filling totalises it on the requested range. *)

From S2P Require Import Prelude Errors Extents PageRanges.

(** ** The abstract page map *)

(** The byte of an extent: the extent's id and the position in it. *)
Definition byte_of (r : PersistencyPageRange) (p : Z) : option (string * Z) :=
  if (r.(start) <=? p) && (p <=? r.(end_))
  then Some (r.(persistency).(id), r.(persistency).(offset) + (p - r.(start)))
  else None.

Fixpoint byte_at (l : list PersistencyPageRange) (p : Z) : option (string * Z) :=
  match l with
  | [] => None
  | r :: l => match byte_of r p with Some b => Some b | None => byte_at l p end
  end.

(** The invariant of a range, and of an array of ranges from position [lo] on:
    sorted, disjoint, each with a chunk of the range's length. *)
Definition range_ok (r : PersistencyPageRange) : Prop :=
  0 <= r.(start) <= r.(end_) /\ r.(persistency).(count) = r.(end_) - r.(start) + 1.

Fixpoint wf_from (lo : Z) (l : list PersistencyPageRange) : Prop :=
  match l with
  | [] => True
  | r :: l => lo <= r.(start) /\ range_ok r /\ wf_from (r.(end_) + 1) l
  end.

Definition wf (l : list PersistencyPageRange) : Prop := wf_from 0 l.

(** The first position after the ranges, [lo] if there are none. *)
Fixpoint upper (lo : Z) (l : list PersistencyPageRange) : Z :=
  match l with [] => lo | r :: l => upper (r.(end_) + 1) l end.

(** ** Lemmas on the page map *)

Lemma wf_from_app lo l1 l2 :
  wf_from lo (l1 ++ l2) <-> wf_from lo l1 /\ wf_from (upper lo l1) l2.
Proof. revert lo. induction l1 as [|r l1 IH]; intros lo; cbn; [tauto|]. rewrite IH. tauto. Qed.

Lemma upper_app lo l1 l2 : upper lo (l1 ++ l2) = upper (upper lo l1) l2.
Proof. revert lo. by induction l1 as [|r l1 IH]; intros lo; cbn. Qed.

Lemma upper_ge lo l : wf_from lo l -> lo <= upper lo l.
Proof.
  revert lo. induction l as [|r l IH]; intros lo; cbn; [lia|].
  unfold range_ok. intros (?&?&Hw). specialize (IH _ Hw). lia.
Qed.

Lemma wf_from_weaken lo lo' l : lo' <= lo -> wf_from lo l -> wf_from lo' l.
Proof. destruct l; cbn; intuition lia. Qed.

Lemma byte_at_app l1 l2 p :
  byte_at (l1 ++ l2) p = match byte_at l1 p with Some b => Some b | None => byte_at l2 p end.
Proof. induction l1 as [|r l1 IH]; cbn; [done|]. by destruct (byte_of r p). Qed.

Lemma byte_of_out r p : p < r.(start) \/ r.(end_) < p -> byte_of r p = None.
Proof. unfold byte_of. by_guards. Qed.

Lemma byte_of_in r p :
  r.(start) <= p <= r.(end_) ->
  byte_of r p = Some (r.(persistency).(id), r.(persistency).(offset) + (p - r.(start))).
Proof. unfold byte_of. by_guards. Qed.

Lemma byte_at_below lo l p : wf_from lo l -> p < lo -> byte_at l p = None.
Proof.
  revert lo. induction l as [|r l IH]; intros lo; cbn; [done|].
  unfold range_ok. intros (?&?&Hw) ?. rewrite byte_of_out by lia.
  apply (IH _ Hw). lia.
Qed.

Lemma byte_at_above lo l p : wf_from lo l -> upper lo l <= p -> byte_at l p = None.
Proof.
  revert lo. induction l as [|r l IH]; intros lo; cbn; [done|].
  intros (?&?&Hw) ?. pose proof (upper_ge _ _ Hw).
  rewrite byte_of_out by lia. by apply (IH _ Hw).
Qed.

(** ** The search *)

(** The first index in [[s, e)] whose range satisfies [P]. *)
Definition is_first (P : PersistencyPageRange -> bool) (l : list PersistencyPageRange)
    (s e : Z) (i : Index) : Prop :=
  match i with
  | At k =>
      s <= k < e /\ (exists r, l !! Z.to_nat k = Some r /\ P r = true) /\
      forall j r, s <= j < k -> l !! Z.to_nat j = Some r -> P r = false
  | Infinity => forall j r, s <= j < e -> l !! Z.to_nat j = Some r -> P r = false
  end.

(** The last index in [[s, e)] whose range satisfies [P], [-1] if none. *)
Definition is_last (P : PersistencyPageRange -> bool) (l : list PersistencyPageRange)
    (s e k : Z) : Prop :=
  (s <= k < e /\ (exists r, l !! Z.to_nat k = Some r /\ P r = true) /\
     forall j r, k < j < e -> l !! Z.to_nat j = Some r -> P r = false) \/
  (k = -1 /\ forall j r, s <= j < e -> l !! Z.to_nat j = Some r -> P r = false).

Lemma array_get_ok {A} (l : list A) k :
  0 <= k < Z.of_nat (length l) ->
  exists r, array_get l (At k) = Ok r /\ l !! Z.to_nat k = Some r.
Proof.
  intros Hk. destruct (lookup_lt_is_Some_2 l (Z.to_nat k)) as [r Hr]; [lia|].
  exists r. unfold array_get. destruct (Z.ltb_spec k 0); [lia|]. by rewrite Hr.
Qed.

Lemma locateFirst_correct l p n : forall s e,
  (Z.to_nat (e - s) <= n)%nat -> 0 <= s -> e <= Z.of_nat (length l) ->
  exists i, locateFirstImpactedRange l s e p = Ok i /\
    is_first (fun r => positionInRange r p || (p <? r.(start))) l s e i.
Proof.
  induction n as [|n IH]; intros s e Hn Hs He;
    rewrite locateFirstImpactedRange_equation_1; cbn zeta;
    (destruct (Nat.eqb_spec (length l) 0); [exists Infinity; split; [done|cbn; lia]|]);
    unfold clamp0; (destruct (Z.ltb_spec s 0); [lia|]);
    (destruct (decide (s < e)); [|exists Infinity; split; [done|cbn; lia]]); [lia|].
  destruct (decide (s = e - 1)) as [->|Hl].
  { destruct (array_get_ok l (e - 1)) as [r [-> Hr]]; [lia|]. cbn.
    destruct (_ || _) eqn:E; eexists; (split; [done|]); cbn.
    - split_and!; [lia..|by eauto|lia].
    - intros j r' Hj. by replace j with (e - 1) by lia; rewrite Hr; intros [= <-]. }
  remember ((s + e) / 2) as m eqn:Em.
  assert (Hm : s < m <= e - 1) by (Z.to_euclidean_division_equations; lia).
  clear Em.
  destruct (IH s m) as [i [-> Hi]]; [lia..|]. cbn.
  destruct (decide (i = Infinity)) as [->|Hne].
  - rewrite bool_decide_eq_true_2 by done. cbn.
    destruct (array_get_ok l m) as [r [-> Hr]]; [lia|]. cbn.
    destruct (_ || _) eqn:E.
    + eexists; split; [done|]. cbn. split_and!; [lia..|by eauto|]. exact Hi.
    + destruct (IH (m + 1) e) as [i [-> Hi']]; [lia..|]. exists i. split; [done|].
      assert (Hlo : forall j r', s <= j < m + 1 -> l !! Z.to_nat j = Some r' ->
                positionInRange r' p || (p <? r'.(start)) = false).
      { intros j r' Hj Hr'. destruct (decide (j = m)) as [->|]; [congruence|].
        apply (Hi j); [lia|done]. }
      destruct i as [k|]; cbn in *.
      * destruct Hi' as (?&?&Hi'). split_and!; [lia..|done|]. intros j r' Hj Hr'.
        destruct (decide (j < m + 1)); [apply (Hlo j)|apply (Hi' j)]; by try lia.
      * intros j r' Hj Hr'. destruct (decide (j < m + 1)); [apply (Hlo j)|apply (Hi' j)]; by try lia.
  - rewrite bool_decide_eq_false_2 by done. cbn. destruct i as [k|]; [|done].
    eexists; split; [done|]. destruct Hi as (?&?&?). cbn. split_and!; [lia..|done|done].
Qed.

Lemma locateLast_correct l p n : forall s e,
  (Z.to_nat (e - s) <= n)%nat -> 0 <= s -> e <= Z.of_nat (length l) ->
  exists k, locateLastImpactedRange l s e p = Ok k /\
    is_last (fun r => positionInRange r p || (r.(end_) <? p)) l s e k.
Proof.
  induction n as [|n IH]; intros s e Hn Hs He;
    rewrite locateLastImpactedRange_equation_1; cbn zeta;
    (destruct (Nat.eqb_spec (length l) 0); [exists (-1); split; [done|right; split; [done|intros; lia]]|]);
    unfold clamp0; (destruct (Z.ltb_spec s 0); [lia|]);
    (destruct (decide (s < e)); [|exists (-1); split; [done|right; split; [done|intros; lia]]]); [lia|].
  destruct (decide (s = e - 1)) as [->|Hl].
  { destruct (array_get_ok l (e - 1)) as [r [-> Hr]]; [lia|]. cbn.
    destruct (_ || _) eqn:E; eexists; (split; [done|]).
    - left. split_and!; [lia..|by eauto|lia].
    - right. split; [done|]. intros j r' Hj.
      by replace j with (e - 1) by lia; rewrite Hr; intros [= <-]. }
  remember ((s + e) / 2) as m eqn:Em.
  assert (Hm : s < m <= e - 1) by (Z.to_euclidean_division_equations; lia).
  clear Em.
  destruct (IH (m + 1) e) as [k [-> [(?&?&?)|[-> Hk]]]]; [lia..| |]; cbn.
  { destruct (Z.ltb_spec (-1) k); [|lia]. eexists; split; [done|].
    left. split_and!; [lia..|done|done]. }
  destruct (array_get_ok l m) as [r [-> Hr]]; [lia|]. cbn.
  destruct (_ || _) eqn:E.
  - eexists; split; [done|]. left. split_and!; [lia..|by eauto|].
    intros j r' Hj. apply Hk. lia.
  - assert (Hhi : forall j r', m <= j < e -> l !! Z.to_nat j = Some r' ->
              positionInRange r' p || (r'.(end_) <? p) = false).
    { intros j r' Hj Hr'. destruct (decide (j = m)) as [->|]; [congruence|].
      apply (Hk j); [lia|done]. }
    destruct (IH s m) as [k [-> [(?&?&Hk')|[-> Hk']]]]; [lia..| |];
      eexists; (split; [done|]); [left|right].
    + split_and!; [lia..|done|]. intros j r' Hj Hr'.
      destruct (decide (j < m)); [apply (Hk' j)|apply (Hhi j)]; by try lia.
    + split; [done|]. intros j r' Hj Hr'.
      destruct (decide (j < m)); [apply (Hk' j)|apply (Hhi j)]; by try lia.
Qed.

(** ** The impacted ranges *)

Section Impacted.
Context (s e : Z).

Definition before (r : PersistencyPageRange) : Prop := r.(end_) < s.
Definition impacted (r : PersistencyPageRange) : Prop := s <= r.(end_) /\ r.(start) <= e.
Definition after (r : PersistencyPageRange) : Prop := e < r.(start).

Lemma split_tail lo l :
  wf_from lo l -> s <= lo ->
  exists mid post, l = mid ++ post /\ Forall impacted mid /\ Forall after post.
Proof.
  revert lo. induction l as [|r l IH]; intros lo; cbn; [by exists [], []|].
  unfold range_ok. intros (?&?&Hw) ?.
  destruct (IH _ Hw) as (mid&post&->&Hm&Hp); [lia|].
  destruct (decide (r.(start) <= e)).
  - exists (r :: mid), post. split_and!; [done| |done].
    constructor; [unfold impacted; lia|done].
  - assert (Hnil : mid = []).
    { destruct mid as [|m mid]; [done|]. exfalso. inversion Hm; subst.
      cbn in Hw. unfold impacted, range_ok in *. lia. }
    exists [], (r :: post). subst mid. split_and!; [done|done|].
    constructor; [unfold after; lia|done].
Qed.

Lemma split_impacted lo l :
  wf_from lo l ->
  exists pre mid post, l = pre ++ mid ++ post
    /\ Forall before pre /\ Forall impacted mid /\ Forall after post.
Proof.
  revert lo. induction l as [|r l IH]; intros lo Hw; [by exists [], [], []|].
  destruct (decide (r.(end_) < s)) as [Hr|Hr].
  - destruct Hw as (?&?&Hw). destruct (IH _ Hw) as (pre&mid&post&->&?&?&?).
    exists (r :: pre), mid, post. split_and!; [done|by constructor|done|done].
  - assert (Hl : exists mid post, l = mid ++ post /\ Forall impacted mid /\ Forall after post).
    { destruct Hw as (?&?&Hw). apply (split_tail _ _ Hw). lia. }
    destruct (decide (r.(start) <= e)) as [He|He].
    + destruct Hl as (mid&post&->&?&?). exists [], (r :: mid), post.
      split_and!; [done|done| |done]. constructor; [unfold impacted; lia|done].
    + exists [], [], (r :: l). split_and!; [done|done|done|].
      destruct Hw as (_&Hok&Hw). unfold range_ok in Hok. constructor; [unfold after; lia|].
      assert (Hlo : e < r.(end_) + 1) by lia. clear -Hw Hlo. revert Hw Hlo.
      generalize (r.(end_) + 1). induction l as [|q l IH]; intros lo; cbn; [done|].
      unfold range_ok. intros (?&?&Hw) ?. constructor; [unfold after; lia|].
      apply (IH _ Hw). lia.
Qed.

Lemma first_index P l1 l2 i :
  Forall (fun r => P r = false) l1 ->
  (forall r, head l2 = Some r -> P r = true) ->
  is_first P (l1 ++ l2) 0 (Z.of_nat (length (l1 ++ l2))) i ->
  i = match l2 with [] => Infinity | _ => At (Z.of_nat (length l1)) end.
Proof.
  intros H1 H2 Hi. rewrite Forall_lookup in H1. rewrite length_app in Hi.
  assert (Hl1 : forall j r, 0 <= j < Z.of_nat (length l1) ->
            (l1 ++ l2) !! Z.to_nat j = Some r -> P r = false).
  { intros j r Hj Hr. rewrite lookup_app_l in Hr by lia. by apply H1 in Hr. }
  destruct l2 as [|q l2].
  - destruct i as [k|]; [|done]. exfalso. destruct Hi as (?&(r&Hr&HP)&_).
    cbn in *. rewrite (Hl1 k r) in HP; [done|lia|done].
  - destruct i as [k|].
    + destruct Hi as (?&(r&Hr&HP)&Hlt). f_equal.
      destruct (Z.lt_total k (Z.of_nat (length l1))) as [Hk|[Hk|Hk]]; [|done|].
      * by rewrite (Hl1 k r) in HP by (lia || done).
      * assert (Hq : P q = false); [|by rewrite (H2 q) in Hq].
        apply (Hlt (Z.of_nat (length l1))); [lia|].
        by rewrite Nat2Z.id, lookup_app_r, Nat.sub_diag by lia.
    + exfalso. assert (Hq : P q = false); [|by rewrite (H2 q) in Hq].
      apply (Hi (Z.of_nat (length l1))); [cbn in *; lia|].
      by rewrite Nat2Z.id, lookup_app_r, Nat.sub_diag by lia.
Qed.

Lemma last_index P l1 l2 k :
  Forall (fun r => P r = true) l1 -> Forall (fun r => P r = false) l2 ->
  is_last P (l1 ++ l2) 0 (Z.of_nat (length (l1 ++ l2))) k ->
  k = Z.of_nat (length l1) - 1.
Proof.
  intros H1 H2 Hk. rewrite Forall_lookup in H1, H2. rewrite length_app in Hk.
  assert (Hlast : l1 <> [] -> exists r, (l1 ++ l2) !! Z.to_nat (Z.of_nat (length l1) - 1) = Some r
                                        /\ P r = true).
  { intros Hne. destruct (lookup_lt_is_Some_2 l1 (length l1 - 1)) as [r Hr].
    { destruct l1; [done|cbn; lia]. }
    exists r. replace (Z.to_nat _) with (length l1 - 1)%nat by lia.
    split; [|by eapply H1]. by apply lookup_app_l_Some. }
  destruct Hk as [(?&(r&Hr&HP)&Hgt)|[-> Hno]].
  - destruct (Z.lt_total k (Z.of_nat (length l1) - 1)) as [Hk|[Hk|Hk]]; [|done|].
    + destruct Hlast as (q&Hq&HPq); [by destruct l1; [cbn in *; lia|]|].
      rewrite (Hgt (Z.of_nat (length l1) - 1) q) in HPq; [done|lia|done].
    + rewrite lookup_app_r in Hr by lia. by rewrite (H2 _ _ Hr) in HP.
  - destruct l1 as [|q l1]; [done|]. exfalso.
    destruct Hlast as (r&Hr&HP); [done|].
    rewrite (Hno (Z.of_nat (length (q :: l1)) - 1) r) in HP; [done|cbn; lia|done].
Qed.

Lemma select_correct lo pre mid post :
  let l := pre ++ mid ++ post in
  wf_from lo l -> 0 <= s <= e -> l <> [] ->
  Forall before pre -> Forall impacted mid -> Forall after post ->
  selectImpactedRanges l s e
  = Ok (match mid ++ post with [] => Infinity | _ => At (Z.of_nat (length pre)) end,
        Z.of_nat (length pre) + Z.of_nat (length mid) - 1).
Proof.
  intros l Hw Hse Hne Hpre Hmid Hpost. unfold selectImpactedRanges.
  destruct (Nat.eqb_spec (length l) 0) as [H0|_]; [by destruct l|].
  destruct (Z.ltb_spec e s); [lia|]. destruct (Z.ltb_spec s 0); [lia|]. cbn.
  destruct (locateFirst_correct l s (Z.to_nat (Z.of_nat (length l) - 0)) 0
              (Z.of_nat (length l))) as (i&->&Hi); [lia..|]. cbn.
  destruct (locateLast_correct l e (Z.to_nat (Z.of_nat (length l) - 0)) 0
              (Z.of_nat (length l))) as (k&->&Hk); [lia..|]. cbn.
  assert (Hok : Forall range_ok l).
  { clear -Hw. revert lo Hw. induction l as [|r l IH]; intros lo; cbn; [done|].
    intros (?&?&Hw). constructor; [done|by eapply IH]. }
  unfold l in Hok. rewrite !Forall_app in Hok. destruct Hok as (Ok1&Ok2&Ok3).
  rewrite Forall_forall in Ok1, Ok2, Ok3, Hpre, Hmid, Hpost.
  unfold before, impacted, after, range_ok in *.
  apply first_index in Hi.
  2: { apply Forall_forall. intros r Hr. specialize (Hpre r Hr); specialize (Ok1 r Hr).
       unfold positionInRange. by_guards. }
  2: { intros r Hr. destruct mid as [|m mid]; cbn in Hr; simplify_eq.
       - destruct post as [|q post]; cbn in Hr; simplify_eq.
         specialize (Hpost r (list_elem_of_here _ _)); specialize (Ok3 r (list_elem_of_here _ _)).
         unfold positionInRange. by_guards.
       - specialize (Hmid r (list_elem_of_here _ _)); specialize (Ok2 r (list_elem_of_here _ _)).
         unfold positionInRange. by_guards. }
  unfold l in Hk. rewrite app_assoc in Hk. apply last_index in Hk.
  2: { apply Forall_forall. intros r [Hr|Hr]%elem_of_app;
         [specialize (Hpre r Hr); specialize (Ok1 r Hr)
         |specialize (Hmid r Hr); specialize (Ok2 r Hr)]; unfold positionInRange; by_guards. }
  2: { apply Forall_forall. intros r Hr. specialize (Hpost r Hr); specialize (Ok3 r Hr).
       unfold positionInRange. by_guards. }
  rewrite length_app in Hk. rewrite Hi, Hk. do 2 f_equal. lia.
Qed.

End Impacted.
(** ** The operations on a decomposed array *)

(** The pieces of the impacted ranges that survive on each side. *)
Definition left_of (s : Z) (mid : list PersistencyPageRange) : list PersistencyPageRange :=
  match mid with [] => [] | f :: _ => left_split f s end.
Definition right_of (e : Z) (mid : list PersistencyPageRange) : list PersistencyPageRange :=
  match last mid with None => [] | Some g => right_split g e end.

(** The impacted ranges cut to [[s, e]]. *)
Definition cut_mid (s e : Z) (mid : list PersistencyPageRange) : list PersistencyPageRange :=
  match mid with
  | [] => []
  | f :: m =>
      let c := cut_first f s :: m in
      <[(length c - 1)%nat := cut_last (default f (last c)) e]> c
  end.

Section Decomposed.
Context (lo s e : Z) (pre mid post : list PersistencyPageRange).
Hypothesis (Hw : wf_from lo (pre ++ mid ++ post)).
Hypothesis (Hse : 0 <= s <= e).
Hypothesis (Hpre : Forall (before s) pre).
Hypothesis (Hmid : Forall (impacted s e) mid).
Hypothesis (Hpost : Forall (after e) post).

Local Abbreviation l := (pre ++ mid ++ post).
Local Abbreviation scope1 :=
  (match mid ++ post with [] => Infinity | _ => At (Z.of_nat (length pre)) end).
Local Abbreviation scope2 := (Z.of_nat (length pre) + Z.of_nat (length mid) - 1).

Lemma count_scope : impactedCount (scope1, scope2) = Z.of_nat (length mid).
Proof.
  unfold impactedCount. destruct mid as [|m ms]; cbn.
  - destruct post; cbn; [done|]. by_guards.
  - by_guards.
Qed.

Lemma splice_scope items :
  splice l scope1 (Z.of_nat (length mid)) items = pre ++ items ++ post.
Proof.
  cbn. destruct (mid ++ post) eqn:E; cbn.
  - apply app_eq_nil in E as [-> ->]. by rewrite !app_nil_r.
  - rewrite <- E, !Nat2Z.id, take_app_length, <- drop_drop, drop_app_length.
    by rewrite drop_app_length.
Qed.

Lemma slice_scope : mid <> [] -> slice l scope1 scope2 = mid.
Proof.
  intros Hne. cbn. destruct (mid ++ post) eqn:E; [by apply app_eq_nil in E as [? ?]|].
  cbn. rewrite <- E, !Nat2Z.id, drop_app_length.
  replace (Z.to_nat _ - _)%nat with (length mid) by lia. apply take_app_length.
Qed.

Lemma get_first f m : mid = f :: m -> array_get l scope1 = Ok f.
Proof.
  clear. intros ->. unfold array_get. cbn. destruct (Z.ltb_spec (Z.of_nat (length pre)) 0); [lia|].
  by rewrite Nat2Z.id, lookup_app_r, Nat.sub_diag by lia.
Qed.

Lemma get_last g : last mid = Some g -> array_get l (At scope2) = Ok g.
Proof.
  clear. intros Hg. assert (mid <> []) by (by intros ->).
  assert (0 < length mid)%nat by (destruct mid; [done|cbn; lia]).
  unfold array_get. cbn. destruct (Z.ltb_spec (Z.of_nat (length pre) + Z.of_nat (length mid) - 1) 0); [lia|].
  replace (Z.to_nat _) with (length pre + (length mid - 1))%nat by lia.
  rewrite lookup_app_r by lia. rewrite lookup_app_l by lia.
  replace (_ + _ - _)%nat with (pred (length mid)) by lia.
  by rewrite <- last_lookup, Hg.
Qed.

Lemma select_decomposed :
  l <> [] -> selectImpactedRanges l s e = Ok (scope1, scope2).
Proof. intros Hne. by apply (select_correct s e lo). Qed.

Lemma mid_cases : mid = [] \/ exists f m g, mid = f :: m /\ last mid = Some g.
Proof.
  clear. destruct mid as [|f m]; [by left|]. right.
  destruct (last (f :: m)) as [g|] eqn:Eg; [eauto 6|]. by apply last_None in Eg.
Qed.

Local Ltac step := cbn -[splice slice impactedCount array_get].

(** The cases of the count of impacted ranges. *)
Local Ltac by_cases_mid f m g Em Eg :=
  rewrite count_scope; destruct mid_cases as [Em|(f&m&g&Em&Eg)];
  [ replace (Z.of_nat (length mid)) with 0 by (by rewrite Em); step
  | let H := fresh in
    assert (0 < Z.of_nat (length mid)) as H by (rewrite Em; cbn; lia);
    repeat match goal with
    | |- context [Z.eqb ?a ?b] => destruct (Z.eqb_spec a b); [lia|]
    | |- context [Z.ltb ?a ?b] => destruct (Z.ltb_spec a b); [|lia]
    end; clear H ].

Lemma merge_decomposed p :
  mergeRange l (mkRange s e p)
  = Ok (pre ++ (left_of s mid ++ [mkRange s e p] ++ right_of e mid) ++ post).
Proof.
  unfold mergeRange. cbn [start end_ persistency].
  destruct (decide (l = [])) as [[-> [-> ->]%app_eq_nil]%app_eq_nil|Hne]; [done|].
  rewrite select_decomposed by done. step. by_cases_mid f m g Em Eg.
  - f_equal. rewrite Em. pose proof (splice_scope [mkRange s e p]) as Hs.
    by rewrite Em in Hs.
  - rewrite (get_first f m Em). step. rewrite (get_last g Eg). step.
    f_equal. etrans; [apply splice_scope|]. unfold left_of, right_of. by rewrite Eg, Em.
Qed.

Lemma clear_decomposed :
  clearRange l (mkPageRange s e) = Ok (pre ++ (left_of s mid ++ right_of e mid) ++ post).
Proof.
  unfold clearRange. cbn [pr_start pr_end].
  destruct (decide (l = [])) as [[-> [-> ->]%app_eq_nil]%app_eq_nil|Hne]; [done|].
  rewrite select_decomposed by done. step. by_cases_mid f m g Em Eg.
  - by rewrite Em.
  - rewrite (get_first f m Em). step. rewrite (get_last g Eg). step.
    f_equal. etrans; [apply splice_scope|]. unfold left_of, right_of. by rewrite Eg, Em.
Qed.

Lemma cut_decomposed : cutRanges l (mkPageRange s e) = Ok (cut_mid s e mid).
Proof.
  unfold cutRanges. cbn [pr_start pr_end].
  destruct (decide (l = [])) as [[-> [-> ->]%app_eq_nil]%app_eq_nil|Hne]; [done|].
  rewrite select_decomposed by done. step. by_cases_mid f m g Em Eg.
  - by rewrite Em.
  - pose proof (slice_scope ltac:(by rewrite Em)) as Hs. cbn -[slice] in Hs.
    rewrite Hs. clear Hs. rewrite Em. cbn -[array_get last].
    destruct (array_get_ok (cut_first f s :: m) (Z.of_nat (length m - 0)))
      as (q&Hq&Hq'); [cbn; lia|].
    change (array_get (f :: m) (At 0)) with (Ok (E:=exn) f). cbn -[array_get last].
    rewrite Hq. cbn -[last]. do 2 f_equal. rewrite Nat2Z.id in Hq'.
    rewrite last_lookup. replace (pred _) with (length m - 0)%nat by (cbn; lia).
    by rewrite Hq'.
Qed.

End Decomposed.

(** ** The pieces that survive *)

(** Case analysis on the byte of a range, with arithmetic. *)
Local Ltac by_bytes :=
  unfold byte_of, impacted, before, after, range_ok in *; cbn in *;
  repeat match goal with
  | H : context [Z.leb ?a ?b] |- _ => destruct (Z.leb_spec a b)
  | H : context [Z.ltb ?a ?b] |- _ => destruct (Z.ltb_spec a b)
  end; try done; guards; intros; guards;
  first [ done | lia | congruence | do 2 f_equal; lia ].

Lemma upper_before lo s l : wf_from lo l -> lo <= s -> Forall (before s) l -> upper lo l <= s.
Proof.
  intros Hw Hlo Hb. revert lo Hw Hlo. induction Hb as [|r l Hr _ IH]; intros lo; cbn; [done|].
  unfold before in Hr. intros (?&?&?) ?. apply IH; [done|lia].
Qed.

Lemma wf_after lo e l : wf_from lo l -> Forall (after e) l -> wf_from (Z.max lo (e + 1)) l.
Proof.
  destruct l as [|r l]; [done|]. cbn. intros (?&?&?) Ha. inversion Ha as [|?? Hr]; subst.
  unfold after in Hr. split_and!; [lia|done|done].
Qed.

Lemma left_of_correct a s e mid :
  wf_from a mid -> Forall (impacted s e) mid -> a <= s ->
  wf_from a (left_of s mid) /\ upper a (left_of s mid) <= s /\
  forall p, byte_at (left_of s mid) p = if p <? s then byte_at mid p else None.
Proof.
  destruct mid as [|f m]; cbn; [intros; split_and!; [done|done|by intros; by_guards]|].
  intros (?&Hok&Hw) Hi Ha. inversion Hi as [|?? Hf]; subst.
  assert (Hm : forall p, p < s -> byte_at m p = None).
  { intros p Hp. apply (byte_at_below _ _ _ Hw). unfold impacted in Hf. lia. }
  unfold left_split. destruct ((s <=? _) && _) eqn:E; cbn.
  - split_and!; [by_bytes..|done|by_bytes|]. intros p.
    destruct (Z.ltb_spec p s); [rewrite (Hm p) by done|]; by_bytes.
  - split_and!; [done|done|]. intros p.
    destruct (Z.ltb_spec p s); [rewrite (Hm p) by done|done]. by_bytes.
Qed.

Lemma right_of_correct a s e mid :
  wf_from a mid -> Forall (impacted s e) mid ->
  wf_from (e + 1) (right_of e mid) /\
  upper (e + 1) (right_of e mid) <= Z.max (upper a mid) (e + 1) /\
  forall p, byte_at (right_of e mid) p = if e <? p then byte_at mid p else None.
Proof.
  unfold right_of. destruct mid as [|g m _] using rev_ind; cbn.
  { intros; split_and!; [done|lia|by intros; by_guards]. }
  rewrite last_snoc, wf_from_app, upper_app, Forall_app, Forall_singleton. cbn.
  intros (Hw&?&Hok&_) [Hi Hg].
  assert (Hm : forall p, e < p -> byte_at m p = None).
  { intros p Hp. apply (byte_at_above a); [done|]. unfold impacted in Hg. lia. }
  assert (Hb : forall p, e < p -> byte_at (m ++ [g]) p = byte_of g p).
  { intros p Hp. rewrite byte_at_app, (Hm p) by done. cbn. by destruct (byte_of g p). }
  unfold right_split. destruct ((_ <=? e) && _) eqn:E; cbn.
  - split_and!; [by_bytes..|done|by_bytes|]. intros p.
    destruct (Z.ltb_spec e p); [rewrite (Hb p) by done|]; by_bytes.
  - split_and!; [done|by_bytes|]. intros p.
    destruct (Z.ltb_spec e p); [rewrite (Hb p) by done|done]. by_bytes.
Qed.

(** The array an update leaves: [new] in place of the bytes in [[s, e]]. *)
Lemma assembled_correct s e pre mid post new :
  wf (pre ++ mid ++ post) -> 0 <= s <= e ->
  Forall (before s) pre -> Forall (impacted s e) mid -> Forall (after e) post ->
  wf_from s new -> upper s new <= e + 1 ->
  let out := pre ++ (left_of s mid ++ new ++ right_of e mid) ++ post in
  wf out /\ forall p, byte_at out p = if (s <=? p) && (p <=? e) then byte_at new p
                                      else byte_at (pre ++ mid ++ post) p.
Proof.
  unfold wf. intros Hw Hse Hpre Hmid Hpost Wn Un.
  rewrite !wf_from_app in Hw. destruct Hw as (W1&W2&W3).
  assert (Ha : upper 0 pre <= s) by (apply upper_before; [done|lia|done]).
  destruct (left_of_correct _ _ _ _ W2 Hmid Ha) as (L1&L2&L3).
  destruct (right_of_correct _ _ _ _ W2 Hmid) as (R1&R2&R3).
  pose proof (wf_after _ _ _ W3 Hpost) as W3'. cbn zeta. split.
  - rewrite !wf_from_app, !upper_app. split_and!; [done|done| | |].
    + by apply (wf_from_weaken s).
    + apply (wf_from_weaken (e + 1)); [|done]. etrans; [|exact Un].
      destruct new; cbn; [done|lia].
    + refine (wf_from_weaken _ _ _ _ W3'). etrans; [|exact R2]. destruct (right_of e mid); cbn; [|lia].
      etrans; [|exact Un]. destruct new; cbn; [done|lia].
  - intros p. rewrite !byte_at_app, L3, R3.
    destruct (Z.ltb_spec p s), (Z.ltb_spec e p), (Z.leb_spec s p), (Z.leb_spec p e); try lia; cbn.
    + rewrite (byte_at_below s new), (byte_at_below _ post p W3') by (done || lia).
      by destruct (byte_at pre p), (byte_at mid p).
    + rewrite (byte_at_above s new) by (done || lia). done.
    + rewrite (byte_at_above 0 pre), (byte_at_below _ post p W3') by (done || lia).
      by destruct (byte_at new p).
Qed.

(** ** Cutting *)

Lemma cut_first_correct s e f :
  range_ok f -> impacted s e f -> 0 <= s <= e ->
  range_ok (cut_first f s) /\ impacted s e (cut_first f s) /\
  (cut_first f s).(start) = Z.max s f.(start) /\ (cut_first f s).(end_) = f.(end_) /\
  forall p, byte_of (cut_first f s) p = if s <=? p then byte_of f p else None.
Proof.
  intros Hok Hi Hse. unfold cut_first. destruct ((s <=? _) && _) eqn:E; cbn.
  - split_and!; [by_bytes..|]. intros p. by_bytes.
  - split_and!; [done..|by_bytes|done|]. by_bytes.
Qed.

Lemma cut_last_correct s e g :
  range_ok g -> impacted s e g ->
  range_ok (cut_last g e) /\ (cut_last g e).(start) = g.(start) /\
  (cut_last g e).(end_) = Z.min e g.(end_) /\
  forall p, byte_of (cut_last g e) p = if p <=? e then byte_of g p else None.
Proof.
  intros Hok Hi. unfold cut_last. destruct ((_ <=? e) && _) eqn:E; cbn.
  - split_and!; by_bytes.
  - split_and!; [done..|by_bytes|]. by_bytes.
Qed.

Lemma insert_last {A} (l : list A) x y : <[(length (l ++ [x]) - 1)%nat := y]> (l ++ [x]) = l ++ [y].
Proof.
  rewrite length_app. cbn. replace (length l + 1 - 1)%nat with (length l + 0)%nat by lia.
  by rewrite insert_app_r.
Qed.

Lemma cut_mid_correct s e a mid :
  wf_from a mid -> Forall (impacted s e) mid -> 0 <= s <= e ->
  wf_from s (cut_mid s e mid) /\ upper s (cut_mid s e mid) <= e + 1 /\
  forall p, byte_at (cut_mid s e mid) p
            = if (s <=? p) && (p <=? e) then byte_at mid p else None.
Proof.
  destruct mid as [|f m]; cbn -[length last insert].
  { intros; split_and!; [done|cbn; lia|by intros; by_guards]. }
  intros (?&Hok&Hw) Hi Hse. inversion Hi as [|?? Hf Hm]; subst.
  destruct (cut_first_correct s e f) as (C1&C2&C3&C4&C5); [done..|].
  assert (Wc : wf_from s (cut_first f s :: m)).
  { cbn. rewrite C4. split_and!; [lia|done|done]. }
  assert (Bc : forall p, byte_at (cut_first f s :: m) p
                         = if s <=? p then byte_at (f :: m) p else None).
  { intros p. cbn. rewrite C5. destruct (Z.leb_spec s p); [done|].
    apply (byte_at_below _ _ _ Hw). unfold impacted in Hf. lia. }
  assert (Ic : Forall (impacted s e) (cut_first f s :: m)) by by constructor.
  change (forall p, byte_at (cut_first f s :: m) p = if s <=? p then byte_at (f :: m) p else None) in Bc.
  set (all := byte_at (f :: m)) in *.
  revert Wc Bc Ic. generalize (cut_first f s :: m) as c.
  intros c. destruct c as [|g c _] using rev_ind.
  { intros _ Bc _. cbn. split_and!; [done|lia|]. intros p. specialize (Bc p). cbn in Bc.
    destruct (s <=? p); [|done]. cbn. by destruct (p <=? e). }
  rewrite wf_from_app, Forall_app, Forall_singleton. cbn.
  intros (Wc&?&Hokg&_) Bc [Ic Ig]. rewrite last_snoc, insert_last. cbn.
  destruct (cut_last_correct s e g) as (D1&D2&D3&D4); [done..|].
  rewrite wf_from_app, upper_app. cbn. split_and!; [done|lia|done|done|lia|].
  intros p. specialize (Bc p). rewrite byte_at_app in *. cbn in *. rewrite D4.
  destruct (Z.leb_spec p e).
  - rewrite Bc. by rewrite andb_true_r.
  - rewrite andb_false_r, (byte_at_above s c); [done..|].
    unfold impacted in Ig. lia.
Qed.

(** ** Filling the gaps with zeros *)

(** The ranges cover [[s, e]] without a gap or an overlap. *)
Fixpoint tiles (s : Z) (l : list PersistencyPageRange) (e : Z) : Prop :=
  match l with
  | [] => s = e + 1
  | r :: l => r.(start) = s /\ range_ok r /\ tiles (r.(end_) + 1) l e
  end.

(** A byte of the filled array: the stored byte, or a byte of the zero extent. *)
Definition filled (l out : list PersistencyPageRange) (p : Z) : Prop :=
  match byte_at l p with
  | Some b => byte_at out p = Some b
  | None => exists k, byte_at out p = Some (ZERO_EXTENT_ID, k)
  end.

Lemma tiles_wf s l e : tiles s l e -> wf_from s l /\ upper s l = e + 1.
Proof.
  revert s. induction l as [|r l IH]; intros s; cbn; [by intros ->|].
  intros (?&?&?%IH). destruct_and!. split_and!; [lia|done..].
Qed.

Lemma tiles_app s l1 m l2 e : tiles s l1 m -> tiles (m + 1) l2 e -> tiles s (l1 ++ l2) e.
Proof.
  revert s. induction l1 as [|r l1 IH]; intros s; cbn; [by intros ->|].
  intros (?&?&?) ?. split_and!; [done..|by apply IH].
Qed.

(** The optional zero range over [[s, e]] that the code pushes for a gap. *)
Definition gap_range (s e : Z) : list PersistencyPageRange :=
  if s <=? e then [mkRange s e (mkChunk ZERO_EXTENT_ID 0 (e + 1 - s))] else [].

Lemma gap_tiles s e : 0 <= s <= e + 1 -> tiles s (gap_range s e) e.
Proof.
  intros Hs. unfold gap_range. destruct (Z.leb_spec s e); cbn; [|lia].
  unfold range_ok. cbn. split_and!; lia.
Qed.

Lemma gap_byte s e p : s <= p <= e -> exists k, byte_at (gap_range s e) p = Some (ZERO_EXTENT_ID, k).
Proof.
  intros Hp. unfold gap_range, byte_of. destruct (Z.leb_spec s e); [|lia]. cbn.
  unfold byte_of. cbn. destruct (Z.leb_spec s p), (Z.leb_spec p e); try lia. by eexists.
Qed.

Lemma gap_out s e p : p < s \/ e < p -> byte_at (gap_range s e) p = None.
Proof.
  intros Hp. unfold gap_range. destruct (Z.leb_spec s e); [|done]. cbn.
  by rewrite byte_of_out by done.
Qed.

Lemma fillMiddle_cons2 r q l :
  fillMiddle (r :: q :: l)
  = r :: gap_range (r.(end_) + 1) (q.(start) - 1) ++ fillMiddle (q :: l).
Proof.
  cbn. do 2 f_equal. unfold gap_range.
  destruct (Z.ltb_spec 0 (q.(start) - 1 - r.(end_))), (Z.leb_spec (r.(end_) + 1) (q.(start) - 1));
    try lia; [|done]. do 3 f_equal. lia.
Qed.

Lemma fillMiddle_correct lo r l :
  wf_from lo (r :: l) ->
  tiles r.(start) (fillMiddle (r :: l)) (upper lo (r :: l) - 1) /\
  forall p, r.(start) <= p < upper lo (r :: l) -> filled (r :: l) (fillMiddle (r :: l)) p.
Proof.
  revert lo r. induction l as [|q l IH]; intros lo r.
  { cbn. intros (?&?&_). split; [split_and!; [done..|lia]|].
    intros p Hp. unfold filled. cbn. unfold byte_of. by_guards. }
  intros (?&Hr&Hw). destruct (IH _ _ Hw) as [IH1 IH2]. destruct Hw as (Hq&Hqok&Hwl).
  rewrite fillMiddle_cons2. set (F := fillMiddle (q :: l)) in *.
  change (upper lo (r :: q :: l)) with (upper (r.(end_) + 1) (q :: l)).
  assert (Hgap : tiles (r.(end_) + 1) (gap_range (r.(end_) + 1) (q.(start) - 1)) (q.(start) - 1)).
  { apply gap_tiles. unfold range_ok in Hr. lia. }
  assert (Htail : tiles (r.(end_) + 1) (gap_range (r.(end_) + 1) (q.(start) - 1) ++ F)
                    (upper (r.(end_) + 1) (q :: l) - 1)).
  { eapply tiles_app; [done|]. by rewrite Z.sub_add. }
  split; [by cbn|]. intros p Hp.
  destruct (decide (p <= r.(end_))) as [Hin|Hout].
  { unfold filled. cbn [byte_at]. by rewrite !byte_of_in by lia. }
  unfold filled. cbn [byte_at app].
  rewrite (byte_of_out r p), byte_at_app by lia.
  destruct (decide (p < q.(start))) as [Hpq|Hpq].
  - rewrite (byte_of_out q p), (byte_at_below _ _ p Hwl) by (unfold range_ok in Hqok; lia).
    destruct (gap_byte (r.(end_) + 1) (q.(start) - 1) p) as [k Hk]; [lia|].
    exists k. by rewrite Hk.
  - rewrite gap_out by lia. apply IH2. lia.
Qed.

(** Each gap of [fillZeroRanges] is a [gap_range]. *)
Lemma gap_ltb s f : (if s <? f then [mkRange s (f - 1) (mkChunk ZERO_EXTENT_ID 0 (f - s))] else [])
                    = gap_range s (f - 1).
Proof.
  unfold gap_range. destruct (Z.ltb_spec s f), (Z.leb_spec s (f - 1)); try lia; [|done].
  do 3 f_equal. lia.
Qed.

Lemma gap_ltb_end g e : (if g <? e then [mkRange (g + 1) e (mkChunk ZERO_EXTENT_ID 0 (e - g))] else [])
                        = gap_range (g + 1) e.
Proof.
  unfold gap_range. destruct (Z.ltb_spec g e), (Z.leb_spec (g + 1) e); try lia; [|done].
  do 3 f_equal. lia.
Qed.

Lemma get_upper lo r l :
  exists g, array_get (r :: l) (At (Z.of_nat (length (r :: l)) - 1)) = Ok g /\
            upper lo (r :: l) = g.(end_) + 1.
Proof.
  destruct (exists_last (l:=r :: l)) as (l'&g&->); [done|]. exists g.
  rewrite upper_app. split; [|done]. unfold array_get. rewrite length_app. cbn.
  destruct (Z.ltb_spec (Z.of_nat (length l' + 1) - 1) 0); [lia|].
  replace (Z.to_nat _) with (length l' + 0)%nat by lia.
  by rewrite lookup_app_r, Nat.add_0_r, Nat.sub_diag by lia.
Qed.

(** The zero-filled array of a cut array. *)
Lemma fill_cut_correct s e r c :
  0 <= s -> wf_from s (r :: c) -> upper s (r :: c) <= e + 1 ->
  let out := gap_range s (r.(start) - 1) ++ fillMiddle (r :: c) ++ gap_range (upper s (r :: c)) e in
  tiles s out e /\ forall p, s <= p <= e -> filled (r :: c) out p.
Proof.
  intros Hs Hw Hu out. destruct (fillMiddle_correct _ _ _ Hw) as [T B].
  pose proof (upper_ge _ _ Hw) as Hge. destruct (Hw) as (Hr&Hrok&Hwc).
  assert (Hu' : r.(start) <= upper s (r :: c)).
  { cbn. pose proof (upper_ge _ _ Hwc). unfold range_ok in Hrok. lia. }
  split.
  - eapply tiles_app; [apply gap_tiles; lia|]. rewrite Z.sub_add.
    eapply tiles_app; [done|]. rewrite Z.sub_add. apply gap_tiles. lia.
  - intros p Hp. unfold filled, out. rewrite !byte_at_app.
    destruct (decide (p < r.(start))) as [H1|H1].
    + rewrite (byte_at_below r.(start) (r :: c)); [|by cbn|done].
      destruct (gap_byte s (r.(start) - 1) p) as [k ->]; [lia|by eexists].
    + rewrite gap_out by lia. destruct (decide (p < upper s (r :: c))) as [H2|H2].
      * specialize (B p ltac:(lia)). unfold filled in B.
        destruct (byte_at (r :: c) p); [by rewrite B|]. destruct B as [k ->]. by eexists.
      * destruct (tiles_wf _ _ _ T) as [Tw Tu].
        rewrite (byte_at_above s (r :: c)), (byte_at_above r.(start) (fillMiddle (r :: c)))
          by (done || lia).
        apply gap_byte. lia.
Qed.

(** ** The properties *)

(** Run a decomposed lemma on a well-formed array. *)
Local Ltac decompose_at s e l Hw :=
  destruct (split_impacted s e 0 l Hw) as (pre&mid&post&->&Hpre&Hmid&Hpost).

Lemma merge_correct l r :
  wf l -> range_ok r ->
  exists l', mergeRange l r = Ok l' /\ wf l' /\
    forall p, byte_at l' p = match byte_of r p with Some b => Some b | None => byte_at l p end.
Proof.
  intros Hw Hr. destruct r as [s e c]. destruct (Hr) as [Hse _]. cbn in Hse.
  decompose_at s e l Hw. rewrite (merge_decomposed 0) by done. eexists. split; [done|].
  destruct (assembled_correct s e pre mid post [mkRange s e c]) as [Hwf Hb];
    [done..|cbn; split; [lia|by split]|cbn; lia|].
  split; [done|]. intros p. rewrite Hb. cbn [byte_at]. unfold byte_of. cbn. by destruct (_ && _).
Qed.

Lemma clear_correct l s e :
  wf l -> 0 <= s <= e ->
  exists l', clearRange l (mkPageRange s e) = Ok l' /\ wf l' /\
    forall p, byte_at l' p = if (s <=? p) && (p <=? e) then None else byte_at l p.
Proof.
  intros Hw Hse. decompose_at s e l Hw. rewrite (clear_decomposed 0) by done.
  eexists. split; [done|]. apply (assembled_correct s e pre mid post []); try done. cbn. lia.
Qed.

Lemma cut_correct l s e :
  wf l -> 0 <= s <= e ->
  exists l', cutRanges l (mkPageRange s e) = Ok l' /\ wf_from s l' /\ upper s l' <= e + 1 /\
    forall p, byte_at l' p = if (s <=? p) && (p <=? e) then byte_at l p else None.
Proof.
  intros Hw Hse. decompose_at s e l Hw. rewrite (cut_decomposed 0) by done.
  eexists. split; [done|]. unfold wf in Hw. rewrite !wf_from_app in Hw. destruct Hw as (W1&W2&W3).
  destruct (cut_mid_correct s e _ _ W2 Hmid Hse) as (C1&C2&C3).
  split_and!; [done..|]. intros p. rewrite C3, !byte_at_app.
  pose proof (wf_after _ _ _ W3 Hpost) as W3'.
  destruct (Z.leb_spec s p), (Z.leb_spec p e); try done. cbn.
  rewrite (byte_at_above 0 pre), (byte_at_below _ post p W3'); [|lia|done|].
  - by destruct (byte_at mid p).
  - pose proof (upper_before 0 s pre W1 ltac:(lia) Hpre). lia.
Qed.

(** [cutRanges] never throws on a well-formed array and an ordered range:
    it returns a well-formed array that holds exactly the bytes of the array
    at the positions of the range. *)
Theorem cutRanges_correct l s e :
  wf l -> 0 <= s <= e ->
  exists l', cutRanges l (mkPageRange s e) = Ok l' /\ wf l' /\
    forall p, byte_at l' p = if (s <=? p) && (p <=? e) then byte_at l p else None.
Proof.
  intros Hw Hse. destruct (cut_correct l s e Hw Hse) as (l'&?&Hw'&_&?).
  exists l'. split_and!; [done| |done]. apply (wf_from_weaken s); [lia|done].
Qed.

(** The zero-filled array, from the cut one. *)
Definition filled_array (s e : Z) (c : list PersistencyPageRange) : list PersistencyPageRange :=
  match c with
  | [] => gap_range s e
  | r :: _ => gap_range s (r.(start) - 1) ++ fillMiddle c ++ gap_range (upper s c) e
  end.

Lemma fill_shape l s e :
  wf l -> 0 <= s <= e ->
  exists c, cutRanges l (mkPageRange s e) = Ok c /\
    fillZeroRanges l (mkPageRange s e) = Ok (filled_array s e c).
Proof.
  intros Hw Hse. destruct (cut_correct l s e Hw Hse) as (c&Ec&_). exists c. split; [done|].
  unfold fillZeroRanges. rewrite Ec. cbn [mbind result_bind pr_start pr_end].
  destruct c as [|r c]; [change (Nat.eqb (length []) 0) with true
                        |change (Nat.eqb (length (r :: c)) 0) with false]; cbn iota.
  - unfold filled_array, gap_range, zeroRange. destruct (Z.leb_spec s e); [done|lia].
  - change (array_get (r :: c) (At 0)) with (Ok (E:=exn) r). cbn [mbind result_bind].
    destruct (get_upper s r c) as (g&Eg&Eu). rewrite Eg. cbn [mbind result_bind].
    by rewrite gap_ltb, gap_ltb_end, <- Eu.
Qed.

(** [fillZeroRanges] returns ranges that tile the requested range, with no gap and
    no overlap; every position reads its stored byte, or a byte of the zero extent
    where none is stored. *)
Lemma fillZeroRanges_correct l s e :
  wf l -> 0 <= s <= e ->
  exists out, fillZeroRanges l (mkPageRange s e) = Ok out /\ tiles s out e /\
    forall p, s <= p <= e -> filled l out p.
Proof.
  intros Hw Hse. destruct (fill_shape l s e Hw Hse) as (c&Ec&->).
  destruct (cut_correct l s e Hw Hse) as (c'&Ec'&Hwc&Huc&Hb). assert (c' = c) as -> by congruence.
  exists (filled_array s e c). split; [done|].
  assert (Hf : forall out p, s <= p <= e -> filled c out p -> filled l out p).
  { intros out p Hp. unfold filled. rewrite Hb.
    by destruct (Z.leb_spec s p), (Z.leb_spec p e); try lia. }
  destruct c as [|r c].
  - split; [apply gap_tiles; lia|]. intros p Hp. apply Hf; [done|]. unfold filled. cbn. by apply gap_byte.
  - destruct (fill_cut_correct s e r c) as [T B]; [lia|done|done|]. split; [done|].
    intros p Hp. by apply Hf, B.
Qed.

(** ** The refinement: sequences of updates *)

Inductive update := Upload (r : PersistencyPageRange) | Clear (s e : Z).

(** The updates the handlers make: [uploadPages] merges, [clearPages] clears. *)
Definition apply_update (l : list PersistencyPageRange) (u : update) :
    res (list PersistencyPageRange) :=
  match u with
  | Upload r => mergeRange l r
  | Clear s e => clearRange l (mkPageRange s e)
  end.

Fixpoint run_updates (l : list PersistencyPageRange) (us : list update) :
    res (list PersistencyPageRange) :=
  match us with
  | [] => Ok l
  | u :: us => l ← apply_update l u; run_updates l us
  end.

(** The page blob as a function from positions to bytes. *)
Definition paint (m : Z -> option (string * Z)) (u : update) : Z -> option (string * Z) :=
  match u with
  | Upload r => fun p => match byte_of r p with Some b => Some b | None => m p end
  | Clear s e => fun p => if (s <=? p) && (p <=? e) then None else m p
  end.

Definition update_ok (u : update) : Prop :=
  match u with Upload r => range_ok r | Clear s e => 0 <= s <= e end.

Lemma apply_update_refines l m u :
  wf l -> (forall p, byte_at l p = m p) -> update_ok u ->
  exists l', apply_update l u = Ok l' /\ wf l' /\ forall p, byte_at l' p = paint m u p.
Proof.
  intros Hw Hm Hu. destruct u as [r|s e]; cbn in *.
  - destruct (merge_correct l r Hw Hu) as (l'&E&Hw'&Hb). exists l'.
    split_and!; [done..|]. intros p. by rewrite Hb, <- Hm.
  - destruct (clear_correct l s e Hw Hu) as (l'&E&Hw'&Hb). exists l'.
    split_and!; [done..|]. intros p. by rewrite Hb, <- Hm.
Qed.

(** C31. Any sequence of valid uploads and clears, from the empty blob, runs
    without an exception, keeps the array sorted and disjoint with each chunk of
    its range's length, and leaves the bytes of the reference page map, in
    which the last update of a position wins. *)
Theorem updates_refine us :
  Forall update_ok us ->
  exists l, run_updates [] us = Ok l /\ wf l /\
    forall p, byte_at l p = foldl paint (fun _ => None) us p.
Proof.
  intros Hus. assert (Hgen : forall l m, wf l -> (forall p, byte_at l p = m p) ->
    exists l', run_updates l us = Ok l' /\ wf l' /\ forall p, byte_at l' p = foldl paint m us p).
  { induction Hus as [|u us Hu _ IH]; intros l m Hw Hm; [by exists l|].
    destruct (apply_update_refines l m u Hw Hm Hu) as (l'&E&Hw'&Hm').
    destruct (IH l' (paint m u) Hw' Hm') as (l''&E'&?). exists l''. cbn. by rewrite E. }
  by apply Hgen.
Qed.

(** ** Witnesses *)

Definition sample_chunk (n : Z) : IExtentChunk := mkChunk "e1" 100 n.
Definition sample : list PersistencyPageRange :=
  [mkRange 512 1023 (sample_chunk 512); mkRange 2048 4095 (mkChunk "e2" 0 2048)].

Lemma sample_wf : wf sample.
Proof. unfold wf, sample. cbn. unfold range_ok. cbn. lia. Qed.

Lemma cutRanges_correct_witness :
  exists l', cutRanges sample (mkPageRange 600 2999) = Ok l' /\ wf l' /\
    forall p, byte_at l' p = if (600 <=? p) && (p <=? 2999) then byte_at sample p else None.
Proof. apply (cutRanges_correct sample 600 2999); [exact sample_wf | lia]. Defined.

Definition sample_updates : list update :=
  [Upload (mkRange 0 4095 (mkChunk "e1" 0 4096)); Clear 512 1023;
   Upload (mkRange 256 767 (mkChunk "e2" 512 512))].

Lemma sample_updates_ok : Forall update_ok sample_updates.
Proof. unfold sample_updates. repeat constructor; cbn; lia. Qed.

Lemma updates_refine_witness :
  exists l, run_updates [] sample_updates = Ok l /\ wf l /\
    forall p, byte_at l p = foldl paint (fun _ => None) sample_updates p.
Proof. apply (updates_refine sample_updates). exact sample_updates_ok. Defined.
