(* ===== verification/PagePieces.v ===== *)
(** * PagePieces: where the chunks of an array of page ranges come from

    After an update, a cut or a fill, each range of the array is a piece of a
    range that was there, the new range, or one of zeros in a gap: so the data
    that the chunks of the ranges hold goes with them. *)

From S2P Require Import Prelude Errors Extents PageRanges PageRangesSpec.
Open Scope Z_scope.

(** A part of a range, with the part of its chunk. *)
Definition piece_of (r x : PersistencyPageRange) : Prop :=
  r.(start) <= x.(start) /\ x.(start) <= x.(end_) /\ x.(end_) <= r.(end_) /\
  x.(persistency) = mkChunk r.(persistency).(id) (r.(persistency).(offset) + (x.(start) - r.(start)))
                      (x.(end_) - x.(start) + 1).

Definition inside (x : PersistencyPageRange) (p : Z) : Prop := x.(start) <= p <= x.(end_).

Lemma piece_refl r : range_ok r -> piece_of r r.
Proof.
  destruct r as [s e [i o n]]. unfold range_ok, piece_of. cbn. intros [? ->]. split_and!; [lia..|].
  f_equal; lia.
Qed.

Lemma piece_trans r x y : piece_of r x -> piece_of x y -> piece_of r y.
Proof.
  unfold piece_of. intros (?&?&?&->) (?&?&?&->). cbn. split_and!; [lia..|]. f_equal; lia.
Qed.

(** ** The ranges of an array *)

Lemma wf_elem lo l x : wf_from lo l -> x ∈ l -> lo <= x.(start) /\ range_ok x /\ x.(end_) + 1 <= upper lo l.
Proof.
  revert lo. induction l as [|r l IH]; intros lo; cbn; [by intros _ ?%elem_of_nil|].
  intros (Hlo&Hr&Hw) [->|Hx]%elem_of_cons.
  - split_and!; [done..|]. by apply upper_ge.
  - destruct (IH _ Hw Hx) as (?&?&?). unfold range_ok in Hr. split_and!; [lia|done..].
Qed.

Lemma wf_byte lo l x p : wf_from lo l -> x ∈ l -> inside x p -> byte_at l p = byte_of x p.
Proof.
  revert lo. induction l as [|r l IH]; intros lo; cbn; [by intros _ ?%elem_of_nil|].
  intros (Hlo&Hr&Hw) [->|Hx]%elem_of_cons Hp; [by rewrite (byte_of_in r p) by done|].
  destruct (wf_elem _ _ _ Hw Hx) as (?&_&_). rewrite (byte_of_out r p) by (unfold inside in Hp; lia).
  by apply (IH _ Hw).
Qed.

Lemma wf_disjoint lo l x y p : wf_from lo l -> x ∈ l -> y ∈ l -> inside x p -> inside y p -> x = y.
Proof.
  revert lo. induction l as [|r l IH]; intros lo; cbn; [by intros _ ?%elem_of_nil|].
  intros (Hlo&Hr&Hw) [->|Hx]%elem_of_cons [->|Hy]%elem_of_cons Hxp Hyp; [done|..]; unfold inside in *.
  - destruct (wf_elem _ _ _ Hw Hy) as (?&_&_). lia.
  - destruct (wf_elem _ _ _ Hw Hx) as (?&_&_). lia.
  - by apply (IH _ Hw).
Qed.

(** ** Updates *)

Definition pieces_of (l l' : list PersistencyPageRange) : Prop := forall x, x ∈ l' -> exists y, y ∈ l /\ piece_of y x.

Lemma wf_ranges lo l : wf_from lo l -> Forall range_ok l.
Proof. intros Hw. apply Forall_forall. intros x Hx. by destruct (wf_elem _ _ _ Hw Hx) as (_&?&_). Qed.

Lemma pieces_refl lo l : wf_from lo l -> pieces_of l l.
Proof. intros Hw x Hx. exists x. split; [done|]. apply piece_refl. by destruct (wf_elem _ _ _ Hw Hx) as (_&?&_). Qed.

Lemma pieces_app l l1 l2 : pieces_of l l1 -> pieces_of l l2 -> pieces_of l (l1 ++ l2).
Proof. intros H1 H2 x [Hx|Hx]%elem_of_app; [by apply H1|by apply H2]. Qed.

Lemma pieces_weaken l l1 l' : (forall x, x ∈ l1 -> x ∈ l) -> pieces_of l1 l' -> pieces_of l l'.
Proof. intros Hl H x Hx. destruct (H x Hx) as (y&?&?). exists y. auto. Qed.

(** Case analysis on the comparisons of a split. *)
Local Ltac by_split :=
  repeat match goal with
  | H : context [Z.leb ?a ?b] |- _ => destruct (Z.leb_spec a b)
  | H : context [Z.ltb ?a ?b] |- _ => destruct (Z.ltb_spec a b)
  | |- context [Z.leb ?a ?b] => destruct (Z.leb_spec a b)
  | |- context [Z.ltb ?a ?b] => destruct (Z.ltb_spec a b)
  end; cbn in *; try done; unfold piece_of; cbn; split_and!; try lia; f_equal; lia.

Lemma left_pieces s mid : Forall range_ok mid -> pieces_of mid (left_of s mid).
Proof.
  destruct mid as [|f m]; cbn; [by intros _ x ?%elem_of_nil|]. intros [[Hf Hc] _]%Forall_cons x Hx. exists f.
  split; [by left|]. unfold left_split in Hx.
  destruct ((s <=? _) && _) eqn:E; [|by apply elem_of_nil in Hx]. apply list_elem_of_singleton in Hx as ->. by_split.
Qed.

Lemma right_pieces e mid : Forall range_ok mid -> pieces_of mid (right_of e mid).
Proof.
  unfold right_of. destruct (last mid) as [g|] eqn:Hg; [|by intros _ x ?%elem_of_nil].
  intros Hr x Hx. exists g. assert (Hin : g ∈ mid) by (apply last_Some in Hg as [l ->]; apply elem_of_app; right; by left).
  split; [done|]. rewrite Forall_forall in Hr. destruct (Hr g Hin) as [Hf Hc]. unfold right_split in Hx.
  destruct ((_ <=? e) && _) eqn:E; [|by apply elem_of_nil in Hx]. apply list_elem_of_singleton in Hx as ->. by_split.
Qed.

Lemma cut_first_piece f s e : range_ok f -> impacted s e f -> 0 <= s <= e -> piece_of f (cut_first f s).
Proof.
  intros [Hf Hc] Hi Hse. unfold cut_first. destruct ((s <=? _) && _) eqn:E; [by_split|by apply piece_refl].
Qed.

Lemma cut_last_piece g s e : range_ok g -> impacted s e g -> piece_of g (cut_last g e).
Proof.
  intros [Hf Hc] Hi. unfold cut_last, impacted in *. destruct ((_ <=? e) && _) eqn:E; [by_split|by apply piece_refl].
Qed.

(** The pieces of an updated array, and the split at the impacted ranges. *)
Lemma split_pieces s e l :
  wf l -> 0 <= s <= e ->
  exists pre mid post, l = pre ++ mid ++ post /\
    Forall (before s) pre /\ Forall (impacted s e) mid /\ Forall (after e) post /\
    pieces_of l pre /\ pieces_of l post /\ pieces_of l (left_of s mid) /\ pieces_of l (right_of e mid) /\
    Forall range_ok mid /\ forall x, x ∈ mid -> x ∈ l.
Proof.
  intros Hw Hse. pose proof (wf_ranges _ _ Hw) as Hr.
  destruct (split_impacted s e 0 l Hw) as (pre&mid&post&->&Hpre&Hmid&Hpost).
  exists pre, mid, post. rewrite !Forall_app in Hr. destruct Hr as (R1&R2&R3).
  assert (Hp : forall m, Forall range_ok m -> pieces_of m m).
  { intros m Hm x Hx. exists x. split; [done|]. rewrite Forall_forall in Hm. by apply piece_refl, Hm. }
  split_and!; [done..| | | | |done|].
  - eapply pieces_weaken; [|by apply Hp]. intros. apply elem_of_app. by left.
  - eapply pieces_weaken; [|by apply Hp]. intros. rewrite !elem_of_app. by right; right.
  - eapply pieces_weaken; [|by apply left_pieces]. intros. rewrite !elem_of_app. by right; left.
  - eapply pieces_weaken; [|by apply right_pieces]. intros. rewrite !elem_of_app. by right; left.
  - intros x Hx. rewrite !elem_of_app. by right; left.
Qed.

Lemma merge_pieces l r :
  wf l -> range_ok r ->
  exists l', mergeRange l r = Ok l' /\ wf l' /\
    (forall p, byte_at l' p = match byte_of r p with Some b => Some b | None => byte_at l p end) /\
    forall x, x ∈ l' -> x = r \/ ((exists y, y ∈ l /\ piece_of y x) /\ forall p, inside x p -> ~ inside r p).
Proof.
  intros Hw Hr. destruct (merge_correct l r Hw Hr) as (l'&El&Hw'&Hb). exists l'. split_and!; [done..|].
  destruct r as [s e c]. pose proof (proj1 Hr) as Hse. cbn in Hse.
  destruct (split_pieces s e l Hw Hse) as (pre&mid&post&->&P1&P2&P3&Q1&Q2&Q3&Q4&_&_).
  rewrite (merge_decomposed 0 s e pre mid post) in El by done. injection El as <-.
  set (l' := pre ++ (left_of s mid ++ [mkRange s e c] ++ right_of e mid) ++ post) in *.
  assert (Hin : mkRange s e c ∈ l') by (unfold l'; rewrite !elem_of_app, list_elem_of_singleton; tauto).
  intros x Hx. destruct (decide (x = mkRange s e c)) as [|Hne]; [by left|right]. split.
  - unfold l' in Hx. rewrite !elem_of_app, elem_of_cons in Hx.
    destruct Hx as [Hx|[[Hx|[Hx|Hx]]|Hx]]; [by apply Q1|by apply Q3|done|by apply Q4|by apply Q2].
  - intros p Hp Hrp. apply Hne. exact (wf_disjoint _ _ _ _ p Hw' Hx Hin Hp Hrp).
Qed.

Lemma clear_pieces l s e :
  wf l -> 0 <= s <= e ->
  exists l', clearRange l (mkPageRange s e) = Ok l' /\ wf l' /\
    (forall p, byte_at l' p = if (s <=? p) && (p <=? e) then None else byte_at l p) /\
    pieces_of l l' /\ forall x p, x ∈ l' -> inside x p -> ~ s <= p <= e.
Proof.
  intros Hw Hse. destruct (clear_correct l s e Hw Hse) as (l'&El&Hw'&Hb). exists l'. split_and!; [done..| |].
  - destruct (split_pieces s e l Hw Hse) as (pre&mid&post&->&P1&P2&P3&Q1&Q2&Q3&Q4&_&_).
    rewrite (clear_decomposed 0 s e pre mid post) in El by done. injection El as <-.
    repeat apply pieces_app; done.
  - intros x p Hx Hp [H1 H2]. pose proof (wf_byte _ _ _ _ Hw' Hx Hp) as He. rewrite Hb, (byte_of_in x p Hp) in He.
    by destruct (Z.leb_spec s p), (Z.leb_spec p e); try lia.
Qed.

Lemma cut_pieces l s e :
  wf l -> 0 <= s <= e ->
  exists l', cutRanges l (mkPageRange s e) = Ok l' /\ wf_from s l' /\ upper s l' <= e + 1 /\
    (forall p, byte_at l' p = if (s <=? p) && (p <=? e) then byte_at l p else None) /\ pieces_of l l'.
Proof.
  intros Hw Hse. destruct (cut_correct l s e Hw Hse) as (l'&El&Hw'&Hup&Hb). exists l'. split_and!; [done..|].
  destruct (split_pieces s e l Hw Hse) as (pre&mid&post&->&P1&P2&P3&_&_&_&_&R&Hin).
  rewrite (cut_decomposed 0 s e pre mid post) in El by done. injection El as <-.
  apply (pieces_weaken _ mid); [done|]. clear -R P2 Hse. destruct mid as [|f m]; [by intros x ?%elem_of_nil|].
  apply Forall_cons in R as [Rf Rm], P2 as [If Im].
  assert (Hc : pieces_of (f :: m) (cut_first f s :: m) /\ Forall range_ok (cut_first f s :: m) /\
               Forall (impacted s e) (cut_first f s :: m)).
  { destruct (cut_first_correct s e f) as (C1&C2&_); [done..|]. split_and!; [|by constructor..].
    intros x [->|Hx]%elem_of_cons; [exists f; split; [by left|by eapply cut_first_piece]|].
    exists x. split; [by right|]. rewrite Forall_forall in Rm. by apply piece_refl, Rm. }
  destruct Hc as (H1&H2&H3). cbn -[last length]. revert H1 H2 H3. generalize (cut_first f s :: m). intros c H1 H2 H3 x Hx.
  apply list_elem_of_lookup in Hx as [n Hn]. apply list_lookup_insert_Some in Hn as [(_&<-&Hlt)|[_ Hn]].
  - destruct (last c) as [g|] eqn:Hg; [|by apply last_None in Hg as ->; cbn in Hlt; lia]. cbn.
    assert (Hgc : g ∈ c) by (apply last_Some in Hg as [q ->]; apply elem_of_app; right; by left).
    destruct (H1 g Hgc) as (y&Hy&Hp). exists y. split; [done|]. rewrite Forall_forall in H2, H3.
    eapply piece_trans; [exact Hp|]. eapply cut_last_piece; auto.
  - apply H1. by apply list_elem_of_lookup_2 in Hn.
Qed.

(** ** Filling *)

(** A range of zeros where the array has none. *)
Definition zero_gap (l : list PersistencyPageRange) (x : PersistencyPageRange) : Prop :=
  x.(persistency) = mkChunk ZERO_EXTENT_ID 0 (x.(end_) - x.(start) + 1) /\ x.(start) <= x.(end_) /\
  forall p, inside x p -> byte_at l p = None.

Lemma gap_zero l s e x :
  (forall p, s <= p <= e -> byte_at l p = None) -> x ∈ gap_range s e -> zero_gap l x.
Proof.
  intros Hn Hx. unfold gap_range in Hx. destruct (Z.leb_spec s e); [|by apply elem_of_nil in Hx].
  apply list_elem_of_singleton in Hx as ->. split_and!; cbn; [f_equal; lia|lia|]. intros p Hp. by apply Hn.
Qed.

Lemma fillMiddle_pieces lo c x :
  wf_from lo c -> x ∈ fillMiddle c -> x ∈ c \/ zero_gap c x.
Proof.
  revert lo. induction c as [|r c IH]; intros lo Hw Hx; [by left|].
  destruct c as [|q c]; [by left|]. rewrite fillMiddle_cons2 in Hx. cbn in Hw. destruct Hw as (Hlo&Hr&Hq&Hqr&Hw).
  assert (Hwq : wf_from (r.(end_) + 1) (q :: c)) by done.
  apply elem_of_cons in Hx as [->|[Hx|Hx]%elem_of_app]; [left; by left|right|].
  - apply (gap_zero _ (r.(end_) + 1) (q.(start) - 1)); [|done]. intros p Hp.
    cbn [byte_at]. rewrite (byte_of_out r p) by lia. rewrite (byte_of_out q p) by lia.
    apply (byte_at_below _ _ _ Hw). unfold range_ok in Hqr. lia.
  - destruct (IH _ Hwq Hx) as [Hc|(Hz&Hse&Hn)]; [left; by right|right]. split_and!; [done|done|].
    intros p Hp. cbn [byte_at]. rewrite (byte_of_out r p); [by apply Hn|]. right.
    destruct (fillMiddle_correct _ _ _ Hwq) as [T _]. destruct (tiles_wf _ _ _ T) as [Tw _].
    destruct (wf_elem _ _ _ Tw Hx) as (?&_&_). unfold inside in Hp. lia.
Qed.

Lemma filled_array_pieces s e c x :
  0 <= s -> wf_from s c -> x ∈ filled_array s e c -> x ∈ c \/ zero_gap c x.
Proof.
  intros Hs Hw Hx. destruct c as [|r c].
  - right. eapply gap_zero; [|exact Hx]. done.
  - apply elem_of_app in Hx as [Hx|[Hx|Hx]%elem_of_app].
    + right. eapply gap_zero; [|exact Hx]. intros p Hp. destruct Hw as (Hlo&Hr&Hw). cbn [byte_at].
      rewrite (byte_of_out r p) by lia. apply (byte_at_below _ _ _ Hw). unfold range_ok in Hr. lia.
    + by eapply fillMiddle_pieces.
    + right. eapply gap_zero; [|exact Hx]. intros p Hp. apply (byte_at_above s); [done|lia].
Qed.

Lemma fill_pieces l s e :
  wf l -> 0 <= s <= e ->
  exists out, fillZeroRanges l (mkPageRange s e) = Ok out /\ tiles s out e /\
    forall x, x ∈ out -> (exists y, y ∈ l /\ piece_of y x) \/ zero_gap l x.
Proof.
  intros Hw Hse. destruct (fill_shape l s e Hw Hse) as (c&Ec&Ef).
  destruct (cut_pieces l s e Hw Hse) as (c'&Ec'&Hwc&_&Hb&Hp). assert (c' = c) as -> by congruence.
  destruct (fillZeroRanges_correct l s e Hw Hse) as (out&Ef'&T&_). assert (out = filled_array s e c) as -> by congruence.
  exists (filled_array s e c). split_and!; [done..|]. intros x Hx.
  destruct (filled_array_pieces s e c x) as [Hc|(Hz&Hxe&Hn)]; [lia|done|done|left; by apply Hp|right].
  split_and!; [done|done|]. intros p Hxp. specialize (Hn p Hxp). rewrite Hb in Hn.
  destruct (tiles_wf _ _ _ T) as [Tw Tu]. destruct (wf_elem _ _ _ Tw Hx) as (?&_&?). unfold inside in Hxp.
  destruct (Z.leb_spec s p), (Z.leb_spec p e); try lia; done.
Qed.
