(* ===== verification/TagQuery.v ===== *)
(** * TagQuery: blob index tags and the query language over them

    src/src/blob/persistence/QueryInterpreter: the recursive descent parser of
    the [where] parameter of "find blobs by tags" and of the [x-ms-if-tags]
    conditions, the nodes of its syntax tree and their evaluation on the tags of
    a blob; and the validation of tags of src/src/blob/utils/utils.ts.

    The parser reads its query by index, so the query is the list of its
    characters; characters beyond Latin-1 are not represented. The parser's
    state is its position and the comparisons it has seen, threaded through the
    [proc] monad. The functions visitOr, visitAnd and visitExpressionGroup call
    each other: each call takes a unit of fuel, and [visit] starts with three
    units for each character and three more. *)

From S2P Require Import Prelude Errors.
From stdpp Require Import pretty.
From Stdlib Require Import Ascii.
From Stdlib Require String.
Open Scope Z_scope.
Open Scope azurite_scope.

Abbreviation chars := (list Ascii.ascii).
Local Abbreviation str := String.string_of_list_ascii.
Local Abbreviation chars_of := String.list_ascii_of_string.

(** ** Tags *)

Definition char_between (a b c : Ascii.ascii) : bool :=
  (Ascii.N_of_ascii a <=? Ascii.N_of_ascii c)%N && (Ascii.N_of_ascii c <=? Ascii.N_of_ascii b)%N.

Definition alphanumeric (c : Ascii.ascii) : bool :=
  char_between "a"%char "z"%char c || char_between "A"%char "Z"%char c
  || char_between "0"%char "9"%char c.

Definition tag_char (c : Ascii.ascii) : bool :=
  alphanumeric c || (c === " "%char) || (c === "+"%char) || (c === "-"%char)
  || (c === "."%char) || (c === "/"%char) || (c === ":"%char) || (c === "="%char)
  || (c === "_"%char).

Definition ContainsInvalidTagCharacter (s : string) : bool :=
  existsb (fun c => negb (tag_char c)) (chars_of s).

Record BlobTag := mkBlobTag { tag_key : string; tag_value : string }.

Definition validate_tag (contextID : option string) (tag : BlobTag) : res unit :=
  throw_when (Nat.eqb (String.length tag.(tag_key)) 0) (BlobErrors.getEmptyTagName contextID);;
  throw_when (Nat.ltb 128 (String.length tag.(tag_key))) (BlobErrors.getTagsTooLarge contextID);;
  throw_when (Nat.ltb 256 (String.length tag.(tag_value))) (BlobErrors.getTagsTooLarge contextID);;
  throw_when (ContainsInvalidTagCharacter tag.(tag_key)) (BlobErrors.getInvalidTag contextID);;
  throw_when (ContainsInvalidTagCharacter tag.(tag_value)) (BlobErrors.getInvalidTag contextID);;
  Ok tt.

Fixpoint for_each {A} (f : A -> res unit) (l : list A) : res unit :=
  match l with [] => Ok tt | a :: l => _ ← f a; for_each f l end.

Definition validateBlobTag (tags : list BlobTag) (contextID : option string) : res unit :=
  throw_when (Nat.ltb 10 (length tags)) (BlobErrors.getTagsTooLarge contextID);;
  for_each (validate_tag contextID) tags.

(** ** The syntax tree *)

Inductive IQueryNode :=
| KeyNode (identifier : string)
| ConstantNode (value : string)
| ExpressionNode (child : IQueryNode)
| AndNode (left right : IQueryNode)
| OrNode (left right : IQueryNode)
| EqualsNode (left right : IQueryNode)
| NotEqualsNode (left right : IQueryNode)
| GreaterThanNode (left right : IQueryNode)
| GreaterThanEqualNode (left right : IQueryNode)
| LessThanNode (left right : IQueryNode)
| LessThanEqualNode (left right : IQueryNode).

#[export] Instance IQueryNode_eq_dec : EqDecision IQueryNode.
Proof. solve_decision. Defined.

(** ** The parser *)

Inductive ComparisonType := Equal | Greater | Less | NotEqual.

#[export] Instance ComparisonType_eq_dec : EqDecision ComparisonType.
Proof. solve_decision. Defined.

(** The mutable fields of [QueryParser] and of its [ParserContext]. *)
Record QueryParser := mkQueryParser {
  tokenPosition : nat;
  comparisonNodes : gmap string (list ComparisonType);
  comparisonCount : Z
}.

Abbreviation parser := (proc QueryParser exn).

(** The properties every JavaScript object inherits, with the string each
    converts to: reading one from an object literal is not [undefined]. *)
Definition native (f : string) : string := ("function " ++ f ++ "() { [native code] }")%string.

Definition inherited (k : string) : option string :=
  if k === "constructor"%string then Some (native "Object")
  else if k === "__proto__"%string then Some "[object Object]"%string
  else if bool_decide (k ∈ ["toString"; "toLocaleString"; "valueOf"; "hasOwnProperty";
            "isPrototypeOf"; "propertyIsEnumerable"; "__defineGetter__";
            "__defineSetter__"; "__lookupGetter__"; "__lookupSetter__"]%string)
  then Some (native k)
  else None.

Section Parser.
Context (contextId : option string) (query : chars) (conditionHeader : option string).

Local Abbreviation header := (nonempty conditionHeader).

Definition gets {A} (f : QueryParser -> A) : parser A := fun st => (Ok (f st), st).
Definition modify (f : QueryParser -> QueryParser) : parser unit := fun st => (Ok tt, f st).
Definition advance (n : nat) (st : QueryParser) : QueryParser :=
  mkQueryParser (st.(tokenPosition) + n) st.(comparisonNodes) st.(comparisonCount).

(** What is left of the query. *)
Definition rest (st : QueryParser) : chars := drop st.(tokenPosition) query.

(** *** [ParserContext] *)

Definition query_error (position : nat) (message : string) : exn :=
  Storage (mkStorageError 400 "InvalidQueryParameterValue"
    ("Error parsing query at or near character position " ++ pretty position ++ ": " ++ message)%string
    contextId [("QueryParameterName", "where"); ("QueryParameterValue", str query)]%string).

Definition parse_error (message : string) (st : QueryParser) : exn :=
  if header
  then BlobErrors.getInvalidHeaderValue contextId
         [("HeaderName", default "" conditionHeader); ("HeaderValue", str query)]%string
  else query_error st.(tokenPosition) message.

(** [this.query.throw(message)]. *)
Definition throw_at {A} (message : QueryParser -> string) : parser A :=
  fun st => (Throw (parse_error (message st) st), st).

Definition peek (st : QueryParser) : option Ascii.ascii := query !! st.(tokenPosition).

(** [`${this.query.peek()}`]. *)
Definition peek_text (st : QueryParser) : string :=
  match peek st with Some c => str [c] | None => "undefined"%string end.

Definition assertEndOfQuery : parser unit :=
  p ← gets tokenPosition;
  if Nat.ltb p (length query)
  then throw_at (fun st => ("Unexpected token '" ++ peek_text st ++ "'.")%string)
  else mret tt.

(** [!c.trim()] on a character. *)
Definition is_space (c : Ascii.ascii) : bool :=
  let n := Ascii.N_of_ascii c in
  ((9 <=? n)%N && (n <=? 13)%N) || (n =? 32)%N || (n =? 160)%N.

(** The number of characters a loop of [take] or [skipWhitespace] passes. *)
Fixpoint take_loop {T} (predicate : Ascii.ascii -> option Ascii.ascii -> option T -> option T)
    (l : chars) (state : option T) : nat :=
  match l with
  | [] => 0
  | c :: l' =>
      match predicate c (head l') state with
      | None => 0
      | Some s => S (take_loop predicate l' (Some s))
      end
  end.

Definition while_char (p : Ascii.ascii -> bool) (c : Ascii.ascii) (_ : option Ascii.ascii)
    (_ : option unit) : option unit := if p c then Some tt else None.

Definition skipWhitespace : parser unit :=
  n ← gets (fun st => take_loop (while_char is_space) (rest st) None);
  modify (advance n).

Definition normalize (ignoreCase : bool) (l : chars) : chars :=
  if ignoreCase then lower_ascii <$> l else l.

Definition consume (sequence : chars) (ignoreCase : bool) : parser bool :=
  r ← gets rest;
  if normalize ignoreCase (take (length sequence) r) === normalize ignoreCase sequence
  then _ ← modify (advance (length sequence)); mret true
  else mret false.

Fixpoint consumeOneOf (ignoreCase : bool) (options : list chars) : parser (option chars) :=
  match options with
  | [] => mret None
  | o :: options =>
      b ← consume o ignoreCase;
      if (b : bool) then mret (Some o) else consumeOneOf ignoreCase options
  end.

(** [take(predicate)], and [take()], which takes one character. *)
Definition take_while {T} (predicate : Ascii.ascii -> option Ascii.ascii -> option T -> option T) :
    parser chars :=
  r ← gets rest;
  let n := take_loop predicate r None in
  _ ← modify (advance n);
  mret (take n r).

Definition take_one : parser chars :=
  r ← gets rest;
  _ ← modify (advance 1);
  mret (take 1 r).

(** *** [QueryParser]: the comparisons already seen *)

(** Reading [this.comparisonNodes[key]]: an inherited property is truthy and
    has no [existedComparison], so that using it throws. *)
Definition comparisons (st : QueryParser) (key : string) : res (option (list ComparisonType)) :=
  match st.(comparisonNodes) !! key with
  | Some l => Ok (Some l)
  | None => if defined (inherited key) then Throw TypeError else Ok None
  end.

Definition conflicts (current existed : ComparisonType) : bool :=
  match current with
  | Equal => true
  | Greater => (existed === Greater) || (existed === Equal)
  | Less => (existed === Less) || (existed === Equal)
  | NotEqual => false
  end.

Definition validateWithPreviousComparison (key : string) (current : ComparisonType) : parser unit :=
  fun st =>
    if header then (Ok tt, st)
    else if current === NotEqual then (Ok tt, st)
    else match comparisons st key with
         | Throw e => (Throw e, st)
         | Ok None => (Ok tt, st)
         | Ok (Some l) => if existsb (conflicts current) l then (Throw JsError, st) else (Ok tt, st)
         end.

Definition too_many_tags : exn :=
  Storage (mkStorageError 400 "InvalidQueryParameterValue"
    "Error parsing query: there can be at most 10 unique tags in a query"
    contextId [("QueryParameterName", "where"); ("QueryParameterValue", str query)]%string).

Definition appendComparisonNode (key : string) (current : ComparisonType) : parser unit :=
  fun st =>
    if header then (Ok tt, st) else
    let n := if (key !== "@container"%string) && bool_decide (st.(comparisonNodes) !! key = None)
             then st.(comparisonCount) + 1 else st.(comparisonCount) in
    let st1 := mkQueryParser st.(tokenPosition) st.(comparisonNodes) n in
    if 10 <? n then (Throw too_many_tags, st1) else
    match comparisons st1 key with
    | Throw e => (Throw e, st1)
    | Ok o =>
        (Ok tt, mkQueryParser st.(tokenPosition)
                  (<[key := default [] o ++ [current]]> st.(comparisonNodes)) n)
    end.

(** *** [QueryParser]: keys and values *)

Definition ContainsInvalidTagKeyCharacter (key : chars) : bool :=
  existsb (fun c => negb (alphanumeric c || (c === "_"%char))) key.

Definition validateKey (key : chars) : parser unit :=
  if bool_decide (head key = Some "@"%char) then
    if header then throw_at (fun _ => ""%string)
    else if str key !== "@container"%string
    then throw_at (fun _ => ("unsupported parameter '" ++ str key ++ "'")%string)
    else mret tt
  else if negb header && (Nat.eqb (length key) 0 || Nat.ltb 128 (length key))
  then throw_at (fun _ => "tag must be between 1 and 128 characters in length"%string)
  else if ContainsInvalidTagKeyCharacter key
  then throw_at (fun _ => ("unexpected '" ++ str key ++ "'")%string)
  else mret tt.

Definition validateValue (value : chars) : parser unit :=
  if negb header && Nat.ltb 256 (length value)
  then throw_at (fun _ => "tag value must be between 0 and 256 characters in length"%string)
  else match find (fun c => negb (tag_char c)) value with
       | Some c => throw_at (fun _ => ("'" ++ str [c] ++ "' not permitted in tag name or value")%string)
       | None => mret tt
       end.

Inductive string_state := normal | escaping.

(** The predicate [visitString] gives to [take]. *)
Definition string_predicate (openCharacter : chars) (c : Ascii.ascii)
    (next : option Ascii.ascii) (state : option string_state) : option string_state :=
  match state with
  | Some escaping => Some normal
  | _ =>
      if ([c] === openCharacter) && (option_list next === openCharacter) then Some escaping
      else if [c] !== openCharacter then Some normal
      else None
  end.

(** [content.replace(new RegExp(q + q, "g"), q)]. *)
Fixpoint undouble (q : chars) (l : chars) : chars :=
  match l with
  | a :: ((b :: r) as t) =>
      if ([a] === q) && ([b] === q) then a :: undouble q r else a :: undouble q t
  | _ => l
  end.

(** [visitString] up to the unescaped content. *)
Definition quoted : parser chars :=
  openCharacter ← take_one;
  content ← take_while (string_predicate openCharacter);
  closed ← consume openCharacter false;
  if (closed : bool) then mret (undouble openCharacter content)
  else throw_at (fun st => ("Expected a `" ++ str openCharacter
                              ++ "` to close the string, but found " ++ peek_text st ++ " instead.")%string).

(** [visitString(true)]; the [KeyNode] is given by its identifier. *)
Definition visitString_key : parser string :=
  keyName ← quoted;
  _ ← validateKey keyName;
  mret (str keyName).

(** [visitString()]. *)
Definition visitString : parser IQueryNode :=
  value ← quoted;
  _ ← validateValue value;
  mret (ConstantNode (str value)).

Definition double_quote : Ascii.ascii := Ascii.ascii_of_nat 34.

Definition key_char (c : Ascii.ascii) : bool :=
  negb (is_space c) && (c !== "="%char) && (c !== ">"%char) && (c !== "<"%char).

(** [visitKey], whose [KeyNode] is given by its identifier. *)
Definition visitKey : parser string :=
  p ← gets peek;
  if bool_decide (p = Some double_quote) then visitString_key
  else
    identifier ← take_while (while_char key_char);
    if Nat.eqb (length identifier) 0
    then throw_at (fun st => ("Expected a valid identifier, but found '" ++ peek_text st ++ "' instead.")%string)
    else
      _ ← validateKey identifier;
      mret (str identifier).

Definition visitValue : parser IQueryNode :=
  _ ← skipWhitespace;
  p ← gets peek;
  if bool_decide (p = Some "'"%char) then visitString
  else throw_at (fun _ => "expecting tag value"%string).

Definition compare_with (left : string) (c : ComparisonType) (node : IQueryNode) :
    parser IQueryNode :=
  _ ← validateWithPreviousComparison left c;
  _ ← appendComparisonNode left c;
  mret node.

Definition operators : list chars :=
  chars_of <$> ["="; ">="; "<="; "<>"; ">"; "<"]%string.

Definition visitBinary : parser IQueryNode :=
  left ← visitKey;
  _ ← skipWhitespace;
  operator ← consumeOneOf true operators;
  match operator with
  | None => mret (KeyNode left)
  | Some operator =>
      right ← visitValue;
      let k := KeyNode left in
      let operator := str operator in
      if operator === "="%string then compare_with left Equal (EqualsNode k right)
      else if operator === "<>"%string then
        if header then compare_with left NotEqual (NotEqualsNode k right)
        else throw_at (fun _ => "unexpected <>"%string)
      else if operator === ">="%string then compare_with left Greater (GreaterThanEqualNode k right)
      else if operator === ">"%string then compare_with left Greater (GreaterThanNode k right)
      else if operator === "<"%string then compare_with left Less (LessThanNode k right)
      else compare_with left Less (LessThanEqualNode k right)
  end.

(** *** [QueryParser]: the layers of the grammar *)

(** The layers call [visitExpression], which is [visitOr]. *)
Inductive layer := Or | And | Group.

Fixpoint visit_layer (fuel : nat) (l : layer) : parser IQueryNode :=
  match fuel with
  | O => throw OutOfFuel
  | S fuel =>
      match l with
      | Or =>
          left ← visit_layer fuel And;
          _ ← skipWhitespace;
          b ← consume (chars_of "or") true;
          if (b : bool) then
            if header then right ← visit_layer fuel Or; mret (OrNode left right)
            else throw_at (fun _ => "unexpected or"%string)
          else mret left
      | And =>
          _ ← skipWhitespace;
          left ← visit_layer fuel Group;
          _ ← skipWhitespace;
          b ← consume (chars_of "and") true;
          if (b : bool) then right ← visit_layer fuel And; mret (AndNode left right)
          else mret left
      | Group =>
          _ ← skipWhitespace;
          b ← consume (chars_of "(") false;
          if (b : bool) then
            child ← visit_layer fuel Or;
            _ ← skipWhitespace;
            closed ← consume (chars_of ")") false;
            if (closed : bool) then mret (ExpressionNode child)
            else throw_at (fun st => ("Expected a ')' to close the expression group, but found '"
                                        ++ peek_text st ++ "' instead.")%string)
          else visitBinary
      end
  end.

Definition visit_fuel : nat := 3 * length query + 3.

Definition visit : parser IQueryNode :=
  tree ← visit_layer visit_fuel Or;
  _ ← skipWhitespace;
  _ ← assertEndOfQuery;
  mret tree.

Definition parseQuery : res IQueryNode := (visit (mkQueryParser 0 ∅ 0)).1.

End Parser.

(** ** Evaluation *)

(** A value read from the object that holds the tags: a tag's string, an
    inherited property (given by the string it converts to) or [undefined]. *)
Inductive TagValue := Undefined | Str (s : string) | Inherited (image : string).

#[export] Instance TagValue_eq_dec : EqDecision TagValue.
Proof. solve_decision. Defined.

Record TagContent := mkTagContent { key : option string; value : TagValue }.

Definition IQueryContext := gmap string string.

Definition get_property (context : IQueryContext) (k : string) : TagValue :=
  match context !! k with
  | Some v => Str v
  | None => match inherited k with Some image => Inherited image | None => Undefined end
  end.

(** The string a defined value converts to in a relational comparison. *)
Definition to_string (v : TagValue) : option string :=
  match v with Undefined => None | Str s | Inherited s => Some s end.

(** The common body of the comparison nodes: [l[0].value OP r[0].value]. *)
Definition compare_contents (op : TagValue -> TagValue -> bool)
    (leftContent rightContent : list TagContent) : res (list TagContent) :=
  match leftContent, rightContent with
  | l :: _, r :: _ =>
      if op l.(value) r.(value) then
        Ok (if defined l.(key) then leftContent else rightContent)
      else Ok []
  | _, _ => Throw TypeError
  end.

Definition relation (op : string -> string -> bool) (l r : TagValue) : bool :=
  match to_string l, to_string r with
  | Some a, Some b => op a b
  | _, _ => false
  end.

Definition not_equal (l r : TagValue) : bool :=
  (l !== Undefined) && (r !== Undefined) && (l !== r).

Fixpoint evaluate (context : IQueryContext) (node : IQueryNode) : res (list TagContent) :=
  match node with
  | KeyNode identifier => Ok [mkTagContent (Some identifier) (get_property context identifier)]
  | ConstantNode v => Ok [mkTagContent None (Str v)]
  | ExpressionNode child => evaluate context child
  | AndNode lhs rhs =>
      l ← evaluate context lhs; r ← evaluate context rhs;
      Ok (if negb (Nat.eqb (length l) 0) && negb (Nat.eqb (length r) 0) then l ++ r else [])
  | OrNode lhs rhs =>
      l ← evaluate context lhs; r ← evaluate context rhs;
      Ok (if negb (Nat.eqb (length l) 0) || negb (Nat.eqb (length r) 0) then l ++ r else [])
  | EqualsNode lhs rhs =>
      l ← evaluate context lhs; r ← evaluate context rhs;
      compare_contents (fun a b => a === b) l r
  | NotEqualsNode lhs rhs =>
      l ← evaluate context lhs; r ← evaluate context rhs; compare_contents not_equal l r
  | GreaterThanNode lhs rhs =>
      l ← evaluate context lhs; r ← evaluate context rhs;
      compare_contents (relation (fun a b => String.ltb b a)) l r
  | GreaterThanEqualNode lhs rhs =>
      l ← evaluate context lhs; r ← evaluate context rhs;
      compare_contents (relation (fun a b => String.leb b a)) l r
  | LessThanNode lhs rhs =>
      l ← evaluate context lhs; r ← evaluate context rhs;
      compare_contents (relation String.ltb) l r
  | LessThanEqualNode lhs rhs =>
      l ← evaluate context lhs; r ← evaluate context rhs;
      compare_contents (relation String.leb) l r
  end.

(** [FilterBlobModel]: the blob as the query sees it. *)
Record FilterBlobModel := mkFilterBlobModel {
  containerName : string;
  tags : option (list BlobTag)
}.

(** Assigning a string to [__proto__] of an object literal does nothing. *)
Definition set_property (context : IQueryContext) (k v : string) : IQueryContext :=
  if k === "__proto__"%string then context else <[k := v]> context.

Definition query_context (blob : FilterBlobModel) : IQueryContext :=
  <["@container"%string := blob.(containerName)]>
    (foldl (fun c t => set_property c t.(tag_key) t.(tag_value)) ∅ (default [] blob.(tags))).

Definition executeQuery (blob : FilterBlobModel) (queryTree : IQueryNode) : res (list TagContent) :=
  evaluate (query_context blob) queryTree.

Fixpoint countIdentifierReferences (queryTree : IQueryNode) : Z :=
  match queryTree with
  | ExpressionNode child => countIdentifierReferences child
  | KeyNode _ | ConstantNode _ => 0
  | _ => 1
  end.

Definition generateQueryBlobWithTagsWhereFunction (contextId : option string)
    (query : option string) (conditionHeader : option string) :
    res (FilterBlobModel -> res (list TagContent)) :=
  match query with
  | None => Ok (fun _ => Ok [])
  | Some query =>
      queryTree ← parseQuery contextId (chars_of query) conditionHeader;
      throw_when (countIdentifierReferences queryTree =? 0)
        (match conditionHeader with
         | None =>
             Storage (mkStorageError 400 "InvalidQueryParameterValue"
               "Error parsing query at or near character position 1: expected an operator"
               contextId [("QueryParameterName", "where"); ("QueryParameterValue", query)])
         | Some h =>
             BlobErrors.getInvalidHeaderValue contextId
               [("HeaderName", h); ("HeaderValue", query)]
         end);;
      Ok (fun entity => executeQuery entity queryTree)
  end.
