(* ===== verification/TagQuerySpec.v ===== *)
(** * TagQuerySpec: the query language of blob index tags

    Totality of the parser and the errors it gives, the shape of the queries it
    accepts, the round trip with a printer of syntax trees, and the meaning of
    the function a query is compiled to. *)

From S2P Require Import Prelude Errors TagQuery.
From Stdlib Require Import Ascii.
From Stdlib Require String.
Open Scope Z_scope.
Open Scope azurite_scope.

Local Abbreviation chars_of := String.list_ascii_of_string.

(** ** The state of the parser *)

Section Wp.
Context (E : exn -> Prop).

Lemma wp_gets {A} (f : QueryParser -> A) st (Q : A -> QueryParser -> Prop) :
  Q (f st) st -> wp_exn E (gets f) st Q.
Proof. done. Qed.

Lemma wp_modify f st (Q : unit -> QueryParser -> Prop) : Q tt (f st) -> wp_exn E (modify f) st Q.
Proof. done. Qed.

End Wp.

(** ** Totality and the accepted queries *)

(** The comparisons of a tree with the key [k], from left to right. *)
Definition comparison_of (k : string) (c : ComparisonType) (left : IQueryNode) : list ComparisonType :=
  match left with KeyNode i => if i === k then [c] else [] | _ => [] end.

Fixpoint comparisons_of (k : string) (t : IQueryNode) : list ComparisonType :=
  match t with
  | KeyNode _ | ConstantNode _ => []
  | ExpressionNode c => comparisons_of k c
  | AndNode l r | OrNode l r => comparisons_of k l ++ comparisons_of k r
  | EqualsNode l _ => comparison_of k Equal l
  | NotEqualsNode l _ => comparison_of k NotEqual l
  | GreaterThanNode l _ | GreaterThanEqualNode l _ => comparison_of k Greater l
  | LessThanNode l _ | LessThanEqualNode l _ => comparison_of k Less l
  end.

(** The trees of the grammar: keys are compared with constants, and the [or]
    and [<>] of conditions are no part of a [where] query. *)
Definition is_key (t : IQueryNode) : bool := match t with KeyNode _ => true | _ => false end.
Definition is_constant (t : IQueryNode) : bool := match t with ConstantNode _ => true | _ => false end.

Fixpoint grammatical (header : bool) (t : IQueryNode) : bool :=
  match t with
  | KeyNode _ => true
  | ConstantNode _ => false
  | ExpressionNode c => grammatical header c
  | AndNode l r => grammatical header l && grammatical header r
  | OrNode l r => header && grammatical header l && grammatical header r
  | NotEqualsNode l r => header && is_key l && is_constant r
  | EqualsNode l r | GreaterThanNode l r | GreaterThanEqualNode l r
  | LessThanNode l r | LessThanEqualNode l r => is_key l && is_constant r
  end.

(** What one key may be compared with in a [where] query. *)
Definition range_shape (l : list ComparisonType) : bool :=
  bool_decide (l ∈ [[]; [Equal]; [Greater]; [Less]; [Greater; Less]; [Less; Greater]]).

Section Total.
Context (contextId : option string) (query : chars) (conditionHeader : option string).
Local Abbreviation header := (nonempty conditionHeader).

(** The exceptions of the parser. *)
Definition parse_exn (e : exn) : Prop :=
  if header then
    e = BlobErrors.getInvalidHeaderValue contextId
          [("HeaderName", default "" conditionHeader);
           ("HeaderValue", String.string_of_list_ascii query)]%string
  else (exists s, e = Storage s /\ s.(statusCode) = 400
                  /\ s.(storageErrorCode) = "InvalidQueryParameterValue"%string)
       \/ e = JsError \/ e = TypeError.

Local Abbreviation wp := (wp_exn parse_exn).

Definition remaining (st : QueryParser) : nat := length query - st.(tokenPosition).
Definition seen (st : QueryParser) (k : string) : list ComparisonType :=
  default [] (st.(comparisonNodes) !! k).

(** The invariant of the comparisons recorded for a [where] query. *)
Definition inv (st : QueryParser) : Prop :=
  (forall k, range_shape (seen st k)) /\ map_Forall (fun _ l => l <> []) st.(comparisonNodes) /\
  st.(comparisonCount) = Z.of_nat (size (delete "@container"%string st.(comparisonNodes))) /\
  st.(comparisonCount) <= 10.

(** [st'] is [st] after [n] characters or more, with the comparisons [cs] seen. *)
Definition step (n : nat) (cs : string -> list ComparisonType) (st st' : QueryParser) : Prop :=
  (remaining st' + n <= remaining st)%nat /\ inv st' /\
  if header then st'.(comparisonNodes) = st.(comparisonNodes)
  else forall k, seen st' k = seen st k ++ cs k.

Definition none : string -> list ComparisonType := fun _ => [].

Lemma step_refl st : inv st -> step 0 none st st.
Proof.
  intros ?. unfold step. split_and!; [lia|done|]. destruct header; [done|].
  intros k. by rewrite app_nil_r.
Qed.

Lemma step_trans n m cs cs' st st' st'' :
  step n cs st st' -> step m cs' st' st'' -> step (n + m) (fun k => cs k ++ cs' k) st st''.
Proof.
  unfold step. intros (?&?&H1) (?&?&H2). split_and!; [lia|done|].
  destruct header; [congruence|]. intros k. by rewrite H2, H1, app_assoc.
Qed.

Lemma step_weaken n m cs cs' st st' :
  (m <= n)%nat -> (forall k, cs k = cs' k) -> step n cs st st' -> step m cs' st st'.
Proof.
  intros ? Hcs (?&?&H). unfold step. split_and!; [lia|done|]. destruct header; [done|].
  intros k. by rewrite H, Hcs.
Qed.

Lemma step_advance st n :
  inv st -> step (Nat.min n (remaining st)) none st (advance n st).
Proof.
  intros Hi. unfold step. split_and!; [unfold remaining; cbn; lia|exact Hi|].
  destruct header; [done|]. intros k. by rewrite app_nil_r.
Qed.

(** *** The primitives *)

Lemma wp_throw_at {A} message st (Q : A -> QueryParser -> Prop) :
  wp (throw_at contextId query conditionHeader message) st Q.
Proof.
  unfold wp_exn, throw_at, parse_exn, parse_error, query_error.
  destruct header; [done|]. left. eexists. by split_and!.
Qed.

Lemma wp_moved {A} n (a : A) st (Q : A -> QueryParser -> Prop) :
  inv st -> (forall st', step 0 none st st' -> Q a st') ->
  wp (_ ← modify (advance n); mret a) st Q.
Proof.
  intros Hi HQ. apply wp_bind, wp_modify, wp_ret, HQ.
  eapply step_weaken; [| |by apply (step_advance st n)]; [lia|done].
Qed.

Lemma wp_skip st (Q : unit -> QueryParser -> Prop) :
  inv st -> (forall st', step 0 none st st' -> Q tt st') -> wp (skipWhitespace query) st Q.
Proof.
  intros Hi HQ. apply wp_bind, wp_gets, wp_modify, HQ.
  eapply step_weaken; [| |by apply step_advance]; [lia|done].
Qed.

Lemma wp_take_one st (Q : chars -> QueryParser -> Prop) :
  inv st -> (forall a st', step 0 none st st' -> Q a st') -> wp (take_one query) st Q.
Proof.
  intros Hi HQ. apply wp_bind, wp_gets, wp_moved; [done|]. intros st'. apply HQ.
Qed.

Lemma wp_take_while {T} p st (Q : chars -> QueryParser -> Prop) :
  inv st -> (forall a st', step 0 none st st' -> Q a st') -> wp (take_while (T:=T) query p) st Q.
Proof.
  intros Hi HQ. apply wp_bind, wp_gets, wp_moved; [done|]. intros st'. apply HQ.
Qed.

Lemma length_normalize b l : length (normalize b l) = length l.
Proof. destruct b; [apply length_fmap|done]. Qed.

Lemma wp_consume s b st (Q : bool -> QueryParser -> Prop) :
  inv st -> (forall (r : bool) st', step (if r then length s else 0) none st st' -> Q r st') ->
  wp (consume query s b) st Q.
Proof.
  intros Hi HQ. apply wp_bind, wp_gets, wp_if.
  - intros Heq%bool_decide_eq_true. apply wp_bind, wp_modify, wp_ret, HQ.
    apply (f_equal length) in Heq. rewrite !length_normalize in Heq.
    unfold rest in Heq. rewrite length_take, length_drop in Heq.
    eapply step_weaken; [| |by apply (step_advance st (length s))]; [|done].
    unfold remaining. lia.
  - intros _. apply wp_ret, HQ, step_refl, Hi.
Qed.

Lemma wp_consumeOneOf b options st (Q : option chars -> QueryParser -> Prop) :
  inv st ->
  (forall o st', step 0 none st st' -> (forall c, o = Some c -> c ∈ options) -> Q o st') ->
  wp (consumeOneOf query b options) st Q.
Proof.
  revert st Q. induction options as [|c options IH]; intros st Q Hi HQ; cbn.
  { apply wp_ret, HQ; [by apply step_refl|done]. }
  apply wp_bind, wp_consume; [done|]. intros r st' Hst. apply wp_if; intros ->.
  - apply wp_ret, HQ; [|intros ? [= <-]; set_solver].
    eapply step_weaken; [| |exact Hst]; [lia|done].
  - apply IH; [by apply Hst|]. intros o st'' Hst' Ho. apply HQ.
    + exact (step_trans _ _ _ _ _ _ _ Hst Hst').
    + intros ? ?%Ho. set_solver.
Qed.

(** Close a goal on steps by composing the steps of the context. *)
Lemma step_then n m cs st st' st'' :
  step n none st st' -> step m cs st' st'' -> step (n + m) cs st st''.
Proof. apply step_trans. Qed.

Lemma step_inv n cs st st' : step n cs st st' -> inv st'.
Proof. by intros (_&?&_). Qed.

Hint Resolve step_inv step_refl : core.
Hint Extern 3 (step 0 none _ _) =>
  match goal with
  | H1 : step ?n none ?s ?s1, H2 : step ?m none ?s1 ?s2 |- step 0 none ?s ?s2 =>
      eapply (step_weaken _ _ _ _ _ _ (Nat.le_0_l _) (fun _ => eq_refl) (step_then _ _ _ _ _ _ H1 H2))
  end : core.

(** *** Keys, values and comparisons *)

Lemma wp_validateKey k st (Q : unit -> QueryParser -> Prop) :
  Q tt st -> wp (validateKey contextId query conditionHeader k) st Q.
Proof.
  intros HQ. unfold validateKey.
  repeat (apply wp_if; intros _); solve [apply wp_throw_at | by apply wp_ret].
Qed.

Lemma wp_validateValue v st (Q : unit -> QueryParser -> Prop) :
  Q tt st -> wp (validateValue contextId query conditionHeader v) st Q.
Proof.
  intros HQ. unfold validateValue. apply wp_if; intros _; [apply wp_throw_at|].
  destruct (find _ _); [apply wp_throw_at|by apply wp_ret].
Qed.

Lemma wp_quoted st (Q : chars -> QueryParser -> Prop) :
  inv st -> (forall a st', step 0 none st st' -> Q a st') ->
  wp (quoted contextId query conditionHeader) st Q.
Proof.
  intros Hi HQ. apply wp_bind, wp_take_one; [done|]. intros q st1 H1.
  apply wp_bind, wp_take_while; [eauto|]. intros c st2 H2.
  apply wp_bind, wp_consume; [eauto|]. intros r st3 H3.
  apply wp_if; intros _; [|apply wp_throw_at]. apply wp_ret, HQ.
  pose proof (step_then _ _ _ _ _ _ H1 H2). eauto.
Qed.

Lemma wp_visitKey st (Q : string -> QueryParser -> Prop) :
  inv st -> (forall a st', step 0 none st st' -> Q a st') ->
  wp (visitKey contextId query conditionHeader) st Q.
Proof.
  intros Hi HQ. apply wp_bind, wp_gets, wp_if; intros _.
  - apply wp_bind, wp_quoted; [done|]. intros k st1 H1.
    apply wp_bind, wp_validateKey, wp_ret. eauto.
  - apply wp_bind, wp_take_while; [done|]. intros k st1 H1. apply wp_if; intros _.
    { apply wp_throw_at. }
    apply wp_bind, wp_validateKey, wp_ret. eauto.
Qed.

Lemma wp_visitValue st (Q : IQueryNode -> QueryParser -> Prop) :
  inv st -> (forall v st', step 0 none st st' -> Q (ConstantNode v) st') ->
  wp (visitValue contextId query conditionHeader) st Q.
Proof.
  intros Hi HQ. apply wp_bind, wp_skip; [done|]. intros st1 H1.
  apply wp_bind, wp_gets, wp_if; intros _; [|apply wp_throw_at].
  apply wp_bind, wp_quoted; [eauto|]. intros v st2 H2.
  apply wp_bind, wp_validateValue, wp_ret, HQ. eauto.
Qed.

(** A comparison that no earlier one refuses keeps the shape of a range. *)
Lemma range_shape_append l c :
  range_shape l -> c <> NotEqual -> existsb (conflicts c) l = false -> range_shape (l ++ [c]).
Proof.
  unfold range_shape. intros Hl%bool_decide_unpack Hc Hn.
  repeat (apply elem_of_cons in Hl as [->|Hl]); [..|by apply elem_of_nil in Hl];
    destruct c; cbn in Hn; try discriminate; try done;
    apply bool_decide_pack; set_solver.
Qed.

(** The state [appendComparisonNode] leaves when it does not throw. *)
Definition appended (key : string) (c : ComparisonType) (st : QueryParser) : QueryParser :=
  mkQueryParser st.(tokenPosition)
    (<[key := seen st key ++ [c]]> st.(comparisonNodes))
    (if (key !== "@container"%string) && bool_decide (st.(comparisonNodes) !! key = None)
     then st.(comparisonCount) + 1 else st.(comparisonCount)).

Lemma appended_count key c st :
  st.(comparisonCount) = Z.of_nat (size (delete "@container"%string st.(comparisonNodes))) ->
  (appended key c st).(comparisonCount)
  = Z.of_nat (size (delete "@container"%string (appended key c st).(comparisonNodes))).
Proof.
  intros Hc. cbn. destruct (decide (key = "@container"%string)) as [->|Hk].
  - rewrite bool_decide_eq_true_2 by done. cbn. by rewrite delete_insert_eq.
  - rewrite bool_decide_eq_false_2 by done. cbn. rewrite delete_insert_ne by done.
    rewrite map_size_insert, lookup_delete_ne by done.
    destruct (st.(comparisonNodes) !! key); cbn; [done|]. rewrite Hc. lia.
Qed.

Lemma appended_step key c st :
  inv st -> c <> NotEqual -> header = false ->
  existsb (conflicts c) (seen st key) = false ->
  (appended key c st).(comparisonCount) <= 10 ->
  step 0 (fun k => if key === k then [c] else []) st (appended key c st).
Proof.
  intros (H1&H2&H3&H4) Hc Hh Hn Hle.
  assert (Hseen : forall k, seen (appended key c st) k = seen st k ++ (if key === k then [c] else [])).
  { intros k. unfold seen at 1. cbn. case_bool_decide as Hk.
    - subst k. by rewrite lookup_insert_eq.
    - rewrite lookup_insert_ne, app_nil_r by done. done. }
  unfold step. rewrite Hh. split_and!; [unfold remaining; cbn; lia| |exact Hseen].
  split_and!; [| |by apply appended_count|done].
  - intros k. rewrite Hseen. case_bool_decide; [subst k; by apply range_shape_append|].
    by rewrite app_nil_r.
  - cbn. apply map_Forall_insert_2; [|done]. by destruct (seen st key).
Qed.

Lemma wp_compare left c node st (Q : IQueryNode -> QueryParser -> Prop) :
  inv st -> (c = NotEqual -> header = true) ->
  (forall st', step 0 (fun k => if left === k then [c] else []) st st' -> Q node st') ->
  wp (compare_with contextId query conditionHeader left c node) st Q.
Proof.
  intros Hi Hc HQ. destruct header eqn:Hh.
  { unfold compare_with. apply wp_bind. unfold wp_exn, validateWithPreviousComparison.
    rewrite Hh. apply wp_bind. unfold wp_exn, appendComparisonNode. rewrite Hh.
    apply wp_ret, HQ. unfold step. rewrite Hh. split; [lia|by split]. }
  assert (Hc' : c <> NotEqual) by (intros ->; by specialize (Hc eq_refl)). clear Hc.
  assert (Hexn : forall e, e = JsError \/ e = TypeError -> parse_exn e).
  { unfold parse_exn. rewrite Hh. auto. }
  apply wp_bind. unfold wp_exn at 1, validateWithPreviousComparison. rewrite Hh.
  rewrite bool_decide_eq_false_2 by done.
  assert (Hcmp : comparisons st left = Ok (st.(comparisonNodes) !! left)
                 \/ comparisons st left = Throw TypeError).
  { unfold comparisons. destruct (_ !! left), (inherited left); cbn; auto. }
  destruct Hcmp as [Hcmp|Hcmp]; rewrite Hcmp; [|by apply Hexn; right].
  assert (Happ : existsb (conflicts c) (seen st left) = false ->
    wp (_ ← appendComparisonNode contextId query conditionHeader left c; mret node) st Q).
  { intros Hn. apply wp_bind. unfold wp_exn, appendComparisonNode. rewrite Hh.
    change (if _ && _ then _ else _) with (appended left c st).(comparisonCount) at 1 2 3 4.
    destruct (Z.ltb_spec 10 (appended left c st).(comparisonCount)).
    { unfold parse_exn. rewrite Hh. left. eexists. by split_and!. }
    change (comparisons _ left) with (comparisons st left). rewrite Hcmp.
    apply wp_ret, HQ, (appended_step left c st); done. }
  unfold seen in Happ. destruct (_ !! left) as [l|]; cbn in Happ; [|by apply Happ].
  destruct (existsb _ l); [by apply Hexn; left|by apply Happ].
Qed.

(** *** The layers *)

Lemma step_cs n cs cs' st st' : step n cs st st' -> (forall k, cs k = cs' k) -> step n cs' st st'.
Proof. intros H Hcs. eapply step_weaken; [| |exact H]; [lia|done]. Qed.

Definition visited (t : IQueryNode) (st st' : QueryParser) : Prop :=
  grammatical header t = true /\ step 0 (fun k => comparisons_of k t) st st'.

Lemma wp_visitBinary st :
  inv st -> wp (visitBinary contextId query conditionHeader) st (fun t st' => visited t st st').
Proof.
  intros Hi. apply wp_bind, wp_visitKey; [done|]. intros k st1 H1.
  apply wp_bind, wp_skip; [eauto|]. intros st2 H2.
  apply wp_bind, wp_consumeOneOf; [eauto|]. intros o st3 H3 _.
  assert (H13 : step 0 none st st3).
  { pose proof (step_then _ _ _ _ _ _ H1 H2). eauto. }
  destruct o as [o|]; [|by apply wp_ret].
  apply wp_bind, wp_visitValue; [eauto|]. intros v st4 H4.
  assert (H14 : step 0 none st st4) by eauto.
  repeat (apply wp_if; intros ?Hop); try apply wp_throw_at;
    (apply wp_compare; [eauto|done|]; intros st5 Hc5; split; [first [done | cbn; rewrite !andb_true_r; assumption]|];
     by apply (step_then _ _ _ _ _ _ H14 Hc5)).
Qed.

Definition layer_fuel (l : layer) : nat := match l with Or => 3 | And => 2 | Group => 1 end.

Lemma wp_visit_layer fuel : forall l st,
  inv st -> (3 * remaining st + layer_fuel l <= fuel)%nat ->
  wp (visit_layer contextId query conditionHeader fuel l) st (fun t st' => visited t st st').
Proof.
  induction fuel as [|fuel IH]; intros l st Hi Hf; [destruct l; cbn in Hf; lia|].
  destruct l; cbn [visit_layer layer_fuel] in *.
  - apply wp_bind. eapply wp_mono; [apply IH; [done|cbn; lia]|]. intros t1 st1 [G1 H1].
    apply wp_bind, wp_skip; [eauto|]. intros st2 H2.
    apply wp_bind, wp_consume; [eauto|]. intros b st3 H3.
    pose proof (step_trans _ _ _ _ _ _ _ (step_trans _ _ _ _ _ _ _ H1 H2) H3) as H13.
    apply wp_if; intros ->; [apply wp_if; intros Hh; [|apply wp_throw_at]|].
    + apply wp_bind. eapply wp_mono.
      { apply IH; [eauto|]. destruct H13 as [? _]. cbn in *. lia. }
      intros t2 st4 [G2 H4]. apply wp_ret. split; [cbn; by rewrite G1, G2, Hh|].
      eapply step_weaken; [| |exact (step_trans _ _ _ _ _ _ _ H13 H4)]; [lia|].
      intros k. cbn. unfold none. by rewrite !app_nil_r.
    + apply wp_ret. split; [done|]. eapply step_cs; [exact H13|].
      intros k. unfold none. by rewrite !app_nil_r.
  - apply wp_bind, wp_skip; [done|]. intros st0 H0.
    apply wp_bind. eapply wp_mono.
    { apply IH; [eauto|]. destruct H0 as [? _]. cbn in *. lia. }
    intros t1 st1 [G1 H1].
    apply wp_bind, wp_skip; [eauto|]. intros st2 H2.
    apply wp_bind, wp_consume; [eauto|]. intros b st3 H3.
    pose proof (step_trans _ _ _ _ _ _ _ (step_trans _ _ _ _ _ _ _ (step_then _ _ _ _ _ _ H0 H1) H2) H3) as H13.
    apply wp_if; intros ->.
    + apply wp_bind. eapply wp_mono.
      { apply IH; [eauto|]. destruct H13 as [? _]. cbn in *. lia. }
      intros t2 st4 [G2 H4]. apply wp_ret. split; [cbn; by rewrite G1, G2|].
      eapply step_weaken; [| |exact (step_trans _ _ _ _ _ _ _ H13 H4)]; [lia|].
      intros k. cbn. unfold none. by rewrite !app_nil_r.
    + apply wp_ret. split; [done|]. eapply step_cs; [exact H13|].
      intros k. unfold none. by rewrite !app_nil_r.
  - apply wp_bind, wp_skip; [done|]. intros st0 H0.
    apply wp_bind, wp_consume; [eauto|]. intros b st1 H1.
    pose proof (step_then _ _ _ _ _ _ H0 H1) as H01.
    apply wp_if; intros ->.
    + apply wp_bind. eapply wp_mono.
      { apply IH; [eauto|]. destruct H01 as [? _]. cbn in *. lia. }
      intros t st2 [G2 H2]. apply wp_bind, wp_skip; [eauto|]. intros st3 H3.
      apply wp_bind, wp_consume; [eauto|]. intros b st4 H4.
      apply wp_if; intros _; [|apply wp_throw_at]. apply wp_ret. split; [done|].
      eapply step_weaken; [| |exact (step_trans _ _ _ _ _ _ _ (step_trans _ _ _ _ _ _ _ (step_then _ _ _ _ _ _ H01 H2) H3) H4)];
        [lia|]. intros k. cbn. unfold none. by rewrite !app_nil_r.
    + eapply wp_mono; [apply wp_visitBinary; eauto|]. intros t st2 [G2 H2].
      split; [done|]. exact (step_then _ _ _ _ _ _ H01 H2).
Qed.

Lemma parse_spec :
  match parseQuery contextId query conditionHeader with
  | Ok t => grammatical header t = true /\
            (header = false ->
             (forall k, range_shape (comparisons_of k t)) /\
             exists keys : gset string, (forall k, comparisons_of k t <> [] -> k ∈ keys) /\
               Z.of_nat (size (keys ∖ {["@container"%string]})) <= 10)
  | Throw e => parse_exn e
  end.
Proof.
  set (st0 := mkQueryParser 0 ∅ 0).
  assert (Hi : inv st0).
  { split_and!; [done|done| |cbn; lia]. cbn. by rewrite delete_empty. }
  assert (H : wp (visit contextId query conditionHeader) st0 (fun t st' => visited t st0 st')).
  { apply wp_bind. eapply wp_mono.
    { apply wp_visit_layer; [done|]. unfold remaining, visit_fuel. cbn. lia. }
    intros t st1 [G H]. apply wp_bind, wp_skip; [eauto|]. intros st2 H2.
    apply wp_bind, wp_bind, wp_gets, wp_if; intros _; [apply wp_throw_at|].
    apply wp_ret, wp_ret. split; [done|].
    eapply step_weaken; [| |exact (step_trans _ _ _ _ _ _ _ H H2)]; [lia|].
    intros k. unfold none. by rewrite app_nil_r. }
  unfold parseQuery, wp_exn in *. fold st0. destruct (visit _ _ _ st0) as [[t|e] st']; [|done].
  cbn. destruct H as [G (_&(I1&I2&I3&I4)&H)]. split; [done|]. intros Hh. rewrite Hh in H.
  assert (Hs : forall k, seen st' k = comparisons_of k t) by (intros k; by rewrite H).
  split; [intros k; by rewrite <- Hs|]. exists (dom st'.(comparisonNodes)). split.
  - intros k Hk. rewrite <- Hs in Hk. apply elem_of_dom. unfold seen in Hk.
    by destruct (_ !! k).
  - rewrite <- dom_delete_L, size_dom. lia.
Qed.

End Total.

(** ** A printer of syntax trees, and the round trip *)

Definition valid_key (k : string) : bool :=
  negb (Nat.eqb (length (chars_of k)) 0) && negb (ContainsInvalidTagKeyCharacter (chars_of k)).
Definition valid_value (v : string) : bool := forallb tag_char (chars_of v).

Definition print_comparison (op : string) (l r : IQueryNode) : chars :=
  match l, r with
  | KeyNode k, ConstantNode v => chars_of k ++ chars_of op ++ chars_of "'" ++ chars_of v ++ chars_of "'"
  | _, _ => []
  end.

(** The text of a tree; a key on its own is closed by a space. *)
Fixpoint print (t : IQueryNode) : chars :=
  match t with
  | KeyNode k => chars_of k ++ chars_of " "
  | ConstantNode _ => []
  | ExpressionNode c => chars_of "(" ++ print c ++ chars_of ")"
  | AndNode l r => print l ++ chars_of " and " ++ print r
  | OrNode l r => print l ++ chars_of " or " ++ print r
  | EqualsNode l r => print_comparison "=" l r
  | NotEqualsNode l r => print_comparison "<>" l r
  | GreaterThanNode l r => print_comparison ">" l r
  | GreaterThanEqualNode l r => print_comparison ">=" l r
  | LessThanNode l r => print_comparison "<" l r
  | LessThanEqualNode l r => print_comparison "<=" l r
  end.

Definition printable_comparison (l r : IQueryNode) : bool :=
  match l, r with
  | KeyNode k, ConstantNode v => valid_key k && valid_value v
  | _, _ => false
  end.

(** The trees of each layer: [and] and [or] nest to the right. *)
Fixpoint printable (la : layer) (t : IQueryNode) : bool :=
  match t with
  | KeyNode k => valid_key k
  | ConstantNode _ => false
  | ExpressionNode c => printable Or c
  | AndNode l r =>
      match la with Group => false | _ => printable Group l && printable And r end
  | OrNode l r =>
      match la with Or => printable And l && printable Or r | _ => false end
  | EqualsNode l r | NotEqualsNode l r | GreaterThanNode l r | GreaterThanEqualNode l r
  | LessThanNode l r | LessThanEqualNode l r => printable_comparison l r
  end.

(** The text without its leading white space. *)
Definition dropws (l : chars) : chars := drop (take_loop (while_char is_space) l None) l.

(** What may follow the text of a tree of a layer. *)
Inductive follow : layer -> chars -> Prop :=
| follow_end la : follow la []
| follow_paren la r : follow la (chars_of ")" ++ r)
| follow_or la r : la <> Or -> follow la (chars_of " or " ++ r)
| follow_and r : follow Group (chars_of " and " ++ r).

Lemma take_loop_while p l s :
  take_loop (while_char p) l s = match l with c :: l' => if p c then S (take_loop (while_char p) l' (Some tt)) else O | [] => O end.
Proof. destruct l as [|c l]; [done|]. cbn. unfold while_char at 1. by destruct (p c). Qed.

Lemma dropws_cons c l : is_space c = false -> dropws (c :: l) = c :: l.
Proof. intros Hc. unfold dropws. by rewrite take_loop_while, Hc. Qed.

Lemma dropws_space l : dropws (chars_of " " ++ l) = dropws l.
Proof.
  unfold dropws. cbn [app String.list_ascii_of_string]. rewrite take_loop_while.
  change (is_space " "%char) with true. cbn [drop]. by rewrite !take_loop_while.
Qed.

Lemma length_dropws l : (length (dropws l) <= length l)%nat.
Proof. unfold dropws. rewrite length_drop. lia. Qed.

(** The character after a prefix ends the loop. *)
Definition stops (p : Ascii.ascii -> bool) (l : chars) : bool :=
  match l with [] => true | c :: _ => negb (p c) end.

Lemma take_loop_prefix p k tail s :
  forallb p k = true -> stops p tail = true ->
  take_loop (while_char p) (k ++ tail) s = length k.
Proof.
  intros Hk Ht. revert s. induction k as [|c k IH]; intros s; cbn [app].
  - rewrite take_loop_while. destruct tail as [|c tail]; [done|].
    cbn in Ht. by destruct (p c).
  - cbn in Hk. apply andb_prop in Hk as [Hc Hk]. rewrite take_loop_while, Hc.
    cbn. f_equal. by apply IH.
Qed.

Definition quote : Ascii.ascii := "'"%char.

Lemma take_loop_string v tail :
  forallb (fun c => negb (c === quote)) v = true -> head tail <> Some quote ->
  forall s, s <> Some escaping ->
  take_loop (string_predicate [quote]) (v ++ quote :: tail) s = length v.
Proof.
  intros Hv Ht. induction v as [|c v IH]; intros s Hs.
  - cbn. unfold string_predicate. destruct s as [[]|]; [|done|];
      (rewrite (bool_decide_eq_false_2 (option_list _ = _)); [done|]);
      destruct tail as [|c tail]; cbn in *; congruence.
  - cbn in Hv. apply andb_prop in Hv as [Hc Hv]. apply negb_true_iff, bool_decide_eq_false in Hc.
    assert (Hp : forall o, string_predicate [quote] c o s = Some normal).
    { intros o. unfold string_predicate.
      rewrite (bool_decide_eq_false_2 ([c] = [quote])) by congruence. by destruct s as [[]|]. }
    cbn. rewrite Hp. f_equal. by apply IH.
Qed.

Lemma undouble_id v : forallb (fun c => negb (c === quote)) v = true -> undouble [quote] v = v.
Proof.
  induction v as [|a v IH]; [done|]. cbn. intros [Ha Hv]%andb_prop.
  apply negb_true_iff, bool_decide_eq_false in Ha.
  destruct v as [|b v]; [done|]. rewrite bool_decide_eq_false_2 by congruence. cbn [andb].
  f_equal. by apply IH.
Qed.

Lemma forallb_impl {A} (p q : A -> bool) l :
  (forall a, p a = true -> q a = true) -> forallb p l = true -> forallb q l = true.
Proof.
  intros Hpq. induction l as [|a l IH]; [done|]. cbn.
  intros [Ha Hl]%andb_prop. by rewrite Hpq, IH.
Qed.

Section Roundtrip.
Context (contextId : option string) (query : chars) (conditionHeader : option string).
Hypothesis (Hh : nonempty conditionHeader = true).

Local Abbreviation wp := (wp_exn (fun _ => False)).
Local Abbreviation rest := (rest query).

Lemma peek_rest st : peek query st = head (rest st).
Proof.
  unfold peek, TagQuery.rest. rewrite <- (Nat.add_0_r (tokenPosition st)) at 1.
  rewrite <- lookup_drop. by destruct (drop _ _).
Qed.

Lemma rest_advance n st : rest (advance n st) = drop n (rest st).
Proof. unfold TagQuery.rest. cbn. by rewrite drop_drop. Qed.

Lemma rt_skip st (Q : unit -> QueryParser -> Prop) :
  (forall st', rest st' = dropws (rest st) -> Q tt st') -> wp (skipWhitespace query) st Q.
Proof. intros HQ. apply wp_bind, wp_gets, wp_modify, HQ. by rewrite rest_advance. Qed.

Lemma rt_consume_yes s s' b st r (Q : bool -> QueryParser -> Prop) :
  rest st = s' ++ r -> normalize b s' = normalize b s ->
  (forall st', rest st' = r -> Q true st') -> wp (consume query s b) st Q.
Proof.
  intros Hr Hs HQ. apply wp_bind, wp_gets.
  assert (Hl : length s = length s') by (by rewrite <- (length_normalize b s), <- Hs, length_normalize).
  rewrite Hr, Hl, take_app_length, bool_decide_eq_true_2 by done.
  apply wp_bind, wp_modify, wp_ret, HQ. by rewrite rest_advance, Hr, drop_app_length.
Qed.

Lemma rt_consume_no s b st (Q : bool -> QueryParser -> Prop) :
  (normalize b (take (length s) (rest st)) === normalize b s) = false ->
  Q false st -> wp (consume query s b) st Q.
Proof. intros Hs HQ. apply wp_bind, wp_gets. rewrite Hs. by apply wp_ret. Qed.

Lemma rt_take_while {T} (p : Ascii.ascii -> option Ascii.ascii -> option T -> option T)
    st k r (Q : chars -> QueryParser -> Prop) :
  rest st = k ++ r -> take_loop p (k ++ r) None = length k ->
  (forall st', rest st' = r -> Q k st') -> wp (take_while query p) st Q.
Proof.
  intros Hr Hp HQ. apply wp_bind, wp_gets. cbv beta zeta. rewrite Hr, Hp, take_app_length.
  apply wp_bind, wp_modify, wp_ret, HQ. by rewrite rest_advance, Hr, drop_app_length.
Qed.

(** *** Keys and values *)

Definition key_ok (c : Ascii.ascii) : bool := alphanumeric c || (c === "_"%char).

(** The characters of a key are no white space, no operator and no quote. *)
Lemma key_ok_char c : key_ok c = true -> key_char c = true /\ c <> double_quote /\ c <> "@"%char /\ c <> "("%char /\ is_space c = false.
Proof. destruct c as [[] [] [] [] [] [] [] []]; vm_compute; intros; (discriminate || by split_and!). Qed.

Lemma tag_char_quote c : tag_char c = true -> negb (c === quote) = true.
Proof. destruct c as [[] [] [] [] [] [] [] []]; vm_compute; done. Qed.

Lemma valid_key_chars k : valid_key k = true ->
  exists c l, chars_of k = c :: l /\ forallb key_ok (c :: l) = true.
Proof.
  unfold valid_key, ContainsInvalidTagKeyCharacter. intros [H1 H2]%andb_prop.
  destruct (chars_of k) as [|c l]; [done|]. exists c, l. split; [done|].
  clear H1. induction (c :: l) as [|a m IH]; [done|]. cbn in *.
  apply negb_true_iff, orb_false_elim in H2 as [H1 H2]. apply negb_false_iff in H1.
  unfold key_ok at 1. rewrite H1. cbn. apply IH. by rewrite H2.
Qed.

Lemma rt_validateKey k st (Q : unit -> QueryParser -> Prop) :
  valid_key k = true -> Q tt st -> wp (validateKey contextId query conditionHeader (chars_of k)) st Q.
Proof.
  intros Hk HQ. destruct (valid_key_chars k Hk) as (c&l&Hc&Hok).
  unfold valid_key in Hk. apply andb_prop in Hk as [_ Hv%negb_true_iff].
  unfold validateKey. rewrite Hh, Hv, Hc. cbn in Hok. apply andb_prop in Hok as [Hok _].
  apply key_ok_char in Hok as (_&_&Hat&_). rewrite bool_decide_eq_false_2 by (cbn; congruence).
  by apply wp_ret.
Qed.

Lemma rt_visitKey k st tail (Q : string -> QueryParser -> Prop) :
  valid_key k = true -> rest st = chars_of k ++ tail -> stops key_char tail = true ->
  (forall st', rest st' = tail -> Q k st') ->
  wp (visitKey contextId query conditionHeader) st Q.
Proof.
  intros Hk Hr Ht HQ. destruct (valid_key_chars k Hk) as (c&l&Hc&Hok).
  apply wp_bind, wp_gets. rewrite peek_rest, Hr, Hc. cbn [app head].
  pose proof (proj1 (andb_prop _ _ Hok)) as Hc'. destruct (key_ok_char c Hc') as (_&Hdq&_).
  rewrite bool_decide_eq_false_2 by congruence.
  apply wp_bind, (rt_take_while _ _ (chars_of k) tail); [done| |].
  { apply take_loop_prefix; [|done]. rewrite Hc. eapply forallb_impl; [|exact Hok].
    intros a Ha. by apply key_ok_char. }
  intros st' Hst'. rewrite Hc at 1. cbn [length Nat.eqb].
  apply wp_bind, rt_validateKey, wp_ret; [done|].
  rewrite String.string_of_list_ascii_of_string. by apply HQ.
Qed.

Lemma rt_visitValue v st tail (Q : IQueryNode -> QueryParser -> Prop) :
  valid_value v = true -> rest st = chars_of "'" ++ chars_of v ++ chars_of "'" ++ tail ->
  head tail <> Some quote ->
  (forall st', rest st' = tail -> Q (ConstantNode v) st') ->
  wp (visitValue contextId query conditionHeader) st Q.
Proof.
  intros Hv Hr Ht HQ. apply wp_bind, rt_skip. intros st1 H1.
  rewrite Hr in H1. cbn [String.list_ascii_of_string app] in H1.
  rewrite dropws_cons in H1 by done.
  apply wp_bind, wp_gets. rewrite peek_rest, H1, bool_decide_eq_true_2 by done.
  assert (Hq : forallb (fun c => negb (c === quote)) (chars_of v) = true).
  { eapply forallb_impl; [|exact Hv]. apply tag_char_quote. }
  apply wp_bind. unfold quoted. apply wp_bind. unfold take_one. apply wp_bind, wp_gets.
  rewrite H1. apply wp_bind, wp_modify, wp_ret.
  assert (H2 : rest (advance 1 st1) = chars_of v ++ quote :: tail) by (by rewrite rest_advance, H1).
  revert H2. generalize (advance 1 st1). intros st2 H2. cbn [take].
  apply wp_bind, (rt_take_while _ _ (chars_of v) (quote :: tail)); [done| |].
  { by apply take_loop_string. }
  intros st3 H3. apply wp_bind, (rt_consume_yes [quote] [quote] _ _ tail); [done..|].
  intros st4 H4. apply wp_ret. change ["'"%char] with [quote]. rewrite undouble_id by done.
  apply wp_bind. unfold validateValue. rewrite Hh. cbn [negb andb].
  assert (Hf : find (fun c => negb (tag_char c)) (chars_of v) = None).
  { unfold valid_value in Hv. clear -Hv. induction (chars_of v) as [|a l IH]; [done|].
    cbn in *. apply andb_prop in Hv as [-> ?]. by apply IH. }
  rewrite Hf. apply wp_ret, wp_ret. rewrite String.string_of_list_ascii_of_string. by apply HQ.
Qed.

(** *** Comparisons *)

Lemma follow_head la tail : follow la tail -> head tail <> Some quote.
Proof. by destruct 1. Qed.

Lemma rt_compare left c node st (Q : IQueryNode -> QueryParser -> Prop) :
  Q node st -> wp (compare_with contextId query conditionHeader left c node) st Q.
Proof.
  intros HQ. apply wp_bind. unfold wp_exn, validateWithPreviousComparison. rewrite Hh.
  apply wp_bind. unfold wp_exn, appendComparisonNode. rewrite Hh. by apply wp_ret.
Qed.

(** What the text of a comparison leaves, up to white space. *)
Definition parsed (t : IQueryNode) (tail : chars) (t' : IQueryNode) (st' : QueryParser) : Prop :=
  t' = t /\ dropws (rest st') = dropws tail.

Lemma rt_binary op mk k v st tail :
  (op, mk) ∈ [("=", EqualsNode); ("<>", NotEqualsNode); (">", GreaterThanNode);
              (">=", GreaterThanEqualNode); ("<", LessThanNode); ("<=", LessThanEqualNode)]%string ->
  valid_key k = true -> valid_value v = true -> head tail <> Some quote ->
  rest st = print_comparison op (KeyNode k) (ConstantNode v) ++ tail ->
  wp (visitBinary contextId query conditionHeader) st (parsed (mk (KeyNode k) (ConstantNode v)) tail).
Proof.
  intros Hop Hk Hv Ht Hr. unfold print_comparison in Hr.
  rewrite <- !app_assoc in Hr. set (vt := chars_of "'" ++ chars_of v ++ chars_of "'" ++ tail) in *.
  apply wp_bind, (rt_visitKey k _ (chars_of op ++ vt)); [done|done| |].
  { clear -Hop. set_unfold in Hop. by repeat destruct Hop as [[= -> _]|Hop]; [..|destruct Hop]. }
  intros st1 H1. apply wp_bind, rt_skip. intros st2 H2.
  assert (Hd : dropws (chars_of op ++ vt) = chars_of op ++ vt).
  { clear -Hop. set_unfold in Hop. by repeat destruct Hop as [[= -> _]|Hop]; [..|destruct Hop]. }
  rewrite H1, Hd in H2. clear H1 Hd.
  assert (Hone : wp (consumeOneOf query true operators) st2
            (fun o st' => o = Some (chars_of op) /\ rest st' = vt)).
  { clear -Hop H2. set_unfold in Hop.
    repeat destruct Hop as [[= -> _]|Hop]; [..|destruct Hop]; unfold operators; cbn [fmap list_fmap consumeOneOf];
      repeat (apply wp_bind; first
        [ eapply rt_consume_yes; [exact H2|done|]; intros st' Hst'; by apply wp_ret
        | apply rt_consume_no; [by rewrite H2|]; cbn [consumeOneOf] ]). }
  apply wp_bind. eapply wp_mono; [exact Hone|]. clear Hone. intros o st3 [-> H3].
  apply wp_bind, (rt_visitValue v _ tail); [done..|]. intros st4 H4.
  assert (HQ : parsed (mk (KeyNode k) (ConstantNode v)) tail (mk (KeyNode k) (ConstantNode v)) st4).
  { split; [done|by rewrite H4]. }
  rewrite String.string_of_list_ascii_of_string, Hh. set_unfold in Hop.
  repeat destruct Hop as [[= -> ->]|Hop]; [..|destruct Hop]; cbn -[compare_with wp_exn]; by apply rt_compare.
Qed.

(** A key on its own: no operator follows it. *)
Lemma rt_key k st tail :
  valid_key k = true -> follow Group tail -> rest st = print (KeyNode k) ++ tail ->
  wp (visitBinary contextId query conditionHeader) st (parsed (KeyNode k) tail).
Proof.
  intros Hk Ht Hr. cbn [print] in Hr. rewrite <- app_assoc in Hr.
  apply wp_bind, (rt_visitKey k _ (chars_of " " ++ tail)); [done..|].
  intros st1 H1. apply wp_bind, rt_skip. intros st2 H2.
  assert (Hd : dropws (chars_of " " ++ tail) = dropws tail) by by destruct Ht.
  rewrite H1, Hd in H2.
  assert (Hone : wp (consumeOneOf query true operators) st2
            (fun o st' => o = None /\ rest st' = dropws tail)).
  { unfold operators. cbn [fmap list_fmap consumeOneOf].
    repeat (apply wp_bind, rt_consume_no; [rewrite H2; by destruct Ht|]; cbn [consumeOneOf]).
    by apply wp_ret. }
  apply wp_bind. eapply wp_mono; [exact Hone|]. intros o st3 [-> H3]. apply wp_ret.
  split; [done|]. rewrite H3. by destruct Ht.
Qed.

(** *** The layers *)

Lemma print_comparison_start op l r :
  printable_comparison l r = true ->
  exists c s, print_comparison op l r = c :: s /\ is_space c = false /\ c <> "("%char.
Proof.
  destruct l as [k| | | | | | | | | |], r; try done. cbn [printable_comparison].
  intros [Hk _]%andb_prop. destruct (valid_key_chars k Hk) as (c&s&Hc&Hok).
  cbn [print_comparison]. rewrite Hc. pose proof (proj1 (andb_prop _ _ Hok)) as Hc'.
  destruct (key_ok_char c Hc') as (_&_&_&?&?). by eexists _, _.
Qed.

Lemma print_start t : forall la, printable la t = true ->
  exists c s, print t = c :: s /\ is_space c = false /\
    (printable Group t = true -> c = "("%char -> exists e, t = ExpressionNode e).
Proof.
  induction t as [k|v|e IH|l IHl r IHr|l IHl r IHr|l _ r _|l _ r _|l _ r _|l _ r _|l _ r _|l _ r _];
    intros la Ht; cbn [printable print] in *;
    try match goal with
    | |- context [print_comparison ?op l r] =>
        destruct (print_comparison_start op l r Ht) as (c&s&Hc&?&?); rewrite Hc; by eexists _, _
    end.
  - destruct (valid_key_chars k Ht) as (c&s&Hc&Hok). rewrite Hc.
    pose proof (proj1 (andb_prop _ _ Hok)) as Hc'.
    destruct (key_ok_char c Hc') as (_&_&_&?&?). by eexists _, _.
  - done.
  - eexists _, _. split_and!; [done|done|eauto].
  - destruct la; [| |done]; apply andb_prop in Ht as [Hl _];
      destruct (IHl _ Hl) as (c&s&Hc&?&_); rewrite Hc; by eexists _, _.
  - destruct la; [|done|done]. apply andb_prop in Ht as [Hl _].
    destruct (IHl _ Hl) as (c&s&Hc&?&_); rewrite Hc; by eexists _, _.
Qed.

Lemma dropws_print la t r : printable la t = true -> dropws (print t ++ r) = print t ++ r.
Proof. intros Ht. destruct (print_start t la Ht) as (c&s&->&Hc&_). by apply dropws_cons. Qed.

Local Abbreviation visit_layer := (visit_layer contextId query conditionHeader).

Definition layer_ok (la : layer) (t : IQueryNode) : Prop :=
  forall fuel st tail, printable la t = true -> follow la tail ->
    dropws (rest st) = print t ++ tail ->
    (3 * length (rest st) + layer_fuel la <= fuel)%nat ->
    wp (visit_layer fuel la) st (parsed t tail).

Lemma rest_length st l : dropws (rest st) = l -> (length l <= length (rest st))%nat.
Proof. intros <-. apply length_dropws. Qed.

Lemma group_binary t st tail :
  match t with ExpressionNode _ | AndNode _ _ | OrNode _ _ => False | _ => True end ->
  printable Group t = true -> follow Group tail -> rest st = print t ++ tail ->
  wp (visitBinary contextId query conditionHeader) st (parsed t tail).
Proof.
  intros Hshape Ht Hf Hr. pose proof (follow_head _ _ Hf) as Hq.
  destruct t as [k|v|e|l r|l r|l r|l r|l r|l r|l r|l r]; try done; cbn [printable] in Ht;
    [by apply rt_key| |..];
    (destruct l as [k| | | | | | | | | |], r as [|v| | | | | | | | |]; try done;
     apply andb_prop in Ht as [Hk Hv]; eapply rt_binary; [|done..|exact Hr]; set_solver).
Qed.

Lemma group_ok t :
  (forall e, t = ExpressionNode e -> layer_ok Or e) -> layer_ok Group t.
Proof.
  intros IH fuel st tail Ht Hf Hr Hfuel. destruct fuel as [|fuel]; [cbn in Hfuel; lia|].
  cbn [TagQuery.visit_layer]. apply wp_bind, rt_skip. intros st1 H1. rewrite Hr in H1.
  pose proof (rest_length _ _ Hr) as Hlen. rewrite length_app in Hlen.
  assert (Hbin : match t with ExpressionNode _ | AndNode _ _ | OrNode _ _ => False | _ => True end ->
    wp (b ← consume query (chars_of "(") false;
        if b : bool then
          child ← visit_layer fuel Or; _ ← skipWhitespace query;
          closed ← consume query (chars_of ")") false;
          if closed : bool then mret (ExpressionNode child)
          else throw_at contextId query conditionHeader (fun st => ("Expected a ')' to close the expression group, but found '"
                                        ++ peek_text query st ++ "' instead.")%string)
        else visitBinary contextId query conditionHeader) st1 (parsed t tail)).
  { intros Hshape. apply wp_bind, rt_consume_no.
    - rewrite H1. destruct (print_start t Group Ht) as (c&s&->&_&Hc). cbn.
      rewrite take_0. apply bool_decide_eq_false. intros [= ->].
      destruct (Hc Ht eq_refl) as [e ->]. done.
    - by apply group_binary. }
  destruct t as [k|v|e|l r|l r|l r|l r|l r|l r|l r|l r]; try by apply Hbin.
  clear Hbin. cbn [print printable] in *. rewrite <- !app_assoc in H1.
  apply wp_bind, (rt_consume_yes _ (chars_of "(") _ _ (print e ++ chars_of ")" ++ tail)); [done..|].
  intros st2 H2. apply wp_bind. eapply wp_mono.
  { apply (IH e eq_refl fuel st2 (chars_of ")" ++ tail)); [done|constructor| |].
    - rewrite H2. by eapply dropws_print.
    - rewrite H2, !length_app. cbn in *. rewrite length_app in Hlen. cbn in Hlen. lia. }
  intros t' st3 [-> H3]. apply wp_bind, rt_skip. intros st4 H4. rewrite H3 in H4.
  apply wp_bind, (rt_consume_yes _ (chars_of ")") _ _ tail); [by rewrite H4|done|].
  intros st5 H5. apply wp_ret. split; [done|by rewrite H5].
Qed.

(** A layer with one operand, and with an operator. *)
Lemma and_ok t :
  layer_ok Group t ->
  (forall l r, t = AndNode l r -> layer_ok Group l /\ layer_ok And r) -> layer_ok And t.
Proof.
  intros Hg IH fuel st tail Ht Hf Hr Hfuel. destruct fuel as [|fuel]; [cbn in Hfuel; lia|].
  cbn [TagQuery.visit_layer]. apply wp_bind, rt_skip. intros st1 H1. rewrite Hr in H1.
  pose proof (rest_length _ _ Hr) as Hlen. pose proof (f_equal length H1) as Hlen1.
  assert (Hd : dropws (rest st1) = print t ++ tail) by (rewrite H1; by eapply dropws_print).
  destruct (printable Group t) eqn:Htg.
  - apply wp_bind. eapply wp_mono.
    { apply (Hg fuel st1 tail); [done|by destruct Hf; constructor|done|]. cbn in *. lia. }
    intros t' st2 [-> H2]. apply wp_bind, rt_skip. intros st3 H3. rewrite H2 in H3.
    apply wp_bind, rt_consume_no; [rewrite H3; by inversion Hf; subst|]. apply wp_ret.
    split; [done|]. rewrite H3. by destruct Hf.
  - destruct t as [k|v|e|l r|l r|l r|l r|l r|l r|l r|l r]; cbn [printable] in Ht, Htg; try congruence.
    destruct (IH l r eq_refl) as [IHl IHr]. apply andb_prop in Ht as [Hl Hr'].
    cbn [print] in *. rewrite <- !app_assoc in Hd. apply wp_bind. eapply wp_mono.
    { apply (IHl fuel st1 (chars_of " and " ++ print r ++ tail)); [done|constructor|done|].
      cbn in *. lia. }
    intros t' st2 [-> H2]. apply wp_bind, rt_skip. intros st3 H3. rewrite H2 in H3.
    apply wp_bind, (rt_consume_yes _ (chars_of "and") _ _ (chars_of " " ++ print r ++ tail)); [done..|].
    intros st4 H4. apply wp_bind. eapply wp_mono.
    { apply (IHr fuel st4 tail); [done|done| |].
      - rewrite H4, dropws_space. by eapply dropws_print.
      - rewrite H4. rewrite !length_app in *. cbn in *. lia. }
    intros t' st5 [-> H5]. by apply wp_ret.
Qed.

Lemma or_ok t :
  layer_ok And t ->
  (forall l r, t = OrNode l r -> layer_ok And l /\ layer_ok Or r) -> layer_ok Or t.
Proof.
  intros Ha IH fuel st tail Ht Hf Hr Hfuel. destruct fuel as [|fuel]; [cbn in Hfuel; lia|].
  cbn [TagQuery.visit_layer]. pose proof (rest_length _ _ Hr) as Hlen.
  destruct (printable And t) eqn:Hta.
  - apply wp_bind. eapply wp_mono.
    { apply (Ha fuel st tail); [done|by inversion Hf; subst; constructor|done|]. cbn in *. lia. }
    intros t' st2 [-> H2]. apply wp_bind, rt_skip. intros st3 H3. rewrite H2 in H3.
    apply wp_bind, rt_consume_no; [rewrite H3; by inversion Hf; subst|]. apply wp_ret.
    split; [done|]. rewrite H3. by destruct Hf.
  - destruct t as [k|v|e|l r|l r|l r|l r|l r|l r|l r|l r]; cbn [printable] in Ht, Hta; try congruence.
    destruct (IH l r eq_refl) as [IHl IHr]. apply andb_prop in Ht as [Hl Hr'].
    cbn [print] in *. rewrite <- !app_assoc in Hr. apply wp_bind. eapply wp_mono.
    { apply (IHl fuel st (chars_of " or " ++ print r ++ tail)); [done|by constructor|done|].
      cbn in *. lia. }
    intros t' st2 [-> H2]. apply wp_bind, rt_skip. intros st3 H3. rewrite H2 in H3.
    apply wp_bind, (rt_consume_yes _ (chars_of "or") _ _ (chars_of " " ++ print r ++ tail)); [done..|].
    intros st4 H4. rewrite Hh. apply wp_bind. eapply wp_mono.
    { apply (IHr fuel st4 tail); [done|done| |].
      - rewrite H4, dropws_space. by eapply dropws_print.
      - rewrite H4. rewrite !length_app in *. cbn in *. lia. }
    intros t' st5 [-> H5]. by apply wp_ret.
Qed.

Lemma layers_ok t : forall la, layer_ok la t.
Proof.
  assert (Hstep : forall t, (forall e, t = ExpressionNode e -> layer_ok Or e) ->
    (forall l r, t = AndNode l r -> layer_ok Group l /\ layer_ok And r) ->
    (forall l r, t = OrNode l r -> layer_ok And l /\ layer_ok Or r) ->
    forall la, layer_ok la t).
  { clear t. intros t He Ha Ho. pose proof (group_ok t He) as HG. pose proof (and_ok t HG Ha) as HA.
    pose proof (or_ok t HA Ho) as HO. by intros []. }
  induction t; apply Hstep; intros; simplify_eq; auto.
Qed.

Lemma parse_print_query t :
  printable Or t = true -> query = print t -> parseQuery contextId query conditionHeader = Ok t.
Proof.
  intros Ht Hq. set (st0 := mkQueryParser 0 ∅ 0).
  assert (Hr : rest st0 = print t ++ []) by (by rewrite app_nil_r, <- Hq).
  assert (H : wp (visit contextId query conditionHeader) st0 (fun t' _ => t' = t)).
  { apply wp_bind. eapply wp_mono.
    { apply (layers_ok t Or _ st0 []); [done|constructor| |].
      - rewrite Hr. by eapply dropws_print.
      - unfold visit_fuel, TagQuery.rest, st0. rewrite drop_0. cbn. lia. }
    intros t' st1 [-> H1]. apply wp_bind, rt_skip. intros st2 H2. rewrite H1 in H2.
    apply wp_bind, wp_bind, wp_gets.
    assert (Hl : (length query <= tokenPosition st2)%nat).
    { apply (f_equal length) in H2. unfold TagQuery.rest in H2. rewrite length_drop in H2.
      cbn in H2. lia. }
    destruct (Nat.ltb_spec (tokenPosition st2) (length query)); [lia|].
    by apply wp_ret, wp_ret. }
  unfold parseQuery, wp_exn in *. fold st0. destruct (visit _ _ _ st0) as [[t'|e] st']; [cbn; by rewrite H|done].
Qed.

End Roundtrip.

(** ** The meaning of a query *)

(** The truth of a tree on the tags of a blob: the comparisons that hold. A key
    on its own is true, whether the blob has the tag or not. *)
Definition left_value (c : IQueryContext) (t : IQueryNode) : TagValue :=
  match t with KeyNode k => get_property c k | _ => Undefined end.
Definition right_value (t : IQueryNode) : TagValue :=
  match t with ConstantNode v => Str v | _ => Undefined end.

Fixpoint satisfies (c : IQueryContext) (t : IQueryNode) : bool :=
  match t with
  | KeyNode _ | ConstantNode _ => true
  | ExpressionNode e => satisfies c e
  | AndNode l r => satisfies c l && satisfies c r
  | OrNode l r => satisfies c l || satisfies c r
  | EqualsNode l r => left_value c l === right_value r
  | NotEqualsNode l r => not_equal (left_value c l) (right_value r)
  | GreaterThanNode l r => relation (fun a b => String.ltb b a) (left_value c l) (right_value r)
  | GreaterThanEqualNode l r => relation (fun a b => String.leb b a) (left_value c l) (right_value r)
  | LessThanNode l r => relation String.ltb (left_value c l) (right_value r)
  | LessThanEqualNode l r => relation String.leb (left_value c l) (right_value r)
  end.

Definition is_empty {A} (l : list A) : bool := match l with [] => true | _ => false end.

Lemma evaluate_comparison c op l r :
  is_key l && is_constant r = true ->
  exists x, (a ← evaluate c l; b ← evaluate c r; compare_contents op a b) = Ok x /\
            negb (is_empty x) = op (left_value c l) (right_value r).
Proof.
  intros [Hl Hr]%andb_prop. destruct l; try done. destruct r; try done. cbn.
  destruct (op _ _); by eexists.
Qed.

Lemma evaluate_correct h c t :
  grammatical h t = true ->
  exists x, evaluate c t = Ok x /\ negb (is_empty x) = satisfies c t.
Proof.
  induction t as [k|v|e IH|l IHl r IHr|l IHl r IHr|l _ r _|l _ r _|l _ r _|l _ r _|l _ r _|l _ r _];
    intros Ht; cbn [grammatical] in Ht;
    try (rewrite <- andb_assoc in Ht; apply andb_prop in Ht as [_ Ht]);
    cbn [evaluate satisfies]; try by eapply evaluate_comparison.
  - by eexists.
  - done.
  - by apply IH.
  - apply andb_prop in Ht as [Hl Hr]. destruct (IHl Hl) as (x&Hx&Sx), (IHr Hr) as (y&Hy&Sy).
    cbn. rewrite Hx, Hy, <- Sx, <- Sy. eexists. split; [done|]. by destruct x, y.
  - apply andb_prop in Ht as [Hl Hr]. destruct (IHl Hl) as (x&Hx&Sx), (IHr Hr) as (y&Hy&Sy).
    cbn. rewrite Hx, Hy, <- Sx, <- Sy. eexists. split; [done|]. by destruct x, y.
Qed.

(** ** The properties *)

(** The parser is total: on every query it returns a tree of the grammar or
    throws one of its own exceptions; under a condition header that is always
    the 400 InvalidHeaderValue that names the header, and it is never the end of
    the fuel. *)
Theorem parse_total contextId query conditionHeader :
  match parseQuery contextId query conditionHeader with
  | Ok t => grammatical (nonempty conditionHeader) t = true
  | Throw e => parse_exn contextId query conditionHeader e
  end.
Proof.
  pose proof (parse_spec contextId query conditionHeader) as H.
  destruct (parseQuery _ _ _); [by destruct H|done].
Qed.

(** A [where] query the parser accepts compares each key once with [=], or
    at most once with a lower and once with an upper bound, and uses at most ten
    keys besides [@container]. *)
Theorem where_query_shape contextId query t :
  parseQuery contextId query None = Ok t ->
  (forall k, range_shape (comparisons_of k t) = true) /\
  exists keys : gset string, (forall k, comparisons_of k t <> [] -> k ∈ keys) /\
    Z.of_nat (size (keys ∖ {["@container"%string]})) <= 10.
Proof.
  intros Ht. pose proof (parse_spec contextId query None) as H. rewrite Ht in H.
  destruct H as [_ H]. destruct (H eq_refl) as [H1 H2].
  split; [|done]. intros k. by apply Is_true_true.
Qed.

(** C36. Printing a syntax tree and parsing the text as a condition header (not as a query
    that finds blobs, which allows fewer trees) gives the tree back: the
    precedence of [and] over [or], the groups, the operators and the quoted
    values are read as they are written. *)
Theorem parse_print contextId conditionHeader t :
  nonempty conditionHeader = true -> printable Or t = true ->
  parseQuery contextId (print t) conditionHeader = Ok t.
Proof. intros Hh Ht. by apply parse_print_query. Qed.

(** The function a query is compiled to never throws, and its result is
    not empty exactly on the blobs whose tags satisfy the query's tree. *)
Theorem where_function_correct contextId query conditionHeader f :
  generateQueryBlobWithTagsWhereFunction contextId (Some query) conditionHeader = Ok f ->
  exists t, parseQuery contextId (chars_of query) conditionHeader = Ok t /\
    forall blob, exists x, f blob = Ok x /\
      negb (is_empty x) = satisfies (query_context blob) t.
Proof.
  intros Hf. cbn in Hf. pose proof (parse_spec contextId (chars_of query) conditionHeader) as H.
  destruct (parseQuery _ _ _) as [t|e]; [|done]. cbn in Hf.
  destruct (_ =? 0); [done|]. injection Hf as <-. exists t. split; [done|].
  intros blob. destruct H as [H _]. by apply (evaluate_correct _ _ _ H).
Qed.

(** ** Witnesses *)

Definition sample_query : string := "env = 'prod' and size >= '1' and size < '5'".

Definition sample_query_tree : IQueryNode :=
  AndNode (EqualsNode (KeyNode "env") (ConstantNode "prod"))
    (AndNode (GreaterThanEqualNode (KeyNode "size") (ConstantNode "1"))
             (LessThanNode (KeyNode "size") (ConstantNode "5"))).

Lemma sample_query_parse : parseQuery None (chars_of sample_query) None = Ok sample_query_tree.
Proof. vm_compute. reflexivity. Qed.

Lemma where_query_shape_witness :
  exists t, parseQuery None (chars_of sample_query) None = Ok t /\
    (forall k, range_shape (comparisons_of k t) = true) /\
    exists keys : gset string, (forall k, comparisons_of k t <> [] -> k ∈ keys) /\
      Z.of_nat (size (keys ∖ {["@container"%string]})) <= 10.
Proof.
  exists sample_query_tree. split; [exact sample_query_parse|].
  apply (where_query_shape None (chars_of sample_query)). exact sample_query_parse.
Defined.

Definition sample_tree : IQueryNode :=
  OrNode (AndNode (EqualsNode (KeyNode "env") (ConstantNode "prod"))
                  (NotEqualsNode (KeyNode "a") (ConstantNode "b c")))
         (ExpressionNode (OrNode (KeyNode "x") (LessThanEqualNode (KeyNode "or") (ConstantNode "")))).

Lemma parse_print_witness :
  parseQuery None (print sample_tree) (Some "x-ms-if-tags"%string) = Ok sample_tree.
Proof. apply (parse_print None (Some "x-ms-if-tags"%string) sample_tree); vm_compute; reflexivity. Defined.

Lemma where_function_correct_witness :
  exists t, parseQuery None (chars_of sample_query) None = Ok t /\
    forall blob, exists x, executeQuery blob sample_query_tree = Ok x /\
      negb (is_empty x) = satisfies (query_context blob) t.
Proof.
  apply (where_function_correct None sample_query None).
  unfold generateQueryBlobWithTagsWhereFunction. by rewrite sample_query_parse.
Defined.

(** ** What the model shows *)

(** A second condition on a key ends in a plain [Error], not in the 400 the
    parser gives for every other refused query. *)
Lemma duplicate_condition_internal_error :
  match parseQuery None (chars_of "a = 'x' and a = 'y'") None with
  | Throw e => http_status e = 500
  | Ok _ => False
  end.
Proof. vm_compute. reflexivity. Qed.

(** A key that every object inherits ends in a [TypeError]. *)
Lemma inherited_key_internal_error :
  parseQuery None (chars_of "constructor = 'x'") None = Throw TypeError.
Proof. vm_compute. reflexivity. Qed.

(** A conjunction of keys without an operator is accepted, and holds on every blob. *)
Lemma bare_keys_accepted :
  parseQuery None (chars_of "a and b") None = Ok (AndNode (KeyNode "a") (KeyNode "b")).
Proof. vm_compute. reflexivity. Qed.
