(* ===== verification/Loki.v ===== *)
(** * Loki: the document collections the metadata stores use

    lokijs is a package the code calls. A collection is a value of an abstract
    type; [Loki] is the part of its interface the stores use and [LokiLaws] is
    what they rely on, as its documentation states it: a collection maps the
    [$loki] ids to documents, an insertion takes the id after the largest one
    ever used, a find returns the documents of a query, in the order of their
    insertion ([LokiOrdered]), a sort is a sort, a new collection ([addCollection])
    is empty, and [lk_next] is the id the next insertion sets in its document.
    [lk_text_le] is the order in which the package compares two texts, in [simplesort]
    and in a query with [$gt] or [$gte]: an order, but not that of JavaScript on texts
    that are numbers.
    [docs] gives the map and [max_id] the counter of the ids. The instance at the end shows that the laws
    can be met; nothing else uses it but the witnesses. *)

From S2P Require Import Prelude.
Open Scope Z_scope.

Class Loki (coll : Type -> Type) := {
  lk_insert {A} : A -> coll A -> coll A;
  lk_find {A} : (Z -> A -> bool) -> coll A -> list (Z * A);
  lk_update {A} : Z -> A -> coll A -> coll A;
  lk_remove {A} : Z -> coll A -> coll A;
  lk_sort {A} : (Z * A -> Z * A -> bool) -> list (Z * A) -> list (Z * A);
  lk_text_le : string -> string -> bool;
  lk_new {A} : coll A;
  lk_next {A} : coll A -> Z
}.

Class LokiLaws (coll : Type -> Type) `{Loki coll} := {
  docs {A} : coll A -> gmap Z A;
  max_id {A} : coll A -> Z;
  docs_max {A} (c : coll A) (i : Z) : is_Some (docs c !! i) -> i <= max_id c;
  docs_insert {A} (a : A) c : docs (lk_insert a c) = <[max_id c + 1 := a]> (docs c);
  max_insert {A} (a : A) c : max_id (lk_insert a c) = max_id c + 1;
  max_update {A} (i : Z) (a : A) c : is_Some (docs c !! i) -> max_id (lk_update i a c) = max_id c;
  max_remove {A} (i : Z) (c : coll A) : max_id (lk_remove i c) = max_id c;
  find_docs {A} (p : Z -> A -> bool) c :
    lk_find p c ≡ₚ filter (fun d => p d.1 d.2 = true) (map_to_list (docs c));
  docs_update {A} (i : Z) (a : A) c : is_Some (docs c !! i) -> docs (lk_update i a c) = <[i := a]> (docs c);
  docs_remove {A} (i : Z) (c : coll A) : docs (lk_remove i c) = delete i (docs c);
  sort_perm {A} (le : Z * A -> Z * A -> bool) l : lk_sort le l ≡ₚ l;
  sort_sorted {A} (le : Z * A -> Z * A -> bool) l :
    (forall x y, le x y || le y x = true) ->
    (forall x y z, le x y = true -> le y z = true -> le x z = true) ->
    StronglySorted (fun x y => le x y = true) (lk_sort le l);
  text_le_total s t : lk_text_le s t || lk_text_le t s = true;
  text_le_trans s t u : lk_text_le s t = true -> lk_text_le t u = true -> lk_text_le s u = true;
  docs_new {A} : docs (lk_new (A:=A)) = ∅;
  next_max {A} (c : coll A) : lk_next c = max_id c + 1
}.

Arguments LokiLaws coll {_}.

(** Without a sort, the documents come in the order of their insertion: their ids ascend. *)
Class LokiOrdered (coll : Type -> Type) `{Loki coll} :=
  find_ascending A (p : Z -> A -> bool) (c : coll A) :
    StronglySorted (fun x y => x.1 < y.1) (lk_find p c).

Arguments LokiOrdered coll {_}.

(** [findOne(query)]. *)
Definition findOne {coll} `{Loki coll} {A} (p : A -> bool) (c : coll A) : option (Z * A) :=
  head (lk_find (fun _ => p) c).

(** [findAndRemove(query)], and [remove(docs)]. *)
Definition remove_docs {coll} `{Loki coll} {A} (ds : list (Z * A)) (c : coll A) : coll A :=
  foldl (fun c d => lk_remove d.1 c) c ds.
Definition update_docs {coll} `{Loki coll} {A} (ds : list (Z * A)) (c : coll A) : coll A :=
  foldl (fun c d => lk_update d.1 d.2 c) c ds.

(** ** Lemmas *)

Section Lemmas.
Context {coll : Type -> Type} `{LokiLaws coll}.
Context {A : Type}.
Implicit Types (c : coll A) (p : A -> bool).

Lemma elem_find (p : Z -> A -> bool) c i a :
  (i, a) ∈ lk_find p c <-> docs c !! i = Some a /\ p i a = true.
Proof.
  rewrite (find_docs p c), list_elem_of_filter, elem_of_map_to_list. cbn. tauto.
Qed.

Lemma NoDup_find (p : Z -> A -> bool) c : NoDup (lk_find p c).*1.
Proof.
  rewrite (find_docs p c). apply NoDup_fmap_fst.
  - intros i a b [_ Ha]%list_elem_of_filter [_ Hb]%list_elem_of_filter.
    apply elem_of_map_to_list in Ha, Hb. congruence.
  - apply NoDup_filter, NoDup_map_to_list.
Qed.

Lemma findOne_Some p c i a : findOne p c = Some (i, a) -> docs c !! i = Some a /\ p a = true.
Proof.
  unfold findOne. intros Hf. apply (elem_find (fun _ => p)).
  destruct (lk_find _ c); [done|]. cbn in Hf. injection Hf as ->. left.
Qed.

Lemma findOne_None p c : findOne p c = None -> forall i a, docs c !! i = Some a -> p a = false.
Proof.
  unfold findOne. intros Hf i a Hi. destruct (p a) eqn:Hp; [|done]. exfalso.
  assert (Hin : (i, a) ∈ lk_find (fun _ => p) c) by by apply elem_find.
  destruct (lk_find _ c); [|done]. by apply elem_of_nil in Hin.
Qed.

Lemma next_free c : docs c !! (max_id c + 1) = None.
Proof.
  destruct (docs c !! _) eqn:Hd; [|done]. pose proof (docs_max c _ (mk_is_Some _ _ Hd)). lia.
Qed.

Lemma docs_remove_docs ds c i :
  docs (remove_docs ds c) !! i = if bool_decide (i ∈ ds.*1) then None else docs c !! i.
Proof.
  unfold remove_docs. revert c. induction ds as [|d ds IH]; intros c; cbn.
  - by rewrite bool_decide_eq_false_2 by apply not_elem_of_nil.
  - rewrite IH, docs_remove. rewrite (bool_decide_ext (i ∈ d.1 :: ds.*1) (i = d.1 \/ i ∈ ds.*1))
      by apply elem_of_cons.
    destruct (decide (i = d.1)) as [->|Hi].
    + rewrite lookup_delete_eq, (bool_decide_eq_true_2 (_ \/ _)) by by left.
      by destruct (bool_decide _).
    + rewrite lookup_delete_ne by done.
      rewrite (bool_decide_ext (i = d.1 \/ i ∈ ds.*1) (i ∈ ds.*1)) by tauto. done.
Qed.

Lemma docs_update_docs ds c i :
  NoDup ds.*1 -> (forall d, d ∈ ds -> is_Some (docs c !! d.1)) ->
  docs (update_docs ds c) !! i
  = match (list_to_map ds : gmap Z A) !! i with Some a => Some a | None => docs c !! i end.
Proof.
  unfold update_docs. revert c. induction ds as [|[j a] ds IH]; intros c; cbn; [done|].
  intros [Hj Hnd]%NoDup_cons Hin. pose proof (Hin (j, a) (list_elem_of_here _ _)) as Hs. cbn in Hs.
  rewrite IH; [|done|].
  - rewrite docs_update by done. destruct (decide (i = j)) as [->|Hij].
    + rewrite lookup_insert_eq, not_elem_of_list_to_map_1 by done. by rewrite lookup_insert_eq.
    + rewrite !lookup_insert_ne by done. done.
  - intros d Hd. rewrite docs_update by done. apply lookup_insert_is_Some'. right.
    apply Hin. by right.
Qed.

Lemma max_remove_docs ds c : max_id (remove_docs ds c) = max_id c.
Proof.
  unfold remove_docs. revert c. induction ds as [|d ds IH]; intros c; cbn; [done|].
  by rewrite IH, max_remove.
Qed.

Lemma max_update_docs ds c :
  (forall d, d ∈ ds -> is_Some (docs c !! d.1)) -> max_id (update_docs ds c) = max_id c.
Proof.
  unfold update_docs. revert c. induction ds as [|d ds IH]; intros c Hin; cbn; [done|].
  pose proof (Hin d (list_elem_of_here _ _)) as Hd. rewrite IH, max_update; [done|done|].
  intros d' Hd'. rewrite docs_update by done. apply lookup_insert_is_Some'. right.
  apply Hin. by right.
Qed.

End Lemmas.

(** ** Pages

    A list that is asked for in pages of [n] documents whose ids are greater
    than that of the last one seen. *)

Section Pages.
Context {coll : Type -> Type} `{LokiLaws coll, !LokiOrdered coll}.
Context {A : Type}.
Implicit Types (c : coll A) (p : Z -> A -> bool) (l : list (Z * A)).

Definition ascending l : Prop := StronglySorted (fun x y => x.1 < y.1) l.

Lemma ascending_unique l1 l2 : ascending l1 -> ascending l2 -> l1 ≡ₚ l2 -> l1 = l2.
Proof.
  intros H1 H2 Hp. apply (StronglySorted_unique_strong (fun x y => x.1 < y.1)); [|done..].
  intros x y _ _ Hxy Hyx. lia.
Qed.

Lemma ascending_filter (P : Z * A -> Prop) `{forall x, Decision (P x)} l :
  ascending l -> ascending (filter P l).
Proof.
  induction 1 as [|x l Hl IH Hx]; [constructor|]. rewrite filter_cons. case_decide; [|done].
  constructor; [done|]. rewrite Forall_forall in *. intros y [_ Hy]%list_elem_of_filter. by apply Hx.
Qed.

Lemma find_after p k c :
  lk_find (fun i a => p i a && (k <? i)) c = filter (fun d => k < d.1) (lk_find p c).
Proof.
  apply ascending_unique.
  - apply find_ascending.
  - apply ascending_filter, find_ascending.
  - rewrite (find_docs p c), (find_docs _ c), list_filter_filter.
    apply reflexive_eq, list_filter_iff. intros [i a]. cbn.
    destruct (p i a), (Z.ltb_spec k i); cbn; split; naive_solver lia.
Qed.

Lemma ascending_after l n d :
  ascending l -> last (take n l) = Some d -> filter (fun x => d.1 < x.1) l = drop n l.
Proof.
  intros Hl. revert n. induction Hl as [|x l Hl IH Hx]; intros n Hd.
  - by destruct n.
  - destruct n as [|n]; [done|]. cbn in Hd. rewrite skipn_cons. rewrite Forall_forall in Hx.
    destruct (take n l) as [|y l'] eqn:Ht.
    + injection Hd as <-. rewrite filter_cons_False by lia.
      assert (drop n l = l) as ->.
      { destruct n, l; try done. }
      clear -Hx. induction l as [|z l IH]; [done|]. rewrite filter_cons_True.
      * f_equal. apply IH. intros w Hw. apply Hx. by right.
      * apply Hx. left.
    + assert (Hd' : last (take n l) = Some d) by by rewrite Ht.
      rewrite filter_cons_False; [by apply IH|].
      assert (Hin : d ∈ l).
      { rewrite <- (take_drop n l), elem_of_app. left. apply last_Some in Hd' as [l0 ->].
        apply elem_of_app. right. apply list_elem_of_here. }
      pose proof (Hx d Hin). lia.
Qed.

(** A document in the list is on the page, or comes after the page. *)
Lemma page_or_after l n i a :
  ascending l -> (i, a) ∈ l -> (0 < n)%nat ->
  (i, a) ∈ take n l \/ exists d, length (take n l) = n /\ last (take n l) = Some d /\ d.1 < i.
Proof.
  intros Hl Hi Hn. rewrite <- (take_drop n l) in Hi. apply elem_of_app in Hi as [Hi|Hi]; [by left|].
  right. assert (Hlen : (n < length l)%nat).
  { destruct (decide (n < length l)%nat); [done|]. rewrite drop_ge in Hi by lia.
    by apply elem_of_nil in Hi. }
  destruct (last (take n l)) as [d|] eqn:Hd.
  - exists d. split_and!; [rewrite length_take; lia|done|].
    rewrite <- (ascending_after l n d Hl Hd) in Hi. by apply list_elem_of_filter in Hi as [? _].
  - apply last_None in Hd. destruct l, n; cbn in *; [lia..|done].
Qed.

End Pages.

(** ** Pages of a sorted list

    The other way to page: [limit(n + 1)] of a sorted list, whose last document
    but one gives the marker and whose last one is dropped. *)

Section SortedPages.
Context {A : Type}.
Implicit Types (l : list A).

(** An element is on the first page, or not before the last one there. *)
Lemma sorted_page (R : A -> A -> Prop) l n x :
  StronglySorted R l -> x ∈ l -> (0 < n)%nat ->
  x ∈ take n l \/ exists d, (n < length l)%nat /\ last (take n l) = Some d /\ R d x.
Proof.
  intros Hl Hx Hn. rewrite <- (take_drop n l) in Hl, Hx. apply elem_of_app in Hx as [Hx|Hx]; [by left|right].
  assert (Hlen : (n < length l)%nat).
  { destruct (decide (n < length l)%nat); [done|]. rewrite drop_ge in Hx by lia. by apply elem_of_nil in Hx. }
  destruct (last (take n l)) as [d|] eqn:Hd.
  - exists d. split_and!; [done..|]. eapply StronglySorted_app_1_elem_of; [exact Hl| |exact Hx].
    apply last_Some in Hd as [l0 ->]. apply elem_of_app. right. apply list_elem_of_here.
  - apply last_None in Hd. destruct l, n; cbn in *; [lia..|done].
Qed.

Lemma page_fits l n : (length (take (S n) l) <= n)%nat -> take (S n) l = l.
Proof. rewrite length_take. intros Hl. apply take_ge. lia. Qed.

Lemma page_cut l n :
  (n < length (take (S n) l))%nat ->
  length (take (S n) l) = S n /\ take (length (take (S n) l) - 1) (take (S n) l) = take n l /\
  take (S n) l !! (length (take (S n) l) - 2)%nat = l !! (n - 1)%nat.
Proof.
  intros Hl. assert (He : length (take (S n) l) = S n) by (rewrite length_take in *; lia).
  rewrite He. split_and!; [done| |].
  - rewrite take_take. f_equal. lia.
  - replace (S n - 2)%nat with (n - 1)%nat by lia. apply lookup_take_lt. lia.
Qed.

Lemma last_take l n : (0 < n)%nat -> (n < length l)%nat -> last (take n l) = l !! (n - 1)%nat.
Proof.
  intros Hn Hl. rewrite last_lookup, length_take, Nat.min_l by lia.
  replace (Nat.pred n) with (n - 1)%nat by lia. apply lookup_take_lt. lia.
Qed.
End SortedPages.

(** The order of strings. *)
Lemma string_leb_trans (a b c : string) : String.leb a b = true -> String.leb b c = true -> String.leb a c = true.
Proof.
  intros H1 H2. apply Is_true_eq_true. eapply (transitivity (R := String.le) (y := b));
    by apply Is_true_eq_left.
Qed.

Lemma string_ltb_leb (a b : string) : String.ltb a b = negb (String.leb b a).
Proof. unfold String.ltb, String.leb. rewrite (String.compare_antisym a b). by destruct (String.compare b a). Qed.

(** ** An instance *)

(** The map and the counter. *)
Definition map_coll (A : Type) : Type := gmap Z A * Z.

Definition largest {A} (c : map_coll A) : Z := Z.max c.2 (map_fold (fun j _ => Z.max j) 0 c.1).

Definition holds {B} (le : B -> B -> bool) (x y : B) : Prop := le x y = true.
#[export] Instance holds_dec {B} (le : B -> B -> bool) x y : Decision (holds le x y).
Proof. unfold holds. solve_decision. Defined.

Definition by_id {A} (x y : Z * A) : Prop := x.1 <= y.1.
#[export] Instance by_id_dec {A} (x y : Z * A) : Decision (by_id x y).
Proof. unfold by_id. solve_decision. Defined.

#[export] Instance map_loki : Loki map_coll := {
  lk_insert A a c := (<[largest (A:=A) c + 1 := a]> c.1, largest c + 1);
  lk_find A p c := merge_sort by_id (filter (fun d => p d.1 d.2 = true) (map_to_list (c : map_coll A).1));
  lk_update A i a c := (<[i := a]> c.1, largest (A:=A) c);
  lk_remove A i c := (delete i c.1, largest (A:=A) c);
  lk_sort A le l := merge_sort (holds le) l;
  lk_text_le := String.leb;
  lk_new A := (∅, 0);
  lk_next A c := largest (A:=A) c + 1
}.

Lemma fold_max {A} (m : gmap Z A) (b : Z) :
  map_fold (fun j _ => Z.max j) 0 m <= Z.max 0 b <-> forall j, is_Some (m !! j) -> j <= Z.max 0 b.
Proof.
  apply (map_fold_weak_ind (fun r m => r <= Z.max 0 b <-> forall j, is_Some (m !! j) -> j <= Z.max 0 b)).
  - split; [|lia]. intros _ j [? Hj]. by rewrite lookup_empty in Hj.
  - intros i a m' r Hi IH. split.
    + intros Hr j Hj. apply lookup_insert_is_Some' in Hj as [<-|Hj]; [lia|].
      apply IH; [lia|done].
    + intros Hj. apply Z.max_lub.
      * apply Hj. rewrite lookup_insert_eq. by eexists.
      * apply IH. intros j [x Hx]. apply Hj, lookup_insert_is_Some'. right. by eexists.
Qed.

Lemma largest_ge {A} (c : map_coll A) i : is_Some (c.1 !! i) -> i <= largest c.
Proof.
  intros Hi. unfold largest. set (f := map_fold _ _ _).
  assert (Hf : f <= Z.max 0 f) by lia.
  pose proof (proj1 (fold_max c.1 f) Hf i Hi). 
  assert (0 <= f); [|lia]. unfold f. clear.
  apply (map_fold_weak_ind (fun r _ => 0 <= r)); intros; lia.
Qed.

Lemma largest_sub {A} (m : gmap Z A) (c : map_coll A) k :
  0 <= k -> (forall j, is_Some (m !! j) -> j <= k) -> largest (m, k) = k.
Proof.
  intros Hk Hm. unfold largest. cbn. apply Z.max_l.
  pose proof (proj2 (fold_max m k)). rewrite Z.max_r in * by done. auto.
Qed.

Lemma largest_nonneg {A} (c : map_coll A) : 0 <= largest c.
Proof.
  unfold largest. assert (0 <= map_fold (fun (j : Z) (_ : A) => Z.max j) 0 c.1); [|lia].
  apply (map_fold_weak_ind (fun r _ => 0 <= r)); intros; lia.
Qed.

#[export] Instance map_loki_laws : LokiLaws map_coll.
Proof.
  refine {| docs := fun A (c : map_coll A) => c.1; max_id := fun A (c : map_coll A) => largest c |}.
  - intros A c i. apply largest_ge.
  - done.
  - intros A a c. pose proof (largest_nonneg c). apply (largest_sub _ c); [lia|].
    intros j Hj. apply lookup_insert_is_Some' in Hj as [<-|Hj]; [lia|].
    pose proof (largest_ge c j Hj). lia.
  - intros A i a c Hi. pose proof (largest_nonneg c). apply (largest_sub _ c); [done|].
    intros j Hj. apply largest_ge. by apply lookup_insert_is_Some' in Hj as [<-|Hj].
  - intros A i c. pose proof (largest_nonneg c). apply (largest_sub _ c); [done|].
    intros j [x Hj]. apply lookup_delete_Some in Hj as [_ Hj]. apply largest_ge. by eexists.
  - intros A p c. apply merge_sort_Permutation.
  - done.
  - done.
  - intros A le l. apply merge_sort_Permutation.
  - intros A le l Ht Htr.
    assert (Transitive (holds le)) by (intros x y z; apply Htr).
    assert (Total (holds le)) by (intros x y; apply orb_prop, Ht).
    apply (StronglySorted_merge_sort (holds le)).
  - intros s t. apply orb_true_iff, String.leb_total.
  - apply string_leb_trans.
  - done.
  - done.
Defined.

#[export] Instance map_loki_ordered : LokiOrdered map_coll.
Proof.
  intros A p c. cbn.
  assert (Hs : StronglySorted by_id (merge_sort by_id
            (filter (fun d => p d.1 d.2 = true) (map_to_list c.1)))).
  { apply StronglySorted_merge_sort; intros x; unfold by_id; intros; lia. }
  assert (Hn : NoDup (merge_sort by_id (filter (fun d => p d.1 d.2 = true) (map_to_list c.1))).*1).
  { rewrite merge_sort_Permutation. apply NoDup_fmap_fst; [|apply NoDup_filter, NoDup_map_to_list].
    intros i a b [_ Ha]%list_elem_of_filter [_ Hb]%list_elem_of_filter.
    apply elem_of_map_to_list in Ha, Hb. congruence. }
  induction Hs as [|x l Hl IH Hx]; [constructor|]. apply NoDup_cons in Hn as [Hx' Hn].
  constructor; [by apply IH|]. rewrite Forall_forall in *. intros y Hy.
  pose proof (Hx y Hy). unfold by_id in *. assert (x.1 <> y.1); [|lia].
  intros He. apply Hx'. rewrite He. by apply list_elem_of_fmap_2.
Qed.
