(* ===== verification/QueueStore.v ===== *)
(** * QueueStore: the metadata store of the queue service

    src/src/queue/persistence/LokiQueueMetadataStore.ts over the collections of
    [Loki]. A document found by a query is the stored object: the methods change
    its fields and call [update], which is one [lk_update] here. Dates are
    milliseconds; [now] is the clock read by [clearExpiredMessages].

    Opening, saving and closing the database file is not modelled: a store is
    the state between [init] and [close]. *)

From S2P Require Import Prelude Errors Extents Loki.

(** ** Data *)

(** [IQueueMetadata]: an object, in the order of its properties. *)
Definition IQueueMetadata := list (string * string).

Record AccessPolicy := mkAccessPolicy {
  ap_id : string;
  ap_start : option string;
  ap_expiry : option string;
  ap_permission : option string
}.

Record QueueModel := mkQueueModel {
  q_accountName : string;
  q_name : string;
  q_queueAcl : option (list AccessPolicy);
  q_metadata : option IQueueMetadata
}.

Record MessageModel := mkMessageModel {
  accountName : string;
  queueName : string;
  messageId : string;
  popReceipt : string;
  timeNextVisible : Z;
  persistency : IExtentChunk;
  insertionTime : Z;
  expirationTime : Z;
  dequeueCount : Z
}.

Record MessageUpdateProperties := mkMessageUpdate {
  u_accountName : string;
  u_queueName : string;
  u_messageId : string;
  u_popReceipt : string;
  u_timeNextVisible : Z;
  u_persistency : option IExtentChunk
}.

Inductive QUEUE_STATUSCODE := CREATED | NOCONTENT.

(** The settings of an account's queue service; their contents are not looked at. *)
Record ServicePropertiesModel (P : Type) := mkServiceProperties {
  sp_accountName : string;
  sp_cors : option P;
  sp_hourMetrics : option P;
  sp_logging : option P;
  sp_minuteMetrics : option P
}.
Arguments mkServiceProperties {P}.
Arguments sp_accountName {P}.
Arguments sp_cors {P}.
Arguments sp_hourMetrics {P}.
Arguments sp_logging {P}.
Arguments sp_minuteMetrics {P}.

#[export] Instance MessageModel_eq_dec : EqDecision MessageModel.
Proof. solve_decision. Defined.

(** The three collections of the database. *)
Record QueueDb (coll : Type -> Type) (P : Type) := mkQueueDb {
  services : coll (ServicePropertiesModel P);
  queues : coll QueueModel;
  messages : coll MessageModel
}.
Arguments mkQueueDb {coll P}.
Arguments services {coll P}.
Arguments queues {coll P}.
Arguments messages {coll P}.

(** ** Pure parts *)

Definition is_queue (account queue : string) (q : QueueModel) : bool :=
  (q.(q_accountName) === account) && (q.(q_name) === queue).
Definition in_queue (account queue : string) (m : MessageModel) : bool :=
  (m.(accountName) === account) && (m.(queueName) === queue).
Definition is_message (account queue id : string) (m : MessageModel) : bool :=
  in_queue account queue m && (m.(messageId) === id).

(** [compoundsort([["timeNextVisible", false], ["$loki", false]])]. *)
Definition earlier (x y : Z * MessageModel) : bool :=
  (x.2.(timeNextVisible) <? y.2.(timeNextVisible))
  || ((x.2.(timeNextVisible) =? y.2.(timeNextVisible)) && (x.1 <=? y.1)).

Definition messageCopy (message : MessageModel) : MessageModel :=
  mkMessageModel message.(accountName) message.(queueName) message.(messageId)
    message.(popReceipt) message.(timeNextVisible)
    (mkChunk message.(persistency).(id) message.(persistency).(offset) message.(persistency).(count))
    message.(insertionTime) message.(expirationTime) message.(dequeueCount).

Definition queueCopy (queue : QueueModel) : QueueModel :=
  mkQueueModel queue.(q_accountName) queue.(q_name) queue.(q_queueAcl) queue.(q_metadata).

(** The message a dequeue leaves. *)
Definition dequeued (visibleTime : Z) (receipt : string) (m : MessageModel) : MessageModel :=
  mkMessageModel m.(accountName) m.(queueName) m.(messageId) receipt visibleTime
    m.(persistency) m.(insertionTime) m.(expirationTime) (m.(dequeueCount) + 1).

(** A property of an object literal, as [obj[name]] reads it. *)
Definition prop_of (name : string) (o : IQueueMetadata) : option string :=
  snd <$> List.find (fun p => p.1 === name) o.

(** [o.hasOwnProperty] is the inherited method unless the object has a property
    of that name, which is a string and cannot be called. *)
Definition hasOwnProperty_callable (o : IQueueMetadata) : bool :=
  undefined (prop_of "hasOwnProperty" o) || Nat.eqb (length o) 0.

(** [nameMap.set(item.toLowerCase(), item)] for each property. *)
Definition name_map (o : IQueueMetadata) : gmap string string :=
  foldl (fun m p => <[toLowerCase p.1 := p.1]> m) ∅ o.

(** The comparison of [createQueue]: the metadata of the request against the
    metadata of the queue that exists. *)
Definition same_metadata (requestId : option string) (queueMeta docMeta : option IQueueMetadata) :
    res QUEUE_STATUSCODE :=
  let conflict := QueueErrors.getQueueAlreadyExists requestId in
  match queueMeta, docMeta with
  | None, None => Ok NOCONTENT
  | None, Some _ | Some _, None => Throw conflict
  | Some queueMeta, Some docMeta =>
      throw_when (negb (Nat.eqb (length queueMeta) (length docMeta))) conflict;;
      throw_when (negb (hasOwnProperty_callable queueMeta)) TypeError;;
      throw_when (negb (hasOwnProperty_callable docMeta)) TypeError;;
      throw_when (existsb (fun p =>
          match name_map queueMeta !! toLowerCase p.1 with
          | None => true
          | Some name => Some p.2 !== prop_of name queueMeta
          end) docMeta) conflict;;
      Ok NOCONTENT
  end.

(** [name.startsWith(prefix)], which the escaped regular expression tests. *)
Definition has_prefix (p s : string) : bool := String.prefix p s.

Definition name_le (x y : Z * QueueModel) : bool := String.leb x.2.(q_name) y.2.(q_name).

Section Store.
Context {coll : Type -> Type} `{Loki coll} {P : Type}.

Abbreviation db := (QueueDb coll P).
Abbreviation store := (proc db exn).

Definition set_queues (c : coll QueueModel) (s : db) : db := mkQueueDb s.(services) c s.(messages).
Definition set_messages (c : coll MessageModel) (s : db) : db := mkQueueDb s.(services) s.(queues) c.
Definition set_services (c : coll (ServicePropertiesModel P)) (s : db) : db :=
  mkQueueDb c s.(queues) s.(messages).

Definition update_db (f : db -> db) : store unit := fun s => (Ok tt, f s).

(** ** Service properties *)

Definition pick (new old : option P) : option P := match new with None => old | Some _ => new end.

Definition updateServiceProperties (p : ServicePropertiesModel P) : store unit :=
  s ← get_state;
  match findOne (fun d => d.(sp_accountName) === p.(sp_accountName)) s.(services) with
  | Some (i, doc) =>
      update_db (set_services (lk_update i
        (mkServiceProperties doc.(sp_accountName)
           (pick p.(sp_cors) doc.(sp_cors)) (pick p.(sp_hourMetrics) doc.(sp_hourMetrics))
           (pick p.(sp_logging) doc.(sp_logging)) (pick p.(sp_minuteMetrics) doc.(sp_minuteMetrics)))
        s.(services)))
  | None => update_db (set_services (lk_insert p s.(services)))
  end.

Definition getServiceProperties (account : string) : store (option (ServicePropertiesModel P)) :=
  s ← get_state;
  mret (snd <$> findOne (fun d => d.(sp_accountName) === account) s.(services)).

(** ** Queues *)

(** [findOne] of a queue, or the 404 each method throws. *)
Definition find_queue (account queue : string) (requestId : option string) :
    store (Z * QueueModel) :=
  s ← get_state;
  match findOne (is_queue account queue) s.(queues) with
  | Some d => mret d
  | None => throw (QueueErrors.getQueueNotFound requestId)
  end.

Definition listQueues (account prefix : string) (maxResults marker : Z) :
    store (list QueueModel * option Z) :=
  s ← get_state;
  let query i q :=
    (marker <? i) && (q.(q_accountName) === account)
    && ((prefix === EmptyString) || has_prefix prefix q.(q_name)) in
  let docs := take (Z.to_nat (maxResults + 1)) (lk_sort name_le (lk_find query s.(queues))) in
  let queues := queueCopy <$> (take (Z.to_nat maxResults) docs).*2 in
  if Z.of_nat (length docs) <=? maxResults then mret (queues, None)
  else match last docs with
       | Some d => mret (queues, Some (d.1 - 1))
       | None => throw TypeError
       end.

Definition getQueue (account queue : string) (requestId : option string) : store QueueModel :=
  d ← find_queue account queue requestId;
  mret d.2.

Definition createQueue (queue : QueueModel) (requestId : option string) : store QUEUE_STATUSCODE :=
  s ← get_state;
  match findOne (is_queue queue.(q_accountName) queue.(q_name)) s.(queues) with
  | Some (_, doc) => lift (same_metadata requestId queue.(q_metadata) doc.(q_metadata))
  | None => _ ← update_db (set_queues (lk_insert queue s.(queues))); mret CREATED
  end.

Definition deleteQueue (account queue : string) (requestId : option string) : store unit :=
  d ← find_queue account queue requestId;
  s ← get_state;
  _ ← update_db (set_queues (lk_remove d.1 s.(queues)));
  s ← get_state;
  update_db (set_messages
    (remove_docs (lk_find (fun _ => in_queue account queue) s.(messages)) s.(messages))).

Definition setQueueACL (account queue : string) (queueACL : option (list AccessPolicy))
    (requestId : option string) : store unit :=
  d ← find_queue account queue requestId;
  s ← get_state;
  update_db (set_queues (lk_update d.1
    (mkQueueModel d.2.(q_accountName) d.2.(q_name) queueACL d.2.(q_metadata)) s.(queues))).

Definition setQueueMetadata (account queue : string) (metadata : option IQueueMetadata)
    (requestId : option string) : store unit :=
  d ← find_queue account queue requestId;
  s ← get_state;
  update_db (set_queues (lk_update d.1
    (mkQueueModel d.2.(q_accountName) d.2.(q_name) d.2.(q_queueAcl) metadata) s.(queues))).

Definition getMessagesCount (account queue : string) (requestId : option string) : store Z :=
  _ ← find_queue account queue requestId;
  s ← get_state;
  mret (Z.of_nat (length (lk_find (fun _ => in_queue account queue) s.(messages)))).

(** ** Messages *)

Definition checkQueueExist (account queue : string) (requestId : option string) : store unit :=
  _ ← find_queue account queue requestId;
  mret tt.

(** An [async] method called without [await]: its body has no [await] and runs
    at once; an exception ends in the promise nobody looks at. *)
Definition unawaited (m : store unit) : store unit := fun s => (Ok tt, (m s).2).

Definition expired (account queue : string) (now : Z) (m : MessageModel) : bool :=
  in_queue account queue m && (m.(expirationTime) <=? now).

Definition clearExpiredMessages (account queue : string) (now : Z) (requestId : option string) :
    store unit :=
  _ ← checkQueueExist account queue requestId;
  s ← get_state;
  update_db (set_messages
    (remove_docs (lk_find (fun _ => expired account queue now) s.(messages)) s.(messages))).

Definition insertMessage (message : MessageModel) (requestId : option string) : store unit :=
  _ ← checkQueueExist message.(accountName) message.(queueName) requestId;
  s ← get_state;
  update_db (set_messages (lk_insert (messageCopy message) s.(messages))).

(** The documents of the visible messages of a queue, the earliest first. *)
Definition visible_docs (account queue : string) (queryTime : Z) (n : Z) (s : db) :
    list (Z * MessageModel) :=
  take (Z.to_nat n)
    (lk_sort earlier
       (lk_find (fun _ m => in_queue account queue m && (m.(timeNextVisible) <=? queryTime))
          s.(messages))).

Definition peekMessages (account queue : string) (numOfMessages : option Z) (queryDate : option Z)
    (now : Z) (requestId : option string) : store (list MessageModel) :=
  _ ← checkQueueExist account queue requestId;
  _ ← unawaited (clearExpiredMessages account queue now requestId);
  s ← get_state;
  let docs := visible_docs account queue (default now queryDate) (default 1 numOfMessages) s in
  mret (messageCopy <$> docs.*2).

Definition getMessages (account queue : string) (visibleTime : Z) (receipt : string)
    (numOfMessages : option Z) (queryDate : option Z) (now : Z) (requestId : option string) :
    store (list MessageModel) :=
  _ ← checkQueueExist account queue requestId;
  _ ← unawaited (clearExpiredMessages account queue now requestId);
  s ← get_state;
  let n := match numOfMessages with Some n => if n <? 1 then 1 else n | None => 1 end in
  let docs := visible_docs account queue (default now queryDate) n s in
  let docs := prod_map (fun i => i) (dequeued visibleTime receipt) <$> docs in
  _ ← update_db (set_messages (update_docs docs s.(messages)));
  mret (messageCopy <$> docs.*2).

(** [findOne] of a message with the checks of its pop receipt. *)
Definition find_message (account queue id validatingPopReceipt : string)
    (requestId : option string) : store (Z * MessageModel) :=
  s ← get_state;
  match findOne (is_message account queue id) s.(messages) with
  | None => throw (QueueErrors.getMessageNotFound requestId)
  | Some d =>
      if d.2.(popReceipt) !== validatingPopReceipt
      then throw (QueueErrors.getPopReceiptMismatch requestId)
      else mret d
  end.

Definition deleteMessage (account queue id validatingPopReceipt : string) (now : Z)
    (requestId : option string) : store unit :=
  _ ← checkQueueExist account queue requestId;
  _ ← unawaited (clearExpiredMessages account queue now requestId);
  d ← find_message account queue id validatingPopReceipt requestId;
  s ← get_state;
  update_db (set_messages (lk_remove d.1 s.(messages))).

Definition updated (u : MessageUpdateProperties) (m : MessageModel) : MessageModel :=
  mkMessageModel m.(accountName) m.(queueName) m.(messageId) u.(u_popReceipt)
    u.(u_timeNextVisible) (default m.(persistency) u.(u_persistency))
    m.(insertionTime) m.(expirationTime) m.(dequeueCount).

Definition updateMessage (message : MessageUpdateProperties) (validatingPopReceipt : string)
    (now : Z) (requestId : option string) : store unit :=
  let account := message.(u_accountName) in
  let queue := message.(u_queueName) in
  _ ← checkQueueExist account queue requestId;
  _ ← unawaited (clearExpiredMessages account queue now requestId);
  d ← find_message account queue message.(u_messageId) validatingPopReceipt requestId;
  s ← get_state;
  update_db (set_messages (lk_update d.1 (updated message d.2) s.(messages))).

Definition clearMessages (account queue : string) (requestId : option string) : store unit :=
  _ ← checkQueueExist account queue requestId;
  s ← get_state;
  update_db (set_messages
    (remove_docs (lk_find (fun _ => in_queue account queue) s.(messages)) s.(messages))).

(** [marker] is [undefined] for the first page; every id is greater. *)
Definition listMessages (maxResults : option Z) (marker : option Z) :
    store (list MessageModel * option Z) :=
  s ← get_state;
  let maxResults := default 5000 maxResults in
  let docs := take (Z.to_nat maxResults)
    (lk_find (fun i _ => match marker with Some k => k <? i | None => true end) s.(messages)) in
  if Z.of_nat (length docs) <? maxResults then mret (docs.*2, None)
  else match last docs with
       | Some d => mret (docs.*2, Some d.1)
       | None => throw TypeError
       end.

End Store.
