(* ===== verification/QueueStoreSpec.v ===== *)
(** * QueueStoreSpec: what the metadata store of the queue service guarantees

    Proved against the laws of [Loki]: the invariant of the database over any
    sequence of calls, the exclusive delivery of messages while they are
    invisible, the pop receipts, the deletion of a queue with its messages, and
    the decision of [createQueue] on a queue that exists. *)

From S2P Require Import Prelude Errors Extents Loki QueueStore.
Open Scope Z_scope.
Open Scope azurite_scope.

(** ** Metadata up to the case of the names *)

(** The metadata as a map from lower-case names. *)
Definition lower_map (o : IQueueMetadata) : gmap string string :=
  list_to_map (prod_map toLowerCase (fun v => v) <$> o).

(** Metadata whose names differ by more than their case and which has no name
    that hides the method [hasOwnProperty]. *)
Definition plain (o : IQueueMetadata) : Prop :=
  NoDup (toLowerCase <$> o.*1) /\ prop_of "hasOwnProperty" o = None.

Lemma fst_lower (o : IQueueMetadata) :
  (prod_map toLowerCase (fun v : string => v) <$> o).*1 = toLowerCase <$> o.*1.
Proof. induction o as [|p o IH]; cbn; [done|]. by rewrite IH. Qed.

Lemma lower_map_lookup o k v : plain o ->
  (lower_map o !! k = Some v <-> exists n, (n, v) ∈ o /\ toLowerCase n = k).
Proof.
  intros [Hnd _]. unfold lower_map. rewrite <- elem_of_list_to_map by by rewrite fst_lower.
  rewrite list_elem_of_fmap. split.
  - intros ([n w]&[= -> ->]&Hin). by exists n.
  - intros (n&Hin&<-). by exists (n, v).
Qed.

Lemma prop_of_lookup o n v : 
  NoDup (toLowerCase <$> o.*1) -> (prop_of n o = Some v <-> (n, v) ∈ o).
Proof.
  unfold prop_of. induction o as [|[m w] o IH]; cbn; [intros _; split; [done|by intros ?%elem_of_nil]|].
  intros [Hn Hnd]%NoDup_cons. case_bool_decide as Hm; cbn.
  - subst m. rewrite elem_of_cons. split; [intros [= ->]; by left|].
    intros [[= ->]|Hin]; [done|]. destruct Hn. apply list_elem_of_fmap. exists n. split; [done|].
    apply list_elem_of_fmap. by exists (n, v).
  - rewrite (IH Hnd), elem_of_cons. split; [by right|]. by intros [[= -> ->]|?].
Qed.

Lemma name_map_lookup o k n : 
  NoDup (toLowerCase <$> o.*1) ->
  (name_map o !! k = Some n <-> exists v, (n, v) ∈ o /\ toLowerCase n = k).
Proof.
  unfold name_map. assert (Hgen : forall m : gmap string string, NoDup (toLowerCase <$> o.*1) ->
    ((foldl (fun m p => <[toLowerCase p.1 := p.1]> m) m o) !! k = Some n <->
     (exists v, (n, v) ∈ o /\ toLowerCase n = k) \/
     ((k ∉ (toLowerCase <$> o.*1)) /\ m !! k = Some n))).
  { induction o as [|[x v] o IH]; intros m; cbn.
    - intros _. split; [intros Hm; right; split; [apply not_elem_of_nil|done]|].
      intros [(?&[]%elem_of_nil&_)|[_ ?]]; done.
    - intros [Hx Hnd]%NoDup_cons. rewrite (IH _ Hnd), elem_of_cons. split.
      + intros [(w&Hw&<-)|[Hk Hm]].
        * left. exists w. split; [by right|done].
        * apply lookup_insert_Some in Hm as [[<- <-]|[Hne Hm]].
          -- left. exists v. split; [left|done].
          -- right. split; [by intros [->|?]|done].
      + intros [(w&Hw&<-)|[Hk Hm]].
        * apply elem_of_cons in Hw as [[= -> ->]|Hw].
          -- right. split; [done|]. apply lookup_insert_eq.
          -- left. by exists w.
        * right. assert (Hne : k <> toLowerCase x) by tauto. split; [tauto|].
          rewrite lookup_insert_ne by done. done. }
  intros Hnd. rewrite Hgen by done. rewrite lookup_empty. split; [|by left].
  by intros [?|[_ ?]].
Qed.

Lemma size_lower_map o : plain o -> size (lower_map o) = length o.
Proof.
  intros [Hnd _]. unfold lower_map. rewrite <- (length_fmap (prod_map toLowerCase (fun v : string => v)) o).
  rewrite <- length_map_to_list. apply Permutation_length, map_to_list_to_map. by rewrite fst_lower.
Qed.

Lemma plain_callable o : plain o -> hasOwnProperty_callable o = true.
Proof. intros [_ Hp]. unfold hasOwnProperty_callable. by rewrite Hp. Qed.

(** The loop over the metadata of the existing queue finds no difference. *)
Lemma no_difference q d : plain q -> plain d ->
  existsb (fun p => match name_map q !! toLowerCase p.1 with
                    | None => true | Some name => Some p.2 !== prop_of name q end) d = false
  <-> lower_map d ⊆ lower_map q.
Proof.
  intros Hq Hd. rewrite <- not_true_iff_false, existsb_exists, map_subseteq_spec. split.
  - intros Hno k v. rewrite (lower_map_lookup d) by done. intros (n&Hin&<-).
    rewrite (lower_map_lookup q) by done.
    destruct (name_map q !! toLowerCase n) as [n'|] eqn:Hn'.
    + pose proof (proj1 (name_map_lookup q _ _ (proj1 Hq)) Hn') as (v'&Hv'&Hk). exists n'. split; [|done].
      apply (prop_of_lookup q n' v); [apply Hq|]. destruct (decide (Some v = prop_of n' q)); [done|].
      destruct Hno. exists (n, v). split; [by apply list_elem_of_In|]. cbn. rewrite Hn'.
      by rewrite bool_decide_eq_false_2.
    + destruct Hno. exists (n, v). split; [by apply list_elem_of_In|]. cbn. by rewrite Hn'.
  - intros Hsub ([n v]&Hin%list_elem_of_In&Hbad). cbn in Hbad.
    assert (Hk : lower_map q !! toLowerCase n = Some v).
    { apply Hsub, (lower_map_lookup d); [done|]. by exists n. }
    apply (lower_map_lookup q) in Hk as (n'&Hin'&Hk); [|done].
    assert (Hn : name_map q !! toLowerCase n = Some n')
      by (apply name_map_lookup; [apply Hq|by exists v]).
    rewrite Hn in Hbad. rewrite (proj2 (prop_of_lookup q n' v (proj1 Hq)) Hin') in Hbad.
    by rewrite bool_decide_eq_true_2 in Hbad.
Qed.

Lemma same_metadata_decision r q d :
  from_option plain True q -> from_option plain True d ->
  same_metadata r q d = if bool_decide (lower_map <$> q = lower_map <$> d) then Ok NOCONTENT
                        else Throw (QueueErrors.getQueueAlreadyExists r).
Proof.
  intros Hq Hd. destruct q as [q|], d as [d|]; try done. cbn in *.
  rewrite (plain_callable q Hq), (plain_callable d Hd). cbn [negb].
  rewrite <- (size_lower_map q Hq), <- (size_lower_map d Hd).
  rewrite (bool_decide_ext (Some (lower_map q) = Some (lower_map d)) (lower_map q = lower_map d))
    by (split; congruence).
  pose proof (no_difference q d Hq Hd) as Hdiff.
  case_bool_decide as Heq.
  - rewrite Heq in *. rewrite Nat.eqb_refl. cbn [negb]. by rewrite (proj2 Hdiff).
  - destruct (Nat.eqb_spec (size (lower_map q)) (size (lower_map d))) as [Hs|]; [|done]. cbn [negb].
    destruct (existsb _ d); [done|]. exfalso. apply Heq. symmetry.
    apply map_subseteq_size_eq; [by apply Hdiff|lia].
Qed.

Section Spec.
Context {coll : Type -> Type} `{LokiLaws coll} {P : Type}.

Abbreviation db := (QueueDb coll P).
Implicit Types (s : db).

(** ** The database as maps *)

Definition msgs (s : db) : gmap Z MessageModel := docs s.(messages).
Definition qs (s : db) : gmap Z QueueModel := docs s.(queues).

(** A queue of this account and name exists. *)
Definition has_queue (account queue : string) (s : db) : Prop :=
  exists i q, qs s !! i = Some q /\ is_queue account queue q = true.

(** No two documents for one queue; every message is in a queue that exists. *)
Definition store_ok (s : db) : Prop :=
  (forall i j q q' a n, qs s !! i = Some q -> qs s !! j = Some q' ->
     is_queue a n q = true -> is_queue a n q' = true -> i = j) /\
  (forall i m, msgs s !! i = Some m -> has_queue m.(accountName) m.(queueName) s).

(** ** The building blocks *)

Lemma find_queue_cases a n r s :
  (exists i q, find_queue a n r s = (Ok (i, q), s) /\ qs s !! i = Some q /\ is_queue a n q = true) \/
  (find_queue a n r s = (Throw (QueueErrors.getQueueNotFound r), s) /\ ~ has_queue a n s).
Proof.
  unfold find_queue. run. destruct (findOne (is_queue a n) s.(queues)) as [[i q]|] eqn:Hf.
  - left. apply findOne_Some in Hf as [??]. by exists i, q.
  - right. split; [done|]. intros (i&q&Hi&Hq). pose proof (findOne_None _ _ Hf i q Hi). congruence.
Qed.

Lemma check_cases a n r s :
  (checkQueueExist a n r s = (Ok tt, s) /\ has_queue a n s) \/
  (checkQueueExist a n r s = (Throw (QueueErrors.getQueueNotFound r), s) /\ ~ has_queue a n s).
Proof.
  unfold checkQueueExist. run.
  destruct (find_queue_cases a n r s) as [(i&q&->&?&?)|[-> ?]]; [left|by right].
  split; [done|by exists i, q].
Qed.

(** The database without the messages that satisfy [p]. *)
Definition without (p : MessageModel -> bool) (s : db) : db :=
  set_messages (remove_docs (lk_find (fun _ => p) s.(messages)) s.(messages)) s.

Lemma msgs_without p s i :
  msgs (without p s) !! i
  = match msgs s !! i with Some m => if p m then None else Some m | None => None end.
Proof.
  unfold msgs, without. cbn. rewrite docs_remove_docs. case_bool_decide as Hi.
  - apply list_elem_of_fmap in Hi as ([j m]&->&Hj). apply elem_find in Hj as [Hj Hp].
    cbn. by rewrite Hj, Hp.
  - destruct (docs (messages s) !! i) as [m|] eqn:Hm; [|done].
    destruct (p m) eqn:Hp; [|done]. destruct Hi. apply list_elem_of_fmap. exists (i, m).
    split; [done|]. by apply (elem_find (fun _ => p)).
Qed.

Lemma clear_runs a n now r s :
  has_queue a n s -> unawaited (clearExpiredMessages a n now r) s
  = (Ok tt, without (expired a n now) s).
Proof.
  intros Hq. unfold unawaited, clearExpiredMessages. run.
  by destruct (check_cases a n r s) as [[-> _]|[_ ?]].
Qed.

(** The common prologue of the message operations. *)
Lemma prologue {A} a n now r (k : proc db exn A) s :
  (has_queue a n s /\
   (_ ← checkQueueExist a n r; _ ← unawaited (clearExpiredMessages a n now r); k) s
   = k (without (expired a n now) s)) \/
  (~ has_queue a n s /\
   (_ ← checkQueueExist a n r; _ ← unawaited (clearExpiredMessages a n now r); k) s
   = (Throw (QueueErrors.getQueueNotFound r), s)).
Proof.
  run. destruct (check_cases a n r s) as [[-> Hq]|[-> Hq]]; [left|by right].
  split; [done|]. by rewrite (clear_runs a n now r s Hq).
Qed.

Lemma find_message_cases a n id pr r s :
  (exists i m, find_message a n id pr r s = (Ok (i, m), s) /\ msgs s !! i = Some m
     /\ is_message a n id m = true /\ m.(popReceipt) = pr) \/
  exists e, find_message a n id pr r s = (Throw e, s) /\
    (e = QueueErrors.getMessageNotFound r \/ e = QueueErrors.getPopReceiptMismatch r).
Proof.
  unfold find_message. run. destruct (findOne (is_message a n id) s.(messages)) as [[i m]|] eqn:Hf.
  - apply findOne_Some in Hf as [??]. case_bool_decide; [left|right]; cbn.
    + by exists i, m.
    + eexists. split; [done|by right].
  - right. eexists. split; [done|by left].
Qed.

(** ** The invariant *)

(** A change of the messages that keeps each one in the queue it was in. *)
Lemma ok_messages s s' :
  store_ok s -> qs s' = qs s ->
  (forall i m, msgs s' !! i = Some m ->
     exists m0, msgs s !! i = Some m0 /\ m0.(accountName) = m.(accountName)
                /\ m0.(queueName) = m.(queueName)) ->
  store_ok s'.
Proof.
  intros [Hu Ho] Hq Hm. unfold store_ok, has_queue. rewrite Hq. split; [exact Hu|].
  intros i m Hi. destruct (Hm i m Hi) as (m0&Hm0&<-&<-). by apply (Ho i).
Qed.

Lemma ok_without p s : store_ok s -> store_ok (without p s).
Proof.
  intros Hs. apply (ok_messages s); [done|done|]. intros i m. rewrite msgs_without.
  destruct (msgs s !! i) as [m0|]; [|done]. destruct (p m0); [done|].
  intros [= <-]. by exists m0.
Qed.

Lemma ok_insert_message m s :
  store_ok s -> has_queue m.(accountName) m.(queueName) s ->
  store_ok (set_messages (lk_insert (messageCopy m) s.(messages)) s).
Proof.
  intros [Hu Ho] Hq. split; [exact Hu|]. intros i m'. unfold msgs. cbn.
  rewrite docs_insert.
  intros [[<- <-]|[_ Hi]]%lookup_insert_Some; [exact Hq|]. by apply (Ho i).
Qed.

Lemma ok_update_message i m m' s :
  store_ok s -> msgs s !! i = Some m -> m'.(accountName) = m.(accountName) ->
  m'.(queueName) = m.(queueName) ->
  store_ok (set_messages (lk_update i m' s.(messages)) s).
Proof.
  intros Hs Hi Ha Hn. apply (ok_messages s); [done|done|]. unfold msgs. cbn.
  rewrite docs_update by by eexists.
  intros j mj [[<- <-]|[_ Hj]]%lookup_insert_Some; [by exists m|by exists mj].
Qed.

Lemma ok_remove_message i s : store_ok s -> store_ok (set_messages (lk_remove i s.(messages)) s).
Proof.
  intros Hs. apply (ok_messages s); [done|done|]. unfold msgs. cbn. rewrite docs_remove.
  intros j m [_ Hj]%lookup_delete_Some. by exists m.
Qed.

Lemma ok_update_queue i q q' s :
  store_ok s -> qs s !! i = Some q -> q'.(q_accountName) = q.(q_accountName) ->
  q'.(q_name) = q.(q_name) ->
  store_ok (set_queues (lk_update i q' s.(queues)) s).
Proof.
  intros [Hu Ho] Hi Ha Hn.
  assert (Hiq : forall a n, is_queue a n q' = is_queue a n q)
    by (intros; unfold is_queue; by rewrite Ha, Hn).
  assert (Hback : forall j p, qs (set_queues (lk_update i q' s.(queues)) s) !! j = Some p ->
    exists p0, qs s !! j = Some p0 /\ forall a n, is_queue a n p = is_queue a n p0).
  { unfold qs. cbn. rewrite docs_update by by eexists.
    intros j p [[<- <-]|[_ Hj]]%lookup_insert_Some; [by exists q|by exists p]. }
  split.
  - intros j k p p' a n Hj Hk Hp Hp'. destruct (Hback j p Hj) as (p0&?&E), (Hback k p' Hk) as (p0'&?&E').
    rewrite E in Hp. rewrite E' in Hp'. by apply (Hu j k p0 p0' a n).
  - intros j m Hj. destruct (Ho j m Hj) as (k&p&Hk&Hp). unfold has_queue, qs. cbn.
    rewrite docs_update by by eexists. destruct (decide (k = i)) as [->|Hne].
    + exists i, q'. rewrite lookup_insert_eq. split; [done|]. rewrite Hiq. unfold qs in *. congruence.
    + exists k, p. by rewrite lookup_insert_ne by done.
Qed.

Lemma ok_insert_queue q s :
  store_ok s -> ~ has_queue q.(q_accountName) q.(q_name) s ->
  store_ok (set_queues (lk_insert q s.(queues)) s).
Proof.
  intros [Hu Ho] Hno.
  assert (Hno' : forall i p a n, qs s !! i = Some p -> is_queue a n p = true ->
                   is_queue a n q = true -> False).
  { intros i p a n Hi Hp Hq. apply Hno. exists i, p. split; [done|]. unfold is_queue in *.
    apply andb_prop in Hq as [->%bool_decide_eq_true ->%bool_decide_eq_true]. done. }
  pose proof (docs_insert q s.(queues)) as Hins. pose proof (docs_max s.(queues)) as Hk. split.
  - intros i j p p' a n. unfold qs. cbn. rewrite Hins.
    intros [[<- <-]|[? Hi]]%lookup_insert_Some [[<- <-]|[? Hj]]%lookup_insert_Some Hp Hp'; [done|..].
    + by destruct (Hno' j p' a n Hj).
    + by destruct (Hno' i p a n Hi).
    + by apply (Hu i j p p' a n).
  - intros i m Hi. destruct (Ho i m Hi) as (j&p&Hj&Hp). unfold has_queue, qs. cbn. rewrite Hins.
    exists j, p. rewrite lookup_insert_ne; [done|]. intros <-.
    specialize (Hk _ (ex_intro _ p Hj)). lia.
Qed.

Lemma ok_delete_queue i q a n s :
  store_ok s -> qs s !! i = Some q -> is_queue a n q = true ->
  store_ok (without (in_queue a n) (set_queues (lk_remove i s.(queues)) s)).
Proof.
  intros [Hu Ho] Hi Hq. split.
  - intros j k p p' a' n'. unfold qs. cbn. rewrite docs_remove.
    intros [_ Hj]%lookup_delete_Some [_ Hk]%lookup_delete_Some. by apply Hu.
  - intros j m. rewrite msgs_without. change (msgs (set_queues _ s)) with (msgs s).
    destruct (msgs s !! j) as [m0|] eqn:Hj; [|done]. destruct (in_queue a n m0) eqn:Hin; [done|].
    intros [= <-]. destruct (Ho j m0 Hj) as (k&p&Hk&Hp). unfold has_queue, qs. cbn. rewrite docs_remove.
    exists k, p. rewrite lookup_delete_ne; [done|]. intros ->.
    assert (p = q) as -> by (unfold qs in *; congruence).
    unfold is_queue, in_queue in *.
    apply andb_prop in Hq as [E1%bool_decide_eq_true E2%bool_decide_eq_true].
    apply andb_prop in Hp as [E3%bool_decide_eq_true E4%bool_decide_eq_true].
    rewrite <- E3, <- E4, E1, E2 in Hin. by rewrite !bool_decide_eq_true_2 in Hin.
Qed.

(** ** The visible messages *)

Lemma earlier_total x y : earlier x y || earlier y x = true.
Proof. unfold earlier. guards; cbn; lia || done. Qed.

Lemma earlier_iff x y : earlier x y = true <->
  x.2.(timeNextVisible) < y.2.(timeNextVisible) \/
  (x.2.(timeNextVisible) = y.2.(timeNextVisible) /\ x.1 <= y.1).
Proof.
  unfold earlier. rewrite orb_true_iff, andb_true_iff, Z.ltb_lt, Z.eqb_eq, Z.leb_le. tauto.
Qed.

Lemma earlier_trans x y z : earlier x y = true -> earlier y z = true -> earlier x z = true.
Proof. rewrite !earlier_iff. lia. Qed.

(** The messages a dequeue may deliver. *)
Definition visible (a n : string) (t : Z) (m : MessageModel) : bool :=
  in_queue a n m && (m.(timeNextVisible) <=? t).

(** [ds] is the delivery of at most [k] visible messages: documents of the
    database, the earliest of the visible ones, and all of them if there are
    fewer than [k]. *)
Record delivery (a n : string) (t k : Z) (s : db) (ds : list (Z * MessageModel)) : Prop := {
  delivery_length : (length ds <= Z.to_nat k)%nat;
  delivery_ids : NoDup ds.*1;
  delivery_sound : forall i m, (i, m) ∈ ds -> msgs s !! i = Some m /\ visible a n t m = true;
  delivery_first : forall i m d, msgs s !! i = Some m -> visible a n t m = true ->
    (i, m) ∉ ds -> d ∈ ds -> earlier d (i, m) = true;
  delivery_all : forall i m, (length ds < Z.to_nat k)%nat -> msgs s !! i = Some m ->
    visible a n t m = true -> (i, m) ∈ ds
}.

Lemma visible_docs_delivery a n t k s : delivery a n t k s (visible_docs a n t k s).
Proof.
  unfold visible_docs. set (f := lk_find _ _). set (l := lk_sort earlier f).
  assert (Hl : forall i m, (i, m) ∈ l <-> msgs s !! i = Some m /\ visible a n t m = true).
  { intros i m. unfold l. rewrite (sort_perm earlier f). unfold f. by rewrite elem_find. }
  assert (Hsorted : StronglySorted (fun x y => earlier x y = true) l)
    by (apply sort_sorted; [apply earlier_total|apply earlier_trans]).
  assert (Hnd : NoDup l.*1) by (unfold l; rewrite (sort_perm earlier f); apply NoDup_find).
  clearbody l. clear f. rewrite <- (take_drop (Z.to_nat k) l) in Hsorted, Hnd.
  assert (Hcut : forall x, x ∈ l -> x ∉ take (Z.to_nat k) l -> x ∈ drop (Z.to_nat k) l).
  { intros x Hx Hn. rewrite <- (take_drop (Z.to_nat k) l), elem_of_app in Hx. tauto. }
  split.
  - rewrite length_take. lia.
  - rewrite fmap_app in Hnd. by apply NoDup_app in Hnd as (?&_&_).
  - intros i m Hin. apply Hl. rewrite <- (take_drop (Z.to_nat k) l). apply elem_of_app. by left.
  - intros i m d Hi Hv Hn Hd. assert (Hx : (i, m) ∈ l) by by apply Hl.
    apply StronglySorted_app in Hsorted as (Hord&_&_). apply Hord; [done|by apply Hcut].
  - intros i m Hk Hi Hv. rewrite length_take in Hk. rewrite take_ge by lia. by apply Hl.
Qed.

Lemma messageCopy_id m : messageCopy m = m.
Proof. by destruct m as [???? ? [???] ???]. Qed.

Lemma messageCopy_list (l : list MessageModel) : messageCopy <$> l = l.
Proof. induction l as [|m l IH]; cbn; [done|]. by rewrite messageCopy_id, IH. Qed.

(** The messages after the delivery [ds] of a dequeue. *)
Definition hand_out (vt : Z) (pr : string) (ds : list (Z * MessageModel)) (s : db) : db :=
  set_messages (update_docs (prod_map (fun i => i) (dequeued vt pr) <$> ds) s.(messages)) s.

Lemma fst_prod_map {B} (f : MessageModel -> B) (ds : list (Z * MessageModel)) :
  (prod_map (fun i => i) f <$> ds).*1 = ds.*1.
Proof. induction ds as [|d ds IH]; cbn; [done|]. by rewrite IH. Qed.

Lemma snd_prod_map {B} (f : MessageModel -> B) (ds : list (Z * MessageModel)) :
  (prod_map (fun i => i) f <$> ds).*2 = f <$> ds.*2.
Proof. induction ds as [|d ds IH]; cbn; [done|]. by rewrite IH. Qed.

Lemma msgs_hand_out vt pr ds s i a n t k :
  delivery a n t k s ds ->
  msgs (hand_out vt pr ds s) !! i
  = match msgs s !! i with
    | Some m => Some (if bool_decide ((i, m) ∈ ds) then dequeued vt pr m else m)
    | None => None
    end.
Proof.
  intros Hd. unfold msgs, hand_out. cbn.
  rewrite docs_update_docs.
  2: { rewrite fst_prod_map. by apply (delivery_ids _ _ _ _ _ _ Hd). }
  2: { intros d Hin. apply list_elem_of_fmap in Hin as ([j m]&->&Hin). cbn.
       apply (delivery_sound _ _ _ _ _ _ Hd) in Hin as [Hj _]. by eexists. }
  destruct (list_to_map _ !! i) as [m'|] eqn:Hm.
  - apply elem_of_list_to_map_2, list_elem_of_fmap in Hm as ([j m]&[= -> ->]&Hin).
    destruct (delivery_sound _ _ _ _ _ _ Hd _ _ Hin) as [Hj _]. unfold msgs in Hj. rewrite Hj.
    by rewrite bool_decide_eq_true_2.
  - apply not_elem_of_list_to_map_2 in Hm. rewrite fst_prod_map in Hm.
    destruct (docs (messages s) !! i) as [m|] eqn:Hi; [|done].
    rewrite bool_decide_eq_false_2; [done|]. intros Hin. apply Hm.
    apply list_elem_of_fmap. by exists (i, m).
Qed.

(** What a dequeue does: clear the expired messages, deliver, hand out. *)
Lemma getMessages_runs a n vt pr num qd now r s :
  has_queue a n s ->
  let s1 := without (expired a n now) s in
  let k := match num with Some k => if k <? 1 then 1 else k | None => 1 end in
  let ds := visible_docs a n (default now qd) k s1 in
  getMessages a n vt pr num qd now r s = (Ok (dequeued vt pr <$> ds.*2), hand_out vt pr ds s1).
Proof.
  intros Hq s1 k ds. unfold getMessages.
  match goal with |- (_ ← _; _ ← _; ?k) s = _ => destruct (prologue a n now r k s) as [[_ ->]|[? _]] end;
    [|done].
  run. unfold update_db. rewrite messageCopy_list, snd_prod_map. done.
Qed.

(** ** Requests *)

Inductive request :=
| CreateQueue (q : QueueModel) (r : option string)
| DeleteQueue (a n : string) (r : option string)
| SetQueueACL (a n : string) (acl : option (list AccessPolicy)) (r : option string)
| SetQueueMetadata (a n : string) (md : option IQueueMetadata) (r : option string)
| InsertMessage (m : MessageModel) (r : option string)
| PeekMessages (a n : string) (num qd : option Z) (now : Z) (r : option string)
| GetMessages (a n : string) (vt : Z) (pr : string) (num qd : option Z) (now : Z) (r : option string)
| DeleteMessage (a n id pr : string) (now : Z) (r : option string)
| UpdateMessage (u : MessageUpdateProperties) (pr : string) (now : Z) (r : option string)
| ClearMessages (a n : string) (r : option string).

(** The database a request leaves, whether it throws or not. *)
Definition run_request (s : db) (q : request) : db :=
  match q with
  | CreateQueue q r => (createQueue q r s).2
  | DeleteQueue a n r => (deleteQueue a n r s).2
  | SetQueueACL a n acl r => (setQueueACL a n acl r s).2
  | SetQueueMetadata a n md r => (setQueueMetadata a n md r s).2
  | InsertMessage m r => (insertMessage m r s).2
  | PeekMessages a n num qd now r => (peekMessages a n num qd now r s).2
  | GetMessages a n vt pr num qd now r => (getMessages a n vt pr num qd now r s).2
  | DeleteMessage a n id pr now r => (deleteMessage a n id pr now r s).2
  | UpdateMessage u pr now r => (updateMessage u pr now r s).2
  | ClearMessages a n r => (clearMessages a n r s).2
  end.

Definition run_requests (s : db) (l : list request) : db := foldl run_request s l.

(** The shapes of the database after each message operation. *)
Lemma peek_runs a n num qd now r s :
  (peekMessages a n num qd now r s).2 = s \/
  (peekMessages a n num qd now r s).2 = without (expired a n now) s.
Proof.
  unfold peekMessages.
  match goal with |- context [(_ ← _; _ ← _; ?k) s] => destruct (prologue a n now r k s) as [[_ ->]|[_ ->]] end;
    [by right|by left].
Qed.

Lemma get_runs a n vt pr num qd now r s :
  (getMessages a n vt pr num qd now r s).2 = s \/
  exists k ds, delivery a n (default now qd) k (without (expired a n now) s) ds /\
    (getMessages a n vt pr num qd now r s).2 = hand_out vt pr ds (without (expired a n now) s).
Proof.
  destruct (check_cases a n r s) as [[_ Hq]|[Hc _]].
  - right. rewrite (getMessages_runs a n vt pr num qd now r s Hq). eexists _, _.
    split; [apply visible_docs_delivery|done].
  - left. unfold getMessages. run. by rewrite Hc.
Qed.

Lemma delete_runs a n id pr now r s :
  (deleteMessage a n id pr now r s).2 = s \/
  (deleteMessage a n id pr now r s).2 = without (expired a n now) s \/
  exists i, (deleteMessage a n id pr now r s).2
            = set_messages (lk_remove i (without (expired a n now) s).(messages))
                (without (expired a n now) s).
Proof.
  unfold deleteMessage.
  match goal with |- context [(_ ← _; _ ← _; ?k) s] => destruct (prologue a n now r k s) as [[_ ->]|[_ ->]] end;
    [right|by left]. run.
  destruct (find_message_cases a n id pr r (without (expired a n now) s))
    as [(i&m&->&_)|(e&->&_)]; [right; by exists i|by left].
Qed.

Lemma update_runs u pr now r s :
  let s1 := without (expired u.(u_accountName) u.(u_queueName) now) s in
  (updateMessage u pr now r s).2 = s \/ (updateMessage u pr now r s).2 = s1 \/
  exists i m, msgs s1 !! i = Some m /\ m.(popReceipt) = pr /\
    is_message u.(u_accountName) u.(u_queueName) u.(u_messageId) m = true /\
    (updateMessage u pr now r s).2 = set_messages (lk_update i (updated u m) s1.(messages)) s1.
Proof.
  intros s1. unfold updateMessage.
  match goal with |- context [(_ ← _; _ ← _; ?k) s] => destruct (prologue u.(u_accountName) u.(u_queueName) now r k s) as [[_ ->]|[_ ->]] end;
    [right|by left]. fold s1. run.
  destruct (find_message_cases u.(u_accountName) u.(u_queueName) u.(u_messageId) pr r s1)
    as [(i&m&->&?&?&?)|(e&->&_)]; [right; by exists i, m|by left].
Qed.

Lemma insert_runs m r s :
  (insertMessage m r s).2 = s \/
  (has_queue m.(accountName) m.(queueName) s /\
   (insertMessage m r s).2 = set_messages (lk_insert (messageCopy m) s.(messages)) s).
Proof.
  unfold insertMessage. run.
  destruct (check_cases m.(accountName) m.(queueName) r s) as [[-> ?]|[-> ?]]; [by right|by left].
Qed.

Lemma clear_messages_runs a n r s :
  (clearMessages a n r s).2 = s \/ (clearMessages a n r s).2 = without (in_queue a n) s.
Proof.
  unfold clearMessages. run. destruct (check_cases a n r s) as [[-> ?]|[-> ?]]; [by right|by left].
Qed.

Lemma ok_hand_out vt pr ds a n t k s :
  delivery a n t k s ds -> store_ok s -> store_ok (hand_out vt pr ds s).
Proof.
  intros Hd Hs. apply (ok_messages s); [done|done|]. intros i m.
  rewrite (msgs_hand_out vt pr ds s i a n t k Hd).
  destruct (msgs s !! i) as [m0|]; [|done]. intros [= <-]. exists m0. by case_bool_decide.
Qed.

Lemma run_request_ok s q : store_ok s -> store_ok (run_request s q).
Proof.
  intros Hs. destruct q as [q r|a n r|a n acl r|a n md r|m r|a n num qd now r|a n vt pr num qd now r
                           |a n id pr now r|u pr now r|a n r]; cbn [run_request].
  - unfold createQueue. run. destruct (findOne _ _) as [[i d]|] eqn:Hf; [done|].
    apply ok_insert_queue; [done|]. intros (i&p&Hi&Hp).
    pose proof (findOne_None _ _ Hf i p Hi). congruence.
  - unfold deleteQueue. run.
    destruct (find_queue_cases a n r s) as [(i&q&->&Hi&Hq)|[-> _]]; [|done].
    by apply (ok_delete_queue i q a n s).
  - unfold setQueueACL. run.
    destruct (find_queue_cases a n r s) as [(i&q&->&Hi&Hq)|[-> _]]; [|done].
    by apply (ok_update_queue i q).
  - unfold setQueueMetadata. run.
    destruct (find_queue_cases a n r s) as [(i&q&->&Hi&Hq)|[-> _]]; [|done].
    by apply (ok_update_queue i q).
  - destruct (insert_runs m r s) as [->|[Hq ->]]; [done|by apply ok_insert_message].
  - destruct (peek_runs a n num qd now r s) as [->| ->]; [done|by apply ok_without].
  - destruct (get_runs a n vt pr num qd now r s) as [->|(k&ds&Hd&->)]; [done|].
    by eapply ok_hand_out, ok_without.
  - destruct (delete_runs a n id pr now r s) as [->|[->|[i ->]]];
      [done|by apply ok_without|by apply ok_remove_message, ok_without].
  - destruct (update_runs u pr now r s) as [->|[->|(i&m&Hi&_&_&->)]];
      [done|by apply ok_without|]. by apply (ok_update_message i m); [apply ok_without|..].
  - destruct (clear_messages_runs a n r s) as [->| ->]; [done|by apply ok_without].
Qed.

(** ** The lock of a delivered message *)

(** The document [i] is the message [m] or is gone. *)
Definition held (i : Z) (m : MessageModel) (s : db) : Prop :=
  (msgs s !! i = None \/ msgs s !! i = Some m) /\ i <= max_id s.(messages).

(** A request that neither comes after the message is visible again nor updates
    it with its pop receipt. *)
Definition respects (m : MessageModel) (q : request) : Prop :=
  match q with
  | GetMessages _ _ _ _ _ qd now _ => default now qd < m.(timeNextVisible)
  | UpdateMessage u pr _ _ =>
      is_message u.(u_accountName) u.(u_queueName) u.(u_messageId) m = true -> pr <> m.(popReceipt)
  | _ => True
  end.

Lemma held_without p i m s : held i m s -> held i m (without p s).
Proof.
  intros [Hi Hmax]. split.
  - rewrite msgs_without. destruct Hi as [->| ->]; [by left|]. by destruct (p m); [left|right].
  - unfold without. cbn. by rewrite max_remove_docs.
Qed.

Lemma held_hand_out vt pr ds a n t k i m s :
  delivery a n t k s ds -> t < m.(timeNextVisible) -> held i m s -> held i m (hand_out vt pr ds s).
Proof.
  intros Hd Ht [Hi Hmax]. split.
  - rewrite (msgs_hand_out vt pr ds s i a n t k Hd). destruct Hi as [->|Hi]; [by left|].
    rewrite Hi. right. rewrite bool_decide_eq_false_2; [done|]. intros Hin.
    apply (delivery_sound _ _ _ _ _ _ Hd) in Hin as [_ Hv]. unfold visible in Hv.
    apply andb_prop in Hv as [_ Hv%Z.leb_le]. lia.
  - unfold hand_out. cbn. rewrite max_update_docs; [done|].
    intros d Hin. apply list_elem_of_fmap in Hin as ([j m']&->&Hin). cbn.
    apply (delivery_sound _ _ _ _ _ _ Hd) in Hin as [Hj _]. by eexists.
Qed.

Lemma run_request_held i m s q : respects m q -> held i m s -> held i m (run_request s q).
Proof.
  intros Hr Hh. destruct q as [q r|a n r|a n acl r|a n md r|m' r|a n num qd now r|a n vt pr num qd now r
                           |a n id pr now r|u pr now r|a n r]; cbn [run_request respects] in *.
  - unfold createQueue. run. by destruct (findOne _ _) as [[j d]|].
  - unfold deleteQueue. run. destruct (find_queue_cases a n r s) as [(j&q&->&_)|[-> _]]; [|done].
    by apply held_without.
  - unfold setQueueACL. run. by destruct (find_queue_cases a n r s) as [(j&q&->&_)|[-> _]].
  - unfold setQueueMetadata. run. by destruct (find_queue_cases a n r s) as [(j&q&->&_)|[-> _]].
  - destruct (insert_runs m' r s) as [->|[_ ->]]; [done|]. destruct Hh as [Hi Hmax].
    unfold held, msgs. cbn. rewrite docs_insert, max_insert, lookup_insert_ne by lia.
    split; [done|lia].
  - by destruct (peek_runs a n num qd now r s) as [->| ->]; [|apply held_without].
  - destruct (get_runs a n vt pr num qd now r s) as [->|(k&ds&Hd&->)]; [done|].
    eapply held_hand_out; [done|done|by apply held_without].
  - destruct (delete_runs a n id pr now r s) as [->|[->|[j ->]]]; [done|by apply held_without|].
    apply (held_without (expired a n now)) in Hh as [Hi Hmax]. unfold held, msgs in *. cbn in *.
    rewrite docs_remove, max_remove. split; [|done].
    destruct (decide (j = i)) as [->|]; [left; by rewrite lookup_delete_eq|].
    by rewrite lookup_delete_ne.
  - pose proof (held_without (expired u.(u_accountName) u.(u_queueName) now) _ _ _ Hh) as Hh1.
    destruct (update_runs u pr now r s) as [->|[->|(j&m'&Hj&Hpr&Hm&->)]]; [done|done|].
    destruct Hh1 as [Hi Hmax]. unfold held, msgs in *. cbn in *.
    rewrite docs_update, max_update by by eexists. split; [|done].
    rewrite lookup_insert_ne; [done|]. intros ->.
    destruct Hi as [Hi|Hi]; rewrite Hi in Hj; [done|]. injection Hj as <-. by apply Hr.
  - by destruct (clear_messages_runs a n r s) as [->| ->]; [|apply held_without].
Qed.

Lemma run_requests_held i m l s : Forall (respects m) l -> held i m s -> held i m (run_requests s l).
Proof.
  intros Hl. revert s. induction Hl as [|q l Hq _ IH]; intros s Hh; [done|].
  by apply IH, run_request_held.
Qed.

(** ** The properties *)

(** Whatever requests a store of queues serves from the empty database on,
    failed ones included, there is one document for each queue and every message
    belongs to a queue that exists. *)
Theorem store_invariant s l :
  qs s = ∅ -> msgs s = ∅ -> store_ok (run_requests s l).
Proof.
  intros Hq Hm. assert (H1 : store_ok s).
  { unfold store_ok. rewrite Hq, Hm. split; intros *; rewrite lookup_empty; done. }
  clear Hq Hm. revert s H1. induction l as [|q l IH]; intros s Hs; [done|].
  by apply IH, run_request_ok.
Qed.

(** A dequeue on a queue that exists removes the expired messages of the
    queue, then delivers the earliest visible ones, at most the number asked for
    and all of them if there are fewer; each is returned with the new pop receipt,
    the new visibility time and its dequeue count raised by one, and stored so;
    every other message is untouched. *)
Theorem getMessages_delivers a n vt pr num qd now r s :
  has_queue a n s ->
  exists ds s', getMessages a n vt pr num qd now r s = (Ok (dequeued vt pr <$> ds.*2), s') /\
    delivery a n (default now qd) (Z.max 1 (default 1 num)) (without (expired a n now) s) ds /\
    qs s' = qs s /\
    forall i, msgs s' !! i =
      match msgs s !! i with
      | Some m => if expired a n now m then None
                  else Some (if bool_decide ((i, m) ∈ ds) then dequeued vt pr m else m)
      | None => None
      end.
Proof.
  intros Hq. rewrite (getMessages_runs a n vt pr num qd now r s Hq).
  replace (match num with Some k => if k <? 1 then 1 else k | None => 1 end)
    with (Z.max 1 (default 1 num)).
  2: { destruct num as [k|]; cbn; [|done]. destruct (Z.ltb_spec k 1); lia. }
  set (s1 := without (expired a n now) s).
  pose proof (visible_docs_delivery a n (default now qd) (Z.max 1 (default 1 num)) s1) as Hd.
  eexists _, _. split; [done|]. split; [exact Hd|]. split; [done|]. intros i.
  rewrite (msgs_hand_out vt pr _ s1 i _ _ _ _ Hd). unfold s1 at 1. rewrite msgs_without.
  destruct (msgs s !! i) as [m|]; [|done]. by destruct (expired a n now m).
Qed.

(** No two messages with one id. *)
Definition unique_ids (s : db) : Prop :=
  forall i j m m', msgs s !! i = Some m -> msgs s !! j = Some m' ->
    m.(messageId) = m'.(messageId) -> i = j.

(** A delivered message is locked: through any later requests, as long as
    no dequeue comes at or after its visibility time and no update presents its
    pop receipt, its document is unchanged or gone, and while it is there no
    dequeue before that time delivers a message with its id. *)
Theorem store_message_locked a n vt pr num qd now r s ms s1 m l :
  getMessages a n vt pr num qd now r s = (Ok ms, s1) -> m ∈ ms ->
  Forall (respects m) l -> unique_ids (run_requests s1 l) ->
  exists i, msgs (run_requests s1 l) !! i = None \/
    (msgs (run_requests s1 l) !! i = Some m /\
     forall a2 n2 vt2 pr2 num2 t2 now2 r2 ms2 s2,
       getMessages a2 n2 vt2 pr2 num2 (Some t2) now2 r2 (run_requests s1 l) = (Ok ms2, s2) ->
       t2 < vt -> forall m2, m2 ∈ ms2 -> m2.(messageId) <> m.(messageId)).
Proof.
  intros Hget Hm Hl Hu.
  destruct (check_cases a n r s) as [[_ Hq]|[Hc _]].
  2: { unfold getMessages in Hget. revert Hget. run. by rewrite Hc. }
  rewrite (getMessages_runs a n vt pr num qd now r s Hq) in Hget. injection Hget as <- <-.
  set (s0 := without (expired a n now) s) in *.
  set (k := match num with Some k => if k <? 1 then 1 else k | None => 1 end) in *.
  pose proof (visible_docs_delivery a n (default now qd) k s0) as Hd.
  set (ds := visible_docs a n (default now qd) k s0) in *. clearbody ds.
  apply list_elem_of_fmap in Hm as (m0&->&Hm0). apply list_elem_of_fmap in Hm0 as ([i m1]&->&Hin).
  cbn in *. destruct (delivery_sound _ _ _ _ _ _ Hd _ _ Hin) as [Hi _].
  assert (Hheld : held i (dequeued vt pr m1) (hand_out vt pr ds s0)).
  { assert (Hi' : msgs (hand_out vt pr ds s0) !! i = Some (dequeued vt pr m1)).
    { rewrite (msgs_hand_out vt pr ds s0 i _ _ _ _ Hd), Hi. by rewrite bool_decide_eq_true_2. }
    split; [by right|]. apply docs_max. by eexists. }
  apply (run_requests_held _ _ l) in Hheld; [|done]. destruct Hheld as [[Hnone|Hsome] _].
  { exists i. by left. }
  exists i. right. split; [done|]. intros a2 n2 vt2 pr2 num2 t2 now2 r2 ms2 s2 Hget2 Ht2 m2 Hm2 Heq.
  set (sl := run_requests _ l) in *. clearbody sl.
  destruct (check_cases a2 n2 r2 sl) as [[_ Hq2]|[Hc _]].
  2: { unfold getMessages in Hget2. revert Hget2. run. by rewrite Hc. }
  rewrite (getMessages_runs a2 n2 vt2 pr2 num2 (Some t2) now2 r2 sl Hq2) in Hget2.
  injection Hget2 as <- <-.
  apply list_elem_of_fmap in Hm2 as (m3&->&Hm3). apply list_elem_of_fmap in Hm3 as ([j m4]&->&Hin2).
  apply (delivery_sound _ _ _ _ _ _ (visible_docs_delivery _ _ _ _ _)) in Hin2 as [Hj Hv].
  rewrite msgs_without in Hj. destruct (msgs sl !! j) as [m5|] eqn:Hj'; [|done].
  destruct (expired _ _ _ m5); [done|]. injection Hj as ->.
  assert (j = i) as -> by by apply (Hu j i m4 (dequeued vt pr m1)).
  rewrite Hsome in Hj'. injection Hj' as <-. unfold visible in Hv. cbn in Hv.
  apply andb_prop in Hv as [_ Hv%Z.leb_le]. lia.
Qed.

(** A message is only deleted with its current pop receipt: with it, that
    document alone disappears (besides the expired ones); with any other the
    answer is 400 PopReceiptMismatch and the message stays. *)
Theorem deleteMessage_receipt a n id pr now r s i m :
  has_queue a n s -> unique_ids s -> msgs s !! i = Some m ->
  is_message a n id m = true -> expired a n now m = false ->
  let s1 := without (expired a n now) s in
  if pr === m.(popReceipt) then
    exists s', deleteMessage a n id pr now r s = (Ok tt, s') /\ msgs s' = delete i (msgs s1)
  else deleteMessage a n id pr now r s = (Throw (QueueErrors.getPopReceiptMismatch r), s1).
Proof.
  intros Hq Hu Hi Hm He s1.
  assert (Hi1 : msgs s1 !! i = Some m) by (unfold s1; by rewrite msgs_without, Hi, He).
  unfold deleteMessage.
  match goal with |- context [(_ ← _; _ ← _; ?k) s] => destruct (prologue a n now r k s) as [[_ ->]|[? _]] end;
    [|done].
  fold s1. run. unfold find_message. run.
  destruct (findOne (is_message a n id) s1.(messages)) as [[j mj]|] eqn:Hf.
  2: { pose proof (findOne_None _ _ Hf i m Hi1). congruence. }
  apply findOne_Some in Hf as [Hj Hmj].
  assert (j = i) as ->.
  { unfold s1 in Hj. change (docs (messages (without (expired a n now) s)) !! j)
      with (msgs (without (expired a n now) s) !! j) in Hj. rewrite msgs_without in Hj.
    destruct (msgs s !! j) as [m'|] eqn:Hj'; [|done]. destruct (expired a n now m'); [done|].
    injection Hj as ->. apply (Hu j i mj m); [done..|]. unfold is_message in *.
    apply andb_prop in Hm as [_ ->%bool_decide_eq_true].
    by apply andb_prop in Hmj as [_ ->%bool_decide_eq_true]. }
  assert (mj = m) as -> by (unfold msgs in Hi1; congruence). cbn.
  destruct (decide (m.(popReceipt) = pr)) as [<-|Hne].
  - rewrite !bool_decide_eq_true_2 by done. eexists. split; [done|]. unfold msgs. cbn.
    apply docs_remove.
  - rewrite !bool_decide_eq_false_2 by congruence. done.
Qed.

(** Deleting a queue removes its document and all its messages, and nothing
    else; a queue created again under the name starts empty. *)
Theorem deleteQueue_removes_messages a n r s :
  store_ok s -> has_queue a n s ->
  exists s', deleteQueue a n r s = (Ok tt, s') /\ ~ has_queue a n s' /\
    (forall a' n', (a', n') <> (a, n) -> has_queue a' n' s -> has_queue a' n' s') /\
    forall i, msgs s' !! i = match msgs s !! i with
                             | Some m => if in_queue a n m then None else Some m
                             | None => None
                             end.
Proof.
  intros [Hu _] Hq. unfold deleteQueue. run.
  destruct (find_queue_cases a n r s) as [(i&q&->&Hi&Hiq)|[_ ?]]; [|done].
  eexists. split; [done|]. split_and!.
  - intros (j&p&Hj&Hp). unfold qs in Hj. cbn in Hj. rewrite docs_remove in Hj.
    apply lookup_delete_Some in Hj as [Hne Hj]. apply Hne. by apply (Hu i j q p a n).
  - intros a' n' Hne (j&p&Hj&Hp). exists j, p. split; [|done]. unfold qs. cbn.
    rewrite docs_remove, lookup_delete_ne; [done|]. intros ->. apply Hne.
    assert (p = q) as -> by congruence. unfold is_queue in *.
    apply andb_prop in Hp as [<-%bool_decide_eq_true <-%bool_decide_eq_true].
    by apply andb_prop in Hiq as [->%bool_decide_eq_true ->%bool_decide_eq_true].
  - intros j. apply (msgs_without (in_queue a n) (set_queues _ s)).
Qed.

(** Creating a queue: 201 and a new document if the name is free; if it is
    taken nothing changes, and the answer is 204 when the metadata are the same
    up to the case of the names (or both absent), 409 otherwise. *)
Theorem createQueue_decision q r s :
  (~ has_queue q.(q_accountName) q.(q_name) s ->
   exists i s', createQueue q r s = (Ok CREATED, s') /\ qs s !! i = None /\
     qs s' = <[i := q]> (qs s) /\ msgs s' = msgs s) /\
  (forall i d, store_ok s -> qs s !! i = Some d -> is_queue q.(q_accountName) q.(q_name) d = true ->
   from_option plain True q.(q_metadata) -> from_option plain True d.(q_metadata) ->
   createQueue q r s
   = (if bool_decide (lower_map <$> q.(q_metadata) = lower_map <$> d.(q_metadata)) then Ok NOCONTENT
      else Throw (QueueErrors.getQueueAlreadyExists r), s)).
Proof.
  split.
  - intros Hno. unfold createQueue. run.
    destruct (findOne _ _) as [[i d]|] eqn:Hf.
    { apply findOne_Some in Hf as [??]. destruct Hno. by exists i, d. }
    exists (max_id s.(queues) + 1). eexists. split; [done|]. split; [|split; [|done]].
    + destruct (qs s !! _) as [p|] eqn:Hp; [|done]. exfalso.
      pose proof (docs_max s.(queues) _ (ex_intro _ p Hp)). lia.
    + apply docs_insert.
  - intros i d [Hu _] Hi Hd Hpq Hpd. unfold createQueue. run.
    destruct (findOne _ _) as [[j d']|] eqn:Hf.
    + apply findOne_Some in Hf as [Hj Hd']. assert (j = i) as -> by exact (Hu j i d' d _ _ Hj Hi Hd' Hd).
      assert (d' = d) as -> by (unfold qs in Hi; congruence).
      by rewrite same_metadata_decision.
    + pose proof (findOne_None _ _ Hf i d Hi). congruence.
Qed.

End Spec.

(** ** Witnesses *)

Definition empty_db : QueueDb map_coll unit := mkQueueDb (∅, 0) (∅, 0) (∅, 0).

Definition sample_queue : QueueModel := mkQueueModel "acc" "q" None (Some [("Owner", "me")]%string).
Definition sample_message : MessageModel :=
  mkMessageModel "acc" "q" "id1" "r0" 1000 (mkChunk "e" 0 5) 1000 90000 0.

Definition sample_db : QueueDb map_coll unit :=
  run_requests empty_db [CreateQueue sample_queue None; InsertMessage sample_message None].

Lemma sample_has_queue : has_queue "acc" "q" sample_db.
Proof. exists 1, sample_queue. split; vm_compute; reflexivity. Qed.

Lemma sample_msgs : msgs sample_db = {[1 := sample_message]}.
Proof. vm_compute. reflexivity. Qed.

Lemma unique_singleton (s : QueueDb map_coll unit) i m : msgs s = {[i := m]} -> unique_ids s.
Proof.
  intros Hs j k x y. rewrite Hs.
  by intros [<- _]%lookup_singleton_Some [<- _]%lookup_singleton_Some.
Qed.

Lemma store_invariant_witness :
  store_ok (run_requests empty_db [CreateQueue sample_queue None; InsertMessage sample_message None;
                                   DeleteQueue "acc" "q" None; InsertMessage sample_message None]).
Proof. apply (store_invariant empty_db); vm_compute; reflexivity. Defined.

Lemma getMessages_delivers_witness :
  exists ds s', getMessages "acc" "q" 31000 "r1" (Some 5) (Some 2000) 2000 None sample_db
                = (Ok (dequeued 31000 "r1" <$> ds.*2), s') /\
    delivery "acc" "q" 2000 5 (without (expired "acc" "q" 2000) sample_db) ds /\
    qs s' = qs sample_db /\
    forall i, msgs s' !! i =
      match msgs sample_db !! i with
      | Some m => if expired "acc" "q" 2000 m then None
                  else Some (if bool_decide ((i, m) ∈ ds) then dequeued 31000 "r1" m else m)
      | None => None
      end.
Proof.
  apply (getMessages_delivers "acc" "q" 31000 "r1" (Some 5) (Some 2000) 2000 None sample_db).
  exact sample_has_queue.
Defined.

Definition sample_locked : MessageModel := dequeued 31000 "r1" sample_message.

Definition sample_dequeued : QueueDb map_coll unit :=
  (getMessages "acc" "q" 31000 "r1" None (Some 2000) 2000 None sample_db).2.

Definition sample_later : list request :=
  [PeekMessages "acc" "q" None None 5000 None;
   GetMessages "acc" "q" 60000 "r2" (Some 32) (Some 30000) 30000 None].

Lemma store_message_locked_witness :
  exists i, msgs (run_requests sample_dequeued sample_later) !! i = None \/
    (msgs (run_requests sample_dequeued sample_later) !! i = Some sample_locked /\
     forall a2 n2 vt2 pr2 num2 t2 now2 r2 ms2 s2,
       getMessages a2 n2 vt2 pr2 num2 (Some t2) now2 r2 (run_requests sample_dequeued sample_later)
       = (Ok ms2, s2) ->
       t2 < 31000 -> forall m2, m2 ∈ ms2 -> m2.(messageId) <> sample_locked.(messageId)).
Proof.
  apply (store_message_locked "acc" "q" 31000 "r1" None (Some 2000) 2000 None sample_db
           [sample_locked] sample_dequeued sample_locked sample_later).
  - vm_compute. reflexivity.
  - left.
  - repeat constructor.
  - apply (unique_singleton _ 1 sample_locked). vm_compute. reflexivity.
Defined.

Lemma deleteMessage_receipt_witness :
  deleteMessage "acc" "q" "id1" "stale" 2000 None sample_db
  = (Throw (QueueErrors.getPopReceiptMismatch None), without (expired "acc" "q" 2000) sample_db).
Proof.
  apply (deleteMessage_receipt "acc" "q" "id1" "stale" 2000 None sample_db 1 sample_message).
  - exact sample_has_queue.
  - apply (unique_singleton _ 1 sample_message). exact sample_msgs.
  - rewrite sample_msgs. apply lookup_singleton_eq.
  - reflexivity.
  - reflexivity.
Defined.

Lemma deleteQueue_removes_messages_witness :
  exists s', deleteQueue "acc" "q" None sample_db = (Ok tt, s') /\ ~ has_queue "acc" "q" s' /\
    (forall a' n', (a', n') <> ("acc", "q")%string -> has_queue a' n' sample_db -> has_queue a' n' s') /\
    forall i, msgs s' !! i = match msgs sample_db !! i with
                             | Some m => if in_queue "acc" "q" m then None else Some m
                             | None => None
                             end.
Proof.
  apply (deleteQueue_removes_messages "acc" "q" None sample_db); [|exact sample_has_queue].
  apply run_request_ok, run_request_ok. split; intros *; vm_compute; discriminate.
Defined.

Lemma createQueue_decision_witness :
  createQueue (mkQueueModel "acc" "q" None (Some [("owner", "me")]%string)) None sample_db
  = ((if bool_decide (lower_map <$> Some [("owner", "me")]%string
                      = lower_map <$> Some [("Owner", "me")]%string) then Ok NOCONTENT
      else Throw (QueueErrors.getQueueAlreadyExists None)), sample_db).
Proof.
  apply (proj2 (createQueue_decision (mkQueueModel "acc" "q" None (Some [("owner", "me")]%string)) None sample_db)
           1 sample_queue).
  - apply run_request_ok, run_request_ok. split; intros *; vm_compute; discriminate.
  - vm_compute. reflexivity.
  - vm_compute. reflexivity.
  - split; [vm_compute; repeat constructor; set_solver|reflexivity].
  - split; [vm_compute; repeat constructor; set_solver|reflexivity].
Defined.

(** ** What the model shows *)

(** The pages of [listQueues] are sorted by name while the marker is an id: with
    the queues [b] and [a], created in this order, the first page of one queue
    is [a] with the marker 0, and the marker 0 gives the same page again. *)
Definition two_queues : QueueDb map_coll unit :=
  run_requests empty_db [CreateQueue (mkQueueModel "acc" "b" None None) None;
                         CreateQueue (mkQueueModel "acc" "a" None None) None].

Lemma listQueues_repeats_page :
  (listQueues "acc" "" 1 0 two_queues).1 = Ok ([mkQueueModel "acc" "a" None None], Some 0).
Proof. vm_compute. reflexivity. Qed.
