(* ===== verification/Conditions.v ===== *)
(** * Conditions: the conditional headers of the blob service

    src/src/blob/conditions: the adapter that reads the headers of a request
    ([ConditionalHeadersAdapter]), the adapter that reads the container or blob
    they are checked against ([ConditionResourceAdapter]), the two validators
    and the check of the sequence number of a page blob.

    A [Date] is its number of milliseconds since the epoch. *)

From S2P Require Import Prelude Errors TagQuery.
Open Scope Z_scope.
Open Scope azurite_scope.

(** ** The headers *)

Record ModifiedAccessConditions := mkModifiedAccessConditions {
  mac_ifModifiedSince : option Z;
  mac_ifUnmodifiedSince : option Z;
  mac_ifMatch : option string;
  mac_ifNoneMatch : option string;
  mac_ifTags : option string
}.

(** The default [{}] of the adapter's parameter. *)
Definition noConditions : ModifiedAccessConditions :=
  mkModifiedAccessConditions None None None None None.

Record IConditionalHeaders := mkConditionalHeaders {
  ifModifiedSince : option Z;
  ifUnmodifiedSince : option Z;
  ifMatch : option (list string);
  ifNoneMatch : option (list string);
  ifTags : option string
}.

Definition double_quote : Ascii.ascii := Ascii.ascii_of_nat 34.

Definition startsWith (c : Ascii.ascii) (s : string) : bool :=
  bool_decide (String.get 0 s = Some c).
Definition endsWith (c : Ascii.ascii) (s : string) : bool :=
  bool_decide (String.get (String.length s - 1) s = Some c).

(** [if (etag.startsWith('"') && etag.endsWith('"')) substring(1, length - 1)];
    [substring(1, 0)] of a lone quote is [substring(0, 1)]. *)
Definition unquote (etag : string) : string :=
  if startsWith double_quote etag && endsWith double_quote etag then
    if Nat.eqb (String.length etag) 1 then etag
    else String.substring 1 (String.length etag - 2) etag
  else etag.

(** [s.split(",")]. *)
Fixpoint split_comma (s : string) : list string :=
  match s with
  | EmptyString => [EmptyString]
  | String c s' =>
      match split_comma s' with
      | w :: ws =>
          if c === Ascii.ascii_of_nat 44 then EmptyString :: w :: ws else String c w :: ws
      | [] => []
      end
  end.

(** [if (h) { h.split(",").map(...) }]: an empty header is no header. *)
Definition etag_list (h : option string) : option (list string) :=
  if nonempty h then Some (unquote <$> split_comma (default EmptyString h)) else None.

(** [date.setMilliseconds(0)]. *)
Definition to_seconds (ms : Z) : Z := ms - ms mod 1000.

Definition ConditionalHeadersAdapter (modifiedAccessConditions : option ModifiedAccessConditions) :
    IConditionalHeaders :=
  let c := default noConditions modifiedAccessConditions in
  mkConditionalHeaders
    (to_seconds <$> c.(mac_ifModifiedSince))
    (to_seconds <$> c.(mac_ifUnmodifiedSince))
    (etag_list c.(mac_ifMatch))
    (etag_list c.(mac_ifNoneMatch))
    c.(mac_ifTags).

(** ** The resource *)

(** The fields of a [BlobModel] or [ContainerModel] the adapter reads. *)
Record ConditionModel := mkConditionModel {
  isCommitted : option bool;
  model_etag : string;
  model_lastModified : Z;
  model_name : string;
  model_containerName : string;
  model_blobTags : option (list BlobTag)
}.

Record IConditionResource := mkConditionResource {
  exist : bool;
  etag : string;
  lastModified : option Z;
  blobItemWithTags : option FilterBlobModel
}.

Definition nonexistent : IConditionResource :=
  mkConditionResource false "NONEXISTENT_RESOURCE_ETAG" None None.

Definition ConditionResourceAdapter (resource : option ConditionModel) : res IConditionResource :=
  match resource with
  | None => Ok nonexistent
  | Some r =>
      if r.(isCommitted) === Some false then Ok nonexistent else
      throw_when (Nat.ltb (String.length r.(model_etag)) 3) JsError;;
      Ok (mkConditionResource true (unquote r.(model_etag))
            (Some (to_seconds r.(model_lastModified)))
            (Some (mkFilterBlobModel r.(model_containerName) r.(model_blobTags))))
  end.

(** ** The validators *)

(** [headers && headers.length > 0]. *)
Definition given (h : option (list string)) : bool :=
  match h with Some (_ :: _) => true | _ => false end.
Definition first_is (h : option (list string)) (e : string) : bool :=
  bool_decide (h ≫= head = Some e).
Definition is_wildcard (h : option (list string)) : bool := first_is h "*".

(** A comparison of dates whose left or right side may be [undefined] is false. *)
Definition date_le (a b : option Z) : bool :=
  match a, b with Some a, Some b => a <=? b | _, _ => false end.
Definition date_lt (a b : option Z) : bool :=
  match a, b with Some a, Some b => a <? b | _, _ => false end.

(** [if (conditionalHeaders.ifTags) ...], in both validators. *)
Definition validate_ifTags (contextId : option string) (tags : option string) (header : string) (resource : IConditionResource) :
    res unit :=
  if nonempty tags then
    validateFunction ← generateQueryBlobWithTagsWhereFunction contextId tags (Some header);
    match resource.(blobItemWithTags) with
    | None => Throw TypeError
    | Some item =>
        matched ← validateFunction item;
        throw_when (Nat.eqb (length matched) 0) (BlobErrors.getConditionNotMet contextId);;
        Ok tt
    end
  else Ok tt.

Module ReadConditionalHeadersValidator.

Definition validate (contextId : option string) (conditionalHeaders : IConditionalHeaders) (resource : IConditionResource)
    (isSourceBlob : option bool) : res unit :=
  let h := conditionalHeaders in
  if negb resource.(exist) then
    throw_when (given h.(ifMatch)) (BlobErrors.getConditionNotMet contextId);;
    throw_when (given h.(ifNoneMatch) && is_wildcard h.(ifNoneMatch))
      (BlobErrors.getUnsatisfiableCondition contextId);;
    Ok tt
  else
    let ifMatchPass :=
      (fun l => bool_decide (resource.(etag) ∈ l) || is_wildcard (Some l)) <$> h.(ifMatch) in
    let ifUnModifiedSincePass :=
      (fun d => date_le resource.(lastModified) (Some d)) <$> h.(ifUnmodifiedSince) in
    throw_when (given h.(ifNoneMatch) && is_wildcard h.(ifNoneMatch))
      (BlobErrors.getUnsatisfiableCondition contextId);;
    let ifNoneMatchPass :=
      (fun l => negb (bool_decide (resource.(etag) ∈ l))) <$> h.(ifNoneMatch) in
    let isModifiedSincePass :=
      (fun d => date_lt (Some d) resource.(lastModified)) <$> h.(ifModifiedSince) in
    throw_when (ifMatchPass === Some false) (BlobErrors.getConditionNotMet contextId);;
    throw_when (ifUnModifiedSincePass === Some false) (BlobErrors.getConditionNotMet contextId);;
    throw_when ((ifNoneMatchPass === Some false) && (isModifiedSincePass !== Some true))
      (BlobErrors.getNotModified contextId);;
    throw_when ((isModifiedSincePass === Some false) && (ifNoneMatchPass !== Some true))
      (BlobErrors.getNotModified contextId);;
    validate_ifTags contextId h.(ifTags)
      (if default false isSourceBlob then "x-ms-source-if-tags" else "x-ms-if-tags") resource.

End ReadConditionalHeadersValidator.

Module WriteConditionalHeadersValidator.

Definition validateCombinations (contextId : option string) (h : IConditionalHeaders) : res unit :=
  let multiple := BlobErrors.getMultipleConditionHeadersNotSupported contextId in
  let one (b : bool) : Z := if b then 1 else 0 in
  throw_when (given h.(ifMatch) && Nat.ltb 1 (length (default [] h.(ifMatch)))) multiple;;
  let ifMatch := one (given h.(ifMatch)) in
  let ifModifiedSince := one (defined h.(ifModifiedSince)) in
  throw_when (given h.(ifNoneMatch) && Nat.ltb 1 (length (default [] h.(ifNoneMatch)))) multiple;;
  let ifNoneMatch := one (given h.(ifNoneMatch)) in
  let ifUnmodifiedSince := one (defined h.(ifUnmodifiedSince)) in
  throw_when (2 <? ifMatch + ifModifiedSince + ifNoneMatch + ifUnmodifiedSince) multiple;;
  throw_when ((ifMatch + ifModifiedSince + ifNoneMatch + ifUnmodifiedSince =? 2)
              && (ifNoneMatch + ifModifiedSince =? 1)) multiple;;
  Ok tt.

Definition validate (contextId : option string) (conditionalHeaders : IConditionalHeaders) (resource : IConditionResource) :
    res unit :=
  let h := conditionalHeaders in
  _ ← validateCombinations contextId h;
  if negb resource.(exist) then
    if given h.(ifNoneMatch) then Ok tt
    else if given h.(ifMatch) then
      throw_when (negb (is_wildcard h.(ifMatch))) (BlobErrors.getConditionNotMet contextId);;
      Ok tt
    else Ok tt
  else if given h.(ifNoneMatch) then
    if is_wildcard h.(ifNoneMatch) then Ok tt
    else
      throw_when (first_is h.(ifNoneMatch) resource.(etag)) (BlobErrors.getConditionNotMet contextId);;
      Ok tt
  else if given h.(ifMatch) then
    throw_when (negb (is_wildcard h.(ifMatch)) && negb (first_is h.(ifMatch) resource.(etag)))
      (BlobErrors.getConditionNotMet contextId);;
    Ok tt
  else if defined h.(ifModifiedSince) then
    throw_when (date_le resource.(lastModified) h.(ifModifiedSince))
      (BlobErrors.getConditionNotMet contextId);;
    Ok tt
  else if defined h.(ifUnmodifiedSince) then
    throw_when (date_lt h.(ifUnmodifiedSince) resource.(lastModified))
      (BlobErrors.getConditionNotMet contextId);;
    Ok tt
  else validate_ifTags contextId h.(ifTags) "x-ms-if-tags" resource.

End WriteConditionalHeadersValidator.

(** ** The functions the services call *)

Definition validateReadConditions (contextId : option string) (conditionalHeaders : option ModifiedAccessConditions)
    (model : option ConditionModel) (isSourceBlob : option bool) : res unit :=
  resource ← ConditionResourceAdapter model;
  ReadConditionalHeadersValidator.validate contextId (ConditionalHeadersAdapter conditionalHeaders)
    resource isSourceBlob.

Definition validateWriteConditions (contextId : option string) (conditionalHeaders : option ModifiedAccessConditions)
    (model : option ConditionModel) : res unit :=
  resource ← ConditionResourceAdapter model;
  WriteConditionalHeadersValidator.validate contextId (ConditionalHeadersAdapter conditionalHeaders) resource.

Record SequenceNumberAccessConditions := mkSequenceNumberAccessConditions {
  ifSequenceNumberLessThanOrEqualTo : option Z;
  ifSequenceNumberLessThan : option Z;
  ifSequenceNumberEqualTo : option Z
}.

(** The model is given by its [properties.blobSequenceNumber]. *)
Definition validateSequenceNumberWriteConditions (contextId : option string)
    (conditionalHeaders : option SequenceNumberAccessConditions)
    (model : option (option Z)) : res unit :=
  match conditionalHeaders, model with
  | Some c, Some sequence =>
      match sequence with
      | None => Throw JsError
      | Some n =>
          throw_when (match c.(ifSequenceNumberLessThanOrEqualTo) with
                      | Some k => k <? n | None => false end)
            (BlobErrors.getSequenceNumberConditionNotMet contextId);;
          throw_when (match c.(ifSequenceNumberLessThan) with
                      | Some k => k <=? n | None => false end)
            (BlobErrors.getSequenceNumberConditionNotMet contextId);;
          throw_when (match c.(ifSequenceNumberEqualTo) with
                      | Some k => negb (k =? n) | None => false end)
            (BlobErrors.getSequenceNumberConditionNotMet contextId);;
          Ok tt
      end
  | _, _ => Ok tt
  end.

(** * What the conditional headers decide

    The decision of the read conditions as a formula over the headers, the
    combinations a write may carry, optimistic concurrency with ETags, the
    sequence number conditions, and the errors the checks can end in. *)

From S2P Require Import Prelude Errors TagQuery TagQuerySpec.
Open Scope Z_scope.
Open Scope azurite_scope.

(** ** Lemmas on the adapters *)

Definition no_comma (s : string) : Prop := ~ (Ascii.ascii_of_nat 44 ∈ String.list_ascii_of_string s).

Lemma split_comma_single s : no_comma s -> split_comma s = [s].
Proof.
  unfold no_comma. induction s as [|c s IH]; [done|]. cbn. intros Hc.
  rewrite IH by set_solver. by rewrite bool_decide_eq_false_2 by set_solver.
Qed.

Lemma split_comma_cons s : exists w ws, split_comma s = w :: ws.
Proof.
  induction s as [|c s (w&ws&IH)]; cbn; [by eexists _, _|]. rewrite IH.
  case_bool_decide; by eexists _, _.
Qed.

(** A header is absent or lists at least one etag. *)
Lemma etag_list_given h : given (etag_list h) = defined (etag_list h).
Proof.
  unfold etag_list. destruct (nonempty h); [|done].
  by destruct (split_comma_cons (default EmptyString h)) as (w&ws&->).
Qed.

Lemma etag_list_single s : s <> EmptyString -> no_comma s -> etag_list (Some s) = Some [unquote s].
Proof.
  intros Hs Hc. unfold etag_list. cbn [default id]. rewrite (split_comma_single s Hc).
  by destruct s.
Qed.

Lemma to_seconds_le a b : (to_seconds a <=? to_seconds b) = (a / 1000 <=? b / 1000).
Proof.
  unfold to_seconds. rewrite !Z.mod_eq by done.
  destruct (Z.leb_spec (a / 1000) (b / 1000)), (Z.leb_spec (a - (a - 1000 * (a / 1000))) (b - (b - 1000 * (b / 1000)))); lia.
Qed.

Lemma to_seconds_lt a b : (to_seconds a <? to_seconds b) = (a / 1000 <? b / 1000).
Proof. rewrite !Z.ltb_antisym. by rewrite to_seconds_le. Qed.

(** A committed model with an etag the adapter accepts. *)
Definition live (r : ConditionModel) : Prop :=
  r.(isCommitted) <> Some false /\ (3 <= String.length r.(model_etag))%nat.

Definition resource_of (r : ConditionModel) : IConditionResource :=
  mkConditionResource true (unquote r.(model_etag)) (Some (to_seconds r.(model_lastModified)))
    (Some (mkFilterBlobModel r.(model_containerName) r.(model_blobTags))).

Lemma adapter_live r : live r -> ConditionResourceAdapter (Some r) = Ok (resource_of r).
Proof.
  intros [Hc He]. unfold ConditionResourceAdapter. rewrite bool_decide_eq_false_2 by done.
  by destruct (Nat.ltb_spec (String.length r.(model_etag)) 3); [lia|].
Qed.

(** ** The read conditions *)

(** Each condition as a predicate on the header and the model; dates are
    compared in seconds. *)
Definition match_holds (h : option string) (r : ConditionModel) : bool :=
  match etag_list h with
  | Some l => bool_decide (unquote r.(model_etag) ∈ l) || is_wildcard (Some l)
  | None => true
  end.
Definition unmodified_holds (d : option Z) (r : ConditionModel) : bool :=
  match d with Some d => r.(model_lastModified) / 1000 <=? d / 1000 | None => true end.

(** If-None-Match and If-Modified-Since: [None] when the header is absent. *)
Definition none_match (h : option string) (r : ConditionModel) : option bool :=
  (fun l => negb (bool_decide (unquote r.(model_etag) ∈ l))) <$> etag_list h.
Definition modified (d : option Z) (r : ConditionModel) : option bool :=
  (fun d => d / 1000 <? r.(model_lastModified) / 1000) <$> d.

(** At least one of the conditions that are present holds. *)
Definition either_holds (a b : option bool) : bool :=
  match a, b with
  | None, None => true
  | Some a, None | None, Some a => a
  | Some a, Some b => a || b
  end.

Definition read_decision (contextId : option string) (c : ModifiedAccessConditions)
    (r : ConditionModel) (isSourceBlob : option bool) : res unit :=
  if is_wildcard (etag_list c.(mac_ifNoneMatch))
  then Throw (BlobErrors.getUnsatisfiableCondition contextId)
  else if negb (match_holds c.(mac_ifMatch) r && unmodified_holds c.(mac_ifUnmodifiedSince) r)
  then Throw (BlobErrors.getConditionNotMet contextId)
  else if negb (either_holds (none_match c.(mac_ifNoneMatch) r) (modified c.(mac_ifModifiedSince) r))
  then Throw (BlobErrors.getNotModified contextId)
  else validate_ifTags contextId c.(mac_ifTags)
         (if default false isSourceBlob then "x-ms-source-if-tags" else "x-ms-if-tags")
         (resource_of r).

(** A read of an existing resource is allowed exactly when If-Match and
    If-Unmodified-Since hold, one of If-None-Match and If-Modified-Since holds
    if any is present, and the tags condition holds; the first two answer 412,
    the others 304, and If-None-Match: * answers 400. *)
Theorem read_conditions_decision contextId c r isSourceBlob :
  live r ->
  validateReadConditions contextId (Some c) (Some r) isSourceBlob
  = read_decision contextId c r isSourceBlob.
Proof.
  intros Hr. unfold validateReadConditions. rewrite (adapter_live r Hr). cbn [mbind result_bind].
  unfold ReadConditionalHeadersValidator.validate, read_decision, match_holds, unmodified_holds,
    none_match, modified. cbn [exist resource_of negb default ConditionalHeadersAdapter id
    ifMatch ifNoneMatch ifModifiedSince ifUnmodifiedSince ifTags etag lastModified].
  assert (Hw : given (etag_list c.(mac_ifNoneMatch)) && is_wildcard (etag_list c.(mac_ifNoneMatch))
               = is_wildcard (etag_list c.(mac_ifNoneMatch))).
  { rewrite etag_list_given. by destruct (etag_list c.(mac_ifNoneMatch)). }
  rewrite Hw. destruct (is_wildcard _); [done|].
  destruct (etag_list c.(mac_ifMatch)) as [lm|], (etag_list c.(mac_ifNoneMatch)) as [ln|],
    c.(mac_ifModifiedSince) as [dm|], c.(mac_ifUnmodifiedSince) as [du|];
    cbn -[to_seconds Z.div]; rewrite ?to_seconds_le, ?to_seconds_lt;
    repeat match goal with
    | |- context [bool_decide (?x ∈ ?l)] => destruct (bool_decide (x ∈ l))
    | |- context [is_wildcard ?l] => destruct (is_wildcard l)
    | |- context [?a <=? ?b] => destruct (a <=? b)
    | |- context [?a <? ?b] => destruct (a <? b)
    end; done.
Qed.

(** ** The write conditions *)

(** The combinations of headers a write may carry. *)
Definition allowed_combination (c : ModifiedAccessConditions) : bool :=
  let m := nonempty c.(mac_ifMatch) in
  let n := nonempty c.(mac_ifNoneMatch) in
  let md := defined c.(mac_ifModifiedSince) in
  let u := defined c.(mac_ifUnmodifiedSince) in
  let count := (Nat.b2n m + Nat.b2n n + Nat.b2n md + Nat.b2n u)%nat in
  Nat.leb count 1 || (n && md && negb m && negb u) || (m && u && negb n && negb md).

Definition single_etag (h : option string) : bool :=
  Nat.leb (length (default [] (etag_list h))) 1.

(** A write may carry one conditional header, or If-None-Match with
    If-Modified-Since, or If-Match with If-Unmodified-Since, each with one ETag;
    every other combination answers 400 whatever the resource is. *)
Theorem write_combinations contextId c :
  WriteConditionalHeadersValidator.validateCombinations contextId (ConditionalHeadersAdapter (Some c))
  = if single_etag c.(mac_ifMatch) && single_etag c.(mac_ifNoneMatch) && allowed_combination c
    then Ok tt else Throw (BlobErrors.getMultipleConditionHeadersNotSupported contextId).
Proof.
  unfold WriteConditionalHeadersValidator.validateCombinations, allowed_combination, single_etag.
  cbn [default id ConditionalHeadersAdapter ifMatch ifNoneMatch ifModifiedSince ifUnmodifiedSince].
  rewrite !etag_list_given.
  assert (Hn : forall h, defined (etag_list h) = nonempty h)
    by (intros h; unfold etag_list; by destruct (nonempty h)).
  rewrite !Hn.
  assert (Hl : forall h, nonempty h && Nat.ltb 1 (length (default [] (etag_list h)))
                         = negb (Nat.leb (length (default [] (etag_list h))) 1)).
  { intros h. unfold etag_list. destruct (nonempty h); [|done]. cbn [andb].
    apply Nat.ltb_antisym. }
  rewrite !Hl. destruct (Nat.leb _ 1), (Nat.leb _ 1); cbn [negb andb]; try done;
    destruct (nonempty _), (nonempty _), c.(mac_ifModifiedSince), c.(mac_ifUnmodifiedSince); done.
Qed.

(** Optimistic concurrency: a write with If-Match for one ETag passes
    exactly when the header is the wildcard or the current ETag (with its quotes
    or without), and answers 412 otherwise; so of two writers that read the same
    ETag, the second is refused once the first has changed it. *)
Theorem if_match_guards_write contextId e r :
  live r -> e <> EmptyString -> no_comma e ->
  validateWriteConditions contextId
    (Some (mkModifiedAccessConditions None None (Some e) None None)) (Some r)
  = if bool_decide (unquote e = "*"%string) || bool_decide (unquote e = unquote r.(model_etag))
    then Ok tt else Throw (BlobErrors.getConditionNotMet contextId).
Proof.
  intros Hr He Hc. unfold validateWriteConditions. rewrite (adapter_live r Hr). cbn [mbind result_bind].
  unfold WriteConditionalHeadersValidator.validate.
  unfold WriteConditionalHeadersValidator.validateCombinations, ConditionalHeadersAdapter.
  cbn [default id mac_ifMatch mac_ifNoneMatch]. rewrite (etag_list_single e He Hc). cbn.
  unfold first_is, is_wildcard, first_is. cbn.
  assert (Hs : forall s, bool_decide (Some (unquote e) = Some s) = bool_decide (unquote e = s))
    by (intros s; apply bool_decide_ext; naive_solver).
  rewrite !Hs. by destruct (bool_decide _), (bool_decide _).
Qed.

(** ** The errors *)

(** The exceptions a failed condition may end in. *)
Definition condition_error (e : exn) : Prop :=
  http_status e = 304 \/ http_status e = 400 \/ http_status e = 412.

Lemma ifTags_errors contextId tags header r :
  nonempty (Some header) = true ->
  match validate_ifTags contextId tags header (resource_of r) with
  | Ok _ => True | Throw e => condition_error e end.
Proof.
  intros Hh. unfold validate_ifTags. destruct tags as [q|]; [|done].
  destruct (nonempty (Some q)); [|done].
  unfold generateQueryBlobWithTagsWhereFunction. cbn [mbind result_bind].
  pose proof (parse_spec contextId (String.list_ascii_of_string q) (Some header)) as H.
  destruct (parseQuery _ _ _) as [t|e]; cbn [mbind result_bind].
  - destruct (_ =? 0); cbn [mbind result_bind]; [by right; left|].
    destruct H as [G _]. cbn [blobItemWithTags resource_of].
    destruct (evaluate_correct _ (query_context (mkFilterBlobModel (model_containerName r) (model_blobTags r))) t G)
      as (x&Hx&_).
    unfold executeQuery. rewrite Hx. cbn [mbind result_bind].
    destruct (Nat.eqb _ 0); [by right; right|done].
  - unfold parse_exn in H. rewrite Hh in H. subst e. by right; left.
Qed.

(** A model whose etag the adapter does not refuse. *)
Definition readable_resource (m : option ConditionModel) : Prop :=
  match m with
  | Some r => r.(isCommitted) = Some false \/ (3 <= String.length r.(model_etag))%nat
  | None => True
  end.

Lemma adapter_cases m :
  readable_resource m ->
  ConditionResourceAdapter m = Ok nonexistent \/
  exists r, m = Some r /\ ConditionResourceAdapter m = Ok (resource_of r).
Proof.
  destruct m as [r|]; [|by left]. cbn [readable_resource ConditionResourceAdapter]. intros Hr.
  case_bool_decide as Hc; [by left|]. right. exists r. split; [done|].
  destruct (Nat.ltb_spec (String.length r.(model_etag)) 3); [|done].
  destruct Hr; [done|lia].
Qed.

(** Checking conditions never ends in an internal error: whatever the
    headers and the tags, a refusal is a 304, a 400 or a 412. *)
Theorem conditions_errors contextId c m isSourceBlob :
  readable_resource m ->
  (forall e, validateReadConditions contextId c m isSourceBlob = Throw e -> condition_error e) /\
  (forall e, validateWriteConditions contextId c m = Throw e -> condition_error e).
Proof.
  intros Hm.
  assert (Htag : forall tags header r, nonempty (Some header) = true ->
    match validate_ifTags contextId tags header (resource_of r) with
    | Ok _ => True | Throw e => condition_error e end) by (intros; by apply ifTags_errors).
  assert (Hgen : forall x : res unit, match x with Ok _ => True | Throw e => condition_error e end ->
    forall e, x = Throw e -> condition_error e) by (by intros x Hx e ->).
  assert (Herr : forall n e, (n = 304 \/ n = 400 \/ n = 412) -> http_status e = n -> condition_error e).
  { intros n e Hn <-. exact Hn. }
  split; apply Hgen.
  - unfold validateReadConditions.
    destruct (adapter_cases m Hm) as [->|(r&->&->)]; cbn [mbind result_bind];
      unfold ReadConditionalHeadersValidator.validate; cbn [exist nonexistent resource_of negb].
    + repeat match goal with |- context [if ?b then Throw _ else _] => destruct b end;
        try done; by eapply Herr; [|reflexivity]; auto.
    + repeat match goal with |- context [if ?b then Throw _ else _] => destruct b end;
        try (by eapply Herr; [|reflexivity]; auto). apply Htag. by destruct (default _ _).
  - unfold validateWriteConditions.
    destruct (adapter_cases m Hm) as [->|(r&->&->)]; cbn [mbind result_bind];
      unfold WriteConditionalHeadersValidator.validate,
        WriteConditionalHeadersValidator.validateCombinations; cbn [exist nonexistent resource_of negb];
      repeat match goal with
      | |- context [if ?b then Throw _ else _] => destruct b; cbn [mbind result_bind]
      | |- context [if given ?b then _ else _] => destruct (given b)
      | |- context [if defined ?b then _ else _] => destruct (defined b)
      | |- context [if is_wildcard ?b then _ else _] => destruct (is_wildcard b)
      end; try done; try (by eapply Herr; [|reflexivity]; auto); by apply Htag.
Qed.

(** ** The sequence number *)

(** The sequence number conditions of a page blob pass exactly when each
    condition that is present holds of the blob's number; a failed one is a 412. *)
Theorem sequence_number_conditions contextId c n :
  validateSequenceNumberWriteConditions contextId (Some c) (Some (Some n))
  = if forallb id [from_option (Z.leb n) true c.(ifSequenceNumberLessThanOrEqualTo);
                   from_option (Z.ltb n) true c.(ifSequenceNumberLessThan);
                   from_option (Z.eqb n) true c.(ifSequenceNumberEqualTo)]
    then Ok tt else Throw (BlobErrors.getSequenceNumberConditionNotMet contextId).
Proof.
  destruct c as [[a|] [b|] [d|]]; cbn;
    rewrite ?(Z.eqb_sym n), ?(Z.ltb_antisym _ n), ?(Z.ltb_antisym n), ?(Z.leb_antisym _ n);
    repeat match goal with
    | |- context [?a <=? ?b] => destruct (Z.leb_spec a b)
    | |- context [?a <? ?b] => destruct (Z.ltb_spec a b)
    | |- context [?a =? ?b] => destruct (Z.eqb_spec a b)
    end; done || lia.
Qed.

(** ** Witnesses *)

Definition quoted_etag : string :=
  String double_quote (String.append "0x8D" (String double_quote EmptyString)).

Definition sample_model : ConditionModel :=
  mkConditionModel (Some true) quoted_etag 1700000000123 "b" "c"
    (Some [mkBlobTag "env" "prod"]).

Lemma sample_model_live : live sample_model.
Proof. split; [done|vm_compute; lia]. Qed.

Definition sample_conditions : ModifiedAccessConditions :=
  mkModifiedAccessConditions (Some 1700000000999) None None (Some quoted_etag) (Some "env = 'dev'"%string).

Lemma read_conditions_decision_witness :
  validateReadConditions None (Some sample_conditions) (Some sample_model) None
  = read_decision None sample_conditions sample_model None.
Proof. apply (read_conditions_decision None sample_conditions sample_model None). exact sample_model_live. Defined.

Lemma if_match_guards_write_witness :
  validateWriteConditions None
    (Some (mkModifiedAccessConditions None None (Some "0x8E"%string) None None)) (Some sample_model)
  = (if bool_decide (unquote "0x8E" = "*"%string)
        || bool_decide (unquote "0x8E" = unquote quoted_etag)
     then Ok tt else Throw (BlobErrors.getConditionNotMet None)).
Proof.
  apply (if_match_guards_write None "0x8E" sample_model); [exact sample_model_live|done|].
  unfold no_comma. cbn. intros H. repeat (apply elem_of_cons in H as [H|H]; [discriminate|]).
  by apply elem_of_nil in H.
Defined.

Lemma conditions_errors_witness :
  (forall e, validateReadConditions None (Some sample_conditions) (Some sample_model) None = Throw e ->
     condition_error e) /\
  (forall e, validateWriteConditions None (Some sample_conditions) (Some sample_model) = Throw e ->
     condition_error e).
Proof.
  apply (conditions_errors None (Some sample_conditions) (Some sample_model) None).
  right. vm_compute. lia.
Defined.

(** ** What the model shows *)

(** A write that carries any other condition does not check its tags condition:
    here If-Match passes and the tags condition, which fails on its own, is not
    looked at. *)
Lemma write_skips_ifTags :
  validateWriteConditions None
    (Some (mkModifiedAccessConditions None None (Some quoted_etag) None (Some "env = 'dev'"%string)))
    (Some sample_model) = Ok tt /\
  validateWriteConditions None
    (Some (mkModifiedAccessConditions None None None None (Some "env = 'dev'"%string)))
    (Some sample_model) = Throw (BlobErrors.getConditionNotMet None).
Proof. split; vm_compute; reflexivity. Qed.
