(* ===== verification/ExtentMetadata.v ===== *)
(** * ExtentMetadata: the metadata of the extents

    src/src/common/persistence/IExtentMetadataStore.ts,
    LokiExtentMetadataStore.ts and AllExtentsAsyncIterator.ts: the interface the
    extent stores use, its implementation over a collection, and the iterator
    the garbage collection lists the extents with. Opening, closing and cleaning
    the database file are not modelled. *)

From S2P Require Import Prelude Errors Loki.
Open Scope Z_scope.
Open Scope azurite_scope.

Record IExtentModel := mkExtentModel {
  extent_id : string;
  extent_locationId : string;
  extent_path : string;
  extent_size : Z;
  extent_lastModifiedInMS : Z
}.

(** The two operations the stores call. *)
Class IExtentMetadataStore (M : Type) := {
  updateExtent : IExtentModel -> M -> result exn unit * M;
  deleteExtent : string -> M -> result exn unit * M
}.

(** ** [IGCExtentProvider] and its iterators *)

(** [IteratorResult<string[]>]. *)
Record IteratorResult := mkResult {
  done : bool;
  value : list string
}.

(** [iteratorExtents()] and [next()], which reads the store at the time of the
    call. *)
Class IGCExtentProvider (M Itr : Type) := {
  iteratorExtents : Z -> M -> Itr;
  next : Itr -> M -> res IteratorResult * Itr
}.

(** ** [LokiExtentMetadataStore] *)

(** A document has the fields of the inserted model, and the field
    [LastModifyInMS] that an update of the document assigns. *)
Record ExtentDoc := mkExtentDoc {
  model : IExtentModel;
  LastModifyInMS : option Z
}.

Definition set_size (size : Z) (m : IExtentModel) : IExtentModel :=
  mkExtentModel m.(extent_id) m.(extent_locationId) m.(extent_path) size m.(extent_lastModifiedInMS).

Definition DEFAULT_EXTENT_GC_PROTECT_TIME_IN_MS : Z := 10 * 60 * 1000.

Section LokiStore.
Context {coll : Type -> Type} `{Loki coll}.
(** Whether a [$lt] of lokijs holds of a field the document does not have. *)
Context (lt_missing : bool).

Abbreviation extents := (coll ExtentDoc).

Definition with_id (id : string) (d : ExtentDoc) : bool := d.(model).(extent_id) === id.

Definition loki_updateExtent (extent : IExtentModel) (db : extents) : extents :=
  match findOne (with_id extent.(extent_id)) db with
  | None => lk_insert (mkExtentDoc extent None) db
  | Some (i, doc) =>
      lk_update i (mkExtentDoc (set_size extent.(extent_size) doc.(model))
                     (Some extent.(extent_lastModifiedInMS))) db
  end.

(** [findAndRemove]. *)
Definition loki_deleteExtent (extentId : string) (db : extents) : extents :=
  remove_docs (lk_find (fun _ => with_id extentId) db) db.

(** The query of [listExtents]. *)
Definition listed (id : option string) (marker : option Z) (queryTime : option Z) (protectTimeInMs : Z)
    (i : Z) (d : ExtentDoc) : bool :=
  match id with Some id => with_id id d | None => true end
  && match queryTime with
     | Some t => match d.(LastModifyInMS) with
                 | Some m => m <? t - protectTimeInMs
                 | None => lt_missing
                 end
     | None => true
     end
  && match marker with Some k => k <? i | None => true end.

(** With no result to take the marker from it throws: [maxResults] is 0. *)
Definition listExtents (id : option string) (maxResults : option Z) (marker : option Z)
    (queryTime : option Z) (protectTimeInMs : option Z) (db : extents) :
    res (list IExtentModel * option Z) :=
  let maxResults := default 5000 maxResults in
  let docs := take (Z.to_nat maxResults)
                (lk_find (listed id marker queryTime (default 0 protectTimeInMs)) db) in
  if Z.of_nat (length docs) <? maxResults then Ok (model <$> docs.*2, None)
  else match last docs with
       | Some d => Ok (model <$> docs.*2, Some d.1)
       | None => Throw TypeError
       end.

Definition getExtentLocationId (extentId : string) (db : extents) : res string :=
  match findOne (with_id extentId) db with
  | Some (_, doc) => Ok doc.(model).(extent_locationId)
  | None => Throw TypeError
  end.

(** ** [AllExtentsAsyncIterator] *)

Record AllExtentsAsyncIterator := mkAllExtents {
  all_done : bool;
  all_marker : option Z;
  all_time : Z
}.

Definition all_unit : Z := 1000.

Definition all_next (it : AllExtentsAsyncIterator) (db : extents) :
    res IteratorResult * AllExtentsAsyncIterator :=
  if it.(all_done) then (Ok (mkResult true []), it) else
  match listExtents None (Some all_unit) it.(all_marker) (Some it.(all_time))
          (Some DEFAULT_EXTENT_GC_PROTECT_TIME_IN_MS) db with
  | Ok (extents, nextMarker) =>
      (Ok (mkResult false (extent_id <$> extents)),
       mkAllExtents (it.(all_done) || undefined nextMarker) nextMarker it.(all_time))
  | Throw e => (Throw e, it)
  end.

End LokiStore.

#[export] Instance loki_extent_metadata {coll} `{Loki coll} :
    IExtentMetadataStore (coll ExtentDoc) := {
  updateExtent e db := (Ok tt, loki_updateExtent e db);
  deleteExtent id db := (Ok tt, loki_deleteExtent id db)
}.

Definition all_extents_provider {coll} `{Loki coll} (lt_missing : bool) :
    IGCExtentProvider (coll ExtentDoc) AllExtentsAsyncIterator := {|
  iteratorExtents := fun now _ => mkAllExtents false None now;
  next := all_next lt_missing
|}.

(** * The listing of the extents

    What the iterator over all extents yields, and which extents the protection
    time of the garbage collection protects. *)

From S2P Require Import Prelude Errors Loki.
Open Scope Z_scope.
Open Scope azurite_scope.

Section Listing.
Context {coll : Type -> Type} `{LokiLaws coll, !LokiOrdered coll}.
Context (lt_missing : bool).
Implicit Types (db : coll ExtentDoc).

(** ** The iterator *)

(** Calls of [next] on a store at rest, up to the one that is done. *)
Fixpoint collect (n : nat) (it : AllExtentsAsyncIterator) db : res (list string * bool) :=
  match n with
  | O => Ok ([], false)
  | S n =>
      match all_next lt_missing it db with
      | (Throw e, _) => Throw e
      | (Ok r, it) =>
          if r.(done) then Ok ([], true)
          else l ← collect n it db; Ok (r.(value) ++ l.1, l.2)
      end
  end.

Lemma collect_S n it db :
  collect (S n) it db =
  match all_next lt_missing it db with
  | (Throw e, _) => Throw e
  | (Ok r, it) =>
      if r.(done) then Ok ([], true)
      else l ← collect n it db; Ok (r.(value) ++ l.1, l.2)
  end.
Proof. done. Qed.

(** The documents the listing at [now] is about. *)
Definition collectable (now : Z) db : list (Z * ExtentDoc) :=
  lk_find (listed lt_missing None None (Some now) DEFAULT_EXTENT_GC_PROTECT_TIME_IN_MS) db.

Definition doc_id (d : Z * ExtentDoc) : string := d.2.(model).(extent_id).

Lemma find_ext (p q : Z -> ExtentDoc -> bool) db :
  (forall i d, p i d = q i d) -> lk_find p db = lk_find q db.
Proof.
  intros Hpq. apply ascending_unique; [apply find_ascending..|].
  rewrite (find_docs p db), (find_docs q db). apply reflexive_eq, list_filter_iff.
  intros [i d]. cbn. by rewrite Hpq.
Qed.

Definition after (marker : option Z) (l : list (Z * ExtentDoc)) : list (Z * ExtentDoc) :=
  match marker with Some k => filter (fun d => k < d.1) l | None => l end.

Lemma collect_after now db n : forall marker,
  let l := after marker (collectable now db) in
  Z.of_nat (length l) < 1000 * Z.of_nat n ->
  collect (S n) (mkAllExtents false marker now) db = Ok (doc_id <$> l, true).
Proof.
  induction n as [|n IH]; intros marker l Hn; [lia|].
  assert (Hl : lk_find (listed lt_missing None marker (Some now) DEFAULT_EXTENT_GC_PROTECT_TIME_IN_MS) db = l).
  { unfold l, after, collectable. destruct marker as [k|].
    - rewrite <- find_after. apply find_ext. intros i d. unfold listed. by rewrite andb_true_r.
    - done. }
  assert (Hasc : ascending l) by (rewrite <- Hl; apply find_ascending).
  assert (Hval : forall m, extent_id <$> (model <$> (take m l).*2) = doc_id <$> take m l).
  { intros m. by rewrite <- !list_fmap_compose. }
  rewrite collect_S. unfold all_next. cbn [all_done all_marker all_time]. unfold listExtents.
  cbn [from_option Datatypes.id]. rewrite Hl. unfold all_unit in *. set (m := Z.to_nat 1000).
  destruct (Z.ltb_spec (Z.of_nat (length (take m l))) 1000) as [Hs|Hs].
  - cbn. rewrite Hval, take_ge by (rewrite length_take in Hs; lia). by rewrite app_nil_r.
  - rewrite length_take in Hs. destruct (last (take m l)) as [d|] eqn:Hd.
    2: { apply last_None in Hd. apply (f_equal length) in Hd. rewrite length_take in Hd. cbn in Hd. lia. }
    cbn [defined undefined negb orb done value]. pose proof (ascending_after l m d Hasc Hd) as Hafter.
    assert (Hnext : filter (fun x => d.1 < x.1) (collectable now db) = drop m l).
{ rewrite <- Hafter. unfold l. unfold after. destruct marker as [k|]; [|done].
      rewrite list_filter_filter. apply list_filter_iff. intros x.
      assert (Hin : d ∈ l).
      { rewrite <- (take_drop m l), elem_of_app. left. apply last_Some in Hd as [l0 ->].
        apply elem_of_app. right. apply list_elem_of_here. }
      unfold l in Hin. apply list_elem_of_filter in Hin as [? _]. lia. }
    rewrite (IH (Some d.1)); unfold after; rewrite Hnext.
    + cbn. by rewrite Hval, <- fmap_app, take_drop.
    + rewrite length_drop. lia.
Qed.

(** On a store at rest the iterator over all extents ends after one page for
    every 1000 extents, and yields the extents of the query, each document once
    and in the order of their ids. *)
Theorem all_extents_complete now db n :
  Z.of_nat (length (collectable now db)) < 1000 * Z.of_nat n ->
  collect (S n) (mkAllExtents false None now) db = Ok (doc_id <$> collectable now db, true).
Proof.
  intros Hn. by rewrite (collect_after now db n None).
Qed.

(** ** The protection time *)

Inductive metadata_op := Update (e : IExtentModel) | Delete (id : string).

Definition run_metadata_op db (o : metadata_op) : coll ExtentDoc :=
  match o with
  | Update e => loki_updateExtent e db
  | Delete id => loki_deleteExtent id db
  end.

Definition unique_ids db : Prop := forall i j d d',
  docs db !! i = Some d -> docs db !! j = Some d' ->
  d.(model).(extent_id) = d'.(model).(extent_id) -> i = j.

Lemma with_id_true id d : with_id id d = true <-> d.(model).(extent_id) = id.
Proof. unfold with_id. apply bool_decide_eq_true. Qed.

Lemma run_metadata_op_unique db o : unique_ids db -> unique_ids (run_metadata_op db o).
Proof.
  intros Hu. destruct o as [e|id]; cbn; unfold unique_ids in *.
  - unfold loki_updateExtent. destruct (findOne _ db) as [[k dk]|] eqn:Hf.
    + apply findOne_Some in Hf as [Hk _]. intros i j d d'. rewrite docs_update by by eexists.
      intros [[<- <-]|[? Hi]]%lookup_insert_Some [[<- <-]|[? Hj]]%lookup_insert_Some; cbn; eauto.
    + pose proof (findOne_None _ _ Hf) as Hno. intros i j d d'. rewrite docs_insert.
      intros [[<- <-]|[? Hi]]%lookup_insert_Some [[<- <-]|[? Hj]]%lookup_insert_Some; cbn; eauto.
      * intros He. specialize (Hno j d' Hj). apply not_true_iff_false in Hno.
        destruct Hno. by apply with_id_true.
      * intros He. specialize (Hno i d Hi). apply not_true_iff_false in Hno.
        destruct Hno. by apply with_id_true.
  - intros i j d d'. unfold loki_deleteExtent. rewrite !docs_remove_docs.
    case_bool_decide; [done|]. case_bool_decide; [done|]. apply Hu.
Qed.

Lemma findOne_unique db i d :
  unique_ids db -> docs db !! i = Some d -> findOne (with_id d.(model).(extent_id)) db = Some (i, d).
Proof.
  intros Hu Hi. destruct (findOne (with_id d.(model).(extent_id)) db) as [[j d']|] eqn:Hf.
  - apply findOne_Some in Hf as [Hj Hw%with_id_true].
    assert (i = j) as -> by (eapply Hu; [done..|congruence]). congruence.
  - pose proof (findOne_None _ _ Hf i d Hi) as Hno. apply not_true_iff_false in Hno.
    destruct Hno. by apply with_id_true.
Qed.

(** The document of an extent that has just been updated. *)
Lemma updated_doc e db :
  exists i d, docs (loki_updateExtent e db) !! i = Some d /\ d.(model).(extent_id) = e.(extent_id) /\
    d.(LastModifyInMS) = match findOne (with_id e.(extent_id)) db with
                         | Some _ => Some e.(extent_lastModifiedInMS)
                         | None => None
                         end.
Proof.
  unfold loki_updateExtent. destruct (findOne (with_id e.(extent_id)) db) as [[k dk]|] eqn:Hf.
  - apply findOne_Some in Hf as [Hk Hw%with_id_true]. rewrite docs_update by by eexists.
    eexists k, _. rewrite lookup_insert_eq. split_and!; [done|done|done].
  - rewrite docs_insert. eexists _, _. rewrite lookup_insert_eq. done.
Qed.

Lemma elem_collectable now db x : unique_ids db ->
  x ∈ doc_id <$> collectable now db <->
  exists i d, findOne (with_id x) db = Some (i, d) /\
    match d.(LastModifyInMS) with
    | Some m => m < now - DEFAULT_EXTENT_GC_PROTECT_TIME_IN_MS
    | None => lt_missing = true
    end.
Proof.
  intros Hu. rewrite list_elem_of_fmap.
  assert (Hlist : forall i d, listed lt_missing None None (Some now) DEFAULT_EXTENT_GC_PROTECT_TIME_IN_MS i d
    = true <-> match d.(LastModifyInMS) with
               | Some m => m < now - DEFAULT_EXTENT_GC_PROTECT_TIME_IN_MS
               | None => lt_missing = true
               end).
  { intros i d. unfold listed. rewrite andb_true_r. cbn. destruct d.(LastModifyInMS); [|done].
    apply Z.ltb_lt. }
  split.
  - intros ([i d]&->&Hin). apply elem_find in Hin as [Hi Hd]. unfold doc_id. cbn.
    exists i, d. split; [by apply findOne_unique|]. by apply Hlist in Hd.
  - intros (i&d&Hf&Hd). apply findOne_Some in Hf as [Hi Hw%with_id_true]. exists (i, d).
    split; [done|]. apply elem_find. split; [done|]. by apply Hlist.
Qed.

(** What the protection time protects: after an update of an extent that is
    in the store, the extent is listed for collection exactly when it was last
    modified longer ago than the protection time. An extent that was written
    once has no [LastModifyInMS], so that whether it is listed does not depend
    on its age: it is listed when a [$lt] holds of a missing field. *)
Theorem extent_protection ops db0 e now :
  docs db0 = ∅ ->
  let db := foldl run_metadata_op db0 ops in
  e.(extent_id) ∈ doc_id <$> collectable now (loki_updateExtent e db) <->
  match findOne (with_id e.(extent_id)) db with
  | Some _ => e.(extent_lastModifiedInMS) < now - DEFAULT_EXTENT_GC_PROTECT_TIME_IN_MS
  | None => lt_missing = true
  end.
Proof.
  intros H0' db.
  assert (Hu : unique_ids db).
  { assert (Hgen : forall db1, unique_ids db1 -> unique_ids (foldl run_metadata_op db1 ops)).
    { induction ops as [|o os IH]; intros db1 H1; [done|]. by apply IH, run_metadata_op_unique. }
    apply Hgen. intros i j d d' Hi. by rewrite H0', lookup_empty in Hi. }
  clearbody db. pose proof (run_metadata_op_unique db (Update e) Hu) as Hu'. cbn in Hu'.
  rewrite elem_collectable by done.
  destruct (updated_doc e db) as (i&d&Hi&Hid&Hm).
  pose proof (findOne_unique _ i d Hu' Hi) as Hf. rewrite Hid in Hf. rewrite Hf.
  split.
  - intros (?&?&[= <- <-]&Hx). rewrite Hm in Hx. by destruct (findOne _ db).
  - intros Hx. exists i, d. split; [done|]. rewrite Hm. by destruct (findOne _ db).
Qed.

End Listing.

(** ** Witnesses *)

Definition extent0 (id : string) (t : Z) : IExtentModel := mkExtentModel id id id 1 t.

Lemma all_extents_complete_witness :
  let db := foldl (run_metadata_op (coll := map_coll)) (∅, 0)
              [Update (extent0 "a" 0); Update (extent0 "b" 0); Update (extent0 "a" 5)] in
  collect true 2 (mkAllExtents false None 600005) db = Ok (["b"], true).
Proof.
  intros db. rewrite (all_extents_complete true 600005 db 1); [reflexivity|reflexivity].
Defined.

Lemma extent_protection_witness :
  "a" ∈ doc_id <$> collectable true 0 (loki_updateExtent (extent0 "a" 0) (∅, 0) : map_coll ExtentDoc).
Proof.
  apply (extent_protection (coll := map_coll) true [] (∅, 0) (extent0 "a" 0) 0); reflexivity.
Defined.
