(* ===== verification/MemoryExtentStore.v ===== *)
(** * MemoryExtentStore: extents kept in memory

    src/src/common/persistence/MemoryExtentStore.ts: the chunk store, which
    counts the bytes of each category and of all against a limit, and the extent
    store over it. A byte is a number, a buffer is a list of bytes, a stream is
    the list of the buffers it yields; what a store streams out is the bytes of
    the stream. [uuid()] is an argument, the metadata store is behind the class
    [IExtentMetadataStore] of the file ExtentMetadata. Log output is not modelled. *)

From S2P Require Import Prelude Errors Extents ExtentMetadata.

(** ** [MemoryExtentChunkStore] *)

(** [IMemoryExtentChunk], whose offset is always 0 when it is stored. *)
Record IMemoryExtentChunk := mkMemoryChunk {
  chunk_id : string;
  chunk_offset : Z;
  chunk_count : Z;
  buffers : list bytes
}.

Record IExtentCategoryChunks := mkCategory {
  chunks : gmap string IMemoryExtentChunk;
  cat_totalSize : Z
}.

Record MemoryExtentChunkStore := mkChunkStore {
  _sizeLimit : option Z;
  _chunks : gmap string IExtentCategoryChunks;
  _totalSize : Z
}.

Definition empty_category : IExtentCategoryChunks := mkCategory ∅ 0.

Abbreviation chunk_store := (proc MemoryExtentChunkStore exn).

Definition clear (categoryName : string) (st : MemoryExtentChunkStore) : MemoryExtentChunkStore :=
  match st.(_chunks) !! categoryName with
  | None => st
  | Some category =>
      mkChunkStore st.(_sizeLimit) (delete categoryName st.(_chunks))
        (st.(_totalSize) - category.(cat_totalSize))
  end.

(** The category is created before the limit is looked at. *)
Definition trySet (categoryName : string) (chunk : IMemoryExtentChunk)
    (st : MemoryExtentChunkStore) : bool * MemoryExtentChunkStore :=
  let category := default empty_category (st.(_chunks) !! categoryName) in
  let st := mkChunkStore st.(_sizeLimit) (<[categoryName := category]> st.(_chunks)) st.(_totalSize) in
  let delta := match category.(chunks) !! chunk.(chunk_id) with
               | Some existing => chunk.(chunk_count) - existing.(chunk_count)
               | None => chunk.(chunk_count)
               end in
  if match st.(_sizeLimit) with Some l => l <? st.(_totalSize) + delta | None => false end
  then (false, st)
  else
    let category := mkCategory (<[chunk.(chunk_id) := chunk]> category.(chunks))
                      (category.(cat_totalSize) + delta) in
    (true, mkChunkStore st.(_sizeLimit) (<[categoryName := category]> st.(_chunks))
             (st.(_totalSize) + delta)).

Definition set (categoryName : string) (chunk : IMemoryExtentChunk) : chunk_store unit :=
  fun st =>
    let (ok, st) := trySet categoryName chunk st in
    if ok then (Ok tt, st) else (Throw JsError, st).

Definition get (categoryName id : string) (st : MemoryExtentChunkStore) : option IMemoryExtentChunk :=
  category ← st.(_chunks) !! categoryName;
  category.(chunks) !! id.

Definition delete_chunk (categoryName id : string) (st : MemoryExtentChunkStore) :
    bool * MemoryExtentChunkStore :=
  match st.(_chunks) !! categoryName with
  | None => (false, st)
  | Some category =>
      match category.(chunks) !! id with
      | None => (false, st)
      | Some existing =>
          let category := mkCategory (delete id category.(chunks))
                            (category.(cat_totalSize) - existing.(chunk_count)) in
          let all := if bool_decide (category.(chunks) = ∅)
                     then delete categoryName st.(_chunks)
                     else <[categoryName := category]> st.(_chunks) in
          (true, mkChunkStore st.(_sizeLimit) all (st.(_totalSize) - existing.(chunk_count)))
      end
  end.

(** [if (sizeLimit && ...)]: the limits [undefined] and 0 are falsy. *)
Definition setSizeLimit (sizeLimit : option Z) (st : MemoryExtentChunkStore) :
    bool * MemoryExtentChunkStore :=
  if match sizeLimit with
     | Some l => negb (l =? 0) && (l <? st.(_totalSize))
     | None => false
     end
  then (false, st)
  else (true, mkChunkStore sizeLimit st.(_chunks) st.(_totalSize)).

(** ** [MemoryExtentStore] *)

(** [NodeJS.ReadableStream | Buffer]. *)
Inductive Data := Buffer (data : bytes) | Stream (data : list bytes).

Definition payload (d : Data) : bytes :=
  match d with Buffer b => b | Stream l => concat l end.

Definition blength (b : bytes) : Z := Z.of_nat (length b).

(** The non-empty buffers of the data. *)
Definition data_chunks (d : Data) : list bytes :=
  filter (fun b => (0 <? blength b) = true) (match d with Buffer b => [b] | Stream l => l end).

(** [buf.slice(i, j)] for [0 <= i]. *)
Definition slice_bytes (b : bytes) (i j : Z) : bytes :=
  take (Z.to_nat j - Z.to_nat i) (drop (Z.to_nat i) b).

(** [ZeroBytesStream]: a [_read] pushes a buffer, or null at the end, and leaves
    the number of bytes that are left. A read takes a byte at least, so that the
    length is fuel enough for the reads of the whole stream. *)
Definition zeroBytesRangeUnit : Z := 512.

Definition _read (leftBytes : Z) : option bytes * Z :=
  if leftBytes =? 0 then (None, leftBytes)
  else if zeroBytesRangeUnit <=? leftBytes
  then (Some (replicate (Z.to_nat zeroBytesRangeUnit) 0), leftBytes - zeroBytesRangeUnit)
  else (Some (replicate (Z.to_nat leftBytes) 0), 0).

Fixpoint zero_reads (fuel : nat) (leftBytes : Z) : bytes :=
  match fuel with
  | O => []
  | S fuel => match _read leftBytes with
              | (None, _) => []
              | (Some b, leftBytes) => b ++ zero_reads fuel leftBytes
              end
  end.

Definition zero_bytes (length : Z) : bytes := zero_reads (S (Z.to_nat length)) length.

(** The loop of [readExtent]: the bytes pushed for the rest of the chunks. *)
Fixpoint read_chunks (l : list bytes) (skip tk : Z) : bytes :=
  match l with
  | [] => []
  | chunk :: l =>
      if tk =? 0 then []
      else if 0 <? skip then
        if blength chunk <=? skip then read_chunks l (skip - blength chunk) tk
        else
          let piece := slice_bytes chunk skip (skip + Z.min tk (blength chunk - skip)) in
          piece ++ read_chunks l 0 (tk - blength piece)
      else if tk <? blength chunk then
        let piece := slice_bytes chunk 0 tk in
        piece ++ read_chunks l skip (tk - blength piece)
      else chunk ++ read_chunks l skip (tk - blength chunk)
  end.

Section Store.
Context {M : Type} `{IExtentMetadataStore M}.
Context (makeError : Z -> string -> string -> string -> exn).

Record MemoryExtentStore := mkMemoryExtentStore {
  categoryName : string;
  chunk_state : MemoryExtentChunkStore;
  metadataStore : M
}.

Abbreviation store := (proc MemoryExtentStore exn).

Definition set_chunk_state (c : MemoryExtentChunkStore) (s : MemoryExtentStore) : MemoryExtentStore :=
  mkMemoryExtentStore s.(categoryName) c s.(metadataStore).
Definition set_metadata (m : M) (s : MemoryExtentStore) : MemoryExtentStore :=
  mkMemoryExtentStore s.(categoryName) s.(chunk_state) m.

Definition on_metadata (f : M -> result exn unit * M) : store unit :=
  fun s => let (r, m) := f s.(metadataStore) in (r, set_metadata m s).

(** The message of the error names the limit, which is not modelled. *)
Definition size_limit_error (contextId : option string) : exn :=
  makeError 409 "MemoryExtentStoreAtSizeLimit"
    "Cannot add an extent chunk to the in-memory store." (default EmptyString contextId).

Definition appendExtent (data : Data) (uuid : string) (now : Z) (contextId : option string) :
    store IExtentChunk :=
  let cs := data_chunks data in
  let count := blength (concat cs) in
  let extentChunk := mkMemoryChunk uuid 0 count cs in
  s ← get_state;
  let (ok, c) := trySet s.(categoryName) extentChunk s.(chunk_state) in
  _ ← put_state (set_chunk_state c s);
  if ok then
    _ ← on_metadata (updateExtent (mkExtentModel uuid uuid uuid count now));
    mret (mkChunk uuid 0 count)
  else throw (size_limit_error contextId).

Definition readExtent (extentChunk : option IExtentChunk) (s : MemoryExtentStore) : res bytes :=
  match extentChunk with
  | None => Ok (zero_bytes 0)
  | Some c =>
      if c.(count) =? 0 then Ok (zero_bytes 0)
      else if c.(id) === ZERO_EXTENT_ID then Ok (zero_bytes c.(count))
      else match get s.(categoryName) c.(id) s.(chunk_state) with
           | None => Throw JsError
           | Some m => Ok (read_chunks m.(buffers) c.(offset) c.(count))
           end
  end.

(** [count] is [None] for [Infinity]; so is the [end] computed from it. *)
Definition le_end (e : option Z) (x : Z) : bool :=
  match e with Some e => e <=? x | None => false end.

(** The loop of [readExtents] from an accumulated offset on. *)
Fixpoint read_many (l : list IExtentChunk) (start : Z) (end_ : option Z) (accumulatedOffset : Z)
    (s : MemoryExtentStore) : res (bytes * Z) :=
  match l with
  | [] => Ok ([], accumulatedOffset)
  | chunk :: l =>
      let nextOffset := accumulatedOffset + chunk.(count) in
      if nextOffset <=? start then read_many l start end_ nextOffset s
      else if le_end end_ accumulatedOffset then Ok ([], accumulatedOffset)
      else
        let chunkStart := if accumulatedOffset <? start
                          then chunk.(offset) + start - accumulatedOffset
                          else chunk.(offset) in
        let chunkEnd := if le_end end_ nextOffset
                        then chunk.(offset) + chunk.(count) - (nextOffset - default 0 end_)
                        else chunk.(offset) + chunk.(count) in
        b ← readExtent (Some (mkChunk chunk.(id) chunkStart (chunkEnd - chunkStart))) s;
        r ← read_many l start end_ nextOffset s;
        Ok (b ++ r.1, r.2)
  end.

Definition readExtents (extentChunkArray : list IExtentChunk) (offset : Z) (count : option Z)
    (s : MemoryExtentStore) : res bytes :=
  if count === Some 0 then Ok (zero_bytes 0) else
  let end_ := Z.add offset <$> count in
  r ← read_many extentChunkArray offset end_ 0 s;
  throw_when (match end_ with Some e => r.2 <? e | None => false end) RangeError;;
  Ok r.1.

Fixpoint deleteExtents (extents : list string) : store Z :=
  match extents with
  | [] => mret 0
  | id :: extents =>
      s ← get_state;
      _ ← put_state
            (match get s.(categoryName) id s.(chunk_state) with
             | Some _ => set_chunk_state (delete_chunk s.(categoryName) id s.(chunk_state)).2 s
             | None => s
             end);
      _ ← on_metadata (deleteExtent id);
      n ← deleteExtents extents;
      mret (n + 1)
  end.

(** [clean] of a closed store. *)
Definition clean : store unit :=
  s ← get_state;
  put_state (set_chunk_state (clear s.(categoryName) s.(chunk_state)) s).

(** The store behind the interface the handlers use. *)
Definition memory_extent_store : IExtentStore MemoryExtentStore := {|
  Extents.appendExtent := fun b id now contextId => appendExtent (Buffer b) id now contextId;
  Extents.readExtent := readExtent
|}.

(** ** Reads at numbers that are no integers *)

(** The loop of [readExtent] when [take] is [Infinity] or [NaN], to which no chunk
    is too long: of a chunk that is skipped in part, [slice(skip, NaN)] is empty. *)
Fixpoint read_open (nan : bool) (l : list bytes) (skip : Z) : bytes :=
  match l with
  | [] => []
  | chunk :: l =>
      if 0 <? skip then
        if blength chunk <=? skip then read_open nan l (skip - blength chunk)
        else (if nan then [] else drop (Z.to_nat skip) chunk) ++ read_open nan l 0
      else chunk ++ read_open nan l skip
  end.

(** [readExtent] of a chunk with these fields. No part is skipped for an offset
    that is [NaN], everything for [Infinity]; the stream of [NaN] zeros fails to
    allocate them, that of [Infinity] zeros does not end. *)
Definition readExtentAt (id : string) (offset count : Quantity) (s : MemoryExtentStore) : res bytes :=
  match count with
  | Exact n =>
      match offset with
      | Exact o => readExtent (Some (mkChunk id o n)) s
      | NotANumber => readExtent (Some (mkChunk id 0 n)) s
      | Infinite => m ← readExtent (Some (mkChunk id 0 n)) s; Ok (if id === ZERO_EXTENT_ID then m else [])
      end
  | _ =>
      if id === ZERO_EXTENT_ID then Throw RangeError
      else match get s.(categoryName) id s.(chunk_state) with
           | None => Throw JsError
           | Some m =>
               Ok (match offset with
                   | Exact o => read_open (count === NotANumber) m.(buffers) o
                   | NotANumber => read_open (count === NotANumber) m.(buffers) 0
                   | Infinite => []
                   end)
           end
  end.

(** An end that is [Infinity] or [NaN] cuts nothing off; a start that is [NaN]
    is before every chunk. *)
Definition readExtentsAt (l : list IExtentChunk) (offset count : Quantity) (s : MemoryExtentStore) :
    res bytes :=
  match offset, count with
  | _, Exact 0 => Ok (zero_bytes 0)
  | Exact o, Exact n => readExtents l o (Some n) s
  | Exact o, _ => readExtents l o None s
  | NotANumber, _ => readExtents l (-1) None s
  | Infinite, _ => Ok []
  end.

Definition memory_extent_reader : IExtentReader MemoryExtentStore := {|
  Extents.readExtentAt := readExtentAt;
  Extents.readExtents := readExtentsAt
|}.

End Store.

Arguments MemoryExtentStore M : clear implicits.
Arguments mkMemoryExtentStore {M}.
Arguments categoryName {M}.
Arguments chunk_state {M}.
Arguments metadataStore {M}.
