(* ===== verification/MemoryExtentStoreSpec.v ===== *)
(** * MemoryExtentStoreSpec: the accounting and the contents of extents in memory

    The byte counts of the chunk store and its limit, the round trip of an
    extent, and what a read over several chunks returns. *)

From S2P Require Import Prelude Errors Extents Loki ExtentMetadata MemoryExtentStore.
Open Scope Z_scope.
Open Scope azurite_scope.

(** ** Sums over maps *)

Definition sum_of {A} (f : A -> Z) (m : gmap string A) : Z :=
  map_fold (fun _ x acc => f x + acc) 0 m.

Section Sums.
Context {A : Type} (f : A -> Z).
Implicit Types (m : gmap string A).

Lemma sum_insert_new m k x : m !! k = None -> sum_of f (<[k := x]> m) = f x + sum_of f m.
Proof. intros Hk. unfold sum_of. apply (map_fold_insert_L (fun (_ : string) x acc => f x + acc)); [intros; lia|done]. Qed.

Lemma sum_delete m k x : m !! k = Some x -> sum_of f m = f x + sum_of f (delete k m).
Proof. intros Hk. unfold sum_of. apply (map_fold_delete_L (fun (_ : string) x acc => f x + acc)); [intros; lia|done]. Qed.

Lemma sum_insert m k x :
  sum_of f (<[k := x]> m) = sum_of f m + f x - match m !! k with Some y => f y | None => 0 end.
Proof.
  destruct (m !! k) as [y|] eqn:Hk.
  - rewrite (sum_delete m k y Hk), <- insert_delete_eq, sum_insert_new
      by apply lookup_delete_eq. lia.
  - rewrite sum_insert_new by done. lia.
Qed.

Lemma sum_nonneg m : (forall k x, m !! k = Some x -> 0 <= f x) -> 0 <= sum_of f m.
Proof.
  unfold sum_of. apply (map_fold_weak_ind
    (fun r m => (forall k x, m !! k = Some x -> 0 <= f x) -> 0 <= r)); [lia|].
  intros i x m' r Hi IH Hm. assert (0 <= f x) by (apply (Hm i); apply lookup_insert_eq).
  assert (0 <= r); [|lia]. apply IH. intros k y Hk. apply (Hm k).
  rewrite lookup_insert_ne; [done|]. by intros ->; rewrite Hi in Hk.
Qed.

End Sums.

(** ** The accounting of the chunk store *)

(** Every count is the sum of what it counts; the chunks of a category are kept
    under their ids and have non-negative counts. *)
Definition category_ok (c : IExtentCategoryChunks) : Prop :=
  c.(cat_totalSize) = sum_of chunk_count c.(chunks) /\
  forall id ch, c.(chunks) !! id = Some ch -> ch.(chunk_id) = id /\ 0 <= ch.(chunk_count).

Definition accounted (st : MemoryExtentChunkStore) : Prop :=
  st.(_totalSize) = sum_of cat_totalSize st.(_chunks) /\
  forall n c, st.(_chunks) !! n = Some c -> category_ok c.

Definition within_limit (st : MemoryExtentChunkStore) : Prop :=
  match st.(_sizeLimit) with Some l => l = 0 \/ st.(_totalSize) <= l | None => True end.

Inductive chunk_op :=
| Set_ (n : string) (c : IMemoryExtentChunk)
| Clear_ (n : string)
| Delete_ (n id : string)
| Limit_ (l : option Z).

Definition run_chunk_op (st : MemoryExtentChunkStore) (o : chunk_op) : MemoryExtentChunkStore :=
  match o with
  | Set_ n c => (set n c st).2
  | Clear_ n => clear n st
  | Delete_ n id => (delete_chunk n id st).2
  | Limit_ l => (setSizeLimit l st).2
  end.

Definition op_ok (o : chunk_op) : Prop :=
  match o with Set_ _ c => 0 <= c.(chunk_count) | _ => True end.

Lemma empty_category_ok : category_ok empty_category.
Proof.
  split; [done|]. unfold empty_category. cbn [chunks]. intros id ch Hi.
  by rewrite lookup_empty in Hi.
Qed.

Lemma category_nonneg c : category_ok c -> 0 <= c.(cat_totalSize).
Proof.
  intros [-> Hc]. apply sum_nonneg. intros k x Hk. by destruct (Hc k x Hk).
Qed.

(** The category [trySet] works on. *)
Lemma category_default n st : accounted st ->
  category_ok (default empty_category (st.(_chunks) !! n)) /\
  sum_of cat_totalSize (<[n := default empty_category (st.(_chunks) !! n)]> st.(_chunks))
  = st.(_totalSize).
Proof.
  intros [-> Hc]. rewrite sum_insert. destruct (st.(_chunks) !! n) as [c|] eqn:Hn; cbn.
  - split; [by apply (Hc n)|lia].
  - split; [apply empty_category_ok|lia].
Qed.

Lemma category_set c ch delta :
  category_ok c -> 0 <= ch.(chunk_count) ->
  delta = match c.(chunks) !! ch.(chunk_id) with
          | Some existing => ch.(chunk_count) - existing.(chunk_count)
          | None => ch.(chunk_count)
          end ->
  category_ok (mkCategory (<[ch.(chunk_id) := ch]> c.(chunks)) (c.(cat_totalSize) + delta)).
Proof.
  intros [Ht Hc] Hn ->. split; cbn.
  - rewrite Ht, sum_insert. destruct (c.(chunks) !! ch.(chunk_id)); lia.
  - intros id x [[<- <-]|[_ Hx]]%lookup_insert_Some; [done|by apply Hc].
Qed.

Lemma accounted_insert n c st sizeLimit total :
  accounted st -> category_ok c ->
  total = st.(_totalSize) + c.(cat_totalSize)
          - match st.(_chunks) !! n with Some c0 => c0.(cat_totalSize) | None => 0 end ->
  accounted (mkChunkStore sizeLimit (<[n := c]> st.(_chunks)) total).
Proof.
  intros [Ht Hc] Hok ->. split; cbn.
  - by rewrite Ht, sum_insert.
  - intros m c' [[<- <-]|[_ Hm]]%lookup_insert_Some; [done|by apply (Hc m)].
Qed.

Lemma trySet_ok n ch st b st' :
  accounted st -> 0 <= ch.(chunk_count) -> trySet n ch st = (b, st') ->
  accounted st' /\ (within_limit st -> within_limit st').
Proof.
  intros Ha Hn. unfold trySet. destruct (category_default n st Ha) as [Hc Hs].
  set (c := default empty_category (st.(_chunks) !! n)) in *. cbn.
  set (delta := match c.(chunks) !! _ with Some _ => _ | None => _ end).
  assert (Hc0 : c.(cat_totalSize) = match st.(_chunks) !! n with Some c0 => c0.(cat_totalSize) | None => 0 end)
    by (unfold c; by destruct (st.(_chunks) !! n)).
  destruct (match st.(_sizeLimit) with Some l => _ | None => false end) eqn:Hl; intros [= <- <-].
  - split; [apply accounted_insert; [done|done|lia]|done].
  - split.
    + rewrite insert_insert_eq. apply accounted_insert; [done| |cbn; lia].
      by apply category_set.
    + unfold within_limit. cbn. destruct st.(_sizeLimit) as [l|]; [|done].
      intros _. right. destruct (Z.ltb_spec l (st.(_totalSize) + delta)); [done|lia].
Qed.

Lemma clear_ok n st :
  accounted st -> accounted (clear n st) /\ (within_limit st -> within_limit (clear n st)).
Proof.
  intros [Ht Hc]. unfold clear. destruct (st.(_chunks) !! n) as [c|] eqn:Hn; [|by split].
  split.
  - split; cbn.
    + rewrite Ht, (sum_delete _ _ n c Hn). lia.
    + intros m c' [_ Hm]%lookup_delete_Some. by apply (Hc m).
  - unfold within_limit. cbn. destruct st.(_sizeLimit); [|done].
    pose proof (category_nonneg c (Hc n c Hn)). lia.
Qed.

Lemma category_delete c id ch :
  category_ok c -> c.(chunks) !! id = Some ch ->
  category_ok (mkCategory (delete id c.(chunks)) (c.(cat_totalSize) - ch.(chunk_count))).
Proof.
  intros [Ht Hc] Hi. split; cbn.
  - rewrite Ht, (sum_delete _ _ id ch Hi). lia.
  - intros j x [_ Hx]%lookup_delete_Some. by apply Hc.
Qed.

Lemma delete_chunk_ok n id st b st' :
  accounted st -> delete_chunk n id st = (b, st') ->
  accounted st' /\ (within_limit st -> within_limit st').
Proof.
  intros Ha. unfold delete_chunk. destruct (st.(_chunks) !! n) as [c|] eqn:Hn; [|by intros [= _ <-]].
  destruct (c.(chunks) !! id) as [ch|] eqn:Hi; [|by intros [= _ <-]]. intros [= _ <-].
  pose proof (proj2 Ha n c Hn) as Hc. pose proof (category_delete c id ch Hc Hi) as Hc'.
  split.
  - case_bool_decide as Hemp; cbn in Hemp.
    + destruct Ha as [Ht Hall]. split; cbn.
      * rewrite Ht, (sum_delete _ _ n c Hn). destruct Hc' as [Hz _]. cbn in Hz.
        rewrite Hemp in Hz. unfold sum_of in Hz at 1. rewrite map_fold_empty in Hz. lia.
      * intros m c' [_ Hm]%lookup_delete_Some. by apply (Hall m).
    + apply accounted_insert; [done|done|]. rewrite Hn. cbn. lia.
  - unfold within_limit. cbn. destruct st.(_sizeLimit); [|done].
    pose proof (proj2 (proj2 Hc id ch Hi)). lia.
Qed.

Lemma run_chunk_op_ok st o :
  accounted st -> op_ok o ->
  accounted (run_chunk_op st o) /\ (within_limit st -> within_limit (run_chunk_op st o)).
Proof.
  intros Ha Ho. destruct o as [n c|n|n id|l]; cbn.
  - unfold set. destruct (trySet n c st) as [b st'] eqn:Hs.
    apply (trySet_ok _ _ _ _ _ Ha Ho) in Hs. by destruct b.
  - by apply clear_ok.
  - destruct (delete_chunk n id st) as [b st'] eqn:Hd. by apply (delete_chunk_ok _ _ _ _ _ Ha) in Hd.
  - unfold setSizeLimit. destruct l as [l|]; [|by split].
    destruct (Z.eqb_spec l 0) as [->|]; cbn; [split; [done|by left]|].
    destruct (Z.ltb_spec l st.(_totalSize)); cbn; [by split|]. split; [done|]. by right.
Qed.

(** C10. Whatever chunks are stored, replaced, deleted and cleared, the size of
    each category and the total size are the sums of the sizes of the chunks
    that are in the store, and the total stays within the limit (a limit of 0
    excepted, which [setSizeLimit] takes whatever is stored). *)
Theorem chunk_store_accounting limit ops :
  Forall op_ok ops -> from_option (Z.le 0) True limit ->
  let st := foldl run_chunk_op (mkChunkStore limit ∅ 0) ops in
  accounted st /\ within_limit st.
Proof.
  intros Hops Hl.
  assert (Hgen : forall st, accounted st -> within_limit st ->
    accounted (foldl run_chunk_op st ops) /\ within_limit (foldl run_chunk_op st ops)).
  { clear Hl. induction Hops as [|o ops Ho _ IH]; intros st Ha Hw; [done|]. cbn.
    destruct (run_chunk_op_ok st o Ha Ho). by apply IH; auto. }
  apply Hgen.
  - split; [done|]. cbn [_chunks]. intros n c Hn. by rewrite lookup_empty in Hn.
  - unfold within_limit. cbn. destruct limit; [by right|done].
Qed.

(** ** Reading *)

(** The bytes from [i] on, and up to [j] excluded. *)
Definition zdrop (i : Z) (b : bytes) : bytes := drop (Z.to_nat i) b.
Definition ztake (j : Z) (b : bytes) : bytes := take (Z.to_nat j) b.

Lemma blength_app a b : blength (a ++ b) = blength a + blength b.
Proof. unfold blength. rewrite length_app. lia. Qed.

Lemma blength_nonneg b : 0 <= blength b.
Proof. unfold blength. lia. Qed.

Lemma blength_ztake j b : 0 <= j -> blength (ztake j b) = Z.min j (blength b).
Proof. intros Hj. unfold blength, ztake. rewrite length_take. lia. Qed.

Lemma blength_zdrop i b : 0 <= i -> blength (zdrop i b) = Z.max 0 (blength b - i).
Proof. intros Hi. unfold blength, zdrop. rewrite length_drop. lia. Qed.

Lemma ztake_app j a b : 0 <= j -> ztake j (a ++ b) = ztake j a ++ ztake (j - blength a) b.
Proof.
  intros Hj. unfold ztake, blength. rewrite take_app. do 2 f_equal. lia.
Qed.

Lemma zdrop_app i a b : 0 <= i -> zdrop i (a ++ b) = zdrop i a ++ zdrop (i - blength a) b.
Proof. intros Hi. unfold zdrop, blength. rewrite drop_app. do 2 f_equal. lia. Qed.

Lemma ztake_all j b : blength b <= j -> ztake j b = b.
Proof. intros Hj. unfold ztake, blength in *. apply take_ge. lia. Qed.

Lemma zdrop_all i b : blength b <= i -> zdrop i b = [].
Proof. intros Hi. unfold zdrop, blength in *. apply drop_ge. lia. Qed.

Lemma ztake_0 j b : j <= 0 -> ztake j b = [].
Proof. intros Hj. unfold ztake. by replace (Z.to_nat j) with 0%nat by lia. Qed.

Lemma zdrop_0 i b : i <= 0 -> zdrop i b = b.
Proof. intros Hi. unfold zdrop. by replace (Z.to_nat i) with 0%nat by lia. Qed.

Lemma zdrop_zdrop i j b : 0 <= i -> 0 <= j -> zdrop i (zdrop j b) = zdrop (j + i) b.
Proof. intros Hi Hj. unfold zdrop. rewrite drop_drop. f_equal. lia. Qed.

Lemma ztake_ztake i j b : ztake i (ztake j b) = ztake (Z.min i j) b.
Proof. unfold ztake. rewrite take_take. f_equal. lia. Qed.

Lemma zdrop_ztake i j b : 0 <= i -> zdrop i (ztake j b) = ztake (j - i) (zdrop i b).
Proof. intros Hi. unfold zdrop, ztake. rewrite skipn_firstn_comm. f_equal. lia. Qed.

Lemma slice_bytes_spec b i j : slice_bytes b i j = ztake (Z.of_nat (Z.to_nat j - Z.to_nat i)) (zdrop i b).
Proof. unfold slice_bytes, ztake, zdrop. by rewrite Nat2Z.id. Qed.

(** The loop over the buffers reads [tk] bytes of their concatenation after
    [skip]. *)
Lemma read_chunks_spec l skip tk :
  0 <= skip -> 0 <= tk -> read_chunks l skip tk = ztake tk (zdrop skip (concat l)).
Proof.
  revert skip tk. induction l as [|c l IH]; intros skip tk Hs Ht; cbn.
  { unfold zdrop, ztake. by rewrite drop_nil, take_nil. }
  pose proof (blength_nonneg c). rewrite zdrop_app by done.
  destruct (Z.eqb_spec tk 0) as [->|]; [by rewrite ztake_0|].
  destruct (Z.ltb_spec 0 skip).
  - destruct (Z.leb_spec (blength c) skip).
    + rewrite IH by lia. by rewrite (zdrop_all skip c) by lia.
    + rewrite slice_bytes_spec.
      replace (Z.of_nat (_ - _)) with (Z.min tk (blength c - skip)) by lia.
      rewrite ztake_app, (blength_zdrop skip c) by lia.
      rewrite blength_ztake, (blength_zdrop skip c) by lia.
      rewrite IH by lia. rewrite !(zdrop_0 _ (concat l)) by lia.
      destruct (Z.le_gt_cases tk (blength c - skip)).
      * rewrite (Z.min_l tk) by lia. by rewrite !(ztake_0 _ (concat l)) by lia.
      * rewrite (Z.min_r tk) by lia. f_equal; [|f_equal; lia].
        rewrite !ztake_all; rewrite ?blength_zdrop; lia || done.
  - assert (skip = 0) as -> by lia. rewrite (zdrop_0 0 c), ztake_app, (zdrop_0 (0 - _)) by lia.
    destruct (Z.ltb_spec tk (blength c)).
    + rewrite slice_bytes_spec, zdrop_0, Nat2Z.inj_sub, !Z2Nat.id by lia.
      rewrite Z.sub_0_r, blength_ztake, IH by lia. by rewrite !(ztake_0 _ (zdrop _ (concat l))), (ztake_0 _ (concat l)) by lia.
    + rewrite IH by lia. rewrite (ztake_all tk c), zdrop_0 by lia. done.
Qed.

Definition zeros (n : Z) : bytes := replicate (Z.to_nat n) 0.

Lemma zero_reads_spec fuel n : 0 <= n < Z.of_nat fuel -> zero_reads fuel n = zeros n.
Proof.
  revert n. induction fuel as [|fuel IH]; intros n Hn; [lia|]. cbn [zero_reads]. unfold _read.
  destruct (Z.eqb_spec n 0) as [->|Hn0]; [done|].
  destruct (Z.leb_spec zeroBytesRangeUnit n) as [Hu|Hu]; unfold zeroBytesRangeUnit in *.
  - rewrite IH by lia. unfold zeros. rewrite <- replicate_add. f_equal. lia.
  - destruct fuel; [lia|]. cbn. by rewrite app_nil_r.
Qed.

Lemma zero_bytes_spec n : 0 <= n -> zero_bytes n = zeros n.
Proof. intros Hn. apply zero_reads_spec. lia. Qed.

Section Reads.
Context {M : Type} `{IExtentMetadataStore M}.
Context (makeError : Z -> string -> string -> string -> exn).
Implicit Types (s : MemoryExtentStore M).

(** The bytes of a stored extent. *)
Definition extent_bytes (s : MemoryExtentStore M) (id : string) : option bytes :=
  (fun m => concat m.(buffers)) <$> get s.(categoryName) id s.(chunk_state).

(** A chunk that lies within its extent, or a chunk of zeros. *)
Definition chunk_ok (s : MemoryExtentStore M) (c : IExtentChunk) : Prop :=
  0 <= c.(offset) /\ 0 <= c.(count) /\
  (c.(id) = ZERO_EXTENT_ID \/
   exists b, extent_bytes s c.(id) = Some b /\ c.(offset) + c.(count) <= blength b).

Definition chunk_bytes (s : MemoryExtentStore M) (c : IExtentChunk) : bytes :=
  if c.(id) === ZERO_EXTENT_ID then zeros c.(count)
  else ztake c.(count) (zdrop c.(offset) (default [] (extent_bytes s c.(id)))).

Lemma readExtent_chunk s c : chunk_ok s c -> readExtent (Some c) s = Ok (chunk_bytes s c).
Proof.
  intros (Ho&Hc&Hb). unfold readExtent, chunk_bytes.
  destruct (Z.eqb_spec c.(count) 0) as [->|].
  { case_bool_decide; [done|]. by rewrite ztake_0. }
  case_bool_decide as Hz; [by rewrite zero_bytes_spec|]. destruct Hb as [?|(b&Hb&_)]; [done|].
  rewrite Hb. unfold extent_bytes in Hb. destruct (get _ _ _) as [m|]; [|done].
  cbn in Hb. injection Hb as <-. by rewrite read_chunks_spec.
Qed.

Lemma blength_chunk_bytes s c : chunk_ok s c -> blength (chunk_bytes s c) = c.(count).
Proof.
  intros (Ho&Hc&Hb). unfold chunk_bytes. case_bool_decide as Hz.
  - unfold blength, zeros. rewrite length_replicate. lia.
  - destruct Hb as [?|(b&->&Hb)]; [done|]. cbn. rewrite blength_ztake, blength_zdrop by lia. lia.
Qed.

(** A part of a chunk reads the part of its bytes. *)
Lemma sub_chunk s c i j :
  chunk_ok s c -> 0 <= i <= j -> j <= c.(count) ->
  let c' := mkChunk c.(id) (c.(offset) + i) (j - i) in
  chunk_ok s c' /\ chunk_bytes s c' = zdrop i (ztake j (chunk_bytes s c)).
Proof.
  intros (Ho&Hc&Hb) Hij Hj c'. split.
  - split_and!; cbn; [lia|lia|]. destruct Hb as [?|(b&?&?)]; [by left|right; exists b]. by split; [|lia].
  - unfold chunk_bytes, c'. cbn. case_bool_decide.
    + unfold zeros, ztake, zdrop. rewrite take_replicate, drop_replicate. f_equal. lia.
    + rewrite ztake_ztake, zdrop_ztake, zdrop_zdrop by lia. f_equal. lia.
Qed.

(** Up to the end of a read, which may be [Infinity]. *)
Definition upto (e : option Z) (b : bytes) : bytes :=
  match e with Some e => ztake e b | None => b end.

Local Arguments readExtent : simpl never.

Lemma read_many_spec s l start e : forall acc,
  Forall (chunk_ok s) l -> 0 <= acc -> from_option (Z.le start) True e ->
  let all := concat (chunk_bytes s <$> l) in
  exists a, read_many l start e acc s
    = Ok (zdrop (start - acc) (upto ((fun e => e - acc) <$> e) all), a) /\
    (forall k, e = Some k -> (a <? k) = (acc + blength all <? k)).
Proof.
  induction l as [|c l IH]; intros acc Hl Ha He; cbn.
  { exists acc. split.
    - f_equal. unfold upto, zdrop, ztake. destruct e; cbn; by rewrite ?take_nil, drop_nil.
    - intros k _. unfold blength. cbn. by rewrite Z.add_0_r. }
  inversion Hl as [|?? Hc Hl']; subst. pose proof (blength_chunk_bytes s c Hc) as Hlen.
  assert (Hcount : 0 <= c.(count)) by apply Hc.
  specialize (IH (acc + c.(count)) Hl' ltac:(lia) He). destruct IH as (a&IH&IHa).
  set (cb := chunk_bytes s c) in *. set (tl := concat (chunk_bytes s <$> l)) in *.
  destruct (Z.leb_spec (acc + c.(count)) start).
  - exists a. rewrite IH. split.
    + f_equal. f_equal. destruct e as [e|]; cbn in *.
      * rewrite ztake_app, zdrop_app by lia. rewrite (zdrop_all _ (ztake _ cb)).
        2: { rewrite blength_ztake by lia. lia. }
        rewrite blength_ztake by lia. cbn. f_equal; [lia|f_equal; lia].
      * rewrite zdrop_app, (zdrop_all _ cb) by lia. cbn. f_equal. lia.
    + intros k Hk. rewrite (IHa k Hk), blength_app. f_equal. lia.
  - destruct (le_end e acc) eqn:Hend.
    + destruct e as [e|]; [|done]. cbn in *. apply Z.leb_le in Hend.
      exists acc. split.
      * do 2 f_equal. rewrite ztake_0 by lia. unfold zdrop. by rewrite drop_nil.
      * intros k [= <-]. rewrite blength_app.
        destruct (Z.ltb_spec acc e), (Z.ltb_spec (acc + (blength cb + blength tl)) e); try done;
          pose proof (blength_nonneg cb); pose proof (blength_nonneg tl); lia.
    + set (i := Z.max 0 (start - acc)).
      set (j := match e with Some e => Z.min c.(count) (e - acc) | None => c.(count) end).
      assert (Hij : 0 <= i <= j /\ j <= c.(count)).
      { unfold i, j. destruct e as [e|]; cbn in *; [apply Z.leb_gt in Hend|]; lia. }
      destruct (sub_chunk s c i j Hc ltac:(lia) ltac:(lia)) as [Hok Hbytes].
      match goal with |- context [readExtent (Some ?x) s] =>
        replace x with (mkChunk c.(id) (c.(offset) + i) (j - i)) end.
      2: { unfold i, j. destruct e as [e|]; cbn in *.
           - apply Z.leb_gt in Hend. destruct (Z.ltb_spec acc start), (Z.leb_spec e (acc + c.(count)));
               f_equal; lia.
           - destruct (Z.ltb_spec acc start); f_equal; lia. }
      rewrite (readExtent_chunk s _ Hok), IH. cbn. exists a. split.
      * do 2 f_equal. rewrite Hbytes. fold cb. unfold i, j. destruct e as [e|]; cbn in *.
        -- apply Z.leb_gt in Hend. rewrite (ztake_app _ cb) by lia.
           assert (Hm : 0 <= start - acc \/ start - acc < 0) by lia.
           destruct Hm as [Hm|Hm].
           ++ rewrite zdrop_app by lia. rewrite Z.max_r by lia. f_equal.
              ** f_equal. rewrite Z.min_comm, <- ztake_ztake. f_equal.
                 apply ztake_all. lia.
              ** rewrite blength_ztake by lia. rewrite !zdrop_0 by lia. f_equal. lia.
           ++ rewrite !(zdrop_0 (start - acc)), Z.max_l, !(zdrop_0 0) by lia.
              rewrite (zdrop_0 (start - (acc + c.(count)))) by lia. f_equal; [|f_equal; lia].
              rewrite Z.min_comm, <- ztake_ztake. f_equal. apply ztake_all. lia.
        -- rewrite ztake_all by lia. assert (Hm : 0 <= start - acc \/ start - acc < 0) by lia.
           destruct Hm as [Hm|Hm].
           ++ rewrite (zdrop_app (start - acc)) by lia. rewrite Z.max_r by lia. f_equal.
              rewrite !zdrop_0 by lia. done.
           ++ rewrite Z.max_l by lia. rewrite !zdrop_0 by lia. done.
      * intros k Hk. rewrite (IHa k Hk), blength_app. f_equal. lia.
Qed.

(** C9. A read over several chunks returns the requested part of their
    concatenation, and a RangeError when they hold too few bytes; a read to
    [Infinity] returns everything from the offset on. *)
Theorem readExtents_correct s l offset count :
  Forall (chunk_ok s) l -> 0 <= offset -> from_option (Z.le 0) True count ->
  let all := concat (chunk_bytes s <$> l) in
  readExtents l offset count s =
    match count with
    | None => Ok (zdrop offset all)
    | Some n =>
        if n =? 0 then Ok []
        else if offset + n <=? blength all then Ok (ztake n (zdrop offset all))
        else Throw RangeError
    end.
Proof.
  intros Hl Ho Hn all. unfold readExtents.
  destruct (read_many_spec s l offset (Z.add offset <$> count) 0 Hl) as (a&Hr&Ha);
    [lia|destruct count; cbn in *; [lia|done]|].
  fold all in Hr, Ha. rewrite Hr. destruct count as [n|]; cbn in *.
  - specialize (Ha _ eq_refl). rewrite Ha.
    destruct (Z.eqb_spec n 0) as [->|Hne]; [done|].
    rewrite bool_decide_eq_false_2 by congruence. rewrite !Z.sub_0_r, Z.add_0_l.
    destruct (Z.leb_spec (offset + n) (blength all)), (Z.ltb_spec (blength all) (offset + n));
      try lia; [|done].
    f_equal. rewrite zdrop_ztake by lia. f_equal. lia.
  - do 2 f_equal. lia.
Qed.

(** A read that stays within the chunks. *)
Lemma readExtents_within s l offset n :
  Forall (chunk_ok s) l -> 0 <= offset -> 0 <= n ->
  offset + n <= blength (concat (chunk_bytes s <$> l)) ->
  readExtents l offset (Some n) s = Ok (ztake n (zdrop offset (concat (chunk_bytes s <$> l)))).
Proof.
  intros Hl Ho Hn Hle. unfold readExtents. case_bool_decide as H0; [injection H0 as ->; by rewrite ztake_0|].
  destruct (read_many_spec s l offset (Z.add offset <$> Some n) 0 Hl) as (a&Hr&Ha); [lia|cbn; lia|].
  rewrite Hr. cbn [mbind result_bind fst snd fmap option_fmap option_map upto].
  rewrite (Ha _ eq_refl), !Z.sub_0_r, Z.add_0_l, (proj2 (Z.ltb_ge _ _)) by lia.
  f_equal. rewrite zdrop_ztake by lia. f_equal. lia.
Qed.

(** ** Appending *)

Lemma concat_data_chunks d : concat (data_chunks d) = payload d.
Proof.
  assert (Hc : forall l, concat (filter (fun b => (0 <? blength b) = true) l) = concat l).
  { induction l as [|b l IH]; [done|]. rewrite filter_cons. case_decide as Hb; cbn; [by rewrite IH|].
    rewrite IH. destruct b; [done|]. destruct Hb. apply Z.ltb_lt. unfold blength. cbn. lia. }
  unfold data_chunks, payload. rewrite Hc. destruct d; [apply app_nil_r|done].
Qed.

Lemma get_trySet n ch st st' m id :
  trySet n ch st = (true, st') ->
  get m id st' = if bool_decide (m = n /\ id = ch.(chunk_id)) then Some ch else get m id st.
Proof.
  unfold trySet. cbn. destruct (match st.(_sizeLimit) with Some _ => _ | None => false end); [done|].
  intros [= <-]. unfold get. cbn. rewrite insert_insert_eq. destruct (decide (m = n)) as [->|Hm].
  - rewrite lookup_insert_eq. cbn. destruct (decide (id = ch.(chunk_id))) as [->|Hi].
    + by rewrite lookup_insert_eq, bool_decide_eq_true_2.
    + rewrite lookup_insert_ne, bool_decide_eq_false_2 by naive_solver.
      destruct (st.(_chunks) !! n); [done|]. cbn. by rewrite lookup_empty.
  - by rewrite lookup_insert_ne, bool_decide_eq_false_2 by naive_solver.
Qed.

Lemma get_trySet_refused n ch st st' m id :
  trySet n ch st = (false, st') -> get m id st' = get m id st.
Proof.
  unfold trySet. cbn. destruct (match st.(_sizeLimit) with Some _ => _ | None => false end); [|done].
  intros [= <-]. unfold get. cbn. destruct (decide (m = n)) as [->|Hm].
  - rewrite lookup_insert_eq. cbn. destruct (st.(_chunks) !! n); [done|]. cbn. apply lookup_empty.
  - by rewrite lookup_insert_ne.
Qed.

Lemma appendExtent_spec data uuid now contextId s r s' :
  appendExtent makeError data uuid now contextId s = (r, s') -> uuid <> ZERO_EXTENT_ID ->
  (forall id, id <> uuid -> extent_bytes s' id = extent_bytes s id) /\
  match r with
  | Ok c => c = mkChunk uuid 0 (blength (payload data)) /\
            extent_bytes s' uuid = Some (payload data)
  | Throw e =>
      (e = size_limit_error makeError contextId /\ extent_bytes s' uuid = extent_bytes s uuid)
      \/ exists x m, updateExtent x s.(metadataStore) = (Throw e, m)
  end.
Proof.
  intros Happ Hu. unfold appendExtent in Happ. rewrite concat_data_chunks in Happ. revert Happ. run.
  set (ch := mkMemoryChunk uuid 0 (blength (payload data)) (data_chunks data)).
  destruct (trySet s.(categoryName) ch s.(chunk_state)) as [[] st] eqn:Hset.
  - unfold on_metadata. cbn.
    set (x := mkExtentModel _ _ _ _ _).
    assert (Hothers : forall id m, id <> uuid ->
      extent_bytes (mkMemoryExtentStore s.(categoryName) st m) id = extent_bytes s id).
    { intros id m Hid. unfold extent_bytes. cbn.
      rewrite (get_trySet _ _ _ _ s.(categoryName) id Hset).
      by rewrite bool_decide_eq_false_2 by naive_solver. }
    destruct (updateExtent x s.(metadataStore)) as [[[]|e] m] eqn:Hup; intros [= <- <-];
      (split; [intros id Hid; by apply Hothers|]).
    2: { right. by exists x, m. }
    split; [done|]. unfold extent_bytes. cbn.
    rewrite (get_trySet _ _ _ _ s.(categoryName) uuid Hset), bool_decide_eq_true_2 by done.
    cbn. by rewrite concat_data_chunks.
  - intros [= <- <-].
    assert (Hall : forall id, extent_bytes (set_chunk_state st s) id = extent_bytes s id).
    { intros id. unfold extent_bytes. cbn. by rewrite (get_trySet_refused _ _ _ _ s.(categoryName) id Hset). }
    split; [intros id _; apply Hall|]. left. split; [done|apply Hall].
Qed.

(** The chunk of a whole extent. *)
Lemma whole_chunk s uuid b :
  extent_bytes s uuid = Some b -> uuid <> ZERO_EXTENT_ID ->
  let c := mkChunk uuid 0 (blength b) in chunk_ok s c /\ chunk_bytes s c = b.
Proof.
  intros Hb Hu c. pose proof (blength_nonneg b). split.
  - split_and!; cbn; [lia|lia|]. right. exists b. split; [done|lia].
  - unfold chunk_bytes. cbn. rewrite bool_decide_eq_false_2, Hb by done. cbn.
    by rewrite zdrop_0, ztake_all by lia.
Qed.

(** Appending data changes no other extent; either the data is stored under
    the new id, so that reading the returned chunk gives the data back, or it is
    refused with the error of the size limit and the extent is not there, or the
    metadata store has failed. *)
Theorem append_read data uuid now contextId s r s' :
  appendExtent makeError data uuid now contextId s = (r, s') -> uuid <> ZERO_EXTENT_ID ->
  (forall id, id <> uuid -> extent_bytes s' id = extent_bytes s id) /\
  match r with
  | Ok c => readExtent (Some c) s' = Ok (payload data) /\ c.(count) = blength (payload data)
  | Throw e =>
      (e = size_limit_error makeError contextId /\ extent_bytes s' uuid = extent_bytes s uuid)
      \/ exists x m, updateExtent x s.(metadataStore) = (Throw e, m)
  end.
Proof.
  intros Happ Hu. destruct (appendExtent_spec _ _ _ _ _ _ _ Happ Hu) as [Ho Hr].
  split; [done|]. destruct r as [c|e]; [|done]. destruct Hr as [-> Hb].
  destruct (whole_chunk s' uuid _ Hb Hu) as [Hok Hc]. split; [|done].
  by rewrite (readExtent_chunk s' _ Hok), Hc.
Qed.

(** ** The promises of the interface *)

Definition memory_stored s (c : IExtentChunk) (b : bytes) : Prop :=
  chunk_ok s c /\ c.(id) <> ZERO_EXTENT_ID /\ chunk_bytes s c = b.
Definition memory_fresh s (id : string) : Prop :=
  extent_bytes s id = None /\ id <> ZERO_EXTENT_ID.

Lemma memory_stored_kept s s' id c b :
  memory_stored s c b -> extent_bytes s id = None ->
  (forall i, i <> id -> extent_bytes s' i = extent_bytes s i) -> memory_stored s' c b.
Proof.
  intros ((H1&H2&Hc)&Hz&Hb) Hnone Hsame. destruct Hc as [?|(b0&Hb0&Hle)]; [done|].
  assert (c.(Extents.id) <> id) by (intros Heq; rewrite Heq in Hb0; congruence).
  pose proof (Hsame c.(Extents.id) ltac:(done)) as He.
  split; [|split; [done|]].
  - split_and!; [done|done|]. right. exists b0. by rewrite He.
  - unfold chunk_bytes in *. by rewrite He.
Qed.

Lemma memory_extent_store_laws : IExtentStoreLaws (H := memory_extent_store makeError) (MemoryExtentStore M).
Proof.
  refine {| stored := memory_stored; fresh := memory_fresh |}.
  - intros s c b (Hok&_&<-). by apply readExtent_chunk.
  - intros b uuid now ctx s r s' Happ [Hnone Hz].
    destruct (appendExtent_spec _ _ _ _ _ _ _ Happ Hz) as [Ho Hr]. split.
    + intros c b' Hc. by apply (memory_stored_kept s s' uuid).
    + intros c ->. destruct Hr as [-> Hb]. destruct (whole_chunk s' uuid _ Hb Hz) as [Hok Hbytes].
      by split_and!.
Defined.

Lemma memory_part s c b i n :
  memory_stored s c b -> 0 <= i -> 0 <= n -> i + n <= c.(count) ->
  memory_stored s (mkChunk c.(id) (c.(offset) + i) n) (part i n b).
Proof.
  intros (Hok&Hz&<-) Hi Hn Hle.
  destruct (sub_chunk s c i (i + n) Hok) as [H1 H2]; [lia..|]. replace (i + n - i) with n in * by lia.
  split_and!; [exact H1|done|]. rewrite H2, zdrop_ztake by lia. by replace (i + n - i) with n by lia.
Qed.

Lemma memory_readable s c b :
  memory_stored s c b \/
  (c.(id) = ZERO_EXTENT_ID /\ c.(offset) = 0 /\ 0 <= c.(count) /\ b = replicate (Z.to_nat c.(count)) 0) ->
  chunk_ok s c /\ chunk_bytes s c = b.
Proof.
  intros [(Hok&_&Hb)|(Hz&Ho&Hc&->)]; [done|]. split; [by split_and!; [lia|done|left]|].
  unfold chunk_bytes. by rewrite bool_decide_eq_true_2.
Qed.

Lemma memory_extent_reader_laws :
  IExtentReaderLaws (H := memory_extent_store makeError) (H0 := memory_extent_store_laws)
    (IExtentReader0 := memory_extent_reader) (MemoryExtentStore M).
Proof.
  split; cbn.
  - intros s c b (Hok&_&<-). symmetry. by apply blength_chunk_bytes.
  - apply memory_part.
  - by intros [].
  - done.
  - intros s l bs i n Hl Hi Hn Hle. unfold readExtentsAt.
    assert (Hall : Forall (chunk_ok s) l /\ chunk_bytes s <$> l = bs).
    { clear Hle. induction Hl as [|c b l bs Hc _ [IH1 IH2]]; [done|].
      destruct (memory_readable s c b Hc) as [H1 H2]. cbn. split; [by constructor|by rewrite H2, IH2]. }
    destruct Hall as [Hok Hbs]. rewrite <- Hbs in *. unfold part.
    destruct (Z.eqb_spec n 0) as [->|Hn0]; [done|].
    assert (Hr := readExtents_within s l i n Hok Hi Hn Hle). by destruct n.
Qed.

(** ** Deleting *)

Lemma get_delete_chunk n id st m i :
  get m i (delete_chunk n id st).2 = if bool_decide (m = n /\ i = id) then None else get m i st.
Proof.
  unfold delete_chunk, get. destruct (st.(_chunks) !! n) as [c|] eqn:Hn; cbn.
  2: { case_bool_decide as Hb; [|done]. destruct Hb as [-> ->]. by rewrite Hn. }
  destruct (c.(chunks) !! id) as [ch|] eqn:Hid; cbn.
  2: { case_bool_decide as Hb; [|done]. destruct Hb as [-> ->]. by rewrite Hn. }
  destruct (decide (m = n)) as [->|Hm].
  - rewrite Hn. cbn. case_bool_decide as He.
    + rewrite lookup_delete_eq. cbn. rewrite (bool_decide_ext (n = n /\ i = id) (i = id)) by tauto.
      case_bool_decide as Hi; [done|]. rewrite <- (lookup_delete_ne c.(chunks) id) by done.
      by rewrite He, lookup_empty.
    + rewrite lookup_insert_eq. cbn. rewrite (bool_decide_ext (n = n /\ i = id) (i = id)) by tauto.
      case_bool_decide as Hi; [subst; apply lookup_delete_eq|by apply lookup_delete_ne].
  - rewrite (bool_decide_eq_false_2 (m = n /\ i = id)) by tauto. case_bool_decide;
      [by rewrite lookup_delete_ne|by rewrite lookup_insert_ne].
Qed.

Lemma deleteExtents_spec l s r s' :
  deleteExtents l s = (r, s') ->
  (forall id, id ∉ l -> extent_bytes s' id = extent_bytes s id) /\
  (forall n, r = Ok n ->
     n = Z.of_nat (length l) /\ forall id, id ∈ l -> extent_bytes s' id = None) /\
  (accounted s.(chunk_state) -> accounted s'.(chunk_state)).
Proof.
  revert s r s'. induction l as [|id l IH]; intros s r s'; cbn.
  { run. intros [= <- <-]. split_and!; [done| |done]. intros n [= <-]. split; [done|].
    intros id Hid. by apply elem_of_nil in Hid. }
  run. set (s1 := match get _ id _ with Some _ => _ | None => _ end).
  assert (Hs1 : s1 = set_chunk_state (delete_chunk s.(categoryName) id s.(chunk_state)).2 s).
  { unfold s1. destruct (get _ id _) eqn:Hg; [done|]. destruct s as [n st m]. cbn in *.
    unfold get in Hg. unfold delete_chunk. destruct (st.(_chunks) !! n); [|done]. cbn in Hg.
    by rewrite Hg. }
  unfold on_metadata. destruct (deleteExtent id s1.(metadataStore)) as [[[]|e] m].
  2: { intros [= <- <-]. rewrite Hs1. cbn. split_and!; [|done|].
       - intros i Hi. unfold extent_bytes. cbn. rewrite get_delete_chunk.
         rewrite bool_decide_eq_false_2; [done|]. intros [_ ->]. apply Hi. left.
       - intros Ha. by destruct (delete_chunk_ok s.(categoryName) id s.(chunk_state) _ _ Ha (surjective_pairing _)). }
  destruct (deleteExtents l (set_metadata m s1)) as [r1 s2] eqn:Hrec.
  destruct (IH _ _ _ Hrec) as (Hout&Hin&Hacc). rewrite Hs1 in Hout, Hacc. clear IH.
  assert (Hget : forall i, extent_bytes (set_metadata m s1) i = if bool_decide (i = id) then None else extent_bytes s i).
  { intros i. unfold extent_bytes. rewrite Hs1. cbn. rewrite get_delete_chunk.
    rewrite (bool_decide_ext (s.(categoryName) = s.(categoryName) /\ i = id) (i = id)) by tauto.
    by case_bool_decide. }
  rewrite Hs1 in Hget. intros Hr.
  assert (s' = s2) as -> by (destruct r1; by injection Hr). split_and!.
  - intros i [Hi Hil]%not_elem_of_cons. rewrite Hout by done. rewrite Hget.
    by rewrite bool_decide_eq_false_2.
  - intros n ->. destruct r1 as [k|]; [|done]. injection Hr as <-.
    destruct (Hin k eq_refl) as [-> Hdel]. split; [cbn; lia|].
    intros i Hi. destruct (decide (i ∈ l)) as [Hl|Hl]; [by apply Hdel|].
    rewrite Hout, Hget by done. apply elem_of_cons in Hi as [->|]; [|done].
    by rewrite bool_decide_eq_true_2.
  - intros Ha. apply Hacc. cbn.
    by destruct (delete_chunk_ok s.(categoryName) id s.(chunk_state) _ _ Ha (surjective_pairing _)).
Qed.

(** Deleting extents counts every id of the list, known or not, and removes
    those extents and no other, with the accounting kept; when the metadata
    store fails the extents outside the list are untouched as well. *)
Theorem deleteExtents_correct l s r s' :
  deleteExtents l s = (r, s') ->
  (forall id, id ∉ l -> extent_bytes s' id = extent_bytes s id) /\
  (forall n, r = Ok n ->
     n = Z.of_nat (length l) /\ forall id, id ∈ l -> extent_bytes s' id = None) /\
  (accounted s.(chunk_state) -> accounted s'.(chunk_state)).
Proof. apply deleteExtents_spec. Qed.

End Reads.

(** ** Witnesses *)

(** A store over the metadata collection, with a limit of 6 bytes. *)
Definition no_error (status : Z) (code message id : string) : exn := JsError.
Definition store0 : MemoryExtentStore (map_coll ExtentDoc) :=
  mkMemoryExtentStore "blob" (mkChunkStore (Some 6) ∅ 0) (∅, 0).
Definition store1 : MemoryExtentStore (map_coll ExtentDoc) :=
  (appendExtent no_error (Stream [[1; 2]; []; [3; 4]]) "e1" 0 None store0).2.
Definition parts : list IExtentChunk := [mkChunk "e1" 1 3; mkChunk ZERO_EXTENT_ID 0 2].

Lemma chunk_store_accounting_witness :
  let c n := mkMemoryChunk "x" 0 n [] in
  let st := foldl run_chunk_op (mkChunkStore (Some 6) ∅ 0)
              [Set_ "a" (c 4); Set_ "b" (c 1); Set_ "a" (c 2); Set_ "b" (c 5); Delete_ "b" "x"] in
  accounted st /\ within_limit st.
Proof.
  apply (chunk_store_accounting (Some 6)).
  - repeat constructor; cbn; lia.
  - cbn. lia.
Defined.

Lemma parts_ok : Forall (chunk_ok store1) parts.
Proof.
  apply Forall_cons; split; [|apply Forall_singleton]; split_and!; cbn; try lia; [right|by left].
  exists [1; 2; 3; 4]. split; [reflexivity|vm_compute; discriminate].
Qed.

Lemma readExtents_correct_witness :
  readExtents parts 1 (Some 3) store1 = Ok [3; 4; 0] /\
  readExtents parts 1 (Some 5) store1 = Throw RangeError /\
  readExtents parts 1 None store1 = Ok [3; 4; 0; 0].
Proof.
  split_and!.
  - rewrite (readExtents_correct store1 parts 1 (Some 3) parts_ok) by (cbn; lia). reflexivity.
  - rewrite (readExtents_correct store1 parts 1 (Some 5) parts_ok) by (cbn; lia). reflexivity.
  - rewrite (readExtents_correct store1 parts 1 None parts_ok) by (cbn; lia). reflexivity.
Defined.

Lemma append_read_witness :
  readExtent (Some (mkChunk "e1" 0 4)) store1 = Ok [1; 2; 3; 4].
Proof.
  destruct (append_read no_error (Stream [[1; 2]; []; [3; 4]]) "e1" 0 None store0
              (Ok (mkChunk "e1" 0 4)) store1) as (_&Hr&_); [reflexivity|discriminate|].
  exact Hr.
Defined.

Lemma deleteExtents_correct_witness :
  extent_bytes (deleteExtents ["e1"; "e2"] store1).2 "e1" = None.
Proof.
  destruct (deleteExtents_correct ["e1"; "e2"] store1 (Ok 2)
              (deleteExtents ["e1"; "e2"] store1).2) as (_&Hd&_); [vm_compute; reflexivity|].
  apply (Hd 2); [reflexivity|apply list_elem_of_here].
Defined.
