(* ===== verification/GC.v ===== *)
(** * GC: the garbage collection of extents

    src/src/blob/gc/BlobGCManager.ts and src/src/queue/gc/QueueGCManager.ts: the
    life cycle of a manager and its mark-and-sweep loop. The code is
    asynchronous; a manager is a state machine that other code interleaves with
    at every [await]. [loop] says where [markSweepLoop] waits, [resume] runs it
    to its next [await], [handle] does what an event does. The two managers
    differ in the condition of their loops over pages and in the interval they
    replace a non-positive one with: the class [GCManager]. Log output, and the
    initialisation of the stores by [start], are not modelled. *)

From S2P Require Import Prelude Errors ExtentMetadata.
Open Scope Z_scope.
Open Scope azurite_scope.

Inductive Status := Initializing | Running | Closing | Closed.
#[export] Instance Status_eq_dec : EqDecision Status.
Proof. solve_decision. Defined.

(** [deleteExtents] of the extent store, one extent at a time. *)
Class ISweep (W : Type) := {
  sweep_one : string -> W -> result exn unit * W
}.

Class GCManager := {
  continues : IteratorResult -> Status -> bool;
  gcIntervalInMS : Z -> Z
}.

Definition BlobGCManager : GCManager := {|
  continues := fun r st => (negb r.(done) || (0 <? Z.of_nat (length r.(value)))) && (st === Running);
  gcIntervalInMS := fun i => if i <=? 0 then 1 else i
|}.

Definition QueueGCManager : GCManager := {|
  continues := fun r st => negb r.(done) && (st === Running);
  gcIntervalInMS := fun i => if i <=? 0 then 1000 * 60 else i
|}.

(** A [Set<string>]: its elements in the order of insertion. *)
Definition set_add (x : string) (s : list string) : list string :=
  if bool_decide (x ∈ s) then s else s ++ [x].
Definition set_delete (x : string) (s : list string) : list string :=
  filter (fun y => y <> x) s.

Section Manager.
Context {W AItr RItr : Type}.
Context `{all : !IGCExtentProvider W AItr, referred : !IGCExtentProvider W RItr, sweep : !ISweep W}.
Context `{gc : !GCManager}.

Inductive loop :=
| Listing (itr : AItr) (ids : list string)
| ListedPage (page : IteratorResult) (itr : AItr) (ids : list string)
| Listed (ids : list string)
| Marking (itr : RItr) (ids : list string)
| MarkedPage (page : IteratorResult) (itr : RItr) (ids : list string)
| Sweeping (ids : list string)
| Swept
| Sleeping
| Woken
| Finished
| Failed (err : exn).

(** [closers] counts the listeners of "closed", [armed] says whether the error
    handler, registered once, still listens; an error without a listener is
    thrown by the emitter. [starting]: a call of [start] waits for a store. *)
Record Manager := mkManager {
  _status : Status;
  starting : bool;
  loop_at : option loop;
  closers : nat;
  armed : bool;
  reported : list exn;
  uncaught : list exn;
  interval : Z;
  world : W
}.

Definition new_manager (gcInterval : Z) (w : W) : Manager :=
  mkManager Closed false None 0 true [] [] (gcIntervalInMS gcInterval) w.

Definition set_loop (l : option loop) (w : W) (m : Manager) : Manager :=
  mkManager m.(_status) m.(starting) l m.(closers) m.(armed) m.(reported) m.(uncaught) m.(interval) w.
Definition set_status (s : Status) (b : bool) (m : Manager) : Manager :=
  mkManager s b m.(loop_at) m.(closers) m.(armed) m.(reported) m.(uncaught) m.(interval) m.(world).
Definition set_closers (n : nat) (m : Manager) : Manager :=
  mkManager m.(_status) m.(starting) m.(loop_at) n m.(armed) m.(reported) m.(uncaught) m.(interval) m.(world).

(** [while (this._status === Status.Running)]. *)
Definition loop_head (now : Z) (st : Status) (w : W) : loop :=
  if st === Running then Listing (iteratorExtents now w) [] else Finished.

(** [markSweepLoop], [markSweep] and [getAllExtents] between two [await]s. *)
Definition resume (now interval : Z) (st : Status) (l : loop) (w : W) : option loop * W :=
  match l with
  | Listing itr ids =>
      match next itr w with
      | (Ok r, itr) => (Some (ListedPage r itr ids), w)
      | (Throw e, _) => (Some (Failed e), w)
      end
  | ListedPage r itr ids =>
      if continues r st
      then (Some (Listing itr (foldl (fun s x => set_add x s) ids r.(value))), w)
      else (Some (Listed ids), w)
  | Listed ids =>
      if st !== Running then (Some Swept, w)
      else (Some (Marking (iteratorExtents now w) ids), w)
  | Marking itr ids =>
      match next itr w with
      | (Ok r, itr) => (Some (MarkedPage r itr ids), w)
      | (Throw e, _) => (Some (Failed e), w)
      end
  | MarkedPage r itr ids =>
      if continues r st
      then (Some (Marking itr (foldl (fun s x => set_delete x s) ids r.(value))), w)
      else if 0 <? Z.of_nat (length ids) then (Some (Sweeping ids), w) else (Some Swept, w)
  | Sweeping [] => (Some Swept, w)
  | Sweeping (id :: ids) =>
      match sweep_one id w with
      | (Ok _, w) => (Some (Sweeping ids), w)
      | (Throw e, w) => (Some (Failed e), w)
      end
  | Swept =>
      if (st === Running) && negb (interval =? 0) then (Some Sleeping, w)
      else (Some (loop_head now st w), w)
  | Woken => (Some (loop_head now st w), w)
  | Sleeping | Finished | Failed _ => (Some l, w)
  end.

(** The [then] and [catch] of [start]: emitting "closed" runs the listeners of
    [close], emitting "error" the handler. *)
Definition emit_closed (m : Manager) : Manager :=
  set_loop None m.(world)
    (match m.(closers) with O => m | S _ => set_closers 0 (set_status Closed m.(starting) m) end).

Definition emit_error (e : exn) (m : Manager) : Manager :=
  mkManager Closed m.(starting) None m.(closers) false
    (if m.(armed) then m.(reported) ++ [e] else m.(reported))
    (if m.(armed) then m.(uncaught) else m.(uncaught) ++ [e])
    m.(interval) m.(world).

(** What happens to a manager: other code changes the stores; a call of
    [start], the end of its initialisation or its failure; a call of [close];
    the timer of [sleep]; the loop goes on. *)
Inductive event :=
| Env (f : W -> W)
| Start
| Initialized (now : Z)
| InitFailed
| Close
| Timer
| Resume (now : Z).

Definition start (m : Manager) : result exn Manager :=
  if m.(_status) === Running then Ok m
  else throw_when (m.(_status) !== Closed) JsError;;
       Ok (set_status Initializing true m).

(** The call registers its listener before anything else runs. *)
Definition close (m : Manager) : result exn Manager :=
  if m.(_status) === Closed then Ok m
  else throw_when (m.(_status) !== Running) JsError;;
       let m := set_closers (S m.(closers)) (set_status Closing m.(starting) m) in
       Ok (match m.(loop_at) with
           | Some Sleeping => set_loop (Some Woken) m.(world) m
           | _ => m
           end).

Definition attempt (r : result exn Manager) (m : Manager) : Manager :=
  match r with Ok m => m | Throw _ => m end.

Definition handle (m : Manager) (e : event) : Manager :=
  match e with
  | Env f => set_loop m.(loop_at) (f m.(world)) m
  | Start => attempt (start m) m
  | Initialized now =>
      if m.(starting)
      then let m := set_status Running false m in
           set_loop (Some (loop_head now m.(_status) m.(world))) m.(world) m
      else m
  | InitFailed => if m.(starting) then set_status m.(_status) false m else m
  | Close => attempt (close m) m
  | Timer => match m.(loop_at) with
             | Some Sleeping => set_loop (Some Woken) m.(world) m
             | _ => m
             end
  | Resume now =>
      match m.(loop_at) with
      | None => m
      | Some Finished => emit_closed m
      | Some (Failed e) => emit_error e m
      | Some l => let (l, w) := resume now m.(interval) m.(_status) l m.(world) in set_loop l w m
      end
  end.

Definition run (m : Manager) (es : list event) : Manager := foldl handle m es.

End Manager.

Arguments loop : clear implicits.
Arguments Manager : clear implicits.
Arguments event : clear implicits.
