(* ===== verification/GCSpec.v ===== *)
(** * GCSpec: what the garbage collection keeps, and its life cycle

    The states a manager goes through, that closing it ends its loop, that a
    sweep spares what is referred to while it marks, and what closing the
    manager while it marks does. *)

From S2P Require Import Prelude Errors ExtentMetadata GC.
Open Scope Z_scope.
Open Scope azurite_scope.

(** ** The interface of the provider of referred extents *)

(** What marking relies on: the references of a store stand under keys, and the
    iterator passes over them; a reference that is in the store at each call of
    [next] is in one of the pages. *)
Class ReferredLaws (W Itr K : Type) `{IGCExtentProvider W Itr} := {
  refers : W -> K -> string -> Prop;
  passed : Itr -> K -> Prop;
  passed_fresh now w k : ~ passed (iteratorExtents now w) k;
  next_yields it w r it' k x :
    next it w = (Ok r, it') -> refers w k x -> ~ passed it k ->
    r.(done) = false /\ (x ∈ r.(value) \/ ~ passed it' k)
}.

(** What the two managers have in common. *)
Class GCManagerLaws `{GCManager} := {
  continues_running r st : continues r st = true -> st = Running;
  continues_not_done r : r.(done) = false -> continues r Running = true;
  interval_positive i : 0 < gcIntervalInMS i
}.

Lemma BlobGCManager_laws : GCManagerLaws (H := BlobGCManager).
Proof.
  split; cbn.
  - intros r st [_ Hst]%andb_prop. by apply bool_decide_eq_true in Hst.
  - intros r ->. done.
  - intros i. destruct (Z.leb_spec i 0); lia.
Qed.

Lemma QueueGCManager_laws : GCManagerLaws (H := QueueGCManager).
Proof.
  split; cbn.
  - intros r st [_ Hst]%andb_prop. by apply bool_decide_eq_true in Hst.
  - intros r ->. done.
  - intros i. destruct (Z.leb_spec i 0); lia.
Qed.

Lemma elem_set_delete_all l ids (x : string) :
  x ∈ foldl (fun s x => set_delete x s) ids l <-> x ∈ ids /\ x ∉ l.
Proof.
  revert ids. induction l as [|y l IH]; intros ids; cbn; [set_solver|].
  rewrite IH. unfold set_delete. rewrite list_elem_of_filter. set_solver.
Qed.

(** ** The life cycle *)

Section LifeCycle.
Context {W AItr RItr : Type}.
Context `{all : !IGCExtentProvider W AItr, referred : !IGCExtentProvider W RItr, sweep : !ISweep W}.
Context `{gc : !GCManager, !GCManagerLaws}.
Implicit Types (m : Manager W AItr RItr) (es : list (event W)) (l : loop AItr RItr).

(** A loop runs exactly while the manager is running or closing; while it is
    closing it does not sleep and a listener waits for its end. *)
Definition lifecycle m : Prop :=
  match m.(_status) with
  | Closed => m.(loop_at) = None /\ m.(starting) = false
  | Initializing => m.(loop_at) = None
  | Running => m.(starting) = false /\
               exists l, m.(loop_at) = Some l /\ l <> Finished
  | Closing => m.(starting) = false /\ (0 < m.(closers))%nat /\
               exists l, m.(loop_at) = Some l /\ l <> Sleeping
  end.

(** The promise of the loop is settled. *)
Definition is_settled (l : loop AItr RItr) : bool :=
  match l with Finished | Failed _ => true | _ => false end.

Lemma resume_some now i st l w : exists l', (resume now i st l w).1 = Some l'.
Proof.
  destruct l as [itr ids|r itr ids|ids|itr ids|r itr ids|[|x ids]| | | | |e]; cbn; try (by eexists).
  - destruct (next itr w) as [[] ?]; by eexists.
  - destruct (continues r st); by eexists.
  - destruct (st !== Running); by eexists.
  - destruct (next itr w) as [[] ?]; by eexists.
  - destruct (continues r st), (0 <? Z.of_nat (length ids)); by eexists.
  - destruct (sweep_one x w) as [[] ?]; by eexists.
  - destruct (_ && _); by eexists.
Qed.

Lemma resume_running now i l w l' w' :
  resume now i Running l w = (Some l', w') -> l <> Finished -> l' <> Finished.
Proof.
  intros Hr Hl ->. revert Hr. unfold resume, loop_head. rewrite bool_decide_eq_true_2 by done.
  destruct l as [itr ids|r itr ids|ids|itr ids|r itr ids|[|x ids]| | | | |e]; cbn; try done.
  - by destruct (next itr w) as [[] ?].
  - by destruct (continues r Running).
  - by destruct (next itr w) as [[] ?].
  - by destruct (continues r Running), (0 <? Z.of_nat (length ids)).
  - by destruct (sweep_one x w) as [[] ?].
  - by destruct (negb _).
Qed.

Lemma resume_closing now i l w l' w' :
  resume now i Closing l w = (Some l', w') -> l <> Sleeping -> l' <> Sleeping.
Proof.
  intros Hr Hl ->. revert Hr. unfold resume, loop_head. rewrite bool_decide_eq_false_2 by done.
  destruct l as [itr ids|r itr ids|ids|itr ids|r itr ids|[|x ids]| | | | |e]; cbn; try done.
  - by destruct (next itr w) as [[] ?].
  - by destruct (continues r Closing).
  - by destruct (next itr w) as [[] ?].
  - by destruct (continues r Closing), (0 <? Z.of_nat (length ids)).
  - by destruct (sweep_one x w) as [[] ?].
Qed.

Lemma handle_lifecycle m e : lifecycle m -> lifecycle (handle m e).
Proof.
  intros Hm. destruct e as [f| |now| | | |now].
  - exact Hm.
  - unfold handle, start. case_bool_decide; [done|]. case_bool_decide as Hc; [|done]. cbn.
    unfold lifecycle in *. cbn. rewrite Hc in Hm. by destruct Hm.
  - unfold handle. destruct m.(starting) eqn:Hs; [|done]. unfold lifecycle, loop_head. cbn.
    rewrite bool_decide_eq_true_2 by done. split; [done|]. by eexists.
  - unfold handle. destruct m.(starting) eqn:Hs; [|done]. unfold lifecycle in *. cbn.
    destruct m.(_status); try done; rewrite Hs in Hm; naive_solver.
  - unfold handle, close. case_bool_decide; [done|]. case_bool_decide as Hc; [|done]. cbn.
    unfold lifecycle in Hm. rewrite Hc in Hm. destruct Hm as (Hs&l&Hl&Hf).
    unfold lifecycle. cbn. rewrite Hl. destruct l; cbn; (split; [done|]); (split; [lia|]);
      eexists; (split; [by rewrite ?Hl|done]).
  - unfold handle. destruct m.(loop_at) as [[]|] eqn:Hl; try done.
    unfold lifecycle in *. cbn. rewrite Hl in Hm. destruct m.(_status); naive_solver.
  - unfold handle. destruct m.(loop_at) as [l|] eqn:Hl; [|done].
    assert (Hst : (m.(_status) = Running /\ l <> Finished) \/ (m.(_status) = Closing /\ l <> Sleeping)).
    { unfold lifecycle in Hm. rewrite Hl in Hm. destruct m.(_status); naive_solver. }
    destruct (is_settled l) eqn:Hset.
    + destruct l; try done; cbn in *.
      * destruct Hst as [[_ ?]|[Hc _]]; [done|]. unfold lifecycle in *. rewrite Hc in Hm.
        destruct Hm as (Hs&Hn&_). unfold emit_closed. destruct m.(closers); [lia|]. done.
      * unfold lifecycle, emit_error in *. cbn. split; [done|].
        destruct m.(_status); naive_solver.
    + destruct (resume now m.(interval) m.(_status) l m.(world)) as [o w'] eqn:Hr.
      destruct (resume_some now m.(interval) m.(_status) l m.(world)) as [l' Hl'].
      rewrite Hr in Hl'. cbn in Hl'. subst o.
      replace (match l with Finished => _ | _ => _ end) with (set_loop (Some l') w' m)
        by (by destruct l).
      unfold lifecycle in *. cbn. destruct Hst as [[Hc Hf]|[Hc Hf]]; rewrite Hc in *.
      * split; [apply Hm|]. exists l'. split; [done|]. by eapply resume_running.
      * split; [apply Hm|]. split; [apply Hm|]. exists l'. split; [done|]. by eapply resume_closing.
Qed.

Lemma run_lifecycle gcInterval w es : lifecycle (run (new_manager gcInterval w) es).
Proof.
  assert (Hgen : forall m, lifecycle m -> lifecycle (run m es)).
  { unfold run. induction es as [|e es IH]; intros m Hm; [done|]. by apply IH, handle_lifecycle. }
  by apply Hgen.
Qed.

(** Whatever calls of start and close, failures, timers and changes of the
    stores happen, a loop runs exactly while the manager is running or closing,
    and is started only when there is none; a closing manager's loop does not
    sleep and a call of close waits for its end. *)
Theorem gc_lifecycle gcInterval w es : lifecycle (run (new_manager gcInterval w) es).
Proof. apply run_lifecycle. Qed.

(** ** Closing *)

(** How often the loop of a closing manager goes on before it has ended. *)
Definition rounds (l : loop AItr RItr) : nat :=
  match l with
  | Finished | Failed _ | Sleeping => 1
  | Swept | Woken => 2
  | Sweeping ids => 3 + length ids
  | Listed _ => 3
  | ListedPage _ _ _ => 4
  | Listing _ _ => 5
  | MarkedPage _ _ ids => 4 + length ids
  | Marking _ ids => 5 + length ids
  end.

Fixpoint resumes es : nat :=
  match es with
  | [] => 0
  | Resume _ :: es => S (resumes es)
  | _ :: es => resumes es
  end.

(** The errors the manager has met. *)
Definition errors m : nat := length (m.(reported) ++ m.(uncaught)).

Lemma resume_rounds now i l w l' w' :
  resume now i Closing l w = (Some l', w') -> is_settled l = false -> l <> Sleeping ->
  (rounds l' < rounds l)%nat.
Proof.
  unfold resume, loop_head. rewrite bool_decide_eq_false_2 by done.
  destruct l as [itr ids|r itr ids|ids|itr ids|r itr ids|[|x ids]| | | | |e]; cbn; intros Hr Hs Hl;
    try done.
  - destruct (next itr w) as [[] ?]; injection Hr as <- _; cbn; lia.
  - destruct (continues r Closing) eqn:Hc.
    + apply continues_running in Hc. done.
    + injection Hr as <- _. cbn. lia.
  - injection Hr as <- _. cbn. lia.
  - destruct (next itr w) as [[] ?]; injection Hr as <- _; cbn; lia.
  - destruct (continues r Closing) eqn:Hc.
    + apply continues_running in Hc. done.
    + destruct (0 <? Z.of_nat (length ids)); injection Hr as <- _; cbn; lia.
  - injection Hr as <- _. cbn. lia.
  - destruct (sweep_one x w) as [[] ?]; injection Hr as <- _; cbn; lia.
  - injection Hr as <- _. cbn. lia.
  - injection Hr as <- _. cbn. lia.
Qed.

Lemma handle_resume m now l :
  m.(loop_at) = Some l -> is_settled l = false -> exists l' w',
  resume now m.(interval) m.(_status) l m.(world) = (Some l', w') /\
  handle m (Resume now) = set_loop (Some l') w' m.
Proof.
  intros Hl Hset. destruct (resume now m.(interval) m.(_status) l m.(world)) as [o w'] eqn:Hr.
  destruct (resume_some now m.(interval) m.(_status) l m.(world)) as [l' Hl'].
  rewrite Hr in Hl'. cbn in Hl'. subst o. exists l', w'. split; [done|].
  unfold handle. rewrite Hl. destruct l; rewrite ?Hr; done.
Qed.

Lemma handle_closing m e l :
  lifecycle m -> m.(_status) = Closing -> m.(loop_at) = Some l ->
  let m' := handle m e in
  (m'.(_status) = Closed /\ m'.(loop_at) = None /\ (m'.(closers) = 0%nat \/ (errors m < errors m')%nat)) \/
  (m'.(_status) = Closing /\ errors m' = errors m /\ exists l', m'.(loop_at) = Some l' /\
   (rounds l' + resumes [e] <= rounds l)%nat).
Proof.
  intros Hm Hst Hl. assert (Hm0 := Hm). unfold lifecycle in Hm0. rewrite Hst, Hl in Hm0.
  destruct Hm0 as (Hstart&Hcl&_&[= <-]&Hns).
  assert (Hsame : forall m', m'.(_status) = Closing -> m'.(loop_at) = m.(loop_at) -> errors m' = errors m ->
    m'.(_status) = Closing /\ errors m' = errors m /\ exists l', m'.(loop_at) = Some l' /\
    (rounds l' + 0 <= rounds l)%nat).
  { intros m' H1 H2 H3. split_and!; [done|done|]. exists l. split; [congruence|lia]. }
  destruct e as [f| |now| | | |now]; try (right; apply Hsame).
  all: try done.
  all: try (unfold handle, start, close; rewrite ?Hst, ?Hstart; done).
  all: try (unfold handle; rewrite Hl; destruct l; done).
  cbn [resumes]. destruct (is_settled l) eqn:Hset.
  - left. unfold handle. rewrite Hl. destruct l; try done; cbn.
    + unfold emit_closed. destruct m.(closers); [lia|]. cbn. auto.
    + split_and!; [done|done|]. right. unfold errors, emit_error. cbn.
      destruct m.(armed); rewrite ?length_app; cbn; lia.
  - right. destruct (handle_resume m now l Hl Hset) as (l'&w'&Hr&->). rewrite Hst in Hr. cbn.
    split_and!; [done|done|]. exists l'. split; [done|].
    pose proof (resume_rounds _ _ _ _ _ _ Hr Hset Hns). lia.
Qed.

(** C39. Closing ends: from a closing manager, once its loop has gone on as often
    as [rounds] says, whatever else happens in between, the manager is closed
    and has no loop; every waiting call of close has returned unless the loop
    failed. *)
Theorem close_completes gcInterval w es0 es :
  let m := run (new_manager gcInterval w) es0 in
  m.(_status) = Closing -> (from_option rounds 0 m.(loop_at) <= resumes es)%nat ->
  exists es1 es2, es = es1 ++ es2 /\
    let m' := run m es1 in
    m'.(_status) = Closed /\ m'.(loop_at) = None /\
    (m'.(closers) = 0%nat \/ (errors m < errors m')%nat).
Proof.
  intros m. assert (Hm : lifecycle m) by apply run_lifecycle. clearbody m. clear es0.
  revert m Hm. induction es as [|e es IH]; intros m Hm Hst Hn.
  - assert (Hm0 := Hm). unfold lifecycle in Hm0. rewrite Hst in Hm0.
    destruct Hm0 as (_&_&l&Hl&_). rewrite Hl in Hn. cbn in Hn. destruct l; cbn in Hn; lia.
  - assert (Hm0 := Hm). unfold lifecycle in Hm0. rewrite Hst in Hm0.
    destruct Hm0 as (_&_&l&Hl&_). rewrite Hl in Hn. cbn in Hn.
    destruct (handle_closing m e l Hm Hst Hl) as [Hdone|(Hst'&Herr&l'&Hl'&Hr)].
    + by exists [e], es.
    + destruct (IH (handle m e)) as (es1&es2&->&H1&H2&H3); [by apply handle_lifecycle|done| |].
      { rewrite Hl'. cbn. destruct e; cbn in *; lia. }
      exists (e :: es1), es2. split; [done|]. cbn. split_and!; [done|done|].
      by rewrite Herr in H3.
Qed.

(** ** Marking *)

(** [P] holds before, between and after the events. *)
Fixpoint always (P : Manager W AItr RItr -> Prop) m es : Prop :=
  P m /\ match es with [] => True | e :: es => always P (handle m e) es end.

Context {K : Type} `{!ReferredLaws W RItr K}.

(** Nothing on the way to the sweep loses the reference [x] under [k]. *)
Definition spares (k : K) (x : string) (l : loop AItr RItr) : Prop :=
  match l with
  | Marking itr ids => x ∉ ids \/ ~ passed itr k
  | MarkedPage r itr ids => x ∉ ids \/ (r.(done) = false /\ (x ∈ r.(value) \/ ~ passed itr k))
  | Sweeping ids => x ∉ ids
  | _ => True
  end.

Lemma resume_spares now i l w l' w' k x :
  resume now i Running l w = (Some l', w') -> refers w k x -> spares k x l -> spares k x l'.
Proof.
  unfold resume, loop_head. rewrite bool_decide_eq_true_2 by done.
  destruct l as [itr ids|r itr ids|ids|itr ids|r itr ids|[|y ids]| | | | |e]; intros Hr Hx Hs;
    cbn in Hs.
  - destruct (next itr w) as [[] ?]; by injection Hr as <- _.
  - destruct (continues r Running); by injection Hr as <- _.
  - injection Hr as <- _. right. apply passed_fresh.
  - destruct (next itr w) as [[r|e] itr'] eqn:Hn; injection Hr as <- _; [|done]. cbn.
    destruct Hs as [Hs|Hs]; [by left|]. right. by eapply next_yields.
  - destruct (continues r Running) eqn:Hc.
    + injection Hr as <- _. cbn. rewrite elem_set_delete_all. destruct Hs as [?|[_ [?|?]]]; tauto.
    + assert (r.(done) = true).
      { destruct r.(done) eqn:Hd; [done|]. by rewrite (continues_not_done r Hd) in Hc. }
      destruct (0 <? Z.of_nat (length ids)); injection Hr as <- _; [|done]. cbn.
      destruct Hs as [?|[? _]]; [done|congruence].
  - by injection Hr as <- _.
  - destruct (sweep_one y w) as [[] ?]; injection Hr as <- _; cbn in *; [set_solver|done].
  - destruct (true && _); by injection Hr as <- _.
  - by injection Hr as <- _.
  - by injection Hr as <- _.
  - by injection Hr as <- _.
  - by injection Hr as <- _.
Qed.

(** A step of the loop changes the world by a sweep only. *)
Lemma resume_keeps {B} (obs : W -> B) now i st l w l' w' :
  (forall ids id w1 r w2, l = Sweeping (id :: ids) -> sweep_one id w1 = (r, w2) -> obs w2 = obs w1) ->
  resume now i st l w = (Some l', w') -> obs w' = obs w.
Proof.
  intros Hs Hr. revert Hr.
  destruct l as [itr ids|r itr ids|ids|itr ids|r itr ids|[|y ids]| | | | |e]; unfold resume.
  - destruct (next itr w) as [[] ?]; by intros [= _ <-].
  - destruct (continues r st); by intros [= _ <-].
  - destruct (st !== Running); by intros [= _ <-].
  - destruct (next itr w) as [[] ?]; by intros [= _ <-].
  - destruct (continues r st), (0 <? Z.of_nat (length ids)); by intros [= _ <-].
  - by intros [= _ <-].
  - destruct (sweep_one y w) as [r w1] eqn:Hw. pose proof (Hs ids y w r w1 eq_refl Hw).
    destruct r; by intros [= _ <-].
  - destruct (_ && _); by intros [= _ <-].
  - by intros [= _ <-].
  - by intros [= _ <-].
  - by intros [= _ <-].
  - by intros [= _ <-].
Qed.

Lemma handle_spares m e k x :
  lifecycle m -> from_option (spares k x) True m.(loop_at) -> m.(_status) <> Closing ->
  refers m.(world) k x -> e <> Close ->
  from_option (spares k x) True (handle m e).(loop_at) /\ (handle m e).(_status) <> Closing.
Proof.
  intros Hm Hs Hst Hx He. destruct e as [f| |now| | | |now]; try done.
  - unfold handle, start. case_bool_decide; [done|]. case_bool_decide; done.
  - unfold handle, loop_head. by destruct m.(starting).
  - unfold handle. by destruct m.(starting).
  - unfold handle. destruct m.(loop_at) as [[]|] eqn:Hl; cbn; rewrite ?Hl; done.
  - destruct m.(loop_at) as [l|] eqn:Hl; [|unfold handle; rewrite Hl; by rewrite Hl].
    assert (Hrun : m.(_status) = Running).
    { unfold lifecycle in Hm. rewrite Hl in Hm. destruct m.(_status); naive_solver. }
    destruct (is_settled l) eqn:Hset.
    + unfold handle. rewrite Hl. destruct l; try done; cbn. unfold emit_closed.
      by destruct m.(closers).
    + destruct (handle_resume m now l Hl Hset) as (l'&w'&Hr&->). rewrite Hrun in Hr. cbn.
      split; [|done]. by eapply resume_spares.
Qed.

Lemma run_spares m es k x :
  lifecycle m -> from_option (spares k x) True m.(loop_at) -> m.(_status) <> Closing ->
  always (fun m => refers m.(world) k x) m es -> Forall (fun e => e <> Close) es ->
  lifecycle (run m es) /\ from_option (spares k x) True (run m es).(loop_at) /\
  (run m es).(_status) <> Closing /\ refers (run m es).(world) k x.
Proof.
  revert m. induction es as [|e es IH]; intros m Hm Hs Hst [Hxm Hx] Hc; [done|].
  apply Forall_cons in Hc as [He Hc].
  destruct (handle_spares m e k x) as [H1 H2]; [done..|].
  apply IH; [by apply handle_lifecycle|done..].
Qed.

(** What a sweep of any other extent leaves alone, the loop leaves alone. *)
Lemma run_keeps {B} (obs : W -> B) gcInterval w es0 es ids0 now k x :
  (forall id w1 r w2, sweep_one id w1 = (r, w2) -> id <> x -> obs w2 = obs w1) ->
  let m := run (new_manager gcInterval w) es0 in
  m.(_status) = Running -> m.(loop_at) = Some (Listed ids0) ->
  always (fun m => refers m.(world) k x) m es -> Forall (fun e => e <> Close) es ->
  obs (handle (run m es) (Resume now)).(world) = obs (run m es).(world).
Proof.
  intros Hobs m Hst Hl Hx Hc.
  destruct (run_spares m es k x) as (_&Hs&_&_); [apply run_lifecycle|by rewrite Hl|by rewrite Hst|done|done|].
  revert Hs. generalize (run m es). intros m' Hs.
  destruct m'.(loop_at) as [l|] eqn:Hl'; [|unfold handle; by rewrite Hl'].
  destruct (is_settled l) eqn:Hset.
  - unfold handle. rewrite Hl'. destruct l; done.
  - destruct (handle_resume m' now l Hl' Hset) as (l2&w2&Hr&->). cbn.
    eapply resume_keeps; [|exact Hr]. intros ids id w1 r w3 -> Hw. eapply Hobs; [exact Hw|].
    intros ->. apply Hs. left.
Qed.

(** What a sweep spares: when the manager is not closed meanwhile, an extent
    that is referred to under one key, from before the marking starts on, is
    never among the extents the loop is about to delete, in this round or any
    later one, however other code changes the stores in between. *)
Theorem gc_spares_referred gcInterval w es0 es ids0 ids k x :
  let m := run (new_manager gcInterval w) es0 in
  m.(_status) = Running -> m.(loop_at) = Some (Listed ids0) ->
  always (fun m => refers m.(world) k x) m es -> Forall (fun e => e <> Close) es ->
  (run m es).(loop_at) = Some (Sweeping ids) -> x ∉ ids.
Proof.
  intros m Hst Hl Hx Hc Hsw.
  destruct (run_spares m es k x) as (_&Hs&_&_); [apply run_lifecycle|by rewrite Hl|by rewrite Hst|done|done|].
  by rewrite Hsw in Hs.
Qed.

Lemma handle_close m l :
  m.(_status) = Running -> m.(loop_at) = Some l -> l <> Sleeping ->
  handle m Close = set_closers (S m.(closers)) (set_status Closing m.(starting) m).
Proof.
  intros Hst Hl Hs. unfold handle, close. rewrite Hst, bool_decide_eq_false_2, bool_decide_eq_true_2
    by done. cbn. rewrite Hl. by destruct l.
Qed.

(** Closing a manager while it waits for a page of referred extents makes it
    sweep every extent it has not marked yet: the rest of the pages, and the
    page it was given, are not looked at, whatever is referred to. *)
Theorem close_while_marking_sweeps_unmarked m itr itr' r ids now :
  m.(_status) = Running -> m.(loop_at) = Some (Marking itr ids) -> ids <> [] ->
  next itr m.(world) = (Ok r, itr') ->
  (run m [Resume now; Close; Resume now]).(loop_at) = Some (Sweeping ids) /\
  (run m [Close; Resume now; Resume now]).(loop_at) = Some (Sweeping ids).
Proof.
  intros Hst Hl Hids Hn.
  assert (Hc : continues r Closing = false).
  { destruct (continues r Closing) eqn:Hc; [|done]. by apply continues_running in Hc. }
  assert (Hlen : (0 <? Z.of_nat (length ids)) = true).
  { apply Z.ltb_lt. destruct ids; [done|]. cbn. lia. }
  unfold run. cbn [foldl]. split.
  - assert (H1 : handle m (Resume now) = set_loop (Some (MarkedPage r itr' ids)) m.(world) m).
    { unfold handle. by rewrite Hl; cbn; rewrite Hn. }
    rewrite H1, (handle_close _ (MarkedPage r itr' ids)) by done.
    cbn. by rewrite Hc, Hlen.
  - rewrite (handle_close m (Marking itr ids)) by done. cbn. rewrite Hl. cbn. rewrite Hn. cbn.
    by rewrite Hc, Hlen.
Qed.

End LifeCycle.

(** ** Witnesses *)

(** A world of the extents there are and those that are referred to; a provider
    with one page. *)
Definition two_lists : Type := list string * list string.

Definition one_page (f : two_lists -> list string) : IGCExtentProvider two_lists bool := {|
  iteratorExtents := fun _ _ => false;
  next := fun it w => (Ok (mkResult it (if it then [] else f w)), true)
|}.

Definition remove_one : ISweep two_lists := {|
  sweep_one := fun id w => (Ok tt, (set_delete id w.1, w.2))
|}.

Lemma one_page_laws : ReferredLaws (H := one_page snd) two_lists bool unit.
Proof.
  refine {| refers := fun (w : two_lists) (_ : unit) x => x ∈ w.2; passed := fun it _ => it = true |}.
  - done.
  - intros [] w r it' [] x; [done|]. intros [= <- <-] Hx _. cbn. auto.
Defined.

Abbreviation run_demo := (run (all := one_page fst) (referred := one_page snd) (sweep := remove_one)
                            (gc := BlobGCManager)).
Definition demo : Manager two_lists bool bool :=
  new_manager (gc := BlobGCManager) 0 (["a"; "b"], ["a"]).
Definition to_listed : list (event two_lists) := [Start; Initialized 0] ++ repeat (Resume 0) 4.

Lemma close_completes_witness :
  exists es1 es2, repeat (Resume 0) 3 = es1 ++ es2 /\
    (run_demo (run_demo demo (to_listed ++ [Close])) es1).(_status) = Closed.
Proof.
  destruct (close_completes (all := one_page fst) (referred := one_page snd) (sweep := remove_one)
              (H := BlobGCManager_laws) 0 (["a"; "b"], ["a"]) (to_listed ++ [Close]) (repeat (Resume 0) 3))
    as (es1&es2&He&Hc&_); [reflexivity|vm_compute; lia|].
  by exists es1, es2.
Defined.

Lemma gc_spares_referred_witness : "a" ∉ ["b"].
Proof.
  apply (gc_spares_referred (all := one_page fst) (referred := one_page snd) (sweep := remove_one)
           (H := BlobGCManager_laws) (ReferredLaws0 := one_page_laws) 0 (["a"; "b"], ["a"]) to_listed
           (repeat (Resume 0) 5) ["a"; "b"] ["b"] tt); [reflexivity|reflexivity| |apply Forall_forall; set_solver|reflexivity].
  cbn [always repeat]. repeat (split; [vm_compute; left|]). exact I.
Defined.

Definition marking : Manager two_lists bool bool :=
  mkManager Running false (Some (Marking false ["a"; "b"])) 0 true [] [] 1 (["a"; "b"], ["a"]).

Lemma close_while_marking_sweeps_unmarked_witness :
  run_demo demo (to_listed ++ [Resume 0]) = marking /\
  (run_demo marking [Close; Resume 0; Resume 0]).(loop_at) = Some (Sweeping ["a"; "b"]).
Proof.
  split; [vm_compute; reflexivity|].
  apply (close_while_marking_sweeps_unmarked (all := one_page fst) (referred := one_page snd)
           (sweep := remove_one) (H := BlobGCManager_laws) marking false true (mkResult false ["a"])
           ["a"; "b"] 0); [reflexivity|reflexivity|done|reflexivity].
Defined.
