(* ===== verification/QueueGC.v ===== *)
(** * QueueGC: the garbage collection of the queue service

    src/src/queue/persistence/QueueReferredExtentsAsyncIterator.ts, and the
    composition of src/src/queue/QueueServer.ts: the queue metadata store says
    which extents the messages refer to, the extent metadata store which extents
    there are, and the extent store, here the one in memory, deletes them. *)

From S2P Require Import Prelude Errors Extents Loki ExtentMetadata MemoryExtentStore QueueStore GC.
Open Scope Z_scope.
Open Scope azurite_scope.

Record QueueReferredExtentsAsyncIterator := mkQueueReferred {
  ref_done : bool;
  ref_marker : option Z
}.

Definition ref_unit : Z := 1000.

Section QueueGC.
Context {coll : Type -> Type} `{Loki coll} {P : Type}.

Definition ref_next (it : QueueReferredExtentsAsyncIterator) (db : QueueDb coll P) :
    res IteratorResult * QueueReferredExtentsAsyncIterator :=
  if it.(ref_done) then (Ok (mkResult true []), it) else
  match (listMessages (Some ref_unit) it.(ref_marker) db).1 with
  | Ok (messages, nextMarker) =>
      (Ok (mkResult false ((fun val => val.(persistency).(id)) <$> messages)),
       mkQueueReferred (it.(ref_done) || undefined nextMarker) nextMarker)
  | Throw e => (Throw e, it)
  end.

(** The stores of a queue server. *)
Record QueueWorld := mkQueueWorld {
  queueMetadata : QueueDb coll P;
  extentStore : MemoryExtentStore (coll ExtentDoc)
}.

Definition queue_all_provider (lt_missing : bool) : IGCExtentProvider QueueWorld AllExtentsAsyncIterator := {|
  iteratorExtents := fun now _ => mkAllExtents false None now;
  next := fun it w => all_next lt_missing it w.(extentStore).(metadataStore)
|}.

Definition queue_referred_provider : IGCExtentProvider QueueWorld QueueReferredExtentsAsyncIterator := {|
  iteratorExtents := fun _ _ => mkQueueReferred false None;
  next := fun it w => ref_next it w.(queueMetadata)
|}.

Definition queue_sweep : ISweep QueueWorld := {|
  sweep_one := fun id w =>
    let (r, s) := deleteExtents [id] w.(extentStore) in
    (_ ← r; Ok tt, mkQueueWorld w.(queueMetadata) s)
|}.

(** [run] with the stores of the server. *)
Definition queue_gc_run (lt_missing : bool) :=
  run (all := queue_all_provider lt_missing) (referred := queue_referred_provider)
      (sweep := queue_sweep) (gc := QueueGCManager).

End QueueGC.

Arguments QueueWorld coll P : clear implicits.

(** * The garbage collection keeps the messages

    The iterator over the extents of the messages has the property the managers
    rely on, and what follows for the queue service. *)

From S2P Require Import Prelude Errors Extents Loki ExtentMetadata MemoryExtentStore.
From S2P Require Import MemoryExtentStoreSpec QueueStore GC GCSpec.
Open Scope Z_scope.
Open Scope azurite_scope.

Section QueueGC.
Context {coll : Type -> Type} `{LokiLaws coll, !LokiOrdered coll} {P : Type}.
Implicit Types (w : QueueWorld coll P).

(** The message stored as document [i] keeps its text in the extent [x]. *)
Definition message_refers w (i : Z) (x : string) : Prop :=
  exists msg, docs w.(queueMetadata).(messages) !! i = Some msg /\ msg.(persistency).(id) = x.

Definition ref_passed (it : QueueReferredExtentsAsyncIterator) (i : Z) : Prop :=
  it.(ref_done) = true \/ exists k, it.(ref_marker) = Some k /\ i <= k.

Lemma ref_next_yields it w r it' i x :
  ref_next it w.(queueMetadata) = (Ok r, it') -> message_refers w i x -> ~ ref_passed it i ->
  r.(done) = false /\ (x ∈ r.(value) \/ ~ ref_passed it' i).
Proof.
  unfold ref_next, ref_passed. intros Hn (msg&Hmsg&<-) Hp.
  destruct it.(ref_done) eqn:Hd; [destruct Hp; by left|].
  unfold listMessages in Hn. revert Hn. run. cbn.
  set (l := lk_find _ _).
  assert (Hin : (i, msg) ∈ l).
  { unfold l. apply elem_find. split; [done|]. destruct it.(ref_marker) as [k|] eqn:Hk; [|done].
    apply Z.ltb_lt. apply Z.nle_gt. intros Hle. apply Hp. right. by exists k. }
  assert (Hl : ascending l) by apply find_ascending.
  set (n := Z.to_nat ref_unit).
  destruct (page_or_after l n i msg Hl Hin ltac:(unfold n, ref_unit; lia)) as [Hpg|(d&Hlen&Hlast&Hlt)].
  - assert (Hv : msg.(persistency).(id) ∈ (fun val => val.(persistency).(id)) <$> (take n l).*2).
    { apply list_elem_of_fmap. exists msg. split; [done|]. apply list_elem_of_fmap. by exists (i, msg). }
    destruct (Z.of_nat (length (take n l)) <? ref_unit); [intros [= <- <-]; auto|].
    destruct (last (take n l)); intros [= <- <-]; auto.
  - rewrite Hlen, Hlast. replace (Z.of_nat n <? ref_unit) with false
      by (symmetry; apply Z.ltb_ge; unfold n, ref_unit; lia).
    intros [= <- <-]. cbn. split; [done|]. right. intros [?|(k&[= <-]&?)]; [done|lia].
Qed.

Context (lt_missing : bool).
#[local] Instance all_provider : IGCExtentProvider (QueueWorld coll P) AllExtentsAsyncIterator :=
  queue_all_provider lt_missing.
#[local] Existing Instances queue_referred_provider queue_sweep QueueGCManager QueueGCManager_laws.

#[local] Instance queue_referred_laws :
  ReferredLaws (QueueWorld coll P) QueueReferredExtentsAsyncIterator Z.
Proof.
  refine {| refers := message_refers; passed := ref_passed |}.
  - intros now w i [?|(k&?&_)]; done.
  - intros it w r it' i x. apply ref_next_yields.
Defined.

Implicit Types (m : Manager (QueueWorld coll P) AllExtentsAsyncIterator QueueReferredExtentsAsyncIterator).

(** C28. As long as a message is in the store, from before the marking starts on,
    and the manager is not closed, no step of its loop changes the bytes of the
    extent the text of the message is in, whatever requests run in between. Messages that
    are inserted while the manager marks are not covered. *)
Theorem queue_gc_keeps_messages gcInterval w es0 es ids0 now i x :
  let m := run (new_manager gcInterval w) es0 in
  m.(_status) = Running -> m.(loop_at) = Some (Listed ids0) ->
  always (fun m => message_refers m.(world) i x) m es -> Forall (fun e => e <> Close) es ->
  let m' := run m es in
  extent_bytes (handle m' (Resume now)).(world).(extentStore) x
  = extent_bytes m'.(world).(extentStore) x.
Proof.
  intros m Hst Hl Hx Hc m'.
  eapply (run_keeps (ReferredLaws0 := queue_referred_laws) (fun w => extent_bytes w.(extentStore) x)); [|exact Hst|exact Hl|exact Hx|exact Hc].
  intros id w1 r w2 Hs Hid. cbn [sweep_one queue_sweep] in Hs.
  destruct (deleteExtents [id] w1.(extentStore)) as [r1 s1] eqn:Hd. injection Hs as _ <-.
  destruct (deleteExtents_spec [id] _ _ _ Hd) as (Hkeep&_&_). apply Hkeep. set_solver.
Qed.

End QueueGC.

(** ** Witness *)

(** A message in the extent [m], and an extent [o] nothing refers to. *)
Definition gc_message : MessageModel :=
  mkMessageModel "acc" "q" "id" "r" 0 (mkChunk "m" 0 1) 0 1000 0.
Definition gc_db : QueueDb map_coll unit := mkQueueDb (∅, 0) (∅, 0) ({[1 := gc_message]}, 1).
Definition gc_store : MemoryExtentStore (map_coll ExtentDoc) :=
  let append id b (s : MemoryExtentStore (map_coll ExtentDoc)) :=
    (appendExtent (M := map_coll ExtentDoc) (fun _ _ _ _ => JsError) (Buffer b) id 0 None s).2 in
  append "o" [8] (append "m" [7] (mkMemoryExtentStore "queue" (mkChunkStore None ∅ 0) (∅, 0))).
Definition gc_world : QueueWorld map_coll unit := mkQueueWorld gc_db gc_store.
Definition gc_listed : list (event (QueueWorld map_coll unit)) :=
  [Start; Initialized 0] ++ repeat (Resume 0) 4.

(** The sweep, about to delete the one extent, leaves the message's alone. *)
Lemma queue_gc_keeps_messages_witness :
  let m := queue_gc_run true (new_manager (gc := QueueGCManager) 0 gc_world) gc_listed in
  let m' := queue_gc_run true m (repeat (Resume 0) 5) in
  m'.(loop_at) = Some (Sweeping ["o"]) /\
  extent_bytes (queue_gc_run true m' [Resume 0]).(world).(extentStore) "o" = None /\
  extent_bytes (queue_gc_run true m' [Resume 0]).(world).(extentStore) "m"
  = extent_bytes m'.(world).(extentStore) "m".
Proof.
  split_and!; [vm_compute; reflexivity|vm_compute; reflexivity|].
  apply (queue_gc_keeps_messages (coll := map_coll) (P := unit) true 0 gc_world gc_listed
           (repeat (Resume 0) 5) ["m"; "o"] 0 1 "m").
  - vm_compute. reflexivity.
  - vm_compute. reflexivity.
  - cbn [always repeat]. repeat (split; [exists gc_message; split; vm_compute; reflexivity|]). exact I.
  - apply Forall_forall. set_solver.
Defined.
