(* ===== verification/Mutex.v ===== *)
(** * Mutex: the locks on keys

    src/src/common/Mutex.ts. The promise a caller of [lock] waits for is resolved
    at once or by a handler that [unlock] has run with [setImmediate], after
    whatever else is due by then: [immediates] are the handlers that are due, in
    their order. [holders] keeps who has been given which key and has not
    unlocked it; the code does not know. *)

From S2P Require Import Prelude.
Open Scope Z_scope.
Open Scope azurite_scope.

Inductive MutexLockStatus := LOCKED | UNLOCKED.
#[export] Instance MutexLockStatus_eq_dec : EqDecision MutexLockStatus.
Proof. solve_decision. Defined.

(** A caller of [lock]. *)
Definition caller : Type := nat.

Record Mutex := mkMutex {
  keys : gmap string MutexLockStatus;
  listeners : gmap string (list caller);
  immediates : list (string * caller);
  holders : list (string * caller)
}.

Definition new_mutex : Mutex := mkMutex ∅ ∅ [] [].

(** [this.keys[key] = LOCKED; resolve()]. *)
Definition give (key : string) (c : caller) (m : Mutex) : Mutex :=
  mkMutex (<[key := LOCKED]> m.(keys)) m.(listeners) m.(immediates) ((key, c) :: m.(holders)).

Definition onUnlockEvent (key : string) (handler : caller) (m : Mutex) : Mutex :=
  match m.(listeners) !! key with
  | None => mkMutex m.(keys) (<[key := [handler]]> m.(listeners)) m.(immediates) m.(holders)
  | Some l => mkMutex m.(keys) (<[key := l ++ [handler]]> m.(listeners)) m.(immediates) m.(holders)
  end.

Definition emitUnlockEvent (key : string) (m : Mutex) : Mutex :=
  match m.(listeners) !! key with
  | Some (handler :: l) =>
      mkMutex m.(keys) (<[key := l]> m.(listeners)) (m.(immediates) ++ [(key, handler)]) m.(holders)
  | _ => m
  end.

Definition lock (key : string) (c : caller) (m : Mutex) : Mutex :=
  match m.(keys) !! key with
  | None | Some UNLOCKED => give key c m
  | Some LOCKED => onUnlockEvent key c m
  end.

Definition unlock (key : string) (c : caller) (m : Mutex) : Mutex :=
  let m := if m.(keys) !! key === Some LOCKED then emitUnlockEvent key m else m in
  mkMutex (delete key m.(keys)) m.(listeners) m.(immediates)
    (filter (fun h => h <> (key, c)) m.(holders)).

(** The next handler that is due. *)
Definition run_immediate (m : Mutex) : Mutex :=
  match m.(immediates) with
  | [] => m
  | (key, c) :: l => give key c (mkMutex m.(keys) m.(listeners) l m.(holders))
  end.

Inductive call :=
| Lock (key : string) (c : caller)
| Unlock (key : string) (c : caller)
| Immediate.

Definition step (m : Mutex) (e : call) : Mutex :=
  match e with
  | Lock key c => lock key c m
  | Unlock key c => unlock key c m
  | Immediate => run_immediate m
  end.

(** * Exclusion, the order of the waiting callers, and its limits *)

From S2P Require Import Prelude.
Open Scope Z_scope.
Open Scope azurite_scope.

(** The callers of a list of pairs that are paired with a key. *)
Fixpoint of_key (key : string) (l : list (string * caller)) : list caller :=
  match l with
  | [] => []
  | (k, c) :: l => if bool_decide (k = key) then c :: of_key key l else of_key key l
  end.

Lemma of_key_app key l l' : of_key key (l ++ l') = of_key key l ++ of_key key l'.
Proof. induction l as [|[k c] l IH]; cbn; [done|]. case_bool_decide; cbn; by rewrite IH. Qed.

Lemma elem_of_key key c l : c ∈ of_key key l <-> (key, c) ∈ l.
Proof.
  induction l as [|[k d] l IH]; cbn; [set_solver|].
  case_bool_decide; rewrite ?elem_of_cons, IH; naive_solver.
Qed.

Lemma of_key_unlock key k c l :
  of_key key (filter (fun h => h <> (k, c)) l)
  = if bool_decide (k = key) then filter (fun d => d <> c) (of_key key l) else of_key key l.
Proof.
  induction l as [|[k' d] l IH]; [by case_bool_decide|]. rewrite filter_cons. cbn [of_key].
  destruct (decide (k = key)) as [->|Hk].
  - rewrite bool_decide_eq_true_2 in * by done. destruct (decide (k' = key)) as [->|Hk'].
    + rewrite (bool_decide_eq_true_2 (key = key)) by done. rewrite filter_cons.
      destruct (decide (d = c)) as [->|Hd].
      * by rewrite !decide_False by tauto.
      * rewrite decide_True by congruence. rewrite (decide_True (P := d <> c)) by done. cbn.
        by rewrite bool_decide_eq_true_2, IH.
    + rewrite (bool_decide_eq_false_2 (k' = key)) by done. rewrite decide_True by congruence. cbn.
      by rewrite bool_decide_eq_false_2, IH.
  - rewrite bool_decide_eq_false_2 in * by done. case_decide as Hh; cbn; [by rewrite IH|].
    rewrite IH, bool_decide_eq_false_2; [done|]. intros ->. congruence.
Qed.

Section Spec.
Implicit Types (m : Mutex) (es : list call).

Definition holders_of (key : string) m : list caller := of_key key m.(holders).
Definition due_of (key : string) m : list caller := of_key key m.(immediates).
Definition waiting_of (key : string) m : list caller := default [] (m.(listeners) !! key).

(** A caller unlocks what it holds. *)
Definition holds_key m (e : call) : Prop :=
  match e with Unlock key c => c ∈ holders_of key m | _ => True end.
(** Nobody asks for a key while a handler for it is due. *)
Definition prompt m (e : call) : Prop :=
  match e with Lock key _ => due_of key m = [] | _ => True end.

Fixpoint all_steps (P : Mutex -> call -> Prop) m es : Prop :=
  match es with [] => True | e :: es => P m e /\ all_steps P (step m e) es end.

(** A key is locked, with one holder and nothing due, or it is free. *)
Definition key_ok m (key : string) : Prop :=
  match m.(keys) !! key with
  | Some LOCKED => (exists c, holders_of key m = [c]) /\ due_of key m = []
  | Some UNLOCKED => False
  | None => holders_of key m = [] /\ (length (due_of key m) <= 1)%nat
  end.

(** Nobody waits for a key that nobody will give up. *)
Definition no_lost m : Prop := forall key,
  m.(keys) !! key <> Some UNLOCKED /\
  (waiting_of key m <> [] -> m.(keys) !! key = Some LOCKED \/ due_of key m <> []).

Lemma emit_spec key m :
  let m' := emitUnlockEvent key m in
  m'.(keys) = m.(keys) /\ m'.(holders) = m.(holders) /\
  forall k, due_of k m' = due_of k m ++ (if bool_decide (key = k) then take 1 (waiting_of k m) else []) /\
            waiting_of k m' = if bool_decide (key = k) then drop 1 (waiting_of k m) else waiting_of k m.
Proof.
  unfold emitUnlockEvent, waiting_of, due_of.
  destruct (m.(listeners) !! key) as [[|c l]|] eqn:Hl; cbn; (split_and!; [done..|]); intros k;
    case_bool_decide as Hk; subst; rewrite ?Hl, ?of_key_app; cbn; rewrite ?app_nil_r; try done.
  - by rewrite bool_decide_eq_true_2, lookup_insert_eq.
  - by rewrite bool_decide_eq_false_2, app_nil_r, lookup_insert_ne.
Qed.

Lemma on_unlock_spec key c m :
  let m' := onUnlockEvent key c m in
  m'.(keys) = m.(keys) /\ m'.(holders) = m.(holders) /\ m'.(immediates) = m.(immediates) /\
  forall k, waiting_of k m' = waiting_of k m ++ (if bool_decide (key = k) then [c] else []).
Proof.
  unfold onUnlockEvent, waiting_of. destruct (m.(listeners) !! key) as [l|] eqn:Hl; cbn;
    (split_and!; [done..|]); intros k; case_bool_decide as Hk; subst;
    rewrite ?lookup_insert_eq, ?lookup_insert_ne, ?Hl, ?app_nil_r by done; done.
Qed.

Lemma give_spec key c m :
  (give key c m).(keys) = <[key := LOCKED]> m.(keys) /\
  forall k, holders_of k (give key c m) = (if bool_decide (key = k) then [c] else []) ++ holders_of k m.
Proof. split; [done|]. intros k. unfold holders_of. cbn. by case_bool_decide. Qed.

Lemma unlock_spec key c m :
  let m' := unlock key c m in
  m'.(keys) = delete key m.(keys) /\
  forall k,
    holders_of k m' = (if bool_decide (key = k) then filter (fun d => d <> c) (holders_of k m)
                       else holders_of k m) /\
    let served := bool_decide (key = k) && bool_decide (m.(keys) !! key = Some LOCKED) in
    due_of k m' = due_of k m ++ (if served then take 1 (waiting_of k m) else []) /\
    waiting_of k m' = if served then drop 1 (waiting_of k m) else waiting_of k m.
Proof.
  unfold unlock. destruct (emit_spec key m) as (Hk&Hh&Hd). cbn zeta.
  case_bool_decide; cbn; rewrite ?Hk; (split; [done|]); intros k; unfold holders_of in *; cbn;
    rewrite of_key_unlock, ?Hh; rewrite ?andb_true_r, ?andb_false_r.
  - split; [done|]. exact (Hd k).
  - split_and!; [done|by rewrite app_nil_r|done].
Qed.

Lemma step_ok m e key :
  holds_key m e -> prompt m e -> (forall k, key_ok m k) -> key_ok (step m e) key.
Proof.
  intros Hh Hp Hm. destruct e as [k c|k c|]; cbn [step holds_key prompt] in *.
  - unfold lock. pose proof (Hm k) as Hk. unfold key_ok in Hk.
    destruct (m.(keys) !! k) as [[]|] eqn:Hl; [|done|].
    + pose proof (Hm key) as Ho. destruct (on_unlock_spec k c m) as (H1&H2&H3&_).
      unfold key_ok, holders_of, due_of in *. by rewrite H1, H2, H3.
    + pose proof (Hm key) as Ho. destruct (give_spec k c m) as [H1 H2].
      unfold key_ok in *. rewrite H1, H2. change (due_of key (give k c m)) with (due_of key m).
      destruct (decide (k = key)) as [->|Hne].
      * rewrite lookup_insert_eq, bool_decide_eq_true_2 by done. split; [|done].
        exists c. by rewrite (proj1 Hk).
      * by rewrite lookup_insert_ne, bool_decide_eq_false_2 by done.
  - destruct (unlock_spec k c m) as (H1&H2). pose proof (Hm key) as Ho. specialize (H2 key).
    destruct H2 as (H2&H3&_). unfold key_ok in *. rewrite H1, H2, H3.
    destruct (decide (k = key)) as [->|Hne].
    + rewrite lookup_delete_eq, bool_decide_eq_true_2 by done. cbn.
      destruct (m.(keys) !! key) as [[]|] eqn:Hl; [|done|].
      * destruct Ho as [[d Hd] ->]. rewrite bool_decide_eq_true_2 by done. rewrite Hd in *.
        apply list_elem_of_singleton in Hh as ->. split; [|cbn [app]; rewrite length_take; lia].
        rewrite filter_cons_False; [done|tauto].
      * destruct Ho as [Ho _]. rewrite Ho in Hh. by apply elem_of_nil in Hh.
    + rewrite lookup_delete_ne, bool_decide_eq_false_2 by done. cbn. by rewrite app_nil_r.
  - unfold run_immediate. destruct m.(immediates) as [|[k c] l] eqn:Hi; [by apply Hm|].
    pose proof (Hm key) as Ho. pose proof (Hm k) as Hk.
    unfold key_ok, due_of, holders_of in *. rewrite Hi in *. cbn in *.
    rewrite (bool_decide_eq_true_2 (k = k)) in Hk by done.
    destruct (decide (k = key)) as [->|Hne].
    + rewrite lookup_insert_eq, bool_decide_eq_true_2 in * by done.
      destruct (m.(keys) !! key) as [[]|]; [by destruct Ho|done|]. destruct Ho as [-> Hlen].
      cbn in Hlen. split; [by exists c|]. destruct (of_key key l); [done|cbn in Hlen; lia].
    + by rewrite lookup_insert_ne, bool_decide_eq_false_2 in * by done.
Qed.

Lemma run_ok es m :
  all_steps holds_key m es -> all_steps prompt m es -> (forall k, key_ok m k) ->
  forall k, key_ok (foldl step m es) k.
Proof.
  revert m. induction es as [|e es IH]; intros m; cbn; [done|].
  intros [Hh Hhs] [Hp Hps] Hm. apply IH; [done..|]. intros k. by apply step_ok.
Qed.

(** C29. When callers unlock what they hold and nobody asks for a key between its
    release and the wake-up of the caller it is passed on to, a key never has
    two holders, and it is locked exactly while it has one. *)
Theorem mutex_exclusive es key :
  all_steps holds_key new_mutex es -> all_steps prompt new_mutex es ->
  let m := foldl step new_mutex es in
  (length (holders_of key m) <= 1)%nat /\
  (m.(keys) !! key = Some LOCKED <-> exists c, holders_of key m = [c]).
Proof.
  intros Hh Hp m. assert (Hk : key_ok m key).
  { apply run_ok; [done..|]. intros k. unfold key_ok. cbn. rewrite lookup_empty. split; [done|cbn; lia]. }
  unfold key_ok in Hk. destruct (m.(keys) !! key) as [[]|]; [|done|].
  - destruct Hk as [[c ->] _]. split; [done|]. split; [by exists c|done].
  - destruct Hk as [-> _]. split; [cbn; lia|]. split; [done|]. by intros [c ?].
Qed.

Lemma step_no_lost m e : no_lost m -> no_lost (step m e).
Proof.
  intros Hm key. destruct e as [k c|k c|]; cbn [step].
  - unfold lock. destruct (Hm k) as [Hu Hk]. destruct (Hm key) as [Hukey Hkey].
    destruct (m.(keys) !! k) as [[]|] eqn:Hl; [|done|].
    + destruct (on_unlock_spec k c m) as (H1&_&H3&H4). rewrite H1, H4. split; [done|].
      unfold due_of in *. rewrite H3. case_bool_decide; [subst; auto|]. by rewrite app_nil_r.
    + change (waiting_of key (give k c m)) with (waiting_of key m).
      change (due_of key (give k c m)) with (due_of key m). cbn.
      destruct (decide (k = key)) as [->|]; [rewrite lookup_insert_eq; auto|].
      by rewrite lookup_insert_ne.
  - destruct (unlock_spec k c m) as [H1 H2]. destruct (H2 key) as (_&H3&H4). rewrite H1, H3, H4.
    destruct (Hm key) as [Hukey Hkey]. destruct (decide (k = key)) as [->|Hne].
    + rewrite lookup_delete_eq. split; [done|]. rewrite bool_decide_eq_true_2 by done. cbn.
      intros Hw. right. case_bool_decide as Hl.
      * destruct (waiting_of key m); [done|]. cbn. intros ?%app_nil; naive_solver.
      * rewrite app_nil_r. by destruct (Hkey Hw).
    + rewrite lookup_delete_ne, bool_decide_eq_false_2 by done. cbn. by rewrite app_nil_r.
  - unfold run_immediate. destruct m.(immediates) as [|[k c] l] eqn:Hi; [by apply Hm|].
    destruct (Hm key) as [Hukey Hkey]. unfold waiting_of, due_of in *. rewrite Hi in Hkey. cbn in *.
    destruct (decide (k = key)) as [->|Hne].
    + rewrite lookup_insert_eq. auto.
    + by rewrite lookup_insert_ne, bool_decide_eq_false_2 in * by done.
Qed.

(** ** A waiting caller is woken *)

(** How often, in a run, the key is unlocked while it is locked; and the wake-ups in it. *)
Fixpoint releases (key : string) m es : nat :=
  match es with
  | [] => 0
  | e :: es =>
      (match e with
       | Unlock k _ => if bool_decide (k = key /\ m.(keys) !! key = Some LOCKED) then 1 else 0
       | _ => 0
       end + releases key (step m e) es)%nat
  end.
#[local] Instance call_eq_dec : EqDecision call.
Proof. solve_decision. Defined.

Definition wake_ups es : nat := length (filter (fun e => e = Immediate) es).

(** In a step the place of a waiting caller stays, or it moves up, or its handler is due. *)
Lemma step_waiting key m e before c after :
  waiting_of key m = before ++ c :: after ->
  (releases key m [e] = 0%nat /\ exists after', waiting_of key (step m e) = before ++ c :: after') \/
  (releases key m [e] = 1%nat /\
   match before with
   | [] => exists l, (step m e).(immediates) = m.(immediates) ++ (key, c) :: l
   | _ :: before' => exists after', waiting_of key (step m e) = before' ++ c :: after'
   end).
Proof.
  intros Hw. cbn [releases]. destruct e as [k d|k d|]; cbn [step].
  - left. split; [done|]. unfold lock. destruct (m.(keys) !! k) as [[]|]; [|by exists after..].
    destruct (on_unlock_spec k d m) as (_&_&_&H4). rewrite H4, Hw. case_bool_decide; rewrite ?app_nil_r; [|by eauto].
    exists (after ++ [d]). by rewrite <- app_assoc.
  - destruct (unlock_spec k d m) as [_ H2]. destruct (H2 key) as (_&_&H4).
    destruct (decide (k = key)) as [->|Hne].
    + rewrite (bool_decide_eq_true_2 (key = key)) in H4 by done. cbn [andb] in H4.
      destruct (decide (m.(keys) !! key = Some LOCKED)) as [Hl|Hl].
      * right. split; [by rewrite bool_decide_eq_true_2|]. rewrite (bool_decide_eq_true_2 (_ = Some LOCKED)), Hw in H4 by done.
        destruct before as [|b before]; [|cbn in H4; rewrite drop_0 in H4; by exists after]. exists [].
        unfold unlock. rewrite bool_decide_eq_true_2 by done. unfold emitUnlockEvent, waiting_of in *.
        destruct (m.(listeners) !! key) as [l|]; [|done]. cbn in Hw. by rewrite Hw.
      * left. split; [rewrite bool_decide_eq_false_2; [done|tauto]|].
        rewrite (bool_decide_eq_false_2 (_ = Some LOCKED)) in H4 by done. exists after. by rewrite H4.
    + left. split; [rewrite bool_decide_eq_false_2; [done|tauto]|].
      rewrite (bool_decide_eq_false_2 (k = key)) in H4 by done. exists after. by rewrite H4.
  - left. split; [done|]. exists after. unfold run_immediate. by destruct m.(immediates) as [|[] ?].
Qed.

Lemma step_immediates m e : e <> Immediate -> exists l, (step m e).(immediates) = m.(immediates) ++ l.
Proof.
  intros He. destruct e as [k d|k d|]; [| |done]; cbn [step].
  - unfold lock, onUnlockEvent. exists []. rewrite app_nil_r.
    destruct (m.(keys) !! k) as [[]|]; [destruct (m.(listeners) !! k)|..]; done.
  - unfold unlock, emitUnlockEvent. case_bool_decide; [|exists []; by rewrite app_nil_r].
    destruct (m.(listeners) !! k) as [[|h l]|]; [exists []; by rewrite app_nil_r|by eexists|exists []; by rewrite app_nil_r].
Qed.

(** Each wake-up takes one handler. *)
Lemma immediates_left es m :
  (length m.(immediates) <= wake_ups es + length (foldl step m es).(immediates))%nat.
Proof.
  revert m. induction es as [|e es IH]; intros m; [cbn; lia|]. specialize (IH (step m e)). cbn [foldl].
  unfold wake_ups in *. destruct (decide (e = Immediate)) as [->|He].
  - rewrite filter_cons_True by done. cbn in *. unfold run_immediate in *. destruct m.(immediates) as [|[] ?]; cbn in *; lia.
  - rewrite filter_cons_False by done. destruct (step_immediates m e He) as [l Hl]. rewrite Hl, length_app in IH. lia.
Qed.

(** The callers before a due handler are woken first, and then it is. *)
Lemma due_woken key c es m before after :
  m.(immediates) = before ++ (key, c) :: after -> (length before < wake_ups es)%nat ->
  exists es', es' `prefix_of` es /\ c ∈ holders_of key (foldl step m es').
Proof.
  revert m before after. induction es as [|e es IH]; intros m before after Hi Hlen; [cbn in Hlen; lia|].
  destruct (decide (e = Immediate)) as [->|He].
  - unfold wake_ups in Hlen. rewrite filter_cons_True in Hlen by done. cbn in Hlen. destruct before as [|[k d] before].
    + exists [Immediate]. split; [by apply prefix_cons, prefix_nil|]. cbn. unfold run_immediate. rewrite Hi. cbn [app].
      destruct (give_spec key c (mkMutex m.(keys) m.(listeners) after m.(holders))) as [_ H]. rewrite H.
      rewrite bool_decide_eq_true_2 by done. apply elem_of_app. left. by left.
    + destruct (IH (step m Immediate) before after) as (es'&Hp&Hc); [cbn; unfold run_immediate; by rewrite Hi|cbn in Hlen; unfold wake_ups; lia|].
      exists (Immediate :: es'). split; [by apply prefix_cons|done].
  - destruct (step_immediates m e He) as [l Hl].
    unfold wake_ups in Hlen. rewrite filter_cons_False in Hlen by done.
    destruct (IH (step m e) before (after ++ l)) as (es'&Hp&Hc); [rewrite Hl, Hi; by rewrite <- app_assoc|done|].
    exists (e :: es'). split; [by apply prefix_cons|done].
Qed.

(** A waiting caller's handler is due after as many releases as there are callers up to it. *)
Lemma waiting_due key c es m before after :
  waiting_of key m = before ++ c :: after -> (length before < releases key m es)%nat ->
  exists es1 es2 l l', es = es1 ++ es2 /\ (foldl step m es1).(immediates) = l ++ (key, c) :: l'.
Proof.
  revert m before after. induction es as [|e es IH]; intros m before after Hw Hlen; [cbn in Hlen; lia|].
  assert (Hr : releases key m (e :: es) = (releases key m [e] + releases key (step m e) es)%nat) by (cbn; lia).
  rewrite Hr in Hlen. destruct (step_waiting key m e before c after Hw) as [[H0 [after' Hw']]|[H1 Hcase]].
  - destruct (IH _ _ _ Hw') as (es1&es2&l&l'&->&Hi); [lia|]. by exists (e :: es1), es2, l, l'.
  - destruct before as [|b before].
    + destruct Hcase as [l' Hi]. by exists [e], es, m.(immediates), l'.
    + destruct Hcase as [after' Hw']. cbn [length] in Hlen.
      destruct (IH _ _ _ Hw') as (es1&es2&l&l'&->&Hi); [lia|]. by exists (e :: es1), es2, l, l'.
Qed.

Lemma wake_ups_app es es' : wake_ups (es ++ es') = (wake_ups es + wake_ups es')%nat.
Proof. unfold wake_ups. by rewrite filter_app, length_app. Qed.

(** C40. A caller that waits for a key gets it: under any calls whatever, while somebody
    waits for a key it is locked or a handler for it is due; and once the key has been
    unlocked as often as there are callers up to this one, and the handlers that are due
    then have run, the caller has been given the key. *)
Theorem mutex_no_lost_wakeup es key :
  let m := foldl step new_mutex es in
  (waiting_of key m <> [] -> m.(keys) !! key = Some LOCKED \/ due_of key m <> []) /\
  forall before c after es1 es2,
    waiting_of key m = before ++ c :: after -> (length before < releases key m es1)%nat ->
    (length (foldl step m es1).(immediates) <= wake_ups es2)%nat ->
    exists es', es' `prefix_of` es1 ++ es2 /\ c ∈ holders_of key (foldl step m es').
Proof.
  intros m. split.
  - assert (Hgen : forall m0, no_lost m0 -> no_lost (foldl step m0 es)).
    { clear m. induction es as [|e es IH]; intros m0 H0; [done|]. by apply IH, step_no_lost. }
    apply (Hgen new_mutex). intros k. unfold waiting_of. cbn. by rewrite !lookup_empty.
  - intros before c after es1 es2 Hw Hrel Hwake.
    destruct (waiting_due key c es1 m before after Hw Hrel) as (ea&eb&l&l'&->&Hi).
    destruct (due_woken key c (eb ++ es2) (foldl step m ea) l l' Hi) as (es'&[k Hk]&Hc).
    + pose proof (immediates_left eb (foldl step m ea)) as Hleft. rewrite foldl_app in Hwake.
      rewrite Hi, length_app in Hleft. cbn in Hleft. rewrite wake_ups_app. lia.
    + exists (ea ++ es'). split; [exists k; by rewrite <- !app_assoc, Hk|]. by rewrite foldl_app.
Qed.

(** Without that promptness the lock is not exclusive: a caller that asks for
    the key after its release, before the caller it is passed on to wakes up, is
    given the key, and so is the other one. *)
Theorem mutex_double_grant key a b c :
  let es := [Lock key a; Lock key b; Unlock key a; Lock key c; Immediate] in
  all_steps holds_key new_mutex es /\ holders_of key (foldl step new_mutex es) = [b; c].
Proof.
  cbn zeta.
  assert (Hl : step (step new_mutex (Lock key a)) (Lock key b)
          = mkMutex {[key := LOCKED]} {[key := [b]]} [] [(key, a)]).
  { cbn. unfold lock. cbn. rewrite lookup_empty. cbn. rewrite lookup_insert_eq.
    unfold onUnlockEvent. cbn. by rewrite lookup_empty. }
  assert (Hu : step (mkMutex {[key := LOCKED]} {[key := [b]]} [] [(key, a)]) (Unlock key a)
          = mkMutex ∅ {[key := []]} [(key, b)] []).
  { cbn. unfold unlock, emitUnlockEvent. cbn. rewrite !lookup_singleton_eq.
    rewrite bool_decide_eq_true_2 by done. cbn. rewrite insert_singleton_eq, delete_singleton_eq.
    by rewrite decide_False by tauto. }
  assert (Hc : step (mkMutex ∅ {[key := []]} [(key, b)] []) (Lock key c)
          = mkMutex {[key := LOCKED]} {[key := []]} [(key, b)] [(key, c)]).
  { cbn. unfold lock. cbn. by rewrite lookup_empty. }
  cbn [all_steps foldl holds_key]. rewrite Hl, Hu, Hc. split_and!; try done.
  - apply elem_of_key. left.
  - unfold holders_of. cbn. by rewrite bool_decide_eq_true_2.
Qed.

End Spec.

(** ** Witness *)

Lemma mutex_exclusive_witness :
  let es := [Lock "k" 1%nat; Lock "k" 2%nat; Unlock "k" 1%nat; Immediate; Lock "k" 3%nat] in
  let m := foldl step new_mutex es in
  (length (holders_of "k" m) <= 1)%nat /\
  (m.(keys) !! "k" = Some LOCKED <-> exists c, holders_of "k" m = [c]).
Proof.
  apply mutex_exclusive.
  - cbn. split_and!; try done. apply elem_of_key. left.
  - cbn. split_and!; done.
Defined.

(** The second of two waiting callers. *)
Lemma mutex_no_lost_wakeup_witness :
  let es := [Lock "k" 1%nat; Lock "k" 2%nat; Lock "k" 3%nat] in
  let later := [Unlock "k" 1%nat; Immediate; Unlock "k" 2%nat; Lock "j" 4%nat; Immediate] in
  exists es', es' `prefix_of` later /\ 3%nat ∈ holders_of "k" (foldl step (foldl step new_mutex es) es').
Proof.
  intros es later.
  apply (proj2 (mutex_no_lost_wakeup es "k") [2%nat] 3%nat []
    [Unlock "k" 1%nat; Immediate; Unlock "k" 2%nat; Lock "j" 4%nat] [Immediate]).
  - vm_compute. reflexivity.
  - apply Nat.ltb_lt. vm_compute. reflexivity.
  - apply Nat.leb_le. vm_compute. reflexivity.
Defined.
