(* ===== verification/Utf8.v ===== *)
(** * Utf8: the text of messages

    A text is a JavaScript string as a list of UTF-16 code units. [Buffer_from]
    is Node's [Buffer.from(text)], which encodes it in UTF-8 with U+FFFD for a
    lone surrogate, and [toString] is [buffer.toString()], the decoder of the
    Encoding Standard. A well-formed text is the same after both. *)

From S2P Require Import Prelude Errors Extents.
Open Scope Z_scope.
Open Scope azurite_scope.

Abbreviation text := (list Z).

Definition is_high (u : Z) : bool := (55296 <=? u) && (u <=? 56319).
Definition is_low (u : Z) : bool := (56320 <=? u) && (u <=? 57343).
Definition replacement : Z := 65533.

Fixpoint code_points (s : text) : list Z :=
  match s with
  | [] => []
  | u :: s' =>
      if is_high u then
        match s' with
        | v :: s'' => if is_low v then (65536 + (u - 55296) * 1024 + (v - 56320)) :: code_points s''
                      else replacement :: code_points s'
        | [] => [replacement]
        end
      else if is_low u then replacement :: code_points s'
      else u :: code_points s'
  end.

Definition encode (c : Z) : bytes :=
  if c <? 128 then [c]
  else if c <? 2048 then [192 + c / 64; 128 + c mod 64]
  else if c <? 65536 then [224 + c / 4096; 128 + c / 64 mod 64; 128 + c mod 64]
  else [240 + c / 262144; 128 + c / 4096 mod 64; 128 + c / 64 mod 64; 128 + c mod 64].

Definition Buffer_from (s : text) : bytes := mjoin (encode <$> code_points s).

Definition units (c : Z) : text :=
  if c <? 65536 then [c] else [55296 + (c - 65536) / 1024; 56320 + (c - 65536) mod 1024].

(** How many bytes of a sequence are to come, the code point so far, and the
    bounds of the next byte. *)
Inductive decoder :=
| Start
| Need (n : nat) (c lower upper : Z).

(** The first byte of a sequence: what it emits, and the state after it. *)
Definition first_byte (b : Z) : text * decoder :=
  if b <? 128 then ([b], Start)
  else if (194 <=? b) && (b <=? 223) then ([], Need 0 (b - 192) 128 191)
  else if (224 <=? b) && (b <=? 239) then
    ([], Need 1 (b - 224) (if b =? 224 then 160 else 128) (if b =? 237 then 159 else 191))
  else if (240 <=? b) && (b <=? 244) then
    ([], Need 2 (b - 240) (if b =? 240 then 144 else 128) (if b =? 244 then 143 else 191))
  else ([replacement], Start).

Fixpoint decode (st : decoder) (l : bytes) : text :=
  match l with
  | [] => match st with Start => [] | Need _ _ _ _ => [replacement] end
  | b :: l =>
      match st with
      | Start => let (out, st) := first_byte b in out ++ decode st l
      | Need n c lower upper =>
          if (lower <=? b) && (b <=? upper) then
            let c := c * 64 + (b - 128) in
            match n with
            | O => units c ++ decode Start l
            | S n => decode (Need n c 128 191) l
            end
          else let (out, st) := first_byte b in replacement :: out ++ decode st l
      end
  end.

Definition toString (b : bytes) : text := decode Start b.

(** Code units, and no lone surrogate. *)
Fixpoint well_formed (s : text) : bool :=
  match s with
  | [] => true
  | u :: s' =>
      (0 <=? u) && (u <? 65536) &&
      if is_high u then
        match s' with v :: s'' => is_low v && well_formed s'' | [] => false end
      else negb (is_low u) && well_formed s'
  end.

(** ** The round trip *)

Definition scalar (c : Z) : Prop := 0 <= c < 55296 \/ 57344 <= c < 1114112.

(** The comparisons of a goal, decided by [lia]. *)
Ltac decide_bytes :=
  repeat match goal with
         | |- context [Z.ltb ?a ?b] => destruct (Z.ltb_spec a b); try lia
         | |- context [Z.leb ?a ?b] => destruct (Z.leb_spec a b); try lia
         | |- context [Z.eqb ?a ?b] => destruct (Z.eqb_spec a b); try lia
         end; cbn [andb].

Lemma first_byte_1 b : 0 <= b < 128 -> first_byte b = ([b], Start).
Proof. intros Hb. unfold first_byte. by decide_bytes. Qed.

Lemma first_byte_2 a : 2 <= a < 32 -> first_byte (192 + a) = ([], Need 0 a 128 191).
Proof. intros Ha. unfold first_byte. decide_bytes. do 2 f_equal. lia. Qed.

Lemma first_byte_3 a : 0 <= a < 16 -> exists lo hi, first_byte (224 + a) = ([], Need 1 a lo hi) /\
  forall x, 0 <= x < 64 -> (a = 0 -> 32 <= x) -> (a = 13 -> x < 32) -> lo <= 128 + x <= hi.
Proof.
  intros Ha. unfold first_byte. decide_bytes; eexists _, _; (split; [do 2 f_equal; lia|]); lia.
Qed.

Lemma first_byte_4 a : 0 <= a <= 4 -> exists lo hi, first_byte (240 + a) = ([], Need 2 a lo hi) /\
  forall x, 0 <= x < 64 -> (a = 0 -> 16 <= x) -> (a = 4 -> x < 16) -> lo <= 128 + x <= hi.
Proof.
  intros Ha. unfold first_byte. decide_bytes; eexists _, _; (split; [do 2 f_equal; lia|]); lia.
Qed.

Lemma decode_first b l st : first_byte b = ([], st) -> decode Start (b :: l) = decode st l.
Proof. intros Hb. cbn [decode]. by rewrite Hb. Qed.

Lemma decode_more n c lo hi x l : lo <= 128 + x <= hi ->
  decode (Need (S n) c lo hi) (128 + x :: l) = decode (Need n (c * 64 + x) 128 191) l.
Proof. intros Hx. cbn [decode]. decide_bytes. do 2 f_equal. lia. Qed.

Lemma decode_last c lo hi x l : lo <= 128 + x <= hi ->
  decode (Need 0 c lo hi) (128 + x :: l) = units (c * 64 + x) ++ decode Start l.
Proof. intros Hx. cbn [decode]. decide_bytes. do 2 f_equal. lia. Qed.

Lemma decode_encode c l : scalar c -> decode Start (encode c ++ l) = units c ++ decode Start l.
Proof.
  intros Hc. unfold scalar in Hc. unfold encode.
  pose proof (Z.div_mod c 64 ltac:(lia)). pose proof (Z.mod_pos_bound c 64 ltac:(lia)).
  pose proof (Z.div_mod (c / 64) 64 ltac:(lia)) as H2. pose proof (Z.mod_pos_bound (c / 64) 64 ltac:(lia)).
  pose proof (Z.div_mod (c / 4096) 64 ltac:(lia)) as H3. pose proof (Z.mod_pos_bound (c / 4096) 64 ltac:(lia)).
  rewrite Z.div_div in H2, H3 by lia. change (64 * 64) with 4096 in *. change (4096 * 64) with 262144 in *.
  destruct (Z.ltb_spec c 128); [|destruct (Z.ltb_spec c 2048); [|destruct (Z.ltb_spec c 65536)]]; cbn [app].
  - cbn [decode]. rewrite first_byte_1 by lia. unfold units. by decide_bytes.
  - rewrite (decode_first _ _ _ (first_byte_2 (c / 64) ltac:(lia))), decode_last by lia.
    do 2 f_equal. lia.
  - destruct (first_byte_3 (c / 4096) ltac:(lia)) as (lo&hi&Hf&Hx).
    rewrite (decode_first _ _ _ Hf), decode_more, decode_last by (lia || apply Hx; lia).
    do 2 f_equal. lia.
  - destruct (first_byte_4 (c / 262144) ltac:(lia)) as (lo&hi&Hf&Hx).
    rewrite (decode_first _ _ _ Hf), decode_more, decode_more, decode_last by (lia || apply Hx; lia).
    do 2 f_equal. lia.
Qed.

(** A text without lone surrogates is read back as it was written. *)
Lemma toString_Buffer_from s : well_formed s = true -> toString (Buffer_from s) = s.
Proof.
  unfold toString, Buffer_from.
  induction s as [s IH] using (induction_ltof1 _ length). unfold ltof in IH.
  destruct s as [|u s]; [done|]. cbn [well_formed code_points].
  intros [[Hu1%Z.leb_le Hu2%Z.ltb_lt]%andb_prop Hs]%andb_prop.
  destruct (is_high u) eqn:Hh.
  - destruct s as [|v s]; [done|]. apply andb_prop in Hs as [Hv Hs]. rewrite Hv. cbn.
    unfold is_high, is_low in Hh, Hv. apply andb_prop in Hh as [?%Z.leb_le ?%Z.leb_le].
    apply andb_prop in Hv as [?%Z.leb_le ?%Z.leb_le].
    rewrite decode_encode by (unfold scalar; lia). rewrite IH by (done || cbn; lia).
    unfold units. decide_bytes. cbn. f_equal; [|f_equal]; Z.to_euclidean_division_equations; lia.
  - apply andb_prop in Hs as [Hl Hs]. apply negb_true_iff in Hl. rewrite Hl. cbn.
    unfold is_high, is_low in Hh, Hl.
    assert (scalar u).
    { unfold scalar. apply andb_false_iff in Hh as [?%Z.leb_gt|?%Z.leb_gt];
        apply andb_false_iff in Hl as [?%Z.leb_gt|?%Z.leb_gt]; lia. }
    rewrite decode_encode by done. rewrite IH by (done || cbn; lia). unfold units. by decide_bytes.
Qed.
