(* ===== verification/QueueHandlers.v ===== *)
(** * QueueHandlers: the requests on the messages of a queue

    src/src/queue/handlers/MessagesHandler.ts and MessageIdHandler.ts: the
    validation of the options of a request, and its calls of the metadata store
    and of the extent store, which is behind the class [IExtentStore]. A date is
    the number of its milliseconds. [uuid()], the pop receipt, which is random,
    and the times the stores read off the clock are arguments; so is the parser
    of XML, a package. The pieces in which a stream hands over its bytes are those of
    the class [ReadStream]. The version header of the responses is left out. *)

From stdpp Require Import pretty.
From S2P Require Import Prelude Errors Extents Loki QueueStore Utf8.
Open Scope Z_scope.
Open Scope azurite_scope.

(** src/src/queue/utils/constants.ts. *)
Definition NEVER_EXPIRE_DATE : Z := 253402300799999.
Definition DEFAULT_DEQUEUE_VISIBILITYTIMEOUT : Z := 30.
Definition DEQUEUE_VISIBILITYTIMEOUT_MIN : Z := 1.
Definition DEQUEUE_VISIBILITYTIMEOUT_MAX : Z := 604800.
Definition DEQUEUE_NUMOFMESSAGES_MIN : Z := 1.
Definition DEQUEUE_NUMOFMESSAGES_MAX : Z := 32.
Definition MESSAGETEXT_LENGTH_MAX : Z := 65536.
Definition DEFAULT_MESSAGETTL : Z := 604800.
Definition ENQUEUE_VISIBILITYTIMEOUT_MIN : Z := 0.
Definition ENQUEUE_VISIBILITYTIMEOUT_MAX : Z := 604800.
Definition MESSAGETTL_MIN : Z := 1.
Definition DEFAULT_UPDATE_VISIBILITYTIMEOUT : Z := 30.
Definition UPDATE_VISIBILITYTIMEOUT_MIN : Z := 0.
Definition UPDATE_VISIBILITYTIMEOUT_MAX : Z := 604800.

(** What the handlers use of the request and of the context of the queue. *)
Record QueueContext := mkQueueContext {
  contextID : option string;
  startTime : Z;
  ctx_account : string;
  ctx_queue : string;
  ctx_messageId : string;
  ctx_body : option string;
  clock : Z
}.

Record Response (A : Type) := mkResponse {
  items : A;
  date : Z;
  requestId : option string;
  statusCode : Z;
  clientRequestId : option string
}.
Arguments mkResponse {A}.
Arguments items {A}.
Arguments date {A}.
Arguments requestId {A}.
Arguments statusCode {A}.
Arguments clientRequestId {A}.

Definition getUTF8ByteSize (t : text) : Z := Z.of_nat (length (Buffer_from t)).

(** ** The options *)

(** A query parameter that has to lie between two bounds. *)
Definition outOfRange (ctx : QueueContext) (name : string) (value lower upper : Z) : exn :=
  QueueErrors.getOutOfRangeQueryParameterValue ctx.(contextID)
    [("QueryParameterName", name); ("QueryParameterValue", pretty value);
     ("MinimumAllowed", pretty lower); ("MaximumAllowed", pretty upper)]%string.

Definition invalid (ctx : QueueContext) (name : string) (value : Z) (reason : string) : exn :=
  QueueErrors.getInvalidQueryParameterValue ctx.(contextID)
    [("QueryParameterName", name); ("QueryParameterValue", pretty value); ("Reason", reason)]%string.

Definition check_range (ctx : QueueContext) (name : string) (lower upper : Z) (value : option Z) :
    res (option Z) :=
  match value with
  | None => Ok None
  | Some v =>
      throw_when ((v <? lower) || (upper <? v)) (outOfRange ctx name v lower upper);;
      Ok (Some v)
  end.

(** The time a message is next visible at. *)
Definition next_visible (ctx : QueueContext) (default_seconds lower upper : Z) (visibilitytimeout : option Z) :
    res Z :=
  v ← check_range ctx "visibilitytimeout" lower upper visibilitytimeout;
  Ok (ctx.(startTime) + default default_seconds v * 1000).

Definition number_of_messages (ctx : QueueContext) (numberOfMessages : option Z) : res Z :=
  n ← check_range ctx "numofmessages" DEQUEUE_NUMOFMESSAGES_MIN DEQUEUE_NUMOFMESSAGES_MAX numberOfMessages;
  Ok (default 1 n).

(** The expiration time of a new message. *)
Definition expiration (ctx : QueueContext) (visibilitytimeout messageTimeToLive : option Z) : res Z :=
  match messageTimeToLive with
  | None => Ok (ctx.(startTime) + DEFAULT_MESSAGETTL * 1000)
  | Some ttl =>
      if ttl =? -1 then Ok NEVER_EXPIRE_DATE
      else
        throw_when (ttl <? MESSAGETTL_MIN) (invalid ctx "messagettl" ttl
          "Value must be greater than or equal to 1, or -1 to indicate an infinite TTL.");;
        throw_when (match visibilitytimeout with Some v => ttl <=? v | None => false end)
          (invalid ctx "visibilitytimeout" (default 0 visibilitytimeout)
             "messagettl must be greater than visibilitytimeout.");;
        if NEVER_EXPIRE_DATE - ctx.(startTime) <? ttl * 1000 then Ok NEVER_EXPIRE_DATE
        else Ok (ctx.(startTime) + ttl * 1000)
  end.

(** ** The text of a stream: utils.ts

    The pieces in which the stream of an extent hands over its bytes; each is decoded
    on its own. *)
Class ReadStream := pieces : bytes -> list bytes.

(** The text is that of the bytes if there is one piece. The law holds of a stream that
    reads its file 65536 bytes at a time, and of one that holds its bytes in memory. *)
Class ReadStreamLaws `{ReadStream} := {
  pieces_concat b : concat (pieces b) = b;
  pieces_small b : Z.of_nat (length b) <= 65536 -> (length (pieces b) <= 1)%nat
}.

Definition readStreamToString (data : list bytes) : text := concat (toString <$> data).

Section Handlers.
Context {coll : Type -> Type} `{Loki coll} {P E : Type} `{IExtentStore E} `{ReadStream}.
(** [parseXMLwithEmpty]: the children of the root element. *)
Context (parseXMLwithEmpty : string -> res (list (string * text))).

Record QueueService := mkQueueService {
  metadataStore : QueueDb coll P;
  extentStore : E
}.

Abbreviation service := (proc QueueService exn).

Definition on_db {A} (f : proc (QueueDb coll P) exn A) : service A :=
  fun s => let (r, d) := f s.(metadataStore) in (r, mkQueueService d s.(extentStore)).
Definition on_extents {A} (f : proc E exn A) : service A :=
  fun s => let (r, e) := f s.(extentStore) in (r, mkQueueService s.(metadataStore) e).

(** The text of the message, which the deserializer leaves out when it is empty. *)
Definition message_text (ctx : QueueContext) (messageText : option text) : res (option text) :=
  match messageText with
  | Some t => Ok (Some t)
  | None =>
      parsedBody ← parseXMLwithEmpty (default EmptyString ctx.(ctx_body));
      Ok (snd <$> List.find (fun p => toLowerCase p.1 === "messagetext"%string) parsedBody)
  end.

Definition tooLarge (ctx : QueueContext) : exn :=
  QueueErrors.getRequestBodyTooLarge ctx.(contextID) [("MaxLimit", pretty MESSAGETEXT_LENGTH_MAX)]%string.

(** [readExtent] and [readStreamToString], for each of the messages. *)
Fixpoint with_texts (ctx : QueueContext) (ms : list MessageModel) (e : E) :
    res (list (MessageModel * text)) :=
  match ms with
  | [] => Ok []
  | message :: ms =>
      b ← readExtent (Some message.(persistency)) e;
      l ← with_texts ctx ms e;
      Ok ((message, readStreamToString (pieces b)) :: l)
  end.

Definition read_messages (ctx : QueueContext) (ms : list MessageModel) (clientId : option string) :
    service (Response (list (MessageModel * text))) :=
  s ← get_state;
  l ← lift (with_texts ctx ms s.(extentStore));
  mret (mkResponse l ctx.(startTime) ctx.(contextID) 200 clientId).

Definition dequeue (visibilitytimeout numberOfMessages : option Z) (clientId : option string)
    (popReceipt : string) (ctx : QueueContext) : service (Response (list (MessageModel * text))) :=
  timeNextVisible ← lift (next_visible ctx DEFAULT_DEQUEUE_VISIBILITYTIMEOUT
    DEQUEUE_VISIBILITYTIMEOUT_MIN DEQUEUE_VISIBILITYTIMEOUT_MAX visibilitytimeout);
  numberOfMessages ← lift (number_of_messages ctx numberOfMessages);
  messages ← on_db (getMessages ctx.(ctx_account) ctx.(ctx_queue) timeNextVisible popReceipt
    (Some numberOfMessages) (Some ctx.(startTime)) ctx.(clock) ctx.(contextID));
  read_messages ctx messages clientId.

Definition peek (numberOfMessages : option Z) (clientId : option string) (ctx : QueueContext) :
    service (Response (list (MessageModel * text))) :=
  numberOfMessages ← lift (number_of_messages ctx numberOfMessages);
  messages ← on_db (peekMessages ctx.(ctx_account) ctx.(ctx_queue) (Some numberOfMessages)
    (Some ctx.(startTime)) ctx.(clock) ctx.(contextID));
  read_messages ctx messages clientId.

Definition clear (clientId : option string) (ctx : QueueContext) : service (Response unit) :=
  _ ← on_db (clearMessages ctx.(ctx_account) ctx.(ctx_queue) ctx.(contextID));
  mret (mkResponse tt ctx.(startTime) ctx.(contextID) 204 clientId).

(** [insertMessage] is called without the context. *)
Definition enqueue (messageText : option text) (visibilitytimeout messageTimeToLive : option Z)
    (clientId : option string) (messageId popReceipt extentId : string) (ctx : QueueContext) :
    service (Response (list MessageModel)) :=
  t ← lift (message_text ctx messageText);
  match t with
  | None => throw (QueueErrors.getInvalidXmlDocument ctx.(contextID) [])
  | Some t =>
      _ ← lift (throw_when (MESSAGETEXT_LENGTH_MAX <? getUTF8ByteSize t) (tooLarge ctx);; Ok tt);
      timeNextVisible ← lift (next_visible ctx 0 ENQUEUE_VISIBILITYTIMEOUT_MIN
        ENQUEUE_VISIBILITYTIMEOUT_MAX visibilitytimeout);
      expirationTime ← lift (expiration ctx visibilitytimeout messageTimeToLive);
      extentChunk ← on_extents (appendExtent (Buffer_from t) extentId ctx.(clock) ctx.(contextID));
      let message := mkMessageModel ctx.(ctx_account) ctx.(ctx_queue) messageId popReceipt
        timeNextVisible extentChunk ctx.(startTime) expirationTime 0 in
      _ ← on_db (insertMessage message None);
      mret (mkResponse [message] ctx.(startTime) ctx.(contextID) 201 clientId)
  end.

(** The response of an update, with the new pop receipt and time. *)
Definition update (messageText : option text) (popReceipt : string) (visibilitytimeout : option Z)
    (clientId : option string) (newPopReceipt extentId : string) (ctx : QueueContext) :
    service (Response (string * Z)) :=
  t ← lift (message_text ctx messageText);
  _ ← lift (throw_when (match t with
                        | Some t => MESSAGETEXT_LENGTH_MAX <? getUTF8ByteSize t
                        | None => false
                        end) (tooLarge ctx);; Ok tt);
  timeNextVisible ← lift (next_visible ctx DEFAULT_UPDATE_VISIBILITYTIMEOUT
    UPDATE_VISIBILITYTIMEOUT_MIN UPDATE_VISIBILITYTIMEOUT_MAX visibilitytimeout);
  persistency ← match t with
                | Some t => c ← on_extents (appendExtent (Buffer_from t) extentId ctx.(clock) ctx.(contextID));
                            mret (Some c)
                | None => mret None
                end;
  _ ← on_db (updateMessage (mkMessageUpdate ctx.(ctx_account) ctx.(ctx_queue) ctx.(ctx_messageId)
        newPopReceipt timeNextVisible persistency) popReceipt ctx.(clock) ctx.(contextID));
  mret (mkResponse (newPopReceipt, timeNextVisible) ctx.(startTime) ctx.(contextID) 204 clientId).

Definition delete_message (popReceipt : string) (clientId : option string) (ctx : QueueContext) :
    service (Response unit) :=
  _ ← on_db (deleteMessage ctx.(ctx_account) ctx.(ctx_queue) ctx.(ctx_messageId) popReceipt
        ctx.(clock) ctx.(contextID));
  mret (mkResponse tt ctx.(startTime) ctx.(contextID) 204 clientId).

End Handlers.

Arguments QueueService coll P E : clear implicits.
