(* ===== verification/BlobModels.v ===== *)
(** * BlobModels: the data of the blob service's metadata store

    src/src/blob/persistence/IBlobMetadataStore.ts and the models of
    src/src/blob/generated/artifacts/models.ts it builds on: containers, blobs
    and blocks, the collections of the database, and the pure parts of the
    store's operations.

    The block list and the page ranges of a blob are arrays the store changes in
    place, and a copied blob shares them with its source: a document holds
    references, and the arrays are kept beside the collections. Opening the
    database file, which would separate shared arrays, is not modelled. The start
    time of a request is always set; a Uint8Array comes back from its stored form
    as it was. *)

From stdpp Require Import pretty gmap infinite fin_sets.
From S2P Require Import Prelude Errors Extents Loki TagQuery Conditions Lease PageRanges.
Open Scope Z_scope.
Open Scope azurite_scope.

(** ** Data *)

Inductive BlobType := BlockBlob | PageBlob | AppendBlob.
#[export] Instance BlobType_eq_dec : EqDecision BlobType.
Proof. solve_decision. Defined.

(** The properties that are set together. *)
Record BlobHTTPHeaders := mkHeaders {
  cacheControl : option string;
  contentType : option string;
  contentMD5 : option string;
  contentEncoding : option string;
  contentLanguage : option string;
  contentDisposition : option string
}.

(** The properties of a copy; its status is always [success]. *)
Record CopyProperties := mkCopy {
  copyId : string;
  copySource : string;
  copyProgress : option string;
  copyCompletionTime : Z
}.

(** [properties] of a blob, but for the lease fields ([b_lease]) and the fields
    no operation looks at. *)
Record BlobProperties := mkProperties {
  bp_creationTime : option Z;
  bp_lastModified : Z;
  bp_etag : string;
  bp_contentLength : option Z;
  bp_headers : BlobHTTPHeaders;
  bp_blobType : option BlobType;
  bp_accessTier : option string;
  bp_accessTierInferred : option bool;
  bp_accessTierChangeTime : option Z;
  bp_blobSequenceNumber : option Z;
  bp_isSealed : option bool;
  bp_tagCount : option Z;
  bp_copy : option CopyProperties
}.

(** [PersistencyBlockModel]: what a block list keeps of a block. *)
Record PersistencyBlockModel := mkBlock {
  block_name : string;
  block_size : Z;
  block_persistency : IExtentChunk
}.

(** [BlockModel]: a document of the blocks collection. *)
Record BlockModel := mkBlockModel {
  bl_accountName : string;
  bl_containerName : string;
  bl_blobName : string;
  bl_isCommitted : bool;
  bl_block : PersistencyBlockModel
}.

(** A reference to an array. *)
Abbreviation Ref := positive.

(** A blob, a snapshot or, if it is not committed, the place of staged blocks.
    [deleted] is [false] in every document. *)
Record BlobModel := mkBlob {
  b_accountName : string;
  b_containerName : string;
  b_name : string;
  b_snapshot : string;
  b_isCommitted : bool;
  b_properties : BlobProperties;
  b_lease : LeaseFields;
  b_metadata : option (list (string * string));
  b_blobTags : option (list BlobTag);
  b_committedBlocksInOrder : option Ref;
  b_pageRangesInOrder : option Ref;
  b_persistency : option IExtentChunk
}.

Record AccessPolicy := mkAccessPolicy {
  ap_id : string;
  ap_start : option string;
  ap_expiry : option string;
  ap_permission : option string
}.

Record ContainerModel := mkContainer {
  c_accountName : string;
  c_name : string;
  c_lastModified : Z;
  c_etag : string;
  c_publicAccess : option string;
  c_lease : LeaseFields;
  c_metadata : option (list (string * string));
  c_containerAcl : option (list AccessPolicy)
}.

(** The settings of an account; their contents are not looked at. *)
Record ServicePropertiesModel (P : Type) := mkServiceProperties {
  sp_accountName : string;
  sp_cors : option P;
  sp_hourMetrics : option P;
  sp_logging : option P;
  sp_minuteMetrics : option P;
  sp_defaultServiceVersion : option P;
  sp_deleteRetentionPolicy : option P;
  sp_staticWebsite : option P
}.
Arguments mkServiceProperties {P}.
Arguments sp_accountName {P}.
Arguments sp_cors {P}.
Arguments sp_hourMetrics {P}.
Arguments sp_logging {P}.
Arguments sp_minuteMetrics {P}.
Arguments sp_defaultServiceVersion {P}.
Arguments sp_deleteRetentionPolicy {P}.
Arguments sp_staticWebsite {P}.

(** The four collections, and the arrays of blocks and of page ranges. *)
Record BlobDb (coll : Type -> Type) (P : Type) := mkBlobDb {
  services : coll (ServicePropertiesModel P);
  containers : coll ContainerModel;
  blobs : coll BlobModel;
  blocks : coll BlockModel;
  block_arrays : gmap Ref (list PersistencyBlockModel);
  range_arrays : gmap Ref (list PersistencyPageRange)
}.
Arguments mkBlobDb {coll P}.
Arguments services {coll P}.
Arguments containers {coll P}.
Arguments blobs {coll P}.
Arguments blocks {coll P}.
Arguments block_arrays {coll P}.
Arguments range_arrays {coll P}.

(** What a request brings that is new: an etag, and the id of a lease or a copy. *)
Record Env := mkEnv { newEtag : string; uuid : string }.

Record BlobContext := mkBlobContext {
  bc_startTime : Z;
  bc_contextId : option string
}.

Definition lease_ctx (ctx : BlobContext) : Context :=
  mkContext (Some ctx.(bc_startTime)) ctx.(bc_contextId).

(** ** Changes of a document *)

Definition with_lease (f : LeaseFields) (b : BlobModel) : BlobModel :=
  mkBlob b.(b_accountName) b.(b_containerName) b.(b_name) b.(b_snapshot) b.(b_isCommitted)
    b.(b_properties) f b.(b_metadata) b.(b_blobTags) b.(b_committedBlocksInOrder)
    b.(b_pageRangesInOrder) b.(b_persistency).
Definition with_properties (p : BlobProperties) (b : BlobModel) : BlobModel :=
  mkBlob b.(b_accountName) b.(b_containerName) b.(b_name) b.(b_snapshot) b.(b_isCommitted)
    p b.(b_lease) b.(b_metadata) b.(b_blobTags) b.(b_committedBlocksInOrder)
    b.(b_pageRangesInOrder) b.(b_persistency).
Definition with_metadata (m : option (list (string * string))) (b : BlobModel) : BlobModel :=
  mkBlob b.(b_accountName) b.(b_containerName) b.(b_name) b.(b_snapshot) b.(b_isCommitted)
    b.(b_properties) b.(b_lease) m b.(b_blobTags) b.(b_committedBlocksInOrder)
    b.(b_pageRangesInOrder) b.(b_persistency).
Definition with_tags (t : option (list BlobTag)) (b : BlobModel) : BlobModel :=
  mkBlob b.(b_accountName) b.(b_containerName) b.(b_name) b.(b_snapshot) b.(b_isCommitted)
    b.(b_properties) b.(b_lease) b.(b_metadata) t b.(b_committedBlocksInOrder)
    b.(b_pageRangesInOrder) b.(b_persistency).
Definition with_blocks (l : option Ref) (b : BlobModel) : BlobModel :=
  mkBlob b.(b_accountName) b.(b_containerName) b.(b_name) b.(b_snapshot) b.(b_isCommitted)
    b.(b_properties) b.(b_lease) b.(b_metadata) b.(b_blobTags) l
    b.(b_pageRangesInOrder) b.(b_persistency).
Definition with_ranges (l : option Ref) (b : BlobModel) : BlobModel :=
  mkBlob b.(b_accountName) b.(b_containerName) b.(b_name) b.(b_snapshot) b.(b_isCommitted)
    b.(b_properties) b.(b_lease) b.(b_metadata) b.(b_blobTags) b.(b_committedBlocksInOrder)
    l b.(b_persistency).
Definition with_committed (c : bool) (b : BlobModel) : BlobModel :=
  mkBlob b.(b_accountName) b.(b_containerName) b.(b_name) b.(b_snapshot) c
    b.(b_properties) b.(b_lease) b.(b_metadata) b.(b_blobTags) b.(b_committedBlocksInOrder)
    b.(b_pageRangesInOrder) b.(b_persistency).

(** [etag = ...; lastModified = ...]. *)
Definition touch (etag : string) (t : Z) (p : BlobProperties) : BlobProperties :=
  mkProperties p.(bp_creationTime) t etag p.(bp_contentLength) p.(bp_headers) p.(bp_blobType)
    p.(bp_accessTier) p.(bp_accessTierInferred) p.(bp_accessTierChangeTime)
    p.(bp_blobSequenceNumber) p.(bp_isSealed) p.(bp_tagCount) p.(bp_copy).
Definition with_length (n : option Z) (p : BlobProperties) : BlobProperties :=
  mkProperties p.(bp_creationTime) p.(bp_lastModified) p.(bp_etag) n p.(bp_headers) p.(bp_blobType)
    p.(bp_accessTier) p.(bp_accessTierInferred) p.(bp_accessTierChangeTime)
    p.(bp_blobSequenceNumber) p.(bp_isSealed) p.(bp_tagCount) p.(bp_copy).
Definition with_headers (h : BlobHTTPHeaders) (p : BlobProperties) : BlobProperties :=
  mkProperties p.(bp_creationTime) p.(bp_lastModified) p.(bp_etag) p.(bp_contentLength) h p.(bp_blobType)
    p.(bp_accessTier) p.(bp_accessTierInferred) p.(bp_accessTierChangeTime)
    p.(bp_blobSequenceNumber) p.(bp_isSealed) p.(bp_tagCount) p.(bp_copy).
Definition with_sequence (n : option Z) (p : BlobProperties) : BlobProperties :=
  mkProperties p.(bp_creationTime) p.(bp_lastModified) p.(bp_etag) p.(bp_contentLength) p.(bp_headers)
    p.(bp_blobType) p.(bp_accessTier) p.(bp_accessTierInferred) p.(bp_accessTierChangeTime)
    n p.(bp_isSealed) p.(bp_tagCount) p.(bp_copy).
Definition with_sealed (s : option bool) (p : BlobProperties) : BlobProperties :=
  mkProperties p.(bp_creationTime) p.(bp_lastModified) p.(bp_etag) p.(bp_contentLength) p.(bp_headers)
    p.(bp_blobType) p.(bp_accessTier) p.(bp_accessTierInferred) p.(bp_accessTierChangeTime)
    p.(bp_blobSequenceNumber) s p.(bp_tagCount) p.(bp_copy).

Definition with_tier (tier : option string) (inferred : option bool) (change : option Z)
    (p : BlobProperties) : BlobProperties :=
  mkProperties p.(bp_creationTime) p.(bp_lastModified) p.(bp_etag) p.(bp_contentLength) p.(bp_headers)
    p.(bp_blobType) tier inferred change p.(bp_blobSequenceNumber) p.(bp_isSealed) p.(bp_tagCount) p.(bp_copy).
Definition with_tagCount (n : option Z) (p : BlobProperties) : BlobProperties :=
  mkProperties p.(bp_creationTime) p.(bp_lastModified) p.(bp_etag) p.(bp_contentLength) p.(bp_headers)
    p.(bp_blobType) p.(bp_accessTier) p.(bp_accessTierInferred) p.(bp_accessTierChangeTime)
    p.(bp_blobSequenceNumber) p.(bp_isSealed) n p.(bp_copy).

Definition no_headers : BlobHTTPHeaders := mkHeaders None None None None None None.

(** What the conditional headers read of a blob. *)
Definition condition_model (b : BlobModel) : ConditionModel :=
  mkConditionModel (Some b.(b_isCommitted)) b.(b_properties).(bp_etag) b.(b_properties).(bp_lastModified)
    b.(b_name) b.(b_containerName) b.(b_blobTags).

(** What they read of a container: it has no tags, and no request on containers
    carries a condition on tags. *)
Definition container_condition (c : ContainerModel) : ConditionModel :=
  mkConditionModel None c.(c_etag) c.(c_lastModified) c.(c_name) EmptyString None.

Definition is_container (account container : string) (c : ContainerModel) : bool :=
  (c.(c_accountName) === account) && (c.(c_name) === container).

(** The queries on blobs: with the name, and with the name and the snapshot. *)
Definition is_named (account container blob : string) (b : BlobModel) : bool :=
  (b.(b_accountName) === account) && (b.(b_containerName) === container) && (b.(b_name) === blob).
Definition is_blob (account container blob snapshot : string) (b : BlobModel) : bool :=
  is_named account container blob b && (b.(b_snapshot) === snapshot).
Definition is_block_of (account container blob : string) (b : BlockModel) : bool :=
  (b.(bl_accountName) === account) && (b.(bl_containerName) === container) && (b.(bl_blobName) === blob).

Definition in_container (account container : string) (b : BlobModel) : bool :=
  (b.(b_accountName) === account) && (b.(b_containerName) === container).
Definition block_in_container (account container : string) (b : BlockModel) : bool :=
  (b.(bl_accountName) === account) && (b.(bl_containerName) === container).

(** [name > marker], the order of strings. *)
Definition after_marker (marker name : string) : bool := String.ltb marker name.

(** ** The names of snapshots and of blocks *)

(** [n] with at least [w] digits. *)
Definition pad (w : nat) (n : Z) : string :=
  let s := pretty n in
  (String.concat EmptyString (repeat "0"%string (w - String.length s)) ++ s)%string.

(** The date of a day, counted from 1970-01-01, in the Gregorian calendar. *)
Definition civil (days : Z) : Z * Z * Z :=
  let z := days + 719468 in
  let era := z / 146097 in
  let doe := z mod 146097 in
  let yoe := (doe - doe / 1460 + doe / 36524 - doe / 146096) / 365 in
  let doy := doe - (365 * yoe + yoe / 4 - yoe / 100) in
  let mp := (5 * doy + 2) / 153 in
  let m := if mp <? 10 then mp + 3 else mp - 9 in
  (yoe + era * 400 + (if m <=? 2 then 1 else 0), m, doy - (153 * mp + 2) / 5 + 1).

(** [toISOString] of the years 0 to 9999, and [convertDateTimeStringMsTo7Digital]. *)
Definition snapshot_time (t : Z) : string :=
  let '(y, m, d) := civil (t / 86400000) in
  let ms := t mod 86400000 in
  (pad 4 y ++ "-" ++ pad 2 m ++ "-" ++ pad 2 d ++ "T" ++ pad 2 (ms / 3600000) ++ ":"
   ++ pad 2 (ms / 60000 mod 60) ++ ":" ++ pad 2 (ms / 1000 mod 60) ++ "." ++ pad 3 (ms mod 1000) ++ "0000Z")%string.

(** [Buffer.from(name, "base64").length]: the decoder skips what is not in the
    alphabet, with or without the variants of URLs. *)
Definition is_base64 (c : Ascii.ascii) : bool :=
  let n := Z.of_N (Ascii.N_of_ascii c) in
  ((65 <=? n) && (n <=? 90)) || ((97 <=? n) && (n <=? 122)) || ((48 <=? n) && (n <=? 57))
  || (n =? 43) || (n =? 47) || (n =? 45) || (n =? 95).

Definition base64_length (s : string) : Z :=
  3 * Z.of_nat (length (List.filter is_base64 (String.list_ascii_of_string s))) / 4.

(** ** The database as a state *)

Section Db.
Context {coll : Type -> Type} `{Loki coll} {P : Type}.

Abbreviation db := (BlobDb coll P).
Abbreviation store := (proc db exn).

Definition set_services (c : coll (ServicePropertiesModel P)) (s : db) : db :=
  mkBlobDb c s.(containers) s.(blobs) s.(blocks) s.(block_arrays) s.(range_arrays).
Definition set_containers (c : coll ContainerModel) (s : db) : db :=
  mkBlobDb s.(services) c s.(blobs) s.(blocks) s.(block_arrays) s.(range_arrays).
Definition set_blobs (c : coll BlobModel) (s : db) : db :=
  mkBlobDb s.(services) s.(containers) c s.(blocks) s.(block_arrays) s.(range_arrays).
Definition set_blocks (c : coll BlockModel) (s : db) : db :=
  mkBlobDb s.(services) s.(containers) s.(blobs) c s.(block_arrays) s.(range_arrays).
Definition set_block_arrays (m : gmap Ref (list PersistencyBlockModel)) (s : db) : db :=
  mkBlobDb s.(services) s.(containers) s.(blobs) s.(blocks) m s.(range_arrays).
Definition set_range_arrays (m : gmap Ref (list PersistencyPageRange)) (s : db) : db :=
  mkBlobDb s.(services) s.(containers) s.(blobs) s.(blocks) s.(block_arrays) m.

Definition update_db (f : db -> db) : store unit := fun s => (Ok tt, f s).

(** The changes of the document [i] so far are in place. *)
Definition save_blob (i : Z) (b : BlobModel) : store unit :=
  update_db (fun s => set_blobs (lk_update i b s.(blobs)) s).
Definition save_container (i : Z) (c : ContainerModel) : store unit :=
  update_db (fun s => set_containers (lk_update i c s.(containers)) s).

(** [b.committedBlocksInOrder || []] and [b.pageRangesInOrder || []]. *)
Definition blocks_of (b : BlobModel) (s : db) : list PersistencyBlockModel :=
  default [] (r ← b.(b_committedBlocksInOrder); s.(block_arrays) !! r).
Definition ranges_of (b : BlobModel) (s : db) : list PersistencyPageRange :=
  default [] (r ← b.(b_pageRangesInOrder); s.(range_arrays) !! r).

(** A new array. *)
Definition new_blocks (l : list PersistencyBlockModel) : store Ref := fun s =>
  let r := base.fresh (dom s.(block_arrays) : gset Ref) in
  (Ok r, set_block_arrays (<[r := l]> s.(block_arrays)) s).
Definition new_ranges (l : list PersistencyPageRange) : store Ref := fun s =>
  let r := base.fresh (dom s.(range_arrays) : gset Ref) in
  (Ok r, set_range_arrays (<[r := l]> s.(range_arrays)) s).

(** An array's new contents. *)
Definition write_blocks (r : Ref) (l : list PersistencyBlockModel) : store unit :=
  update_db (fun s => set_block_arrays (<[r := l]> s.(block_arrays)) s).
Definition write_ranges (r : Ref) (l : list PersistencyPageRange) : store unit :=
  update_db (fun s => set_range_arrays (<[r := l]> s.(range_arrays)) s).

End Db.
