(* ===== verification/BlobContainers.v ===== *)
(** * BlobContainers: accounts and containers in the blob metadata store

    src/src/blob/persistence/LokiBlobMetadataStore.ts: the service properties of
    an account, and the operations on containers with their leases. *)

From S2P Require Import Prelude Errors Loki Conditions Lease BlobModels.
Open Scope Z_scope.
Open Scope azurite_scope.

Section Containers.
Context {coll : Type -> Type} `{Loki coll} {P : Type}.

Abbreviation db := (BlobDb coll P).
Abbreviation store := (proc db exn).

(** ** Service properties *)

Definition pick (new old : option P) : option P := match new with None => old | Some _ => new end.

Definition setServiceProperties (p : ServicePropertiesModel P) : store unit :=
  s ← get_state;
  match findOne (fun d => d.(sp_accountName) === p.(sp_accountName)) s.(services) with
  | Some (i, doc) =>
      update_db (set_services (lk_update i
        (mkServiceProperties doc.(sp_accountName)
           (pick p.(sp_cors) doc.(sp_cors)) (pick p.(sp_hourMetrics) doc.(sp_hourMetrics))
           (pick p.(sp_logging) doc.(sp_logging)) (pick p.(sp_minuteMetrics) doc.(sp_minuteMetrics))
           (pick p.(sp_defaultServiceVersion) doc.(sp_defaultServiceVersion))
           (pick p.(sp_deleteRetentionPolicy) doc.(sp_deleteRetentionPolicy))
           (pick p.(sp_staticWebsite) doc.(sp_staticWebsite)))
        s.(services)))
  | None => update_db (set_services (lk_insert p s.(services)))
  end.

Definition getServiceProperties (account : string) : store (option (ServicePropertiesModel P)) :=
  s ← get_state;
  mret (snd <$> findOne (fun d => d.(sp_accountName) === account) s.(services)).

(** ** Finding a container *)

Definition checkContainerExist (ctx : BlobContext) (account container : string) : store unit :=
  s ← get_state;
  match findOne (is_container account container) s.(containers) with
  | Some _ => mret tt
  | None => throw (BlobErrors.getContainerNotFound ctx.(bc_contextId))
  end.

Definition container_with_lease (f : LeaseFields) (c : ContainerModel) : ContainerModel :=
  mkContainer c.(c_accountName) c.(c_name) c.(c_lastModified) c.(c_etag) c.(c_publicAccess) f
    c.(c_metadata) c.(c_containerAcl).

(** [createLeaseState(new ContainerLeaseAdapter(doc), context).sync(new ContainerLeaseSyncer(doc))]. *)
Definition settle_container (ctx : BlobContext) (d : Z * ContainerModel) : store (Z * ContainerModel) :=
  l ← lift (ContainerLeaseAdapter d.2.(c_lease));
  st ← lift (createLeaseState l (lease_ctx ctx));
  let doc := container_with_lease (sync st (ContainerLeaseSyncer_sync d.2.(c_lease))) d.2 in
  _ ← save_container d.1 doc;
  mret (d.1, doc).

Definition getContainerWithLeaseUpdated (ctx : BlobContext) (account container : string)
    (forceExist : bool) : store (option (Z * ContainerModel)) :=
  s ← get_state;
  match findOne (is_container account container) s.(containers) with
  | None => if forceExist then throw (BlobErrors.getContainerNotFound ctx.(bc_contextId)) else mret None
  | Some d => d ← settle_container ctx d; mret (Some d)
  end.

Definition getContainer (ctx : BlobContext) (account container : string) (forceExist : bool) :
    store (option (Z * ContainerModel)) :=
  s ← get_state;
  match findOne (is_container account container) s.(containers) with
  | None => if forceExist then throw (BlobErrors.getContainerNotFound ctx.(bc_contextId)) else mret None
  | Some d => mret (Some d)
  end.

(** [if (!doc) throw ContainerNotFound]. *)
Definition existing_container (ctx : BlobContext) (doc : option (Z * ContainerModel)) :
    store (Z * ContainerModel) :=
  match doc with
  | Some d => mret d
  | None => throw (BlobErrors.getContainerNotFound ctx.(bc_contextId))
  end.

Definition container_conditions (ctx : BlobContext) (mac : option ModifiedAccessConditions)
    (doc : option (Z * ContainerModel)) : store unit :=
  lift (validateWriteConditions ctx.(bc_contextId) mac ((fun d => container_condition d.2) <$> doc)).

(** [new Validator(leaseAccessConditions).validate(new ContainerLeaseAdapter(doc), context)]. *)
Definition container_lease_allows (validator : option string -> ILease -> Context -> res unit)
    (ctx : BlobContext) (leaseAccessId : option string) (d : Z * ContainerModel) : store unit :=
  l ← lift (ContainerLeaseAdapter d.2.(c_lease));
  lift (validator leaseAccessId l (lease_ctx ctx)).

(** ** Operations *)

(** [simplesort("name")]. *)
Definition container_name_le (x y : Z * ContainerModel) : bool := lk_text_le x.2.(c_name) y.2.(c_name).

(** The loop of [docs.map]: it ends at the first exception. *)
Fixpoint settle_containers (ctx : BlobContext) (ds : list (Z * ContainerModel)) :
    store (list ContainerModel) :=
  match ds with
  | [] => mret []
  | d :: ds =>
      d ← settle_container ctx d;
      rest ← settle_containers ctx ds;
      mret (d.2 :: rest)
  end.

Definition listContainers (ctx : BlobContext) (account prefix : string) (maxResults : Z)
    (marker : string) : store (list ContainerModel * option string) :=
  s ← get_state;
  let query (_ : Z) c :=
    negb (lk_text_le c.(c_name) marker) && (c.(c_accountName) === account) && String.prefix prefix c.(c_name) in
  let docs := take (Z.to_nat (maxResults + 1)) (lk_sort container_name_le (lk_find query s.(containers))) in
  if Z.of_nat (length docs) <=? maxResults then
    cs ← settle_containers ctx docs; mret (cs, None)
  else
    match (if Nat.leb 2 (length docs) then docs !! (length docs - 2)%nat else None) with
    | None => throw TypeError
    | Some d => cs ← settle_containers ctx (take (length docs - 1) docs); mret (cs, Some d.2.(c_name))
    end.

Definition createContainer (ctx : BlobContext) (container : ContainerModel) : store unit :=
  s ← get_state;
  match findOne (is_container container.(c_accountName) container.(c_name)) s.(containers) with
  | Some _ => throw (BlobErrors.getContainerAlreadyExists ctx.(bc_contextId))
  | None => update_db (set_containers (lk_insert container s.(containers)))
  end.

Definition getContainerProperties (ctx : BlobContext) (account container : string)
    (leaseAccessId : option string) : store ContainerModel :=
  doc ← getContainerWithLeaseUpdated ctx account container true;
  d ← existing_container ctx doc;
  _ ← container_lease_allows ContainerReadLeaseValidator ctx leaseAccessId d;
  mret d.2.

Definition deleteContainer (ctx : BlobContext) (account container : string)
    (leaseAccessId : option string) (mac : option ModifiedAccessConditions) : store unit :=
  doc ← getContainerWithLeaseUpdated ctx account container false;
  _ ← container_conditions ctx mac doc;
  d ← existing_container ctx doc;
  _ ← container_lease_allows ContainerDeleteLeaseValidator ctx leaseAccessId d;
  _ ← update_db (fun s => set_containers (lk_remove d.1 s.(containers)) s);
  _ ← update_db (fun s => set_blobs
        (remove_docs (lk_find (fun _ => in_container account container) s.(blobs)) s.(blobs)) s);
  update_db (fun s => set_blocks
        (remove_docs (lk_find (fun _ => block_in_container account container) s.(blocks)) s.(blocks)) s).

Definition setContainerMetadata (ctx : BlobContext) (account container : string) (lastModified : Z)
    (etag : string) (metadata : option (list (string * string))) (leaseAccessId : option string)
    (mac : option ModifiedAccessConditions) : store unit :=
  doc ← getContainerWithLeaseUpdated ctx account container false;
  _ ← container_conditions ctx mac doc;
  d ← existing_container ctx doc;
  _ ← container_lease_allows ContainerReadLeaseValidator ctx leaseAccessId d;
  save_container d.1
    (mkContainer d.2.(c_accountName) d.2.(c_name) lastModified etag d.2.(c_publicAccess) d.2.(c_lease)
       metadata d.2.(c_containerAcl)).

Definition getContainerACL (ctx : BlobContext) (account container : string)
    (leaseAccessId : option string) : store (ContainerModel * option (list AccessPolicy)) :=
  doc ← getContainerWithLeaseUpdated ctx account container true;
  d ← existing_container ctx doc;
  _ ← container_lease_allows ContainerReadLeaseValidator ctx leaseAccessId d;
  mret (d.2, d.2.(c_containerAcl)).

Definition setContainerACL (ctx : BlobContext) (account container : string) (lastModified : Z)
    (etag : string) (publicAccess : option string) (acl : option (list AccessPolicy))
    (leaseAccessId : option string) (mac : option ModifiedAccessConditions) : store unit :=
  doc ← getContainerWithLeaseUpdated ctx account container false;
  _ ← container_conditions ctx mac doc;
  d ← existing_container ctx doc;
  _ ← container_lease_allows ContainerReadLeaseValidator ctx leaseAccessId d;
  save_container d.1
    (mkContainer d.2.(c_accountName) d.2.(c_name) lastModified etag publicAccess d.2.(c_lease)
       d.2.(c_metadata) acl).

(** What the five lease operations have in common; [op] is the call on the state. *)
Definition container_lease (ctx : BlobContext) (account container : string)
    (mac : option ModifiedAccessConditions) (op : ILeaseState -> res ILeaseState) : store ContainerModel :=
  doc ← getContainer ctx account container false;
  _ ← container_conditions ctx mac doc;
  d ← existing_container ctx doc;
  l ← lift (ContainerLeaseAdapter d.2.(c_lease));
  st ← lift (createLeaseState l (lease_ctx ctx));
  st ← lift (op st);
  let doc := container_with_lease (sync st (ContainerLeaseSyncer_sync d.2.(c_lease))) d.2 in
  _ ← save_container d.1 doc;
  mret doc.

Definition acquireContainerLease (env : Env) (ctx : BlobContext) (account container : string)
    (duration : Z) (proposedLeaseId : option string) (mac : option ModifiedAccessConditions) :
    store (ContainerModel * option string) :=
  doc ← container_lease ctx account container mac
          (fun st => acquire env.(uuid) st duration proposedLeaseId);
  mret (doc, doc.(c_lease).(f_leaseId)).

Definition releaseContainerLease (ctx : BlobContext) (account container leaseId : string)
    (mac : option ModifiedAccessConditions) : store ContainerModel :=
  container_lease ctx account container mac (fun st => release st leaseId).

Definition renewContainerLease (ctx : BlobContext) (account container leaseId : string)
    (mac : option ModifiedAccessConditions) : store (ContainerModel * option string) :=
  doc ← container_lease ctx account container mac (fun st => renew st leaseId);
  mret (doc, doc.(c_lease).(f_leaseId)).

(** The rest of a breaking lease in seconds, [Math.round] rounding halves up. *)
Definition leaseTimeSeconds (ctx : BlobContext) (f : LeaseFields) : Z :=
  match f.(p_leaseState), f.(f_leaseBreakTime) with
  | Some LeaseStateType.Breaking, Some t => (t - ctx.(bc_startTime) + 500) / 1000
  | _, _ => 0
  end.

Definition breakContainerLease (ctx : BlobContext) (account container : string) (breakPeriod : option Z)
    (mac : option ModifiedAccessConditions) : store (ContainerModel * Z) :=
  doc ← container_lease ctx account container mac (fun st => break st breakPeriod);
  mret (doc, leaseTimeSeconds ctx doc.(c_lease)).

Definition changeContainerLease (ctx : BlobContext) (account container leaseId proposedLeaseId : string)
    (mac : option ModifiedAccessConditions) : store (ContainerModel * option string) :=
  doc ← container_lease ctx account container mac (fun st => change st leaseId proposedLeaseId);
  mret (doc, doc.(c_lease).(f_leaseId)).

End Containers.
