(* ===== verification/BlobStore.v ===== *)
(** * BlobStore: blobs, snapshots, blocks and pages in the blob metadata store

    src/src/blob/persistence/LokiBlobMetadataStore.ts, one definition per method.
    A document of a collection is an object the code changes in place, also in
    requests that throw afterwards: each such change is a [save_blob] here. *)

From S2P Require Import Prelude Errors Extents Loki TagQuery Conditions Lease PageRanges.
From S2P Require Import BlobModels BlobContainers.
From stdpp Require Import pretty.
Open Scope Z_scope.
Open Scope azurite_scope.

Definition MAX_APPEND_BLOB_BLOCK_COUNT : Z := 50000.
Definition DEFAULT_LIST_BLOBS_MAX_RESULTS : Z := 5000.

Inductive DeleteSnapshotsOptionType := Include | Only.
Inductive SequenceNumberActionType := Max | Increment | Update | OtherAction (action : string).

Record AppendPositionAccessConditions := mkAppendPosition {
  maxSize : option Z;
  appendPosition : option Z
}.

Record BlobId := mkBlobId {
  id_account : string;
  id_container : string;
  id_blob : string;
  id_snapshot : option string
}.

(** ** Pure parts *)

(** The lease of a snapshot, and that of a new one. *)
Definition snapshotLease : ILease := availableLease.
Definition noLease : LeaseFields := mkFields None None None None None None None.

(** [new BlobWriteLeaseSyncer(doc).sync(new BlobLeaseAdapter(doc))]. *)
Definition written_lease (b : BlobModel) : BlobModel :=
  with_lease (BlobWriteLeaseSyncer_sync b.(b_lease) (BlobLeaseAdapter b.(b_lease)).1) b.

(** [options.modifiedAccessConditions && ....ifNoneMatch === "*"]. *)
Definition if_none_match_any (mac : option ModifiedAccessConditions) : bool :=
  (mac ≫= mac_ifNoneMatch) === Some "*"%string.

(** [new Map(list.map((b) => [b.name, b]))]: the last block of a name counts. *)
Definition block_map (l : list PersistencyBlockModel) : gmap string PersistencyBlockModel :=
  foldl (fun m b => <[b.(block_name) := b]> m) ∅ l.

(** The selection of one entry of a block list. *)
Definition select_block (ctx : BlobContext) (committed uncommitted : gmap string PersistencyBlockModel)
    (entry : string * string) : res PersistencyBlockModel :=
  let (blockName, blockCommitType) := entry in
  let found o := match o with
                 | Some b => Ok b
                 | None => Throw (BlobErrors.getInvalidBlockList ctx.(bc_contextId))
                 end in
  if toLowerCase blockCommitType === "uncommitted"%string then found (uncommitted !! blockName)
  else if toLowerCase blockCommitType === "committed"%string then found (committed !! blockName)
  else if toLowerCase blockCommitType === "latest"%string then
    found (match uncommitted !! blockName with Some b => Some b | None => committed !! blockName end)
  else Throw (BlobErrors.getInvalidBlockList ctx.(bc_contextId)).

Fixpoint select_blocks (ctx : BlobContext) (committed uncommitted : gmap string PersistencyBlockModel)
    (blockList : list (string * string)) : res (list PersistencyBlockModel) :=
  match blockList with
  | [] => Ok []
  | e :: rest =>
      b ← select_block ctx committed uncommitted e;
      bs ← select_blocks ctx committed uncommitted rest;
      Ok (b :: bs)
  end.

Definition total_size (l : list PersistencyBlockModel) : Z :=
  foldl (fun total b => total + b.(block_size)) 0 l.

Definition getBlobTagsCount (tags : option (list BlobTag)) : option Z :=
  match tags with
  | None | Some [] => None
  | Some l => Some (Z.of_nat (length l))
  end.

Definition parseTier (tier : string) : option string :=
  List.find (fun t => toLowerCase tier === toLowerCase t) ["Hot"; "Cool"; "Archive"; "Cold"]%string.

(** What a sequence number action makes of the current number. *)
Definition next_sequence (ctx : BlobContext) (action : SequenceNumberActionType) (current : Z)
    (given : option Z) : res Z :=
  let invalid m := Throw (BlobErrors.getInvalidOperation ctx.(bc_contextId) m) in
  match action, given with
  | Max, None =>
      invalid "x-ms-blob-sequence-number is required when x-ms-sequence-number-action is set to max."
  | Max, Some n => Ok (Z.max current n)
  | Increment, Some _ =>
      invalid "x-ms-blob-sequence-number cannot be provided when x-ms-sequence-number-action is set to increment."
  | Increment, None => Ok (current + 1)
  | Update, None =>
      invalid "x-ms-blob-sequence-number is required when x-ms-sequence-number-action is set to update."
  | Update, Some n => Ok n
  | OtherAction _, _ => invalid "Unsupported x-ms-sequence-number-action value."
  end%string.

Section Store.
Context {coll : Type -> Type} `{Loki coll} {P : Type}.

Abbreviation db := (BlobDb coll P).
Abbreviation store := (proc db exn).

(** ** Finding a blob *)

(** [forceExist] is [true] if it is left out; [snapshot] is [""] then. *)
Definition getBlobWithLeaseUpdated (ctx : BlobContext) (account container blob : string)
    (snapshot : option string) (forceExist forceCommitted : bool) : store (option (Z * BlobModel)) :=
  let snapshot := default EmptyString snapshot in
  let missing := if forceExist then throw (BlobErrors.getBlobNotFound ctx.(bc_contextId)) else mret None in
  _ ← checkContainerExist ctx account container;
  s ← get_state;
  match findOne (is_blob account container blob snapshot) s.(blobs) with
  | None => missing
  | Some (i, doc) =>
      if forceCommitted && negb doc.(b_isCommitted) then missing
      else if snapshot !== EmptyString then
        let doc := with_lease (BlobLeaseSyncer_sync doc.(b_lease) snapshotLease) doc in
        _ ← save_blob i doc;
        mret (Some (i, doc))
      else
        let (l, f) := BlobLeaseAdapter doc.(b_lease) in
        _ ← save_blob i (with_lease f doc);
        st ← lift (createLeaseState l (lease_ctx ctx));
        let doc := with_lease (sync st (BlobLeaseSyncer_sync f)) doc in
        _ ← save_blob i doc;
        mret (Some (i, doc))
  end.

Definition getBlob (account container blob : string) (snapshot : option string) :
    store (option (Z * BlobModel)) :=
  s ← get_state;
  mret (findOne (is_blob account container blob (default EmptyString snapshot)) s.(blobs)).

Definition checkBlobExist (ctx : BlobContext) (account container blob : string)
    (snapshot : option string) : store unit :=
  _ ← checkContainerExist ctx account container;
  s ← get_state;
  match findOne (is_blob account container blob (default EmptyString snapshot)) s.(blobs) with
  | Some _ => mret tt
  | None => throw (BlobErrors.getBlobNotFound ctx.(bc_contextId))
  end.

Definition getBlobType (account container blob : string) (snapshot : option string) :
    store (option (option BlobType * bool)) :=
  s ← get_state;
  mret ((fun d => (d.2.(b_properties).(bp_blobType), d.2.(b_isCommitted)))
          <$> findOne (is_blob account container blob (default EmptyString snapshot)) s.(blobs)).

(** The guards of the operations. *)
Definition read_conditions (ctx : BlobContext) (mac : option ModifiedAccessConditions)
    (doc : option (Z * BlobModel)) (isSourceBlob : option bool) : store unit :=
  lift (validateReadConditions ctx.(bc_contextId) mac ((fun d => condition_model d.2) <$> doc) isSourceBlob).

Definition write_conditions (ctx : BlobContext) (mac : option ModifiedAccessConditions)
    (doc : option (Z * BlobModel)) : store unit :=
  lift (validateWriteConditions ctx.(bc_contextId) mac ((fun d => condition_model d.2) <$> doc)).

Definition existing (ctx : BlobContext) (doc : option (Z * BlobModel)) : store (Z * BlobModel) :=
  match doc with
  | Some d => mret d
  | None => throw (BlobErrors.getBlobNotFound ctx.(bc_contextId))
  end.

Definition read_lease (ctx : BlobContext) (leaseAccessId : option string) (d : Z * BlobModel) : store unit :=
  lift (BlobReadLeaseValidator leaseAccessId (BlobLeaseAdapter d.2.(b_lease)).1 (lease_ctx ctx)).

Definition write_lease (ctx : BlobContext) (leaseAccessId : option string) (d : Z * BlobModel) : store unit :=
  lift (BlobWriteLeaseValidator leaseAccessId (BlobLeaseAdapter d.2.(b_lease)).1 (lease_ctx ctx)).

Definition guard (ok : bool) (e : exn) : store unit := if ok then mret tt else throw e.

Definition has_type (t : BlobType) (d : Z * BlobModel) : bool :=
  d.2.(b_properties).(bp_blobType) === Some t.

(** ** Blobs and snapshots *)

Definition createBlob (ctx : BlobContext) (blob : BlobModel) (leaseAccessId : option string)
    (mac : option ModifiedAccessConditions) : store unit :=
  _ ← checkContainerExist ctx blob.(b_accountName) blob.(b_containerName);
  s ← get_state;
  let blobDoc := findOne (is_blob blob.(b_accountName) blob.(b_containerName) blob.(b_name) blob.(b_snapshot))
                   s.(blobs) in
  _ ← write_conditions ctx mac blobDoc;
  _ ← guard (negb (if_none_match_any mac && defined blobDoc))
        (BlobErrors.getBlobAlreadyExists ctx.(bc_contextId));
  match blobDoc with
  | None => update_db (fun s => set_blobs (lk_insert blob s.(blobs)) s)
  | Some (i, doc) =>
      let (l, f) := BlobLeaseAdapter doc.(b_lease) in
      _ ← save_blob i (with_lease f doc);
      st ← lift (createLeaseState l (lease_ctx ctx));
      st ← lift (validate st (BlobWriteLeaseValidator leaseAccessId));
      let blob := with_lease (sync st (BlobWriteLeaseSyncer_sync blob.(b_lease))) blob in
      _ ← guard (doc.(b_properties).(bp_accessTier) !== Some "Archive"%string)
            (BlobErrors.getBlobArchived ctx.(bc_contextId));
      _ ← update_db (fun s => set_blobs (lk_remove i s.(blobs)) s);
      update_db (fun s => set_blobs (lk_insert blob s.(blobs)) s)
  end.

(** [array.slice()] of an array that may be undefined. *)
Definition copy_blocks (b : BlobModel) : store (option Ref) :=
  s ← get_state;
  match b.(b_committedBlocksInOrder) with
  | None => mret None
  | Some _ => r ← new_blocks (blocks_of b s); mret (Some r)
  end.
Definition copy_ranges (b : BlobModel) : store (option Ref) :=
  s ← get_state;
  match b.(b_pageRangesInOrder) with
  | None => mret None
  | Some _ => r ← new_ranges (ranges_of b s); mret (Some r)
  end.

(** [metadata ? { ...metadata } : { ...doc.metadata }]. *)
Definition snapshot_metadata (metadata old : option (list (string * string))) :
    option (list (string * string)) :=
  match metadata with Some m => Some m | None => Some (default [] old) end.

Definition createSnapshot (ctx : BlobContext) (account container blob : string)
    (leaseAccessId : option string) (metadata : option (list (string * string)))
    (mac : option ModifiedAccessConditions) : store (BlobProperties * string) :=
  doc ← getBlobWithLeaseUpdated ctx account container blob None false true;
  _ ← read_conditions ctx mac doc None;
  d ← existing ctx doc;
  _ ← read_lease ctx leaseAccessId d;
  let doc := d.2 in
  let snapshotTime := snapshot_time ctx.(bc_startTime) in
  ranges ← copy_ranges doc;
  blocks ← copy_blocks doc;
  let snapshotBlob :=
    mkBlob doc.(b_accountName) doc.(b_containerName) doc.(b_name) snapshotTime doc.(b_isCommitted)
      doc.(b_properties) noLease (snapshot_metadata metadata doc.(b_metadata)) doc.(b_blobTags)
      blocks ranges doc.(b_persistency) in
  _ ← update_db (fun s => set_blobs (lk_insert snapshotBlob s.(blobs)) s);
  mret (doc.(b_properties), snapshotTime).

Definition downloadBlob (ctx : BlobContext) (account container blob : string) (snapshot : option string)
    (leaseAccessId : option string) (mac : option ModifiedAccessConditions) : store BlobModel :=
  doc ← getBlobWithLeaseUpdated ctx account container blob snapshot false true;
  _ ← read_conditions ctx mac doc None;
  d ← existing ctx doc;
  _ ← read_lease ctx leaseAccessId d;
  mret d.2.

Definition getBlobProperties (ctx : BlobContext) (account container blob : string)
    (snapshot : option string) (leaseAccessId : option string) (mac : option ModifiedAccessConditions) :
    store (BlobModel * option Z) :=
  doc ← getBlobWithLeaseUpdated ctx account container blob snapshot false true;
  _ ← read_conditions ctx mac doc None;
  d ← existing ctx doc;
  _ ← read_lease ctx leaseAccessId d;
  let doc := with_properties
    (with_tagCount (getBlobTagsCount d.2.(b_blobTags)) d.2.(b_properties)) d.2 in
  _ ← save_blob d.1 doc;
  s ← get_state;
  mret (doc, if has_type AppendBlob d then Some (Z.of_nat (length (blocks_of doc s))) else None).

(** [findAndRemove] of a query on blobs. *)
Definition remove_blobs (p : BlobModel -> bool) : store unit :=
  update_db (fun s => set_blobs (remove_docs (lk_find (fun _ => p) s.(blobs)) s.(blobs)) s).

Definition deleteBlob (ctx : BlobContext) (account container blob : string) (snapshot : option string)
    (deleteSnapshots : option DeleteSnapshotsOptionType) (leaseAccessId : option string)
    (mac : option ModifiedAccessConditions) : store unit :=
  _ ← checkContainerExist ctx account container;
  doc ← getBlobWithLeaseUpdated ctx account container blob snapshot false false;
  _ ← write_conditions ctx mac doc;
  d ← existing ctx doc;
  let againstBaseBlob := d.2.(b_snapshot) === EmptyString in
  _ ← guard (againstBaseBlob || undefined deleteSnapshots)
        (BlobErrors.getInvalidOperation ctx.(bc_contextId) "Invalid operation against a blob snapshot.");
  _ ← write_lease ctx leaseAccessId d;
  s ← get_state;
  if againstBaseBlob then
    match deleteSnapshots with
    | None =>
        _ ← guard (Nat.leb (length (lk_find (fun _ => is_named account container blob) s.(blobs))) 1)
              (BlobErrors.getSnapshotsPresent ctx.(bc_contextId));
        remove_blobs (is_named account container blob)
    | Some Include => remove_blobs (is_named account container blob)
    | Some Only =>
        remove_blobs (fun b => is_named account container blob b && (b.(b_snapshot) !== EmptyString))
    end
  else remove_blobs (is_blob account container blob d.2.(b_snapshot)).

Definition setBlobHTTPHeaders (env : Env) (ctx : BlobContext) (account container blob : string)
    (leaseAccessId : option string) (blobHTTPHeaders : option BlobHTTPHeaders)
    (mac : option ModifiedAccessConditions) : store BlobProperties :=
  doc ← getBlobWithLeaseUpdated ctx account container blob None false true;
  _ ← write_conditions ctx mac doc;
  d ← existing ctx doc;
  _ ← write_lease ctx leaseAccessId d;
  let p := d.2.(b_properties) in
  let p := match blobHTTPHeaders with Some h => with_headers h p | None => p end in
  let p := touch env.(newEtag) ctx.(bc_startTime) p in
  _ ← save_blob d.1 (written_lease (with_properties p d.2));
  mret p.

Definition setBlobMetadata (env : Env) (ctx : BlobContext) (account container blob : string)
    (leaseAccessId : option string) (metadata : option (list (string * string)))
    (mac : option ModifiedAccessConditions) : store BlobProperties :=
  doc ← getBlobWithLeaseUpdated ctx account container blob None false true;
  _ ← write_conditions ctx mac doc;
  d ← existing ctx doc;
  _ ← write_lease ctx leaseAccessId d;
  let p := touch env.(newEtag) ctx.(bc_startTime) d.2.(b_properties) in
  _ ← save_blob d.1 (with_properties p (with_metadata metadata (written_lease d.2)));
  mret p.

Definition setBlobTag (ctx : BlobContext) (account container blob : string) (snapshot : option string)
    (leaseAccessId : option string) (tags : option (list BlobTag)) : store unit :=
  doc ← getBlobWithLeaseUpdated ctx account container blob snapshot false true;
  d ← existing ctx doc;
  _ ← write_lease ctx leaseAccessId d;
  save_blob d.1 (with_tags tags (written_lease d.2)).

Definition getBlobTag (ctx : BlobContext) (account container blob : string) (snapshot : option string)
    (leaseAccessId : option string) (mac : option ModifiedAccessConditions) :
    store (option (list BlobTag)) :=
  doc ← getBlobWithLeaseUpdated ctx account container blob snapshot false true;
  _ ← read_conditions ctx mac doc None;
  d ← existing ctx doc;
  _ ← read_lease ctx leaseAccessId d;
  mret d.2.(b_blobTags).

Definition setTier (ctx : BlobContext) (account container blob tier : string)
    (leaseAccessId : option string) : store Z :=
  doc ← getBlobWithLeaseUpdated ctx account container blob None true true;
  d ← existing ctx doc;
  _ ← write_lease ctx leaseAccessId d;
  _ ← guard (d.2.(b_snapshot) === EmptyString) (BlobErrors.getBlobSnapshotsPresent ctx.(bc_contextId));
  _ ← guard (existsb (String.eqb tier) ["Archive"; "Cool"; "Hot"; "Cold"]%string && has_type BlockBlob d)
        (BlobErrors.getAccessTierNotSupportedForBlobType ctx.(bc_contextId));
  let p := d.2.(b_properties) in
  let code := if (p.(bp_accessTier) === Some "Archive"%string)
                 && existsb (String.eqb tier) ["Cool"; "Hot"; "Cold"]%string then 202 else 200 in
  _ ← save_blob d.1
        (written_lease (with_properties (with_tier (Some tier) (Some false) (Some ctx.(bc_startTime)) p) d.2));
  mret code.

Definition sealBlob (env : Env) (ctx : BlobContext) (account container blob : string)
    (leaseAccessId : option string) (mac : option ModifiedAccessConditions) : store BlobProperties :=
  doc ← getBlob account container blob None;
  _ ← write_conditions ctx mac doc;
  d ← existing ctx doc;
  _ ← guard (has_type AppendBlob d) (BlobErrors.getBlobInvalidBlobType ctx.(bc_contextId));
  _ ← save_blob d.1 (with_lease (BlobLeaseAdapter d.2.(b_lease)).2 d.2);
  _ ← write_lease ctx leaseAccessId d;
  let p := with_sealed (Some true) (touch env.(newEtag) ctx.(bc_startTime) d.2.(b_properties)) in
  _ ← save_blob d.1 (with_properties p (written_lease d.2));
  mret p.

(** ** Leases *)

(** What the five lease operations have in common; [op] is the call on the state. *)
Definition blob_lease (ctx : BlobContext) (account container blob : string)
    (mac : option ModifiedAccessConditions) (op : ILeaseState -> res ILeaseState) : store BlobModel :=
  doc ← getBlobWithLeaseUpdated ctx account container blob None false false;
  _ ← write_conditions ctx mac doc;
  d ← existing ctx doc;
  _ ← guard (d.2.(b_snapshot) === EmptyString) (BlobErrors.getBlobSnapshotsPresent ctx.(bc_contextId));
  st ← lift (createLeaseState (BlobLeaseAdapter d.2.(b_lease)).1 (lease_ctx ctx));
  st ← lift (op st);
  let doc := with_lease (sync st (BlobLeaseSyncer_sync d.2.(b_lease))) d.2 in
  _ ← save_blob d.1 doc;
  mret doc.

Definition acquireBlobLease (env : Env) (ctx : BlobContext) (account container blob : string)
    (duration : Z) (proposedLeaseId : option string) (mac : option ModifiedAccessConditions) :
    store (BlobModel * option string) :=
  doc ← blob_lease ctx account container blob mac
          (fun st => acquire env.(uuid) st duration proposedLeaseId);
  mret (doc, doc.(b_lease).(f_leaseId)).

Definition releaseBlobLease (ctx : BlobContext) (account container blob leaseId : string)
    (mac : option ModifiedAccessConditions) : store BlobModel :=
  blob_lease ctx account container blob mac (fun st => release st leaseId).

Definition renewBlobLease (ctx : BlobContext) (account container blob leaseId : string)
    (mac : option ModifiedAccessConditions) : store (BlobModel * option string) :=
  doc ← blob_lease ctx account container blob mac (fun st => renew st leaseId);
  mret (doc, doc.(b_lease).(f_leaseId)).

Definition changeBlobLease (ctx : BlobContext) (account container blob leaseId proposedLeaseId : string)
    (mac : option ModifiedAccessConditions) : store (BlobModel * option string) :=
  doc ← blob_lease ctx account container blob mac (fun st => change st leaseId proposedLeaseId);
  mret (doc, doc.(b_lease).(f_leaseId)).

Definition breakBlobLease (ctx : BlobContext) (account container blob : string) (breakPeriod : option Z)
    (mac : option ModifiedAccessConditions) : store (BlobModel * Z) :=
  doc ← blob_lease ctx account container blob mac (fun st => break st breakPeriod);
  mret (doc, leaseTimeSeconds ctx doc.(b_lease)).

(** ** Blocks *)

(** The uncommitted blob the first staged block makes. *)
Definition uncommitted_blob (env : Env) (ctx : BlobContext) (account container blob : string) : BlobModel :=
  mkBlob account container blob EmptyString false
    (mkProperties (Some ctx.(bc_startTime)) ctx.(bc_startTime) env.(newEtag) (Some 0) no_headers
       (Some BlockBlob) None None None None None None None)
    noLease None None None None None.

Definition stageBlock (env : Env) (ctx : BlobContext) (block : BlockModel) (leaseAccessId : option string) :
    store unit :=
  let account := block.(bl_accountName) in
  let container := block.(bl_containerName) in
  let blob := block.(bl_blobName) in
  let name := block.(bl_block).(block_name) in
  _ ← checkContainerExist ctx account container;
  s ← get_state;
  let blobDoc := findOne (is_named account container blob) s.(blobs) in
  _ ← match blobDoc with
      | None =>
          update_db (fun s => set_blobs
            (lk_insert (uncommitted_blob env ctx account container blob) s.(blobs)) s)
      | Some (i, doc) =>
          _ ← guard (has_type BlockBlob (i, doc)) (BlobErrors.getBlobInvalidBlobType ctx.(bc_contextId));
          let (l, f) := BlobLeaseAdapter doc.(b_lease) in
          _ ← save_blob i (with_lease f doc);
          st ← lift (createLeaseState l (lease_ctx ctx));
          st ← lift (validate st (BlobWriteLeaseValidator leaseAccessId));
          save_blob i (with_lease (sync st (BlobWriteLeaseSyncer_sync f)) doc)
      end;
  s ← get_state;
  _ ← match blobDoc, findOne (is_block_of account container blob) s.(blocks) with
      | Some _, Some (_, existBlockDoc) =>
          guard (base64_length existBlockDoc.(bl_block).(block_name) =? base64_length name)
            (BlobErrors.getInvalidBlobOrBlock ctx.(bc_contextId))
      | _, _ => mret tt
      end;
  let same (b : BlockModel) :=
    is_block_of account container blob b && (b.(bl_block).(block_name) === name)
    && (b.(bl_isCommitted) === block.(bl_isCommitted)) in
  _ ← match findOne same s.(blocks) with
      | Some (j, _) => update_db (fun s => set_blocks (lk_remove j s.(blocks)) s)
      | None => mret tt
      end;
  update_db (fun s => set_blocks (lk_insert block s.(blocks)) s).

Definition appendBlock (env : Env) (ctx : BlobContext) (block : BlockModel) (leaseAccessId : option string)
    (mac : option ModifiedAccessConditions) (apac : AppendPositionAccessConditions) : store BlobProperties :=
  doc ← getBlobWithLeaseUpdated ctx block.(bl_accountName) block.(bl_containerName) block.(bl_blobName)
          None false true;
  _ ← write_conditions ctx mac doc;
  d ← existing ctx doc;
  _ ← write_lease ctx leaseAccessId d;
  let p := d.2.(b_properties) in
  let length := default 0 p.(bp_contentLength) in
  let size := block.(bl_block).(block_size) in
  _ ← guard (p.(bp_isSealed) !== Some true) (BlobErrors.getBlobSealed ctx.(bc_contextId));
  _ ← guard (has_type AppendBlob d) (BlobErrors.getBlobInvalidBlobType ctx.(bc_contextId));
  s ← get_state;
  _ ← guard (Z.of_nat (List.length (blocks_of d.2 s)) <? MAX_APPEND_BLOB_BLOCK_COUNT)
        (BlobErrors.getBlockCountExceedsLimit ctx.(bc_contextId));
  _ ← guard (match apac.(appendPosition) with Some n => length =? n | None => true end)
        (BlobErrors.getAppendPositionConditionNotMet ctx.(bc_contextId));
  _ ← guard (match apac.(maxSize) with Some n => length + size <=? n | None => true end)
        (BlobErrors.getMaxBlobSizeConditionNotMet ctx.(bc_contextId));
  r ← match d.2.(b_committedBlocksInOrder) with Some r => mret r | None => new_blocks [] end;
  _ ← write_blocks r (blocks_of d.2 s ++ [block.(bl_block)]);
  let p := with_length (Some (length + size)) (touch env.(newEtag) ctx.(bc_startTime) p) in
  _ ← save_blob d.1 (with_properties p (with_blocks (Some r) (written_lease d.2)));
  mret p.

(** The document of a committed block list. *)
Definition committed_blob (blob doc : BlobModel) (r : Ref) (selected : list PersistencyBlockModel) : BlobModel :=
  let p := doc.(b_properties) in
  let q := blob.(b_properties) in
  mkBlob doc.(b_accountName) doc.(b_containerName) doc.(b_name) doc.(b_snapshot) true
    (mkProperties p.(bp_creationTime) q.(bp_lastModified) q.(bp_etag) (Some (total_size selected))
       q.(bp_headers) q.(bp_blobType) q.(bp_accessTier) q.(bp_accessTierInferred)
       p.(bp_accessTierChangeTime) p.(bp_blobSequenceNumber) p.(bp_isSealed) p.(bp_tagCount) p.(bp_copy))
    doc.(b_lease) blob.(b_metadata) blob.(b_blobTags) (Some r) doc.(b_pageRangesInOrder)
    doc.(b_persistency).

Definition commitBlockList (ctx : BlobContext) (blob : BlobModel) (blockList : list (string * string))
    (leaseAccessId : option string) (mac : option ModifiedAccessConditions) : store unit :=
  let account := blob.(b_accountName) in
  let container := blob.(b_containerName) in
  let name := blob.(b_name) in
  doc ← getBlobWithLeaseUpdated ctx account container name (Some blob.(b_snapshot)) false false;
  _ ← write_conditions ctx mac doc;
  _ ← guard (negb (if_none_match_any mac
                   && match doc with Some d => d.2.(b_isCommitted) | None => false end))
        (BlobErrors.getBlobAlreadyExists ctx.(bc_contextId));
  _ ← match doc with
      | Some d =>
          _ ← guard (has_type BlockBlob d) (BlobErrors.getBlobInvalidBlobType ctx.(bc_contextId));
          write_lease ctx leaseAccessId d
      | None => mret tt
      end;
  s ← get_state;
  let staged := (lk_find (fun _ => is_block_of account container name) s.(blocks)).*2 in
  let committed := block_map (match doc with Some d => blocks_of d.2 s | None => [] end) in
  let uncommitted := block_map (bl_block <$> List.filter (fun b => negb b.(bl_isCommitted)) staged) in
  selected ← lift (select_blocks ctx committed uncommitted blockList);
  r ← new_blocks selected;
  _ ← match doc with
      | Some d => save_blob d.1 (written_lease (committed_blob blob d.2 r selected))
      | None =>
          update_db (fun s => set_blobs
            (lk_insert (with_properties (with_length (Some (total_size selected)) blob.(b_properties))
                          (with_blocks (Some r) blob)) s.(blobs)) s)
      end;
  update_db (fun s => set_blocks
    (remove_docs (lk_find (fun _ => is_block_of account container name) s.(blocks)) s.(blocks)) s).

Definition block_id_le (x y : Z * BlockModel) : bool := x.1 <=? y.1.

(** The committed and the uncommitted blocks; [isCommitted] may leave out either. *)
Definition getBlockList (ctx : BlobContext) (account container blob : string) (snapshot : option string)
    (isCommitted : option bool) (leaseAccessId : option string) (mac : option ModifiedAccessConditions) :
    store (BlobProperties * list BlockModel * list PersistencyBlockModel) :=
  doc ← getBlobWithLeaseUpdated ctx account container blob snapshot true false;
  _ ← read_conditions ctx mac doc None;
  d ← existing ctx doc;
  _ ← read_lease ctx leaseAccessId d;
  _ ← guard (has_type BlockBlob d) (BlobErrors.getBlobInvalidBlobType ctx.(bc_contextId));
  s ← get_state;
  let committed := if isCommitted !== Some false then blocks_of d.2 s else [] in
  let uncommitted :=
    if isCommitted !== Some true then
      (lk_sort block_id_le (lk_find (fun _ => is_block_of account container blob) s.(blocks))).*2
    else [] in
  mret (d.2.(b_properties), uncommitted, committed).

(** [parseInt(marker, 10)] of a marker this method made is its number. *)
Definition listUncommittedBlockPersistencyChunks (marker : option Z) (maxResults : Z) :
    store (list IExtentChunk * option Z) :=
  s ← get_state;
  let docs := take (Z.to_nat (maxResults + 1))
    (lk_sort block_id_le (lk_find (fun i _ => default (-1) marker <? i) s.(blocks))) in
  let chunks ds := (fun d : Z * BlockModel => d.2.(bl_block).(block_persistency)) <$> ds in
  if Z.of_nat (List.length docs) <=? maxResults then mret (chunks docs, None)
  else
    let docs := take (List.length docs - 1) docs in
    match last docs with
    | None => throw TypeError
    | Some d => mret (chunks docs, Some d.1)
    end.

(** ** Pages *)

Definition sequence_conditions (ctx : BlobContext) (snac : option SequenceNumberAccessConditions)
    (doc : option (Z * BlobModel)) : store unit :=
  lift (validateSequenceNumberWriteConditions ctx.(bc_contextId) snac
          ((fun d => d.2.(b_properties).(bp_blobSequenceNumber)) <$> doc)).

(** An update of [doc.pageRangesInOrder || []] in place: without an array, the
    one that is changed is forgotten. *)
Definition change_ranges (b : BlobModel)
    (f : list PersistencyPageRange -> res (list PersistencyPageRange)) : store unit :=
  s ← get_state;
  l ← lift (f (ranges_of b s));
  match b.(b_pageRangesInOrder) with
  | Some r => write_ranges r l
  | None => mret tt
  end.

Definition uploadPages (env : Env) (ctx : BlobContext) (blob : BlobModel) (start end_ : Z)
    (persistency : IExtentChunk) (leaseAccessId : option string) (mac : option ModifiedAccessConditions)
    (snac : option SequenceNumberAccessConditions) : store BlobProperties :=
  doc ← getBlobWithLeaseUpdated ctx blob.(b_accountName) blob.(b_containerName) blob.(b_name)
          (Some blob.(b_snapshot)) false true;
  _ ← write_conditions ctx mac doc;
  _ ← sequence_conditions ctx snac doc;
  d ← existing ctx doc;
  _ ← guard (has_type PageBlob d) (BlobErrors.getBlobInvalidBlobType ctx.(bc_contextId));
  _ ← write_lease ctx leaseAccessId d;
  _ ← change_ranges d.2 (fun l => mergeRange l (mkRange start end_ persistency));
  let p := touch env.(newEtag) ctx.(bc_startTime) d.2.(b_properties) in
  _ ← save_blob d.1 (with_properties p (written_lease d.2));
  mret p.

Definition clearRange (env : Env) (ctx : BlobContext) (blob : BlobModel) (start end_ : Z)
    (leaseAccessId : option string) (mac : option ModifiedAccessConditions)
    (snac : option SequenceNumberAccessConditions) : store BlobProperties :=
  doc ← getBlobWithLeaseUpdated ctx blob.(b_accountName) blob.(b_containerName) blob.(b_name)
          (Some blob.(b_snapshot)) false true;
  _ ← write_conditions ctx mac doc;
  _ ← sequence_conditions ctx snac doc;
  d ← existing ctx doc;
  _ ← write_lease ctx leaseAccessId d;
  _ ← change_ranges d.2 (fun l => PageRanges.clearRange l (mkPageRange start end_));
  let p := touch env.(newEtag) ctx.(bc_startTime) d.2.(b_properties) in
  _ ← save_blob d.1 (with_properties p (written_lease d.2));
  mret p.

Definition getPageRanges (ctx : BlobContext) (account container blob : string) (snapshot : option string)
    (leaseAccessId : option string) (mac : option ModifiedAccessConditions) :
    store (BlobProperties * option (list PersistencyPageRange)) :=
  doc ← getBlobWithLeaseUpdated ctx account container blob snapshot false true;
  _ ← read_conditions ctx mac doc None;
  d ← existing ctx doc;
  _ ← guard (has_type PageBlob d) (BlobErrors.getBlobInvalidBlobType ctx.(bc_contextId));
  _ ← read_lease ctx leaseAccessId d;
  s ← get_state;
  mret (d.2.(b_properties), (fun _ => ranges_of d.2 s) <$> d.2.(b_pageRangesInOrder)).

Definition resizePageBlob (env : Env) (ctx : BlobContext) (account container blob : string)
    (blobContentLength : Z) (leaseAccessId : option string) (mac : option ModifiedAccessConditions) :
    store BlobProperties :=
  doc ← getBlobWithLeaseUpdated ctx account container blob None false true;
  _ ← write_conditions ctx mac doc;
  d ← existing ctx doc;
  _ ← guard (has_type PageBlob d)
        (BlobErrors.getInvalidOperation ctx.(bc_contextId) "Resize could only be against a page blob.");
  _ ← write_lease ctx leaseAccessId d;
  r ← match d.2.(b_pageRangesInOrder) with Some r => mret r | None => new_ranges [] end;
  let doc := with_ranges (Some r) d.2 in
  _ ← save_blob d.1 doc;
  _ ← match d.2.(b_properties).(bp_contentLength) with
      | Some n =>
          if blobContentLength <? n
          then change_ranges doc (fun l => PageRanges.clearRange l (mkPageRange blobContentLength (n - 1)))
          else mret tt
      | None => mret tt
      end;
  let p := touch env.(newEtag) ctx.(bc_startTime)
             (with_length (Some blobContentLength) d.2.(b_properties)) in
  _ ← save_blob d.1 (written_lease (with_properties p doc));
  mret p.

Definition updateSequenceNumber (env : Env) (ctx : BlobContext) (account container blob : string)
    (sequenceNumberAction : SequenceNumberActionType) (blobSequenceNumber : option Z)
    (leaseAccessId : option string) (mac : option ModifiedAccessConditions) : store BlobProperties :=
  doc ← getBlobWithLeaseUpdated ctx account container blob None false true;
  _ ← write_conditions ctx mac doc;
  d ← existing ctx doc;
  _ ← guard (has_type PageBlob d)
        (BlobErrors.getInvalidOperation ctx.(bc_contextId) "Get Page Ranges could only be against a page blob.");
  _ ← write_lease ctx leaseAccessId d;
  let current := default 0 d.2.(b_properties).(bp_blobSequenceNumber) in
  _ ← save_blob d.1 (with_properties (with_sequence (Some current) d.2.(b_properties)) d.2);
  n ← lift (next_sequence ctx sequenceNumberAction current blobSequenceNumber);
  let p := touch env.(newEtag) ctx.(bc_startTime) (with_sequence (Some n) d.2.(b_properties)) in
  _ ← save_blob d.1 (written_lease (with_properties p d.2));
  mret p.

(** ** Copies *)

(** The options of a copy. [tags] is [getTagsFromString] of the header of tags. *)
Record CopyOptions := mkCopyOptions {
  co_leaseAccessId : option string;
  co_mac : option ModifiedAccessConditions;
  co_source : ModifiedAccessConditions;
  co_sealBlob : option bool;
  co_copySourceTags : bool;
  co_tags : res (option (list BlobTag))
}.

(** The copied blob: its arrays are those of the source. *)
Definition copied_blob (env : Env) (ctx : BlobContext) (destination : BlobId) (copySource : string)
    (metadata : option (list (string * string))) (isSealed : option bool)
    (tags : option (list BlobTag)) (lease : LeaseFields) (source : BlobModel) : BlobModel :=
  let p := source.(b_properties) in
  let progress := match p.(bp_contentLength) with
                  | None => None
                  | Some n => if n =? 0 then None else Some (pretty n ++ "/" ++ pretty n)%string
                  end in
  mkBlob destination.(id_account) destination.(id_container) destination.(id_blob) EmptyString
    source.(b_isCommitted)
    (mkProperties (Some ctx.(bc_startTime)) ctx.(bc_startTime) env.(newEtag) p.(bp_contentLength)
       p.(bp_headers) p.(bp_blobType) p.(bp_accessTier) p.(bp_accessTierInferred) None
       p.(bp_blobSequenceNumber) isSealed p.(bp_tagCount)
       (Some (mkCopy env.(uuid) copySource progress ctx.(bc_startTime))))
    lease
    (match metadata with None | Some [] => Some (default [] source.(b_metadata)) | Some m => Some m end)
    tags source.(b_committedBlocksInOrder) source.(b_pageRangesInOrder) source.(b_persistency).

(** The end of both copies: the tier of the copy, and its insertion. *)
Definition insert_copy (ctx : BlobContext) (tier : option string) (destBlob : option (Z * BlobModel))
    (copy : BlobModel) : store BlobProperties :=
  let invalid t := BlobErrors.getInvalidHeaderValue ctx.(bc_contextId)
                     [("HeaderName", "x-ms-access-tier"); ("HeaderValue", t)]%string in
  let p := copy.(b_properties) in
  copy ← match tier with
         | None => mret copy
         | Some t =>
             match p.(bp_blobType) with
             | Some BlockBlob =>
                 match parseTier t with
                 | Some t' =>
                     mret (with_properties
                       (with_tier (Some t') p.(bp_accessTierInferred) p.(bp_accessTierChangeTime) p) copy)
                 | None => throw (invalid t)
                 end
             | Some PageBlob => throw (invalid t)
             | _ => mret copy
             end
         end;
  _ ← match destBlob with
      | Some (j, _) => update_db (fun s => set_blobs (lk_remove j s.(blobs)) s)
      | None => mret tt
      end;
  _ ← update_db (fun s => set_blobs (lk_insert copy s.(blobs)) s);
  mret copy.(b_properties).

Definition newBlobLease : LeaseFields :=
  mkFields None None None None None (Some LeaseStateType.Available) (Some LeaseStatusType.Unlocked).

Definition startCopyFromURL (env : Env) (ctx : BlobContext) (source destination : BlobId)
    (copySource : string) (metadata : option (list (string * string))) (tier : option string)
    (options : CopyOptions) : store BlobProperties :=
  sourceDoc ← getBlobWithLeaseUpdated ctx source.(id_account) source.(id_container) source.(id_blob)
                source.(id_snapshot) true true;
  _ ← read_conditions ctx (Some options.(co_source)) sourceDoc (Some true);
  destBlob ← getBlobWithLeaseUpdated ctx destination.(id_account) destination.(id_container)
               destination.(id_blob) None false false;
  _ ← write_conditions ctx options.(co_mac) destBlob;
  _ ← guard (negb (if_none_match_any options.(co_mac) && defined destBlob))
        (BlobErrors.getBlobAlreadyExists ctx.(bc_contextId));
  _ ← match destBlob with Some d => write_lease ctx options.(co_leaseAccessId) d | None => mret tt end;
  src ← existing ctx sourceDoc;
  let p := src.2.(b_properties) in
  _ ← guard src.2.(b_isCommitted) (BlobErrors.getBlobNotFound ctx.(bc_contextId));
  _ ← guard (negb ((p.(bp_accessTier) === Some "Archive"%string)
                   && (undefined tier || (source.(id_account) !== destination.(id_account)))))
        (BlobErrors.getBlobArchived ctx.(bc_contextId));
  _ ← checkContainerExist ctx destination.(id_account) destination.(id_container);
  tags ← lift options.(co_tags);
  let isSealed := if has_type AppendBlob src then options.(co_sealBlob) else p.(bp_isSealed) in
  let lease := match destBlob with Some d => d.2.(b_lease) | None => newBlobLease end in
  insert_copy ctx tier destBlob
    (copied_blob env ctx destination copySource metadata isSealed tags lease src.2).

(** The conditions on the source but for its tags. *)
Definition without_tags (c : ModifiedAccessConditions) : ModifiedAccessConditions :=
  mkModifiedAccessConditions c.(mac_ifModifiedSince) c.(mac_ifUnmodifiedSince) c.(mac_ifMatch)
    c.(mac_ifNoneMatch) None.

Definition copyFromURL (env : Env) (ctx : BlobContext) (source destination : BlobId)
    (copySource : string) (metadata : option (list (string * string))) (tier : option string)
    (options : CopyOptions) : store BlobProperties :=
  sourceDoc ← getBlobWithLeaseUpdated ctx source.(id_account) source.(id_container) source.(id_blob)
                source.(id_snapshot) true true;
  _ ← read_conditions ctx (Some (without_tags options.(co_source))) sourceDoc None;
  destBlob ← getBlobWithLeaseUpdated ctx destination.(id_account) destination.(id_container)
               destination.(id_blob) None false false;
  _ ← write_conditions ctx options.(co_mac) destBlob;
  _ ← guard (negb (if_none_match_any options.(co_mac) && defined destBlob))
        (BlobErrors.getBlobAlreadyExists ctx.(bc_contextId));
  destBlob ← match destBlob with
             | None => mret None
             | Some d =>
                 let doc := written_lease d.2 in
                 _ ← save_blob d.1 doc;
                 _ ← write_lease ctx options.(co_leaseAccessId) d;
                 mret (Some (d.1, doc))
             end;
  src ← existing ctx sourceDoc;
  let p := src.2.(b_properties) in
  _ ← guard src.2.(b_isCommitted) (BlobErrors.getBlobNotFound ctx.(bc_contextId));
  _ ← guard (p.(bp_accessTier) !== Some "Archive"%string) (BlobErrors.getBlobArchived ctx.(bc_contextId));
  _ ← checkContainerExist ctx destination.(id_account) destination.(id_container);
  tags ← (if options.(co_copySourceTags) then mret src.2.(b_blobTags) else lift options.(co_tags));
  let lease := match destBlob with Some d => d.2.(b_lease) | None => newBlobLease end in
  insert_copy ctx tier destBlob
    (copied_blob env ctx destination copySource metadata p.(bp_isSealed) tags lease src.2).

(** ** Lists *)

Definition blob_name_le (x y : Z * BlobModel) : bool := String.leb x.2.(b_name) y.2.(b_name).

(** [simplesort("name")]. *)
Definition blob_simplesort (x y : Z * BlobModel) : bool := lk_text_le x.2.(b_name) y.2.(b_name).

(** The blobs of all accounts, for the garbage collection. *)
Definition listAllBlobs (maxResults : Z) (marker : string) (includeSnapshots includeUncommittedBlobs : bool) :
    store (list BlobModel * option string) :=
  s ← get_state;
  let query (_ : Z) b :=
    after_marker marker b.(b_name) && (includeSnapshots || (b.(b_snapshot) === EmptyString))
    && (includeUncommittedBlobs || b.(b_isCommitted)) in
  let docs := (take (Z.to_nat (maxResults + 1)) (lk_sort blob_simplesort (lk_find query s.(blobs)))).*2 in
  if Z.of_nat (List.length docs) <=? maxResults then mret (docs, None)
  else
    match (if Nat.leb 2 (List.length docs) then docs !! (List.length docs - 2)%nat else None) with
    | None => throw TypeError
    | Some d => mret (take (List.length docs - 1) docs, Some d.(b_name))
    end.

End Store.
