(* ===== verification/BlobChanges.v ===== *)
(** * BlobChanges: what a request may change in the blob metadata store

    The specification of the store: [View], its contents as maps, and [db_change],
    the changes a request with a [Licence] may make. The leases, the invariant of
    the database and what each change keeps. BlobRefine shows that every method
    of BlobStore makes only such changes. *)

From S2P Require Import Prelude Errors Extents Loki Lease LeaseSpec PageRanges PageRangesSpec BlobModels.
Open Scope Z_scope.
Open Scope azurite_scope.

(** ** The contents of the database *)

(** [vm] is the largest id a blob ever had. *)
Record View := mkView {
  vc : gmap Z ContainerModel;
  vb : gmap Z BlobModel;
  vk : gmap Z BlockModel;
  va : gmap Ref (list PersistencyBlockModel);
  vr : gmap Ref (list PersistencyPageRange);
  vm : Z
}.

Definition put_containers (m : gmap Z ContainerModel) (w : View) : View := mkView m w.(vb) w.(vk) w.(va) w.(vr) w.(vm).
Definition put_blobs (m : gmap Z BlobModel) (w : View) : View := mkView w.(vc) m w.(vk) w.(va) w.(vr) w.(vm).
Definition put_blocks (m : gmap Z BlockModel) (w : View) : View := mkView w.(vc) w.(vb) m w.(va) w.(vr) w.(vm).
Definition put_block_array (r : Ref) (l : list PersistencyBlockModel) (w : View) : View :=
  mkView w.(vc) w.(vb) w.(vk) (<[r := l]> w.(va)) w.(vr) w.(vm).
Definition put_range_array (r : Ref) (l : list PersistencyPageRange) (w : View) : View :=
  mkView w.(vc) w.(vb) w.(vk) w.(va) (<[r := l]> w.(vr)) w.(vm).
Definition put_blob (i : Z) (b : BlobModel) (w : View) : View := put_blobs (<[i := b]> w.(vb)) w.
(** A new document gets the next id; [m] are the others. *)
Definition insert_blob (b : BlobModel) (m : gmap Z BlobModel) (w : View) : View :=
  mkView w.(vc) (<[w.(vm) + 1 := b]> m) w.(vk) w.(va) w.(vr) (w.(vm) + 1).

(** The contents of the arrays of a blob. *)
Definition view_blocks (w : View) (b : BlobModel) : list PersistencyBlockModel :=
  default [] (r ← b.(b_committedBlocksInOrder); w.(va) !! r).
Definition view_ranges (w : View) (b : BlobModel) : list PersistencyPageRange :=
  default [] (r ← b.(b_pageRangesInOrder); w.(vr) !! r).

Definition same_name (b b' : BlobModel) : Prop :=
  b.(b_accountName) = b'.(b_accountName) /\ b.(b_containerName) = b'.(b_containerName) /\
  b.(b_name) = b'.(b_name).
Definition same_key (b b' : BlobModel) : Prop := same_name b b' /\ b.(b_snapshot) = b'.(b_snapshot).

(** ** Leases *)

(** The stored lease [f] is the view [v]. *)
Definition leased (f : LeaseFields) (v : LeaseView) : Prop := valid v /\ f = fields_of (encode v).

(** A lease that is held stays as it is; another one may be reset. *)
Definition kept (now : Z) (v v' : LeaseView) : Prop :=
  settle now v' = settle now v \/ (holder (settle now v) = None /\ v' = VAvailable).

Definition lease_kept (now : Z) (f f' : LeaseFields) : Prop :=
  forall v, leased f v -> exists v', leased f' v' /\ kept now v v'.

(** The blob is held under the id at this time. *)
Definition held (now : Z) (b : BlobModel) (id : string) : Prop :=
  exists v, leased b.(b_lease) v /\ holder (settle now v) = Some id.

(** No lease was ever taken: so it is for snapshots. *)
Definition unleased (f : LeaseFields) : Prop := leased f VNone \/ leased f VAvailable.

(** ** The changes *)

(** What a request may do: the lease ids it presents, and whether it breaks
    leases, copies blobs or deletes a container. *)
Record Licence := mkLicence {
  l_now : Z;
  l_names : string -> bool;
  l_breaks : bool;
  l_copies : bool;
  l_drops : bool
}.

Definition permitted (L : Licence) (b : BlobModel) : Prop :=
  forall id, held L.(l_now) b id -> L.(l_names) id = true.

Definition has_container (account container : string) (w : View) : Prop :=
  exists k c, w.(vc) !! k = Some c /\ is_container account container c = true.

Definition has_base (w : View) (b : BlobModel) : Prop :=
  exists j b', w.(vb) !! j = Some b' /\ same_name b b' /\ b'.(b_snapshot) = EmptyString.

(** The array is not that of any blob but [i]. *)
Definition blocks_private (w : View) (i : Z) (r : Ref) : Prop :=
  forall j c, w.(vb) !! j = Some c -> c.(b_committedBlocksInOrder) = Some r -> j = i.
Definition ranges_private (w : View) (i : Z) (r : Ref) : Prop :=
  forall j c, w.(vb) !! j = Some c -> c.(b_pageRangesInOrder) = Some r -> j = i.

(** A page blob has an array of page ranges. *)
Definition paged (b : BlobModel) : Prop :=
  b.(b_properties).(bp_blobType) = Some PageBlob -> is_Some b.(b_pageRangesInOrder).

(** The arrays of the document exist; without a copy they are its own. *)
Definition refs_ok (w : View) (b : BlobModel) : Prop :=
  (forall r, b.(b_committedBlocksInOrder) = Some r -> is_Some (w.(va) !! r)) /\
  (forall r, b.(b_pageRangesInOrder) = Some r -> is_Some (w.(vr) !! r)) /\
  paged b.
Definition refs_private (w : View) (i : Z) (b : BlobModel) : Prop :=
  (forall r, b.(b_committedBlocksInOrder) = Some r -> blocks_private w i r) /\
  (forall r, b.(b_pageRangesInOrder) = Some r -> ranges_private w i r).

(** The arrays of a new document are new. *)
Definition refs_unused (w : View) (b : BlobModel) : Prop :=
  forall j c r, w.(vb) !! j = Some c ->
    (b.(b_committedBlocksInOrder) = Some r -> c.(b_committedBlocksInOrder) <> Some r) /\
    (b.(b_pageRangesInOrder) = Some r -> c.(b_pageRangesInOrder) <> Some r).

(** All of a snapshot but its tags and its lease, and the count of the tags that
    a request for its properties leaves there. *)
Definition frozen (b : BlobModel) : BlobModel :=
  with_lease (mkFields None None None None None None None)
    (with_tags None (with_properties (with_tagCount None b.(b_properties)) b)).

(** The array [r] is one of a blob that may be written, or of none. *)
Definition blocks_writable (L : Licence) (w : View) (r : Ref) : Prop :=
  (forall j c, w.(vb) !! j = Some c -> c.(b_committedBlocksInOrder) <> Some r) \/
  (exists i b, w.(vb) !! i = Some b /\ permitted L b /\ b.(b_snapshot) = EmptyString /\
    b.(b_committedBlocksInOrder) = Some r).
Definition ranges_writable (L : Licence) (w : View) (r : Ref) : Prop :=
  (forall j c, w.(vb) !! j = Some c -> c.(b_pageRangesInOrder) <> Some r) \/
  (exists i b, w.(vb) !! i = Some b /\ permitted L b /\ b.(b_snapshot) = EmptyString /\
    b.(b_pageRangesInOrder) = Some r).

Inductive db_change (L : Licence) (w : View) : View -> Prop :=
| c_lease i b f :
    w.(vb) !! i = Some b -> lease_kept L.(l_now) b.(b_lease) f ->
    db_change L w (put_blob i (with_lease f b) w)
| c_lease_op i b v :
    w.(vb) !! i = Some b -> b.(b_snapshot) = EmptyString -> valid v ->
    (L.(l_breaks) = true \/ permitted L b) ->
    db_change L w (put_blob i (with_lease (fields_of (encode v)) b) w)
| c_count i b n :
    w.(vb) !! i = Some b ->
    db_change L w (put_blob i (with_properties (with_tagCount n b.(b_properties)) b) w)
| c_write i b b' :
    w.(vb) !! i = Some b -> permitted L b -> same_key b b' ->
    (b.(b_snapshot) = EmptyString \/ frozen b' = frozen b) ->
    lease_kept L.(l_now) b.(b_lease) b'.(b_lease) -> refs_ok w b' -> 
    (refs_private w i b -> refs_private w i b') ->
    db_change L w (put_blob i b' w)
| c_insert b :
    has_container b.(b_accountName) b.(b_containerName) w ->
    (b.(b_snapshot) = EmptyString -> ~ has_base w b) ->
    (b.(b_snapshot) <> EmptyString -> has_base w b /\ unleased b.(b_lease)) ->
    (exists v, leased b.(b_lease) v) -> refs_ok w b ->
    (L.(l_copies) = false -> refs_unused w b) ->
    db_change L w (insert_blob b w.(vb) w)
| c_replace i b b' :
    w.(vb) !! i = Some b -> permitted L b -> same_key b b' ->
    b.(b_snapshot) = EmptyString -> lease_kept L.(l_now) b.(b_lease) b'.(b_lease) ->
    refs_ok w b' -> (L.(l_copies) = false -> refs_unused w b') ->
    db_change L w (insert_blob b' (delete i w.(vb)) w)
| c_remove (m : gmap Z BlobModel) :
    m ⊆ w.(vb) ->
    (forall i b, w.(vb) !! i = Some b -> m !! i = None -> b.(b_snapshot) = EmptyString ->
       permitted L b /\ forall j b', m !! j = Some b' -> ~ same_name b b') ->
    db_change L w (put_blobs m w)
| c_block_array r l : L.(l_copies) = false -> blocks_writable L w r -> db_change L w (put_block_array r l w)
| c_range_array r l :
    L.(l_copies) = false -> ranges_writable L w r -> wf l -> db_change L w (put_range_array r l w)
| c_staged m : db_change L w (put_blocks m w)
| c_containers m :
    (forall a c, has_container a c w -> has_container a c (put_containers m w)) ->
    db_change L w (put_containers m w)
| c_drop a c mc mb mk :
    L.(l_drops) = true -> mb ⊆ w.(vb) ->
    (forall i b, w.(vb) !! i = Some b -> (mb !! i = None <-> in_container a c b = true)) ->
    (forall a' c', has_container a' c' w -> (a', c') = (a, c) \/
       has_container a' c' (put_containers mc w)) ->
    db_change L w (mkView mc mb mk w.(va) w.(vr) w.(vm)).

(** ** The invariant *)

Record blob_ok (w : View) (b : BlobModel) : Prop := {
  bo_container : has_container b.(b_accountName) b.(b_containerName) w;
  bo_base : has_base w b;
  bo_lease : exists v, leased b.(b_lease) v;
  bo_snapshot : b.(b_snapshot) <> EmptyString -> unleased b.(b_lease);
  bo_refs : refs_ok w b
}.

(** Every blob is in a container that exists, has one base and a valid lease, and
    a snapshot none; a page blob has an array of page ranges, and every such array is
    sorted and disjoint. *)
Record view_ok (w : View) : Prop := {
  ok_blob i b : w.(vb) !! i = Some b -> blob_ok w b;
  ok_base i j b b' : w.(vb) !! i = Some b -> w.(vb) !! j = Some b' -> same_name b b' ->
    b.(b_snapshot) = EmptyString -> b'.(b_snapshot) = EmptyString -> i = j;
  ok_ranges r l : w.(vr) !! r = Some l -> wf l;
  ok_max i b : w.(vb) !! i = Some b -> i <= w.(vm)
}.

(** No two documents share an array. *)
Definition unshared (w : View) : Prop :=
  forall i b, w.(vb) !! i = Some b -> refs_private w i b.

(** ** Leases that are kept *)

Lemma settle_none now v : settle now v = VNone <-> v = VNone.
Proof. destruct v; cbn; by_guards. Qed.
Lemma settle_available now v : settle now v = VAvailable <-> v = VAvailable.
Proof. destruct v; cbn; by_guards. Qed.

Lemma leased_inj f v v' : leased f v -> leased f v' -> v = v'.
Proof. intros [_ ->] [_ He]. destruct v, v'; cbn in He; by simplify_eq/=. Qed.

Lemma kept_unleased now f f' : lease_kept now f f' -> unleased f -> unleased f'.
Proof.
  intros Hk [Hf|Hf]; destruct (Hk _ Hf) as (v'&Hv'&[Hs|[_ ->]]); [|by right| |by right].
  - left. cbn in Hs. by apply settle_none in Hs as ->.
  - right. cbn in Hs. by apply settle_available in Hs as ->.
Qed.

Lemma kept_leased now f f' : lease_kept now f f' -> (exists v, leased f v) -> exists v, leased f' v.
Proof. intros Hk [v Hv]. destruct (Hk v Hv) as (v'&?&_). by exists v'. Qed.

Lemma kept_refl now f : lease_kept now f f.
Proof. intros v Hv. exists v. split; [done|by left]. Qed.

Lemma kept_trans now f g h : lease_kept now f g -> lease_kept now g h -> lease_kept now f h.
Proof.
  intros Hfg Hgh v Hv. destruct (Hfg v Hv) as (v1&H1&K1). destruct (Hgh v1 H1) as (v2&H2&K2).
  exists v2. split; [done|]. destruct K2 as [K2|[K2 ->]], K1 as [K1|[K1 ->]].
  - left. congruence.
  - right. cbn in K2. by apply settle_available in K2 as ->.
  - right. split; [congruence|done].
  - by right.
Qed.

(** A lease that is held is the same afterwards. *)
Lemma kept_held now f f' v :
  lease_kept now f f' -> leased f v -> holder (settle now v) <> None ->
  exists v', leased f' v' /\ settle now v' = settle now v.
Proof. intros Hk Hv Hh. destruct (Hk v Hv) as (v'&?&[?|[? _]]); [by exists v'|done]. Qed.

(** ** What a change keeps *)

#[export] Hint Resolve kept_refl kept_unleased kept_leased : azurite.

Lemma same_key_name b b' : same_key b b' -> same_name b b'.
Proof. by intros [? _]. Qed.
Lemma same_name_sym b b' : same_name b b' -> same_name b' b.
Proof. unfold same_name. intuition congruence. Qed.
Lemma same_name_trans b b' c : same_name b b' -> same_name b' c -> same_name b c.
Proof. unfold same_name. intuition congruence. Qed.

Section Put.
Context (w : View) (i : Z) (b b' : BlobModel).
Hypothesis Hi : w.(vb) !! i = Some b.
Hypothesis Hk : same_key b b'.

(** Another document of the same key. *)
Lemma put_base c : has_base w c -> has_base (put_blob i b' w) c.
Proof.
  intros (j&d&Hj&Hn&Hs). unfold has_base. cbn. destruct (decide (j = i)) as [->|Hne].
  - exists i, b'. rewrite lookup_insert_eq. simplify_eq. destruct Hk as [Hk' Hs'].
    split_and!; [done|eapply same_name_trans; eassumption|congruence].
  - exists j, d. by rewrite lookup_insert_ne.
Qed.

Lemma put_ok :
  view_ok w -> (exists v, leased b'.(b_lease) v) -> (b.(b_snapshot) <> EmptyString -> unleased b.(b_lease) -> unleased b'.(b_lease)) ->
  refs_ok w b' -> view_ok (put_blob i b' w).
Proof.
  intros [Hb Hu Hr Hm] Hl Hun Hrefs. pose proof (Hb i b Hi) as Hbi. destruct (Hk) as [(Ha&Hc&Hn) Hsn].
  split; cbn.
  - intros j c [[<- <-]|[Hne Hj]]%lookup_insert_Some.
    + destruct Hbi as [B1 B2 B3 B4 B5]. split; [by rewrite <- Ha, <- Hc| |done|rewrite <- Hsn; auto|done].
      apply put_base. destruct B2 as (j&d&Hj&Hnd&Hsd). exists j, d. split_and!; [done| |done].
      eapply same_name_trans; [|exact Hnd]. by apply same_name_sym, same_key_name.
    + destruct (Hb j c Hj) as [B1 B2 B3 B4 B5]. split; try done. by apply put_base.
  - assert (Hput : forall j c, <[i:=b']> w.(vb) !! j = Some c ->
      exists d, w.(vb) !! j = Some d /\ same_key d c).
    { intros j c [[<- <-]|[Hne Hj]]%lookup_insert_Some; [by exists b|exists c].
      split; [done|]. by repeat split. }
    intros j k c d Hj Hd Hn' Hs Hs'.
    apply Hput in Hj as (c0&Hj&[Hc0 Hcs]), Hd as (d0&Hd&[Hd0 Hds]).
    apply (Hu j k c0 d0 Hj Hd); [|congruence..].
    eapply same_name_trans; [exact Hc0|]. eapply same_name_trans; [exact Hn'|]. by apply same_name_sym.
  - exact Hr.
  - intros j c [[<- <-]|[Hne Hj]]%lookup_insert_Some; [by eapply Hm|by eapply Hm].
Qed.

Lemma put_unshared :
  unshared w -> (refs_private w i b -> refs_private w i b') -> unshared (put_blob i b' w).
Proof.
  intros Hs Hp. assert (Hb' : refs_private w i b') by by apply Hp, Hs.
  intros j c Hj. split; intros r Hr k d Hkd Hd; cbn in *;
    apply lookup_insert_Some in Hj as [[<- <-]|[Hne Hj]], Hkd as [[<- <-]|[Hne' Hkd]].
  all: try done; destruct Hb' as [P1 P2]; try destruct (Hs j c Hj) as [Q1 Q2].
  all: first [exact (P1 r Hr k d Hkd Hd) | exact (P2 r Hr k d Hkd Hd)
    | symmetry; exact (P1 r Hd j c Hj Hr) | symmetry; exact (P2 r Hd j c Hj Hr)
    | exact (Q1 r Hr k d Hkd Hd) | exact (Q2 r Hr k d Hkd Hd)].
Qed.
End Put.

Lemma put_containers_has (m : gmap Z ContainerModel) w b :
  has_base (put_containers m w) b <-> has_base w b.
Proof. done. Qed.

(** A document that goes in beside [m], a part of the documents. *)
Section Insert.
Context (w : View) (b : BlobModel) (m : gmap Z BlobModel).
Hypothesis Hw : view_ok w.
Hypothesis Hm : m ⊆ w.(vb).

Lemma insert_ok :
  (forall i c, m !! i = Some c -> has_base (insert_blob b m w) c) ->
  (forall i c, m !! i = Some c -> same_name b c -> b.(b_snapshot) = EmptyString ->
     c.(b_snapshot) <> EmptyString) ->
  blob_ok (insert_blob b m w) b -> view_ok (insert_blob b m w).
Proof.
  intros Hbase Hnew Hb. destruct Hw as [Wb Wu Wr Wm].
  assert (Hsub : forall i c, m !! i = Some c -> w.(vb) !! i = Some c)
    by (intros; by eapply lookup_weaken).
  assert (Hfresh : m !! (w.(vm) + 1) = None).
  { destruct (m !! _) eqn:Hi; [|done]. apply Hsub, Wm in Hi. lia. }
  split; cbn.
  - intros i c [[<- <-]|[Hne Hi]]%lookup_insert_Some; [done|].
    destruct (Wb i c (Hsub _ _ Hi)) as [B1 B2 B3 B4 B5]. split; try done. by eapply Hbase.
  - intros i j c d Hi Hj Hn Hs Hs'.
    apply lookup_insert_Some in Hi as [[<- <-]|[Hne Hi]], Hj as [[<- <-]|[Hne' Hj]]; [done| | |].
    + by destruct (Hnew j d Hj Hn Hs).
    + by destruct (Hnew i c Hi (same_name_sym _ _ Hn) Hs').
    + eapply Wu; [by apply Hsub|by apply Hsub|done..].
  - done.
  - intros i c [[<- <-]|[Hne Hi]]%lookup_insert_Some; [done|]. apply Hsub, Wm in Hi. lia.
Qed.

Lemma insert_unshared :
  unshared w -> refs_unused w b -> unshared (insert_blob b m w).
Proof.
  intros Hs Hu. assert (Hsub : forall i c, m !! i = Some c -> w.(vb) !! i = Some c)
    by (intros; by eapply lookup_weaken).
  intros i c Hi. split; intros r Hr j d Hj Hd; cbn in *;
    apply lookup_insert_Some in Hi as [[<- <-]|[Hne Hi]], Hj as [[<- <-]|[Hne' Hj]]; try done.
  all: try (apply Hsub in Hi); try (apply Hsub in Hj).
  all: first
    [ by destruct (Hu j d r Hj) as [H1 H2]; first [destruct (H1 Hr) | destruct (H2 Hr)]
    | by destruct (Hu i c r Hi) as [H1 H2]; first [destruct (H1 Hd) | destruct (H2 Hd)]
    | destruct (Hs i c Hi) as [H1 H2]; first [exact (H1 r Hr j d Hj Hd) | exact (H2 r Hr j d Hj Hd)] ].
Qed.
End Insert.

(** Fewer documents, as long as the bases of the snapshots stay. *)
Lemma sub_ok (w w' : View) :
  view_ok w -> w'.(vb) ⊆ w.(vb) -> w'.(va) = w.(va) -> w'.(vr) = w.(vr) -> w'.(vm) = w.(vm) ->
  (forall i b, w'.(vb) !! i = Some b ->
     has_container b.(b_accountName) b.(b_containerName) w' /\ has_base w' b) ->
  view_ok w'.
Proof.
  intros [Wb Wu Wr Wm] Hsub Ha Hr Hm Hkeep.
  assert (Hs : forall i c, w'.(vb) !! i = Some c -> w.(vb) !! i = Some c)
    by (intros; by eapply lookup_weaken).
  split.
  - intros i b Hi. destruct (Wb i b (Hs _ _ Hi)) as [B1 B2 B3 B4 (B5&B6&B7)].
    destruct (Hkeep i b Hi). split; try done. split_and!; rewrite ?Ha, ?Hr; done.
  - intros i j b b' Hi Hj. eapply Wu; by apply Hs.
  - rewrite Hr. done.
  - intros i b Hi. rewrite Hm. by eapply Wm, Hs.
Qed.

Lemma sub_unshared (w w' : View) :
  unshared w -> w'.(vb) ⊆ w.(vb) -> unshared w'.
Proof.
  intros Hs Hsub i b Hi. assert (Hi' := lookup_weaken _ _ _ _ Hi Hsub).
  destruct (Hs i b Hi') as [H1 H2].
  split; intros r Hr j c Hj; [apply (H1 r Hr)|apply (H2 r Hr)]; by eapply lookup_weaken.
Qed.

Lemma view_fresh w : view_ok w -> w.(vb) !! (w.(vm) + 1) = None.
Proof. intros [_ _ _ Wm]. destruct (_ !! _) eqn:Hi; [|done]. apply Wm in Hi. lia. Qed.

(** The base of [c] is still there if [m] has it, or [b] takes its place. *)
Lemma insert_base w b m i c :
  (forall j d, w.(vb) !! j = Some d -> same_name c d -> d.(b_snapshot) = EmptyString ->
     m !! j = Some d \/ (same_key d b)) ->
  view_ok w -> m ⊆ w.(vb) -> w.(vb) !! i = Some c -> has_base (insert_blob b m w) c.
Proof.
  intros Hj Hw Hm Hi. destruct (bo_base _ _ (ok_blob _ Hw i c Hi)) as (j&d&Hd&Hn&Hs).
  destruct (Hj j d Hd Hn Hs) as [Hmd|[Hk Hsb]].
  - exists j, d. split_and!; [|done..]. cbn. rewrite lookup_insert_ne; [done|].
    intros <-. pose proof (lookup_weaken _ _ _ _ Hmd Hm). by rewrite view_fresh in H.
  - exists (w.(vm) + 1), b. cbn. rewrite lookup_insert_eq. split_and!; [done| |congruence].
    by eapply same_name_trans.
Qed.

Lemma db_change_ok L w w' : view_ok w -> db_change L w w' -> view_ok w'.
Proof.
  intros Hw Hc. pose proof Hw as [Wb Wu Wr Wm].
  destruct Hc as [i b f Hi Hk|i b v Hi Hs Hv _|i b n Hi|i b b' Hi _ Hk _ Hl Hr _
    |b Hco Hb Hs Hl Hr _|i b b' Hi _ Hk Hs Hl Hr _|m Hm Hrm|r l _ _|r l _ _ Hl|m|m Hco|a c mc mb mk _ Hm Hd Hco].
  - destruct (Wb i b Hi). eapply put_ok; [done|by repeat split|done|eauto with azurite..].
  - destruct (Wb i b Hi). eapply put_ok; [done|by repeat split|done|by exists v|done|done].
  - destruct (Wb i b Hi). eapply put_ok; [done|by repeat split|done..].
  - destruct (Wb i b Hi). eapply put_ok; eauto with azurite.
  - apply insert_ok; [done|done| | |].
    + intros i c Hi. eapply insert_base; [by left|done..].
    + intros i c Hi Hn Hbs Hcs. destruct (Hb Hbs). by exists i, c.
    + split; [done| |done|naive_solver|done].
      destruct (decide (b.(b_snapshot) = EmptyString)) as [He|He].
      * exists (w.(vm) + 1), b. cbn. by rewrite lookup_insert_eq.
      * destruct (Hs He) as [(j&d&Hj&Hn&Hds) _]. exists j, d. cbn. split_and!; [|done..].
        rewrite lookup_insert_ne; [done|]. intros <-. by rewrite view_fresh in Hj.
  - destruct (Wb i b Hi) as [B1 B2 B3 B4 B5]. destruct Hk as [Hn Hsn].
    apply insert_ok; [done|apply delete_subseteq| | |].
    + intros k c [Hne Hk]%lookup_delete_Some. eapply insert_base; [|done|apply delete_subseteq|done].
      intros j d Hj Hcd Hds. destruct (decide (j = i)) as [->|Hji]; [right|left].
      * simplify_eq. by split.
      * by rewrite lookup_delete_ne.
    + intros k c [Hne Hk]%lookup_delete_Some Hbc Hbs Hcs. apply Hne.
      eapply (Wu i k b c Hi Hk); [by eapply same_name_trans|done..].
    + destruct Hn as (Ha&Hcn&Hbn). split.
      * rewrite <- Ha, <- Hcn. done.
      * exists (w.(vm) + 1), b'. cbn. rewrite lookup_insert_eq. split_and!; [done|done|congruence].
      * eauto with azurite.
      * congruence.
      * done.
  - apply (sub_ok w); [done..|]. intros i b Hi. cbn in Hi. pose proof (lookup_weaken _ _ _ _ Hi Hm) as Hi'.
    destruct (Wb i b Hi') as [B1 (j&d&Hj&Hn&Hds) _ _ _]. split; [done|].
    destruct (m !! j) as [d'|] eqn:Hmj.
    + pose proof (lookup_weaken _ _ _ _ Hmj Hm). exists j, d. cbn. split_and!; [congruence|done..].
    + destruct (Hrm j d Hj Hmj Hds) as [_ Hno]. by destruct (Hno i b Hi (same_name_sym _ _ Hn)).
  - split; [|done..]. intros i b Hi. destruct (Wb i b Hi) as [B1 B2 B3 B4 (B5&B6&B7)].
    split; [done..|]. split; [|done]. intros r' Hr'. cbn. apply lookup_insert_is_Some'. right. by apply B5.
  - split; [|done| |done].
    + intros i b Hi. destruct (Wb i b Hi) as [B1 B2 B3 B4 (B5&B6&B7)].
      split; [done..|]. split_and!; [done| |done]. intros r' Hr'. cbn. apply lookup_insert_is_Some'. right. by apply B6.
    + intros r' l' Hr'. cbn in Hr'. apply lookup_insert_Some in Hr' as [[<- <-]|[Hne Hr']]; [done|by eapply Wr].
  - split; [|done..]. intros i b Hi. by destruct (Wb i b Hi).
  - split; [|done..]. intros i b Hi. destruct (Wb i b Hi). split; [by apply Hco|done..].
  - apply (sub_ok w); [done..|]. intros i b Hi. cbn in Hi. pose proof (lookup_weaken _ _ _ _ Hi Hm) as Hi'.
    destruct (Wb i b Hi') as [B1 (j&d&Hj&Hn&Hds) _ _ _].
    assert (Hnot : in_container a c b = false).
    { destruct (in_container a c b) eqn:He; [|done]. by rewrite (proj2 (Hd i b Hi') He) in Hi. }
    split.
    + destruct (Hco _ _ B1) as [[= Ha Hc]|?]; [|done]. exfalso. revert Hnot. unfold in_container.
      rewrite Ha, Hc. by rewrite !bool_decide_eq_true_2.
    + exists j, d. cbn. split_and!; [|done..]. destruct (mb !! j) as [d'|] eqn:Hmj.
      * pose proof (lookup_weaken _ _ _ _ Hmj Hm). congruence.
      * exfalso. apply (Hd j d Hj) in Hmj. revert Hnot. unfold in_container in *.
        destruct Hn as (->&->&_). by rewrite Hmj.
Qed.

Lemma db_change_unshared L w w' :
  L.(l_copies) = false -> unshared w -> db_change L w w' -> unshared w'.
Proof.
  intros HL Hw Hc.
  destruct Hc as [i b f Hi Hk|i b v Hi Hs Hv _|i b n Hi|i b b' Hi _ Hk _ Hl Hr Hp
    |b Hco Hb Hs Hl Hr Hu|i b b' Hi _ Hk Hs Hl Hr Hu|m Hm Hrm|r l _ _|r l _ _ Hl|m|m Hco|a c mc mb mk _ Hm Hd Hco].
  1-4: by eapply put_unshared.
  - apply insert_unshared; [done..|by apply Hu].
  - apply insert_unshared; [apply delete_subseteq|done|by apply Hu].
  - by apply (sub_unshared w).
  - done.
  - done.
  - done.
  - done.
  - by apply (sub_unshared w).
Qed.

(** ** What a change leaves alone *)

(** All of a blob but its lease and the count of its tags. *)
Definition core (b : BlobModel) : BlobModel :=
  with_lease (mkFields None None None None None None None)
    (with_properties (with_tagCount None b.(b_properties)) b).

Definition same_arrays (w : View) (b : BlobModel) (w' : View) (b' : BlobModel) : Prop :=
  view_blocks w' b' = view_blocks w b /\ view_ranges w' b' = view_ranges w b.

(** The document may not be written: a snapshot, or a blob that is held. *)
Definition sealed (L : Licence) (b : BlobModel) : Prop :=
  b.(b_snapshot) = EmptyString -> ~ permitted L b.

Section Frame.
Context (L : Licence) (w : View) (i : Z) (b : BlobModel).
Hypothesis Hw : view_ok w.
Hypothesis Hu : L.(l_copies) = false -> unshared w.
Hypothesis Hi : w.(vb) !! i = Some b.
Hypothesis Hs : sealed L b.

Lemma sealed_blocks r l :
  L.(l_copies) = false -> blocks_writable L w r -> view_blocks (put_block_array r l w) b = view_blocks w b.
Proof.
  intros HL Hr. unfold view_blocks. destruct b.(b_committedBlocksInOrder) as [r'|] eqn:He; [|done]. cbn.
  rewrite lookup_insert_ne; [done|]. intros ->. destruct Hr as [Hno|(j&c&Hj&Hp&Hc&Hr)].
  - by destruct (Hno i b Hi).
  - destruct (Hu HL i b Hi) as [H1 _]. specialize (H1 _ He j c Hj Hr) as ->. simplify_eq. by apply Hs.
Qed.

Lemma sealed_ranges r l :
  L.(l_copies) = false -> ranges_writable L w r -> view_ranges (put_range_array r l w) b = view_ranges w b.
Proof.
  intros HL Hr. unfold view_ranges. destruct b.(b_pageRangesInOrder) as [r'|] eqn:He; [|done]. cbn.
  rewrite lookup_insert_ne; [done|]. intros ->. destruct Hr as [Hno|(j&c&Hj&Hp&Hc&Hr)].
  - by destruct (Hno i b Hi).
  - destruct (Hu HL i b Hi) as [_ H1]. specialize (H1 _ He j c Hj Hr) as ->. simplify_eq. by apply Hs.
Qed.

(** The arrays a document refers to, and those of one with the same references. *)
Lemma same_refs w' b' :
  b'.(b_committedBlocksInOrder) = b.(b_committedBlocksInOrder) ->
  b'.(b_pageRangesInOrder) = b.(b_pageRangesInOrder) -> w'.(va) = w.(va) -> w'.(vr) = w.(vr) ->
  same_arrays w b w' b'.
Proof. intros H1 H2 H3 H4. unfold same_arrays, view_blocks, view_ranges. by rewrite H1, H2, H3, H4. Qed.

(** A change of a document that is not written. *)
Lemma put_frame j c d :
  w.(vb) !! j = Some c -> (j = i -> core d = core c) ->
  exists b', (put_blob j d w).(vb) !! i = Some b' /\ core b' = core b /\
    same_arrays w b (put_blob j d w) b' /\ (b' = b \/ (j = i /\ b' = d)).
Proof.
  intros Hj Hd. cbn. destruct (decide (j = i)) as [->|Hne].
  - simplify_eq. exists d. rewrite lookup_insert_eq. specialize (Hd eq_refl).
    split_and!; [done|done| |by right]. apply same_refs; [|by injection Hd..|done].
    by injection Hd.
  - exists b. rewrite lookup_insert_ne by done. split_and!; [done|done|by apply same_refs|by left].
Qed.
End Frame.

(** A held blob, for a request that does not name the lease. *)
Definition held_doc (L : Licence) (w : View) (i : Z) (b : BlobModel) (v : LeaseView) : Prop :=
  w.(vb) !! i = Some b /\ b.(b_snapshot) = EmptyString /\ leased b.(b_lease) v /\
  exists id, holder (settle L.(l_now) v) = Some id /\ L.(l_names) id = false.

Lemma held_not_permitted L w i b v : held_doc L w i b v -> ~ permitted L b.
Proof.
  intros (_&_&Hl&id&Hh&Hn) Hp. rewrite (Hp id) in Hn; [done|]. by exists v.
Qed.

Lemma held_frame L w w' i b v :
  L.(l_breaks) = false -> L.(l_drops) = false -> view_ok w -> (L.(l_copies) = false -> unshared w) ->
  held_doc L w i b v -> db_change L w w' ->
  exists b' v', held_doc L w' i b' v' /\ core b' = core b /\ same_arrays w b w' b' /\
    settle L.(l_now) v' = settle L.(l_now) v.
Proof.
  intros HB HD Hw Hu Hd Hc. pose proof (held_not_permitted _ _ _ _ _ Hd) as Hnp.
  destruct Hd as (Hi&Hs&Hl&id&Hh&Hn).
  assert (Hsame : forall w'', w''.(vb) !! i = Some b -> same_arrays w b w'' b ->
    exists b' v', held_doc L w'' i b' v' /\ core b' = core b /\ same_arrays w b w'' b' /\
      settle L.(l_now) v' = settle L.(l_now) v)
    by (intros w'' Hi' Ha; exists b, v; split_and!; [split_and!; eauto|done..]).
  assert (Hput : forall j c d, w.(vb) !! j = Some c -> core d = core c -> lease_kept L.(l_now) c.(b_lease) d.(b_lease) ->
    exists b' v', held_doc L (put_blob j d w) i b' v' /\ core b' = core b /\
      same_arrays w b (put_blob j d w) b' /\ settle L.(l_now) v' = settle L.(l_now) v).
  { intros j c d Hj Hcd Hk. destruct (put_frame w i b Hi j c d Hj ltac:(done)) as (b'&Hb'&Hcore&Ha&[->|[-> ->]]).
    - by apply Hsame.
    - assert (c = b) as -> by congruence. destruct (kept_held _ _ _ v Hk Hl) as (v'&Hv'&Hsv); [by rewrite Hh|].
      exists d, v'. split_and!; [|done..]. split_and!; [done| |done|exists id; rewrite Hsv; done].
      by change (b_snapshot (core d) = EmptyString); rewrite Hcore. }
  destruct Hc as [j c f Hj Hk|j c x Hj Hcs Hv [?|Hp]|j c n Hj|j c d Hj Hp Hk _ Hkl Hr _
    |c Hco Hb Hcs Hcl Hr _|j c d Hj Hp Hk Hcs Hkl Hr _|m Hm Hrm|r l HL Hr|r l HL Hr Hl'|m|m Hco|a c mc mb mk ? _ _ _];
    try congruence.
  - by apply (Hput j c).
  - destruct (decide (j = i)) as [->|Hne]; [by simplify_eq|].
    apply Hsame; [cbn; by rewrite lookup_insert_ne|done].
  - apply (Hput j c); [done|done|apply kept_refl].
  - destruct (decide (j = i)) as [->|Hne]; [by simplify_eq|].
    apply Hsame; [cbn; by rewrite lookup_insert_ne|done].
  - apply Hsame; [|done]. cbn. rewrite lookup_insert_ne; [done|]. intros <-. by rewrite view_fresh in Hi.
  - destruct (decide (j = i)) as [->|Hne]; [by simplify_eq|].
    apply Hsame; [|done]. cbn. rewrite lookup_insert_ne, lookup_delete_ne; [done|done|].
    intros <-. by rewrite view_fresh in Hi.
  - destruct (m !! i) as [b'|] eqn:Hmi.
    + pose proof (lookup_weaken _ _ _ _ Hmi Hm). apply Hsame; [cbn; congruence|done].
    + by destruct (Hrm i b Hi Hmi Hs).
  - apply Hsame; [done|]. split; [|done]. apply (sealed_blocks L w i b); [done|done|by intros _|done|done].
  - apply Hsame; [done|]. split; [done|]. apply (sealed_ranges L w i b); [done|done|by intros _|done|done].
  - by apply Hsame.
  - by apply Hsame.
Qed.

(** A snapshot stays as it is until it is deleted. *)
Definition snapshot_doc (w : View) (i : Z) (b : BlobModel) : Prop :=
  w.(vb) !! i = Some b /\ b.(b_snapshot) <> EmptyString.

Lemma core_frozen b b' : core b = core b' -> frozen b = frozen b'.
Proof. intros H. change (frozen b) with (with_tags None (core b)). by rewrite H. Qed.

Lemma snapshot_frame L w w' i b :
  view_ok w -> (L.(l_copies) = false -> unshared w) -> snapshot_doc w i b -> db_change L w w' ->
  w'.(vb) !! i = None \/
  exists b', snapshot_doc w' i b' /\ frozen b' = frozen b /\ same_arrays w b w' b'.
Proof.
  intros Hw Hu [Hi Hs] Hc.
  assert (Hsame : forall w'', w''.(vb) !! i = Some b -> same_arrays w b w'' b ->
    w''.(vb) !! i = None \/ exists b', snapshot_doc w'' i b' /\ frozen b' = frozen b /\ same_arrays w b w'' b')
    by (intros w'' Hi' Ha; right; exists b; by split_and!).
  assert (Hput : forall j c d, w.(vb) !! j = Some c -> c.(b_snapshot) = EmptyString \/ frozen d = frozen c ->
    (put_blob j d w).(vb) !! i = None \/ exists b', snapshot_doc (put_blob j d w) i b' /\
      frozen b' = frozen b /\ same_arrays w b (put_blob j d w) b').
  { intros j c d Hj Hf. destruct (decide (j = i)) as [->|Hne].
    - assert (c = b) as -> by congruence. destruct Hf as [|Hf]; [done|]. right. exists d.
      pose proof Hf as Hsn. apply (f_equal b_snapshot) in Hsn. cbn in Hsn.
      split_and!; [split; [cbn; by rewrite lookup_insert_eq|congruence]|done|].
      apply same_refs; [by injection Hf..|done|done].
    - apply Hsame; [cbn; by rewrite lookup_insert_ne|done]. }
  assert (Hsl : sealed L b) by (by intros ?).
  destruct Hc as [j c f Hj Hk|j c x Hj Hcs Hv _|j c n Hj|j c d Hj Hp Hk Hf Hkl Hr _
    |c Hco Hb Hcs Hcl Hr _|j c d Hj Hp Hk Hcs Hkl Hr _|m Hm Hrm|r l HL Hr|r l HL Hr Hl'|m|m Hco|a c mc mb mk ? Hm _ _].
  - apply (Hput j c); [done|by right].
  - apply (Hput j c); [done|by left].
  - apply (Hput j c); [done|by right].
  - by apply (Hput j c).
  - apply Hsame; [|done]. cbn. rewrite lookup_insert_ne; [done|]. intros <-. by rewrite view_fresh in Hi.
  - destruct (decide (j = i)) as [->|Hne]; [by simplify_eq|].
    apply Hsame; [|done]. cbn. rewrite lookup_insert_ne, lookup_delete_ne; [done|done|].
    intros <-. by rewrite view_fresh in Hi.
  - destruct (m !! i) as [b'|] eqn:Hmi; [|by left].
    pose proof (lookup_weaken _ _ _ _ Hmi Hm). apply Hsame; [cbn; congruence|done].
  - apply Hsame; [done|]. split; [|done]. by apply (sealed_blocks L w i b).
  - apply Hsame; [done|]. split; [done|]. by apply (sealed_ranges L w i b).
  - by apply Hsame.
  - by apply Hsame.
  - destruct (mb !! i) as [b'|] eqn:Hmi; [|by left].
    pose proof (lookup_weaken _ _ _ _ Hmi Hm). apply Hsame; [cbn; congruence|done].
Qed.

(** * What histories of requests keep

    A history of requests is known by their licences: each makes the changes of
    BlobChanges its licence allows. What no change breaks holds after any history;
    a blob that is held and a snapshot stay as they are. *)

From stdpp Require Import relations.
From S2P Require Import Prelude Errors Extents Loki Lease LeaseSpec PageRanges PageRangesSpec BlobModels.
Open Scope Z_scope.
Open Scope azurite_scope.

Implicit Types (w : View) (L : Licence) (Ls : list Licence).

Inductive history : list Licence -> View -> View -> Prop :=
| history_nil w : history [] w w
| history_cons L Ls w w1 w2 : rtc (db_change L) w w1 -> history Ls w1 w2 -> history (L :: Ls) w w2.

(** What every change of a request keeps, the request keeps. *)
Lemma request_induction (I : View -> Prop) L w w' :
  (forall w w', view_ok w -> I w -> db_change L w w' -> I w') ->
  rtc (db_change L) w w' -> view_ok w -> I w -> view_ok w' /\ I w'.
Proof.
  intros HI Hr. induction Hr as [|w w1 w2 Hw _ IH]; intros Ho Hi; [done|].
  apply IH; [by eapply db_change_ok|by eapply HI].
Qed.

(** What every request of a history keeps, the history keeps. *)
Lemma changes_induction (I : View -> Prop) Ls w w' :
  (forall L w w', L ∈ Ls -> view_ok w -> I w -> db_change L w w' -> I w') ->
  history Ls w w' -> view_ok w -> I w -> view_ok w' /\ I w'.
Proof.
  intros HI Hh. induction Hh as [|L Ls w w1 w2 Hr _ IH]; intros Hw Hi; [done|].
  destruct (request_induction I L w w1) as [Hw1 Hi1]; [|done..|].
  - intros x y. apply HI. by left.
  - apply IH; [|done..]. intros L' x y HL. apply HI. by right.
Qed.

Lemma history_ok Ls w w' : history Ls w w' -> view_ok w -> view_ok w'.
Proof. intros Hh Hw. by apply (changes_induction (fun _ => True) Ls w w'). Qed.

Definition no_copies L : Prop := L.(l_copies) = false.

Lemma history_unshared Ls w w' :
  history Ls w w' -> Forall no_copies Ls -> view_ok w -> unshared w -> unshared w'.
Proof.
  intros Hh Hc Hw Hu. apply (changes_induction unshared Ls w w'); [|done..].
  intros L x y HL _. rewrite Forall_forall in Hc. by apply db_change_unshared, Hc.
Qed.

(** ** Leases *)

Lemma settle_settle t t' v : t <= t' -> settle t' (settle t v) = settle t' v.
Proof. intros Ht. destruct v; cbn; by_guards. Qed.

(** The request neither names the lease nor may break it or drop the container. *)
Definition stranger (id : string) L : Prop :=
  L.(l_names) id = false /\ L.(l_breaks) = false /\ L.(l_drops) = false.

(** A held blob in a request of a stranger: the lease is as good as it was. *)
Lemma request_held L w w' i b v id :
  rtc (db_change L) w w' -> view_ok w -> unshared w -> no_copies L -> stranger id L ->
  w.(vb) !! i = Some b -> b.(b_snapshot) = EmptyString -> leased b.(b_lease) v ->
  holder (settle L.(l_now) v) = Some id ->
  exists b' v', w'.(vb) !! i = Some b' /\ b'.(b_snapshot) = EmptyString /\ leased b'.(b_lease) v' /\
    settle L.(l_now) v' = settle L.(l_now) v /\ core b' = core b /\ same_arrays w b w' b'.
Proof.
  intros Hr Hw Hu Hc (Hn&Hb&Hd) Hi Hsn Hl Hh.
  destruct (request_induction (fun x => unshared x /\ exists b' v', held_doc L x i b' v' /\
    core b' = core b /\ same_arrays w b x b' /\ settle L.(l_now) v' = settle L.(l_now) v) L w w')
    as (_&_&b'&v'&(?&?&?&_)&?&?&?); [|done|done|..].
  - intros x y Hx (Hux&b1&v1&H1&Hc1&[A1 A2]&Hv1) Hxy. split; [by eapply db_change_unshared|].
    destruct (held_frame L _ _ i b1 v1 Hb Hd Hx (fun _ => Hux) H1 Hxy) as (b2&v2&H2&Hc2&[B1 B2]&Hv2).
    exists b2, v2. split_and!; [done|congruence|split; congruence|exact (eq_trans Hv2 Hv1)].
  - split; [done|]. exists b, v. split_and!; [|done..]. split_and!; [done..|by exists id].
  - by exists b', v'.
Qed.

Lemma history_held Ls w w' i b v id :
  history Ls w w' -> view_ok w -> unshared w -> Forall no_copies Ls -> Forall (stranger id) Ls ->
  StronglySorted (fun L L' => L.(l_now) <= L'.(l_now)) Ls ->
  w.(vb) !! i = Some b -> b.(b_snapshot) = EmptyString -> leased b.(b_lease) v ->
  Forall (fun L => holder (settle L.(l_now) v) = Some id) Ls ->
  exists b', w'.(vb) !! i = Some b' /\ core b' = core b /\ same_arrays w b w' b'.
Proof.
  intros Hh. revert b v. induction Hh as [w|L Ls w w1 w2 Hr Hh IH]; intros b v Hw Hu Hc Hs Ht Hi Hsn Hl Hd.
  - by exists b.
  - apply Forall_cons in Hc as [Hc1 Hc2], Hs as [Hs1 Hs2], Hd as [Hd1 Hd2].
    inversion Ht as [|? ? Ht2 Hle]; subst.
    destruct (request_held L w w1 i b v id) as (b1&v1&Hi1&Hsn1&Hl1&Hv1&Hcore&[A1 A2]); [done..|].
    assert (Hh1 : history [L] w w1) by (eapply history_cons; [exact Hr|constructor]).
    destruct (IH b1 v1) as (b2&Hi2&Hcore2&[B1 B2]); [by eapply history_ok| |done..| |].
    + by eapply history_unshared; [exact Hh1|constructor| |].
    + rewrite Forall_forall in Hd2, Hle |- *. intros L' HL. specialize (Hle L' HL).
      rewrite <- (settle_settle _ _ v1 Hle), Hv1, (settle_settle _ _ v Hle). by apply Hd2.
    + exists b2. split_and!; [done|congruence|split; congruence].
Qed.

(** ** Snapshots *)

Lemma change_gone L w w' i :
  i <= w.(vm) -> w.(vb) !! i = None -> db_change L w w' -> i <= w'.(vm) /\ w'.(vb) !! i = None.
Proof.
  intros Hi Hn Hc.
  assert (Hput : forall j (b b' : BlobModel) (m : gmap Z BlobModel), m !! j = Some b -> m !! i = None -> <[j := b']> m !! i = None).
  { intros j b b' m Hj Hm. rewrite lookup_insert_ne; [done|]. by intros ->; simplify_eq. }
  assert (Hnew : forall (b' : BlobModel) (m : gmap Z BlobModel), m !! i = None -> <[w.(vm) + 1 := b']> m !! i = None)
    by (intros; rewrite lookup_insert_ne; [done|lia]).
  destruct Hc; cbn; split; try lia; try done; eauto using lookup_weaken_None.
  apply Hnew, lookup_delete_None. by right.
Qed.

(** Ids are not given out again. *)
Lemma history_gone Ls w w' i :
  history Ls w w' -> view_ok w -> i <= w.(vm) -> w.(vb) !! i = None -> i <= w'.(vm) /\ w'.(vb) !! i = None.
Proof.
  intros Hh Hw Hm Hn. apply (changes_induction (fun w => i <= w.(vm) /\ w.(vb) !! i = None) Ls w w'); [|done..].
  intros L x y _ _ [Hx Hx']. by apply change_gone.
Qed.

Lemma history_snapshot Ls w w' i b :
  history Ls w w' -> view_ok w -> unshared w -> Forall no_copies Ls ->
  w.(vb) !! i = Some b -> b.(b_snapshot) <> EmptyString ->
  (i <= w'.(vm) /\ w'.(vb) !! i = None) \/
  exists b', w'.(vb) !! i = Some b' /\ frozen b' = frozen b /\ same_arrays w b w' b'.
Proof.
  intros Hh Hw Hu Hc Hi Hb.
  set (I := fun x => unshared x /\ i <= x.(vm) /\ (x.(vb) !! i = None \/
    exists b', snapshot_doc x i b' /\ frozen b' = frozen b /\ same_arrays w b x b')).
  destruct (changes_induction I Ls w w') as (_&_&Hm&[Hn|(b'&[? _]&?&?)]); [|done|done| |by left|right; by exists b'].
  - intros L x y HL Hx (Hux&Hmx&Hdx) Hxy. rewrite Forall_forall in Hc. specialize (Hc L HL). split_and!.
    + by eapply db_change_unshared.
    + destruct Hxy; cbn; lia.
    + destruct Hdx as [Hn|(b1&Hd1&Hf1&[A1 A2])]; [left; by eapply change_gone|].
      destruct (snapshot_frame L _ _ i b1 Hx (fun _ => Hux) Hd1 Hxy) as [Hn|(b2&Hd2&Hf2&[B1 B2])]; [by left|right].
      exists b2. split_and!; [done|congruence|split; congruence].
  - split_and!; [done|exact (ok_max _ Hw i b Hi)|]. right. by exists b.
Qed.
