(* ===== verification/BlobRefine.v ===== *)
(** * BlobRefine: the blob metadata store makes only the changes it may

    Every method of BlobStore and BlobContainers, whatever it returns or throws,
    is a sequence of the changes of BlobChanges. [steps] is a postcondition of a
    method that also says so; its rules follow the code's statements. *)

From stdpp Require Import relations.
From S2P Require Import Prelude Errors Extents Loki TagQuery Conditions Lease LeaseSpec PageRanges PageRangesSpec.
From S2P Require Import BlobModels BlobContainers BlobStore BlobChanges.
Open Scope Z_scope.
Open Scope azurite_scope.

(** ** The leases of documents *)

(** The license covers the lease id the request presents. *)
Definition covers (L : Licence) (leaseAccessId : option string) : Prop :=
  forall a id, leaseAccessId = Some a -> toLowerCase a = toLowerCase id -> L.(l_names) id = true.

Section Leases.
Context (cid : option string) (now : Z).
Local Abbreviation ctx := (mkContext (Some now) cid).
Implicit Types (f g : LeaseFields).

(** The adapter reads a missing lease as an available one. *)
Definition adapted (v : LeaseView) : LeaseView := match v with VNone => VAvailable | w => w end.

Lemma adapter_view v : BlobLeaseAdapter (fields_of (encode v)) = (encode (adapted v), fields_of (encode (adapted v))).
Proof. by destruct v. Qed.

Lemma adapted_kept v : kept now v (adapted v).
Proof. destruct v; try (by left). by right. Qed.

Lemma settled_kept v : valid v -> kept now v (adapted (settle now v)).
Proof.
  intros Hv. assert (Hs : settle now (settle now v) = settle now v) by by apply settle_idemp.
  unfold kept. destruct (settle now v) eqn:He; [by right|by left..].
Qed.

(** What the write syncer makes of a view. *)
Definition written (v : LeaseView) : LeaseView :=
  match v with VNone | VBroken _ | VExpired _ _ => VAvailable | w => w end.

Lemma written_kept v : kept now v (written v).
Proof. destruct v; try (by left); by right. Qed.

Lemma write_sync_view g v : BlobWriteLeaseSyncer_sync g (encode (adapted v)) = fields_of (encode (written v)).
Proof. by destruct v. Qed.

Lemma leased_adapted f v : leased f v -> leased (BlobLeaseAdapter f).2 (adapted v).
Proof. intros [Hv ->]. rewrite adapter_view. split; [|done]. by destruct v. Qed.

Lemma kept_adapter f : lease_kept now f (BlobLeaseAdapter f).2.
Proof. intros v Hv. exists (adapted v). split; [by apply leased_adapted|apply adapted_kept]. Qed.

Lemma create_state f v st :
  leased f v -> createLeaseState (BlobLeaseAdapter f).1 ctx = Ok st ->
  st = state_of ctx (adapted (settle now v)).
Proof. intros [Hv ->] Hc. rewrite adapter_settles in Hc by done. injection Hc as <-. by destruct (settle now v). Qed.

Lemma kept_settle f g st :
  createLeaseState (BlobLeaseAdapter f).1 ctx = Ok st ->
  lease_kept now f (sync st (BlobLeaseSyncer_sync g)).
Proof.
  intros Hc v Hv. rewrite (create_state f v st Hv Hc). exists (adapted (settle now v)).
  split; [|exact (settled_kept v (proj1 Hv))]. split; [|done].
  pose proof (settle_valid now v (proj1 Hv)). by destruct (settle now v).
Qed.

Lemma kept_written f g : lease_kept now f (BlobWriteLeaseSyncer_sync g (BlobLeaseAdapter f).1).
Proof.
  intros v [Hv ->]. rewrite adapter_view. cbn. rewrite write_sync_view. exists (written v).
  split; [|apply written_kept]. split; [|done]. by destruct v.
Qed.

Lemma kept_write_settled f g st :
  createLeaseState (BlobLeaseAdapter f).1 ctx = Ok st ->
  lease_kept now f (sync st (BlobWriteLeaseSyncer_sync g)).
Proof.
  intros Hc v Hv. rewrite (create_state f v st Hv Hc). unfold sync. cbn [lease state_of].
  rewrite write_sync_view. exists (written (settle now v)). pose proof (settle_valid now v (proj1 Hv)) as Hsv.
  split; [split; [by destruct (settle now v)|done]|].
  assert (Hs : settle now (settle now v) = settle now v) by by apply settle_idemp.
  unfold kept. destruct (settle now v) eqn:He; solve [by left|by right].
Qed.

(** A write that is let through presents the id of a lease that is held. *)
Lemma gate_names L acc f v id :
  L.(l_now) = now -> covers L acc -> leased f v -> holder (settle now v) = Some id ->
  BlobWriteLeaseValidator acc (BlobLeaseAdapter f).1 ctx = Ok tt -> L.(l_names) id = true.
Proof.
  intros <- Hc [Hv ->] Hh. rewrite adapter_view. unfold BlobWriteLeaseValidator, id_mismatch.
  destruct v; cbn in Hh |- *; try done; revert Hh; guards; intros; guards;
    destruct acc as [[|a acc]|]; try done; (case_bool_decide; [by eapply Hc|by simplify_eq/=]).
Qed.

Lemma gate_state_names L acc f v id st :
  L.(l_now) = now -> covers L acc -> leased f v -> holder (settle now v) = Some id ->
  createLeaseState (BlobLeaseAdapter f).1 ctx = Ok st ->
  BlobWriteLeaseValidator acc st.(lease) ctx = Ok tt -> L.(l_names) id = true.
Proof.
  intros HL Hc Hl Hh Hs. rewrite (create_state f v st Hl Hs). intros Hg.
  apply (gate_names L acc (fields_of (encode (settle now v))) (settle now v) id); [done|done|..].
  - split; [by apply settle_valid, Hl|done].
  - by rewrite settle_idemp by apply Hl.
  - by rewrite adapter_view.
Qed.
End Leases.

Section Refine.
Context {coll : Type -> Type} `{LokiLaws coll} {P : Type}.

Abbreviation db := (BlobDb coll P).
Abbreviation store := (proc db exn).
Implicit Types (s : db).

Definition vw (s : db) : View :=
  mkView (docs s.(containers)) (docs s.(blobs)) (docs s.(blocks)) s.(block_arrays) s.(range_arrays)
    (max_id s.(blobs)).

Context (L : Licence).
Abbreviation changes := (rtc (db_change L)).

Lemma changes_ok w w' : view_ok w -> changes w w' -> view_ok w'.
Proof. intros Hw Hr. induction Hr; [done|]. eauto using db_change_ok. Qed.

(** Arrays stay. *)
Lemma changes_refs w w' b : changes w w' -> refs_ok w b -> refs_ok w' b.
Proof.
  induction 1 as [|w w1 w' Hc _ IH]; [done|]. intros (R1&R2&R3). apply IH.
  destruct Hc; (split_and!; [| |exact R3]); cbn; intros r' Hr'; try (by apply R1); try (by apply R2);
    apply lookup_insert_is_Some'; right; first [by apply R1 | by apply R2].
Qed.

(** [m] makes changes, and what it returns satisfies [Q]. *)
Definition steps {A} (s : db) (m : store A) (Q : A -> db -> Prop) : Prop :=
  view_ok (vw s) ->
  changes (vw s) (vw (m s).2) /\ match (m s).1 with Ok a => Q a (m s).2 | Throw _ => True end.

Section Rules.
Context {A B : Type}.
Implicit Types (m : store A) (Q : A -> db -> Prop).

Lemma steps_bind s m Q (k : A -> store B) R :
  steps s m Q -> (forall a s', Q a s' -> steps s' (k a) R) -> steps s (m ≫= k) R.
Proof.
  intros Hm Hk Hs. destruct (Hm Hs) as [Hc HQ]. run. destruct (m s) as [[a|e] s']; cbn in *; [|done].
  destruct (Hk a s' HQ) as [Hc' HR]; [by eapply changes_ok|].
  split; [by etrans|done].
Qed.

(** [steps_bind] that remembers the changes of the first part. *)
Lemma steps_bind_changes s m Q (k : A -> store B) R :
  steps s m Q -> (forall a s', changes (vw s) (vw s') -> Q a s' -> steps s' (k a) R) -> steps s (m ≫= k) R.
Proof.
  intros Hm Hk Hs. destruct (Hm Hs) as [Hc HQ]. run. destruct (m s) as [[a|e] s']; cbn in *; [|done].
  destruct (Hk a s' Hc HQ) as [Hc' HR]; [by eapply changes_ok|].
  split; [by etrans|done].
Qed.

Lemma steps_weaken s m (Q Q' : A -> db -> Prop) :
  steps s m Q -> (view_ok (vw s) -> forall a s', Q a s' -> Q' a s') -> steps s m Q'.
Proof.
  intros Hm HQ Hs. destruct (Hm Hs) as [Hc Hq]. split; [done|]. specialize (HQ Hs). destruct (m s).1; eauto.
Qed.

Lemma steps_ok s m Q : (view_ok (vw s) -> steps s m Q) -> steps s m Q.
Proof. intros Hm Hs. by apply Hm. Qed.

Lemma steps_ret s (a : A) Q : Q a s -> steps s (mret a) Q.
Proof. intros HQ Hs. by split. Qed.

Lemma steps_throw s e Q : steps s (throw (A := A) e) Q.
Proof. intros Hs. by split. Qed.

Lemma steps_lift s (r : res A) Q : (forall a, r = Ok a -> Q a s) -> steps s (lift r) Q.
Proof. intros HQ Hs. split; [done|]. cbn. destruct r; auto. Qed.
End Rules.

Lemma steps_get s (Q : db -> db -> Prop) : Q s s -> steps s get_state Q.
Proof. intros HQ Hs. by split. Qed.

Lemma steps_guard s ok e (Q : unit -> db -> Prop) : (ok = true -> Q tt s) -> steps s (guard ok e) Q.
Proof. intros HQ. unfold guard. destruct ok; [apply steps_ret; auto|apply steps_throw]. Qed.

Lemma steps_update s f (Q : unit -> db -> Prop) :
  (view_ok (vw s) -> changes (vw s) (vw (f s))) -> Q tt (f s) -> steps s (update_db f) Q.
Proof. intros Hc HQ Hs. by split; [apply Hc|]. Qed.

(** ** The collections *)

Lemma vw_save i b s :
  is_Some (docs s.(blobs) !! i) -> vw (set_blobs (lk_update i b s.(blobs)) s) = put_blob i b (vw s).
Proof. intros Hi. unfold vw, put_blob, put_blobs. cbn. by rewrite docs_update, max_update by done. Qed.

Lemma vw_insert b s : vw (set_blobs (lk_insert b s.(blobs)) s) = insert_blob b (vw s).(vb) (vw s).
Proof. unfold vw, insert_blob. cbn. by rewrite docs_insert, max_insert. Qed.

Lemma vw_replace i b s :
  vw (set_blobs (lk_insert b (lk_remove i s.(blobs))) s) = insert_blob b (delete i (vw s).(vb)) (vw s).
Proof. unfold vw, insert_blob. cbn. by rewrite docs_insert, max_insert, max_remove, docs_remove. Qed.

Lemma vw_remove p s :
  vw (set_blobs (remove_docs (lk_find (fun _ => p) s.(blobs)) s.(blobs)) s)
  = put_blobs (filter (fun d => p d.2 = false) (vw s).(vb)) (vw s).
Proof.
  unfold vw, put_blobs. cbn. rewrite max_remove_docs. f_equal. apply map_eq. intros i.
  rewrite docs_remove_docs, map_lookup_filter. case_bool_decide as Hi.
  - apply list_elem_of_fmap in Hi as ([j b]&->&Hj). apply elem_find in Hj as [Hj Hp]. cbn. rewrite Hj. cbn.
    rewrite option_guard_False; [done|]. cbn. congruence.
  - destruct (docs (blobs s) !! i) as [b|] eqn:Hb; [|done]. cbn. rewrite option_guard_True; [done|]. cbn.
    destruct (p b) eqn:Hp; [|done]. destruct Hi. apply list_elem_of_fmap. exists (i, b). split; [done|].
    by apply (elem_find (fun _ => p)).
Qed.

(** ** Finding and changing a document *)

Definition at_key (account container blob snapshot : string) (b : BlobModel) : Prop :=
  b.(b_accountName) = account /\ b.(b_containerName) = container /\ b.(b_name) = blob /\
  b.(b_snapshot) = snapshot.

Lemma is_blob_key a c n sn b : is_blob a c n sn b = true <-> at_key a c n sn b.
Proof. unfold is_blob, is_named, at_key. rewrite !andb_true_iff, !bool_decide_eq_true. tauto. Qed.

Lemma is_named_key a c n b :
  is_named a c n b = true <->
  b.(b_accountName) = a /\ b.(b_containerName) = c /\ b.(b_name) = n.
Proof. unfold is_named. rewrite !andb_true_iff, !bool_decide_eq_true. tauto. Qed.

Lemma steps_check ctx a c s :
  steps s (checkContainerExist ctx a c) (fun _ s' => s' = s /\ has_container a c (vw s)).
Proof.
  unfold checkContainerExist. eapply steps_bind; [by apply (steps_get _ (fun a s' => a = s /\ s' = s))|].
  intros _ _ [-> ->]. destruct (findOne _ _) as [[k cm]|] eqn:Hf; [|apply steps_throw].
  apply findOne_Some in Hf as [Hk Hc]. apply steps_ret. split; [done|]. by exists k, cm.
Qed.

(** A document was found, and it is up to date. *)
Definition found (a c n sn : string) (s : db) (d : Z * BlobModel) : Prop :=
  (vw s).(vb) !! d.1 = Some d.2 /\ at_key a c n sn d.2 /\ has_container a c (vw s).

Definition absent (a c n sn : string) (s : db) : Prop :=
  forall j b, (vw s).(vb) !! j = Some b -> ~ at_key a c n sn b.

Lemma steps_save_lease i b f s :
  (vw s).(vb) !! i = Some b -> lease_kept L.(l_now) b.(b_lease) f ->
  steps s (save_blob i (with_lease f b)) (fun _ s' => vw s' = put_blob i (with_lease f b) (vw s)).
Proof.
  intros Hi Hk. assert (Hv := vw_save i (with_lease f b) s (mk_is_Some _ _ Hi)).
  apply steps_update; [|done]. intros _. rewrite Hv. by apply rtc_once, c_lease.
Qed.

Lemma found_put a c n sn s s' i b b' :
  vw s' = put_blob i b' (vw s) -> found a c n sn s (i, b) -> same_key b b' -> found a c n sn s' (i, b').
Proof.
  intros Hv (Hi&(?&?&?&?)&Hc) ((?&?&?)&?). unfold found, at_key. rewrite Hv. cbn in *.
  rewrite lookup_insert_eq. split_and!; [done|congruence..|done].
Qed.

Lemma steps_get_blob ctx a c n osn fe fc s :
  ctx.(bc_startTime) = L.(l_now) ->
  steps s (getBlobWithLeaseUpdated ctx a c n osn fe fc)
    (fun o s' => match o with
     | Some d => found a c n (default EmptyString osn) s' d /\ (fc = true -> d.2.(b_isCommitted) = true)
     | None => s' = s /\ has_container a c (vw s) /\
         (fc = false -> absent a c n (default EmptyString osn) s)
     end).
Proof.
  intros Hnow. set (sn := default EmptyString osn). unfold getBlobWithLeaseUpdated. fold sn.
  eapply steps_bind; [apply steps_check|]. intros [] s' [-> Hc].
  eapply steps_bind; [by apply (steps_get _ (fun a s' => a = s /\ s' = s))|]. intros _ _ [-> ->].
  assert (Hmiss : forall Q : option (Z * BlobModel) -> db -> Prop, Q None s ->
    steps s (if fe then throw (BlobErrors.getBlobNotFound ctx.(bc_contextId)) else mret None) Q)
    by (intros; destruct fe; [apply steps_throw|by apply steps_ret]).
  destruct (findOne _ _) as [[i doc]|] eqn:Hf.
  2:{ apply Hmiss. split_and!; [done..|]. intros _ j b Hj Hb%is_blob_key.
      pose proof (findOne_None _ _ Hf j b Hj). congruence. }
  apply findOne_Some in Hf as [Hi Hk%is_blob_key].
  assert (Hfnd : found a c n sn s (i, doc)) by done.
  destruct (fc && negb doc.(b_isCommitted)) eqn:Hfc; [apply Hmiss; split_and!; [done..|by intros ->]|].
  assert (Hcom : fc = true -> doc.(b_isCommitted) = true) by (destruct fc, doc.(b_isCommitted); done).
  apply steps_ok. intros Hs. case_bool_decide as Hsn; cbn [negb].
  - rewrite (surjective_pairing (BlobLeaseAdapter _)).
    eapply steps_bind; [apply (steps_save_lease i doc); [done|apply kept_adapter]|].
    intros [] s1 Hv1. eapply steps_bind; [by apply (steps_lift s1 _ (fun st s' => s' = s1 /\ createLeaseState (BlobLeaseAdapter doc.(b_lease)).1 (lease_ctx ctx) = Ok st))|].
    intros st _ [-> Hst]. unfold lease_ctx in Hst. rewrite Hnow in Hst.
    assert (Hf1 : found a c n sn s1 (i, with_lease (BlobLeaseAdapter doc.(b_lease)).2 doc))
      by (eapply found_put; [exact Hv1|exact Hfnd|by repeat split]).
    eapply steps_bind; [apply (steps_save_lease i (with_lease (BlobLeaseAdapter doc.(b_lease)).2 doc)); [apply Hf1|by eapply kept_settle]|].
    intros [] s2 Hv2. apply steps_ret. split; [|done].
    eapply found_put; [exact Hv2|exact Hf1|by repeat split].
  - assert (Hsnap : doc.(b_snapshot) <> EmptyString) by (destruct Hk as (_&_&_&->); done).
    eapply steps_bind; [apply (steps_save_lease i doc); [done|]|].
    + intros v Hl. pose proof (bo_snapshot _ _ (ok_blob _ Hs i doc Hi) Hsnap) as Hun.
      exists VAvailable. split; [done|].
      destruct Hun as [Hun|Hun]; rewrite <- (leased_inj _ _ _ Hun Hl); [by right|by left].
    + intros [] s1 Hv1. apply steps_ret. split; [|done].
      eapply found_put; [exact Hv1|exact Hfnd|by repeat split].
Qed.

(** ** The statements of the methods *)

Lemma steps_lift_same {A} s (r : res A) : steps s (lift r) (fun a s' => s' = s /\ r = Ok a).
Proof. by apply steps_lift. Qed.

Lemma steps_guard_same s ok e : steps s (guard ok e) (fun _ s' => s' = s /\ ok = true).
Proof. by apply steps_guard. Qed.

Lemma steps_get_same s : steps s get_state (fun a s' => a = s /\ s' = s).
Proof. by apply steps_get. Qed.

Lemma steps_existing s ctx o : steps s (existing ctx o) (fun d s' => s' = s /\ o = Some d).
Proof. unfold existing. destruct o; [by apply steps_ret|apply steps_throw]. Qed.

Lemma steps_gate ctx acc d s a c n sn :
  ctx.(bc_startTime) = L.(l_now) -> covers L acc -> found a c n sn s d ->
  steps s (write_lease ctx acc d) (fun _ s' => s' = s /\ permitted L d.2).
Proof.
  intros Hnow Hc (Hd&_&_). apply steps_lift. intros [] Hg. split; [done|]. intros id (v&Hl&Hh).
  unfold lease_ctx in Hg. rewrite Hnow in Hg.
  exact (gate_names _ _ L acc _ v id eq_refl Hc Hl Hh Hg).
Qed.

Lemma same_refs_ok w i b b' :
  view_ok w -> w.(vb) !! i = Some b ->
  b'.(b_committedBlocksInOrder) = b.(b_committedBlocksInOrder) ->
  b'.(b_pageRangesInOrder) = b.(b_pageRangesInOrder) ->
  b'.(b_properties).(bp_blobType) = b.(b_properties).(bp_blobType) ->
  refs_ok w b' /\ (refs_private w i b -> refs_private w i b').
Proof.
  intros Hw Hi H1 H2 H3. destruct (bo_refs _ _ (ok_blob _ Hw i b Hi)) as (R1&R2&R3).
  unfold refs_ok, refs_private, paged. by rewrite H1, H2, H3.
Qed.

(** A document taken from the collection as it is. *)
Lemma findOne_found p s i b :
  view_ok (vw s) -> findOne p s.(blobs) = Some (i, b) ->
  p b = true /\ found b.(b_accountName) b.(b_containerName) b.(b_name) b.(b_snapshot) s (i, b).
Proof.
  intros Hs [Hi Hp]%findOne_Some. split; [done|]. split_and!; [done|by repeat split|].
  apply (bo_container _ _ (ok_blob _ Hs i b Hi)).
Qed.

(** Two changes between which the database is not in order. *)
Lemma steps_update2 s f g (Q : unit -> db -> Prop) :
  (view_ok (vw s) -> changes (vw s) (vw (g (f s)))) -> Q tt (g (f s)) ->
  steps s (_ ← update_db f; update_db g) Q.
Proof. intros Hc HQ Hs. run. by split; [apply Hc|]. Qed.

Lemma steps_update2_bind {A} s f g (k : unit -> store A) R :
  (view_ok (vw s) -> changes (vw s) (vw (g (f s)))) -> steps (g (f s)) (k tt) R ->
  steps s (_ ← update_db f; _ ← update_db g; k tt) R.
Proof.
  intros Hc Hk Hs. destruct (Hk (changes_ok _ _ Hs (Hc Hs))) as [Hc' HR].
  split; [|exact HR]. etrans; [by apply Hc|exact Hc'].
Qed.

(** A new document: a base blob whose arrays nobody has. *)
Definition new_doc (s : db) (b : BlobModel) : Prop :=
  b.(b_snapshot) = EmptyString /\ (exists v, leased b.(b_lease) v) /\
  refs_ok (vw s) b /\ refs_unused (vw s) b.

(** ** Arrays *)

Lemma no_ref_blocks s r : view_ok (vw s) -> s.(block_arrays) !! r = None ->
  forall j c, (vw s).(vb) !! j = Some c -> c.(b_committedBlocksInOrder) <> Some r.
Proof.
  intros Hs Hr j c Hj Hc. destruct (bo_refs _ _ (ok_blob _ Hs j c Hj)) as (R1&_).
  destruct (R1 r Hc) as [l Hl]. cbn in Hl. congruence.
Qed.

Lemma no_ref_ranges s r : view_ok (vw s) -> s.(range_arrays) !! r = None ->
  forall j c, (vw s).(vb) !! j = Some c -> c.(b_pageRangesInOrder) <> Some r.
Proof.
  intros Hs Hr j c Hj Hc. destruct (bo_refs _ _ (ok_blob _ Hs j c Hj)) as (_&R2&_).
  destruct (R2 r Hc) as [l Hl]. cbn in Hl. congruence.
Qed.

Lemma fresh_none {A} (m : gmap Ref A) : m !! base.fresh (dom m : gset Ref) = None.
Proof. apply not_elem_of_dom. apply is_fresh. Qed.

Lemma steps_new_blocks l s :
  L.(l_copies) = false ->
  steps s (new_blocks l) (fun r s' => vw s' = put_block_array r l (vw s) /\
    forall j c, (vw s).(vb) !! j = Some c -> c.(b_committedBlocksInOrder) <> Some r).
Proof.
  intros HL Hs. unfold new_blocks. cbn. set (r := base.fresh _).
  assert (Hr := no_ref_blocks s r Hs (fresh_none _)). split; [|done].
  apply rtc_once. exact (c_block_array L (vw s) r l HL (or_introl Hr)).
Qed.

Lemma steps_new_ranges l s :
  L.(l_copies) = false -> wf l ->
  steps s (new_ranges l) (fun r s' => vw s' = put_range_array r l (vw s) /\
    forall j c, (vw s).(vb) !! j = Some c -> c.(b_pageRangesInOrder) <> Some r).
Proof.
  intros HL Hl Hs. unfold new_ranges. cbn. set (r := base.fresh _).
  assert (Hr := no_ref_ranges s r Hs (fresh_none _)). split; [|done].
  apply rtc_once. exact (c_range_array L (vw s) r l HL (or_introl Hr) Hl).
Qed.

(** A write of a blob that keeps its key and its arrays. *)
Lemma steps_write a c n sn i b b' s :
  found a c n sn s (i, b) -> (sn = EmptyString \/ frozen b' = frozen b) -> permitted L b ->
  same_key b b' -> lease_kept L.(l_now) b.(b_lease) b'.(b_lease) ->
  b'.(b_committedBlocksInOrder) = b.(b_committedBlocksInOrder) ->
  b'.(b_pageRangesInOrder) = b.(b_pageRangesInOrder) ->
  b'.(b_properties).(bp_blobType) = b.(b_properties).(bp_blobType) ->
  steps s (save_blob i b') (fun _ s' => vw s' = put_blob i b' (vw s)).
Proof.
  intros (Hi&(_&_&_&Hsn)&_) Hf Hp Hk Hl Hr1 Hr2 Ht. cbn in *. apply steps_ok. intros Hs.
  assert (Hv := vw_save i b' s (mk_is_Some _ _ Hi)). apply steps_update; [|done]. intros _. rewrite Hv.
  destruct (same_refs_ok _ _ b b' Hs Hi Hr1 Hr2 Ht). apply rtc_once, c_write with b; try done.
  destruct Hf as [->|Hf]; [by left|by right].
Qed.

End Refine.

(** One statement of a method: its rule, and what it tells. *)
Ltac statement :=
  lazymatch goal with
  | |- steps _ _ (checkContainerExist _ _ _ ≫= _) _ =>
      eapply steps_bind; [apply steps_check|]; intros [] ? [-> ?]
  | |- steps _ _ (getBlobWithLeaseUpdated _ _ _ _ _ _ _ ≫= _) _ =>
      let Hf := fresh "Hf" in eapply steps_bind; [by apply steps_get_blob|]; intros ? ? Hf
  | |- steps _ _ (existing _ ?o ≫= _) _ =>
      let i := fresh "i" in let b := fresh "b" in let Hc := fresh "Hcommitted" in
      eapply steps_bind; [apply steps_existing|]; intros [i b] ? [-> ->]; cbn [fst snd] in *;
      match goal with Hf : found _ _ _ _ _ _ /\ _ |- _ => destruct Hf as [Hf Hc] end
  | |- steps _ _ (guard _ _ ≫= _) _ =>
      eapply steps_bind; [apply steps_guard_same|]; intros [] ? [-> ?]
  | |- steps _ _ (get_state ≫= _) _ =>
      eapply steps_bind; [apply steps_get_same|]; intros ? ? [-> ->]
  | |- steps _ _ (write_lease _ _ _ ≫= _) _ =>
      eapply steps_bind; [eapply steps_gate; eassumption|]; intros [] ? [-> ?]; cbn [fst snd] in *
  | |- steps _ _ (mret _) _ => by apply steps_ret
  | |- steps _ _ (throw _) _ => apply steps_throw
  | |- steps _ _ (lift _ ≫= _) _ =>
      eapply steps_bind; [apply steps_lift_same|]; intros ? ? [-> ?]
  | |- steps _ _ (read_conditions _ _ _ _ ≫= _) _ =>
      eapply steps_bind; [apply steps_lift_same|]; intros [] ? [-> ?]
  | |- steps _ _ (write_conditions _ _ _ ≫= _) _ =>
      eapply steps_bind; [apply steps_lift_same|]; intros [] ? [-> ?]
  | |- steps _ _ (sequence_conditions _ _ _ ≫= _) _ =>
      eapply steps_bind; [apply steps_lift_same|]; intros [] ? [-> ?]
  | |- steps _ _ (read_lease _ _ _ ≫= _) _ =>
      eapply steps_bind; [apply steps_lift_same|]; intros [] ? [-> ?]
  end.

(** The write of the blob that was found. *)
Ltac writes :=
  match goal with
  | Hf : found _ _ _ _ _ _ |- _ =>
      eapply steps_write; [exact Hf|by left|done|by repeat split|apply kept_written|done|done|first [done|by case_match]]
  end.

Section Methods.
Context {coll : Type -> Type} `{LokiLaws coll} {P : Type}.
Context (L : Licence) (env : Env) (ctx : BlobContext).
Hypothesis Hnow : ctx.(bc_startTime) = L.(l_now).
Abbreviation db := (BlobDb coll P).
Implicit Types (s : db).

Definition anything {A} (_ : A) (_ : db) : Prop := True.

Lemma steps_anything {A} s (m : proc db exn A) Q : steps L s m Q -> steps L s m anything.
Proof. intros Hm. by eapply steps_weaken. Qed.

Lemma steps_then_ret {A B} s (m : proc db exn A) Q (b : A -> B) :
  steps L s m Q -> steps L s (a ← m; mret (b a)) anything.
Proof. intros Hm. eapply steps_bind; [exact Hm|]. intros. by apply steps_ret. Qed.

(** ** Blobs and snapshots *)

Lemma setBlobMetadata_steps a c n acc m mac s :
  covers L acc -> steps L s (setBlobMetadata env ctx a c n acc m mac) anything.
Proof. intros Hc. unfold setBlobMetadata. repeat statement. eapply steps_then_ret. writes. Qed.

Lemma setBlobHTTPHeaders_steps a c n acc h mac s :
  covers L acc -> steps L s (setBlobHTTPHeaders env ctx a c n acc h mac) anything.
Proof. intros Hc. unfold setBlobHTTPHeaders. repeat statement. eapply steps_then_ret. writes. Qed.

Lemma setTier_steps a c n t acc s :
  covers L acc -> steps L s (setTier ctx a c n t acc) anything.
Proof. intros Hc. unfold setTier. repeat statement. eapply steps_then_ret. writes. Qed.

Lemma setBlobTag_steps a c n sn acc t s :
  covers L acc -> steps L s (setBlobTag ctx a c n sn acc t) anything.
Proof.
  intros Hc. unfold setBlobTag. repeat statement. eapply steps_anything.
  eapply steps_write; [exact Hf|by right|done|by repeat split|apply kept_written|done..].
Qed.

Lemma downloadBlob_steps a c n sn acc mac s :
  steps L s (downloadBlob ctx a c n sn acc mac) anything.
Proof. unfold downloadBlob. repeat statement. Qed.

Lemma getBlobTag_steps a c n sn acc mac s :
  steps L s (getBlobTag ctx a c n sn acc mac) anything.
Proof. unfold getBlobTag. repeat statement. Qed.

Lemma getBlobProperties_steps a c n sn acc mac s :
  steps L s (getBlobProperties ctx a c n sn acc mac) anything.
Proof.
  unfold getBlobProperties. repeat statement. cbn [fst snd].
  eapply (steps_bind _ _ _ anything).
  - destruct Hf as (Hi&_). cbn in Hi. assert (Hv := vw_save i (with_properties (with_tagCount (getBlobTagsCount (b_blobTags b)) (b_properties b)) b) s' (mk_is_Some _ _ Hi)).
    apply steps_update; [|done]. intros _. rewrite Hv. by apply rtc_once, c_count.
  - intros [] s2 _. repeat statement.
Qed.

Lemma sealBlob_steps a c n acc mac s :
  covers L acc -> steps L s (sealBlob env ctx a c n acc mac) anything.
Proof.
  intros Hc. apply steps_ok. intros Hs. unfold sealBlob, getBlob. cbn [default].
  eapply steps_bind; [eapply steps_bind; [apply steps_get_same|]; intros ? ? [-> ->];
    by apply (steps_ret _ _ _ (fun o s' => s' = s /\ o = findOne (is_blob a c n EmptyString) s.(blobs)))|].
  intros ? ? [-> ->]. statement.
  eapply steps_bind; [apply steps_existing|]. intros [i b] ? [-> Hfo]. cbn [fst snd].
  apply (findOne_found _ _ _ _ Hs) in Hfo as [Hk%is_blob_key Hf]. statement.
  set (b1 := with_lease (BlobLeaseAdapter b.(b_lease)).2 b).
  eapply steps_bind; [apply (steps_save_lease L i b); [apply Hf|apply kept_adapter]|].
  intros [] s1 Hv. assert (Hf1 : found _ _ _ _ s1 (i, b1)) by (eapply found_put; [exact Hv|exact Hf|by repeat split]).
  eapply steps_bind; [exact (steps_gate L ctx acc (i, b1) s1 _ _ _ _ Hnow Hc Hf1)|]. intros [] ? [-> Hp].
  eapply steps_then_ret. eapply steps_write; [exact Hf1|left; apply Hk|exact Hp|by repeat split| |done..].
  exact (kept_written L.(l_now) b1.(b_lease) b1.(b_lease)).
Qed.

Lemma permitted_adapted b v :
  leased b.(b_lease) v -> permitted L b -> permitted L (with_lease (BlobLeaseAdapter b.(b_lease)).2 b).
Proof.
  intros Hl Hp id (v'&Hl'&Hh). apply Hp. exists v. split; [done|].
  rewrite (leased_inj _ _ _ Hl' (leased_adapted _ _ Hl)) in Hh. by destruct v.
Qed.

Lemma new_doc_put s s' i b f d :
  vw s' = put_blob i (with_lease f b) (vw s) -> (vw s).(vb) !! i = Some b -> new_doc s d -> new_doc s' d.
Proof.
  intros Hv Hi (?&?&?&Hu). split_and!; [done|done|by rewrite Hv|]. rewrite Hv. intros j c r Hj. cbn in Hj.
  apply lookup_insert_Some in Hj as [[<- <-]|[_ Hj]]; [exact (Hu i b r Hi)|exact (Hu j c r Hj)].
Qed.

Lemma createBlob_steps b acc mac s :
  covers L acc -> new_doc s b -> steps L s (createBlob ctx b acc mac) anything.
Proof.
  intros Hc Hn. apply steps_ok. intros Hs. unfold createBlob. repeat statement.
  destruct (findOne _ _) as [[i doc]|] eqn:Hfo.
  - apply (findOne_found _ _ _ _ Hs) in Hfo as [Hk%is_blob_key Hf].
    rewrite (surjective_pairing (BlobLeaseAdapter _)). destruct Hf as (Hi&_&_). cbn in Hi.
    set (d1 := with_lease (BlobLeaseAdapter doc.(b_lease)).2 doc).
    eapply steps_bind; [apply (steps_save_lease L i doc); [done|apply kept_adapter]|].
    intros [] s1 Hv. assert (Hn1 : new_doc s1 b) by by eapply new_doc_put.
    eapply steps_bind; [apply steps_lift_same|]. intros st ? [-> Hst].
    eapply steps_bind; [apply steps_lift_same|]. intros st' ? [-> Hval].
    unfold lease_ctx in Hst. rewrite Hnow in Hst.
    destruct (bo_lease _ _ (ok_blob _ Hs i doc Hi)) as [v Hl].
    assert (Hp : permitted L doc).
    { intros id (v'&Hl'&Hh). unfold validate in Hval. rewrite (create_state _ _ _ v st Hl Hst) in Hval.
      destruct (BlobWriteLeaseValidator _ _ _) as [[]|] eqn:Hg in Hval; [|done].
      apply (gate_state_names ctx.(bc_contextId) L.(l_now) L acc doc.(b_lease) v' id st); try done.
      rewrite (create_state _ _ _ v st Hl Hst). exact Hg. }
    assert (st' = st) as -> by (unfold validate in Hval; destruct (BlobWriteLeaseValidator _ _ _); by simplify_eq/=).
    statement. destruct Hn1 as (Hb0&Hbl&Hbr&Hbu).
    apply steps_update2; [|done]. intros Hs1.
    apply rtc_once. match goal with |- db_change _ _ ?w =>
      assert (w = insert_blob _ (delete i (vw s1).(vb)) (vw s1)) as -> by exact (vw_replace i _ s1) end.
    apply c_replace with d1; [by rewrite Hv; cbn; rewrite lookup_insert_eq|by apply (permitted_adapted doc v)| | | |done|done].
    + destruct Hk as (?&?&?&?). by repeat split.
    + destruct Hk as (_&_&_&Hk). cbn. congruence.
    + exact (kept_write_settled _ _ (BlobLeaseAdapter doc.(b_lease)).2 _ st Hst).
  - apply steps_update; [|done]. intros _. rewrite vw_insert. apply rtc_once, c_insert.
    all: destruct Hn as (Hb0&Hbl&Hbr&Hbu); try done.
    intros _ (j&c&Hj&Hn'&Hcs). pose proof (findOne_None _ _ Hfo j c Hj) as Hno.
    rewrite <- not_true_iff_false, is_blob_key in Hno. apply Hno. destruct Hn' as (?&?&?). repeat split; congruence.
Qed.

(** The condition of a removal: the base goes with its snapshots, or not at all. *)
Lemma remove_blobs_steps p s :
  (view_ok (vw s) -> forall i b, (vw s).(vb) !! i = Some b -> p b = true -> b.(b_snapshot) = EmptyString ->
     permitted L b /\ forall b', p b' = false -> ~ same_name b b') ->
  steps L s (remove_blobs p) anything.
Proof.
  intros Hp. apply steps_update; [|done]. intros Hs. rewrite vw_remove. apply rtc_once, c_remove.
  - apply map_filter_subseteq.
  - intros i b Hi Hm Hb. rewrite map_lookup_filter, Hi in Hm. cbn in Hm.
    destruct (p b) eqn:Hpb; [|by rewrite option_guard_True in Hm].
    destruct (Hp Hs i b Hi Hpb Hb) as [Hpm Hno]. split; [done|].
    intros j b' [_ Hb']%map_lookup_filter_Some. by apply Hno.
Qed.

Lemma deleteBlob_steps a c n sn del acc mac s :
  covers L acc -> steps L s (deleteBlob ctx a c n sn del acc mac) anything.
Proof.
  intros Hc. unfold deleteBlob. repeat statement. cbn [fst snd].
  destruct Hf as (Hi&(Ha&Hcn&Hn&Hsn)&_). cbn in Ha, Hcn, Hn, Hsn, Hi.
  case_bool_decide as He.
  - assert (Hall : steps L s' (remove_blobs (is_named a c n)) anything).
    { apply remove_blobs_steps. intros Hs j d Hj (?&?&?)%is_named_key Hd. split.
      - assert (j = i) as ->; [|by cbn in Hj; simplify_eq].
        apply (ok_base _ Hs j i d b Hj Hi); [repeat split; congruence|done..].
      - intros b' Hb' (?&?&?). rewrite <- not_true_iff_false, is_named_key in Hb'. apply Hb'.
        repeat split; congruence. }
    destruct del as [[|]|]; [done| |by statement].
    apply remove_blobs_steps. intros _ j d _ [_ Hd]%andb_prop Hds. by rewrite bool_decide_eq_true_2 in Hd.
  - apply remove_blobs_steps. intros _ j d _ (_&_&_&?)%is_blob_key Hd. congruence.
Qed.

(** A new snapshot, which refers to copies of the arrays. *)
Lemma snapshot_time_nonempty t : snapshot_time t <> EmptyString.
Proof.
  unfold snapshot_time. destruct (civil _) as [[y m] d]. by destruct (pad 4 y).
Qed.

Lemma copy_ranges_steps b s :
  L.(l_copies) = false ->
  steps L s (copy_ranges b) (fun o s' =>
    (vw s').(vb) = (vw s).(vb) /\ (vw s').(vc) = (vw s).(vc) /\
    (is_Some b.(b_pageRangesInOrder) -> is_Some o) /\
    forall r, o = Some r -> is_Some ((vw s').(vr) !! r) /\
      forall j c, (vw s).(vb) !! j = Some c -> c.(b_pageRangesInOrder) <> Some r).
Proof.
  intros HL. apply steps_ok. intros Hs. unfold copy_ranges. statement.
  destruct b.(b_pageRangesInOrder) as [r0|] eqn:Hr0; [|by apply steps_ret; split_and!].
  eapply steps_bind.
  - apply steps_new_ranges; [done|]. unfold ranges_of. rewrite Hr0. cbn.
    destruct (range_arrays s !! r0) eqn:Hl; [|done]. by apply (ok_ranges _ Hs r0).
  - intros r s1 [Hv Hno]. apply steps_ret. rewrite Hv. split_and!; [done..|by eexists|].
    intros ? [= <-]. split; [|done]. cbn. by rewrite lookup_insert_eq.
Qed.

Lemma copy_blocks_steps b s :
  L.(l_copies) = false ->
  steps L s (copy_blocks b) (fun o s' =>
    (vw s').(vb) = (vw s).(vb) /\ (vw s').(vc) = (vw s).(vc) /\ (vw s').(vr) = (vw s).(vr) /\
    forall r, o = Some r -> is_Some ((vw s').(va) !! r) /\
      forall j c, (vw s).(vb) !! j = Some c -> c.(b_committedBlocksInOrder) <> Some r).
Proof.
  intros HL. unfold copy_blocks. statement.
  destruct b.(b_committedBlocksInOrder) as [r0|] eqn:Hr0; [|by apply steps_ret].
  eapply steps_bind; [by apply steps_new_blocks|]. intros r s1 [Hv Hno]. apply steps_ret. rewrite Hv.
  split_and!; [done..|]. intros ? [= <-]. split; [|done]. cbn. by rewrite lookup_insert_eq.
Qed.

Lemma createSnapshot_steps a c n acc m mac s :
  L.(l_copies) = false -> steps L s (createSnapshot ctx a c n acc m mac) anything.
Proof.
  intros HL. unfold createSnapshot. repeat statement. cbn [fst snd]. apply steps_ok. intros Hok.
  destruct Hf as (Hi&(Ha&Hcn&Hn&Hsn)&Hco). cbn in Ha, Hcn, Hn, Hsn, Hi.
  eapply steps_bind; [by apply copy_ranges_steps|]. intros ro s1 (Hb1&Hc1&Hsm&Hr1).
  eapply steps_bind; [by apply copy_blocks_steps|]. intros bo s2 (Hb2&Hc2&Hv2&Hr2).
  eapply steps_then_ret, (steps_update _ _ _ anything); [|done]. intros Hs. rewrite vw_insert.
  apply rtc_once, c_insert; cbn [b_snapshot b_accountName b_containerName b_lease].
  - unfold has_container. rewrite Hc2, Hc1, Ha, Hcn. exact Hco.
  - intros He. by destruct (snapshot_time_nonempty ctx.(bc_startTime)).
  - intros _. split; [|by left]. exists i, b. rewrite Hb2, Hb1. done.
  - by exists VNone.
  - split_and!; cbn; [intros r ->; by apply Hr2| |].
    + intros r ->. change (is_Some ((vw s2).(vr) !! r)). rewrite Hv2. by apply Hr1.
    + intros Ht. by apply Hsm, (bo_refs _ _ (ok_blob _ Hok i b Hi)).
  - intros _ j d r. rewrite Hb2, Hb1. intros Hj. cbn. split; intros ->; [|by eapply (proj2 (Hr1 r eq_refl))].
    eapply (proj2 (Hr2 r eq_refl)). by rewrite Hb1.
Qed.

(** ** Leases *)

(** The operation is a break, or the licence covers every id it quotes. *)
Definition covers_op (op : lease_op) : Prop :=
  if is_break op then L.(l_breaks) = true else forall id, quotes op id = true -> L.(l_names) id = true.

Lemma op_permitted op v st st' :
  covers_op op -> valid v -> st = state_of (mkContext (Some L.(l_now)) ctx.(bc_contextId)) v ->
  settle L.(l_now) v = v -> run_op op st = Ok st' ->
  (exists v', valid v' /\ st'.(lease) = encode v') /\
  (L.(l_breaks) = true \/ forall id, holder v = Some id -> L.(l_names) id = true).
Proof.
  unfold covers_op. intros Hop Hv -> Hs Hr. rewrite run_op_refines in Hr by done.
  destruct (spec_op _ _ op v) as [v'|] eqn:Hsp; [|done]. injection Hr as <-. split.
  - exists v'. split; [by eapply spec_op_valid|done].
  - destruct (is_break op) eqn:Hb; [by left|]. right. intros id Hh. apply Hop.
    destruct (quotes op id) eqn:Hq; [done|].
    destruct (spec_op_exclusive ctx.(bc_contextId) L.(l_now) op v id Hh Hb Hq) as (e&He&_). congruence.
Qed.

Lemma blob_lease_steps a c n mac op s :
  covers_op op -> steps L s (blob_lease ctx a c n mac (run_op op)) anything.
Proof.
  intros Hop. unfold blob_lease. do 4 statement. rename H2 into Hsn. apply bool_decide_eq_true in Hsn.
  eapply steps_bind; [apply steps_lift_same|]. intros st ? [-> Hst].
  eapply steps_bind; [apply steps_lift_same|]. intros st' ? [-> Hop'].
  apply steps_ok. intros Hs. destruct Hf as (Hi&_&_). cbn in Hi, Hst, Hop', Hsn |- *.
  destruct (bo_lease _ _ (ok_blob _ Hs i b Hi)) as [v Hl].
  unfold lease_ctx in Hst. rewrite Hnow in Hst. apply (create_state _ _ _ v) in Hst; [|done].
  set (v1 := adapted (settle L.(l_now) v)) in *.
  assert (Hset : settle L.(l_now) v1 = v1).
  { assert (Hid : settle L.(l_now) (settle L.(l_now) v) = settle L.(l_now) v) by by apply settle_idemp.
    unfold v1. by destruct (settle L.(l_now) v). }
  assert (Hv1 : valid v1).
  { pose proof (settle_valid L.(l_now) v (proj1 Hl)). unfold v1. by destruct (settle L.(l_now) v). }
  destruct (op_permitted op v1 st st' Hop Hv1 Hst Hset Hop') as [(v'&Hv'&Hle) Hperm].
  eapply steps_then_ret, (steps_update _ _ _ anything); [|done]. intros _.
  rewrite vw_save by done. unfold sync. rewrite Hle. apply rtc_once.
  apply (c_lease_op L (vw s') i b v'); [done..|].
  destruct Hperm as [?|Hperm]; [by left|right]. intros id (v2&Hl2&Hh). apply Hperm.
  rewrite (leased_inj _ _ _ Hl2 Hl) in Hh. unfold v1. by destruct (settle L.(l_now) v).
Qed.

Lemma acquireBlobLease_steps a c n d p mac s :
  covers_op (OpAcquire env.(uuid) d p) -> steps L s (acquireBlobLease env ctx a c n d p mac) anything.
Proof. intros Hop. eapply steps_then_ret. exact (blob_lease_steps a c n mac _ s Hop). Qed.

Lemma renewBlobLease_steps a c n id mac s :
  covers_op (OpRenew id) -> steps L s (renewBlobLease ctx a c n id mac) anything.
Proof. intros Hop. eapply steps_then_ret. exact (blob_lease_steps a c n mac _ s Hop). Qed.

Lemma changeBlobLease_steps a c n id p mac s :
  covers_op (OpChange id p) -> steps L s (changeBlobLease ctx a c n id p mac) anything.
Proof. intros Hop. eapply steps_then_ret. exact (blob_lease_steps a c n mac _ s Hop). Qed.

Lemma breakBlobLease_steps a c n p mac s :
  covers_op (OpBreak p) -> steps L s (breakBlobLease ctx a c n p mac) anything.
Proof. intros Hop. eapply steps_then_ret. exact (blob_lease_steps a c n mac _ s Hop). Qed.

Lemma releaseBlobLease_steps a c n id mac s :
  covers_op (OpRelease id) -> steps L s (releaseBlobLease ctx a c n id mac) anything.
Proof. exact (blob_lease_steps a c n mac (OpRelease id) s). Qed.

(** ** Blocks *)

Lemma staged_steps f s :
  (forall s, exists m, vw (f s) = put_blocks m (vw s)) ->
  steps L s (update_db (P := P) f) (fun _ s' => exists m, vw s' = put_blocks m (vw s)).
Proof.
  intros Hf. destruct (Hf s) as [m Hm]. apply steps_update; [|by exists m].
  intros _. rewrite Hm. apply rtc_once, c_staged.
Qed.

Lemma staged_anything f s :
  (forall s, exists m, vw (f s) = put_blocks m (vw s)) -> steps L s (update_db (P := P) f) anything.
Proof. intros Hf. by eapply steps_anything, staged_steps. Qed.

Ltac stages := intros ?; eexists; reflexivity.

Lemma stageBlock_steps blk acc s :
  covers L acc -> steps L s (stageBlock env ctx blk acc) anything.
Proof.
  intros Hc. unfold stageBlock. do 2 statement. eapply (steps_bind _ _ _ anything).
  - apply steps_ok. intros Hs. destruct (findOne _ _) as [[i doc]|] eqn:Hfo.
    + apply (findOne_found _ _ _ _ Hs) in Hfo as [_ (Hi&_&_)]. cbn in Hi.
      destruct (bo_lease _ _ (ok_blob _ Hs i doc Hi)) as [v Hl]. statement.
      rewrite (surjective_pairing (BlobLeaseAdapter _)).
      eapply steps_bind; [apply (steps_save_lease L i doc); [done|apply kept_adapter]|].
      intros [] s1 Hv.
      eapply steps_bind; [apply steps_lift_same|]. intros st ? [-> Hst].
      eapply steps_bind; [apply steps_lift_same|]. intros st' ? [-> Hval].
      unfold lease_ctx in Hst. rewrite Hnow in Hst.
      assert (st' = st) as -> by (unfold validate in Hval; destruct (BlobWriteLeaseValidator _ _ _); by simplify_eq/=).
      eapply steps_anything.
      apply (steps_save_lease L i (with_lease (BlobLeaseAdapter doc.(b_lease)).2 doc)).
      * rewrite Hv. cbn. by rewrite lookup_insert_eq.
      * exact (kept_write_settled _ _ (BlobLeaseAdapter doc.(b_lease)).2 _ st Hst).
    + apply steps_update; [|done]. intros _. rewrite vw_insert. apply rtc_once, c_insert; try done.
      * intros _ (j&d&Hj&(?&?&?)&_). pose proof (findOne_None _ _ Hfo j d Hj) as Hno.
        rewrite <- not_true_iff_false, is_named_key in Hno. by apply Hno.
      * by exists VNone.
  - intros [] s1 _. statement. eapply (steps_bind _ _ _ anything).
    + destruct (findOne _ _) as [[i doc]|]; [|by apply steps_ret].
      destruct (findOne _ _) as [[j d]|]; [|by apply steps_ret]. by apply steps_guard.
    + intros [] s2 _. eapply (steps_bind _ _ _ anything).
      * destruct (findOne _ _) as [[j d]|]; [|by apply steps_ret]. apply staged_anything. stages.
      * intros [] s3 _. apply staged_anything. stages.
Qed.

Lemma getBlockList_steps a c n sn com acc mac s :
  steps L s (getBlockList ctx a c n sn com acc mac) anything.
Proof. unfold getBlockList. repeat statement. Qed.

(** The array is the blob's own, or new. *)
Definition own_blocks (w : View) (b : BlobModel) (r : Ref) : Prop :=
  b.(b_committedBlocksInOrder) = Some r \/
  forall j c, w.(vb) !! j = Some c -> c.(b_committedBlocksInOrder) <> Some r.
Definition own_ranges (w : View) (b : BlobModel) (r : Ref) : Prop :=
  b.(b_pageRangesInOrder) = Some r \/
  forall j c, w.(vb) !! j = Some c -> c.(b_pageRangesInOrder) <> Some r.

(** A write of a blob that may give it another array. *)
Lemma steps_write_arrays a c n i b b' s :
  found a c n EmptyString s (i, b) -> permitted L b -> same_key b b' ->
  lease_kept L.(l_now) b.(b_lease) b'.(b_lease) -> refs_ok (vw s) b' ->
  (forall r, b'.(b_committedBlocksInOrder) = Some r -> own_blocks (vw s) b r) ->
  (forall r, b'.(b_pageRangesInOrder) = Some r -> own_ranges (vw s) b r) ->
  steps L s (save_blob i b') (fun _ s' => vw s' = put_blob i b' (vw s)).
Proof.
  intros (Hi&(_&_&_&Hsn)&_) Hp Hk Hl Hr Hob Hor. cbn in *.
  assert (Hv := vw_save i b' s (mk_is_Some _ _ Hi)). apply steps_update; [|done]. intros _. rewrite Hv.
  apply rtc_once, c_write with b; try done; [by left|].
  intros [P1 P2]. split; intros r Hr' j d Hj Hd.
  - destruct (Hob r Hr') as [Ho|Ho]; [exact (P1 r Ho j d Hj Hd)|by destruct (Ho j d Hj)].
  - destruct (Hor r Hr') as [Ho|Ho]; [exact (P2 r Ho j d Hj Hd)|by destruct (Ho j d Hj)].
Qed.

Lemma write_blocks_steps a c n i b r l s :
  L.(l_copies) = false -> found a c n EmptyString s (i, b) -> permitted L b -> own_blocks (vw s) b r ->
  steps L s (write_blocks r l) (fun _ s' => vw s' = put_block_array r l (vw s)).
Proof.
  intros HL (Hi&(_&_&_&Hsn)&_) Hp Ho. apply steps_update; [|done]. intros _.
  apply rtc_once. refine (c_block_array L (vw s) r l HL _).
  destruct Ho as [Ho|Ho]; [right; by exists i, b|by left].
Qed.

Lemma write_ranges_steps a c n i b r l s :
  L.(l_copies) = false -> found a c n EmptyString s (i, b) -> permitted L b -> own_ranges (vw s) b r ->
  wf l -> steps L s (write_ranges r l) (fun _ s' => vw s' = put_range_array r l (vw s)).
Proof.
  intros HL (Hi&(_&_&_&Hsn)&_) Hp Ho Hl. apply steps_update; [|done]. intros _.
  apply rtc_once. refine (c_range_array L (vw s) r l HL _ Hl).
  destruct Ho as [Ho|Ho]; [right; by exists i, b|by left].
Qed.

Lemma appendBlock_steps blk acc mac apac s :
  L.(l_copies) = false -> covers L acc ->
  steps L s (appendBlock env ctx blk acc mac apac) anything.
Proof.
  intros HL Hc. unfold appendBlock. repeat statement. cbn [fst snd].
  eapply (steps_bind _ _ _ (fun r s1 => found _ _ _ _ s1 (i, b) /\ own_blocks (vw s1) b r)).
  - destruct b.(b_committedBlocksInOrder) as [r|] eqn:Hr.
    + apply steps_ret. split; [exact Hf|by left].
    + eapply steps_weaken; [by apply steps_new_blocks|]. intros _ r s1 [Hv Hno].
      split; [unfold found; rewrite Hv; exact Hf|right; by rewrite Hv].
  - intros r s1 [Hf1 Ho]. eapply steps_bind; [by eapply write_blocks_steps|]. intros [] s2 Hv2.
    assert (Hf2 : found _ _ _ _ s2 (i, b)) by (unfold found; rewrite Hv2; exact Hf1).
    apply steps_ok. intros Hs2. destruct (bo_refs _ _ (ok_blob _ Hs2 i b (proj1 Hf2))) as (_&R2&R3).
    eapply steps_then_ret, steps_write_arrays with (b := b).
    + exact Hf2.
    + done.
    + by repeat split.
    + apply kept_written.
    + split_and!; cbn; [|exact R2|exact R3]. intros r' [= <-].
      change (is_Some ((vw s2).(va) !! r)). rewrite Hv2. cbn. by rewrite lookup_insert_eq.
    + intros r' [= <-]. by rewrite Hv2.
    + intros r' Hr'. by left.
Qed.

Lemma commitBlockList_steps b bl acc mac s :
  L.(l_copies) = false -> covers L acc -> new_doc s b ->
  b.(b_committedBlocksInOrder) = None -> b.(b_pageRangesInOrder) = None ->
  steps L s (commitBlockList ctx b bl acc mac) anything.
Proof.
  intros HL Hc (Hsn&Hl&(_&_&Hpg)&_) Hb1 Hb2. unfold commitBlockList. rewrite Hsn. do 3 statement.
  rename a into doc. eapply (steps_bind _ _ _ (fun _ s1 => s1 = s' /\ match doc with Some d => permitted L d.2 | None => True end)).
  { destruct doc as [d|]; [|by apply steps_ret]. statement. destruct Hf as [Hf _].
    by eapply steps_gate. }
  intros [] ? [-> Hp]. statement. statement.
  eapply steps_bind; [by apply steps_new_blocks|]. intros r s1 [Hv Hno].
  eapply (steps_bind _ _ _ anything).
  - destruct doc as [[i d]|]; cbn [fst snd] in *.
    + destruct Hf as [Hf _]. assert (Hf1 : found _ _ _ _ s1 (i, d)) by (unfold found; rewrite Hv; exact Hf).
      apply steps_ok. intros Hs1. destruct (bo_refs _ _ (ok_blob _ Hs1 i d (proj1 Hf1))) as (_&R2&_).
      eapply steps_anything, steps_write_arrays with (b := d).
      * exact Hf1.
      * done.
      * by repeat split.
      * apply kept_written.
      * split_and!; cbn; [|exact R2|]; [|intros Ht; apply Hpg in Ht; rewrite Hb2 in Ht; by destruct Ht]. intros r' [= <-].
        change (is_Some ((vw s1).(va) !! r)). rewrite Hv. cbn. by rewrite lookup_insert_eq.
      * intros r' [= <-]. right. by rewrite Hv.
      * intros r' Hr'. by left.
    + destruct Hf as (->&Hco&Hab). apply steps_update; [|done]. intros _. rewrite vw_insert.
      apply rtc_once, c_insert; cbn; [by rewrite Hv| |congruence|done|..].
      * intros _ (j&c&Hj&(?&?&?)&Hcs). cbn in *. change (docs (blobs s1)) with ((vw s1).(vb)) in Hj. rewrite Hv in Hj.
        apply (Hab eq_refl j c Hj). by repeat split.
      * split_and!; cbn; [|by rewrite Hb2|exact Hpg]. intros r' [= <-].
        change (is_Some ((vw s1).(va) !! r)). rewrite Hv. cbn. by rewrite lookup_insert_eq.
      * intros _ j c r' Hj. change (docs (blobs s1)) with ((vw s1).(vb)) in Hj. rewrite Hv in Hj. cbn.
        split; [intros [= <-]; by eapply Hno|by rewrite Hb2].
  - intros [] s2 _. apply staged_anything. stages.
Qed.

(** ** Pages *)

Lemma ranges_wf b s : view_ok (vw s) -> wf (ranges_of b s).
Proof.
  intros Hs. unfold ranges_of. destruct b.(b_pageRangesInOrder) as [r|]; [|done]. cbn.
  destruct (range_arrays s !! r) eqn:Hl; [|done]. by apply (ok_ranges _ Hs r).
Qed.

Lemma change_ranges_steps a c n i b f s :
  L.(l_copies) = false -> found a c n EmptyString s (i, b) -> permitted L b ->
  (forall l l', wf l -> f l = Ok l' -> wf l') ->
  steps L s (change_ranges b f) (fun _ s' => found a c n EmptyString s' (i, b)).
Proof.
  intros HL Hf Hp Hwf. apply steps_ok. intros Hs. unfold change_ranges. statement.
  eapply steps_bind; [apply steps_lift_same|]. intros l ? [-> Hl].
  destruct b.(b_pageRangesInOrder) as [r|] eqn:Hr; [|by apply steps_ret].
  eapply steps_weaken; [eapply write_ranges_steps; [done|exact Hf|done|by left|]|].
  - eapply Hwf; [|exact Hl]. by apply ranges_wf.
  - intros _ ? s' Hv. unfold found. rewrite Hv. exact Hf.
Qed.

Lemma merge_wf r l l' : range_ok r -> wf l -> mergeRange l r = Ok l' -> wf l'.
Proof. intros Hr Hl Hm. destruct (merge_correct l r Hl Hr) as (l2&He&Hw&_). congruence. Qed.

Lemma clear_wf x y l l' : 0 <= x <= y -> wf l -> PageRanges.clearRange l (mkPageRange x y) = Ok l' -> wf l'.
Proof. intros Hr Hl Hm. destruct (clear_correct l x y Hl Hr) as (l2&He&Hw&_). congruence. Qed.

Lemma uploadPages_steps b x y p acc mac snac s :
  L.(l_copies) = false -> covers L acc -> b.(b_snapshot) = EmptyString -> range_ok (mkRange x y p) ->
  steps L s (uploadPages env ctx b x y p acc mac snac) anything.
Proof.
  intros HL Hc Hsn Hr. unfold uploadPages. rewrite Hsn. repeat statement. cbn [fst snd].
  eapply steps_bind; [eapply change_ranges_steps; [done|exact Hf|done|]|].
  - intros l l'. by apply merge_wf.
  - intros [] s1 Hf1. eapply steps_then_ret. clear Hf. writes.
Qed.

Lemma clearRange_steps b x y acc mac snac s :
  L.(l_copies) = false -> covers L acc -> b.(b_snapshot) = EmptyString -> 0 <= x <= y ->
  steps L s (BlobStore.clearRange env ctx b x y acc mac snac) anything.
Proof.
  intros HL Hc Hsn Hr. unfold BlobStore.clearRange. rewrite Hsn. repeat statement. cbn [fst snd].
  eapply steps_bind; [eapply change_ranges_steps; [done|exact Hf|done|]|].
  - intros l l'. by apply clear_wf.
  - intros [] s1 Hf1. eapply steps_then_ret. clear Hf. writes.
Qed.

Lemma getPageRanges_steps a c n sn acc mac s :
  steps L s (getPageRanges ctx a c n sn acc mac) anything.
Proof. unfold getPageRanges. repeat statement. Qed.

Lemma updateSequenceNumber_steps a c n act num acc mac s :
  covers L acc -> steps L s (updateSequenceNumber env ctx a c n act num acc mac) anything.
Proof.
  intros Hc. unfold updateSequenceNumber. repeat statement. cbn [fst snd].
  eapply steps_bind.
  - eapply steps_write; [exact Hf|by left|done|by repeat split|apply kept_refl|done..].
  - intros [] s1 Hv. statement.
    assert (Hf1 := found_put _ _ _ _ _ _ _ _ _ Hv Hf ltac:(by repeat split)). clear Hf.
    eapply steps_then_ret, steps_write; [exact Hf1|by left| |by repeat split|apply kept_written|done..].
    done.
Qed.

Lemma resizePageBlob_steps a c n len acc mac s :
  L.(l_copies) = false -> covers L acc -> 0 <= len ->
  steps L s (resizePageBlob env ctx a c n len acc mac) anything.
Proof.
  intros HL Hc Hlen. unfold resizePageBlob. repeat statement. cbn [fst snd].
  eapply (steps_bind _ _ _ (fun r s1 => found _ _ _ _ s1 (i, b) /\ own_ranges (vw s1) b r /\
    is_Some ((vw s1).(vr) !! r))).
  - destruct b.(b_pageRangesInOrder) as [r|] eqn:Hr.
    + apply steps_ok. intros Hs. apply steps_ret. split_and!; [exact Hf|by left|].
      by apply (bo_refs _ _ (ok_blob _ Hs i b (proj1 Hf))).
    + eapply steps_weaken; [by apply steps_new_ranges|]. intros _ r s1 [Hv Hno].
      split_and!; [unfold found; rewrite Hv; exact Hf|right; by rewrite Hv|].
      rewrite Hv. cbn. by rewrite lookup_insert_eq.
  - intros r s1 (Hf1&Ho&Hr). clear Hf. apply steps_ok. intros Hs1.
    destruct (bo_refs _ _ (ok_blob _ Hs1 i b (proj1 Hf1))) as (R1&_&R3).
    set (d := with_ranges (Some r) b).
    eapply steps_bind; [eapply (steps_write_arrays _ _ _ i b d); [exact Hf1|done|by repeat split|apply kept_refl|..]|].
    + split_and!; [exact R1|by intros r' [= <-]|by eexists].
    + intros r' Hr'. by left.
    + by intros r' [= <-].
    + intros [] s2 Hv2. assert (Hf2 := found_put _ _ _ _ _ _ _ _ _ Hv2 Hf1 ltac:(by repeat split)). clear Hf1.
      eapply (steps_bind _ _ _ (fun _ s3 => found _ _ _ _ s3 (i, d))).
      * destruct (bp_contentLength _) as [m|]; [|by apply steps_ret].
        destruct (Z.ltb_spec len m); [|by apply steps_ret].
        eapply change_ranges_steps; [done|exact Hf2|done|]. intros l l'. apply clear_wf. lia.
      * intros [] s3 Hf3. clear Hf2. eapply steps_then_ret. writes.
Qed.

(** ** Copies *)

Lemma insert_copy_steps a c n tier o b s :
  L.(l_copies) = true ->
  match o with
  | Some d => found a c n EmptyString s d /\ permitted L d.2 /\ b.(b_lease) = d.2.(b_lease)
  | None => absent a c n EmptyString s /\ exists v, leased b.(b_lease) v
  end ->
  at_key a c n EmptyString b -> has_container a c (vw s) -> refs_ok (vw s) b ->
  steps L s (insert_copy ctx tier o b) anything.
Proof.
  intros HL Ho Hk Hco Hr. unfold insert_copy.
  eapply (steps_bind _ _ _ (fun b' s1 => s1 = s /\ at_key a c n EmptyString b' /\
    b'.(b_lease) = b.(b_lease) /\ refs_ok (vw s) b')).
  - destruct tier as [t|]; [|by apply steps_ret].
    destruct (bp_blobType _) as [[]|]; [|by apply steps_throw|by apply steps_ret..].
    destruct (parseTier t); [by apply steps_ret|apply steps_throw].
  - intros b' ? (->&(Ka&Kc&Kn&Ks)&Hl&Hr').
    destruct o as [[i d]|].
    + destruct Ho as [(Hi&(Da&Dc&Dn&Ds)&_) [Hp Hld]]. cbn in *.
      apply (steps_update2_bind L s _ _ (fun _ => mret (b_properties b'))); [|by apply steps_ret].
      intros Hs. apply rtc_once. match goal with |- db_change _ _ ?w =>
        assert (w = insert_blob b' (delete i (vw s).(vb)) (vw s)) as -> by exact (vw_replace i _ s) end.
      apply c_replace with d; try done.
      * repeat split; congruence.
      * rewrite Hl, Hld. apply kept_refl.
      * by rewrite HL.
    + destruct Ho as [Hab Hlb]. eapply (steps_bind _ _ _ (fun _ s' => s' = s)); [by apply steps_ret|].
      intros _ ? ->. eapply steps_then_ret, (steps_update _ _ _ anything); [|done]. intros _. rewrite vw_insert.
      apply rtc_once, c_insert; [by rewrite Ka, Kc| |by rewrite Ks|by rewrite Hl|done|by rewrite HL].
      intros _ (j&e&Hj&(?&?&?)&Hes). apply (Hab j e Hj). repeat split; congruence.
Qed.

Lemma permitted_written b v :
  leased b.(b_lease) v -> permitted L b -> permitted L (written_lease b).
Proof.
  intros Hl Hp id (v'&Hl'&Hh). apply Hp.
  exists v. split; [done|]. destruct Hl as [Hv Hlb].
  change (leased (BlobWriteLeaseSyncer_sync b.(b_lease) (BlobLeaseAdapter b.(b_lease)).1) v') in Hl'.
  rewrite Hlb, adapter_view in Hl'. cbn [fst] in Hl'. rewrite write_sync_view in Hl'.
  assert (Hw : leased (fields_of (encode (written v))) (written v)) by (split; [by destruct v|done]).
  rewrite (leased_inj _ _ _ Hl' Hw) in Hh. by destruct v.
Qed.

(** The copy refers to the arrays of its source, which are still there. *)
Lemma copied_refs i b s s' dst src md sl tg f :
  view_ok (vw s) -> (vw s).(vb) !! i = Some b -> rtc (db_change L) (vw s) (vw s') ->
  refs_ok (vw s') (copied_blob env ctx dst src md sl tg f b).
Proof.
  intros Hs Hi Hc. apply (changes_refs L _ _ _ Hc).
  destruct (bo_refs _ _ (ok_blob _ Hs i b Hi)) as (R1&R2&R3). by split_and!.
Qed.

Lemma startCopyFromURL_steps src dst url md tier o s :
  L.(l_copies) = true -> covers L o.(co_leaseAccessId) ->
  steps L s (startCopyFromURL env ctx src dst url md tier o) anything.
Proof.
  intros HL Hc. unfold startCopyFromURL. eapply steps_bind; [by apply steps_get_blob|].
  intros sd s1 Hsd. statement. apply steps_ok. intros Hs1.
  eapply steps_bind_changes; [by apply steps_get_blob|]. intros dd s2 Hch Hdd. statement. statement.
  eapply (steps_bind _ _ _ (fun _ s' => s' = s2 /\ match dd with Some d => permitted L d.2 | None => True end)).
  { destruct dd as [d|]; [|by apply steps_ret]. destruct Hdd as [Hdd _]. by eapply steps_gate. }
  intros [] ? [-> Hp]. eapply steps_bind; [apply steps_existing|]. intros [i b] ? [-> ->]. cbn [fst snd] in *.
  destruct Hsd as [Hsd _]. do 4 statement. rename H5 into Hco, a into tags.
  eapply (insert_copy_steps _ _ _ _ _ _ _ HL); [|by repeat split|done|by eapply copied_refs; [|apply Hsd|]].
  destruct dd as [d|]; [by destruct Hdd as [Hdd _]|]. destruct Hdd as (->&_&Hab).
  split; [by apply Hab|]. by exists VAvailable.
Qed.

Lemma copyFromURL_steps src dst url md tier o s :
  L.(l_copies) = true -> covers L o.(co_leaseAccessId) ->
  steps L s (copyFromURL env ctx src dst url md tier o) anything.
Proof.
  intros HL Hc. unfold copyFromURL. eapply steps_bind; [by apply steps_get_blob|].
  intros sd s1 Hsd. statement. apply steps_ok. intros Hs1.
  eapply steps_bind_changes; [by apply steps_get_blob|]. intros dd s2 Hch Hdd. statement. statement.
  set (dk := (dst.(id_account), dst.(id_container), dst.(id_blob))) in *.
  eapply (steps_bind_changes _ _ _ (fun o s3 => match o with
    | Some d => found dk.1.1 dk.1.2 dk.2 EmptyString s3 d /\ permitted L d.2
    | None => absent dk.1.1 dk.1.2 dk.2 EmptyString s3
    end)).
  { destruct dd as [[i d]|]; [|apply steps_ret; destruct Hdd as (->&_&Hab); by apply Hab].
    destruct Hdd as [Hdd _].
    apply steps_ok. intros Hs2. destruct (bo_lease _ _ (ok_blob _ Hs2 i d (proj1 Hdd))) as [v Hl].
    eapply steps_bind; [apply (steps_save_lease L i d); [apply Hdd|apply kept_written]|]. intros [] s3 Hv.
    eapply steps_bind; [apply steps_lift_same|]. intros [] ? [-> Hg]. apply steps_ret. cbn [fst snd] in *.
    split; [eapply found_put; [exact Hv|exact Hdd|by repeat split]|]. apply (permitted_written d v Hl).
    intros id (v'&Hl'&Hh). unfold lease_ctx in Hg. rewrite Hnow in Hg.
    exact (gate_names _ _ L _ _ v' id eq_refl Hc Hl' Hh Hg). }
  intros dd' s3 Hch2 Hdd'. eapply steps_bind; [apply steps_existing|]. intros [i b] ? [-> ->]. cbn [fst snd] in *.
  destruct Hsd as [Hsd _]. do 3 statement. rename H5 into Hco.
  eapply (steps_bind _ _ _ (fun _ s' => s' = s3)).
  { destruct (co_copySourceTags o); [by apply steps_ret|]. by apply steps_lift. }
  intros tags ? ->. eapply (insert_copy_steps _ _ _ _ _ _ _ HL); [|by repeat split|done|].
  - destruct dd' as [d|]; [by destruct Hdd'|]. split; [done|]. by exists VAvailable.
  - eapply copied_refs; [exact Hs1|apply Hsd|]. by etrans.
Qed.

(** ** Reads *)

Lemma read_steps {A} (m : proc db exn A) s : (forall s, (m s).2 = s) -> steps L s m anything.
Proof. intros Hm _. rewrite Hm. split; [done|]. by destruct (m s).1. Qed.

Lemma checkBlobExist_steps a c n sn s : steps L s (checkBlobExist ctx a c n sn) anything.
Proof. unfold checkBlobExist. repeat statement. destruct (findOne _ _); statement. Qed.

Lemma getBlobType_steps a c n sn s : steps L s (getBlobType a c n sn) anything.
Proof. by apply read_steps. Qed.

Lemma listAllBlobs_steps max marker sn un s : steps L s (listAllBlobs max marker sn un) anything.
Proof.
  apply read_steps. intros s1. unfold listAllBlobs. run. destruct (_ <=? max); [done|].
  by destruct (if Nat.leb 2 _ then _ else _).
Qed.

Lemma listUncommitted_steps marker max s :
  steps L s (listUncommittedBlockPersistencyChunks marker max) anything.
Proof.
  apply read_steps. intros s1. unfold listUncommittedBlockPersistencyChunks. run.
  destruct (_ <=? max); [done|]. by destruct (last _).
Qed.

(** ** Containers *)

(** The document [i] is the container. *)
Definition container_at (i : Z) (a c : string) (s : db) : Prop :=
  exists d, (vw s).(vc) !! i = Some d /\ is_container a c d = true.

Lemma is_container_key a c d : is_container a c d = true <-> d.(c_accountName) = a /\ d.(c_name) = c.
Proof. unfold is_container. by rewrite andb_true_iff, !bool_decide_eq_true. Qed.

Lemma vw_save_container i d s :
  is_Some (docs s.(containers) !! i) ->
  vw (set_containers (lk_update i d s.(containers)) s) = put_containers (<[i := d]> (vw s).(vc)) (vw s).
Proof. intros Hi. unfold vw, put_containers. cbn. by rewrite docs_update. Qed.

Lemma save_container_steps i a c d s :
  container_at i a c s -> is_container a c d = true ->
  steps L s (save_container i d) (fun _ s' => vw s' = put_containers (<[i := d]> (vw s).(vc)) (vw s)).
Proof.
  intros (d0&Hi&Hd0) Hd. assert (Hv := vw_save_container i d s (mk_is_Some _ _ Hi)).
  apply steps_update; [|done]. intros _. rewrite Hv. apply rtc_once, c_containers.
  intros a' c' (k&e&Hk&He). destruct (decide (k = i)) as [->|Hne].
  - exists i, d. cbn. rewrite lookup_insert_eq. split; [done|]. rewrite Hi in Hk. injection Hk as <-.
    rewrite is_container_key in *. intuition congruence.
  - exists k, e. cbn. by rewrite lookup_insert_ne.
Qed.

Lemma container_put i j a c a' c' d s s' :
  container_at i a c s -> is_container a' c' d = true -> container_at j a' c' s ->
  vw s' = put_containers (<[j := d]> (vw s).(vc)) (vw s) -> container_at i a c s'.
Proof.
  intros (d0&Hi&Hd0) Hd (d1&Hj&Hd1) Hv. unfold container_at. rewrite Hv. cbn.
  destruct (decide (i = j)) as [->|Hne].
  - exists d. rewrite lookup_insert_eq. split; [done|]. rewrite Hi in Hj. injection Hj as <-.
    rewrite is_container_key in *. intuition congruence.
  - exists d0. by rewrite lookup_insert_ne.
Qed.

Lemma settle_container_steps d a c s :
  container_at d.1 a c s -> is_container a c d.2 = true ->
  steps L s (settle_container ctx d) (fun d' s' => d'.1 = d.1 /\ is_container a c d'.2 = true /\
    (forall i a' c', container_at i a' c' s -> container_at i a' c' s')).
Proof.
  intros Hi Hd. unfold settle_container. do 2 statement.
  eapply steps_bind; [by apply (save_container_steps d.1 a c)|]. intros [] s' Hv. apply steps_ret.
  split_and!; [done|exact Hd|]. intros i a' c' Hi'.
  eapply container_put; [exact Hi'| |exact Hi|exact Hv]. exact Hd.
Qed.

Lemma container_found a c s d :
  findOne (is_container a c) s.(containers) = Some d ->
  container_at d.1 a c s /\ is_container a c d.2 = true.
Proof. destruct d as [i d]. intros [Hi Hd]%findOne_Some. split; [by exists d|done]. Qed.

Lemma get_container_steps a c fe s :
  steps L s (getContainerWithLeaseUpdated ctx a c fe) (fun o s' => match o with
    | Some d => container_at d.1 a c s' /\ is_container a c d.2 = true
    | None => True
    end).
Proof.
  unfold getContainerWithLeaseUpdated. statement. destruct (findOne _ _) as [d|] eqn:Hf.
  - apply container_found in Hf as [Hi Hd]. eapply steps_bind; [by apply (settle_container_steps d a c)|].
    intros d' s1 (Hd1&Hd'&Hk). apply steps_ret. split; [|done]. rewrite Hd1. by apply Hk.
  - destruct fe; [apply steps_throw|by apply steps_ret].
Qed.

Lemma settle_containers_steps ds s :
  (forall d, d ∈ ds -> container_at d.1 d.2.(c_accountName) d.2.(c_name) s) ->
  steps L s (settle_containers ctx ds) anything.
Proof.
  revert s. induction ds as [|d ds IH]; intros s Hds; [by apply steps_ret|]. cbn [settle_containers].
  eapply steps_bind; [apply (settle_container_steps d d.2.(c_accountName) d.2.(c_name))|].
  - apply Hds. by left.
  - by apply is_container_key.
  - intros d' s' (_&_&Hk). eapply steps_then_ret, IH. intros e He. apply Hk, Hds. by right.
Qed.

Lemma listContainers_steps a prefix max marker s :
  steps L s (listContainers ctx a prefix max marker) anything.
Proof.
  unfold listContainers. statement. set (p := fun _ c => _). set (docs := take _ _).
  assert (Hds : forall n d, d ∈ take n docs -> container_at d.1 d.2.(c_accountName) d.2.(c_name) s).
  { intros n [i d] Hd%(subseteq_take n)%(subseteq_take _). rewrite sort_perm in Hd.
    apply elem_find in Hd as [Hd _]. exists d. split; [done|by apply is_container_key]. }
  destruct (_ <=? max).
  - eapply steps_then_ret, settle_containers_steps. intros d Hd. apply (Hds (length docs)). by rewrite firstn_all.
  - destruct (if Nat.leb 2 _ then _ else _); [|apply steps_throw].
    eapply steps_then_ret, settle_containers_steps. apply Hds.
Qed.

Lemma createContainer_steps d s : steps L s (createContainer ctx d) anything.
Proof.
  unfold createContainer. statement. destruct (findOne _ _) as [e|]; [apply steps_throw|].
  apply steps_update; [|done]. intros _.
  assert (vw (set_containers (lk_insert d s.(containers)) s)
    = put_containers (<[max_id s.(containers) + 1 := d]> (vw s).(vc)) (vw s)) as Hv
    by (unfold vw, put_containers; cbn; by rewrite docs_insert).
  cbn. rewrite Hv. apply rtc_once, c_containers. intros a c (k&e&Hk&He). exists k, e. cbn.
  rewrite lookup_insert_ne; [done|]. intros <-. cbn in Hk.
  pose proof (docs_max s.(containers) _ (mk_is_Some _ _ Hk)). lia.
Qed.

Lemma steps_existing_container s o :
  steps L s (existing_container ctx o) (fun d s' => s' = s /\ o = Some d).
Proof. unfold existing_container. destruct o; [by apply steps_ret|apply steps_throw]. Qed.

(** What the methods that take a container out of the collection begin with. *)
Ltac container_statement :=
  lazymatch goal with
  | |- steps _ _ (getContainerWithLeaseUpdated _ _ _ _ ≫= _) _ =>
      eapply steps_bind; [apply get_container_steps|]; intros o s1 Hd
  | |- steps _ _ (container_conditions _ _ _ ≫= _) _ =>
      eapply steps_bind; [apply steps_lift_same|]; intros [] ? [-> _]
  | |- steps _ ?s1 (container_lease_allows _ _ _ _ ≫= _) _ =>
      eapply (steps_bind _ _ _ (fun _ s' => s' = s1));
        [unfold container_lease_allows; statement; apply steps_lift; done|]; intros [] ? ->
  | |- steps _ _ (existing_container _ ?o ≫= _) _ =>
      let i := fresh "i" in let d := fresh "d" in
      eapply steps_bind; [apply steps_existing_container|]; intros [i d] ? [-> ->]; cbn [fst snd] in *
  | |- _ => statement
  end.

Lemma getContainerProperties_steps a c acc s : steps L s (getContainerProperties ctx a c acc) anything.
Proof. unfold getContainerProperties. repeat container_statement. Qed.

Lemma getContainerACL_steps a c acc s : steps L s (getContainerACL ctx a c acc) anything.
Proof. unfold getContainerACL. repeat container_statement. Qed.

Lemma setContainerMetadata_steps a c t e md acc mac s :
  steps L s (setContainerMetadata ctx a c t e md acc mac) anything.
Proof.
  unfold setContainerMetadata. repeat container_statement. destruct Hd as [Hi Hd].
  by eapply steps_anything, save_container_steps.
Qed.

Lemma setContainerACL_steps a c t e pa acl acc mac s :
  steps L s (setContainerACL ctx a c t e pa acl acc mac) anything.
Proof.
  unfold setContainerACL. repeat container_statement. destruct Hd as [Hi Hd].
  by eapply steps_anything, save_container_steps.
Qed.

Lemma container_lease_steps a c mac op s : steps L s (container_lease ctx a c mac op) anything.
Proof.
  unfold container_lease, getContainer.
  eapply (steps_bind _ _ _ (fun o s' => match o with
    | Some d => container_at d.1 a c s' /\ is_container a c d.2 = true
    | None => True
    end)).
  - statement. destruct (findOne _ _) as [d|] eqn:Hf; [|by apply steps_ret].
    apply steps_ret. by apply container_found.
  - intros o s1 Hd. do 5 container_statement. destruct Hd as [Hi Hd].
    by eapply steps_then_ret, save_container_steps.
Qed.

Lemma deleteContainer_steps a c acc mac s :
  L.(l_drops) = true -> steps L s (deleteContainer ctx a c acc mac) anything.
Proof.
  intros HL. unfold deleteContainer. repeat container_statement. destruct Hd as [(d'&Hi&Hd') Hd].
  intros Hs. run. split; [|done]. apply rtc_once. cbn.
  match goal with |- db_change _ _ ?w =>
    assert (w = mkView (delete i (vw s1).(vc)) (filter (fun e => in_container a c e.2 = false) (vw s1).(vb))
      w.(vk) (vw s1).(va) (vw s1).(vr) (vw s1).(vm)) as ->
  end.
  - pose proof (vw_remove (in_container a c) s1) as Hv. unfold vw, put_blobs in Hv |- *. cbn in Hv |- *.
    injection Hv as Hb Hm. by rewrite docs_remove, Hb, Hm.
  - apply (c_drop L (vw s1) a c).
    + done.
    + apply map_filter_subseteq.
    + intros j b Hj. rewrite map_lookup_filter, Hj. cbn. destruct (in_container a c b).
      * by rewrite option_guard_False.
      * by rewrite option_guard_True.
    + intros a' c' (k&e&Hk&He). destruct (decide (k = i)) as [->|Hne].
      * left. rewrite Hi in Hk. injection Hk as <-. rewrite is_container_key in *. intuition congruence.
      * right. exists k, e. cbn. by rewrite lookup_delete_ne.
Qed.

(** ** Accounts *)

Lemma setServiceProperties_steps p s : steps L s (setServiceProperties p) anything.
Proof. unfold setServiceProperties. statement. by destruct (findOne _ _) as [[i d]|]; apply steps_update. Qed.

Lemma getServiceProperties_steps a s : steps L s (BlobContainers.getServiceProperties (P := P) a) anything.
Proof. by apply read_steps. Qed.
End Methods.
