(* ===== verification/BlobRequests.v ===== *)
(** * BlobRequests: the requests of the blob metadata store

    One constructor per method of BlobStore and BlobContainers, with the arrays a
    handler makes for a new document, what the handlers see to before they call
    the method, and the licence of each request: the lease ids it presents and
    what it is. [request_changes] is the refinement: a request, whatever it
    returns or throws, makes only the changes its licence allows. *)

From stdpp Require Import relations.
From S2P Require Import Prelude Errors Extents Loki TagQuery Conditions Lease LeaseSpec PageRanges PageRangesSpec.
From S2P Require Import BlobModels BlobContainers BlobStore BlobChanges BlobRefine.
Open Scope Z_scope.
Open Scope azurite_scope.

Abbreviation Id := (option string).
Abbreviation Mac := (option ModifiedAccessConditions).

Inductive request (P : Type) :=
| RSetServiceProperties (p : ServicePropertiesModel P)
| RGetServiceProperties (a : string)
| RListContainers (a prefix : string) (max : Z) (marker : string)
| RCreateContainer (c : ContainerModel)
| RGetContainerProperties (a c : string) (acc : Id)
| RDeleteContainer (a c : string) (acc : Id) (mac : Mac)
| RSetContainerMetadata (a c : string) (t : Z) (etag : string) (md : option (list (string * string)))
    (acc : Id) (mac : Mac)
| RGetContainerACL (a c : string) (acc : Id)
| RSetContainerACL (a c : string) (t : Z) (etag : string) (public : option string)
    (acl : option (list AccessPolicy)) (acc : Id) (mac : Mac)
| RContainerLease (a c : string) (op : lease_op) (mac : Mac)
| RCheckBlob (a c n : string) (sn : option string)
| RBlobType (a c n : string) (sn : option string)
| RCreateBlob (b : BlobModel) (bl : option (list PersistencyBlockModel))
    (rg : option (list PersistencyPageRange)) (acc : Id) (mac : Mac)
| RCreateSnapshot (a c n : string) (acc : Id) (md : option (list (string * string))) (mac : Mac)
| RDownload (a c n : string) (sn : option string) (acc : Id) (mac : Mac)
| RProperties (a c n : string) (sn : option string) (acc : Id) (mac : Mac)
| RDelete (a c n : string) (sn : option string) (del : option DeleteSnapshotsOptionType) (acc : Id) (mac : Mac)
| RSetHTTPHeaders (a c n : string) (acc : Id) (h : option BlobHTTPHeaders) (mac : Mac)
| RSetMetadata (a c n : string) (acc : Id) (md : option (list (string * string))) (mac : Mac)
| RSetTags (a c n : string) (sn : option string) (acc : Id) (tags : option (list BlobTag))
| RGetTags (a c n : string) (sn : option string) (acc : Id) (mac : Mac)
| RSetTier (a c n tier : string) (acc : Id)
| RSeal (a c n : string) (acc : Id) (mac : Mac)
| RLease (a c n : string) (op : lease_op) (mac : Mac)
| RStageBlock (b : BlockModel) (acc : Id)
| RAppendBlock (b : BlockModel) (acc : Id) (mac : Mac) (ap : AppendPositionAccessConditions)
| RCommitBlockList (b : BlobModel) (l : list (string * string)) (acc : Id) (mac : Mac)
| RGetBlockList (a c n : string) (sn : option string) (committed : option bool) (acc : Id) (mac : Mac)
| RUploadPages (b : BlobModel) (start end_ : Z) (p : IExtentChunk) (acc : Id) (mac : Mac)
    (snac : option SequenceNumberAccessConditions)
| RClearRange (b : BlobModel) (start end_ : Z) (acc : Id) (mac : Mac)
    (snac : option SequenceNumberAccessConditions)
| RGetPageRanges (a c n : string) (sn : option string) (acc : Id) (mac : Mac)
| RResize (a c n : string) (len : Z) (acc : Id) (mac : Mac)
| RSequenceNumber (a c n : string) (act : SequenceNumberActionType) (num : option Z) (acc : Id) (mac : Mac)
| RStartCopy (src dst : BlobId) (url : string) (md : option (list (string * string)))
    (tier : option string) (o : CopyOptions)
| RCopyFromURL (src dst : BlobId) (url : string) (md : option (list (string * string)))
    (tier : option string) (o : CopyOptions)
| RListAllBlobs (max : Z) (marker : string) (snapshots uncommitted : bool)
| RListUncommitted (marker : option Z) (max : Z).

Arguments RSetServiceProperties {P}.
Arguments RGetServiceProperties {P}.
Arguments RListContainers {P}.
Arguments RCreateContainer {P}.
Arguments RGetContainerProperties {P}.
Arguments RDeleteContainer {P}.
Arguments RSetContainerMetadata {P}.
Arguments RGetContainerACL {P}.
Arguments RSetContainerACL {P}.
Arguments RContainerLease {P}.
Arguments RCheckBlob {P}.
Arguments RBlobType {P}.
Arguments RCreateBlob {P}.
Arguments RCreateSnapshot {P}.
Arguments RDownload {P}.
Arguments RProperties {P}.
Arguments RDelete {P}.
Arguments RSetHTTPHeaders {P}.
Arguments RSetMetadata {P}.
Arguments RSetTags {P}.
Arguments RGetTags {P}.
Arguments RSetTier {P}.
Arguments RSeal {P}.
Arguments RLease {P}.
Arguments RStageBlock {P}.
Arguments RAppendBlock {P}.
Arguments RCommitBlockList {P}.
Arguments RGetBlockList {P}.
Arguments RUploadPages {P}.
Arguments RClearRange {P}.
Arguments RGetPageRanges {P}.
Arguments RResize {P}.
Arguments RSequenceNumber {P}.
Arguments RStartCopy {P}.
Arguments RCopyFromURL {P}.
Arguments RListAllBlobs {P}.
Arguments RListUncommitted {P}.

(** ** What a request may do *)

(** The lease ids a request presents: in its access conditions, or as those of a
    lease operation. *)
Definition op_ids (op : lease_op) : list string :=
  match op with
  | OpAcquire _ _ p => [default EmptyString p]
  | OpBreak _ => []
  | OpRenew i | OpRelease i => [i]
  | OpChange i p => [i; p]
  end.

Definition ids {P} (r : request P) : list string :=
  match r with
  | RCreateBlob _ _ _ acc _ | RCreateSnapshot _ _ _ acc _ _ | RDelete _ _ _ _ _ acc _
  | RSetHTTPHeaders _ _ _ acc _ _ | RSetMetadata _ _ _ acc _ _ | RSetTags _ _ _ _ acc _
  | RSetTier _ _ _ _ acc | RSeal _ _ _ acc _ | RStageBlock _ acc | RAppendBlock _ acc _ _
  | RCommitBlockList _ _ acc _ | RUploadPages _ _ _ _ acc _ _ | RClearRange _ _ _ acc _ _
  | RResize _ _ _ _ acc _ | RSequenceNumber _ _ _ _ _ acc _ => option_list acc
  | RLease _ _ _ op _ => op_ids op
  | RStartCopy _ _ _ _ _ o | RCopyFromURL _ _ _ _ _ o => option_list o.(co_leaseAccessId)
  | _ => []
  end.

(** The service compares lease ids without their case. *)
Definition presents {P} (r : request P) (id : string) : bool :=
  existsb (fun i => toLowerCase i === toLowerCase id) (ids r).

Definition breaks {P} (r : request P) : bool :=
  match r with RLease _ _ _ op _ => is_break op | _ => false end.
Definition copies {P} (r : request P) : bool :=
  match r with RStartCopy _ _ _ _ _ _ | RCopyFromURL _ _ _ _ _ _ => true | _ => false end.
Definition drops {P} (r : request P) : bool :=
  match r with RDeleteContainer _ _ _ _ => true | _ => false end.

Definition licence {P} (now : Z) (r : request P) : Licence :=
  mkLicence now (presents r) (breaks r) (copies r) (drops r).

(** ** What the handlers see to *)

(** A new base blob; its arrays are the request's. *)
Definition new_base (b : BlobModel) : Prop :=
  b.(b_snapshot) = EmptyString /\ unleased b.(b_lease).

Definition request_ok {P} (r : request P) : Prop :=
  match r with
  | RCreateBlob b _ rg _ _ =>
      new_base b /\ wf (default [] rg) /\ (b.(b_properties).(bp_blobType) = Some PageBlob -> is_Some rg)
  | RCommitBlockList b _ _ _ =>
      new_base b /\ b.(b_committedBlocksInOrder) = None /\ b.(b_pageRangesInOrder) = None /\
      b.(b_properties).(bp_blobType) <> Some PageBlob
  | RUploadPages b x y p _ _ _ => b.(b_snapshot) = EmptyString /\ range_ok (mkRange x y p)
  | RClearRange b x y _ _ _ => b.(b_snapshot) = EmptyString /\ 0 <= x <= y
  | RResize _ _ _ len _ _ => 0 <= len
  | _ => True
  end.

(** ** Running a request *)

Section Run.
Context {coll : Type -> Type} `{Loki coll} {P : Type}.
Abbreviation db := (BlobDb coll P).
Abbreviation store := (proc db exn).

Definition no_result {A} (m : store A) : store unit := _ ← m; mret tt.

(** The array literals of a new document. *)
Definition with_arrays (b : BlobModel) (bl : option (list PersistencyBlockModel))
    (rg : option (list PersistencyPageRange)) : store BlobModel :=
  br ← match bl with Some l => r ← new_blocks l; mret (Some r) | None => mret None end;
  rr ← match rg with Some l => r ← new_ranges l; mret (Some r) | None => mret None end;
  mret (with_ranges rr (with_blocks br b)).

Definition container_lease_op (env : Env) (ctx : BlobContext) (a c : string) (mac : Mac) (op : lease_op) :
    store unit :=
  match op with
  | OpAcquire _ d p => no_result (acquireContainerLease env ctx a c d p mac)
  | OpBreak p => no_result (breakContainerLease ctx a c p mac)
  | OpRenew i => no_result (renewContainerLease ctx a c i mac)
  | OpChange i p => no_result (changeContainerLease ctx a c i p mac)
  | OpRelease i => no_result (releaseContainerLease ctx a c i mac)
  end.

Definition blob_lease_op (env : Env) (ctx : BlobContext) (a c n : string) (mac : Mac) (op : lease_op) :
    store unit :=
  match op with
  | OpAcquire _ d p => no_result (acquireBlobLease env ctx a c n d p mac)
  | OpBreak p => no_result (breakBlobLease ctx a c n p mac)
  | OpRenew i => no_result (renewBlobLease ctx a c n i mac)
  | OpChange i p => no_result (changeBlobLease ctx a c n i p mac)
  | OpRelease i => no_result (releaseBlobLease ctx a c n i mac)
  end.

Definition run_request (env : Env) (ctx : BlobContext) (r : request P) : store unit :=
  match r with
  | RSetServiceProperties p => setServiceProperties p
  | RGetServiceProperties a => no_result (BlobContainers.getServiceProperties a)
  | RListContainers a p n mk => no_result (listContainers ctx a p n mk)
  | RCreateContainer c => createContainer ctx c
  | RGetContainerProperties a c acc => no_result (getContainerProperties ctx a c acc)
  | RDeleteContainer a c acc mac => deleteContainer ctx a c acc mac
  | RSetContainerMetadata a c t e md acc mac => setContainerMetadata ctx a c t e md acc mac
  | RGetContainerACL a c acc => no_result (getContainerACL ctx a c acc)
  | RSetContainerACL a c t e pub acl acc mac => setContainerACL ctx a c t e pub acl acc mac
  | RContainerLease a c op mac => container_lease_op env ctx a c mac op
  | RCheckBlob a c n sn => checkBlobExist ctx a c n sn
  | RBlobType a c n sn => no_result (getBlobType a c n sn)
  | RCreateBlob b bl rg acc mac => b ← with_arrays b bl rg; createBlob ctx b acc mac
  | RCreateSnapshot a c n acc md mac => no_result (createSnapshot ctx a c n acc md mac)
  | RDownload a c n sn acc mac => no_result (downloadBlob ctx a c n sn acc mac)
  | RProperties a c n sn acc mac => no_result (getBlobProperties ctx a c n sn acc mac)
  | RDelete a c n sn del acc mac => deleteBlob ctx a c n sn del acc mac
  | RSetHTTPHeaders a c n acc h mac => no_result (setBlobHTTPHeaders env ctx a c n acc h mac)
  | RSetMetadata a c n acc md mac => no_result (setBlobMetadata env ctx a c n acc md mac)
  | RSetTags a c n sn acc t => setBlobTag ctx a c n sn acc t
  | RGetTags a c n sn acc mac => no_result (getBlobTag ctx a c n sn acc mac)
  | RSetTier a c n t acc => no_result (setTier ctx a c n t acc)
  | RSeal a c n acc mac => no_result (sealBlob env ctx a c n acc mac)
  | RLease a c n op mac => blob_lease_op env ctx a c n mac op
  | RStageBlock b acc => stageBlock env ctx b acc
  | RAppendBlock b acc mac ap => no_result (appendBlock env ctx b acc mac ap)
  | RCommitBlockList b l acc mac => commitBlockList ctx b l acc mac
  | RGetBlockList a c n sn com acc mac => no_result (getBlockList ctx a c n sn com acc mac)
  | RUploadPages b x y p acc mac snac => no_result (uploadPages env ctx b x y p acc mac snac)
  | RClearRange b x y acc mac snac => no_result (BlobStore.clearRange env ctx b x y acc mac snac)
  | RGetPageRanges a c n sn acc mac => no_result (getPageRanges ctx a c n sn acc mac)
  | RResize a c n len acc mac => no_result (resizePageBlob env ctx a c n len acc mac)
  | RSequenceNumber a c n act num acc mac => no_result (updateSequenceNumber env ctx a c n act num acc mac)
  | RStartCopy src dst url md t o => no_result (startCopyFromURL env ctx src dst url md t o)
  | RCopyFromURL src dst url md t o => no_result (copyFromURL env ctx src dst url md t o)
  | RListAllBlobs n mk sn un => no_result (listAllBlobs n mk sn un)
  | RListUncommitted mk n => no_result (listUncommittedBlockPersistencyChunks mk n)
  end.

(** A request that arrives, and a history of them; what a request throws goes
    to its client. *)
Record call := mkCall { at_env : Env; at_ctx : BlobContext; at_request : request P }.

Definition run_call (s : db) (k : call) : db := (run_request k.(at_env) k.(at_ctx) k.(at_request) s).2.
Definition run_calls (s : db) (ks : list call) : db := foldl run_call s ks.

Definition call_time (k : call) : Z := k.(at_ctx).(bc_startTime).
Definition call_licence (k : call) : Licence := licence (call_time k) k.(at_request).
End Run.
Arguments call : clear implicits.

(** ** The refinement *)

Section Changes.
Context {coll : Type -> Type} `{LokiLaws coll} {P : Type}.
Abbreviation db := (BlobDb coll P).
Implicit Types (s : db) (q : request P).

Lemma covers_ids t q acc : ids q = option_list acc -> covers (licence t q) acc.
Proof.
  intros Hr a id -> Ha. cbn. unfold presents. rewrite Hr. cbn. by rewrite bool_decide_eq_true_2.
Qed.

Lemma covers_lease_op t q op :
  breaks q = is_break op -> ids q = op_ids op -> covers_op (licence t q) op.
Proof.
  intros Hb Hr. unfold covers_op. destruct (is_break op) eqn:He; [done|].
  intros id Hq. cbn. unfold presents. rewrite Hr. apply existsb_exists.
  exists id. rewrite bool_decide_eq_true_2 by done. split; [|done].
  destruct op; cbn in *; rewrite ?orb_true_iff, ?bool_decide_eq_true in Hq; naive_solver.
Qed.

Lemma steps_no_result {A} (L : Licence) s (m : proc db exn A) :
  steps L s m anything -> steps L s (no_result m) anything.
Proof. apply steps_then_ret. Qed.

(** A new document gets arrays nobody has. *)
Lemma with_arrays_steps (L : Licence) b bl rg s :
  L.(l_copies) = false -> new_base b -> wf (default [] rg) ->
  (b.(b_properties).(bp_blobType) = Some PageBlob -> is_Some rg) ->
  steps L s (with_arrays b bl rg) (fun b' s' => new_doc s' b').
Proof.
  intros HL [Hsn Hun] Hrg Hpg. unfold with_arrays.
  eapply (steps_bind _ _ _ (fun br s1 => forall r : Ref, br = Some r -> is_Some ((vw s1).(va) !! r) /\
    forall j c, (vw s1).(vb) !! j = Some c -> c.(b_committedBlocksInOrder) <> Some r)).
  { destruct bl as [l|]; [|by apply steps_ret]. eapply steps_bind; [by apply steps_new_blocks|].
    intros r s1 [Hv Hno]. apply steps_ret. intros ? [= <-]. rewrite Hv. cbn. by rewrite lookup_insert_eq. }
  intros br s1 Hbr.
  eapply (steps_bind _ _ _ (fun rr s2 => (vw s2).(va) = (vw s1).(va) /\ (vw s2).(vb) = (vw s1).(vb) /\
    (is_Some rg -> is_Some rr) /\ forall r : Ref, rr = Some r -> is_Some ((vw s2).(vr) !! r) /\
    forall j c, (vw s2).(vb) !! j = Some c -> c.(b_pageRangesInOrder) <> Some r)).
  { destruct rg as [l|]; [|by apply steps_ret; split_and!]. eapply steps_bind; [by apply steps_new_ranges|].
    intros r s2 [Hv Hno]. apply steps_ret. rewrite Hv. split_and!; [done..|by eexists|]. intros ? [= <-]. cbn.
    by rewrite lookup_insert_eq. }
  intros rr s2 (Ha&Hb&Hsm&Hrr). apply steps_ret. split_and!; [done| | |].
  - destruct Hun; by eexists.
  - split_and!; cbn; [intros r ->|intros r ->; by apply Hrr|intros Ht; by apply Hsm, Hpg].
    change (is_Some ((vw s2).(va) !! r)). rewrite Ha. by apply Hbr.
  - intros j c r Hj. cbn. split; intros ->; [|by eapply (proj2 (Hrr r eq_refl))].
    rewrite Hb in Hj. by eapply (proj2 (Hbr r eq_refl)).
Qed.

Lemma container_lease_op_steps (L : Licence) env ctx a c mac op s :
  steps L s (container_lease_op env ctx a c mac op) anything.
Proof.
  destruct op; apply steps_no_result; try (eapply steps_then_ret); apply container_lease_steps.
Qed.

Lemma blob_lease_op_steps (L : Licence) env ctx a c n mac op s :
  ctx.(bc_startTime) = L.(l_now) -> covers_op L op -> steps L s (blob_lease_op env ctx a c n mac op) anything.
Proof.
  intros Hnow Hop. destruct op; apply steps_no_result; (try eapply steps_then_ret).
  - exact (blob_lease_steps L ctx Hnow a c n mac (OpAcquire (BlobModels.uuid env) duration proposed) s Hop).
  - exact (blob_lease_steps L ctx Hnow a c n mac (OpBreak period) s Hop).
  - exact (blob_lease_steps L ctx Hnow a c n mac (OpRenew id) s Hop).
  - exact (blob_lease_steps L ctx Hnow a c n mac (OpChange id proposed) s Hop).
  - exact (blob_lease_steps L ctx Hnow a c n mac (OpRelease id) s Hop).
Qed.

Lemma base_new_doc s b :
  new_base b -> b.(b_committedBlocksInOrder) = None -> b.(b_pageRangesInOrder) = None ->
  b.(b_properties).(bp_blobType) <> Some PageBlob -> new_doc s b.
Proof.
  intros [Hsn Hun] H1 H2 H3. split_and!; [done|by destruct Hun; eexists| |].
  - split_and!; rewrite ?H1, ?H2; [done|done|by intros Ht].
  - by intros j c r _; split; rewrite ?H1, ?H2.
Qed.

Create HintDb steps.
#[local] Hint Resolve setBlobMetadata_steps setBlobHTTPHeaders_steps setTier_steps setBlobTag_steps
  downloadBlob_steps getBlobTag_steps getBlobProperties_steps sealBlob_steps deleteBlob_steps
  createSnapshot_steps stageBlock_steps getBlockList_steps appendBlock_steps uploadPages_steps
  clearRange_steps getPageRanges_steps updateSequenceNumber_steps resizePageBlob_steps
  startCopyFromURL_steps copyFromURL_steps checkBlobExist_steps getBlobType_steps listAllBlobs_steps
  listUncommitted_steps listContainers_steps createContainer_steps getContainerProperties_steps
  getContainerACL_steps setContainerMetadata_steps setContainerACL_steps deleteContainer_steps
  setServiceProperties_steps getServiceProperties_steps container_lease_op_steps
  steps_no_result : steps.
#[local] Hint Extern 1 (covers (licence _ _) _) => by apply covers_ids : steps.

Lemma run_request_steps env ctx q s :
  request_ok q -> steps (licence ctx.(bc_startTime) q) s (run_request env ctx q) anything.
Proof.
  intros Hq. assert (Hnow : ctx.(bc_startTime) = l_now (licence ctx.(bc_startTime) q)) by done.
  destruct q; cbn [run_request]; try solve [eauto with steps].
  - destruct Hq as (?&?&?). eapply steps_bind; [by apply with_arrays_steps|]. intros b' s' Hb'.
    apply createBlob_steps; [done|by apply covers_ids|done].
  - apply blob_lease_op_steps; [done|]. by apply covers_lease_op.
  - destruct Hq as (?&?&?&?). apply commitBlockList_steps; [done|done|by apply covers_ids|by apply base_new_doc|done|done].
  - destruct Hq. apply steps_no_result. by apply uploadPages_steps; [..|apply covers_ids| |].
  - destruct Hq. apply steps_no_result. by apply clearRange_steps; [..|apply covers_ids| |].
Qed.
End Changes.
