(* ===== verification/BlobStoreSpec.v ===== *)
(** * BlobStoreSpec: theorems about the blob metadata store

    What holds after any history of requests, whoever sends them and whether they
    succeed: the invariant of the store, that a lease protects a blob, that
    snapshots do not change. Then the results of single methods: committing block
    lists, appending, staging, copying. *)

From stdpp Require Import relations.
From S2P Require Import Prelude Errors Extents Loki TagQuery Conditions Lease LeaseSpec PageRanges PageRangesSpec.
From S2P Require Import BlobModels BlobContainers BlobStore BlobChanges BlobRefine BlobRequests.
Open Scope Z_scope.
Open Scope azurite_scope.

(** ** Histories *)

Section Histories.
Context {coll : Type -> Type} `{LokiLaws coll} {P : Type}.
Abbreviation db := (BlobDb coll P).
Implicit Types (s : db) (k : call P) (ks : list (call P)).

(** The documents of the store are in order, and no two share an array. *)
Definition store_ok s : Prop := view_ok (vw s).
Definition own_arrays s : Prop := unshared (vw s).

(** All there is to a blob but its lease and the count of its tags. *)
Definition content s (b : BlobModel) :
    BlobModel * list PersistencyBlockModel * list PersistencyPageRange :=
  (core b, blocks_of b s, ranges_of b s).
Definition frozen_content s (b : BlobModel) :
    BlobModel * list PersistencyBlockModel * list PersistencyPageRange :=
  (frozen b, blocks_of b s, ranges_of b s).

Definition call_ok k : Prop := request_ok k.(at_request).
Definition no_copy k : Prop := copies k.(at_request) = false.

Lemma run_call_changes s k :
  call_ok k -> store_ok s -> rtc (db_change (call_licence k)) (vw s) (vw (run_call s k)).
Proof. intros Hk Hs. apply (run_request_steps k.(at_env) k.(at_ctx) k.(at_request) s Hk Hs). Qed.

Lemma call_store_ok s k : call_ok k -> store_ok s -> store_ok (run_call s k).
Proof. intros Hk Hs. eapply changes_ok; [exact Hs|]. by apply run_call_changes. Qed.

Lemma run_history s ks :
  Forall call_ok ks -> store_ok s -> history (call_licence <$> ks) (vw s) (vw (run_calls s ks)).
Proof.
  intros Hok. revert s. induction Hok as [|k ks Hk _ IH]; intros s Hs; [constructor|].
  pose proof (run_call_changes s k Hk Hs) as Hr. eapply history_cons; [exact Hr|].
  by apply (IH (run_call s k)), call_store_ok.
Qed.

Lemma run_call_keeps s k :
  call_ok k -> no_copy k -> store_ok s -> own_arrays s -> store_ok (run_call s k) /\ own_arrays (run_call s k).
Proof.
  intros Hk Hc Hs Hu. split; [by apply call_store_ok|].
  by apply (history_unshared _ _ _ (run_history s [k] (proj2 (Forall_singleton _ k) Hk) Hs));
    [apply Forall_singleton|..].
Qed.

Lemma licences_no_copies ks : Forall no_copy ks -> Forall no_copies (call_licence <$> ks).
Proof. intros Hc. by apply Forall_fmap. Qed.

(** after any requests, every blob and snapshot is in a container that
    exists, has exactly one base blob and a valid lease, a snapshot has none, a page
    blob has page ranges, the lists they refer to exist, and page ranges are sorted
    and disjoint; without copies no two documents share a list. *)
Theorem blob_store_invariant s ks
    (Hs : store_ok s) (Hok : Forall call_ok ks) :
  store_ok (run_calls s ks) /\
  (Forall no_copy ks -> own_arrays s -> own_arrays (run_calls s ks)).
Proof.
  pose proof (run_history s ks Hok Hs) as Hh. split; [by eapply history_ok|].
  intros Hc Hu. eapply history_unshared; [exact Hh|by apply licences_no_copies|done..].
Qed.

(** ** Leases *)

(** while a blob is leased, requests that do not present the id of the lease,
    other than breaking the lease or deleting the container, change neither the
    blob's properties, metadata and tags nor its content. *)
Theorem leased_blob_protected s ks i b v id
    (Hs : store_ok s) (Hu : own_arrays s) (Hok : Forall call_ok ks) (Hc : Forall no_copy ks)
    (Htime : StronglySorted (fun k k' => call_time k <= call_time k') ks)
    (Hi : docs s.(blobs) !! i = Some b) (Hb : b.(b_snapshot) = EmptyString) (Hl : leased b.(b_lease) v)
    (Hheld : Forall (fun k => holder (settle (call_time k) v) = Some id) ks)
    (Hothers : Forall (fun k => presents k.(at_request) id = false /\
       breaks k.(at_request) = false /\ drops k.(at_request) = false) ks) :
  exists b', docs (run_calls s ks).(blobs) !! i = Some b' /\ content (run_calls s ks) b' = content s b.
Proof.
  destruct (history_held (call_licence <$> ks) (vw s) (vw (run_calls s ks)) i b v id)
    as (b'&?&Hcore&[A1 A2]); try by first [apply run_history|apply licences_no_copies|apply Forall_fmap|assumption].
  - clear -Htime. induction Htime; cbn; constructor; [done|]. by apply Forall_fmap.
  - exists b'. split; [done|]. unfold content. rewrite Hcore. by f_equal; [f_equal|].
Qed.

(** ** Snapshots *)

(** a snapshot, as long as it is not deleted, keeps its content, properties
    and metadata through any requests without copies; once deleted, its document
    never comes back. *)
Theorem snapshot_immutable s ks i b
    (Hs : store_ok s) (Hu : own_arrays s) (Hok : Forall call_ok ks) (Hc : Forall no_copy ks)
    (Hi : docs s.(blobs) !! i = Some b) (Hb : b.(b_snapshot) <> EmptyString) :
  match docs (run_calls s ks).(blobs) !! i with
  | Some b' => frozen_content (run_calls s ks) b' = frozen_content s b
  | None => forall later, Forall call_ok later ->
      docs (run_calls (run_calls s ks) later).(blobs) !! i = None
  end.
Proof.
  pose proof (run_history s ks Hok Hs) as Hh.
  change (docs (run_calls s ks).(blobs)) with ((vw (run_calls s ks)).(vb)).
  destruct (history_snapshot _ _ _ i b Hh) as [[Hm Hn]|(b'&Hi'&Hf&[A1 A2])]; try done.
  - by apply licences_no_copies.
  - rewrite Hn. intros later Hl. pose proof (history_ok _ _ _ Hh Hs) as Hs'.
    exact (proj2 (history_gone _ _ _ i (run_history _ later Hl Hs') Hs' Hm Hn)).
  - rewrite Hi'. unfold frozen_content. rewrite Hf. by f_equal; [f_equal|].
Qed.
End Histories.

(** ** Outcomes

    What a method returns or throws, and the state it leaves. *)

Section Outcomes.
Context {S : Type}.

Definition outcome {A} (m : proc S exn A) (s : S) (Q : result exn A -> S -> Prop) : Prop := Q (m s).1 (m s).2.

Lemma outcome_bind {A B} (m : proc S exn A) (k : A -> proc S exn B) s Q :
  outcome m s (fun r s' => match r with Ok a => outcome (k a) s' Q | Throw e => Q (Throw e) s' end) ->
  outcome (m ≫= k) s Q.
Proof. unfold outcome. run. by destruct (m s) as [[a|e] s']. Qed.

Lemma outcome_lift {A} (r : res A) s (Q : result exn A -> S -> Prop) :
  (forall a, r = Ok a -> Q (Ok a) s) -> (forall e, r = Throw e -> Q (Throw e) s) -> outcome (lift r) s Q.
Proof. unfold outcome. cbn. destruct r; auto. Qed.

Lemma ok_throw {A} (r : res A) a e : r = Ok a -> r = Throw e -> False.
Proof. congruence. Qed.

Lemma outcome_ret {A} (a : A) s (Q : result exn A -> S -> Prop) : Q (Ok a) s -> outcome (mret a) s Q.
Proof. done. Qed.

Lemma outcome_throw {A} e s (Q : result exn A -> S -> Prop) : Q (Throw e) s -> outcome (throw e) s Q.
Proof. done. Qed.

Lemma outcome_get s (Q : result exn S -> S -> Prop) : Q (Ok s) s -> outcome get_state s Q.
Proof. done. Qed.
End Outcomes.

Lemma outcome_guard {coll P} ok e (s : BlobDb coll P) (Q : result exn unit -> BlobDb coll P -> Prop) :
  (ok = true -> Q (Ok tt) s) -> (ok = false -> Q (Throw e) s) -> outcome (guard ok e) s Q.
Proof. unfold outcome, guard. destruct ok; cbn; auto. Qed.

(** ** Opening a blob

    What [getBlobWithLeaseUpdated] returns for a base blob, and the state it
    leaves: the lease of the document is settled, nothing else. *)

Section Open.
Context {coll : Type -> Type} `{LokiLaws coll} {P : Type}.
Abbreviation db := (BlobDb coll P).
Implicit Types (s : db).

Definition base_at (a c n : string) s (i : Z) (b : BlobModel) : Prop :=
  docs s.(blobs) !! i = Some b /\ at_key a c n EmptyString b.

(** The contents of the documents are the same; so are the documents other than [i]. *)
Definition all_same s s' : Prop :=
  forall j, option_Forall2 (fun d d' => content s' d' = content s d) (docs s.(blobs) !! j) (docs s'.(blobs) !! j).
Definition others_same (i : Z) s s' : Prop :=
  forall j, j <> i -> docs s'.(blobs) !! j = docs s.(blobs) !! j /\
    forall d, docs s.(blobs) !! j = Some d -> content s' d = content s d.

(** No content and no staged block has changed. *)
Definition untouched s s' : Prop := all_same s s' /\ s'.(blocks) = s.(blocks).

Lemma all_same_refl s : all_same s s.
Proof. intros j. destruct (docs s.(blobs) !! j); by constructor. Qed.

Lemma untouched_refl s : untouched s s.
Proof. split; [apply all_same_refl|done]. Qed.

Lemma all_same_trans s s1 s2 : all_same s s1 -> all_same s1 s2 -> all_same s s2.
Proof.
  intros H1 H2 j. specialize (H1 j). specialize (H2 j). inversion H1 as [d d' Hd E1 E2|E1 E2];
    rewrite <- E2 in H2; inversion H2; constructor. congruence.
Qed.

(** The document with its lease settled at [now]. *)
Definition opened (now : Z) (b : BlobModel) : BlobModel :=
  with_lease (match createLeaseState (BlobLeaseAdapter b.(b_lease)).1 (mkContext (Some now) None) with
              | Ok st => sync st (BlobLeaseSyncer_sync (BlobLeaseAdapter b.(b_lease)).2)
              | Throw _ => (BlobLeaseAdapter b.(b_lease)).2
              end) b.

(** [s'] is [s] with the document opened. *)
Definition opens (now i : Z) (b : BlobModel) s s' : Prop :=
  vw s' = put_blob i (opened now b) (vw s) /\ s'.(blocks) = s.(blocks) /\
  s'.(block_arrays) = s.(block_arrays) /\ s'.(range_arrays) = s.(range_arrays).

Lemma base_unique a c n s i j b d : store_ok s -> base_at a c n s i b -> base_at a c n s j d -> i = j /\ b = d.
Proof.
  intros Hs [Hi (A1&A2&A3&A4)] [Hj (B1&B2&B3&B4)].
  assert (i = j) as -> by (apply (ok_base _ Hs i j b d Hi Hj); [repeat split; congruence|done..]).
  split; [done|congruence].
Qed.

Lemma findOne_base a c n s i b :
  store_ok s -> base_at a c n s i b -> findOne (is_blob a c n EmptyString) s.(blobs) = Some (i, b).
Proof.
  intros Hs [Hi Hk]. destruct (findOne _ _) as [[j d]|] eqn:Hf.
  - apply findOne_Some in Hf as [Hj Hd%is_blob_key].
    by destruct (base_unique a c n s i j b d Hs) as [-> ->].
  - pose proof (findOne_None _ _ Hf i b Hi) as Hn. apply not_true_iff_false in Hn. by rewrite is_blob_key in Hn.
Qed.

Lemma has_container_found a c s : has_container a c (vw s) -> is_Some (findOne (is_container a c) s.(containers)).
Proof.
  intros (k&d&Hk&Hd). destruct (findOne _ _) eqn:Hf; [done|].
  pose proof (findOne_None _ _ Hf k d Hk). congruence.
Qed.

Lemma check_eq ctx a c s :
  has_container a c (vw s) -> checkContainerExist ctx a c s = (Ok tt, s).
Proof. intros [d Hd]%has_container_found. unfold checkContainerExist. run. by rewrite Hd. Qed.

Lemma vw_save_twice i b d s :
  is_Some (docs s.(blobs) !! i) ->
  vw (set_blobs (lk_update i d (lk_update i b s.(blobs))) s) = put_blob i d (vw s).
Proof.
  intros Hi. assert (Hi' : is_Some (docs (lk_update i b s.(blobs)) !! i)) by by rewrite docs_update, lookup_insert_eq.
  unfold vw, put_blob, put_blobs. cbn. by rewrite docs_update, max_update, docs_update, max_update, insert_insert_eq.
Qed.

Lemma open_eq ctx a c n fe fc s i b :
  store_ok s -> base_at a c n s i b -> (fc = true -> b.(b_isCommitted) = true) ->
  exists s', getBlobWithLeaseUpdated ctx a c n None fe fc s
      = (Ok (Some (i, opened ctx.(bc_startTime) b)), s') /\ opens ctx.(bc_startTime) i b s s'.
Proof.
  intros Hs Hb Hc. pose proof Hb as [Hi (<-&<-&<-&Hsn)]. destruct (ok_blob _ Hs i b Hi) as [B1 _ [v [Hv Hl]] _ _].
  unfold getBlobWithLeaseUpdated, opens. cbn [default]. run. rewrite (check_eq ctx _ _ s B1).
  rewrite (findOne_base _ _ _ s i b Hs Hb).
  assert (fc && negb b.(b_isCommitted) = false) as -> by (destruct fc; [by rewrite Hc|done]).
  unfold opened, lease_ctx. rewrite Hl, adapter_view. cbn [fst snd].
  pose proof (adapter_settles ctx.(bc_contextId) ctx.(bc_startTime) v Hv) as H1.
  pose proof (adapter_settles None ctx.(bc_startTime) v Hv) as H2. rewrite adapter_view in H1, H2.
  cbn [fst] in H1, H2. rewrite H1, H2. eexists. split; [reflexivity|]. split_and!; [|done..].
  exact (vw_save_twice i _ _ s (mk_is_Some _ _ Hi)).
Qed.

(** All the outcomes for a base blob that may be missing. *)
Lemma open_cases ctx a c n fc s :
  store_ok s ->
  let r := getBlobWithLeaseUpdated ctx a c n None false fc s in
  (r = (Throw (BlobErrors.getContainerNotFound ctx.(bc_contextId)), s) /\ ~ has_container a c (vw s)) \/
  (r = (Ok None, s) /\ has_container a c (vw s) /\
   forall i b, base_at a c n s i b -> fc = true /\ b.(b_isCommitted) = false) \/
  (exists i b s', r = (Ok (Some (i, opened ctx.(bc_startTime) b)), s') /\
     base_at a c n s i b /\ (fc = true -> b.(b_isCommitted) = true) /\ opens ctx.(bc_startTime) i b s s').
Proof.
  intros Hs r. destruct (findOne (is_container a c) s.(containers)) as [[k d]|] eqn:Hco.
  2:{ left. unfold r, getBlobWithLeaseUpdated, checkContainerExist. run. rewrite Hco. split; [done|].
      intros [x Hx]%has_container_found. congruence. }
  right. apply findOne_Some in Hco. assert (Hc : has_container a c (vw s)) by by exists k, d.
  destruct (findOne (is_blob a c n EmptyString) s.(blobs)) as [[i b]|] eqn:Hf.
  - apply findOne_Some in Hf as [Hi Hk%is_blob_key]. assert (Hb : base_at a c n s i b) by done.
    destruct (fc && negb b.(b_isCommitted)) eqn:Hfc; [left|right].
    + unfold r, getBlobWithLeaseUpdated. cbn [default]. run. rewrite check_eq by done.
      rewrite (findOne_base _ _ _ _ _ _ Hs Hb), Hfc. apply andb_prop in Hfc as [-> Hfc%negb_true_iff].
      split_and!; [done..|]. intros j b' Hb'. by destruct (base_unique _ _ _ _ _ _ _ _ Hs Hb Hb') as [_ <-].
    + assert (Hcm : fc = true -> b.(b_isCommitted) = true) by (destruct fc, b.(b_isCommitted); done).
      destruct (open_eq ctx a c n false fc s i b Hs Hb Hcm) as (s'&He&Ho). by exists i, b, s'.
  - left. unfold r, getBlobWithLeaseUpdated. cbn [default]. run. rewrite check_eq, Hf by done.
    split_and!; [done..|]. intros i b [Hi Hb%is_blob_key]. pose proof (findOne_None _ _ Hf i b Hi). congruence.
Qed.

(** Opening leaves the contents alone. *)
Lemma opens_content i b s s' now :
  docs s.(blobs) !! i = Some b -> opens now i b s s' -> all_same s s'.
Proof.
  intros Hi (Hv&_&Ha&Hr) j. change (docs s'.(blobs)) with (vw s').(vb). rewrite Hv. cbn.
  assert (Hc : forall d, content s' d = content s d) by (intros d; unfold content, blocks_of, ranges_of; by rewrite Ha, Hr).
  destruct (decide (j = i)) as [->|Hne].
  - rewrite lookup_insert_eq, Hi. constructor. apply (Hc (opened now b)).
  - rewrite lookup_insert_ne by done. destruct (docs s.(blobs) !! j); constructor. apply Hc.
Qed.
End Open.

(** ** Appending *)

Section Append.
Context {coll : Type -> Type} `{LokiLaws coll} {P : Type}.
Abbreviation db := (BlobDb coll P).
Implicit Types (s : db).

Lemma base_container a c n s i b : store_ok s -> base_at a c n s i b -> has_container a c (vw s).
Proof. intros Hs [Hi (<-&<-&_)]. apply (bo_container _ _ (ok_blob _ Hs i b Hi)). Qed.

(** The conditional headers and the lease let the write through. *)
Definition write_allowed (ctx : BlobContext) (acc : Id) (mac : Mac) (b : BlobModel) : Prop :=
  validateWriteConditions ctx.(bc_contextId) mac (Some (condition_model b)) = Ok tt /\
  BlobWriteLeaseValidator acc (BlobLeaseAdapter (opened ctx.(bc_startTime) b).(b_lease)).1 (lease_ctx ctx) = Ok tt.

Definition append_allowed (ctx : BlobContext) (block : BlockModel) (acc : Id) (mac : Mac)
    (ap : AppendPositionAccessConditions) s (b : BlobModel) : Prop :=
  let length := default 0 b.(b_properties).(bp_contentLength) in
  b.(b_isCommitted) = true /\ write_allowed ctx acc mac b /\
  b.(b_properties).(bp_isSealed) <> Some true /\
  b.(b_properties).(bp_blobType) = Some AppendBlob /\
  Z.of_nat (List.length (blocks_of b s)) < MAX_APPEND_BLOB_BLOCK_COUNT /\
  (forall n, ap.(appendPosition) = Some n -> length = n) /\
  (forall n, ap.(maxSize) = Some n -> length + block.(bl_block).(block_size) <= n).

(** The document [i], new or not, gets the array [r] with the contents [l]. *)
Definition array_written (i : Z) (r : Ref) (l : list PersistencyBlockModel) (b' : BlobModel) s s' : Prop :=
  docs s'.(blobs) = <[i := b']> (docs s.(blobs)) /\ s'.(block_arrays) = <[r := l]> s.(block_arrays) /\
  s'.(range_arrays) = s.(range_arrays) /\ b'.(b_committedBlocksInOrder) = Some r.

Lemma array_written_effect a c n s f i r b' l :
  store_ok s -> array_written i r l b' s f -> at_key a c n EmptyString b' ->
  (s.(block_arrays) !! r = None \/
   exists b, docs s.(blobs) !! i = Some b /\ b.(b_committedBlocksInOrder) = Some r) ->
  base_at a c n f i b' /\ blocks_of b' f = l /\ (own_arrays s -> others_same i s f).
Proof.
  intros Hs (Hfb&Hfa&Hfr&Hr) Hk Hown. split_and!.
  - split; [by rewrite Hfb, lookup_insert_eq|done].
  - unfold blocks_of. rewrite Hr, Hfa. cbn. by rewrite lookup_insert_eq.
  - intros Hu j Hne. split; [by rewrite Hfb, lookup_insert_ne|]. intros d Hj.
    unfold content, blocks_of, ranges_of. rewrite Hfa, Hfr.
    destruct d.(b_committedBlocksInOrder) as [r'|] eqn:Hd; [|done]. cbn. rewrite lookup_insert_ne; [done|].
    intros <-. destruct Hown as [Hown|(b&Hi&Hown)].
    + destruct (bo_refs _ _ (ok_blob _ Hs j d Hj)) as [R1 _]. destruct (R1 _ Hd) as [x Hx]. cbn in Hx. congruence.
    + apply Hne. destruct (Hu i b Hi) as [H1 _]. exact (H1 _ Hown j d Hj Hd).
Qed.

Lemma opens_lookup now i b s s1 : opens now i b s s1 -> docs s1.(blobs) = <[i := opened now b]> (docs s.(blobs)).
Proof. intros [Hv _]. change (docs s1.(blobs)) with (vw s1).(vb). by rewrite Hv. Qed.

Lemma save_opened now i b b' s s1 :
  opens now i b s s1 ->
  docs (lk_update i b' s1.(blobs)) = <[i := b']> (docs s.(blobs)).
Proof.
  intros Ho. pose proof (opens_lookup _ _ _ _ _ Ho) as Hl.
  rewrite docs_update, Hl by by rewrite Hl, lookup_insert_eq. apply insert_insert_eq.
Qed.

(** The end of an append: the array, which is new if there was none, and the document. *)
Lemma stores_block {A} s s1 i b now o l (b' : Ref -> BlobModel) (x : A) Q :
  opens now i b s s1 -> (forall r, (b' r).(b_committedBlocksInOrder) = Some r) ->
  (forall s' r, o = Some r \/ (o = None /\ s.(block_arrays) !! r = None) ->
     array_written i r l (b' r) s s' -> s'.(blocks) = s.(blocks) -> Q (Ok x) s') ->
  outcome (r ← match o with Some r => mret r | None => new_blocks [] end;
           _ ← write_blocks r l; _ ← save_blob i (b' r); mret x) s1 Q.
Proof.
  intros Ho Hr HQ. pose proof Ho as (_&Hbl&Ha&Hra).
  assert (Hend : forall r m, o = Some r \/ (o = None /\ s1.(block_arrays) !! r = None) ->
    <[r := l]> m = <[r := l]> s1.(block_arrays) ->
    Q (Ok x) (set_blobs (lk_update i (b' r) s1.(blobs)) (set_block_arrays (<[r := l]> m) s1))).
  { intros r m Hown ->. rewrite Ha in Hown |- *. apply (HQ _ r Hown); [|done].
    split_and!; [by eapply save_opened|done..]. }
  unfold outcome. run. destruct o as [r|].
  - apply (Hend r); [by left|done].
  - unfold new_blocks. cbn. apply (Hend _ (<[_ := []]> s1.(block_arrays))).
    + right. split; [done|]. apply fresh_none.
    + apply insert_insert_eq.
Qed.

Lemma append_throws k ctx block acc mac ap s s1 i b :
  store_ok s -> k = base_at block.(bl_accountName) block.(bl_containerName) block.(bl_blobName) ->
  k s i b -> opens ctx.(bc_startTime) i b s s1 -> ~ append_allowed ctx block acc mac ap s b ->
  (forall i b, k s i b -> ~ append_allowed ctx block acc mac ap s b) /\ untouched s s1.
Proof.
  intros Hs -> Hb Ho Hn. split.
  - intros j d Hd. by destruct (base_unique _ _ _ _ _ _ _ _ Hs Hb Hd) as [_ <-].
  - split; [eapply opens_content; [apply Hb|exact Ho]|apply Ho].
Qed.

Definition appended_blob (env : Env) (ctx : BlobContext) (block : BlockModel) (b : BlobModel) : BlobProperties :=
  with_length (Some (default 0 b.(b_properties).(bp_contentLength) + block.(bl_block).(block_size)))
    (touch env.(newEtag) ctx.(bc_startTime) b.(b_properties)).

Lemma appendBlock_effect env ctx block acc mac ap s :
  store_ok s ->
  let k := base_at block.(bl_accountName) block.(bl_containerName) block.(bl_blobName) in
  outcome (appendBlock env ctx block acc mac ap) s (fun r s' => match r with
  | Ok p => exists i b b' r,
      k s i b /\ append_allowed ctx block acc mac ap s b /\ same_key b b' /\
      b'.(b_isCommitted) = true /\ b'.(b_persistency) = b.(b_persistency) /\ s'.(blocks) = s.(blocks) /\
      p = appended_blob env ctx block b /\ b'.(b_properties) = p /\
      (b.(b_committedBlocksInOrder) = Some r \/
       (b.(b_committedBlocksInOrder) = None /\ s.(block_arrays) !! r = None)) /\
      array_written i r (blocks_of b s ++ [block.(bl_block)]) b' s s'
  | Throw _ =>
      (forall i b, k s i b -> ~ append_allowed ctx block acc mac ap s b) /\ untouched s s'
  end).
Proof.
  intros Hs k. unfold appendBlock. apply outcome_bind. unfold outcome at 1.
  destruct (open_cases ctx block.(bl_accountName) block.(bl_containerName) block.(bl_blobName) true s Hs)
    as [[-> Hno]|[(->&Hc&Hno)|(i&b&s1&->&Hb&Hcm&Ho)]]; cbn [fst snd].
  - split; [|apply untouched_refl]. intros i b Hb. destruct Hno. by eapply base_container.
  - assert (Ht : (forall i b, k s i b -> ~ append_allowed ctx block acc mac ap s b) /\ untouched s s).
    { split; [|apply untouched_refl]. intros i b Hb [Hcm _]. destruct (Hno i b Hb). congruence. }
    apply outcome_bind, outcome_lift; intros _ _; [|exact Ht]. exact Ht.
  - specialize (Hcm eq_refl).
    assert (Ht : ~ append_allowed ctx block acc mac ap s b ->
      (forall i b, k s i b -> ~ append_allowed ctx block acc mac ap s b) /\ untouched s s1)
      by by eapply append_throws.
    assert (Hbl : blocks_of (opened ctx.(bc_startTime) b) s1 = blocks_of b s)
      by (destruct Ho as (_&_&Ha&_); unfold blocks_of; by rewrite Ha).
    apply outcome_bind, outcome_lift; [intros [] Hcond|intros e He; apply Ht; intros (_&[Hcond _]&_); exact (ok_throw _ _ _ Hcond He)].
    apply outcome_bind, outcome_ret.
    apply outcome_bind, outcome_lift; [intros [] Hlease|intros e He; apply Ht; intros (_&[_ Hl]&_); exact (ok_throw _ _ _ Hl He)].
    cbn [fst snd].
    apply outcome_bind, outcome_guard; intros Hseal; [|apply Ht; intros (_&_&Hn&_); by apply negb_false_iff, bool_decide_eq_true in Hseal].
    apply outcome_bind, outcome_guard; intros Htype; [|apply Ht; intros (_&_&_&Hn&_); by apply bool_decide_eq_false in Htype].
    apply outcome_bind, outcome_get. rewrite Hbl.
    apply outcome_bind, outcome_guard; intros Hcount; [|apply Ht; intros (_&_&_&_&Hn&_); by apply Z.ltb_ge in Hcount; lia].
    apply outcome_bind, outcome_guard; intros Hpos;
      [|apply Ht; intros (_&_&_&_&_&Hap&_); destruct (appendPosition ap) as [n|]; [|done];
        apply Z.eqb_neq in Hpos; exact (Hpos (Hap n eq_refl))].
    apply outcome_bind, outcome_guard; intros Hmax;
      [|apply Ht; intros (_&_&_&_&_&_&Hap); destruct (maxSize ap) as [n|]; [|done];
        apply Z.leb_gt in Hmax; specialize (Hap n eq_refl); cbn in Hmax; lia].
    clear Ht.
    assert (Hall : append_allowed ctx block acc mac ap s b).
    { unfold append_allowed, write_allowed. split_and!; [done|exact Hcond|exact Hlease| |by apply bool_decide_eq_true in Htype|by apply Z.ltb_lt|..].
      - apply negb_true_iff, bool_decide_eq_false in Hseal. exact Hseal.
      - intros n Hn. rewrite Hn in Hpos. by apply Z.eqb_eq.
      - intros n Hn. rewrite Hn in Hmax. by apply Z.leb_le. }
    eapply (stores_block s s1 i b _ _ _ (fun r => with_properties _ (with_blocks (Some r) _))); [exact Ho|done|].
    intros s' r Hown Hw Hbl'.
    eexists i, b, (with_properties _ (with_blocks (Some r) (written_lease (opened ctx.(bc_startTime) b)))), r.
    split_and!; [exact Hb|exact Hall|by repeat split|exact Hcm|reflexivity|exact Hbl'|reflexivity|reflexivity|exact Hown|exact Hw].
Qed.

(** C16. an append either throws, and then the blob did not allow it and no
    document's content has changed, or adds the block at the end of the blob's
    list, adds its size to the length, returns the new properties and changes no
    other document. *)
Theorem appendBlock_correct env ctx block acc mac ap s (Hs : store_ok s) :
  let k := base_at block.(bl_accountName) block.(bl_containerName) block.(bl_blobName) in
  outcome (appendBlock env ctx block acc mac ap) s (fun r s' => match r with
  | Ok p => exists i b b',
      k s i b /\ append_allowed ctx block acc mac ap s b /\
      k s' i b' /\ b'.(b_properties) = p /\
      blocks_of b' s' = blocks_of b s ++ [block.(bl_block)] /\
      p.(bp_contentLength)
        = Some (default 0 b.(b_properties).(bp_contentLength) + block.(bl_block).(block_size)) /\
      (own_arrays s -> others_same i s s')
  | Throw _ =>
      (forall i b, k s i b -> ~ append_allowed ctx block acc mac ap s b) /\ all_same s s'
  end).
Proof.
  intros k. pose proof (appendBlock_effect env ctx block acc mac ap s Hs) as He. unfold outcome in *.
  destruct (appendBlock _ _ _ _ _ _ s).1 as [p|e]; [|exact (conj (proj1 He) (proj1 (proj2 He)))].
  destruct He as (i&b&b'&r&Hb&Hall&[(N1&N2&N3) N4]&_&_&_&->&Hp&Hown&Hw). exists i, b, b'.
  pose proof Hb as [Hi (K1&K2&K3&K4)].
  destruct (array_written_effect block.(bl_accountName) block.(bl_containerName) block.(bl_blobName) _ _ _ _ _ _ Hs Hw) as (E1&E2&E3).
  - repeat split; congruence.
  - destruct Hown as [Hown|[_ Hown]]; [right; by exists b|by left].
  - by split_and!.
Qed.
End Append.

(** ** Committing a block list *)

(** The block of a name that was listed last. *)
Definition last_named (name : string) (l : list PersistencyBlockModel) : option PersistencyBlockModel :=
  last (filter (fun b => b.(block_name) = name) l).

(** What an entry of a block list stands for. *)
Inductive picked (committed uncommitted : list PersistencyBlockModel) : string * string -> PersistencyBlockModel -> Prop :=
| pick_uncommitted n t b :
    toLowerCase t = "uncommitted"%string -> last_named n uncommitted = Some b ->
    picked committed uncommitted (n, t) b
| pick_committed n t b :
    toLowerCase t = "committed"%string -> last_named n committed = Some b ->
    picked committed uncommitted (n, t) b
| pick_latest n t b :
    toLowerCase t = "latest"%string -> last_named n uncommitted = Some b ->
    picked committed uncommitted (n, t) b
| pick_latest_committed n t b :
    toLowerCase t = "latest"%string -> last_named n uncommitted = None -> last_named n committed = Some b ->
    picked committed uncommitted (n, t) b.

Lemma block_map_last l name : block_map l !! name = last_named name l.
Proof.
  unfold block_map, last_named. induction l as [|b l IH] using rev_ind; [done|].
  rewrite foldl_snoc, filter_app, filter_cons, filter_nil.
  destruct (decide (b.(block_name) = name)) as [<-|Hne].
  - by rewrite lookup_insert_eq, last_snoc.
  - by rewrite lookup_insert_ne, app_nil_r.
Qed.

Lemma select_block_picked ctx C U e :
  match select_block ctx (block_map C) (block_map U) e with
  | Ok b => picked C U e b
  | Throw _ => forall b, ~ picked C U e b
  end.
Proof.
  destruct e as [n t]. unfold select_block. rewrite !block_map_last.
  assert (Hd : forall u c x : string, toLowerCase t = u -> toLowerCase t = c -> u = c) by congruence.
  repeat case_bool_decide.
  1: destruct (last_named n U) eqn:HU; [by constructor|].
  2: destruct (last_named n C) eqn:HC; [by constructor|].
  3: destruct (last_named n U) eqn:HU; [by constructor|]; destruct (last_named n C) eqn:HC; [by constructor|].
  all: intros b Hp; inversion Hp; congruence.
Qed.

Lemma select_blocks_picked ctx C U l :
  match select_blocks ctx (block_map C) (block_map U) l with
  | Ok bs => Forall2 (picked C U) l bs
  | Throw _ => exists e, e ∈ l /\ forall b, ~ picked C U e b
  end.
Proof.
  induction l as [|e l IH]; [constructor|]. cbn [select_blocks].
  pose proof (select_block_picked ctx C U e) as He. destruct (select_block _ _ _ e) as [b|x]; cbn.
  - destruct (select_blocks _ _ _ l) as [bs|x]; cbn; [by constructor|].
    destruct IH as (e'&He'&Hno). exists e'. split; [by right|done].
  - exists e. split; [by left|done].
Qed.

Section Commit.
Context {coll : Type -> Type} `{LokiLaws coll} {P : Type}.
Abbreviation db := (BlobDb coll P).
Implicit Types (s : db).

(** The staged blocks of a blob. *)
Definition staged_of (a c n : string) s : list PersistencyBlockModel :=
  bl_block <$> List.filter (fun b => negb b.(bl_isCommitted))
    (lk_find (fun _ => is_block_of a c n) s.(blocks)).*2.

Definition committed_of (o : option (Z * BlobModel)) s : list PersistencyBlockModel :=
  match o with Some d => blocks_of d.2 s | None => [] end.

(** [o] is the base blob, if there is one. *)
Definition base_of (a c n : string) s (o : option (Z * BlobModel)) : Prop :=
  match o with Some d => base_at a c n s d.1 d.2 | None => forall i b, ~ base_at a c n s i b end.

Definition commit_allowed (ctx : BlobContext) (blob : BlobModel) (l : list (string * string)) (acc : Id)
    (mac : Mac) s (o : option (Z * BlobModel)) : Prop :=
  has_container blob.(b_accountName) blob.(b_containerName) (vw s) /\
  validateWriteConditions ctx.(bc_contextId) mac ((fun d => condition_model d.2) <$> o) = Ok tt /\
  (if_none_match_any mac = true -> forall d, o = Some d -> d.2.(b_isCommitted) = false) /\
  (forall d, o = Some d -> d.2.(b_properties).(bp_blobType) = Some BlockBlob /\ write_allowed ctx acc mac d.2) /\
  (forall e, e ∈ l -> exists b, picked (committed_of o s)
     (staged_of blob.(b_accountName) blob.(b_containerName) blob.(b_name) s) e b).

Lemma remove_found {A} (p : A -> bool) (c : coll A) j x :
  docs (remove_docs (lk_find (fun _ => p) c) c) !! j = Some x <-> docs c !! j = Some x /\ p x = false.
Proof.
  rewrite docs_remove_docs. case_bool_decide as Hj.
  - apply list_elem_of_fmap in Hj as ([k y]&->&Hy). apply elem_find in Hy as [Hy Hp]. cbn. split; [done|].
    intros [Hx Hpx]. congruence.
  - split; [|by intros [? _]]. intros Hx. split; [done|]. apply not_true_iff_false. intros Hp. apply Hj.
    apply list_elem_of_fmap. exists (j, x). split; [done|]. by apply (elem_find (fun _ => p)).
Qed.

(** The type and the etag are those of the request; a blob that was put in one piece
    keeps the chunk of that. *)
Definition committed_from (blob : BlobModel) (o : option (Z * BlobModel)) (b : BlobModel) : Prop :=
  b.(b_isCommitted) = true /\ b.(b_properties).(bp_blobType) = blob.(b_properties).(bp_blobType) /\
  b.(b_properties).(bp_etag) = blob.(b_properties).(bp_etag) /\
  b.(b_persistency) = match o with Some d => d.2.(b_persistency) | None => blob.(b_persistency) end.

(** The document is in the place of the old one, or in a new one. *)
Definition place (o : option (Z * BlobModel)) (i : Z) s : Prop :=
  match o with Some d => d.1 = i | None => docs s.(blobs) !! i = None end.

(** What a commit that goes through leaves. *)
Definition commits (blob : BlobModel) (l : list (string * string)) s (o : option (Z * BlobModel)) s' : Prop :=
  let '(a, c, n) := (blob.(b_accountName), blob.(b_containerName), blob.(b_name)) in
  exists i b sel,
    base_at a c n s' i b /\ place o i s /\ committed_from blob o b /\
    Forall2 (picked (committed_of o s) (staged_of a c n s)) l sel /\ blocks_of b s' = sel /\
    b.(b_properties).(bp_contentLength) = Some (total_size sel) /\
    (forall j x, docs s'.(blocks) !! j = Some x <-> docs s.(blocks) !! j = Some x /\ is_block_of a c n x = false) /\
    (own_arrays s -> others_same i s s').

Lemma commit_ends blob l s o f i r b sel :
  let '(a, c, n) := (blob.(b_accountName), blob.(b_containerName), blob.(b_name)) in
  store_ok s -> array_written i r sel b s f -> at_key a c n EmptyString b -> s.(block_arrays) !! r = None ->
  f.(blocks) = remove_docs (lk_find (fun _ => is_block_of a c n) s.(blocks)) s.(blocks) ->
  place o i s -> committed_from blob o b ->
  b.(b_properties).(bp_contentLength) = Some (total_size sel) ->
  Forall2 (picked (committed_of o s) (staged_of a c n s)) l sel -> commits blob l s o f.
Proof.
  intros Hs Hw Hk Hnew Hfk Hio Hc Hlen Hsel.
  destruct (array_written_effect blob.(b_accountName) blob.(b_containerName) blob.(b_name) s f i r b sel Hs Hw Hk (or_introl Hnew)) as (E1&E2&E3).
  exists i, b, sel. split_and!; [done..| |done]. intros j x. rewrite Hfk. apply remove_found.
Qed.

Lemma forall2_picks C U (l : list (string * string)) sel :
  Forall2 (picked C U) l sel -> forall e, e ∈ l -> exists b, picked C U e b.
Proof. intros Hs e He. apply list_elem_of_lookup in He as [n Hn]. destruct (Forall2_lookup_l _ _ _ _ _ Hs Hn) as (b&_&?). by exists b. Qed.

(** The selection, the new array, the document and the staged blocks. *)
Lemma commit_tail ctx blob l s s1 o (doc : option (Z * BlobModel)) (write : Ref -> list PersistencyBlockModel -> proc db exn unit) Q :
  s1.(blocks) = s.(blocks) -> committed_of doc s1 = committed_of o s ->
  (forall sel r s2, Forall2 (picked (committed_of o s) (staged_of blob.(b_accountName) blob.(b_containerName) blob.(b_name) s)) l sel ->
     new_blocks sel s1 = (Ok r, s2) ->
     outcome (_ ← write r sel; update_db (fun s => set_blocks
       (remove_docs (lk_find (fun _ => is_block_of blob.(b_accountName) blob.(b_containerName) blob.(b_name)) s.(blocks)) s.(blocks)) s)) s2 Q) ->
  (forall e en, en ∈ l -> (forall b, ~ picked (committed_of o s)
     (staged_of blob.(b_accountName) blob.(b_containerName) blob.(b_name) s) en b) -> Q (Throw e) s1) ->
  outcome (s ← get_state;
    let staged := (lk_find (fun _ => is_block_of blob.(b_accountName) blob.(b_containerName) blob.(b_name)) s.(blocks)).*2 in
    let committed := block_map (match doc with Some d => blocks_of d.2 s | None => [] end) in
    let uncommitted := block_map (bl_block <$> List.filter (fun b => negb b.(bl_isCommitted)) staged) in
    selected ← lift (select_blocks ctx committed uncommitted l);
    r ← new_blocks selected;
    _ ← write r selected;
    update_db (fun s => set_blocks
      (remove_docs (lk_find (fun _ => is_block_of blob.(b_accountName) blob.(b_containerName) blob.(b_name)) s.(blocks)) s.(blocks)) s)) s1 Q.
Proof.
  intros Hk Hcm Hok Hbad. apply outcome_bind, outcome_get. cbv zeta.
  change (match doc with Some d => blocks_of d.2 s1 | None => [] end) with (committed_of doc s1).
  rewrite Hcm, Hk.
  change (bl_block <$> List.filter _ _) with (staged_of blob.(b_accountName) blob.(b_containerName) blob.(b_name) s).
  pose proof (select_blocks_picked ctx (committed_of o s)
    (staged_of blob.(b_accountName) blob.(b_containerName) blob.(b_name) s) l) as Hsel.
  apply outcome_bind, outcome_lift; [intros sel He|intros e He]; rewrite He in Hsel.
  - apply outcome_bind. unfold outcome at 1. destruct (new_blocks sel s1) as [r s2] eqn:Hn.
    pose proof Hn as [= Hr _]. destruct r as [r|]; [|done]. by apply Hok.
  - destruct Hsel as (en&Hen&Hno). by eapply Hbad.
Qed.

Lemma commitBlockList_effect ctx blob l acc mac s :
  store_ok s -> blob.(b_snapshot) = EmptyString -> blob.(b_isCommitted) = true ->
  exists o, base_of blob.(b_accountName) blob.(b_containerName) blob.(b_name) s o /\
  outcome (commitBlockList ctx blob l acc mac) s (fun r s' => match r with
  | Ok _ => commit_allowed ctx blob l acc mac s o /\
      commits blob l s o s'
  | Throw _ => ~ commit_allowed ctx blob l acc mac s o /\ all_same s s' /\ s'.(blocks) = s.(blocks)
  end).
Proof.
  intros Hs Hbase Hcom. unfold commitBlockList. rewrite Hbase.
  change (getBlobWithLeaseUpdated (P := P) ctx blob.(b_accountName) blob.(b_containerName) blob.(b_name) (Some EmptyString) false false)
    with (getBlobWithLeaseUpdated (P := P) ctx blob.(b_accountName) blob.(b_containerName) blob.(b_name) None false false).
  destruct (open_cases ctx blob.(b_accountName) blob.(b_containerName) blob.(b_name) false s Hs)
    as [[Ho Hno]|[(Ho&Hc&Hno)|(i&b&s1&Ho&Hb&_&Hop)]].
  - exists None. split; [intros i b Hb; by eapply Hno, base_container|].
    apply outcome_bind. unfold outcome at 1. rewrite Ho. cbn [fst snd].
    split_and!; [|apply all_same_refl|done]. by intros (?&_).
  - assert (Hnone : forall i b, ~ base_at blob.(b_accountName) blob.(b_containerName) blob.(b_name) s i b)
      by (intros i b Hb; by destruct (Hno i b Hb)).
    exists None. split; [done|].
    apply outcome_bind. unfold outcome at 1. rewrite Ho. cbn [fst snd].
    apply outcome_bind, outcome_lift; [intros [] Hcond|intros e He].
    2:{ split_and!; [|apply all_same_refl|done]. intros (_&Hcond&_). exact (ok_throw _ _ _ Hcond He). }
    apply outcome_bind, outcome_guard; [intros Hany|by rewrite andb_false_r].
    apply outcome_bind, outcome_ret.
    eapply (commit_tail ctx blob l s s None None (fun r sel => update_db (fun s => set_blobs (lk_insert _ s.(blobs)) s))); [done|done|..].
    + intros sel r s2 Hsel [= <- <-]. split; [by split_and!; eauto using forall2_picks|].
      eapply (commit_ends blob _ s None _ _ _ _ sel Hs);
        [split_and!; [apply docs_insert|reflexivity..]|by repeat split|apply fresh_none|reflexivity
        |apply next_free|by repeat split|reflexivity|exact Hsel].
    + intros e en Hen Hnp. split_and!; [|apply all_same_refl|done]. intros (_&_&_&_&Hall).
      destruct (Hall en Hen) as [b Hb]. by eapply Hnp.
  - exists (Some (i, b)). split; [exact Hb|].
    assert (Hsame : all_same s s1) by (eapply opens_content; [apply Hb|exact Hop]).
    assert (Hk : s1.(blocks) = s.(blocks)) by apply Hop.
    apply outcome_bind. unfold outcome at 1. rewrite Ho. cbn [fst snd].
    apply outcome_bind, outcome_lift; [intros [] Hcond|intros e He].
    2:{ split_and!; [|done|done]. intros (_&Hcond&_). exact (ok_throw _ _ _ Hcond He). }
    apply outcome_bind, outcome_guard; intros Hany.
    2:{ split_and!; [|done|done]. intros (_&_&Hn&_). apply negb_false_iff, andb_prop in Hany as [Hm Hcm].
        specialize (Hn Hm _ eq_refl). cbn in Hn, Hcm. congruence. }
    apply outcome_bind. cbn [fst snd]. apply outcome_bind, outcome_guard; intros Htype.
    2:{ split_and!; [|done|done]. intros (_&_&_&Hd&_). destruct (Hd _ eq_refl) as [Ht _].
        by apply bool_decide_eq_false in Htype. }
    apply outcome_lift; [intros [] Hlease|intros e He].
    2:{ split_and!; [|done|done]. intros (_&_&_&Hd&_). destruct (Hd _ eq_refl) as [_ [_ Hl]].
        exact (ok_throw _ _ _ Hl He). }
    eapply (commit_tail ctx blob l s s1 (Some (i, b)) (Some (i, opened ctx.(bc_startTime) b))
      (fun r sel => save_blob i (written_lease (committed_blob blob (opened ctx.(bc_startTime) b) r sel)))); [done|..].
    + cbn. destruct Hop as (_&_&Ha&_). unfold blocks_of. by rewrite Ha.
    + intros sel r s2 Hsel [= <- <-]. split.
      * split_and!; [by eapply base_container|exact Hcond| | |by eapply forall2_picks].
        -- intros Hm d [= <-]. unfold if_none_match_any in *. rewrite Hm in Hany.
           by apply negb_true_iff in Hany.
        -- intros d [= <-]. by apply bool_decide_eq_true in Htype.
      * pose proof Hb as [Hi (K1&K2&K3&K4)]. pose proof Hop as (_&_&Ha&Hra).
        set (r := base.fresh (dom s1.(block_arrays) : gset Ref)).
        eapply (commit_ends blob _ s (Some (i, b)) _ i r
          (written_lease (committed_blob blob (opened ctx.(bc_startTime) b) r sel)) sel Hs);
          [|by repeat split|unfold r; rewrite <- Ha; apply fresh_none|rewrite <- Hk; reflexivity
          |reflexivity|by repeat split|reflexivity|exact Hsel].
        split_and!; [exact (save_opened _ _ _ _ _ _ Hop)|run; cbn; by rewrite Ha|exact Hra|reflexivity].
    + intros e en Hen Hnp. split_and!; [|done|done]. intros (_&_&_&_&Hall).
      destruct (Hall en Hen) as [b' Hb']. by eapply Hnp.
Qed.

(** C15. a commit either throws, and then it was not allowed or an entry of the
    list names no block, and nothing but a lease that has run out changes; or the
    blob, new or not, has exactly the blocks the entries stand for, in their order,
    with the sum of their sizes as its length, its staged blocks are gone, and no
    other document changes. *)
Theorem commitBlockList_correct ctx blob l acc mac s
    (Hs : store_ok s) (Hbase : blob.(b_snapshot) = EmptyString) (Hcom : blob.(b_isCommitted) = true) :
  exists o, base_of blob.(b_accountName) blob.(b_containerName) blob.(b_name) s o /\
  outcome (commitBlockList ctx blob l acc mac) s (fun r s' => match r with
  | Ok _ => commit_allowed ctx blob l acc mac s o /\
      commits blob l s o s'
  | Throw _ => ~ commit_allowed ctx blob l acc mac s o /\ all_same s s' /\ s'.(blocks) = s.(blocks)
  end).
Proof. by apply commitBlockList_effect. Qed.
End Commit.

(** ** Copies *)

Section Copies.
Context {coll : Type -> Type} `{LokiLaws coll} {P : Type}.
Abbreviation db := (BlobDb coll P).
Implicit Types (s : db).

(** What holds if the method returns. *)
Definition returns {A} (m : proc db exn A) s (Q : A -> db -> Prop) : Prop :=
  outcome m s (fun r s' => match r with Ok a => Q a s' | Throw _ => True end).

Lemma returns_bind {A B} (m : proc db exn A) (k : A -> proc db exn B) s Q R :
  returns m s Q -> (forall a s', Q a s' -> returns (k a) s' R) -> returns (m ≫= k) s R.
Proof. unfold returns, outcome. run. destruct (m s) as [[a|e] s']; cbn; [|done]. intros Hm Hk. by apply Hk. Qed.

Lemma returns_lift {A} (r : res A) s : returns (lift r) s (fun _ s' => s' = s).
Proof. unfold returns, outcome. cbn. by destruct r. Qed.

Lemma returns_guard ok e s : returns (guard ok e) s (fun _ s' => s' = s).
Proof. unfold returns, outcome, guard. by destruct ok. Qed.

Lemma returns_weaken {A} (m : proc db exn A) s (Q R : A -> db -> Prop) :
  returns m s Q -> (forall a s', Q a s' -> R a s') -> returns m s R.
Proof. unfold returns, outcome. destruct (m s).1; auto. Qed.

(** The two databases differ in the leases of documents only. *)
Definition leases_only s s' : Prop :=
  s'.(block_arrays) = s.(block_arrays) /\ s'.(range_arrays) = s.(range_arrays) /\
  forall i b, docs s.(blobs) !! i = Some b -> exists f, docs s'.(blobs) !! i = Some (with_lease f b).

Lemma leases_only_refl s : leases_only s s.
Proof. split_and!; [done..|]. intros i b Hi. exists b.(b_lease). by destruct b. Qed.

Lemma leases_only_trans s s1 s2 : leases_only s s1 -> leases_only s1 s2 -> leases_only s s2.
Proof.
  intros (A1&R1&D1) (A2&R2&D2). split_and!; [congruence..|]. intros i b Hi.
  destruct (D1 i b Hi) as [f Hf]. destruct (D2 _ _ Hf) as [g Hg]. by exists g.
Qed.

Lemma save_leases_only i b f s :
  docs s.(blobs) !! i = Some b -> leases_only s (set_blobs (lk_update i (with_lease f b) s.(blobs)) s).
Proof.
  intros Hi. split_and!; [done..|]. intros j d Hj. cbn. rewrite docs_update by by eexists.
  destruct (decide (j = i)) as [->|Hne].
  - exists f. rewrite lookup_insert_eq. congruence.
  - exists d.(b_lease). rewrite lookup_insert_ne by done. rewrite Hj. by destruct d.
Qed.

Lemma open_returns ctx a c n osn fe fc s :
  returns (getBlobWithLeaseUpdated ctx a c n osn fe fc) s (fun o s' => leases_only s s' /\
    match o with
    | Some d => exists b f, findOne (is_blob a c n (default EmptyString osn)) s.(blobs) = Some (d.1, b) /\
        d.2 = with_lease f b /\ docs s'.(blobs) !! d.1 = Some d.2
    | None => s' = s
    end).
Proof.
  unfold returns, outcome, getBlobWithLeaseUpdated, checkContainerExist. run.
  destruct (findOne (is_container a c) _) as [[k e]|]; [|done].
  destruct (findOne (is_blob a c n _) s.(blobs)) as [[i b]|] eqn:Hf;
    [|destruct fe; [done|split; [apply leases_only_refl|done]]].
  pose proof (findOne_Some _ _ _ _ Hf) as [Hi _].
  destruct (fc && _); [destruct fe; [done|split; [apply leases_only_refl|done]]|].
  destruct (_ !== EmptyString).
  - cbn [fst snd save_blob update_db]. split; [by apply save_leases_only|].
    eexists b, _. cbn. by rewrite docs_update, lookup_insert_eq.
  - rewrite (surjective_pairing (BlobLeaseAdapter _)). generalize (BlobLeaseAdapter b.(b_lease)).2. intros f.
    unfold save_blob, update_db. set (s1 := set_blobs (lk_update i (with_lease f b) s.(blobs)) s).
    assert (Hi1 : docs s1.(blobs) !! i = Some (with_lease f b)) by (cbn; by rewrite docs_update, lookup_insert_eq).
    destruct (createLeaseState _ _) as [st|]; [|done]. cbn [fst snd].
    split; [eapply (leases_only_trans _ s1); [by apply save_leases_only|by apply (save_leases_only i (with_lease f b))]|].
    eexists b, _. split_and!; [done|reflexivity|]. cbn [set_blobs blobs].
    by rewrite docs_update, lookup_insert_eq.
Qed.

Definition same_refs (b d : BlobModel) : Prop :=
  d.(b_committedBlocksInOrder) = b.(b_committedBlocksInOrder) /\ d.(b_pageRangesInOrder) = b.(b_pageRangesInOrder).

Lemma insert_copy_returns ctx tier o copy s :
  returns (insert_copy ctx tier o copy) s (fun _ s' =>
    s'.(block_arrays) = s.(block_arrays) /\ s'.(range_arrays) = s.(range_arrays) /\
    (exists j d, docs s'.(blobs) !! j = Some d /\ same_key copy d /\ same_refs copy d) /\
    forall i b, docs s.(blobs) !! i = Some b -> (forall k, o = Some k -> k.1 <> i) -> docs s'.(blobs) !! i = Some b).
Proof.
  unfold insert_copy. eapply (returns_bind _ _ _ (fun c s' => s' = s /\ same_key copy c /\ same_refs copy c)).
  - destruct tier as [t|]; [|by repeat split]. destruct (bp_blobType _) as [[]|]; [|by repeat split..].
    destruct (parseTier t); by repeat split.
  - intros c ? (->&Hk&Hr). unfold returns, outcome. run.
    assert (Hins : forall (m : coll BlobModel), exists j, docs (lk_insert c m) !! j = Some c /\
      forall i b, docs m !! i = Some b -> docs (lk_insert c m) !! i = Some b).
    { intros m. exists (max_id m + 1). rewrite docs_insert, lookup_insert_eq. split; [done|]. intros i b Hi.
      rewrite lookup_insert_ne; [done|]. intros <-. pose proof (docs_max m _ (mk_is_Some _ _ Hi)). lia. }
    destruct o as [[j d]|]; cbn.
    + destruct (Hins (lk_remove j s.(blobs))) as (i&Hi&Hold). split_and!; [done..|by exists i, c|].
      intros i' b Hi' Hne. apply Hold. rewrite docs_remove, lookup_delete_ne; [done|]. by apply (Hne (j, d)).
    + destruct (Hins s.(blobs)) as (i&Hi&Hold). split_and!; [done..|by exists i, c|]. intros i' b Hi' _. by apply Hold.
Qed.

(** The copy refers to the arrays of the source. *)
Lemma startCopyFromURL_returns env ctx src dst url md tier o s :
  returns (startCopyFromURL env ctx src dst url md tier o) s (fun _ s' =>
    exists i b, findOne (is_blob src.(id_account) src.(id_container) src.(id_blob) (default EmptyString src.(id_snapshot)))
        s.(blobs) = Some (i, b) /\
      s'.(block_arrays) = s.(block_arrays) /\ s'.(range_arrays) = s.(range_arrays) /\
      (~ at_key dst.(id_account) dst.(id_container) dst.(id_blob) EmptyString b ->
         exists f, docs s'.(blobs) !! i = Some (with_lease f b)) /\
      exists j d, base_at dst.(id_account) dst.(id_container) dst.(id_blob) s' j d /\ same_refs b d).
Proof.
  unfold startCopyFromURL. eapply returns_bind; [apply open_returns|]. intros sd s1 [L1 Hsd].
  eapply returns_bind; [apply returns_lift|]. intros _ ? ->.
  eapply returns_bind; [apply open_returns|]. intros dd s2 [L2 Hdd].
  eapply returns_bind; [apply returns_lift|]. intros _ ? ->.
  eapply returns_bind; [apply returns_guard|]. intros _ ? ->.
  eapply (returns_bind _ _ _ (fun _ s' => s' = s2)); [destruct dd; [apply returns_lift|done]|]. intros _ ? ->.
  destruct sd as [[i b1]|]; [|done]. destruct Hsd as (b&f&Hf&Hb1&Hi1). cbn in Hf, Hb1, Hi1. subst b1.
  eapply (returns_bind _ _ _ (fun d s' => d = (i, with_lease f b) /\ s' = s2)); [done|]. intros ? ? [-> ->].
  cbn [fst snd]. eapply returns_bind; [apply returns_guard|]. intros _ ? ->.
  eapply returns_bind; [apply returns_guard|]. intros _ ? ->.
  eapply (returns_bind _ _ _ (fun _ s' => s' = s2)).
  { unfold returns, outcome, checkContainerExist. run.
    destruct (findOne (is_container _ _) _) as [[k e]|]; cbn; done. }
  intros _ ? ->. eapply returns_bind; [apply returns_lift|]. intros tags ? ->.
  eapply (returns_weaken); [apply insert_copy_returns|]. cbn beta. intros _ s' (Ha&Hr&(j&d&Hj&[(K1&K2&K3) K4]&[R1 R2])&Hold).
  destruct L1 as (A1&Q1&D1), L2 as (A2&Q2&D2). exists i, b. split_and!; [done|congruence|congruence| |].
  - intros Hne. destruct (D2 _ _ Hi1) as [g Hg]. exists g. apply (Hold _ _ Hg).
    intros [k e] -> Hki. cbn in Hki. subst k. destruct Hdd as (e0&h&Hfe&_). cbn in Hfe.
    apply findOne_Some in Hf as [Hi _]. apply findOne_Some in Hfe as [Hk Hke%is_blob_key].
    destruct (D1 _ _ Hi) as [h1 Hh1]. assert (e0 = with_lease h1 b) as -> by congruence. by apply Hne.
  - exists j, d. split; [split; [done|]|exact (conj R1 R2)].
    split_and!; symmetry; assumption.
Qed.

Definition block_key (block : BlockModel) : string * string * string :=
  (block.(bl_accountName), block.(bl_containerName), block.(bl_blobName)).
Definition id_key (b : BlobId) : string * string * string :=
  (b.(id_account), b.(id_container), b.(id_blob)).

(** a copied append blob is not a copy of its own: a block appended to the
    copy is appended to the list of the source as well, whose length and other
    properties do not change, whether it is leased or is a snapshot. *)
Theorem append_to_copy_changes_source env ctx src dst url md tier o env' ctx' block acc mac ap s p s' p' s'' i b r
    (Hs : store_ok s) (Hdst : block_key block = id_key dst)
    (Hsrc : findOne (is_blob src.(id_account) src.(id_container) src.(id_blob) (default EmptyString src.(id_snapshot)))
        s.(blobs) = Some (i, b))
    (Hother : id_key src <> id_key dst) (Harray : b.(b_committedBlocksInOrder) = Some r)
    (Hcopy : startCopyFromURL env ctx src dst url md tier o s = (Ok p, s'))
    (Happend : appendBlock env' ctx' block acc mac ap s' = (Ok p', s'')) :
  exists b'', docs s''.(blobs) !! i = Some b'' /\ core b'' = core b /\
    blocks_of b'' s'' = blocks_of b s ++ [block.(bl_block)].
Proof.
  pose proof Hdst as [= D1 D2 D3].
  assert (Hs' : store_ok s').
  { pose proof (call_store_ok s (mkCall env ctx (RStartCopy src dst url md tier o)) I Hs) as Hok.
    change (store_ok (no_result (startCopyFromURL env ctx src dst url md tier o) s).2) in Hok.
    revert Hok. unfold no_result. run. by rewrite Hcopy. }
  pose proof (startCopyFromURL_returns env ctx src dst url md tier o s) as Hc. unfold returns, outcome in Hc.
  rewrite Hcopy in Hc. destruct Hc as (i0&b0&Hf&Ha&_&Hsame&j&d&Hd&[Hrd _]).
  rewrite Hsrc in Hf. injection Hf as <- <-. apply findOne_Some in Hsrc as [Hi Hk%is_blob_key].
  assert (Hne : ~ at_key dst.(id_account) dst.(id_container) dst.(id_blob) EmptyString b).
  { intros (K1&K2&K3&_). destruct Hk as (S1&S2&S3&_). apply Hother. unfold id_key. congruence. }
  destruct (Hsame Hne) as [f Hif].
  pose proof (appendBlock_effect env' ctx' block acc mac ap s' Hs') as He. unfold outcome in He.
  rewrite Happend in He. destruct He as (j'&d'&d2&r'&Hd'&_&Hkey&_&_&_&_&_&Hown&(Hfb&Hfa&_&_)). cbn [fst snd] in *.
  rewrite D1, D2, D3 in Hd'. destruct (base_unique _ _ _ _ _ _ _ _ Hs' Hd Hd') as [<- <-].
  assert (r' = r) as -> by (destruct Hown as [Hown|[Hown _]]; congruence).
  exists (with_lease f b). split_and!; [|done|].
  - rewrite Hfb, lookup_insert_ne; [done|]. intros ->. destruct Hd as [Hd Hdk].
    assert (d = with_lease f b) as -> by congruence. by apply Hne.
  - unfold blocks_of in *. rewrite Hfa, Hrd, Ha. cbn. rewrite Harray. cbn. by rewrite lookup_insert_eq.
Qed.
End Copies.

(** ** Witnesses *)

Lemma calls_store_ok {coll} `{LokiLaws coll} {P} (s : BlobDb coll P) ks :
  store_ok s -> Forall call_ok ks -> store_ok (run_calls s ks).
Proof. intros Hs Hok. eapply history_ok; [by apply run_history|done]. Qed.

Lemma calls_own_arrays {coll} `{LokiLaws coll} {P} (s : BlobDb coll P) ks :
  store_ok s -> own_arrays s -> Forall call_ok ks -> Forall no_copy ks -> own_arrays (run_calls s ks).
Proof.
  intros Hs Hu Hok Hc. by apply (history_unshared _ _ _ (run_history s ks Hok Hs)); [apply licences_no_copies|..].
Qed.

Definition w_db : BlobDb map_coll unit := mkBlobDb (∅, 0) (∅, 0) (∅, 0) (∅, 0) ∅ ∅.

Lemma w_db_ok : store_ok w_db.
Proof.
  split; try done; intros i b Hi; cbn in Hi; by rewrite lookup_empty in Hi.
Qed.

Lemma w_db_own : own_arrays w_db.
Proof. intros i b Hi. cbn in Hi. by rewrite lookup_empty in Hi. Qed.

Definition w_env : Env := mkEnv "etag" "l1".
Definition w_properties (t : BlobType) : BlobProperties :=
  mkProperties (Some 0) 0 "etag0" (Some 0) no_headers (Some t) None None None None None None None.
Definition w_blob (n : string) (t : BlobType) (committed : bool) : BlobModel :=
  mkBlob "a" "c" n EmptyString committed (w_properties t) noLease None None None None None.
Definition w_container : ContainerModel := mkContainer "a" "c" 0 "etag" None noLease None None.
Definition w_block (n name : string) : BlockModel :=
  mkBlockModel "a" "c" n false (mkBlock name 3 (mkChunk name 0 3)).
Definition w_call (t : Z) (r : request unit) : call unit := mkCall w_env (mkBlobContext t None) r.
Definition w_append : AppendPositionAccessConditions := mkAppendPosition None None.

(** A container with a leased append blob, and a snapshot of it. *)
Definition w_history : list (call unit) :=
  [w_call 0 (RCreateContainer w_container);
   w_call 1 (RCreateBlob (w_blob "log" AppendBlob true) (Some []) None None None);
   w_call 2 (RAppendBlock (w_block "log" "x") None None w_append);
   w_call 3 (RLease "a" "c" "log" (OpAcquire "" (-1) None) None);
   w_call 4 (RCreateSnapshot "a" "c" "log" None None None)].

Lemma w_history_ok : Forall call_ok w_history /\ Forall no_copy w_history.
Proof. split; repeat constructor; discriminate. Qed.

Example w_history_runs : size (run_calls w_db w_history).(blobs).1 = 2%nat.
Proof. vm_compute. reflexivity. Qed.

Definition w_state : BlobDb map_coll unit := run_calls w_db w_history.
Definition w_doc (i : Z) : BlobModel := default (w_blob "log" AppendBlob true) (w_state.(blobs).1 !! i).

Lemma w_state_ok : store_ok w_state /\ own_arrays w_state.
Proof.
  destruct w_history_ok. split; [apply calls_store_ok|apply calls_own_arrays];
    auto using w_db_ok, w_db_own.
Qed.

(** Requests of someone who does not hold the lease. *)
Definition w_others : list (call unit) :=
  [w_call 5 (RAppendBlock (w_block "log" "y") (Some "l2"%string) None w_append);
   w_call 6 (RSetMetadata "a" "c" "log" None (Some []) None);
   w_call 7 (RDelete "a" "c" "log" None (Some Include) None None)].

Lemma blob_store_invariant_witness :
  store_ok (run_calls w_db w_history) /\
  (Forall no_copy w_history -> own_arrays w_db -> own_arrays (run_calls w_db w_history)).
Proof. apply (blob_store_invariant w_db w_history); [apply w_db_ok|apply w_history_ok]. Defined.

Lemma leased_blob_protected_witness :
  exists b', docs (run_calls w_state w_others).(blobs) !! 1 = Some b' /\
    content (run_calls w_state w_others) b' = content w_state (w_doc 1).
Proof.
  apply (leased_blob_protected w_state w_others 1 (w_doc 1) (VInfinite "l1") "l1").
  - apply w_state_ok.
  - apply w_state_ok.
  - repeat constructor.
  - repeat constructor.
  - repeat constructor; cbn; lia.
  - vm_compute. reflexivity.
  - vm_compute. reflexivity.
  - split; [done|]. vm_compute. reflexivity.
  - repeat constructor.
  - repeat constructor.
Defined.

Lemma snapshot_immutable_witness :
  match docs (run_calls w_state w_others).(blobs) !! 2 with
  | Some b' => frozen_content (run_calls w_state w_others) b' = frozen_content w_state (w_doc 2)
  | None => forall later, Forall call_ok later ->
      docs (run_calls (run_calls w_state w_others) later).(blobs) !! 2 = None
  end.
Proof.
  apply (snapshot_immutable w_state w_others 2 (w_doc 2)).
  - apply w_state_ok.
  - apply w_state_ok.
  - repeat constructor.
  - repeat constructor.
  - vm_compute. reflexivity.
  - vm_compute. congruence.
Defined.

Lemma commitBlockList_correct_witness :
  exists o, base_of "a" "c" "new" w_state o /\
  outcome (commitBlockList (mkBlobContext 5 None) (w_blob "new" BlockBlob true) [] None None) w_state
    (fun r s' => match r with
     | Ok _ => commit_allowed (mkBlobContext 5 None) (w_blob "new" BlockBlob true) [] None None w_state o /\
         commits (w_blob "new" BlockBlob true) [] w_state o s'
     | Throw _ => ~ commit_allowed (mkBlobContext 5 None) (w_blob "new" BlockBlob true) [] None None w_state o /\
         all_same w_state s' /\ s'.(blocks) = w_state.(blocks)
     end).
Proof.
  apply (commitBlockList_correct (mkBlobContext 5 None) (w_blob "new" BlockBlob true) [] None None w_state);
    [apply w_state_ok|done|done].
Defined.

Lemma appendBlock_correct_witness :
  let k := base_at "a" "c" "log" in
  let ctx := mkBlobContext 5 None in
  let block := w_block "log" "y" in
  outcome (appendBlock w_env ctx block (Some "l1"%string) None w_append) w_state (fun r s' => match r with
  | Ok p => exists i b b',
      k w_state i b /\ append_allowed ctx block (Some "l1"%string) None w_append w_state b /\
      k s' i b' /\ b'.(b_properties) = p /\
      blocks_of b' s' = blocks_of b w_state ++ [block.(bl_block)] /\
      p.(bp_contentLength)
        = Some (default 0 b.(b_properties).(bp_contentLength) + block.(bl_block).(block_size)) /\
      (own_arrays w_state -> others_same i w_state s')
  | Throw _ =>
      (forall i b, k w_state i b -> ~ append_allowed ctx block (Some "l1"%string) None w_append w_state b) /\
      all_same w_state s'
  end).
Proof.
  apply (appendBlock_correct w_env (mkBlobContext 5 None) (w_block "log" "y") (Some "l1"%string) None w_append w_state).
  apply w_state_ok.
Defined.

(** A copy of the snapshot, and a block for the copy. *)
Definition w_source : BlobId := mkBlobId "a" "c" "log" (Some (w_doc 2).(b_snapshot)).
Definition w_target : BlobId := mkBlobId "a" "c" "copy" None.
Definition w_options : CopyOptions :=
  mkCopyOptions None None (mkModifiedAccessConditions None None None None None) None false (Ok None).
Definition w_copied := startCopyFromURL w_env (mkBlobContext 5 None) w_source w_target "url" None None w_options w_state.
Definition w_appended :=
  appendBlock w_env (mkBlobContext 6 None) (w_block "copy" "y") None None w_append w_copied.2.
Definition w_result {A S} (d : A) (r : result exn A * S) : A := match r.1 with Ok a => a | Throw _ => d end.

Lemma append_to_copy_changes_source_witness :
  exists b'', docs w_appended.2.(blobs) !! 2 = Some b'' /\ core b'' = core (w_doc 2) /\
    blocks_of b'' w_appended.2 = blocks_of (w_doc 2) w_state ++ [(w_block "copy" "y").(bl_block)].
Proof.
  set (p := w_result (w_properties AppendBlob) w_copied). set (p' := w_result (w_properties AppendBlob) w_appended).
  assert (Ha : exists r, (w_doc 2).(b_committedBlocksInOrder) = Some r) by (eexists; vm_compute; reflexivity).
  destruct Ha as [r Ha].
  apply (append_to_copy_changes_source w_env (mkBlobContext 5 None) w_source w_target "url" None None w_options
    w_env (mkBlobContext 6 None) (w_block "copy" "y") None None w_append w_state p w_copied.2 p' w_appended.2 2 (w_doc 2) r).
  - apply w_state_ok.
  - reflexivity.
  - vm_compute. reflexivity.
  - by vm_compute.
  - exact Ha.
  - vm_compute. reflexivity.
  - vm_compute. reflexivity.
Defined.
