(* ===== verification/BlobGC.v ===== *)
(** * BlobGC: the garbage collection of the blob service

    src/src/blob/persistence/BlobReferredExtentsAsyncIterator.ts, and the
    composition of src/src/blob/BlobServer.ts: the blob metadata store says which
    extents blobs, snapshots and staged blocks refer to, the extent metadata store
    which extents there are, and the extent store, here the one in memory, deletes
    them. *)

From S2P Require Import Prelude Errors Extents Loki ExtentMetadata MemoryExtentStore PageRanges.
From S2P Require Import BlobModels BlobStore GC.
Open Scope Z_scope.
Open Scope azurite_scope.

Inductive State := LISTING_EXTENTS_IN_BLOBS | LISTING_EXTENTS_IN_BLOCKS | DONE.

Record BlobReferredExtentsAsyncIterator := mkBlobReferred {
  state : State;
  blobListingMarker : option string;
  blockListingMarker : option Z
}.

(** The default of [listUncommittedBlockPersistencyChunks]. *)
Definition DEFAULT_LIST_BLOCKS_MAX_RESULTS : Z := 2000.

Section BlobGC.
Context {coll : Type -> Type} `{Loki coll} {P : Type}.

(** The extents of a blob, from its block list, its page ranges and itself. *)
Definition blob_extents (b : BlobModel) (s : BlobDb coll P) : list string :=
  ((fun block => block.(block_persistency).(id)) <$> blocks_of b s)
  ++ ((fun range : PersistencyPageRange => range.(PageRanges.persistency).(id)) <$> ranges_of b s)
  ++ match b.(b_persistency) with Some c => [c.(id)] | None => [] end.

Definition blob_ref_next (it : BlobReferredExtentsAsyncIterator) (db : BlobDb coll P) :
    res IteratorResult * BlobReferredExtentsAsyncIterator :=
  match it.(state) with
  | LISTING_EXTENTS_IN_BLOBS =>
      match (listAllBlobs DEFAULT_LIST_BLOBS_MAX_RESULTS (default EmptyString it.(blobListingMarker))
               true true db).1 with
      | Ok (blobs, marker) =>
          (Ok (mkResult false (blobs ≫= fun b => blob_extents b db)),
           mkBlobReferred (if undefined marker then LISTING_EXTENTS_IN_BLOCKS else it.(state)) marker
             it.(blockListingMarker))
      | Throw e => (Throw e, it)
      end
  | LISTING_EXTENTS_IN_BLOCKS =>
      match (listUncommittedBlockPersistencyChunks it.(blockListingMarker)
               DEFAULT_LIST_BLOCKS_MAX_RESULTS db).1 with
      | Ok (blocks, marker) =>
          (Ok (mkResult false (id <$> blocks)),
           mkBlobReferred (if undefined marker then DONE else it.(state)) it.(blobListingMarker) marker)
      | Throw e => (Throw e, it)
      end
  | DONE => (Ok (mkResult true []), it)
  end.

(** The stores of a blob server. *)
Record BlobWorld := mkBlobWorld {
  blobMetadata : BlobDb coll P;
  blobExtentStore : MemoryExtentStore (coll ExtentDoc)
}.

Definition blob_all_provider (lt_missing : bool) : IGCExtentProvider BlobWorld AllExtentsAsyncIterator := {|
  iteratorExtents := fun now _ => mkAllExtents false None now;
  next := fun it w => all_next lt_missing it w.(blobExtentStore).(metadataStore)
|}.

Definition blob_referred_provider : IGCExtentProvider BlobWorld BlobReferredExtentsAsyncIterator := {|
  iteratorExtents := fun _ _ => mkBlobReferred LISTING_EXTENTS_IN_BLOBS None None;
  next := fun it w => blob_ref_next it w.(blobMetadata)
|}.

Definition blob_sweep : ISweep BlobWorld := {|
  sweep_one := fun id w =>
    let (r, s) := deleteExtents [id] w.(blobExtentStore) in
    (_ ← r; Ok tt, mkBlobWorld w.(blobMetadata) s)
|}.

(** [run] with the stores of the server. *)
Definition blob_gc_run (lt_missing : bool) :=
  run (all := blob_all_provider lt_missing) (referred := blob_referred_provider)
      (sweep := blob_sweep) (gc := BlobGCManager).

End BlobGC.

Arguments BlobWorld coll P : clear implicits.
