(* ===== verification/BlobGCSpec.v ===== *)
(** * BlobGCSpec: the garbage collection and the blobs

    What the iterator over the extents of the blobs yields, what follows for the
    collection of the blob service, and when it deletes extents that are in use:
    a block that is committed while the extents are marked, blobs whose name
    is at the end of a page, and blobs whose names lokijs sorts as numbers. *)

From S2P Require Import Prelude Errors Extents Loki ExtentMetadata MemoryExtentStore.
From S2P Require Import MemoryExtentStoreSpec PageRanges BlobModels BlobStore BlobChanges BlobRefine BlobRequests GC GCSpec BlobGC.
Open Scope Z_scope.
Open Scope azurite_scope.

Section BlobGC.
Context {coll : Type -> Type} `{LokiLaws coll, !LokiOrdered coll} {P : Type}.
Implicit Types (w : BlobWorld coll P) (s : BlobDb coll P).

(** ** The pages of blobs and of blocks *)

(** The blobs with a name after the marker, by name. *)
Definition blobs_after (marker : string) s : list (Z * BlobModel) :=
  lk_sort blob_simplesort (lk_find (fun _ b => after_marker marker b.(b_name)) s.(blobs)).

Lemma blobs_after_elem marker s i b :
  (i, b) ∈ blobs_after marker s <-> docs s.(blobs) !! i = Some b /\ after_marker marker b.(b_name) = true.
Proof. unfold blobs_after. rewrite sort_perm. apply (elem_find (fun _ b => after_marker marker b.(b_name))). Qed.

(** The package compares the names of the blobs as the marker does. *)
Definition names_as_texts s : Prop := forall i b j c,
  docs s.(blobs) !! i = Some b -> docs s.(blobs) !! j = Some c ->
  lk_text_le b.(b_name) c.(b_name) = String.leb b.(b_name) c.(b_name).

Lemma sorted_weaken {B} (R Q : B -> B -> Prop) l :
  (forall x y, x ∈ l -> y ∈ l -> R x y -> Q x y) -> StronglySorted R l -> StronglySorted Q l.
Proof.
  intros HRQ Hl. induction Hl as [|x l Hl IH Hx]; [constructor|]. rewrite Forall_forall in Hx. constructor.
  - apply IH. intros y z Hy Hz. apply HRQ; by right.
  - apply Forall_forall. intros y Hy. apply HRQ; [left|by right|by apply Hx].
Qed.

Lemma blobs_after_sorted marker s :
  names_as_texts s -> StronglySorted (fun x y => blob_name_le x y = true) (blobs_after marker s).
Proof.
  intros Hn. apply (sorted_weaken (fun x y => blob_simplesort x y = true)).
  - intros [i b] [j c] [Hi _]%blobs_after_elem [Hj _]%blobs_after_elem. unfold blob_simplesort, blob_name_le. cbn.
    by rewrite (Hn i b j c).
  - apply sort_sorted; [intros x y; apply text_le_total|intros x y z; apply text_le_trans].
Qed.

Definition page_size : nat := Z.to_nat DEFAULT_LIST_BLOBS_MAX_RESULTS.

(** A page is all that is left, or the next one begins after its last blob. *)
Lemma listAllBlobs_page max marker s :
  0 < max ->
  let l := blobs_after marker s in
  (listAllBlobs max marker true true s).1 = Ok (l.*2, None) /\ Z.of_nat (length l) <= max \/
  exists d, (listAllBlobs max marker true true s).1 = Ok ((take (Z.to_nat max) l).*2, Some d.2.(b_name)) /\
    max < Z.of_nat (length l) /\ last (take (Z.to_nat max) l) = Some d.
Proof.
  intros Hmax l. set (n := Z.to_nat max).
  assert (Hq : lk_find (fun (_ : Z) b => after_marker marker b.(b_name) && (true || (b.(b_snapshot) === EmptyString))
      && (true || b.(b_isCommitted))) s.(blobs) = lk_find (fun _ b => after_marker marker b.(b_name)) s.(blobs)).
  { apply ascending_unique; [apply find_ascending..|]. rewrite !find_docs.
    apply reflexive_eq, list_filter_iff. intros [i b]. cbn. by rewrite !andb_true_r. }
  unfold listAllBlobs. run. rewrite Hq. fold (blobs_after marker s). fold l. replace (Z.to_nat (max + 1)) with (S n) by lia.
  destruct (Z.leb_spec (Z.of_nat (length (take (S n) l).*2)) max) as [Hlen|Hlen]; rewrite length_fmap in Hlen.
  - left. rewrite page_fits by lia. split; [done|]. rewrite <- (page_fits l n) by lia. lia.
  - right. destruct (page_cut l n) as (E1&E2&E3); [lia|].
    assert (Hl : (n < length l)%nat) by (rewrite length_take in Hlen; lia).
    destruct (last (take n l)) as [d|] eqn:Hd.
    2:{ apply last_None in Hd. destruct l, n; cbn in *; try lia; done. }
    pose proof Hd as Hd'. rewrite last_take in Hd' by lia.
    exists d. split_and!; [|lia|done]. rewrite length_fmap.
    replace (Nat.leb 2 (length (take (S n) l))) with true by (symmetry; apply Nat.leb_le; lia).
    rewrite list_lookup_fmap, E3, Hd'. cbn. by rewrite <- fmap_take, E2.
Qed.

(** All the pages, from the marker on. *)
Fixpoint list_pages (fuel : nat) (max : Z) (marker : string) s : list BlobModel :=
  match fuel with
  | O => []
  | S fuel =>
      match (listAllBlobs max marker true true s).1 with
      | Ok (blobs, Some marker) => blobs ++ list_pages fuel max marker s
      | Ok (blobs, None) => blobs
      | Throw _ => []
      end
  end.

Definition named_in (name : string) (l : list BlobModel) : nat := length (filter (fun b => b.(b_name) = name) l).

Lemma named_in_none name l : (forall b, b ∈ l -> b.(b_name) <> name) -> named_in name l = 0%nat.
Proof.
  intros Hl. unfold named_in. induction l as [|b l IH]; [done|]. rewrite filter_cons_False; [|apply Hl; left].
  apply IH. intros c Hc. apply Hl. by right.
Qed.

Lemma after_marker_trans a b c : after_marker a b = true -> after_marker b c = true -> after_marker a c = true.
Proof.
  unfold after_marker. rewrite !string_ltb_leb, !negb_true_iff. intros Hab Hbc. apply not_true_iff_false. intros Hca.
  destruct (String.leb_total b c) as [Hl|Hl]; [|congruence].
  pose proof (string_leb_trans _ _ _ Hl Hca). congruence.
Qed.

(** The page of the marker [m], whose blobs come after it. *)
Lemma page_after max m s bs m' :
  0 < max -> names_as_texts s -> (listAllBlobs max m true true s).1 = Ok (bs, m') ->
  (forall b, b ∈ bs -> after_marker m b.(b_name) = true) /\
  (forall n, m' = Some n -> after_marker m n = true /\ (forall b, b ∈ bs -> String.leb b.(b_name) n = true)) /\
  (m' <> None -> Z.of_nat (length bs) <= max).
Proof.
  intros Hmax Hn He. destruct (listAllBlobs_page max m s Hmax) as [[Hp Hlen]|(d&Hp&Hlen&Hd)]; rewrite Hp in He; injection He as <- <-.
  - split_and!; [|done|done]. intros ? ([i b']&->&Hb')%list_elem_of_fmap. by apply blobs_after_elem in Hb' as [_ ?].
  - set (page := take (Z.to_nat max) (blobs_after m s)) in *.
    assert (Hin : forall x, x ∈ page -> after_marker m x.2.(b_name) = true).
    { intros [i b'] Hb'%subseteq_take. by apply blobs_after_elem in Hb' as [_ ?]. }
    apply last_Some in Hd as [l0 Hl0]. split_and!.
    + intros ? ([i b']&->&Hb')%list_elem_of_fmap. exact (Hin _ Hb').
    + intros n [= <-]. split; [apply Hin; rewrite Hl0; apply elem_of_app; right; apply list_elem_of_here|].
      intros ? ([i b']&->&Hb')%list_elem_of_fmap. cbn.
      pose proof (blobs_after_sorted m s Hn) as Hs. rewrite <- (take_drop (Z.to_nat max)) in Hs.
      apply StronglySorted_app_1_l in Hs. fold page in Hs. rewrite Hl0 in Hs, Hb'.
      apply elem_of_app in Hb' as [Hb'|Hb'].
      * exact (StronglySorted_app_1_elem_of _ _ _ _ d Hs Hb' (list_elem_of_here _ _)).
      * apply list_elem_of_singleton in Hb' as <-. cbn. by destruct (String.leb_total b'.(b_name) b'.(b_name)).
    + intros _. rewrite length_fmap. unfold page. rewrite length_take. lia.
Qed.

Lemma list_pages_after fuel max m s b :
  0 < max -> names_as_texts s -> b ∈ list_pages fuel max m s -> after_marker m b.(b_name) = true.
Proof.
  intros Hmax Hn. revert m. induction fuel as [|fuel IH]; intros m Hb; [by apply elem_of_nil in Hb|]. cbn [list_pages] in Hb.
  destruct (listAllBlobs max m true true s).1 as [[bs [n|]]|] eqn:He; [| |by apply elem_of_nil in Hb];
    destruct (page_after max m s bs _ Hmax Hn He) as (H1&H2&_); [|by apply H1].
  apply elem_of_app in Hb as [Hb|Hb]; [by apply H1|]. eapply after_marker_trans; [by apply H2|by apply IH].
Qed.

(** The pages hold no more documents of one name than fit in one, however many
    there are: the marker is the name alone, so the rest of them is passed over. *)
Lemma listed_at_most_one_page fuel max marker s name :
  0 < max -> names_as_texts s -> Z.of_nat (named_in name (list_pages fuel max marker s)) <= max.
Proof.
  intros Hmax Hnames. revert marker. induction fuel as [|fuel IH]; intros marker; [cbn; lia|]. cbn [list_pages].
  assert (Hle : forall l, (named_in name l <= length l)%nat) by (intros l; apply length_filter).
  destruct (listAllBlobs max marker true true s).1 as [[bs [n|]]|] eqn:He; [| |cbn; lia].
  - unfold named_in in *. rewrite filter_app, length_app.
    destruct (after_marker n name) eqn:Hn.
    + fold (named_in name bs). rewrite named_in_none; [by apply IH|]. intros b Hb <-.
      destruct (page_after max marker s bs (Some n) Hmax Hnames He) as (_&H2&_). destruct (H2 n eq_refl) as [_ Hbn].
      unfold after_marker in Hn. by rewrite string_ltb_leb, (Hbn b Hb) in Hn.
    + fold (named_in name (list_pages fuel max n s)). rewrite (named_in_none name (list_pages _ _ _ _)).
      * destruct (page_after max marker s bs (Some n) Hmax Hnames He) as (_&_&Hlen).
        specialize (Hle bs). specialize (Hlen ltac:(done)). lia.
      * intros b Hb <-. apply list_pages_after in Hb; [congruence|done..].
  - specialize (Hle bs). destruct (listAllBlobs_page max marker s Hmax) as [[Hp Hlen]|(d&Hp&_)]; [|congruence].
    rewrite Hp in He. injection He as <-. rewrite length_fmap in Hle. lia.
Qed.

(** ** References *)

(** Where an extent is referred to: in the blob or snapshot [i] of the name, or
    in the staged block [i]. *)
Inductive holder := InBlob (i : Z) (name : string) | InBlock (i : Z).

(** A page can leave out a blob only if another one has the same name, or the pages are
    not in the order of the marker. *)
Definition listed_whole s (i : Z) (name : string) : Prop :=
  Z.of_nat (size (docs s.(blobs))) <= DEFAULT_LIST_BLOBS_MAX_RESULTS \/
  names_as_texts s /\ forall j b, docs s.(blobs) !! j = Some b -> b.(b_name) = name -> j = i.

(** The extent holds a block, a page range or the whole content of the blob. *)
Definition blob_uses s (b : BlobModel) (x : string) : Prop :=
  (exists block, block ∈ blocks_of b s /\ block.(block_persistency).(id) = x) \/
  (exists range, range ∈ ranges_of b s /\ range.(PageRanges.persistency).(id) = x) \/
  (exists chunk, b.(b_persistency) = Some chunk /\ chunk.(id) = x).

Lemma blob_extents_uses s b x : x ∈ blob_extents b s <-> blob_uses s b x.
Proof.
  unfold blob_extents, blob_uses. rewrite !elem_of_app, !list_elem_of_fmap.
  split; (intros [(y&H1&H2)|[(y&H1&H2)|Hc]]; [left; by exists y|right; left; by exists y|right; right]).
  - destruct (b_persistency b) as [c|]; [|by apply elem_of_nil in Hc].
    apply list_elem_of_singleton in Hc as ->. by exists c.
  - destruct Hc as (c&->&<-). apply list_elem_of_here.
Qed.

Definition blob_refers w (h : holder) (x : string) : Prop :=
  let s := w.(blobMetadata) in
  match h with
  | InBlob i name => exists b, docs s.(blobs) !! i = Some b /\ b.(b_name) = name /\
      name <> EmptyString /\ blob_uses s b x /\ listed_whole s i name
  | InBlock i => 0 <= i /\ exists b, docs s.(blocks) !! i = Some b /\ b.(bl_block).(block_persistency).(id) = x
  end.

Definition blob_passed (it : BlobReferredExtentsAsyncIterator) (h : holder) : Prop :=
  match h with
  | InBlob _ name => it.(state) <> LISTING_EXTENTS_IN_BLOBS \/
      exists m, it.(blobListingMarker) = Some m /\ after_marker m name = false
  | InBlock i => it.(state) = DONE \/ exists k, it.(blockListingMarker) = Some k /\ i <= k
  end.

Lemma after_empty n : n <> EmptyString -> after_marker EmptyString n = true.
Proof. by destruct n. Qed.

Lemma blobs_after_length marker s : (length (blobs_after marker s) <= size (docs s.(blobs)))%nat.
Proof.
  unfold blobs_after. rewrite sort_perm. rewrite find_docs.
  etrans; [apply length_filter|]. by rewrite length_map_to_list.
Qed.

(** A page of blobs yields the extents of a blob after the marker, or the next
    page begins before it. *)
Lemma blob_page_yields s marker i b :
  docs s.(blobs) !! i = Some b -> after_marker marker b.(b_name) = true -> listed_whole s i b.(b_name) ->
  exists bs m', (listAllBlobs DEFAULT_LIST_BLOBS_MAX_RESULTS marker true true s).1 = Ok (bs, m') /\
    (b ∈ bs \/ exists m, m' = Some m /\ after_marker m b.(b_name) = true).
Proof.
  intros Hi Hm Hw. assert (Hin : (i, b) ∈ blobs_after marker s) by by apply blobs_after_elem.
  destruct (listAllBlobs_page DEFAULT_LIST_BLOBS_MAX_RESULTS marker s) as [[He Hlen]|(d&He&Hlen&Hd)]; [done|..];
    rewrite He; eexists _, _; (split; [done|]).
  - left. apply list_elem_of_fmap. by exists (i, b).
  - destruct Hw as [Hw|[Hnames Hw]]; [pose proof (blobs_after_length marker s); lia|].
    destruct (sorted_page _ _ (Z.to_nat DEFAULT_LIST_BLOBS_MAX_RESULTS) _ (blobs_after_sorted marker s Hnames) Hin)
      as [Hp|(d'&_&Hd'&Hle)]; [by vm_compute; lia| |].
    + left. apply list_elem_of_fmap. by exists (i, b).
    + rewrite Hd in Hd'. injection Hd' as <-. destruct d as [j c].
      assert (Hj : docs s.(blobs) !! j = Some c /\ (j, c) ∈ take (Z.to_nat DEFAULT_LIST_BLOBS_MAX_RESULTS) (blobs_after marker s)).
      { assert (Hin' : (j, c) ∈ take (Z.to_nat DEFAULT_LIST_BLOBS_MAX_RESULTS) (blobs_after marker s))
          by (apply last_Some in Hd as [l0 ->]; apply elem_of_app; right; apply list_elem_of_here).
        split; [|done]. apply subseteq_take in Hin'. by apply blobs_after_elem in Hin' as [? _]. }
      destruct Hj as [Hj Hjp]. destruct (after_marker c.(b_name) b.(b_name)) eqn:Hlt; [right; by exists c.(b_name)|].
      left. assert (Hn : c.(b_name) = b.(b_name)).
      { unfold after_marker in Hlt. rewrite string_ltb_leb, negb_false_iff in Hlt. by apply String.leb_antisym. }
      assert (j = i) as -> by exact (Hw j c Hj Hn). assert (c = b) as -> by congruence.
      apply list_elem_of_fmap. by exists (i, b).
Qed.

Definition blocks_after (marker : option Z) s : list (Z * BlockModel) :=
  lk_sort block_id_le (lk_find (fun i _ => default (-1) marker <? i) s.(blocks)).

Lemma blocks_after_sorted marker s : StronglySorted (fun x y => block_id_le x y = true) (blocks_after marker s).
Proof. apply sort_sorted; unfold block_id_le; intros; [apply orb_true_iff|]; rewrite !Z.leb_le in *; lia. Qed.

Lemma block_page_yields s marker i b :
  docs s.(blocks) !! i = Some b -> default (-1) marker < i ->
  exists cs m', (listUncommittedBlockPersistencyChunks marker DEFAULT_LIST_BLOCKS_MAX_RESULTS s).1 = Ok (cs, m') /\
    (b.(bl_block).(block_persistency) ∈ cs \/ exists k, m' = Some k /\ k < i).
Proof.
  intros Hi Hm. set (l := blocks_after marker s). set (n := Z.to_nat DEFAULT_LIST_BLOCKS_MAX_RESULTS).
  assert (Hn : Z.of_nat n = DEFAULT_LIST_BLOCKS_MAX_RESULTS) by done. assert (Hpos : (0 < n)%nat) by (apply Nat.ltb_lt; done).
  assert (Hin : (i, b) ∈ l).
  { unfold l, blocks_after. rewrite sort_perm. apply elem_find. split; [done|]. by apply Z.ltb_lt. }
  unfold listUncommittedBlockPersistencyChunks. run. fold (blocks_after marker s). fold l.
  replace (Z.to_nat (DEFAULT_LIST_BLOCKS_MAX_RESULTS + 1)) with (S n) by done.
  destruct (Z.leb_spec (Z.of_nat (length (take (S n) l))) DEFAULT_LIST_BLOCKS_MAX_RESULTS) as [Hlen|Hlen].
  - rewrite page_fits by lia. eexists _, _. split; [done|]. left. apply list_elem_of_fmap. by exists (i, b).
  - destruct (page_cut l n) as (E1&E2&_); [lia|]. rewrite E2.
    assert (Hl : (n < length l)%nat) by (rewrite length_take in Hlen; lia).
    pose proof (blocks_after_sorted marker s) as Hsort. fold l in Hsort.
    destruct (sorted_page _ _ n _ Hsort Hin) as [Hp|(d&_&Hd&Hle)]; [done| |].
    + destruct (last (take n l)) as [d|] eqn:Hd.
      * eexists _, _. split; [done|]. left. apply list_elem_of_fmap. by exists (i, b).
      * apply last_None in Hd. rewrite Hd in Hp. by apply elem_of_nil in Hp.
    + rewrite Hd. eexists _, _. split; [done|]. destruct d as [j c]. unfold block_id_le in Hle. apply Z.leb_le in Hle.
      destruct (decide (j = i)) as [->|Hne]; [|right; exists j; split; [done|cbn in *; lia]]. left.
      assert (Hin' : (i, c) ∈ take n l) by (apply last_Some in Hd as [l0 ->]; apply elem_of_app; right; apply list_elem_of_here).
      apply list_elem_of_fmap. exists (i, c). split; [|done].
      apply subseteq_take in Hin'. unfold l, blocks_after in Hin'. rewrite sort_perm in Hin'.
      apply elem_find in Hin' as [Hc _]. cbn. congruence.
Qed.

Lemma blob_next_yields it w r it' h x :
  blob_ref_next it w.(blobMetadata) = (Ok r, it') -> blob_refers w h x -> ~ blob_passed it h ->
  r.(done) = false /\ (x ∈ r.(value) \/ ~ blob_passed it' h).
Proof.
  unfold blob_ref_next. destruct it as [[] bm km]; cbn [state blobListingMarker blockListingMarker].
  - destruct h as [i name|i].
    + intros Hn (b&Hi&<-&Hne&Hx&Hw) Hp. cbn in Hp.
      assert (Hm : after_marker (default EmptyString bm) b.(b_name) = true).
      { destruct bm as [m|]; [|by apply after_empty]. apply not_false_iff_true. intros Hm. apply Hp. right. by exists m. }
      destruct (blob_page_yields _ _ i b Hi Hm Hw) as (bs&m'&He&Hor). rewrite He in Hn. injection Hn as <- <-.
      split; [done|]. destruct Hor as [Hb|(m&->&Hm')]; [left|right].
      * cbn. apply list_elem_of_bind. exists b. by rewrite blob_extents_uses.
      * cbn. intros [?|(m0&[= <-]&?)]; [done|congruence].
    + intros Hn _ Hp. cbn in Hp. destruct (listAllBlobs _ _ _ _ _).1 as [[bs m']|]; [|done]. injection Hn as <- <-.
      split; [done|right]. cbn. intros [Hst|Hk]; [by destruct m'|]. apply Hp. by right.
  - destruct h as [i name|i]; [intros _ _ Hp; destruct Hp; by left|].
    intros Hn [Hi0 (b&Hi&<-)] Hp. cbn in Hp.
    destruct (block_page_yields w.(blobMetadata) km i b Hi) as (cs&m'&He&Hor).
    { destruct km as [k|]; [|cbn; lia]. cbn. apply Z.nle_gt. intros Hle. apply Hp. right. by exists k. }
    rewrite He in Hn. injection Hn as <- <-. split; [done|]. destruct Hor as [Hc|(k&->&Hk)]; [left|right].
    + cbn. by apply list_elem_of_fmap_2.
    + cbn. intros [?|(k0&[= <-]&?)]; [done|lia].
  - intros _ _ Hp. exfalso. apply Hp. destruct h; by left.
Qed.

(** ** What the collection keeps *)

Context (lt_missing : bool).
#[local] Instance all_provider : IGCExtentProvider (BlobWorld coll P) AllExtentsAsyncIterator :=
  blob_all_provider lt_missing.
#[local] Existing Instances blob_referred_provider blob_sweep BlobGCManager BlobGCManager_laws.

#[local] Instance blob_referred_laws :
  ReferredLaws (BlobWorld coll P) BlobReferredExtentsAsyncIterator holder.
Proof.
  refine {| refers := blob_refers; passed := blob_passed |}.
  - by intros now w [i n|i] [?|(k&?&_)].
  - intros it w r it' h x. apply blob_next_yields.
Defined.

Implicit Types (m : Manager (BlobWorld coll P) AllExtentsAsyncIterator BlobReferredExtentsAsyncIterator).

(** C27. As long as a blob, a snapshot or a staged block keeps data in an extent,
    from before the marking starts on, and the manager is not closed, no step of
    its loop changes the bytes of that extent, whatever requests run in between; a
    blob counts if no other document has its name and lokijs sorts the names as strings,
    or there are at most as many documents as fit in one page. *)
Theorem blob_gc_keeps_extents gcInterval w es0 es ids0 now h x :
  let m := run (new_manager gcInterval w) es0 in
  m.(_status) = Running -> m.(loop_at) = Some (Listed ids0) ->
  always (fun m => blob_refers m.(world) h x) m es -> Forall (fun e => e <> Close) es ->
  let m' := run m es in
  extent_bytes (handle m' (Resume now)).(world).(blobExtentStore) x
  = extent_bytes m'.(world).(blobExtentStore) x.
Proof.
  intros m Hst Hl Hx Hc m'.
  eapply (run_keeps (ReferredLaws0 := blob_referred_laws) (fun w => extent_bytes w.(blobExtentStore) x)); [|exact Hst|exact Hl|exact Hx|exact Hc].
  intros id w1 r w2 Hs Hid. cbn [sweep_one blob_sweep] in Hs.
  destruct (deleteExtents [id] w1.(blobExtentStore)) as [r1 s1] eqn:Hd. injection Hs as _ <-.
  destruct (deleteExtents_spec [id] _ _ _ Hd) as (Hkeep&_&_). apply Hkeep. set_solver.
Qed.
End BlobGC.

(** ** Names that are numbers *)

(** A package that compares texts as the decimal numbers they are. *)
#[local] Definition number_loki : Loki map_coll := {|
  lk_insert A := lk_insert (Loki := map_loki) (A := A);
  lk_find A := lk_find (Loki := map_loki) (A := A);
  lk_update A := lk_update (Loki := map_loki) (A := A);
  lk_remove A := lk_remove (Loki := map_loki) (A := A);
  lk_sort A := lk_sort (Loki := map_loki) (A := A);
  lk_text_le s t := Nat.ltb (String.length s) (String.length t)
    || Nat.eqb (String.length s) (String.length t) && String.leb s t;
  lk_new A := lk_new (Loki := map_loki) (A := A);
  lk_next A := lk_next (Loki := map_loki) (A := A)
|}.

Definition numbered (name : string) : BlobModel :=
  mkBlob "a" "c" name EmptyString true
    (mkProperties (Some 0) 0 "etag" None no_headers (Some BlockBlob) None None None None None None None)
    noLease None None None None None.

(** The blob "10" comes after the page of "9" and before its marker: no page has it. *)
Example number_skipped :
  let s : BlobDb map_coll unit := mkBlobDb (∅, 0) (∅, 0) ({[1 := numbered "10"; 2 := numbered "9"]}, 2) (∅, 0) ∅ ∅ in
  let list_all marker := (listAllBlobs (H := number_loki) 1 marker true true s).1 in
  list_all EmptyString = Ok ([numbered "9"], Some "9"%string) /\ list_all "9"%string = Ok ([], None).
Proof. by vm_compute. Qed.

(** ** A commit while the extents are marked *)

Definition gc_call (r : request unit) : call unit :=
  mkCall (mkEnv "etag" "id") (mkBlobContext 0 None) r.
Definition gc_container : ContainerModel := mkContainer "a" "c" 0 "etag" None noLease None None.
Definition gc_block : BlockModel := mkBlockModel "a" "c" "b" false (mkBlock "x" 1 (mkChunk "x" 0 1)).
Definition gc_blob : BlobModel :=
  mkBlob "a" "c" "b" EmptyString true
    (mkProperties (Some 0) 0 "etag" None no_headers (Some BlockBlob) None None None None None None None)
    noLease None None None None None.

Definition gc_db : BlobDb map_coll unit :=
  run_calls (mkBlobDb (∅, 0) (∅, 0) (∅, 0) (∅, 0) ∅ ∅)
    [gc_call (RCreateContainer gc_container); gc_call (RStageBlock gc_block None)].
Definition gc_store : MemoryExtentStore (map_coll ExtentDoc) :=
  (appendExtent (M := map_coll ExtentDoc) (fun _ _ _ _ => JsError) (Buffer [7]) "x" 0 None
     (mkMemoryExtentStore "blob" (mkChunkStore None ∅ 0) (∅, 0))).2.
Definition gc_world : BlobWorld map_coll unit := mkBlobWorld gc_db gc_store.

(** The client commits the block it has staged. *)
Definition gc_commit : event (BlobWorld map_coll unit) :=
  Env (fun w => mkBlobWorld
    (run_call w.(blobMetadata) (gc_call (RCommitBlockList gc_blob [("x", "latest")%string] None None)))
    w.(blobExtentStore)).

(** Up to the page of blobs, and from there to the sweep. *)
Definition gc_marking : list (event (BlobWorld map_coll unit)) := [Start; Initialized 0] ++ repeat (Resume 0) 6.
Definition gc_events : list (event (BlobWorld map_coll unit)) := gc_marking ++ [gc_commit] ++ repeat (Resume 0) 5.

Definition gc_start : Manager (BlobWorld map_coll unit) AllExtentsAsyncIterator BlobReferredExtentsAsyncIterator :=
  new_manager (gc := BlobGCManager) 0 gc_world.

Definition in_use (m : Manager (BlobWorld map_coll unit) AllExtentsAsyncIterator BlobReferredExtentsAsyncIterator)
    (x : string) : Prop := exists h, blob_refers m.(world) h x.

(** The blob [b], whose document is the first, or the staged block. *)
Lemma in_use_blob m :
  match docs m.(world).(blobMetadata).(blobs) !! 1 with
  | Some b => (b.(b_name) === "b"%string) && existsb (String.eqb "x") (blob_extents b m.(world).(blobMetadata))
  | None => false
  end && (Z.of_nat (size (docs m.(world).(blobMetadata).(blobs))) <=? DEFAULT_LIST_BLOBS_MAX_RESULTS) = true ->
  in_use m "x".
Proof.
  intros [Hb Hsz]%andb_prop. destruct (docs _ !! 1) as [b|] eqn:Hi; [|done].
  apply andb_prop in Hb as [Hn Hx]. apply bool_decide_eq_true in Hn. apply existsb_exists in Hx as (y&Hy&<-%String.eqb_eq).
  exists (InBlob 1 "b"), b. split_and!; [done..| |left; by apply Z.leb_le].
  by apply blob_extents_uses, list_elem_of_In.
Qed.

Lemma in_use_block m :
  match docs m.(world).(blobMetadata).(blocks) !! 1 with
  | Some b => String.eqb b.(bl_block).(block_persistency).(id) "x"
  | None => false
  end = true -> in_use m "x".
Proof.
  intros Hb. destruct (docs _ !! 1) as [b|] eqn:Hi; [|done]. exists (InBlock 1). split; [done|].
  exists b. split; [done|]. by apply String.eqb_eq.
Qed.

(** When a block is committed after the page of blobs was read and before that
    of staged blocks, the collection sees it in neither: it deletes the extent of
    the block, which is in use at every moment, while the manager runs. *)
Theorem commit_while_marking_loses_block :
  let after n := blob_gc_run true gc_start (take n (gc_events ++ [Resume 0])) in
  (forall n, in_use (after n) "x" /\ ((after n).(_status) = Running \/ (n <= 1)%nat)) /\
  (forall n, (n < length gc_events)%nat ->
     extent_bytes (after n).(world).(blobExtentStore) "x" = Some [7]) /\
  extent_bytes (after (length (gc_events ++ [Resume 0]))).(world).(blobExtentStore) "x" = None.
Proof.
  intros after. assert (Hlen : length (gc_events ++ [Resume 0]) = 15%nat) by reflexivity.
  split_and!.
  - intros n. destruct (decide (n < 15)%nat) as [Hn|Hn].
    + split.
      * do 15 (destruct n as [|n]; [first [apply in_use_block; vm_compute; reflexivity
          | apply in_use_blob; vm_compute; reflexivity]|]). lia.
      * do 15 (destruct n as [|n]; [first [left; vm_compute; reflexivity | right; lia]|]). lia.
    + unfold after. rewrite take_ge by (rewrite Hlen; lia).
      split; [apply in_use_blob|left]; vm_compute; reflexivity.
  - intros n Hn. change (length gc_events) with 14%nat in Hn.
    do 14 (destruct n as [|n]; [vm_compute; reflexivity|]). lia.
  - vm_compute. reflexivity.
Qed.

(** ** Witness *)

(** The blob is committed before; nothing refers to the extent [o]. *)
Definition kept_world : BlobWorld map_coll unit :=
  mkBlobWorld (run_call gc_db (gc_call (RCommitBlockList gc_blob [("x", "latest")%string] None None)))
    (appendExtent (M := map_coll ExtentDoc) (fun _ _ _ _ => JsError) (Buffer [8]) "o" 0 None gc_store).2.
Definition kept_start : Manager (BlobWorld map_coll unit) AllExtentsAsyncIterator BlobReferredExtentsAsyncIterator :=
  blob_gc_run true (new_manager (gc := BlobGCManager) 0 kept_world) ([Start; Initialized 0] ++ repeat (Resume 0) 4).

(** The sweep, about to delete the one extent, leaves the blob's alone. *)
Lemma blob_gc_keeps_extents_witness :
  let m := blob_gc_run true kept_start (repeat (Resume 0) 7) in
  m.(loop_at) = Some (Sweeping ["o"]) /\
  extent_bytes (blob_gc_run true m [Resume 0]).(world).(blobExtentStore) "x"
  = extent_bytes m.(world).(blobExtentStore) "x".
Proof.
  split; [vm_compute; reflexivity|].
  apply (blob_gc_keeps_extents (coll := map_coll) (P := unit) true 0 kept_world
           ([Start; Initialized 0] ++ repeat (Resume 0) 4) (repeat (Resume 0) 7) ["x"; "o"] 0 (InBlob 1 "b") "x").
  - vm_compute. reflexivity.
  - vm_compute. reflexivity.
  - cbn [always repeat].
    repeat (split; [eexists; split; [vm_compute; reflexivity|]; split_and!; [done|done|apply blob_extents_uses; vm_compute; left|left; vm_compute; congruence]|]).
    exact I.
  - apply Forall_forall. set_solver.
Defined.
