(* ===== verification/Texts.v ===== *)
(** * Texts: JavaScript strings as code units, and base64

    The strings of the table service (keys, property names and values, queries)
    are [text]s, lists of UTF-16 code units as in Utf8. Here are their literals,
    their order ([<] on strings), the parts of String.prototype the service uses,
    and Node's base64, whose decoding takes back its encoding. Case is folded on
    the ASCII letters: texts are folded only to be compared with ASCII words, and
    no other letter folds to one of the letters of those words. *)

From S2P Require Import Prelude Errors Extents Utf8.
From Stdlib Require Import Ascii.
From Stdlib Require String.
Open Scope Z_scope.
Open Scope azurite_scope.

(** A literal. *)
Definition unit_of (c : Ascii.ascii) : Z := Z.of_N (Ascii.N_of_ascii c).
Definition js (s : string) : text := unit_of <$> String.list_ascii_of_string s.
#[global] Arguments js : simpl never.

(** ** The order of texts *)

Fixpoint text_ltb (s t : text) : bool :=
  match s, t with
  | _, [] => false
  | [], _ :: _ => true
  | a :: s, b :: t => (a <? b) || ((a =? b) && text_ltb s t)
  end.

Definition text_leb (s t : text) : bool := negb (text_ltb t s).

Lemma text_ltb_irrefl s : text_ltb s s = false.
Proof. induction s as [|a s IH]; [done|]. cbn. by rewrite Z.ltb_irrefl, Z.eqb_refl, IH. Qed.

Lemma text_ltb_trans s t u : text_ltb s t = true -> text_ltb t u = true -> text_ltb s u = true.
Proof.
  revert t u. induction s as [|a s IH]; intros [|b t] [|c u]; cbn; try done.
  rewrite !orb_true_iff, !andb_true_iff, !Z.ltb_lt, !Z.eqb_eq.
  intros [?|[-> ?]] [?|[-> ?]]; [left; lia..|]. right. eauto.
Qed.

Lemma text_ltb_trichotomy s t : text_ltb s t = true \/ s = t \/ text_ltb t s = true.
Proof.
  revert t. induction s as [|a s IH]; intros [|b t]; cbn; auto.
  rewrite !orb_true_iff, !andb_true_iff, !Z.ltb_lt, !Z.eqb_eq.
  destruct (Z.lt_trichotomy a b) as [?|[->|?]]; auto.
  destruct (IH t) as [?|[->|?]]; auto.
Qed.

Lemma text_ltb_asym s t : text_ltb s t = true -> text_ltb t s = false.
Proof.
  intros H1. destruct (text_ltb t s) eqn:H2; [|done].
  pose proof (text_ltb_trans _ _ _ H1 H2) as H. by rewrite text_ltb_irrefl in H.
Qed.

Lemma text_leb_total s t : text_leb s t || text_leb t s = true.
Proof.
  unfold text_leb. rewrite <- negb_andb, negb_true_iff.
  destruct (text_ltb t s) eqn:H; [|done]. by rewrite (text_ltb_asym _ _ H).
Qed.

Lemma text_leb_trans s t u : text_leb s t = true -> text_leb t u = true -> text_leb s u = true.
Proof.
  unfold text_leb. rewrite !negb_true_iff. intros H1 H2.
  destruct (text_ltb u s) eqn:H; [|done].
  destruct (text_ltb_trichotomy t s) as [Ht|[->|Ht]]; [congruence..|].
  pose proof (text_ltb_trans _ _ _ H Ht). congruence.
Qed.

Lemma text_leb_antisym s t : text_leb s t = true -> text_leb t s = true -> s = t.
Proof.
  unfold text_leb. rewrite !negb_true_iff. intros H1 H2.
  destruct (text_ltb_trichotomy s t) as [?|[?|?]]; congruence.
Qed.

(** ** String.prototype *)

Definition startsWith (p s : text) : bool := bool_decide (take (length p) s = p).
Definition endsWith (p s : text) : bool :=
  (length p <=? length s)%nat && bool_decide (drop (length s - length p) s = p).

(** [s.substring(a, b)], which swaps its bounds when they are the other way round. *)
Definition substring (a b : nat) (s : text) : text :=
  let lo := Nat.min a b in let hi := Nat.max a b in take (hi - lo) (drop lo s).

(** [s.indexOf(p)], if there is one. *)
Fixpoint index_of (p s : text) : option nat :=
  if startsWith p s then Some O
  else match s with [] => None | _ :: s => S <$> index_of p s end.

(** [s.replace(p, r)] of texts: the first occurrence, without patterns in [r]. *)
Definition replace_first (p r s : text) : text :=
  match index_of p s with
  | Some n => take n s ++ r ++ drop (n + length p) s
  | None => s
  end.

Definition lower_unit (u : Z) : Z := if (65 <=? u) && (u <=? 90) then u + 32 else u.
Definition lower (s : text) : text := lower_unit <$> s.

(** White space and line terminators, which [trim] removes. *)
Definition is_space_unit (u : Z) : bool :=
  ((9 <=? u) && (u <=? 13)) || (u =? 32) || (u =? 160) || (u =? 5760)
  || ((8192 <=? u) && (u <=? 8202)) || (u =? 8232) || (u =? 8233) || (u =? 8239)
  || (u =? 8287) || (u =? 12288) || (u =? 65279).

Fixpoint trim_start (s : text) : text :=
  match s with u :: s' => if is_space_unit u then trim_start s' else s | [] => [] end.
Definition trim (s : text) : text := reverse (trim_start (reverse (trim_start s))).

Definition is_digit (u : Z) : bool := (48 <=? u) && (u <=? 57).

Lemma startsWith_app p s : startsWith p (p ++ s) = true.
Proof. unfold startsWith. apply bool_decide_eq_true. apply take_app_length. Qed.

Lemma startsWith_true p s : startsWith p s = true -> s = p ++ drop (length p) s.
Proof. unfold startsWith. intros H%bool_decide_eq_true. rewrite <- H at 1. by rewrite take_drop. Qed.

Lemma endsWith_app p s : endsWith p (s ++ p) = true.
Proof.
  unfold endsWith. rewrite length_app. apply andb_true_intro. split; [apply Nat.leb_le; lia|].
  apply bool_decide_eq_true. replace (length s + length p - length p)%nat with (length s) by lia.
  apply drop_app_length.
Qed.

Lemma endsWith_true p s : endsWith p s = true -> exists s', s = s' ++ p.
Proof.
  unfold endsWith. intros [_ H%bool_decide_eq_true]%andb_prop.
  exists (take (length s - length p) s). rewrite <- H at 2. by rewrite take_drop.
Qed.

(** ** Base64 *)

(** The character of six bits, and the six bits of a character: Node takes the
    alphabet of URLs as well. *)
Definition base64_char (v : Z) : Z :=
  if v <? 26 then 65 + v else if v <? 52 then 97 + (v - 26) else if v <? 62 then 48 + (v - 52)
  else if v =? 62 then 43 else 47.

Definition base64_value (u : Z) : option Z :=
  if (65 <=? u) && (u <=? 90) then Some (u - 65)
  else if (97 <=? u) && (u <=? 122) then Some (u - 97 + 26)
  else if is_digit u then Some (u - 48 + 52)
  else if (u =? 43) || (u =? 45) then Some 62
  else if (u =? 47) || (u =? 95) then Some 63
  else None.

Definition equals_sign : Z := 61.

(** [buffer.toString("base64")]. *)
Fixpoint to_base64 (b : bytes) : text :=
  match b with
  | x :: y :: z :: b =>
      base64_char (x / 4) :: base64_char (x mod 4 * 16 + y / 16)
      :: base64_char (y mod 16 * 4 + z / 64) :: base64_char (z mod 64) :: to_base64 b
  | [x; y] => [base64_char (x / 4); base64_char (x mod 4 * 16 + y / 16);
               base64_char (y mod 16 * 4); equals_sign]
  | [x] => [base64_char (x / 4); base64_char (x mod 4 * 16); equals_sign; equals_sign]
  | [] => []
  end.

(** [Buffer.from(text, "base64")]: characters of no alphabet are skipped, the
    text ends at the padding. *)
Fixpoint base64_values (s : text) : list Z :=
  match s with
  | [] => []
  | u :: s =>
      if u =? equals_sign then []
      else match base64_value u with Some v => v :: base64_values s | None => base64_values s end
  end.

Fixpoint join_sextets (l : list Z) : bytes :=
  match l with
  | a :: b :: c :: d :: l =>
      (a * 4 + b / 16) :: (b mod 16 * 16 + c / 4) :: (c mod 4 * 64 + d) :: join_sextets l
  | [a; b; c] => [a * 4 + b / 16; b mod 16 * 16 + c / 4]
  | [a; b] => [a * 4 + b / 16]
  | _ => []
  end.

Definition from_base64 (s : text) : bytes := join_sextets (base64_values s).

Lemma base64_char_value v l : 0 <= v < 64 ->
  base64_values (base64_char v :: l) = v :: base64_values l.
Proof.
  intros Hv. cbn [base64_values]. unfold base64_char, base64_value, is_digit, equals_sign.
  destruct (Z.eqb_spec v 62); decide_bytes; cbn [orb]; f_equal; lia.
Qed.

Definition octets (b : bytes) : Prop := Forall (fun x => 0 <= x < 256) b.

(** Bytes are read back as they were encoded. *)
Lemma from_to_base64 b : octets b -> from_base64 (to_base64 b) = b.
Proof.
  unfold from_base64, octets. induction b as [b IH] using (induction_ltof1 _ length).
  unfold ltof in IH. intros Hb.
  destruct b as [|x [|y [|z b]]]; [done|..]; rewrite !Forall_cons in Hb; cbn [to_base64].
  - destruct Hb as [Hx _].
    rewrite !base64_char_value by (Z.to_euclidean_division_equations; lia). cbn.
    f_equal. Z.to_euclidean_division_equations; lia.
  - destruct Hb as (Hx&Hy&_).
    rewrite !base64_char_value by (Z.to_euclidean_division_equations; lia). cbn.
    f_equal; [|f_equal]; Z.to_euclidean_division_equations; lia.
  - destruct Hb as (Hx&Hy&Hz&Hb).
    rewrite !base64_char_value by (Z.to_euclidean_division_equations; lia). cbn [join_sextets].
    rewrite IH by (done || cbn; lia).
    f_equal; [|f_equal; [|f_equal]]; Z.to_euclidean_division_equations; lia.
Qed.

(** UTF-8 has bytes only. *)
Lemma octets_encode c : 0 <= c < 1114112 -> octets (encode c).
Proof.
  intros Hc. unfold encode, octets. decide_bytes;
    repeat constructor; Z.to_euclidean_division_equations; lia.
Qed.

Lemma octets_Buffer_from s : well_formed s = true -> octets (Buffer_from s).
Proof.
  unfold Buffer_from. induction s as [s IH] using (induction_ltof1 _ length). unfold ltof in IH.
  destruct s as [|u s]; [constructor|]. cbn [well_formed code_points].
  intros [[Hu1%Z.leb_le Hu2%Z.ltb_lt]%andb_prop Hs]%andb_prop.
  assert (Hjoin : forall c t, 0 <= c < 1114112 -> (length t < S (length s))%nat -> well_formed t = true ->
    octets (mjoin (encode <$> c :: code_points t))).
  { intros c t Hc Ht Hw. cbn. apply Forall_app. split; [by apply octets_encode|by apply IH]. }
  destruct (is_high u) eqn:Hh.
  - destruct s as [|v s]; [done|]. apply andb_prop in Hs as [Hv Hs]. rewrite Hv.
    apply Hjoin; [|cbn; lia|done]. unfold is_high, is_low in Hh, Hv. lia.
  - apply andb_prop in Hs as [Hl%negb_true_iff Hs]. rewrite Hl. apply Hjoin; [lia..|done].
Qed.

(** The base64 of a text's UTF-8 reads back as the text. *)
Lemma base64_text s : well_formed s = true ->
  toString (from_base64 (to_base64 (Buffer_from s))) = s.
Proof.
  intros Hs. rewrite from_to_base64 by by apply octets_Buffer_from. by apply toString_Buffer_from.
Qed.
