(* ===== verification/JsValues.v ===== *)
(** * JsValues: numbers, primitive values and objects of JavaScript

    What the table service uses of the language's values: the properties of its
    entities are primitive values, read from JSON, compared by queries and printed
    in responses. A number is an IEEE double, the type [spec_float] of the
    Standard Library with 53 bits of precision; literals are rounded to the
    nearest double, numbers are printed with the least number of digits that
    reads back. An object is the list of its properties in the order in which
    [for ... in] goes over them: array indices first, in ascending order, then
    the others in the order of their insertion. *)

From S2P Require Import Prelude Errors Extents Utf8 Texts.
From Stdlib Require Import SpecFloat.
From Stdlib Require String.
Open Scope Z_scope.
Open Scope azurite_scope.

(** ** Numbers *)

Abbreviation number := spec_float.

#[export] Instance number_eq_dec : EqDecision number.
Proof. solve_decision. Defined.

Definition prec : Z := 53.
Definition emax : Z := 1024.

(** The double nearest to [m * 2^e]. *)
Definition round_binary (m e : Z) : number := binary_normalize prec emax m e false.
Definition num_of_Z (z : Z) : number := round_binary z 0.

(** The double nearest to [m * 10^e]. The quotient is taken to more than 60 bits,
    and its last bit says whether there is more. *)
Definition round_decimal (m e : Z) : number :=
  if 0 <=? e then num_of_Z (m * 10 ^ e)
  else
    let d := 10 ^ (- e) in
    let s := Z.max 0 (Z.log2 d - Z.log2 m + 64) in
    let q := m * 2 ^ s / d in
    let sticky := if m * 2 ^ s mod d =? 0 then 0 else 1 in
    round_binary (2 * q + sticky) (- s - 1).

Definition is_nan (x : number) : bool := match x with S754_nan => true | _ => false end.
Definition is_infinite (x : number) : bool := match x with S754_infinity _ => true | _ => false end.

(** [Number.isInteger]. *)
Definition isInteger (x : number) : bool :=
  match x with
  | S754_zero _ => true
  | S754_finite _ m e => (0 <=? e) || (Z.pos m mod 2 ^ (- e) =? 0)
  | _ => false
  end.

Definition num_lt (x y : number) : bool := SFltb x y.
Definition num_eq (x y : number) : bool := SFeqb x y.

(** ** Literals of numbers *)

Fixpoint digits (s : text) : list Z * text :=
  match s with
  | u :: s' => if is_digit u then let (d, r) := digits s' in (u - 48 :: d, r) else ([], s)
  | [] => ([], [])
  end.

Definition of_digits (base : Z) (l : list Z) : Z := foldl (fun a d => base * a + d) 0 l.

(** A sign, and what follows it. *)
Definition signed (s : text) : bool * text :=
  match s with
  | u :: s' => if u =? 43 then (false, s') else if u =? 45 then (true, s') else (false, s)
  | [] => (false, s)
  end.

Definition with_sign (negative : bool) (x : number) : number := if negative then SFopp x else x.

(** The longest decimal literal a text starts with, and the rest of the text. *)
Definition decimal_literal (s : text) : option (number * text) :=
  let (ip, r) := digits s in
  let (fp, r) := match r with
                 | u :: r' => if u =? 46 then digits r' else ([], r)
                 | [] => ([], r)
                 end in
  if Nat.eqb (length (ip ++ fp)) 0 then None
  else
    let (ex, r) :=
      match r with
      | u :: r' =>
          if (u =? 101) || (u =? 69) then
            let (negative, r'') := signed r' in
            let (d, r'') := digits r'' in
            if Nat.eqb (length d) 0 then (0, r)
            else ((if negative then - of_digits 10 d else of_digits 10 d), r'')
          else (0, r)
      | [] => (0, r)
      end in
    Some (round_decimal (of_digits 10 (ip ++ fp)) (ex - Z.of_nat (length fp)), r).

Definition infinity_literal (s : text) : option (number * text) :=
  if startsWith (js "Infinity") s then Some (S754_infinity false, drop 8 s) else decimal_literal s.

(** [parseFloat]. *)
Definition parseFloat (s : text) : number :=
  let (negative, r) := signed (trim_start s) in
  match infinity_literal r with Some (x, _) => with_sign negative x | None => S754_nan end.

(** [parseInt(s, 10)] of a sign and digits. *)
Definition parseInt (s : text) : number :=
  let (negative, r) := signed (trim_start s) in
  let (d, _) := digits r in
  if Nat.eqb (length d) 0 then S754_nan else with_sign negative (num_of_Z (of_digits 10 d)).

(** The digits of a base up to 16. *)
Definition digit_value (base u : Z) : option Z :=
  let v := if is_digit u then u - 48 else if (97 <=? lower_unit u) && (lower_unit u <=? 102)
           then lower_unit u - 87 else 99 in
  if v <? base then Some v else None.

Definition radix_literal (base : Z) (s : text) : number :=
  match mapM (digit_value base) s with
  | Some ((_ :: _) as l) => num_of_Z (of_digits base l)
  | _ => S754_nan
  end.

(** [Number(s)]. *)
Definition string_to_number (s : text) : number :=
  match trim s with
  | [] => num_of_Z 0
  | t =>
      let base := match take 2 t with
                  | [48; u] => match lower_unit u with 120 => 16 | 111 => 8 | 98 => 2 | _ => 10 end
                  | _ => 10
                  end in
      if base =? 10 then
        let (negative, r) := signed t in
        match infinity_literal r with
        | Some (x, []) => with_sign negative x
        | _ => S754_nan
        end
      else radix_literal base (drop 2 t)
  end.

(** ** Printing numbers *)

Fixpoint digits_fuel (fuel : nat) (n : Z) (acc : text) : text :=
  match fuel with
  | O => acc
  | S fuel => let acc := (48 + n mod 10) :: acc in if n <? 10 then acc else digits_fuel fuel (n / 10) acc
  end.

(** The decimal digits of a natural number, with its bits as fuel. *)
Definition digits_text (n : Z) : text := digits_fuel (S (Z.to_nat (Z.log2 n))) n [].

(** [x / 10^e] rounded to an integer, for [x = m * 2^b]. *)
Definition scaled (m b e : Z) : Z :=
  let n := m * 2 ^ Z.max 0 b * 10 ^ Z.max 0 (- e) in
  let d := 2 ^ Z.max 0 (- b) * 10 ^ Z.max 0 e in
  (2 * n + d) / (2 * d).

(** The [n] with [10^(n-1) <= m * 2^b < 10^n]. *)
Definition magnitude (m b : Z) : Z :=
  let i := m * 2 ^ Z.max 0 b / 2 ^ Z.max 0 (- b) in
  if 0 <? i then Z.of_nat (length (digits_text i))
  else
    let inv := (2 ^ (- b) - 1) / m in
    1 - Z.of_nat (length (digits_text inv)).

(** The fewest digits that read back, from [k] up, as an integer and the number
    of digits it was rounded to. *)
Fixpoint shortest (fuel : nat) (k : Z) (x : number) (m b n : Z) : Z * Z :=
  match fuel with
  | O => (scaled m b (n - k), k)
  | S fuel =>
      let s := scaled m b (n - k) in
      if round_decimal s (n - k) === x then (s, k) else shortest fuel (k + 1) x m b n
  end.

(** Digits without the zeros at their end: a carry may have left one. *)
Fixpoint strip_zeros (t : text) : text :=
  match t with
  | [] => []
  | u :: t => match strip_zeros t with [] => if u =? 48 then [] else [u] | r => u :: r end
  end.

Definition zeros (n : Z) : text := repeat 48 (Z.to_nat n).

(** [`${x}`]. *)
Definition number_text (x : number) : text :=
  match x with
  | S754_nan => js "NaN"
  | S754_zero _ => js "0"
  | S754_infinity s => (if s then js "-" else []) ++ js "Infinity"
  | S754_finite s m b =>
      let n := magnitude (Z.pos m) b in
      let (d, k) := shortest 16 1 (S754_finite false m b) (Z.pos m) b n in
      let n := n - k + Z.of_nat (length (digits_text d)) in
      let t := strip_zeros (digits_text d) in
      let k := Z.of_nat (length t) in
      (if s then js "-" else []) ++
      if (k <=? n) && (n <=? 21) then t ++ zeros (n - k)
      else if (0 <? n) && (n <=? 21) then take (Z.to_nat n) t ++ js "." ++ drop (Z.to_nat n) t
      else if (-6 <? n) && (n <=? 0) then js "0." ++ zeros (- n) ++ t
      else
        let e := n - 1 in
        let ex := js "e" ++ (if e <? 0 then js "-" else js "+") ++ digits_text (Z.abs e) in
        if k =? 1 then t ++ ex else take 1 t ++ js "." ++ drop 1 t ++ ex
  end.

(** [x.toFixed(1)] of an integer. *)
Definition toFixed_1 (x : number) : text :=
  match x with
  | S754_zero _ => js "0.0"
  | S754_finite s m b =>
      let i := Z.pos m * 2 ^ Z.max 0 b / 2 ^ Z.max 0 (- b) in
      if 10 ^ 21 <=? i then number_text x
      else (if s then js "-" else []) ++ digits_text i ++ js ".0"
  | _ => number_text x
  end.

(** ** Primitive values *)

(** [VNative t] is a function, or the prototype, that every object inherits;
    [t] is the string it converts to. *)
Inductive value :=
| VUndefined
| VNull
| VBool (b : bool)
| VNum (x : number)
| VStr (s : text)
| VNative (t : text).

#[export] Instance value_eq_dec : EqDecision value.
Proof. solve_decision. Defined.

Definition is_undefined (v : value) : bool := v === VUndefined.

(** [!!v]. *)
Definition truthy (v : value) : bool :=
  match v with
  | VUndefined | VNull => false
  | VBool b => b
  | VNum x => negb (is_nan x || num_eq x (num_of_Z 0))
  | VStr s => negb (Nat.eqb (length s) 0)
  | VNative _ => true
  end.

(** [a === b]. *)
Definition strict_equal (a b : value) : bool :=
  match a, b with
  | VNum x, VNum y => num_eq x y
  | VNum _, _ | _, VNum _ => false
  | _, _ => a === b
  end.

Definition to_number (v : value) : number :=
  match v with
  | VUndefined => S754_nan
  | VNull => num_of_Z 0
  | VBool b => num_of_Z (if b then 1 else 0)
  | VNum x => x
  | VStr s | VNative s => string_to_number s
  end.

(** The string of a value that a comparison takes as a string. *)
Definition as_string (v : value) : option text :=
  match v with VStr s | VNative s => Some s | _ => None end.

(** [a < b], or nothing when one of the numbers is not a number. *)
Definition less_than (a b : value) : option bool :=
  match as_string a, as_string b with
  | Some s, Some t => Some (text_ltb s t)
  | _, _ =>
      let x := to_number a in let y := to_number b in
      if is_nan x || is_nan y then None else Some (num_lt x y)
  end.

Definition js_lt (a b : value) : bool := bool_decide (less_than a b = Some true).
Definition js_gt (a b : value) : bool := js_lt b a.
Definition js_le (a b : value) : bool := bool_decide (less_than b a = Some false).
Definition js_ge (a b : value) : bool := js_le b a.

(** ** Objects *)

Abbreviation object := (list (text * value)).

(** The array index a key is, if it is one. *)
Definition array_index (k : text) : option Z :=
  match k with
  | [] => None
  | u :: k' =>
      if forallb is_digit k && (bool_decide (k' = []) || negb (u =? 48)) then
        let i := of_digits 10 ((fun u => u - 48) <$> k) in
        if i <? 2 ^ 32 - 1 then Some i else None
      else None
  end.

(** The own property of an object. *)
Definition own (k : text) (o : object) : option value :=
  snd <$> List.find (fun p => p.1 === k) o.

Definition native (f : string) : text := js ("function " ++ f ++ "() { [native code] }")%string.

(** The properties an object literal inherits. *)
Definition inherited_names : list string :=
  ["constructor"; "toString"; "toLocaleString"; "valueOf"; "hasOwnProperty"; "isPrototypeOf";
   "propertyIsEnumerable"; "__defineGetter__"; "__defineSetter__"; "__lookupGetter__";
   "__lookupSetter__"; "__proto__"]%string.

Definition inherited_value (k : text) : value :=
  match List.find (fun f => js f === k) inherited_names with
  | Some f =>
      if f === "constructor"%string then VNative (native "Object")
      else if f === "__proto__"%string then VNative (js "[object Object]")
      else VNative (native f)
  | None => VUndefined
  end.

(** [o[k]]. *)
Definition get (k : text) (o : object) : value :=
  match own k o with Some v => v | None => inherited_value k end.

(** Where a new property goes. *)
Definition before (k k' : text) : bool :=
  match array_index k, array_index k' with
  | Some i, Some j => i <? j
  | Some _, None => true
  | None, _ => false
  end.

Fixpoint insert_property (k : text) (v : value) (o : object) : object :=
  match o with
  | [] => [(k, v)]
  | (k', v') :: o' => if before k k' then (k, v) :: o else (k', v') :: insert_property k v o'
  end.

(** An own property gets a value: [{...o, [k]: v}]. *)
Definition define (k : text) (v : value) (o : object) : object :=
  match own k o with
  | Some _ => (fun p => if p.1 === k then (k, v) else p) <$> o
  | None => insert_property k v o
  end.

(** [o[k] = v] for a primitive [v]: the setter of [__proto__] ignores it. *)
Definition assign (k : text) (v : value) (o : object) : object :=
  match own k o with
  | None => if k === js "__proto__" then o else define k v o
  | Some _ => define k v o
  end.

(** [delete o[k]]. *)
Definition remove (k : text) (o : object) : object := filter (fun p => p.1 <> k) o.

(** ** JSON texts *)

Definition hex_digit (v : Z) : Z := if v <? 10 then 48 + v else 87 + v.
Definition unicode_escape (u : Z) : text :=
  js "\u" ++ [hex_digit (u / 4096 mod 16); hex_digit (u / 256 mod 16);
              hex_digit (u / 16 mod 16); hex_digit (u mod 16)].

Definition escape_unit (u : Z) : text :=
  if u =? 34 then [92; 34] else if u =? 92 then [92; 92]
  else if u =? 8 then js "\b" else if u =? 12 then js "\f" else if u =? 10 then js "\n"
  else if u =? 13 then js "\r" else if u =? 9 then js "\t"
  else if u <? 32 then unicode_escape u else [u].

Fixpoint escape (s : text) : text :=
  match s with
  | [] => []
  | u :: s' =>
      if is_high u then
        match s' with
        | v :: s'' => if is_low v then u :: v :: escape s'' else unicode_escape u ++ escape s'
        | [] => unicode_escape u
        end
      else if is_low u then unicode_escape u ++ escape s'
      else escape_unit u ++ escape s'
  end.

(** [JSON.stringify(s)] of a string. *)
Definition stringify (s : text) : text := 34 :: escape s ++ [34].

(** [l.join(",")]. *)
Fixpoint join_comma (l : list text) : text :=
  match l with [] => [] | [s] => s | s :: l => s ++ 44 :: join_comma l end.

(** [`${v}`]. *)
Definition value_text (v : value) : text :=
  match v with
  | VUndefined => js "undefined"
  | VNull => js "null"
  | VBool b => if b then js "true" else js "false"
  | VNum x => number_text x
  | VStr s | VNative s => s
  end.

(** ** Lemmas on objects *)

#[global] Arguments own : simpl never.

Lemma own_cons k p o : own k (p :: o) = if p.1 === k then Some p.2 else own k o.
Proof. unfold own. cbn. by case_bool_decide. Qed.

Lemma own_None k o : own k o = None <-> k ∉ o.*1.
Proof.
  induction o as [|[k' v] o IH]; [split; [intros _; apply not_elem_of_nil|done]|].
  rewrite own_cons. cbn. rewrite not_elem_of_cons. case_bool_decide; naive_solver.
Qed.

Lemma own_insert k k' v o : k' ∉ o.*1 ->
  own k (insert_property k' v o) = if k === k' then Some v else own k o.
Proof.
  induction o as [|[k2 v2] o IH]; cbn [insert_property fmap list_fmap].
  - intros _. rewrite own_cons. cbn. repeat case_bool_decide; congruence.
  - rewrite not_elem_of_cons. intros [Hne Hin]. cbn in Hne. destruct (before k' k2).
    + rewrite own_cons. cbn. repeat case_bool_decide; congruence.
    + rewrite !own_cons, IH by done. cbn. repeat case_bool_decide; congruence.
Qed.

Lemma own_define k k' v o : own k (define k' v o) = if k === k' then Some v else own k o.
Proof.
  unfold define. destruct (own k' o) as [w|] eqn:Hk'.
  - destruct (bool_decide_reflect (k = k')) as [->|Hne].
    + induction o as [|[k2 v2] o IH]; [done|]. rewrite own_cons in Hk'. cbn in *.
      case_bool_decide as Hk; cbn; rewrite own_cons; cbn.
      * by rewrite bool_decide_eq_true_2.
      * rewrite bool_decide_eq_false_2 by done. auto.
    + clear Hk'. induction o as [|[k2 v2] o IH]; [done|]. cbn.
      rewrite !own_cons, IH. cbn. repeat case_bool_decide; cbn in *; congruence.
  - by apply own_insert, own_None.
Qed.

Lemma own_assign k k' v o : k' <> js "__proto__" ->
  own k (assign k' v o) = if k === k' then Some v else own k o.
Proof.
  intros Hk. unfold assign. rewrite (bool_decide_eq_false_2 _ Hk).
  destruct (own k' o); apply own_define.
Qed.

Lemma own_remove k k' o : own k (remove k' o) = if k === k' then None else own k o.
Proof.
  unfold remove. induction o as [|[k2 v2] o IH].
  { by case_bool_decide. }
  rewrite own_cons. destruct (decide (k2 = k')) as [->|Hk].
  - rewrite filter_cons_False, IH by (cbn; tauto). cbn. repeat case_bool_decide; congruence.
  - rewrite filter_cons_True, own_cons, IH by done. cbn. repeat case_bool_decide; congruence.
Qed.

Lemma get_own k o v : own k o = Some v -> get k o = v.
Proof. unfold get. by intros ->. Qed.

(** ** The order of the properties *)

(** No key twice, and no key after one it comes before. *)
Definition in_order (o : object) : Prop := StronglySorted (fun p q => before q.1 p.1 = false) o.
Definition well_ordered (o : object) : Prop := NoDup o.*1 /\ in_order o.

Lemma before_trans k1 k2 k3 : before k2 k1 = false -> before k3 k2 = false -> before k3 k1 = false.
Proof.
  unfold before. destruct (array_index k1), (array_index k2), (array_index k3); try done.
  rewrite !Z.ltb_ge. lia.
Qed.

Lemma before_asym k1 k2 : before k1 k2 = true -> before k2 k1 = false.
Proof.
  unfold before. destruct (array_index k1), (array_index k2); try done. rewrite Z.ltb_lt, Z.ltb_ge. lia.
Qed.

(** A new property goes between those it does not come before and the others. *)
Lemma insert_split k v o : in_order o ->
  exists o1 o2, o = o1 ++ o2 /\ insert_property k v o = o1 ++ (k, v) :: o2 /\
    Forall (fun p => before k p.1 = false) o1 /\ Forall (fun p => before k p.1 = true) o2.
Proof.
  induction 1 as [|[k' v'] o Ho IH Hk'].
  - exists [], []. split_and!; done || constructor.
  - cbn. destruct (before k k') eqn:Hb.
    + exists [], ((k', v') :: o). split_and!; [done..|constructor|]. constructor; [done|].
      eapply Forall_impl; [exact Hk'|]. intros p Hp. cbn in Hp. destruct (before k p.1) eqn:Hkp; [done|].
      pose proof (before_trans _ _ _ Hp Hkp). cbn in *. congruence.
    + destruct IH as (o1&o2&->&->&H1&H2). exists ((k', v') :: o1), o2. split_and!; [done..| |done].
      by constructor.
Qed.

Lemma well_ordered_insert k v o : well_ordered o -> k ∉ o.*1 -> well_ordered (insert_property k v o).
Proof.
  intros [Hn Ho] Hk. destruct (insert_split k v o Ho) as (o1&o2&->&->&H1&H2). split.
  - rewrite fmap_app, fmap_cons. rewrite fmap_app in *. rewrite <- Permutation_middle. by constructor.
  - clear Hn Hk. induction o1 as [|[k1 v1] o1 IH]; cbn in *.
    + constructor; [done|]. eapply Forall_impl; [exact H2|]. intros p Hp. by apply before_asym.
    + apply StronglySorted_inv in Ho as [Ho Hk1]. apply Forall_cons in H1 as [H1 H1'].
      constructor; [by apply IH|]. apply Forall_app in Hk1 as [Ha Hb]. apply Forall_app. split; [done|].
      by constructor.
Qed.

Lemma fst_define_own k v o w : own k o = Some w ->
  ((fun p => if p.1 === k then (k, v) else p) <$> o).*1 = o.*1.
Proof.
  intros _. rewrite <- list_fmap_compose. apply list_fmap_ext. intros i [k' v'] _. cbn. by case_bool_decide.
Qed.

Lemma in_order_keys o o' : o.*1 = o'.*1 -> in_order o -> in_order o'.
Proof.
  intros He Ho. revert o' He. induction Ho as [|[k v] o Ho IH Hk]; intros [|[k' v'] o'] He; try done;
    [constructor|]. cbn in He. injection He as <- He. constructor; [by apply IH|].
  rewrite Forall_forall in *. intros [k2 v2] Hin. cbn.
  apply (list_elem_of_fmap_2 fst) in Hin. rewrite <- He in Hin. apply list_elem_of_fmap in Hin as ([k3 v3]&Hk3&Hin).
  cbn in Hk3. subst. exact (Hk _ Hin).
Qed.

Lemma well_ordered_define k v o : well_ordered o -> well_ordered (define k v o).
Proof.
  intros Ho. unfold define. destruct (own k o) as [w|] eqn:Hk; [|by apply well_ordered_insert, own_None].
  destruct Ho as [Hn Ho]. split; [by rewrite (fst_define_own _ _ _ _ Hk)|].
  eapply in_order_keys; [|exact Ho]. by rewrite (fst_define_own _ _ _ _ Hk).
Qed.

Lemma well_ordered_assign k v o : well_ordered o -> well_ordered (assign k v o).
Proof.
  intros Ho. unfold assign. destruct (own k o); [by apply well_ordered_define|].
  case_bool_decide; [done|by apply well_ordered_define].
Qed.

(** The properties whose key satisfies [P], when another key gets a value, or a
    new key after all of them. *)
Section Visible.
Context (P : text -> bool).

Definition visible (o : object) : object := filter (fun p => P p.1 = true) o.

Lemma visible_define_other k v o : in_order o -> P k = false -> visible (define k v o) = visible o.
Proof.
  intros Ho Hk. unfold define. destruct (own k o) as [w|].
  - clear Ho. unfold visible. induction o as [|[k' v'] o IH]; [done|]. cbn [fmap list_fmap].
    rewrite !filter_cons. cbn. case_bool_decide as Hk'; cbn.
    + subst k'. rewrite Hk, decide_False by done. rewrite decide_False by done. exact IH.
    + case_decide; [by f_equal|exact IH].
  - destruct (insert_split k v o Ho) as (o1&o2&->&->&_&_). unfold visible.
    rewrite !filter_app, filter_cons_False; [done|]. cbn. congruence.
Qed.

Lemma visible_assign_other k v o : in_order o -> P k = false -> visible (assign k v o) = visible o.
Proof.
  intros Ho Hk. unfold assign. destruct (own k o); [by apply visible_define_other|].
  case_bool_decide; [done|by apply visible_define_other].
Qed.

Lemma visible_insert_last k v o : in_order o -> P k = true ->
  (forall k', k' ∈ (visible o).*1 -> before k k' = false) ->
  visible (insert_property k v o) = visible o ++ [(k, v)].
Proof.
  intros Ho Hk Hlast. destruct (insert_split k v o Ho) as (o1&o2&->&->&_&H2). unfold visible in *.
  rewrite !filter_app in *. rewrite filter_cons_True by done.
  assert (Hnil : filter (fun p => P p.1 = true) o2 = []).
  { destruct (filter _ o2) as [|p l] eqn:Hf; [done|]. exfalso.
    assert (Hp : p ∈ filter (fun p => P p.1 = true) o2) by (rewrite Hf; left).
    assert (before k p.1 = false).
    { apply Hlast. rewrite fmap_app. apply elem_of_app. right. rewrite <- Hf. by apply list_elem_of_fmap_2. }
    apply list_elem_of_filter in Hp as [_ Hp]. rewrite Forall_forall in H2. specialize (H2 p Hp). congruence. }
  by rewrite Hnil, !app_nil_r.
Qed.

End Visible.

(** A property that has the value already. *)
Lemma define_same k v o : NoDup o.*1 -> own k o = Some v -> define k v o = o.
Proof.
  intros Hn Hk. unfold define. rewrite Hk. induction o as [|[k' v'] o IH]; [done|].
  rewrite own_cons in Hk. cbn in *. apply NoDup_cons in Hn as [Hk' Hn]. case_bool_decide as He.
  - subst k'. injection Hk as ->. f_equal. clear IH Hn. induction o as [|[k2 v2] o IH]; [done|].
    cbn in *. apply not_elem_of_cons in Hk' as [Hk2 Hk']. rewrite bool_decide_eq_false_2 by (cbn; congruence).
    f_equal. by apply IH.
  - f_equal. by apply IH.
Qed.

Lemma own_elem k v o : NoDup o.*1 -> (k, v) ∈ o -> own k o = Some v.
Proof.
  induction o as [|[k' v'] o IH]; [by intros _ ?%elem_of_nil|]. cbn.
  intros [Hk' Hn]%NoDup_cons Hin. rewrite own_cons. cbn. apply elem_of_cons in Hin as [[= <- <-]|Hin].
  - by rewrite bool_decide_eq_true_2.
  - rewrite bool_decide_eq_false_2; [by apply IH|]. intros ->. apply Hk'.
    by apply (list_elem_of_fmap_2 fst) in Hin.
Qed.

Lemma elem_own k v o : own k o = Some v -> (k, v) ∈ o.
Proof.
  induction o as [|[k' v'] o IH]; [done|]. rewrite own_cons. cbn. case_bool_decide.
  - intros [= ->]. subst. left.
  - intros ?. right. auto.
Qed.

Lemma assign_same k v o : NoDup o.*1 -> own k o = Some v -> assign k v o = o.
Proof. intros Hn Hk. unfold assign. rewrite Hk. by apply define_same. Qed.

Lemma elem_of_define k k' v o : k ∈ (define k' v o).*1 -> k = k' \/ k ∈ o.*1.
Proof.
  intros Hk. destruct (decide (k = k')) as [|Hne]; [by left|right].
  apply dec_stable. intros Hn. apply own_None in Hn.
  assert (own k (define k' v o) = None) by by rewrite own_define, bool_decide_eq_false_2.
  by apply own_None in H.
Qed.

Lemma elem_of_assign k k' v o : k ∈ (assign k' v o).*1 -> k = k' \/ k ∈ o.*1.
Proof.
  unfold assign. destruct (own k' o); [apply elem_of_define|]. case_bool_decide; [by right|apply elem_of_define].
Qed.
