(* ===== verification/QueueServiceHandlers.v ===== *)
(** * QueueServiceHandlers: the requests on queues and on the queue service

    src/src/queue/handlers/QueueHandler.ts and ServiceHandler.ts over the queue metadata
    store. Raw headers are an array of names and values in turn; names of metadata are
    no array indices. [root_names] is what parseXML of a body has as properties, none for
    an empty body. The endpoint of a request is an argument; the version header of the
    responses is left out. *)

From stdpp Require Import pretty.
From S2P Require JsValues.
From S2P Require Import Prelude Errors Extents Loki Utf8 Texts QueueStore QueueHandlers.
Open Scope Z_scope.
Open Scope azurite_scope.

(** ** Settings of the service: generated/artifacts/models.ts *)

Record CorsRule := mkCorsRule {
  allowedOrigins : string;
  allowedMethods : string;
  allowedHeaders : option string;
  exposedHeaders : option string;
  maxAgeInSeconds : Z
}.
Record RetentionPolicy := mkRetentionPolicy { rp_enabled : bool; rp_days : option Z }.
Record Metrics := mkMetrics {
  m_version : option string;
  m_enabled : bool;
  m_includeAPIs : option bool;
  m_retentionPolicy : option RetentionPolicy
}.
Record Logging := mkLogging {
  l_version : string;
  l_deleteProperty : bool;
  l_read : bool;
  l_write : bool;
  l_retentionPolicy : RetentionPolicy
}.
Inductive Setting := SCors (rules : list CorsRule) | SMetrics (m : Metrics) | SLogging (l : Logging).

Abbreviation Settings := (ServicePropertiesModel Setting).

(** src/src/queue/utils/constants.ts. *)
Definition QUEUE_SERVICE_PERMISSION : string := "raup".
Definition LIST_QUEUE_MAXRESULTS_MIN : Z := 1.
Definition LIST_QUEUE_MAXRESULTS_MAX : Z := 2147483647.
Definition X_MS_META : string := "x-ms-meta-".
Definition LIST_QUEUES_MAX_RESULTS_DEFAULT : Z := 5000.

Definition no_metrics : Metrics := mkMetrics (Some "1.0"%string) false None (Some (mkRetentionPolicy false None)).

(** The parts the service knows. *)
Definition defaultServiceProperties (accountName : string) : Settings :=
  mkServiceProperties accountName (Some (SCors [])) (Some (SMetrics no_metrics))
    (Some (SLogging (mkLogging "1.0" true true true (mkRetentionPolicy false None)))) (Some (SMetrics no_metrics)).

Definition or_default (o d : option Setting) : option Setting := match o with Some x => Some x | None => d end.

(** The settings that are [undefined] are set in the document. *)
Definition with_defaults (p : Settings) : Settings :=
  let d := defaultServiceProperties p.(sp_accountName) in
  mkServiceProperties p.(sp_accountName) (or_default p.(sp_cors) d.(sp_cors))
    (or_default p.(sp_hourMetrics) d.(sp_hourMetrics)) (or_default p.(sp_logging) d.(sp_logging))
    (or_default p.(sp_minuteMetrics) d.(sp_minuteMetrics)).

Definition fill_cors (c : CorsRule) : CorsRule :=
  mkCorsRule c.(allowedOrigins) c.(allowedMethods) (Some (default EmptyString c.(allowedHeaders)))
    (Some (default EmptyString c.(exposedHeaders))) c.(maxAgeInSeconds).

(** What becomes of the rules of a body. *)
Definition given_cors (has_cors : bool) (cors : option Setting) : option Setting :=
  if has_cors then
    match cors with
    | Some (SCors rules) => Some (SCors (fill_cors <$> rules))
    | c => c
    end
  else None.

(** ** Metadata *)

(** [o[name] = value]: nothing is stored under [__proto__]. *)
Fixpoint assign (name value : string) (o : IQueueMetadata) : IQueueMetadata :=
  if name === "__proto__"%string then o
  else match o with
       | [] => [(name, value)]
       | (k, v) :: o => if k === name then (name, value) :: o else (k, v) :: assign name value o
       end.

Definition substr (n : nat) (s : string) : string := String.substring n (String.length s - n) s.

(** The first of the raw headers, names or values, that is the name of the item gives the
    name its case. *)
Definition original_name (item : string) (headers : list string) : option string :=
  substr (String.length X_MS_META) <$> List.find (fun name => (X_MS_META ++ item)%string === toLowerCase name) headers.

Definition parseMetadata (reqMetadata : option IQueueMetadata) (headers : list string) : res (option IQueueMetadata) :=
  match reqMetadata with
  | None => Ok None
  | Some reqMetadata =>
      throw_when (negb (hasOwnProperty_callable reqMetadata)) TypeError;;
      Ok (Some (foldl (fun metadata p =>
                   match original_name p.1 headers with
                   | Some name => assign name p.2 metadata
                   | None => metadata
                   end) [] reqMetadata))
  end.

(** ** Access policies *)

(** The characters of a string. *)
Definition within (permissions s : string) : bool :=
  forallb (fun c => bool_decide (c ∈ String.list_ascii_of_string permissions)) (String.list_ascii_of_string s).

(** At most five policies, with the permissions of queues. *)
Definition valid_acl (queueAcl : option (list AccessPolicy)) : bool :=
  match queueAcl with
  | None => true
  | Some acl =>
      negb (5 <? Z.of_nat (length acl))
      && forallb (fun p => match p.(ap_permission) with
                           | Some permission => within QUEUE_SERVICE_PERMISSION permission
                           | None => true
                           end) acl
  end.

(** ** Lists *)

(** [parseInt(s, 10)] as a lower bound of document ids: NaN is below all of them. *)
Definition parse_marker (s : string) : Z :=
  let (negative, r) := JsValues.signed (trim_start (js s)) in
  let value := JsValues.of_digits 10 (JsValues.digits r).1 in
  if negative then - value else value.

Record QueuesSegment := mkQueuesSegment {
  queueItems : list QueueModel;
  maxResults : Z;
  nextMarker : string;
  prefix : string;
  serviceEndpoint : string
}.

(** The responses that have no date. *)
Record Undated (A : Type) := mkUndated {
  ud_items : A;
  ud_requestId : option string;
  ud_statusCode : Z;
  ud_clientRequestId : option string
}.
Arguments mkUndated {A}.
Arguments ud_items {A}.
Arguments ud_requestId {A}.
Arguments ud_statusCode {A}.
Arguments ud_clientRequestId {A}.

Definition without_metadata (q : QueueModel) : QueueModel :=
  mkQueueModel q.(q_accountName) q.(q_name) q.(q_queueAcl) None.

Section Handlers.
Context {coll : Type -> Type} `{Loki coll}.
Context (root_names : string -> res (option (list string))).
Abbreviation store := (proc (QueueDb coll Setting) exn).
Implicit Types (ctx : QueueContext).

Definition respond {A} ctx (statusCode : Z) (clientId : option string) (x : A) : Response A :=
  mkResponse x ctx.(startTime) ctx.(contextID) statusCode clientId.

(** ** src/src/queue/handlers/QueueHandler.ts *)

Definition status_of (code : QUEUE_STATUSCODE) : Z := match code with CREATED => 201 | NOCONTENT => 204 end.

Definition create (metadata : option IQueueMetadata) (rawHeaders : list string) (clientId : option string) ctx :
    store (Response unit) :=
  metadata ← lift (parseMetadata metadata rawHeaders);
  statusCode ← createQueue (mkQueueModel ctx.(ctx_account) ctx.(ctx_queue) None metadata) ctx.(contextID);
  mret (respond ctx (status_of statusCode) clientId tt).

Definition delete_queue (clientId : option string) ctx : store (Response unit) :=
  _ ← deleteQueue ctx.(ctx_account) ctx.(ctx_queue) ctx.(contextID);
  mret (respond ctx 204 clientId tt).

(** The number of messages is asked for without the context. *)
Definition getProperties (clientId : option string) ctx : store (Response (Z * option IQueueMetadata)) :=
  queue ← getQueue ctx.(ctx_account) ctx.(ctx_queue) ctx.(contextID);
  approximateMessagesCount ← getMessagesCount queue.(q_accountName) queue.(q_name) None;
  mret (respond ctx 200 clientId (approximateMessagesCount, queue.(q_metadata))).

Definition getPropertiesWithHead := getProperties.

Definition setMetadata (metadata : option IQueueMetadata) (rawHeaders : list string) (clientId : option string) ctx :
    store (Response unit) :=
  metadata ← lift (parseMetadata metadata rawHeaders);
  _ ← setQueueMetadata ctx.(ctx_account) ctx.(ctx_queue) metadata ctx.(contextID);
  mret (respond ctx 204 clientId tt).

Definition getAccessPolicy (clientId : option string) ctx : store (Response (list AccessPolicy)) :=
  queue ← getQueue ctx.(ctx_account) ctx.(ctx_queue) ctx.(contextID);
  mret (respond ctx 200 clientId (default [] queue.(q_queueAcl))).

Definition getAccessPolicyWithHead := getAccessPolicy.

Definition setAccessPolicy (queueAcl : option (list AccessPolicy)) (clientId : option string) ctx :
    store (Response unit) :=
  _ ← lift (throw_when (negb (valid_acl queueAcl)) (QueueErrors.getInvalidXmlDocument ctx.(contextID) []);; Ok tt);
  _ ← setQueueACL ctx.(ctx_account) ctx.(ctx_queue) queueAcl ctx.(contextID);
  mret (respond ctx 204 clientId tt).

(** ** src/src/queue/handlers/ServiceHandler.ts *)

(** Whether the body has rules. *)
Definition has_cors (body : option string) : res bool :=
  names ← root_names (default EmptyString body);
  match names with
  | None => Throw TypeError
  | Some names => Ok (existsb (fun n => bool_decide (n ∈ ["cors"; "Cors"]%string)) names)
  end.

Definition setProperties (p : Settings) (clientId : option string) ctx : store (Undated unit) :=
  cors ← lift (has_cors ctx.(ctx_body));
  _ ← updateServiceProperties
        (mkServiceProperties ctx.(ctx_account) (given_cors cors p.(sp_cors)) p.(sp_hourMetrics) p.(sp_logging)
           p.(sp_minuteMetrics));
  mret (mkUndated tt ctx.(contextID) 202 clientId).

(** The store returns the document itself, which is changed. *)
Definition getServiceProperties (clientId : option string) ctx : store (Undated Settings) :=
  s ← get_state;
  p ← match findOne (fun d => d.(sp_accountName) === ctx.(ctx_account)) s.(services) with
      | Some (i, doc) =>
          _ ← update_db (set_services (lk_update i (with_defaults doc) s.(services)));
          mret (with_defaults doc)
      | None => mret (defaultServiceProperties ctx.(ctx_account))
      end;
  mret (mkUndated p ctx.(contextID) 200 clientId).

(** The status of the replication is [live], its time that of the request. *)
Definition getStatistics (isSecondary : bool) (clientId : option string) ctx : store (Response Z) :=
  _ ← lift (throw_when (negb isSecondary) (QueueErrors.getInvalidQueryParameterValue ctx.(contextID) []);; Ok tt);
  mret (respond ctx 200 clientId ctx.(startTime)).

Definition listQueuesSegment (options_prefix : option string) (maxresults : option Z) (marker : option string)
    (include : option (list string)) (endpoint : string) (clientId : option string) ctx : store (Undated QueuesSegment) :=
  maxresults ← lift (check_range ctx "maxresults" LIST_QUEUE_MAXRESULTS_MIN LIST_QUEUE_MAXRESULTS_MAX maxresults);
  let maxresults := default LIST_QUEUES_MAX_RESULTS_DEFAULT maxresults in
  let prefix := default EmptyString options_prefix in
  queues ← listQueues ctx.(ctx_account) prefix maxresults (parse_marker (str_or (default EmptyString marker) "0"));
  let includeMetadata := existsb (fun item => toLowerCase item === "metadata"%string) (default [] include) in
  let items := if includeMetadata then queues.1 else without_metadata <$> queues.1 in
  let next := match queues.2 with Some n => if n =? 0 then EmptyString else pretty n | None => EmptyString end in
  mret (mkUndated (mkQueuesSegment items maxresults next prefix (endpoint ++ "/" ++ ctx.(ctx_account))%string)
          ctx.(contextID) 200 clientId).

(** ** The operations on queues and on the service *)

Inductive management :=
| Create (metadata : option IQueueMetadata) (rawHeaders : list string) (clientId : option string)
| DeleteQ (clientId : option string)
| GetProperties (clientId : option string)
| SetMetadata (metadata : option IQueueMetadata) (rawHeaders : list string) (clientId : option string)
| GetAccessPolicy (clientId : option string)
| SetAccessPolicy (queueAcl : option (list AccessPolicy)) (clientId : option string)
| SetServiceProperties (p : Settings) (clientId : option string)
| GetServiceProperties (clientId : option string)
| GetStatistics (isSecondary : bool) (clientId : option string)
| ListQueuesSegment (options_prefix : option string) (maxresults : option Z) (marker : option string)
    (include : option (list string)) (endpoint : string) (clientId : option string).

(** The status of the answer of an operation. *)
Definition manage (o : management) ctx : store Z :=
  match o with
  | Create metadata headers cid => r ← create metadata headers cid ctx; mret r.(statusCode)
  | DeleteQ cid => r ← delete_queue cid ctx; mret r.(statusCode)
  | GetProperties cid => r ← getProperties cid ctx; mret r.(statusCode)
  | SetMetadata metadata headers cid => r ← setMetadata metadata headers cid ctx; mret r.(statusCode)
  | GetAccessPolicy cid => r ← getAccessPolicy cid ctx; mret r.(statusCode)
  | SetAccessPolicy acl cid => r ← setAccessPolicy acl cid ctx; mret r.(statusCode)
  | SetServiceProperties p cid => r ← setProperties p cid ctx; mret r.(ud_statusCode)
  | GetServiceProperties cid => r ← getServiceProperties cid ctx; mret r.(ud_statusCode)
  | GetStatistics secondary cid => r ← getStatistics secondary cid ctx; mret r.(statusCode)
  | ListQueuesSegment p n m i e cid => r ← listQueuesSegment p n m i e cid ctx; mret r.(ud_statusCode)
  end.
End Handlers.

Example cased_name :
  parseMetadata (Some [("owner", "me"); ("lost", "x")]%string) ["Host"; "h"; "X-MS-Meta-Owner"; "me"]%string
  = Ok (Some [("Owner", "me")]%string).
Proof. by vm_compute. Qed.

Example markers : parse_marker " 12x" = 12 /\ parse_marker "-3" = -3 /\ parse_marker "next" = 0.
Proof. by vm_compute. Qed.
