(* ===== verification/QueueHandlersSpec.v ===== *)
(** * QueueHandlersSpec: theorems about the queue service

    Over any extent store with the promised behaviour, the queue service is a map
    from message ids to texts: what a dequeue or a peek returns for a message is
    the text of its last enqueue or update. Each request makes at most one request on the
    store of queues ([one_request]), so that what holds of all histories of the store
    holds of the service: its invariant, and the lock of a delivered message. *)

From S2P Require Import Prelude Errors Extents Loki ExtentMetadata MemoryExtentStore.
From S2P Require Import MemoryExtentStoreSpec QueueStore QueueStoreSpec Utf8 QueueHandlers.
From S2P Require Import QueueServiceHandlers.
Open Scope Z_scope.
Open Scope azurite_scope.

Section Texts.
Context {coll : Type -> Type} `{LokiLaws coll} {E : Type} `{IExtentStoreLaws E} `{ReadStreamLaws}.
Abbreviation P := Setting.
Context (parseXMLwithEmpty : string -> res (list (string * text))) (root_names : string -> res (option (list string))).
Implicit Types (w : QueueService coll P E) (T : gmap string text) (s : QueueDb coll P).

(** ** The texts in the stores *)

(** A text without lone surrogates of at most 65536 bytes. *)
Definition storable (t : text) : Prop :=
  well_formed t = true /\ getUTF8ByteSize t <= MESSAGETEXT_LENGTH_MAX.

Lemma read_storable t : storable t -> readStreamToString (pieces (Buffer_from t)) = t.
Proof.
  intros [Hw Hs]. pose proof (pieces_small (Buffer_from t) Hs) as Hl. pose proof (pieces_concat (Buffer_from t)) as Hc.
  unfold readStreamToString. destruct (pieces (Buffer_from t)) as [|b [|]]; [| |cbn in Hl; lia].
  - cbn in Hc |- *. rewrite <- (toString_Buffer_from t Hw), <- Hc. by vm_compute.
  - cbn in Hc |- *. rewrite !app_nil_r in *. rewrite Hc. by apply toString_Buffer_from.
Qed.

(** Every message has its own id, and its chunk holds the text of the map. *)
Definition texts_ok T w : Prop :=
  unique_ids w.(metadataStore) /\
  forall i m, msgs w.(metadataStore) !! i = Some m -> exists t,
    T !! m.(messageId) = Some t /\ storable t /\
    stored w.(extentStore) m.(persistency) (Buffer_from t).

(** A change of the messages that leaves the ids and the texts alone. *)
Definition derives s s' : Prop := forall i m', msgs s' !! i = Some m' ->
  exists m, msgs s !! i = Some m /\ m.(messageId) = m'.(messageId) /\ m.(persistency) = m'.(persistency).

Lemma texts_derives T d e d' e' :
  texts_ok T (mkQueueService d e) -> derives d d' ->
  (forall c b, stored e c b -> stored e' c b) -> texts_ok T (mkQueueService d' e').
Proof.
  intros [Hu Ht] Hd He. split; cbn in *.
  - intros i j m m' Hi Hj Hid. destruct (Hd i m Hi) as (m0&Hm0&E0&_), (Hd j m' Hj) as (m1&Hm1&E1&_).
    apply (Hu i j m0 m1); [done|done|congruence].
  - intros i m Hi. destruct (Hd i m Hi) as (m0&Hm0&E0&E1). destruct (Ht i m0 Hm0) as (t&?&?&?).
    exists t. rewrite <- E0, <- E1. auto.
Qed.

Lemma derives_refl s : derives s s.
Proof. intros i m Hi. by exists m. Qed.

Lemma derives_trans s1 s2 s3 : derives s1 s2 -> derives s2 s3 -> derives s1 s3.
Proof.
  intros D12 D23 i m Hi. destruct (D23 i m Hi) as (m2&Hm2&E2&F2).
  destruct (D12 i m2 Hm2) as (m1&Hm1&E1&F1). exists m1. split; [done|]. split; congruence.
Qed.

Lemma derives_without p s : derives s (without p s).
Proof.
  intros i m. rewrite msgs_without. destruct (msgs s !! i) as [m0|]; [|done].
  destruct (p m0); [done|]. intros [= <-]. by exists m0.
Qed.

Lemma derives_hand_out vt pr ds a n t k s : delivery a n t k s ds -> derives s (hand_out vt pr ds s).
Proof.
  intros Hd i m. rewrite (msgs_hand_out vt pr ds s i a n t k Hd).
  destruct (msgs s !! i) as [m0|]; [|done]. intros [= <-]. exists m0. by case_bool_decide.
Qed.

Lemma derives_remove i s : derives s (set_messages (lk_remove i s.(messages)) s).
Proof. intros j m. unfold msgs. cbn. rewrite docs_remove. intros [_ Hj]%lookup_delete_Some. by exists m. Qed.

(** A new message, whose text has just been stored. *)
Lemma texts_insert T d e m t :
  texts_ok T (mkQueueService d e) -> T !! m.(messageId) = None -> storable t ->
  stored e m.(persistency) (Buffer_from t) ->
  texts_ok (<[m.(messageId) := t]> T)
    (mkQueueService (set_messages (lk_insert (messageCopy m) d.(messages)) d) e).
Proof.
  rewrite messageCopy_id. intros [Hu Ht] Hnew Hw Hs. unfold texts_ok, unique_ids, msgs in *. cbn in *.
  rewrite docs_insert.
  assert (Hne : forall i m', docs (messages d) !! i = Some m' -> m'.(messageId) <> m.(messageId)).
  { intros i m' Hi Heq. destruct (Ht i m' Hi) as (t'&Ht'&_). rewrite Heq in Ht'. congruence. }
  split.
  - intros i j m1 m2 [[<- <-]|[? Hi]]%lookup_insert_Some [[<- <-]|[? Hj]]%lookup_insert_Some Hid; [done|..].
    + by destruct (Hne j m2 Hj).
    + by destruct (Hne i m1 Hi).
    + by apply (Hu i j m1 m2).
  - intros i m' [[<- <-]|[? Hi]]%lookup_insert_Some.
    + exists t. by rewrite lookup_insert_eq.
    + rewrite lookup_insert_ne by (symmetry; by apply (Hne i)). by apply (Ht i).
Qed.

(** A message whose text is replaced. *)
Lemma texts_update T d e i m m' t :
  texts_ok T (mkQueueService d e) -> msgs d !! i = Some m -> m'.(messageId) = m.(messageId) ->
  storable t -> stored e m'.(persistency) (Buffer_from t) ->
  texts_ok (<[m.(messageId) := t]> T)
    (mkQueueService (set_messages (lk_update i m' d.(messages)) d) e).
Proof.
  intros [Hu Ht] Hi Hid Hw Hs. unfold texts_ok, unique_ids, msgs in *. cbn in *.
  rewrite docs_update by by eexists. split.
  - intros j k m1 m2 [[<- <-]|[? Hj]]%lookup_insert_Some [[<- <-]|[? Hk]]%lookup_insert_Some Heq; [done|..].
    + apply (Hu i k m m2); [done|done|congruence].
    + apply (Hu j i m1 m); [done|done|congruence].
    + by apply (Hu j k m1 m2).
  - intros j m1 [[<- <-]|[? Hj]]%lookup_insert_Some.
    + exists t. rewrite Hid, lookup_insert_eq. auto.
    + rewrite lookup_insert_ne; [by apply (Ht j)|]. intros Heq. by rewrite (Hu j i m1 m Hj Hi) in *.
Qed.

(** The same message without a new text. *)
Lemma derives_update i m m' s :
  msgs s !! i = Some m -> m'.(messageId) = m.(messageId) -> m'.(persistency) = m.(persistency) ->
  derives s (set_messages (lk_update i m' s.(messages)) s).
Proof.
  intros Hi Hid Hp j m1. unfold msgs in *. cbn. rewrite docs_update by by eexists.
  intros [[<- <-]|[? Hj]]%lookup_insert_Some; [by exists m|by exists m1].
Qed.

(** Messages of the store read back with their texts. *)
Lemma with_texts_ok T w ctx ms :
  texts_ok T w ->
  (forall m, m ∈ ms -> exists i m0, msgs w.(metadataStore) !! i = Some m0 /\
     m0.(messageId) = m.(messageId) /\ m0.(persistency) = m.(persistency)) ->
  exists l, with_texts ctx ms w.(extentStore) = Ok l /\ l.*1 = ms /\
    forall m t, (m, t) ∈ l -> T !! m.(messageId) = Some t.
Proof.
  intros [_ Ht]. induction ms as [|m ms IH]; intros Hms; cbn.
  { exists []. split_and!; [done|done|]. intros m t Hin. by apply elem_of_nil in Hin. }
  destruct (Hms m (list_elem_of_here _ _)) as (i&m0&Hi&E0&E1).
  destruct (Ht i m0 Hi) as (t&HT&Hw&Hs). rewrite E1 in Hs. rewrite (read_stored _ _ _ Hs). cbn.
  destruct IH as (l&->&Hl&HlT); [intros m' Hm'; apply Hms; by right|]. cbn.
  eexists. split; [done|]. cbn. split; [by rewrite Hl|].
  intros m' t' [[= -> ->]|Hin]%elem_of_cons; [|by apply HlT].
  by rewrite read_storable, <- E0 by done.
Qed.

(** ** The requests *)

Inductive call :=
| Enqueue (messageText : option text) (visibilitytimeout messageTimeToLive : option Z)
    (clientId : option string) (messageId popReceipt extentId : string) (ctx : QueueContext)
| UpdateM (messageText : option text) (popReceipt : string) (visibilitytimeout : option Z)
    (clientId : option string) (newPopReceipt extentId : string) (ctx : QueueContext)
| Dequeue (visibilitytimeout numberOfMessages : option Z) (clientId : option string)
    (popReceipt : string) (ctx : QueueContext)
| Peek (numberOfMessages : option Z) (clientId : option string) (ctx : QueueContext)
| Clear (clientId : option string) (ctx : QueueContext)
| Delete (popReceipt : string) (clientId : option string) (ctx : QueueContext)
| Manage (o : management) (ctx : QueueContext).

(** A request: the messages it returns with their texts, and the stores after it. *)
Definition perform (q : call) w : res (list (MessageModel * text)) * QueueService coll P E :=
  match q with
  | Enqueue t vt ttl cid mid pr eid ctx =>
      let (r, w) := enqueue parseXMLwithEmpty t vt ttl cid mid pr eid ctx w in (r ≫= (fun _ => Ok []), w)
  | UpdateM t pr vt cid npr eid ctx =>
      let (r, w) := update parseXMLwithEmpty t pr vt cid npr eid ctx w in (r ≫= (fun _ => Ok []), w)
  | Dequeue vt n cid pr ctx =>
      let (r, w) := dequeue vt n cid pr ctx w in (r ≫= (fun x => Ok x.(items)), w)
  | Peek n cid ctx => let (r, w) := peek n cid ctx w in (r ≫= (fun x => Ok x.(items)), w)
  | Clear cid ctx => let (r, w) := clear cid ctx w in (r ≫= (fun _ => Ok []), w)
  | Delete pr cid ctx => let (r, w) := delete_message pr cid ctx w in (r ≫= (fun _ => Ok []), w)
  | Manage o ctx => let (r, w) := on_db (manage root_names o ctx) w in (r ≫= (fun _ => Ok []), w)
  end.

(** The status of the answer to a request. *)
Definition status_of_call (q : call) w : res Z :=
  match q with
  | Enqueue t vt ttl cid mid pr eid ctx => statusCode <$> (enqueue parseXMLwithEmpty t vt ttl cid mid pr eid ctx w).1
  | UpdateM t pr vt cid npr eid ctx => statusCode <$> (update parseXMLwithEmpty t pr vt cid npr eid ctx w).1
  | Dequeue vt n cid pr ctx => statusCode <$> (dequeue vt n cid pr ctx w).1
  | Peek n cid ctx => statusCode <$> (peek n cid ctx w).1
  | Clear cid ctx => statusCode <$> (clear cid ctx w).1
  | Delete pr cid ctx => statusCode <$> (delete_message pr cid ctx w).1
  | Manage o ctx => (on_db (manage root_names o ctx) w).1
  end.

(** The text a request sends, the message it is for, and the id of its extent. *)
Definition sends (q : call) : option (text * string * string) :=
  let sent mt ctx id eid :=
    match message_text parseXMLwithEmpty ctx mt with
    | Ok (Some t) => Some (t, id, eid)
    | _ => None
    end in
  match q with
  | Enqueue mt _ _ _ mid _ eid ctx => sent mt ctx mid eid
  | UpdateM mt _ _ _ _ eid ctx => sent mt ctx ctx.(ctx_messageId) eid
  | _ => None
  end.

(** The map of the texts after a request with the outcome [r]. *)
Definition texts_after T (q : call) (r : res (list (MessageModel * text))) : gmap string text :=
  match r, sends q with
  | Ok _, Some (t, id, _) => <[id := t]> T
  | _, _ => T
  end.

(** The ids a request draws are new, and its text is Unicode. *)
Definition admissible T w (q : call) : Prop :=
  match sends q with
  | Some (t, id, eid) => well_formed t = true /\ fresh w.(extentStore) eid /\
      match q with Enqueue _ _ _ _ _ _ _ _ => T !! id = None | _ => True end
  | None => True
  end.

(** What a run of requests can reach from a store without messages. *)
Inductive reaches : gmap string text -> QueueService coll P E -> Prop :=
| reaches_empty w : msgs w.(metadataStore) = ∅ -> reaches ∅ w
| reaches_step T w q r w' :
    reaches T w -> admissible T w q -> perform q w = (r, w') -> reaches (texts_after T q r) w'.

Definition reads (q : call) : bool := match q with Dequeue _ _ _ _ _ | Peek _ _ _ => true | _ => false end.

(** What one request does. *)
Definition request_ok T (q : call) (r : res (list (MessageModel * text))) w' : Prop :=
  texts_ok (texts_after T q r) w' /\
  (forall l m t, r = Ok l -> (m, t) ∈ l -> T !! m.(messageId) = Some t) /\
  (forall e, r = Throw e -> reads q = true -> exists se, e = Storage se).

Lemma check_range_throws ctx name lo hi v e :
  check_range ctx name lo hi v = Throw e -> exists se, e = Storage se.
Proof.
  unfold check_range. destruct v; [|done]. destruct (_ || _); [|done]. intros [= <-]. by eexists.
Qed.

Lemma next_visible_throws ctx d lo hi v e :
  next_visible ctx d lo hi v = Throw e -> exists se, e = Storage se.
Proof.
  unfold next_visible. destruct (check_range _ _ _ _ _) eqn:Hc; cbn; [done|].
  intros [= <-]. by eapply check_range_throws.
Qed.

Lemma number_of_messages_throws ctx n e : number_of_messages ctx n = Throw e -> exists se, e = Storage se.
Proof.
  unfold number_of_messages. destruct (check_range _ _ _ _ _) eqn:Hc; cbn; [done|].
  intros [= <-]. by eapply check_range_throws.
Qed.

Lemma read_messages_ok T w ctx ms cid r w' :
  texts_ok T w -> read_messages ctx ms cid w = (r, w') ->
  (forall m, m ∈ ms -> exists i m0, msgs w.(metadataStore) !! i = Some m0 /\
     m0.(messageId) = m.(messageId) /\ m0.(persistency) = m.(persistency)) ->
  w' = w /\ exists x, r = Ok x /\ forall m t, (m, t) ∈ x.(items) -> T !! m.(messageId) = Some t.
Proof.
  intros Ht Hr Hms. destruct (with_texts_ok T w ctx ms Ht Hms) as (l&Hl&_&HT).
  unfold read_messages in Hr. revert Hr. run. rewrite Hl. intros [= <- <-]. split; [done|].
  by eexists.
Qed.


(** A request that is refused. *)
Lemma refused_ok T q e w :
  texts_ok T w -> (reads q = true -> exists se, e = Storage se) -> request_ok T q (Throw e) w.
Proof. intros Ht He. split_and!; [done|done|]. intros e' [= <-]. exact He. Qed.

(** A request that reads the messages [ms] of the store it leaves. *)
Lemma read_ok T q w ctx ms cid r w' :
  texts_ok T w -> sends q = None -> read_messages ctx ms cid w = (r, w') ->
  (forall m, m ∈ ms -> exists i m0, msgs w.(metadataStore) !! i = Some m0 /\
     m0.(messageId) = m.(messageId) /\ m0.(persistency) = m.(persistency)) ->
  request_ok T q (r ≫= (fun x => Ok x.(items))) w'.
Proof.
  intros Ht Hs Hr Hms. destruct (read_messages_ok T w ctx ms cid r w' Ht Hr Hms) as (->&x&->&HT).
  unfold request_ok, texts_after. rewrite Hs. cbn. split_and!; [done| |done].
  intros l m t [= <-]. apply HT.
Qed.

Lemma dequeue_ok T w vt n cid pr ctx r w' :
  texts_ok T w -> perform (Dequeue vt n cid pr ctx) w = (r, w') -> request_ok T (Dequeue vt n cid pr ctx) r w'.
Proof.
  intros Ht. unfold perform, dequeue. run.
  destruct (next_visible _ _ _ _ vt) as [tnv|e] eqn:Hv.
  2: { intros [= <- <-]. apply refused_ok; [done|]. intros _. by eapply next_visible_throws. }
  destruct (number_of_messages ctx n) as [k|e] eqn:Hn.
  2: { intros [= <- <-]. apply refused_ok; [done|]. intros _. by eapply number_of_messages_throws. }
  unfold on_db. destruct (check_cases ctx.(ctx_account) ctx.(ctx_queue) ctx.(contextID) w.(metadataStore))
    as [[_ Hq]|[Hc _]].
  2: { unfold getMessages. run. rewrite Hc. intros [= <- <-]. destruct w.
       apply refused_ok; [done|]. by eexists. }
  rewrite (getMessages_runs _ _ _ _ _ _ _ _ _ Hq). cbv zeta.
  match goal with |- context [visible_docs ?a ?b ?t ?k ?s] =>
    pose proof (visible_docs_delivery a b t k s) as Hd; set (ds := visible_docs a b t k s) in *;
    set (s1 := s) in * end.
  destruct (read_messages _ _ _ _) as [r1 w2] eqn:Hr. intros [= <- <-].
  eapply (read_ok T); [|done|exact Hr|].
  - destruct w as [d e]. apply (texts_derives T d e); [done| |done].
    apply (derives_trans _ s1); [apply derives_without|by eapply derives_hand_out].
  - intros m Hm. apply list_elem_of_fmap in Hm as (m0&->&Hm0).
    apply list_elem_of_fmap in Hm0 as ([i m1]&->&Hin). cbn.
    destruct (delivery_sound _ _ _ _ _ _ Hd _ _ Hin) as [Hi _].
    exists i, (dequeued tnv pr m1). rewrite (msgs_hand_out _ _ _ _ _ _ _ _ _ Hd), Hi.
    by rewrite bool_decide_eq_true_2.
Qed.

Lemma peek_ok T w n cid ctx r w' :
  texts_ok T w -> perform (Peek n cid ctx) w = (r, w') -> request_ok T (Peek n cid ctx) r w'.
Proof.
  intros Ht. unfold perform, peek. run.
  destruct (number_of_messages ctx n) as [k|e] eqn:Hn.
  2: { intros [= <- <-]. apply refused_ok; [done|]. intros _. by eapply number_of_messages_throws. }
  unfold on_db, peekMessages.
  match goal with |- context [(checkQueueExist ?a ?b ?r ≫= (fun _ => unawaited (clearExpiredMessages _ _ ?now _) ≫= (fun _ => ?k))) ?s] =>
    destruct (prologue a b now r k s) as [[_ ->]|[_ ->]] end.
  2: { intros [= <- <-]. destruct w. apply refused_ok; [done|]. by eexists. }
  run. rewrite messageCopy_list.
  match goal with |- context [visible_docs ?a ?b ?t ?k ?s] =>
    pose proof (visible_docs_delivery a b t k s) as Hd; set (ds := visible_docs a b t k s) in *;
    set (s1 := s) in * end.
  destruct (read_messages _ _ _ _) as [r1 w2] eqn:Hr. intros [= <- <-].
  eapply (read_ok T); [|done|exact Hr|].
  - destruct w as [d e]. apply (texts_derives T d e); [done| |done]. apply derives_without.
  - intros m Hm. apply list_elem_of_fmap in Hm as ([i m1]&->&Hin). cbn.
    destruct (delivery_sound _ _ _ _ _ _ Hd _ _ Hin) as [Hi _]. by exists i, m1.
Qed.


(** A request without a text that leaves the messages it does not remove alone. *)
Lemma quiet_ok {A} T q w (f : proc (QueueDb coll P) exn A) (r : res (list (MessageModel * text))) d :
  texts_ok T w -> sends q = None -> reads q = false -> derives w.(metadataStore) d ->
  (forall l, r = Ok l -> l = []) -> request_ok T q r (mkQueueService d w.(extentStore)).
Proof.
  intros Ht Hs Hr Hd Hl. unfold request_ok, texts_after. rewrite Hs.
  replace (match r with Ok _ => T | Throw _ => T end) with T by by destruct r.
  split_and!.
  - destruct w as [d0 e]. by apply (texts_derives T d0 e).
  - intros l m t -> Hin. rewrite (Hl l eq_refl) in Hin. by apply elem_of_nil in Hin.
  - intros e _ Hq. congruence.
Qed.

Lemma clear_call_ok T w cid ctx r w' :
  texts_ok T w -> perform (Clear cid ctx) w = (r, w') -> request_ok T (Clear cid ctx) r w'.
Proof.
  intros Ht. unfold perform, clear. run. unfold on_db.
  destruct (clearMessages _ _ _ _) as [rc d] eqn:Hc.
  assert (Hd : derives w.(metadataStore) d).
  { destruct (clear_messages_runs ctx.(ctx_account) ctx.(ctx_queue) ctx.(contextID) w.(metadataStore)) as [E0|E0];
      rewrite Hc in E0; cbn in E0; subst d; [apply derives_refl|apply derives_without]. }
  destruct rc; intros [= <- <-]; (eapply (quiet_ok T); [exact (fun s => (Ok tt, s))|done..|]); by intros l [= <-].
Qed.

Lemma delete_ok T w pr cid ctx r w' :
  texts_ok T w -> perform (Delete pr cid ctx) w = (r, w') -> request_ok T (Delete pr cid ctx) r w'.
Proof.
  intros Ht. unfold perform, delete_message. run. unfold on_db.
  destruct (deleteMessage _ _ _ _ _ _ _) as [rc d] eqn:Hc.
  assert (Hd : derives w.(metadataStore) d).
  { destruct (delete_runs ctx.(ctx_account) ctx.(ctx_queue) ctx.(ctx_messageId) pr ctx.(clock)
                ctx.(contextID) w.(metadataStore)) as [E0|[E0|[i E0]]];
      rewrite Hc in E0; cbn in E0; subst d; [apply derives_refl|apply derives_without|].
    eapply derives_trans; [apply derives_without|apply derives_remove]. }
  destruct rc; intros [= <- <-]; (eapply (quiet_ok T); [exact (fun s => (Ok tt, s))|done..|]); by intros l [= <-].
Qed.

Lemma enqueue_ok T w t vt ttl cid mid pr eid ctx r w' :
  texts_ok T w -> admissible T w (Enqueue t vt ttl cid mid pr eid ctx) ->
  perform (Enqueue t vt ttl cid mid pr eid ctx) w = (r, w') ->
  request_ok T (Enqueue t vt ttl cid mid pr eid ctx) r w'.
Proof.
  intros Ht Had. unfold perform, enqueue. run. unfold admissible in Had. cbn [sends] in Had.
  destruct (message_text parseXMLwithEmpty ctx t) as [[t0|]|e] eqn:Hm.
  2,3: intros [= <- <-]; by apply refused_ok.
  destruct Had as (Hw&Hf&Hnew).
  destruct (Z.ltb_spec MESSAGETEXT_LENGTH_MAX (getUTF8ByteSize t0)) as [Hlong|Hshort].
  { intros [= <- <-]. by apply refused_ok. }
  assert (Hst0 : storable t0) by done.
  destruct (next_visible _ _ _ _ vt) as [tnv|e]; [|intros [= <- <-]; by apply refused_ok].
  destruct (expiration ctx vt ttl) as [ex|e]; [|intros [= <- <-]; by apply refused_ok].
  unfold on_extents. destruct (Extents.appendExtent _ _ _ _ _) as [[c|e] e'] eqn:Ha.
  2: { intros [= <- <-]. apply refused_ok; [|done]. destruct w as [d e0].
       apply (texts_derives T d e0); [done|apply derives_refl|].
       by destruct (append_stored _ _ _ _ _ _ _ Ha Hf). }
  destruct (append_stored _ _ _ _ _ _ _ Ha Hf) as [Hkeep Hst]. specialize (Hst c eq_refl).
  unfold on_db. cbn.
  set (m := mkMessageModel _ _ _ _ _ _ _ _ _).
  assert (Ht' : texts_ok T (mkQueueService w.(metadataStore) e')).
  { destruct w as [d e0]. apply (texts_derives T d e0); [done|apply derives_refl|done]. }
  unfold insertMessage. run.
  destruct (check_cases m.(accountName) m.(queueName) None w.(metadataStore)) as [[-> _]|[-> _]].
  2: { intros [= <- <-]. by apply refused_ok. }
  unfold update_db. intros [= <- <-]. unfold request_ok, texts_after. cbn [sends]. rewrite Hm.
  split_and!; [|by intros l m0 t1 [= <-] ?%elem_of_nil|done].
  by apply (texts_insert T w.(metadataStore) e' m t0).
Qed.


(** The outcomes of an update of a message. *)
Lemma updateMessage_cases u pr now rid s :
  let s1 := without (expired u.(u_accountName) u.(u_queueName) now) s in
  (exists e, updateMessage u pr now rid s = (Throw e, s) \/ updateMessage u pr now rid s = (Throw e, s1)) \/
  exists i m, msgs s1 !! i = Some m /\ is_message u.(u_accountName) u.(u_queueName) u.(u_messageId) m = true /\
    updateMessage u pr now rid s = (Ok tt, set_messages (lk_update i (updated u m) s1.(messages)) s1).
Proof.
  intros s1. unfold updateMessage.
  match goal with |- context [(_ ← _; _ ← _; ?k) s] =>
    destruct (prologue u.(u_accountName) u.(u_queueName) now rid k s) as [[_ ->]|[_ ->]] end;
    [|by left; eexists; left].
  fold s1. run.
  destruct (find_message_cases u.(u_accountName) u.(u_queueName) u.(u_messageId) pr rid s1)
    as [(i&m&->&?&?&?)|(e&->&_)]; [right; by exists i, m|left; eexists; by right].
Qed.

(** The update of the metadata, after the text, if there is one, has been stored. *)
Lemma update_stored T d e u pr ctx t rid (r : res unit) d' :
  texts_ok T (mkQueueService d e) -> u.(u_messageId) = ctx.(ctx_messageId) ->
  match t, u.(u_persistency) with
  | Some t, Some c => storable t /\ stored e c (Buffer_from t)
  | None, None => True
  | _, _ => False
  end ->
  updateMessage u pr ctx.(clock) rid d = (r, d') ->
  texts_ok (match r, t with Ok _, Some t => <[ctx.(ctx_messageId) := t]> T | _, _ => T end)
    (mkQueueService d' e).
Proof.
  intros Ht Hid Htext Hup.
  set (s1 := without (expired u.(u_accountName) u.(u_queueName) ctx.(clock)) d).
  assert (Ht1 : texts_ok T (mkQueueService s1 e))
    by (apply (texts_derives T d e); [done|apply derives_without|done]).
  destruct (updateMessage_cases u pr ctx.(clock) rid d) as [[x [E0|E0]]|(i&m&Hi&Hm&E0)];
    rewrite Hup in E0; injection E0 as -> ->; [done|done|].
  assert (Hmid : m.(messageId) = ctx.(ctx_messageId)).
  { unfold is_message in Hm. apply andb_prop in Hm as [_ Hm]. apply bool_decide_eq_true in Hm. congruence. }
  fold s1 in Hi |- *.
  destruct t as [t|], u.(u_persistency) as [c|] eqn:Hc; try done.
  - destruct Htext as [Hw Hs]. rewrite <- Hmid.
    apply texts_update; [done|done|done|done|]. unfold updated. cbn. by rewrite Hc.
  - apply (texts_derives T s1 e); [done| |done]. apply derives_update with (m := m); [done|done|].
    unfold updated. cbn. by rewrite Hc.
Qed.

Lemma update_ok T w t pr vt cid npr eid ctx r w' :
  texts_ok T w -> admissible T w (UpdateM t pr vt cid npr eid ctx) ->
  perform (UpdateM t pr vt cid npr eid ctx) w = (r, w') ->
  request_ok T (UpdateM t pr vt cid npr eid ctx) r w'.
Proof.
  intros Ht Had. unfold perform, update. run. unfold admissible in Had. cbn [sends] in Had.
  destruct (message_text parseXMLwithEmpty ctx t) as [t0|e] eqn:Hm.
  2: intros [= <- <-]; by apply refused_ok.
  destruct (match t0 with Some _ => _ | None => false end) eqn:Hsize.
  { intros [= <- <-]. by apply refused_ok. }
  destruct (next_visible _ _ _ _ vt) as [tnv|e]; [|intros [= <- <-]; by apply refused_ok].
  assert (Hfin : forall e' per,
    texts_ok T (mkQueueService w.(metadataStore) e') ->
    match t0, per with
    | Some t, Some c => storable t /\ stored e' c (Buffer_from t)
    | None, None => True
    | _, _ => False
    end ->
    forall r1 d', updateMessage (mkMessageUpdate ctx.(ctx_account) ctx.(ctx_queue) ctx.(ctx_messageId)
        npr tnv per) pr ctx.(clock) ctx.(contextID) w.(metadataStore) = (r1, d') ->
    request_ok T (UpdateM t pr vt cid npr eid ctx) (match r1 with Ok _ => Ok [] | Throw e => Throw e end)
      (mkQueueService d' e')).
  { intros e' per Ht' Htext r1 d' Hup.
    match type of Hup with updateMessage ?u _ _ _ _ = _ =>
      pose proof (update_stored T w.(metadataStore) e' u pr ctx t0 _ r1 d' Ht' eq_refl Htext Hup) as Hend end.
    unfold request_ok, texts_after. cbn [sends]. rewrite Hm.
    destruct r1, t0; (split_and!; [exact Hend| |done]); by intros l1 m0 t1 [= <-] ?%elem_of_nil. }
  destruct t0 as [t0|]; unfold on_extents, on_db; cbn.
  - destruct Had as (Hw&Hf&_).
    destruct (Extents.appendExtent _ _ _ _ _) as [[c|e] e'] eqn:Ha;
      destruct (append_stored _ _ _ _ _ _ _ Ha Hf) as [Hkeep Hst].
    2: { intros [= <- <-]. apply refused_ok; [|done]. destruct w as [d e0].
         by apply (texts_derives T d e0); [done|apply derives_refl|]. }
    assert (Ht' : texts_ok T (mkQueueService w.(metadataStore) e')).
    { destruct w as [d e0]. apply (texts_derives T d e0); [done|apply derives_refl|done]. }
    cbn. destruct (updateMessage _ _ _ _ _) as [r1 d'] eqn:Hup.
    assert (Hst0 : storable t0) by (split; [done|by apply Z.ltb_ge]).
    pose proof (Hfin e' (Some c) Ht' (conj Hst0 (Hst c eq_refl)) r1 d' Hup).
    destruct r1; by intros [= <- <-].
  - destruct (updateMessage _ _ _ _ _) as [r1 d'] eqn:Hup.
    pose proof (Hfin w.(extentStore) None ltac:(by destruct w) I r1 d' Hup).
    destruct r1; by intros [= <- <-].
Qed.

(** Requests on queues and on the service are those on the store, but for the settings. *)
Definition same_queues s s' : Prop := s'.(queues) = s.(queues) /\ s'.(messages) = s.(messages).

Lemma same_derives s s' : s'.(messages) = s.(messages) -> derives s s'.
Proof. intros Hm i m. unfold msgs. rewrite Hm. intros Hi. by exists m. Qed.

(** A request on a queue: the messages of the queue stay or go together. *)
Definition on_queue (q : request) : bool :=
  match q with CreateQueue _ _ | DeleteQueue _ _ _ | SetQueueACL _ _ _ _ | SetQueueMetadata _ _ _ _ => true | _ => false end.

Lemma on_queue_derives q s : on_queue q = true -> derives s (run_request s q).
Proof.
  destruct q as [q r|a n r|a n acl r|a n md r| | | | | |]; try done; intros _; cbn [run_request].
  - unfold createQueue. run. destruct (findOne _ _) as [[i d]|]; by apply same_derives.
  - unfold deleteQueue. run. destruct (find_queue_cases a n r s) as [(i&q&->&_)|[-> _]]; [|by apply same_derives].
    apply (derives_trans _ (set_queues (lk_remove i s.(queues)) s)); [by apply same_derives|].
    apply (derives_without (in_queue a n)).
  - unfold setQueueACL. run. by destruct (find_queue_cases a n r s) as [(i&q&->&_)|[-> _]]; apply same_derives.
  - unfold setQueueMetadata. run. by destruct (find_queue_cases a n r s) as [(i&q&->&_)|[-> _]]; apply same_derives.
Qed.

Lemma manage_step o ctx s :
  same_queues s (manage root_names o ctx s).2 \/
  exists q, (manage root_names o ctx s).2 = run_request s q /\ on_queue q = true.
Proof.
  destruct o as [md hs cid|cid|cid|md hs cid|cid|acl cid|p cid|cid|sec cid|px n mk i e cid]; cbn [manage].
  - unfold create. run. destruct (parseMetadata md hs) as [md'|]; [|by left]. right.
    exists (CreateQueue (mkQueueModel ctx.(ctx_account) ctx.(ctx_queue) None md') ctx.(contextID)). cbn [run_request].
    split; [by destruct (createQueue _ _ s) as [[]]|done].
  - right. exists (DeleteQueue ctx.(ctx_account) ctx.(ctx_queue) ctx.(contextID)). unfold delete_queue. run. cbn [run_request].
    split; [by destruct (deleteQueue _ _ _ s) as [[]]|done].
  - left. unfold getProperties, getQueue, getMessagesCount. run.
    destruct (find_queue_cases ctx.(ctx_account) ctx.(ctx_queue) ctx.(contextID) s) as [(i&q&->&_)|[-> _]]; [|done].
    cbn. by destruct (find_queue_cases q.(q_accountName) q.(q_name) None s) as [(j&q'&->&_)|[-> _]].
  - unfold setMetadata. run. destruct (parseMetadata md hs) as [md'|]; [|by left]. right.
    exists (SetQueueMetadata ctx.(ctx_account) ctx.(ctx_queue) md' ctx.(contextID)). cbn [run_request].
    split; [by destruct (setQueueMetadata _ _ _ _ s) as [[]]|done].
  - left. unfold getAccessPolicy, getQueue. run.
    by destruct (find_queue_cases ctx.(ctx_account) ctx.(ctx_queue) ctx.(contextID) s) as [(i&q&->&_)|[-> _]].
  - unfold setAccessPolicy. run. destruct (valid_acl acl); [|by left]. cbn. right.
    exists (SetQueueACL ctx.(ctx_account) ctx.(ctx_queue) acl ctx.(contextID)). cbn [run_request].
    split; [by destruct (setQueueACL _ _ _ _ s) as [[]]|done].
  - left. unfold setProperties, updateServiceProperties. run. destruct (has_cors _ _); [|done].
    by destruct (findOne _ _) as [[]|].
  - left. unfold getServiceProperties. run. by destruct (findOne _ _) as [[]|].
  - left. unfold getStatistics. run. by destruct sec.
  - left. unfold listQueuesSegment, listQueues. run. destruct (check_range _ _ _ _ n) as [k|]; [|done].
    cbn. destruct (_ <=? _); [done|]. by destruct (last _).
Qed.

Lemma manage_ok T w o ctx r w' :
  texts_ok T w -> perform (Manage o ctx) w = (r, w') -> request_ok T (Manage o ctx) r w'.
Proof.
  intros Ht. unfold perform. unfold on_db. destruct (manage _ _ _ _) as [rc d] eqn:Hc.
  assert (Hd : derives w.(metadataStore) d).
  { destruct (manage_step o ctx w.(metadataStore)) as [Hs|(q&Hq&Hon)]; rewrite Hc in *; cbn in *;
      [by apply same_derives, Hs|rewrite Hq; by apply on_queue_derives]. }
  destruct rc; intros [= <- <-]; (eapply (quiet_ok T); [exact (fun s => (Ok tt, s))|done..|]); by intros l [= <-].
Qed.

Lemma perform_ok T w q r w' :
  texts_ok T w -> admissible T w q -> perform q w = (r, w') -> request_ok T q r w'.
Proof.
  intros Ht Ha Hp. destruct q; [by eapply enqueue_ok|by eapply update_ok|by eapply dequeue_ok
    |by eapply peek_ok|by eapply clear_call_ok|by eapply delete_ok|by eapply manage_ok].
Qed.

Lemma reaches_ok T w : reaches T w -> texts_ok T w.
Proof.
  induction 1 as [w Hw|T w q r w' Hr IH Ha Hp].
  - split; unfold unique_ids; rewrite Hw.
    + intros i j m m' Hi. by rewrite lookup_empty in Hi.
    + intros i m Hi. by rewrite lookup_empty in Hi.
  - by destruct (perform_ok T w q r w' IH Ha Hp).
Qed.

(** C23. The queue service is a map from message ids to texts: after any requests
    on the messages, a dequeue or a peek returns with every message the text
    that was sent with its last enqueue or update, and it never fails on the
    stored texts: it only throws the errors of the service. The texts have no lone
    surrogates, and the streams of the extent store hand over up to 65536 bytes, the
    limit of messages, in one piece: each piece of a stream is decoded on its own. *)
Theorem messages_read_back T w q r w' :
  reaches T w -> admissible T w q -> perform q w = (r, w') ->
  reaches (texts_after T q r) w' /\
  (forall l m t, r = Ok l -> (m, t) ∈ l -> T !! m.(messageId) = Some t) /\
  (forall e, r = Throw e -> reads q = true -> exists se, e = Storage se).
Proof.
  intros Hr Ha Hp. destruct (perform_ok T w q r w' (reaches_ok T w Hr) Ha Hp) as (_&Hread&Hthrow).
  split; [by eapply reaches_step|]. done.
Qed.

(** ** The service and its store *)

(** A request of the service that neither dequeues after the message is visible again nor
    updates it with its pop receipt. *)
Definition call_respects (m : MessageModel) (q : call) : Prop :=
  match q with
  | Dequeue _ _ _ _ ctx => ctx.(startTime) < m.(timeNextVisible)
  | UpdateM _ pr _ _ _ _ ctx =>
      is_message ctx.(ctx_account) ctx.(ctx_queue) ctx.(ctx_messageId) m = true -> pr <> m.(popReceipt)
  | _ => True
  end.

Definition is_enqueue (q : call) : bool := match q with Enqueue _ _ _ _ _ _ _ _ => true | _ => false end.

(** The request on the store that a request of the service makes. *)
Definition makes (q : call) (req : request) : Prop :=
  (forall m, call_respects m q -> respects m req) /\
  forall m r, req = InsertMessage m r -> is_enqueue q = true /\ exists t eid, sends q = Some (t, m.(messageId), eid).

(** Each request of the service makes at most one on the store of queues. *)
Definition one_request (q : call) s s' : Prop :=
  same_queues s s' \/ exists req, s' = run_request s req /\ makes q req.

Lemma one_refl q s : one_request q s s.
Proof. by left. Qed.

Lemma read_messages_state ctx ms cid w : (read_messages ctx ms cid w).2 = w.
Proof. unfold read_messages. run. by destruct (with_texts _ _ _). Qed.

Lemma perform_step q w : one_request q w.(metadataStore) (perform q w).2.(metadataStore).
Proof.
  destruct q as [t vt ttl cid mid pr eid ctx|t pr vt cid npr eid ctx|vt n cid pr ctx|n cid ctx|cid ctx|pr cid ctx|o ctx];
    cbn [perform].
  - unfold enqueue. run. destruct (message_text _ ctx t) as [[t'|]|] eqn:Ht; [|apply one_refl..].
    destruct (_ <? _); [apply one_refl|]. destruct (next_visible _ _ _ _ vt) as [tnv|]; [|apply one_refl].
    destruct (expiration ctx vt ttl) as [ex|]; [|apply one_refl]. unfold on_extents.
    destruct (Extents.appendExtent _ _ _ _ _) as [[c|] e']; [|apply one_refl]. unfold on_db. cbn [metadataStore extentStore].
    set (m := mkMessageModel _ _ _ _ _ _ _ _ _). right. exists (InsertMessage m None). split.
    + cbn [run_request]. by destruct (insertMessage m None _) as [[] d].
    + split; [done|]. intros m' r [= <- <-]. split; [done|]. unfold sends. rewrite Ht. eauto.
  - assert (Hup : forall (e : E) tnv c (k : Response (string * Z)),
      one_request (UpdateM t pr vt cid npr eid ctx) w.(metadataStore)
        (let (r, w') := (let (r0, w') := on_db (updateMessage
              (mkMessageUpdate ctx.(ctx_account) ctx.(ctx_queue) ctx.(ctx_messageId) npr tnv c) pr ctx.(clock)
              ctx.(contextID)) (mkQueueService w.(metadataStore) e) in
           match r0 with Ok _ => (Ok k, w') | Throw e => (Throw e, w') end) in
         ((r ≫= (fun _ => Ok [])) : res (list (MessageModel * text)), w')).2.(metadataStore)).
    { intros e tnv c k. set (u := mkMessageUpdate _ _ _ _ _ _). right. exists (UpdateMessage u pr ctx.(clock) ctx.(contextID)). split.
      - unfold on_db. cbn [run_request metadataStore]. by destruct (updateMessage _ _ _ _ _) as [[] d].
      - split; [|done]. by intros m Hm. }
    unfold update. run. destruct (message_text _ ctx t) as [t'|]; [|apply one_refl].
    destruct t' as [t'|]; [destruct (_ <? _); [apply one_refl|]|];
      (destruct (next_visible _ _ _ _ vt) as [tnv|]; [|apply one_refl]).
    + unfold on_extents. destruct (Extents.appendExtent _ _ _ _ _) as [[c|] e']; [|apply one_refl]. apply Hup.
    + destruct w. apply Hup.
  - unfold dequeue. run. destruct (next_visible _ _ _ _ vt) as [tnv|]; [|apply one_refl].
    destruct (number_of_messages ctx n) as [k|]; [|apply one_refl]. unfold on_db.
    right. exists (GetMessages ctx.(ctx_account) ctx.(ctx_queue) tnv pr (Some k) (Some ctx.(startTime)) ctx.(clock) ctx.(contextID)).
    split; [|split; [by intros m Hm|done]]. cbn [run_request].
    destruct (getMessages _ _ _ _ _ _ _ _ _) as [[ms|] d]; [|done].
    pose proof (read_messages_state ctx ms cid (mkQueueService d w.(extentStore))) as Hr.
    destruct (read_messages _ _ _ _) as [r w']. cbn in Hr. by subst w'; destruct r.
  - unfold peek. run. destruct (number_of_messages ctx n) as [k|]; [|apply one_refl]. unfold on_db.
    right. exists (PeekMessages ctx.(ctx_account) ctx.(ctx_queue) (Some k) (Some ctx.(startTime)) ctx.(clock) ctx.(contextID)).
    split; [|split; [by intros m Hm|done]]. cbn [run_request].
    destruct (peekMessages _ _ _ _ _ _ _) as [[ms|] d]; [|done].
    pose proof (read_messages_state ctx ms cid (mkQueueService d w.(extentStore))) as Hr.
    destruct (read_messages _ _ _ _) as [r w']. cbn in Hr. by subst w'; destruct r.
  - right. exists (ClearMessages ctx.(ctx_account) ctx.(ctx_queue) ctx.(contextID)).
    split; [|split; [by intros m Hm|done]]. unfold clear. run. unfold on_db. cbn [run_request].
    by destruct (clearMessages _ _ _ _) as [[] d].
  - right. exists (DeleteMessage ctx.(ctx_account) ctx.(ctx_queue) ctx.(ctx_messageId) pr ctx.(clock) ctx.(contextID)).
    split; [|split; [by intros m Hm|done]]. unfold delete_message. run. unfold on_db. cbn [run_request].
    by destruct (deleteMessage _ _ _ _ _ _ _) as [[] d].
  - assert (Hstate : (let (r, w') := on_db (manage root_names o ctx) w in
        ((r ≫= (fun _ => Ok [])) : res (list (MessageModel * text)), w')).2.(metadataStore)
      = (manage root_names o ctx w.(metadataStore)).2)
      by (unfold on_db; by destruct (manage _ _ _ _)).
    rewrite Hstate. destruct (manage_step o ctx w.(metadataStore)) as [Hs|(q&Hq&Hon)]; [by left|].
    right. exists q. split; [done|]. split; [intros m _; by destruct q|]. intros m r ->. done.
Qed.

(** ** Invariants of the service *)

Lemma ok_same s s' : same_queues s s' -> store_ok s -> store_ok s'.
Proof. intros [Hq Hm]. unfold store_ok, has_queue, qs, msgs. by rewrite Hq, Hm. Qed.

Lemma held_same i m s s' : same_queues s s' -> held i m s -> held i m s'.
Proof. intros [_ Hm]. unfold held, msgs. by rewrite Hm. Qed.

(** What a run of requests of the service does, from texts and stores to texts and stores. *)
Inductive follows : gmap string text -> QueueService coll P E -> list call -> gmap string text -> QueueService coll P E -> Prop :=
| follows_nil T w : follows T w [] T w
| follows_cons T w q r w1 l T' w' :
    admissible T w q -> perform q w = (r, w1) -> follows (texts_after T q r) w1 l T' w' -> follows T w (q :: l) T' w'.

Fixpoint performs w (l : list call) : QueueService coll P E :=
  match l with [] => w | q :: l => performs (perform q w).2 l end.

(** C25. whatever requests the queue service gets, on messages, queues or the service, from
    empty stores on, failed ones included, there is one document for each queue and every
    message belongs to a queue that exists. *)
Theorem queue_service_invariant w l :
  qs w.(metadataStore) = ∅ -> msgs w.(metadataStore) = ∅ -> store_ok (performs w l).(metadataStore).
Proof.
  intros Hq Hm. assert (Hw : store_ok w.(metadataStore)).
  { unfold store_ok. rewrite Hq, Hm. split; intros *; rewrite lookup_empty; done. }
  clear Hq Hm. revert w Hw. induction l as [|q l IH]; intros w Hw; [done|]. apply IH.
  destruct (perform_step q w) as [Hs|(req&->&_)]; [by eapply ok_same|by apply run_request_ok].
Qed.

(** ** Locks *)

(** No request but an insertion makes a message with a new id. *)
Lemma run_request_ids q s j m' :
  msgs (run_request s q) !! j = Some m' ->
  (exists m, msgs s !! j = Some m /\ m.(messageId) = m'.(messageId)) \/ exists r, q = InsertMessage m' r.
Proof.
  assert (Hd : forall s' m', derives s s' -> msgs s' !! j = Some m' -> exists m, msgs s !! j = Some m /\ m.(messageId) = m'.(messageId)).
  { intros s' m1 Hd Hj. destruct (Hd j m1 Hj) as (m&Hm&He&_). by exists m. }
  destruct (on_queue q) eqn:Hon; [intros Hj; left; by eapply Hd, Hj; apply on_queue_derives|].
  destruct q as [| | | |m r|a n num qd now r|a n vt pr num qd now r|a n id pr now r|u pr now r|a n r]; try done; cbn [run_request].
  - destruct (insert_runs m r s) as [->|[_ ->]]; [left; by eexists|]. unfold msgs. cbn. rewrite docs_insert, messageCopy_id.
    destruct (decide (j = max_id s.(messages) + 1)) as [->|Hne].
    + rewrite lookup_insert_eq. intros [= <-]. right. by exists r.
    + rewrite lookup_insert_ne by done. left. by eexists.
  - intros Hj. left. destruct (peek_runs a n num qd now r s) as [Hs|Hs]; rewrite Hs in Hj;
      [by eexists|]. eapply Hd, Hj. apply derives_without.
  - intros Hj. left. destruct (get_runs a n vt pr num qd now r s) as [Hs|(k&ds&Hds&Hs)]; rewrite Hs in Hj;
      [by eexists|]. eapply Hd, Hj. eapply derives_trans; [apply derives_without|by eapply derives_hand_out].
  - intros Hj. left. destruct (delete_runs a n id pr now r s) as [Hs|[Hs|[i Hs]]]; rewrite Hs in Hj; [by eexists|..].
    + eapply Hd, Hj. apply derives_without.
    + eapply Hd, Hj. eapply derives_trans; [apply derives_without|apply derives_remove].
  - intros Hj. left. destruct (update_runs u pr now r s) as [Hs|[Hs|(i&m&Hi&_&_&Hs)]]; rewrite Hs in Hj; [by eexists|..].
    + eapply Hd, Hj. apply derives_without.
    + unfold msgs in Hj. cbn in Hj. rewrite docs_update in Hj by by eexists.
      assert (Hw : forall m1, msgs (without (expired (u_accountName u) (u_queueName u) now) s) !! j = Some m1 ->
        exists m0, msgs s !! j = Some m0 /\ m0.(messageId) = m1.(messageId))
        by (intros m1 Hm1; eapply Hd, Hm1; apply derives_without).
      destruct (decide (j = i)) as [->|Hne].
      * rewrite lookup_insert_eq in Hj. injection Hj as <-. exact (Hw m Hi).
      * rewrite lookup_insert_ne in Hj by done. by apply Hw.
  - intros Hj. left. destruct (clear_messages_runs a n r s) as [Hs|Hs]; rewrite Hs in Hj;
      [by eexists|]. eapply Hd, Hj. apply derives_without.
Qed.

(** A message that was delivered stays as it was or goes, and no other gets its id. *)
Record locked (i : Z) (m : MessageModel) T w : Prop := {
  lk_texts : texts_ok T w;
  lk_held : held i m w.(metadataStore);
  lk_ids j m' : msgs w.(metadataStore) !! j = Some m' -> m'.(messageId) = m.(messageId) -> j = i;
  lk_known : is_Some (T !! m.(messageId))
}.

Lemma texts_after_known T q r id : is_Some (T !! id) -> is_Some (texts_after T q r !! id).
Proof.
  intros Ht. unfold texts_after. destruct r, (sends q) as [[[t id'] eid]|]; try done.
  destruct (decide (id = id')) as [->|Hne]; [rewrite lookup_insert_eq; by eexists|by rewrite lookup_insert_ne].
Qed.

Lemma perform_locked i m T w q r w' :
  locked i m T w -> admissible T w q -> call_respects m q -> perform q w = (r, w') -> locked i m (texts_after T q r) w'.
Proof.
  intros [Ht Hh Hid Hk] Ha Hq Hp. split.
  - by destruct (perform_ok T w q r w' Ht Ha Hp).
  - destruct (perform_step q w) as [Hs|(req&Hs&Hreq&_)]; rewrite Hp in Hs; cbn in Hs; [by eapply held_same|].
    rewrite Hs. apply run_request_held; [by apply Hreq|done].
  - intros j m' Hj He. destruct (perform_step q w) as [[_ Hs]|(req&Hs&_&Hins)]; rewrite Hp in Hs; cbn in Hs.
    { unfold msgs in Hj. rewrite Hs in Hj. by eapply Hid. }
    rewrite Hs in Hj. apply run_request_ids in Hj as [(m0&Hm0&He0)|[r0 ->]]; [eapply Hid; [done|congruence]|].
    destruct (Hins m' r0 eq_refl) as (Hen&t&eid&Hsend). exfalso. unfold admissible in Ha. rewrite Hsend in Ha.
    destruct q; try done. destruct Ha as (_&_&Hnone). rewrite He in Hnone. rewrite Hnone in Hk. by destruct Hk.
  - by apply texts_after_known.
Qed.

(** What a dequeue is on the store. *)
Lemma dequeue_answer T w vt n cid pr ctx l w1 :
  texts_ok T w -> perform (Dequeue vt n cid pr ctx) w = (Ok l, w1) ->
  exists tnv k, getMessages ctx.(ctx_account) ctx.(ctx_queue) tnv pr (Some k) (Some ctx.(startTime)) ctx.(clock)
    ctx.(contextID) w.(metadataStore) = (Ok (l.*1), w1.(metadataStore)).
Proof.
  intros Ht. cbn [perform]. unfold dequeue. run. destruct (next_visible _ _ _ _ vt) as [tnv|]; [|done].
  destruct (number_of_messages ctx n) as [k|]; [|done]. unfold on_db.
  destruct (getMessages _ _ _ _ _ _ _ _ _) as [[ms|] d] eqn:Hg; [|done].
  intros Hr. exists tnv, k. unfold read_messages in Hr. revert Hr. run.
  destruct (with_texts ctx ms _) as [l'|] eqn:Hl; [|done]. intros [= <- <-]. cbn. rewrite Hg. do 2 f_equal.
  clear Hg. revert l' Hl. induction ms as [|m ms IH]; intros l' Hl; cbn in Hl; [by injection Hl as <-|].
  destruct (Extents.readExtent _ _) as [b|]; [|done]. cbn in Hl. destruct (with_texts ctx ms _) as [l2|]; [|done].
  injection Hl as <-. cbn. f_equal. by apply IH.
Qed.

(** What is delivered is stored as it is delivered, and was visible. *)
Lemma delivered_stored a n vt pr num t now r s ms s1 m :
  getMessages a n vt pr num (Some t) now r s = (Ok ms, s1) -> m ∈ ms ->
  exists i m0, msgs s !! i = Some m0 /\ m0.(timeNextVisible) <= t /\ m0.(messageId) = m.(messageId) /\
    msgs s1 !! i = Some m /\ m.(timeNextVisible) = vt.
Proof.
  intros Hget Hm. destruct (check_cases a n r s) as [[_ Hq]|[Hc _]].
  2: { unfold getMessages in Hget. revert Hget. run. by rewrite Hc. }
  rewrite (getMessages_runs a n vt pr num (Some t) now r s Hq) in Hget. injection Hget as <- <-.
  set (s0 := without (expired a n now) s) in *.
  set (k := match num with Some k => if k <? 1 then 1 else k | None => 1 end) in *.
  pose proof (visible_docs_delivery a n t k s0) as Hd.
  apply list_elem_of_fmap in Hm as (m0&->&Hm0). apply list_elem_of_fmap in Hm0 as ([i m1]&->&Hin). cbn in *.
  destruct (delivery_sound _ _ _ _ _ _ Hd _ _ Hin) as [Hi Hv].
  assert (Hi' : msgs (hand_out vt pr (visible_docs a n t k s0) s0) !! i = Some (dequeued vt pr m1))
    by (rewrite (msgs_hand_out vt pr _ s0 i _ _ _ _ Hd), Hi; by rewrite bool_decide_eq_true_2).
  exists i, m1. unfold s0 in Hi. rewrite msgs_without in Hi. destruct (msgs s !! i) as [m2|]; [|done].
  destruct (expired a n now m2); [done|]. injection Hi as ->. split_and!; [done| |done|done|done].
  unfold visible in Hv. apply andb_prop in Hv as [_ Hv%Z.leb_le]. done.
Qed.

Lemma follows_locked i m T w l T' w' :
  follows T w l T' w' -> Forall (call_respects m) l -> locked i m T w -> locked i m T' w'.
Proof.
  induction 1 as [|T w q r w1 l T' w' Ha Hp Hf IH]; intros Hl Hk; [done|]. inversion Hl; subst.
  apply IH; [done|]. by eapply perform_locked.
Qed.

(** C24. a message that the service delivers is locked: through any later requests on its
    messages, its queues or its settings, as long as no dequeue comes at or after its
    visibility time and no update presents its pop receipt, its document is unchanged or
    gone, and no dequeue before that time delivers a message with its id. *)
Theorem delivered_message_locked T w vt n cid pr ctx l w1 m t later T2 w2
    (Hreached : reaches T w) (Hget : perform (Dequeue vt n cid pr ctx) w = (Ok l, w1)) (Hm : (m, t) ∈ l)
    (Hlater : follows T w1 later T2 w2) (Hrespects : Forall (call_respects m) later) :
  (exists i, msgs w2.(metadataStore) !! i = None \/ msgs w2.(metadataStore) !! i = Some m) /\
  forall vt' n' cid' pr' ctx' l' w3 m' t',
    perform (Dequeue vt' n' cid' pr' ctx') w2 = (Ok l', w3) -> ctx'.(startTime) < m.(timeNextVisible) ->
    (m', t') ∈ l' -> m'.(messageId) <> m.(messageId).
Proof.
  pose proof (reaches_ok T w Hreached) as Ht.
  destruct (perform_ok T w (Dequeue vt n cid pr ctx) (Ok l) w1 Ht I Hget) as (Ht1&Hread&_).
  destruct (dequeue_answer T w vt n cid pr ctx l w1 Ht Hget) as (tnv&k&Hg).
  assert (Hm1 : m ∈ l.*1) by (apply list_elem_of_fmap; by exists (m, t)).
  destruct (delivered_stored _ _ _ _ _ _ _ _ _ _ _ m Hg Hm1) as (i&m0&_&_&_&Hi&_).
  assert (Hlocked : locked i m T w1).
  { split; [done| | |eexists; by eapply Hread].
    - split; [by right|]. apply docs_max. by eexists.
    - intros j m' Hj He. destruct Ht1 as [Hu _]. by eapply Hu. }
  apply (follows_locked _ _ _ _ _ _ _ Hlater Hrespects) in Hlocked as [Ht2 Hh Hid _]. split; [exists i; apply Hh|].
  intros vt' n' cid' pr' ctx' l' w3 m' t' Hget' Hlt Hm' He.
  destruct (dequeue_answer T2 w2 vt' n' cid' pr' ctx' l' w3 Ht2 Hget') as (tnv'&k'&Hg').
  assert (Hm1' : m' ∈ l'.*1) by (apply list_elem_of_fmap; by exists (m', t')).
  destruct (delivered_stored _ _ _ _ _ _ _ _ _ _ _ m' Hg' Hm1') as (j&m2&Hj&Hvis&He2&_).
  assert (j = i) as -> by (eapply Hid; [done|congruence]).
  destruct Hh as [[Hn|Hs] _]; rewrite Hj in *; [done|]. simplify_eq. lia.
Qed.

(** ** The options of an enqueue *)

Lemma next_visible_ok ctx d lo hi vt tnv : next_visible ctx d lo hi vt = Ok tnv ->
  tnv = ctx.(startTime) + default d vt * 1000 /\ forall v, vt = Some v -> lo <= v <= hi.
Proof.
  unfold next_visible, check_range. destruct vt as [v|]; cbn.
  - destruct (Z.ltb_spec v lo), (Z.ltb_spec hi v); cbn; try done.
    intros [= <-]. split; [done|]. intros v' [= <-]. done.
  - intros [= <-]. done.
Qed.

Lemma expiration_ok ctx vt ttl ex : expiration ctx vt ttl = Ok ex ->
  match ttl with
  | None => ex = ctx.(startTime) + 604800000
  | Some ttl => ex = NEVER_EXPIRE_DATE \/
      (ex = ctx.(startTime) + ttl * 1000 /\ default 0 vt < ttl)
  end.
Proof.
  unfold expiration. destruct ttl as [ttl|]; [|by intros [= <-]].
  destruct (Z.eqb_spec ttl (-1)); [intros [= <-]; by left|].
  unfold MESSAGETTL_MIN. destruct (Z.ltb_spec ttl 1); [done|].
  destruct vt as [v|]; cbn.
  - destruct (Z.leb_spec ttl v); [done|]. destruct (_ <? _); intros [= <-]; [by left|by right].
  - destruct (_ <? _); intros [= <-]; [by left|right]. split; [done|lia].
Qed.

(** C30. What an enqueue stores: nothing unless it is answered with 201; and then
    one new document, the message of the response, which becomes visible within
    seven days of the request, and before it expires, unless the visibility
    timeout is the maximum of seven days and no time to live is given: that
    message expires at the moment it becomes visible. *)
Theorem enqueue_outcome t vt ttl cid mid pr eid ctx w r w' :
  enqueue parseXMLwithEmpty t vt ttl cid mid pr eid ctx w = (r, w') ->
  ctx.(startTime) + 604800000 < NEVER_EXPIRE_DATE ->
  match r with
  | Throw _ => w'.(metadataStore) = w.(metadataStore)
  | Ok x => exists m i, x.(items) = [m] /\ x.(statusCode) = 201 /\ m.(messageId) = mid /\
      msgs w.(metadataStore) !! i = None /\
      msgs w'.(metadataStore) = <[i := m]> (msgs w.(metadataStore)) /\
      ctx.(startTime) <= m.(timeNextVisible) <= ctx.(startTime) + 604800000 /\
      (m.(timeNextVisible) < m.(expirationTime) \/
       (vt = Some 604800 /\ ttl = None /\ m.(timeNextVisible) = m.(expirationTime)))
  end.
Proof.
  intros Hrun Hstart. revert Hrun. unfold enqueue. run.
  destruct (message_text parseXMLwithEmpty ctx t) as [[t0|]|e]; [|by intros [= <- <-]..].
  destruct (MESSAGETEXT_LENGTH_MAX <? getUTF8ByteSize t0); [by intros [= <- <-]|].
  destruct (next_visible _ _ _ _ vt) as [tnv|e] eqn:Hv; [|by intros [= <- <-]].
  destruct (expiration ctx vt ttl) as [ex|e] eqn:Hx; [|by intros [= <- <-]].
  apply next_visible_ok in Hv as [-> Hb]. apply expiration_ok in Hx.
  unfold ENQUEUE_VISIBILITYTIMEOUT_MIN, ENQUEUE_VISIBILITYTIMEOUT_MAX in Hb.
  unfold on_extents. destruct (Extents.appendExtent _ _ _ _ _) as [[c|e] e']; [|by intros [= <- <-]].
  unfold on_db, insertMessage. cbn. set (m := mkMessageModel _ _ _ _ _ _ _ _ _). run.
  destruct (check_cases ctx.(ctx_account) ctx.(ctx_queue) None w.(metadataStore)) as [[-> _]|[-> _]];
    [|by intros [= <- <-]].
  unfold update_db. rewrite messageCopy_id. intros [= <- <-].
  exists m, (max_id w.(metadataStore).(messages) + 1). split_and!; [done|done|done| | | | |].
  - unfold msgs. destruct (docs _ !! _) eqn:Hd; [|done].
    pose proof (docs_max w.(metadataStore).(messages) _ (ex_intro _ _ Hd)). lia.
  - unfold msgs. cbn. apply docs_insert.
  - cbn. destruct vt as [v|]; cbn; [specialize (Hb v eq_refl)|]; lia.
  - cbn. destruct vt as [v|]; cbn; [specialize (Hb v eq_refl)|]; lia.
  - cbn. destruct ttl as [ttl|].
    + left. destruct vt as [v|]; cbn in *; [specialize (Hb v eq_refl)|]; lia.
    + subst ex. destruct vt as [v|]; cbn; [specialize (Hb v eq_refl)|left; lia].
      destruct (decide (v = 604800)) as [->|]; [right; split_and!; [done|done|lia]|left; lia].
Qed.


End Texts.

(** ** The statuses of the answers *)

(** The statuses of the answers to a request. *)
Definition statuses (q : call) : list Z :=
  match q with
  | Enqueue _ _ _ _ _ _ _ _ => [201]
  | Dequeue _ _ _ _ _ | Peek _ _ _ => [200]
  | UpdateM _ _ _ _ _ _ _ | Clear _ _ | Delete _ _ _ => [204]
  | Manage o _ =>
      match o with
      | Create _ _ _ => [201; 204]
      | DeleteQ _ | SetMetadata _ _ _
      | SetAccessPolicy _ _ => [204]
      | SetServiceProperties _ _ => [202]
      | _ => [200]
      end
  end.

(** A value that is returned is such. *)
Definition returns {S A} (Q : A -> Prop) (m : proc S exn A) : Prop := forall st, wp_exn (fun _ => True) m st (fun a _ => Q a).

Lemma answers_bind {S A B} (Q : B -> Prop) (m : proc S exn A) (f : A -> proc S exn B) :
  (forall a, returns Q (f a)) -> returns Q (m ≫= f).
Proof. intros Hf st. apply wp_bind. unfold wp_exn at 1. destruct (m st) as [[a|e] st']; [apply Hf|done]. Qed.

Lemma returns_fmap {S A B} (Q : B -> Prop) (m : proc S exn A) (f : A -> B) :
  returns (fun a => Q (f a)) m -> returns Q (a ← m; mret (f a)).
Proof.
  intros Hm st. apply wp_bind. specialize (Hm st). unfold wp_exn in *. destruct (m st) as [[a|e] st']; [|done]. exact Hm.
Qed.

Lemma returns_ret {S A} (Q : A -> Prop) (a : A) : Q a -> returns (S := S) Q (mret a).
Proof. by intros Ha st. Qed.

Lemma returns_throw {S A} (Q : A -> Prop) (e : exn) : returns (S := S) Q (throw e).
Proof. by intros st. Qed.

Lemma returns_value {S A} (Q : A -> Prop) (m : proc S exn A) st a : returns Q m -> (m st).1 = Ok a -> Q a.
Proof. intros Hm Ha. specialize (Hm st). unfold wp_exn in Hm. destruct (m st) as [r st']; cbn in Ha. by subst r. Qed.
#[local] Hint Resolve returns_throw : core.

(** A call of a store or of a check, then the rest. *)
Ltac answers :=
  repeat first [apply returns_ret; cbn; (set_solver || done) | apply returns_throw | apply answers_bind; intros ?
               | case_match].

Section Statuses.
Context {coll : Type -> Type} `{Loki coll} {E : Type} `{IExtentStore E} `{ReadStream}.
Abbreviation P := Setting.
Context (parseXMLwithEmpty : string -> res (list (string * text))) (root_names : string -> res (option (list string))).
Implicit Types (w : QueueService coll P E).

Lemma read_messages_status ctx ms cid :
  returns (fun r => r.(statusCode) ∈ [200]) (read_messages (coll := coll) (P := P) (E := E) ctx ms cid).
Proof. unfold read_messages. answers. Qed.

Lemma manage_status o ctx :
  returns (fun code => code ∈ statuses (Manage o ctx)) (manage (coll := coll) root_names o ctx).
Proof.
  destruct o; cbn [manage statuses]; apply (returns_fmap (fun code => code ∈ _)).
  - unfold create. answers. apply returns_ret. cbn. destruct (_ : QUEUE_STATUSCODE); cbn; set_solver.
  - unfold delete_queue. answers.
  - unfold getProperties. answers.
  - unfold setMetadata. answers.
  - unfold getAccessPolicy. answers.
  - unfold setAccessPolicy. answers.
  - unfold setProperties. answers.
  - unfold getServiceProperties. answers.
  - unfold getStatistics. answers.
  - unfold listQueuesSegment. answers.
Qed.

Lemma answer_status {S A} (l : list Z) (m : proc S exn (Response A)) st code :
  returns (fun r => r.(statusCode) ∈ l) m -> statusCode <$> (m st).1 = Ok code -> code ∈ l.
Proof.
  intros Hm Hc. destruct (m st).1 as [r|] eqn:Hr; [|done]. injection Hc as <-.
  by apply (returns_value (fun r => r.(statusCode) ∈ l) m st).
Qed.

Lemma status_of_call_in q w code :
  status_of_call parseXMLwithEmpty root_names q w = Ok code -> code ∈ statuses q.
Proof.
  destruct q; cbn [status_of_call statuses]; try (apply answer_status; clear).
  - unfold enqueue. answers.
  - unfold update. answers.
  - unfold dequeue. answers; apply read_messages_status.
  - unfold peek. answers; apply read_messages_status.
  - unfold clear. answers.
  - unfold delete_message. answers.
  - unfold on_db. destruct (manage _ _ _ _) as [r d] eqn:Hm. cbn [fst]. intros ->.
    eapply (returns_value (fun code => code ∈ statuses (Manage o ctx))); [apply manage_status|]. by rewrite Hm.
Qed.
End Statuses.

(** ** Witnesses *)

(** A service with one queue and the extent store in memory. *)
Definition memory : Type := MemoryExtentStore (map_coll ExtentDoc).
#[local] Instance memory_store : IExtentStore memory := memory_extent_store (fun _ _ _ _ => JsError).
#[local] Instance memory_store_laws : IExtentStoreLaws memory := memory_extent_store_laws (fun _ _ _ _ => JsError).

(** The pieces of a file: 65536 bytes each, but for the last one. *)
Fixpoint cut (fuel : nat) (b : bytes) : list bytes :=
  match fuel, b with
  | O, _ | _, [] => []
  | S fuel, _ => take (Z.to_nat 65536) b :: cut fuel (drop (Z.to_nat 65536) b)
  end.
#[local] Instance file_stream : ReadStream := fun b => cut (length b) b.

Lemma cut_concat fuel b : (length b <= fuel)%nat -> concat (cut fuel b) = b.
Proof.
  revert b. induction fuel as [|fuel IH]; intros [|u b] Hl; try (cbn in Hl |- *; done || lia). cbn [cut concat].
  rewrite IH, take_drop; [done|]. rewrite length_drop. cbn [length] in Hl |- *. lia.
Qed.

#[local] Instance file_stream_laws : ReadStreamLaws.
Proof.
  split; intros b; unfold pieces, file_stream; [by apply cut_concat|]. intros Hl.
  destruct b as [|u b]; [cbn; lia|]. cbn [length cut]. rewrite drop_ge by (cbn [length] in Hl |- *; lia).
  destruct (length b); cbn; lia.
Qed.

(** A character that is cut is not read back. *)
Example cut_character : readStreamToString [[226]; [130; 172]] = [65533; 65533; 65533] /\ readStreamToString [[226; 130; 172]] = [8364].
Proof. by vm_compute. Qed.

Definition no_xml (_ : string) : res (list (string * text)) := Ok [].
Definition no_names (_ : string) : res (option (list string)) := Ok None.
Definition service0 : QueueService map_coll Setting memory :=
  mkQueueService
    (mkQueueDb (∅, 0) ({[1 := mkQueueModel "acc" "q" None None]}, 1) (∅, 0))
    (mkMemoryExtentStore "queue" (mkChunkStore None ∅ 0) (∅, 0)).
Definition at_time (t : Z) : QueueContext := mkQueueContext (Some "c") t "acc" "q" "id1" None t.

(** The text is "h", the euro sign and a character beyond the basic plane. *)
Definition sent_text : text := [104; 8364; 55357; 56832].
Definition enqueue1 : call := Enqueue (Some sent_text) None None None "id1" "r1" "e1" (at_time 1000).
Definition dequeue1 : call := Dequeue (Some 5) None None "r2" (at_time 2000).
Definition service1 : QueueService map_coll Setting memory := (perform no_xml no_names enqueue1 service0).2.

Lemma service1_reached : reaches no_xml no_names {["id1" := sent_text]} service1.
Proof.
  apply (reaches_step no_xml no_names ∅ service0 enqueue1 (Ok []) service1).
  - by apply reaches_empty.
  - split; [reflexivity|]. split; [|reflexivity]. split; [reflexivity|discriminate].
  - vm_compute. reflexivity.
Qed.

Lemma messages_read_back_witness :
  let m := mkMessageModel "acc" "q" "id1" "r2" 7000 (mkChunk "e1" 0 8) 1000 604801000 1 in
  (perform no_xml no_names dequeue1 service1).1 = Ok [(m, sent_text)] /\
  ({["id1" := sent_text]} : gmap string text) !! m.(messageId) = Some sent_text.
Proof.
  intros m. split; [vm_compute; reflexivity|].
  destruct (messages_read_back no_xml no_names {["id1" := sent_text]} service1 dequeue1 (Ok [(m, sent_text)])
              (perform no_xml no_names dequeue1 service1).2) as (_&Ht&_).
  - apply service1_reached.
  - exact I.
  - vm_compute. reflexivity.
  - apply (Ht [(m, sent_text)]); [reflexivity|apply list_elem_of_here].
Defined.

Lemma enqueue_outcome_witness :
  exists m, (enqueue no_xml (Some sent_text) (Some 604800) None None "id1" "r1" "e1" (at_time 0) service0).1
    = Ok (mkResponse [m] 0 (Some "c") 201 None) /\
  (m.(timeNextVisible) < m.(expirationTime) \/ m.(timeNextVisible) = m.(expirationTime)).
Proof.
  destruct (enqueue no_xml (Some sent_text) (Some 604800) None None "id1" "r1" "e1" (at_time 0) service0)
    as [r w'] eqn:He.
  pose proof (enqueue_outcome no_xml _ _ _ _ _ _ _ _ _ _ _ He ltac:(vm_compute; reflexivity)) as Ho.
  assert (Hr : r = (enqueue no_xml (Some sent_text) (Some 604800) None None "id1" "r1" "e1" (at_time 0) service0).1)
    by by rewrite He.
  vm_compute in Hr. subst r. destruct Ho as (m&i&[= <-]&_&_&_&_&_&Ht).
  eexists. split; [reflexivity|]. destruct Ht as [Ht|(_&_&Ht)]; [by left|by right].
Defined.

(** A service without queues that gets one, with a message that is read and its metadata set. *)
Definition service_empty : QueueService map_coll Setting memory :=
  mkQueueService (mkQueueDb (∅, 0) (∅, 0) (∅, 0)) (mkMemoryExtentStore "queue" (mkChunkStore None ∅ 0) (∅, 0)).
Definition some_requests : list call :=
  [Manage (Create (Some [("owner", "me")]%string) ["x-ms-meta-Owner"; "me"]%string None) (at_time 500); enqueue1; dequeue1;
   Manage (SetMetadata None [] None) (at_time 2500)].

Lemma queue_service_invariant_witness :
  size (msgs (performs no_xml no_names service_empty some_requests).(metadataStore)) = 1%nat /\
  store_ok (performs no_xml no_names service_empty some_requests).(metadataStore).
Proof.
  split; [vm_compute; reflexivity|].
  apply (queue_service_invariant no_xml no_names service_empty some_requests); reflexivity.
Defined.

(** It is not delivered again while it is hidden, whatever is done to the queue. *)
Definition hidden_message : MessageModel := mkMessageModel "acc" "q" "id1" "r2" 7000 (mkChunk "e1" 0 8) 1000 604801000 1.
Definition quiet_requests : list call :=
  [Dequeue (Some 5) None None "r3" (at_time 3000); Manage (SetAccessPolicy None None) (at_time 3500)].
Definition service2 : QueueService map_coll Setting memory := (perform no_xml no_names dequeue1 service1).2.

Lemma delivered_message_locked_witness :
  (perform no_xml no_names dequeue1 service1).1 = Ok [(hidden_message, sent_text)] /\
  forall l' w3 m' t',
    perform no_xml no_names (Dequeue (Some 5) None None "r4" (at_time 6999)) (performs no_xml no_names service2 quiet_requests)
      = (Ok l', w3) -> (m', t') ∈ l' -> m'.(messageId) <> "id1"%string.
Proof.
  split; [vm_compute; reflexivity|]. intros l' w3 m' t' Hp Hin.
  assert (Hf : follows no_xml no_names {["id1" := sent_text]} service2 quiet_requests
    {["id1" := sent_text]} (performs no_xml no_names service2 quiet_requests)).
  { apply (follows_cons no_xml no_names {["id1" := sent_text]} service2 (Dequeue (Some 5) None None "r3" (at_time 3000))
      (Ok []) (performs no_xml no_names service2 [Dequeue (Some 5) None None "r3" (at_time 3000)])); [exact I|vm_compute; reflexivity|].
    apply (follows_cons no_xml no_names {["id1" := sent_text]} _ (Manage (SetAccessPolicy None None) (at_time 3500))
      (Ok []) (performs no_xml no_names service2 quiet_requests)); [exact I|vm_compute; reflexivity|].
    apply follows_nil. }
  destruct (delivered_message_locked no_xml no_names {["id1" := sent_text]} service1 (Some 5) None None "r2" (at_time 2000)
    [(hidden_message, sent_text)] service2 hidden_message sent_text quiet_requests {["id1" := sent_text]}
    (performs no_xml no_names service2 quiet_requests)) as [_ Hno].
  - apply service1_reached.
  - vm_compute. reflexivity.
  - apply list_elem_of_here.
  - exact Hf.
  - unfold quiet_requests. rewrite !Forall_cons, Forall_nil. split_and!; [vm_compute; reflexivity|exact I|exact I].
  - eapply Hno; [exact Hp|vm_compute; reflexivity|exact Hin].
Defined.
