(* ===== verification/TableErrors.v ===== *)
(** * TableErrors: the errors of the table service

    src/src/table/errors/StorageErrorFactory.ts, with the fields of a
    [StorageError] a client observes. *)

From S2P Require Import Prelude Errors Extents Utf8 Texts.
From Stdlib Require Import Ascii.
From Stdlib Require String.
Open Scope Z_scope.
Open Scope azurite_scope.

(** A text inside a message, in UTF-8. *)
Definition utf8_string (t : text) : string :=
  String.string_of_list_ascii ((fun b => Ascii.ascii_of_N (Z.to_N b)) <$> Buffer_from t).

Module TableErrors.

Definition defaultID : string := "DefaultID".

(** [context.contextID || d]. *)
Definition id_or (d : string) (contextID : option string) : option string :=
  Some (str_or (default EmptyString contextID) d).

Definition getBatchDuplicateRowKey (contextID : option string) (rowKey : text) : exn :=
  Storage (mkStorageError 400 "InvalidDuplicateRow"
    ("A command with RowKey '" ++ utf8_string rowKey ++ "' is already present in the batch. An entity can appear only once in a batch. ")%string
    (id_or defaultID contextID) []).

Definition getInvalidInput (contextID : option string) : exn :=
  Storage (mkStorageError 400 "InvalidInput"
    "An error occurred while processing this request."
    (id_or defaultID contextID) []).

Definition getInvalidQueryParameterValue (contextID : option string) : exn :=
  Storage (mkStorageError 400 "InvalidQueryParameterValue"
    "Value for one of the query parameters specified in the request URI is invalid."
    (id_or defaultID contextID) []).

Definition getTableAlreadyExists (contextID : option string) : exn :=
  Storage (mkStorageError 409 "TableAlreadyExists"
    "The table specified already exists."
    (id_or defaultID contextID) []).

Definition getTableNameEmpty (contextID : option string) : exn :=
  Storage (mkStorageError 400 "TableNameEmpty"
    "The specified table name is empty."
    (id_or defaultID contextID) []).

Definition getInvalidOperation (contextID : option string) (message : string) : exn :=
  Storage (mkStorageError 400 "InvalidOperation"
    message
    (id_or EmptyString contextID) []).

Definition getAccountNameEmpty (contextID : option string) : exn :=
  Storage (mkStorageError 400 "AccountNameEmpty"
    "The specified account name is empty."
    (id_or defaultID contextID) []).

Definition getTableNotExist (contextID : option string) : exn :=
  Storage (mkStorageError 404 "TableNotFound"
    "The table specified does not exist."
    (id_or defaultID contextID) []).

Definition getEntityAlreadyExist (contextID : option string) : exn :=
  Storage (mkStorageError 409 "EntityAlreadyExists"
    "The specified entity already exists."
    (id_or defaultID contextID) []).

Definition getPropertiesNeedValue (contextID : option string) : exn :=
  Storage (mkStorageError 400 "PropertiesNeedValue"
    "The values are not specified for all properties in the entity."
    (id_or defaultID contextID) []).

Definition getAtomFormatNotSupported (contextID : option string) : exn :=
  Storage (mkStorageError 415 "AtomFormatNotSupported"
    "Atom format is not supported."
    (id_or defaultID contextID) []).

Definition getPreconditionFailed (contextID : option string) : exn :=
  Storage (mkStorageError 412 "UpdateConditionNotSatisfied"
    "The update condition specified in the request was not satisfied."
    (id_or defaultID contextID) []).

Definition getTableNotFound (contextID : option string) : exn :=
  Storage (mkStorageError 404 "TableNotFound"
    "The table specified does not exist."
    (id_or defaultID contextID) []).

Definition ResourceNotFound (contextID : option string) : exn :=
  Storage (mkStorageError 404 "ResourceNotFound"
    "The specified resource does not exist."
    (id_or defaultID contextID) []).

Definition getEntityNotFound (contextID : option string) : exn :=
  Storage (mkStorageError 404 "ResourceNotFound"
    "The specified resource does not exist."
    (id_or defaultID contextID) []).

Definition getQueryConditionInvalid (contextID : option string) : exn :=
  Storage (mkStorageError 400 "InvalidInput"
    "The query condition specified in the request is invalid."
    (id_or defaultID contextID) []).

Definition getInvalidResourceName (contextID : option string) : exn :=
  Storage (mkStorageError 400  EmptyString
    "The specified resource name contains invalid characters."
    (id_or defaultID contextID) []).

Definition getOutOfRangeName (contextID : option string) : exn :=
  Storage (mkStorageError 400  EmptyString
    "The specified resource name length is not within the permissible limits."
    (id_or defaultID contextID) []).

Definition getInvalidXmlDocument (contextID : option string) : exn :=
  Storage (mkStorageError 400 "InvalidXmlDocument"
    "XML specified is not syntactically valid."
    (id_or defaultID contextID) []).

Definition getNotImplementedError (contextID : option string) : exn :=
  Storage (mkStorageError 501 "NotImplemented"
    "The requested operation is not implemented on the specified resource."
    (id_or defaultID contextID) []).

Definition getPropertyValueTooLargeError (contextID : option string) : exn :=
  Storage (mkStorageError 400 "PropertyValueTooLarge"
    "The property value exceeds the maximum allowed size (64KB). If the property value is a string, it is UTF-16 encoded and the maximum number of characters should be 32K or less."
    (id_or defaultID contextID) []).

Definition getRequestBodyTooLarge (contextID : option string) : exn :=
  Storage (mkStorageError 413 "RequestBodyTooLarge"
    "The request body is too large and exceeds the maximum permissible limit."
    (id_or defaultID contextID) []).

Definition getEntityTooLarge (contextID : option string) : exn :=
  Storage (mkStorageError 400 "EntityTooLarge"
    "The entity is larger than the maximum allowed size (1MB)."
    (id_or defaultID contextID) []).

End TableErrors.
