(* ===== verification/TableEntities.v ===== *)
(** * TableEntities: entities, their typed properties and their responses

    src/src/table/entity: the Edm types, one Module per class with [validate],
    the constructor [make] and the methods of [IEdmType]; [EntityProperty] and
    [NormalizedEntity]. Properties are primitive values, as the type of
    [IEntity.properties] says. Whether a text is a date for [new Date] is an
    argument, [valid_date], since JavaScript leaves the texts that are not in the ISO
    format to the implementation; so is the present time. *)

From S2P Require Import Prelude Errors Extents Utf8 Texts JsValues.
From Stdlib Require Import SpecFloat.
From Stdlib Require String.
Open Scope Z_scope.
Open Scope azurite_scope.

(** ** Data *)

(** [Entity], src/src/table/persistence/ITableMetadataStore.ts. *)
Record Entity := mkEntity {
  PartitionKey : text;
  RowKey : text;
  properties : object;
  lastModifiedTime : text;
  eTag : text
}.

#[export] Instance Entity_eq_dec : EqDecision Entity.
Proof. solve_decision. Defined.

Definition with_properties (p : object) (e : Entity) : Entity :=
  mkEntity e.(PartitionKey) e.(RowKey) p e.(lastModifiedTime) e.(eTag).

Definition ODATA_TYPE : text := js "@odata.type".
#[global] Arguments ODATA_TYPE : simpl never.

Inductive EdmType := Binary | Boolean | DateTime | Double | Guid | Int32 | Int64 | String_ | Null.

Definition getEdmType (type : text) : res EdmType :=
  if type === js "Edm.Binary" then Ok Binary
  else if type === js "Edm.Boolean" then Ok Boolean
  else if type === js "Edm.DateTime" then Ok DateTime
  else if type === js "Edm.Double" then Ok Double
  else if type === js "Edm.Guid" then Ok Guid
  else if type === js "Edm.Int32" then Ok Int32
  else if type === js "Edm.Int64" then Ok Int64
  else if type === js "Edm.String" then Ok String_
  else if type === js "Edm.Null" then Ok Null
  else Throw TypeError.

Inductive AnnotationLevel := FULL | MINIMAL | NO.

#[export] Instance AnnotationLevel_eq_dec : EqDecision AnnotationLevel.
Proof. solve_decision. Defined.

Definition NO_METADATA_ACCEPT : text := js "application/json;odata=nometadata".
Definition MINIMAL_METADATA_ACCEPT : text := js "application/json;odata=minimalmetadata".
Definition FULL_METADATA_ACCEPT : text := js "application/json;odata=fullmetadata".

Definition toAnnotationLevel (level : text) : res AnnotationLevel :=
  if level === MINIMAL_METADATA_ACCEPT then Ok MINIMAL
  else if level === FULL_METADATA_ACCEPT then Ok FULL
  else if level === NO_METADATA_ACCEPT then Ok NO
  else Throw TypeError.

(** A pair of a JSON object: the name is not escaped. *)
Definition json_pair (name content : text) : text := 34 :: name ++ 34 :: 58 :: content.

(** ** The Edm types *)

(** The type pair of the classes that annotate at the levels minimal and full. *)
Definition annotated (name : text) (annotationLevel : AnnotationLevel) (type : string) :
    option (text * text) :=
  match annotationLevel with
  | MINIMAL | FULL => Some (name ++ ODATA_TYPE, js type)
  | NO => None
  end.

(** [toJsonPropertyTypeString] from [toJsonPropertyTypePair]. *)
Definition type_string (p : res (option (text * text))) : res (option text) :=
  p ← p;
  Ok (match p with
      | None => None
      | Some (key, type) => Some (json_pair key (34 :: type ++ [34]))
      end).

Module EdmBinary.
Record t := make_ { value_ : value; typedValue : text }.

Definition validate (v : value) : res text :=
  match v with VStr s => Ok s | _ => Throw TypeError end.
Definition make (v : value) : res t := s ← validate v; Ok (make_ v s).

Definition toJsonPropertyValuePair (e : t) (name : text) : text * value := (name, e.(value_)).
Definition toJsonPropertyValueString (e : t) (name : text) : text :=
  json_pair name (stringify e.(typedValue)).
Definition toJsonPropertyTypePair (name : text) (annotationLevel : AnnotationLevel)
    (isSystemProperty : bool) : res (option (text * text)) :=
  throw_when isSystemProperty RangeError;;
  Ok (annotated name annotationLevel "Edm.Binary").
Definition toJsonPropertyTypeString (name : text) (annotationLevel : AnnotationLevel)
    (isSystemProperty : bool) : res (option text) :=
  type_string (toJsonPropertyTypePair name annotationLevel isSystemProperty).
End EdmBinary.

Module EdmBoolean.
Record t := make_ { typedValue : bool }.

Definition validate (v : value) : res bool :=
  match v with
  | VStr s =>
      throw_when ((s !== js "true") && (s !== js "false")) TypeError;;
      Ok (s === js "true")
  | VBool b => Ok b
  | _ => Throw TypeError
  end.
Definition make (v : value) : res t := b ← validate v; Ok (make_ b).

Definition toJsonPropertyValuePair (e : t) (name : text) : text * value :=
  (name, VBool e.(typedValue)).
Definition toJsonPropertyValueString (e : t) (name : text) : text :=
  json_pair name (value_text (VBool e.(typedValue))).
End EdmBoolean.

Module EdmDateTime.
Record t := make_ { typedValue : text }.

Definition validate (v : value) : res text :=
  match v with VStr s => Ok s | _ => Throw TypeError end.
Definition make (valid_date : text -> bool) (v : value) : res t :=
  let utcTimeString := value_text v ++ js "Z" in
  if valid_date utcTimeString then Ok (make_ utcTimeString)
  else s ← validate v; Ok (make_ s).

Definition toJsonPropertyValuePair (e : t) (name : text) : text * value :=
  (name, VStr e.(typedValue)).
Definition toJsonPropertyValueString (e : t) (name : text) : text :=
  json_pair name (stringify e.(typedValue)).
Definition toJsonPropertyTypePair (name : text) (annotationLevel : AnnotationLevel)
    (isSystemProperty : bool) : option (text * text) :=
  if (annotationLevel === MINIMAL) && isSystemProperty then None
  else annotated name annotationLevel "Edm.DateTime".
Definition toJsonPropertyTypeString (name : text) (annotationLevel : AnnotationLevel)
    (isSystemProperty : bool) : res (option text) :=
  type_string (Ok (toJsonPropertyTypePair name annotationLevel isSystemProperty)).
End EdmDateTime.

Module EdmDouble.
(** [typedValue] is a number or one of the strings for the values JSON has not. *)
Record t := make_ { value_ : value; typedValue : value }.

Definition validate (v : value) : res value :=
  match v with
  | VStr s =>
      if (s === js "NaN") || (s === js "Infinity") || (s === js "-Infinity") then Ok v
      else
        let val := parseFloat s in
        throw_when (is_nan val) TypeError;;
        throw_when (is_infinite val) TypeError;;
        Ok (VNum val)
  | VNum _ => Ok v
  | _ => Throw TypeError
  end.
Definition make (v : value) : res t := tv ← validate v; Ok (make_ v tv).

Definition toJsonPropertyValuePair (e : t) (name : text) : text * value := (name, e.(value_)).
Definition toJsonPropertyValueString (e : t) (name : text) : text :=
  match e.(typedValue) with
  | VNum x =>
      let integer := match e.(value_) with VNum y => isInteger y | _ => false end in
      json_pair name (if integer then toFixed_1 x else value_text e.(value_))
  | tv => json_pair name (stringify (value_text tv))
  end.
Definition toJsonPropertyTypePair (e : t) (name : text) (annotationLevel : AnnotationLevel)
    (isSystemProperty force : bool) : res (option (text * text)) :=
  throw_when isSystemProperty RangeError;;
  let is_string := match e.(typedValue) with VStr _ => true | _ => false end in
  Ok (if force || (is_string && (annotationLevel !== NO))
      then Some (name ++ ODATA_TYPE, js "Edm.Double") else None).
Definition toJsonPropertyTypeString (e : t) (name : text) (annotationLevel : AnnotationLevel)
    (isSystemProperty : bool) : res (option text) :=
  type_string (toJsonPropertyTypePair e name annotationLevel isSystemProperty false).
End EdmDouble.

Module EdmGuid.
Record t := make_ { value_ : text; typedValue : text }.

Definition validate (v : value) : res text :=
  match v with VStr s => Ok (to_base64 (Buffer_from s)) | _ => Throw TypeError end.
Definition make (v : value) : res t :=
  s ← validate v;
  Ok (make_ (value_text v) s).

Definition base64_letter (u : Z) : bool :=
  ((65 <=? u) && (u <=? 90)) || ((97 <=? u) && (u <=? 122)) || is_digit u || (u =? 43) || (u =? 47).

(** The regular expression: groups of four letters, then at most one padded group. *)
Fixpoint isBase64Encoded (s : text) : bool :=
  match s with
  | [] => true
  | [a; b; c; d] =>
      base64_letter a && base64_letter b &&
      ((base64_letter c && (base64_letter d || (d =? equals_sign)))
       || ((c =? equals_sign) && (d =? equals_sign)))
  | a :: b :: c :: d :: s =>
      base64_letter a && base64_letter b && base64_letter c && base64_letter d && isBase64Encoded s
  | _ => false
  end.

Definition toJsonPropertyValuePair (e : t) (name : text) : text * value :=
  (name, VStr e.(typedValue)).
Definition toJsonPropertyValueString (e : t) (name : text) : text :=
  if isBase64Encoded e.(value_)
  then json_pair name (stringify (toString (from_base64 e.(value_))))
  else json_pair name (stringify e.(value_)).
Definition toJsonPropertyTypePair (name : text) (annotationLevel : AnnotationLevel)
    (isSystemProperty : bool) : res (option (text * text)) :=
  throw_when isSystemProperty RangeError;;
  Ok (annotated name annotationLevel "Edm.Guid").
Definition toJsonPropertyTypeString (name : text) (annotationLevel : AnnotationLevel)
    (isSystemProperty : bool) : res (option text) :=
  type_string (toJsonPropertyTypePair name annotationLevel isSystemProperty).
End EdmGuid.

Module EdmInt32.
Record t := make_ { typedValue : number }.

(** [/^[+-]?\d+$/]. *)
Definition is_integer_text (s : text) : bool :=
  let d := (signed s).2 in negb (Nat.eqb (length d) 0) && forallb is_digit d.

Definition validate (v : value) : res number :=
  match v with
  | VStr s =>
      throw_when (negb (is_integer_text s)) TypeError;;
      let intval := parseInt s in
      throw_when (is_nan intval) TypeError;;
      Ok intval
  | VNum x => Ok x
  | _ => Throw TypeError
  end.
Definition make (v : value) : res t := x ← validate v; Ok (make_ x).

Definition toJsonPropertyValuePair (e : t) (name : text) : text * value :=
  (name, VNum e.(typedValue)).
Definition toJsonPropertyValueString (e : t) (name : text) : text :=
  json_pair name (number_text e.(typedValue)).
End EdmInt32.

Module EdmInt64.
Record t := make_ { typedValue : text }.

Definition validate (v : value) : res text :=
  match v with VStr s => Ok s | _ => Throw TypeError end.
Definition make (v : value) : res t := s ← validate v; Ok (make_ s).

Definition toJsonPropertyValuePair (e : t) (name : text) : text * value :=
  (name, VStr e.(typedValue)).
Definition toJsonPropertyValueString (e : t) (name : text) : text :=
  json_pair name (stringify e.(typedValue)).
Definition toJsonPropertyTypePair (name : text) (annotationLevel : AnnotationLevel)
    (isSystemProperty : bool) : res (option (text * text)) :=
  throw_when isSystemProperty RangeError;;
  Ok (annotated name annotationLevel "Edm.Int64").
Definition toJsonPropertyTypeString (name : text) (annotationLevel : AnnotationLevel)
    (isSystemProperty : bool) : res (option text) :=
  type_string (toJsonPropertyTypePair name annotationLevel isSystemProperty).
End EdmInt64.

Module EdmString.
Record t := make_ { typedValue : text }.

Definition validate (v : value) : res text :=
  match v with VStr s => Ok s | _ => Throw TypeError end.
Definition make (v : value) : res t := s ← validate v; Ok (make_ s).

Definition toJsonPropertyValuePair (e : t) (name : text) : text * value :=
  (name, VStr e.(typedValue)).
Definition toJsonPropertyValueString (e : t) (name : text) : text :=
  json_pair name (stringify e.(typedValue)).
End EdmString.

(** [IEdmType], a value of one of the classes. *)
Inductive IEdmType :=
| OfBinary (e : EdmBinary.t)
| OfBoolean (e : EdmBoolean.t)
| OfDateTime (e : EdmDateTime.t)
| OfDouble (e : EdmDouble.t)
| OfGuid (e : EdmGuid.t)
| OfInt32 (e : EdmInt32.t)
| OfInt64 (e : EdmInt64.t)
| OfString (e : EdmString.t)
| OfNull.

Definition toJsonPropertyValuePair (e : IEdmType) (name : text) : option (text * value) :=
  match e with
  | OfBinary e => Some (EdmBinary.toJsonPropertyValuePair e name)
  | OfBoolean e => Some (EdmBoolean.toJsonPropertyValuePair e name)
  | OfDateTime e => Some (EdmDateTime.toJsonPropertyValuePair e name)
  | OfDouble e => Some (EdmDouble.toJsonPropertyValuePair e name)
  | OfGuid e => Some (EdmGuid.toJsonPropertyValuePair e name)
  | OfInt32 e => Some (EdmInt32.toJsonPropertyValuePair e name)
  | OfInt64 e => Some (EdmInt64.toJsonPropertyValuePair e name)
  | OfString e => Some (EdmString.toJsonPropertyValuePair e name)
  | OfNull => None
  end.

Definition toJsonPropertyValueString (e : IEdmType) (name : text) : option text :=
  match e with
  | OfBinary e => Some (EdmBinary.toJsonPropertyValueString e name)
  | OfBoolean e => Some (EdmBoolean.toJsonPropertyValueString e name)
  | OfDateTime e => Some (EdmDateTime.toJsonPropertyValueString e name)
  | OfDouble e => Some (EdmDouble.toJsonPropertyValueString e name)
  | OfGuid e => Some (EdmGuid.toJsonPropertyValueString e name)
  | OfInt32 e => Some (EdmInt32.toJsonPropertyValueString e name)
  | OfInt64 e => Some (EdmInt64.toJsonPropertyValueString e name)
  | OfString e => Some (EdmString.toJsonPropertyValueString e name)
  | OfNull => None
  end.

Definition toJsonPropertyTypePair (e : IEdmType) (name : text) (annotationLevel : AnnotationLevel)
    (isSystemProperty force : bool) : res (option (text * text)) :=
  match e with
  | OfBinary _ => EdmBinary.toJsonPropertyTypePair name annotationLevel isSystemProperty
  | OfDateTime _ => Ok (EdmDateTime.toJsonPropertyTypePair name annotationLevel isSystemProperty)
  | OfDouble e => EdmDouble.toJsonPropertyTypePair e name annotationLevel isSystemProperty force
  | OfGuid _ => EdmGuid.toJsonPropertyTypePair name annotationLevel isSystemProperty
  | OfInt64 _ => EdmInt64.toJsonPropertyTypePair name annotationLevel isSystemProperty
  | OfBoolean _ | OfInt32 _ | OfString _ | OfNull => Ok None
  end.

Definition toJsonPropertyTypeString (e : IEdmType) (name : text) (annotationLevel : AnnotationLevel)
    (isSystemProperty : bool) : res (option text) :=
  match e with
  | OfBinary _ => EdmBinary.toJsonPropertyTypeString name annotationLevel isSystemProperty
  | OfDateTime _ => EdmDateTime.toJsonPropertyTypeString name annotationLevel isSystemProperty
  | OfDouble e => EdmDouble.toJsonPropertyTypeString e name annotationLevel isSystemProperty
  | OfGuid _ => EdmGuid.toJsonPropertyTypeString name annotationLevel isSystemProperty
  | OfInt64 _ => EdmInt64.toJsonPropertyTypeString name annotationLevel isSystemProperty
  | OfBoolean _ | OfInt32 _ | OfString _ | OfNull => Ok None
  end.

(** ** EntityProperty *)

Record EntityProperty := mkProperty {
  name : text;
  edmType : IEdmType;
  isSystemProperty : bool
}.

(** [toResponseString] at a level. *)
Definition property_response (p : EntityProperty) (level : AnnotationLevel) : res (option text) :=
  typeString ← toJsonPropertyTypeString p.(edmType) p.(name) level p.(isSystemProperty);
  let propertyString := toJsonPropertyValueString p.(edmType) p.(name) in
  Ok (match typeString with
      | Some ((_ :: _) as s) => Some (join_comma [s; default [] propertyString])
      | _ => propertyString
      end).

(** [normalize]: the property is set back to the entity, with its type. *)
Definition normalize_property (p : EntityProperty) (o : object) : res object :=
  match toJsonPropertyValuePair p.(edmType) p.(name) with
  | None => Ok o
  | Some (key, v) =>
      let o := assign key v o in
      t ← toJsonPropertyTypePair p.(edmType) p.(name) FULL p.(isSystemProperty) true;
      Ok (match t with
          | None => o
          | Some (typeKey, typeValue) => assign typeKey (VStr typeValue) o
          end)
  end.

Section Dates.
Context (valid_date : text -> bool).

Definition parseEntityProperty (name : text) (v : value) (edmType : option text)
    (isSystemProperty : bool) : res EntityProperty :=
  match edmType with
  | Some edmType =>
      type ← getEdmType edmType;
      e ← match type with
          | Binary => e ← EdmBinary.make v; Ok (OfBinary e)
          | Boolean => e ← EdmBoolean.make v; Ok (OfBoolean e)
          | DateTime => _ ← EdmDateTime.validate v; e ← EdmDateTime.make valid_date v; Ok (OfDateTime e)
          | Double => dblval ← EdmDouble.validate v; e ← EdmDouble.make dblval; Ok (OfDouble e)
          | Guid => _ ← EdmGuid.validate v; e ← EdmGuid.make v; Ok (OfGuid e)
          | Int32 => _ ← EdmInt32.validate v; e ← EdmInt32.make v; Ok (OfInt32 e)
          | Int64 => _ ← EdmInt64.validate v; e ← EdmInt64.make v; Ok (OfInt64 e)
          | String_ => _ ← EdmString.validate v; e ← EdmString.make v; Ok (OfString e)
          | Null => Throw TypeError
          end;
      Ok (mkProperty name e isSystemProperty)
  | None =>
      e ← match v with
          | VStr _ => _ ← EdmString.validate v; e ← EdmString.make v; Ok (OfString e)
          | VNum x =>
              if isInteger x
              then _ ← EdmInt32.validate v; e ← EdmInt32.make v; Ok (OfInt32 e)
              else _ ← EdmDouble.validate v; e ← EdmDouble.make v; Ok (OfDouble e)
          | VBool _ => _ ← EdmBoolean.validate v; e ← EdmBoolean.make v; Ok (OfBoolean e)
          | VNull => Ok OfNull
          | VUndefined | VNative _ => Throw TypeError
          end;
      Ok (mkProperty name e false)
  end.

(** ** NormalizedEntity *)

Definition validateSystemProperty (key : text) (element : value) (type : option text) :
    res EntityProperty :=
  parseEntityProperty key element type (key === js "Timestamp").

(** The entity the constructor is given, with its time stamp synchronised. *)
Definition with_timestamp (now : text) (entity : Entity) : Entity :=
  let time := if Nat.eqb (length entity.(lastModifiedTime)) 0 then now else entity.(lastModifiedTime) in
  with_properties
    (assign (js "Timestamp@odata.type") (VStr (js "Edm.DateTime"))
       (assign (js "Timestamp") (VStr time) entity.(properties))) entity.

(** The loop over the properties: [seen] are the names in [propertiesMap], which
    also has the properties every object inherits. *)
Fixpoint read_properties (all : object) (seen : list text) (o : object) : res (list EntityProperty) :=
  match o with
  | [] => Ok []
  | (key, element) :: o =>
      if bool_decide (key ∈ seen) || negb (is_undefined (inherited_value key))
         || endsWith ODATA_TYPE key
      then read_properties all seen o
      else
        let type := get (key ++ ODATA_TYPE) all in
        type ← match type with
               | VUndefined => Ok None
               | VStr type => Ok (Some type)
               | _ => Throw RangeError
               end;
        property ← validateSystemProperty key element type;
        rest ← read_properties all (key :: seen) o;
        Ok (property :: rest)
  end.

Record NormalizedEntity := mkNormalized { ref : Entity; normalized_properties : list EntityProperty }.

(** [new NormalizedEntity(entity)]. *)
Definition new_normalized (now : text) (entity : Entity) : res NormalizedEntity :=
  let entity := with_timestamp now entity in
  let key_property n v := mkProperty n (OfString (EdmString.make_ v)) true in
  rest ← read_properties entity.(properties) [js "PartitionKey"; js "RowKey"] entity.(properties);
  Ok (mkNormalized entity
        (key_property (js "PartitionKey") entity.(PartitionKey)
         :: key_property (js "RowKey") entity.(RowKey) :: rest)).

End Dates.

(** [normalize]. *)
Fixpoint normalize_all (l : list EntityProperty) (o : object) : res object :=
  match l with
  | [] => Ok o
  | p :: l => o ← normalize_property p o; normalize_all l o
  end.

Definition normalize (n : NormalizedEntity) : res Entity :=
  o ← normalize_all n.(normalized_properties) [];
  Ok (with_properties o n.(ref)).

(** The pairs of the properties that are included, in order. *)
Fixpoint response_pairs (annotationLevel : text) (includes : option (list text))
    (l : list EntityProperty) : res (list text) :=
  match l with
  | [] => Ok []
  | p :: l =>
      if match includes with None => true | Some names => bool_decide (p.(name) ∈ names) end then
        level ← toAnnotationLevel annotationLevel;
        str ← property_response p level;
        rest ← response_pairs annotationLevel includes l;
        Ok (match str with Some ((_ :: _) as s) => s :: rest | _ => rest end)
      else response_pairs annotationLevel includes l
  end.

Definition toResponseString (n : NormalizedEntity) (annotationLevel : text)
    (injections : list (text * text)) (includes : option (list text)) : res text :=
  let injected := (fun p => json_pair p.1 (stringify p.2)) <$> injections in
  rest ← response_pairs annotationLevel includes n.(normalized_properties);
  Ok (123 :: join_comma (injected ++ rest) ++ [125]).
