(* ===== verification/TableEntitiesSpec.v ===== *)
(** * TableEntitiesSpec: what is stored of an entity reads back *)

From S2P Require Import Prelude Errors Extents Utf8 Texts JsValues TableEntities.
From Stdlib Require Import SpecFloat.
From Stdlib Require String.
Open Scope Z_scope.
Open Scope azurite_scope.

(** ** Base64 of GUIDs *)

Lemma base64_letter_char v : 0 <= v < 64 -> EdmGuid.base64_letter (base64_char v) = true.
Proof.
  intros Hv. unfold EdmGuid.base64_letter, base64_char, is_digit.
  destruct (Z.eqb_spec v 62); by decide_bytes.
Qed.

Lemma isBase64Encoded_more a b c d s :
  EdmGuid.base64_letter a = true -> EdmGuid.base64_letter b = true ->
  EdmGuid.base64_letter c = true -> EdmGuid.base64_letter d = true ->
  EdmGuid.isBase64Encoded (a :: b :: c :: d :: s) = EdmGuid.isBase64Encoded s.
Proof. intros Ha Hb Hc Hd. cbn. rewrite Ha, Hb, Hc, Hd. by destruct s. Qed.

Lemma isBase64Encoded_to_base64 b : octets b -> EdmGuid.isBase64Encoded (to_base64 b) = true.
Proof.
  unfold octets. induction b as [b IH] using (induction_ltof1 _ length). unfold ltof in IH. intros Hb.
  destruct b as [|x [|y [|z b]]]; [done|..]; rewrite !Forall_cons in Hb; cbn [to_base64].
  - destruct Hb as [Hx _]. cbn [EdmGuid.isBase64Encoded].
    rewrite !base64_letter_char by (Z.to_euclidean_division_equations; lia). done.
  - destruct Hb as (Hx&Hy&_). cbn [EdmGuid.isBase64Encoded].
    rewrite !base64_letter_char by (Z.to_euclidean_division_equations; lia). done.
  - destruct Hb as (Hx&Hy&Hz&Hb).
    rewrite isBase64Encoded_more by (apply base64_letter_char; Z.to_euclidean_division_equations; lia).
    apply IH; [cbn; lia|done].
Qed.

(** ** One property *)

Section Property.
Context (valid_date : text -> bool).

(** What the property's text must be for its type: a date is not one any more
    with another Z, a GUID is no base64 text itself. *)
Definition readable (p : EntityProperty) : Prop :=
  match p.(edmType) with
  | OfGuid e => well_formed e.(EdmGuid.value_) = true /\ EdmGuid.isBase64Encoded e.(EdmGuid.value_) = false
  | OfDateTime e => valid_date (e.(EdmDateTime.typedValue) ++ js "Z") = false
  | _ => True
  end.

Definition parse := parseEntityProperty valid_date.

(** The text a name gets for its type. *)
Lemma type_name_ne (name : text) : name ++ ODATA_TYPE <> name.
Proof. intros H. apply (f_equal length) in H. rewrite length_app in H. change (length ODATA_TYPE) with 11%nat in H. lia. Qed.

Lemma type_name_proto (name : text) : name ++ ODATA_TYPE <> js "__proto__".
Proof.
  intros H. assert (He : endsWith ODATA_TYPE (js "__proto__") = true) by (rewrite <- H; apply endsWith_app).
  vm_compute in He. discriminate.
Qed.

Lemma inherited_type_name (name : text) : inherited_value (name ++ ODATA_TYPE) = VUndefined.
Proof.
  unfold inherited_value. destruct (List.find _ _) as [f|] eqn:Hf; [exfalso|done].
  apply List.find_some in Hf as [Hin Hf%bool_decide_eq_true].
  assert (Hall : forallb (fun f => negb (endsWith ODATA_TYPE (js f))) inherited_names = true) by by vm_compute.
  rewrite List.forallb_forall in Hall. specialize (Hall f Hin). rewrite Hf, endsWith_app in Hall. done.
Qed.

(** What [normalize] stores of a property: the value and the type. *)
Definition stored_pair (p : EntityProperty) : res (option (value * option text)) :=
  match toJsonPropertyValuePair p.(edmType) p.(name) with
  | None => Ok None
  | Some (_, v) =>
      t ← toJsonPropertyTypePair p.(edmType) p.(name) FULL p.(isSystemProperty) true;
      Ok (Some (v, match t with Some (_, ty) => Some ty | None => None end))
  end.

Lemma pair_name p k v : toJsonPropertyValuePair p.(edmType) p.(name) = Some (k, v) -> k = p.(name).
Proof. destruct p as [n [e|e|e|e|e|e|e|e|] sys]; [by intros [=]..|done]. Qed.

Lemma type_pair_name p l sys f k t :
  toJsonPropertyTypePair p.(edmType) p.(name) l sys f = Ok (Some (k, t)) -> k = p.(name) ++ ODATA_TYPE.
Proof.
  destruct p as [n [] sys']; cbn; unfold EdmBinary.toJsonPropertyTypePair, EdmDateTime.toJsonPropertyTypePair,
    EdmDouble.toJsonPropertyTypePair, EdmGuid.toJsonPropertyTypePair, EdmInt64.toJsonPropertyTypePair, annotated;
    repeat case_match; intros; congruence.
Qed.

(** The object with a stored pair. *)
Definition type_value (t : option text) : value :=
  match t with None => VUndefined | Some t => VStr t end.

Definition store_pair (name : text) (v : value) (t : option text) (o : object) : object :=
  match t with
  | None => assign name v o
  | Some t => assign (name ++ ODATA_TYPE) (VStr t) (assign name v o)
  end.

Lemma normalize_property_stored p o sp : stored_pair p = Ok sp ->
  normalize_property p o = Ok (match sp with None => o | Some (v, t) => store_pair p.(name) v t o end).
Proof.
  unfold normalize_property, stored_pair, mbind, result_bind.
  destruct (toJsonPropertyValuePair _ _) as [[k v]|] eqn:Hp; [|by intros [= <-]].
  apply pair_name in Hp as ->.
  destruct (toJsonPropertyTypePair _ _ _ _ _) as [[[k t]|]|e] eqn:Ht; [| |done]; intros [= <-]; [|done].
  by apply type_pair_name in Ht as ->.
Qed.

Lemma own_store_pair k name v t o : name <> js "__proto__" ->
  own k (store_pair name v t o)
  = if k === name then Some v
    else match t with
         | Some t => if k === name ++ ODATA_TYPE then Some (VStr t) else own k o
         | None => own k o
         end.
Proof.
  intros Hn. unfold store_pair. destruct t as [t|]; [|by apply own_assign].
  rewrite own_assign, own_assign by (done || apply type_name_proto).
  destruct (bool_decide_reflect (k = name)) as [->|]; [|done].
  by rewrite bool_decide_eq_false_2 by (apply not_eq_sym, type_name_ne).
Qed.

Lemma elem_of_store_pair k name v t o :
  k ∈ (store_pair name v t o).*1 -> k = name \/ k = name ++ ODATA_TYPE \/ k ∈ o.*1.
Proof.
  unfold store_pair. destruct t as [t|]; [|intros [->|]%elem_of_assign; auto].
  intros [->|[->|]%elem_of_assign]%elem_of_assign; auto.
Qed.

Lemma well_ordered_store_pair name v t o : well_ordered o -> well_ordered (store_pair name v t o).
Proof. intros Ho. unfold store_pair. destruct t; by repeat apply well_ordered_assign. Qed.

(** The values a parsed property can have. *)
Inductive parsed : IEdmType -> Prop :=
| parsed_binary s : parsed (OfBinary (EdmBinary.make_ (VStr s) s))
| parsed_boolean b : parsed (OfBoolean (EdmBoolean.make_ b))
| parsed_datetime s : parsed (OfDateTime (EdmDateTime.make_ s))
| parsed_double x : parsed (OfDouble (EdmDouble.make_ (VNum x) (VNum x)))
| parsed_not_finite s : s ∈ [js "NaN"; js "Infinity"; js "-Infinity"] ->
    parsed (OfDouble (EdmDouble.make_ (VStr s) (VStr s)))
| parsed_guid s : parsed (OfGuid (EdmGuid.make_ s (to_base64 (Buffer_from s))))
| parsed_int32 x : parsed (OfInt32 (EdmInt32.make_ x))
| parsed_int64 s : parsed (OfInt64 (EdmInt64.make_ s))
| parsed_string s : parsed (OfString (EdmString.make_ s))
| parsed_null : parsed OfNull.
Hint Constructors parsed : core.

Lemma validate_double v w : EdmDouble.validate v = Ok w -> parsed (OfDouble (EdmDouble.make_ w w)) /\
  EdmDouble.validate w = Ok w.
Proof.
  unfold EdmDouble.validate. destruct v as [| | |x|s|]; try done; [by intros [= <-]; auto|].
  destruct ((s === js "NaN") || (s === js "Infinity") || (s === js "-Infinity")) eqn:Hs.
  - intros [= <-]. rewrite Hs. split; [|done]. apply parsed_not_finite.
    rewrite !orb_true_iff, !bool_decide_eq_true in Hs. rewrite !elem_of_cons. tauto.
  - cbv zeta. destruct (is_nan _); [done|]. destruct (is_infinite _); [done|]. intros [= <-]. auto.
Qed.

Lemma parse_parsed name v type sys p : parse name v type sys = Ok p ->
  p.(TableEntities.name) = name /\ parsed p.(edmType) /\ (p.(isSystemProperty) = true -> sys = true).
Proof.
  unfold parse, parseEntityProperty, mbind, result_bind.
  destruct type as [type|]; [destruct (getEdmType type) as [[]|]; [..|done]|];
    unfold EdmBinary.make, EdmBoolean.make, EdmDateTime.make, EdmDouble.make, EdmGuid.make,
      EdmInt32.make, EdmInt64.make, EdmString.make, mbind, result_bind.
  4: { destruct (EdmDouble.validate v) as [w|] eqn:Hv; [|done]. apply validate_double in Hv as [Hp ->].
       intros [= <-]. by split_and!. }
  all: destruct v as [| |b|x|s|]; cbn; repeat case_match; try done; intros; simplify_eq; cbn; split_and!; auto; done.
Qed.

(** The property that a stored pair is read as. *)
Definition reread (name : text) (e : IEdmType) : EntityProperty :=
  mkProperty name
    (match e with
     | OfGuid e => OfGuid (EdmGuid.make_ e.(EdmGuid.typedValue) (to_base64 (Buffer_from e.(EdmGuid.typedValue))))
     | OfInt32 e => if isInteger e.(EdmInt32.typedValue) then OfInt32 e
                    else OfDouble (EdmDouble.make_ (VNum e.(EdmInt32.typedValue)) (VNum e.(EdmInt32.typedValue)))
     | e => e
     end) false.

Arguments reread : simpl never.

Lemma parse_stored p v t : parsed p.(edmType) -> readable p -> p.(isSystemProperty) = false ->
  stored_pair p = Ok (Some (v, t)) -> parse p.(name) v t false = Ok (reread p.(name) p.(edmType)).
Proof.
  destruct p as [n e []]; [done|]. unfold readable, stored_pair, parse, parseEntityProperty. cbn [name edmType].
  intros Hp Hr _. destruct Hp as [s|b|s|x|s Hs|s|x|s|s|]; cbn; intros [= <- <-]; try reflexivity.
  - change (getEdmType (js "Edm.DateTime")) with (Ok DateTime : res EdmType). cbn.
    unfold EdmDateTime.make. cbn in *. by rewrite Hr.
  - repeat (apply elem_of_cons in Hs as [->|Hs]); [reflexivity..|by apply elem_of_nil in Hs].
  - unfold reread. cbn. by destruct (isInteger x).
Qed.

(** Its responses are those of the property that was stored. *)
Lemma reread_response p level : parsed p.(edmType) -> readable p -> p.(isSystemProperty) = false ->
  property_response (reread p.(name) p.(edmType)) level = property_response p level.
Proof.
  destruct p as [n e []]; [done|]. unfold readable, reread, property_response. cbn [name edmType isSystemProperty].
  intros Hp Hr _. destruct Hp as [s|b|s|x|s Hs|s|x|s|s|]; try done.
  - cbn -[EdmGuid.toJsonPropertyValueString]. unfold EdmGuid.toJsonPropertyValueString.
    cbn -[toString from_base64 Buffer_from EdmGuid.isBase64Encoded] in *. destruct Hr as [Hw Hb].
    rewrite isBase64Encoded_to_base64 by by apply octets_Buffer_from.
    by rewrite base64_text, Hb.
  - cbn. destruct (isInteger x) eqn:Hx; [done|].
    unfold EdmDouble.toJsonPropertyTypeString, EdmDouble.toJsonPropertyValueString, EdmDouble.toJsonPropertyTypePair.
    cbn. by rewrite Hx.
Qed.

(** A time stamp: the one property that is a system property. *)
Definition timestamp_property (time : text) : EntityProperty :=
  mkProperty (js "Timestamp") (OfDateTime (EdmDateTime.make_ time)) true.

(** ** All properties of an entity *)

(** The keys the constructor reads. *)
Definition skipped (key : text) : bool :=
  bool_decide (key ∈ [js "PartitionKey"; js "RowKey"])
  || negb (is_undefined (inherited_value key)) || endsWith ODATA_TYPE key.
Definition read_key (key : text) : bool := negb (skipped key).

Definition read_one (all : object) (kv : text * value) : res EntityProperty :=
  let type := get (kv.1 ++ ODATA_TYPE) all in
  type ← match type with
         | VUndefined => Ok None
         | VStr type => Ok (Some type)
         | _ => Throw RangeError
         end;
  validateSystemProperty valid_date kv.1 kv.2 type.

Fixpoint read_all (all o : object) : res (list EntityProperty) :=
  match o with
  | [] => Ok []
  | kv :: o => p ← read_one all kv; rest ← read_all all o; Ok (p :: rest)
  end.

(** The loop of the constructor reads the properties of these keys. *)
Lemma read_properties_all all seen o :
  NoDup o.*1 -> js "PartitionKey" ∈ seen -> js "RowKey" ∈ seen ->
  (forall k, k ∈ seen -> k ∈ o.*1 -> k ∈ [js "PartitionKey"; js "RowKey"]) ->
  read_properties valid_date all seen o = read_all all (visible read_key o).
Proof.
  revert seen. induction o as [|[k v] o IH]; intros seen Hn Hpk Hrk Hseen; [done|].
  apply NoDup_cons in Hn as [Hk Hn]. cbn in Hk, Hseen. cbn [read_properties]. unfold visible.
  rewrite filter_cons. cbn [fst].
  assert (Hs : bool_decide (k ∈ seen) = bool_decide (k ∈ [js "PartitionKey"; js "RowKey"])).
  { apply bool_decide_ext. split; [intros Hin; apply Hseen; [done|left]|].
    rewrite !elem_of_cons. intros [->|[->|[]%elem_of_nil]]; done. }
  rewrite Hs. fold (skipped k). destruct (skipped k) eqn:Hskip.
  - rewrite decide_False by (unfold read_key; by rewrite Hskip). apply IH; [done..|]. intros k' ??. apply Hseen; [done|by right].
  - rewrite decide_True by (unfold read_key; by rewrite Hskip). cbn [read_all]. unfold read_one at 1. cbn. unfold mbind, result_bind.
    assert (IHk : read_properties valid_date all (k :: seen) o = read_all all (visible read_key o)).
    { apply IH; [done|by right..|]. intros k' [->|?]%elem_of_cons ?; [done|]. apply Hseen; [done|by right]. }
    rewrite IHk. by destruct (get (k ++ ODATA_TYPE) all).
Qed.

(** What the constructor reads of a key, and that it is stored and read back. *)
Definition good (time : text) (p : EntityProperty) : Prop :=
  parsed p.(edmType) /\ readable p /\ read_key p.(name) = true /\
  (p = timestamp_property time \/ (p.(isSystemProperty) = false /\ p.(name) <> js "Timestamp")).

Definition read_back (p : EntityProperty) : EntityProperty :=
  if p.(isSystemProperty) then p else reread p.(name) p.(edmType).

Lemma read_one_good time all kv p : read_one all kv = Ok p ->
  (kv.1 = js "Timestamp" -> kv.2 = VStr time /\ get (kv.1 ++ ODATA_TYPE) all = VStr (js "Edm.DateTime") /\
     valid_date (time ++ js "Z") = false) ->
  p.(name) = kv.1 /\ parsed p.(edmType) /\
  (p = timestamp_property time \/ (p.(isSystemProperty) = false /\ p.(name) <> js "Timestamp")).
Proof.
  destruct kv as [k v]. unfold read_one, mbind, result_bind, validateSystemProperty. cbn [fst snd].
  intros Hp Ht. destruct (decide (k = js "Timestamp")) as [->|Hk].
  - destruct (Ht eq_refl) as (->&Hty&Hd). rewrite Hty in Hp. rewrite bool_decide_eq_true_2 in Hp by done.
    cbn in Hp. change (getEdmType (js "Edm.DateTime")) with (Ok DateTime : res EdmType) in Hp. cbn in Hp.
    unfold EdmDateTime.make in Hp. cbn in Hp. rewrite Hd in Hp. injection Hp as <-.
    split_and!; [done|constructor|by left].
  - rewrite bool_decide_eq_false_2 in Hp by done.
    destruct (get (k ++ ODATA_TYPE) all); try done; apply parse_parsed in Hp as (Hn&Hp&Hs);
      (split_and!; [done..|]); right; (split; [destruct p.(isSystemProperty); naive_solver|congruence]).
Qed.

Lemma good_stored time p : valid_date (time ++ js "Z") = false -> good time p ->
  exists sp, stored_pair p = Ok sp /\
    match sp with
    | None => forall l, property_response p l = Ok None
    | Some (v, t) =>
        validateSystemProperty valid_date p.(name) v t = Ok (read_back p) /\
        (read_back p).(name) = p.(name) /\ forall l, property_response (read_back p) l = property_response p l
    end.
Proof.
  intros Hd (Hp&Hr&Hk&[->|[Hs Hn]]).
  - exists (Some (VStr time, Some (js "Edm.DateTime"))). split; [done|]. split_and!; [|done..].
    unfold validateSystemProperty, parseEntityProperty.
    change (getEdmType (js "Edm.DateTime")) with (Ok DateTime : res EdmType). cbn.
    unfold EdmDateTime.make. cbn. by rewrite Hd.
  - unfold read_back, validateSystemProperty. rewrite Hs, bool_decide_eq_false_2 by done.
    destruct (stored_pair p) as [[[v t]|]|] eqn:Hsp.
    + eexists. split; [done|]. cbn. split_and!; [by apply parse_stored|done|].
      intros l. by apply reread_response.
    + eexists. split; [done|]. cbn. intros l. destruct p as [n e sys]. cbn in Hs. subst sys.
      unfold stored_pair in Hsp.
      cbn [edmType] in Hp. by destruct Hp; cbn in Hsp.
    + exfalso. destruct p as [n edm sys]. cbn in Hs. subst sys. unfold stored_pair in Hsp.
      cbn [edmType] in Hp. by destruct Hp; cbn in Hsp.
Qed.

(** *** The object that [normalize] builds *)

Definition stored_of (l : list EntityProperty) : object :=
  omap (fun p => match stored_pair p with Ok (Some (v, _)) => Some (p.(name), v) | _ => None end) l.

(** The object after the properties [l]. *)
Definition built (l : list EntityProperty) (o : object) : Prop :=
  well_ordered o /\ visible read_key o = stored_of l /\
  (forall p v t, p ∈ l -> stored_pair p = Ok (Some (v, t)) -> get (p.(name) ++ ODATA_TYPE) o = type_value t) /\
  (forall k, k ∈ o.*1 -> k ∈ [js "PartitionKey"; js "RowKey"] \/
     exists p, p ∈ l /\ (k = p.(name) \/ k = p.(name) ++ ODATA_TYPE)).

Lemma stored_of_keys l k : k ∈ (stored_of l).*1 -> exists p, p ∈ l /\ p.(name) = k.
Proof.
  intros Hk. apply list_elem_of_fmap in Hk as ([k' v]&->&Hin).
  apply list_elem_of_omap in Hin as (p&Hp&Hsp). exists p. split; [done|]. by repeat case_match; simplify_eq.
Qed.

Lemma read_key_type k : read_key (k ++ ODATA_TYPE) = false.
Proof. unfold read_key, skipped. by rewrite endsWith_app, orb_true_r. Qed.

Lemma read_key_facts k : read_key k = true ->
  (k ∉ [js "PartitionKey"; js "RowKey"]) /\ k <> js "__proto__" /\ (forall k', k <> (k' ++ ODATA_TYPE)).
Proof.
  unfold read_key, skipped. rewrite negb_true_iff, !orb_false_iff, bool_decide_eq_false.
  intros [[Hk Hi] He]. split_and!; [done| |].
  - intros ->. vm_compute in Hi. discriminate.
  - intros k' ->. by rewrite endsWith_app in He.
Qed.

(** The properties before a new one. *)
Definition precede (l : list EntityProperty) (p : EntityProperty) : Prop :=
  forall q, q ∈ l -> q.(name) <> p.(name) /\ read_key q.(name) = true /\ before p.(name) q.(name) = false.

Lemma built_fresh l p o : built l o -> read_key p.(name) = true -> precede l p ->
  own p.(name) o = None /\ own (p.(name) ++ ODATA_TYPE) o = None.
Proof.
  intros (_&_&_&Hkeys) Hp Hl. destruct (read_key_facts _ Hp) as (Hk1&_&Hk3).
  split; apply own_None; intros [Hin|(q&Hq&Hin)]%Hkeys.
  - done.
  - destruct (Hl q Hq) as (Hne&_), Hin as [Hin|Hin]; [congruence|by eapply Hk3].
  - assert (He : endsWith ODATA_TYPE (p.(name) ++ ODATA_TYPE) = true) by apply endsWith_app.
    rewrite !elem_of_cons in Hin.
    destruct Hin as [Hin|[Hin|[]%elem_of_nil]]; rewrite Hin in He; vm_compute in He; discriminate.
  - destruct (Hl q Hq) as (Hne&Hqk&_), (read_key_facts _ Hqk) as (_&_&Hq3), Hin as [Hin|Hin];
      [by eapply Hq3|apply app_inv_tail in Hin; congruence].
Qed.

Lemma visible_store_pair l p v t o : built l o -> read_key p.(name) = true -> precede l p ->
  visible read_key (store_pair p.(name) v t o) = stored_of l ++ [(p.(name), v)].
Proof.
  intros Hb Hp Hl. destruct (built_fresh l p o Hb Hp Hl) as [Hn _]. destruct Hb as (Ho&Hvis&_).
  assert (Hv : visible read_key (assign p.(name) v o) = visible read_key o ++ [(p.(name), v)]).
  { destruct (read_key_facts _ Hp) as (_&Hproto&_).
    unfold assign, define. rewrite Hn, (bool_decide_eq_false_2 _ Hproto).
    apply visible_insert_last; [apply Ho|done|].
    intros k. rewrite Hvis. intros (q&Hq&<-)%stored_of_keys. by apply Hl. }
  rewrite <- Hvis, <- Hv. unfold store_pair. destruct t as [t|]; [|done].
  apply visible_assign_other; [by apply well_ordered_assign|apply read_key_type].
Qed.

Lemma built_step time l p o o' :
  valid_date (time ++ js "Z") = false -> good time p -> built l o -> precede l p ->
  normalize_property p o = Ok o' -> built (l ++ [p]) o'.
Proof.
  intros Hd Hg Hb Hl Hn. destruct (good_stored time p Hd Hg) as (sp&Hsp&_).
  rewrite (normalize_property_stored _ _ _ Hsp) in Hn. injection Hn as <-.
  assert (Hp : read_key p.(name) = true) by apply Hg.
  destruct (built_fresh l p o Hb Hp Hl) as [_ Hfree], (read_key_facts _ Hp) as (_&Hk2&Hk3).
  pose proof Hb as (Ho&Hvis&Hty&Hkeys). destruct sp as [[v t]|].
  2: { split_and!; [done| | |].
       - rewrite Hvis. unfold stored_of. rewrite omap_app. cbn. by rewrite Hsp, app_nil_r.
       - intros q v t [Hq|Hq%list_elem_of_singleton]%elem_of_app Hqs; [by eapply Hty|congruence].
       - intros k Hk. destruct (Hkeys k Hk) as [|(q&Hq&?)]; [by left|right]. exists q. split; [set_solver|done]. }
  split_and!.
  - by apply well_ordered_store_pair.
  - rewrite (visible_store_pair l) by done. unfold stored_of. rewrite omap_app. cbn. by rewrite Hsp.
  - intros q v' t' [Hq|Hq%list_elem_of_singleton]%elem_of_app Hqs; unfold get.
    + destruct (Hl q Hq) as (Hne&Hqk&_). rewrite own_store_pair by done.
      rewrite bool_decide_eq_false_2 by (intros He; by eapply Hk3).
      destruct t as [t|]; [rewrite bool_decide_eq_false_2 by (intros He%app_inv_tail; congruence)|];
        by eapply Hty.
    + subst q. rewrite Hsp in Hqs. injection Hqs as <- <-. rewrite own_store_pair by done.
      rewrite bool_decide_eq_false_2 by apply type_name_ne.
      destruct t as [t|]; [by rewrite bool_decide_eq_true_2|]. rewrite Hfree. apply inherited_type_name.
  - intros k [->|[->|Hk]]%elem_of_store_pair; [right; exists p; set_solver..|].
    destruct (Hkeys k Hk) as [|(q&Hq&?)]; [by left|right]. exists q. split; [set_solver|done].
Qed.

Definition earlier_key (q p : EntityProperty) : Prop :=
  q.(name) <> p.(name) /\ before p.(name) q.(name) = false.

Lemma built_all time L : forall l o o',
  valid_date (time ++ js "Z") = false -> built l o -> Forall (good time) (l ++ L) ->
  StronglySorted earlier_key (l ++ L) -> normalize_all L o = Ok o' -> built (l ++ L) o'.
Proof.
  induction L as [|p L IH]; intros l o o' Hd Hb Hg Hs; cbn.
  { intros [= <-]. by rewrite app_nil_r in *. }
  unfold mbind, result_bind. destruct (normalize_property p o) as [o1|] eqn:Ho; [|done]. intros Hn.
  assert (Hp : precede l p).
  { intros q Hq. destruct (StronglySorted_app_1_elem_of _ _ _ q p Hs Hq ltac:(left)) as [??].
    split_and!; [done| |done]. rewrite Forall_forall in Hg. apply Hg. set_solver. }
  assert (Hgp : good time p) by (rewrite Forall_forall in Hg; apply Hg; set_solver).
  replace (l ++ p :: L) with ((l ++ [p]) ++ L) in * by by rewrite <- app_assoc.
  eapply IH; [done| |done..|exact Hn]. by apply (built_step time l p o).
Qed.

Arguments property_response : simpl never.

(** What is read of the stored object has the responses of what was stored. *)
Lemma read_back_all time O L : forall L',
  valid_date (time ++ js "Z") = false -> built L' O -> (forall p, p ∈ L -> p ∈ L') -> Forall (good time) L ->
  exists L2, read_all O (stored_of L) = Ok L2 /\
    forall accept level includes, toAnnotationLevel accept = Ok level ->
      response_pairs accept includes L2 = response_pairs accept includes L.
Proof.
  induction L as [|p L IH]; intros L' Hd Hb Hin Hg.
  { by exists []. }
  apply Forall_cons in Hg as [Hp Hg].
  destruct (IH L' Hd Hb ltac:(intros q Hq; apply Hin; by right) Hg) as (L2&HL2&Hr).
  destruct (good_stored time p Hd Hp) as (sp&Hsp&Hread).
  change (p :: L) with ([p] ++ L). unfold stored_of. rewrite omap_app. cbn. rewrite Hsp. fold (stored_of L).
  destruct sp as [[v t]|]; cbn.
  - destruct Hread as (Hv&Hname&Hresp). exists (read_back p :: L2). split.
    + unfold read_one. cbn [fst snd]. destruct Hb as (_&_&Hty&_).
      rewrite (Hty p v t (Hin p ltac:(left)) Hsp).
      unfold mbind, result_bind. destruct t as [t|]; cbn [type_value]; rewrite Hv; by rewrite HL2.
    + intros accept level includes Ha. cbn. rewrite Hname, (Hr _ _ _ Ha), Ha. cbn. by rewrite Hresp.
  - exists L2. split; [done|]. intros accept level includes Ha. cbn. rewrite (Hr _ _ _ Ha), Ha. cbn.
    rewrite Hread. case_match; [|done]. cbn. by destruct (response_pairs _ _ _).
Qed.

Lemma read_all_good time all o L :
  read_all all o = Ok L -> Forall readable L -> Forall (fun kv => read_key kv.1 = true) o ->
  (forall kv, kv ∈ o -> kv.1 = js "Timestamp" -> kv.2 = VStr time /\
     get (kv.1 ++ ODATA_TYPE) all = VStr (js "Edm.DateTime") /\ valid_date (time ++ js "Z") = false) ->
  (name <$> L) = o.*1 /\ Forall (good time) L.
Proof.
  revert L. induction o as [|kv o IH]; intros L; cbn.
  { by intros [= <-]. }
  unfold mbind, result_bind. destruct (read_one all kv) as [p|] eqn:Hp; [|done].
  destruct (read_all all o) as [rest|]; [|done]. intros [= <-] [Hr Hrs]%Forall_cons [Hk Hks]%Forall_cons Ht.
  destruct (IH rest eq_refl Hrs Hks) as [Hn Hg]; [intros kv' ??; apply Ht; [by right|done]|].
  apply (read_one_good time) in Hp as (Hpn&Hpp&Hps); [|apply Ht; left].
  cbn. rewrite Hpn. split; [f_equal; exact Hn|]. constructor; [|done].
  unfold good. split_and!; [done..|by rewrite Hpn|done].
Qed.

(** Keys that are read are read in order. *)
Lemma earlier_visible o L :
  well_ordered o -> (name <$> L) = (visible read_key o).*1 -> StronglySorted earlier_key L.
Proof.
  intros [Hn Ho] HL. assert (Hs : StronglySorted (fun q p => q <> p /\ before p q = false) (name <$> L)).
  { rewrite HL. clear L HL. unfold visible. induction Ho as [|kv o Ho IH Hkv]; [constructor|].
    apply NoDup_cons in Hn as [Hk Hn]. rewrite filter_cons. case_decide; [|by apply IH].
    cbn. constructor; [by apply IH|]. rewrite Forall_forall in Hkv. apply Forall_forall.
    intros k (kv'&->&Hin)%list_elem_of_fmap.
    apply list_elem_of_filter in Hin as [_ Hin]. split; [|by apply Hkv].
    intros He. apply Hk. rewrite He. by apply list_elem_of_fmap_2. }
  clear -Hs. induction L as [|p L IH]; [constructor|]. cbn in Hs. apply StronglySorted_inv in Hs as [Hs Hp].
  constructor; [by apply IH|]. rewrite Forall_forall in Hp. apply Forall_forall. intros q Hq. apply Hp. by apply list_elem_of_fmap_2.
Qed.

(** The object with the keys only. *)
Lemma built_nil pk rk :
  built [] (assign (js "RowKey") (VStr rk) (assign (js "PartitionKey") (VStr pk) [])).
Proof.
  assert (Hnil : well_ordered ([] : object)) by (split; constructor).
  assert (Hpk : well_ordered (assign (js "PartitionKey") (VStr pk) [])) by by apply well_ordered_assign.
  split_and!; [by apply well_ordered_assign| |by intros ???[]%elem_of_nil|].
  - rewrite visible_assign_other by (apply Hpk || by vm_compute).
    by rewrite visible_assign_other by (apply Hnil || by vm_compute).
  - intros k [->|[->|[]%elem_of_nil]%elem_of_assign]%elem_of_assign; left; set_solver.
Qed.

(** A stored entity has its time stamp already. *)
Lemma with_timestamp_stored now s L :
  s.(lastModifiedTime) <> [] -> built L s.(properties) -> timestamp_property s.(lastModifiedTime) ∈ L ->
  with_timestamp now s = s.
Proof.
  intros Hl (Hwo&Hvis&Hty&_) Hin.
  assert (Ht : own (js "Timestamp") s.(properties) = Some (VStr s.(lastModifiedTime))).
  { apply own_elem; [apply Hwo|]. assert (Hv : (js "Timestamp", VStr s.(lastModifiedTime)) ∈ visible read_key s.(properties)).
    { rewrite Hvis. apply list_elem_of_omap. by exists (timestamp_property s.(lastModifiedTime)). }
    by apply list_elem_of_filter in Hv as [_ ?]. }
  assert (Htt : own (js "Timestamp@odata.type") s.(properties) = Some (VStr (js "Edm.DateTime"))).
  { specialize (Hty _ (VStr s.(lastModifiedTime)) (Some (js "Edm.DateTime")) Hin eq_refl).
    change (get (js "Timestamp@odata.type") s.(properties) = VStr (js "Edm.DateTime")) in Hty.
    unfold get in Hty. destruct (own _ _); [by f_equal|]. vm_compute in Hty. discriminate. }
  unfold with_timestamp. destruct s as [pk rk o l tag]. cbn in *. destruct l as [|u l]; [done|]. cbn.
  rewrite (assign_same _ _ _ (proj1 Hwo) Ht). by rewrite (assign_same _ _ _ (proj1 Hwo) Htt).
Qed.

(** The properties of an entity with its time stamp. *)
Lemma stamped_properties now e :
  e.(lastModifiedTime) <> [] -> well_ordered e.(properties) ->
  well_ordered (with_timestamp now e).(properties) /\
  (forall v, (js "Timestamp", v) ∈ (with_timestamp now e).(properties) -> v = VStr e.(lastModifiedTime)) /\
  (js "Timestamp", VStr e.(lastModifiedTime)) ∈ (with_timestamp now e).(properties) /\
  get (js "Timestamp" ++ ODATA_TYPE) (with_timestamp now e).(properties) = VStr (js "Edm.DateTime").
Proof.
  intros Hl Hwo. set (o := (with_timestamp now e).(properties)).
  assert (Hp : o = assign (js "Timestamp@odata.type") (VStr (js "Edm.DateTime"))
                     (assign (js "Timestamp") (VStr e.(lastModifiedTime)) e.(properties))).
  { unfold o, with_timestamp. cbn. by destruct e.(lastModifiedTime). }
  assert (Hw : well_ordered o) by (rewrite Hp; by repeat apply well_ordered_assign).
  assert (Ht : own (js "Timestamp") o = Some (VStr e.(lastModifiedTime))).
  { rewrite Hp, own_assign by by vm_compute. rewrite bool_decide_eq_false_2 by by vm_compute.
    rewrite own_assign by by vm_compute. by rewrite bool_decide_eq_true_2. }
  split_and!; [done| | |].
  - intros v Hv. apply own_elem in Hv; [congruence|apply Hw].
  - by apply elem_own.
  - apply get_own. rewrite Hp. change (js "Timestamp" ++ ODATA_TYPE) with (js "Timestamp@odata.type").
    rewrite own_assign by by vm_compute. by rewrite bool_decide_eq_true_2.
Qed.

(** What the constructor reads of a new entity: the properties, which are good,
    in order, with the time stamp among them. *)
Lemma new_normalized_reads now e n :
  well_ordered e.(properties) -> e.(lastModifiedTime) <> [] ->
  valid_date (e.(lastModifiedTime) ++ js "Z") = false ->
  new_normalized valid_date now e = Ok n -> Forall readable n.(normalized_properties) ->
  exists L, n = mkNormalized (with_timestamp now e)
                  (mkProperty (js "PartitionKey") (OfString (EdmString.make_ e.(PartitionKey))) true
                   :: mkProperty (js "RowKey") (OfString (EdmString.make_ e.(RowKey))) true :: L) /\
    Forall (good e.(lastModifiedTime)) L /\ StronglySorted earlier_key L /\
    timestamp_property e.(lastModifiedTime) ∈ L.
Proof.
  intros Hwo Hl Hd Hn Hr. destruct (stamped_properties now e Hl Hwo) as (Hw1&Hts&Htin&Htt).
  unfold new_normalized in Hn. rewrite read_properties_all in Hn; [|apply Hw1|left|right; left|done].
  destruct (read_all _ _) as [L|] eqn:HL; [|done]. injection Hn as <-. exists L. split; [done|].
  cbn in Hr. apply Forall_cons in Hr as [_ Hr]. apply Forall_cons in Hr as [_ Hr].
  destruct (read_all_good e.(lastModifiedTime) _ _ _ HL Hr) as [Hnames Hgood].
  { apply Forall_forall. by intros kv [? _]%list_elem_of_filter. }
  { intros [k v] [_ Hin]%list_elem_of_filter. cbn. intros ->. split_and!; [by apply Hts|done..]. }
  split_and!; [done|by eapply earlier_visible|].
  assert (Hin : js "Timestamp" ∈ name <$> L).
  { rewrite Hnames. apply list_elem_of_fmap. exists (js "Timestamp", VStr e.(lastModifiedTime)).
    split; [reflexivity|]. apply list_elem_of_filter. split; [by vm_compute|exact Htin]. }
  apply list_elem_of_fmap in Hin as (p&Hpn&Hin). rewrite Forall_forall in Hgood.
  destruct (Hgood p Hin) as (_&_&_&[->|[_ Hne]]); [done|congruence].
Qed.

(** C26. What a client reads of an entity is what the response to its insertion showed:
    the entity [normalize] makes for the store is read again without an error, and
    its response, at every level, with every selection of properties, is the same.
    GUIDs are stored in base64 and decoded, values given as strings are converted, types are
    inferred, null values are not stored; none of this shows. The dates must not be
    dates any more with a second Z, the GUIDs have no lone surrogates and are no base64
    texts themselves (32 hexadecimal digits without hyphens are). *)
Theorem entity_reads_back now now' e n s :
  well_ordered e.(properties) -> e.(lastModifiedTime) <> [] ->
  valid_date (e.(lastModifiedTime) ++ js "Z") = false ->
  new_normalized valid_date now e = Ok n -> Forall readable n.(normalized_properties) ->
  normalize n = Ok s ->
  exists n', new_normalized valid_date now' s = Ok n' /\
    forall accept level injections includes, toAnnotationLevel accept = Ok level ->
      toResponseString n' accept injections includes = toResponseString n accept injections includes.
Proof.
  intros Hwo Hl Hd Hn Hr Hs. destruct (new_normalized_reads now e n Hwo Hl Hd Hn Hr) as (L&->&Hg&Hsort&Hts).
  unfold normalize in Hs. cbn [normalized_properties ref] in Hs.
  destruct (normalize_all _ []) as [O|] eqn:HO; [|done]. injection Hs as <-.
  change (normalize_all L (assign (js "RowKey") (VStr e.(RowKey))
            (assign (js "PartitionKey") (VStr e.(PartitionKey)) [])) = Ok O) in HO.
  assert (Hb : built L O).
  { eapply (built_all e.(lastModifiedTime) L []); [done|apply built_nil|done..]. }
  destruct (read_back_all e.(lastModifiedTime) O L L Hd Hb ltac:(done) Hg) as (L2&HL2&Hresp).
  unfold new_normalized. rewrite (with_timestamp_stored now' _ L) by done. cbn [properties with_properties].
  rewrite read_properties_all; [|apply Hb|left|right; left|done].
  rewrite (proj1 (proj2 Hb)), HL2. eexists. split; [done|].
  intros accept level injections includes Ha. unfold toResponseString. cbn.
  by rewrite (Hresp accept level includes Ha).
Qed.

End Property.

(** An entity with a GUID, an integer given as a string, a time without its Z and a
    null value. *)
Definition sample_date (t : text) : bool := t === js "2024-01-01T00:00:00Z".
Definition sample_entity : Entity :=
  mkEntity (js "p") (js "r")
    [(js "id", VStr (js "0f8fad5b-d9cb-469f-a165-70867728950e")); (js "id@odata.type", VStr (js "Edm.Guid"));
     (js "n", VStr (js "007")); (js "n@odata.type", VStr (js "Edm.Int32"));
     (js "at", VStr (js "2024-01-01T00:00:00")); (js "at@odata.type", VStr (js "Edm.DateTime"));
     (js "none", VNull)]
    (js "2024-01-01T00:00:00.0001234Z") (js "tag").

Definition sample_normalized : option (NormalizedEntity * Entity) :=
  match new_normalized sample_date (js "") sample_entity with
  | Ok n => match normalize n with Ok s => Some (n, s) | Throw _ => None end
  | Throw _ => None
  end.

Lemma entity_reads_back_witness :
  exists n s n', sample_normalized = Some (n, s) /\ new_normalized sample_date (js "now") s = Ok n' /\
    toResponseString n' MINIMAL_METADATA_ACCEPT [] None = toResponseString n MINIMAL_METADATA_ACCEPT [] None.
Proof.
  destruct sample_normalized as [[n s]|] eqn:Hs; [|vm_compute in Hs; discriminate].
  exists n, s. unfold sample_normalized in Hs.
  destruct (new_normalized _ _ _) as [n0|] eqn:Hn; [|discriminate].
  destruct (normalize n0) as [s0|] eqn:Hs0; [|discriminate]. injection Hs as <- <-.
  destruct (entity_reads_back sample_date (js "") (js "now") sample_entity n0 s0) as (n'&Hn'&Hr).
  - vm_compute in Hn. injection Hn as <-. split; [|repeat constructor].
    apply (bool_decide_unpack _). by vm_compute.
  - done.
  - by vm_compute.
  - done.
  - vm_compute in Hn. injection Hn as <-. repeat constructor.
  - done.
  - exists n'. split_and!; [done|done|]. by apply (Hr _ MINIMAL).
Defined.
