(* ===== verification/TableQuery.v ===== *)
(** * TableQuery: the query language of tables and entities

    src/src/table/persistence/QueryInterpreter: the lexer, the recursive descent
    parser of [$filter], the nodes of its syntax tree with their evaluation on an
    entity or a table, the validation of trees, and
    LokiTableStoreQueryGenerator.ts, which compiles a query to a predicate.

    The state of the lexer is its position, threaded through the [proc] monad.
    The layers of the grammar call each other: each call takes a unit of fuel, and
    [visit] starts with four units for each character and four more. The
    exceptions of lexer and parser are plain [Error]s, whose messages are not
    modelled. [new Date(v).valueOf()] is an argument, [date_of], since JavaScript
    leaves texts that are not in the ISO format to the implementation. *)

From S2P Require Import Prelude Errors Extents Utf8 Texts JsValues TableErrors TableEntities.
From Stdlib Require Import SpecFloat.
From Stdlib Require String.
Open Scope Z_scope.
Open Scope azurite_scope.

(** ** The lexer *)

Inductive QueryTokenKind :=
| identifier | bool_ | number_ | type_hint | string_ | open_paren | close_paren
| unary_operator | comparison_operator | logic_operator | end_of_query.

#[export] Instance QueryTokenKind_eq_dec : EqDecision QueryTokenKind.
Proof. solve_decision. Defined.

Record QueryToken := mkToken {
  kind : QueryTokenKind;
  position : nat;
  token_length : nat;
  token_value : option text
}.

Definition comparisonOperators : list text := js <$> ["eq"; "ne"; "gt"; "ge"; "lt"; "le"]%string.
Definition unaryOperators : list text := [js "not"].
Definition logicOperators : list text := js <$> ["and"; "or"]%string.
Definition typeHints : list text := js <$> ["datetime"; "guid"; "binary"; "x"]%string.

Definition single_quote : Z := 39.
Definition double_quote : Z := 34.
Definition is_quote (u : Z) : bool := (u =? double_quote) || (u =? single_quote).
Definition is_control (u : Z) : bool := (u =? 40) || (u =? 41) || is_quote u.

Fixpoint count_while (p : Z -> bool) (l : text) : nat :=
  match l with u :: l => if p u then S (count_while p l) else 0 | [] => 0 end.

(** The loop of [peekString], from the character after the opening quote. *)
Fixpoint string_scan (openCharacter : Z) (l : text) : nat :=
  match l with
  | [] => 0
  | c :: l' =>
      if c =? openCharacter then
        match l' with
        | c' :: l'' => if c' =? openCharacter then S (S (string_scan openCharacter l'')) else 1
        | [] => 1
        end
      else S (string_scan openCharacter l')
  end.

(** [replace(/oo/g, o)] *)
Fixpoint undouble (o : Z) (l : text) : text :=
  match l with
  | a :: ((b :: r) as t) => if (a =? o) && (b =? o) then o :: undouble o r else a :: undouble o t
  | _ => l
  end.

(** [/^-?[0-9]+(\.[0-9]+)?L?$/]. *)
Definition is_number (v : text) : bool :=
  let r := match v with u :: r => if u =? 45 then r else v | [] => v end in
  let (ip, r) := digits r in
  negb (Nat.eqb (length ip) 0) &&
  let r := match r with
           | u :: r' =>
               if u =? 46 then let (fp, r'') := digits r' in if Nat.eqb (length fp) 0 then r else r''
               else r
           | [] => r
           end in
  bool_decide (r = []) || bool_decide (r = js "L").

Section Lexer.
Context (query : text).

Definition peekString (start : nat) : QueryToken :=
  let openCharacter := default 0 (query !! start) in
  let position := (start + 1 + string_scan openCharacter (drop (start + 1) query))%nat in
  mkToken string_ start (position - start)
    (Some (undouble openCharacter (substring (start + 1) (position - 1) query))).

Definition word_unit (u : Z) : bool := negb (is_space_unit u) && negb (is_control u).

Definition peekWord (start : nat) : QueryToken :=
  let position := (start + count_while word_unit (drop start query))%nat in
  let value := substring start position query in
  let token k := mkToken k start (length value) (Some value) in
  if bool_decide (lower value ∈ logicOperators) then token logic_operator
  else if bool_decide (lower value ∈ unaryOperators) then token unary_operator
  else if bool_decide (lower value ∈ comparisonOperators) then token comparison_operator
  else if (lower value === js "true") || (lower value === js "false") then token bool_
  else if bool_decide (lower value ∈ typeHints)
          && match query !! position with Some u => is_quote u | None => false end then token type_hint
  else if is_number value then token number_
  else token identifier.

Abbreviation parser := (proc nat exn).

Definition skipWhitespace : parser unit :=
  fun p => (Ok tt, (p + count_while is_space_unit (drop p query))%nat).

Definition peek : parser QueryToken :=
  _ ← skipWhitespace;
  p ← get_state;
  match query !! p with
  | None => mret (mkToken end_of_query p 0 None)
  | Some u =>
      if u =? 40 then mret (mkToken open_paren p 1 None)
      else if u =? 41 then mret (mkToken close_paren p 1 None)
      else if is_quote u then mret (peekString p)
      else mret (peekWord p)
  end.

(** [next(predicate)], and [next()]. *)
Definition next (predicate : QueryToken -> bool) : parser (option QueryToken) :=
  token ← peek;
  if predicate token then
    _ ← put_state (token.(position) + token.(token_length))%nat;
    mret (Some token)
  else mret None.

Definition next_any : parser QueryToken :=
  token ← peek;
  _ ← put_state (token.(position) + token.(token_length))%nat;
  mret token.

End Lexer.

Abbreviation parser := (proc nat exn).

(** ** The syntax tree *)

Inductive IQueryNode :=
| IdentifierNode (identifier : text)
| ConstantNode (value : value)
| DateTimeNode (value : text)
| GuidNode (value : text)
| BinaryDataNode (value : text)
| BigNumberNode (value : text)
| AndNode (left right : IQueryNode)
| OrNode (left right : IQueryNode)
| NotNode (right : IQueryNode)
| EqualsNode (left right : IQueryNode)
| NotEqualsNode (left right : IQueryNode)
| GreaterThanNode (left right : IQueryNode)
| GreaterThanEqualNode (left right : IQueryNode)
| LessThanNode (left right : IQueryNode)
| LessThanEqualNode (left right : IQueryNode).

#[export] Instance IQueryNode_eq_dec : EqDecision IQueryNode.
Proof. solve_decision. Defined.

(** ** The parser *)

Definition has_kind (k : QueryTokenKind) (t : QueryToken) : bool := t.(kind) === k.
Definition value_of (t : QueryToken) : text := default [] t.(token_value).
(** A word of a kind, in any case. *)
Definition is_word (k : QueryTokenKind) (w : string) (t : QueryToken) : bool :=
  (t.(kind) === k) && (lower (value_of t) === js w).

Section Parser.
Context (query : text).

Local Abbreviation next := (next query).

Definition throwUnexpectedToken {A} : parser A :=
  _ ← peek query;
  throw JsError.

(** [next(predicate) || this.throwUnexpectedToken(...)]. *)
Definition expect (predicate : QueryToken -> bool) : parser QueryToken :=
  token ← next predicate;
  match token with Some t => mret t | None => throwUnexpectedToken end.

Definition visitNumber : parser IQueryNode :=
  token ← expect (has_kind number_);
  let value := value_of token in
  if endsWith (js "L") value
  then mret (BigNumberNode (substring 0 (length value - 1) value))
  else mret (ConstantNode (VNum (parseFloat value))).

Definition visitTypeHint : parser IQueryNode :=
  typeHint ← expect (has_kind type_hint);
  value ← expect (has_kind string_);
  let hint := lower (value_of typeHint) in
  if hint === js "datetime" then mret (DateTimeNode (value_of value))
  else if hint === js "guid" then mret (GuidNode (value_of value))
  else if (hint === js "binary") || (hint === js "x") then mret (BinaryDataNode (value_of value))
  else throw JsError.

Definition visitIdentifierOrConstant : parser IQueryNode :=
  token ← peek query;
  match token.(kind) with
  | identifier => t ← next_any query; mret (IdentifierNode (value_of t))
  | bool_ => t ← next_any query; mret (ConstantNode (VBool (lower (value_of t) === js "true")))
  | string_ => t ← next_any query; mret (ConstantNode (VStr (value_of t)))
  | number_ => visitNumber
  | type_hint => visitTypeHint
  | _ => throwUnexpectedToken
  end.

Definition binaryOperators (op : text) : option (IQueryNode -> IQueryNode -> IQueryNode) :=
  if op === js "eq" then Some EqualsNode
  else if op === js "ne" then Some NotEqualsNode
  else if op === js "ge" then Some GreaterThanEqualNode
  else if op === js "gt" then Some GreaterThanNode
  else if op === js "le" then Some LessThanEqualNode
  else if op === js "lt" then Some LessThanNode
  else None.

Definition visitBinary : parser IQueryNode :=
  left ← visitIdentifierOrConstant;
  operator ← next (has_kind comparison_operator);
  match operator with
  | None => mret left
  | Some operator =>
      match binaryOperators (lower (value_of operator)) with
      | None => throw JsError
      | Some operatorType =>
          right ← visitIdentifierOrConstant;
          mret (operatorType left right)
      end
  end.

(** [visitOr], which is [visitExpression], [visitAnd], [visitUnary] and
    [visitExpressionGroup]. *)
Inductive layer := Or | And | Unary | Group.

Fixpoint visit_layer (fuel : nat) (l : layer) : parser IQueryNode :=
  match fuel with
  | O => throw OutOfFuel
  | S fuel =>
      match l with
      | Or =>
          left ← visit_layer fuel And;
          t ← next (is_word logic_operator "or");
          match t with
          | Some _ => right ← visit_layer fuel Or; mret (OrNode left right)
          | None => mret left
          end
      | And =>
          left ← visit_layer fuel Unary;
          t ← next (is_word logic_operator "and");
          match t with
          | Some _ => right ← visit_layer fuel And; mret (AndNode left right)
          | None => mret left
          end
      | Unary =>
          t ← next (is_word unary_operator "not");
          right ← visit_layer fuel Group;
          mret (match t with Some _ => NotNode right | None => right end)
      | Group =>
          t ← next (has_kind open_paren);
          match t with
          | Some _ =>
              child ← visit_layer fuel Or;
              _ ← expect (has_kind close_paren);
              mret child
          | None => visitBinary
          end
      end
  end.

Definition visit_fuel : nat := 4 * length query + 4.

Definition visitQuery : parser IQueryNode :=
  tree ← visit_layer visit_fuel Or;
  _ ← expect (has_kind end_of_query);
  mret tree.

Definition parseQuery : res IQueryNode := (visitQuery 0%nat).1.

End Parser.

(** ** Evaluation *)

(** An entity, or a table with its name. *)
Inductive IQueryContext :=
| EntityContext (e : Entity)
| TableContext (table : string).

(** *** The typed values *)

Definition hex_value (u : Z) : option Z := digit_value 16 u.

(** [Buffer.from(s, "hex")]: pairs of digits, up to the first that is none. *)
Fixpoint from_hex (s : text) : bytes :=
  match s with
  | a :: b :: s =>
      match hex_value a, hex_value b with
      | Some x, Some y => (x * 16 + y) :: from_hex s
      | _, _ => []
      end
  | _ => []
  end.

Definition guid_letter (u : Z) : bool :=
  is_digit u || ((97 <=? lower_unit u) && (lower_unit u <=? 102)).

(** [/^[0-9a-f]{8}-([0-9a-f]{4}-){3}[0-9a-f]{12}$/i]. *)
Definition is_guid (s : text) : bool :=
  Nat.eqb (length s) 36 &&
  forallb (fun iu => if bool_decide (iu.1 ∈ [8; 13; 18; 23]%nat) then iu.2 =? 45 else guid_letter iu.2)
    (zip (seq 0 36) s).

(** The result of a comparison: no number, or a number by its sign. *)
Abbreviation compare_result := (option comparison).

(** The comparison of two values by [<] and [>]. *)
Definition compare_values (thisValue otherValue : value) : comparison :=
  if js_lt thisValue otherValue then Lt else if js_gt thisValue otherValue then Gt else Eq.

(** [ValueNode.compare]. *)
Definition value_compare (thisValue otherValue : value) : compare_result :=
  if is_undefined thisValue || is_undefined otherValue || (otherValue === VNull) then None
  else Some (compare_values thisValue otherValue).

Definition guid_compare (this : text) (otherValue : value) : compare_result :=
  let thisValue := if negb (is_guid (value_text otherValue)) then to_base64 (Buffer_from this) else this in
  if negb (truthy (VStr thisValue)) || negb (truthy otherValue) then None
  else Some (compare_values (VStr thisValue) otherValue).

Fixpoint trimZeros (s : text) : text :=
  match s with u :: s' => if u =? 48 then trimZeros s' else s | [] => [] end.

(** The loop of [comparePositiveNumber], on texts of the same length. *)
Fixpoint compare_digits (a b : text) : comparison :=
  match a, b with
  | x :: a, y :: b => if x <? y then Lt else if x >? y then Gt else compare_digits a b
  | _, _ => Eq
  end.

Definition comparePositiveNumber (thisValue otherValue : text) : comparison :=
  let a := trimZeros thisValue in
  let b := trimZeros otherValue in
  if (length a <? length b)%nat then Lt
  else if (length b <? length a)%nat then Gt
  else compare_digits a b.

Definition negative (s : text) : bool := startsWith (js "-") s.

Definition bignumber_compare (thisValue : text) (otherValue : value) : res compare_result :=
  match otherValue with
  | VUndefined | VNull => Ok None
  | VStr otherValue =>
      let rest := drop 1 thisValue in
      let both_empty := Nat.eqb (length (trimZeros rest)) 0 && Nat.eqb (length (trimZeros otherValue)) 0 in
      Ok (Some (
        if negative thisValue then
          if negative otherValue then CompOpp (comparePositiveNumber rest (drop 1 otherValue))
          else if both_empty then Eq else Lt
        else if negative otherValue then if both_empty then Eq else Gt
        else comparePositiveNumber thisValue otherValue))
  | _ => Throw TypeError
  end.

Section Evaluation.
Context (date_of : value -> option Z).

Definition datetime_compare (this : text) (otherValue : value) : compare_result :=
  if otherValue === VNull then None
  else match date_of (VStr this), date_of otherValue with
       | Some a, Some b => Some (a ?= b)
       | _, _ => None
       end.

(** [IdentifierNode.evaluate]. *)
Definition identifier_value (context : IQueryContext) (identifier : text) : res value :=
  match context with
  | EntityContext e =>
      if identifier === js "PartitionKey" then Ok (VStr e.(PartitionKey))
      else if identifier === js "RowKey" then Ok (VStr e.(RowKey))
      else Ok (get identifier e.(properties))
  | TableContext table =>
      if table === EmptyString then Ok VUndefined
      else
        throw_when (lower identifier !== js "tablename") JsError;;
        Ok (VStr (js table))
  end.

(** The value of a [ValueNode], if the node is one. *)
Definition typed_value (node : IQueryNode) : option value :=
  match node with
  | DateTimeNode v | BigNumberNode v => Some (VStr v)
  | GuidNode v => Some (VStr (to_base64 (Buffer_from v)))
  | BinaryDataNode v => Some (VStr (to_base64 (from_hex v)))
  | _ => None
  end.

(** [left.compare(context, right)] of a [ValueNode], given the value of [right]. *)
Definition compare (node : IQueryNode) (otherValue : value) : res compare_result :=
  match node with
  | DateTimeNode v => Ok (datetime_compare v otherValue)
  | GuidNode v => Ok (guid_compare v otherValue)
  | BigNumberNode v => bignumber_compare v otherValue
  | BinaryDataNode v => Ok (value_compare (VStr (to_base64 (from_hex v))) otherValue)
  | _ => Ok None
  end.

(** A comparison node: [op] on the result of a comparison, [mirror] when the
    typed value is on the right, [plain] on two values. *)
Definition comparison_node (op mirror : compare_result -> bool) (plain : value -> value -> bool)
    (left right : IQueryNode) (l r : res value) : res value :=
  if defined (typed_value left) then
    r ← r; c ← compare left r; Ok (VBool (op c))
  else if defined (typed_value right) then
    l ← l; c ← compare right l; Ok (VBool (mirror c))
  else
    l ← l; r ← r; Ok (VBool (plain l r)).

Definition is_result (l : list comparison) (c : compare_result) : bool :=
  match c with Some c => bool_decide (c ∈ l) | None => false end.

#[local] Instance comparison_eq_dec : EqDecision comparison.
Proof. solve_decision. Defined.

Definition plain_not_equal (l r : value) : bool :=
  negb (strict_equal l r) && negb (is_undefined l) && negb (is_undefined r).

Fixpoint evaluate (context : IQueryContext) (node : IQueryNode) : res value :=
  match node with
  | IdentifierNode i => identifier_value context i
  | ConstantNode v => Ok v
  | DateTimeNode v | BigNumberNode v => Ok (VStr v)
  | GuidNode v => Ok (VStr (to_base64 (Buffer_from v)))
  | BinaryDataNode v => Ok (VStr (to_base64 (from_hex v)))
  | AndNode lhs rhs =>
      l ← evaluate context lhs;
      if truthy l then evaluate context rhs else Ok l
  | OrNode lhs rhs =>
      l ← evaluate context lhs;
      if truthy l then Ok l else evaluate context rhs
  | NotNode rhs => r ← evaluate context rhs; Ok (VBool (negb (truthy r)))
  | EqualsNode l r =>
      comparison_node (is_result [Eq]) (is_result [Eq]) strict_equal l r
        (evaluate context l) (evaluate context r)
  | NotEqualsNode l r =>
      comparison_node (is_result [Lt; Gt]) (is_result [Lt; Gt]) plain_not_equal l r
        (evaluate context l) (evaluate context r)
  | GreaterThanNode l r =>
      comparison_node (is_result [Gt]) (is_result [Lt]) js_gt l r
        (evaluate context l) (evaluate context r)
  | GreaterThanEqualNode l r =>
      comparison_node (is_result [Gt; Eq]) (is_result [Lt; Eq]) js_ge l r
        (evaluate context l) (evaluate context r)
  | LessThanNode l r =>
      comparison_node (is_result [Lt]) (is_result [Gt]) js_lt l r
        (evaluate context l) (evaluate context r)
  | LessThanEqualNode l r =>
      comparison_node (is_result [Lt; Eq]) (is_result [Gt; Eq]) js_le l r
        (evaluate context l) (evaluate context r)
  end.

Definition executeQuery (context : IQueryContext) (queryTree : IQueryNode) : res bool :=
  v ← evaluate context queryTree;
  Ok (truthy v).

(** ** Validation and compilation *)

Fixpoint countIdentifierReferences (queryTree : IQueryNode) : nat :=
  match queryTree with
  | IdentifierNode _ => 1
  | AndNode l r | OrNode l r | EqualsNode l r | NotEqualsNode l r | GreaterThanNode l r
  | GreaterThanEqualNode l r | LessThanNode l r | LessThanEqualNode l r =>
      countIdentifierReferences l + countIdentifierReferences r
  | NotNode r => countIdentifierReferences r
  | _ => 0
  end.

Definition validateQueryTree (queryTree : IQueryNode) : res unit :=
  throw_when (Nat.eqb (countIdentifierReferences queryTree) 0) JsError;;
  Ok tt.

(** [generateQueryTableWhereFunction] and [generateQueryEntityWhereFunction]. *)
Definition generate (query : option text) : res (IQueryContext -> res bool) :=
  match query with
  | None => Ok (fun _ => Ok true)
  | Some query =>
      if (query === js "") || (query === js "true") then Ok (fun _ => Ok true)
      else if query === js "false" then Ok (fun _ => Ok false)
      else
        queryTree ← parseQuery query;
        _ ← validateQueryTree queryTree;
        Ok (fun entity => executeQuery entity queryTree)
  end.

Definition generateQueryTableWhereFunction (query : option text) : res (string -> res bool) :=
  f ← generate query;
  Ok (fun table => f (TableContext table)).

Definition generateQueryEntityWhereFunction (query : option text) : res (Entity -> res bool) :=
  f ← generate query;
  Ok (fun entity => f (EntityContext entity)).

Definition generateQueryForPersistenceLayer (contextID : option string) (filter : option text) :
    res (Entity -> res bool) :=
  match generateQueryEntityWhereFunction filter with
  | Ok queryWhere => Ok queryWhere
  | Throw _ => Throw (TableErrors.getQueryConditionInvalid contextID)
  end.

End Evaluation.
