(* ===== verification/TableQuerySpec.v ===== *)
(** * TableQuerySpec: the query language of tables and entities

    The parser always ends with a tree or an [Error]; printing a tree and parsing
    the text gives the tree, whatever texts its constants hold; comparisons with
    64-bit integers are numerical; and when an evaluation throws. *)

From S2P Require Import Prelude Errors Extents Utf8 Texts JsValues TableErrors TableEntities TableQuery.
From Stdlib Require Import SpecFloat.
From Stdlib Require String.
Open Scope Z_scope.
Open Scope azurite_scope.

(** ** The lexer *)

Lemma count_while_le p l : (count_while p l <= length l)%nat.
Proof. induction l as [|u l IH]; cbn; [done|]. destruct (p u); lia. Qed.

Lemma count_while_app p l r : forallb p l = true ->
  match r with [] => True | u :: _ => p u = false end -> count_while p (l ++ r) = length l.
Proof.
  intros Hl Hr. induction l as [|u l IH]; cbn in *.
  - destruct r as [|u r]; cbn; [done|]. by rewrite Hr.
  - apply andb_prop in Hl as [Hu Hl]. rewrite Hu. f_equal. by apply IH.
Qed.

Lemma string_scan_le o l : (string_scan o l <= length l)%nat.
Proof.
  induction l as [l IH] using (induction_ltof1 _ length). unfold ltof in IH.
  destruct l as [|c [|c' l]]; cbn; [done|destruct (c =? o); lia|].
  destruct (c =? o); [destruct (c' =? o)|].
  - specialize (IH l ltac:(cbn; lia)). lia.
  - lia.
  - specialize (IH (c' :: l) ltac:(cbn; lia)). cbn in *. lia.
Qed.

Lemma length_substring a b s : (a <= b <= length s)%nat -> length (substring a b s) = (b - a)%nat.
Proof.
  intros Hab. unfold substring. rewrite Nat.min_l, Nat.max_r by lia. rewrite length_take, length_drop. lia.
Qed.

(** ** Totality *)

Section Total.
Context (query : text).

Definition remaining (st : nat) : nat := length query - st.

(** A plain [Error]. *)
Definition is_error (e : exn) : Prop := e = JsError.
Local Abbreviation wp := (wp_exn is_error).

(** A token is in the query, and takes a character unless it is the end. *)
Definition token_ok (st : nat) (t : QueryToken) : Prop :=
  (st <= t.(position))%nat /\
  (t.(kind) = end_of_query \/ (0 < t.(token_length))%nat /\ (t.(position) < length query)%nat).

Lemma peek_word_ok st p u :
  (st <= p)%nat -> query !! p = Some u -> word_unit u = true ->
  token_ok st (peekWord query p) /\ (peekWord query p).(position) = p.
Proof.
  intros Hp Hu Hw. apply lookup_lt_Some in Hu as Hlt.
  assert (Hn : (0 < count_while word_unit (drop p query))%nat).
  { rewrite (drop_S query u p Hu). cbn [count_while]. rewrite Hw. lia. }
  pose proof (count_while_le word_unit (drop p query)) as Hle. rewrite length_drop in Hle.
  unfold peekWord. set (n := count_while word_unit (drop p query)) in *. cbv zeta.
  repeat case_match; (split; [|done]); (split; [done|right]); cbn; rewrite length_substring; lia.
Qed.

Lemma not_space st u :
  query !! (st + count_while is_space_unit (drop st query))%nat = Some u -> is_space_unit u = false.
Proof.
  rewrite <- lookup_drop. induction (drop st query) as [|u' l IH]; [done|]. cbn.
  destruct (is_space_unit u') eqn:Hu; [exact IH|]. by intros [= <-].
Qed.

Lemma wp_peek st (Q : QueryToken -> nat -> Prop) :
  (forall t, token_ok st t -> Q t t.(position)) -> wp (peek query) st Q.
Proof.
  intros HQ. unfold peek. apply wp_bind. unfold wp_exn at 1, skipWhitespace.
  set (p := (st + count_while is_space_unit (drop st query))%nat).
  assert (Hp : (st <= p)%nat) by lia. apply wp_bind, wp_get.
  destruct (query !! p) as [u|] eqn:Hu.
  2: { apply wp_ret. apply (HQ (mkToken end_of_query p 0 None)). split; [done|by left]. }
  pose proof (not_space st u Hu) as Hs. apply lookup_lt_Some in Hu as Hlt.
  assert (Hok : forall k n v, (0 < n)%nat -> Q (mkToken k p n v) p).
  { intros k n v Hn. apply (HQ (mkToken k p n v)). split; [done|by right]. }
  apply wp_if; intros H1; [by apply wp_ret, Hok; lia|].
  apply wp_if; intros H2; [by apply wp_ret, Hok; lia|].
  apply wp_if; intros H3; [apply wp_ret; apply Hok; lia|]. apply wp_ret.
  destruct (peek_word_ok st p u Hp Hu) as [Hw Hpos].
  { unfold word_unit, is_control. by rewrite Hs, H1, H2, H3. }
  rewrite <- Hpos at 2. by apply HQ.
Qed.

(** A token that is taken is taken from the rest of the query. *)
Lemma wp_next predicate st (Q : option QueryToken -> nat -> Prop) :
  (forall st', (st <= st')%nat -> Q None st') ->
  (forall t st', predicate t = true -> (st <= st')%nat ->
     t.(kind) = end_of_query \/ (st < st')%nat /\ (st < length query)%nat -> Q (Some t) st') ->
  wp (next query predicate) st Q.
Proof.
  intros HN HS. unfold next. apply wp_bind, wp_peek. intros t [Hp Ht]. apply wp_if; intros Hc.
  - apply wp_bind, wp_put, wp_ret, HS; [done|lia|]. destruct Ht as [?|[??]]; [by left|right; lia].
  - by apply wp_ret, HN.
Qed.

Lemma wp_unexpected {A} st (Q : A -> nat -> Prop) : wp (throwUnexpectedToken query) st Q.
Proof. apply wp_bind, wp_peek. intros t _. by apply wp_throw. Qed.

Lemma wp_expect predicate st (Q : QueryToken -> nat -> Prop) :
  (forall t st', predicate t = true -> (st <= st')%nat -> Q t st') -> wp (expect query predicate) st Q.
Proof.
  intros HQ. apply wp_bind, wp_next; [intros st' _; apply wp_unexpected|]. intros t st' Ht Hst _.
  by apply wp_ret, HQ.
Qed.

Lemma wp_next_any st (Q : QueryToken -> nat -> Prop) :
  (forall t st', (st <= st')%nat -> Q t st') -> wp (next_any query) st Q.
Proof. intros HQ. apply wp_bind, wp_peek. intros t [Hp _]. apply wp_bind, wp_put, wp_ret, HQ. lia. Qed.

Lemma wp_operand st (Q : IQueryNode -> nat -> Prop) :
  (forall t st', (st <= st')%nat -> Q t st') -> wp (visitIdentifierOrConstant query) st Q.
Proof.
  intros HQ. apply wp_bind, wp_peek. intros t [Hp _].
  assert (Hany : forall f, wp (t ← next_any query; mret (f t)) t.(position) Q).
  { intros f. apply wp_bind, wp_next_any. intros t' st' Ht. apply wp_ret, HQ. lia. }
  destruct (kind t); try apply wp_unexpected; [apply Hany|apply Hany| | |apply Hany].
  - apply wp_bind, wp_expect. intros t' st' _ Ht. apply wp_if; intros _; (apply wp_ret, HQ; lia).
  - apply wp_bind, wp_expect. intros t1 st1 _ Ht1. apply wp_bind, wp_expect. intros t2 st2 _ Ht2.
    repeat (apply wp_if; intros _; [apply wp_ret, HQ; lia|]). by apply wp_throw.
Qed.

Lemma wp_filter_binary st (Q : IQueryNode -> nat -> Prop) :
  (forall t st', (st <= st')%nat -> Q t st') -> wp (visitBinary query) st Q.
Proof.
  intros HQ. apply wp_bind, wp_operand. intros l st1 H1. apply wp_bind, wp_next.
  - intros st2 H2. apply wp_ret, HQ. lia.
  - intros t st2 _ H2 _. destruct (binaryOperators _); [|by apply wp_throw].
    apply wp_bind, wp_operand. intros r st3 H3. apply wp_ret, HQ. lia.
Qed.

(** The fuel a layer needs for what is left of the query. *)
Definition rank (l : layer) : nat := match l with Or => 4 | And => 3 | Unary => 2 | Group => 1 end.

Lemma wp_filter_layer fuel : forall l st (Q : IQueryNode -> nat -> Prop),
  (4 * remaining st + rank l <= fuel)%nat ->
  (forall t st', (st <= st')%nat -> Q t st') -> wp (visit_layer query fuel l) st Q.
Proof.
  unfold remaining. induction fuel as [|fuel IH]; intros l st Q Hf HQ; [by destruct l; cbn in Hf; lia|].
  assert (Hword : forall k w t, is_word k w t = true -> k <> end_of_query -> kind t <> end_of_query).
  { intros k w t [Hk%bool_decide_eq_true _]%andb_prop Hne. congruence. }
  destruct l; cbn [visit_layer rank] in *.
  - apply wp_bind, IH; [cbn; lia|]. intros left st1 H1. apply wp_bind, wp_next.
    + intros st2 H2. apply wp_ret, HQ. lia.
    + intros t st2 Ht H2 [Hk|Hlt]; [by apply Hword in Ht|].
      apply wp_bind, IH; [cbn; lia|]. intros right st3 H3. apply wp_ret, HQ. lia.
  - apply wp_bind, IH; [cbn; lia|]. intros left st1 H1. apply wp_bind, wp_next.
    + intros st2 H2. apply wp_ret, HQ. lia.
    + intros t st2 Ht H2 [Hk|Hlt]; [by apply Hword in Ht|].
      apply wp_bind, IH; [cbn; lia|]. intros right st3 H3. apply wp_ret, HQ. lia.
  - apply wp_bind, wp_next; intros; (apply wp_bind, IH; [cbn; lia|]); intros; apply wp_ret, HQ; lia.
  - apply wp_bind, wp_next.
    + intros st1 H1. apply wp_filter_binary. intros t st2 H2. apply HQ. lia.
    + intros t st1 Ht%bool_decide_eq_true H1 [Hk|Hlt]; [congruence|].
      apply wp_bind, IH; [cbn; lia|]. intros child st2 H2. apply wp_bind, wp_expect.
      intros t3 st3 _ H3. apply wp_ret, HQ. lia.
Qed.

End Total.

(** C38. The parser of filters is total: every text is parsed to a tree or refused by
    an [Error]; the fuel of the model never runs out, since four visits in a row
    take a character of the query. *)
Theorem parse_filter_total query :
  (exists t, parseQuery query = Ok t) \/ parseQuery query = Throw JsError.
Proof.
  assert (Hw : wp_exn is_error (visitQuery query) 0%nat (fun _ _ => True)).
  { apply wp_bind, wp_filter_layer; [unfold remaining, visit_fuel; cbn; lia|]. intros t st _.
    apply wp_bind, wp_expect. intros t' st' _ _. by apply wp_ret. }
  unfold parseQuery. unfold wp_exn in Hw. destruct (visitQuery query 0%nat) as [[t|e] st]; cbn.
  - left. by exists t.
  - right. by rewrite Hw.
Qed.

(** ** Parsing after printing *)

(** A string constant: the quotes in it are doubled. *)
Fixpoint double_quotes (s : text) : text :=
  match s with
  | [] => []
  | u :: s => if u =? single_quote then u :: u :: double_quotes s else u :: double_quotes s
  end.
Definition quoted (s : text) : text := single_quote :: double_quotes s ++ [single_quote].

(** A word that is no keyword and no number. *)
Definition is_identifier (v : text) : bool :=
  negb (Nat.eqb (length v) 0) && forallb word_unit v
  && bool_decide (lower v ∉ logicOperators) && bool_decide (lower v ∉ unaryOperators)
  && bool_decide (lower v ∉ comparisonOperators)
  && (lower v !== js "true") && (lower v !== js "false") && negb (is_number v).

(** The operands and the trees that have a text. *)
Definition printable_operand (t : IQueryNode) : bool :=
  match t with
  | IdentifierNode i => is_identifier i
  | ConstantNode (VBool _) | ConstantNode (VStr _) => true
  | DateTimeNode _ | GuidNode _ | BinaryDataNode _ => true
  | BigNumberNode n => is_number (n ++ js "L")
  | _ => false
  end.

Definition print_operand (t : IQueryNode) : text :=
  match t with
  | IdentifierNode i => i
  | ConstantNode (VBool b) => if b then js "true" else js "false"
  | ConstantNode (VStr s) => quoted s
  | DateTimeNode s => js "datetime" ++ quoted s
  | GuidNode s => js "guid" ++ quoted s
  | BinaryDataNode s => js "binary" ++ quoted s
  | BigNumberNode n => n ++ js "L"
  | _ => []
  end.

Fixpoint printable (t : IQueryNode) : bool :=
  match t with
  | AndNode l r | OrNode l r => printable l && printable r
  | NotNode r => printable r
  | EqualsNode l r | NotEqualsNode l r | GreaterThanNode l r | GreaterThanEqualNode l r
  | LessThanNode l r | LessThanEqualNode l r => printable_operand l && printable_operand r
  | t => printable_operand t
  end.

Definition spaced (op : string) : text := 32 :: js op ++ [32].
Definition parens (s : text) : text := js "(" ++ s ++ js ")".

Fixpoint print (t : IQueryNode) : text :=
  match t with
  | AndNode l r => parens (print l) ++ spaced "and" ++ parens (print r)
  | OrNode l r => parens (print l) ++ spaced "or" ++ parens (print r)
  | NotNode r => js "not " ++ parens (print r)
  | EqualsNode l r => print_operand l ++ spaced "eq" ++ print_operand r
  | NotEqualsNode l r => print_operand l ++ spaced "ne" ++ print_operand r
  | GreaterThanNode l r => print_operand l ++ spaced "gt" ++ print_operand r
  | GreaterThanEqualNode l r => print_operand l ++ spaced "ge" ++ print_operand r
  | LessThanNode l r => print_operand l ++ spaced "lt" ++ print_operand r
  | LessThanEqualNode l r => print_operand l ++ spaced "le" ++ print_operand r
  | t => print_operand t
  end.

(** *** Texts that are read as tokens *)

(** The text without the white space it starts with. *)
Definition skip (r : text) : text := drop (count_while is_space_unit r) r.

Lemma skip_head r : match skip r with [] => True | u :: _ => is_space_unit u = false end.
Proof.
  unfold skip. induction r as [|u r IH]; [done|]. cbn. destruct (is_space_unit u) eqn:Hu; [exact IH|]. done.
Qed.

Lemma skip_id r : match r with [] => True | u :: _ => is_space_unit u = false end -> skip r = r.
Proof. unfold skip. destruct r as [|u r]; [done|]. cbn. by intros ->. Qed.

Lemma skip_space r : skip (32 :: r) = skip r.
Proof. done. Qed.

Lemma double_quotes_undouble s : undouble single_quote (double_quotes s) = s.
Proof.
  induction s as [|u s IH]; [done|]. cbn [double_quotes]. destruct (Z.eqb_spec u single_quote) as [->|Hu].
  - cbn. by f_equal.
  - assert (Hcons : forall l, undouble single_quote (u :: l) = u :: undouble single_quote l).
    { intros [|b l]; [done|]. cbn. by destruct (Z.eqb_spec u single_quote). }
    rewrite Hcons. by f_equal.
Qed.

(** What may follow a token: the end, a space or a parenthesis. *)
Definition delimited (r : text) : bool :=
  match r with [] => true | u :: _ => (u =? 32) || (u =? 41) end.

Lemma string_scan_quoted s r : delimited r = true ->
  string_scan single_quote (double_quotes s ++ single_quote :: r) = S (length (double_quotes s)).
Proof.
  intros Hr. induction s as [|u s IH].
  - cbn. destruct r as [|u r]; [done|]. cbn in Hr. destruct (Z.eqb_spec u single_quote) as [->|]; done.
  - cbn [double_quotes]. destruct (Z.eqb_spec u single_quote) as [->|Hu]; cbn.
    + by rewrite IH.
    + destruct (Z.eqb_spec u single_quote); [done|]. by rewrite IH.
Qed.

(** The kind of a word, by the character after it. *)
Definition word_kind (w : text) (quote_follows : bool) : QueryTokenKind :=
  if bool_decide (lower w ∈ logicOperators) then logic_operator
  else if bool_decide (lower w ∈ unaryOperators) then unary_operator
  else if bool_decide (lower w ∈ comparisonOperators) then comparison_operator
  else if (lower w === js "true") || (lower w === js "false") then bool_
  else if bool_decide (lower w ∈ typeHints) && quote_follows then type_hint
  else if is_number w then number_
  else identifier.

Definition starts_with_quote (r : text) : bool := match r with u :: _ => is_quote u | [] => false end.
Definition word_ends (r : text) : bool := match r with u :: _ => negb (word_unit u) | [] => true end.

Section RoundTrip.
Context (query : text).

(** At [st], the query goes on with [r], up to white space. *)
Definition at_ (st : nat) (r : text) : Prop := (st <= length query)%nat /\ skip (drop st query) = skip r.

(** The token [r] starts with, and what follows it. *)
Definition lexes (r : text) (k : QueryTokenKind) (v : option text) (r' : text) : Prop :=
  forall st, at_ st r -> exists p n, peek query st = (Ok (mkToken k p n v), p) /\ at_ p r /\ at_ (p + n) r'.

Lemma lexes_space r k v r' : lexes r k v r' -> lexes (32 :: r) k v r'.
Proof. intros Hl st. exact (Hl st). Qed.

(** The position [peek] moves to, and the token it finds. *)
Lemma at_position st r : at_ st r -> skip r = r ->
  exists p, (p <= length query)%nat /\ drop p query = r /\ at_ p r /\
    peek query st = (Ok (match r with
                         | [] => mkToken end_of_query p 0 None
                         | u :: _ => if u =? 40 then mkToken open_paren p 1 None
                                     else if u =? 41 then mkToken close_paren p 1 None
                                     else if is_quote u then peekString query p else peekWord query p
                         end), p).
Proof.
  intros [Hst Hr] Hs. rewrite Hs in Hr. unfold skip in Hr. rewrite drop_drop in Hr.
  set (p := (st + count_while is_space_unit (drop st query))%nat) in *.
  pose proof (count_while_le is_space_unit (drop st query)) as Hle. rewrite length_drop in Hle.
  assert (Hp : (p <= length query)%nat) by lia. exists p. split_and!; [done..| |].
  - split; [done|]. by rewrite Hr.
  - unfold peek, mbind, proc_bind, skipWhitespace, get_state. fold p.
    assert (Hq : query !! p = head r) by (rewrite <- Hr; destruct (query !! p) as [u|] eqn:Hu;
      [by rewrite (drop_S _ _ _ Hu)|by rewrite drop_ge by by apply lookup_ge_None]).
    rewrite Hq. destruct r as [|u r]; [done|]. cbn.
    destruct (u =? 40); [done|]. destruct (u =? 41); [done|]. by destruct (is_quote u).
Qed.

Lemma at_after p a r : (p <= length query)%nat -> drop p query = a ++ r -> at_ (p + length a) r.
Proof.
  intros Hp Hd. assert (Hl : length (drop p query) = (length a + length r)%nat) by (rewrite Hd; apply length_app).
  rewrite length_drop in Hl. split; [lia|]. by rewrite <- drop_drop, Hd, drop_app_length.
Qed.

Lemma lexes_end : lexes [] end_of_query None [].
Proof.
  intros st Hat. destruct (at_position st [] Hat eq_refl) as (p&Hp&Hd&Ha&He).
  exists p, 0%nat. by rewrite Nat.add_0_r.
Qed.

Lemma lexes_open r : lexes (js "(" ++ r) open_paren None r.
Proof.
  intros st Hat. destruct (at_position st _ Hat eq_refl) as (p&Hp&Hd&Ha&He).
  exists p, 1%nat. split_and!; [done..|]. by apply (at_after p (js "(")).
Qed.

Lemma lexes_close r : lexes (js ")" ++ r) close_paren None r.
Proof.
  intros st Hat. destruct (at_position st _ Hat eq_refl) as (p&Hp&Hd&Ha&He).
  exists p, 1%nat. split_and!; [done..|]. by apply (at_after p (js ")")).
Qed.

Lemma lexes_string s r : delimited r = true -> lexes (quoted s ++ r) string_ (Some s) r.
Proof.
  intros Hr st Hat. destruct (at_position st _ Hat eq_refl) as (p&Hp&Hd&Ha&He).
  exists p, (length (quoted s)). split_and!; [|done|by apply at_after].
  rewrite He. cbn. do 2 f_equal. unfold peekString, quoted in *. cbn in Hd. rewrite <- app_assoc in Hd.
  assert (Hq : query !! p = Some single_quote).
  { rewrite <- (Nat.add_0_r p), <- lookup_drop, Hd. done. }
  rewrite (drop_S _ _ _ Hq) in Hd. injection Hd as Hd. rewrite Hq. cbn [default]. 
  rewrite (Nat.add_1_r p), Hd, string_scan_quoted by done.
  cbn [length]. rewrite length_app. cbn [length].
  f_equal; [lia|]. f_equal. rewrite <- (double_quotes_undouble s) at 2. f_equal.
  unfold substring. rewrite Nat.min_l, Nat.max_r by lia. rewrite Hd.
  replace (S p + S (length (double_quotes s)) - 1 - S p)%nat with (length (double_quotes s)) by lia.
  apply take_app_length.
Qed.

Lemma lexes_word w r : w <> [] -> forallb word_unit w = true -> word_ends r = true ->
  lexes (w ++ r) (word_kind w (starts_with_quote r)) (Some w) r.
Proof.
  intros Hne Hw Hr st Hat. destruct w as [|u w]; [done|]. set (w' := u :: w) in *.
  assert (Hu : word_unit u = true) by (cbn in Hw; by apply andb_prop in Hw as [? _]).
  unfold word_unit, is_control in Hu. apply andb_prop in Hu as [Hs%negb_true_iff Hc%negb_true_iff].
  rewrite !orb_false_iff in Hc. destruct Hc as [[H40 H41] Hq].
  destruct (at_position st (w' ++ r) Hat) as (p&Hp&Hd&Ha&He).
  { apply skip_id. exact Hs. }
  exists p, (length w'). split_and!; [|done|by apply at_after].
  rewrite He. cbn [app w']. rewrite H40, H41, Hq. do 2 f_equal. unfold peekWord. rewrite Hd.
  rewrite count_while_app by first [done | by destruct r; [|apply negb_true_iff]].
  assert (Hv : substring p (p + length w') query = w').
  { unfold substring. rewrite Nat.min_l, Nat.max_r by lia. rewrite Hd.
    replace (p + length w' - p)%nat with (length w') by lia. apply take_app_length. }
  assert (Hn : query !! (p + length w')%nat = head r).
  { rewrite <- lookup_drop, Hd. rewrite lookup_app_r by lia. rewrite Nat.sub_diag. by destruct r. }
  rewrite Hv, Hn. unfold word_kind, starts_with_quote. destruct r; cbn [head]; by repeat case_match.
Qed.

(** *** Parsers on texts *)

(** From [r] the parser gives [a] and leaves [r']. *)
Definition parses {A} (m : parser A) (r : text) (a : A) (r' : text) : Prop :=
  forall st, at_ st r -> exists st', m st = (Ok a, st') /\ at_ st' r'.

Lemma parses_ret {A} (a : A) r : parses (mret a) r a r.
Proof. intros st Hst. by exists st. Qed.

Lemma parses_bind {A B} (m : parser A) (f : A -> parser B) r a r1 b r2 :
  parses m r a r1 -> parses (f a) r1 b r2 -> parses (m ≫= f) r b r2.
Proof.
  intros Hm Hf st Hst. destruct (Hm st Hst) as (st1&H1&Hst1). destruct (Hf st1 Hst1) as (st2&H2&Hst2).
  exists st2. split; [|done]. unfold mbind, proc_bind. by rewrite H1.
Qed.

Lemma parses_peek {B} (f : QueryToken -> parser B) r k v r1 b r2 :
  lexes r k v r1 -> (forall p n, parses (f (mkToken k p n v)) r b r2) -> parses (peek query ≫= f) r b r2.
Proof.
  intros Hl Hf st Hst. destruct (Hl st Hst) as (p&n&Hp&Ha&_). destruct (Hf p n p Ha) as (st2&H2&Hst2).
  exists st2. split; [|done]. unfold mbind, proc_bind. by rewrite Hp.
Qed.

(** A predicate of [next] looks at the kind and the value of a token. *)
Lemma parses_hit {B} predicate (f : option QueryToken -> parser B) r k v r1 b r2 :
  lexes r k v r1 -> (forall p n, predicate (mkToken k p n v) = true) ->
  (forall p n, parses (f (Some (mkToken k p n v))) r1 b r2) -> parses (next query predicate ≫= f) r b r2.
Proof.
  intros Hl Hp Hf st Hst. destruct (Hl st Hst) as (p&n&Hpk&_&Ha). destruct (Hf p n _ Ha) as (st2&H2&Hst2).
  exists st2. split; [|done]. unfold next, mbind, proc_bind. rewrite Hpk. by rewrite Hp.
Qed.

Lemma parses_miss {B} predicate (f : option QueryToken -> parser B) r k v r1 b r2 :
  lexes r k v r1 -> (forall p n, predicate (mkToken k p n v) = false) ->
  parses (f None) r b r2 -> parses (next query predicate ≫= f) r b r2.
Proof.
  intros Hl Hp Hf st Hst. destruct (Hl st Hst) as (p&n&Hpk&Ha&_). destruct (Hf p Ha) as (st2&H2&Hst2).
  exists st2. split; [|done]. unfold next, mbind, proc_bind. rewrite Hpk. by rewrite Hp.
Qed.

Lemma parses_expect {B} predicate (f : QueryToken -> parser B) r k v r1 b r2 :
  lexes r k v r1 -> (forall p n, predicate (mkToken k p n v) = true) ->
  (forall p n, parses (f (mkToken k p n v)) r1 b r2) -> parses (expect query predicate ≫= f) r b r2.
Proof.
  intros Hl Hp Hf st Hst. destruct (Hl st Hst) as (p&n&Hpk&_&Ha). destruct (Hf p n _ Ha) as (st2&H2&Hst2).
  exists st2. split; [|done]. unfold expect, next, mbind, proc_bind. rewrite Hpk. by rewrite Hp.
Qed.

Lemma parses_any {B} (f : QueryToken -> parser B) r k v r1 b r2 :
  lexes r k v r1 -> (forall p n, parses (f (mkToken k p n v)) r1 b r2) ->
  parses (next_any query ≫= f) r b r2.
Proof.
  intros Hl Hf st Hst. destruct (Hl st Hst) as (p&n&Hpk&_&Ha). destruct (Hf p n _ Ha) as (st2&H2&Hst2).
  exists st2. split; [|done]. unfold next_any, mbind, proc_bind. by rewrite Hpk.
Qed.

Lemma parses_space {A} (m : parser A) r a r' : parses m r a r' -> parses m (32 :: r) a r'.
Proof. intros Hm st. exact (Hm st). Qed.

(** *** Operands *)

Lemma delimited_ends r : delimited r = true -> word_ends r = true /\ starts_with_quote r = false.
Proof.
  destruct r as [|u r]; [done|]. cbn. intros [->%Z.eqb_eq| ->%Z.eqb_eq]%orb_prop; done.
Qed.

(** The first character of a number, and that it is a word. *)
Lemma digits_split s d r : digits s = (d, r) -> exists a, s = a ++ r /\ length a = length d /\ forallb is_digit a = true.
Proof.
  revert d r. induction s as [|u s IH]; intros d r; cbn.
  - intros [= <- <-]. by exists [].
  - destruct (is_digit u) eqn:Hu.
    + destruct (digits s) as [d' r'] eqn:Hs. intros [= <- <-].
      destruct (IH d' r' eq_refl) as (a&->&Hl&Ha). exists (u :: a). cbn. rewrite Hu. auto.
    + intros [= <- <-]. by exists [].
Qed.

Lemma digit_word a : forallb is_digit a = true -> forallb word_unit a = true.
Proof.
  intros Ha. apply List.forallb_forall. intros u Hu. rewrite List.forallb_forall in Ha. specialize (Ha u Hu).
  unfold is_digit in Ha. unfold word_unit, is_control, is_quote, is_space_unit, double_quote, single_quote. lia.
Qed.

Lemma number_word w : is_number w = true ->
  forallb word_unit w = true /\ exists u r, w = u :: r /\ (is_digit u = true \/ u = 45).
Proof.
  intros Hw. unfold is_number in Hw.
  assert (Hsplit : exists pre s, w = pre ++ s /\ (pre = [] \/ pre = [45]) /\
    s = match w with u :: r => if u =? 45 then r else w | [] => w end).
  { destruct w as [|u w]; [by exists [], []; auto|]. destruct (Z.eqb_spec u 45) as [->|].
    - exists [45], w. auto.
    - exists [], (u :: w). auto. }
  destruct Hsplit as (pre&s&->&Hpre&Hs). rewrite <- Hs in Hw. clear Hs.
  destruct (digits s) as [ip r] eqn:Hd. apply andb_prop in Hw as [Hip Hr].
  apply digits_split in Hd as (a&->&Hl&Ha). destruct a as [|u a]; [by destruct ip|].
  assert (Hrw : forallb word_unit r = true).
  { destruct r as [|v r]; [done|]. destruct (Z.eqb_spec v 46) as [->|].
    - destruct (digits r) as [fp r''] eqn:Hd'. apply digits_split in Hd' as (b&->&Hlb&Hb).
      destruct (Nat.eqb (length fp) 0); [by apply orb_prop in Hr as [?%bool_decide_eq_true|?%bool_decide_eq_true]|].
      cbn. rewrite forallb_app, (digit_word b Hb). by apply orb_prop in Hr as [->%bool_decide_eq_true| ->%bool_decide_eq_true].
    - by apply orb_prop in Hr as [?%bool_decide_eq_true| ->%bool_decide_eq_true]. }
  split.
  - rewrite !forallb_app, Hrw, (digit_word _ Ha). by destruct Hpre as [->| ->].
  - cbn in Ha. apply andb_prop in Ha as [Hu _]. destruct Hpre as [->| ->]; cbn; eauto.
Qed.

Lemma number_kind w : is_number w = true -> word_kind w false = number_.
Proof.
  intros Hw. destruct (number_word w Hw) as [_ (u&r&->&Hu)].
  assert (Hne : forall k, k ∈ logicOperators ++ unaryOperators ++ comparisonOperators ++ [js "true"; js "false"] ->
    lower (u :: r) <> k).
  { assert (Hall : Forall (fun k => match k with v :: _ => 97 <= v | [] => False end)
      (logicOperators ++ unaryOperators ++ comparisonOperators ++ [js "true"; js "false"])).
    { repeat (constructor; [by apply Z.leb_le|]). constructor. }
    intros k Hk He. rewrite Forall_forall in Hall. specialize (Hall k Hk).
    destruct k as [|v t]; [done|]. injection He as He _. unfold lower_unit, is_digit in *.
    destruct ((65 <=? u) && (u <=? 90)) eqn:?; lia. }
  assert (Hn : lower (u :: r) ∉ logicOperators ++ unaryOperators ++ comparisonOperators ++ [js "true"; js "false"])
    by (intros Hin; by apply (Hne _ Hin)).
  rewrite !not_elem_of_app, !not_elem_of_cons in Hn. destruct Hn as (H1&H2&H3&H4&H5&_).
  unfold word_kind. rewrite andb_false_r, Hw. by rewrite !bool_decide_eq_false_2.
Qed.

Lemma identifier_kind w : is_identifier w = true ->
  w <> [] /\ forallb word_unit w = true /\ word_kind w false = identifier.
Proof.
  unfold is_identifier. rewrite !andb_true_iff, !negb_true_iff, !bool_decide_eq_true, !bool_decide_eq_false.
  intros (((((((H1&H2)&H3)&H4)&H5)&H6)&H7)&H8). split_and!; [by destruct w|done|].
  unfold word_kind. rewrite andb_false_r, H8. by rewrite !bool_decide_eq_false_2.
Qed.

Lemma lexes_plain w r k : delimited r = true -> w <> [] -> forallb word_unit w = true ->
  word_kind w false = k -> lexes (w ++ r) k (Some w) r.
Proof.
  intros Hr Hne Hw Hk. destruct (delimited_ends r Hr) as [He Hq].
  assert (Hk' : word_kind w (starts_with_quote r) = k) by by rewrite Hq.
  rewrite <- Hk'. by apply lexes_word.
Qed.

(** The keyword of a typed value, before its quote. *)
Lemma lexes_hint (h : string) s r :
  js h ∈ typeHints -> word_kind (js h) true = type_hint -> forallb word_unit (js h) = true ->
  lexes (js h ++ quoted s ++ r) type_hint (Some (js h)) (quoted s ++ r).
Proof.
  intros Hin Hk Hw. rewrite <- Hk. apply (lexes_word (js h) (quoted s ++ r)); [|done..].
  intros Hnil. rewrite Hnil in Hk. vm_compute in Hk. discriminate.
Qed.

Lemma lexes_number n r : is_number (n ++ js "L") = true -> delimited r = true ->
  lexes ((n ++ js "L") ++ r) number_ (Some (n ++ js "L")) r.
Proof.
  intros Hn Hr. destruct (number_word _ Hn) as [Hw (u&l&Hu&_)].
  apply lexes_plain; [done|by rewrite Hu|done|by apply number_kind].
Qed.

Lemma lexes_identifier i r : is_identifier i = true -> delimited r = true ->
  lexes (i ++ r) identifier (Some i) r.
Proof.
  intros Hi Hr. destruct (identifier_kind _ Hi) as (Hne&Hw&Hk). by apply lexes_plain.
Qed.

(** The first token of an operand. *)
Definition operand_kind (k : QueryTokenKind) : bool :=
  bool_decide (k ∈ [identifier; bool_; string_; number_; type_hint]).

Lemma operand_first t r : printable_operand t = true -> delimited r = true ->
  exists k v r', operand_kind k = true /\ lexes (print_operand t ++ r) k v r'.
Proof.
  intros Ht Hr. destruct t as [i|[]|s|s|s|n|?|?|?|?|?|?|?|?|?]; try done; cbn in Ht; cbn [print_operand].
  - exists identifier, (Some i), r. split; [done|by apply lexes_identifier].
  - exists bool_, (Some (if b then js "true" else js "false")), r. split; [done|].
    by destruct b; apply lexes_plain.
  - exists string_, (Some s), r. split; [done|by apply lexes_string].
  - exists type_hint, (Some (js "datetime")), (quoted s ++ r). rewrite <- app_assoc.
    split; [done|]. apply lexes_hint; [set_solver|done..].
  - exists type_hint, (Some (js "guid")), (quoted s ++ r). rewrite <- app_assoc.
    split; [done|]. apply lexes_hint; [set_solver|done..].
  - exists type_hint, (Some (js "binary")), (quoted s ++ r). rewrite <- app_assoc.
    split; [done|]. apply lexes_hint; [set_solver|done..].
  - exists number_, (Some (n ++ js "L")), r. split; [done|by apply lexes_number].
Qed.

Lemma parses_hint (h : string) s r t :
  js h ∈ typeHints -> word_kind (js h) true = type_hint -> forallb word_unit (js h) = true ->
  delimited r = true ->
  (forall p n p' n', parses (if lower (value_of (mkToken type_hint p n (Some (js h)))) === js "datetime" then mret (DateTimeNode (value_of (mkToken string_ p' n' (Some s))))
   else if lower (value_of (mkToken type_hint p n (Some (js h)))) === js "guid" then mret (GuidNode (value_of (mkToken string_ p' n' (Some s))))
   else if (lower (value_of (mkToken type_hint p n (Some (js h)))) === js "binary") || (lower (value_of (mkToken type_hint p n (Some (js h)))) === js "x") then mret (BinaryDataNode (value_of (mkToken string_ p' n' (Some s))))
   else throw JsError : parser IQueryNode) r t r) ->
  parses (visitIdentifierOrConstant query) (js h ++ quoted s ++ r) t r.
Proof.
  intros Hin Hk Hw Hr Ht. eapply parses_peek; [by apply lexes_hint|]. intros p n. cbn [kind].
  eapply parses_expect; [by apply lexes_hint|done|]. intros p1 n1.
  eapply parses_expect; [by apply lexes_string|done|]. intros p2 n2. apply Ht.
Qed.

(** Operands are parsed to themselves. *)
Lemma parses_operand t r : printable_operand t = true -> delimited r = true ->
  parses (visitIdentifierOrConstant query) (print_operand t ++ r) t r.
Proof.
  intros Ht Hr. destruct t as [i|[]|s|s|s|n|?|?|?|?|?|?|?|?|?]; try done; cbn in Ht; cbn [print_operand].
  - eapply parses_peek; [by apply lexes_identifier|]. intros p n. cbn [kind].
    eapply parses_any; [by apply lexes_identifier|]. intros. apply parses_ret.
  - assert (Hl : lexes ((if b then js "true" else js "false") ++ r) bool_ (Some (if b then js "true" else js "false")) r)
      by by destruct b; apply lexes_plain.
    eapply parses_peek; [exact Hl|]. intros p n. cbn [kind].
    eapply parses_any; [exact Hl|]. intros. destruct b; apply parses_ret.
  - eapply parses_peek; [by apply lexes_string|]. intros p n. cbn [kind].
    eapply parses_any; [by apply lexes_string|]. intros. apply parses_ret.
  - rewrite <- app_assoc. apply parses_hint; [set_solver|done..|]. intros. apply parses_ret.
  - rewrite <- app_assoc. apply parses_hint; [set_solver|done..|]. intros. apply parses_ret.
  - rewrite <- app_assoc. apply parses_hint; [set_solver|done..|]. intros. apply parses_ret.
  - eapply parses_peek; [by apply lexes_number|]. intros p m. cbn [kind].
    eapply parses_expect; [by apply lexes_number|done|]. intros p1 n1. cbn [value_of token_value default].
    unfold Datatypes.id. rewrite endsWith_app.
    assert (Hn : substring 0 (length (n ++ js "L") - 1) (n ++ js "L") = n).
    { unfold substring. rewrite length_app, Nat.min_l, Nat.max_r by lia.
      change (length (js "L")) with 1%nat.
      replace (length n + 1 - 1 - 0)%nat with (length n) by lia. apply take_app_length. }
    rewrite Hn. apply parses_ret.
Qed.

(** *** Comparisons *)

(** The texts of the comparisons. *)
Definition comparison_of (op : string) : option (IQueryNode -> IQueryNode -> IQueryNode) :=
  binaryOperators (js op).

Lemma parses_comparison op f l r rest :
  js op ∈ comparisonOperators -> comparison_of op = Some f -> lower (js op) = js op ->
  printable_operand l = true -> printable_operand r = true -> delimited rest = true ->
  parses (visitBinary query) (print_operand l ++ spaced op ++ print_operand r ++ rest) (f l r) rest.
Proof.
  intros Hop Hf Hlow Hl Hr Hrest. unfold spaced. cbn [app]. rewrite <- app_assoc. cbn [app].
  eapply parses_bind; [by apply parses_operand|].
  assert (Hw : lexes (js op ++ 32 :: print_operand r ++ rest) comparison_operator (Some (js op))
                 (32 :: print_operand r ++ rest)).
  { unfold comparisonOperators in Hop. cbn in Hop.
    apply lexes_plain; [done|..]; repeat (apply elem_of_cons in Hop as [->|Hop]; [done|]); by apply elem_of_nil in Hop. }
  eapply parses_hit; [by apply lexes_space|done|]. intros p n.
  cbn [value_of token_value default]. unfold Datatypes.id. unfold comparison_of in Hf. rewrite Hlow, Hf.
  eapply parses_bind; [apply parses_space; by apply parses_operand|apply parses_ret].
Qed.

Lemma parses_single t rest : printable_operand t = true -> (rest = [] \/ exists r, rest = js ")" ++ r) ->
  parses (visitBinary query) (print_operand t ++ rest) t rest.
Proof.
  intros Ht Hrest. assert (Hd : delimited rest = true) by by destruct Hrest as [->|[r ->]].
  eapply parses_bind; [by apply parses_operand|].
  destruct Hrest as [->|[r ->]]; (eapply parses_miss; [apply lexes_end || apply lexes_close|done|apply parses_ret]).
Qed.

(** *** The layers *)

(** What may follow an expression. *)
Definition closing (rest : text) : Prop := rest = [] \/ exists r, rest = js ")" ++ r.

Lemma no_word {B} k w (f : option QueryToken -> parser B) rest b r2 :
  (k = logic_operator \/ k = unary_operator) ->
  closing rest -> parses (f None) rest b r2 -> parses (next query (is_word k w) ≫= f) rest b r2.
Proof.
  intros Hk Hrest Hf. destruct Hrest as [->|[r ->]];
    (eapply parses_miss; [apply lexes_end || apply lexes_close| |done]); intros p n; unfold is_word;
    by destruct Hk as [->| ->].
Qed.

(** A layer whose text has no operator of the layers above. *)
Lemma parses_up fuel t s rest :
  closing rest -> parses (visit_layer query fuel Unary) (s ++ rest) t rest ->
  parses (visit_layer query (S (S fuel)) Or) (s ++ rest) t rest.
Proof.
  intros Hrest Ht. cbn [visit_layer]. eapply parses_bind.
  - eapply parses_bind; [exact Ht|]. apply no_word; [by left|done|apply parses_ret].
  - apply no_word; [by left|done|apply parses_ret].
Qed.

(** An expression in parentheses. *)
Lemma parses_parens fuel t s rest :
  (forall r, parses (visit_layer query fuel Or) (s ++ js ")" ++ r) t (js ")" ++ r)) ->
  parses (visit_layer query (S fuel) Group) (parens s ++ rest) t rest.
Proof.
  intros Ht. unfold parens. rewrite <- !app_assoc. cbn [visit_layer].
  eapply parses_hit; [apply lexes_open|done|]. intros p n. eapply parses_bind; [apply Ht|].
  eapply parses_expect; [apply lexes_close|done|]. intros. apply parses_ret.
Qed.

(** The layer of groups, from that of [not], when there is none. *)
Lemma parses_group fuel t s rest k v r' :
  lexes (s ++ rest) k v r' -> k <> unary_operator ->
  parses (visit_layer query fuel Group) (s ++ rest) t rest ->
  parses (visit_layer query (S fuel) Unary) (s ++ rest) t rest.
Proof.
  intros Hl Hk Ht. cbn [visit_layer]. eapply parses_miss; [exact Hl| |].
  - intros p n. unfold is_word. cbn. by rewrite bool_decide_eq_false_2.
  - eapply parses_bind; [exact Ht|apply parses_ret].
Qed.

Lemma parses_unary_parens fuel t s rest :
  (forall r, parses (visit_layer query fuel Or) (s ++ js ")" ++ r) t (js ")" ++ r)) ->
  parses (visit_layer query (S (S fuel)) Unary) (parens s ++ rest) t rest.
Proof.
  intros Ht. eapply (parses_group _ _ _ _ open_paren); [|done|by apply parses_parens].
  unfold parens. rewrite <- !app_assoc. apply lexes_open.
Qed.

(** Comparisons and operands, from the layer of groups. *)
Lemma parses_binary fuel t s rest k v r' :
  lexes (s ++ rest) k v r' -> operand_kind k = true ->
  parses (visitBinary query) (s ++ rest) t rest ->
  parses (visit_layer query (S (S fuel)) Unary) (s ++ rest) t rest.
Proof.
  intros Hl Hk Ht. assert (Hk' : k <> unary_operator /\ k <> open_paren) by (by split; intros ->).
  eapply parses_group; [exact Hl|apply Hk'|]. cbn [visit_layer]. eapply parses_miss; [exact Hl| |exact Ht].
  intros p n. unfold has_kind. cbn. apply bool_decide_eq_false_2, Hk'.
Qed.

(** A comparison, from the layer of expressions. *)
Lemma parses_comparison_or fuel op f l r rest :
  js op ∈ comparisonOperators -> comparison_of op = Some f -> lower (js op) = js op ->
  printable_operand l && printable_operand r = true -> closing rest ->
  parses (visit_layer query (4 + fuel) Or) ((print_operand l ++ spaced op ++ print_operand r) ++ rest) (f l r) rest.
Proof.
  intros Hop Hf Hlow [Hl Hr]%andb_prop Hrest.
  assert (Hd : delimited rest = true) by by destruct Hrest as [->|[r' ->]].
  destruct (operand_first l (spaced op ++ print_operand r ++ rest) Hl eq_refl) as (k&v&r'&Hk&Hlex).
  apply parses_up; [done|]. eapply parses_binary; [by rewrite <- !app_assoc|done|].
  rewrite <- !app_assoc. by apply parses_comparison.
Qed.

Lemma parses_operand_or fuel t rest : printable_operand t = true -> closing rest ->
  parses (visit_layer query (4 + fuel) Or) (print_operand t ++ rest) t rest.
Proof.
  intros Ht Hrest. assert (Hd : delimited rest = true) by by destruct Hrest as [->|[r' ->]].
  destruct (operand_first t rest Ht Hd) as (k&v&r'&Hk&Hlex).
  apply parses_up; [done|]. eapply parses_binary; [exact Hlex|done|]. by apply parses_single.
Qed.

Lemma more_fuel n fuel : (n <= fuel)%nat -> exists m, fuel = (n + m)%nat.
Proof. intros Hn. exists (fuel - n)%nat. lia. Qed.

Lemma length_parens s : length (parens s) = S (S (length s)).
Proof.
  unfold parens. rewrite !length_app. change (length (js "(")) with 1%nat.
  change (length (js ")")) with 1%nat. lia.
Qed.

(** An operator between two expressions in parentheses. *)
Lemma lexes_spaced op k rest :
  js op <> [] -> forallb word_unit (js op) = true -> word_kind (js op) false = k ->
  lexes (spaced op ++ rest) k (Some (js op)) (32 :: rest).
Proof.
  intros Hne Hw Hk. unfold spaced. cbn [app]. rewrite <- app_assoc. apply lexes_space.
  by apply (lexes_plain (js op) (32 :: rest)).
Qed.

(** What the layers of [and] and [or] read after an expression in parentheses. *)
Lemma parses_and fuel l r sl sr rest :
  (forall rest', parses (visit_layer query (S fuel) Or) (sl ++ js ")" ++ rest') l (js ")" ++ rest')) ->
  (forall rest', parses (visit_layer query fuel Or) (sr ++ js ")" ++ rest') r (js ")" ++ rest')) ->
  closing rest ->
  parses (visit_layer query (5 + fuel) Or) ((parens sl ++ spaced "and" ++ parens sr) ++ rest) (AndNode l r) rest.
Proof.
  intros Hl Hr Hrest. rewrite <- !app_assoc. cbn [Nat.add visit_layer]. eapply parses_bind.
  - eapply parses_bind; [apply (parses_unary_parens (S fuel)), Hl|].
    eapply parses_hit; [by apply lexes_spaced|done|]. intros p n. cbn beta iota.
    eapply parses_bind; [|apply parses_ret]. apply parses_space. cbn [visit_layer].
    eapply parses_bind; [apply (parses_unary_parens fuel), Hr|].
    apply no_word; [by left|done|apply parses_ret].
  - apply no_word; [by left|done|apply parses_ret].
Qed.

Lemma parses_or fuel l r sl sr rest :
  (forall rest', parses (visit_layer query (S fuel) Or) (sl ++ js ")" ++ rest') l (js ")" ++ rest')) ->
  (forall rest', parses (visit_layer query fuel Or) (sr ++ js ")" ++ rest') r (js ")" ++ rest')) ->
  closing rest ->
  parses (visit_layer query (5 + fuel) Or) ((parens sl ++ spaced "or" ++ parens sr) ++ rest) (OrNode l r) rest.
Proof.
  intros Hl Hr Hrest. rewrite <- !app_assoc. cbn [Nat.add]. change (visit_layer query (S (S (S (S (S fuel))))) Or)
    with (left ← visit_layer query (S (S (S (S fuel)))) And;
          t ← next query (is_word logic_operator "or");
          match t with
          | Some _ => right ← visit_layer query (S (S (S (S fuel)))) Or; mret (OrNode left right)
          | None => mret left
          end).
  eapply parses_bind.
  - cbn [visit_layer]. eapply parses_bind; [apply (parses_unary_parens (S fuel)), Hl|].
    eapply parses_miss; [by apply lexes_spaced|done|apply parses_ret].
  - eapply parses_hit; [by apply lexes_spaced|done|]. intros p n. cbn beta iota.
    eapply parses_bind; [|apply parses_ret]. apply parses_space.
    apply parses_up; [done|]. by apply parses_unary_parens.
Qed.

Lemma parses_not fuel r sr rest :
  (forall rest', parses (visit_layer query fuel Or) (sr ++ js ")" ++ rest') r (js ")" ++ rest')) ->
  closing rest ->
  parses (visit_layer query (4 + fuel) Or) ((js "not " ++ parens sr) ++ rest) (NotNode r) rest.
Proof.
  intros Hr Hrest. cbn [Nat.add]. apply parses_up; [done|]. rewrite <- app_assoc. cbn [visit_layer].
  change (js "not " ++ parens sr ++ rest) with (js "not" ++ 32 :: parens sr ++ rest).
  eapply parses_hit; [by apply (lexes_plain (js "not") (32 :: parens sr ++ rest))|done|]. intros p n.
  eapply parses_bind; [|apply parses_ret]. apply parses_space. by apply parses_parens.
Qed.

(** Every printable tree is parsed back. *)
Lemma parses_print t : forall fuel rest,
  printable t = true -> closing rest -> (4 * length (print t) + 4 <= fuel)%nat ->
  parses (visit_layer query fuel Or) (print t ++ rest) t rest.
Proof.
  assert (Hclose : forall rest, closing (js ")" ++ rest)) by (intros rest; right; by eexists).
  induction t as [i|v|v|v|v|v|l IHl r IHr|l IHl r IHr|r IHr|l _ r _|l _ r _|l _ r _|l _ r _|l _ r _|l _ r _];
    intros fuel rest Ht Hrest Hfuel; cbn [print] in *; cbn [printable] in Ht.
  1-6: destruct (more_fuel 4 fuel ltac:(lia)) as [m ->]; by apply parses_operand_or.
  - apply andb_prop in Ht as [Hl Hr]. unfold spaced in Hfuel. rewrite !length_app, !length_parens in Hfuel. cbn in Hfuel.
    destruct (more_fuel 5 fuel ltac:(lia)) as [m ->].
    apply parses_and; [intros; apply IHl; [done..|lia]|intros; apply IHr; [done..|lia]|done].
  - apply andb_prop in Ht as [Hl Hr]. unfold spaced in Hfuel. rewrite !length_app, !length_parens in Hfuel. cbn in Hfuel.
    destruct (more_fuel 5 fuel ltac:(lia)) as [m ->].
    apply parses_or; [intros; apply IHl; [done..|lia]|intros; apply IHr; [done..|lia]|done].
  - rewrite length_app, length_parens in Hfuel. destruct (more_fuel 4 fuel ltac:(lia)) as [m ->].
    apply parses_not; [intros; apply IHr; [done..|lia]|done].
  - destruct (more_fuel 4 fuel ltac:(lia)) as [m ->]. apply parses_comparison_or; [set_solver|done..].
  - destruct (more_fuel 4 fuel ltac:(lia)) as [m ->]. apply parses_comparison_or; [set_solver|done..].
  - destruct (more_fuel 4 fuel ltac:(lia)) as [m ->]. apply parses_comparison_or; [set_solver|done..].
  - destruct (more_fuel 4 fuel ltac:(lia)) as [m ->]. apply parses_comparison_or; [set_solver|done..].
  - destruct (more_fuel 4 fuel ltac:(lia)) as [m ->]. apply parses_comparison_or; [set_solver|done..].
  - destruct (more_fuel 4 fuel ltac:(lia)) as [m ->]. apply parses_comparison_or; [set_solver|done..].
Qed.

End RoundTrip.

(** C37. Printing a filter and parsing the text gives the filter: with constants of any
    text (the quotes in them are doubled, so that no constant can end its string
    and change the filter), typed constants, and the operators in any nesting. *)
Theorem parse_print_filter t : printable t = true -> parseQuery (print t) = Ok t.
Proof.
  intros Ht. assert (Hp : parses (print t) (visitQuery (print t)) (print t ++ []) t []).
  { eapply parses_bind.
    - apply parses_print; [done|by left|]. unfold visit_fuel. lia.
    - eapply parses_expect; [apply lexes_end|done|]. intros. apply parses_ret. }
  destruct (Hp 0%nat) as (st&He&_).
  { split; [lia|]. by rewrite app_nil_r. }
  unfold parseQuery. by rewrite He.
Qed.

(** A filter with quotes in its constants. *)
Lemma parse_print_filter_witness :
  let t := OrNode (AndNode (EqualsNode (IdentifierNode (js "PartitionKey")) (ConstantNode (VStr (js "it's' or 'a' eq 'a"))))
                     (NotNode (GreaterThanNode (IdentifierNode (js "Size")) (BigNumberNode (js "-5")))))
             (NotEqualsNode (GuidNode (js "''")) (IdentifierNode (js "Id"))) in
  printable t = true /\ parseQuery (print t) = Ok t.
Proof. intros t. split; [by vm_compute|]. apply parse_print_filter. by vm_compute. Defined.

(** ** 64-bit integers *)

(** The integer a text stands for. *)
Definition decimal (s : text) : Z := of_digits 10 ((fun u => u - 48) <$> s).
Definition int_value (s : text) : Z := if negative s then - decimal (drop 1 s) else decimal s.
Definition is_int (s : text) : bool :=
  let d := if negative s then drop 1 s else s in
  negb (Nat.eqb (length d) 0) && forallb is_digit d.

Lemma of_digits_acc l a : foldl (fun a d => 10 * a + d) a l = a * 10 ^ Z.of_nat (length l) + of_digits 10 l.
Proof.
  unfold of_digits. revert a. induction l as [|d l IH]; intros a; cbn [foldl length].
  - lia.
  - rewrite IH, (IH (10 * 0 + d)), Nat2Z.inj_succ, Z.pow_succ_r by lia. lia.
Qed.

Lemma decimal_cons u s : decimal (u :: s) = (u - 48) * 10 ^ Z.of_nat (length s) + decimal s.
Proof.
  unfold decimal, of_digits. cbn [fmap list_fmap foldl]. rewrite of_digits_acc, length_fmap. unfold of_digits. lia.
Qed.

Lemma decimal_bounds s : forallb is_digit s = true -> 0 <= decimal s < 10 ^ Z.of_nat (length s).
Proof.
  induction s as [|u s IH]; [done|]. cbn [forallb]. intros [Hu Hs]%andb_prop. specialize (IH Hs).
  rewrite decimal_cons. cbn [length]. rewrite Nat2Z.inj_succ, Z.pow_succ_r by lia.
  unfold is_digit in Hu. assert (48 <= u <= 57) by lia. nia.
Qed.

Lemma compare_digits_spec a b : forallb is_digit a = true -> forallb is_digit b = true ->
  length a = length b -> compare_digits a b = (decimal a ?= decimal b).
Proof.
  revert b. induction a as [|x a IH]; intros [|y b] Ha Hb Hl; try done.
  cbn [forallb] in *. apply andb_prop in Ha as [Hx Ha], Hb as [Hy Hb]. injection Hl as Hl.
  rewrite !decimal_cons, Hl. cbn [compare_digits].
  pose proof (decimal_bounds a Ha). pose proof (decimal_bounds b Hb). rewrite Hl in *.
  destruct (Z.ltb_spec x y); [symmetry; apply Z.compare_lt_iff; nia|].
  rewrite Z.gtb_ltb. destruct (Z.ltb_spec y x); [symmetry; apply Z.compare_gt_iff; nia|].
  assert (x = y) as -> by lia. rewrite IH by done. by rewrite Z.add_compare_mono_l.
Qed.

Lemma trimZeros_spec s : forallb is_digit s = true ->
  forallb is_digit (trimZeros s) = true /\ decimal (trimZeros s) = decimal s /\
  match trimZeros s with [] => True | u :: _ => 48 < u end.
Proof.
  induction s as [|u s IH]; [done|]. intros Hs. pose proof Hs as [Hu Hs']%andb_prop. cbn [trimZeros].
  destruct (Z.eqb_spec u 48) as [->|Hne].
  - destruct (IH Hs') as (H1&H2&H3). split_and!; [done| |done]. rewrite H2, decimal_cons. lia.
  - split_and!; [done..|]. unfold is_digit in Hu. lia.
Qed.

Lemma decimal_long a : forallb is_digit a = true -> match a with [] => False | u :: _ => 48 < u end ->
  10 ^ (Z.of_nat (length a) - 1) <= decimal a.
Proof.
  destruct a as [|u a]; [done|]. intros [Hu Ha]%andb_prop Hlt. rewrite decimal_cons. cbn [length].
  replace (Z.of_nat (S (length a)) - 1) with (Z.of_nat (length a)) by lia.
  pose proof (decimal_bounds a Ha). nia.
Qed.

Lemma decimal_shorter a b : forallb is_digit a = true -> forallb is_digit b = true ->
  match b with [] => True | u :: _ => 48 < u end -> (length a < length b)%nat -> decimal a < decimal b.
Proof.
  intros Ha Hb Hh Hl. pose proof (decimal_bounds a Ha).
  assert (10 ^ (Z.of_nat (length b) - 1) <= decimal b) by (apply decimal_long; [done|by destruct b; cbn in *; [lia|]]).
  assert (10 ^ Z.of_nat (length a) <= 10 ^ (Z.of_nat (length b) - 1)) by (apply Z.pow_le_mono_r; lia). lia.
Qed.

Lemma comparePositiveNumber_spec a b : forallb is_digit a = true -> forallb is_digit b = true ->
  comparePositiveNumber a b = (decimal a ?= decimal b).
Proof.
  intros Ha Hb. unfold comparePositiveNumber.
  destruct (trimZeros_spec a Ha) as (Ha1&Ha2&Ha3), (trimZeros_spec b Hb) as (Hb1&Hb2&Hb3).
  rewrite <- Ha2, <- Hb2. destruct (Nat.ltb_spec (length (trimZeros a)) (length (trimZeros b))).
  - symmetry. apply Z.compare_lt_iff. by apply decimal_shorter.
  - destruct (Nat.ltb_spec (length (trimZeros b)) (length (trimZeros a))).
    + symmetry. apply Z.compare_gt_iff. by apply decimal_shorter.
    + apply compare_digits_spec; [done..|lia].
Qed.

Lemma no_digits_zero s : forallb is_digit s = true -> Nat.eqb (length (trimZeros s)) 0 = (decimal s =? 0).
Proof.
  intros Hs. destruct (trimZeros_spec s Hs) as (H1&<-&H3). destruct (trimZeros s) as [|u r]; [done|].
  pose proof (decimal_long (u :: r) H1 H3). symmetry. apply Z.eqb_neq.
  assert (0 < 10 ^ (Z.of_nat (length (u :: r)) - 1)) by (apply Z.pow_pos_nonneg; cbn [length]; lia). lia.
Qed.

Lemma negative_true s : negative s = true -> exists r, s = 45 :: r.
Proof. intros Hn%startsWith_true. exists (drop 1 s). exact Hn. Qed.

Lemma negative_digits s : forallb is_digit s = true -> negative s = false.
Proof.
  intros Hs. destruct (negative s) eqn:Hn; [|done]. by apply negative_true in Hn as [r ->].
Qed.

(** A filter with a 64-bit integer compares numerically: for texts of decimal
    integers of any length, with signs and leading zeros, the result is the
    order of the integers; only a zero is taken to be greater than a zero that is
    written with a minus sign. *)
Theorem bignumber_compare_numeric a b :
  is_int a = true -> is_int b = true ->
  bignumber_compare a (VStr b)
  = Ok (Some (if negb (negative a) && negative b && (int_value b =? 0) then Gt
              else int_value a ?= int_value b)).
Proof.
  unfold is_int, int_value, bignumber_compare. cbn zeta.
  destruct (negative a) eqn:Ha, (negative b) eqn:Hb; cbn [negb andb]; rewrite ?andb_false_r;
    intros [Hla Hda]%andb_prop [Hlb Hdb]%andb_prop; do 2 f_equal.
  - rewrite comparePositiveNumber_spec by done. rewrite <- Z.compare_antisym. symmetry. apply Z.compare_opp.
  - rewrite !no_digits_zero by done. pose proof (decimal_bounds _ Hda). pose proof (decimal_bounds _ Hdb).
    destruct (Z.eqb_spec (decimal (drop 1 a)) 0) as [->|], (Z.eqb_spec (decimal b) 0) as [->|]; cbn [andb];
      symmetry; first [done | apply Z.compare_lt_iff; lia].
  - apply negative_true in Hb as [r ->]. change (Nat.eqb (length (trimZeros (45 :: r))) 0) with false. rewrite andb_false_r.
    pose proof (decimal_bounds _ Hda). pose proof (decimal_bounds _ Hdb).
    change (drop 1 (45 :: r)) with (drop 0 r) in *. rewrite drop_0 in *.
    destruct (Z.eqb_spec (- decimal r) 0); [done|]. symmetry. apply Z.compare_gt_iff. lia.
  - by apply comparePositiveNumber_spec.
Qed.

(** The greatest and the least of them. *)
Lemma bignumber_compare_numeric_witness :
  is_int (js "9223372036854775807") = true /\ is_int (js "-09223372036854775808") = true /\
  bignumber_compare (js "9223372036854775807") (VStr (js "-09223372036854775808")) = Ok (Some Gt).
Proof. split_and!; [by vm_compute..|]. by rewrite bignumber_compare_numeric by by vm_compute. Defined.

(** ** Evaluation *)

(** The value a filter compares a 64-bit integer with. *)
Definition is_text (v : value) : bool :=
  match v with VStr _ | VUndefined | VNull => true | _ => false end.

(** An operand has a value without an exception, for entities. *)
Definition constant_value (e : Entity) (t : IQueryNode) : value :=
  match t with
  | IdentifierNode i =>
      if i === js "PartitionKey" then VStr e.(PartitionKey)
      else if i === js "RowKey" then VStr e.(RowKey) else get i e.(properties)
  | ConstantNode v => v
  | t => default VUndefined (typed_value t)
  end.

Definition is_operand (t : IQueryNode) : bool :=
  match t with
  | IdentifierNode _ | ConstantNode _ | DateTimeNode _ | GuidNode _ | BinaryDataNode _ | BigNumberNode _ => true
  | _ => false
  end.

(** Every 64-bit integer of the tree is compared with a text, or with a property
    the entity has not or has as null. *)
Definition comparable (e : Entity) (l r : IQueryNode) : bool :=
  match l, r with
  | BigNumberNode _, r => is_text (constant_value e r)
  | l, BigNumberNode _ => defined (typed_value l) || is_text (constant_value e l)
  | _, _ => true
  end.

(** The trees of the grammar, whose comparisons are of operands. *)
Fixpoint well_typed (e : Entity) (t : IQueryNode) : bool :=
  match t with
  | AndNode l r | OrNode l r => well_typed e l && well_typed e r
  | NotNode r => well_typed e r
  | EqualsNode l r | NotEqualsNode l r | GreaterThanNode l r | GreaterThanEqualNode l r
  | LessThanNode l r | LessThanEqualNode l r => is_operand l && is_operand r && comparable e l r
  | _ => true
  end.

Section Evaluation.
Context (date_of : value -> option Z).

Lemma evaluate_operand e t : is_operand t = true ->
  evaluate date_of (EntityContext e) t = Ok (constant_value e t).
Proof. destruct t; try done. intros _. cbn. by repeat case_bool_decide. Qed.

Lemma compare_typed t v : defined (typed_value t) = true ->
  (match t with BigNumberNode _ => is_text v | _ => true end) = true ->
  exists c, compare date_of t v = Ok c.
Proof. destruct t; try done; cbn; intros _ Hv; try by eexists. unfold bignumber_compare. destruct v; try done; by eexists. Qed.

Lemma comparison_node_total op mirror plain e l r :
  is_operand l && is_operand r && comparable e l r = true ->
  exists b, comparison_node date_of op mirror plain l r
              (evaluate date_of (EntityContext e) l) (evaluate date_of (EntityContext e) r) = Ok (VBool b).
Proof.
  intros [[Hl Hr]%andb_prop Hc]%andb_prop. unfold comparison_node. rewrite !evaluate_operand by done. cbn.
  destruct (defined (typed_value l)) eqn:Hdl.
  - destruct (compare_typed l (constant_value e r) Hdl) as [c ->]; [by destruct l|]. by eexists.
  - destruct (defined (typed_value r)) eqn:Hdr; [|by eexists].
    destruct (compare_typed r (constant_value e l) Hdr) as [c ->]; [|by eexists].
    destruct r; try done. cbn in Hc. by destruct l.
Qed.

(** A filter never fails on an entity but for one reason: if the 64-bit integers of
    the filter are compared with texts (which is how the store keeps such
    properties), missing or null properties only, it evaluates to true or false,
    whatever other types its comparisons mix. *)
Theorem filter_evaluates e t : well_typed e t = true ->
  exists b, executeQuery date_of (EntityContext e) t = Ok b.
Proof.
  intros Ht. unfold executeQuery.
  assert (Hv : exists v, evaluate date_of (EntityContext e) t = Ok v); [|destruct Hv as [v ->]; by eexists].
  assert (Hnode : forall op mirror plain l r, is_operand l && is_operand r && comparable e l r = true ->
    exists v, comparison_node date_of op mirror plain l r
                (evaluate date_of (EntityContext e) l) (evaluate date_of (EntityContext e) r) = Ok v).
  { intros op mirror plain l r Hlr. destruct (comparison_node_total op mirror plain e l r Hlr) as [b ->]. by eexists. }
  induction t as [| | | | | |l IHl r IHr|l IHl r IHr|r IHr|l _ r _|l _ r _|l _ r _|l _ r _|l _ r _|l _ r _];
    cbn [well_typed] in Ht.
  10-15: by apply Hnode.
  1-6: by rewrite evaluate_operand; eexists.
  - apply andb_prop in Ht as [Hl Hr]. destruct (IHl Hl) as [v Hv], (IHr Hr) as [w Hw].
    cbn. rewrite Hv, Hw. cbn. destruct (truthy v); by eexists.
  - apply andb_prop in Ht as [Hl Hr]. destruct (IHl Hl) as [v Hv], (IHr Hr) as [w Hw].
    cbn. rewrite Hv, Hw. cbn. destruct (truthy v); by eexists.
  - destruct (IHr Ht) as [v Hv]. cbn. rewrite Hv. by eexists.
Qed.

End Evaluation.

(** A 64-bit integer against a text, and a text against a number. *)
Lemma filter_evaluates_witness :
  let e := mkEntity (js "p") (js "r") [(js "Size", VStr (js "7")); (js "Age", VNum (num_of_Z 5))] (js "") (js "") in
  let t := AndNode (GreaterThanNode (IdentifierNode (js "Size")) (BigNumberNode (js "5")))
                   (LessThanNode (IdentifierNode (js "Age")) (ConstantNode (VStr (js "x")))) in
  well_typed e t = true /\ exists b, executeQuery (fun _ => None) (EntityContext e) t = Ok b.
Proof. intros e t. split; [by vm_compute|]. apply filter_evaluates. by vm_compute. Defined.

(** Without it the evaluation throws, and the request with it. *)
Example long_against_integer :
  executeQuery (fun _ => None)
    (EntityContext (mkEntity (js "p") (js "r") [(js "Age", VNum (num_of_Z 5))] (js "") (js "")))
    (GreaterThanNode (IdentifierNode (js "Age")) (BigNumberNode (js "3"))) = Throw TypeError.
Proof. by vm_compute. Qed.
