(* ===== verification/TableStore.v ===== *)
(** * TableStore: the metadata store of the table service

    src/src/table/persistence/LokiTableMetadataStore.ts over the collections of
    [Loki]: the collection of the tables, that of the service properties, and a
    collection of entities for each table, under the name account$table. A stored
    entity is not changed in place: an update inserts a new object, a merge puts a
    new object in the place of the old one, so that documents are values; the two
    lists of the batch in progress hold the entities to bring back and the
    documents (with the id their insertion gave) to remove.

    What lokijs does when a document that is in the collection no more is removed
    is the argument [stale]. Names of tables are tested by regular expressions
    built from the name of the request; for names of letters, digits and
    underscores their meaning is written out, what other names match is an
    argument. Opening, saving and closing the database file is not modelled. *)

From S2P Require Import Prelude Errors Extents Loki Utf8 Texts JsValues TableErrors TableEntities TableQuery.
From Stdlib Require Import Ascii.
From Stdlib Require String.
Open Scope Z_scope.
Open Scope azurite_scope.

(** ** Data *)

Record AccessPolicy := mkAccessPolicy {
  ap_start : option string;
  ap_expiry : option string;
  ap_permission : string
}.

Record SignedIdentifier := mkSignedIdentifier { si_id : string; si_accessPolicy : AccessPolicy }.

Definition TableACL := list SignedIdentifier.

Record Table := mkTable {
  account : string;
  table : string;
  tableAcl : option TableACL
}.

Record ServicePropertiesModel (P : Type) := mkServiceProperties {
  sp_accountName : string;
  sp_cors : option P;
  sp_hourMetrics : option P;
  sp_logging : option P;
  sp_minuteMetrics : option P
}.
Arguments mkServiceProperties {P}.
Arguments sp_accountName {P}.
Arguments sp_cors {P}.
Arguments sp_hourMetrics {P}.
Arguments sp_logging {P}.
Arguments sp_minuteMetrics {P}.

Record QueryOptions := mkQueryOptions {
  filter_ : option text;
  top : option Z;
  select : option text
}.

(** The state of a [LokiTableMetadataStore]. *)
Record TableDb (coll : Type -> Type) (P : Type) := mkTableDb {
  tables : coll Table;
  services : coll (ServicePropertiesModel P);
  collections : gmap string (coll Entity);
  transactionRollbackTheseEntities : list Entity;
  transactionDeleteTheseEntities : list (Z * Entity)
}.
Arguments mkTableDb {coll P}.
Arguments tables {coll P}.
Arguments services {coll P}.
Arguments collections {coll P}.
Arguments transactionRollbackTheseEntities {coll P}.
Arguments transactionDeleteTheseEntities {coll P}.

(** ** Pure parts *)

Definition QUERY_RESULT_MAX_NUM : Z := 1000.

Definition getTableCollectionName (account table : string) : string :=
  (account ++ "$" ++ table)%string.

Definition is_entity (pk rk : text) (e : Entity) : bool :=
  (e.(PartitionKey) === pk) && (e.(RowKey) === rk).

(** The time stamp an insertion sets. *)
Definition stamp (e : Entity) : Entity :=
  with_properties
    (assign (js "Timestamp@odata.type") (VStr (js "Edm.DateTime"))
       (assign (js "Timestamp") (VStr e.(lastModifiedTime)) e.(properties))) e.

(** [replace(":", "%3A")]: the first one. *)
Fixpoint replace_colon (s : text) : text :=
  match s with
  | [] => []
  | u :: s => if u =? 58 then js "%3A" ++ s else u :: replace_colon s
  end.
Definition encodeIfMatch (ifMatch : text) : text := replace_colon (replace_colon ifMatch).

(** The test of an update's and a merge's condition. *)
Definition if_match_holds (ifMatch : option text) (doc : Entity) : bool :=
  match ifMatch with
  | None => true
  | Some m => (encodeIfMatch m === js "*") || (encodeIfMatch doc.(eTag) === encodeIfMatch m)
  end.

(** A property of a merge: its value, then its type. *)
Definition filterOdataMetaData (entity : Entity) (key : text) (merged : object) : object :=
  match get (key ++ ODATA_TYPE) entity.(properties) with
  | VUndefined => remove (key ++ ODATA_TYPE) merged
  | t => assign (key ++ ODATA_TYPE) t merged
  end.

Definition merge_properties (entity : Entity) (old : object) : object :=
  foldl (fun merged kv =>
    if endsWith ODATA_TYPE kv.1 then merged
    else filterOdataMetaData entity kv.1 (assign kv.1 kv.2 merged)) old entity.(properties).

(** [{...doc, ...entity, properties: ...}]. *)
Definition mergedEntity (doc entity : Entity) : Entity :=
  with_properties (merge_properties entity doc.(properties)) entity.

Definition getMaxResultsOption (top : option Z) : Z :=
  match top with
  | None => QUERY_RESULT_MAX_NUM
  | Some n => if QUERY_RESULT_MAX_NUM <? n then QUERY_RESULT_MAX_NUM else n
  end.

Definition encodeContinuationHeader (input : text) : text := to_base64 (Buffer_from input).
Definition decodeContinuationHeader (input : text) : text := toString (from_base64 input).

(** The second predicate of [queryTableEntities]. *)
Definition after_continuation (nextPartitionKey nextRowKey : option text) (data : Entity) : bool :=
  if match nextPartitionKey with Some p => text_ltb p data.(PartitionKey) | None => false end then true
  else match nextRowKey with
       | Some r => text_leb r data.(RowKey) && bool_decide (nextPartitionKey = Some data.(PartitionKey))
       | None =>
           match nextPartitionKey with
           | Some p => negb (text_ltb data.(PartitionKey) p)
           | None => true
           end
       end.

(** The order of [queryTableEntities]: the comparison gives no positive number. *)
Definition key_le (x y : Z * Entity) : bool :=
  if text_ltb y.2.(PartitionKey) x.2.(PartitionKey) then false
  else if x.2.(PartitionKey) === y.2.(PartitionKey) then negb (text_ltb y.2.(RowKey) x.2.(RowKey))
  else true.

(** [chain().where(f)], whose predicate may throw. *)
Fixpoint where_ {A} (f : A -> res bool) (l : list (Z * A)) : res (list (Z * A)) :=
  match l with
  | [] => Ok []
  | d :: l =>
      b ← f d.2;
      rest ← where_ f l;
      Ok (if (b : bool) then d :: rest else rest)
  end.

(** ** Regular expressions of names *)

Definition word_char (c : Ascii.ascii) : bool :=
  let n := Ascii.N_of_ascii c in
  ((48 <=? n) && (n <=? 57))%N || ((65 <=? n) && (n <=? 90))%N
  || ((97 <=? n) && (n <=? 122))%N || (n =? 95)%N.

(** A name without characters that mean something in a regular expression. *)
Definition plain_name (s : string) : bool :=
  negb (s === EmptyString) && forallb word_char (String.list_ascii_of_string s).

(** The maximal sequences of word characters of a text. *)
Fixpoint words (s : list Ascii.ascii) (current : list Ascii.ascii) : list (list Ascii.ascii) :=
  match s with
  | [] => [reverse current]
  | c :: s => if word_char c then words s (c :: current) else reverse current :: words s []
  end.

Section Regexp.
(** What the expressions [^name$] and [\bname\b] built from other names match. *)
Context (anchored_other word_other : string -> string -> bool).

Definition test_anchored (name subject : string) : bool :=
  if plain_name name then toLowerCase name === toLowerCase subject else anchored_other name subject.

Definition test_word (name subject : string) : bool :=
  if plain_name name then
    bool_decide (String.list_ascii_of_string (toLowerCase name)
                   ∈ words (String.list_ascii_of_string (toLowerCase subject)) [])
  else word_other name subject.

(** ** The store *)

Section Store.
Context {coll : Type -> Type} `{Loki coll} {P : Type}.
Context (stale : Z -> res unit).

Abbreviation db := (TableDb coll P).
Abbreviation store := (proc db exn).

Definition set_tables (c : coll Table) (s : db) : db :=
  mkTableDb c s.(services) s.(collections) s.(transactionRollbackTheseEntities)
    s.(transactionDeleteTheseEntities).
Definition set_services (c : coll (ServicePropertiesModel P)) (s : db) : db :=
  mkTableDb s.(tables) c s.(collections) s.(transactionRollbackTheseEntities)
    s.(transactionDeleteTheseEntities).
Definition set_collections (c : gmap string (coll Entity)) (s : db) : db :=
  mkTableDb s.(tables) s.(services) c s.(transactionRollbackTheseEntities)
    s.(transactionDeleteTheseEntities).
Definition set_transaction (r : list Entity) (d : list (Z * Entity)) (s : db) : db :=
  mkTableDb s.(tables) s.(services) s.(collections) r d.

Definition update_db (f : db -> db) : store unit := fun s => (Ok tt, f s).

(** The entities of a collection that is known to exist. *)
Definition collection (name : string) (s : db) : coll Entity := default lk_new (s.(collections) !! name).
Definition update_collection (name : string) (f : coll Entity -> coll Entity) : store unit :=
  update_db (fun s => set_collections (<[name := f (collection name s)]> s.(collections)) s).

(** ** Tables *)

Definition is_table (account name : string) (t : Table) : bool :=
  (t.(TableStore.account) === account) && test_anchored name t.(table).

Definition checkIfTableExists (tableModel : Table) (contextID : option string) : store unit :=
  s ← get_state;
  match findOne (fun t => (t.(account) === tableModel.(account)) && test_word tableModel.(table) t.(table))
          s.(tables) with
  | Some _ => throw (TableErrors.getTableAlreadyExists contextID)
  | None => mret tt
  end.

(** An old collection of the name is replaced. *)
Definition createCollectionForTable (tableModel : Table) : store unit :=
  let tableCollectionName := getTableCollectionName tableModel.(account) tableModel.(table) in
  update_db (fun s => set_collections (<[tableCollectionName := lk_new]> s.(collections)) s).

Definition createTable (tableModel : Table) (contextID : option string) : store unit :=
  _ ← checkIfTableExists tableModel contextID;
  _ ← update_db (fun s => set_tables (lk_insert tableModel s.(tables)) s);
  createCollectionForTable tableModel.

Definition removeTableCollection (account : string) (doc : Table) : store unit :=
  let tableCollectionName := getTableCollectionName account doc.(table) in
  update_db (fun s => set_collections (delete tableCollectionName s.(collections)) s).

Definition deleteTable (table account : string) (contextID : option string) : store unit :=
  s ← get_state;
  match findOne (is_table account (toLowerCase table)) s.(tables) with
  | None => throw (TableErrors.ResourceNotFound contextID)
  | Some (i, doc) =>
      _ ← update_db (fun s => set_tables (lk_remove i s.(tables)) s);
      removeTableCollection account doc
  end.

Definition setTableACL (account table : string) (tableACL : option TableACL) (contextID : option string) :
    store unit :=
  s ← get_state;
  match findOne (is_table account (toLowerCase table)) s.(tables) with
  | None => throw (TableErrors.getTableNotFound contextID)
  | Some (i, doc) =>
      update_db (fun s => set_tables
        (lk_update i (mkTable doc.(TableStore.account) doc.(TableStore.table) tableACL) s.(tables)) s)
  end.

Definition getTable (account table : string) (contextID : option string) : store Table :=
  s ← get_state;
  match findOne (is_table account table) s.(tables) with
  | None => throw (TableErrors.getTableNotFound contextID)
  | Some d => mret d.2
  end.

Section Dates.
Context (date_of : value -> option Z).

(** [simplesort("table")]. *)
Definition table_le (x y : Z * Table) : bool := lk_text_le x.2.(table) y.2.(table).

Definition queryTable (account : string) (queryOptions : QueryOptions) (nextTable : option string)
    (contextID : option string) : store (list Table * option string) :=
  s ← get_state;
  let query t := (t.(TableStore.account) === account)
    && match nextTable with
       | Some n => (n === EmptyString) || lk_text_le n t.(table)
       | None => true
       end in
  queryWhere ← lift (match generateQueryTableWhereFunction date_of queryOptions.(filter_) with
                     | Ok f => Ok f
                     | Throw _ => Throw (TableErrors.getQueryConditionInvalid contextID)
                     end);
  let top := match queryOptions.(top) with Some n => if n =? 0 then 1000 else n | None => 1000 end in
  docs ← lift (where_ (fun t => queryWhere t.(table)) (lk_find (fun _ => query) s.(tables)));
  let docList := take (Z.to_nat (top + 1)) (lk_sort table_le docs) in
  if top <? Z.of_nat (length docList)
  then mret ((take (length docList - 1) docList).*2, (fun d => d.2.(table)) <$> last docList)
  else mret (docList.*2, None).

(** ** Entities *)

(** The name of the collection [getEntityCollection] finds. *)
Definition getEntityCollection (account table : string) (contextID : option string) : store string :=
  s ← get_state;
  let lower := getTableCollectionName account (toLowerCase table) in
  let name := getTableCollectionName account table in
  if defined (s.(collections) !! lower) then mret lower
  else if defined (s.(collections) !! name) then mret name
  else throw (TableErrors.getTableNotExist contextID).

Definition find_entity (name : string) (pk rk : text) : store (option (Z * Entity)) :=
  s ← get_state;
  mret (findOne (is_entity pk rk) (collection name s)).

(** [batchId !== "" && batchId !== undefined], and [batchId !== ""]. *)
Definition tracks_insert (batchId : option string) : bool := nonempty batchId.
Definition tracks_rollback (batchId : option string) : bool := batchId !== Some EmptyString.

Definition push_rollback (doc : Entity) : store unit :=
  update_db (fun s => set_transaction (s.(transactionRollbackTheseEntities) ++ [doc])
                        s.(transactionDeleteTheseEntities) s).
Definition push_delete (d : Z * Entity) : store unit :=
  update_db (fun s => set_transaction s.(transactionRollbackTheseEntities)
                        (s.(transactionDeleteTheseEntities) ++ [d]) s).

Definition trackRollback (batchId : option string) (doc : Entity) : store unit :=
  if tracks_rollback batchId then push_rollback doc else mret tt.

(** The pushed object gets its id from the insertion that follows. *)
Definition insertTableEntity (table account : string) (entity : Entity) (batchId : option string)
    (contextID : option string) : store Entity :=
  name ← getEntityCollection account table contextID;
  doc ← find_entity name entity.(PartitionKey) entity.(RowKey);
  match doc with
  | Some _ => throw (TableErrors.getEntityAlreadyExist contextID)
  | None =>
      let entity := stamp entity in
      s ← get_state;
      _ ← (if tracks_insert batchId then push_delete (lk_next (collection name s), entity) else mret tt);
      _ ← update_collection name (lk_insert entity);
      mret entity
  end.

(** What [updateTableEntity] and [mergeTableEntity] do up to the test of the
    condition: the document, or the exception. *)
Definition changed_entity (table account : string) (entity : Entity) (ifMatch : option text)
    (batchId : option string) (contextID : option string) : store (string * (Z * Entity)) :=
  name ← getEntityCollection account table contextID;
  d ← find_entity name entity.(PartitionKey) entity.(RowKey);
  match d with
  | None => throw (TableErrors.getEntityNotFound contextID)
  | Some d =>
      _ ← trackRollback batchId d.2;
      if if_match_holds ifMatch d.2 then mret (name, d)
      else throw (TableErrors.getPreconditionFailed contextID)
  end.

Definition updateTableEntity (table account : string) (entity : Entity) (ifMatch : option text)
    (batchId : option string) (contextID : option string) : store Entity :=
  found ← changed_entity table account entity ifMatch batchId contextID;
  let '(name, (i, _)) := found in
  _ ← update_collection name (lk_remove i);
  let entity := stamp entity in
  _ ← update_collection name (lk_insert entity);
  mret entity.

Definition mergeTableEntity (table account : string) (entity : Entity) (ifMatch : option text)
    (batchId : option string) (contextID : option string) : store Entity :=
  found ← changed_entity table account entity ifMatch batchId contextID;
  let '(name, (i, doc)) := found in
  let merged := mergedEntity doc entity in
  _ ← update_collection name (lk_update i merged);
  mret merged.

Definition queryTableEntitiesWithPartitionAndRowKey (table account : string) (partitionKey rowKey : text)
    (contextID : option string) : store (option Entity) :=
  name ← getEntityCollection account table contextID;
  d ← find_entity name partitionKey rowKey;
  mret (snd <$> d).

Definition insertOrUpdateTableEntity (table account : string) (entity : Entity) (ifMatch : option text)
    (batchId : option string) (contextID : option string) : store Entity :=
  match ifMatch with
  | None =>
      existingEntity ← queryTableEntitiesWithPartitionAndRowKey table account
                         entity.(PartitionKey) entity.(RowKey) contextID;
      match existingEntity with
      | Some _ => updateTableEntity table account entity ifMatch batchId contextID
      | None => insertTableEntity table account entity batchId contextID
      end
  | Some _ => updateTableEntity table account entity ifMatch batchId contextID
  end.

Definition insertOrMergeTableEntity (table account : string) (entity : Entity) (ifMatch : option text)
    (batchId : option string) (contextID : option string) : store Entity :=
  match ifMatch with
  | None =>
      existingEntity ← queryTableEntitiesWithPartitionAndRowKey table account
                         entity.(PartitionKey) entity.(RowKey) contextID;
      match existingEntity with
      | Some _ => mergeTableEntity table account entity ifMatch batchId contextID
      | None => insertTableEntity table account entity batchId contextID
      end
  | Some _ => mergeTableEntity table account entity ifMatch batchId contextID
  end.

Definition checkForMissingEntity (doc : option (Z * Entity)) (contextID : option string) :
    store (Z * Entity) :=
  match doc with Some d => mret d | None => throw (TableErrors.getEntityNotFound contextID) end.

Definition checkIfMatchPrecondition (etag : text) (doc : Entity) (contextID : option string) : store unit :=
  if (etag !== js "*") && (doc.(eTag) !== etag) then throw (TableErrors.getPreconditionFailed contextID)
  else mret tt.

Definition deleteTableEntity (table account : string) (partitionKey rowKey : option text) (etag : text)
    (batchId : option string) (contextID : option string) : store unit :=
  name ← getEntityCollection account table contextID;
  match partitionKey, rowKey with
  | Some pk, Some rk =>
      doc ← find_entity name pk rk;
      d ← checkForMissingEntity doc contextID;
      _ ← checkIfMatchPrecondition etag d.2 contextID;
      _ ← trackRollback batchId d.2;
      update_collection name (lk_remove d.1)
  | _, _ => throw (TableErrors.getPropertiesNeedValue contextID)
  end.

(** The last result, when there is one too many, becomes the continuation. *)
Definition adjustQueryResultforTop (result : list Entity) (maxResults : Z) :
    list Entity * option text * option text :=
  if maxResults <? Z.of_nat (length result) then
    let tail := last result in
    (take (length result - 1) result,
     (fun e => encodeContinuationHeader e.(PartitionKey)) <$> tail,
     (fun e => encodeContinuationHeader e.(RowKey)) <$> tail)
  else (result, None, None).

Definition queryTableEntities (account table : string) (queryOptions : QueryOptions)
    (nextPartitionKey nextRowKey : option text) (contextID : option string) :
    store (list Entity * option text * option text) :=
  name ← getEntityCollection account table contextID;
  queryWhere ← lift (generateQueryForPersistenceLayer date_of contextID queryOptions.(filter_));
  let maxResults := getMaxResultsOption queryOptions.(top) in
  let decodedNextPartitionKey := decodeContinuationHeader <$> nextPartitionKey in
  let decodedNextRowKey := decodeContinuationHeader <$> nextRowKey in
  s ← get_state;
  docs ← lift (where_ queryWhere (lk_find (fun _ _ => true) (collection name s)));
  let docs := List.filter (fun d => after_continuation decodedNextPartitionKey decodedNextRowKey d.2) docs in
  let result := take (Z.to_nat (maxResults + 1)) (lk_sort key_le docs) in
  mret (adjustQueryResultforTop result.*2 maxResults).

(** ** Service properties *)

Definition getServiceProperties (account : string) : store (option (ServicePropertiesModel P)) :=
  s ← get_state;
  mret (snd <$> findOne (fun d => d.(sp_accountName) === account) s.(services)).

Definition pick (new old : option P) : option P := match new with None => old | Some _ => new end.

Definition setServiceProperties (p : ServicePropertiesModel P) : store unit :=
  s ← get_state;
  match findOne (fun d => d.(sp_accountName) === p.(sp_accountName)) s.(services) with
  | Some (i, doc) =>
      update_db (set_services (lk_update i
        (mkServiceProperties doc.(sp_accountName)
           (pick p.(sp_cors) doc.(sp_cors)) (pick p.(sp_hourMetrics) doc.(sp_hourMetrics))
           (pick p.(sp_logging) doc.(sp_logging)) (pick p.(sp_minuteMetrics) doc.(sp_minuteMetrics)))
        s.(services)))
  | None => update_db (set_services (lk_insert p s.(services)))
  end.

(** ** Batches *)

Definition beginBatchTransaction : store unit :=
  s ← get_state;
  if negb (Nat.eqb (length s.(transactionRollbackTheseEntities)) 0)
     || negb (Nat.eqb (length s.(transactionDeleteTheseEntities)) 0)
  then throw JsError
  else mret tt.

(** [copiedEntity]: a new object with the fields of a document. *)
Definition copied (e : Entity) : Entity :=
  mkEntity e.(PartitionKey) e.(RowKey) e.(properties) e.(lastModifiedTime) e.(eTag).

Fixpoint rollbackEntityChanges (name : string) (l : list Entity) : store unit :=
  match l with
  | [] => mret tt
  | entity :: l =>
      doc ← find_entity name entity.(PartitionKey) entity.(RowKey);
      _ ← match doc with
          | Some d => update_collection name (lk_remove d.1)
          | None => mret tt
          end;
      _ ← update_collection name (lk_insert (copied entity));
      rollbackEntityChanges name l
  end.

(** [remove(deleteRow)]. *)
Definition remove_document (name : string) (i : Z) : store unit :=
  s ← get_state;
  match lk_find (fun j _ => j =? i) (collection name s) with
  | [] => lift (stale i)
  | _ => update_collection name (lk_remove i)
  end.

Fixpoint removeEntitiesAddedInBatch (name : string) (l : list (Z * Entity)) : store unit :=
  match l with
  | [] => mret tt
  | deleteRow :: l => _ ← remove_document name deleteRow.1; removeEntitiesAddedInBatch name l
  end.

Definition endBatchTransaction (account table : string) (succeeded : bool) : store unit :=
  let name := getTableCollectionName account table in
  _ ← (if succeeded then mret tt
       else
         s ← get_state;
         match s.(collections) !! name with
         | None => mret tt
         | Some _ =>
             _ ← rollbackEntityChanges name s.(transactionRollbackTheseEntities);
             removeEntitiesAddedInBatch name s.(transactionDeleteTheseEntities)
         end);
  update_db (set_transaction [] []).

End Dates.
End Store.
End Regexp.
