(* ===== verification/TableStoreSpec.v ===== *)
(** * TableStoreSpec: what the requests on entities do

    Proved against the laws of [Loki]. A table's collection is a finite map from
    keys to entities ([contents]), as long as no two documents have the same key
    ([keyed]). [op_implements] takes an operation of the store apart: the change of
    the collection ([change]), what is kept to undo it, and its description on the
    map ([spec_op]); [entity_ops_refine] says it for the database. *)

From S2P Require Import Prelude Errors Extents Loki Utf8 Texts JsValues TableErrors TableEntities TableQuery TableStore.
From Stdlib Require String.
Open Scope Z_scope.
Open Scope azurite_scope.

Abbreviation key := (text * text)%type.

Definition key_of (e : Entity) : key := (e.(PartitionKey), e.(RowKey)).

Lemma is_entity_key pk rk e : is_entity pk rk e = true <-> key_of e = (pk, rk).
Proof.
  unfold is_entity, key_of. rewrite andb_true_iff, !bool_decide_eq_true.
  split; [intros [-> ->]|intros [= -> ->]]; done.
Qed.

Lemma key_of_stamp e : key_of (stamp e) = key_of e.
Proof. done. Qed.

Lemma copied_id e : copied e = e.
Proof. by destruct e. Qed.

(** ** The map of a collection *)

Section Contents.
Context {coll : Type -> Type} `{LokiLaws coll}.
Implicit Types (c : coll Entity) (e : Entity) (k : key).

(** No two documents with the same key. *)
Definition keyed c : Prop :=
  forall i j a b, docs c !! i = Some a -> docs c !! j = Some b -> key_of a = key_of b -> i = j.

Definition contents c : gmap key Entity :=
  list_to_map ((fun d => (key_of d.2, d.2)) <$> map_to_list (docs c)).

Lemma contents_lookup c k e :
  keyed c -> contents c !! k = Some e <-> exists i, docs c !! i = Some e /\ key_of e = k.
Proof.
  intros Hk. unfold contents. rewrite <- elem_of_list_to_map.
  - rewrite list_elem_of_fmap. split.
    + intros ([i a]&[= -> ->]&Hi%elem_of_map_to_list). eauto.
    + intros (i&Hi&<-). exists (i, e). split; [done|]. by apply elem_of_map_to_list.
  - rewrite <- list_fmap_compose. apply NoDup_fmap_2_strong; [|apply NoDup_map_to_list].
    intros [i a] [j b] Hi%elem_of_map_to_list Hj%elem_of_map_to_list. cbn. intros Hab.
    pose proof (Hk _ _ _ _ Hi Hj Hab). congruence.
Qed.

Lemma contents_None c k :
  keyed c -> contents c !! k = None <-> forall i e, docs c !! i = Some e -> key_of e <> k.
Proof.
  intros Hk. split.
  - intros Hn i e Hi He. assert (contents c !! k = Some e) by (apply contents_lookup; eauto). congruence.
  - intros Hn. apply eq_None_not_Some. intros [e (i&Hi&He)%contents_lookup]; [|done]. by apply (Hn i e).
Qed.

(** The map is the only one with these entries. *)
Lemma contents_unique c (m : gmap key Entity) :
  keyed c ->
  (forall k e, m !! k = Some e <-> exists i, docs c !! i = Some e /\ key_of e = k) -> contents c = m.
Proof.
  intros Hk Hm. apply map_eq. intros k. apply option_eq. intros e.
  by rewrite contents_lookup, Hm.
Qed.

Lemma keyed_new : keyed lk_new.
Proof. intros i j a b Hi. by rewrite docs_new in Hi. Qed.

Lemma contents_new : contents lk_new = ∅.
Proof. unfold contents. rewrite docs_new. done. Qed.

Lemma keyed_subset c c' : docs c' ⊆ docs c -> keyed c -> keyed c'.
Proof. intros Hs Hk i j a b Hi Hj. apply Hk; eapply lookup_weaken; eassumption. Qed.

Lemma keyed_insert e c : keyed c -> contents c !! key_of e = None -> keyed (lk_insert e c).
Proof.
  intros Hk Hn. pose proof (proj1 (contents_None c _ Hk) Hn) as Hno. intros i j a b.
  rewrite docs_insert, !lookup_insert_Some.
  intros [[<- <-]|[_ Hi]] [[<- <-]|[_ Hj]] Hab; [done|..|by eapply Hk].
  - by destruct (Hno j b Hj).
  - by destruct (Hno i a Hi).
Qed.

Lemma contents_insert e c :
  keyed c -> contents c !! key_of e = None ->
  contents (lk_insert e c) = <[key_of e := e]> (contents c).
Proof.
  intros Hk Hn. apply contents_unique; [by apply keyed_insert|]. intros k a.
  rewrite lookup_insert_Some, contents_lookup by done. rewrite docs_insert.
  assert (Hfresh : docs c !! (max_id c + 1) = None).
  { apply eq_None_not_Some. intros Hs%docs_max. lia. }
  split.
  - intros [[<- <-]|[_ (i&Hi&<-)]].
    + exists (max_id c + 1). by rewrite lookup_insert_eq.
    + exists i. rewrite lookup_insert_ne; [done|]. congruence.
  - intros (i&[[<- <-]|[_ Hi]]%lookup_insert_Some&<-); [by left|]. right. split; [|by eauto].
    intros He. by apply (proj1 (contents_None c _ Hk) Hn i a).
Qed.

Lemma keyed_remove i c : keyed c -> keyed (lk_remove i c).
Proof. apply keyed_subset. rewrite docs_remove. apply delete_subseteq. Qed.

Lemma contents_remove i e c :
  keyed c -> docs c !! i = Some e -> contents (lk_remove i c) = delete (key_of e) (contents c).
Proof.
  intros Hk Hi. apply contents_unique; [by apply keyed_remove|]. intros k a.
  rewrite lookup_delete_Some, contents_lookup, docs_remove by done.
  setoid_rewrite lookup_delete_Some. split.
  - intros [Hne (j&Hj&<-)]. exists j. split; [|done]. split; [|done]. congruence.
  - intros (j&[Hne Hj]&<-). split; [|by eauto]. intros He. apply Hne. by eapply Hk.
Qed.

Lemma keyed_update i e a c :
  keyed c -> docs c !! i = Some a -> key_of e = key_of a -> keyed (lk_update i e c).
Proof.
  intros Hk Hi He j1 j2 b1 b2. rewrite docs_update by by eexists. rewrite !lookup_insert_Some.
  intros [[<- <-]|[_ H1]] [[<- <-]|[_ H2]] Hb; [done|..|by eapply Hk].
  - eapply Hk; [exact Hi|exact H2|congruence].
  - eapply Hk; [exact H1|exact Hi|congruence].
Qed.

Lemma contents_update i e a c :
  keyed c -> docs c !! i = Some a -> key_of e = key_of a ->
  contents (lk_update i e c) = <[key_of e := e]> (contents c).
Proof.
  intros Hk Hi He. apply contents_unique; [by eapply keyed_update|]. intros k b.
  rewrite lookup_insert_Some, contents_lookup, docs_update by (done || by eexists).
  setoid_rewrite lookup_insert_Some. split.
  - intros [[<- <-]|[Hne (j&Hj&<-)]]; [by eauto|]. exists j. split; [|done]. right. split; [|done]. congruence.
  - intros (j&[[<- <-]|[Hne Hj]]&<-); [by left|]. right. split; [|by eauto].
    intros Hab. apply Hne. eapply Hk; [exact Hi|exact Hj|congruence].
Qed.

(** What [findOne] finds is the entry of the map. *)
Lemma find_entry c pk rk :
  keyed c ->
  match findOne (is_entity pk rk) c with
  | Some (i, e) => docs c !! i = Some e /\ key_of e = (pk, rk) /\ contents c !! (pk, rk) = Some e
  | None => contents c !! (pk, rk) = None
  end.
Proof.
  intros Hk. destruct (findOne _ c) as [[i e]|] eqn:Hf.
  - apply findOne_Some in Hf as [Hi He%is_entity_key]. split_and!; [done..|].
    apply contents_lookup; eauto.
  - apply contents_None; [done|]. intros i e Hi He.
    pose proof (findOne_None _ _ Hf i e Hi) as Hno. by rewrite (proj2 (is_entity_key _ _ _) He) in Hno.
Qed.

End Contents.

(** ** The operations on entities *)

Section Spec.
Context {coll : Type -> Type} `{LokiLaws coll} {P : Type}.

Abbreviation db := (TableDb coll P).
Implicit Types (s : db) (m : gmap key Entity).

(** The requests that reach the entities of a table. *)
Inductive entity_op :=
| InsertEntity (e : Entity)
| UpsertEntity (merge : bool) (e : Entity) (ifMatch : option text)
| DeleteEntity (pk rk : option text) (etag : text)
| GetEntity (pk rk : text).

Definition run_op (account table : string) (batchId rid : option string) (op : entity_op) :
    proc db exn (option Entity) :=
  match op with
  | InsertEntity e => r ← insertTableEntity table account e batchId rid; mret (Some r)
  | UpsertEntity merge e ifMatch =>
      r ← (if merge then insertOrMergeTableEntity table account e ifMatch batchId rid
           else insertOrUpdateTableEntity table account e ifMatch batchId rid);
      mret (Some r)
  | DeleteEntity pk rk etag => _ ← deleteTableEntity table account pk rk etag batchId rid; mret None
  | GetEntity pk rk => queryTableEntitiesWithPartitionAndRowKey table account pk rk rid
  end.

(** What they do to the map of a table. *)
Definition spec_insert (rid : option string) (e : Entity) m : res (option Entity) * gmap key Entity :=
  match m !! key_of e with
  | Some _ => (Throw (TableErrors.getEntityAlreadyExist rid), m)
  | None => (Ok (Some (stamp e)), <[key_of e := stamp e]> m)
  end.

Definition spec_op (rid : option string) (op : entity_op) m : res (option Entity) * gmap key Entity :=
  match op with
  | InsertEntity e => spec_insert rid e m
  | UpsertEntity merge e ifMatch =>
      match m !! key_of e, ifMatch with
      | Some old, _ =>
          if if_match_holds ifMatch old then
            let e' := if merge then mergedEntity old e else stamp e in
            (Ok (Some e'), <[key_of e := e']> m)
          else (Throw (TableErrors.getPreconditionFailed rid), m)
      | None, None => spec_insert rid e m
      | None, Some _ => (Throw (TableErrors.getEntityNotFound rid), m)
      end
  | DeleteEntity (Some pk) (Some rk) etag =>
      match m !! (pk, rk) with
      | None => (Throw (TableErrors.getEntityNotFound rid), m)
      | Some old =>
          if (etag === js "*") || (old.(eTag) === etag) then (Ok None, delete (pk, rk) m)
          else (Throw (TableErrors.getPreconditionFailed rid), m)
      end
  | DeleteEntity _ _ _ => (Throw (TableErrors.getPropertiesNeedValue rid), m)
  | GetEntity pk rk => (Ok (m !! (pk, rk)), m)
  end.

(** The key of the entity an operation may change. *)
Definition op_key (op : entity_op) : option key :=
  match op with
  | InsertEntity e | UpsertEntity _ e _ => Some (key_of e)
  | DeleteEntity (Some pk) (Some rk) _ => Some (pk, rk)
  | _ => None
  end.

(** The changes of a collection, with what is kept to undo them: the entities to
    bring back and the documents to remove. *)
Inductive change (c : coll Entity) : option key -> coll Entity -> list Entity -> list (Z * Entity) -> Prop :=
| change_none k : change c k c [] []
| change_kept k old : contents c !! k = Some old -> change c (Some k) c [old] []
| change_insert e : contents c !! key_of e = None ->
    change c (Some (key_of e)) (lk_insert e c) [] [(lk_next c, e)]
| change_replace i old e : docs c !! i = Some old -> key_of e = key_of old ->
    change c (Some (key_of e)) (lk_insert e (lk_remove i c)) [old] []
| change_update i old e : docs c !! i = Some old -> key_of e = key_of old ->
    change c (Some (key_of e)) (lk_update i e c) [old] []
| change_remove i old : docs c !! i = Some old ->
    change c (Some (key_of old)) (lk_remove i c) [old] [].

Definition changed (batchId : option string) (name : string) (c : coll Entity) (rb : list Entity)
    (dl : list (Z * Entity)) s : db :=
  mkTableDb s.(tables) s.(services) (<[name := c]> s.(collections))
    (s.(transactionRollbackTheseEntities) ++ if tracks_rollback batchId then rb else [])
    (s.(transactionDeleteTheseEntities) ++ if tracks_insert batchId then dl else []).

(** The name of the collection of a table. *)
Definition resolve {A} (account table : string) (v : gmap string A) : option string :=
  let lower := getTableCollectionName account (toLowerCase table) in
  let name := getTableCollectionName account table in
  if defined (v !! lower) then Some lower else if defined (v !! name) then Some name else None.

Lemma resolve_runs account table rid s :
  getEntityCollection account table rid s =
  (match resolve account table s.(collections) with
   | Some name => Ok name
   | None => Throw (TableErrors.getTableNotExist rid)
   end, s).
Proof. unfold getEntityCollection, resolve. run. by repeat case_match. Qed.

Lemma changed_id batchId name c s :
  s.(collections) !! name = Some c -> changed batchId name c [] [] s = s.
Proof.
  intros Hc. unfold changed. rewrite insert_id by done.
  destruct s; cbn. by destruct (tracks_rollback _), (tracks_insert _); rewrite !app_nil_r.
Qed.

Lemma keyed_change c k c' rb dl : keyed c -> change c k c' rb dl -> keyed c'.
Proof.
  intros Hc [ | |e He|i old e Hi He|i old e Hi He|i old Hi]; try done.
  - by apply keyed_insert.
  - apply keyed_insert; [by apply keyed_remove|]. rewrite (contents_remove i old) by done.
    rewrite He. apply lookup_delete_eq.
  - by eapply keyed_update.
  - by apply keyed_remove.
Qed.

(** The map after a change. *)
Lemma contents_replace c i old e :
  keyed c -> docs c !! i = Some old -> key_of e = key_of old ->
  contents (lk_insert e (lk_remove i c)) = <[key_of e := e]> (contents c).
Proof.
  intros Hc Hi He. rewrite contents_insert.
  - rewrite (contents_remove i old), He by done. apply insert_delete_eq.
  - by apply keyed_remove.
  - rewrite (contents_remove i old), He by done. apply lookup_delete_eq.
Qed.

Lemma collection_of name c s : s.(collections) !! name = Some c -> collection name s = c.
Proof. intros Hc. unfold collection. by rewrite Hc. Qed.

(** An operation on a table makes one change of its collection, which does to the
    map what [spec_op] says. *)
Definition implements account table batchId rid (name : string) (c : coll Entity) s op : Prop :=
  exists c' rb dl,
    run_op account table batchId rid op s
      = ((spec_op rid op (contents c)).1, changed batchId name c' rb dl s) /\
    change c (op_key op) c' rb dl /\ contents c' = (spec_op rid op (contents c)).2.

Section One.
Context (account table : string) (batchId rid : option string) (name : string) (c : coll Entity) (s : db).
Context (Hn : resolve account table s.(collections) = Some name).
Context (Hc : s.(collections) !! name = Some c) (Hk : keyed c).

Lemma find_entity_runs pk rk : find_entity name pk rk s = (Ok (findOne (is_entity pk rk) c), s).
Proof. unfold find_entity. run. by rewrite (collection_of name c). Qed.

Lemma get_entity_runs pk rk :
  queryTableEntitiesWithPartitionAndRowKey table account pk rk rid s = (Ok (contents c !! (pk, rk)), s).
Proof.
  unfold queryTableEntitiesWithPartitionAndRowKey. run. rewrite resolve_runs, Hn. run.
  rewrite find_entity_runs. pose proof (find_entry c pk rk Hk) as Hf.
  destruct (findOne _ c) as [[i e]|]; cbn; [destruct Hf as (_&_&Hf)|]; by rewrite Hf.
Qed.

Lemma get_implements pk rk : implements account table batchId rid name c s (GetEntity pk rk).
Proof.
  exists c, [], []. cbn [run_op spec_op]. rewrite get_entity_runs, changed_id by done.
  split_and!; [done|constructor|done].
Qed.

Lemma update_changed f c1 rb dl :
  update_collection name f (changed batchId name c1 rb dl s) = (Ok tt, changed batchId name (f c1) rb dl s).
Proof.
  unfold update_collection, update_db, changed, set_collections, collection. cbn.
  by rewrite lookup_insert_eq, insert_insert_eq.
Qed.

Lemma insert_entity_runs e :
  insertTableEntity table account e batchId rid s
  = match contents c !! key_of e with
    | Some _ => (Throw (TableErrors.getEntityAlreadyExist rid), s)
    | None => (Ok (stamp e), changed batchId name (lk_insert (stamp e) c) [] [(lk_next c, stamp e)] s)
    end.
Proof.
  unfold insertTableEntity. run. rewrite resolve_runs, Hn. run. rewrite find_entity_runs.
  pose proof (find_entry c e.(PartitionKey) e.(RowKey) Hk) as Hf.
  destruct (findOne _ c) as [[i a]|]; cbn in Hf |- *.
  - destruct Hf as (_&_&Hf). unfold key_of. by rewrite Hf.
  - unfold key_of. rewrite Hf. rewrite (collection_of name c) by done.
    unfold update_collection, update_db, changed, push_delete, set_transaction, set_collections, collection.
    destruct s, (tracks_insert batchId), (tracks_rollback batchId); cbn in *; rewrite Hc; cbn;
      by rewrite ?app_nil_r.
Qed.

Lemma insert_implements e : implements account table batchId rid name c s (InsertEntity e).
Proof.
  unfold implements. cbn [run_op spec_op]. unfold spec_insert. run. rewrite insert_entity_runs.
  destruct (contents c !! key_of e) as [old|] eqn:He.
  - exists c, [], []. rewrite changed_id by done. split_and!; [done|constructor|done].
  - exists (lk_insert (stamp e) c), [], [(lk_next c, stamp e)]. split_and!; [done| |].
    + exact (change_insert c (stamp e) He).
    + by rewrite contents_insert.
Qed.

Lemma track_runs old : trackRollback batchId old s = (Ok tt, changed batchId name c [old] [] s).
Proof.
  unfold trackRollback, changed. rewrite insert_id by done.
  destruct (tracks_rollback batchId), (tracks_insert batchId); [..|run|run];
    unfold push_rollback, update_db, set_transaction; destruct s; cbn; by rewrite !app_nil_r.
Qed.

Lemma changed_entity_runs e ifMatch :
  changed_entity table account e ifMatch batchId rid s
  = match findOne (is_entity e.(PartitionKey) e.(RowKey)) c with
    | None => (Throw (TableErrors.getEntityNotFound rid), s)
    | Some (i, old) =>
        (if if_match_holds ifMatch old then Ok (name, (i, old))
         else Throw (TableErrors.getPreconditionFailed rid), changed batchId name c [old] [] s)
    end.
Proof.
  unfold changed_entity. run. rewrite resolve_runs, Hn. run. rewrite find_entity_runs.
  destruct (findOne _ c) as [[i old]|]; cbn; [|done].
  rewrite track_runs. by destruct (if_match_holds ifMatch old).
Qed.

(** An update and a merge of an entity that exists, and of one that does not. *)
Lemma existing_runs (merge : bool) e ifMatch :
  (if merge then mergeTableEntity table account e ifMatch batchId rid
   else updateTableEntity table account e ifMatch batchId rid) s
  = match findOne (is_entity e.(PartitionKey) e.(RowKey)) c with
    | None => (Throw (TableErrors.getEntityNotFound rid), s)
    | Some (i, old) =>
        if if_match_holds ifMatch old then
          let e' := if merge then mergedEntity old e else stamp e in
          (Ok e', changed batchId name
             (if merge then lk_update i e' c else lk_insert e' (lk_remove i c)) [old] [] s)
        else (Throw (TableErrors.getPreconditionFailed rid), changed batchId name c [old] [] s)
    end.
Proof.
  destruct merge; unfold mergeTableEntity, updateTableEntity; run; rewrite changed_entity_runs;
    destruct (findOne _ c) as [[i old]|]; try done; destruct (if_match_holds ifMatch old); try done;
    repeat (rewrite update_changed; cbn -[update_collection]); done.
Qed.

Lemma existing_implements merge e ifMatch r s' :
  (if merge : bool then mergeTableEntity table account e ifMatch batchId rid
   else updateTableEntity table account e ifMatch batchId rid) s = (r, s') ->
  (ifMatch = None -> is_Some (contents c !! key_of e)) ->
  exists c' rb dl,
    (Some <$> r, s') = ((spec_op rid (UpsertEntity merge e ifMatch) (contents c)).1,
                        changed batchId name c' rb dl s) /\
    change c (Some (key_of e)) c' rb dl /\
    contents c' = (spec_op rid (UpsertEntity merge e ifMatch) (contents c)).2.
Proof.
  rewrite existing_runs. intros Hr Hex. cbn [spec_op].
  pose proof (find_entry c e.(PartitionKey) e.(RowKey) Hk) as Hf. unfold key_of in Hex.
  destruct (findOne _ c) as [[i old]|].
  - destruct Hf as (Hi&Ho&Hold).
    replace (contents c !! key_of e) with (Some old) by (unfold key_of; by rewrite Hold).
    assert (He : key_of (mergedEntity old e) = key_of old /\ key_of (stamp e) = key_of old)
      by by rewrite Ho. destruct He as [Hm Hs].
    destruct (if_match_holds ifMatch old); injection Hr as <- <-.
    + destruct merge; eexists _, _, _; (split_and!; [done| |]).
      * exact (change_update c i old (mergedEntity old e) Hi Hm).
      * exact (contents_update i (mergedEntity old e) old c Hk Hi Hm).
      * exact (change_replace c i old (stamp e) Hi Hs).
      * exact (contents_replace c i old (stamp e) Hk Hi Hs).
    + exists c, [old], []. split_and!; [done|by constructor|done].
  - injection Hr as <- <-. exists c, [], []. rewrite changed_id by done.
    replace (contents c !! key_of e) with (@None Entity) by (unfold key_of; by rewrite Hf).
    destruct ifMatch; [|by rewrite Hf in Hex; destruct Hex]. split_and!; [done|constructor|done].
Qed.

Lemma upsert_implements merge e ifMatch :
  implements account table batchId rid name c s (UpsertEntity merge e ifMatch).
Proof.
  unfold implements. cbn [run_op op_key].
  set (old_run := (if merge then mergeTableEntity table account e ifMatch batchId rid
                   else updateTableEntity table account e ifMatch batchId rid) s).
  assert (Hrun : (if merge then insertOrMergeTableEntity table account e ifMatch batchId rid
                  else insertOrUpdateTableEntity table account e ifMatch batchId rid) s
    = match ifMatch, contents c !! key_of e with
      | None, None => insertTableEntity table account e batchId rid s
      | _, _ => old_run
      end).
  { unfold old_run, insertOrMergeTableEntity, insertOrUpdateTableEntity. unfold key_of.
    destruct merge, ifMatch; try done; unfold mbind at 1, proc_bind at 1; rewrite get_entity_runs;
      by destruct (contents c !! _). }
  unfold mbind, proc_bind. rewrite Hrun. destruct (contents c !! key_of e) as [old|] eqn:He, ifMatch as [im|].
  1,2,3: destruct old_run as [r s'] eqn:Hr;
    destruct (existing_implements merge e _ r s' Hr) as (c'&rb&dl&[Hr1 ->]%pair_equal_spec&Hch&Hcon);
    [by rewrite He|]; exists c', rb, dl; (split_and!; [|done..]); rewrite <- Hr1; by destruct r.
  destruct (insert_implements e) as (c'&rb&dl&Hi&Hch&Hcon). cbn [run_op spec_op] in Hi.
  exists c', rb, dl. cbn [spec_op]. rewrite He. split_and!; done.
Qed.

Lemma delete_implements pk rk etag :
  implements account table batchId rid name c s (DeleteEntity pk rk etag).
Proof.
  unfold implements. cbn [run_op]. unfold deleteTableEntity. run. rewrite resolve_runs, Hn. run.
  destruct pk as [pk|], rk as [rk|];
    try (exists c, [], []; rewrite changed_id by done; split_and!; [done|constructor|done]).
  rewrite find_entity_runs. cbn [spec_op op_key].
  pose proof (find_entry c pk rk Hk) as Hf. destruct (findOne _ c) as [[i old]|].
  - destruct Hf as (Hi&Ho&Hold). rewrite Hold. cbn -[update_collection].
    unfold checkIfMatchPrecondition. rewrite <- negb_orb.
    destruct (_ || _) eqn:Hm; cbn -[update_collection].
    + assert (Ht : trackRollback batchId old s = (Ok tt, changed batchId name c [old] [] s)).
      { unfold trackRollback, changed. rewrite insert_id by done.
        destruct (tracks_rollback batchId), (tracks_insert batchId); [..|run|run];
          unfold push_rollback, update_db, set_transaction; destruct s; cbn; by rewrite !app_nil_r. }
      rewrite track_runs, update_changed. exists (lk_remove i c), [old], []. rewrite <- Ho.
      split_and!; [done|by constructor|by apply contents_remove].
    + exists c, [], []. rewrite changed_id by done. split_and!; [done|constructor|done].
  - rewrite Hf. cbn. exists c, [], []. rewrite changed_id by done. split_and!; [done|constructor|done].
Qed.

Lemma op_implements op : implements account table batchId rid name c s op.
Proof.
  destruct op; [apply insert_implements|apply upsert_implements|apply delete_implements|apply get_implements].
Qed.

End One.

(** ** The database *)

Definition view s : gmap string (gmap key Entity) := fmap (M := gmap string) contents s.(collections).
Definition all_keyed s : Prop := map_Forall (fun _ c => keyed c) s.(collections).

Record request := mkRequest {
  rq_account : string; rq_table : string; rq_batchId : option string; rq_rid : option string;
  rq_op : entity_op
}.

Definition run_request (r : request) : proc db exn (option Entity) :=
  run_op r.(rq_account) r.(rq_table) r.(rq_batchId) r.(rq_rid) r.(rq_op).

Definition spec_request (r : request) (v : gmap string (gmap key Entity)) :
    res (option Entity) * gmap string (gmap key Entity) :=
  match resolve r.(rq_account) r.(rq_table) v with
  | None => (Throw (TableErrors.getTableNotExist r.(rq_rid)), v)
  | Some name =>
      let (res, m) := spec_op r.(rq_rid) r.(rq_op) (v !!! name) in (res, <[name := m]> v)
  end.

(** Requests one after the other: the answers and the state after them. *)
Fixpoint in_sequence {A B} (f : request -> A -> B * A) (rs : list request) (a : A) : list B * A :=
  match rs with
  | [] => ([], a)
  | r :: rs => let (b, a) := f r a in let (bs, a) := in_sequence f rs a in (b :: bs, a)
  end.

Lemma resolve_view account table s : resolve account table (view s) = resolve account table s.(collections).
Proof. unfold resolve, view. rewrite !lookup_fmap. by destruct (_ !! _), (_ !! _). Qed.

Lemma resolve_some {A} account table (v : gmap string A) name :
  resolve account table v = Some name -> is_Some (v !! name).
Proof.
  unfold resolve. intros Hr. destruct (v !! getTableCollectionName account (toLowerCase table)) eqn:H1;
    [|destruct (v !! getTableCollectionName account table) eqn:H2]; cbn in Hr; simplify_eq; by eexists.
Qed.

Lemma view_changed batchId name c rb dl s :
  view (changed batchId name c rb dl s) = <[name := contents c]> (view s).
Proof. unfold view, changed. cbn. by rewrite fmap_insert. Qed.

Lemma all_keyed_changed batchId name c rb dl s :
  all_keyed s -> keyed c -> all_keyed (changed batchId name c rb dl s).
Proof. intros Hs Hc. unfold all_keyed, changed. cbn. by apply map_Forall_insert_2. Qed.

Lemma request_refines r s :
  all_keyed s ->
  let (res, s') := run_request r s in
  (res, view s') = spec_request r (view s) /\ all_keyed s' /\
  s'.(tables) = s.(tables) /\ s'.(services) = s.(services).
Proof.
  intros Hs. destruct (run_request r s) as [res s'] eqn:Hrun.
  unfold spec_request. rewrite resolve_view. unfold run_request in Hrun.
  destruct (resolve r.(rq_account) r.(rq_table) s.(collections)) as [name|] eqn:Hn.
  - destruct (resolve_some _ _ _ _ Hn) as [c Hc]. pose proof (Hs _ _ Hc) as Hk.
    destruct (op_implements r.(rq_account) r.(rq_table) r.(rq_batchId) r.(rq_rid) name c s Hn Hc Hk r.(rq_op))
      as (c'&rb&dl&Hop&Hch&Hcon).
    rewrite Hrun in Hop. apply pair_equal_spec in Hop as [-> ->].
    assert (Hv : view s !!! name = contents c).
    { apply lookup_total_correct. unfold view. by rewrite lookup_fmap, Hc. }
    rewrite Hv, view_changed, Hcon. destruct (spec_op _ _ _) as [x m]. cbn. split; [done|]. split; [|done].
    apply all_keyed_changed; [done|]. exact (keyed_change _ _ _ _ _ Hk Hch).
  - assert (Hthrow : (res, s') = (Throw (TableErrors.getTableNotExist r.(rq_rid)), s)).
    { rewrite <- Hrun. destruct r as [account table batchId rid op]; cbn in *. destruct op as [e|[] e [im|]|pk rk etag|pk rk];
        cbn; unfold insertTableEntity, insertOrMergeTableEntity, insertOrUpdateTableEntity, mergeTableEntity,
          updateTableEntity, changed_entity, deleteTableEntity, queryTableEntitiesWithPartitionAndRowKey;
        run; by rewrite resolve_runs, Hn. }
    by injection Hthrow as -> ->.
Qed.

End Spec.

(** C19. The metadata store keeps, in every table, one entity for each pair of keys, and every
    request on entities does to these maps, and answers, what the description of it
    says: an insertion fails when the entity is there, an update or merge with a
    condition fails when it is not or has another etag, without one it inserts, a merge keeps the
    properties the request does not name, a deletion compares its etag; tables are
    found by the name in lower case first, and no request touches another table. *)
Theorem entity_ops_refine {coll} `{LokiLaws coll} {P} (rs : list request) (s : TableDb coll P) :
  all_keyed s ->
  let (answers, s') := in_sequence run_request rs s in
  (answers, view s') = in_sequence spec_request rs (view s) /\ all_keyed s' /\
  s'.(tables) = s.(tables) /\ s'.(services) = s.(services).
Proof.
  revert s. induction rs as [|r rs IH]; intros s Hs; cbn; [done|].
  pose proof (request_refines r s Hs) as Hr. destruct (run_request r s) as [a s1].
  destruct Hr as (<-&Hs1&Ht&Hsv). specialize (IH s1 Hs1).
  destruct (in_sequence run_request rs s1) as [l s2]. destruct IH as (<-&Hs2&Ht2&Hsv2).
  split_and!; [done|done|congruence..].
Qed.

(** ** Witnesses *)

Section Samples.
Local Abbreviation db := (TableDb map_coll unit).

Definition w_entity (rk : string) (note : string) : Entity :=
  mkEntity (js "p") (js rk) [(js "note", VStr (js note))] (js "2020-01-01T00:00:00Z") (js ("W/" ++ note)).

Definition w_created : db :=
  (createTable (fun _ _ => false) (mkTable "acc" "items" None) None (mkTableDb lk_new lk_new ∅ [] [])).2.

Definition w_request (op : entity_op) : request := mkRequest "acc" "items" None None op.
Definition w_requests : list request :=
  w_request <$> [InsertEntity (w_entity "a" "one"); InsertEntity (w_entity "b" "two");
                 InsertEntity (w_entity "a" "three");
                 UpsertEntity true (w_entity "b" "four") (Some (js "*"));
                 UpsertEntity false (w_entity "c" "five") (Some (js "*"));
                 DeleteEntity (Some (js "p")) (Some (js "b")) (js "W/two");
                 GetEntity (js "p") (js "b")].

Lemma w_created_keyed : all_keyed w_created.
Proof.
  change (map_Forall (fun _ c => keyed (coll := map_coll) c)
            (<["acc$items"%string := lk_new]> (∅ : gmap string (map_coll Entity)))).
  apply map_Forall_insert_2; [apply keyed_new|apply map_Forall_empty].
Qed.

(** The table with two entities. *)
Definition w_filled : db :=
  mkTableDb w_created.(tables) w_created.(services)
    (<["acc$items"%string := lk_insert (w_entity "b" "two") (lk_insert (w_entity "a" "one") lk_new)]>
       w_created.(collections)) [] [].

Lemma w_filled_keyed : all_keyed w_filled.
Proof.
  apply (map_Forall_insert_2 (fun _ c => keyed (coll := map_coll) c)); [|apply w_created_keyed].
  apply keyed_insert; [|vm_compute; reflexivity].
  apply keyed_insert; [apply keyed_new|vm_compute; reflexivity].
Qed.
End Samples.

Lemma entity_ops_refine_witness :
  all_keyed w_created /\
  (in_sequence run_request w_requests w_created).1
    = [Ok (Some (stamp (w_entity "a" "one"))); Ok (Some (stamp (w_entity "b" "two")));
       Throw (TableErrors.getEntityAlreadyExist None);
       Ok (Some (mergedEntity (stamp (w_entity "b" "two")) (w_entity "b" "four")));
       Throw (TableErrors.getEntityNotFound None);
       Throw (TableErrors.getPreconditionFailed None);
       Ok (Some (mergedEntity (stamp (w_entity "b" "two")) (w_entity "b" "four")))] /\
  let (answers, s') := in_sequence run_request w_requests w_created in
  (answers, view s') = in_sequence spec_request w_requests (view w_created) /\ all_keyed s' /\
  s'.(tables) = w_created.(tables) /\ s'.(services) = w_created.(services).
Proof.
  split; [exact w_created_keyed|]. split; [vm_compute; reflexivity|].
  exact (entity_ops_refine w_requests w_created w_created_keyed).
Defined.
