(* ===== verification/TableTransactions.v ===== *)
(** * TableTransactions: the batches of the metadata store of tables

    The two lists of the store undo the operations of a batch ([undoable]), so that
    a batch is all or nothing ([batch_atomic]), as long as its operations and its
    end find the same collection ([mixed_case_batch_not_rolled_back]). *)

From S2P Require Import Prelude Errors Extents Loki Utf8 Texts JsValues TableErrors TableEntities TableQuery TableStore TableStoreSpec.
From Stdlib Require String.
Open Scope Z_scope.
Open Scope azurite_scope.

(** ** Batches *)

Section Batch.
Context {coll : Type -> Type} `{LokiLaws coll} {P : Type}.

Abbreviation db := (TableDb coll P).
Implicit Types (s : db) (m : gmap key Entity) (c : coll Entity).

(** Outside of its key a change keeps the entries and the documents. *)
Lemma change_frame c k c' rb dl :
  keyed c -> change c (Some k) c' rb dl ->
  (forall k', k' <> k -> contents c' !! k' = contents c !! k') /\
  (forall i e, docs c !! i = Some e -> key_of e <> k -> docs c' !! i = Some e).
Proof.
  intros Hc Hch. assert (Hfresh : docs c !! (max_id c + 1) = None).
  { apply eq_None_not_Some. intros Hs%docs_max. lia. }
  inversion Hch as [ | |e He|i old e Hi He|i old e Hi He|i old Hi]; subst; (split; [|intros j a Hj Hne]); try done.
  - intros k' Hk'. by rewrite contents_insert, lookup_insert_ne by done.
  - rewrite docs_insert, lookup_insert_ne; [done|]. congruence.
  - intros k' Hk'. by rewrite (contents_replace c i old), lookup_insert_ne by done.
  - rewrite docs_insert, max_remove, docs_remove, lookup_insert_ne by congruence.
    rewrite lookup_delete_ne; [done|]. congruence.
  - intros k' Hk'. by rewrite (contents_update i _ old), lookup_insert_ne by done.
  - rewrite docs_update by by eexists. rewrite lookup_insert_ne; [done|]. congruence.
  - intros k' Hk'. by rewrite (contents_remove i old), lookup_delete_ne by done.
  - rewrite docs_remove, lookup_delete_ne; [done|]. congruence.
Qed.

(** What the two lists hold of a change. *)
Inductive kept_of c (k : key) c' : list Entity -> list (Z * Entity) -> Prop :=
| kept_nothing : c' = c -> kept_of c k c' [] []
| kept_entity old : contents c !! k = Some old -> key_of old = k -> kept_of c k c' [old] []
| kept_document i e : contents c !! k = None -> key_of e = k -> docs c' !! i = Some e ->
    kept_of c k c' [] [(i, e)].

Lemma change_kept_of c k c' rb dl : keyed c -> change c (Some k) c' rb dl -> kept_of c k c' rb dl.
Proof.
  intros Hc Hch.
  assert (Hold : forall i old, docs c !! i = Some old -> contents c !! key_of old = Some old)
    by (intros i old Hi; apply contents_lookup; eauto).
  inversion Hch as [k0 H1 H2|k0 old Hk|e He|i old e Hi He|i old e Hi He|i old Hi]; subst.
  - by constructor.
  - constructor; [done|]. by apply contents_lookup in Hk as (i&_&Hk).
  - constructor; [done..|]. rewrite next_max, docs_insert. apply lookup_insert_eq.
  - constructor; [rewrite He; eauto|done].
  - constructor; [rewrite He; eauto|done].
  - constructor; eauto.
Qed.

Definition keys_of (rb : list Entity) (dl : list (Z * Entity)) : list key :=
  (key_of <$> rb) ++ (key_of ∘ snd <$> dl).

(** The lists undo what happened to [m] since: [done] are the keys used. *)
Record undoable m c (rb : list Entity) (dl : list (Z * Entity)) (used : list key) : Prop := {
  un_keyed : keyed c;
  un_used : forall k, k ∈ keys_of rb dl -> k ∈ used;
  un_nodup : NoDup (key_of ∘ snd <$> dl);
  un_rb : forall e, e ∈ rb -> m !! key_of e = Some e;
  un_dl : forall i e, (i, e) ∈ dl -> docs c !! i = Some e /\ m !! key_of e = None;
  un_rest : forall k, k ∉ keys_of rb dl -> contents c !! k = m !! k
}.

Lemma keys_of_rb rb1 rb2 dl k :
  k ∈ keys_of (rb1 ++ rb2) dl <-> k ∈ keys_of rb1 dl \/ k ∈ key_of <$> rb2.
Proof. unfold keys_of. rewrite !fmap_app, !elem_of_app. tauto. Qed.
Lemma keys_of_dl rb dl1 dl2 k :
  k ∈ keys_of rb (dl1 ++ dl2) <-> k ∈ keys_of rb dl1 \/ k ∈ key_of ∘ snd <$> dl2.
Proof. unfold keys_of. rewrite !fmap_app, !elem_of_app. tauto. Qed.

Lemma undoable_step m c rb dl used k c' rb' dl' :
  undoable m c rb dl used -> k ∉ used -> change c (Some k) c' rb' dl' ->
  undoable m c' (rb ++ rb') (dl ++ dl') (k :: used).
Proof.
  intros [Hc Hu Hd Hrb Hdl Hrest] Hk Hch.
  destruct (change_frame _ _ _ _ _ Hc Hch) as [Hcon Hdocs].
  assert (Hm : contents c !! k = m !! k) by (apply Hrest; intros Hin; by apply Hk, Hu).
  assert (Hold : forall i e, (i, e) ∈ dl -> docs c' !! i = Some e /\ m !! key_of e = None).
  { intros i e Hin. destruct (Hdl i e Hin) as [Hi Hn]. split; [|done]. apply Hdocs; [done|].
    intros He. apply Hk, Hu. unfold keys_of. apply elem_of_app. right. apply list_elem_of_fmap. by exists (i, e). }
  pose proof (keyed_change _ _ _ _ _ Hc Hch) as Hc'.
  destruct (change_kept_of _ _ _ _ _ Hc Hch) as [->|old Hin Hkey|i e Hno Hkey Hi].
  - rewrite !app_nil_r. split; [done| |done..]. intros k' Hk'. right. by apply Hu.
  - rewrite app_nil_r. split; [done| |done| |done|].
    + intros k' [Hk'|Hk'%list_elem_of_singleton]%keys_of_rb; [right; by apply Hu|].
      cbn in Hk'. rewrite <- Hkey, Hk'. left.
    + intros e [He|He%list_elem_of_singleton]%elem_of_app; [by apply Hrb|]. subst e. congruence.
    + intros k' Hk'. rewrite keys_of_rb in Hk'.
      rewrite Hcon; [apply Hrest; tauto|]. intros ->. apply Hk'. right. rewrite <- Hkey. left.
  - rewrite app_nil_r. split; [done| | |done| |].
    + intros k' [Hk'|Hk'%list_elem_of_singleton]%keys_of_dl; [right; by apply Hu|].
      cbn in Hk'. rewrite <- Hkey, Hk'. left.
    + rewrite fmap_app. apply NoDup_app. split_and!; [done| |apply NoDup_singleton].
      intros k' Hk' ->%list_elem_of_singleton. cbn in Hk'. rewrite Hkey in Hk'. apply Hk, Hu.
      unfold keys_of. apply elem_of_app. by right.
    + intros j a [Hj|Hj%list_elem_of_singleton]%elem_of_app; [by apply Hold|].
      injection Hj as -> ->. split; [done|]. congruence.
    + intros k' Hk'. rewrite keys_of_dl in Hk'.
      rewrite Hcon; [apply Hrest; tauto|]. intros ->. apply Hk'. right. rewrite <- Hkey. left.
Qed.

(** *** The rollback *)

Definition with_coll (name : string) c s : db := set_collections (<[name := c]> s.(collections)) s.

Lemma collection_with name c s : collection name (with_coll name c s) = c.
Proof. apply collection_of. cbn. apply lookup_insert_eq. Qed.

Lemma update_with name f c s : update_collection name f (with_coll name c s) = (Ok tt, with_coll name (f c) s).
Proof.
  unfold update_collection, update_db. rewrite collection_with. unfold with_coll, set_collections. cbn.
  by rewrite insert_insert_eq.
Qed.

Lemma find_with name pk rk c s :
  find_entity name pk rk (with_coll name c s) = (Ok (findOne (is_entity pk rk) c), with_coll name c s).
Proof. unfold find_entity. run. by rewrite collection_with. Qed.

Definition restored c e : coll Entity :=
  lk_insert e (match findOne (is_entity e.(PartitionKey) e.(RowKey)) c with
               | Some d => lk_remove d.1 c
               | None => c
               end).

Lemma rollback_runs name l c s :
  rollbackEntityChanges name l (with_coll name c s) = (Ok tt, with_coll name (foldl restored c l) s).
Proof.
  revert c. induction l as [|e l IH]; intros c; cbn [rollbackEntityChanges foldl]; [done|].
  unfold mbind at 1, proc_bind at 1. rewrite find_with, copied_id. cbn [mbind proc_bind]. unfold restored at 2.
  destruct (findOne _ c) as [d|]; unfold mbind, proc_bind; [|run]; rewrite !update_with; apply IH.
Qed.

(** Bringing an entity back is one change of the collection. *)
Lemma restored_change c e : keyed c -> exists rb dl, change c (Some (key_of e)) (restored c e) rb dl.
Proof.
  intros Hc. unfold restored. pose proof (find_entry c e.(PartitionKey) e.(RowKey) Hc) as Hf.
  destruct (findOne _ c) as [[i old]|]; eexists _, _.
  - destruct Hf as (Hi&Ho&_). by apply (change_replace c i old e).
  - by apply change_insert.
Qed.

Lemma restored_contents c e : keyed c -> contents (restored c e) = <[key_of e := e]> (contents c).
Proof.
  intros Hc. unfold restored. pose proof (find_entry c e.(PartitionKey) e.(RowKey) Hc) as Hf.
  destruct (findOne _ c) as [[i old]|].
  - destruct Hf as (Hi&Ho&_). by apply (contents_replace c i old e).
  - by apply contents_insert.
Qed.

Lemma restored_all m l c :
  keyed c -> (forall e, e ∈ l -> m !! key_of e = Some e) ->
  let c' := foldl restored c l in
  keyed c' /\
  (forall k, contents c' !! k = if bool_decide (k ∈ key_of <$> l) then m !! k else contents c !! k) /\
  (forall i e, docs c !! i = Some e -> key_of e ∉ key_of <$> l -> docs c' !! i = Some e).
Proof.
  revert c. induction l as [|e l IH]; intros c Hc Hm; cbn [foldl].
  { split_and!; [done| |done]. intros k. by rewrite bool_decide_eq_false_2 by apply not_elem_of_nil. }
  destruct (restored_change c e Hc) as (rb&dl&Hch).
  destruct (IH (restored c e)) as (Hk&Hcon&Hdocs);
    [by eapply keyed_change|intros a Ha; apply Hm; by right|]. split_and!; [done| |].
  - intros k. rewrite Hcon, restored_contents by done. rewrite fmap_cons.
    rewrite (bool_decide_ext (k ∈ key_of e :: (key_of <$> l)) (k = key_of e \/ k ∈ key_of <$> l))
      by apply elem_of_cons.
    destruct (decide (k = key_of e)) as [->|Hne].
    + rewrite lookup_insert_eq, (Hm e), (bool_decide_eq_true_2 (_ \/ _)) by (by left || left).
      by case_bool_decide.
    + rewrite lookup_insert_ne by done.
      by rewrite (bool_decide_ext (k = key_of e \/ k ∈ key_of <$> l) (k ∈ key_of <$> l)) by tauto.
  - intros i a Hi Ha. rewrite fmap_cons, elem_of_cons in Ha. apply Hdocs; [|tauto].
    apply (change_frame _ _ _ _ _ Hc Hch); [done|]. tauto.
Qed.

Definition removed c (l : list (Z * Entity)) : coll Entity := foldl (fun c d => lk_remove d.1 c) c l.

Lemma removed_all stale name l c s :
  keyed c -> NoDup (key_of ∘ snd <$> l) -> (forall i e, (i, e) ∈ l -> docs c !! i = Some e) ->
  removeEntitiesAddedInBatch stale name l (with_coll name c s) = (Ok tt, with_coll name (removed c l) s) /\
  keyed (removed c l) /\
  forall k, contents (removed c l) !! k = if bool_decide (k ∈ key_of ∘ snd <$> l) then None else contents c !! k.
Proof.
  revert c. induction l as [|[i e] l IH]; intros c Hc Hnd Hl; cbn [removeEntitiesAddedInBatch].
  { split_and!; [done..|]. intros k. by rewrite bool_decide_eq_false_2 by apply not_elem_of_nil. }
  apply NoDup_cons in Hnd as [Hnew Hnd]. pose proof (Hl i e (list_elem_of_here _ _)) as Hi.
  destruct (IH (lk_remove i c)) as (Hrun&Hk&Hcon); [by apply keyed_remove|done| |].
  { intros j a Hj. rewrite docs_remove, lookup_delete_ne; [apply Hl; by right|]. intros <-.
    apply Hnew. apply list_elem_of_fmap. exists (i, a). split; [|done]. cbn.
    pose proof (Hl i a (list_elem_of_further _ _ _ Hj)). congruence. }
  split_and!; [|done|].
  - unfold mbind, proc_bind, remove_document, mbind, proc_bind, get_state. cbn [fst].
    rewrite collection_with. destruct (lk_find _ c) as [|d ds] eqn:Hf.
    + assert (Hin : (i, e) ∈ lk_find (fun j _ => j =? i) c) by (apply elem_find; split; [done|apply Z.eqb_refl]).
      rewrite Hf in Hin. by apply elem_of_nil in Hin.
    + rewrite update_with. exact Hrun.
  - intros k. change (removed c ((i, e) :: l)) with (removed (lk_remove i c) l).
    rewrite Hcon, (contents_remove i e) by done. rewrite fmap_cons. cbn [compose snd].
    rewrite (bool_decide_ext (k ∈ key_of e :: (key_of ∘ snd <$> l)) (k = key_of e \/ k ∈ key_of ∘ snd <$> l))
      by apply elem_of_cons.
    destruct (decide (k = key_of e)) as [->|Hne].
    + rewrite lookup_delete_eq, (bool_decide_eq_true_2 (_ \/ _)) by by left. by case_bool_decide.
    + rewrite lookup_delete_ne by done.
      by rewrite (bool_decide_ext (k = key_of e \/ k ∈ key_of ∘ snd <$> l) (k ∈ key_of ∘ snd <$> l)) by tauto.
Qed.

(** The end of a failed batch brings the map back. *)
Lemma rolled_back stale account table m c s used :
  let name := getTableCollectionName account table in
  undoable m c s.(transactionRollbackTheseEntities) s.(transactionDeleteTheseEntities) used ->
  s.(collections) !! name = Some c ->
  exists c', keyed c' /\ contents c' = m /\
    endBatchTransaction stale account table false s = (Ok tt, set_transaction [] [] (with_coll name c' s)).
Proof.
  intros name [Hc Hu Hd Hrb Hdl Hrest] Hname.
  destruct (restored_all m s.(transactionRollbackTheseEntities) c Hc Hrb) as (Hk1&Hcon1&Hdocs1).
  set (c1 := foldl restored c s.(transactionRollbackTheseEntities)) in *.
  assert (Hs : s = with_coll name c s).
  { unfold with_coll, set_collections. rewrite insert_id by done. by destruct s. }
  destruct (removed_all stale name s.(transactionDeleteTheseEntities) c1 s) as (Hrun&Hk2&Hcon2); [done|done| |].
  { intros i e Hin. destruct (Hdl i e Hin) as [Hi Hno]. apply Hdocs1; [done|].
    intros (a&Ha&Hin')%list_elem_of_fmap. rewrite Ha, (Hrb a Hin') in Hno. done. }
  exists (removed c1 s.(transactionDeleteTheseEntities)). split_and!; [done| |].
  - apply map_eq. intros k. rewrite Hcon2, Hcon1. case_bool_decide as H1; [|case_bool_decide as H2].
    + apply list_elem_of_fmap in H1 as ([i e]&->&Hin). by destruct (Hdl i e Hin).
    + done.
    + apply Hrest. unfold keys_of. rewrite elem_of_app. tauto.
  - unfold endBatchTransaction. fold name. unfold mbind at 1 2, proc_bind at 1 2, get_state. cbn [fst].
    rewrite Hname. unfold mbind, proc_bind. rewrite Hs at 2. rewrite rollback_runs. fold c1.
    by rewrite Hrun.
Qed.

(** *** Whole batches *)

(** The operations of a batch up to the first that fails. *)
Fixpoint run_batch account table batchId rid (ops : list entity_op) : proc db exn unit :=
  match ops with
  | [] => mret tt
  | op :: ops => _ ← run_op account table batchId rid op; run_batch account table batchId rid ops
  end.

(** A batch: the exception of the operation that failed is its result. *)
Definition finished_batch stale account table batchId rid (ops : list entity_op) : proc db exn (res unit) :=
  fun s =>
    let (r, s) := run_batch account table batchId rid ops s in
    (_ ← endBatchTransaction stale account table (is_ok r); mret r) s.

Definition entity_batch stale account table batchId rid (ops : list entity_op) : proc db exn (res unit) :=
  _ ← beginBatchTransaction; finished_batch stale account table batchId rid ops.

Fixpoint spec_batch (rid : option string) (ops : list entity_op) m : res (gmap key Entity) :=
  match ops with
  | [] => Ok m
  | op :: ops =>
      let (r, m') := spec_op rid op m in
      match r with Ok _ => spec_batch rid ops m' | Throw e => Throw e end
  end.

Definition answer {A} (r : res A) : res unit := match r with Ok _ => Ok tt | Throw e => Throw e end.

(** A state in a batch: [s0] is the state at its beginning, [c] the collection now. *)
Record in_batch (account table name : string) m (s0 s : db) c (used : list key) : Prop := {
  ib_resolve : resolve account table s.(collections) = Some name;
  ib_collections : s.(collections) = <[name := c]> s0.(collections);
  ib_undoable : undoable m c s.(transactionRollbackTheseEntities) s.(transactionDeleteTheseEntities) used;
  ib_tables : s.(tables) = s0.(tables);
  ib_services : s.(services) = s0.(services)
}.

Lemma resolve_insert {A} account table name (x : A) (v : gmap string A) :
  resolve account table v = Some name -> is_Some (v !! name) ->
  resolve account table (<[name := x]> v) = Some name.
Proof.
  intros Hn Hc. rewrite <- Hn. unfold resolve, defined in *.
  destruct (decide (name = getTableCollectionName account (toLowerCase table))) as [->|Hne1].
  { rewrite lookup_insert_eq. by destruct Hc as [? ->]. }
  rewrite lookup_insert_ne by done. destruct (_ !! getTableCollectionName account (toLowerCase table)); [done|].
  destruct (decide (name = getTableCollectionName account table)) as [->|Hne2];
    [rewrite lookup_insert_eq; by destruct Hc as [? ->]|by rewrite lookup_insert_ne].
Qed.

(** An operation on an entity no other operation of the batch is on. *)
Lemma run_op_in_batch (account table : string) batchId (rid : option string) name op m s0 s c used :
  nonempty batchId = true ->
  in_batch account table name m s0 s c used -> (forall k, op_key op = Some k -> k ∉ used) ->
  exists c' s' used',
    run_op account table batchId rid op s = ((spec_op rid op (contents c)).1, s') /\
    in_batch account table name m s0 s' c' used' /\
    contents c' = (spec_op rid op (contents c)).2 /\
    (forall k, k ∈ used' -> k ∈ used \/ op_key op = Some k).
Proof.
  intros Hb [Hn Hcs Hun Ht Hsv] Hfresh.
  assert (Hc : s.(collections) !! name = Some c) by (rewrite Hcs; apply lookup_insert_eq).
  destruct (op_implements account table batchId rid name c s Hn Hc (un_keyed _ _ _ _ _ Hun) op)
    as (c'&rb&dl&Hop&Hch&Hcon).
  assert (Htr : tracks_insert batchId = true /\ tracks_rollback batchId = true)
    by (by destruct batchId as [[]|]). destruct Htr as [Hti Htb].
  assert (Hun' : exists used', undoable m c' (s.(transactionRollbackTheseEntities) ++ rb)
      (s.(transactionDeleteTheseEntities) ++ dl) used' /\
      forall k, k ∈ used' -> k ∈ used \/ op_key op = Some k).
  { destruct (op_key op) as [k|].
    - exists (k :: used). split; [apply (undoable_step m c _ _ used k c'); auto|].
      intros k' [->|Hk']%elem_of_cons; auto.
    - inversion Hch; subst. rewrite !app_nil_r. exists used. auto. }
  destruct Hun' as (used'&Hun'&Hused). exists c', (changed batchId name c' rb dl s), used'.
  split_and!; [done| |done|done]. split; unfold changed; cbn; [|by rewrite Hcs, insert_insert_eq| |done..].
  - apply resolve_insert; [done|]. by eexists.
  - by rewrite Hti, Htb.
Qed.

Lemma run_batch_in_batch account table batchId (rid : option string) name ops m s0 s c used :
  nonempty batchId = true ->
  in_batch account table name m s0 s c used ->
  NoDup (omap op_key ops) -> (forall k, k ∈ omap op_key ops -> k ∉ used) ->
  exists c' s' used',
    run_batch account table batchId rid ops s = (answer (spec_batch rid ops (contents c)), s') /\
    in_batch account table name m s0 s' c' used' /\
    (forall m', spec_batch rid ops (contents c) = Ok m' -> contents c' = m').
Proof.
  intros Hb. revert s c used. induction ops as [|op ops IH]; intros s c used Hin Hnd Hfresh.
  { exists c, s, used. split_and!; [done..|]. by intros m' [= <-]. }
  cbn [run_batch spec_batch].
  edestruct (run_op_in_batch account table batchId rid name op) as (c1&s1&used1&Hop&Hin1&Hcon&Hused1); [done..| |].
  { intros k Hk. apply Hfresh. cbn. rewrite Hk. left. }
  destruct (spec_op rid op (contents c)) as [r1 m1]. cbn [fst snd] in Hop, Hcon. subst m1.
  unfold mbind, proc_bind. rewrite Hop. destruct r1 as [o|e]; [|by exists c1, s1, used1].
  apply (IH s1 c1 used1); [done| |]; cbn in Hnd, Hfresh.
  - destruct (op_key op); [by apply NoDup_cons in Hnd as [_ Hnd]|done].
  - intros k Hk [Hu|Hu]%Hused1.
    + apply (Hfresh k); [|done]. destruct (op_key op); [by right|done].
    + rewrite Hu in Hnd. by apply NoDup_cons in Hnd as [? _].
Qed.

(** The beginning of a batch. *)
Lemma in_batch_begin account table name s c :
  resolve account table s.(collections) = Some name -> s.(collections) !! name = Some c -> keyed c ->
  s.(transactionRollbackTheseEntities) = [] -> s.(transactionDeleteTheseEntities) = [] ->
  in_batch account table name (contents c) s s c [].
Proof.
  intros Hn Hc Hk Hrb Hdl. split; [done|by rewrite insert_id| |done..]. rewrite Hrb, Hdl.
  split; [done|by intros k ?%elem_of_nil|constructor|by intros e ?%elem_of_nil|by intros i e ?%elem_of_nil|done].
Qed.

(** Its end: what a batch leaves when it succeeds, and when it does not. *)
Lemma batch_end (stale : Z -> res unit) (account table : string) (m : gmap key Entity) (s0 s : db) c used (ok : bool) :
  let name := getTableCollectionName account table in
  in_batch account table name m s0 s c used -> all_keyed s0 ->
  exists s', endBatchTransaction stale account table ok s = (Ok tt, s') /\
    view s' = <[name := if ok then contents c else m]> (view s0) /\
    all_keyed s' /\ s'.(tables) = s0.(tables) /\ s'.(services) = s0.(services) /\
    s'.(transactionRollbackTheseEntities) = [] /\ s'.(transactionDeleteTheseEntities) = [].
Proof.
  intros name [Hn Hcs Hun Ht Hsv] Hs0. destruct ok.
  - exists (set_transaction [] [] s). split; [done|]. cbn. split_and!; [| |done..].
    + unfold view. cbn. by rewrite Hcs, fmap_insert.
    + unfold all_keyed. cbn. rewrite Hcs. apply map_Forall_insert_2; [apply Hun|exact Hs0].
  - assert (Hc : s.(collections) !! name = Some c) by (rewrite Hcs; apply lookup_insert_eq).
    destruct (rolled_back stale account table m c s used Hun Hc) as (c2&Hk2&Hcon2&Hend).
    eexists. split; [exact Hend|]. cbn. split_and!; [| |done..].
    + unfold view, with_coll. cbn. by rewrite Hcs, insert_insert_eq, fmap_insert, Hcon2.
    + unfold all_keyed, with_coll. cbn. rewrite Hcs, insert_insert_eq.
      apply map_Forall_insert_2; [done|exact Hs0].
Qed.

End Batch.

(** A batch is all or nothing: with operations on different entities of one table, if every
    operation succeeds, the table is changed by all of them in order, if one fails,
    the table holds what it held before the batch, whatever the operations before it inserted,
    replaced, merged or deleted; the answer is the failure's, other tables are
    untouched and the lists that undo the batch are empty again. The table must be
    found under the name the batch gives it. *)
Theorem batch_atomic {coll} `{LokiLaws coll} {P} stale account table batchId (rid : option string) ops (s : TableDb coll P) :
  let name := getTableCollectionName account table in
  all_keyed s ->
  s.(transactionRollbackTheseEntities) = [] -> s.(transactionDeleteTheseEntities) = [] ->
  nonempty batchId = true ->
  resolve account table s.(collections) = Some name ->
  NoDup (omap op_key ops) ->
  let m := view s !!! name in
  let (r, s') := entity_batch stale account table batchId rid ops s in
  r = Ok (answer (spec_batch rid ops m)) /\
  view s' = <[name := match spec_batch rid ops m with Ok m' => m' | Throw _ => m end]> (view s) /\
  all_keyed s' /\ s'.(tables) = s.(tables) /\ s'.(services) = s.(services) /\
  s'.(transactionRollbackTheseEntities) = [] /\ s'.(transactionDeleteTheseEntities) = [].
Proof.
  intros name Hs Hrb Hdl Hb Hn Hnd m.
  destruct (resolve_some _ _ _ _ Hn) as [c Hc]. pose proof (Hs _ _ Hc) as Hk.
  assert (Hm : m = contents c).
  { unfold m, view. apply lookup_total_correct. by rewrite lookup_fmap, Hc. }
  rewrite Hm. pose proof (in_batch_begin account table name s c Hn Hc Hk Hrb Hdl) as Hin.
  destruct (run_batch_in_batch account table batchId rid name ops (contents c) s s c [])
    as (c'&s1&used&Hrun&Hin1&Hok); [done..|by intros k _ ?%elem_of_nil|].
  destruct (batch_end stale account table (contents c) s s1 c' used (is_ok (answer (spec_batch rid ops (contents c)))) Hin1 Hs)
    as (s'&Hend&Hv&Hrest).
  unfold entity_batch, finished_batch, mbind at 1, proc_bind at 1, beginBatchTransaction, mbind at 1, proc_bind at 1, get_state.
  rewrite Hrb, Hdl. cbn [length Nat.eqb negb orb mret proc_ret]. rewrite Hrun. unfold mbind, proc_bind. rewrite Hend.
  split; [done|]. split; [|done]. rewrite Hv. destruct (spec_batch rid ops (contents c)) as [m'|e]; cbn; [|done].
  by rewrite (Hok m').
Qed.

(** ** Witnesses *)

Definition w_failing : list entity_op :=
  [DeleteEntity (Some (js "p")) (Some (js "a")) (js "*"); InsertEntity (w_entity "c" "three");
   UpsertEntity true (w_entity "b" "four") None; UpsertEntity false (w_entity "d" "five") (Some (js "*"))].

(** The fourth operation of the batch fails; the three before it are undone. *)
Lemma batch_atomic_witness :
  spec_batch None w_failing (view w_filled !!! "acc$items"%string)
    = Throw (TableErrors.getEntityNotFound None) /\
  let (r, s') := entity_batch (fun _ => Ok tt) "acc" "items" (Some "batch"%string) None w_failing w_filled in
  r = Ok (Throw (TableErrors.getEntityNotFound None)) /\ view s' = view w_filled.
Proof.
  assert (Hspec : spec_batch None w_failing (view w_filled !!! "acc$items"%string)
    = Throw (TableErrors.getEntityNotFound None)) by (vm_compute; reflexivity).
  split; [exact Hspec|].
  pose proof (batch_atomic (fun _ => Ok tt) "acc" "items" (Some "batch"%string) None w_failing w_filled
    w_filled_keyed eq_refl eq_refl eq_refl eq_refl) as Hat.
  cbv zeta in Hat. change (getTableCollectionName "acc" "items") with "acc$items"%string in Hat.
  destruct (entity_batch _ _ _ _ _ _ _) as [r s'].
  destruct Hat as (Hr&Hv&_); [apply (bool_decide_unpack _); vm_compute; exact I|].
  rewrite Hspec in Hr, Hv. split; [exact Hr|]. rewrite Hv. apply insert_id. vm_compute. reflexivity.
Defined.

(** A batch whose URLs spell the table with another case than the table was created with
    is not undone when it fails: its operations find the table by the name in lower case, the
    rollback looks for the name as it was given and finds none, and the lists
    are emptied. *)
Theorem mixed_case_batch_not_rolled_back stale :
  let batch := [InsertEntity (w_entity "c" "three"); UpsertEntity true (w_entity "d" "five") (Some (js "*"))] in
  exists s', entity_batch stale "acc" "Items" (Some "batch"%string) None batch w_filled
    = (Ok (Throw (TableErrors.getEntityNotFound None)), s') /\
  (view s' !!! "acc$items"%string) !! key_of (w_entity "c" "three") = Some (stamp (w_entity "c" "three")) /\
  s'.(transactionRollbackTheseEntities) = [] /\ s'.(transactionDeleteTheseEntities) = [].
Proof. eexists. split; [vm_compute; reflexivity|]. vm_compute. by split_and!. Qed.
