(* ===== verification/TablePages.v ===== *)
(** * TablePages: the pages of a query of entities

    A query sorts what its filter accepts by the keys, and its continuation is the
    key of the first entity that is not on the page, in base64: the pages cover the
    answer ([query_pages_complete]). *)

From S2P Require Import Prelude Errors Extents Loki Utf8 Texts JsValues TableErrors TableEntities TableQuery TableStore TableStoreSpec.
From Stdlib Require String.
Open Scope Z_scope.
Open Scope azurite_scope.

(** ** The pages of a query *)

(** The order of the answers. *)
Definition key_ltb (a b : key) : bool :=
  text_ltb a.1 b.1 || ((a.1 === b.1) && text_ltb a.2 b.2).
Definition key_lt (a b : Entity) : Prop := key_ltb (key_of a) (key_of b) = true.

Lemma key_ltb_irrefl a : key_ltb a a = false.
Proof. unfold key_ltb. by rewrite !text_ltb_irrefl, andb_false_r. Qed.

Lemma key_ltb_spec a b :
  key_ltb a b = true <-> text_ltb a.1 b.1 = true \/ (a.1 = b.1 /\ text_ltb a.2 b.2 = true).
Proof. unfold key_ltb. by rewrite orb_true_iff, andb_true_iff, bool_decide_eq_true. Qed.

Lemma key_ltb_trans a b c : key_ltb a b = true -> key_ltb b c = true -> key_ltb a c = true.
Proof.
  rewrite !key_ltb_spec. intros [H1|[E1 H1]] [H2|[E2 H2]].
  - left. by eapply text_ltb_trans.
  - left. by rewrite <- E2.
  - left. by rewrite E1.
  - right. split; [congruence|]. by eapply text_ltb_trans.
Qed.

Lemma key_ltb_trichotomy a b : key_ltb a b = true \/ a = b \/ key_ltb b a = true.
Proof.
  rewrite !key_ltb_spec. destruct a as [p r], b as [q t]. cbn.
  destruct (text_ltb_trichotomy p q) as [?|[->|?]]; [by left; left| |by right; right; left].
  destruct (text_ltb_trichotomy r t) as [?|[->|?]]; [left; by right|by right; left|right; right; by right].
Qed.

Lemma key_ltb_asym a b : key_ltb a b = true -> key_ltb b a = false.
Proof.
  intros H1. destruct (key_ltb b a) eqn:H2; [|done].
  pose proof (key_ltb_trans _ _ _ H1 H2) as H. by rewrite key_ltb_irrefl in H.
Qed.

Lemma key_le_spec x y : key_le x y = negb (key_ltb (key_of y.2) (key_of x.2)).
Proof.
  unfold key_le, key_ltb, key_of. cbn. destruct (text_ltb _.(PartitionKey) _); [done|]. cbn.
  case_bool_decide as H1; [by rewrite bool_decide_eq_true_2|by rewrite bool_decide_eq_false_2 by congruence].
Qed.

Lemma key_le_total x y : key_le x y || key_le y x = true.
Proof.
  rewrite !key_le_spec, <- negb_andb, negb_true_iff, andb_false_iff.
  destruct (key_ltb (key_of y.2) (key_of x.2)) eqn:H; [right; by apply key_ltb_asym|by left].
Qed.

Lemma key_le_trans x y z : key_le x y = true -> key_le y z = true -> key_le x z = true.
Proof.
  rewrite !key_le_spec, !negb_true_iff. intros H1 H2.
  destruct (key_ltb (key_of z.2) (key_of x.2)) eqn:H; [|done].
  destruct (key_ltb_trichotomy (key_of x.2) (key_of y.2)) as [H3|[H3|H3]]; [|congruence..].
  pose proof (key_ltb_trans _ _ _ H H3). congruence.
Qed.

(** What the second predicate of a query keeps. *)
Lemma after_key (k : option key) e :
  after_continuation (fst <$> k) (snd <$> k) e
  = match k with Some k => negb (key_ltb (key_of e) k) | None => true end.
Proof.
  unfold after_continuation. destruct k as [[p r]|]; cbn; [|done].
  rewrite (bool_decide_ext (Some p = Some e.(PartitionKey)) (e.(PartitionKey) = p)) by (split; congruence).
  unfold key_ltb, key_of, text_leb. cbn. destruct (text_ltb p e.(PartitionKey)) eqn:H1.
  - rewrite (text_ltb_asym _ _ H1). case_bool_decide; [subst; by rewrite text_ltb_irrefl in H1|done].
  - case_bool_decide as H2; [subst; by rewrite text_ltb_irrefl, andb_true_r|].
    destruct (text_ltb_trichotomy p e.(PartitionKey)) as [H|[H|H]]; [congruence..|].
    by rewrite H, andb_false_r.
Qed.

Section Pages.
Context {coll : Type -> Type} `{LokiLaws coll} {P : Type}.
Context (date_of : value -> option Z).
Implicit Types (l : list (Z * Entity)) (s : TableDb coll P).

Definition strictly l : Prop := StronglySorted (fun x y => key_lt x.2 y.2) l.

Lemma strictly_unique l1 l2 : strictly l1 -> strictly l2 -> l1 ≡ₚ l2 -> l1 = l2.
Proof.
  intros H1 H2 Hp. apply (StronglySorted_unique_strong (fun x y => key_lt x.2 y.2)); [|done..].
  intros x y _ _ Hxy Hyx. pose proof (key_ltb_asym _ _ Hxy). unfold key_lt in Hyx. congruence.
Qed.

(** Sorting documents with different keys. *)
Lemma sort_strictly l : NoDup ((key_of ∘ snd) <$> l) -> strictly (lk_sort key_le l).
Proof.
  intros Hnd. pose proof (sort_sorted key_le l key_le_total key_le_trans) as Hs.
  rewrite <- (sort_perm key_le l) in Hnd.
  induction Hs as [|x l' Hl IH Hx]; [constructor|]. apply NoDup_cons in Hnd as [Hx' Hnd].
  constructor; [by apply IH|]. rewrite Forall_forall in *. intros y Hy. pose proof (Hx y Hy) as Hle.
  rewrite key_le_spec, negb_true_iff in Hle. unfold key_lt.
  destruct (key_ltb_trichotomy (key_of x.2) (key_of y.2)) as [?|[He|?]]; [done| |congruence].
  destruct Hx'. cbn. rewrite He. apply list_elem_of_fmap. by exists y.
Qed.

(** The part of a sorted list from a key on. *)
Lemma strictly_from l i d :
  strictly l -> l !! i = Some d ->
  List.filter (fun x => negb (key_ltb (key_of x.2) (key_of d.2))) l = drop i l.
Proof.
  intros Hl. revert i. induction Hl as [|x l Hl IH Hx]; intros i Hi; [done|].
  rewrite Forall_forall in Hx. destruct i as [|i]; cbn in Hi |- *.
  - injection Hi as ->. rewrite key_ltb_irrefl. cbn. f_equal. clear -Hx. revert Hx.
    induction l as [|y l IH]; intros Hx; [done|]. cbn.
    rewrite (key_ltb_asym _ _ (Hx y (list_elem_of_here _ _))). cbn. f_equal. apply IH.
    intros z Hz. apply Hx. by right.
  - assert (Hd : d ∈ l) by by eapply list_elem_of_lookup_2.
    rewrite (Hx d Hd). cbn. by apply IH.
Qed.

Lemma filter_of (p : Z * Entity -> bool) l : List.filter p l = filter (fun d => p d = true) l.
Proof.
  induction l as [|d l IH]; [done|]. cbn [List.filter]. rewrite filter_cons, <- IH. destruct (p d) eqn:Hd.
  - by rewrite decide_True.
  - by rewrite decide_False by congruence.
Qed.

(** Selecting the documents from a key on, and then sorting, drops the ones before. *)
Lemma sort_from l i d :
  NoDup ((key_of ∘ snd) <$> l) -> lk_sort key_le l !! i = Some d ->
  lk_sort key_le (List.filter (fun x => negb (key_ltb (key_of x.2) (key_of d.2))) l)
  = drop i (lk_sort key_le l).
Proof.
  intros Hnd Hi. pose proof (sort_strictly l Hnd) as Hl. apply strictly_unique.
  - apply sort_strictly. rewrite filter_of. eapply sublist_NoDup; [exact Hnd|].
    apply fmap_sublist, sublist_filter.
  - eapply StronglySorted_app_1_r. by rewrite (take_drop i).
  - rewrite sort_perm, <- (strictly_from _ i d Hl Hi), !filter_of. by rewrite sort_perm.
Qed.

(** *** One page *)

Context (f : Entity -> res bool) (c : coll Entity) (Hk : keyed c).
Context (Htotal : forall i e, docs c !! i = Some e -> exists b, f e = Ok b).

Definition accepts (e : Entity) : bool := match f e with Ok b => b | Throw _ => false end.

Lemma where_total l :
  (forall d, d ∈ l -> exists b, f d.2 = Ok b) -> where_ f l = Ok (List.filter (fun d => accepts d.2) l).
Proof.
  induction l as [|d l IH]; intros Hl; cbn; [done|].
  destruct (Hl d (list_elem_of_here _ _)) as [b Hb]. unfold accepts at 1. rewrite Hb. cbn.
  rewrite IH by (intros d' Hd'; apply Hl; by right). by destruct b.
Qed.

Definition selected : list (Z * Entity) := List.filter (fun d => accepts d.2) (lk_find (fun _ _ => true) c).

(** The whole answer, in order. *)
Definition in_key_order : list (Z * Entity) := lk_sort key_le selected.

Lemma elem_of_selected i e : (i, e) ∈ selected <-> docs c !! i = Some e /\ f e = Ok true.
Proof.
  unfold selected. rewrite filter_of, list_elem_of_filter, elem_find. unfold accepts. cbn. split.
  - intros [Ha [Hi _]]. split; [done|]. destruct (f e) as [b|]; congruence.
  - intros [Hi ->]. done.
Qed.

Lemma selected_keys : NoDup ((key_of ∘ snd) <$> selected).
Proof.
  apply NoDup_fmap_2_strong.
  - intros [i a] [j b] [Hi _]%elem_of_selected [Hj _]%elem_of_selected Hab. cbn in Hab.
    pose proof (Hk _ _ _ _ Hi Hj Hab). congruence.
  - unfold selected. rewrite filter_of. apply NoDup_filter, (NoDup_fmap_1 fst), NoDup_find.
Qed.

Context (account table name : string) (rid : option string) (opts : QueryOptions) (s : TableDb coll P).
Context (Hn : resolve account table s.(collections) = Some name) (Hc : s.(collections) !! name = Some c).
Context (Hf : generateQueryForPersistenceLayer date_of rid opts.(filter_) = Ok f).
Context (Htop : 0 < getMaxResultsOption opts.(top)).
Context (Hwf : forall i e, docs c !! i = Some e ->
  well_formed e.(PartitionKey) = true /\ well_formed e.(RowKey) = true).

(** A page begins at a key. *)
Definition continuation (k : option key) : option text * option text :=
  (encodeContinuationHeader ∘ fst <$> k, encodeContinuationHeader ∘ snd <$> k).

Definition begins (i : nat) (k : option key) : Prop :=
  match k with
  | None => i = 0%nat
  | Some k => exists d, in_key_order !! i = Some d /\ key_of d.2 = k
  end.

Lemma decode_continuation (g : key -> text) (k : option key) :
  (forall k', k = Some k' -> well_formed (g k') = true) ->
  decodeContinuationHeader <$> (encodeContinuationHeader ∘ g <$> k) = g <$> k.
Proof.
  destruct k as [k|]; cbn; [|done]. intros Hg. f_equal.
  unfold decodeContinuationHeader, encodeContinuationHeader. cbn. apply base64_text. by apply Hg.
Qed.

Lemma page_runs i k :
  begins i k ->
  queryTableEntities date_of account table opts (continuation k).1 (continuation k).2 rid s
  = (Ok (adjustQueryResultforTop
           (take (Z.to_nat (getMaxResultsOption opts.(top) + 1)) (drop i in_key_order.*2))
           (getMaxResultsOption opts.(top))), s).
Proof.
  intros Hb. unfold queryTableEntities. run. rewrite resolve_runs, Hn, Hf. cbn [continuation fst snd].
  assert (Hw : forall k', k = Some k' -> well_formed k'.1 = true /\ well_formed k'.2 = true).
  { intros k' ->. destruct Hb as ([j e]&Hd&<-). apply list_elem_of_lookup_2 in Hd.
    unfold in_key_order in Hd. rewrite sort_perm in Hd. apply elem_of_selected in Hd as [Hd _].
    exact (Hwf j e Hd). }
  rewrite !decode_continuation by (intros k' Hk'; by apply Hw).
  rewrite (collection_of name c) by done. rewrite where_total.
  2: { intros [j e] Hj%elem_find. destruct Hj as [Hj _]. by eapply Htotal. }
  fold selected. do 3 f_equal. rewrite fmap_take. f_equal. rewrite <- fmap_drop. f_equal.
  erewrite List.filter_ext by (intros d; apply after_key).
  destruct k as [k|]; cbn.
  - destruct Hb as (d&Hd&<-). by apply sort_from; [apply selected_keys|].
  - rewrite Hb, drop_0. f_equal. by induction selected as [|d l IH]; [|cbn; rewrite IH].
Qed.

Lemma adjust_fits (l : list Entity) n :
  (length l <= n)%nat -> adjustQueryResultforTop (take (S n) l) (Z.of_nat n) = (l, None, None).
Proof.
  intros Hl. unfold adjustQueryResultforTop. rewrite take_ge by lia.
  by rewrite (proj2 (Z.ltb_ge _ _)) by lia.
Qed.

Lemma adjust_cut (l : list Entity) n e :
  l !! n = Some e ->
  adjustQueryResultforTop (take (S n) l) (Z.of_nat n)
  = (take n l, (continuation (Some (key_of e))).1, (continuation (Some (key_of e))).2).
Proof.
  intros He. pose proof (lookup_lt_Some _ _ _ He) as Hlt. unfold adjustQueryResultforTop.
  destruct (page_cut l n) as (Hlen&Hcut&_); [rewrite length_take; lia|].
  rewrite (proj2 (Z.ltb_lt _ _)) by lia. rewrite Hcut, last_lookup, Hlen. cbn [Nat.pred].
  by rewrite lookup_take_lt, He by lia.
Qed.

End Pages.

(** The pages a client sees that follows the continuations. *)
Fixpoint all_pages {coll} `{Loki coll} {P} (date_of : value -> option Z) account table opts rid fuel npk nrk
    (s : TableDb coll P) : res (list Entity) :=
  match fuel with
  | O => Throw OutOfFuel
  | S fuel =>
      page ← (queryTableEntities date_of account table opts npk nrk rid s).1;
      let '(l, npk, nrk) := page in
      match npk with
      | None => Ok l
      | Some _ =>
          rest ← all_pages date_of account table opts rid fuel npk nrk s;
          Ok (l ++ rest)
      end
  end.

Section AllPages.
Context {coll : Type -> Type} `{LokiLaws coll} {P : Type} (date_of : value -> option Z).

Lemma all_pages_from f c account table name rid opts (s : TableDb coll P) fuel i k :
  keyed c -> (forall i e, docs c !! i = Some e -> exists b, f e = Ok b) ->
  resolve account table s.(collections) = Some name -> s.(collections) !! name = Some c ->
  generateQueryForPersistenceLayer date_of rid opts.(filter_) = Ok f ->
  0 < getMaxResultsOption opts.(top) ->
  (forall i e, docs c !! i = Some e -> well_formed e.(PartitionKey) = true /\ well_formed e.(RowKey) = true) ->
  begins f c i k -> (length (in_key_order f c) - i < fuel)%nat ->
  all_pages date_of account table opts rid fuel (continuation k).1 (continuation k).2 s
  = Ok (drop i (in_key_order f c).*2).
Proof.
  intros Hk Htotal Hn Hc Hf Htop Hwf. revert i k. induction fuel as [|fuel IH]; intros i k Hb Hfuel; [lia|].
  cbn [all_pages]. rewrite (page_runs date_of f c Hk Htotal account table name rid opts s Hn Hc Hf Hwf i k Hb).
  cbn [fst]. set (n := Z.to_nat (getMaxResultsOption opts.(top))).
  replace (getMaxResultsOption opts.(top)) with (Z.of_nat n) by lia.
  replace (Z.to_nat (Z.of_nat n + 1)) with (S n) by lia. assert (Hn0 : (0 < n)%nat) by lia.
  clearbody n. set (l := (in_key_order f c).*2) in *.
  destruct (drop i l !! n) as [e|] eqn:He.
  - rewrite (adjust_cut _ _ e He). 
    change ((rest ← all_pages date_of account table opts rid fuel (continuation (Some (key_of e))).1
               (continuation (Some (key_of e))).2 s; Ok (take n (drop i l) ++ rest)) = Ok (drop i l)).
    rewrite lookup_drop in He. unfold l in He. rewrite list_lookup_fmap in He.
    destruct (in_key_order f c !! (i + n)%nat) as [d|] eqn:Hd; [|done]. injection He as He.
    pose proof (lookup_lt_Some _ _ _ Hd) as Hlt.
    rewrite (IH (i + n)%nat); [|exists d; split; [done|by rewrite He]|lia]. cbn.
    by rewrite <- drop_drop, take_drop.
  - rewrite adjust_fits by (by apply lookup_ge_None in He). done.
Qed.

End AllPages.

(** C21. Following the continuations of a query, from page to page, visits every entity of the table that the
    filter accepts exactly once, in the order of the keys, for every page size, and
    ends: with more rounds than entities the pages put together are the sorted
    list of all of them. The keys must be well-formed texts, since they travel in base64 of UTF-8. *)
Theorem query_pages_complete {coll} `{LokiLaws coll} {P} date_of f account table name rid opts (s : TableDb coll P) :
  all_keyed s -> resolve account table s.(collections) = Some name ->
  generateQueryForPersistenceLayer date_of rid opts.(filter_) = Ok f ->
  (forall k e, (view s !!! name) !! k = Some e -> exists b, f e = Ok b) ->
  (forall k e, (view s !!! name) !! k = Some e -> well_formed k.1 = true /\ well_formed k.2 = true) ->
  0 < getMaxResultsOption opts.(top) ->
  exists l,
    (forall fuel, (length l < fuel)%nat ->
       all_pages date_of account table opts rid fuel None None s = Ok l) /\
    StronglySorted key_lt l /\
    (forall e, e ∈ l <-> (view s !!! name) !! key_of e = Some e /\ f e = Ok true).
Proof.
  intros Hs Hn Hf Htotal Hwf Htop. destruct (resolve_some _ _ _ _ Hn) as [c Hc].
  pose proof (Hs _ _ Hc : keyed c) as Hk.
  assert (Hv : view s !!! name = contents c).
  { apply lookup_total_correct. unfold view. by rewrite lookup_fmap, Hc. }
  rewrite Hv in *.
  assert (Hin : forall i e, docs c !! i = Some e -> contents c !! key_of e = Some e)
    by (intros i e Hi; apply contents_lookup; eauto).
  exists (in_key_order f c).*2. split_and!.
  - intros fuel Hfuel. rewrite length_fmap in Hfuel.
    apply (all_pages_from date_of f c account table name rid opts s fuel 0 None); try done; [|..|lia].
    + intros i e Hi. by apply (Htotal (key_of e)), (Hin i).
    + intros i e Hi. exact (Hwf _ _ (Hin i e Hi)).
  - pose proof (sort_strictly _ (selected_keys f c Hk)) as Hst. fold (in_key_order f c) in Hst.
    induction Hst as [|d l Hl IH Hd]; [constructor|]. constructor; [done|].
    apply Forall_fmap. exact Hd.
  - intros e. rewrite list_elem_of_fmap. split.
    + intros ([i a]&->&Ha). unfold in_key_order in Ha. rewrite sort_perm in Ha.
      apply elem_of_selected in Ha as [Hi Ha]. split; [by eapply Hin|done].
    + intros [(i&Hi&_)%contents_lookup Ha]; [|done]. exists (i, e). split; [done|].
      unfold in_key_order. rewrite sort_perm. by apply elem_of_selected.
Qed.

Lemma query_pages_complete_witness :
  exists l, (forall fuel, (length l < fuel)%nat ->
    all_pages (fun _ => None) "acc" "items" (mkQueryOptions (Some (js "RowKey ge 'a'")) (Some 1) None) None
      fuel None None w_filled = Ok l) /\
    StronglySorted key_lt l /\ w_entity "a" "one" ∈ l.
Proof.
  destruct (query_pages_complete (fun _ => None)
    (fun e => executeQuery (fun _ => None) (EntityContext e)
       (GreaterThanEqualNode (IdentifierNode (js "RowKey")) (ConstantNode (VStr (js "a")))))
    "acc" "items" "acc$items" None (mkQueryOptions (Some (js "RowKey ge 'a'")) (Some 1) None) w_filled
    w_filled_keyed eq_refl) as (l&Hl&Hs&Hin).
  - vm_compute. reflexivity.
  - intros k e _. eexists. reflexivity.
  - intros k e Hk.
    assert (Hall : forallb (fun ke => well_formed ke.1.1 && well_formed ke.1.2)
      (map_to_list (view w_filled !!! "acc$items"%string)) = true) by (vm_compute; reflexivity).
    apply elem_of_map_to_list, list_elem_of_In in Hk. rewrite forallb_forall in Hall.
    apply andb_prop. exact (Hall _ Hk).
  - reflexivity.
  - exists l. split; [exact Hl|]. split; [exact Hs|]. apply Hin. split; vm_compute; reflexivity.
Defined.
