(* ===== verification/TableRegistry.v ===== *)
(** * TableRegistry: the tables and their collections of entities

    The invariant of the database over any requests and batches: [tables_ok]. *)

From S2P Require Import Prelude Errors Extents Loki Utf8 Texts JsValues TableErrors TableEntities TableQuery TableStore TableStoreSpec TableTransactions.
From Stdlib Require String.
Open Scope Z_scope.
Open Scope azurite_scope.

(** A name without the separator after an account decides both. *)
Lemma app_cons_inj {A} (x : A) a b t u :
  a ++ x :: t = b ++ x :: u -> x ∉ t -> x ∉ u -> a = b /\ t = u.
Proof.
  revert b. induction a as [|y a IH]; intros [|z b]; cbn.
  - by intros [= ->].
  - intros [= -> ->] Ht _. destruct Ht. apply elem_of_app. right. left.
  - intros [= -> <-] _ Hu. destruct Hu. apply elem_of_app. right. left.
  - intros [= -> Heq] Ht Hu. by destruct (IH b Heq Ht Hu) as [-> ->].
Qed.

Lemma plain_no_dollar s : plain_name s = true -> Ascii.ascii_of_N 36 ∉ String.list_ascii_of_string s.
Proof.
  intros [_ Hp]%andb_prop Hin%list_elem_of_In. rewrite forallb_forall in Hp. by specialize (Hp _ Hin).
Qed.

Lemma list_ascii_app s t :
  String.list_ascii_of_string (s ++ t)%string = String.list_ascii_of_string s ++ String.list_ascii_of_string t.
Proof. induction s as [|c s IH]; [done|]. exact (f_equal (cons c) IH). Qed.

Lemma list_ascii_inj s t : String.list_ascii_of_string s = String.list_ascii_of_string t -> s = t.
Proof.
  intros Heq. rewrite <- (String.string_of_list_ascii_of_string s), <- (String.string_of_list_ascii_of_string t).
  by rewrite Heq.
Qed.

Lemma collection_name_inj a t b u :
  plain_name t = true -> plain_name u = true ->
  getTableCollectionName a t = getTableCollectionName b u -> a = b /\ t = u.
Proof.
  intros Ht Hu Heq%(f_equal String.list_ascii_of_string). unfold getTableCollectionName in Heq.
  rewrite !list_ascii_app in Heq. cbn in Heq.
  apply app_cons_inj in Heq as [Ha Hb]; [|by apply plain_no_dollar..].
  split; by apply list_ascii_inj.
Qed.

(** The words of a name of word characters: the name. *)
Lemma lower_word_char c : word_char c = true -> word_char (lower_ascii c) = true.
Proof. destruct c as [[] [] [] [] [] [] [] []]; vm_compute; congruence. Qed.

Lemma words_of_word l current :
  forallb word_char l = true -> words l current = [reverse current ++ l].
Proof.
  revert current. induction l as [|c l IH]; intros current; cbn; [by rewrite app_nil_r|].
  intros [Hc Hl]%andb_prop. rewrite Hc, IH by done. by rewrite reverse_cons, <- app_assoc.
Qed.

Lemma test_word_plain other name subject :
  plain_name name = true -> plain_name subject = true ->
  test_word other name subject = (toLowerCase name === toLowerCase subject).
Proof.
  intros Hn [_ Hs]%andb_prop. unfold test_word. rewrite Hn.
  assert (Hl : forallb word_char (String.list_ascii_of_string (toLowerCase subject)) = true).
  { induction subject as [|c s IH]; [done|]. cbn in Hs |- *. apply andb_prop in Hs as [Hc Hs].
    rewrite lower_word_char by done. by apply IH. }
  rewrite words_of_word by done. cbn. apply bool_decide_ext. rewrite list_elem_of_singleton.
  split; [apply list_ascii_inj|by intros ->].
Qed.

Section Tables.
Context {coll : Type -> Type} `{LokiLaws coll} {P : Type}.
Context (anchored_other word_other : string -> string -> bool) (stale : Z -> res unit).
Implicit Types (s : TableDb coll P).

Definition collection_name (t : Table) : string := getTableCollectionName t.(account) t.(table).

(** Names are unique up to their case in an account, and the collections of entities are those
    of the tables. *)
Record tables_ok s : Prop := {
  to_plain : forall i t, docs s.(tables) !! i = Some t -> plain_name t.(table) = true;
  to_unique : forall i j t u, docs s.(tables) !! i = Some t -> docs s.(tables) !! j = Some u ->
    t.(account) = u.(account) -> toLowerCase t.(table) = toLowerCase u.(table) -> i = j;
  to_collections : forall name, is_Some (s.(collections) !! name) <->
    exists i t, docs s.(tables) !! i = Some t /\ name = collection_name t;
  to_keyed : all_keyed s
}.

Inductive table_op :=
| CreateTable (t : Table) (rid : option string)
| DeleteTable (table account : string) (rid : option string)
| SetTableACL (account table : string) (acl : option TableACL) (rid : option string)
| EntityRequest (r : request)
| BeginBatch
| EndBatch (account table : string) (succeeded : bool).

Definition run_table_op (op : table_op) s : res unit * TableDb coll P :=
  match op with
  | CreateTable t rid => createTable word_other t rid s
  | DeleteTable table account rid => deleteTable anchored_other table account rid s
  | SetTableACL account table acl rid => setTableACL anchored_other account table acl rid s
  | EntityRequest r => let (a, s) := run_request r s in (answer a, s)
  | BeginBatch => beginBatchTransaction s
  | EndBatch account table succeeded => endBatchTransaction stale account table succeeded s
  end.

(** The handler checks the names of the tables it creates. *)
Definition creates_plain (op : table_op) : Prop :=
  match op with CreateTable t _ => plain_name t.(table) = true | _ => True end.

Lemma collection_name_unique s i j t u :
  tables_ok s -> docs s.(tables) !! i = Some t -> docs s.(tables) !! j = Some u ->
  collection_name t = collection_name u -> i = j.
Proof.
  intros Hs Hi Hj Heq. apply collection_name_inj in Heq as [Ha Ht]; [|by eapply to_plain..].
  apply (to_unique s Hs i j t u); [done..|]. by rewrite Ht.
Qed.

Lemma createTable_ok t rid s r s' :
  plain_name t.(table) = true -> tables_ok s -> createTable word_other t rid s = (r, s') -> tables_ok s'.
Proof.
  intros Hp Hs. unfold createTable, checkIfTableExists. run.
  destruct (findOne _ s.(tables)) as [d|] eqn:Hf; cbn; [by intros [= <- <-]|].
  intros [= <- <-]. pose proof (findOne_None _ _ Hf) as Hno.
  assert (Hfresh : docs s.(tables) !! (max_id s.(tables) + 1) = None).
  { apply eq_None_not_Some. intros Hx%docs_max. lia. }
  assert (Hnew : forall i u, docs s.(tables) !! i = Some u ->
    u.(account) = t.(account) -> toLowerCase t.(table) <> toLowerCase u.(table)).
  { intros i u Hi Ha Hl. specialize (Hno i u Hi). cbn in Hno.
    rewrite test_word_plain in Hno by (done || by eapply to_plain).
    by rewrite Ha, Hl, !bool_decide_eq_true_2 in Hno. }
  split; cbn.
  - intros i u. rewrite docs_insert, lookup_insert_Some. intros [[<- <-]|[_ Hi]]; [done|]. by eapply to_plain.
  - intros i j u v. rewrite docs_insert, !lookup_insert_Some.
    intros [[<- <-]|[_ Hi]] [[<- <-]|[_ Hj]] Ha Hl; [done|..].
    + by destruct (Hnew j v Hj).
    + by destruct (Hnew i u Hi).
    + by apply (to_unique s Hs i j u v).
  - intros name. rewrite docs_insert. fold (collection_name t).
    setoid_rewrite lookup_insert_Some. rewrite lookup_insert_is_Some', (to_collections s Hs). split.
    + intros [<-|(i&u&Hi&->)]; [by exists (max_id s.(tables) + 1), t; split; [left|]|].
      exists i, u. split; [|done]. right. split; [congruence|done].
    + intros (i&u&[[<- <-]|[_ Hi]]&->); [by left|right; eauto].
  - apply map_Forall_insert_2; [apply keyed_new|apply Hs].
Qed.

Lemma deleteTable_ok table account rid s r s' :
  tables_ok s -> deleteTable anchored_other table account rid s = (r, s') -> tables_ok s'.
Proof.
  intros Hs. unfold deleteTable. run.
  destruct (findOne _ s.(tables)) as [[i t]|] eqn:Hf; cbn; [|by intros [= <- <-]].
  intros [= <- <-]. apply findOne_Some in Hf as [Hi Ht].
  assert (Hacc : account = t.(TableStore.account)).
  { unfold is_table in Ht. apply andb_prop in Ht as [Ht _]. by apply bool_decide_eq_true in Ht. }
  subst account. fold (collection_name t).
  split; cbn.
  - intros j u. rewrite docs_remove. intros [_ Hj]%lookup_delete_Some. by eapply to_plain.
  - intros j k u v. rewrite docs_remove. intros [_ Hj]%lookup_delete_Some [_ Hk]%lookup_delete_Some.
    by apply (to_unique s Hs).
  - intros name. rewrite docs_remove. setoid_rewrite lookup_delete_Some.
    rewrite lookup_delete_is_Some, (to_collections s Hs). split.
    + intros [Hne (j&u&Hj&->)]. exists j, u. split; [|done]. split; [|done]. congruence.
    + intros (j&u&[Hne Hj]&->). split; [|eauto]. intros Heq. apply Hne.
      by apply (collection_name_unique s i j t u).
  - apply map_Forall_delete, Hs.
Qed.

Lemma setTableACL_ok account table acl rid s r s' :
  tables_ok s -> setTableACL anchored_other account table acl rid s = (r, s') -> tables_ok s'.
Proof.
  intros Hs. unfold setTableACL. run.
  destruct (findOne _ s.(tables)) as [[i t]|] eqn:Hf; cbn; [|by intros [= <- <-]].
  intros [= <- <-]. apply findOne_Some in Hf as [Hi _].
  assert (Hdocs : forall j u, docs (lk_update i (mkTable t.(TableStore.account) t.(TableStore.table) acl) s.(tables)) !! j
      = Some u -> exists u', docs s.(tables) !! j = Some u' /\ u.(TableStore.account) = u'.(TableStore.account) /\
                             u.(TableStore.table) = u'.(TableStore.table)).
  { intros j u. rewrite docs_update by by eexists.
    intros [[<- <-]|[_ Hj]]%lookup_insert_Some; [by exists t|by exists u]. }
  split; cbn.
  - intros j u (u'&Hj&_&->)%Hdocs. by eapply to_plain.
  - intros j k u v (u'&Hj&->&->)%Hdocs (v'&Hk&->&->)%Hdocs. by apply (to_unique s Hs).
  - intros name. rewrite (to_collections s Hs). split.
    + intros (j&u&Hj&->). rewrite docs_update by by eexists.
      destruct (decide (j = i)) as [->|Hne].
      * eexists i, _. rewrite lookup_insert_eq. split; [done|]. unfold collection_name. cbn. congruence.
      * exists j, u. by rewrite lookup_insert_ne.
    + intros (j&u&(u'&Hj&Ha&Ht)%Hdocs&->). exists j, u'. split; [done|]. unfold collection_name. congruence.
  - apply Hs.
Qed.

(** What leaves the tables alone and keeps the set of collections. *)
Lemma same_tables_ok s s' :
  tables_ok s -> s'.(tables) = s.(tables) ->
  (forall name, is_Some (s'.(collections) !! name) <-> is_Some (s.(collections) !! name)) ->
  all_keyed s' -> tables_ok s'.
Proof.
  intros Hs Ht Hc Hk. split; rewrite ?Ht; try apply Hs; [|done].
  intros name. by rewrite Hc, (to_collections s Hs).
Qed.

Lemma request_ok r s a s' : tables_ok s -> run_request r s = (a, s') -> tables_ok s'.
Proof.
  intros Hs Hrun. pose proof (request_refines r s (to_keyed s Hs)) as Hr. rewrite Hrun in Hr.
  destruct Hr as (Hv&Hk&Ht&_). apply (same_tables_ok s); [done..| |done].
  assert (Hdom : forall (x : TableDb coll P) n, is_Some (x.(collections) !! n) <-> is_Some (view x !! n)).
  { intros x n. unfold view. by rewrite lookup_fmap, fmap_is_Some. }
  intros name. rewrite !Hdom. apply (f_equal snd) in Hv. cbn in Hv. rewrite Hv. unfold spec_request.
  destruct (resolve _ _ (view s)) as [n|] eqn:Hn; [|done]. destruct (spec_op _ _ _) as [x m]. cbn.
  rewrite lookup_insert_is_Some'. split; [|by right].
  intros [<-|?]; [by eapply resolve_some|done].
Qed.

Lemma restored_keyed l (c : coll Entity) : keyed c -> keyed (foldl restored c l).
Proof.
  revert c. induction l as [|e l IH]; intros c Hc; cbn; [done|]. apply IH.
  destruct (restored_change c e Hc) as (rb&dl&Hch). by eapply keyed_change.
Qed.

Lemma removes_keyed name l (c : coll Entity) s :
  keyed c -> exists r c', keyed c' /\
    removeEntitiesAddedInBatch stale name l (with_coll name c s) = (r, with_coll name c' s).
Proof.
  revert c. induction l as [|d l IH]; intros c Hc; cbn [removeEntitiesAddedInBatch]; [by exists (Ok tt), c|].
  unfold mbind, proc_bind, remove_document, mbind, proc_bind, get_state. rewrite collection_with.
  destruct (lk_find _ c) as [|x xs].
  - unfold lift. destruct (stale d.1) as [[]|e]; [by apply IH|by exists (Throw e), c].
  - rewrite update_with. apply IH. by apply keyed_remove.
Qed.

Lemma endBatch_ok account table succeeded s r s' :
  tables_ok s -> endBatchTransaction stale account table succeeded s = (r, s') -> tables_ok s'.
Proof.
  intros Hs. unfold endBatchTransaction. set (name := getTableCollectionName account table).
  unfold mbind at 1, proc_bind at 1. destruct succeeded.
  { cbn. intros [= <- <-]. by apply (same_tables_ok s); [..|apply Hs]. }
  unfold mbind at 1, proc_bind at 1, get_state. destruct (s.(collections) !! name) as [c|] eqn:Hc.
  2: { cbn. intros [= <- <-]. by apply (same_tables_ok s); [..|apply Hs]. }
  assert (Hk : keyed c) by exact (to_keyed s Hs _ _ Hc).
  assert (Heq : s = with_coll name c s).
  { unfold with_coll, set_collections. rewrite insert_id by done. by destruct s. }
  unfold mbind, proc_bind. rewrite Heq at 2. rewrite rollback_runs.
  destruct (removes_keyed name s.(transactionDeleteTheseEntities) _ s
    (restored_keyed s.(transactionRollbackTheseEntities) c Hk)) as (r1&c'&Hk'&->).
  assert (Hok : forall s2, s2.(tables) = s.(tables) -> s2.(collections) = <[name := c']> s.(collections) ->
    tables_ok s2).
  { intros s2 Ht Hc2. apply (same_tables_ok s); [done..| |].
    - intros n. rewrite Hc2, lookup_insert_is_Some'. split; [intros [<-|?]; [by eexists|done]|by right].
    - unfold all_keyed. rewrite Hc2. apply map_Forall_insert_2; [done|apply Hs]. }
  destruct r1; intros [= <- <-]; by apply Hok.
Qed.

Lemma table_op_ok op s : creates_plain op -> tables_ok s -> tables_ok (run_table_op op s).2.
Proof.
  intros Hp Hs. destruct op as [t rid|table account rid|account table acl rid|r| |account table b]; cbn.
  - destruct (createTable _ _ _ _) eqn:Hr. by eapply createTable_ok.
  - destruct (deleteTable _ _ _ _ _) eqn:Hr. by eapply deleteTable_ok.
  - destruct (setTableACL _ _ _ _ _ _) eqn:Hr. by eapply setTableACL_ok.
  - destruct (run_request r s) eqn:Hr. by eapply request_ok.
  - unfold beginBatchTransaction. run. by destruct (_ || _).
  - destruct (endBatchTransaction _ _ _ _ _) eqn:Hr. by eapply endBatch_ok.
Qed.

End Tables.

(** C22. Over any requests on tables and entities and any batches, the tables of an
    account have different names up to case, each has its collection of entities, no collection
    outlives its table, and no collection has two entities with the same keys.
    Tables are created with names of letters, digits and underscores. *)
Theorem table_store_invariant {coll} `{LokiLaws coll} {P} anchored_other word_other stale
    (ops : list table_op) (s : TableDb coll P) :
  Forall creates_plain ops -> tables_ok s ->
  tables_ok (foldl (fun s op => (run_table_op anchored_other word_other stale op s).2) s ops).
Proof.
  intros Hops. revert s. induction Hops as [|op ops Hop Hops IH]; intros s Hs; cbn; [done|].
  by apply IH, table_op_ok.
Qed.

(** ** Witnesses *)

Definition w_history : list table_op :=
  [CreateTable (mkTable "acc" "items" None) None; CreateTable (mkTable "acc" "Items" None) None;
   EntityRequest (mkRequest "acc" "items" (Some "batch"%string) None (InsertEntity (w_entity "a" "one")));
   EndBatch "acc" "items" false; CreateTable (mkTable "acc" "other" None) None;
   DeleteTable "ITEMS" "acc" None].

Definition w_end (s : TableDb map_coll unit) : TableDb map_coll unit :=
  foldl (fun s op => (run_table_op (fun _ _ => false) (fun _ _ => false) (fun _ => Ok tt) op s).2) s w_history.

Lemma table_store_invariant_witness :
  Forall creates_plain w_history /\ tables_ok (w_end (mkTableDb lk_new lk_new ∅ [] [])).
Proof.
  assert (Hp : Forall creates_plain w_history) by (repeat constructor).
  split; [exact Hp|].
  apply (table_store_invariant (fun _ _ => false) (fun _ _ => false) (fun _ => Ok tt)); [exact Hp|].
  split; cbn.
  - intros i t Hi. discriminate Hi.
  - intros i j t u Hi. discriminate Hi.
  - intros name. split; [intros [c Hc]; discriminate Hc|intros (i&t&Hi&_); discriminate Hi].
  - apply map_Forall_empty.
Defined.

(** A table is only found in the case it was created in, unless that is lower case,
    although its name is taken in any case. *)
Example table_name_case :
  let upper := (createTable (coll := map_coll) (P := unit) (fun _ _ => false) (mkTable "acc" "Items" None) None
                  (mkTableDb lk_new lk_new ∅ [] [])).2 in
  (createTable (fun _ _ => false) (mkTable "acc" "items" None) None upper).1
    = Throw (TableErrors.getTableAlreadyExists None) /\
  (insertTableEntity "items" "acc" (w_entity "a" "one") None None upper).1
    = Throw (TableErrors.getTableNotExist None) /\
  is_ok (insertTableEntity "Items" "acc" (w_entity "a" "one") None None upper).1 = true.
Proof. vm_compute. by split_and!. Qed.
