(* ===== verification/Uris.v ===== *)
(** * Uris: the URI functions of JavaScript

    [encodeURIComponent], [decodeURIComponent] and [decodeURI] on texts. They throw a
    [URIError] on what they cannot encode or decode, an exception without fields here. *)

From S2P Require Import Prelude Errors Extents Utf8 Texts JsValues.
Open Scope Z_scope.
Open Scope azurite_scope.

(** The characters [encodeURIComponent] leaves. *)
Definition uri_unreserved (u : Z) : bool :=
  is_digit u || ((65 <=? u) && (u <=? 90)) || ((97 <=? u) && (u <=? 122))
  || bool_decide (u ∈ js "-_.!~*'()").

Definition upper_hex (v : Z) : Z := if v <? 10 then 48 + v else 55 + v.
Definition percent (b : Z) : text := [37; upper_hex (b / 16); upper_hex (b mod 16)].

Definition encodeURIComponent (s : text) : res text :=
  if well_formed s then
    Ok (mjoin ((fun c => if uri_unreserved c then [c] else mjoin (percent <$> encode c)) <$> code_points s))
  else Throw JsError.

(** A byte of a sequence, as the decoder of UTF-8 takes it; there is no replacement. *)
Definition uri_byte (st : decoder) (b : Z) : option (text * decoder) :=
  match st with
  | Start => let (out, st) := first_byte b in if out === [replacement] then None else Some (out, st)
  | Need n c lower upper =>
      if (lower <=? b) && (b <=? upper) then
        let c := c * 64 + (b - 128) in
        Some (match n with O => (units c, Start) | S n => ([], Need n c 128 191) end)
      else None
  end.

(** The escapes of the units in [kept] stay as they are. *)
Fixpoint uri_decode (kept : Z -> bool) (st : decoder) (s : text) : option text :=
  match s with
  | [] => match st with Start => Some [] | Need _ _ _ _ => None end
  | u :: s =>
      if u =? 37 then
        match s with
        | a :: b :: s =>
            match digit_value 16 a, digit_value 16 b with
            | Some x, Some y =>
                match uri_byte st (x * 16 + y) with
                | Some (out, st) =>
                    let out := match out with [v] => if kept v then [37; a; b] else out | _ => out end in
                    (app out) <$> uri_decode kept st s
                | None => None
                end
            | _, _ => None
            end
        | _ => None
        end
      else match st with
           | Start => (cons u) <$> uri_decode kept Start s
           | Need _ _ _ _ => None
           end
  end.

Definition decodeURIComponent (s : text) : res text :=
  match uri_decode (fun _ => false) Start s with Some t => Ok t | None => Throw JsError end.

Definition uri_reserved (u : Z) : bool := bool_decide (u ∈ js ";/?:@&=+$,#").
Definition decodeURI (s : text) : res text :=
  match uri_decode uri_reserved Start s with Some t => Ok t | None => Throw JsError end.

Example uri_round : (e ← encodeURIComponent (js "a b" ++ [8364; 55357; 56832]); decodeURIComponent e)
  = Ok (js "a b" ++ [8364; 55357; 56832]).
Proof. vm_compute. reflexivity. Qed.
Example uri_overlong : decodeURIComponent (js "%C0%80") = Throw JsError.
Proof. vm_compute. reflexivity. Qed.
Example uri_kept : decodeURI (js "%2Fa%20%41") = Ok (js "%2Fa A").
Proof. vm_compute. reflexivity. Qed.

(** * What is encoded is decoded

    [decodeURIComponent] takes back [encodeURIComponent] on texts without lone
    surrogates, and leaves what has no escapes. *)

From S2P Require Import Prelude Errors Extents Utf8 Texts JsValues.
Open Scope Z_scope.
Open Scope azurite_scope.

Abbreviation decoded := (uri_decode (fun _ => false) Start).

Lemma hex_value v : 0 <= v < 16 -> digit_value 16 (upper_hex v) = Some v.
Proof.
  intros Hv. assert (Hin : v ∈ seqZ 0 16) by (apply elem_of_seqZ; lia).
  revert v Hv Hin. assert (Hall : Forall (fun v => digit_value 16 (upper_hex v) = Some v) (seqZ 0 16)) by (vm_compute; repeat constructor).
  intros v _ Hin. by apply (proj1 (Forall_forall _ _) Hall).
Qed.

(** A byte in its escape. *)
Lemma uri_percent st b t :
  0 <= b < 256 ->
  uri_decode (fun _ => false) st (percent b ++ t)
  = match uri_byte st b with
    | Some (out, st) => (app out) <$> uri_decode (fun _ => false) st t
    | None => None
    end.
Proof.
  intros Hb. unfold percent. cbn [app uri_decode]. rewrite Z.eqb_refl.
  rewrite !hex_value by (Z.to_euclidean_division_equations; lia).
  replace (b / 16 * 16 + b mod 16) with b by (Z.to_euclidean_division_equations; lia).
  destruct (uri_byte st b) as [[out st']|]; [|done]. by destruct out as [|v [|]].
Qed.

Lemma uri_first b st : first_byte b = ([], st) -> uri_byte Start b = Some ([], st).
Proof. intros Hb. unfold uri_byte. rewrite Hb. by case_bool_decide. Qed.

Lemma uri_more n c lo hi x : lo <= 128 + x <= hi ->
  uri_byte (Need (S n) c lo hi) (128 + x) = Some ([], Need n (c * 64 + x) 128 191).
Proof. intros Hx. cbn [uri_byte]. decide_bytes. do 3 f_equal. lia. Qed.

Lemma uri_last c lo hi x : lo <= 128 + x <= hi ->
  uri_byte (Need 0 c lo hi) (128 + x) = Some (units (c * 64 + x), Start).
Proof. intros Hx. cbn [uri_byte]. decide_bytes. do 3 f_equal. lia. Qed.

Lemma fmap_nil (o : option text) : (app []) <$> o = o.
Proof. by destruct o. Qed.

(** The escapes of the bytes of a code point. *)
Lemma decoded_escapes c t :
  scalar c -> decoded (mjoin (percent <$> encode c) ++ t) = (app (units c)) <$> decoded t.
Proof.
  intros Hc. unfold scalar in Hc. unfold encode.
  pose proof (Z.div_mod c 64 ltac:(lia)). pose proof (Z.mod_pos_bound c 64 ltac:(lia)).
  pose proof (Z.div_mod (c / 64) 64 ltac:(lia)) as H2. pose proof (Z.mod_pos_bound (c / 64) 64 ltac:(lia)).
  pose proof (Z.div_mod (c / 4096) 64 ltac:(lia)) as H3. pose proof (Z.mod_pos_bound (c / 4096) 64 ltac:(lia)).
  rewrite Z.div_div in H2, H3 by lia. change (64 * 64) with 4096 in *. change (4096 * 64) with 262144 in *.
  destruct (Z.ltb_spec c 128); [|destruct (Z.ltb_spec c 2048); [|destruct (Z.ltb_spec c 65536)]];
    cbn [fmap list_fmap mjoin list_join]; rewrite <- ?app_assoc, app_nil_l.
  - rewrite uri_percent by lia. unfold uri_byte. rewrite first_byte_1 by lia.
    case_bool_decide as Hr; [injection Hr as ->; unfold replacement in *; lia|]. unfold units. by decide_bytes.
  - rewrite uri_percent, (uri_first _ _ (first_byte_2 (c / 64) ltac:(lia))), fmap_nil by lia.
    rewrite uri_percent, uri_last by lia. do 2 f_equal. f_equal. lia.
  - destruct (first_byte_3 (c / 4096) ltac:(lia)) as (lo&hi&Hf&Hx).
    rewrite uri_percent, (uri_first _ _ Hf), fmap_nil by lia.
    rewrite uri_percent, uri_more, fmap_nil by (lia || apply Hx; lia).
    rewrite uri_percent, uri_last by lia. do 2 f_equal. f_equal. lia.
  - destruct (first_byte_4 (c / 262144) ltac:(lia)) as (lo&hi&Hf&Hx).
    rewrite uri_percent, (uri_first _ _ Hf), fmap_nil by lia.
    rewrite uri_percent, uri_more, fmap_nil by (lia || apply Hx; lia).
    rewrite uri_percent, uri_more, fmap_nil by lia.
    rewrite uri_percent, uri_last by lia. do 2 f_equal. f_equal. lia.
Qed.

(** A unit that is no escape is kept. *)
Lemma decoded_cons u t : u <> 37 -> decoded (u :: t) = (cons u) <$> decoded t.
Proof. intros Hu. cbn [uri_decode]. by destruct (Z.eqb_spec u 37). Qed.

Lemma join_cons (c : Z) (f : Z -> text) l : mjoin (f <$> c :: l) = f c ++ mjoin (f <$> l).
Proof. done. Qed.

(** A text without lone surrogates, as its code points: scalar values whose units
    are the text. *)
Lemma code_points_units s :
  well_formed s = true -> Forall scalar (code_points s) /\ mjoin (units <$> code_points s) = s.
Proof.
  induction s as [s IH] using (induction_ltof1 _ length). unfold ltof in IH.
  destruct s as [|u s]; [done|]. cbn [well_formed code_points].
  intros [[Hu1%Z.leb_le Hu2%Z.ltb_lt]%andb_prop Hs]%andb_prop.
  destruct (is_high u) eqn:Hh.
  - destruct s as [|v s]; [done|]. apply andb_prop in Hs as [Hv Hs]. rewrite Hv, join_cons.
    destruct (IH s) as [IH1 IH2]; [cbn; lia|done|]. unfold is_high, is_low in Hh, Hv.
    apply andb_prop in Hh as [?%Z.leb_le ?%Z.leb_le]. apply andb_prop in Hv as [?%Z.leb_le ?%Z.leb_le].
    split; [constructor; [unfold scalar; lia|done]|]. rewrite IH2.
    unfold units. decide_bytes. cbn. f_equal; [|f_equal]; Z.to_euclidean_division_equations; lia.
  - apply andb_prop in Hs as [Hl Hs]. apply negb_true_iff in Hl. rewrite Hl, join_cons.
    destruct (IH s) as [IH1 IH2]; [cbn; lia|done|]. unfold is_high, is_low in Hh, Hl.
    split; [constructor; [|done]|].
    + unfold scalar. apply andb_false_iff in Hh as [?%Z.leb_gt|?%Z.leb_gt];
        apply andb_false_iff in Hl as [?%Z.leb_gt|?%Z.leb_gt]; lia.
    + rewrite IH2. unfold units. by decide_bytes.
Qed.

(** What is encoded is decoded, whatever comes after it. *)
Lemma decoded_encoded s e t :
  encodeURIComponent s = Ok e -> decoded (e ++ t) = (app s) <$> decoded t.
Proof.
  unfold encodeURIComponent. destruct (well_formed s) eqn:Hs; [|done]. intros [= <-].
  destruct (code_points_units s Hs) as [Hc Hu]. clear Hs. revert Hc Hu. generalize (code_points s).
  intros l Hc <-. induction Hc as [|c l Hc _ IH]; [symmetry; apply fmap_nil|].
  rewrite !join_cons, <- !app_assoc. destruct (uri_unreserved c) eqn:Hun.
  - assert (H37 : c <> 37) by (intros ->; vm_compute in Hun; done).
    assert (Hlow : c < 128).
    { unfold uri_unreserved, is_digit in Hun. rewrite !orb_true_iff, !andb_true_iff, !Z.leb_le in Hun.
      destruct Hun as [[[?|?]|?]|Hin%bool_decide_eq_true]; [lia..|].
      apply list_elem_of_In in Hin. vm_compute in Hin. decompose [or] Hin; subst; try lia; done. }
    cbn [app]. rewrite decoded_cons by done. rewrite IH. unfold units.
    rewrite (proj2 (Z.ltb_lt c 65536)) by lia. by destruct (decoded t).
  - rewrite decoded_escapes by done. rewrite IH. by destruct (decoded t); cbn; rewrite ?app_assoc.
Qed.

Lemma decode_encodeURIComponent s e : encodeURIComponent s = Ok e -> decodeURIComponent e = Ok s.
Proof.
  intros He. unfold decodeURIComponent. pose proof (decoded_encoded s e [] He) as H.
  rewrite app_nil_r in H. rewrite H. cbn. by rewrite app_nil_r.
Qed.
