(* ===== verification/TableHandlers.v ===== *)
(** * TableHandlers: the requests of the table service

    src/src/table/handlers/TableHandler.ts and ServiceHandler.ts with
    src/src/table/utils/utils.ts: the checks of a request, the entity it stores,
    the call of the metadata store and the response, each handler whole. The
    context of a request is a record; what the generated layer has parsed of it comes in
    [Options]. Left out are the fields of responses that echo the request (ids,
    version, date) and the log.

    [NormalizedEntity] sets the time stamp of the entity it is given; on a stored
    entity, which queries read, it sets what is there already, so that queries
    leave the store as it is. *)

From S2P Require Import Prelude Errors Extents Loki Utf8 Texts JsValues TableErrors TableEntities TableQuery TableStore Uris.
From Stdlib Require Import Ascii.
From Stdlib Require String.
Open Scope Z_scope.
Open Scope azurite_scope.

(** ** Requests and responses *)

(** What the handlers use of a request, of the HTTP server or of a batch. *)
Record IRequest := mkIRequest {
  getHeader : string -> option text;
  getQuery : string -> res (option text);
  getBody : res (option text);
  getProtocol : res text
}.

(** [TableStorageContext]; [cx_modTime] is the start time with high precision. *)
Record TableStorageContext := mkTableContext {
  cx_account : option string;
  cx_tableName : option string;
  cx_partitionKey : option text;
  cx_rowKey : option text;
  cx_contextID : option string;
  cx_modTime : text;
  cx_batchId : string;
  cx_isSecondary : bool;
  cx_request : IRequest
}.

(** The optional parameters of the handlers. *)
Record Options := mkOptions {
  tableEntityProperties : option object;
  ifMatch : option text;
  queryOptions : option QueryOptions;
  opt_nextTableName : option string;
  opt_nextPartitionKey : option text;
  opt_nextRowKey : option text
}.

Record Response := mkResponse {
  statusCode : Z;
  r_eTag : option text;
  r_body : option text;
  preferenceApplied : option text;
  r_contentType : option text;
  xMsContinuationNextPartitionKey : option text;
  xMsContinuationNextRowKey : option text
}.

Definition status_only (code : Z) (eTag : option text) : Response :=
  mkResponse code eTag None None None None None.

(** ** Constants *)

Definition DEFAULT_KEY_MAX_LENGTH : Z := 512.
Definition BODY_SIZE_MAX : Z := 1024 * 1024 * 4.
Definition ENTITY_SIZE_MAX : Z := 1024 * 1024.
Definition XML_METADATA : text := js "application/atom+xml".
Definition RETURN_NO_CONTENT : text := js "return-no-content".
Definition RETURN_CONTENT : text := js "return-content".
Definition TABLE_SERVICE_PERMISSION : string := "raud".

(** ** Annotations *)

Record IOdataAnnotations := mkAnnotations {
  odatametadata : text;
  odatatype : text;
  odataid : text;
  odataeditLink : text
}.

Record IOdataAnnotationsOptional := mkOptionalAnnotations {
  o_odatametadata : option text;
  o_odatatype : option text;
  o_odataid : option text;
  o_odataeditLink : option text
}.

Definition template (o : option text) : text := default (js "undefined") o.

Definition getOdataAnnotations (account urlPrefix : text) (table partitionKey rowKey : option text) :
    res IOdataAnnotations :=
  let urlPrefixEndWithSlash := if endsWith (js "/") urlPrefix then urlPrefix else urlPrefix ++ js "/" in
  match partitionKey with
  | Some ((_ :: _) as pk) =>
      match rowKey with
      | None => Throw TypeError
      | Some rk =>
          let keys := template table ++ js "(PartitionKey='" ++ pk ++ js "',RowKey='" ++ rk ++ js "')" in
          Ok (mkAnnotations
                (urlPrefixEndWithSlash ++ js "$metadata#" ++ template table ++ js "/@Element")
                (account ++ js "." ++ template table)
                (urlPrefixEndWithSlash ++ keys)
                keys)
      end
  | _ =>
      let link := js "Tables('" ++ template table ++ js "')" in
      Ok (mkAnnotations
            (urlPrefixEndWithSlash ++ js "$metadata#Tables"
               ++ match table with Some (_ :: _) => js "/@Element" | _ => [] end)
            (account ++ js ".Tables")
            (urlPrefixEndWithSlash ++ link)
            link)
  end.

Definition getTableOdataAnnotationsForResponse (account table urlPrefix : text) : res IOdataAnnotations :=
  getOdataAnnotations account urlPrefix (Some table) None None.

(** The annotations a level of metadata asks for. *)
Definition annotations_at (accept : text) (a : IOdataAnnotations) : IOdataAnnotationsOptional :=
  let full v := if accept === FULL_METADATA_ACCEPT then Some v else None in
  mkOptionalAnnotations
    (if (accept === MINIMAL_METADATA_ACCEPT) || (accept === FULL_METADATA_ACCEPT)
     then Some a.(odatametadata) else None)
    (full a.(odatatype)) (full a.(odataid)) (full a.(odataeditLink)).

Definition getEntityOdataAnnotationsForResponse (account table urlPrefix partitionKey rowKey accept : text) :
    res IOdataAnnotationsOptional :=
  annotation ← getOdataAnnotations account urlPrefix (Some table) (Some partitionKey) (Some rowKey);
  Ok (annotations_at accept annotation).

Definition updateTableOptionalOdataAnnotationsForResponse (account table urlPrefix accept : text) :
    res IOdataAnnotationsOptional :=
  annotation ← getTableOdataAnnotationsForResponse account table urlPrefix;
  Ok (annotations_at accept annotation).

(** A table in the response to a query: only the full level annotates it. *)
Definition getTablePropertiesOdataAnnotationsForResponse (tableName account urlPrefix accept : text) :
    res (text * IOdataAnnotationsOptional) :=
  annotation ← getTableOdataAnnotationsForResponse account tableName urlPrefix;
  let a := annotations_at accept annotation in
  Ok (tableName, mkOptionalAnnotations None a.(o_odatatype) a.(o_odataid) a.(o_odataeditLink)).

(** ** Checks *)

Definition getPayloadFormat (context : TableStorageContext) : res text :=
  formatParameter ← context.(cx_request).(getQuery) "$format";
  let format := match formatParameter with
                | Some f => Some f
                | None => context.(cx_request).(getHeader) "accept"
                end in
  let format := match format with None | Some [] => XML_METADATA | Some f => f end in
  let format := if format === js "application/json" then MINIMAL_METADATA_ACCEPT else format in
  Ok (List.filter (fun u => negb (is_space_unit u)) format).

Definition getAndCheckPayloadFormat (context : TableStorageContext) : res text :=
  format ← getPayloadFormat context;
  throw_when ((format !== NO_METADATA_ACCEPT) && (format !== MINIMAL_METADATA_ACCEPT)
              && (format !== FULL_METADATA_ACCEPT))
    (TableErrors.getAtomFormatNotSupported context.(cx_contextID));;
  Ok format.

Definition getAndCheckPreferHeader (context : TableStorageContext) : option text :=
  context.(cx_request).(getHeader) "Prefer".

Definition getAndCheckAccountName (context : TableStorageContext) : res string :=
  match context.(cx_account) with
  | None => Throw (TableErrors.getAccountNameEmpty context.(cx_contextID))
  | Some account => Ok account
  end.

Definition getAndCheckTableName (context : TableStorageContext) : res string :=
  match context.(cx_tableName) with
  | None => Throw (TableErrors.getTableNameEmpty context.(cx_contextID))
  | Some table => Ok table
  end.

(** [`${protocol}://${host}`], with the header of the host, which the literal has
    even when it is undefined. *)
Definition getOdataAnnotationUrlPrefix (context : TableStorageContext) (account : string) : res text :=
  let host := template (context.(cx_request).(getHeader) "host") ++ js "/" ++ js account in
  protocol ← context.(cx_request).(getProtocol);
  Ok (protocol ++ js "://" ++ host).

(** The status and the preference of a response to an insertion. *)
Definition updateResponsePrefer (context : TableStorageContext) (r : Response) : Response :=
  let set code p := mkResponse code r.(r_eTag) r.(r_body) (Some p) r.(r_contentType)
                      r.(xMsContinuationNextPartitionKey) r.(xMsContinuationNextRowKey) in
  match context.(cx_request).(getHeader) "Prefer" with
  | None => set 201 RETURN_CONTENT
  | Some p =>
      if p === RETURN_NO_CONTENT then set 204 RETURN_NO_CONTENT
      else if p === RETURN_CONTENT then set 201 RETURN_CONTENT
      else r
  end.

Definition updateResponseAccept (accept : text) (r : Response) : Response :=
  mkResponse r.(statusCode) r.(r_eTag) r.(r_body) r.(preferenceApplied) (Some accept)
    r.(xMsContinuationNextPartitionKey) r.(xMsContinuationNextRowKey).

Definition forbidden_unit (u : Z) : bool :=
  ((0 <=? u) && (u <=? 31)) || ((127 <=? u) && (u <=? 159)) || bool_decide (u ∈ js "/\#?").

Definition validateKey (context : TableStorageContext) (key : text) : res unit :=
  throw_when (DEFAULT_KEY_MAX_LENGTH <? Z.of_nat (length key))
    (TableErrors.getInvalidInput context.(cx_contextID));;
  throw_when (existsb forbidden_unit key) (TableErrors.getInvalidInput context.(cx_contextID));;
  Ok tt.

(** A key out of a body: what is not a string has no [match]. *)
Definition validate_body_key (context : TableStorageContext) (key : value) : res text :=
  match key with
  | VStr key => _ ← validateKey context key; Ok key
  | _ => Throw TypeError
  end.

(** The checks of a property that has a length: a string. *)
Definition check_property (context : TableStorageContext) (properties : object) (prop v : text) : res unit :=
  let typeKey := prop ++ ODATA_TYPE in
  type ← (if truthy (get typeKey properties) then
            match get typeKey properties with
            | VStr t => type ← getEdmType t; Ok (Some type)
            | _ => Throw TypeError
            end
          else Ok None);
  match type with
  | Some Binary =>
      throw_when (64 * 1024 <? Z.of_nat (length (from_base64 v)))
        (TableErrors.getPropertyValueTooLargeError context.(cx_contextID));;
      Ok tt
  | _ =>
      throw_when (32 * 1024 <? Z.of_nat (length v))
        (TableErrors.getPropertyValueTooLargeError context.(cx_contextID));;
      throw_when (bool_decide (v = []) && strict_equal (get typeKey properties) (VStr (js "Edm.DateTime")))
        (TableErrors.getInvalidInput context.(cx_contextID));;
      Ok tt
  end.

Fixpoint check_each (context : TableStorageContext) (properties rest : object) : res unit :=
  match rest with
  | [] => Ok tt
  | (prop, v) :: rest =>
      throw_when (defined (own (js "hasOwnProperty") properties)) TypeError;;
      _ ← match v with VStr s => check_property context properties prop s | _ => Ok tt end;
      check_each context properties rest
  end.

Definition checkProperties (context : TableStorageContext) (properties : object) : res unit :=
  check_each context properties properties.

Definition getUTF8ByteSize (t : text) : Z := Z.of_nat (length (Buffer_from t)).

Definition checkBodyLimit (context : TableStorageContext) : res unit :=
  body ← context.(cx_request).(getBody);
  match body with
  | Some body =>
      throw_when (BODY_SIZE_MAX <? getUTF8ByteSize body)
        (TableErrors.getRequestBodyTooLarge context.(cx_contextID));;
      Ok tt
  | None => Ok tt
  end.

Definition checkEntityLimit (context : TableStorageContext) : res unit :=
  body ← context.(cx_request).(getBody);
  match body with
  | Some body =>
      throw_when (ENTITY_SIZE_MAX <? getUTF8ByteSize body)
        (TableErrors.getEntityTooLarge context.(cx_contextID));;
      Ok tt
  | None => Ok tt
  end.

Definition removeEtagProperty (p : option object) : option object := remove (js "odata.etag") <$> p.

(** Every quote of the text follows a backslash. *)
Fixpoint quotes_escaped (before : bool) (s : text) : bool :=
  match s with
  | [] => true
  | u :: s => (negb (u =? 34) || before) && quotes_escaped (u =? 92) s
  end.

(** [etag.match(/^[wW]\/"([^"]|\\")*"$/) === null]. *)
Definition isEtagValid (etag : text) : bool :=
  match etag with
  | w :: 47 :: 34 :: rest =>
      negb (((w =? 119) || (w =? 87)) &&
            match last rest with
            | Some u => (u =? 34) && quotes_escaped false (take (length rest - 1) rest)
            | None => false
            end)
  | _ => true
  end.

Definition newTableEntityEtag (highPresModTime : text) : res text :=
  e ← encodeURIComponent highPresModTime;
  Ok (js "W/" ++ [34] ++ js "datetime'" ++ e ++ js "'" ++ [34]).

Definition createPersistedEntity (context : TableStorageContext) (properties : option object)
    (partitionKey rowKey : text) : res Entity :=
  let modTime := context.(cx_modTime) in
  eTag ← newTableEntityEtag modTime;
  Ok (mkEntity partitionKey rowKey (default [] properties) modTime eTag).

(** A key argument is [undefined] when the URL has it, which the context then keeps;
    a batch may take a key that is no string from the body of a request. *)
Definition getAndCheck (key : value) (fromContext : option text) (context : TableStorageContext) : res value :=
  if is_undefined key then
    match fromContext with
    | Some key => Ok (VStr key)
    | None => Throw (TableErrors.getPropertiesNeedValue context.(cx_contextID))
    end
  else Ok key.

Definition getAndCheckKeys (partitionKey rowKey : value) (context : TableStorageContext) :
    res (value * value) :=
  partitionKey ← getAndCheck partitionKey context.(cx_partitionKey) context;
  rowKey ← getAndCheck rowKey context.(cx_rowKey) context;
  Ok (partitionKey, rowKey).

Definition letter (c : Ascii.ascii) : bool :=
  let n := Ascii.N_of_ascii c in ((65 <=? n) && (n <=? 90))%N || ((97 <=? n) && (n <=? 122))%N.
Definition letter_or_digit (c : Ascii.ascii) : bool :=
  let n := Ascii.N_of_ascii c in letter c || ((48 <=? n) && (n <=? 57))%N.

Definition validateTableName (contextID : option string) (tableName : string) : res unit :=
  let len := String.length tableName in
  throw_when ((tableName !== EmptyString) && ((len <? 3)%nat || (63 <? len)%nat))
    (TableErrors.getOutOfRangeName contextID);;
  let matches := match String.list_ascii_of_string tableName with
                 | c :: rest => letter c && forallb letter_or_digit rest
                                && (2 <=? length rest)%nat && (length rest <=? 62)%nat
                 | [] => false
                 end in
  throw_when (negb matches && negb (String.prefix "$Metric" tableName))
    (TableErrors.getInvalidResourceName contextID);;
  throw_when (toLowerCase tableName === "tables"%string) (TableErrors.getInvalidResourceName contextID);;
  Ok tt.

(** [split(",").filter(...).map(trim)] of the selection. *)
Fixpoint split_commas (s : text) : list text :=
  match s with
  | [] => [[]]
  | u :: s =>
      if u =? 44 then [] :: split_commas s
      else match split_commas s with x :: l => (u :: x) :: l | [] => [[u]] end
  end.

Definition selectSet (o : option QueryOptions) : option (list text) :=
  match o with
  | Some o =>
      match o.(select) with
      | Some s =>
          match trim <$> List.filter (fun t => negb (Nat.eqb (length t) 0)) (split_commas s) with
          | [] => None
          | l => Some l
          end
      | None => None
      end
  | None => None
  end.

(** The annotations of one entity, put before its properties. *)
Definition entity_injections (accept eTag : text) (a : IOdataAnnotationsOptional) : list (text * text) :=
  let pair k (v : option text) := (js k, default [] v) in
  if accept === MINIMAL_METADATA_ACCEPT then
    [pair "odata.metadata" a.(o_odatametadata); (js "odata.etag", eTag)]
  else if accept === FULL_METADATA_ACCEPT then
    [pair "odata.metadata" a.(o_odatametadata); pair "odata.type" a.(o_odatatype);
     pair "odata.id" a.(o_odataid); (js "odata.etag", eTag); pair "odata.editLink" a.(o_odataeditLink)]
  else [].

(** Those of an entity in the list of a query. *)
Definition listed_injections (accept eTag : text) (a : IOdataAnnotationsOptional) : list (text * text) :=
  let pair k (v : option text) := (js k, default [] v) in
  if accept === MINIMAL_METADATA_ACCEPT then [(js "odata.etag", eTag)]
  else if accept === FULL_METADATA_ACCEPT then
    [(js "odata.etag", eTag); pair "odata.type" a.(o_odatatype); pair "odata.id" a.(o_odataid);
     pair "odata.editLink" a.(o_odataeditLink)]
  else [].

(** ** Service properties *)

Record RetentionPolicy := mkRetention { rp_enabled : bool; rp_days : option Z }.
Record Logging := mkLogging {
  lg_version : string; lg_deleteProperty : bool; lg_read : bool; lg_write : bool; lg_retention : RetentionPolicy
}.
Record Metrics := mkMetrics {
  mt_version : option string; mt_enabled : bool; mt_includeAPIs : option bool; mt_retention : option RetentionPolicy
}.
Record CorsRule := mkCors {
  allowedOrigins : string; allowedMethods : string; allowedHeaders : option string;
  exposedHeaders : option string; maxAgeInSeconds : Z
}.

(** A value of a field of the service properties. *)
Inductive ServiceProperty :=
| CorsRules (l : list CorsRule)
| LoggingProperty (l : Logging)
| MetricsProperty (m : Metrics).

Definition default_metrics : ServiceProperty :=
  MetricsProperty (mkMetrics (Some "1.0"%string) false None (Some (mkRetention false None))).
Definition default_logging : ServiceProperty :=
  LoggingProperty (mkLogging "1.0" true true true (mkRetention false None)).

(** [cors.allowedHeaders || ""] of each rule. *)
Definition fill_headers (p : ServiceProperty) : ServiceProperty :=
  match p with
  | CorsRules l =>
      CorsRules ((fun c => mkCors c.(allowedOrigins) c.(allowedMethods)
                   (Some (default EmptyString c.(allowedHeaders)))
                   (Some (default EmptyString c.(exposedHeaders))) c.(maxAgeInSeconds)) <$> l)
  | p => p
  end.

(** ** The handlers *)

Section Handlers.
Context (anchored_other word_other : string -> string -> bool) (stale : Z -> res unit).
Context (valid_date : text -> bool) (date_of : value -> option Z).
Context {coll : Type -> Type} `{Loki coll}.

Abbreviation db := (TableDb coll ServiceProperty).
Abbreviation handler := (proc db exn).

(** The entity of a request in the form it is stored; no exception of the types of
    its properties but [getInvalidInput]. *)
Definition normalized (context : TableStorageContext) (entity : Entity) : res (NormalizedEntity * Entity) :=
  match (n ← new_normalized valid_date context.(cx_modTime) entity; e ← normalize n; Ok (n, e)) with
  | Ok r => Ok r
  | Throw _ => Throw (TableErrors.getInvalidInput context.(cx_contextID))
  end.

Definition create (table : option string) (context : TableStorageContext) :
    handler (text * IOdataAnnotationsOptional * Response) :=
  accept ← lift (getAndCheckPayloadFormat context);
  account ← lift (getAndCheckAccountName context);
  match table with
  | None => throw (TableErrors.getTableNameEmpty context.(cx_contextID))
  | Some table =>
      _ ← lift (validateTableName context.(cx_contextID) table);
      _ ← createTable word_other (mkTable account table None) context.(cx_contextID);
      prefix ← lift (getOdataAnnotationUrlPrefix context account);
      a ← lift (updateTableOptionalOdataAnnotationsForResponse (js account) (js table) prefix accept);
      mret (js table, a, updateResponseAccept accept (updateResponsePrefer context (status_only 201 None)))
  end.

Definition delete_ (context : TableStorageContext) : handler Response :=
  account ← lift (getAndCheckAccountName context);
  table ← lift (getAndCheckTableName context);
  accept ← lift (getAndCheckPayloadFormat context);
  _ ← deleteTable anchored_other table account context.(cx_contextID);
  mret (updateResponseAccept accept (status_only 204 None)).

Definition no_options : QueryOptions := mkQueryOptions None None None.

(** The tables of a response, with the metadata of the list. *)
Definition query (options : Options) (context : TableStorageContext) :
    handler (option text * list (text * IOdataAnnotationsOptional) * option string * Response) :=
  account ← lift (getAndCheckAccountName context);
  accept ← lift (getAndCheckPayloadFormat context);
  result ← queryTable date_of account (default no_options options.(queryOptions)) options.(opt_nextTableName)
             context.(cx_contextID);
  prefix ← lift (getOdataAnnotationUrlPrefix context account);
  annotation ← lift (getTableOdataAnnotationsForResponse (js account) [] prefix);
  value ← lift (mapM (fun t => getTablePropertiesOdataAnnotationsForResponse (js t.(table)) (js account)
                                 prefix accept) result.1);
  let metadata := if (accept === MINIMAL_METADATA_ACCEPT) || (accept === FULL_METADATA_ACCEPT)
                  then Some annotation.(odatametadata) else None in
  mret (metadata, value, result.2, updateResponseAccept accept (status_only 200 None)).

Definition insertEntity (options : Options) (context : TableStorageContext) : handler Response :=
  account ← lift (getAndCheckAccountName context);
  table ← lift (getAndCheckTableName context);
  accept ← lift (getAndCheckPayloadFormat context);
  let prefer := getAndCheckPreferHeader context in
  _ ← lift (checkBodyLimit context);
  let missing := throw (TableErrors.getPropertiesNeedValue context.(cx_contextID)) in
  match options.(tableEntityProperties) with
  | None => missing
  | Some properties =>
      let pk := get (js "PartitionKey") properties in
      let rk := get (js "RowKey") properties in
      if bool_decide (pk = VNull) || is_undefined pk || bool_decide (rk = VNull) || is_undefined rk then missing
      else
        pk ← lift (validate_body_key context pk);
        rk ← lift (validate_body_key context rk);
        _ ← lift (checkProperties context properties);
        entity ← lift (createPersistedEntity context (removeEtagProperty (Some properties)) pk rk);
        ne ← lift (normalized context entity);
        let '(n, entity) := ne in
        _ ← insertTableEntity table account entity (Some context.(cx_batchId)) context.(cx_contextID);
        let response := status_only 201 (Some entity.(eTag)) in
        response ←
          (if match prefer with None => true | Some p => p === RETURN_CONTENT end then
             prefix ← lift (getOdataAnnotationUrlPrefix context account);
             annotation ← lift (getEntityOdataAnnotationsForResponse (js account) (js table) prefix pk rk accept);
             rawResponse ← lift (toResponseString n accept (entity_injections accept entity.(eTag) annotation) None);
             mret (mkResponse 201 (Some entity.(eTag)) (Some rawResponse) None None None None)
           else mret response);
        mret (updateResponsePrefer context (updateResponseAccept accept response))
  end.

Definition updateEntity (partitionKey rowKey : value) (options : Options)
    (context : TableStorageContext) : handler Response :=
  account ← lift (getAndCheckAccountName context);
  table ← lift (getAndCheckTableName context);
  _ ← lift (checkEntityLimit context);
  keys ← lift (getAndCheckKeys partitionKey rowKey context);
  let '(pk, rk) := keys in
  match options.(tableEntityProperties) with
  | None => throw (TableErrors.getPropertiesNeedValue context.(cx_contextID))
  | Some properties =>
      _ ← lift (checkProperties context properties);
      _ ← lift (match options.(ifMatch) with
                | None => Ok tt
                | Some m =>
                    throw_when (bool_decide (m = [])) (TableErrors.getPreconditionFailed context.(cx_contextID));;
                    throw_when ((m !== js "*") && isEtagValid m)
                      (TableErrors.getInvalidInput context.(cx_contextID));;
                    Ok tt
                end);
      pk ← lift (validate_body_key context pk);
      rk ← lift (validate_body_key context rk);
      entity ← lift (createPersistedEntity context (removeEtagProperty (Some properties)) pk rk);
      ne ← lift (normalized context entity);
      let entity := ne.2 in
      _ ← insertOrUpdateTableEntity table account entity options.(ifMatch) (Some context.(cx_batchId))
            context.(cx_contextID);
      mret (status_only 204 (Some entity.(eTag)))
  end.

Definition checkMergeIfMatch (options : Options) (context : TableStorageContext) : res unit :=
  match options.(ifMatch) with
  | Some ((_ :: _) as m) =>
      throw_when ((m !== js "*") && isEtagValid m)
        (TableErrors.getInvalidOperation context.(cx_contextID) EmptyString);;
      Ok tt
  | _ => Ok tt
  end.

Definition checkMergeRequest (options : Options) (context : TableStorageContext) (pk rk : value) :
    res (text * text) :=
  _ ← match options.(tableEntityProperties) with
      | Some properties => checkProperties context properties
      | None => Ok tt
      end;
  _ ← checkMergeIfMatch options context;
  pk ← validate_body_key context pk;
  rk ← validate_body_key context rk;
  Ok (pk, rk).

Definition mergeEntity (partitionKey rowKey : value) (options : Options)
    (context : TableStorageContext) : handler Response :=
  account ← lift (getAndCheckAccountName context);
  table ← lift (getAndCheckTableName context);
  _ ← lift (checkEntityLimit context);
  keys ← lift (getAndCheckKeys partitionKey rowKey context);
  keys ← lift (checkMergeRequest options context keys.1 keys.2);
  let '(pk, rk) := keys in
  entity ← lift (createPersistedEntity context (removeEtagProperty options.(tableEntityProperties)) pk rk);
  ne ← lift (normalized context entity);
  let entity := ne.2 in
  _ ← insertOrMergeTableEntity table account entity options.(ifMatch) (Some context.(cx_batchId))
        context.(cx_contextID);
  mret (status_only 204 (Some entity.(eTag))).

Definition mergeEntityWithMerge := mergeEntity.

(** [tableCtx.account!] and [tableCtx.tableName!]: an account that is missing is
    printed into the name of the collection, and the store takes the lower case of
    the table. No stored key equals a key that is not a string. *)
Definition deleteEntity (partitionKey rowKey : value) (ifMatch : option text) (context : TableStorageContext) :
    handler Response :=
  keys ← lift (getAndCheckKeys partitionKey rowKey context);
  let '(pk, rk) := keys in
  match ifMatch with
  | None | Some [] => throw (TableErrors.getPreconditionFailed context.(cx_contextID))
  | Some m =>
      if (m !== js "*") && isEtagValid m then throw (TableErrors.getInvalidInput context.(cx_contextID))
      else
        match context.(cx_tableName) with
        | None => throw TypeError
        | Some table =>
            let account := default "undefined"%string context.(cx_account) in
            match pk, rk with
            | VStr pk, VStr rk =>
                _ ← deleteTableEntity table account (Some pk) (Some rk) m (Some context.(cx_batchId))
                      context.(cx_contextID);
                mret (status_only 204 None)
            | _, _ =>
                _ ← getEntityCollection account table context.(cx_contextID);
                throw (TableErrors.getEntityNotFound context.(cx_contextID))
            end
        end
  end.

(** One entity of the list of a query. *)
Definition listed_entity (context : TableStorageContext) (account table prefix accept : text)
    (includes : option (list text)) (element : Entity) : res text :=
  annotation ← getEntityOdataAnnotationsForResponse account table prefix
                 element.(PartitionKey) element.(RowKey) accept;
  n ← new_normalized valid_date context.(cx_modTime) element;
  toResponseString n accept (listed_injections accept element.(eTag) annotation) includes.

Definition queryEntities (options : Options) (context : TableStorageContext) : handler Response :=
  table ← lift (getAndCheckTableName context);
  account ← lift (getAndCheckAccountName context);
  accept ← lift (getAndCheckPayloadFormat context);
  _ ← lift (checkBodyLimit context);
  result ← queryTableEntities date_of account table (default no_options options.(queryOptions))
             options.(opt_nextPartitionKey) options.(opt_nextRowKey) context.(cx_contextID);
  let '(result, nextPartitionKey, nextRowKey) := result in
  prefix ← lift (getOdataAnnotationUrlPrefix context account);
  entities ← lift (mapM (listed_entity context (js account) (js table) prefix accept
                           (selectSet options.(queryOptions))) result);
  annotation ← lift (getEntityOdataAnnotationsForResponse (js account) (js table) prefix [] [] accept);
  let metadata := match annotation.(o_odatametadata) with
                  | Some ((_ :: _) as m) => json_pair (js "odata.metadata") (stringify m) ++ js ","
                  | _ => []
                  end in
  let body := js "{" ++ metadata ++ json_pair (js "value") (js "[" ++ join_comma entities ++ js "]") ++ js "}" in
  mret (mkResponse 200 None (Some body) None (Some accept) nextPartitionKey nextRowKey).

Definition queryEntitiesWithPartitionAndRowKey (table_ : option string) (partitionKey rowKey : value)
    (options : Options) (context : TableStorageContext) : handler Response :=
  account ← lift (getAndCheckAccountName context);
  table ← lift (match table_ with
                | Some (String _ _ as t) => Ok t
                | _ => getAndCheckTableName context
                end);
  keys ← lift (getAndCheckKeys partitionKey rowKey context);
  let '(pk, rk) := keys in
  accept ← lift (getAndCheckPayloadFormat context);
  match pk, rk with
  | VStr pk, VStr rk =>
      entity ← queryTableEntitiesWithPartitionAndRowKey table account pk rk context.(cx_contextID);
      match entity with
      | None => throw (TableErrors.getEntityNotFound context.(cx_contextID))
      | Some entity =>
          prefix ← lift (getOdataAnnotationUrlPrefix context account);
          annotation ← lift (getEntityOdataAnnotationsForResponse (js account) (js table) prefix pk rk accept);
          n ← lift (new_normalized valid_date context.(cx_modTime) entity);
          rawResponse ← lift (toResponseString n accept (entity_injections accept entity.(eTag) annotation)
                                (selectSet options.(queryOptions)));
          mret (mkResponse 200 (Some entity.(eTag)) (Some rawResponse) None (Some accept) None None)
      end
  | _, _ =>
      _ ← getEntityCollection account table context.(cx_contextID);
      throw (TableErrors.getEntityNotFound context.(cx_contextID))
  end.

(** *** Access policies *)

Definition getAccessPolicy (context : TableStorageContext) : handler (list SignedIdentifier) :=
  account ← lift (getAndCheckAccountName context);
  table ← lift (getAndCheckTableName context);
  foundTable ← getTable anchored_other account table context.(cx_contextID);
  mret (default [] foundTable.(tableAcl)).

Definition permission_allowed (p : string) : bool :=
  forallb (fun c => bool_decide (c ∈ String.list_ascii_of_string TABLE_SERVICE_PERMISSION))
    (String.list_ascii_of_string p).

Definition setAccessPolicy (tableAcl : option TableACL) (context : TableStorageContext) : handler Response :=
  account ← lift (getAndCheckAccountName context);
  table ← lift (getAndCheckTableName context);
  _ ← lift (checkBodyLimit context);
  _ ← lift (match tableAcl with
            | None => Ok tt
            | Some acl =>
                throw_when (5 <? length acl)%nat (TableErrors.getInvalidXmlDocument context.(cx_contextID));;
                throw_when (existsb (fun i => negb (permission_allowed i.(si_accessPolicy).(ap_permission))) acl)
                  (TableErrors.getInvalidXmlDocument context.(cx_contextID));;
                Ok tt
            end);
  _ ← setTableACL anchored_other account table tableAcl context.(cx_contextID);
  mret (status_only 204 None).

(** *** The service *)

(** The fields that are undefined get their defaults, in the stored object too. *)
Definition with_defaults (p : ServicePropertiesModel ServiceProperty) : ServicePropertiesModel ServiceProperty :=
  mkServiceProperties p.(sp_accountName)
    (Some (default (CorsRules []) p.(sp_cors))) (Some (default default_metrics p.(sp_hourMetrics)))
    (Some (default default_logging p.(sp_logging))) (Some (default default_metrics p.(sp_minuteMetrics))).

Definition getProperties (context : TableStorageContext) : handler (ServicePropertiesModel ServiceProperty) :=
  let account := default EmptyString context.(cx_account) in
  s ← get_state;
  match findOne (fun d => d.(sp_accountName) === account) s.(services) with
  | Some (i, p) =>
      _ ← update_db (set_services (lk_update i (with_defaults p) s.(services)));
      mret (with_defaults p)
  | None => mret (with_defaults (mkServiceProperties account None None None None))
  end.

(** [has_cors]: the parsed body has the element of the rules. *)
Definition setProperties (p : ServicePropertiesModel ServiceProperty) (has_cors : res bool)
    (context : TableStorageContext) : handler Response :=
  has_cors ← lift has_cors;
  let cors := if (has_cors : bool) then p.(sp_cors) else None in
  _ ← setServiceProperties (mkServiceProperties (default EmptyString context.(cx_account))
        (fill_headers <$> cors) p.(sp_hourMetrics) p.(sp_logging) p.(sp_minuteMetrics));
  mret (status_only 202 None).

Definition getStatistics (context : TableStorageContext) : handler Response :=
  if negb context.(cx_isSecondary)
  then throw (TableErrors.getInvalidQueryParameterValue context.(cx_contextID))
  else mret (status_only 200 None).

End Handlers.
