(* ===== verification/TableHandlersSpec.v ===== *)
(** * TableHandlersSpec: what the handlers of entities do to the store

    A handler checks its request and makes at most one call of the metadata
    store, the operation its request describes ([performs]); a request that is
    refused before leaves the store as it is. *)

From S2P Require Import Prelude Errors Extents Loki Utf8 Texts JsValues TableErrors TableEntities TableStore TableStoreSpec Uris TableHandlers.
From Stdlib Require String.
Open Scope Z_scope.
Open Scope azurite_scope.

Lemma proc_bind_ret {S E A} (m : proc S E A) s : (x ← m; mret x) s = m s.
Proof. run. by destruct (m s) as [[] ?]. Qed.

Section Performs.
Context {coll : Type -> Type} `{LokiLaws coll} {P : Type}.
Context (account table : string) (batchId rid : option string).

Abbreviation db := (TableDb coll P).

Definition succeeds {A} (r : res A) : bool := match r with Ok _ => true | Throw _ => false end.

(** A request either fails and leaves the store, or makes the call [op]; it succeeds
    only if its call does. *)
Definition performs {A} (op : option entity_op) (m : proc db exn A) : Prop :=
  forall s : db,
    (exists e, m s = (Throw e, s)) \/
    (exists o, op = Some o /\
       let (answer, s') := run_op account table batchId rid o s in
       exists r, m s = (r, s') /\ (succeeds r = true -> succeeds answer = true)).

Lemma performs_throw {A} op e : performs op (throw e : proc db exn A).
Proof. intros s. left. by exists e. Qed.

Lemma performs_lift {A B} op (r : res A) (k : A -> proc db exn B) :
  (forall a, r = Ok a -> performs op (k a)) -> performs op (a ← lift r; k a).
Proof. intros Hk s. run. destruct r as [a|e]; [by apply Hk|]. left. by exists e. Qed.

(** A key that no entity has. *)
Lemma performs_missing {A} op e :
  performs op (_ ← getEntityCollection account table rid; throw e : proc db exn A).
Proof.
  intros s. left. run. rewrite resolve_runs. destruct (resolve _ _ _); eauto.
Qed.

(** The call, and what follows without the store. *)
Lemma performs_call {A B} o (m : proc db exn A) (g : A -> option Entity) (k : A -> proc db exn B) :
  (forall s, run_op account table batchId rid o s = (x ← m; mret (g x)) s) ->
  (forall a s, (k a s).2 = s) ->
  performs (Some o) (m ≫= k).
Proof.
  intros Hrun Hk s. right. exists o. split; [done|]. rewrite Hrun. run.
  destruct (m s) as [[a|e] s']; [|by exists (Throw e)].
  specialize (Hk a s'). destruct (k a s') as [r s2] eqn:Hks. cbn in Hk. subst s2. by exists r.
Qed.

End Performs.

(** ** The handlers *)

(** The entity a request stores. *)
Definition stored_entity (valid_date : text -> bool) (context : TableStorageContext) (properties : option object)
    (pk rk : text) : option Entity :=
  match (e ← createPersistedEntity context (removeEtagProperty properties) pk rk;
         normalized valid_date context e) with
  | Ok (_, e) => Some e
  | Throw _ => None
  end.

(** The operations the requests describe, for keys that are texts. *)
Definition insert_op valid_date (options : Options) (context : TableStorageContext) : option entity_op :=
  properties ← options.(tableEntityProperties);
  match get (js "PartitionKey") properties, get (js "RowKey") properties with
  | VStr pk, VStr rk => InsertEntity <$> stored_entity valid_date context (Some properties) pk rk
  | _, _ => None
  end.

Definition upsert_op valid_date (merge : bool) (pk rk : value) (options : Options) (context : TableStorageContext) :
    option entity_op :=
  match getAndCheckKeys pk rk context with
  | Ok (VStr pk, VStr rk) =>
      (fun e => UpsertEntity merge e options.(ifMatch)) <$>
        stored_entity valid_date context options.(tableEntityProperties) pk rk
  | _ => None
  end.

Definition delete_op (pk rk : value) (ifMatch : option text) (context : TableStorageContext) : option entity_op :=
  match getAndCheckKeys pk rk context, ifMatch with
  | Ok (VStr pk, VStr rk), Some m => Some (DeleteEntity (Some pk) (Some rk) m)
  | _, _ => None
  end.

Definition get_op (pk rk : value) (context : TableStorageContext) : option entity_op :=
  match getAndCheckKeys pk rk context with
  | Ok (VStr pk, VStr rk) => Some (GetEntity pk rk)
  | _ => None
  end.

Lemma validated_key context v pk : validate_body_key context v = Ok pk -> v = VStr pk.
Proof. destruct v; try done. cbn. unfold mbind, result_bind. destruct (validateKey _ _); [|done]. by intros [= <-]. Qed.

Section Handlers.
Context (valid_date : text -> bool) {coll : Type -> Type} `{LokiLaws coll}.
Implicit Types (options : Options) (context : TableStorageContext).

(** A request on a table of an account. *)
Definition addressed (account table : string) context : Prop :=
  context.(cx_account) = Some account /\ context.(cx_tableName) = Some table.

Abbreviation handled account table context op m :=
  (performs (coll := coll) (P := ServiceProperty) account table (Some context.(cx_batchId)) context.(cx_contextID) op m).

(** A step of a handler before its call. *)
Ltac handler_step :=
  first
    [ apply performs_throw
    | apply performs_missing
    | apply performs_lift; let a := fresh "a" in let Ha := fresh "Ha" in intros a Ha
    | match goal with
      | |- context [let '(_, _) := ?x in _] => is_var x; destruct x
      | |- performs _ _ _ _ _ (match ?x with _ => _ end) => let E := fresh "E" in destruct x eqn:E
      end ].
(** The part of a handler after its call. *)
Ltac handler_tail := intros; run; repeat case_match; simplify_eq; done.

Lemma stored_entity_made context properties pk rk e0 n e :
  createPersistedEntity context (removeEtagProperty properties) pk rk = Ok e0 ->
  normalized valid_date context e0 = Ok (n, e) ->
  stored_entity valid_date context properties pk rk = Some e.
Proof. intros He Hn. unfold stored_entity. rewrite He. unfold mbind, result_bind. by rewrite Hn. Qed.

Lemma merged_keys options context v w pk rk :
  checkMergeRequest options context v w = Ok (pk, rk) -> v = VStr pk /\ w = VStr rk.
Proof.
  unfold checkMergeRequest. unfold mbind, result_bind.
  destruct (match _ with Some _ => _ | None => _ end); [|done]. destruct (checkMergeIfMatch _ _); [|done].
  destruct (validate_body_key context v) eqn:Hv; [|done]. destruct (validate_body_key context w) eqn:Hw; [|done].
  intros [= <- <-]. by split; eapply validated_key.
Qed.

(** The steps up to the call, whose entity is the stored one. *)
Ltac handler :=
  intros [Hacc Htab]; unfold getAndCheckAccountName, getAndCheckTableName; rewrite ?Hacc, ?Htab;
  repeat handler_step; repeat match goal with a : _ * _ |- _ => destruct a end; simplify_eq/=;
  repeat match goal with H : checkMergeRequest _ _ _ _ = Ok _ |- _ => apply merged_keys in H as [-> ->] end;
  repeat match goal with H : validate_body_key _ _ = Ok _ |- _ => apply validated_key in H; subst end;
  try apply performs_missing.

(** Compute the operation of the request from what the steps found. *)
Ltac known :=
  repeat first [ progress cbn [mbind option_bind fmap option_fmap option_map]
               | match goal with H : _ = Ok _ |- _ => rewrite H | H : _ = Some _ |- _ => rewrite H
                 | H : _ = VStr _ |- _ => rewrite H end
               | erewrite stored_entity_made by eassumption ].

Lemma insertEntity_handled account table options context :
  addressed account table context ->
  handled account table context (insert_op valid_date options context) (insertEntity valid_date options context).
Proof.
  unfold insertEntity. handler. unfold insert_op.
  known. apply (performs_call _ _ _ _ _ _ Some); [done|handler_tail].
Qed.

Lemma updateEntity_handled account table pk rk options context :
  addressed account table context ->
  handled account table context (upsert_op valid_date false pk rk options context)
    (updateEntity valid_date pk rk options context).
Proof.
  unfold updateEntity. handler. unfold upsert_op.
  known. apply (performs_call _ _ _ _ _ _ Some); [done|handler_tail].
Qed.

Lemma mergeEntity_handled account table pk rk options context :
  addressed account table context ->
  handled account table context (upsert_op valid_date true pk rk options context)
    (mergeEntity valid_date pk rk options context).
Proof.
  unfold mergeEntity. handler. unfold upsert_op.
  known. apply (performs_call _ _ _ _ _ _ Some); [done|handler_tail].
Qed.

Lemma deleteEntity_handled account table pk rk ifMatch context :
  addressed account table context ->
  handled account table context (delete_op pk rk ifMatch context) (deleteEntity pk rk ifMatch context).
Proof.
  unfold deleteEntity. handler. unfold delete_op. known.
  apply (performs_call _ _ _ _ _ _ (fun _ => None)); [done|handler_tail].
Qed.

Lemma queryEntity_handled account table table_ pk rk options context :
  addressed account table context -> table_ = None \/ table_ = Some table ->
  handled account table context (get_op pk rk context)
    (queryEntitiesWithPartitionAndRowKey valid_date table_ pk rk options context).
Proof.
  intros Had Htable. unfold queryEntitiesWithPartitionAndRowKey.
  replace (match table_ with Some (String _ _ as t) => Ok t | _ => getAndCheckTableName context end) with (Ok table : res string)
    by (unfold getAndCheckTableName; rewrite (proj2 Had); by destruct Htable as [->| ->], table).
  revert Had. handler. unfold get_op. known.
  eapply (performs_call _ _ _ _ _ _ (fun x => x)); [intros d; symmetry; apply proc_bind_ret|].
  handler_tail.
Qed.

End Handlers.
