(* ===== verification/Regex.v ===== *)
(** * Regex: the regular expressions of JavaScript

    The constructs the code uses, with their backtracking: alternatives are tried
    in order, repetitions are greedy, a repetition that consumes nothing ends, as
    in RegExp.prototype.exec. A text is matched at the first position that
    has a match. *)

From S2P Require Import Prelude Errors Extents Utf8 Texts JsValues.
Open Scope Z_scope.
Open Scope azurite_scope.

Inductive regex :=
| Eps
| Unit (p : Z -> bool)
| Seq (r1 r2 : regex)
| Alt (r1 r2 : regex)
| Star (r : regex)
| Capture (n : nat) (r : regex)
| Ahead (r : regex)
| NotAhead (r : regex)
| Behind (w : list (Z -> bool))
| EndOfText.

Definition captures := list (nat * text).

(** The matcher: the continuation gets the text before the position, backwards,
    the text after it and the captures. *)
Fixpoint exec {R} (r : regex) (k : text -> text -> captures -> option R)
    (b s : text) (c : captures) : option R :=
  match r with
  | Eps => k b s c
  | Unit p => match s with u :: s => if p u then k (u :: b) s c else None | [] => None end
  | Seq r1 r2 => exec r1 (exec r2 k) b s c
  | Alt r1 r2 => match exec r1 k b s c with Some x => Some x | None => exec r2 k b s c end
  | Star r =>
      (fix loop (n : nat) (b s : text) (c : captures) : option R :=
         match n with
         | O => k b s c
         | S n =>
             match exec r (fun b' s' c' => if (length s' <? length s)%nat then loop n b' s' c' else None) b s c with
             | Some x => Some x
             | None => k b s c
             end
         end) (length s) b s c
  | Capture n r => exec r (fun b' s' c' => k b' s' ((n, take (length s - length s') s) :: c')) b s c
  | Ahead r => match exec r (fun _ _ c' => Some c') b s c with Some c' => k b s c' | None => None end
  | NotAhead r => match exec r (fun _ _ _ => Some tt) b s c with Some _ => None | None => k b s c end
  | Behind w =>
      if (length w <=? length b)%nat && forallb (fun x => x.1 x.2) (zip (rev w) b) then k b s c else None
  | EndOfText => match s with [] => k b s c | _ => None end
  end.

(** A match: its text, the captures, and what is before and after it. *)
Record found := mkFound { f_text : text; f_captures : captures; f_before : text; f_after : text }.

Definition match_here (r : regex) (b s : text) : option found :=
  exec r (fun b' s' c => Some (mkFound (take (length s - length s') s) c b s')) b s [].

Fixpoint match_from (r : regex) (b s : text) : option found :=
  match match_here r b s with
  | Some f => Some f
  | None => match s with [] => None | u :: s => match_from r (u :: b) s end
  end.

(** [s.match(r)]. *)
Definition regex_match (r : regex) (s : text) : option found := match_from r [] s.

(** [m[n]] of a match, for a group that takes part in it. *)
Definition group (n : nat) (f : found) : text :=
  match List.find (fun x => Nat.eqb x.1 n) f.(f_captures) with Some x => x.2 | None => [] end.

(** [s.match(r)] with the flag g: every match; after an empty one the search goes
    on a unit further. *)
Fixpoint matches_from (fuel : nat) (r : regex) (b s : text) : list text :=
  match fuel with
  | O => []
  | S fuel =>
      match match_from r b s with
      | None => []
      | Some f =>
          f.(f_text) ::
          (if bool_decide (f.(f_text) = []) then
             match f.(f_after) with [] => [] | u :: s => matches_from fuel r (u :: f.(f_before)) s end
           else matches_from fuel r (rev f.(f_text) ++ f.(f_before)) f.(f_after))
      end
  end.
Definition regex_matches (r : regex) (s : text) : list text := matches_from (S (length s)) r [] s.

(** ** Notations of patterns *)

Definition is_unit (u : Z) : regex := Unit (Z.eqb u).
Definition Lit (s : string) : regex := foldr (fun u r => Seq (is_unit u) r) Eps (js s).
(** Letters of either case, with the flag i; other units have no other case in ASCII. *)
Definition same_letter (u v : Z) : bool := lower_unit u =? lower_unit v.
Definition Lit_i (s : string) : regex := foldr (fun u r => Seq (Unit (same_letter u)) r) Eps (js s).
Definition Behind_i (s : string) : regex := Behind (same_letter <$> js s).
Definition Plus (r : regex) : regex := Seq r (Star r).
Definition Opt (r : regex) : regex := Alt r Eps.
(** [r{n}] and [r{n,n+m}]. *)
Fixpoint Times (n : nat) (r : regex) : regex := match n with O => Eps | S n => Seq r (Times n r) end.
Fixpoint UpTo (m : nat) (r : regex) : regex := match m with O => Eps | S m => Opt (Seq r (UpTo m r)) end.
Definition Between (n m : nat) (r : regex) : regex := Seq (Times n r) (UpTo (m - n) r).

(** [.], [\s], [\S], [\w]. *)
Definition line_terminator (u : Z) : bool := bool_decide (u ∈ [10; 13; 8232; 8233]).
Definition Any : regex := Unit (fun u => negb (line_terminator u)).
Definition Space : regex := Unit is_space_unit.
Definition NonSpace : regex := Unit (fun u => negb (is_space_unit u)).
Definition word_unit (u : Z) : bool :=
  is_digit u || ((65 <=? u) && (u <=? 90)) || ((97 <=? u) && (u <=? 122)) || (u =? 95).
Definition Word : regex := Unit word_unit.

Example regex_greedy :
  f_text <$> regex_match (Seq (Plus (is_unit 123)) (Seq (Plus Any) (Plus (is_unit 125)))) (js "a {{b} c} d")
  = Some (js "{{b} c}").
Proof. vm_compute. reflexivity. Qed.
Example regex_groups :
  (fun f => (group 1 f, group 2 f)) <$>
  regex_match (Seq (Capture 1 (Plus NonSpace)) (Seq (is_unit 58) (Seq (Opt Space) (Capture 2 (Plus NonSpace)))))
    (js "If-Match: a:b c") = Some (js "If-Match", js "a:b").
Proof. vm_compute. reflexivity. Qed.

(** * What a regular expression reads

    The matcher finds a way to go on exactly when there is one among the texts the
    expression can read, [reads]; captures do not matter for that. *)

From stdpp Require Import relations.
From S2P Require Import Prelude Errors Extents Utf8 Texts JsValues.
Open Scope Z_scope.
Open Scope azurite_scope.

(** A position: the text before it, backwards, and the text after it. *)
Abbreviation position := (text * text)%type.

Fixpoint reads (r : regex) (p q : position) : Prop :=
  match r with
  | Eps => p = q
  | Unit f => exists u s, p.2 = u :: s /\ f u = true /\ q = (u :: p.1, s)
  | Seq r1 r2 => exists m, reads r1 p m /\ reads r2 m q
  | Alt r1 r2 => reads r1 p q \/ reads r2 p q
  | Star r => rtc (fun p q => reads r p q /\ (length q.2 < length p.2)%nat) p q
  | Capture _ r => reads r p q
  | Ahead r => p = q /\ exists m, reads r p m
  | NotAhead r => p = q /\ ~ exists m, reads r p m
  | Behind w =>
      p = q /\ ((length w <=? length p.1)%nat && forallb (fun x => x.1 x.2) (zip (rev w) p.1)) = true
  | EndOfText => p = q /\ p.2 = []
  end.

(** A continuation whose success does not depend on the captures. *)
Definition blind {R : Set} (k : text -> text -> captures -> option R) : Prop :=
  forall b s c c', is_Some (k b s c) -> is_Some (k b s c').

Section Exec.
Context {R : Set}.
Implicit Type k : text -> text -> captures -> option R.

Definition goes_on (r : regex) k (b s : text) : Prop :=
  exists q, reads r (b, s) q /\ forall c, is_Some (k q.1 q.2 c).

Definition correct_for (r : regex) : Prop :=
  forall k b s c, blind k -> is_Some (exec r k b s c) <-> goes_on r k b s.
End Exec.

Lemma blind_all {R : Set} (k : text -> text -> captures -> option R) b s c :
  blind k -> is_Some (k b s c) -> forall c', is_Some (k b s c').
Proof. intros Hk Hs c'. by eapply Hk. Qed.

Lemma exec_blind {R : Set} r (k : text -> text -> captures -> option R) :
  correct_for (R:=R) r -> blind k -> blind (exec r k).
Proof. intros Hr Hk b s c c' Hs. apply (Hr k b s c' Hk). by apply (Hr k b s c Hk). Qed.

(** The rounds of a repetition. *)
Lemma star_correct {R : Set} r (k : text -> text -> captures -> option R) (n : nat) b s c :
  correct_for (R:=R) r -> blind k -> (length s <= n)%nat ->
  is_Some ((fix loop (n : nat) (b s : text) (c : captures) : option R :=
         match n with
         | O => k b s c
         | S n =>
             match exec r (fun b' s' c' => if (length s' <? length s)%nat then loop n b' s' c' else None) b s c with
             | Some x => Some x
             | None => k b s c
             end
         end) n b s c) <-> goes_on (Star r) k b s.
Proof.
  intros Hr Hk. revert b s c. induction n as [|n IH]; intros b s c Hn.
  - assert (s = []) as -> by (destruct s; [done|cbn in Hn; lia]). split.
    + intros Hs. exists (b, []). split; [constructor|]. by eapply blind_all.
    + intros (q&Hq&Hs). inversion Hq as [|? m ? [_ Hm]]; subst; [apply Hs|cbn in Hm; lia].
  - match goal with |- context [exec r ?kk b s c] => set (k' := kk) end.
    assert (Hb : blind k').
    { intros b1 s1 c1 c2. unfold k'. destruct (Nat.ltb_spec (length s1) (length s)) as [Hl|]; [|done].
      rewrite !IH by lia. done. }
    destruct (exec r k' b s c) as [x|] eqn:He.
    + split; [intros _|by eexists].
      destruct (proj1 (Hr k' b s c Hb) (ex_intro _ x He)) as (m&Hm&Hs). specialize (Hs c). unfold k' in Hs.
      destruct (Nat.ltb_spec (length m.2) (length s)) as [Hl|]; [|by destruct Hs].
      apply IH in Hs as (q&Hq&Hs); [|lia]. exists q. split; [|done].
      eapply rtc_l; [|destruct m; exact Hq]. by split.
    + split.
      * intros Hs. exists (b, s). split; [constructor|]. by eapply blind_all.
      * intros (q&Hq&Hs). inversion Hq as [|? m ? [Hm Hl] Hq']; subst; [apply Hs|]. exfalso.
        assert (Hsome : is_Some (exec r k' b s c)); [|rewrite He in Hsome; by destruct Hsome].
        apply (Hr k'); [done|]. exists m. split; [done|]. intros c'. unfold k'. cbn in Hl.
        rewrite (proj2 (Nat.ltb_lt _ _) Hl). apply IH; [lia|]. exists q. by destruct m.
Qed.

(** The matcher goes on where the expression reads to. *)
Lemma exec_correct r : forall R : Set, correct_for (R:=R) r.
Proof.
  induction r as [|f|r1 IH1 r2 IH2|r1 IH1 r2 IH2|r IH|n r IH|r IH|r IH|w|]; intros R k b s c Hk; cbn [exec].
  - split; [intros Hs; exists (b, s); split; [done|by eapply blind_all]|]. by intros (q&<-&Hs).
  - split.
    + destruct s as [|u s]; [by intros []|]. destruct (f u) eqn:Hu; [|by intros []]. intros Hs.
      exists (u :: b, s). split; [by exists u, s|by eapply blind_all].
    + intros (q&(u&s'&Hs&Hu&->)&Hq). cbn in Hs. subst s. rewrite Hu. apply Hq.
  - rewrite (IH1 R (exec r2 k) b s c) by (apply exec_blind; [apply IH2|done]). split.
    + intros (m&Hm&Hs). apply (IH2 R k _ _ [] Hk) in Hs as (q&Hq&Hs). exists q. split; [|done].
      exists m. split; [done|]. by destruct m.
    + intros (q&(m&Hm&Hq)&Hs). exists m. split; [done|]. intros c'. apply (IH2 R k); [done|].
      exists q. by destruct m.
  - split.
    + destruct (exec r1 k b s c) as [x|] eqn:He.
      * intros _. destruct (proj1 (IH1 R k b s c Hk) (ex_intro _ x He)) as (q&Hq&Hs). exists q. split; [by left|done].
      * intros (q&Hq&Hs)%(IH2 R k b s c Hk). exists q. split; [by right|done].
    + intros (q&[Hq|Hq]&Hs).
      * destruct (proj2 (IH1 R k b s c Hk)) as [x He]; [by exists q|]. rewrite He. by eexists.
      * destruct (exec r1 k b s c) as [x|]; [by eexists|]. apply (IH2 R k); [done|]. by exists q.
  - apply star_correct; [apply IH|done|done].
  - match goal with |- is_Some (exec r ?kk b s c) <-> _ => set (k' := kk) end.
    assert (Hb : blind k') by (intros b1 s1 c1 c2; apply Hk). rewrite (IH R k' b s c Hb). unfold goes_on.
    apply exist_proper; intros q. apply and_iff_compat_l. split; intros Hs c'; [|by apply Hs].
    by apply (Hk _ _ _ _ (Hs c')).
  - assert (Hb : blind (fun (_ _ : text) (c' : captures) => Some c')) by (intros ?????; by eexists).
    split.
    + destruct (exec r _ b s c) as [c1|] eqn:He; [|by intros []]. intros Hs.
      destruct (proj1 (IH _ _ b s c Hb) (ex_intro _ c1 He)) as (m&Hm&_).
      exists (b, s). split; [split; [done|by exists m]|]. by eapply blind_all.
    + intros (q&[<- [m Hm]]&Hs).
      destruct (proj2 (IH _ (fun _ _ c' => Some c') b s c Hb)) as [c1 He]; [exists m; split; [done|by eexists]|].
      rewrite He. apply Hs.
  - assert (Hb : blind (fun (_ _ : text) (_ : captures) => Some tt)) by (intros ?????; by eexists).
    split.
    + destruct (exec r _ b s c) as [c1|] eqn:He; [by intros []|]. intros Hs.
      exists (b, s). split; [split; [done|]|by eapply blind_all]. intros [m Hm].
      destruct (proj2 (IH _ (fun _ _ _ => Some tt) b s c Hb)) as [c1 He']; [exists m; split; [done|by eexists]|].
      congruence.
    + intros (q&[<- Hm]&Hs). destruct (exec r _ b s c) as [c1|] eqn:He; [|apply Hs].
      destruct (proj1 (IH _ _ b s c Hb) (ex_intro _ c1 He)) as (m&Hm'&_). destruct Hm. by exists m.
  - split.
    + destruct (_ && _) eqn:Hw; [|by intros []]. intros Hs. exists (b, s). split; [by split|by eapply blind_all].
    + intros (q&[<- Hw]&Hs). cbn [fst] in Hw. rewrite Hw. apply Hs.
  - split.
    + destruct s as [|u s]; [|by intros []]. intros Hs. exists (b, []). split; [by split|by eapply blind_all].
    + intros (q&[<- Hw]&Hs). cbn [snd] in Hw. subst s. apply Hs.
Qed.

(** An anchored search succeeds when the expression reads something. *)
Lemma match_here_reads r b s : defined (match_here r b s) = true <-> exists q, reads r (b, s) q.
Proof.
  unfold match_here. set (k := fun (b' s' : text) (c : captures) => Some _).
  assert (Hk : blind k) by (intros ?????; by eexists).
  transitivity (is_Some (exec r k b s [])); [destruct (exec r k b s []); cbn; naive_solver|].
  rewrite (exec_correct r _ k b s [] Hk). split; [intros (q&Hq&_); by exists q|].
  intros (q&Hq). exists q. split; [done|]. by eexists.
Qed.

(** ** Runs of units *)

(** What the repetitions of a unit read. *)
Definition run (f : Z -> bool) (t : text) (p q : position) : Prop :=
  p.2 = t ++ q.2 /\ q.1 = rev t ++ p.1 /\ Forall (fun u => f u = true) t.

Lemma run_cons f u t p q :
  run f (u :: t) p q <-> p.2 = u :: t ++ q.2 /\ f u = true /\ run f t (u :: p.1, t ++ q.2) q.
Proof.
  unfold run. cbn [rev fst snd]. rewrite Forall_cons, <- app_assoc. cbn. tauto.
Qed.

Lemma reads_star_unit f p q : reads (Star (Unit f)) p q <-> exists t, run f t p q.
Proof.
  cbn [reads]. split.
  - intros Hr. induction Hr as [p|p m q [(u&s&Hp&Hu&->) _] _ (t&Ht)].
    + exists []. unfold run. by cbn.
    + exists (u :: t). apply run_cons. destruct Ht as (Hs&Hq&Ht). cbn in Hs. subst s. by split_and!.
  - intros (t&Ht). revert p Ht. induction t as [|u t IH]; intros [b s] Ht.
    + destruct Ht as (Hs&Hb&_). cbn in *. subst. destruct q. constructor.
    + apply run_cons in Ht as (Hs&Hu&Ht). cbn in Hs. subst s. eapply rtc_l; [|by apply IH].
      split; [by exists u, (t ++ q.2)|]. cbn. lia.
Qed.

Lemma reads_times_unit f n p q : reads (Times n (Unit f)) p q <-> exists t, length t = n /\ run f t p q.
Proof.
  revert p. induction n as [|n IH]; intros p; cbn [Times reads].
  - split.
    + intros ->. exists []. unfold run. by cbn.
    + intros ([|]&?&Hs&Hb&_); [|done]. destruct p, q. cbn in *. by subst.
  - split.
    + intros (m&(u&s&Hp&Hu&->)&(t&Hl&Ht)%IH). exists (u :: t). split; [cbn; lia|]. apply run_cons.
      pose proof Ht as (Hs&_&_). cbn in Hs. subst s. by split_and!.
    + intros ([|u t]&Hl&Ht); [done|]. apply run_cons in Ht as (Hs&Hu&Ht). exists (u :: p.1, t ++ q.2).
      split; [by exists u, (t ++ q.2)|]. apply IH. exists t. split; [cbn in Hl; lia|done].
Qed.

Lemma reads_upto_unit f n p q : reads (UpTo n (Unit f)) p q <-> exists t, (length t <= n)%nat /\ run f t p q.
Proof.
  revert p. induction n as [|n IH]; intros p; cbn [UpTo Opt reads].
  - split.
    + intros ->. exists []. unfold run. by cbn.
    + intros ([|]&?&Hs&Hb&_); [|cbn in *; lia]. destruct p, q. cbn in *. by subst.
  - split.
    + intros [(m&(u&s&Hp&Hu&->)&(t&Hl&Ht)%IH)| ->].
      * exists (u :: t). split; [cbn; lia|]. apply run_cons.
        pose proof Ht as (Hs&_&_). cbn in Hs. subst s. by split_and!.
      * exists []. unfold run. cbn. split; [lia|done].
    + intros ([|u t]&Hl&Ht).
      * right. destruct Ht as (Hs&Hb&_). destruct p, q. cbn in *. by subst.
      * left. apply run_cons in Ht as (Hs&Hu&Ht). exists (u :: p.1, t ++ q.2).
        split; [by exists u, (t ++ q.2)|]. apply IH. exists t. split; [cbn in Hl; lia|done].
Qed.

Lemma run_app f t1 t2 p q m : run f t1 p m -> run f t2 m q -> run f (t1 ++ t2) p q.
Proof.
  intros (H1&H2&H3) (H4&H5&H6). unfold run. rewrite H1, H4, H5, H2, rev_app_distr, <- !app_assoc.
  split_and!; [done..|]. by apply Forall_app.
Qed.

Lemma run_app_inv f t1 t2 p q :
  run f (t1 ++ t2) p q -> run f t1 p (rev t1 ++ p.1, t2 ++ q.2) /\ run f t2 (rev t1 ++ p.1, t2 ++ q.2) q.
Proof.
  intros (H1&H2&[H3 H4]%Forall_app). unfold run. cbn. rewrite H1, H2, rev_app_distr, <- !app_assoc. done.
Qed.

Lemma reads_between_unit f n m p q :
  (n <= m)%nat -> reads (Between n m (Unit f)) p q <-> exists t, (n <= length t <= m)%nat /\ run f t p q.
Proof.
  intros Hnm. unfold Between. cbn [reads]. split.
  - intros (x&(t1&H1&Ht1)%reads_times_unit&(t2&H2&Ht2)%reads_upto_unit).
    exists (t1 ++ t2). rewrite length_app. split; [lia|by eapply run_app].
  - intros (t&Hl&Ht). rewrite <- (take_drop n t) in Ht. apply run_app_inv in Ht as [H1 H2].
    eexists. split; [apply reads_times_unit|apply reads_upto_unit]; eexists; (split; [|done]);
      rewrite ?length_take, ?length_drop; lia.
Qed.
