(* ===== verification/TableBatchFormat.v ===== *)
(** * TableBatchFormat: the text format of the batches of tables

    src/src/table/batch: the reading of a batch's body into operations
    (BatchSerialization.ts, TableBatchSerialization.ts, BatchOperation.ts), an operation as
    a request (BatchRequest.ts, BatchRequestHeaders.ts), and the responses
    (TableBatchSerialization.ts). [JSON.parse] of a request's body, which starts with a
    brace, and [jsonToXML] of an error are arguments, as is the present time. *)

From S2P Require Import Prelude Errors Extents Utf8 Texts JsValues TableErrors TableEntities TableStore Uris Regex TableHandlers.
From Stdlib Require Ascii.
From Stdlib Require String.
Open Scope Z_scope.
Open Scope azurite_scope.

(** ** Texts *)

(** [s.includes(p)]. *)
Definition includes (p s : text) : bool := defined (index_of p s).

(** [s.split(p)] for a [p] that is not empty. *)
Fixpoint split_on (fuel : nat) (p s : text) : list text :=
  match fuel, index_of p s with
  | S fuel, Some n => take n s :: split_on fuel p (drop (n + length p) s)
  | _, _ => [s]
  end.
Definition split (p s : text) : list text := split_on (length s) p s.

Definition crlf : text := [13; 10].
Definition in_quotes (t : text) : text := [34] ++ t ++ [34].

(** A text of [\w]. *)
Definition string_of_word (t : text) : string :=
  String.string_of_list_ascii ((fun u => Ascii.ascii_of_N (Z.to_N u)) <$> t).

(** ** Constants *)

Definition BOUNDARY_PREFIX : text := js "--".
Definition BOUNDARY_CLOSE_SUFFIX : text := js "--" ++ crlf.
Definition CONTENT_TYPE_MULTIPART_AND_BOUNDARY : text := js "Content-Type: multipart/mixed; boundary=".
Definition CONTENT_TYPE_HTTP : text := js "Content-Type: application/http" ++ crlf.
Definition TRANSFER_ENCODING_BINARY : text := js "Content-Transfer-Encoding: binary" ++ crlf.
Definition NO_PARTITION_KEY : text := js "Partition key not found in request.".
Definition TOO_MANY_OPERATIONS : text :=
  js "0:The batch request operation exceeds the maximum 100 changes per change set.".

(** ** Reading a batch *)

Record BatchSerialization := mkBatchSerialization {
  batchBoundary : text;
  changesetBoundary : text;
  lineEnding : text
}.

(** [/--batch_(\w+-?)+/], [/(boundary=)+(\w+_?(\w+-?)+)/], [/(--batch_\w+)/], [/\r?\n+/],
    [/\/\w+\/(\w+)/]. *)
Definition batch_boundary_regex : regex := Seq (Lit "--batch_") (Plus (Seq (Plus Word) (Opt (is_unit 45)))).
Definition changeset_regex : regex :=
  Seq (Plus (Lit "boundary="))
      (Capture 2 (Seq (Plus Word) (Seq (Opt (is_unit 95)) (Plus (Seq (Plus Word) (Opt (is_unit 45))))))).
Definition single_regex : regex := Capture 1 (Seq (Lit "--batch_") (Plus Word)).
Definition line_ending_regex : regex := Seq (Opt (is_unit 13)) (Plus (is_unit 10)).
Definition path_regex : regex := Seq (is_unit 47) (Seq (Plus Word) (Seq (is_unit 47) (Capture 1 (Plus Word)))).

Definition extractBatchBoundary (s : text) : res text :=
  let batchRequestToProcess := match decodeURI s with Ok t => t | Throw _ => s end in
  match regex_match batch_boundary_regex batchRequestToProcess with
  | Some f => Ok f.(f_text)
  | None => Throw JsError
  end.

Definition extractChangeSetBoundary (s : text) : res text :=
  match regex_match changeset_regex s with
  | Some f => Ok (group 2 f)
  | None =>
      match regex_match single_regex s with
      | Some f => Ok (group 1 f)
      | None => Throw JsError
      end
  end.

Definition extractLineEndings (s : text) : res text :=
  match regex_match line_ending_regex s with Some f => Ok f.(f_text) | None => Throw JsError end.

Definition extractPath (uri : text) : option text := group 1 <$> regex_match path_regex uri.

(** A [BatchOperation]: nothing sets its protocol but [getProtocol], which finds it
    in the URI each time. *)
Record BatchOperation := mkBatchOperation {
  rawHeaders : list text;
  httpMethod : text;
  uri : text;
  path : text;
  jsonRequestBody : text
}.

Definition raw_headers (headers : text) : list text :=
  List.filter (fun t => negb (bool_decide (t = []))) (trim <$> split [10] headers).

Definition verb_regex : regex :=
  Capture 1 (foldr Alt (Lit "DELETE") (Lit <$> ["GET"; "PATCH"; "POST"; "PUT"; "MERGE"; "INSERT"]))%string.
Definition url_regex : regex :=
  Capture 1 (Seq (Lit "htt") (Seq (Plus (is_unit 112)) (Seq (Opt (is_unit 115)) (Plus NonSpace)))).
Definition json_regex : regex := Seq (Plus (is_unit 123)) (Seq (Plus Any) (Plus (is_unit 125))).

Definition deserialize_operation (several : bool) (lineEnding subRequest : text) : res BatchOperation :=
  match regex_match verb_regex subRequest, regex_match url_regex subRequest with
  | Some requestType, Some fullRequestURI =>
      let requestType := requestType.(f_text) in
      let uri := group 1 fullRequestURI in
      match extractPath uri with
      | None => Throw JsError
      | Some path =>
          let jsonOperationBody := f_text <$> regex_match json_regex subRequest in
          throw_when (several && (requestType !== js "DELETE") && (requestType !== js "MERGE")
                      && negb (defined jsonOperationBody)) JsError;;
          let subStringStart := (default O (index_of uri subRequest) + length uri + 1)%nat in
          let '(subStringEnd, jsonBody) :=
            match jsonOperationBody with
            | Some json => (default O (index_of json subRequest), json)
            | None => ((length subRequest - length lineEnding * 2)%nat, [])
            end in
          Ok (mkBatchOperation (raw_headers (substring subStringStart subStringEnd subRequest))
                requestType fullRequestURI.(f_text) path jsonBody)
      end
  | _, _ => Throw JsError
  end.

Definition deserializeBatchRequest (s : text) : res (BatchSerialization * list BatchOperation) :=
  batchBoundary ← extractBatchBoundary s;
  changesetBoundary ← extractChangeSetBoundary s;
  lineEnding ← extractLineEndings s;
  let splitBody := split (BOUNDARY_PREFIX ++ changesetBoundary ++ lineEnding) s in
  let subRequests := match splitBody with _ :: (_ :: _) as l => l | l => l end in
  operations ← mapM (deserialize_operation (1 <? length subRequests)%nat lineEnding) subRequests;
  Ok (mkBatchSerialization batchBoundary changesetBoundary lineEnding, operations).

(** ** An operation as a request *)

(** The dictionary of the headers, whose keys are in lower case when the header has a
    value. *)
Definition header_regex : regex :=
  Seq (Capture 1 (Plus NonSpace)) (Seq (Capture 2 (Seq (is_unit 58) (Opt Space))) (Capture 3 (Plus NonSpace))).

Definition add_header (d : gmap text text) (rawheader : text) : gmap text text :=
  match regex_match header_regex rawheader with
  | Some f => <[lower (group 1 f) := group 3 f]> d
  | None => if (2 <? length rawheader)%nat then <[rawheader := []]> d else d
  end.
Definition createDictFromRawHeaders (rawHeaders : list text) : gmap text text := foldl add_header ∅ rawHeaders.

(** The optional parameters a batch sets: of the query options there is the format. *)
Record IOptionalParams := mkOptionalParams {
  requestId : option text;
  dataServiceVersion : option text;
  p_tableEntityProperties : option object;
  format : option text
}.
Definition no_params : IOptionalParams := mkOptionalParams None None None None.

Record BatchRequest := mkBatchRequest {
  batchOperation : BatchOperation;
  headers : gmap text text;
  params : IOptionalParams
}.
Definition new_request (o : BatchOperation) : BatchRequest :=
  mkBatchRequest o (createDictFromRawHeaders o.(rawHeaders)) no_params.

Definition header (field : string) (r : BatchRequest) : option text := r.(headers) !! lower (js field).

Definition getMethod (r : BatchRequest) : text := r.(batchOperation).(httpMethod).
Definition getUrl (r : BatchRequest) : text := r.(batchOperation).(uri).
Definition getPath (r : BatchRequest) : string := string_of_word r.(batchOperation).(path).
Definition get_body (r : BatchRequest) : text := r.(batchOperation).(jsonRequestBody).

Definition get_query (key : string) (r : BatchRequest) : res (option text) :=
  if key === "$format"%string then Ok r.(params).(format)
  else if bool_decide (key ∈ ["$top"; "$select"; "$filter"]%string) then Ok None
  else Throw JsError.

(** [/https?/]. *)
Definition protocol_regex : regex := Seq (Lit "http") (Opt (is_unit 115)).
Definition get_protocol (r : BatchRequest) : res text :=
  match regex_match protocol_regex (getUrl r) with Some f => Ok f.(f_text) | None => Throw JsError end.

Definition as_request (r : BatchRequest) : IRequest :=
  mkIRequest (fun field => header field r) (fun key => get_query key r) (Ok (Some (get_body r))) (get_protocol r).

(** The classes of parameters: those of a deletion take no body. *)
Inductive params_class := DeleteParams | OtherParams.
#[export] Instance params_class_eq_dec : EqDecision params_class.
Proof. solve_decision. Defined.

Definition accepted_format (r : BatchRequest) : text :=
  match header "accept" r with
  | Some a =>
      if includes (js "minimalmeta") a then MINIMAL_METADATA_ACCEPT
      else if includes (js "fullmeta") a then FULL_METADATA_ACCEPT
      else NO_METADATA_ACCEPT
  | None => NO_METADATA_ACCEPT
  end.

(** The parameters before the body is parsed, and after; a body that cannot be
    parsed leaves the former. *)
Definition ingest_headers (r : BatchRequest) : BatchRequest :=
  mkBatchRequest r.(batchOperation) r.(headers)
    (mkOptionalParams (header "x-ms-client-request-id" r)
       (match header "maxdataserviceversion" r with
        | Some v => if includes (js "3.0") v then Some (js "3.0") else None
        | None => None
        end) None None).

Definition ingest_body (JSON_parse : text -> res object) (c : params_class) (r : BatchRequest) : res BatchRequest :=
  properties ←
    (if bool_decide (get_body r = []) || bool_decide (c = DeleteParams) then Ok None
     else p ← JSON_parse (get_body r); Ok (Some p));
  Ok (mkBatchRequest r.(batchOperation) r.(headers)
        (mkOptionalParams r.(params).(requestId) r.(params).(dataServiceVersion) properties
           (Some (accepted_format r)))).

(** ** Responses *)

Definition line (t : text) : text := t ++ crlf.

Definition SetContentTypeAndEncoding : text :=
  crlf ++ line (js "Content-Type: application/http") ++ line (js "Content-Transfer-Encoding: binary") ++ crlf.
Definition SerializeXContentTypeOptions : text := line (js "X-Content-Type-Options: nosniff").
Definition SerializeNoSniffNoCache : text := SerializeXContentTypeOptions ++ line (js "Cache-Control: no-cache").

Definition GetStatusMessageString (statusCode : Z) : text :=
  js match statusCode with
     | 200 => "OK"
     | 201 => "Created"
     | 204 => "No Content"
     | 404 => "Not Found"
     | 400 => "Bad Request"
     | 409 => "Conflict"
     | 412 => "Precondition Failed"
     | _ => "STATUS_CODE_NOT_IMPLEMENTED"
     end.

Definition serializeHttpStatusCode (statusCode : Z) : text :=
  line (js "HTTP/1.1 " ++ digits_text statusCode ++ js " " ++ GetStatusMessageString statusCode).

Definition serializePreferenceApplied (r : BatchRequest) : text :=
  match header "Preference-Applied" r with
  | Some ((_ :: _) as p) => line (js "Preference-Applied: " ++ p)
  | _ => []
  end.

Definition serializeDataServiceVersion (r : option BatchRequest) (forceDataServiceVersion1 : bool) : text :=
  let version := r ← r; r.(params).(dataServiceVersion) in
  match version with
  | Some ((_ :: _) as v) =>
      if forceDataServiceVersion1 then line (js "DataServiceVersion: 1.0;")
      else line (js "DataServiceVersion: " ++ v ++ js ";")
  | _ => line (js (if forceDataServiceVersion1 then "DataServiceVersion: 1.0;" else "DataServiceVersion: 3.0;")%string)
  end.

Definition serialize_etag (eTag : option text) : text :=
  match eTag with Some e => line (js "ETag: " ++ e) | None => [] end.

(** [indexOf(u)], or -1. *)
Definition position (u : Z) (t : text) : Z := match index_of [u] t with Some n => Z.of_nat n | None => -1 end.

Definition SerializeEntityPath (r : BatchRequest) : res text :=
  let parenthesesPosition := position 40 (getUrl r) in
  let queryPosition := position 63 (getUrl r) in
  let offsetPosition :=
    (if (0 <? queryPosition) && ((queryPosition <? parenthesesPosition) || (parenthesesPosition =? -1))
     then queryPosition else parenthesesPosition) - 1 in
  let offsetPosition := if offsetPosition <? 0 then Z.of_nat (length (getUrl r)) else offsetPosition in
  let trimmedUrl := take (Z.to_nat offsetPosition) (getUrl r) in
  match r.(params).(p_tableEntityProperties) with
  | None => Throw TypeError
  | Some properties =>
      pk ← encodeURIComponent (value_text (get (js "PartitionKey") properties));
      rk ← encodeURIComponent (value_text (get (js "RowKey") properties));
      Ok (line (trimmedUrl ++ js "(PartitionKey='" ++ pk ++ js "'," ++ js "RowKey='" ++ rk ++ js "')"))
  end.

Definition serializeTableInsertEntityBatchResponse (r : BatchRequest) (response : Response) : res text :=
  entityPath ← SerializeEntityPath r;
  Ok (SetContentTypeAndEncoding ++ serializeHttpStatusCode response.(statusCode)
      ++ SerializeNoSniffNoCache ++ serializePreferenceApplied r ++ serializeDataServiceVersion (Some r) false
      ++ js "Location: " ++ entityPath ++ js "DataServiceId: " ++ entityPath ++ serialize_etag response.(r_eTag)).

Definition serializeTableDeleteEntityBatchResponse (r : BatchRequest) (response : Response) : text :=
  SetContentTypeAndEncoding ++ serializeHttpStatusCode response.(statusCode)
  ++ SerializeNoSniffNoCache ++ serializeDataServiceVersion (Some r) true.

Definition serializeTableUpdateEntityBatchResponse (r : BatchRequest) (response : Response) : text :=
  SetContentTypeAndEncoding ++ serializeHttpStatusCode response.(statusCode)
  ++ SerializeNoSniffNoCache ++ serializePreferenceApplied r ++ serializeDataServiceVersion (Some r) false
  ++ serialize_etag response.(r_eTag).

Definition serializeTableMergeEntityBatchResponse (r : BatchRequest) (response : Response) : text :=
  SetContentTypeAndEncoding ++ serializeHttpStatusCode response.(statusCode)
  ++ SerializeNoSniffNoCache ++ serializeDataServiceVersion (Some r) false ++ serialize_etag response.(r_eTag).

(** The body goes through a stream of UTF-8. *)
Definition serializeTableQueryEntityWithPartitionAndRowKeyBatchResponse (r : BatchRequest) (response : Response) : text :=
  SetContentTypeAndEncoding ++ serializeHttpStatusCode response.(statusCode)
  ++ serializeDataServiceVersion (Some r) false
  ++ line (js "Content-Type: " ++ template r.(params).(format) ++ js ";streaming=true;charset=utf-8")
  ++ SerializeNoSniffNoCache
  ++ match response.(r_eTag) with Some ((_ :: _) as e) => js "ETag: " ++ e | _ => [] end ++ crlf
  ++ match response.(r_body) with Some b => toString (Buffer_from b) | None => [] end ++ crlf.

(** *** Errors *)

Section Errors.
Context (now : text) (jsonToXML : StorageError -> text -> text).

(** The body a [StorageError] gets in its constructor, from the format of the
    request at the time. *)
Definition error_body (payload : text) (e : StorageError) : text :=
  if (payload === NO_METADATA_ACCEPT) || (payload === MINIMAL_METADATA_ACCEPT) || (payload === FULL_METADATA_ACCEPT)
  then
    let value := toString (js e.(storageErrorMessage)) ++ [10] ++ js "RequestId:" ++ template (js <$> e.(storageRequestID))
                   ++ [10] ++ js "Time:" ++ now in
    let message := js "{" ++ json_pair (js "lang") (stringify (js "en-US")) ++ js ","
                     ++ json_pair (js "value") (stringify value) ++ js "}" in
    let fields := json_pair (js "code") (stringify (js e.(storageErrorCode))) :: json_pair (js "message") message
                    :: ((fun p => json_pair (js p.1) (stringify (js p.2))) <$> e.(storageAdditionalErrorMessages)) in
    js "{" ++ json_pair (js "odata.error") (js "{" ++ join_comma fields ++ js "}") ++ js "}"
  else jsonToXML e now.

(** [err.statusCode.toString()]: an exception that is not a [StorageError] has no
    status code. *)
Definition serializeError (err : exn) (payload : text) (contentID : Z) (r : BatchRequest) : res text :=
  match err with
  | Storage e =>
      Ok (serializeHttpStatusCode e.(Errors.statusCode)
          ++ line (js "Content-ID: " ++ digits_text contentID)
          ++ serializeDataServiceVersion (Some r) false
          ++ line (js "Content-Type: application/json;odata=minimalmetadata;charset=utf-8") ++ crlf
          ++ line (replace_first (in_quotes (js "value") ++ js ":" ++ [34])
                     (in_quotes (js "value") ++ js ":" ++ [34] ++ digits_text (contentID - 1) ++ js ":")
                     (error_body payload e)))
  | _ => Throw TypeError
  end.

(** [truncatedISO8061Date(new Date(), true)]. *)
Definition truncatedISO8061Date : text := take (length now - 1) now ++ js "0000Z".

Definition serializeGeneralRequestError (b : BatchSerialization) (odataErrorString : text) (requestId : option string) : text :=
  let backslash_n := [92] ++ js "n" in
  let requestIdResponseString :=
    match requestId with Some id => js "RequestId:" ++ js id ++ backslash_n | None => [] end in
  line (replace_first (js "changeset") (js "changesetresponse") b.(changesetBoundary))
  ++ serializeHttpStatusCode 400 ++ SerializeXContentTypeOptions ++ serializeDataServiceVersion None false
  ++ line (js "Content-Type: application/json;odata=minimalmetadata;charset=utf-8") ++ crlf
  ++ line (js "{" ++ json_pair (js "odata.error")
       (js "{" ++ json_pair (js "code") (in_quotes (js "InvalidInput")) ++ js ","
        ++ json_pair (js "message")
             (js "{" ++ json_pair (js "lang") (in_quotes (js "en-US")) ++ js ","
              ++ json_pair (js "value") (in_quotes (odataErrorString ++ backslash_n ++ requestIdResponseString
                   ++ js "Time:" ++ truncatedISO8061Date)) ++ js "}") ++ js "}") ++ js "}").

End Errors.
