(* ===== verification/TableBatch.v ===== *)
(** * TableBatch: the batches of the table service

    src/src/table/batch/TableBatchOrchestrator.ts with the repository of requests
    (TableBatchRepository.ts) and [TableHandler.batch]. While a request is handled the
    state holds the database, the request, whose parameters are set on the way and
    stay set when an exception follows, and the keys of the requests so far. The
    context of a request is the batch's with the request and its table; the time of
    each request is an argument. *)

From S2P Require Import Prelude Errors Extents Loki Utf8 Texts JsValues TableErrors TableEntities TableStore Uris Regex TableHandlers TableBatchFormat.
From Stdlib Require Import Floats.SpecFloat.
From Stdlib Require String.
Open Scope Z_scope.
Open Scope azurite_scope.

(** ** Keys *)

(** What a URL has between [PartitionKey='] and the last [',] of the line, and, not
    empty, between [RowKey='] and the last [')]. *)
Definition partition_regex : regex :=
  Seq (Behind_i "PartitionKey='") (Seq (Capture 1 (Star Any)) (Ahead (Lit "',"))).
Definition row_regex : regex :=
  Seq (Behind_i "RowKey='") (Seq (Capture 1 (Plus Any)) (Ahead (Lit "')"))).

(** [key.replace(/''/g, "'")]. *)
Fixpoint replaceDoubleTicks (s : text) : text :=
  match s with
  | 39 :: 39 :: s => 39 :: replaceDoubleTicks s
  | u :: s => u :: replaceDoubleTicks s
  | [] => []
  end.

(** [a + b] of primitive values. *)
Definition js_add (a b : value) : value :=
  match as_string a, as_string b with
  | None, None => VNum (SFadd prec emax (to_number a) (to_number b))
  | _, _ => VStr (value_text a ++ value_text b)
  end.

(** The equality of the keys of a [Map]. *)
Definition same_value_zero (a b : value) : bool :=
  match a, b with
  | VNum x, VNum y => num_eq x y || (is_nan x && is_nan y)
  | _, _ => a === b
  end.

(** [this.context.account ??= ""]. *)
Definition with_account (account : string) (context : TableStorageContext) : TableStorageContext :=
  mkTableContext (Some account) context.(cx_tableName) context.(cx_partitionKey) context.(cx_rowKey)
    context.(cx_contextID) context.(cx_modTime) context.(cx_batchId) context.(cx_isSecondary) context.(cx_request).

Section Orchestrator.
Context (valid_date : text -> bool) (JSON_parse : text -> res object).
Context (now : text) (jsonToXML : StorageError -> text -> text).

(** The property of the body, when the URL has no key. *)
Definition body_key (name : text) (body : text) (missing : value) : res value :=
  if bool_decide (body = []) then Ok missing
  else jsonBody ← JSON_parse body; Ok (get name jsonBody).

Definition extractRequestPartitionKey (r : BatchRequest) : res value :=
  url ← decodeURIComponent (getUrl r);
  match regex_matches partition_regex url with
  | partitionKey :: _ => Ok (VStr (replaceDoubleTicks partitionKey))
  | [] => body_key (js "PartitionKey") (get_body r) VUndefined
  end.

Definition extractRequestRowKey (r : BatchRequest) : res value :=
  url ← decodeURIComponent (getUrl r);
  match regex_matches row_regex url with
  | rowKey :: _ => Ok (VStr (replaceDoubleTicks rowKey))
  | [] => body_key (js "RowKey") (get_body r) (VStr [])
  end.

Definition extractKeys (r : BatchRequest) : res (value * value) :=
  partitionKey ← extractRequestPartitionKey r;
  rowKey ← extractRequestRowKey r;
  Ok (partitionKey, rowKey).

(** ** One request *)

Context {coll : Type -> Type} `{Loki coll}.

Record BatchState := mkBatchState {
  bs_db : TableDb coll ServiceProperty;
  bs_request : BatchRequest;
  partitionKeyMap : list value
}.
Abbreviation step := (proc BatchState exn).

(** A handler's work on the database. *)
Definition on_db {A} (m : proc (TableDb coll ServiceProperty) exn A) : step A := fun s =>
  let (r, d) := m s.(bs_db) in (r, mkBatchState d s.(bs_request) s.(partitionKeyMap)).
Definition set_request (r : BatchRequest) : step unit := fun s =>
  (Ok tt, mkBatchState s.(bs_db) r s.(partitionKeyMap)).
Definition current_request : step BatchRequest := fun s => (Ok s.(bs_request), s).

Definition ingestOptionalParams (c : params_class) : step unit :=
  r ← current_request;
  _ ← set_request (ingest_headers r);
  r ← current_request;
  r ← lift (ingest_body JSON_parse c r);
  set_request r.

Definition checkForDuplicateRowKey (partitionKey rowKey : value) (rid : option string) : step unit :=
  let key := js_add partitionKey rowKey in
  fun s =>
    if existsb (same_value_zero key) s.(partitionKeyMap)
    then (Throw (TableErrors.getBatchDuplicateRowKey rid (value_text rowKey)), s)
    else (Ok tt, mkBatchState s.(bs_db) s.(bs_request) (s.(partitionKeyMap) ++ [key])).

Definition validateBatchRequest (partitionKey rowKey : value) (rid : option string) : step unit :=
  if is_undefined partitionKey then throw (TableErrors.getInvalidInput rid)
  else checkForDuplicateRowKey partitionKey rowKey rid.

(** The clone of the context with the request as it is now. *)
Definition createBatchContextClone (context : TableStorageContext) (modTime : text) (batchId : string)
    (r : BatchRequest) : TableStorageContext :=
  mkTableContext context.(cx_account) (Some (getPath r)) context.(cx_partitionKey) context.(cx_rowKey)
    context.(cx_contextID) modTime batchId context.(cx_isSecondary) (as_request r).

(** The parameters of a request as the handlers' options. *)
Definition options_of (r : BatchRequest) (ifMatch : option text) : Options :=
  mkOptions r.(params).(p_tableEntityProperties) ifMatch None None None None.

(** The parts common to the operations on a key: the parameters, the keys and the
    check of the keys. *)
Definition begin_request (c : params_class) (rid : option string) : step (BatchRequest * value * value) :=
  _ ← ingestOptionalParams c;
  r ← current_request;
  keys ← lift (extractKeys r);
  _ ← validateBatchRequest keys.1 keys.2 rid;
  mret (r, keys.1, keys.2).

Section Request.
Context (context : TableStorageContext) (modTime : text) (batchId : string).
Abbreviation clone r := (createBatchContextClone context modTime batchId r).
Abbreviation rid := context.(cx_contextID).

Definition handleBatchInsert : step text :=
  x ← begin_request OtherParams rid;
  let '(r, _, _) := x in
  response ← on_db (insertEntity valid_date (options_of r None) (clone r));
  lift (serializeTableInsertEntityBatchResponse r response).

Definition handleBatchDelete : step text :=
  x ← begin_request DeleteParams rid;
  let '(r, partitionKey, rowKey) := x in
  let ifmatch := match header "if-match" r with Some ((_ :: _) as m) => m | _ => js "*" end in
  response ← on_db (deleteEntity partitionKey rowKey (Some ifmatch) (clone r));
  mret (serializeTableDeleteEntityBatchResponse r response).

Definition handleBatchUpdate : step text :=
  x ← begin_request OtherParams rid;
  let '(r, partitionKey, rowKey) := x in
  response ← on_db (updateEntity valid_date partitionKey rowKey (options_of r (header "if-match" r)) (clone r));
  mret (serializeTableUpdateEntityBatchResponse r response).

Definition handleBatchMerge : step text :=
  x ← begin_request OtherParams rid;
  let '(r, partitionKey, rowKey) := x in
  response ← on_db (mergeEntity valid_date partitionKey rowKey (options_of r (header "if-match" r)) (clone r));
  mret (serializeTableMergeEntityBatchResponse r response).

Definition handleBatchQuery : step text :=
  r ← current_request;
  keys ← lift (extractKeys r);
  let '(partitionKey, rowKey) := keys in
  if negb (bool_decide (partitionKey = VNull)) && negb (bool_decide (rowKey = VNull))
     && negb (strict_equal partitionKey (VStr [])) && negb (strict_equal rowKey (VStr [])) then
    _ ← ingestOptionalParams OtherParams;
    r ← current_request;
    response ← on_db (queryEntitiesWithPartitionAndRowKey valid_date (Some (getPath r)) partitionKey rowKey
                        (options_of r None) (clone r));
    mret (serializeTableQueryEntityWithPartitionAndRowKeyBatchResponse r response)
  else throw (TableErrors.getNotImplementedError rid).

(** The verbs reading a batch can find; all others merge. *)
Definition routeAndDispatchBatchRequest : step text :=
  r ← current_request;
  let verb := getMethod r in
  if verb === js "POST" then handleBatchInsert
  else if verb === js "PUT" then handleBatchUpdate
  else if verb === js "DELETE" then handleBatchDelete
  else if verb === js "GET" then handleBatchQuery
  else if bool_decide (verb ∈ js <$> ["CONNECT"; "HEAD"; "OPTIONS"; "TRACE"]%string) then throw JsError
  else handleBatchMerge.

End Request.

(** ** The batch *)

(** What becomes of a batch: the responses of its requests, or the error. *)
Inductive outcome :=
| Responses (l : list text)
| ErrorResponse (t : text).

Definition success (o : outcome) : bool := match o with Responses _ => true | ErrorResponse _ => false end.

(** The requests from the number [contentID] up to the first that fails; the error
    of a request that is no [StorageError] is not caught. *)
Fixpoint submit_each (context : TableStorageContext) (batchId : string) (keys : list value) (contentID : Z)
    (l : list (BatchRequest * text)) (done : list text) : proc (TableDb coll ServiceProperty) exn outcome :=
  match l with
  | [] => mret (Responses done)
  | (r, modTime) :: l => fun d =>
      let (response, s) := routeAndDispatchBatchRequest context modTime batchId (mkBatchState d r keys) in
      match response with
      | Ok t => submit_each context batchId s.(partitionKeyMap) (contentID + 1) l (done ++ [t]) s.(bs_db)
      | Throw err =>
          (payload ← getPayloadFormat (createBatchContextClone context modTime batchId s.(bs_request));
           t ← serializeError now jsonToXML err payload contentID s.(bs_request);
           Ok (ErrorResponse t), s.(bs_db))
      end
  end.

Context (stale : Z -> res unit).

(** [modTimes] are the times of the requests, as many as there are. Without a
    partition key the transaction is not begun. *)
Definition submitRequestsToHandlers (context : TableStorageContext) (batchId : string) (b : BatchSerialization)
    (requests : list BatchRequest) (modTimes : list text) : proc (TableDb coll ServiceProperty) exn outcome :=
  match requests with
  | [] => mret (Responses [])
  | first :: _ =>
      let accountName := default EmptyString context.(cx_account) in
      let context := with_account accountName context in
      let tableName := getPath first in
      requestPartitionKey ← lift (extractRequestPartitionKey first);
      let wasError := is_undefined requestPartitionKey in
      _ ← (if wasError then mret tt else beginBatchTransaction);
      result ← submit_each context batchId [] 1 (zip requests modTimes) [];
      _ ← endBatchTransaction stale accountName tableName (success result);
      mret (match result with
            | Responses _ =>
                if wasError
                then ErrorResponse (serializeGeneralRequestError now b NO_PARTITION_KEY context.(cx_contextID))
                else result
            | ErrorResponse _ => result
            end)
  end.

Definition serializeResponses (b : BatchSerialization) (o : outcome) : text :=
  let batchBoundary := replace_first (js "batch") (js "batchresponse") b.(batchBoundary) in
  let changesetBoundary := replace_first (js "changeset") (js "changesetresponse") b.(changesetBoundary) in
  let boundary := BOUNDARY_PREFIX ++ changesetBoundary in
  line batchBoundary ++ CONTENT_TYPE_MULTIPART_AND_BOUNDARY ++ changesetBoundary ++ crlf ++ crlf
  ++ match o with
     | Responses l => mjoin ((fun t => boundary ++ t ++ crlf ++ crlf) <$> l)
     | ErrorResponse t => line boundary ++ CONTENT_TYPE_HTTP ++ TRANSFER_ENCODING_BINARY ++ crlf ++ t
     end
  ++ boundary ++ BOUNDARY_CLOSE_SUFFIX ++ batchBoundary ++ BOUNDARY_CLOSE_SUFFIX.

Definition processBatchRequestAndSerializeResponse (context : TableStorageContext) (batchId : string)
    (modTimes : list text) (batchRequestBody : text) : proc (TableDb coll ServiceProperty) exn text :=
  x ← lift (deserializeBatchRequest batchRequestBody);
  let '(b, batchOperations) := x in
  o ← (if (100 <? length batchOperations)%nat
       then mret (ErrorResponse (serializeGeneralRequestError now b TOO_MANY_OPERATIONS context.(cx_contextID)))
       else submitRequestsToHandlers context batchId b (new_request <$> batchOperations) modTimes);
  mret (serializeResponses b o).

(** [TableHandler.batch]: the status, the content type and the body. *)
Definition batch (context : TableStorageContext) (batchId : string) (modTimes : list text) (body : text)
    (contentLength : Z) : proc (TableDb coll ServiceProperty) exn (Z * option text * text) :=
  _ ← lift (if BODY_SIZE_MAX <? contentLength
            then Throw (TableErrors.getRequestBodyTooLarge context.(cx_contextID))
            else checkBodyLimit context);
  let contentTypeResponse :=
    replace_first (js "batch") (js "batchresponse") <$> context.(cx_request).(getHeader) "content-type" in
  response ← processBatchRequestAndSerializeResponse context batchId modTimes body;
  mret (202, contentTypeResponse, response).

End Orchestrator.
