(* ===== verification/TableBatchSpec.v ===== *)
(** * TableBatchSpec: what a batch of requests does

    A request of a batch makes at most one call of the store, on an entity whose key
    no request before had ([dispatch_cases]): the check of the keys is what
    makes the rollback of the store work. So a batch is all or nothing
    ([batch_requests_atomic]), unless a request fails with something else than a
    [StorageError]: then nothing is undone and no batch works any more
    ([internal_error_blocks_batches]). *)

From S2P Require Import Prelude Errors Extents Loki Utf8 Texts JsValues TableErrors TableEntities TableStore TableStoreSpec TableTransactions Uris Regex TableHandlers TableHandlersSpec TableBatchFormat TableBatch.
From Stdlib Require String.
Open Scope Z_scope.
Open Scope azurite_scope.

Section Requests.
Context (valid_date : text -> bool) (JSON_parse : text -> res object).
Context (now : text) (jsonToXML : StorageError -> text -> text).
Context {coll : Type -> Type} `{LokiLaws coll}.

Abbreviation db := (TableDb coll ServiceProperty).

(** ** One request *)

(** The request with its parameters. *)
Definition ingested (c : params_class) (r : BatchRequest) : option BatchRequest :=
  match ingest_body JSON_parse c (ingest_headers r) with Ok r => Some r | Throw _ => None end.

Definition keys_of_request (r : BatchRequest) : option (value * value) :=
  match extractKeys JSON_parse r with Ok k => Some k | Throw _ => None end.

(** The call of the store a request describes. *)
Definition request_op (context : TableStorageContext) (batchId : string) (r : BatchRequest) (modTime : text) : option entity_op :=
  let clone r := createBatchContextClone context modTime batchId r in
  let verb := getMethod r in
  keys ← keys_of_request r;
  let '(pk, rk) := keys in
  if verb === js "POST" then
    r ← ingested OtherParams r; insert_op valid_date (options_of r None) (clone r)
  else if verb === js "PUT" then
    r ← ingested OtherParams r; upsert_op valid_date false pk rk (options_of r (header "if-match" r)) (clone r)
  else if verb === js "DELETE" then
    r ← ingested DeleteParams r;
    delete_op pk rk (Some match header "if-match" r with Some ((_ :: _) as m) => m | _ => js "*" end) (clone r)
  else if verb === js "GET" then
    r ← ingested OtherParams r; get_op pk rk (clone r)
  else r ← ingested OtherParams r; upsert_op valid_date true pk rk (options_of r (header "if-match" r)) (clone r).

(** The URL of an insertion names no entity, as its keys are in the body. *)
Definition keys_in_body (r : BatchRequest) : Prop :=
  match decodeURIComponent (getUrl r) with
  | Ok url => regex_matches partition_regex url = [] /\ regex_matches row_regex url = []
  | Throw _ => True
  end.

#[export] Instance keys_in_body_dec r : Decision (keys_in_body r).
Proof. unfold keys_in_body. destruct (decodeURIComponent _); apply _. Defined.

Lemma extractKeys_ingested c r r' : ingested c r = Some r' -> extractKeys JSON_parse r' = extractKeys JSON_parse r.
Proof.
  unfold ingested, ingest_body, mbind, result_bind. intros Hr. repeat case_match; simplify_eq; done.
Qed.

Lemma ingest_runs c (s : BatchState (coll := coll)) :
  exists s', s'.(bs_db) = s.(bs_db) /\ s'.(partitionKeyMap) = s.(partitionKeyMap) /\
    ((exists e, ingestOptionalParams JSON_parse c s = (Throw e, s')) \/
     (ingestOptionalParams JSON_parse c s = (Ok tt, s') /\ ingested c s.(bs_request) = Some s'.(bs_request))).
Proof.
  unfold ingestOptionalParams, ingested. destruct s as [d r ks]. run. cbn.
  destruct (ingest_body _ _ _) as [r'|e]; eexists (mkBatchState d _ ks); eauto 10.
Qed.

(** The keys of a request are new, and become those the next ones must differ from. *)
Lemma begin_runs c rid (s : BatchState (coll := coll)) :
  exists s', s'.(bs_db) = s.(bs_db) /\
    ((exists e, begin_request JSON_parse c rid s = (Throw e, s')) \/
     (exists r pk rk, begin_request JSON_parse c rid s = (Ok (r, pk, rk), s') /\
        ingested c s.(bs_request) = Some r /\ keys_of_request s.(bs_request) = Some (pk, rk) /\ pk <> VUndefined /\
        existsb (same_value_zero (js_add pk rk)) s.(partitionKeyMap) = false /\
        s'.(partitionKeyMap) = s.(partitionKeyMap) ++ [js_add pk rk])).
Proof.
  unfold begin_request, current_request, validateBatchRequest, checkForDuplicateRowKey. run.
  destruct (ingest_runs c s) as (s1&Hdb&Hmap&[(e&->)|[-> Hing]]); [exists s1; eauto|].
  pose proof (extractKeys_ingested _ _ _ Hing) as Hkeys.
  unfold keys_of_request. rewrite <- Hkeys.
  destruct (extractKeys JSON_parse s1.(bs_request)) as [[pk rk]|e] eqn:He; [|exists s1; eauto].
  cbn [fst snd]. destruct (is_undefined pk) eqn:Hu; [exists s1; cbn; eauto|].
  destruct (existsb (same_value_zero (js_add pk rk)) s1.(partitionKeyMap)) eqn:Hd; [exists s1; cbn; eauto|].
  eexists (mkBatchState _ _ _). split; [exact Hdb|]. right. exists s1.(bs_request), pk, rk.
  split; [reflexivity|]. rewrite <- Hmap. split_and!; [done|done| |done|done].
  intros ->. by unfold is_undefined in Hu; rewrite bool_decide_eq_true_2 in Hu.
Qed.

(** What one request does to the store, of the account and the table. *)
Definition does (account table : string) (batchId rid : option string) (op : option entity_op)
    (s : BatchState (coll := coll)) (x : res text * BatchState (coll := coll)) : Prop :=
  (exists e, x.1 = Throw e /\ x.2.(bs_db) = s.(bs_db)) \/
  (exists o, op = Some o /\ x.2.(bs_db) = (run_op account table batchId rid o s.(bs_db)).2 /\
     (succeeds x.1 = true -> succeeds (run_op account table batchId rid o s.(bs_db)).1 = true) /\
     x.2.(partitionKeyMap) = s.(partitionKeyMap)).

Lemma performs_does {A} account table batchId rid op (m : proc db exn A) (k : A -> proc (BatchState (coll := coll)) exn text) s :
  performs account table batchId rid op m -> (forall a s, (k a s).2 = s) ->
  does account table batchId rid op s ((a ← on_db m; k a) s).
Proof.
  intros Hm Hk. unfold mbind, proc_bind, on_db.
  destruct (Hm s.(bs_db)) as [[e ->]|(o&Ho&Hr)]; [left; by exists e|].
  destruct (run_op _ _ _ _ o s.(bs_db)) as [answer d] eqn:Hop. destruct Hr as (r&->&Hs).
  right. exists o. rewrite Hop. destruct r as [a|e]; [|done].
  specialize (Hk a (mkBatchState d s.(bs_request) s.(partitionKeyMap))).
  destruct (k a _) as [x s']. cbn in Hk. subst s'. cbn. split_and!; [done..| |done]. intros _. by apply Hs.
Qed.

(** *** The keys of the calls *)

Lemma stored_entity_key context properties pk rk e :
  stored_entity valid_date context properties pk rk = Some e -> key_of e = (pk, rk).
Proof.
  unfold stored_entity, createPersistedEntity, normalized, new_normalized, normalize, mbind, result_bind.
  intros He. repeat case_match; simplify_eq; done.
Qed.

Lemma both_keys pk rk context v w :
  context.(cx_partitionKey) = None -> context.(cx_rowKey) = None ->
  getAndCheckKeys pk rk context = Ok (v, w) -> pk = v /\ rk = w.
Proof.
  unfold getAndCheckKeys, getAndCheck. intros -> ->. unfold mbind, result_bind.
  destruct (is_undefined pk), (is_undefined rk); try done. by intros [= -> ->].
Qed.

(** The key of an operation is the one the request was checked for. *)
Definition checked_key (pk rk : value) (op : entity_op) : Prop :=
  exists a b, pk = VStr a /\ rk = VStr b /\ op_key op = Some (a, b).

Lemma upsert_op_key merge pk rk options context op :
  context.(cx_partitionKey) = None -> context.(cx_rowKey) = None ->
  upsert_op valid_date merge pk rk options context = Some op -> checked_key pk rk op.
Proof.
  intros Hp Hr. unfold upsert_op. destruct (getAndCheckKeys _ _ _) as [[v w]|] eqn:Hk; [|done].
  apply both_keys in Hk as [-> ->]; [|done..]. destruct v, w; try done.
  intros (e&He&->)%fmap_Some. exists s, s0. cbn. by rewrite (stored_entity_key _ _ _ _ _ He).
Qed.

Lemma delete_op_key pk rk m context op :
  context.(cx_partitionKey) = None -> context.(cx_rowKey) = None ->
  delete_op pk rk (Some m) context = Some op -> checked_key pk rk op.
Proof.
  intros Hp Hr. unfold delete_op. destruct (getAndCheckKeys _ _ _) as [[v w]|] eqn:Hk; [|done].
  apply both_keys in Hk as [-> ->]; [|done..]. destruct v, w; try done.
  intros [= <-]. by exists s, s0.
Qed.

Lemma body_keys r pk rk c r' :
  keys_in_body r -> c = OtherParams -> ingested c r = Some r' -> keys_of_request r = Some (pk, rk) ->
  forall properties a b, r'.(params).(p_tableEntityProperties) = Some properties ->
  get (js "PartitionKey") properties = VStr a -> get (js "RowKey") properties = VStr b ->
  pk = VStr a /\ rk = VStr b.
Proof.
  intros Hurl -> Hing Hk properties a b Hp Ha Hb.
  unfold keys_of_request, extractKeys, extractRequestPartitionKey, extractRequestRowKey, body_key in Hk.
  unfold mbind, result_bind in Hk. unfold keys_in_body in Hurl. destruct (decodeURIComponent _) as [url|]; [|done].
  destruct Hurl as [Hr1 Hr2]. rewrite Hr1, Hr2 in Hk.
  unfold ingested, ingest_body in Hing. unfold mbind, result_bind in Hing.
  change (get_body (ingest_headers r)) with (get_body r) in Hing.
  rewrite (bool_decide_eq_false_2 (OtherParams = DeleteParams)), orb_false_r in Hing by done.
  destruct (bool_decide (get_body r = [])) eqn:Hb0; [by injection Hing as <-|].
  destruct (JSON_parse (get_body r)) as [o|]; [|done]. injection Hing as <-. injection Hp as <-.
  rewrite Ha, Hb in Hk. by injection Hk as <- <-.
Qed.

Lemma insert_op_key r pk rk r' modTime context batchId op :
  keys_in_body r -> ingested OtherParams r = Some r' -> keys_of_request r = Some (pk, rk) ->
  insert_op valid_date (options_of r' None) (createBatchContextClone context modTime batchId r') = Some op ->
  checked_key pk rk op.
Proof.
  intros Hurl Hing Hk. unfold insert_op. cbn [options_of tableEntityProperties].
  destruct (p_tableEntityProperties _) as [properties|] eqn:Hp; [|done]. cbn [mbind option_bind].
  destruct (get (js "PartitionKey") properties) eqn:Ha; try done.
  destruct (get (js "RowKey") properties) eqn:Hb; try done.
  intros (e&He&->)%fmap_Some. exists s, s0.
  destruct (body_keys r pk rk _ r' Hurl eq_refl Hing Hk properties s s0 Hp Ha Hb) as [-> ->].
  cbn. by rewrite (stored_entity_key _ _ _ _ _ He).
Qed.

(** *** The dispatch *)

Section Dispatch.
Context (account : string) (context : TableStorageContext) (modTime : text) (batchId : string).
Context (Hacc : context.(cx_account) = Some account).
Context (Hpk : context.(cx_partitionKey) = None) (Hrk : context.(cx_rowKey) = None).

Abbreviation clone r := (createBatchContextClone context modTime batchId r).
Abbreviation rid := context.(cx_contextID).
Abbreviation run_op table := (run_op (coll := coll) (P := ServiceProperty) account table (Some batchId) rid).

(** A request either fails without a change of the store, or makes the call it
    describes; the key of the call, if it may change the store, is new. *)
Definition dispatched (r : BatchRequest) (d : db) (keys : list value) (x : res text * BatchState (coll := coll)) : Prop :=
  (exists e, x.1 = Throw e /\ x.2.(bs_db) = d) \/
  (exists o, request_op context batchId r modTime = Some o /\
     extractRequestPartitionKey JSON_parse r <> Ok VUndefined /\
     x.2.(bs_db) = (run_op (getPath r) o d).2 /\
     (succeeds x.1 = true -> succeeds (run_op (getPath r) o d).1 = true) /\
     match op_key o with
     | Some k => (VStr (k.1 ++ k.2) ∉ keys) /\ x.2.(partitionKeyMap) = keys ++ [VStr (k.1 ++ k.2)]
     | None => x.2.(partitionKeyMap) = keys
     end).

Lemma new_key a b keys :
  existsb (same_value_zero (js_add (VStr a) (VStr b))) keys = false -> VStr (a ++ b) ∉ keys.
Proof.
  intros He Hin. apply not_true_iff_false in He. apply He, existsb_exists.
  exists (VStr (a ++ b)). split; [by apply list_elem_of_In|]. cbn. by apply bool_decide_eq_true_2.
Qed.

Lemma request_partition_key r pk rk :
  keys_of_request r = Some (pk, rk) -> extractRequestPartitionKey JSON_parse r = Ok pk.
Proof.
  unfold keys_of_request, extractKeys, mbind, result_bind. intros Hk.
  destruct (extractRequestPartitionKey JSON_parse r); [|done].
  destruct (extractRequestRowKey JSON_parse r); [|done]. by injection Hk as -> ->.
Qed.

Lemma keyed_dispatch {A} c r0 d keys (op : BatchRequest -> value -> value -> option entity_op)
    (m : BatchRequest -> value -> value -> proc db exn A)
    (k : BatchRequest -> A -> proc (BatchState (coll := coll)) exn text) :
  (forall r pk rk, ingested c r0 = Some r -> keys_of_request r0 = Some (pk, rk) ->
     performs account (getPath r0) (Some batchId) rid (op r pk rk) (m r pk rk) /\
     (forall o, op r pk rk = Some o -> request_op context batchId r0 modTime = Some o /\ checked_key pk rk o)) ->
  (forall r a s, (k r a s).2 = s) ->
  dispatched r0 d keys
    ((x ← begin_request JSON_parse c rid; let '(r, pk, rk) := x in (a ← on_db (m r pk rk); k r a))
       (mkBatchState d r0 keys)).
Proof.
  intros Hm Hk. unfold mbind at 1, proc_bind at 1.
  destruct (begin_runs c rid (mkBatchState d r0 keys)) as (s'&Hdb&[[e ->]|(r&pk&rk&->&Hing&Hkeys&Hu&Hnew&Hmap)]);
    [left; by exists e|]. cbn [bs_db bs_request partitionKeyMap] in *.
  destruct (Hm r pk rk Hing Hkeys) as [Hp Hop].
  destruct (performs_does _ _ _ _ _ (m r pk rk) (k r) s' Hp (Hk r)) as [(e&He&Hs)|(o&Ho&Hs&Hok&Hkm)].
  - left. exists e. rewrite <- Hdb. done.
  - right. destruct (Hop o Ho) as [Hreq (a&b&->&->&Hkey)]. exists o. rewrite <- Hdb, Hkey. split_and!; [done| |done|done| |].
    + by rewrite (request_partition_key _ _ _ Hkeys).
    + by apply new_key.
    + by rewrite Hkm, Hmap.
Qed.

Lemma ingested_path c r r' : ingested c r = Some r' -> getPath r' = getPath r.
Proof. unfold ingested, ingest_body, mbind, result_bind. intros Hr. repeat case_match; simplify_eq; done. Qed.

Lemma clone_addressed c r0 r : ingested c r0 = Some r -> addressed account (getPath r0) (clone r).
Proof. intros Hr. split; [done|]. cbn. by rewrite (ingested_path _ _ _ Hr). Qed.

(** The operation of a request, once its verb, parameters and keys are known. *)
Ltac by_verb :=
  case_bool_decide;
  try (exfalso; first
    [ congruence
    | match goal with H1 : getMethod ?r = js ?x, H2 : getMethod ?r = js ?y |- _ =>
        rewrite H1 in H2; vm_compute in H2; discriminate end ]).
Ltac described :=
  unfold request_op;
  match goal with H : keys_of_request _ = _ |- _ => rewrite H end; cbn [mbind option_bind];
  repeat by_verb;
  match goal with H : ingested _ _ = _ |- _ => rewrite H end; done.

Lemma query_dispatch r d keys :
  getMethod r = js "GET" ->
  dispatched r d keys (handleBatchQuery valid_date JSON_parse context modTime batchId (mkBatchState d r keys)).
Proof.
  intros Hv. unfold handleBatchQuery, current_request. unfold mbind at 1 2, proc_bind at 1 2, lift at 1. cbn [bs_request].
  destruct (extractKeys JSON_parse r) as [[pk rk]|e] eqn:Hk; [|left; by exists e].
  assert (Hkeys : keys_of_request r = Some (pk, rk)) by (unfold keys_of_request; by rewrite Hk).
  destruct (_ && _); [|left; by eexists]. unfold mbind at 1, proc_bind at 1.
  destruct (ingest_runs OtherParams (mkBatchState d r keys)) as (s'&Hdb&Hmap&[(e&->)|[-> Hing]]); [left; by exists e|].
  unfold mbind at 1, proc_bind at 1. cbn [bs_db partitionKeyMap bs_request] in *. set (r' := s'.(bs_request)) in *.
  assert (Hq : performs account (getPath r) (Some batchId) rid (get_op pk rk (clone r'))
    (queryEntitiesWithPartitionAndRowKey valid_date (Some (getPath r')) pk rk (options_of r' None) (clone r') : proc db exn Response)).
  { apply (queryEntity_handled valid_date account (getPath r) (Some (getPath r')) pk rk (options_of r' None) (clone r')); [exact (clone_addressed _ _ _ Hing)|].
    right. by rewrite (ingested_path _ _ _ Hing). }
  destruct (performs_does _ _ _ _ _ _
    (fun response => mret (serializeTableQueryEntityWithPartitionAndRowKeyBatchResponse r' response)) s' Hq ltac:(done))
    as [(e&He&Hs)|(o&Ho&Hs&Hok&Hkm)].
  - left. exists e. rewrite <- Hdb. split; [exact He|exact Hs].
  - right. exists o. rewrite <- Hdb. split_and!; [|..|exact Hok|]; [described| |exact Hs|].
    + rewrite (request_partition_key _ _ _ Hkeys). intros [= ->]. unfold get_op, getAndCheckKeys, getAndCheck in Ho. cbn in Ho. by rewrite Hpk in Ho.
    + unfold get_op in Ho. repeat case_match; simplify_eq. by rewrite Hkm.
Qed.

Lemma dispatch_cases r d keys :
  (getMethod r = js "POST" -> keys_in_body r) ->
  dispatched r d keys (routeAndDispatchBatchRequest valid_date JSON_parse context modTime batchId (mkBatchState d r keys)).
Proof.
  intros Hpost. unfold routeAndDispatchBatchRequest, current_request. unfold mbind at 1, proc_bind at 1. cbn [bs_request].
  by_verb; [|by_verb; [|by_verb; [|by_verb; [by apply query_dispatch|destruct (bool_decide _); [left; by eexists|]]]]].
  - apply (keyed_dispatch OtherParams r d keys (fun r _ _ => insert_op valid_date (options_of r None) (clone r))); [|done].
    intros r' pk rk Hing Hkeys. split; [exact (insertEntity_handled valid_date _ _ _ _ (clone_addressed _ _ _ Hing))|].
    intros o Ho. split; [described|]. apply (insert_op_key r pk rk r' modTime context batchId); auto.
  - apply (keyed_dispatch OtherParams r d keys (fun r pk rk =>
      upsert_op valid_date false pk rk (options_of r (header "if-match" r)) (clone r))); [|done].
    intros r' pk rk Hing Hkeys.
    split; [exact (updateEntity_handled valid_date _ _ _ _ _ _ (clone_addressed _ _ _ Hing))|].
    intros o Ho. split; [described|]. exact (upsert_op_key _ _ _ _ (clone r') _ Hpk Hrk Ho).
  - apply (keyed_dispatch DeleteParams r d keys (fun r pk rk =>
      delete_op pk rk (Some match header "if-match" r with Some ((_ :: _) as m) => m | _ => js "*" end) (clone r))); [|done].
    intros r' pk rk Hing Hkeys.
    split; [exact (deleteEntity_handled _ _ _ _ _ _ (clone_addressed _ _ _ Hing))|].
    intros o Ho. split; [described|]. exact (delete_op_key _ _ _ (clone r') _ Hpk Hrk Ho).
  - apply (keyed_dispatch OtherParams r d keys (fun r pk rk =>
      upsert_op valid_date true pk rk (options_of r (header "if-match" r)) (clone r))); [|done].
    intros r' pk rk Hing Hkeys.
    split; [exact (mergeEntity_handled valid_date _ _ _ _ _ _ (clone_addressed _ _ _ Hing))|].
    intros o Ho. split; [described|]. exact (upsert_op_key _ _ _ _ (clone r') _ Hpk Hrk Ho).
Qed.

End Dispatch.

(** ** The batch *)

(** A batch on one table, whose insertions have their keys in the body; the URL of
    the batch has no keys. *)
Record plain_batch (table : string) (context : TableStorageContext) (requests : list BatchRequest) : Prop := {
  pb_partitionKey : context.(cx_partitionKey) = None;
  pb_rowKey : context.(cx_rowKey) = None;
  pb_table : forall r, r ∈ requests -> getPath r = table;
  pb_insertions : forall r, r ∈ requests -> getMethod r = js "POST" -> keys_in_body r
}.

(** The keys a batch has used are those it checks against. *)
Definition covered (used : list key) (keys : list value) : Prop := forall k, k ∈ used -> VStr (k.1 ++ k.2) ∈ keys.

(** The answer to a request that failed, or the exception of one without a status. *)
Lemma batch_error context modTime batchId r err n :
  exists x, (payload ← getPayloadFormat (createBatchContextClone context modTime batchId r);
      t ← serializeError now jsonToXML err payload n r; Ok (ErrorResponse t)) = x /\
    (forall responses, x <> Ok (Responses responses)) /\ (forall e, x = Throw e -> e = TypeError).
Proof.
  assert (Hp : exists p, getPayloadFormat (createBatchContextClone context modTime batchId r) = Ok p)
    by (eexists; reflexivity).
  destruct Hp as [p ->]. eexists. split; [reflexivity|].
  destruct err; cbn [serializeError mbind result_bind]; split; congruence.
Qed.

Lemma submit_each_spec account table context batchId m (s0 : db) l :
  context.(cx_account) = Some account -> batchId <> EmptyString -> plain_batch table context l.*1 ->
  forall name d c used keys n done_,
  in_batch account table name m s0 d c used -> covered used keys ->
  exists r d' c' used',
    submit_each valid_date JSON_parse now jsonToXML context batchId keys n l done_ d = (r, d') /\
    in_batch account table name m s0 d' c' used' /\
    (forall responses, r = Ok (Responses responses) ->
       exists ops, mapM (fun x => request_op context batchId x.1 x.2) l = Some ops /\
         spec_batch context.(cx_contextID) ops (contents c) = Ok (contents c') /\
         length responses = (length done_ + length l)%nat /\
         forall x, x ∈ l -> extractRequestPartitionKey JSON_parse x.1 <> Ok VUndefined) /\
    (forall e, r = Throw e -> e = TypeError).
Proof.
  intros Hacc Hb. induction l as [|[r modTime] l IH]; intros [Hpk Hrk Htab Hins] name d c used keys n done_ Hin Hcov.
  { exists (Ok (Responses done_)), d, c, used. split_and!; [done..| |done]. intros responses [= <-]. exists [].
    split_and!; [done..|cbn; lia|by intros ? ?%elem_of_nil]. }
  cbn [submit_each].
  pose proof (dispatch_cases account context modTime batchId Hacc Hpk Hrk r d keys (Hins r (list_elem_of_here _ _))) as Hd.
  destruct (routeAndDispatchBatchRequest _ _ _ _ _ _) as [x s]. unfold dispatched in Hd. rewrite (Htab r (list_elem_of_here _ _)) in Hd.
  assert (Hrest : plain_batch table context l.*1) by (split; [done..| |]; intros r' Hr'; [apply Htab|apply Hins]; by right).
  destruct Hd as [(e&He&Hs)|(o&Ho&Hu&Hs&Hok&Hkey)]; cbn [fst snd] in *.
  { subst x. rewrite Hs. destruct (batch_error context modTime batchId s.(bs_request) e n) as (x&->&Hno&Hty).
    exists x, d, c, used. split_and!; [done..| |done]. by intros responses Hr%Hno. }
  destruct (run_op_in_batch account table (Some batchId) context.(cx_contextID) name o m s0 d c used)
    as (c1&d1&used1&Hop&Hin1&Hcon&Hused1); [by destruct batchId|done| |].
  { intros k Hk Hu'. rewrite Hk in Hkey. by apply (proj1 Hkey), Hcov. }
  rewrite Hop in Hs, Hok. cbn [fst snd] in Hs, Hok. rewrite Hs.
  assert (Hcov1 : covered used1 s.(partitionKeyMap)).
  { intros k [Hk|Hk]%Hused1.
    - apply Hcov in Hk. destruct (op_key o); [rewrite (proj2 Hkey); apply elem_of_app; by left|by rewrite Hkey].
    - rewrite Hk in Hkey. rewrite (proj2 Hkey). apply elem_of_app. right. left. }
  destruct x as [t|e].
  - destruct (IH Hrest name d1 c1 used1 s.(partitionKeyMap) (n + 1) (done_ ++ [t]) Hin1 Hcov1) as (r'&d'&c'&used'&Hrun&Hin'&Hres&Hty).
    exists r', d', c', used'. split_and!; [done..| |done]. intros responses Hr'.
    destruct (Hres responses Hr') as (ops&Hops&Hspec&Hlen&Hus). exists (o :: ops). split_and!.
    + cbn. rewrite Ho. cbn. by rewrite Hops.
    + cbn. specialize (Hok eq_refl). destruct (spec_op _ o (contents c)) as [answer m1]. cbn in Hok, Hcon.
      destruct answer; [|done]. by rewrite <- Hcon.
    + rewrite Hlen, length_app. cbn. lia.
    + intros x [->|Hx]%elem_of_cons; [done|by apply Hus].
  - destruct (batch_error context modTime batchId s.(bs_request) e n) as (x&->&Hno&Hty).
    exists x, d1, c1, used1. split_and!; [done..| |done]. by intros responses Hr%Hno.
Qed.

End Requests.

(** C20. A batch of requests is all or nothing: if every request succeeds, the table is changed
    by the operations they describe, in order, and there is a response for each; if one
    fails, the table holds what it held before the batch. Other tables are untouched and
    the store is ready for the next batch. That no two requests are on the same
    entity, which undoing them depends on, is not assumed: the check of the keys refuses
    such batches. An exception that is no [StorageError] is not caught: it escapes before the
    first request, which leaves the store as it is, or as a [TypeError]. The requests are on one table, which exists
    under exactly the name they give it (under a name in another case the rollback misses
    it), and insertions have their keys in the body. *)
Theorem batch_requests_atomic {coll} `{LokiLaws coll} valid_date JSON_parse now jsonToXML (stale : Z -> res unit)
    table context batchId b requests modTimes (s : TableDb coll ServiceProperty) :
  let account := default EmptyString context.(cx_account) in
  let name := getTableCollectionName account table in
  let m := view s !!! name in
  plain_batch table context requests -> batchId <> EmptyString -> length modTimes = length requests ->
  all_keyed s ->
  s.(transactionRollbackTheseEntities) = [] -> s.(transactionDeleteTheseEntities) = [] ->
  resolve account table s.(collections) = Some name ->
  let (r, s') := submitRequestsToHandlers valid_date JSON_parse now jsonToXML stale context batchId b requests modTimes s in
  match r with
  | Ok o =>
      match o with
      | Responses l =>
          length l = length requests /\
          exists ops m',
            mapM (fun x => request_op valid_date JSON_parse (with_account account context) batchId x.1 x.2)
              (zip requests modTimes) = Some ops /\
            spec_batch context.(cx_contextID) ops m = Ok m' /\ view s' = <[name := m']> (view s)
      | ErrorResponse _ => view s' = view s
      end /\
      all_keyed s' /\ s'.(tables) = s.(tables) /\ s'.(services) = s.(services) /\
      s'.(transactionRollbackTheseEntities) = [] /\ s'.(transactionDeleteTheseEntities) = []
  | Throw e => s' = s \/ e = TypeError
  end.
Proof.
  intros account name m Hplain Hb Hlen Hs Hrb Hdl Hn.
  destruct (resolve_some _ _ _ _ Hn) as [c Hc]. pose proof (Hs _ _ Hc) as Hk.
  assert (Hview : view s !! name = Some (contents c)) by (unfold view; by rewrite lookup_fmap, Hc).
  assert (Hm : m = contents c) by by apply lookup_total_correct.
  destruct requests as [|first rest].
  { cbn. split; [split; [done|]|done]. exists [], m. split_and!; [done..|]. rewrite Hm. symmetry. by apply insert_id. }
  set (requests := first :: rest) in *. unfold submitRequestsToHandlers, requests. fold requests. fold account.
  rewrite (pb_table _ _ _ Hplain first (list_elem_of_here _ _)).
  unfold mbind at 1, proc_bind at 1, lift.
  destruct (extractRequestPartitionKey JSON_parse first) as [pk|e] eqn:Hpk; [|by left].
  assert (Hbegin : forall w : bool, (if w then mret tt else beginBatchTransaction) s = (Ok tt, s)).
  { intros []; [done|]. unfold beginBatchTransaction. run. by rewrite Hrb, Hdl. }
  unfold mbind at 1, proc_bind at 1. rewrite Hbegin. unfold mbind at 1, proc_bind at 1.
  pose proof (in_batch_begin account table name s c Hn Hc Hk Hrb Hdl) as Hin.
  assert (Hp : plain_batch table (with_account account context) (zip requests modTimes).*1)
    by (rewrite fst_zip by lia; by destruct Hplain).
  assert (Hcov : covered [] []) by by intros k ?%elem_of_nil.
  destruct (submit_each_spec valid_date JSON_parse now jsonToXML account table (with_account account context) batchId
    (contents c) s (zip requests modTimes) eq_refl Hb Hp name s c [] [] 1 [] Hin Hcov) as (r&d'&c'&used'&Hrun&Hin'&Hres&Hty).
  rewrite Hrun. destruct r as [o|e]; [|right; by apply Hty].
  destruct (batch_end stale account table (contents c) s d' c' used' (success o) Hin' Hs) as (s'&Hend&Hv&Hrest).
  unfold mbind, proc_bind. rewrite Hend. cbn [mret proc_ret]. split; [|done]. destruct o as [l|t]; cbn [success] in Hv.
  - destruct (Hres l eq_refl) as (ops&Hops&Hspec&Hl&Hu).
    assert (Hfirst : pk <> VUndefined).
    { intros ->. destruct modTimes as [|t ts]; [done|]. by apply (Hu (first, t) (list_elem_of_here _ _)). }
    unfold is_undefined. rewrite bool_decide_eq_false_2 by done. split.
    + rewrite Hl, length_zip_with, Hlen. apply Nat.min_id.
    + exists ops, (contents c'). rewrite Hm. done.
  - rewrite Hv. by apply insert_id.
Qed.

(** ** Samples *)

(** [JSON.parse] of objects of strings without escapes. *)
Fixpoint to_quote (s : text) : text * text :=
  match s with
  | [] => ([], [])
  | u :: s => if u =? 34 then ([], s) else let (a, b) := to_quote s in (u :: a, b)
  end.
Fixpoint flat_pairs (fuel : nat) (s : text) : res object :=
  match fuel, s with
  | S fuel, 34 :: s =>
      let (k, s) := to_quote s in
      match s with
      | 58 :: 34 :: s =>
          let (v, s) := to_quote s in
          match s with
          | 44 :: s => o ← flat_pairs fuel s; Ok ((k, VStr v) :: o)
          | [125] => Ok [(k, VStr v)]
          | _ => Throw JsError
          end
      | _ => Throw JsError
      end
  | _, _ => Throw JsError
  end.
Definition flat_parse (s : text) : res object :=
  match s with 123 :: s => flat_pairs (length s) s | _ => Throw JsError end.

Definition flat_text (l : list (string * string)) : text :=
  js "{" ++ join_comma ((fun p => json_pair (js p.1) (in_quotes (js p.2))) <$> l) ++ js "}".

Definition sample_request (verb url : string) (body : text) : text :=
  line (js "--changeset_2fdc") ++ line (js "Content-Type: application/http")
  ++ line (js "Content-Transfer-Encoding: binary") ++ crlf ++ line (js verb ++ js " " ++ js url ++ js " HTTP/1.1")
  ++ line (js "Accept: application/json;odata=minimalmetadata") ++ line (js "If-Match: *") ++ crlf ++ line body.

Definition sample_batch (l : list text) : text :=
  line (js "--batch_a1e9") ++ line (js "Content-Type: multipart/mixed; boundary=changeset_2fdc") ++ crlf
  ++ mjoin l ++ line (js "--changeset_2fdc--") ++ line (js "--batch_a1e9--").

Definition requests_of (s : text) : list BatchRequest :=
  match deserializeBatchRequest s with Ok (_, l) => new_request <$> l | Throw _ => [] end.

Definition items_url : string := "http://127.0.0.1:10002/acc/items".
Definition insert_c : text :=
  sample_request "POST" items_url (flat_text [("PartitionKey", "p"); ("RowKey", "c"); ("note", "three")]%string).
Definition sample_requests : list BatchRequest :=
  requests_of (sample_batch
    [insert_c;
     sample_request "PUT" (items_url ++ "(PartitionKey='p',RowKey='b')") (flat_text [("note", "four")]%string);
     sample_request "DELETE" (items_url ++ "(PartitionKey='p',RowKey='a')") []]).

Definition sample_context : TableStorageContext :=
  mkTableContext (Some "acc"%string) (Some "$batch"%string) None None (Some "id"%string)
    (js "2024-01-01T00:00:00.0000001Z") EmptyString false
    (mkIRequest (fun _ => None) (fun _ => Ok None) (Ok None) (Ok (js "http"))).

Definition sample_store : TableDb map_coll ServiceProperty :=
  mkTableDb w_filled.(tables) lk_new w_filled.(collections) [] [].

Definition sample_times : list text := repeat (js "2024-01-01T00:00:00.0000002Z") 3.
Definition sample_time : text := js "2024-01-01T00:00:00.000Z".

Abbreviation submit_sample requests times :=
  (submitRequestsToHandlers (fun _ => true) flat_parse sample_time (fun _ _ => []) (fun _ => Ok tt) sample_context "b"
     (mkBatchSerialization (js "--batch_a1e9") (js "changeset_2fdc") crlf) requests times).

Lemma sample_plain : plain_batch "items" sample_context sample_requests.
Proof.
  assert (Hr : forallb (fun r => bool_decide (getPath r = "items"%string) && bool_decide (getMethod r = js "POST" -> keys_in_body r))
    sample_requests = true) by (vm_compute; reflexivity).
  rewrite forallb_forall in Hr. split; [done..| |]; intros r Hin%list_elem_of_In;
    by apply Hr, andb_prop in Hin as [?%bool_decide_eq_true ?%bool_decide_eq_true].
Qed.

Lemma sample_keyed : all_keyed sample_store.
Proof. exact w_filled_keyed. Qed.

Definition answered (r : res outcome) : bool := match r with Ok (Responses _) => true | _ => false end.

(** The three requests succeed. *)
Lemma batch_requests_atomic_witness :
  exists l ops m', (submit_sample sample_requests sample_times sample_store).1 = Ok (Responses l) /\
    length l = 3%nat /\ spec_batch (Some "id"%string) ops (view sample_store !!! "acc$items"%string) = Ok m' /\
    view (submit_sample sample_requests sample_times sample_store).2
      = <["acc$items"%string := m']> (view sample_store).
Proof.
  pose proof (batch_requests_atomic (fun _ => true) flat_parse sample_time (fun _ _ => []) (fun _ => Ok tt) "items"
    sample_context "b" (mkBatchSerialization (js "--batch_a1e9") (js "changeset_2fdc") crlf) sample_requests sample_times
    sample_store sample_plain ltac:(done) eq_refl sample_keyed eq_refl eq_refl eq_refl) as Hat.
  assert (Hok : answered (submit_sample sample_requests sample_times sample_store).1 = true) by (vm_compute; reflexivity).
  destruct (submit_sample sample_requests sample_times sample_store) as [[[l|t]|e] s']; [|done..].
  destruct Hat as ((Hlen&ops&m'&_&Hspec&Hv)&_). exists l, ops, m'.
  exact (conj eq_refl (conj Hlen (conj Hspec Hv))).
Defined.

(** The second request of this batch has a body that is no JSON. *)
Definition broken_requests : list BatchRequest :=
  requests_of (sample_batch [insert_c; sample_request "POST" items_url (js "{note}")]).

(** The batch ended in a [TypeError] with its first entity in the table and a list. *)
Definition escaped (x : res outcome * TableDb map_coll ServiceProperty) : bool :=
  match x with
  | (Throw TypeError, s) =>
      bool_decide (is_Some ((view s !!! "acc$items"%string) !! (js "p", js "c")))
      && Nat.eqb (length s.(transactionDeleteTheseEntities)) 1
  | _ => false
  end.

(** A request of a batch that fails with an exception that is no [StorageError], like one
    whose body is no JSON, stops the batch in the middle: its answer would need
    the status the exception does not have, so the batch ends in a [TypeError] without being undone or
    ended. What the requests before it did stays, and as the lists of the store stay filled no later batch, of
    whatever account, table and requests, gets past its beginning. *)
Theorem internal_error_blocks_batches :
  exists s', submit_sample broken_requests sample_times sample_store = (Throw TypeError, s') /\
    is_Some ((view s' !!! "acc$items"%string) !! (js "p", js "c")) /\
    forall valid_date JSON_parse now jsonToXML (stale : Z -> res unit) context batchId b first rest modTimes,
      (exists pk, extractRequestPartitionKey JSON_parse first = Ok pk /\ pk <> VUndefined) ->
      submitRequestsToHandlers valid_date JSON_parse now jsonToXML stale context batchId b (first :: rest) modTimes s'
        = (Throw JsError, s').
Proof.
  assert (Hrun : escaped (submit_sample broken_requests sample_times sample_store) = true) by (vm_compute; reflexivity).
  destruct (submit_sample broken_requests sample_times sample_store) as [[o|[]] s']; try done. exists s'. split; [done|].
  apply andb_prop in Hrun as [Hin%bool_decide_eq_true Hdl%Nat.eqb_eq]. split; [done|]. intros valid_date JSON_parse now jsonToXML stale context batchId b first rest modTimes (pk&Hpk&Hu).
  unfold submitRequestsToHandlers, mbind, proc_bind, lift. rewrite Hpk. unfold is_undefined.
  rewrite bool_decide_eq_false_2 by done. unfold beginBatchTransaction. run. by rewrite Hdl, orb_true_r.
Qed.
