(* ===== verification/BlobHttp.v ===== *)
(** * BlobHttp: what the blob handlers read of a request

    src/src/blob/utils/utils.ts and src/src/common/utils/utils.ts: the ranges of a
    download, the metadata among the headers, and the tags in a header. The strings
    of headers are Latin-1, those of the blob store likewise. Deserializing the
    parameters is generated code: the handlers get them as arguments. *)

From stdpp Require Import pretty.
From Stdlib Require Import Ascii.
From S2P Require Import Prelude Errors Extents Utf8 Texts TagQuery BlobModels.
From Stdlib Require Import String.
From S2P Require JsValues Uris.
Open Scope Z_scope.
Open Scope azurite_scope.

(** [IRequest], as far as the handlers use it. *)
Record HttpRequest := mkHttpRequest {
  getHeader : string -> option string;
  getRawHeaders : list string;
  getQuery : string -> option string;
  getBody : option text
}.

(** [BlobStorageContext], with the time of the clock. *)
Record BlobStorageContext := mkBlobStorageContext {
  ctx_account : string;
  ctx_container : string;
  ctx_blob : string;
  startTime : Z;
  contextId : option string;
  request : HttpRequest;
  clock : Z
}.

(** What the stores use of it. *)
Definition store_ctx (ctx : BlobStorageContext) : BlobContext := mkBlobContext ctx.(startTime) ctx.(contextId).

(** ** Strings *)

(** [s.split(c)] of a character. *)
Fixpoint split (c : Ascii.ascii) (s : string) : list string :=
  match s with
  | EmptyString => [EmptyString]
  | String d s =>
      if Ascii.eqb c d then EmptyString :: split c s
      else match split c s with x :: l => String d x :: l | [] => [] end
  end.

(** The string of units; a unit beyond Latin-1 becomes a character that is in no
    valid name or tag. *)
Definition char_of (u : Z) : Ascii.ascii :=
  if (0 <=? u) && (u <? 256) then Ascii.ascii_of_N (Z.to_N u) else Ascii.ascii_of_N 255.
Definition latin (t : text) : string := String.string_of_list_ascii (char_of <$> t).

(** [buffer.toString("base64")] of a buffer that is kept as a string. *)
Definition base64_string (b : string) : string := latin (to_base64 (js b)).
Definition base64_buffer (s : string) : string := latin (from_base64 (js s)).

(** [a || b] on strings that may be [undefined]. *)
Definition or_string (a b : option string) : option string := if nonempty a then a else b.

(** ** Numbers *)

(** [parseInt(s, 10)], [None] for [NaN]. *)
Definition parseInt (s : string) : option Z :=
  let (negative, r) := JsValues.signed (trim_start (js s)) in
  match (JsValues.digits r).1 with
  | [] => None
  | d => Some (if negative then - JsValues.of_digits 10 d else JsValues.of_digits 10 d)
  end.

(** A number that may be [NaN], or the value [undefined] in an operation on numbers. *)
Definition quantity (o : option Z) : Quantity := match o with Some z => Exact z | None => NotANumber end.

(** [>], [>=] and [===]. *)
Definition q_gt (a b : Quantity) : bool :=
  match a, b with
  | Exact x, Exact y => y <? x
  | Infinite, Exact _ => true
  | _, _ => false
  end.
Definition q_ge (a b : Quantity) : bool :=
  match a, b with
  | Exact x, Exact y => y <=? x
  | Infinite, Exact _ | Infinite, Infinite => true
  | _, _ => false
  end.
Definition q_same (a b : Quantity) : bool :=
  match a, b with
  | Exact x, Exact y => x =? y
  | Infinite, Infinite => true
  | _, _ => false
  end.

Definition q_add (a : Quantity) (z : Z) : Quantity := match a with Exact x => Exact (x + z) | _ => a end.

(** [a - b] of a [b] that is parsed. *)
Definition q_sub (a : Quantity) (b : option Z) : Quantity :=
  match a, b with
  | Exact x, Some y => Exact (x - y)
  | Infinite, Some _ => Infinite
  | _, _ => NotANumber
  end.

(** [Math.min(z, a)]. *)
Definition q_min (z : Z) (a : Quantity) : Quantity :=
  match a with Exact x => Exact (Z.min z x) | Infinite => Exact z | NotANumber => NotANumber end.

Definition q_text (a : Quantity) : string :=
  match a with Exact z => pretty z | Infinite => "Infinity" | NotANumber => "NaN" end.

(** [a % 512 !== 0]. *)
Definition unaligned (a : Quantity) : bool :=
  match a with Exact z => negb (Z.rem z 512 =? 0) | _ => true end.

(** ** Ranges *)

(** The start and the inclusive end; [undefined] without a header. *)
Definition deserializeRangeHeader (rangeHeaderValue xMsRangeHeaderValue : option string) :
    res (option (option Z * Quantity)) :=
  match or_string xMsRangeHeaderValue rangeHeaderValue with
  | None | Some EmptyString => Ok None
  | Some range =>
      match split "="%char range with
      | [_; spec] =>
          match split "-"%char spec with
          | [a] =>
              Ok (Some (parseInt a, Infinite))
          | [a; b] =>
              let startInclusive := parseInt a in
              let endInclusive := if b === EmptyString then Infinite else quantity (parseInt b) in
              throw_when (q_gt (quantity startInclusive) endInclusive) RangeError;;
              Ok (Some (startInclusive, endInclusive))
          | _ => Throw RangeError
          end
      | _ => Throw RangeError
      end
  end.

Definition deserializePageBlobRangeHeader (rangeHeaderValue xMsRangeHeaderValue : option string)
    (force512boundary : bool) : res (option Z * Quantity) :=
  ranges ← deserializeRangeHeader rangeHeaderValue xMsRangeHeaderValue;
  let '(startInclusive, endInclusive) := default (Some 0, Infinite) ranges in
  throw_when (force512boundary && unaligned (quantity startInclusive)) RangeError;;
  throw_when (force512boundary && (endInclusive !== Infinite) && unaligned (q_add endInclusive 1)) RangeError;;
  Ok (startInclusive, endInclusive).

(** ** Metadata *)

Definition is_letter (c : Ascii.ascii) : bool :=
  let n := Z.of_N (Ascii.N_of_ascii c) in
  ((65 <=? n) && (n <=? 90)) || ((97 <=? n) && (n <=? 122)) || (n =? 95).
Definition is_letter_or_digit (c : Ascii.ascii) : bool :=
  let n := Z.of_N (Ascii.N_of_ascii c) in is_letter c || ((48 <=? n) && (n <=? 57)).

(** [VALID_CSHARP_IDENTIFIER_REGEX]. *)
Definition is_identifier (key : string) : bool :=
  match String.list_ascii_of_string key with
  | c :: l => is_letter c && forallb is_letter_or_digit l
  | [] => false
  end.

Definition metadataPrefix : string := "x-ms-meta-".

(** [res[key]], which also finds what objects inherit. *)
Definition metadata_get (key : string) (l : list (string * string)) : option string :=
  match List.find (fun p => p.1 === key) l with
  | Some p => Some p.2
  | None =>
      if bool_decide (key ∈ JsValues.inherited_names) then
        Some (if key === "constructor"%string then "function Object() { [native code] }"
              else if key === "__proto__"%string then "[object Object]"
              else "function " ++ key ++ "() { [native code] }")%string
      else None
  end.

(** [res[key] = value]: the setter of [__proto__] ignores a string. *)
Definition metadata_set (key value : string) (l : list (string * string)) : list (string * string) :=
  if key === "__proto__"%string then l
  else if existsb (fun p => p.1 === key) l then (fun p => if p.1 === key then (key, value) else p) <$> l
  else l ++ [(key, value)].

(** The array has the names at even indexes and the values after them. *)
Fixpoint header_pairs (rawHeaders : list string) : list (string * string) :=
  match rawHeaders with
  | h :: v :: rest => (h, v) :: header_pairs rest
  | [h] => [(h, EmptyString)]
  | [] => []
  end.

(** The loop over the headers and their values; [None] while there was none. *)
Fixpoint metadata_loop (contextId : option string) (headers : list (string * string))
    (acc : option (list (string * string))) : res (option (list (string * string))) :=
  match headers with
  | [] => Ok acc
  | (header, value) :: rest =>
      if String.prefix metadataPrefix (toLowerCase header)
         && Nat.ltb (String.length metadataPrefix) (String.length header) then
        let key := String.substring (String.length metadataPrefix)
                     (String.length header - String.length metadataPrefix) header in
        throw_when (negb (is_identifier key)) (BlobErrors.getInvalidMetadata contextId);;
        let res := default [] acc in
        let value := match metadata_get key res with
                     | Some old => (old ++ "," ++ value)%string
                     | None => value
                     end in
        metadata_loop contextId rest (Some (metadata_set key value res))
      else metadata_loop contextId rest acc
  end.

Definition convertRawHeadersToMetadata (rawHeaders : list string) (contextId : option string) :
    res (option (list (string * string))) := metadata_loop contextId (header_pairs rawHeaders) None.

(** ** Tags *)

(** [decodeURIComponent(s.replace(/\+/g, '%20'))]. *)
Definition decode_tag (s : string) : res string :=
  t ← Uris.decodeURIComponent (mjoin ((fun u => if u =? 43 then js "%20" else [u]) <$> js s));
  Ok (latin t).

(** A tag without [=] has no value to decode. *)
Definition parse_tag (rawTag : string) : res BlobTag :=
  match split "="%char rawTag with
  | k :: rest =>
      key ← decode_tag k;
      match rest with
      | v :: _ => value ← decode_tag v; Ok (mkBlobTag key value)
      | [] => Throw TypeError
      end
  | [] => Throw TypeError
  end.

Fixpoint parse_tags (rawTags : list string) : res (list BlobTag) :=
  match rawTags with
  | [] => Ok []
  | t :: l => tag ← parse_tag t; tags ← parse_tags l; Ok (tag :: tags)
  end.

Definition getTagsFromString (blobTagsString : string) (contextID : option string) :
    res (option (list BlobTag)) :=
  if blobTagsString === EmptyString then Ok None
  else
    blobTags ← parse_tags (split "&"%char blobTagsString);
    _ ← validateBlobTag blobTags contextID;
    Ok (Some blobTags).

(** [options.blobTagsString === undefined ? undefined : getTagsFromString(...)]. *)
Definition tags_option (blobTagsString : option string) (contextID : option string) :
    res (option (list BlobTag)) :=
  match blobTagsString with None => Ok None | Some s => getTagsFromString s contextID end.

(** ** Responses *)

Record Response (A : Type) := mkResponse {
  items : A;
  date : option Z;
  requestId : option string;
  statusCode : Z;
  clientRequestId : option string
}.
Arguments mkResponse {A}.
Arguments items {A}.
Arguments date {A}.
Arguments requestId {A}.
Arguments statusCode {A}.
Arguments clientRequestId {A}.

(** A response with the time of the request. *)
Definition respond {A} (ctx : BlobStorageContext) (statusCode : Z) (clientId : option string) (x : A) : Response A :=
  mkResponse x (Some ctx.(startTime)) ctx.(contextId) statusCode clientId.

(** ** Examples *)

Example range_of_bytes : deserializeRangeHeader (Some "bytes=5-9"%string) None = Ok (Some (Some 5, Exact 9)).
Proof. vm_compute. reflexivity. Qed.
Example range_suffix : deserializeRangeHeader (Some "bytes=-500"%string) None = Ok (Some (None, Exact 500)).
Proof. vm_compute. reflexivity. Qed.
Example range_open : deserializePageBlobRangeHeader None (Some "bytes=512-"%string) true = Ok (Some 512, Infinite).
Proof. vm_compute. reflexivity. Qed.
Example metadata_repeated :
  convertRawHeadersToMetadata ["X-Ms-Meta-Key"; "a"; "Host"; "h"; "x-ms-meta-Key"; "b"; "x-ms-meta-other"]%string None
  = Ok (Some [("Key", "a,b"); ("other", "")]%string).
Proof. vm_compute. reflexivity. Qed.
Example metadata_inherited :
  convertRawHeadersToMetadata ["x-ms-meta-valueOf"; "v"]%string None
  = Ok (Some [("valueOf", "function valueOf() { [native code] },v")]%string).
Proof. vm_compute. reflexivity. Qed.
Example tags_decoded :
  getTagsFromString "a+b=1%2B2&c=d=e"%string None = Ok (Some [mkBlobTag "a b" "1+2"; mkBlobTag "c" "d"]).
Proof. vm_compute. reflexivity. Qed.

(** * The headers of ranges

    What the parsers of the range headers promise: a range that is a number
    starts at a position, and does not end before it. *)

From Stdlib Require Import Ascii.
Open Scope Z_scope.
Open Scope azurite_scope.

(** ** Splitting *)

Lemma split_no c s x : x ∈ split c s -> c ∉ String.list_ascii_of_string x.
Proof.
  revert x. induction s as [|d s IH]; cbn; intros x Hx.
  - apply list_elem_of_singleton in Hx as ->. cbn. apply not_elem_of_nil.
  - destruct (Ascii.eqb_spec c d) as [->|Hne].
    + apply elem_of_cons in Hx as [->|Hx]; [apply not_elem_of_nil|by apply IH].
    + destruct (split c s) as [|y l] eqn:Hs; [by apply elem_of_nil in Hx|].
      apply elem_of_cons in Hx as [->|Hx]; [|apply IH; by right].
      cbn. apply not_elem_of_cons. split; [done|]. apply IH. by left.
Qed.

(** ** Numbers without a minus *)

Lemma js_minus (s : string) : "-"%char ∉ String.list_ascii_of_string s -> 45 ∉ js s.
Proof.
  intros Hs Hj. apply Hs. unfold js in Hj. apply list_elem_of_fmap in Hj as (c&Hc&Hin).
  replace "-"%char with c; [done|]. unfold unit_of in Hc.
  rewrite <- (ascii_N_embedding c), <- (ascii_N_embedding "-"%char). f_equal. change (N_of_ascii "-"%char) with 45%N. lia.
Qed.

Lemma trim_start_elem u s : u ∈ trim_start s -> u ∈ s.
Proof.
  induction s as [|v s IH]; cbn; [done|]. destruct (is_space_unit v); [|done]. intros Hu. right. by apply IH.
Qed.

Lemma digits_nonneg s : Forall (fun d => 0 <= d) (JsValues.digits s).1.
Proof.
  induction s as [|u s IH]; cbn; [constructor|]. destruct (is_digit u) eqn:Hu; [|constructor].
  destruct (JsValues.digits s) as [d r]. cbn in *. constructor; [|done]. unfold is_digit in Hu. lia.
Qed.

Lemma of_digits_nonneg l : Forall (fun d => 0 <= d) l -> 0 <= JsValues.of_digits 10 l.
Proof.
  intros Hl. unfold JsValues.of_digits. assert (Hgen : forall a, 0 <= a -> 0 <= foldl (fun a d => 10 * a + d) a l); [|by apply Hgen].
  induction Hl as [|d l Hd _ IH]; intros a Ha; cbn; [done|]. apply IH. lia.
Qed.

Lemma parseInt_nonneg (s : string) n : "-"%char ∉ String.list_ascii_of_string s -> parseInt s = Some n -> 0 <= n.
Proof.
  intros Hs. unfold parseInt. assert (Hm : 45 ∉ trim_start (js s)).
  { intros Hm. by apply (js_minus s Hs), trim_start_elem. }
  destruct (JsValues.signed (trim_start (js s))) as [neg r] eqn:Hsg.
  assert (neg = false) as ->.
  { destruct (trim_start (js s)) as [|u t]; cbn in Hsg; [by injection Hsg|].
    apply not_elem_of_cons in Hm as [Hu _]. destruct (u =? 43); [by injection Hsg|].
    destruct (Z.eqb_spec u 45); [done|]. by injection Hsg. }
  pose proof (of_digits_nonneg _ (digits_nonneg r)) as Hd. destruct (JsValues.digits r).1; [done|]. by intros [= <-].
Qed.

(** ** Ranges *)

(** The end of a range that starts at [s]. *)
Definition ends_after (s : Z) (e : Quantity) : Prop :=
  match e with Exact n => s <= n | _ => True end.

Lemma deserializeRangeHeader_ok h x s e :
  deserializeRangeHeader h x = Ok (Some (Some s, e)) -> 0 <= s /\ ends_after s e.
Proof.
  unfold deserializeRangeHeader. destruct (or_string x h) as [[|c r]|]; [done| |done].
  destruct (split "=" (String c r)) as [|? [|spec [|]]]; [done..| |done].
  pose proof (split_no "-"%char spec) as Hno. destruct (split "-"%char spec) as [|a [|b [|]]]; [done| | |done].
  - intros [= Hs <-]. split; [|done]. eapply parseInt_nonneg; [|exact Hs]. apply Hno. by left.
  - set (q := if b === EmptyString then _ else _). destruct (q_gt _ q) eqn:Hgt; [done|]. cbn. intros [= Hs <-].
    split; [eapply parseInt_nonneg; [|exact Hs]; apply Hno; by left|].
    rewrite Hs in Hgt. destruct q; cbn in *; [lia|done..].
Qed.

Lemma deserializePageBlobRangeHeader_ok h x force o e :
  deserializePageBlobRangeHeader h x force = Ok (o, e) ->
  (forall s, o = Some s -> 0 <= s /\ ends_after s e) /\ (force = true -> is_Some o /\ e <> NotANumber).
Proof.
  unfold deserializePageBlobRangeHeader. destruct (deserializeRangeHeader h x) as [r|] eqn:Hr; [|done].
  cbn [mbind result_bind]. destruct r as [[s' e']|]; cbn [default].
  - unfold Datatypes.id. destruct (force && unaligned (quantity s')) eqn:H1; [done|].
    destruct (force && (e' !== Infinite) && _) eqn:H2; [done|]. cbn. intros [= <- <-]. split.
    + intros s ->. by eapply deserializeRangeHeader_ok.
    + intros ->. cbn in *. split; [by destruct s'|]. by intros ->.
  - destruct force; cbn; intros [= <- <-]; (split; [intros ? [= <-]; split; [lia|done]|by split; [|intros ?]]).
Qed.
