(* ===== verification/BlobHandlers.v ===== *)
(** * BlobHandlers: the requests on the content of blobs

    src/src/blob/handlers/BlockBlobHandler.ts, AppendBlobHandler.ts,
    PageBlobHandler.ts and the downloads of BlobHandler.ts, over the blob metadata
    store and any extent store. The optional parameters a request has after its
    deserialization are arguments; [md5] is the hash, and [parseXML] gives the
    children in order of the root of a document. New etags and ids are in [Env]. The
    fixed headers of the responses ([version], [isServerEncrypted],
    [acceptRanges]) are left out. *)

From stdpp Require Import pretty.
From S2P Require Import Prelude Errors Extents Loki Utf8 Texts TagQuery Conditions Lease PageRanges.
From S2P Require Import BlobModels BlobContainers BlobStore BlobHttp.
Open Scope Z_scope.
Open Scope azurite_scope.

Definition MAX_APPEND_BLOB_BLOCK_SIZE : Z := 100 * 1024 * 1024.
Definition DOWNLOAD_MD5_MAX : Z := 4 * 1024 * 1024.

(** The MD5 a client sends: a header is a base64 string, a parameter bytes. *)
Inductive Md5 := Md5String (s : string) | Md5Bytes (b : string).

(** Which of them counts; [parameter] is what the deserializer made of its header. *)
Definition given_md5 (rq : HttpRequest) (parameter : option string) : option Md5 :=
  if nonempty (rq.(getHeader) "content-md5"%string) || nonempty (rq.(getHeader) "x-ms-blob-content-md5"%string) then
    match parameter with
    | Some b => Some (Md5Bytes b)
    | None => Md5String <$> rq.(getHeader) "content-md5"%string
    end
  else None.

Definition check_md5 (contextId : option string) (contentMD5 : option Md5) (calculated : string) : res unit :=
  let mismatch := BlobErrors.getInvalidOperation contextId "Provided contentMD5 doesn't match." in
  match contentMD5 with
  | None => Ok tt
  | Some (Md5String s) => throw_when (s !== base64_string calculated) mismatch;; Ok tt
  | Some (Md5Bytes b) => throw_when (b !== calculated) mismatch;; Ok tt
  end.

(** What a client asks for of a write. *)
Record WriteOptions := mkWriteOptions {
  wo_blobHTTPHeaders : option BlobHTTPHeaders;
  wo_blobTagsString : option string;
  wo_tier : option string;
  wo_leaseId : option string;
  wo_mac : option ModifiedAccessConditions;
  wo_requestId : option string
}.

(** What it gets back. *)
Record Written := mkWritten {
  w_eTag : string;
  w_lastModified : Z;
  w_contentMD5 : option string
}.

Definition default_content_type : string := "application/octet-stream".

(** [options.blobContentType || request.getHeader("content-type") || ...]. *)
Definition content_type (h : BlobHTTPHeaders) (header : option string) : string :=
  str_or (default EmptyString h.(contentType)) (str_or (default EmptyString header) default_content_type).

Definition with_content (contentType : string) (md5 : option string) (h : BlobHTTPHeaders) : BlobHTTPHeaders :=
  mkHeaders h.(cacheControl) (Some contentType) md5 h.(contentEncoding) h.(contentLanguage) h.(contentDisposition).

(** The tier of a new block blob; [Hot] is inferred without one. *)
Definition upload_tier (contextId tier : option string) : res (string * bool) :=
  match tier with
  | None => Ok ("Hot"%string, true)
  | Some t =>
      match parseTier t with
      | Some t => Ok (t, false)
      | None => Throw (BlobErrors.getInvalidHeaderValue contextId
                         [("HeaderName", "x-ms-access-tier"); ("HeaderValue", t)]%string)
      end
  end.

Definition validateBlockId (contextId : option string) (blockId : string) : res unit :=
  let rawBlockId := base64_buffer blockId in
  throw_when (blockId !== base64_string rawBlockId)
    (BlobErrors.getInvalidQueryParameterValue contextId (Some "blockid"%string) (Some blockId)
       (Some "Not a valid base64 string."%string));;
  throw_when (Nat.ltb 64 (String.length rawBlockId))
    (BlobErrors.getOutOfRangeInput contextId (Some "blockid"%string) (Some blockId)
       (Some "Block ID length cannot exceed 64."%string));;
  Ok tt.

(** [listType.toLowerCase() === ...], of which [undefined] is none. *)
Definition lists (listType : option string) (what : string) : bool :=
  match listType with Some t => toLowerCase t === what | None => false end.

(** The entries of a block list: the text and the name of each element. *)
Fixpoint commit_entries (badRequest : exn) (l : list (option string * option string)) :
    res (list (string * string)) :=
  match l with
  | [] => Ok []
  | (Some blockID, Some blockCommitType) :: l =>
      r ← commit_entries badRequest l; Ok ((blockID, blockCommitType) :: r)
  | _ => Throw badRequest
  end.

(** The end of a download that reaches beyond the blob is its last byte. *)
Definition normalize_end (contextId : option string) (contentLength start : option Z) (end_ : Quantity) :
    res Quantity :=
  let length := quantity contentLength in
  let invalid := BlobErrors.getInvalidPageRange2 contextId
    ("bytes */" ++ match contentLength with Some n => pretty n | None => "undefined" end)%string in
  throw_when (q_gt (quantity start) length) invalid;;
  if q_ge (q_add end_ 1) length then
    throw_when ((contentLength === Some 0) && (end_ !== Exact 0) && (end_ !== Infinite)) invalid;;
    Ok (q_add length (-1))
  else Ok end_.

Definition content_range (start : option Z) (end_ : Quantity) (contentLength : option Z) : string :=
  ("bytes " ++ q_text (quantity start) ++ "-" ++ q_text end_ ++ "/"
   ++ match contentLength with Some n => pretty n | None => "undefined" end)%string.

(** The response to a download; [dl_blob] has the properties and the metadata. *)
Record Download := mkDownload {
  dl_body : bytes;
  dl_blob : BlobModel;
  dl_headers : BlobHTTPHeaders;
  dl_contentLength : Quantity;
  dl_contentRange : option string;
  dl_contentMD5 : option string;
  dl_tagCount : option Z;
  dl_blobCommittedBlockCount : option Z
}.

Section Handlers.
Context {coll : Type -> Type} `{Loki coll} {P E : Type} `{IExtentStore E} `{!IExtentReader E}.
Context (md5 : bytes -> string) (parseXML : text -> res (option (list (option string * option string)))).

Record BlobService := mkBlobService {
  metadataStore : BlobDb coll P;
  extentStore : E
}.

Abbreviation service := (proc BlobService exn).

Definition on_db {A} (f : proc (BlobDb coll P) exn A) : service A :=
  fun s => let (r, d) := f s.(metadataStore) in (r, mkBlobService d s.(extentStore)).
Definition on_extents {A} (f : proc E exn A) : service A :=
  fun s => let (r, e) := f s.(extentStore) in (r, mkBlobService s.(metadataStore) e).
Definition check (ok : bool) (e : exn) : service unit := if ok then mret tt else throw e.

(** [extentStore.appendExtent], and the comparison with the length announced. *)
Definition persist (ctx : BlobStorageContext) (body : bytes) (contentLength : Z) (extentId : string) :
    service IExtentChunk :=
  persistency ← on_extents (appendExtent body extentId ctx.(clock) ctx.(contextId));
  _ ← check (persistency.(count) =? contentLength)
        (BlobErrors.getInvalidOperation ctx.(contextId)
           ("The size of the request body " ++ pretty persistency.(count) ++
            " mismatches the content-length " ++ pretty contentLength ++ ".")%string);
  mret persistency.

(** [getMD5FromStream(await this.extentStore.readExtent(persistency))]. *)
Definition md5_of (persistency : IExtentChunk) : service string :=
  s ← get_state;
  stream ← lift (readExtent (Some persistency) s.(extentStore));
  mret (md5 stream).

(** ** Block blobs *)

Definition upload (env : Env) (body : bytes) (contentLength : Z) (options : WriteOptions) (extentId : string)
    (ctx : BlobStorageContext) : service (Response Written) :=
  let h := default no_headers options.(wo_blobHTTPHeaders) in
  let rq := ctx.(request) in
  _ ← on_db (checkContainerExist (store_ctx ctx) ctx.(ctx_account) ctx.(ctx_container));
  persistency ← persist ctx body contentLength extentId;
  calculated ← md5_of persistency;
  _ ← lift (check_md5 ctx.(contextId) (given_md5 rq h.(contentMD5)) calculated);
  metadata ← lift (convertRawHeadersToMetadata rq.(getRawHeaders) ctx.(contextId));
  tags ← lift (tags_option options.(wo_blobTagsString) ctx.(contextId));
  tier ← lift (upload_tier ctx.(contextId) options.(wo_tier));
  let blob :=
    mkBlob ctx.(ctx_account) ctx.(ctx_container) ctx.(ctx_blob) EmptyString true
      (mkProperties (Some ctx.(startTime)) ctx.(startTime) env.(newEtag) (Some contentLength)
         (with_content (content_type h (rq.(getHeader) "content-type"%string)) (Some calculated) h)
         (Some BlockBlob) (Some tier.1) (Some tier.2) (Some ctx.(startTime)) None None None None)
      newBlobLease metadata tags None None (Some persistency) in
  _ ← on_db (createBlob (store_ctx ctx) blob options.(wo_leaseId) options.(wo_mac));
  mret (respond ctx 201 options.(wo_requestId)
          (mkWritten env.(newEtag) ctx.(startTime) blob.(b_properties).(bp_headers).(contentMD5))).

Definition stageBlock (env : Env) (blockId : string) (contentLength : Z) (body : bytes)
    (transactionalContentMD5 leaseId clientId : option string) (extentId : string) (ctx : BlobStorageContext) :
    service (Response unit) :=
  _ ← lift (validateBlockId ctx.(contextId) blockId);
  _ ← on_db (checkContainerExist (store_ctx ctx) ctx.(ctx_account) ctx.(ctx_container));
  persistency ← persist ctx body contentLength extentId;
  calculated ← md5_of persistency;
  _ ← lift (check_md5 ctx.(contextId) (given_md5 ctx.(request) transactionalContentMD5) calculated);
  let block := mkBlockModel ctx.(ctx_account) ctx.(ctx_container) ctx.(ctx_blob) false
                 (mkBlock blockId contentLength persistency) in
  _ ← on_db (BlobStore.stageBlock env (store_ctx ctx) block leaseId);
  mret (respond ctx 201 clientId tt).

Definition commitBlockList (env : Env) (options : WriteOptions) (ctx : BlobStorageContext) :
    service (Response Written) :=
  let h := default no_headers options.(wo_blobHTTPHeaders) in
  let contentType := str_or (default EmptyString h.(contentType)) default_content_type in
  let badRequestError := BlobErrors.getInvalidOperation ctx.(contextId) EmptyString in
  match ctx.(request).(getBody) with
  | None => throw badRequestError
  | Some rawBody =>
      parsed ← lift (match parseXML rawBody with
                     | Ok p => Ok p
                     | Throw _ => Throw (BlobErrors.getInvalidXmlDocument ctx.(contextId))
                     end);
      commitBlockList ← lift (commit_entries badRequestError (default [] parsed));
      tags ← lift (tags_option options.(wo_blobTagsString) ctx.(contextId));
      metadata ← lift (convertRawHeadersToMetadata ctx.(request).(getRawHeaders) ctx.(contextId));
      tier ← lift (upload_tier ctx.(contextId) options.(wo_tier));
      let inferred := match options.(wo_tier) with None => Some true | Some _ => None end in
      let blob :=
        mkBlob ctx.(ctx_account) ctx.(ctx_container) ctx.(ctx_blob) EmptyString true
          (mkProperties (Some ctx.(startTime)) ctx.(startTime) env.(newEtag) None
             (with_content contentType h.(contentMD5) h)
             (Some BlockBlob) (Some tier.1) inferred None None None None None)
          noLease metadata tags None None None in
      _ ← on_db (BlobStore.commitBlockList (store_ctx ctx) blob commitBlockList options.(wo_leaseId)
                   options.(wo_mac));
      mret (respond ctx 201 options.(wo_requestId)
              (mkWritten env.(newEtag) ctx.(startTime) (Some (md5 (Buffer_from rawBody)))))
  end.

(** The properties, and the uncommitted and the committed blocks as asked for. *)
Definition getBlockList (listType snapshot leaseId : option string) (mac : option ModifiedAccessConditions)
    (clientId : option string) (ctx : BlobStorageContext) :
    service (Response (BlobProperties * list BlockModel * list PersistencyBlockModel)) :=
  r ← on_db (BlobStore.getBlockList (store_ctx ctx) ctx.(ctx_account) ctx.(ctx_container) ctx.(ctx_blob)
               snapshot None leaseId mac);
  let '(properties, uncommittedBlocks, committedBlocks) := r in
  mret (respond ctx 200 clientId
    (properties,
     if lists listType "all" || lists listType "uncommitted" then uncommittedBlocks else [],
     if undefined listType || lists listType "all" || lists listType "committed" then committedBlocks else [])).

Definition putBlobFromUrl (ctx : BlobStorageContext) : service unit :=
  throw (BlobErrors.NotImplementedError ctx.(contextId)).
Definition stageBlockFromURL (ctx : BlobStorageContext) : service unit :=
  throw (BlobErrors.NotImplementedError ctx.(contextId)).

(** ** Append blobs *)

(** A new blob that is no block blob: its arrays are empty. *)
Definition new_blob (env : Env) (t : BlobType) (contentLength : Z) (sequence : option Z) (sealed : option bool)
    (options : WriteOptions) (metadata : option (list (string * string))) (tags : option (list BlobTag))
    (blocks ranges : option Ref) (ctx : BlobStorageContext) : BlobModel :=
  let h := default no_headers options.(wo_blobHTTPHeaders) in
  mkBlob ctx.(ctx_account) ctx.(ctx_container) ctx.(ctx_blob) EmptyString true
    (mkProperties (Some ctx.(startTime)) ctx.(startTime) env.(newEtag) (Some contentLength)
       (with_content (content_type h (ctx.(request).(getHeader) "content-type"%string)) h.(contentMD5) h)
       (Some t) None None None sequence sealed None None)
    newBlobLease metadata tags blocks ranges None.

Definition created (env : Env) (options : WriteOptions) (ctx : BlobStorageContext) : Response Written :=
  respond ctx 201 options.(wo_requestId)
    (mkWritten env.(newEtag) ctx.(startTime) (default no_headers options.(wo_blobHTTPHeaders)).(contentMD5)).

Definition createAppendBlob (loose : bool) (env : Env) (contentLength : Z) (options : WriteOptions)
    (ctx : BlobStorageContext) : service (Response Written) :=
  _ ← check ((contentLength =? 0) || loose)
        (BlobErrors.getInvalidOperation ctx.(contextId) "Content-Length must be 0 for Create Append Blob request.");
  metadata ← lift (convertRawHeadersToMetadata ctx.(request).(getRawHeaders) ctx.(contextId));
  tags ← lift (tags_option options.(wo_blobTagsString) ctx.(contextId));
  r ← on_db (new_blocks []);
  _ ← on_db (createBlob (store_ctx ctx)
        (new_blob env AppendBlob 0 None (Some false) options metadata tags (Some r) None ctx)
        options.(wo_leaseId) options.(wo_mac));
  mret (created env options ctx).

Record Appended := mkAppended {
  ap_eTag : string;
  ap_lastModified : Z;
  ap_contentMD5 : option string;
  ap_blobAppendOffset : string;
  ap_blobCommittedBlockCount : Z
}.

Definition appendBlock (env : Env) (body : bytes) (contentLength : Z) (leaseId : option string)
    (mac : option ModifiedAccessConditions) (apac : AppendPositionAccessConditions) (clientId : option string)
    (extentId : string) (ctx : BlobStorageContext) : service (Response Appended) :=
  _ ← check (contentLength <=? MAX_APPEND_BLOB_BLOCK_SIZE) (BlobErrors.getRequestEntityTooLarge ctx.(contextId));
  _ ← check (negb (contentLength =? 0))
        (BlobErrors.getInvalidHeaderValue ctx.(contextId)
           [("HeaderName", "content-length"); ("HeaderValue", "0")]%string);
  blob ← on_db (downloadBlob (store_ctx ctx) ctx.(ctx_account) ctx.(ctx_container) ctx.(ctx_blob) None None None);
  _ ← check (blob.(b_properties).(bp_blobType) === Some AppendBlob)
        (BlobErrors.getBlobInvalidBlobType ctx.(contextId));
  s ← get_state;
  let committedBlockCount := Z.of_nat (length (blocks_of blob s.(metadataStore))) in
  _ ← check (committedBlockCount <? MAX_APPEND_BLOB_BLOCK_COUNT)
        (BlobErrors.getBlockCountExceedsLimit ctx.(contextId));
  extent ← persist ctx body contentLength extentId;
  let contentMD5 := ctx.(request).(getHeader) "content-md5"%string in
  _ ← match contentMD5 with
      | None => mret tt
      | Some given =>
          calculated ← md5_of extent;
          check (given === base64_string calculated)
            (BlobErrors.getMd5Mismatch ctx.(contextId) given (base64_string calculated))
      end;
  properties ← on_db (BlobStore.appendBlock env (store_ctx ctx)
    (mkBlockModel ctx.(ctx_account) ctx.(ctx_container) ctx.(ctx_blob) true
       (mkBlock EmptyString extent.(count) extent)) leaseId mac apac);
  mret (respond ctx 201 clientId
    (mkAppended properties.(bp_etag) properties.(bp_lastModified) (base64_buffer <$> contentMD5)
       (match blob.(b_properties).(bp_contentLength) with Some n => pretty n | None => "undefined" end)
       (committedBlockCount + 1))).

Definition appendBlockFromUrl (ctx : BlobStorageContext) : service unit :=
  throw (BlobErrors.NotImplementedError ctx.(contextId)).

(** The etag, the time and whether the blob is sealed. *)
Definition seal (env : Env) (leaseId : option string) (mac : option ModifiedAccessConditions)
    (clientId : option string) (ctx : BlobStorageContext) : service (Response (string * Z * option bool)) :=
  p ← on_db (sealBlob env (store_ctx ctx) ctx.(ctx_account) ctx.(ctx_container) ctx.(ctx_blob) leaseId mac);
  mret (respond ctx 200 clientId (p.(bp_etag), p.(bp_lastModified), p.(bp_isSealed))).

(** ** Page blobs *)

Definition createPageBlob (env : Env) (contentLength blobContentLength : Z) (blobSequenceNumber : option Z)
    (options : WriteOptions) (ctx : BlobStorageContext) : service (Response Written) :=
  _ ← check (undefined options.(wo_tier)) (BlobErrors.getAccessTierNotSupportedForBlobType ctx.(contextId));
  _ ← check (contentLength =? 0)
        (BlobErrors.getInvalidOperation ctx.(contextId) "Content-Length must be 0 for Create Page Blob request.");
  _ ← check (negb (unaligned (Exact blobContentLength)))
        (BlobErrors.getInvalidOperation ctx.(contextId)
           "x-ms-content-length must be aligned to a 512-byte boundary.");
  metadata ← lift (convertRawHeadersToMetadata ctx.(request).(getRawHeaders) ctx.(contextId));
  tags ← lift (tags_option options.(wo_blobTagsString) ctx.(contextId));
  r ← on_db (new_ranges []);
  _ ← on_db (createBlob (store_ctx ctx)
        (new_blob env PageBlob blobContentLength (Some (default 0 blobSequenceNumber)) None options metadata tags
           None (Some r) ctx)
        options.(wo_leaseId) options.(wo_mac));
  mret (created env options ctx).

(** What a write of pages gets back: the etag, the time and the sequence number. *)
Record PagesWritten := mkPagesWritten {
  pw_eTag : string;
  pw_lastModified : Z;
  pw_blobSequenceNumber : option Z
}.

(** The header of the range of a write; whatever the deserializer throws is a bad
    range. *)
Definition write_range (ctx : BlobStorageContext) : res (option Z * Quantity) :=
  match deserializePageBlobRangeHeader (ctx.(request).(getHeader) "range"%string)
          (ctx.(request).(getHeader) "x-ms-range"%string) true with
  | Ok r => Ok r
  | Throw _ => Throw (BlobErrors.getInvalidPageRange ctx.(contextId))
  end.

(** A blob that is open for a write of pages. *)
Definition page_blob (leaseId : option string) (ctx : BlobStorageContext) : service BlobModel :=
  blob ← on_db (downloadBlob (store_ctx ctx) ctx.(ctx_account) ctx.(ctx_container) ctx.(ctx_blob) None leaseId None);
  _ ← check (blob.(b_properties).(bp_blobType) === Some PageBlob)
        (BlobErrors.getBlobInvalidBlobType ctx.(contextId));
  mret blob.

(** The last position of a range up to [Infinity]: no range ends after it. *)
Definition last_position (start : Z) (end_ : Quantity) (ranges : list PersistencyPageRange) : Z :=
  match end_ with
  | Exact e => e
  | _ => foldr (fun r n => Z.max r.(PageRanges.end_) n) start ranges
  end.

(** A range that is aligned starts at a number. *)
Definition uploadPages (env : Env) (body : bytes) (contentLength : Z) (leaseId : option string)
    (mac : option ModifiedAccessConditions) (snac : option SequenceNumberAccessConditions)
    (clientId : option string) (extentId : string) (ctx : BlobStorageContext) :
    service (Response PagesWritten) :=
  let invalid := BlobErrors.getInvalidPageRange ctx.(contextId) in
  _ ← check (negb (unaligned (Exact contentLength)))
        (BlobErrors.getInvalidOperation ctx.(contextId)
           "content-length or x-ms-content-length must be aligned to a 512-byte boundary.");
  blob ← page_blob leaseId ctx;
  _ ← lift (BlobWriteLeaseValidator leaseId (BlobLeaseAdapter blob.(b_lease)).1 (lease_ctx (store_ctx ctx)));
  range ← lift (write_range ctx);
  _ ← check (q_same (q_add (q_sub range.2 range.1) 1) (Exact contentLength)) invalid;
  _ ← check (negb (q_ge (quantity range.1) (quantity blob.(b_properties).(bp_contentLength)))) invalid;
  persistency ← persist ctx body contentLength extentId;
  s ← get_state;
  let start := default 0 range.1 in
  res ← on_db (BlobStore.uploadPages env (store_ctx ctx) blob start
          (last_position start range.2 (ranges_of blob s.(metadataStore))) persistency leaseId mac snac);
  mret (respond ctx 201 clientId
          (mkPagesWritten res.(bp_etag) ctx.(startTime) res.(bp_blobSequenceNumber))).

Definition clearPages (env : Env) (contentLength : Z) (leaseId : option string)
    (mac : option ModifiedAccessConditions) (snac : option SequenceNumberAccessConditions)
    (clientId : option string) (ctx : BlobStorageContext) : service (Response PagesWritten) :=
  let invalid := BlobErrors.getInvalidPageRange ctx.(contextId) in
  _ ← check (contentLength =? 0)
        (BlobErrors.getInvalidOperation ctx.(contextId)
           "content-length or x-ms-content-length must be 0 for clear pages operation.");
  blob ← page_blob leaseId ctx;
  range ← lift (write_range ctx);
  _ ← check (negb (q_ge (quantity range.1) (quantity blob.(b_properties).(bp_contentLength)))) invalid;
  s ← get_state;
  let start := default 0 range.1 in
  res ← on_db (BlobStore.clearRange env (store_ctx ctx) blob start
          (last_position start range.2 (ranges_of blob s.(metadataStore))) leaseId mac snac);
  mret (respond ctx 201 clientId
          (mkPagesWritten res.(bp_etag) ctx.(startTime) res.(bp_blobSequenceNumber))).

(** No comparison with [NaN] holds, so that a range of it cuts everything off. *)
Definition cut (ranges : list PersistencyPageRange) (start : option Z) (end_ : Quantity) :
    res (list PersistencyPageRange) :=
  match start, end_ with
  | None, _ | _, NotANumber => Ok []
  | Some s, _ => cutRanges ranges (mkPageRange s (last_position s end_ ranges))
  end.

(** The ranges, the etag and the length of the blob. *)
Definition getPageRanges (snapshot leaseId : option string) (mac : option ModifiedAccessConditions)
    (clientId : option string) (ctx : BlobStorageContext) :
    service (Response (list PersistencyPageRange * string * option Z)) :=
  r ← on_db (BlobStore.getPageRanges (store_ctx ctx) ctx.(ctx_account) ctx.(ctx_container) ctx.(ctx_blob)
               snapshot leaseId mac);
  let p := r.1 in
  _ ← check (p.(bp_blobType) === Some PageBlob) (BlobErrors.getBlobInvalidBlobType ctx.(contextId));
  ranges ← lift (deserializePageBlobRangeHeader (ctx.(request).(getHeader) "range"%string)
                   (ctx.(request).(getHeader) "x-ms-range"%string) false);
  _ ← check (negb (q_ge (quantity ranges.1) (quantity p.(bp_contentLength))))
        (BlobErrors.getInvalidPageRange ctx.(contextId));
  impactedRanges ← lift (cut (default [] r.2) ranges.1 ranges.2);
  mret (respond ctx 200 clientId (impactedRanges, p.(bp_etag), p.(bp_contentLength))).

Definition pages_changed (ctx : BlobStorageContext) (clientId : option string) (p : BlobProperties) :
    Response PagesWritten :=
  respond ctx 200 clientId (mkPagesWritten p.(bp_etag) p.(bp_lastModified) p.(bp_blobSequenceNumber)).

Definition resize (env : Env) (blobContentLength : Z) (leaseId : option string)
    (mac : option ModifiedAccessConditions) (clientId : option string) (ctx : BlobStorageContext) :
    service (Response PagesWritten) :=
  _ ← check (negb (unaligned (Exact blobContentLength)))
        (BlobErrors.getInvalidOperation ctx.(contextId)
           "x-ms-blob-content-length must be aligned to a 512-byte boundary for Page Blob Resize request.");
  res ← on_db (resizePageBlob env (store_ctx ctx) ctx.(ctx_account) ctx.(ctx_container) ctx.(ctx_blob)
                 blobContentLength leaseId mac);
  mret (pages_changed ctx clientId res).

Definition updateSequenceNumber (env : Env) (sequenceNumberAction : SequenceNumberActionType)
    (blobSequenceNumber : option Z) (leaseId : option string) (mac : option ModifiedAccessConditions)
    (clientId : option string) (ctx : BlobStorageContext) : service (Response PagesWritten) :=
  res ← on_db (BlobStore.updateSequenceNumber env (store_ctx ctx) ctx.(ctx_account) ctx.(ctx_container)
                 ctx.(ctx_blob) sequenceNumberAction blobSequenceNumber leaseId mac);
  mret (pages_changed ctx clientId res).

Definition uploadPagesFromURL (ctx : BlobStorageContext) : service unit :=
  throw (BlobErrors.NotImplementedError ctx.(contextId)).
Definition getPageRangesDiff (ctx : BlobStorageContext) : service unit :=
  throw (BlobErrors.NotImplementedError ctx.(contextId)).
Definition copyIncremental (ctx : BlobStorageContext) : service unit :=
  throw (BlobErrors.NotImplementedError ctx.(contextId)).

(** ** Downloads *)

Record DownloadOptions := mkDownloadOptions {
  do_snapshot : option string;
  do_leaseId : option string;
  do_mac : option ModifiedAccessConditions;
  do_requestId : option string
}.

(** [getQuery(name) ?? ...] on the headers of the blob. *)
Definition overridden (rq : HttpRequest) (h : BlobHTTPHeaders) : BlobHTTPHeaders :=
  let pick (name : string) (old : option string) :=
    match rq.(getQuery) name with Some v => Some v | None => old end in
  mkHeaders (pick "rscc"%string h.(cacheControl)) (pick "rsct"%string h.(contentType)) h.(contentMD5)
    (pick "rsce"%string h.(contentEncoding)) (pick "rscl"%string h.(contentLanguage))
    (pick "rscd"%string h.(contentDisposition)).

(** The MD5 of the whole blob is stored; up to 4 MB that of the body is calculated. *)
Definition download_md5 (blob : BlobModel) (contentLength : Quantity) (body : bytes) : option string :=
  let whole := q_same contentLength (quantity blob.(b_properties).(bp_contentLength)) in
  match (if whole then blob.(b_properties).(bp_headers).(contentMD5) else None) with
  | Some m => Some m
  | None => if q_ge (Exact DOWNLOAD_MD5_MAX) contentLength then Some (md5 body) else None
  end.

Definition download_response (ctx : BlobStorageContext) (options : DownloadOptions) (blob : BlobModel)
    (statusCode : Z) (body : bytes) (contentLength : Quantity) (contentRange : option string)
    (blockCount : option Z) : Response Download :=
  let m := download_md5 blob contentLength body in
  respond ctx statusCode options.(do_requestId)
    (mkDownload body blob (overridden ctx.(request) blob.(b_properties).(bp_headers)) contentLength contentRange
       (if defined contentRange then
          if nonempty (ctx.(request).(getHeader) "x-ms-range-get-content-md5"%string) then m else None
        else m)
       (getBlobTagsCount blob.(b_blobTags)) blockCount).

(** The reads of the body of a block blob or an append blob. *)
Definition read_blocks (blob : BlobModel) (start : option Z) (end_ contentLength : Quantity) (s : BlobService) :
    res bytes :=
  match blocks_of blob s.(metadataStore) with
  | [] =>
      match blob.(b_persistency) with
      | None => readExtent None s.(extentStore)
      | Some c => readExtentAt c.(id) (quantity (Z.add c.(offset) <$> start)) (q_min c.(count) contentLength)
                    s.(extentStore)
      end
  | blocks => readExtents (block_persistency <$> blocks) (quantity start) (q_sub (q_add end_ 1) start) s.(extentStore)
  end.

(** A range the deserializer refuses is ignored. *)
Definition downloadBlockBlobOrAppendBlob (options : DownloadOptions) (blob : BlobModel)
    (ctx : BlobStorageContext) : service (Response Download) :=
  _ ← check blob.(b_isCommitted) (BlobErrors.getBlobNotFound ctx.(contextId));
  let rangesParts :=
    match deserializeRangeHeader (ctx.(request).(getHeader) "range"%string)
            (ctx.(request).(getHeader) "x-ms-range"%string) with
    | Ok r => r
    | Throw _ => None
    end in
  let length := blob.(b_properties).(bp_contentLength) in
  let rangeStart := default (Some 0) (fst <$> rangesParts) in
  rangeEnd ← lift (normalize_end ctx.(contextId) length rangeStart (default Infinite (snd <$> rangesParts)));
  let contentLength := q_add (q_sub rangeEnd rangeStart) 1 in
  s ← get_state;
  body ← lift (read_blocks blob rangeStart rangeEnd contentLength s);
  let contentRange := (fun _ => content_range rangeStart rangeEnd length) <$> rangesParts in
  mret (download_response ctx options blob (if defined contentRange then 206 else 200) body contentLength
          contentRange
          (if blob.(b_properties).(bp_blobType) === Some AppendBlob
           then Some (Z.of_nat (List.length (blocks_of blob s.(metadataStore)))) else None)).

(** [blob.pageRangesInOrder = blob.pageRangesInOrder || []]: the blob is the
    document of the database. *)
Definition ensure_ranges (blob : BlobModel) : service unit :=
  match blob.(b_pageRangesInOrder) with
  | Some _ => mret tt
  | None =>
      r ← on_db (new_ranges []);
      s ← get_state;
      match findOne (is_blob blob.(b_accountName) blob.(b_containerName) blob.(b_name) blob.(b_snapshot))
              s.(metadataStore).(blobs) with
      | Some (i, doc) => on_db (save_blob i (with_ranges (Some r) doc))
      | None => mret tt
      end
  end.

(** The reads of the body of a page blob. A range of [NaN] is one of zeros whose
    number is [NaN], as the length is. *)
Definition read_pages (ranges : list PersistencyPageRange) (start : option Z) (end_ contentLength : Quantity) (e : E) :
    res bytes :=
  match start, end_ with
  | Some s, Exact n =>
      ranges ← (if q_ge (Exact 0) contentLength then Ok []
                else fillZeroRanges ranges (mkPageRange s n));
      readExtents (PageRanges.persistency <$> ranges) (Exact 0) contentLength e
  | _, _ => readExtentAt ZERO_EXTENT_ID (Exact 0) contentLength e
  end.

Definition downloadPageBlob (options : DownloadOptions) (blob : BlobModel) (ctx : BlobStorageContext) :
    service (Response Download) :=
  rangesParts ← lift (deserializePageBlobRangeHeader (ctx.(request).(getHeader) "range"%string)
                        (ctx.(request).(getHeader) "x-ms-range"%string) false);
  let length := blob.(b_properties).(bp_contentLength) in
  let rangeStart := rangesParts.1 in
  rangeEnd ← lift (normalize_end ctx.(contextId) length rangeStart rangesParts.2);
  let contentLength := q_add (q_sub rangeEnd rangeStart) 1 in
  _ ← ensure_ranges blob;
  s ← get_state;
  body ← lift (read_pages (ranges_of blob s.(metadataStore)) rangeStart rangeEnd contentLength s.(extentStore));
  let contentRange :=
    if nonempty (ctx.(request).(getHeader) "range"%string) || nonempty (ctx.(request).(getHeader) "x-ms-range"%string)
    then Some (content_range rangeStart rangeEnd length) else None in
  mret (download_response ctx options blob
          (if (rangesParts.2 === Infinite) && (rangesParts.1 === Some 0) then 200 else 206)
          body contentLength contentRange None).

Definition download (options : DownloadOptions) (ctx : BlobStorageContext) : service (Response Download) :=
  blob ← on_db (downloadBlob (store_ctx ctx) ctx.(ctx_account) ctx.(ctx_container) ctx.(ctx_blob)
                  options.(do_snapshot) options.(do_leaseId) options.(do_mac));
  _ ← check (blob.(b_properties).(bp_accessTier) !== Some "Archive"%string)
        (BlobErrors.getBlobArchived ctx.(contextId));
  match blob.(b_properties).(bp_blobType) with
  | Some PageBlob => downloadPageBlob options blob ctx
  | Some _ => downloadBlockBlobOrAppendBlob options blob ctx
  | None => throw (BlobErrors.getInvalidOperation ctx.(contextId) EmptyString)
  end.

End Handlers.

Arguments BlobService coll P E : clear implicits.
