(* ===== verification/BlobContentSpec.v ===== *)
(** * BlobContentSpec: what the store's methods do to the content of the blobs

    [base_content] is the content of the base blob of a name, [staged_docs] its
    staged blocks. For each method that the handlers of content call: what it
    leaves there, and that it leaves every other name alone. *)

From S2P Require Import Prelude Errors Extents Loki TagQuery Conditions Lease LeaseSpec PageRanges PageRangesSpec.
From S2P Require Import BlobModels BlobContainers BlobStore BlobChanges BlobRefine BlobRequests BlobStoreSpec.
Open Scope Z_scope.
Open Scope azurite_scope.

(** Account, container and name. *)
Abbreviation Key := (string * string * string)%type.

Section Content.
Context {coll : Type -> Type} `{LokiLaws coll} {P : Type}.
Abbreviation db := (BlobDb coll P).
Implicit Types (s : db) (k : Key).

Definition key_at k s (i : Z) (b : BlobModel) : Prop := base_at k.1.1 k.1.2 k.2 s i b.
Definition key_of (b : BlobModel) : Key := (b.(b_accountName), b.(b_containerName), b.(b_name)).

Definition unique_bases s : Prop :=
  forall k i j b d, key_at k s i b -> key_at k s j d -> i = j /\ b = d.

Definition base_doc k s : option BlobModel := snd <$> findOne (is_blob k.1.1 k.1.2 k.2 EmptyString) s.(blobs).
Definition base_content k s : option (BlobModel * list PersistencyBlockModel * list PersistencyPageRange) :=
  content s <$> base_doc k s.

(** The staged blocks of a name are the same. *)
Definition is_staged k (x : BlockModel) : bool := is_block_of k.1.1 k.1.2 k.2 x.
Definition staged_same k s s' : Prop :=
  forall j x, is_staged k x = true -> docs s'.(blocks) !! j = Some x <-> docs s.(blocks) !! j = Some x.

Definition key_same k s s' : Prop := base_content k s' = base_content k s /\ staged_same k s s'.

Lemma ok_unique s : store_ok s -> unique_bases s.
Proof. intros Hs k i j b d. by apply base_unique. Qed.

Lemma base_doc_at k s i b : unique_bases s -> key_at k s i b -> base_doc k s = Some b.
Proof.
  intros Hu Hb. unfold base_doc. destruct (findOne _ _) as [[j d]|] eqn:Hf; cbn.
  - apply findOne_Some in Hf as [Hj Hd%is_blob_key].
    by destruct (Hu k i j b d Hb (conj Hj Hd)) as [_ <-].
  - pose proof (findOne_None _ _ Hf i b (proj1 Hb)) as Hn. apply not_true_iff_false in Hn.
    destruct Hn. by apply is_blob_key, Hb.
Qed.

Lemma base_doc_Some k s b : base_doc k s = Some b -> exists i, key_at k s i b.
Proof.
  unfold base_doc. destruct (findOne _ _) as [[j d]|] eqn:Hf; cbn; [|done]. intros [= <-].
  exists j. apply findOne_Some in Hf as [Hj Hd%is_blob_key]. done.
Qed.

Lemma base_doc_None k s i b : base_doc k s = None -> ~ key_at k s i b.
Proof.
  unfold base_doc. destruct (findOne _ _) as [[j d]|] eqn:Hf; cbn; [done|]. intros _ [Hi Hk].
  pose proof (findOne_None _ _ Hf i b Hi) as Hn. apply not_true_iff_false in Hn. by apply Hn, is_blob_key.
Qed.

(** Contents say what the key is. *)
Lemma content_core s s' d d' : content s' d' = content s d -> core d' = core d.
Proof. intros Hc. exact (f_equal (fun x => x.1.1) Hc). Qed.

Lemma content_key s s' d d' : content s' d' = content s d -> same_key d d'.
Proof.
  intros Hc%content_core. symmetry in Hc. repeat split;
    [exact (f_equal b_accountName Hc)|exact (f_equal b_containerName Hc)|exact (f_equal b_name Hc)
    |exact (f_equal b_snapshot Hc)].
Qed.

Lemma key_at_key k s i b d : key_at k s i b -> same_key b d -> at_key k.1.1 k.1.2 k.2 EmptyString d.
Proof. intros [_ (<-&<-&<-&<-)] [(E1&E2&E3) E4]. by repeat split. Qed.

(** What a relation of the documents at a key keeps. *)
Lemma base_content_eq k s s' :
  unique_bases s -> unique_bases s' ->
  (forall i b, key_at k s i b -> exists i' b', key_at k s' i' b' /\ content s' b' = content s b) ->
  (forall i b', key_at k s' i b' -> exists i b, key_at k s i b) ->
  base_content k s' = base_content k s.
Proof.
  intros Hu Hu' Hf Hb. unfold base_content. destruct (base_doc k s) as [b|] eqn:Hd.
  - apply base_doc_Some in Hd as [i Hi]. destruct (Hf i b Hi) as (i'&b'&Hi'&Hc).
    rewrite (base_doc_at k s' i' b' Hu' Hi'). cbn. by rewrite Hc.
  - destruct (base_doc k s') as [b'|] eqn:Hd'; [|done].
    apply base_doc_Some in Hd' as [i' Hi']. destruct (Hb i' b' Hi') as (i&b&Hi).
    by apply (base_doc_None k s i b) in Hd.
Qed.

Lemma all_same_content s s' k :
  unique_bases s -> all_same s s' -> base_content k s' = base_content k s /\ unique_bases s'.
Proof.
  intros Hu Ha.
  assert (Hb : forall i b', key_at k s' i b' -> exists b, key_at k s i b /\ content s' b' = content s b).
  { intros i b' [Hi Hk]. specialize (Ha i). rewrite Hi in Ha. inversion Ha as [b ? Hc E|]; subst.
    exists b. split; [split; [done|]|done]. apply content_key in Hc as [(E1&E2&E3) E4].
    destruct Hk as (<-&<-&<-&<-). by repeat split. }
  assert (Hu' : unique_bases s').
  { clear k Hb. intros k i j b d [Hi Hbk] [Hj Hdk]. pose proof (Ha i) as Hai. pose proof (Ha j) as Haj.
    rewrite Hi in Hai. rewrite Hj in Haj. inversion Hai as [b0 ? Hc E|]; subst. inversion Haj as [d0 ? Hc' E'|]; subst.
    apply content_key in Hc as [(E1&E2&E3) E4]. apply content_key in Hc' as [(F1&F2&F3) F4].
    destruct Hbk as (K1&K2&K3&K4), Hdk as (L1&L2&L3&L4).
    destruct (Hu k i j b0 d0) as [-> _].
    - split; [done|]. repeat split; congruence.
    - split; [done|]. repeat split; congruence.
    - split; [done|congruence]. }
  split; [|done]. apply base_content_eq; [done..| |].
  - intros i b [Hi Hk]. specialize (Ha i). rewrite Hi in Ha. inversion Ha as [? b' Hc E1 E2|]; subst.
    exists i, b'. split; [|done]. split; [done|]. eapply key_at_key; [by split|by eapply content_key].
  - intros i b' Hi. destruct (Hb i b' Hi) as (b&?&_). by exists i, b.
Qed.

(** The document [i] of the key [k] is new or has changed; no other has. *)
Lemma others_same_content s s' k i b' :
  unique_bases s -> unique_bases s' -> key_at k s' i b' ->
  (forall b, docs s.(blobs) !! i = Some b -> key_at k s i b) -> others_same i s s' ->
  base_content k s' = Some (content s' b') /\ forall k', k' <> k -> base_content k' s' = base_content k' s.
Proof.
  intros Hu Hu' Hb Hold Ho. split; [unfold base_content; by rewrite (base_doc_at k s' i b')|].
  assert (Hne : forall k' j s0 d, k' <> k -> key_at k' s0 j d -> ~ key_at k s0 j d).
  { intros [[a' c'] n'] j s0 d Hk [Hj (E1&E2&E3&E4)] [Hj' (F1&F2&F3&F4)]. cbn in *. apply Hk.
    destruct k as [[a c] n]. cbn in *. congruence. }
  intros k' Hk. apply base_content_eq; [done..| |].
  - intros j d Hj. assert (j <> i).
    { intros ->. apply (Hne k' i s d Hk Hj). apply Hold, Hj. }
    destruct (Ho j) as [E Hc]; [done|]. exists j, d. split; [|by apply Hc, Hj]. split; [|apply Hj]. rewrite E. apply Hj.
  - intros j d Hj. assert (j <> i).
    { intros ->. apply (Hne k' i s' d Hk Hj). assert (d = b') as -> by (destruct Hj, Hb; congruence). done. }
    destruct (Ho j) as [E _]; [done|]. exists j, d. split; [|apply Hj]. rewrite <- E. apply Hj.
Qed.

(** A document that takes the place of that of its key. *)
Definition arrays_same s s' : Prop :=
  s'.(block_arrays) = s.(block_arrays) /\ s'.(range_arrays) = s.(range_arrays).

Lemma arrays_content s s' b : arrays_same s s' -> content s' b = content s b.
Proof. intros [Ha Hr]. unfold content, blocks_of, ranges_of. by rewrite Ha, Hr. Qed.

Lemma replaced_content s s' k i i' b' :
  unique_bases s -> arrays_same s s' ->
  docs s'.(blobs) = <[i' := b']> (delete i (docs s.(blobs))) -> at_key k.1.1 k.1.2 k.2 EmptyString b' ->
  (i' = i \/ docs s.(blobs) !! i' = None) ->
  (forall d, docs s.(blobs) !! i = Some d -> key_at k s i d) ->
  (forall j d, key_at k s j d -> j = i) ->
  base_content k s' = Some (content s b') /\ unique_bases s' /\
  forall k', k' <> k -> base_content k' s' = base_content k' s.
Proof.
  intros Hu Ha Hd Hk Hi' Hold Hon.
  assert (Hl : forall k' j d, key_at k' s' j d ->
    (j = i' /\ d = b' /\ k' = k) \/ (j <> i' /\ j <> i /\ key_at k' s j d)).
  { intros k' j d [Hj Hkd]. rewrite Hd in Hj.
    apply lookup_insert_Some in Hj as [[<- <-]|[Hne [Hni Hj]%lookup_delete_Some]]; [left|right; by split_and!].
    split_and!; [done..|]. destruct k as [[a c] n], k' as [[a' c'] n'], Hk as (?&?&?&_), Hkd as (?&?&?&_).
    cbn in *. congruence. }
  assert (Hu' : unique_bases s').
  { intros k' j1 j2 d1 d2 H1 H2. pose proof H1 as [L1 _]. pose proof H2 as [L2 _].
    assert (j1 = j2) as ->; [|split; [done|congruence]].
    destruct (Hl _ _ _ H1) as [(->&->&->)|(?&N1&H1')], (Hl _ _ _ H2) as [(->&->&E)|(?&N2&H2')]; [done|..].
    - by destruct N2; apply (Hon _ _ H2').
    - subst k'. by destruct N1; apply (Hon _ _ H1').
    - by destruct (Hu k' j1 j2 d1 d2 H1' H2'). }
  assert (Hat : key_at k s' i' b') by (split; [by rewrite Hd, lookup_insert_eq|done]).
  split_and!; [|done|].
  - unfold base_content. rewrite (base_doc_at k s' i' b' Hu' Hat). cbn. by rewrite (arrays_content s).
  - intros k' Hne. apply base_content_eq; [done..| |].
    + intros j d Hj. exists j, d. split; [|by rewrite (arrays_content s)]. split; [|apply Hj]. rewrite Hd.
      assert (Hji : j <> i).
      { intros ->. apply Hne. destruct (Hold d (proj1 Hj)) as [_ (E1&E2&E3&_)], Hj as [_ (F1&F2&F3&_)].
        destruct k as [[a c] n], k' as [[a' c'] n']. cbn in *. congruence. }
      assert (j <> i') by (intros ->; destruct Hi' as [->|Hn]; [done|destruct Hj; congruence]).
      rewrite lookup_insert_ne, lookup_delete_ne by done. apply Hj.
    + intros j d Hj. destruct (Hl _ _ _ Hj) as [(_&_&->)|(_&_&?)]; [done|by exists j, d].
Qed.

Lemma save_lease_same i b f s :
  docs s.(blobs) !! i = Some b -> all_same s (set_blobs (lk_update i (with_lease f b) s.(blobs)) s).
Proof.
  intros Hi j. cbn. rewrite docs_update by by eexists. destruct (decide (j = i)) as [->|Hne].
  - rewrite lookup_insert_eq, Hi. by constructor.
  - rewrite lookup_insert_ne by done. destruct (docs s.(blobs) !! j); by constructor.
Qed.

(** ** New blobs *)

Lemma check_outcome ctx a c s (Q : result exn unit -> db -> Prop) :
  Q (Ok tt) s -> (forall e, Q (Throw e) s) -> outcome (checkContainerExist ctx a c) s Q.
Proof. unfold outcome, checkContainerExist. run. intros ??. destruct (findOne _ _) as [[]|]; cbn; auto. Qed.

(** What is left when a method throws: no content has changed. *)
Definition refused s s' : Prop := all_same s s' /\ arrays_same s s' /\ s'.(blocks) = s.(blocks).

Lemma refused_refl s : refused s s.
Proof. split; [apply all_same_refl|done]. Qed.

Lemma refused_lease i b f s :
  docs s.(blobs) !! i = Some b -> refused s (set_blobs (lk_update i (with_lease f b) s.(blobs)) s).
Proof. intros Hi. split; [by apply save_lease_same|done]. Qed.

Lemma createBlob_content ctx b acc mac s :
  unique_bases s -> b.(b_snapshot) = EmptyString ->
  outcome (createBlob ctx b acc mac) s (fun r s' => match r with
  | Ok _ => arrays_same s s' /\ s'.(blocks) = s.(blocks) /\ unique_bases s' /\
      base_content (key_of b) s' = Some (content s b) /\
      forall k, k <> key_of b -> base_content k s' = base_content k s
  | Throw _ => refused s s'
  end).
Proof.
  intros Hu Hb. assert (Hk : forall f, at_key (key_of b).1.1 (key_of b).1.2 (key_of b).2 EmptyString (with_lease f b)) by done.
  unfold createBlob. apply outcome_bind, check_outcome; [|intros; apply refused_refl].
  apply outcome_bind, outcome_get.
  apply outcome_bind, outcome_lift; [intros [] _|intros; apply refused_refl].
  apply outcome_bind, outcome_guard; [intros _|intros; apply refused_refl].
  rewrite Hb. destruct (findOne _ _) as [[i doc]|] eqn:Hf.
  - apply findOne_Some in Hf as [Hi Hd%is_blob_key].
    assert (Hd' : key_at (key_of b) s i doc) by done.
    rewrite (surjective_pairing (BlobLeaseAdapter doc.(b_lease))). cbn [fst snd].
    assert (Hr : forall f, refused s (set_blobs (lk_update i (with_lease f doc) s.(blobs)) s)) by (intros; by apply refused_lease).
    apply outcome_bind. unfold outcome at 1. cbn [save_blob update_db fst snd].
    apply outcome_bind, outcome_lift; [intros st _|intros; apply Hr].
    apply outcome_bind, outcome_lift; [intros st' _|intros; apply Hr].
    apply outcome_bind, outcome_guard; [intros _|intros; apply Hr].
    apply outcome_bind. unfold outcome. cbn [update_db fst snd set_blobs blobs].
    set (b' := with_lease _ b). set (c1 := lk_update i _ _).
    assert (Hm : max_id (lk_remove i c1) = max_id s.(blobs)) by (unfold c1; by rewrite max_remove, max_update).
    edestruct (replaced_content s (set_blobs (lk_insert b' (lk_remove i c1)) s) (key_of b) i (max_id s.(blobs) + 1) b' Hu) as (R1&R2&R3);
      [| | | | | |refine (conj _ (conj _ (conj R2 (conj R1 R3)))); done].
    + done.
    + cbn [set_blobs blobs]. rewrite docs_insert, Hm, docs_remove. unfold c1. by rewrite docs_update, delete_insert_eq by by eexists.
    + apply Hk.
    + right. apply next_free.
    + intros d Hdi. by assert (d = doc) as -> by congruence.
    + intros j d Hj. by destruct (Hu _ _ _ _ _ Hj Hd').
  - edestruct (replaced_content s (set_blobs (lk_insert b s.(blobs)) s) (key_of b) (max_id s.(blobs) + 1)
      (max_id s.(blobs) + 1) b Hu) as (R1&R2&R3); [| | | | | |refine (conj _ (conj _ (conj R2 (conj R1 R3)))); done].
    + done.
    + cbn. rewrite docs_insert. f_equal. symmetry. apply delete_id, next_free.
    + done.
    + by left.
    + intros d Hd. by rewrite next_free in Hd.
    + intros j d [Hj Hd]. pose proof (findOne_None _ _ Hf j d Hj) as Hn. apply not_true_iff_false in Hn.
      destruct Hn. by apply is_blob_key.
Qed.

(** ** Reading *)

Lemma opens_refused now i b s s' : docs s.(blobs) !! i = Some b -> opens now i b s s' -> refused s s'.
Proof. intros Hi Ho. split; [by eapply opens_content|]. by destruct Ho as (_&Hk&Ha&Hr). Qed.

(** What all the methods do that open a blob before anything else. *)
Lemma open_outcome ctx k osn fc s {A} (f : option (Z * BlobModel) -> proc db exn A) Q :
  store_ok s -> default EmptyString osn = EmptyString ->
  (forall e, Q (Throw e) s) ->
  (base_doc k s = None \/ fc = true -> outcome (f None) s Q) ->
  (forall i b s1, key_at k s i b -> (fc = true -> b.(b_isCommitted) = true) ->
     opens ctx.(bc_startTime) i b s s1 -> outcome (f (Some (i, opened ctx.(bc_startTime) b))) s1 Q) ->
  outcome (doc ← getBlobWithLeaseUpdated ctx k.1.1 k.1.2 k.2 osn false fc; f doc) s Q.
Proof.
  intros Hs Hsn Ht Hn Ho. apply outcome_bind. unfold outcome at 1.
  assert (He : getBlobWithLeaseUpdated (P := P) ctx k.1.1 k.1.2 k.2 osn false fc
             = getBlobWithLeaseUpdated (P := P) ctx k.1.1 k.1.2 k.2 None false fc)
    by (destruct osn; cbn in Hsn; by subst).
  rewrite He. destruct (open_cases ctx k.1.1 k.1.2 k.2 fc s Hs)
    as [[-> _]|[(->&_&Hno)|(i&b&s1&->&Hb&Hc&Hop)]]; cbn [fst snd].
  - apply Ht.
  - apply Hn. destruct fc; [by right|left]. destruct (base_doc k s) as [b|] eqn:Hd; [|done].
    apply base_doc_Some in Hd as [i Hi]. by destruct (Hno i b Hi).
  - by apply (Ho i b).
Qed.

(** A base blob that is open, if the method returns. *)
Definition read_of k (now : Z) s (b : BlobModel) : Prop :=
  exists i b0, key_at k s i b0 /\ b = opened now b0.

Lemma downloadBlob_content ctx k osn acc mac s :
  store_ok s -> default EmptyString osn = EmptyString ->
  outcome (downloadBlob ctx k.1.1 k.1.2 k.2 osn acc mac) s (fun r s' => refused s s' /\
    forall b, r = Ok b -> read_of k ctx.(bc_startTime) s b /\ b.(b_isCommitted) = true /\ exists i, key_at k s' i b).
Proof.
  intros Hs Hsn. unfold downloadBlob. apply open_outcome; [done|done| | |].
  - intros e. split; [apply refused_refl|done].
  - intros _. unfold read_conditions.
    apply outcome_bind, outcome_lift; intros; (split; [apply refused_refl|done]).
  - intros i b s1 Hb Hc Ho. assert (Hr : refused s s1) by (eapply opens_refused; [apply Hb|exact Ho]).
    unfold read_conditions, existing, read_lease.
    apply outcome_bind, outcome_lift; [intros [] _|by intros].
    apply outcome_bind, outcome_ret.
    apply outcome_bind, outcome_lift; [intros [] _|by intros].
    split; [done|]. intros ? [= <-]. split_and!; [by exists i, b|by apply Hc|]. exists i.
    split; [cbn; by rewrite (opens_lookup _ _ _ _ _ Ho), lookup_insert_eq|apply Hb].
Qed.

(** A download that asks for nothing in particular is let through. *)
Lemma downloadBlob_open ctx k osn i b s :
  store_ok s -> default EmptyString osn = EmptyString -> key_at k s i b -> b.(b_isCommitted) = true ->
  (3 <= String.length b.(b_properties).(bp_etag))%nat ->
  exists s', downloadBlob ctx k.1.1 k.1.2 k.2 osn None None s = (Ok (opened ctx.(bc_startTime) b), s').
Proof.
  intros Hs Hsn Hb Hc Hetag.
  assert (He : getBlobWithLeaseUpdated (P := P) ctx k.1.1 k.1.2 k.2 osn false true
             = getBlobWithLeaseUpdated (P := P) ctx k.1.1 k.1.2 k.2 None false true)
    by (destruct osn; cbn in Hsn; by subst).
  destruct (open_eq ctx k.1.1 k.1.2 k.2 false true s i b Hs Hb (fun _ => Hc)) as (s'&Ho&_).
  exists s'. unfold downloadBlob. rewrite He. run. rewrite Ho. cbn. rewrite Hc.
  by destruct (Nat.leb_spec (String.length b.(b_properties).(bp_etag)) 2); [lia|].
Qed.

(** ** Staged blocks *)

(** The staged blocks of a name have names of their own. *)
Definition blocks_ok s : Prop := forall i x, docs s.(blocks) !! i = Some x -> x.(bl_isCommitted) = false /\
  forall j y, docs s.(blocks) !! j = Some y -> block_key y = block_key x ->
    y.(bl_block).(block_name) = x.(bl_block).(block_name) -> j = i.

Definition staged_block s k (name : string) (p : PersistencyBlockModel) : Prop :=
  exists j x, docs s.(blocks) !! j = Some x /\ block_key x = k /\ x.(bl_block) = p /\ p.(block_name) = name.

Lemma is_staged_key k x : is_staged k x = true <-> block_key x = k.
Proof.
  unfold is_staged, is_block_of, block_key. destruct k as [[a c] n]. cbn.
  rewrite !andb_true_iff, !bool_decide_eq_true. naive_solver.
Qed.

Definition same_block (block x : BlockModel) : bool :=
  is_staged (block_key block) x && (x.(bl_block).(block_name) === block.(bl_block).(block_name))
  && (x.(bl_isCommitted) === block.(bl_isCommitted)).

Lemma same_block_true block x : block.(bl_isCommitted) = false -> x.(bl_isCommitted) = false ->
  same_block block x = true <-> block_key x = block_key block /\ x.(bl_block).(block_name) = block.(bl_block).(block_name).
Proof.
  intros H1 H2. unfold same_block. rewrite !andb_true_iff, !bool_decide_eq_true, is_staged_key, H1, H2. tauto.
Qed.

(** A block takes the place of the one of its name. *)
Definition restaged (block : BlockModel) s s' : Prop :=
  forall j x, docs s'.(blocks) !! j = Some x <->
    (j = max_id s.(blocks) + 1 /\ x = block) \/
    (docs s.(blocks) !! j = Some x /\ ~ (block_key x = block_key block /\ x.(bl_block).(block_name) = block.(bl_block).(block_name))).

Lemma restaged_ok block s s' :
  block.(bl_isCommitted) = false -> blocks_ok s -> restaged block s s' -> blocks_ok s'.
Proof.
  intros Hb Hs Hr i x [[-> ->]|[Hi Hne]]%Hr.
  - split; [done|]. intros j y [[-> _]|[_ Hny]]%Hr Hk Hn; [done|]. by destruct Hny.
  - destruct (Hs i x Hi) as [Hc Hu]. split; [done|]. intros j y [[-> ->]|[Hj _]]%Hr Hk Hn.
    + by destruct Hne.
    + by apply (Hu j y).
Qed.

Lemma restaged_blocks block s s' k name p :
  restaged block s s' -> staged_block s' k name p <->
    if decide (k = block_key block /\ name = block.(bl_block).(block_name)) then p = block.(bl_block)
    else staged_block s k name p.
Proof.
  intros Hr. unfold staged_block. case_decide as Hd.
  - destruct Hd as [-> ->]. split.
    + intros (j&x&Hj&Hk&<-&Hn). apply Hr in Hj as [[_ ->]|[_ Hne]]; [done|]. by destruct Hne.
    + intros ->. exists (max_id s.(blocks) + 1), block. split_and!; [|done..]. apply Hr. by left.
  - split.
    + intros (j&x&Hj&Hk&<-&Hn). apply Hr in Hj as [[_ ->]|[Hj _]]; [|by exists j, x]. by destruct Hd.
    + intros (j&x&Hj&Hk&<-&Hn). exists j, x. split_and!; [|done..]. apply Hr. right. split; [done|].
      intros [E1 E2]. destruct Hd. split; congruence.
Qed.

(** The removal of the block of the name, if there is one. *)
Definition without_block (block : BlockModel) (c : coll BlockModel) : coll BlockModel :=
  match findOne (same_block block) c with Some d => lk_remove d.1 c | None => c end.

Lemma restage block s s' :
  block.(bl_isCommitted) = false -> blocks_ok s ->
  s'.(blocks) = lk_insert block (without_block block s.(blocks)) -> restaged block s s'.
Proof.
  intros Hb Hs Hs' j x. remember (without_block block s.(blocks)) as c eqn:Hc. unfold without_block in Hc. rewrite Hs', docs_insert.
  assert (Hm : max_id c = max_id s.(blocks)) by (destruct (findOne _ _); subst c; [apply max_remove|done]).
  assert (Hl : forall j x, docs c !! j = Some x <-> docs s.(blocks) !! j = Some x /\
    ~ (block_key x = block_key block /\ x.(bl_block).(block_name) = block.(bl_block).(block_name))).
  { clear j x. intros j x. destruct (findOne _ _) as [[i d]|] eqn:Hf; subst c.
    - apply findOne_Some in Hf as [Hi Hd]. destruct (Hs i d Hi) as [Hdc Hu].
      apply same_block_true in Hd as [Hk Hn]; [|done..]. rewrite docs_remove, lookup_delete_Some. cbn. split.
      + intros [Hne Hj]. split; [done|]. intros [E1 E2]. apply Hne. symmetry. apply (Hu j x Hj); congruence.
      + intros [Hj Hne]. split; [|done]. intros <-. apply Hne. by assert (x = d) as -> by congruence.
    - split; [|tauto]. intros Hj. split; [done|]. intros Hk. pose proof (findOne_None _ _ Hf j x Hj) as Hn.
      apply not_true_iff_false in Hn. apply Hn, same_block_true; [done|by apply (Hs j x)|done]. }
  rewrite lookup_insert_Some, Hl, Hm. split.
  - intros [[<- <-]|[_ ?]]; [by left|by right].
  - intros [[-> ->]|[Hj Hne]]; [by left|right]. split; [|done]. intros <-. by rewrite next_free in Hj.
Qed.

(** The end of [stageBlock]; [found] is the document of the name. *)
Lemma restage_end ctx block (found : option (Z * BlobModel)) s Q :
  (found <> None -> forall e, Q (Throw e) s) ->
  (forall s', s'.(blocks) = lk_insert block (without_block block s.(blocks)) -> s'.(blobs) = s.(blobs) ->
     arrays_same s s' -> Q (Ok tt) s') ->
  outcome (s ← get_state;
    _ ← match found, findOne (is_block_of block.(bl_accountName) block.(bl_containerName) block.(bl_blobName)) s.(blocks) with
        | Some _, Some (_, existBlockDoc) =>
            guard (base64_length existBlockDoc.(bl_block).(block_name) =? base64_length block.(bl_block).(block_name))
              (BlobErrors.getInvalidBlobOrBlock ctx.(bc_contextId))
        | _, _ => mret tt
        end;
    _ ← match findOne (same_block block) s.(blocks) with
        | Some (j, _) => update_db (fun s => set_blocks (lk_remove j s.(blocks)) s)
        | None => mret tt
        end;
    update_db (fun s => set_blocks (lk_insert block s.(blocks)) s)) s Q.
Proof.
  intros HT HQ. apply outcome_bind, outcome_get.
  assert (Hlast : outcome (_ ← match findOne (same_block block) s.(blocks) with
        | Some (j, _) => update_db (fun s => set_blocks (lk_remove j s.(blocks)) s)
        | None => mret tt
        end;
    update_db (fun s => set_blocks (lk_insert block s.(blocks)) s)) s Q).
  { unfold without_block in HQ. destruct (findOne (same_block block) _) as [[j d]|]; unfold outcome; run; by apply HQ. }
  destruct found as [d|]; [|exact Hlast]. destruct (findOne (is_block_of _ _ _) _) as [[]|]; [|exact Hlast].
  apply outcome_bind, outcome_guard; intros _; [exact Hlast|]. by apply HT.
Qed.

Lemma named_base a c n s i b :
  store_ok s -> docs s.(blobs) !! i = Some b -> is_named a c n b = true -> exists j d, key_at (a, c, n) s j d.
Proof.
  intros Hs Hi Hn. destruct (bo_base _ _ (ok_blob _ Hs i b Hi)) as (j&d&Hj&(E1&E2&E3)&E4).
  exists j, d. split; [done|]. unfold is_named in Hn. rewrite !andb_true_iff, !bool_decide_eq_true in Hn.
  cbn. destruct Hn as [[H1 H2] H3]. repeat split; congruence.
Qed.

(** The first block of a name makes an uncommitted blob. *)
Lemma stageBlock_content env ctx block acc s :
  store_ok s -> blocks_ok s -> block.(bl_isCommitted) = false ->
  let k := block_key block in
  outcome (stageBlock env ctx block acc) s (fun r s' => match r with
  | Ok _ => restaged block s s' /\ arrays_same s s' /\ unique_bases s' /\
      base_content k s' = Some (default (content s (uncommitted_blob env ctx k.1.1 k.1.2 k.2)) (base_content k s)) /\
      forall k', k' <> k -> base_content k' s' = base_content k' s
  | Throw _ => refused s s'
  end).
Proof.
  intros Hs Hbs Hb k. unfold stageBlock. apply outcome_bind, check_outcome; [|intros; apply refused_refl].
  apply outcome_bind, outcome_get. destruct (findOne _ s.(blobs)) as [[i doc]|] eqn:Hf.
  - apply findOne_Some in Hf as [Hi Hd]. destruct (named_base _ _ _ _ _ _ Hs Hi Hd) as (j&d&Hj).
    assert (Hr : forall f, refused s (set_blobs (lk_update i (with_lease f doc) s.(blobs)) s)) by (intros; by apply refused_lease).
    apply outcome_bind, outcome_bind, outcome_guard; [intros _|intros; apply refused_refl].
    rewrite (surjective_pairing (BlobLeaseAdapter doc.(b_lease))). cbn [fst snd].
    apply outcome_bind. unfold outcome at 1. cbn [save_blob update_db fst snd].
    apply outcome_bind, outcome_lift; [intros st _|intros; apply Hr].
    apply outcome_bind, outcome_lift; [intros st' _|intros; apply Hr].
    unfold outcome at 1. cbn [save_blob update_db fst snd].
    set (f := (BlobLeaseAdapter doc.(b_lease)).2). set (g := sync st' _).
    set (s1 := set_blobs _ s). set (s2 := set_blobs _ s1).
    assert (H1 : all_same s s1) by by apply save_lease_same.
    assert (H2 : all_same s1 s2).
    { apply (save_lease_same i (with_lease f doc) g). cbn. by rewrite docs_update, lookup_insert_eq by by eexists. }
    assert (H12 : all_same s s2) by by eapply all_same_trans.
    apply (restage_end ctx block (Some (i, doc))); [intros _ e; by split|]. intros s' Hbl Hblobs Ha.
    split; [by apply restage|]. split; [exact Ha|].
    assert (Hall : all_same s s').
    { eapply all_same_trans; [exact H12|]. intros j'. rewrite Hblobs. destruct (docs _ !! j'); constructor.
      by apply arrays_content. }
    split; [exact (proj2 (all_same_content s s' k (ok_unique s Hs) Hall))|].
    split; [|intros k' _; exact (proj1 (all_same_content s s' k' (ok_unique s Hs) Hall))].
    destruct (all_same_content s s' k (ok_unique s Hs) Hall) as [-> _].
    unfold base_content. by rewrite (base_doc_at k s j d (ok_unique s Hs) Hj).
  - assert (Hnone : forall i b, ~ key_at k s i b).
    { intros i b [Hi (K1&K2&K3&_)]. pose proof (findOne_None _ _ Hf i b Hi) as Hn. apply not_true_iff_false in Hn.
      apply Hn. unfold is_named. by rewrite !andb_true_iff, !bool_decide_eq_true. }
    apply outcome_bind. unfold outcome at 1. cbn [update_db fst snd].
    apply (restage_end ctx block None); [done|]. intros s' Hbl Hblobs Ha.
    set (b' := uncommitted_blob _ _ _ _ _) in *.
    edestruct (replaced_content s s' k (max_id s.(blobs) + 1) (max_id s.(blobs) + 1) b' (ok_unique s Hs)) as (R1&R2&R3).
    + exact Ha.
    + rewrite Hblobs. cbn. rewrite docs_insert. f_equal. symmetry. apply delete_id, next_free.
    + done.
    + by left.
    + intros d Hd. by rewrite next_free in Hd.
    + intros j d Hj. by destruct (Hnone j d).
    + split; [by apply restage|]. split; [exact Ha|]. split; [exact R2|]. split; [|exact R3].
      rewrite R1. unfold base_content. destruct (base_doc k s) as [d|] eqn:Hd; [|done].
      apply base_doc_Some in Hd as [i Hi]. by destruct (Hnone i d).
Qed.

(** ** Changes in place *)

(** The content of the name is that of [b'] with these arrays, and no other name's has changed. *)
Definition updated k s (b' : BlobModel) bl rg s' : Prop :=
  unique_bases s' /\ base_content k s' = Some (core b', bl, rg) /\
  (forall k', k' <> k -> base_content k' s' = base_content k' s) /\ s'.(blocks) = s.(blocks).

Lemma updated_in_place k i b b' s s' :
  store_ok s -> key_at k s i b -> same_key b b' -> docs s'.(blobs) = <[i := b']> (docs s.(blobs)) ->
  others_same i s s' -> s'.(blocks) = s.(blocks) -> updated k s b' (blocks_of b' s') (ranges_of b' s') s'.
Proof.
  intros Hs Hb Hk Hd Ho Hbl. pose proof (ok_unique s Hs) as Hu.
  assert (Hk' : at_key k.1.1 k.1.2 k.2 EmptyString b') by by eapply key_at_key.
  assert (Hb' : key_at k s' i b') by (split; [by rewrite Hd, lookup_insert_eq|done]).
  assert (Hback : forall k' j d, key_at k' s' j d -> exists d0, key_at k' s j d0).
  { intros k' j d [Hj Hkd]. rewrite Hd in Hj. apply lookup_insert_Some in Hj as [[<- <-]|[_ Hj]]; [|by exists d].
    exists b. split; [apply Hb|]. destruct Hk as [(E1&E2&E3) E4], Hkd as (F1&F2&F3&F4). repeat split; congruence. }
  assert (Hu' : unique_bases s').
  { intros k' j1 j2 d1 d2 H1 H2. destruct (Hback _ _ _ H1) as [e1 K1], (Hback _ _ _ H2) as [e2 K2].
    destruct (Hu _ _ _ _ _ K1 K2) as [-> _]. split; [done|]. destruct H1, H2. congruence. }
  assert (Hold : forall d, docs s.(blobs) !! i = Some d -> key_at k s i d).
  { intros d Hdi. destruct (Hb) as [Hbi _]. by assert (d = b) as -> by congruence. }
  destruct (others_same_content s s' k i b' Hu Hu' Hb' Hold Ho) as [H1 H2]. by split_and!.
Qed.

(** The document is written with its arrays but that of page ranges as they were. *)
Lemma pages_others i r l b b' s s' :
  own_arrays s -> docs s.(blobs) !! i = Some b -> b.(b_pageRangesInOrder) = Some r ->
  docs s'.(blobs) = <[i := b']> (docs s.(blobs)) -> s'.(block_arrays) = s.(block_arrays) ->
  s'.(range_arrays) = <[r := l]> s.(range_arrays) -> others_same i s s'.
Proof.
  intros Hu Hi Hr Hd Ha Hra j Hne. split; [by rewrite Hd, lookup_insert_ne|]. intros d Hj.
  unfold content, blocks_of, ranges_of. rewrite Ha, Hra. destruct d.(b_pageRangesInOrder) as [r'|] eqn:Hdr; [|done].
  cbn. rewrite lookup_insert_ne; [done|]. intros <-. apply Hne. destruct (Hu i b Hi) as [_ H2]. exact (H2 _ Hr j d Hj Hdr).
Qed.

Lemma same_others i b' s s' :
  docs s'.(blobs) = <[i := b']> (docs s.(blobs)) -> arrays_same s s' -> others_same i s s'.
Proof.
  intros Hd Ha j Hne. split; [by rewrite Hd, lookup_insert_ne|]. intros. by apply arrays_content.
Qed.

(** ** Pages *)

Definition paged (env : Env) (now : Z) (b : BlobModel) : BlobModel :=
  with_properties (touch env.(newEtag) now b.(b_properties)) (written_lease (opened now b)).

(** The end of a write of pages: the array, and the document. *)
Lemma page_end env now i b k f s s1 Q :
  store_ok s -> own_arrays s -> key_at k s i b -> opens now i b s s1 ->
  (forall e, Q (Throw e) s1) ->
  (forall s' l, f (ranges_of b s) = Ok l ->
     (is_Some b.(b_pageRangesInOrder) -> updated k s (paged env now b) (blocks_of b s) l s') ->
     Q (Ok (touch env.(newEtag) now b.(b_properties))) s') ->
  outcome (_ ← change_ranges (opened now b) f;
           _ ← save_blob i (paged env now b);
           mret (touch env.(newEtag) now b.(b_properties))) s1 Q.
Proof.
  intros Hs Hu Hb Ho HT HQ. pose proof Ho as (_&Hbl&Ha&Hra). unfold change_ranges.
  apply outcome_bind, outcome_bind, outcome_get.
  assert (ranges_of (opened now b) s1 = ranges_of b s) as -> by (unfold ranges_of; by rewrite Hra).
  apply outcome_bind, outcome_lift; [intros l Hl|auto].
  change (b_pageRangesInOrder (opened now b)) with (b_pageRangesInOrder b).
  assert (Hd : docs (lk_update i (paged env now b) s1.(blobs)) = <[i := paged env now b]> (docs s.(blobs)))
    by by eapply save_opened.
  destruct (b_pageRangesInOrder b) as [r|] eqn:Hr; unfold outcome; run; apply (HQ _ l Hl); [intros _|intros []; done].
  match goal with |- updated _ _ _ _ _ ?x => set (s' := x) end.
  assert (Ho' : others_same i s s').
  { eapply (pages_others i r l b); [done|apply Hb|done|exact Hd|exact Ha|]. unfold s'. cbn. by rewrite Hra. }
  pose proof (updated_in_place k i b (paged env now b) s s' Hs Hb ltac:(done) Hd Ho' Hbl) as Hup.
  assert (blocks_of (paged env now b) s' = blocks_of b s) as E1 by (unfold s', blocks_of; cbn; by rewrite Ha).
  assert (ranges_of (paged env now b) s' = l) as E2
    by (unfold s', ranges_of; cbn; rewrite Hr; cbn; by rewrite lookup_insert_eq).
  by rewrite E1, E2 in Hup.
Qed.

Definition pages_changed_to env k (now : Z) (page_only : bool)
    (f : list PersistencyPageRange -> res (list PersistencyPageRange)) s (r : result exn BlobProperties) s' : Prop :=
  match r with
  | Ok _ => exists i b l, key_at k s i b /\ b.(b_isCommitted) = true /\
      (page_only = true -> b.(b_properties).(bp_blobType) = Some PageBlob) /\
      f (ranges_of b s) = Ok l /\
      (is_Some b.(b_pageRangesInOrder) -> updated k s (paged env now b) (blocks_of b s) l s')
  | Throw _ => refused s s'
  end.

Lemma uploadPages_content env ctx blob x y p acc mac snac s :
  store_ok s -> own_arrays s -> blob.(b_snapshot) = EmptyString ->
  outcome (uploadPages env ctx blob x y p acc mac snac) s
    (pages_changed_to env (key_of blob) ctx.(bc_startTime) true (fun l => mergeRange l (mkRange x y p)) s).
Proof.
  intros Hs Hu Hsn. unfold uploadPages. apply (open_outcome ctx (key_of blob)); [done|done|intros; apply refused_refl|..].
  - intros _. unfold write_conditions, sequence_conditions, existing.
    apply outcome_bind, outcome_lift; intros; [|apply refused_refl].
    apply outcome_bind, outcome_lift; intros; apply refused_refl.
  - intros i b s1 Hb Hc Ho. assert (Hr : refused s s1) by (eapply opens_refused; [apply Hb|exact Ho]).
    unfold write_conditions, sequence_conditions, existing, write_lease.
    apply outcome_bind, outcome_lift; [intros _ _|by intros].
    apply outcome_bind, outcome_lift; [intros _ _|by intros].
    apply outcome_bind, outcome_ret.
    apply outcome_bind, outcome_guard; [intros Ht|by intros].
    apply outcome_bind, outcome_lift; [intros _ _|by intros].
    apply (page_end env ctx.(bc_startTime) i b (key_of blob) _ s s1); [done..|].
    intros s' l Hl Hup. exists i, b, l. split_and!; [done|by apply Hc| |done|done].
    intros _. by apply bool_decide_eq_true in Ht.
Qed.

Lemma clearRange_content env ctx blob x y acc mac snac s :
  store_ok s -> own_arrays s -> blob.(b_snapshot) = EmptyString ->
  outcome (BlobStore.clearRange env ctx blob x y acc mac snac) s
    (pages_changed_to env (key_of blob) ctx.(bc_startTime) false (fun l => PageRanges.clearRange l (mkPageRange x y)) s).
Proof.
  intros Hs Hu Hsn. unfold BlobStore.clearRange. apply (open_outcome ctx (key_of blob)); [done|done|intros; apply refused_refl|..].
  - intros _. unfold write_conditions, sequence_conditions, existing.
    apply outcome_bind, outcome_lift; intros; [|apply refused_refl].
    apply outcome_bind, outcome_lift; intros; apply refused_refl.
  - intros i b s1 Hb Hc Ho. assert (Hr : refused s s1) by (eapply opens_refused; [apply Hb|exact Ho]).
    unfold write_conditions, sequence_conditions, existing, write_lease.
    apply outcome_bind, outcome_lift; [intros _ _|by intros].
    apply outcome_bind, outcome_lift; [intros _ _|by intros].
    apply outcome_bind, outcome_ret.
    apply outcome_bind, outcome_lift; [intros _ _|by intros].
    apply (page_end env ctx.(bc_startTime) i b (key_of blob) _ s s1); [done..|].
    intros s' l Hl Hup. exists i, b, l. split_and!; [done|by apply Hc|done..].
Qed.

Definition resized (env : Env) (now n : Z) (r : Ref) (b : BlobModel) : BlobModel :=
  written_lease (with_properties (touch env.(newEtag) now (with_length (Some n) b.(b_properties)))
    (with_ranges (Some r) (opened now b))).

(** The ranges beyond the new length are cleared. *)
Definition shrunk (n : Z) (b : BlobModel) (l l' : list PersistencyPageRange) : Prop :=
  match b.(b_properties).(bp_contentLength) with
  | Some old => if n <? old then PageRanges.clearRange l (mkPageRange n (old - 1)) = Ok l' else l' = l
  | None => l' = l
  end.

Lemma shrinks n b l : wf l -> 0 <= n -> exists l', shrunk n b l l'.
Proof.
  intros Hw Hn. unfold shrunk. destruct (bp_contentLength _) as [old|]; [|by exists l].
  destruct (Z.ltb_spec n old); [|by exists l].
  destruct (clear_correct l n (old - 1) Hw) as (l'&?&_); [lia|]. by exists l'.
Qed.

Lemma resize_end env now i b n r l s Q :
  is_Some (docs s.(blobs) !! i) -> s.(range_arrays) !! r = Some l -> wf l -> 0 <= n ->
  (forall s' l', shrunk n b l l' -> docs s'.(blobs) = <[i := resized env now n r b]> (docs s.(blobs)) ->
     s'.(range_arrays) = <[r := l']> s.(range_arrays) -> s'.(block_arrays) = s.(block_arrays) ->
     s'.(blocks) = s.(blocks) ->
     Q (Ok (touch env.(newEtag) now (with_length (Some n) b.(b_properties)))) s') ->
  outcome (
    let doc := with_ranges (Some r) (opened now b) in
    _ ← save_blob i doc;
    _ ← match b.(b_properties).(bp_contentLength) with
        | Some old =>
            if n <? old then change_ranges doc (fun l => PageRanges.clearRange l (mkPageRange n (old - 1)))
            else mret tt
        | None => mret tt
        end;
    let p := touch env.(newEtag) now (with_length (Some n) b.(b_properties)) in
    _ ← save_blob i (written_lease (with_properties p doc)); mret p) s Q.
Proof.
  intros Hi Hr Hw Hn HQ. destruct (shrinks n b l Hw Hn) as [l' Hl'].
  assert (Hd : forall d, docs (lk_update i (resized env now n r b) (lk_update i d s.(blobs)))
                 = <[i := resized env now n r b]> (docs s.(blobs))).
  { intros d. assert (is_Some (docs (lk_update i d s.(blobs)) !! i)) by by rewrite docs_update, lookup_insert_eq.
    by rewrite docs_update, docs_update, insert_insert_eq. }
  assert (Hsame : l' = l -> <[r := l']> s.(range_arrays) = s.(range_arrays)) by (intros ->; by apply insert_id).
  cbv zeta. apply outcome_bind. unfold outcome at 1. cbn [save_blob update_db fst snd].
  apply outcome_bind. pose proof Hl' as Hsh. unfold shrunk in Hsh.
  destruct (bp_contentLength _) as [old|]; [destruct (n <? old)|]; unfold change_ranges;
    [|unfold outcome; run; apply (HQ _ l'); [done|apply Hd|by rewrite Hsame|done|done]..].
  apply outcome_bind, outcome_get.
  assert (ranges_of (with_ranges (Some r) (opened now b)) (set_blobs (lk_update i (with_ranges (Some r) (opened now b)) s.(blobs)) s) = l) as ->
    by (unfold ranges_of; cbn; by rewrite Hr).
  rewrite Hsh. unfold outcome. run. apply (HQ _ l'); [done|apply Hd|done..].
Qed.

Lemma resizePageBlob_content env ctx k n acc mac s :
  store_ok s -> own_arrays s -> 0 <= n ->
  outcome (resizePageBlob env ctx k.1.1 k.1.2 k.2 n acc mac) s (fun r s' => match r with
  | Ok _ => exists i b r l, key_at k s i b /\ b.(b_isCommitted) = true /\
      b.(b_properties).(bp_blobType) = Some PageBlob /\ shrunk n b (ranges_of b s) l /\
      (is_Some b.(b_pageRangesInOrder) ->
         updated k s (resized env ctx.(bc_startTime) n r b) (blocks_of b s) l s')
  | Throw _ => refused s s'
  end).
Proof.
  intros Hs Hu Hn. unfold resizePageBlob. apply open_outcome; [done|done|intros; apply refused_refl|..].
  - intros _. unfold write_conditions, existing.
    apply outcome_bind, outcome_lift; intros; apply refused_refl.
  - intros i b s1 Hb Hc Ho. assert (Hrf : refused s s1) by (eapply opens_refused; [apply Hb|exact Ho]).
    pose proof Ho as (_&Hbl&Ha&Hra). pose proof (opens_lookup _ _ _ _ _ Ho) as Hd1.
    unfold write_conditions, existing, write_lease.
    apply outcome_bind, outcome_lift; [intros _ _|by intros].
    apply outcome_bind, outcome_ret.
    apply outcome_bind, outcome_guard; [intros Ht|by intros]. apply bool_decide_eq_true in Ht.
    apply outcome_bind, outcome_lift; [intros _ _|by intros]. cbn [fst snd].
    change (b_pageRangesInOrder (opened ctx.(bc_startTime) b)) with (b_pageRangesInOrder b).
    apply outcome_bind. destruct (b_pageRangesInOrder b) as [r|] eqn:Hr.
    + destruct (bo_refs _ _ (ok_blob _ Hs i b (proj1 Hb))) as (_&R2&_). destruct (R2 r Hr) as [l Hl]. cbn in Hl.
      apply outcome_ret, (resize_end env _ i b n r l); [by rewrite Hd1, lookup_insert_eq|by rewrite Hra|exact (ok_ranges _ Hs r l Hl)|done|].
      intros s' l' Hsh Hd Hra' Ha' Hbl'. exists i, b, r, l'. split_and!; [done|by apply Hc|done| |].
      * by replace (ranges_of b s) with l by (unfold ranges_of; rewrite Hr; cbn; by rewrite Hl).
      * intros _. rewrite Hd1, insert_insert_eq in Hd.
        assert (Ho' : others_same i s s').
        { eapply (pages_others i r l' b); [done|apply Hb|done|exact Hd|congruence|congruence]. }
        pose proof (updated_in_place k i b (resized env ctx.(bc_startTime) n r b) s s' Hs Hb ltac:(done) Hd Ho' ltac:(congruence)) as Hup.
        replace (blocks_of (resized env ctx.(bc_startTime) n r b) s') with (blocks_of b s) in Hup
          by (unfold blocks_of; cbn; by rewrite Ha', Ha).
        by replace (ranges_of (resized env ctx.(bc_startTime) n r b) s') with l' in Hup
          by (unfold ranges_of; cbn; by rewrite Hra', lookup_insert_eq).
    + unfold outcome at 1. cbn [new_ranges fst snd].
      eapply (resize_end env _ i b n _ []);
        [cbn; by rewrite Hd1, lookup_insert_eq|by cbn; rewrite lookup_insert_eq|done|done|].
      intros s' l' Hsh _ _ _ _. exists i, b, 1%positive, l'. split_and!; [done|by apply Hc|done| |rewrite Hr; by intros []].
      by replace (ranges_of b s) with (@nil PersistencyPageRange) by (unfold ranges_of; by rewrite Hr).
Qed.

(** ** Properties only *)

Lemma save_updated p f i b k s s' :
  store_ok s -> key_at k s i b -> docs s'.(blobs) = <[i := with_properties p (with_lease f b)]> (docs s.(blobs)) ->
  arrays_same s s' -> s'.(blocks) = s.(blocks) ->
  updated k s (with_properties p (with_lease f b)) (blocks_of b s) (ranges_of b s) s'.
Proof.
  intros Hs Hb Hd Ha Hbl.
  pose proof (updated_in_place k i b (with_properties p (with_lease f b)) s s' Hs Hb ltac:(done) Hd (same_others i _ s s' Hd Ha) Hbl) as Hup.
  destruct Ha as [Ha Hr]. unfold blocks_of, ranges_of in *. cbn in Hup |- *. by rewrite Ha, Hr in Hup.
Qed.

Lemma sealBlob_content env ctx k acc mac s :
  store_ok s ->
  outcome (sealBlob env ctx k.1.1 k.1.2 k.2 acc mac) s (fun r s' => match r with
  | Ok p => exists i b f, key_at k s i b /\ b.(b_properties).(bp_blobType) = Some AppendBlob /\
      p = with_sealed (Some true) (touch env.(newEtag) ctx.(bc_startTime) b.(b_properties)) /\
      updated k s (with_properties p (with_lease f b)) (blocks_of b s) (ranges_of b s) s'
  | Throw _ => refused s s'
  end).
Proof.
  intros Hs. unfold sealBlob, getBlob. apply outcome_bind, outcome_bind, outcome_get, outcome_ret.
  cbn [default]. unfold write_conditions, existing, write_lease.
  apply outcome_bind, outcome_lift; [intros _ _|intros; apply refused_refl].
  destruct (findOne _ _) as [[i b]|] eqn:Hf; [|apply refused_refl].
  apply findOne_Some in Hf as [Hi Hk%is_blob_key]. assert (Hb : key_at k s i b) by done.
  apply outcome_bind, outcome_ret.
  apply outcome_bind, outcome_guard; [intros Ht|intros; apply refused_refl].
  apply outcome_bind. unfold outcome at 1. cbn [save_blob update_db fst snd].
  apply outcome_bind, outcome_lift; [intros _ _|intros; by apply refused_lease].
  unfold outcome. run. exists i, b, (written_lease b).(b_lease). split_and!; [done|by apply bool_decide_eq_true in Ht|done|].
  apply (save_updated _ (written_lease b).(b_lease) i b); [done|done| |done|done]. cbn.
  assert (is_Some (docs (lk_update i (with_lease (BlobLeaseAdapter b.(b_lease)).2 b) s.(blobs)) !! i))
    by by rewrite docs_update, lookup_insert_eq.
  by rewrite docs_update, docs_update, insert_insert_eq.
Qed.

Lemma updateSequenceNumber_content env ctx k act num acc mac s :
  store_ok s ->
  outcome (updateSequenceNumber env ctx k.1.1 k.1.2 k.2 act num acc mac) s (fun r s' =>
    refused s s' \/
    exists i b f n p, key_at k s i b /\ b.(b_isCommitted) = true /\
      (p = with_sequence n b.(b_properties) \/ p = touch env.(newEtag) ctx.(bc_startTime) (with_sequence n b.(b_properties))) /\
      updated k s (with_properties p (with_lease f b)) (blocks_of b s) (ranges_of b s) s').
Proof.
  intros Hs. unfold updateSequenceNumber.
  apply open_outcome; [done|done|intros; left; apply refused_refl|..].
  - intros _. unfold write_conditions, existing.
    apply outcome_bind, outcome_lift; intros; left; apply refused_refl.
  - intros i b s1 Hb Hc Ho. assert (Hr : refused s s1) by (eapply opens_refused; [apply Hb|exact Ho]).
    pose proof Ho as (_&Hbl&Ha&Hra). unfold write_conditions, existing, write_lease.
    apply outcome_bind, outcome_lift; [intros _ _|by left].
    apply outcome_bind, outcome_ret.
    apply outcome_bind, outcome_guard; [intros _|by left].
    apply outcome_bind, outcome_lift; [intros _ _|by left]. cbn [fst snd].
    apply outcome_bind. unfold outcome at 1. cbn [save_blob update_db fst snd].
    set (n := Some (default 0 _)).
    assert (Hd : forall d, docs (lk_update i d s1.(blobs)) = <[i := d]> (docs s.(blobs))) by (intros; by eapply save_opened).
    apply outcome_bind, outcome_lift; [intros m _|intros e _]; right.
    + unfold outcome. run. exists i, b, (written_lease (opened ctx.(bc_startTime) b)).(b_lease), (Some m), (touch env.(newEtag) ctx.(bc_startTime) (with_sequence (Some m) b.(b_properties))).
      split_and!; [done|by apply Hc|by right|]. apply (save_updated _ (written_lease (opened ctx.(bc_startTime) b)).(b_lease) i b); [done|done| |done|done]. cbn.
      rewrite docs_update, Hd, insert_insert_eq by by rewrite Hd, lookup_insert_eq. done.
    + exists i, b, (opened ctx.(bc_startTime) b).(b_lease), n, (with_sequence n b.(b_properties)).
      split_and!; [done|by apply Hc|by left|]. apply (save_updated _ (opened ctx.(bc_startTime) b).(b_lease) i b); [done|done|exact (Hd _)|done|done].
Qed.

(** ** Blocks *)

Lemma refused_untouched s s' : refused s s' -> untouched s s'.
Proof. by intros (?&_&?). Qed.

(** An append adds the block to the list, and its size to the length. *)
Lemma appendBlock_content env ctx block acc mac ap s :
  store_ok s -> own_arrays s ->
  let k := block_key block in
  outcome (appendBlock env ctx block acc mac ap) s (fun r s' => match r with
  | Ok p => exists i b b' rg, key_at k s i b /\ b.(b_isCommitted) = true /\
      b.(b_properties).(bp_blobType) = Some AppendBlob /\ b'.(b_isCommitted) = true /\
      b'.(b_persistency) = b.(b_persistency) /\ b'.(b_properties) = appended_blob env ctx block b /\
      updated k s b' (blocks_of b s ++ [block.(bl_block)]) rg s'
  | Throw _ => untouched s s'
  end).
Proof.
  intros Hs Hu k. pose proof (appendBlock_effect env ctx block acc mac ap s Hs) as He. unfold outcome in *.
  destruct (appendBlock _ _ _ _ _ _ s).1 as [p|e]; [|by destruct He].
  destruct He as (i&b&b'&r&Hb&Hall&Hk&Hc&Hpe&Hbl&->&Hp&Hown&Hw). pose proof Hb as [Hi Hbk].
  destruct (array_written_effect block.(bl_accountName) block.(bl_containerName) block.(bl_blobName) _ _ _ _ _ _ Hs Hw) as (E1&E2&E3).
  - by apply (key_at_key k s i b b').
  - destruct Hown as [Hown|[_ Hown]]; [right; by exists b|by left].
  - exists i, b, b', (ranges_of b' (appendBlock env ctx block acc mac ap s).2).
    split_and!; [done|apply Hall|apply Hall|done..|]. rewrite <- E2. destruct Hw as (Hd&_).
    exact (updated_in_place k i b b' s _ Hs Hb Hk Hd (E3 Hu) Hbl).
Qed.

(** A commit makes the blob of the blocks its entries pick. *)
Definition committed_list (k : Key) s : list PersistencyBlockModel :=
  match base_doc k s with Some d => blocks_of d s | None => [] end.

Lemma commitBlockList_content ctx blob l acc mac s :
  store_ok s -> own_arrays s -> blob.(b_snapshot) = EmptyString -> blob.(b_isCommitted) = true ->
  let k := key_of blob in
  outcome (commitBlockList ctx blob l acc mac) s (fun r s' => match r with
  | Ok _ => exists b sel rg, unique_bases s' /\ base_content k s' = Some (core b, sel, rg) /\
      (forall k', k' <> k -> base_content k' s' = base_content k' s) /\
      b.(b_isCommitted) = true /\ b.(b_properties).(bp_blobType) = blob.(b_properties).(bp_blobType) /\
      b.(b_properties).(bp_etag) = blob.(b_properties).(bp_etag) /\
      b.(b_persistency) = match base_doc k s with Some d => d.(b_persistency) | None => blob.(b_persistency) end /\
      b.(b_properties).(bp_contentLength) = Some (total_size sel) /\
      Forall2 (picked (committed_list k s) (staged_of k.1.1 k.1.2 k.2 s)) l sel /\
      (forall d, base_doc k s = Some d -> d.(b_properties).(bp_blobType) = Some BlockBlob) /\
      (forall j x, docs s'.(blocks) !! j = Some x <-> docs s.(blocks) !! j = Some x /\ is_staged k x = false)
  | Throw _ => untouched s s'
  end).
Proof.
  intros Hs Hu Hsn Hcm k. destruct (commitBlockList_effect ctx blob l acc mac s Hs Hsn Hcm) as (o&Ho&He).
  unfold outcome in *. destruct (commitBlockList _ _ _ _ _ s).1; [|by destruct He].
  destruct He as [(_&_&_&Hd&_) (i&b&sel&Hb&Hio&(C1&C2&C3&C4)&Hsel&Hbl&Hlen&Hbk&Hoth)].
  set (s' := (commitBlockList ctx blob l acc mac s).2) in *.
  assert (Hdoc : base_doc k s = snd <$> o).
  { destruct o as [[j d]|]; cbn in *; [by apply (base_doc_at k s j d (ok_unique s Hs))|].
    destruct (base_doc k s) as [d|] eqn:Hk; [|done]. apply base_doc_Some in Hk as [j Hj]. by destruct (Ho j d). }
  assert (Hold : forall d, docs s.(blobs) !! i = Some d -> key_at k s i d).
  { intros d Hdi. destruct o as [[j d']|]; cbn in Hio, Ho; [|congruence]. subst j. destruct Ho.
    split; [done|]. by assert (d = d') as -> by congruence. }
  assert (Hu' : unique_bases s').
  { intros k' j1 j2 d1 d2 H1 H2.
    assert (Hj : forall j d, key_at k' s' j d -> (j = i /\ k' = k) \/ (j <> i /\ key_at k' s j d)).
    { intros j d Hj. destruct (decide (j = i)) as [->|Hne].
      - left. split; [done|]. destruct Hb as [Hbi (B1&B2&B3&_)], Hj as [Hji (J1&J2&J3&_)].
        destruct k' as [[? ?] ?]. unfold k, key_of. cbn in *. congruence.
      - right. split; [done|]. destruct (Hoth Hu j Hne) as [E _]. split; [rewrite <- E|]; apply Hj. }
    assert (Hki : forall j d, j <> i -> ~ key_at k s j d).
    { intros j d Hne Hj'. destruct o as [[j' d']|]; cbn in Hio, Ho; [|by destruct (Ho j d)]. subst j'.
      by destruct (ok_unique s Hs k _ _ _ _ Hj' Ho) as [-> _]. }
    assert (j1 = j2) as ->; [|split; [done|destruct H1, H2; congruence]].
    destruct (Hj _ _ H1) as [[-> ->]|[N1 K1]], (Hj _ _ H2) as [[-> E]|[N2 K2]]; [done|..].
    - by destruct (Hki j2 d2).
    - subst k'. by destruct (Hki j1 d1).
    - by destruct (ok_unique s Hs k' _ _ _ _ K1 K2). }
  destruct (others_same_content s s' k i b (ok_unique s Hs) Hu' Hb Hold (Hoth Hu)) as [H1 H2].
  unfold committed_list. rewrite Hdoc. subst sel. exists b, (blocks_of b s'), (ranges_of b s').
  split_and!; [done|done|done|done|done|done|by destruct o|done|by destruct o as [[]|]| |exact Hbk].
  intros d Hod. destruct o as [[j d']|]; [|done]. injection Hod as <-. by destruct (Hd (j, d') eq_refl).
Qed.

(** ** Lists *)

(** A blob that has to exist is opened as any other. *)
Lemma open_forced ctx a c n osn fc s :
  getBlobWithLeaseUpdated (P := P) ctx a c n osn true fc s =
  match getBlobWithLeaseUpdated (P := P) ctx a c n osn false fc s with
  | (Ok None, s') => (Throw (BlobErrors.getBlobNotFound ctx.(bc_contextId)), s')
  | r => r
  end.
Proof.
  unfold getBlobWithLeaseUpdated, checkContainerExist. run.
  destruct (findOne (is_container a c) _) as [[]|]; [|done].
  destruct (findOne _ s.(blobs)) as [[i b]|]; [|done]. destruct (fc && _); [done|].
  destruct (_ !== EmptyString); [done|]. destruct (BlobLeaseAdapter _). run. by destruct (createLeaseState _ _).
Qed.

Lemma open_forced_outcome ctx k osn fc s {A} (f : option (Z * BlobModel) -> proc db exn A) Q :
  store_ok s -> default EmptyString osn = EmptyString ->
  (forall e, Q (Throw e) s) ->
  (forall i b s1, key_at k s i b -> (fc = true -> b.(b_isCommitted) = true) ->
     opens ctx.(bc_startTime) i b s s1 -> outcome (f (Some (i, opened ctx.(bc_startTime) b))) s1 Q) ->
  outcome (doc ← getBlobWithLeaseUpdated ctx k.1.1 k.1.2 k.2 osn true fc; f doc) s Q.
Proof.
  intros Hs Hsn Ht Ho. apply outcome_bind. unfold outcome at 1. rewrite open_forced.
  assert (He : getBlobWithLeaseUpdated (P := P) ctx k.1.1 k.1.2 k.2 osn false fc
             = getBlobWithLeaseUpdated (P := P) ctx k.1.1 k.1.2 k.2 None false fc)
    by (destruct osn; cbn in Hsn; by subst).
  rewrite He. destruct (open_cases ctx k.1.1 k.1.2 k.2 fc s Hs)
    as [[-> _]|[(->&_&_)|(i&b&s1&->&Hb&Hc&Hop)]]; cbn [fst snd]; [apply Ht..|by apply (Ho i b)].
Qed.

Lemma getBlockList_content ctx k osn acc mac s :
  store_ok s -> default EmptyString osn = EmptyString ->
  outcome (getBlockList ctx k.1.1 k.1.2 k.2 osn None acc mac) s (fun r s' => refused s s' /\
    forall p u c, r = Ok (p, u, c) -> exists i b, key_at k s i b /\
      b.(b_properties).(bp_blobType) = Some BlockBlob /\ c = blocks_of b s /\
      u ≡ₚ (lk_find (fun _ => is_staged k) s.(blocks)).*2).
Proof.
  intros Hs Hsn. unfold getBlockList. apply open_forced_outcome; [done|done|by intros; split; [apply refused_refl|]|].
  intros i b s1 Hb _ Ho. assert (Hr : refused s s1) by (eapply opens_refused; [apply Hb|exact Ho]).
  pose proof Ho as (_&Hbl&Ha&_). unfold read_conditions, existing, read_lease.
  apply outcome_bind, outcome_lift; [intros _ _|by intros].
  apply outcome_bind, outcome_ret. apply outcome_bind, outcome_lift; [intros _ _|by intros].
  apply outcome_bind, outcome_guard; [intros Ht|by intros]. apply outcome_bind, outcome_get, outcome_ret.
  split; [done|]. intros p u c [= _ <- <-]. exists i, b. split_and!; [done|by apply bool_decide_eq_true in Ht| |].
  - unfold blocks_of. by rewrite Ha.
  - rewrite Hbl. apply Permutation_map. apply sort_perm.
Qed.

Lemma getPageRanges_content ctx k osn acc mac s :
  store_ok s -> default EmptyString osn = EmptyString ->
  outcome (getPageRanges ctx k.1.1 k.1.2 k.2 osn acc mac) s (fun r s' => refused s s' /\
    forall p l, r = Ok (p, l) -> exists i b, key_at k s i b /\ b.(b_isCommitted) = true /\
      p = b.(b_properties) /\ default [] l = ranges_of b s).
Proof.
  intros Hs Hsn. unfold getPageRanges. apply open_outcome; [done|done| | |].
  - intros e. split; [apply refused_refl|done].
  - intros _. unfold read_conditions.
    apply outcome_bind, outcome_lift; intros; (split; [apply refused_refl|done]).
  - intros i b s1 Hb Hc Ho. assert (Hr : refused s s1) by (eapply opens_refused; [apply Hb|exact Ho]).
    pose proof Ho as (_&_&_&Hra). unfold read_conditions, existing, read_lease.
    apply outcome_bind, outcome_lift; [intros _ _|by intros].
    apply outcome_bind, outcome_ret. apply outcome_bind, outcome_guard; [intros _|by intros].
    apply outcome_bind, outcome_lift; [intros _ _|by intros]. apply outcome_bind, outcome_get, outcome_ret.
    split; [done|]. intros p l [= <- <-]. exists i, b. split_and!; [done|by apply Hc|done|].
    cbn. unfold ranges_of. rewrite Hra. by destruct (b_pageRangesInOrder b).
Qed.

End Content.
