(* ===== verification/BlobData.v ===== *)
(** * BlobData: the content of the blobs as a map

    The abstract state of the blob service on the content of blobs: for each name
    its staged blocks and its data, in one piece, of blocks or of pages. And what
    it is for the stores to represent a state. *)

From S2P Require Import Prelude Errors Extents Loki Utf8 Texts TagQuery Conditions Lease LeaseSpec PageRanges PageRangesSpec PagePieces.
From S2P Require Import BlobModels BlobContainers BlobStore BlobChanges BlobRefine BlobRequests BlobStoreSpec.
From S2P Require Import BlobHttp BlobHandlers BlobContentSpec.
Open Scope Z_scope.
Open Scope azurite_scope.

(** ** The service as a map *)

(** The content of a blob: put in one piece, of blocks, or of pages; a page blob
    is a function from positions to bytes. *)
Inductive Data :=
| Single (b : bytes)
| BlockList (t : BlobType) (l : list (string * bytes))
| PageMap (length : Z) (m : Z -> Z).

(** A name: its staged blocks, and its committed blob if there is one. *)
Record Blob := mkAbstract {
  staged : gmap string bytes;
  data : option Data
}.

Definition State := Key -> Blob.
Definition nothing : Blob := mkAbstract ∅ None.
Definition put (k : Key) (B : Blob) (A : State) : State := fun k' => if decide (k' = k) then B else A k'.

(** The bytes of a function from [s] to [e]. *)
Definition span (m : Z -> Z) (s e : Z) : bytes := m <$> seqZ s (e - s + 1).

Definition bytes_of (d : Data) : bytes :=
  match d with
  | Single b => b
  | BlockList _ l => concat l.*2
  | PageMap n m => span m 0 (n - 1)
  end.

Definition size_of (d : Data) : Z := Z.of_nat (length (bytes_of d)).

Definition type_of (d : Data) : BlobType :=
  match d with Single _ => BlockBlob | BlockList t _ => t | PageMap _ _ => PageBlob end.

(** The block an entry of a block list stands for. *)
Definition last_block (n : string) (l : list (string * bytes)) : option bytes :=
  snd <$> last (filter (fun x => x.1 = n) l).

Definition pick (committed : list (string * bytes)) (uncommitted : gmap string bytes) (e : string * string) :
    option (string * bytes) :=
  let t := toLowerCase e.2 in
  pair e.1 <$>
    (if t === "uncommitted"%string then uncommitted !! e.1
     else if t === "committed"%string then last_block e.1 committed
     else if t === "latest"%string then
       match uncommitted !! e.1 with Some b => Some b | None => last_block e.1 committed end
     else None).

(** Bytes written over those of a function. *)
Definition overlay (m : Z -> Z) (s : Z) (b : bytes) : Z -> Z :=
  fun p => if (s <=? p) && (p <? s + Z.of_nat (length b)) then b !!! Z.to_nat (p - s) else m p.
Definition erase (m : Z -> Z) (s : Z) (e : Quantity) : Z -> Z :=
  fun p => if (s <=? p) && (match e with Exact n => p <=? n | _ => true end) then 0 else m p.

(** ** Lemmas on bytes *)

Lemma length_span m s e : length (span m s e) = Z.to_nat (e - s + 1).
Proof. unfold span. by rewrite length_fmap, length_seqZ. Qed.

Lemma lookup_span m s e i :
  (i < Z.to_nat (e - s + 1))%nat -> span m s e !! i = Some (m (s + Z.of_nat i)).
Proof. intros Hi. unfold span. rewrite list_lookup_fmap, lookup_seqZ_lt by lia. done. Qed.

Lemma span_ext m m' s e : (forall p, s <= p <= e -> m p = m' p) -> span m s e = span m' s e.
Proof.
  intros Hm. apply list_eq_same_length with (n := Z.to_nat (e - s + 1)); [by rewrite length_span..|].
  intros i x y Hi. rewrite !lookup_span by done. intros [= <-] [= <-]. apply Hm. lia.
Qed.

(** The part of a span. *)
Lemma part_span m s e x y : s <= x -> y <= e -> x <= y + 1 -> part (x - s) (y - x + 1) (span m s e) = span m x y.
Proof.
  intros Hx Hy Hxy. unfold part. apply list_eq_same_length with (n := Z.to_nat (y - x + 1)).
  - by rewrite length_span.
  - rewrite length_take, length_drop, length_span. lia.
  - intros i a b Hi. rewrite lookup_take_lt, lookup_drop by done. rewrite !lookup_span by lia.
    intros [= <-] [= <-]. f_equal. lia.
Qed.

Lemma span_overlay m s b : span (overlay m s b) s (s + Z.of_nat (length b) - 1) = b.
Proof.
  apply list_eq_same_length with (n := length b); [done|rewrite length_span; lia|].
  intros i x y Hi. rewrite lookup_span by lia. intros [= <-]. unfold overlay.
  destruct (Z.leb_spec s (s + Z.of_nat i)), (Z.ltb_spec (s + Z.of_nat i) (s + Z.of_nat (length b))); try lia. cbn.
  replace (Z.to_nat _) with i by lia. by intros ->%list_lookup_total_correct.
Qed.

Lemma size_pages n m : 0 <= n -> size_of (PageMap n m) = n.
Proof. intros Hn. unfold size_of. cbn. rewrite length_span. lia. Qed.

Lemma last_position_ge s e l : ends_after s e -> s <= last_position s e l.
Proof. destruct e; cbn; [done|..]; intros _; induction l as [|r l IH]; cbn; lia. Qed.

(** No range ends after the last position. *)
Lemma last_position_last s e l p : wf l -> e = Infinite -> last_position s e l < p -> byte_at l p = None.
Proof.
  unfold wf. intros Hw ->. cbn. generalize 0, Hw. clear Hw. induction l as [|r l IH]; intros lo; cbn; [done|].
  intros (_&_&Hw) Hp. rewrite byte_of_out by lia. apply (IH _ Hw). lia.
Qed.

(** ** Representation *)

Section Represents.
Context {coll : Type -> Type} `{LokiLaws coll} {P E : Type} `{IExtentReaderLaws E}.
Abbreviation db := (BlobDb coll P).
Abbreviation world := (BlobService coll P E).
Implicit Types (s : db) (w : world) (k : Key) (A : State) (e : E).

(** What is stored stays. *)
Definition grows e e' : Prop := forall c b, stored e c b -> stored e' c b.

Definition block_holds e (p : PersistencyBlockModel) (x : string * bytes) : Prop :=
  p.(block_name) = x.1 /\ p.(block_size) = Z.of_nat (length x.2) /\ stored e p.(block_persistency) x.2.

Definition range_holds e (m : Z -> Z) (r : PersistencyPageRange) : Prop :=
  stored e r.(persistency) (span m r.(start) r.(end_)).

Definition chunk_holds e (o : option IExtentChunk) : Prop := forall c, o = Some c -> exists b, stored e c b.

(** The document [b] with its arrays holds the data. *)
Definition data_holds e (b : BlobModel) (bl : list PersistencyBlockModel) (rg : list PersistencyPageRange) (d : Data) : Prop :=
  b.(b_isCommitted) = true /\ (3 <= String.length b.(b_properties).(bp_etag))%nat /\
  b.(b_properties).(bp_blobType) = Some (type_of d) /\ b.(b_properties).(bp_contentLength) = Some (size_of d) /\
  match d with
  | Single x => bl = [] /\ exists c, b.(b_persistency) = Some c /\ stored e c x
  | BlockList t l => t <> PageBlob /\ Forall2 (block_holds e) bl l /\ chunk_holds e b.(b_persistency)
  | PageMap n m =>
      0 <= n /\ is_Some b.(b_pageRangesInOrder) /\ wf rg /\ Forall (range_holds e m) rg /\
      forall p, byte_at rg p = None -> m p = 0
  end.

Abbreviation Content := (BlobModel * list PersistencyBlockModel * list PersistencyPageRange)%type.

(** A blob that only has staged blocks is no blob to its clients. *)
Definition content_holds e (c : option Content) (d : option Data) : Prop :=
  match c, d with
  | None, None => True
  | Some c, None => c.1.1.(b_isCommitted) = false /\ c.1.2 = [] /\ c.1.1.(b_persistency) = None /\
      c.1.1.(b_properties).(bp_blobType) = Some BlockBlob
  | Some c, Some d => data_holds e c.1.1 c.1.2 c.2 d
  | None, Some _ => False
  end.

Definition staged_holds e s k (S : gmap string bytes) : Prop :=
  forall n, match S !! n with
  | Some b => exists p, staged_block s k n p /\ block_holds e p (n, b)
  | None => forall p, ~ staged_block s k n p
  end.

Record represents A w : Prop := {
  rep_ok : store_ok w.(metadataStore);
  rep_own : own_arrays w.(metadataStore);
  rep_blocks : blocks_ok w.(metadataStore);
  rep_data k : content_holds w.(extentStore) (base_content k w.(metadataStore)) (A k).(data);
  rep_staged k : staged_holds w.(extentStore) w.(metadataStore) k (A k).(staged)
}.

(** ** What grows *)

Lemma grows_refl e : grows e e.
Proof. by intros ??. Qed.

Lemma grows_trans e e1 e2 : grows e e1 -> grows e1 e2 -> grows e e2.
Proof. intros H1' H2' c b Hc. auto. Qed.

Lemma block_holds_mono e e' p x : grows e e' -> block_holds e p x -> block_holds e' p x.
Proof. intros Hg (?&?&?). split_and!; auto. Qed.

Lemma data_holds_mono e e' b bl rg d : grows e e' -> data_holds e b bl rg d -> data_holds e' b bl rg d.
Proof.
  intros Hg (?&?&?&?&Hd). split_and!; [done..|]. destruct d as [x|t l|n m].
  - destruct Hd as (?&c&?&?). split; [done|]. exists c. auto.
  - destruct Hd as (?&Hl&Hc). split_and!; [done| |].
    + eapply Forall2_impl; [exact Hl|]. intros. by eapply block_holds_mono.
    + intros c Hb. destruct (Hc c Hb) as [y Hy]. exists y. auto.
  - destruct Hd as (?&?&?&Hr&?). split_and!; [done..| |done].
    eapply Forall_impl; [exact Hr|]. intros r Hx. by apply Hg.
Qed.

Lemma content_holds_mono e e' c d : grows e e' -> content_holds e c d -> content_holds e' c d.
Proof.
  intros Hg. destruct c as [c|], d as [d|]; cbn; try done. by apply data_holds_mono.
Qed.

Lemma staged_holds_mono e e' s s' k S :
  grows e e' -> s'.(blocks) = s.(blocks) -> staged_holds e s k S -> staged_holds e' s' k S.
Proof.
  intros Hg Hb Hs n. specialize (Hs n). unfold staged_block in *. rewrite Hb.
  destruct (S !! n) as [b|]; [|done]. destruct Hs as (p&?&?). exists p. split; [done|]. by eapply block_holds_mono.
Qed.

Lemma blocks_ok_eq s s' : s'.(blocks) = s.(blocks) -> blocks_ok s -> blocks_ok s'.
Proof. intros Hb. unfold blocks_ok. by rewrite Hb. Qed.

(** ** Changes of the map *)

Definition good s : Prop := store_ok s /\ own_arrays s.

(** The contents and the staged blocks are as they were. *)
Lemma represents_untouched A s e s' e' :
  represents A (mkBlobService s e) -> good s' -> untouched s s' -> grows e e' ->
  represents A (mkBlobService s' e').
Proof.
  intros [Hs Ho Hb Hd Hst] [Hs' Ho'] [Hall Hbl] Hg. split; cbn in *; [done|done|by eapply blocks_ok_eq|..]; intros k.
  - destruct (all_same_content s s' k (ok_unique s Hs) Hall) as [-> _]. by eapply content_holds_mono.
  - by eapply staged_holds_mono.
Qed.

Lemma represents_grows A s e e' :
  represents A (mkBlobService s e) -> grows e e' -> represents A (mkBlobService s e').
Proof. intros HA Hg. eapply represents_untouched; [exact HA| |apply untouched_refl|done]. split; apply HA. Qed.

(** The content of one name changes, and its staged blocks do not. *)
Lemma represents_write A s e s' e' k c d :
  represents A (mkBlobService s e) -> good s' -> grows e e' -> s'.(blocks) = s.(blocks) ->
  base_content k s' = Some c -> (forall k', k' <> k -> base_content k' s' = base_content k' s) ->
  content_holds e' (Some c) (Some d) ->
  represents (put k (mkAbstract (A k).(staged) (Some d)) A) (mkBlobService s' e').
Proof.
  intros [Hs Ho Hb Hd Hst] [Hs' Ho'] Hg Hbl Hc Hne Hh. split; cbn in *; [done|done|by eapply blocks_ok_eq|..]; intros k'.
  - unfold put. case_decide as Hk; [subst; by rewrite Hc|]. rewrite Hne by done. by eapply content_holds_mono.
  - unfold put. case_decide as Hk; [subst|]; by eapply staged_holds_mono.
Qed.

(** The name holds nothing new. *)
Lemma put_same A k w : represents (put k (A k) A) w <-> represents A w.
Proof.
  assert (Hk : forall k', put k (A k) A k' = A k') by (intros; unfold put; case_decide; by subst).
  split; intros [H1' H2' H3' H4' H5']; split; try done; intros k'; [rewrite <- Hk|rewrite <- Hk|rewrite Hk|rewrite Hk]; done.
Qed.

End Represents.
