(* ===== verification/BlobWrites.v ===== *)
(** * BlobWrites: what the requests that write leave

    Each handler of a write, whatever the stores do, leaves the state with its
    effect on the name if it returns, and as it was if it throws. *)

From S2P Require Import Prelude Errors Extents Loki Utf8 Texts TagQuery Conditions Lease LeaseSpec PageRanges PageRangesSpec PagePieces.
From S2P Require Import BlobModels BlobContainers BlobStore BlobChanges BlobRefine BlobRequests BlobStoreSpec.
From S2P Require Import BlobHttp BlobHandlers BlobContentSpec BlobData.
Open Scope Z_scope.
Open Scope azurite_scope.

Section Writes.
Context {coll : Type -> Type} `{LokiLaws coll} {P E : Type} `{IExtentReaderLaws E}.
Context (md5 : bytes -> string) (parseXML : text -> res (option (list (option string * option string)))).
Abbreviation db := (BlobDb coll P).
Abbreviation world := (BlobService coll P E).
Implicit Types (s : db) (w : world) (k : Key) (A : State) (e : E).

(** ** Outcomes *)

Lemma outcome_on_db {T} (f : proc db exn T) w (Q : result exn T -> world -> Prop) :
  outcome f w.(metadataStore) (fun r s => Q r (mkBlobService s w.(extentStore))) -> outcome (on_db f) w Q.
Proof. unfold outcome, on_db. by destruct (f _). Qed.

Lemma outcome_check ok x w (Q : result exn unit -> world -> Prop) :
  (ok = true -> Q (Ok tt) w) -> Q (Throw x) w -> outcome (check ok x) w Q.
Proof. unfold outcome, check. destruct ok; cbn; auto. Qed.

Lemma outcome_and {X T} (m : proc X exn T) (x : X) (Q : result exn T -> X -> Prop) (R : X -> Prop) :
  outcome m x Q -> R (m x).2 -> outcome m x (fun r x' => Q r x' /\ R x').
Proof. by split. Qed.

Lemma outcome_weaken {X T} (m : proc X exn T) (x : X) (Q R : result exn T -> X -> Prop) :
  outcome m x Q -> (forall r x', Q r x' -> R r x') -> outcome m x R.
Proof. unfold outcome. auto. Qed.

(** A method of the store that is a request keeps its invariants. *)
Lemma request_good env ctx (q : BlobRequests.request P) (m : proc db exn unit) s :
  m = run_request env ctx q -> request_ok q -> copies q = false -> good s -> good (m s).2.
Proof.
  intros -> Hq Hc [Hs Ho]. apply (run_call_keeps s (mkCall env ctx q) Hq Hc Hs Ho).
Qed.

Lemma no_result_state {T} (m : proc db exn T) s : (no_result m s).2 = (m s).2.
Proof. unfold no_result. run. by destruct (m s) as [[]]. Qed.

Lemma read_good {T} env ctx (q : BlobRequests.request P) (m : proc db exn T) s :
  no_result m = run_request env ctx q -> request_ok q -> copies q = false -> good s -> good (m s).2.
Proof. intros Hm Hq Hc Hs. rewrite <- no_result_state. by eapply request_good. Qed.

(** A method that is a request: its outcome, with the invariants kept. *)
Lemma outcome_request {T} env ctx (q : BlobRequests.request P) (m : proc db exn T) s (Q : result exn T -> db -> Prop) :
  no_result m = run_request env ctx q -> request_ok q -> copies q = false -> good s ->
  outcome m s Q -> outcome m s (fun r s' => Q r s' /\ good s').
Proof. intros Hm Hq Hc Hs Ho. apply outcome_and; [done|]. by eapply read_good. Qed.

Lemma no_result_unit (m : proc db exn unit) : forall s, no_result m s = m s.
Proof. intros s. unfold no_result. run. by destruct (m s) as [[[]|e] s']. Qed.

Lemma outcome_unit_request env ctx (q : BlobRequests.request P) (m : proc db exn unit) s (Q : result exn unit -> db -> Prop) :
  m = run_request env ctx q -> request_ok q -> copies q = false -> good s ->
  outcome m s Q -> outcome m s (fun r s' => Q r s' /\ good s').
Proof. intros Hm Hq Hc Hs Ho. apply outcome_and; [done|]. by eapply request_good. Qed.

(** ** Storing the body *)

Lemma outcome_persist ctx body n extentId w (Q : result exn IExtentChunk -> world -> Prop) :
  fresh w.(extentStore) extentId ->
  (forall x e', grows w.(extentStore) e' -> Q (Throw x) (mkBlobService w.(metadataStore) e')) ->
  (forall c e', grows w.(extentStore) e' -> stored e' c body -> c.(count) = Z.of_nat (length body) -> n = c.(count) ->
     Q (Ok c) (mkBlobService w.(metadataStore) e')) ->
  outcome (persist ctx body n extentId) w Q.
Proof.
  intros Hf HT HQ. unfold persist. apply outcome_bind. unfold outcome at 1, on_extents.
  destruct (appendExtent body extentId ctx.(clock) ctx.(contextId) w.(extentStore)) as [r e'] eqn:Ha.
  destruct (append_stored _ _ _ _ _ _ _ Ha Hf) as [Hg Hst]. cbn [fst snd].
  destruct r as [c|x]; [|by apply HT]. specialize (Hst c eq_refl).
  apply outcome_bind, outcome_check; [intros Hn|by apply HT]. apply Z.eqb_eq in Hn.
  apply outcome_ret. apply HQ; [done|done|by eapply stored_length|done].
Qed.

Lemma outcome_md5 c b w (Q : result exn string -> world -> Prop) :
  stored w.(extentStore) c b -> Q (Ok (md5 b)) w -> outcome (md5_of md5 c) w Q.
Proof.
  intros Hc HQ. unfold md5_of. apply outcome_bind, outcome_get. rewrite (read_stored _ _ _ Hc). exact HQ.
Qed.

Lemma outcome_check_container ctx w (Q : result exn unit -> world -> Prop) :
  Q (Ok tt) w -> (forall x, Q (Throw x) w) ->
  outcome (on_db (checkContainerExist (store_ctx ctx) ctx.(ctx_account) ctx.(ctx_container))) w Q.
Proof. destruct w. intros HQ HT. by apply outcome_on_db, check_outcome. Qed.

(** ** The requests *)

(** What a request leaves: the map with [B] at its name if it returns, and the map
    as it was if it throws. *)
Definition leaves {T} A k (B : T -> option Blob) (r : result exn T) w' : Prop :=
  match r with
  | Ok a => exists B', B a = Some B' /\ represents (put k B' A) w'
  | Throw _ => represents A w'
  end.

Definition ctx_key (ctx : BlobStorageContext) : Key := (ctx.(ctx_account), ctx.(ctx_container), ctx.(ctx_blob)).

(** The etag a request draws is one of the service's: it has quotes. *)
Definition env_ok (env : Env) : Prop := (3 <= String.length env.(newEtag))%nat.

Lemma unleased_new : unleased newBlobLease.
Proof. right. by split. Qed.
Lemma unleased_none : unleased noLease.
Proof. left. by split. Qed.

Lemma upload_leaves env body n options extentId ctx A w :
  represents A w -> env_ok env -> fresh w.(extentStore) extentId ->
  outcome (upload md5 env body n options extentId ctx) w
    (leaves A (ctx_key ctx) (fun _ => Some (mkAbstract (A (ctx_key ctx)).(staged) (Some (Single body))))).
Proof.
  intros HA He Hf. destruct w as [s e]. unfold upload.
  apply outcome_bind, outcome_check_container; [|intros; exact HA].
  apply outcome_bind, outcome_persist; [done|intros x e' Hg; by eapply represents_grows|].
  intros c e' Hg Hc Hlen ->. cbn [metadataStore extentStore] in *.
  assert (HA' : represents A (mkBlobService s e')) by by eapply represents_grows.
  apply outcome_bind, (outcome_md5 c body); [done|].
  apply outcome_bind, outcome_lift; [intros _ _|intros; exact HA'].
  apply outcome_bind, outcome_lift; [intros md _|intros; exact HA'].
  apply outcome_bind, outcome_lift; [intros tags _|intros; exact HA'].
  apply outcome_bind, outcome_lift; [intros tier _|intros; exact HA'].
  apply outcome_bind, outcome_on_db. cbn [metadataStore extentStore].
  set (blob := mkBlob _ _ _ _ _ _ _ _ _ _ _ _).
  eapply outcome_weaken.
  { eapply (outcome_unit_request env (store_ctx ctx) (RCreateBlob blob None None options.(wo_leaseId) options.(wo_mac)));
      [done|split; [split; [done|apply unleased_new]|done]|done|split; apply HA'|].
    apply createBlob_content; [apply ok_unique, HA'|done]. }
  cbn beta. intros r s' [Hr Hgood]. destruct r as [[]|x].
  - destruct Hr as (Ha&Hbl&Hu&Hc1&Hc2). apply outcome_ret. eexists. split; [done|].
    eapply represents_write; [exact HA'|done|apply grows_refl|done|exact Hc1|done|].
    split_and!; [done|exact He|done|by cbn; rewrite Hlen|done|by exists c].
  - eapply represents_untouched; [exact HA'|done|by apply refused_untouched|apply grows_refl].
Qed.

(** ** Block blobs *)

Lemma represents_stage A s e s' e' block body :
  let k := block_key block in
  represents A (mkBlobService s e) -> good s' -> grows e e' -> block.(bl_isCommitted) = false ->
  restaged block s s' ->
  content_holds e' (base_content k s') (A k).(data) ->
  (forall k', k' <> k -> base_content k' s' = base_content k' s) ->
  block_holds e' block.(bl_block) (block.(bl_block).(block_name), body) ->
  represents (put k (mkAbstract (<[block.(bl_block).(block_name) := body]> (A k).(staged)) (A k).(data)) A)
    (mkBlobService s' e').
Proof.
  intros k [Hs Ho Hb Hd Hst] [Hs' Ho'] Hg Hc Hr Hk Hne Hh. split; cbn in *; [done|done|by eapply restaged_ok|..]; intros k'.
  - unfold put. case_decide as Hk'; [by subst|]. rewrite Hne by done. by eapply content_holds_mono.
  - intros n. specialize (Hst k' n). unfold put. case_decide as Hk'.
    + subst k'. cbn. destruct (decide (n = block.(bl_block).(block_name))) as [->|Hn].
      * rewrite lookup_insert_eq. exists block.(bl_block). split; [|done].
        apply (restaged_blocks _ _ _ _ _ _ Hr). by rewrite decide_True.
      * rewrite lookup_insert_ne by done. destruct ((A k).(staged) !! n) as [b|].
        -- destruct Hst as (p&Hp&Hbh). exists p. split; [|by eapply block_holds_mono].
           apply (restaged_blocks _ _ _ _ _ _ Hr). rewrite decide_False; [done|]. by intros [_ ?].
        -- intros p Hp%(restaged_blocks _ _ _ _ _ _ Hr). rewrite decide_False in Hp; [by apply (Hst p)|]. by intros [_ ?].
    + destruct ((A k').(staged) !! n) as [b|].
      * destruct Hst as (p&Hp&Hbh). exists p. split; [|by eapply block_holds_mono].
        apply (restaged_blocks _ _ _ _ _ _ Hr). rewrite decide_False; [done|]. by intros [? _].
      * intros p Hp%(restaged_blocks _ _ _ _ _ _ Hr). rewrite decide_False in Hp; [by apply (Hst p)|]. by intros [? _].
Qed.

Lemma stageBlock_leaves env blockId n body tmd5 leaseId clientId extentId ctx A w :
  let k := ctx_key ctx in
  represents A w -> fresh w.(extentStore) extentId ->
  outcome (BlobHandlers.stageBlock md5 env blockId n body tmd5 leaseId clientId extentId ctx) w
    (leaves A k (fun _ => Some (mkAbstract (<[blockId := body]> (A k).(staged)) (A k).(data)))).
Proof.
  intros k HA Hf. destruct w as [s e]. unfold BlobHandlers.stageBlock.
  apply outcome_bind, outcome_lift; [intros _ _|intros; exact HA].
  apply outcome_bind, outcome_check_container; [|intros; exact HA].
  apply outcome_bind, outcome_persist; [done|intros x e' Hg; by eapply represents_grows|].
  intros c e' Hg Hc Hlen ->. cbn [metadataStore extentStore] in *.
  assert (HA' : represents A (mkBlobService s e')) by by eapply represents_grows.
  apply outcome_bind, (outcome_md5 c body); [done|].
  apply outcome_bind, outcome_lift; [intros _ _|intros; exact HA'].
  apply outcome_bind, outcome_on_db. cbn [metadataStore extentStore].
  set (block := mkBlockModel _ _ _ _ _).
  eapply outcome_weaken.
  { eapply (outcome_unit_request env (store_ctx ctx) (RStageBlock block leaseId)); [done|done|done|split; apply HA'|].
    apply stageBlock_content; [apply HA'|apply HA'|done]. }
  cbn beta. intros r s' [Hr Hgood]. destruct r as [[]|x].
  - destruct Hr as (Hre&Ha&Hu&Hc1&Hc2). apply outcome_ret. eexists. split; [done|].
    apply (represents_stage A s e' s' e' block body); [exact HA'|done|apply grows_refl|done|done| |done|done].
    rewrite Hc1. pose proof (rep_data _ _ HA' k) as Hd. cbn [metadataStore extentStore] in Hd.
    change (block_key block) with k. by destruct (base_content k s) as [x|], (data (A k)) as [d|].
  - eapply represents_untouched; [exact HA'|done|by apply refused_untouched|apply grows_refl].
Qed.

(** The entries of a block list, as the handler reads them. *)
Definition commit_list (ctx : BlobStorageContext) : res (list (string * string)) :=
  match ctx.(BlobHttp.request).(getBody) with
  | None => Throw TypeError
  | Some raw => p ← parseXML raw; commit_entries TypeError (default [] p)
  end.

Definition blocks_in (d : option Data) : list (string * bytes) :=
  match d with Some (BlockList _ l) => l | _ => [] end.

Definition committed (ctx : BlobStorageContext) (B : Blob) : option Blob :=
  match commit_list ctx with
  | Ok l => (fun sel => mkAbstract ∅ (Some (BlockList BlockBlob sel))) <$> mapM (pick (blocks_in B.(data)) B.(staged)) l
  | Throw _ => None
  end.

Lemma last_block_holds e l bl n :
  Forall2 (block_holds e) bl l ->
  match last_named n bl with
  | Some p => exists b, last_block n l = Some b /\ block_holds e p (n, b)
  | None => last_block n l = None
  end.
Proof.
  intros Hl. unfold last_named, last_block.
  assert (Hf : Forall2 (block_holds e) (filter (fun b => b.(block_name) = n) bl) (filter (fun x => x.1 = n) l)).
  { induction Hl as [|p x bl l Hp _ IH]; [constructor|]. pose proof Hp as (Hn&_&_). rewrite !filter_cons, Hn.
    case_decide; [by constructor|done]. }
  apply Forall2_last in Hf.
  destruct (last (filter (fun b => b.(block_name) = n) bl)) as [p|] eqn:Hp; inversion Hf as [? x Hh|]; subst; [|done].
  exists x.2. split; [done|].
  apply last_Some in Hp as [q Hq]. assert (Hin : p ∈ filter (fun b => b.(block_name) = n) bl)
    by (rewrite Hq; apply elem_of_app; right; by left).
  apply list_elem_of_filter in Hin as [Hn _]. destruct Hh as (_&?&?). by split_and!.
Qed.

Lemma staged_of_elem s k p :
  p ∈ staged_of k.1.1 k.1.2 k.2 s <->
  exists j x, docs s.(blocks) !! j = Some x /\ block_key x = k /\ x.(bl_isCommitted) = false /\ x.(bl_block) = p.
Proof.
  unfold staged_of. rewrite list_elem_of_fmap. setoid_rewrite list_elem_of_In. setoid_rewrite filter_In.
  setoid_rewrite <- list_elem_of_In. split.
  - intros (x&->&Hx&Hc%negb_true_iff). apply list_elem_of_fmap in Hx as ([j y]&->&Hj).
    apply (elem_find (fun _ => is_block_of k.1.1 k.1.2 k.2)) in Hj as [Hj Hk]. exists j, y.
    split_and!; [done|by apply is_staged_key|done|done].
  - intros (j&x&Hj&Hk&Hc&<-). exists x. split; [done|]. split; [|by rewrite Hc]. apply list_elem_of_fmap.
    exists (j, x). split; [done|]. apply (elem_find (fun _ => is_block_of k.1.1 k.1.2 k.2)). split; [done|].
    by apply is_staged_key.
Qed.

Lemma staged_last e s k S n :
  blocks_ok s -> staged_holds e s k S ->
  match last_named n (staged_of k.1.1 k.1.2 k.2 s) with
  | Some p => exists b, S !! n = Some b /\ block_holds e p (n, b)
  | None => S !! n = None
  end.
Proof.
  intros Hb Hs. unfold last_named. set (l := filter _ _).
  assert (Hl : forall p, p ∈ l <-> staged_block s k n p).
  { intros p. unfold l. rewrite list_elem_of_filter, staged_of_elem. split.
    - intros [Hn (j&x&?&?&_&?)]. by exists j, x.
    - intros (j&x&Hj&?&?&?). split; [done|]. exists j, x. split_and!; [done|done| |done]. by apply (Hb j x). }
  specialize (Hs n). destruct (last l) as [p|] eqn:Hp.
  - assert (Hin : p ∈ l) by (apply last_Some in Hp as [q ->]; apply elem_of_app; right; by left).
    apply Hl in Hin. destruct (S !! n) as [b|]; [|by destruct (Hs p)]. exists b. split; [done|].
    destruct Hs as (p'&(j'&x'&Hj'&Hk'&<-&Hn')&Hh). destruct Hin as (j&x&Hj&Hk&<-&Hn).
    destruct (Hb j x Hj) as [_ Hu]. assert (j' = j) as -> by (apply (Hu j' x'); congruence).
    assert (x' = x) as -> by congruence. done.
  - apply last_None in Hp. destruct (S !! n) as [b|]; [|done]. destruct Hs as (p&Hp'&_). apply Hl in Hp'.
    rewrite Hp in Hp'. by apply elem_of_nil in Hp'.
Qed.

Lemma picked_holds e s k bl l S (en : string * string) p :
  blocks_ok s -> staged_holds e s k S -> Forall2 (block_holds e) bl l ->
  picked bl (staged_of k.1.1 k.1.2 k.2 s) en p ->
  exists x, pick l S en = Some x /\ block_holds e p x.
Proof.
  intros Hb Hs Hl Hp. pose proof (staged_last e s k S en.1 Hb Hs) as HU. pose proof (last_block_holds e l bl en.1 Hl) as HC.
  inversion Hp as [n t b Ht Hn|n t b Ht Hn|n t b Ht Hn|n t b Ht Hn Hn']; subst; cbn [fst snd] in *; unfold pick; cbn [fst snd]; rewrite Ht; cbn.
  - rewrite Hn in HU. destruct HU as (y&->&?). by eexists.
  - rewrite Hn in HC. destruct HC as (y&->&?). by eexists.
  - rewrite Hn in HU. destruct HU as (y&->&?). by eexists.
  - rewrite Hn in HU. rewrite Hn' in HC. rewrite HU. destruct HC as (y&->&?). by eexists.
Qed.

Lemma picks_hold e s k bl l S es sel :
  blocks_ok s -> staged_holds e s k S -> Forall2 (block_holds e) bl l ->
  Forall2 (picked bl (staged_of k.1.1 k.1.2 k.2 s)) es sel ->
  exists xs, mapM (pick l S) es = Some xs /\ Forall2 (block_holds e) sel xs.
Proof.
  intros Hb Hs Hl. induction 1 as [|en p es sel Hp _ IH]; [by exists []|].
  destruct (picked_holds e s k bl l S en p Hb Hs Hl Hp) as (x&Hx&Hh). destruct IH as (xs&Hxs&Hhs).
  exists (x :: xs). split; [|by constructor]. cbn. by rewrite Hx, Hxs.
Qed.

Lemma total_size_holds e bl l : Forall2 (block_holds e) bl l -> total_size bl = Z.of_nat (length (concat l.*2)).
Proof.
  intros Hl. unfold total_size. assert (Hgen : forall a, foldl (fun t b => t + b.(block_size)) a bl = a + Z.of_nat (length (concat l.*2))).
  { induction Hl as [|p x bl l (_&Hs&_) _ IH]; intros a; cbn; [lia|]. rewrite IH, Hs, length_app. lia. }
  apply Hgen.
Qed.

Lemma commit_entries_ok x x' l r : commit_entries x l = Ok r -> commit_entries x' l = Ok r.
Proof.
  revert r. induction l as [|[[a|] [b|]] l IH]; intros r; cbn; try done.
  destruct (commit_entries x l) as [q|]; [|done]. rewrite (IH q eq_refl). done.
Qed.

(** The blocks of a block blob, and its chunk. *)
Lemma block_blob_holds e s k d :
  content_holds e (base_content k s) d ->
  (forall b, base_doc k s = Some b -> b.(b_properties).(bp_blobType) = Some BlockBlob) ->
  Forall2 (block_holds e) (committed_list k s) (blocks_in d) /\
  chunk_holds e (b ← base_doc k s; b.(b_persistency)).
Proof.
  unfold base_content, committed_list. destruct (base_doc k s) as [b|]; cbn.
  2:{ intros Hd _. by destruct d. }
  intros Hd Ht. specialize (Ht b eq_refl). destruct d as [d|].
  - destruct Hd as (_&_&Hty&_&Hd). cbn in *. destruct d as [x|t l|m f]; cbn in *.
    + destruct Hd as (->&c&Hc&Hst). split; [constructor|]. intros c' Hc'. exists x. congruence.
    + by destruct Hd as (_&?&?).
    + congruence.
  - destruct Hd as (_&->&Hp&_). split; [constructor|]. intros c Hc. cbn in Hp. congruence.
Qed.

Lemma represents_commit A s e s' k c d :
  represents A (mkBlobService s e) -> good s' ->
  base_content k s' = Some c -> (forall k', k' <> k -> base_content k' s' = base_content k' s) ->
  (forall j x, docs s'.(blocks) !! j = Some x <-> docs s.(blocks) !! j = Some x /\ is_staged k x = false) ->
  content_holds e (Some c) (Some d) ->
  represents (put k (mkAbstract ∅ (Some d)) A) (mkBlobService s' e).
Proof.
  intros [Hs Ho Hb Hd Hst] [Hs' Ho'] Hc Hne Hbl Hh. split; cbn in *; [done|done| | |].
  - intros i x [Hi _]%Hbl. destruct (Hb i x Hi) as [H1' H2']. split; [done|]. intros j y [Hj _]%Hbl. by apply H2'.
  - intros k'. unfold put. case_decide; [subst; by rewrite Hc|by rewrite Hne].
  - intros k' n. unfold put. case_decide as Hk.
    + subst. cbn. rewrite lookup_empty. intros p (j&x&Hj&Hx&_). apply Hbl in Hj as [_ Hf].
      apply not_true_iff_false in Hf. by apply Hf, is_staged_key.
    + specialize (Hst k' n). assert (He : forall p, staged_block s' k' n p <-> staged_block s k' n p).
      { intros p. unfold staged_block. setoid_rewrite Hbl. split; intros (j&x&Hj&?); exists j, x.
        - split; [apply Hj|done].
        - split; [|done]. split; [done|]. apply not_true_iff_false. intros Hx%is_staged_key. destruct_and!. congruence. }
      destruct (staged (A k') !! n) as [b|].
      * destruct Hst as (p&Hp&?). exists p. split; [by apply He|done].
      * intros p Hp%He. by apply (Hst p).
Qed.

Lemma commitBlockList_leaves env options ctx A w :
  let k := ctx_key ctx in
  represents A w -> env_ok env ->
  outcome (BlobHandlers.commitBlockList md5 parseXML env options ctx) w (leaves A k (fun _ => committed ctx (A k))).
Proof.
  intros k HA He. destruct w as [s e]. unfold BlobHandlers.commitBlockList, committed, commit_list.
  destruct (getBody _) as [raw|]; [|exact HA].
  destruct (parseXML raw) as [p|x]; cbn [mbind result_bind].
  2:{ apply outcome_bind, outcome_lift; [done|intros; exact HA]. }
  apply outcome_bind, outcome_lift; [intros ? [= <-]|done].
  destruct (commit_entries (BlobErrors.getInvalidOperation ctx.(contextId) EmptyString) (default [] p)) as [l|x] eqn:Hl.
  2:{ apply outcome_bind, outcome_lift; [done|intros; exact HA]. }
  rewrite (commit_entries_ok _ TypeError _ _ Hl).
  apply outcome_bind, outcome_lift; [intros ? [= <-]|done].
  apply outcome_bind, outcome_lift; [intros tags _|intros; exact HA].
  apply outcome_bind, outcome_lift; [intros md _|intros; exact HA].
  apply outcome_bind, outcome_lift; [intros tier _|intros; exact HA].
  apply outcome_bind, outcome_on_db. cbn [metadataStore extentStore]. set (blob := mkBlob _ _ _ _ _ _ _ _ _ _ _ _).
  eapply outcome_weaken.
  { eapply (outcome_unit_request env (store_ctx ctx) (RCommitBlockList blob l options.(wo_leaseId) options.(wo_mac)));
      [done|split; [split; [done|apply unleased_none]|done]|done|split; apply HA|].
    apply commitBlockList_content; [apply HA|apply HA|done|done]. }
  cbn beta. intros r s' [Hr Hgood]. destruct r as [[]|x].
  - destruct Hr as (b&sel&rg&Hu&Hc1&Hc2&Hcm&Hty&Het&Hpe&Hlen&Hsel&Hbb&Hbl). apply outcome_ret.
    destruct (block_blob_holds e s k (A k).(data) (rep_data _ _ HA k) Hbb) as [Hcl Hch].
    destruct (picks_hold e s k _ _ (A k).(staged) l sel (rep_blocks _ _ HA) (rep_staged _ _ HA k) Hcl Hsel) as (xs&Hxs&Hh).
    eexists. split; [by rewrite Hxs|].
    eapply represents_commit; [exact HA|done|exact Hc1|exact Hc2|exact Hbl|].
    split_and!; cbn [fst snd]; [exact Hcm|by change (3 <= String.length b.(b_properties).(bp_etag))%nat; rewrite Het| | | |done|].
    + change (b.(b_properties).(bp_blobType) = Some BlockBlob). by rewrite Hty.
    + change (b.(b_properties).(bp_contentLength) = Some (size_of (BlockList BlockBlob xs))).
      rewrite Hlen. by rewrite (total_size_holds e sel xs Hh).
    + done.
    + change (chunk_holds e b.(b_persistency)). rewrite Hpe. change (key_of blob) with k.
      by destruct (base_doc k s); [exact Hch|intros ?].
  - eapply represents_untouched; [exact HA|done|done|apply grows_refl].
Qed.

(** ** Append blobs *)

(** A new array is that of no blob. *)
Lemma new_blocks_same s l : store_ok s -> all_same s (new_blocks l s).2.
Proof.
  intros Hs j. cbn. destruct (docs s.(blobs) !! j) as [d|] eqn:Hj; [|constructor]. constructor.
  unfold content, blocks_of, ranges_of. cbn. destruct d.(b_committedBlocksInOrder) as [r|] eqn:Hr; [|done]. cbn.
  rewrite lookup_insert_ne; [done|]. intros Hf. destruct (bo_refs _ _ (ok_blob _ Hs j d Hj)) as [R _].
  destruct (R r Hr) as [x Hx]. cbn in Hx. rewrite <- Hf in Hx. by rewrite fresh_none in Hx.
Qed.

Lemma new_ranges_same s l : store_ok s -> all_same s (new_ranges l s).2.
Proof.
  intros Hs j. cbn. destruct (docs s.(blobs) !! j) as [d|] eqn:Hj; [|constructor]. constructor.
  unfold content, blocks_of, ranges_of. cbn. destruct d.(b_pageRangesInOrder) as [r|] eqn:Hr; [|done]. cbn.
  rewrite lookup_insert_ne; [done|]. intros Hf. destruct (bo_refs _ _ (ok_blob _ Hs j d Hj)) as (_&R&_).
  destruct (R r Hr) as [x Hx]. cbn in Hx. rewrite <- Hf in Hx. by rewrite fresh_none in Hx.
Qed.

(** A new blob, whose array is new. *)
Lemma create_leaves A s e s1 ctx b acc mac d :
  represents A (mkBlobService s e) -> all_same s s1 -> s1.(blocks) = s.(blocks) -> b.(b_snapshot) = EmptyString ->
  good (createBlob ctx b acc mac s1).2 -> data_holds e b (blocks_of b s1) (ranges_of b s1) d ->
  outcome (createBlob ctx b acc mac) s1 (fun r s' =>
    leaves A (key_of b) (fun _ => Some (mkAbstract (A (key_of b)).(staged) (Some d))) r (mkBlobService s' e)).
Proof.
  intros HA Hall Hbl Hsn Hg Hd. destruct (all_same_content s s1 (key_of b) (ok_unique s (rep_ok _ _ HA)) Hall) as [_ Hu1].
  eapply outcome_weaken; [apply outcome_and, Hg; by apply createBlob_content|].
  cbn beta. intros r s' [Hr Hgood]. destruct r as [[]|x].
  - destruct Hr as (Ha&Hbl'&Hu&Hc1&Hc2). eexists. split; [done|].
    eapply represents_write; [exact HA|done|apply grows_refl|congruence|exact Hc1| |exact Hd].
    intros k' Hk'. rewrite Hc2 by done. by destruct (all_same_content s s1 k' (ok_unique s (rep_ok _ _ HA)) Hall).
  - destruct Hr as (Hr1&_&Hr2). eapply represents_untouched; [exact HA|done| |apply grows_refl].
    split; [by eapply all_same_trans|congruence].
Qed.

Lemma new_blob_base env t n seq sealed options md tags ctx : new_base (new_blob env t n seq sealed options md tags None None ctx).
Proof. split; [done|apply unleased_new]. Qed.

(** The new blobs the store may be asked for. *)
Lemma new_blob_ok env t n seq sealed options md tags ctx bl rg acc mac :
  wf (default [] rg) -> (t = PageBlob -> is_Some rg) ->
  request_ok (P := P) (RCreateBlob (new_blob env t n seq sealed options md tags None None ctx) bl rg acc mac).
Proof. intros Hw Ht. split; [apply new_blob_base|]. split; [done|]. cbn. intros [= ->]. by apply Ht. Qed.

Lemma createAppendBlob_leaves loose env n options ctx A w :
  let k := ctx_key ctx in
  represents A w -> env_ok env ->
  outcome (createAppendBlob loose env n options ctx) w
    (leaves A k (fun _ => Some (mkAbstract (A k).(staged) (Some (BlockList AppendBlob []))))).
Proof.
  intros k HA He. destruct w as [s e]. unfold createAppendBlob.
  apply outcome_bind, outcome_check; [intros _|exact HA].
  apply outcome_bind, outcome_lift; [intros md _|intros; exact HA].
  apply outcome_bind, outcome_lift; [intros tags _|intros; exact HA].
  apply outcome_bind, outcome_on_db. unfold outcome at 1. cbn [new_blocks fst snd metadataStore extentStore].
  apply outcome_bind, outcome_on_db. cbn [metadataStore extentStore].
  set (r := base.fresh _). set (s1 := set_block_arrays _ s). set (b := new_blob _ _ _ _ _ _ _ _ _ _ _).
  eapply outcome_weaken.
  { apply (create_leaves A s e s1 (store_ctx ctx) b options.(wo_leaseId) options.(wo_mac) (BlockList AppendBlob []));
      [done|exact (new_blocks_same s [] (rep_ok _ _ HA))|done|done| |].
    - exact (request_good env (store_ctx ctx) (RCreateBlob (new_blob env AppendBlob 0 None (Some false) options md tags None None ctx)
        (Some []) None options.(wo_leaseId) options.(wo_mac)) _ s eq_refl (new_blob_ok env AppendBlob 0 None (Some false) options md tags ctx _ None _ _ I (fun Ht => match Ht with end)) eq_refl
        (conj (rep_ok _ _ HA) (rep_own _ _ HA))).
    - split_and!; [done|exact He|done|done|done| |by intros ?].
      unfold blocks_of, s1, b. cbn. rewrite lookup_insert_eq. constructor. }
  cbn beta. intros [[]|x] s' Hr; exact Hr.
Qed.

(** A change of the document in its place. *)
Lemma represents_updated A s e s' e' k b bl rg d :
  represents A (mkBlobService s e) -> good s' -> grows e e' -> updated k s b bl rg s' ->
  data_holds e' b bl rg d ->
  represents (put k (mkAbstract (A k).(staged) (Some d)) A) (mkBlobService s' e').
Proof.
  intros HA Hg He (_&Hc&Hne&Hbl) Hd. eapply represents_write; [exact HA|done|done|done|exact Hc|exact Hne|exact Hd].
Qed.

Lemma key_at_of k s i b : key_at k s i b -> key_of b = k.
Proof. intros [_ (E1&E2&E3&_)]. destruct k as [[? ?] ?]. unfold key_of. cbn in *. congruence. Qed.

(** The document of a committed name holds its data. *)
Lemma key_holds e s k i b d :
  store_ok s -> content_holds e (base_content k s) d -> key_at k s i b -> b.(b_isCommitted) = true ->
  exists d', d = Some d' /\ data_holds e b (blocks_of b s) (ranges_of b s) d'.
Proof.
  intros Hs Hd Hb Hc. unfold base_content in Hd. rewrite (base_doc_at k s i b (ok_unique s Hs) Hb) in Hd.
  destruct d as [d|]; [by exists d|]. destruct Hd as [Hd _]. cbn in Hd. congruence.
Qed.

Definition appended (body : bytes) (B : Blob) : option Blob :=
  match B.(data) with
  | Some (BlockList AppendBlob l) => Some (mkAbstract B.(staged) (Some (BlockList AppendBlob (l ++ [(EmptyString, body)]))))
  | _ => None
  end.

(** A download of the document for a write: the content is as it was. *)
Lemma outcome_download ctx snapshot leaseId mac A s e (Q : result exn BlobModel -> world -> Prop) :
  represents A (mkBlobService s e) -> default EmptyString snapshot = EmptyString ->
  (forall x s', represents A (mkBlobService s' e) -> Q (Throw x) (mkBlobService s' e)) ->
  (forall i b s' d, represents A (mkBlobService s' e) -> key_at (ctx_key ctx) s' i b ->
     (A (ctx_key ctx)).(data) = Some d -> data_holds e b (blocks_of b s') (ranges_of b s') d ->
     Q (Ok b) (mkBlobService s' e)) ->
  outcome (on_db (downloadBlob (store_ctx ctx) ctx.(ctx_account) ctx.(ctx_container) ctx.(ctx_blob) snapshot leaseId mac))
    (mkBlobService s e) Q.
Proof.
  intros HA Hsn HT HQ. apply outcome_on_db. cbn [metadataStore extentStore]. eapply outcome_weaken.
  { eapply (outcome_request (mkEnv EmptyString EmptyString) (store_ctx ctx)
      (RDownload ctx.(ctx_account) ctx.(ctx_container) ctx.(ctx_blob) snapshot leaseId mac)); [done|done|done|split; apply HA|].
    apply (downloadBlob_content (store_ctx ctx) (ctx_key ctx)); [apply HA|done]. }
  cbn beta. intros r s' [[Hr Hb] Hg].
  assert (HA' : represents A (mkBlobService s' e))
    by (eapply represents_untouched; [exact HA|done|by apply refused_untouched|apply grows_refl]).
  destruct r as [b|x]; [|by apply HT]. destruct (Hb b eq_refl) as (_&Hc&i&Hi).
  destruct (key_holds e s' (ctx_key ctx) i b _ (proj1 Hg) (rep_data _ _ HA' (ctx_key ctx)) Hi Hc) as (d&Hd&Hh).
  by apply (HQ i b s' d).
Qed.

Lemma appendBlock_leaves env body n leaseId mac apac clientId extentId ctx A w :
  let k := ctx_key ctx in
  represents A w -> env_ok env -> fresh w.(extentStore) extentId ->
  outcome (BlobHandlers.appendBlock md5 env body n leaseId mac apac clientId extentId ctx) w
    (leaves A k (fun _ => appended body (A k))).
Proof.
  intros k HA He Hf. destruct w as [s e]. unfold BlobHandlers.appendBlock.
  apply outcome_bind, outcome_check; [intros _|exact HA].
  apply outcome_bind, outcome_check; [intros _|exact HA].
  apply outcome_bind, (outcome_download _ _ _ _ A); [done|done|done|]. intros j b s1 d HA1 Hkey Hd Hh.
  apply outcome_bind, outcome_check; [intros _|exact HA1].
  apply outcome_bind, outcome_get. cbn [metadataStore extentStore].
  apply outcome_bind, outcome_check; [intros _|exact HA1].
  apply outcome_bind, outcome_persist; [done|intros x e' Hg; by eapply represents_grows|].
  intros c e' Hg Hc Hlen ->. cbn [metadataStore extentStore] in *.
  assert (HA' : represents A (mkBlobService s1 e')) by by eapply represents_grows.
  apply outcome_bind. eapply (outcome_weaken _ _ (fun r w' => w' = mkBlobService s1 e')).
  { destruct (getHeader _ _) as [given|]; [|done]. apply outcome_bind, (outcome_md5 c body); [done|].
    by apply outcome_check. }
  intros [[]|x] ? ->; [|exact HA'].
  apply outcome_bind, outcome_on_db. cbn [metadataStore extentStore]. set (block := mkBlockModel _ _ _ _ _).
  eapply outcome_weaken.
  { eapply (outcome_request env (store_ctx ctx) (RAppendBlock block leaseId mac apac)); [done|done|done|split; apply HA'|].
    apply appendBlock_content; apply HA'. }
  cbn beta. intros r s' [Hr Hgood]. destruct r as [p|x].
  - destruct Hr as (i&b0&b'&rg&Hb0&Hc0&Ht0&Hc'&Hp'&Hpr&Hup). apply outcome_ret.
    destruct (key_holds e' s1 (block_key block) i b0 _ (rep_ok _ _ HA') (rep_data _ _ HA' _) Hb0 Hc0) as (d'&Hd'&_&_&Hty&Hcl&Hdh).
    change (block_key block) with k in *. rewrite Ht0 in Hty. unfold appended. cbn [data] in *.
    rewrite Hd'. destruct d' as [x|t l|m f]; [done| |done]. cbn in Hty. injection Hty as <-.
    destruct Hdh as (_&Hl&Hch). eexists. split; [done|].
    eapply represents_updated; [exact HA'|done|apply grows_refl|exact Hup|].
    split_and!; [done|by rewrite Hpr|by rewrite Hpr| |done| |by rewrite Hp'].
    + rewrite Hpr. cbn. rewrite Hcl. unfold size_of. cbn. rewrite fmap_app, concat_app, length_app. cbn.
      rewrite app_nil_r, Nat2Z.inj_add. f_equal. by rewrite Hlen.
    + apply Forall2_app; [done|]. constructor; [by split_and!|constructor].
  - eapply represents_untouched; [exact HA'|done|done|apply grows_refl].
Qed.

(** The properties change, and the content does not. *)
Lemma represents_properties A s e s' k i b f p :
  represents A (mkBlobService s e) -> good s' -> key_at k s i b -> b.(b_isCommitted) = true ->
  p.(bp_blobType) = b.(b_properties).(bp_blobType) -> p.(bp_contentLength) = b.(b_properties).(bp_contentLength) ->
  ((3 <= String.length b.(b_properties).(bp_etag))%nat -> (3 <= String.length p.(bp_etag))%nat) ->
  updated k s (with_properties p (with_lease f b)) (blocks_of b s) (ranges_of b s) s' ->
  represents A (mkBlobService s' e).
Proof.
  intros HA Hg Hb Hcm Ht Hl He Hup. pose proof (rep_data _ _ HA k) as Hd. cbn [metadataStore extentStore] in Hd.
  destruct (key_holds e s k i b _ (rep_ok _ _ HA) Hd Hb Hcm) as (d&Hd'&_&E2&E3&E4&E5).
  apply (put_same A k). replace (A k) with (mkAbstract (A k).(staged) (Some d)) by (rewrite <- Hd'; by destruct (A k)).
  eapply represents_updated; [exact HA|done|apply grows_refl|exact Hup|].
  split_and!; [exact Hcm|by apply He|cbn; by rewrite Ht|cbn; by rewrite Hl|]. by destruct d.
Qed.

Lemma seal_leaves env leaseId mac clientId ctx A w :
  let k := ctx_key ctx in
  represents A w -> env_ok env ->
  outcome (seal env leaseId mac clientId ctx) w (leaves A k (fun _ => Some (A k))).
Proof.
  intros k HA He. destruct w as [s e]. unfold seal. apply outcome_bind, outcome_on_db. cbn [metadataStore extentStore].
  eapply outcome_weaken.
  { eapply (outcome_request env (store_ctx ctx) (RSeal ctx.(ctx_account) ctx.(ctx_container) ctx.(ctx_blob) leaseId mac));
      [done|done|done|split; apply HA|].
    apply (sealBlob_content env (store_ctx ctx) k). apply HA. }
  cbn beta. intros r s' [Hr Hg]. destruct r as [p|x].
  - destruct Hr as (i&b&f&Hb&Ht&->&Hup). apply outcome_ret. eexists. split; [done|]. apply put_same.
    assert (Hcm : b.(b_isCommitted) = true).
    { pose proof (rep_data _ _ HA k) as Hd. cbn [metadataStore extentStore] in Hd. unfold base_content in Hd.
      rewrite (base_doc_at k s i b (ok_unique s (rep_ok _ _ HA)) Hb) in Hd. destruct (A k).(data) as [d|]; cbn in Hd.
      - by destruct Hd as [Hd _].
      - destruct Hd as (_&_&_&Hd). congruence. }
    eapply represents_properties; [exact HA|done|exact Hb|done|..|exact Hup]; [done..|].
    intros _. exact He.
  - eapply represents_untouched; [exact HA|done|by apply refused_untouched|apply grows_refl].
Qed.

(** ** Page blobs *)

Lemma createPageBlob_leaves env n len seq options ctx A w :
  let k := ctx_key ctx in
  represents A w -> env_ok env -> 0 <= len ->
  outcome (createPageBlob env n len seq options ctx) w
    (leaves A k (fun _ => Some (mkAbstract (A k).(staged) (Some (PageMap len (fun _ => 0)))))).
Proof.
  intros k HA He Hlen. destruct w as [s e]. unfold createPageBlob.
  apply outcome_bind, outcome_check; [intros _|exact HA].
  apply outcome_bind, outcome_check; [intros _|exact HA].
  apply outcome_bind, outcome_check; [intros _|exact HA].
  apply outcome_bind, outcome_lift; [intros md _|intros; exact HA].
  apply outcome_bind, outcome_lift; [intros tags _|intros; exact HA].
  apply outcome_bind, outcome_on_db. unfold outcome at 1. cbn [new_ranges fst snd metadataStore extentStore].
  apply outcome_bind, outcome_on_db. cbn [metadataStore extentStore].
  set (r := base.fresh _). set (s1 := set_range_arrays _ s). set (b := new_blob _ _ _ _ _ _ _ _ _ _ _).
  eapply outcome_weaken.
  { apply (create_leaves A s e s1 (store_ctx ctx) b options.(wo_leaseId) options.(wo_mac) (PageMap len (fun _ => 0)));
      [done|exact (new_ranges_same s [] (rep_ok _ _ HA))|done|done| |].
    - exact (request_good env (store_ctx ctx) (RCreateBlob (new_blob env PageBlob len (Some (default 0 seq)) None options md tags None None ctx)
        None (Some []) options.(wo_leaseId) options.(wo_mac)) _ s eq_refl (new_blob_ok env PageBlob len (Some (default 0 seq)) None options md tags ctx None (Some []) _ _ I (fun _ => mk_is_Some _ [] eq_refl)) eq_refl
        (conj (rep_ok _ _ HA) (rep_own _ _ HA))).
    - assert (ranges_of b s1 = []) as -> by (unfold ranges_of, s1, b; cbn; by rewrite lookup_insert_eq).
      split_and!; [done|exact He|done|by rewrite size_pages|done|by eexists|done|constructor|done]. }
  cbn beta. intros [[]|x] s' Hr; exact Hr.
Qed.

(** A piece of a range holds the part of its data. *)
Lemma piece_holds e m r x : range_ok r -> range_holds e m r -> piece_of r x -> range_holds e m x.
Proof.
  intros [Hr Hc] Hh (P1&P2&P3&Hp). unfold range_holds in *. rewrite Hp.
  rewrite <- (part_span m r.(start) r.(end_)) by lia. apply stored_part; [done|lia..].
Qed.

Lemma range_holds_ext e m m' x : (forall p, inside x p -> m p = m' p) -> range_holds e m x -> range_holds e m' x.
Proof. unfold range_holds. intros Hm. by rewrite (span_ext m m'). Qed.

Lemma pieces_hold e m l x :
  wf l -> Forall (range_holds e m) l -> (exists y, y ∈ l /\ piece_of y x) -> range_holds e m x.
Proof.
  intros Hw Hl (y&Hy&Hp). rewrite Forall_forall in Hl. eapply piece_holds; [|by apply Hl|exact Hp].
  by destruct (wf_elem _ _ _ Hw Hy) as (_&?&_).
Qed.

(** The pages after a write. *)
Lemma merge_holds e m l (s : Z) c body l' :
  wf l -> Forall (range_holds e m) l -> (forall p, byte_at l p = None -> m p = 0) ->
  0 <= s -> body <> [] -> stored e c body ->
  mergeRange l (mkRange s (s + Z.of_nat (length body) - 1) c) = Ok l' ->
  wf l' /\ Forall (range_holds e (overlay m s body)) l' /\ forall p, byte_at l' p = None -> overlay m s body p = 0.
Proof.
  intros Hw Hl Hz Hs Hb Hc Hm. set (r := mkRange _ _ c) in *.
  assert (Hlen : 0 < Z.of_nat (length body)) by (destruct body; [done|cbn; lia]).
  assert (Hr : range_ok r). { split; cbn; [lia|]. rewrite (stored_length _ _ _ Hc). lia. }
  destruct (merge_pieces l r Hw Hr) as (l1&Hm'&Hw'&Hba&Hp). assert (l1 = l') as -> by congruence.
  split_and!; [done| |].
  - apply Forall_forall. intros x Hx. destruct (Hp x Hx) as [->|[Hpi Hdis]].
    + change (stored e c (span (overlay m s body) s (s + Z.of_nat (length body) - 1))). by rewrite span_overlay.
    + eapply (range_holds_ext _ m); [|exact (pieces_hold e m l x Hw Hl Hpi)]. intros p Hxp. specialize (Hdis p Hxp).
      unfold inside in Hdis. cbn in Hdis. unfold overlay.
      by destruct (Z.leb_spec s p), (Z.ltb_spec p (s + Z.of_nat (length body))); try lia.
  - intros p Hpn. rewrite Hba in Hpn. unfold byte_of, r in Hpn. cbn in Hpn. unfold overlay.
    destruct (Z.leb_spec s p), (Z.ltb_spec p (s + Z.of_nat (length body))), (Z.leb_spec p (s + Z.of_nat (length body) - 1)); cbn in *; try lia; try done; auto.
Qed.

(** The pages after [s, e] are cleared. *)
Lemma clear_holds e m l (s t : Z) l' (m' : Z -> Z) :
  wf l -> Forall (range_holds e m) l -> (forall p, byte_at l p = None -> m p = 0) ->
  0 <= s <= t -> PageRanges.clearRange l (mkPageRange s t) = Ok l' ->
  (forall p, s <= p <= t -> m' p = 0) -> (forall p, ~ s <= p <= t -> m' p = m p) ->
  wf l' /\ Forall (range_holds e m') l' /\ forall p, byte_at l' p = None -> m' p = 0.
Proof.
  intros Hw Hl Hz Hst Hc H1' H2'. destruct (clear_pieces l s t Hw Hst) as (l1&Hc'&Hw'&Hba&Hp&Hdis).
  assert (l1 = l') as -> by congruence. split_and!; [done| |].
  - apply Forall_forall. intros x Hx. eapply (range_holds_ext _ m); [|eapply pieces_hold; [exact Hw|exact Hl|by apply Hp]].
    intros p Hxp. symmetry. apply H2'. by apply (Hdis x).
  - intros p Hpn. rewrite Hba in Hpn. destruct (Z.leb_spec s p), (Z.leb_spec p t); cbn in Hpn; try (rewrite H2' by lia; by apply Hz).
    apply H1'. lia.
Qed.

Definition pages_map (B : Blob) (f : Z -> (Z -> Z) -> Z * (Z -> Z)) : option Blob :=
  match B.(data) with
  | Some (PageMap n m) => let (n, m) := f n m in Some (mkAbstract B.(staged) (Some (PageMap n m)))
  | _ => None
  end.

(** The range of a write, once its header is accepted. *)
Definition written_range (ctx : BlobStorageContext) : Z * Quantity :=
  match write_range ctx with Ok (Some s, e) => (s, e) | _ => (0, NotANumber) end.

Definition pages_uploaded (ctx : BlobStorageContext) (body : bytes) (B : Blob) : option Blob :=
  pages_map B (fun n m => (n, overlay m (written_range ctx).1 body)).
Definition pages_cleared (ctx : BlobStorageContext) (B : Blob) : option Blob :=
  pages_map B (fun n m => (n, erase m (written_range ctx).1 (written_range ctx).2)).
Definition pages_resized (len : Z) (B : Blob) : option Blob :=
  pages_map B (fun n m => (len, erase m len (Exact (n - 1)))).

Lemma write_range_ok ctx r :
  write_range ctx = Ok r ->
  exists s : Z, r.1 = Some s /\ 0 <= s /\ ends_after s r.2 /\ r.2 <> NotANumber /\ written_range ctx = (s, r.2).
Proof.
  unfold written_range. intros Hr. rewrite Hr. unfold write_range in Hr.
  destruct (deserializePageBlobRangeHeader _ _ true) as [[o e]|] eqn:Hd; [|done]. injection Hr as <-. cbn.
  destruct (deserializePageBlobRangeHeader_ok _ _ _ _ _ Hd) as [H1' H2']. destruct (H2' eq_refl) as [[s ->] Hn].
  exists s. by destruct (H1' s eq_refl).
Qed.

(** The document of an open page blob. *)
Lemma outcome_page_blob leaseId ctx A s e (Q : result exn BlobModel -> world -> Prop) :
  represents A (mkBlobService s e) ->
  (forall x s', represents A (mkBlobService s' e) -> Q (Throw x) (mkBlobService s' e)) ->
  (forall i b s' n m, represents A (mkBlobService s' e) -> key_at (ctx_key ctx) s' i b ->
     (A (ctx_key ctx)).(data) = Some (PageMap n m) -> data_holds e b (blocks_of b s') (ranges_of b s') (PageMap n m) ->
     Q (Ok b) (mkBlobService s' e)) ->
  outcome (page_blob leaseId ctx) (mkBlobService s e) Q.
Proof.
  intros HA HT HQ. unfold page_blob. apply outcome_bind, (outcome_download _ _ _ _ A); [done|done|done|].
  intros i b s' d HA' Hk Hd Hh. apply outcome_bind, outcome_check; [intros Ht|by apply HT].
  apply outcome_ret. apply bool_decide_eq_true in Ht. destruct d as [x|t l|n m].
  - destruct Hh as (_&_&Hty&_). rewrite Ht in Hty. discriminate Hty.
  - destruct Hh as (_&_&Hty&_&Hpb&_). rewrite Ht in Hty. cbn in Hty. by injection Hty as <-.
  - by apply (HQ i b s' n m).
Qed.

(** The pages of the document are written, and its data is what the array then holds. *)
Lemma paged_leaves env A s e s' k j b0 (now : Z) page_only f r (g : Z -> (Z -> Z) -> Z -> Z) n m :
  represents A (mkBlobService s e) -> good s' -> env_ok env -> (A k).(data) = Some (PageMap n m) ->
  pages_changed_to env k now page_only f s r s' -> key_at k s j b0 ->
  (forall l l', l = ranges_of b0 s -> wf l -> Forall (range_holds e m) l ->
     (forall p, byte_at l p = None -> m p = 0) -> f l = Ok l' ->
     wf l' /\ Forall (range_holds e (g n m)) l' /\ forall p, byte_at l' p = None -> g n m p = 0) ->
  leaves A k (fun _ => pages_map (A k) (fun n m => (n, g n m))) r (mkBlobService s' e).
Proof.
  intros HA Hg He HAk Hr Hb0 Hf. destruct r as [p|x].
  - destruct Hr as (i&b&l&Hb&Hc&_&Hl&Hup). destruct (ok_unique s (rep_ok _ _ HA) k _ _ _ _ Hb0 Hb) as [-> ->].
    destruct (key_holds e s k i b _ (rep_ok _ _ HA) (rep_data _ _ HA k) Hb Hc) as (d&Hd&_&_&Hty&Hcl&Hh).
    rewrite HAk in Hd. injection Hd as <-. destruct Hh as (Hn&Hr&Hw&Hrh&Hz).
    destruct (Hf _ _ eq_refl Hw Hrh Hz Hl) as (Hw'&Hrh'&Hz'). unfold leaves, pages_map. rewrite HAk.
    eexists. split; [done|]. eapply represents_updated; [exact HA|done|apply grows_refl|by apply Hup|].
    split_and!; [exact Hc|exact He|exact Hty| |done|exact Hr|done|done|done].
    cbn. rewrite Hcl. by rewrite !size_pages.
  - eapply represents_untouched; [exact HA|done|by apply refused_untouched|apply grows_refl].
Qed.

Lemma uploadPages_leaves env body n leaseId mac snac clientId extentId ctx A w :
  let k := ctx_key ctx in
  represents A w -> env_ok env -> fresh w.(extentStore) extentId ->
  outcome (BlobHandlers.uploadPages env body n leaseId mac snac clientId extentId ctx) w
    (leaves A k (fun _ => pages_uploaded ctx body (A k))).
Proof.
  intros k HA He Hf. destruct w as [s0 e]. unfold BlobHandlers.uploadPages.
  apply outcome_bind, outcome_check; [intros _|exact HA].
  apply outcome_bind, (outcome_page_blob _ _ A); [done|done|]. intros j b s sz m HA1 Hk Hd Hh.
  apply outcome_bind, outcome_lift; [intros _ _|intros; exact HA1].
  apply outcome_bind, outcome_lift; [intros r Hr|intros; exact HA1].
  destruct (write_range_ok ctx r Hr) as (x&Hx&Hx0&Hends&Hnan&Hwr). destruct r as [o q]. cbn [fst snd] in *. subst o.
  apply outcome_bind, outcome_check; [intros Hsame|exact HA1].
  apply outcome_bind, outcome_check; [intros _|exact HA1].
  apply outcome_bind, outcome_persist; [done|intros y e' Hg; by eapply represents_grows|].
  intros c e' Hg Hc Hlen ->. cbn [metadataStore extentStore] in *.
  assert (HA' : represents A (mkBlobService s e')) by by eapply represents_grows.
  apply outcome_bind, outcome_get. cbn [metadataStore extentStore default].
  destruct q as [y| |]; cbn in Hsame; [|done|done]. apply Z.eqb_eq in Hsame. cbn in Hends. cbn [last_position].
  assert (y = x + Z.of_nat (length body) - 1) as -> by lia. clear Hsame.
  assert (Hbody : body <> []) by (intros ->; cbn in *; lia).
  apply outcome_bind, outcome_on_db. cbn [metadataStore extentStore default].
  eapply outcome_weaken.
  { eapply (outcome_request env (store_ctx ctx) (RUploadPages b x (x + Z.of_nat (length body) - 1) c leaseId mac snac));
      [done|split; [apply Hk|split; cbn; lia]|done|split; apply HA'|].
    apply uploadPages_content; [apply HA'|apply HA'|apply Hk]. }
  cbn beta. intros r s' [Hpc Hgood]. rewrite (key_at_of _ _ _ _ Hk) in Hpc. change (ctx_key ctx) with k in Hpc.
  assert (HL : leaves A k (fun _ : BlobProperties => pages_map (A k) (fun n m => (n, overlay m x body))) r (mkBlobService s' e')).
  { eapply (paged_leaves env A s e' s' k j b _ _ _ r (fun n m => overlay m x body)); [done|done|done|exact Hd|exact Hpc|exact Hk|].
    intros l l' _ Hw Hrh Hz. by apply merge_holds. }
  unfold pages_uploaded. rewrite Hwr. by destruct r.
Qed.

Lemma erase_holds e m l (s : Z) q l' :
  wf l -> Forall (range_holds e m) l -> (forall p, byte_at l p = None -> m p = 0) ->
  0 <= s -> ends_after s q -> q <> NotANumber ->
  PageRanges.clearRange l (mkPageRange s (last_position s q l)) = Ok l' ->
  wf l' /\ Forall (range_holds e (erase m s q)) l' /\ forall p, byte_at l' p = None -> erase m s q p = 0.
Proof.
  intros Hw Hrh Hz Hs Hends Hq Hl. pose proof (last_position_ge s q l Hends) as Hge.
  eapply (clear_holds e m l); [done|done|done| |exact Hl|..]; [lia|..]; intros p Hp; unfold erase.
  - destruct (Z.leb_spec s p); [|lia]. cbn. destruct q as [y| |]; [|done..]. cbn in Hp. by destruct (Z.leb_spec p y); [|lia].
  - destruct (Z.leb_spec s p); [|done]. cbn. destruct q as [y| |]; [..|done].
    + cbn in Hp. by destruct (Z.leb_spec p y); [lia|].
    + symmetry. apply Hz. apply (last_position_last s Infinite); [done|done|lia].
Qed.

Lemma clearPages_leaves env n leaseId mac snac clientId ctx A w :
  let k := ctx_key ctx in
  represents A w -> env_ok env ->
  outcome (BlobHandlers.clearPages env n leaseId mac snac clientId ctx) w
    (leaves A k (fun _ => pages_cleared ctx (A k))).
Proof.
  intros k HA He. destruct w as [s0 e]. unfold BlobHandlers.clearPages.
  apply outcome_bind, outcome_check; [intros _|exact HA].
  apply outcome_bind, (outcome_page_blob _ _ A); [done|done|]. intros j b s sz m HA1 Hk Hd Hh.
  apply outcome_bind, outcome_lift; [intros r Hr|intros; exact HA1].
  destruct (write_range_ok ctx r Hr) as (x&Hx&Hx0&Hends&Hnan&Hwr). destruct r as [o q]. cbn [fst snd] in *. subst o.
  apply outcome_bind, outcome_check; [intros _|exact HA1].
  apply outcome_bind, outcome_get. cbn [metadataStore extentStore default].
  apply outcome_bind, outcome_on_db. cbn [metadataStore extentStore].
  eapply outcome_weaken.
  { eapply (outcome_request env (store_ctx ctx) (RClearRange b x (last_position x q (ranges_of b s)) leaseId mac snac));
      [done|split; [apply Hk|split; [done|by apply last_position_ge]]|done|split; apply HA1|].
    apply clearRange_content; [apply HA1|apply HA1|apply Hk]. }
  cbn beta. intros r s' [Hpc Hgood]. rewrite (key_at_of _ _ _ _ Hk) in Hpc. change (ctx_key ctx) with k in Hpc.
  assert (HL : leaves A k (fun _ : BlobProperties => pages_map (A k) (fun n m => (n, erase m x q))) r (mkBlobService s' e)).
  { eapply (paged_leaves env A s e s' k j b _ _ _ r (fun n m => erase m x q)); [done|done|done|exact Hd|exact Hpc|exact Hk|].
    intros l l' -> Hw Hrh Hz. by apply erase_holds. }
  unfold pages_cleared. rewrite Hwr. by destruct r.
Qed.

Lemma resize_holds e m l n len b l' :
  b.(b_properties).(bp_contentLength) = Some n ->
  wf l -> Forall (range_holds e m) l -> (forall p, byte_at l p = None -> m p = 0) -> 0 <= len ->
  shrunk len b l l' ->
  let m' := erase m len (Exact (n - 1)) in
  wf l' /\ Forall (range_holds e m') l' /\ forall p, byte_at l' p = None -> m' p = 0.
Proof.
  intros Hn Hw Hrh Hz Hlen Hsh m'. unfold shrunk in Hsh. rewrite Hn in Hsh.
  assert (Hm' : forall p, ~ len <= p <= n - 1 -> m' p = m p).
  { intros p Hp. unfold m', erase. by destruct (Z.leb_spec len p), (Z.leb_spec p (n - 1)); try lia. }
  destruct (Z.ltb_spec len n).
  - eapply (clear_holds e m l); [done|done|done| |exact Hsh| |done]; [lia|]. intros p Hp. unfold m', erase.
    by destruct (Z.leb_spec len p), (Z.leb_spec p (n - 1)); try lia.
  - subst l'. split_and!; [done| |].
    + eapply Forall_impl; [exact Hrh|]. intros x. apply range_holds_ext. intros p _. symmetry. apply Hm'. lia.
    + intros p Hp. rewrite Hm' by lia. by apply Hz.
Qed.

Lemma resize_leaves env len leaseId mac clientId ctx A w :
  let k := ctx_key ctx in
  represents A w -> env_ok env -> 0 <= len ->
  outcome (resize env len leaseId mac clientId ctx) w (leaves A k (fun _ => pages_resized len (A k))).
Proof.
  intros k HA He Hlen. destruct w as [s e]. unfold resize.
  apply outcome_bind, outcome_check; [intros _|exact HA].
  apply outcome_bind, outcome_on_db. cbn [metadataStore extentStore].
  eapply outcome_weaken.
  { eapply (outcome_request env (store_ctx ctx) (RResize ctx.(ctx_account) ctx.(ctx_container) ctx.(ctx_blob) len leaseId mac));
      [done|done|done|split; apply HA|].
    apply (resizePageBlob_content env (store_ctx ctx) k); [apply HA|apply HA|done]. }
  cbn beta. intros r s' [Hr Hg]. destruct r as [p|x].
  - destruct Hr as (i&b&r&l&Hb&Hc&Ht&Hsh&Hup). apply outcome_ret.
    destruct (key_holds e s k i b _ (rep_ok _ _ HA) (rep_data _ _ HA k) Hb Hc) as (d&Hd&_&_&Hty&Hcl&Hh).
    assert (exists n m, d = PageMap n m) as (n&m&->).
    { destruct d as [y|t y|n m]; cbn in Hty; [congruence| |by eauto]. destruct Hh as [Hpb _]. congruence. }
    destruct Hh as (Hn&Hr&Hw&Hrh&Hz). rewrite size_pages in Hcl by done.
    destruct (resize_holds e m _ n len b l Hcl Hw Hrh Hz Hlen Hsh) as (Hw'&Hrh'&Hz').
    unfold pages_resized, pages_map, leaves. rewrite Hd. eexists. split; [done|].
    eapply represents_updated; [exact HA|done|apply grows_refl|by apply Hup|].
    split_and!; [exact Hc|exact He|exact Hty| |done|by eexists|done|done|done].
    cbn. by rewrite size_pages.
  - eapply represents_untouched; [exact HA|done|by apply refused_untouched|apply grows_refl].
Qed.

Lemma updateSequenceNumber_leaves env act num leaseId mac clientId ctx A w :
  let k := ctx_key ctx in
  represents A w -> env_ok env ->
  outcome (BlobHandlers.updateSequenceNumber env act num leaseId mac clientId ctx) w (leaves A k (fun _ => Some (A k))).
Proof.
  intros k HA He. destruct w as [s e]. unfold BlobHandlers.updateSequenceNumber.
  apply outcome_bind, outcome_on_db. cbn [metadataStore extentStore].
  eapply outcome_weaken.
  { eapply (outcome_request env (store_ctx ctx) (RSequenceNumber ctx.(ctx_account) ctx.(ctx_container) ctx.(ctx_blob) act num leaseId mac));
      [done|done|done|split; apply HA|].
    apply (updateSequenceNumber_content env (store_ctx ctx) k). apply HA. }
  cbn beta. intros r s' [Hr Hg].
  assert (HA' : represents A (mkBlobService s' e)).
  { destruct Hr as [Hr|(i&b&f&m&p&Hb&Hc&Hp&Hup)].
    - eapply represents_untouched; [exact HA|done|by apply refused_untouched|apply grows_refl].
    - eapply represents_properties; [exact HA|done|exact Hb|done|..|exact Hup]; by destruct Hp as [->| ->]. }
  destruct r as [p|x]; [|exact HA']. apply outcome_ret. eexists. split; [done|]. by apply put_same.
Qed.

End Writes.
