(* ===== verification/BlobHandlersSpec.v ===== *)
(** * BlobHandlersSpec: what a client puts is what it gets

    Over any extent store with the promised behaviour, the blob service is a map
    from names to data: bytes in one piece, a list of blocks, or pages. The
    requests on content change it as the service's interface says, and a download
    returns the part of the bytes the client asks for. *)

From Stdlib Require Import Ascii.
From S2P Require Import Prelude ExtentMetadata MemoryExtentStore MemoryExtentStoreSpec.
From S2P Require Import Errors Extents Loki Utf8 Texts TagQuery Conditions Lease LeaseSpec PageRanges PageRangesSpec PagePieces.
From S2P Require Import BlobModels BlobContainers BlobStore BlobChanges BlobRefine BlobRequests BlobStoreSpec.
From S2P Require Import BlobHttp BlobHandlers BlobContentSpec BlobData BlobWrites.
Open Scope Z_scope.
Open Scope azurite_scope.

Section Reads.
Context {coll : Type -> Type} `{LokiLaws coll} {P E : Type} `{IExtentReaderLaws E}.
Context (md5 : bytes -> string) (parseXML : text -> res (option (list (option string * option string)))).
Abbreviation db := (BlobDb coll P).
Abbreviation world := (BlobService coll P E).
Implicit Types (s : db) (w : world) (k : Key) (A : State) (e : E).

(** ** Downloads *)

(** The range of a download: the whole blob, unless a header that can be read says
    otherwise. *)
Definition asked (d : Data) (ctx : BlobStorageContext) : option Z * Quantity :=
  let range := ctx.(BlobHttp.request).(getHeader) "range"%string in
  let xMsRange := ctx.(BlobHttp.request).(getHeader) "x-ms-range"%string in
  match d with
  | PageMap _ _ =>
      match deserializePageBlobRangeHeader range xMsRange false with Ok r => r | Throw _ => (None, NotANumber) end
  | _ => match deserializeRangeHeader range xMsRange with Ok (Some r) => r | _ => (Some 0, Infinite) end
  end.

(** The first position after the range; it is that after the blob at most. *)
Definition stop (d : Data) (e : Quantity) : Z :=
  match e with Exact y => Z.min (y + 1) (size_of d) | _ => size_of d end.

(** The response to a download of a range of positions. *)
Definition answers (d : Data) (ctx : BlobStorageContext) (dl : Download) : Prop :=
  forall x, (asked d ctx).1 = Some x -> (asked d ctx).2 <> NotANumber ->
    let n := stop d (asked d ctx).2 - x in
    x <= size_of d /\ dl.(dl_body) = part x n (bytes_of d) /\ dl.(dl_contentLength) = Exact n.

Lemma size_nonneg d : 0 <= size_of d.
Proof. unfold size_of. lia. Qed.

Lemma normalize_end_ok cid d x q q' :
  normalize_end cid (Some (size_of d)) (Some x) q = Ok q' -> ends_after x q -> q <> NotANumber ->
  x <= stop d q <= size_of d /\ q' = Exact (stop d q - 1).
Proof.
  pose proof (size_nonneg d) as Hsz. unfold normalize_end. cbn [quantity q_gt].
  destruct (Z.ltb_spec (size_of d) x); [done|]. cbn [mbind result_bind].
  destruct q as [y| |]; cbn [q_add q_ge ends_after stop]; intros Hr He Hn; [|..|done].
  - destruct (Z.leb_spec (size_of d) (y + 1)).
    + destruct (_ && _ && _); [done|]. cbn [mbind result_bind] in Hr. injection Hr as <-. cbn. split; [lia|f_equal; lia].
    + injection Hr as <-. split; [lia|f_equal; lia].
  - destruct (_ && _ && _); [done|]. cbn [mbind result_bind] in Hr. injection Hr as <-. cbn. split; [lia|f_equal; lia].
Qed.

Lemma part_nothing i (b : bytes) : part i 0 b = [].
Proof. done. Qed.

Lemma read_chunk e c b x n :
  stored e c b -> 0 <= x -> 0 <= n -> x + n <= c.(count) ->
  readExtentAt c.(id) (Exact (c.(offset) + x)) (Exact n) e = Ok (part x n b).
Proof.
  intros Hc Hx Hn Hle. pose proof (stored_part e c b x n Hc Hx Hn Hle) as Hp.
  exact (eq_trans (read_at (mkChunk c.(id) (c.(offset) + x) n) e) (read_stored _ _ _ Hp)).
Qed.

Lemma read_blocks_holds e b s d x t :
  data_holds e b (blocks_of b s) (ranges_of b s) d -> type_of d <> PageBlob ->
  0 <= x -> x <= t <= size_of d ->
  read_blocks b (Some x) (Exact (t - 1)) (Exact (t - x)) (mkBlobService s e) = Ok (part x (t - x) (bytes_of d)).
Proof.
  intros (_&_&_&_&Hd) Hpb Hx Ht. unfold read_blocks. cbn [metadataStore extentStore].
  destruct d as [y|ty l|n m]; [| |done].
  - destruct Hd as (->&c&->&Hc). cbn [quantity fmap option_fmap option_map q_min]. rewrite Z.add_comm.
    pose proof (stored_length _ _ _ Hc) as Hl. unfold size_of in Ht. cbn in Ht.
    replace (Z.min c.(count) (t - x)) with (t - x) by lia. rewrite Z.add_comm. apply read_chunk; [done|lia..].
  - destruct Hd as (_&Hl&Hch). unfold size_of in Ht. cbn in Ht. cbn [bytes_of].
    destruct Hl as [|p z bl l Hp Hl].
    + cbn in *. assert (x = 0 /\ t = 0) as [-> ->] by lia. destruct (b_persistency b) as [c|] eqn:Hb; [|apply read_nothing].
      destruct (Hch c eq_refl) as [y Hc]. cbn [quantity fmap option_fmap option_map q_min].
      pose proof (stored_length _ _ _ Hc) as Hlen. replace (Z.min c.(count) (0 - 0)) with 0 by lia.
      rewrite (read_chunk e c y 0 0 Hc) by lia. done.
    + set (bs := z :: l) in *. cbn [quantity q_add q_sub]. replace (t - 1 + 1 - x) with (t - x) by lia.
      apply (read_readable e _ bs.*2); [|lia..].
      apply Forall2_fmap. apply (Forall2_impl (block_holds e)); [by constructor|]. intros q r (_&_&Hst). by left.
Qed.

(** Ranges one after the other hold the bytes from the first to the last. *)
Lemma tiles_concat m (x t : Z) l :
  tiles x l t -> concat ((fun r => span m r.(start) r.(end_)) <$> l) = span m x t.
Proof.
  revert x. induction l as [|r l IH]; intros x; cbn.
  - intros ->. unfold span. by replace (t - (t + 1) + 1) with 0 by lia.
  - intros (<-&[Hr _]&Ht). rewrite (IH _ Ht). pose proof (tiles_wf _ _ _ Ht) as [Hw Hu].
    pose proof (upper_ge _ _ Hw) as Hge. unfold span.
    replace (t - r.(start) + 1) with ((r.(end_) - r.(start) + 1) + (t - (r.(end_) + 1) + 1)) by lia.
    rewrite (seqZ_app r.(start) (r.(end_) - r.(start) + 1)), fmap_app by lia. by replace (r.(start) + (r.(end_) - r.(start) + 1)) with (r.(end_) + 1) by lia.
Qed.

Lemma read_pages_holds e b s n m x t :
  data_holds e b (blocks_of b s) (ranges_of b s) (PageMap n m) -> 0 <= x -> x <= t <= n ->
  read_pages (ranges_of b s) (Some x) (Exact (t - 1)) (Exact (t - x)) e = Ok (part x (t - x) (bytes_of (PageMap n m))).
Proof.
  intros (_&_&_&_&Hn&_&Hw&Hl&Hz) Hx Ht. unfold read_pages. cbn [q_ge].
  destruct (Z.leb_spec (t - x) 0).
  - replace (t - x) with 0 by lia. cbn [mbind result_bind]. rewrite part_nothing.
    exact (read_readable e [] [] 0 0 (List.Forall2_nil _) ltac:(lia) ltac:(lia) ltac:(cbn; lia)).
  - destruct (fill_pieces (ranges_of b s) x (t - 1) Hw) as (out&->&T&Hp); [lia|]. cbn [mbind result_bind].
    assert (Hread : Forall2 (readable e) (PageRanges.persistency <$> out) ((fun r => span m r.(start) r.(end_)) <$> out)).
    { apply Forall2_fmap. apply Forall_Forall2_diag, Forall_forall. intros r Hr.
      destruct (Hp r Hr) as [Hpi|(Hzr&Hse&Hnone)]; [left; by apply (pieces_hold e m (ranges_of b s))|right].
      rewrite Hzr. cbn. split_and!; [done|done|lia|].
      apply list_eq_same_length with (n := Z.to_nat (r.(end_) - r.(start) + 1));
        [by rewrite length_replicate|by rewrite length_span|]. intros i y z Hi. rewrite lookup_span by lia.
      rewrite lookup_replicate. intros [= <-] [-> _]. apply Hz, Hnone. unfold inside. lia. }
    pose proof (tiles_concat m _ _ _ T) as Hcat.
    rewrite (read_readable e _ _ 0 (t - x) Hread) by (rewrite ?Hcat, ?length_span; lia). f_equal. rewrite Hcat.
    transitivity (span m x (t - 1)).
    + pose proof (part_span m x (t - 1) x (t - 1)) as Hps. replace (x - x) with 0 in Hps by lia.
      replace (t - 1 - x + 1) with (t - x) in Hps by lia. apply Hps; lia.
    + pose proof (part_span m 0 (n - 1) x (t - 1)) as Hps. replace (x - 0) with x in Hps by lia.
      replace (t - 1 - x + 1) with (t - x) in Hps by lia. symmetry. apply Hps; lia.
Qed.

Lemma asked_start d ctx x : (asked d ctx).1 = Some x -> 0 <= x /\ ends_after x (asked d ctx).2.
Proof.
  unfold asked. destruct d as [y|t l|n m].
  1, 2: destruct (deserializeRangeHeader _ _) as [[[o q]|]|] eqn:Hr; cbn;
    [intros ->; by eapply deserializeRangeHeader_ok|intros [= <-]; split; [lia|done]|intros [= <-]; split; [lia|done]].
  destruct (deserializePageBlobRangeHeader _ _ _) as [[o q]|] eqn:Hr; cbn; [|done]. intros ->.
  by apply (deserializePageBlobRangeHeader_ok _ _ _ _ _ Hr).
Qed.

Lemma download_blocks options b ctx A s e d (Q : result exn (Response Download) -> world -> Prop) :
  represents A (mkBlobService s e) -> data_holds e b (blocks_of b s) (ranges_of b s) d -> type_of d <> PageBlob ->
  (forall x, Q (Throw x) (mkBlobService s e)) ->
  (forall r, answers d ctx r.(items) -> Q (Ok r) (mkBlobService s e)) ->
  outcome (downloadBlockBlobOrAppendBlob md5 options b ctx) (mkBlobService s e) Q.
Proof.
  intros HA Hh Hpb HT HQ. unfold downloadBlockBlobOrAppendBlob.
  apply outcome_bind, outcome_check; [intros _|apply HT].
  set (rp := match deserializeRangeHeader _ _ with Ok r => r | Throw _ => None end).
  assert (Hask : asked d ctx = (default (Some 0) (fst <$> rp), default Infinite (snd <$> rp))).
  { unfold asked, rp. destruct d; [| |done]; destruct (deserializeRangeHeader _ _) as [[[]|]|]; done. }
  assert (Hlen : b.(b_properties).(bp_contentLength) = Some (size_of d)) by apply Hh. rewrite Hlen.
  apply outcome_bind, outcome_lift; [intros q Hq|intros; apply HT].
  apply outcome_bind, outcome_get. apply outcome_bind, outcome_lift; [intros body Hb|intros; apply HT].
  apply outcome_ret, HQ. intros x Hx Hn. pose proof (asked_start d ctx x Hx) as [Hx0 He].
  rewrite Hask in Hx, Hn, He |- *. cbn [fst snd] in *. rewrite Hx in *.
  destruct (normalize_end_ok _ _ _ _ _ Hq He Hn) as [Ht ->]. cbn zeta. split; [lia|].
  cbn [items respond download_response dl_body dl_contentLength q_sub q_add] in *.
  replace (stop d (default Infinite (snd <$> rp)) - 1 - x + 1) with (stop d (default Infinite (snd <$> rp)) - x) in * by lia.
  rewrite (read_blocks_holds e b s d x (stop d (default Infinite (snd <$> rp))) Hh Hpb Hx0) in Hb by lia.
  injection Hb as <-. done.
Qed.

Lemma download_pages options b ctx A s e n m (Q : result exn (Response Download) -> world -> Prop) :
  represents A (mkBlobService s e) -> data_holds e b (blocks_of b s) (ranges_of b s) (PageMap n m) ->
  (forall x, Q (Throw x) (mkBlobService s e)) ->
  (forall r, answers (PageMap n m) ctx r.(items) -> Q (Ok r) (mkBlobService s e)) ->
  outcome (downloadPageBlob md5 options b ctx) (mkBlobService s e) Q.
Proof.
  intros HA Hh HT HQ. unfold downloadPageBlob. set (d := PageMap n m) in *.
  apply outcome_bind, outcome_lift; [intros rp Hrp|intros; apply HT].
  assert (Hask : asked d ctx = rp) by (unfold asked, d; by rewrite Hrp).
  assert (Hlen : b.(b_properties).(bp_contentLength) = Some (size_of d)) by apply Hh. rewrite Hlen.
  apply outcome_bind, outcome_lift; [intros q Hq|intros; apply HT].
  assert (Hrg : is_Some b.(b_pageRangesInOrder)) by apply Hh. unfold ensure_ranges.
  destruct Hrg as [rg Hrg]. rewrite Hrg. apply outcome_bind, outcome_ret.
  apply outcome_bind, outcome_get. apply outcome_bind, outcome_lift; [intros body Hb|intros; apply HT].
  apply outcome_ret, HQ. intros x Hx Hn. pose proof (asked_start d ctx x Hx) as [Hx0 He].
  rewrite Hask in Hx, Hn, He |- *. destruct rp as [o q0]. cbn [fst snd] in *. subst o.
  destruct (normalize_end_ok _ _ _ _ _ Hq He Hn) as [Ht ->]. cbn zeta. split; [lia|].
  cbn [items respond download_response dl_body dl_contentLength q_sub q_add metadataStore extentStore] in *.
  replace (stop d q0 - 1 - x + 1) with (stop d q0 - x) in * by lia.
  assert (Hnm : size_of d = n) by (apply size_pages, Hh).
  rewrite (read_pages_holds e b s n m x (stop d q0) Hh Hx0) in Hb by lia. injection Hb as <-. done.
Qed.

Lemma download_leaves options ctx A w :
  let k := ctx_key ctx in
  represents A w -> default EmptyString options.(do_snapshot) = EmptyString ->
  outcome (download md5 options ctx) w (fun r w' => represents A w' /\
    forall a, r = Ok a -> exists d, (A k).(data) = Some d /\ answers d ctx a.(items)).
Proof.
  intros k HA Hsn. destruct w as [s0 e]. unfold download.
  apply outcome_bind, (outcome_download _ _ _ _ A); [done|done|by intros|].
  intros i b s d HA1 Hk Hd Hh. apply outcome_bind, outcome_check; [intros _|by split].
  assert (Ht : b.(b_properties).(bp_blobType) = Some (type_of d)) by apply Hh. rewrite Ht.
  assert (HT : forall x : exn, represents A (mkBlobService s e) /\
    forall a, Throw x = Ok a -> exists d, (A k).(data) = Some d /\ answers d ctx a.(items)) by (intros; by split).
  assert (HQ : forall r : Response Download, answers d ctx r.(items) -> represents A (mkBlobService s e) /\
    forall a, Ok (E:=exn) r = Ok a -> exists d, (A k).(data) = Some d /\ answers d ctx a.(items)).
  { intros r Hr. split; [done|]. intros a [= <-]. by exists d. }
  destruct d as [y|t l|n m].
  - by apply (download_blocks options b ctx A s e (Single y)).
  - destruct t; [by apply (download_blocks options b ctx A s e (BlockList BlockBlob l))| |].
    + destruct Hh as (_&_&_&_&Hpb&_). done.
    + by apply (download_blocks options b ctx A s e (BlockList AppendBlob l)).
  - by apply (download_pages options b ctx A s e n m).
Qed.

(** ** Lists *)

(** The names and the sizes of the committed blocks in their order, and those of
    the staged ones, as far as they are asked for. *)
Definition lists_blocks (B : Blob) (listType : option string) (u : list BlockModel) (c : list PersistencyBlockModel) : Prop :=
  (undefined listType || lists listType "all" || lists listType "committed" = true ->
     (fun p => (p.(block_name), p.(block_size))) <$> c = (fun x => (x.1, Z.of_nat (length x.2))) <$> blocks_in B.(data)) /\
  (lists listType "all" || lists listType "uncommitted" = true ->
     forall n z, (n, z) ∈ ((fun x => (x.(bl_block).(block_name), x.(bl_block).(block_size))) <$> u) <->
       exists b, B.(staged) !! n = Some b /\ z = Z.of_nat (length b)).

Lemma names_and_sizes e bl l :
  Forall2 (block_holds e) bl l ->
  (fun p => (p.(block_name), p.(block_size))) <$> bl = (fun x => (x.1, Z.of_nat (length x.2))) <$> l.
Proof. induction 1 as [|p x bl l (Hn&Hs&_) _ IH]; [done|]. cbn. by rewrite Hn, Hs, IH. Qed.

Lemma staged_listed e s k S u n z :
  staged_holds e s k S -> blocks_ok s -> u ≡ₚ (lk_find (fun _ => is_staged k) s.(blocks)).*2 ->
  (n, z) ∈ ((fun x => (x.(bl_block).(block_name), x.(bl_block).(block_size))) <$> u) <->
  exists b, S !! n = Some b /\ z = Z.of_nat (length b).
Proof.
  intros Hs Hbo Hu. specialize (Hs n).
  assert (Hel : (n, z) ∈ ((fun x => (x.(bl_block).(block_name), x.(bl_block).(block_size))) <$> u) <->
    exists p, staged_block s k n p /\ p.(block_size) = z).
  { rewrite Hu, list_elem_of_fmap. unfold staged_block. split.
    - intros (x&[= -> ->]&Hx). apply list_elem_of_fmap in Hx as ([j y]&->&Hj).
      apply (elem_find (fun _ => is_staged k)) in Hj as [Hj Hk]. exists y.(bl_block). split; [|done].
      exists j, y. split_and!; [done|by apply is_staged_key|done..].
    - intros (p&(j&x&Hj&Hk&<-&<-)&<-). exists x. split; [done|]. apply list_elem_of_fmap. exists (j, x).
      split; [done|]. apply (elem_find (fun _ => is_staged k)). split; [done|]. by apply is_staged_key. }
  rewrite Hel. destruct (S !! n) as [b|].
  - destruct Hs as (p&Hp&_&Hsz&_). split.
    + intros (p'&Hp'&<-). exists b. split; [done|]. destruct Hp as (j&x&Hj&Hk&<-&Hn), Hp' as (j'&x'&Hj'&Hk'&<-&Hn').
      assert (j' = j) as -> by (apply (proj2 (Hbo j x Hj) j' x'); congruence). assert (x' = x) as -> by congruence. done.
    + intros (b'&[= <-]&->). exists p. split; [done|exact Hsz].
  - split; [|by intros (b&?&_)]. intros (p&Hp&_). by destruct (Hs p).
Qed.

Lemma getBlockList_leaves listType snapshot leaseId mac clientId ctx A w :
  let k := ctx_key ctx in
  represents A w -> default EmptyString snapshot = EmptyString ->
  outcome (BlobHandlers.getBlockList listType snapshot leaseId mac clientId ctx) w (fun r w' => represents A w' /\
    forall a, r = Ok a -> lists_blocks (A k) listType a.(items).1.2 a.(items).2).
Proof.
  intros k HA Hsn. destruct w as [s e]. unfold BlobHandlers.getBlockList.
  apply outcome_bind, outcome_on_db. cbn [metadataStore extentStore]. eapply outcome_weaken.
  { eapply (outcome_request (mkEnv EmptyString EmptyString) (store_ctx ctx)
      (RGetBlockList ctx.(ctx_account) ctx.(ctx_container) ctx.(ctx_blob) snapshot None leaseId mac)); [done|done|done|split; apply HA|].
    apply (getBlockList_content (store_ctx ctx) k); [apply HA|done]. }
  cbn beta. intros r s' [[Hr Hb] Hg].
  assert (HA' : represents A (mkBlobService s' e))
    by (eapply represents_untouched; [exact HA|done|by apply refused_untouched|apply grows_refl]).
  destruct r as [[[p u] c]|x]; [|by split]. destruct (Hb p u c eq_refl) as (i&b&Hi&Ht&->&Hu).
  apply outcome_ret. split; [done|]. intros a [= <-]. cbn [items respond fst snd]. split; intros Hl; rewrite Hl.
  - apply (names_and_sizes e). pose proof (base_doc_at k s i b (ok_unique s (rep_ok _ _ HA)) Hi) as Hd.
    destruct (block_blob_holds e s k (A k).(data) (rep_data _ _ HA k)) as [Hcl _]; [intros d' Hd'; congruence|].
    unfold committed_list in Hcl. by rewrite Hd in Hcl.
  - intros n z. by apply (staged_listed e s k); [apply HA..|].
Qed.

(** Every byte of the range that is not zero is in one of the ranges. *)
Definition lists_pages (B : Blob) (ctx : BlobStorageContext) (l : list PersistencyPageRange) (len : option Z) : Prop :=
  exists n m, B.(data) = Some (PageMap n m) /\ len = Some n /\
    forall x, (asked (PageMap n m) ctx).1 = Some x -> (asked (PageMap n m) ctx).2 <> NotANumber ->
      wf_from x l /\
      (forall r y, r ∈ l -> (asked (PageMap n m) ctx).2 = Exact y -> r.(end_) <= y) /\
      forall p, x <= p -> (forall y, (asked (PageMap n m) ctx).2 = Exact y -> p <= y) -> m p <> 0 ->
        exists r, r ∈ l /\ inside r p.

Lemma byte_inside l p : byte_at l p <> None -> exists r, r ∈ l /\ inside r p.
Proof.
  induction l as [|r l IH]; [done|]. cbn. destruct (byte_of r p) eqn:Hr.
  - intros _. exists r. split; [by left|]. unfold byte_of in Hr. unfold inside.
    destruct (Z.leb_spec r.(start) p), (Z.leb_spec p r.(end_)); done.
  - intros Hp. destruct (IH Hp) as (q&?&?). exists q. split; [by right|done].
Qed.

Lemma getPageRanges_leaves snapshot leaseId mac clientId ctx A w :
  let k := ctx_key ctx in
  represents A w -> default EmptyString snapshot = EmptyString ->
  outcome (BlobHandlers.getPageRanges snapshot leaseId mac clientId ctx) w (fun r w' => represents A w' /\
    forall a, r = Ok a -> lists_pages (A k) ctx a.(items).1.1 a.(items).2).
Proof.
  intros k HA Hsn. destruct w as [s e]. unfold BlobHandlers.getPageRanges.
  apply outcome_bind, outcome_on_db. cbn [metadataStore extentStore]. eapply outcome_weaken.
  { eapply (outcome_request (mkEnv EmptyString EmptyString) (store_ctx ctx)
      (RGetPageRanges ctx.(ctx_account) ctx.(ctx_container) ctx.(ctx_blob) snapshot leaseId mac)); [done|done|done|split; apply HA|].
    apply (getPageRanges_content (store_ctx ctx) k); [apply HA|done]. }
  cbn beta. intros r s' [[Hr Hb] Hg].
  assert (HA' : represents A (mkBlobService s' e))
    by (eapply represents_untouched; [exact HA|done|by apply refused_untouched|apply grows_refl]).
  destruct r as [[p l]|x]; [|by split]. destruct (Hb p l eq_refl) as (i&b&Hi&Hc&->&Hl). cbn [fst snd].
  apply outcome_bind, outcome_check; [intros Ht|by split]. apply bool_decide_eq_true in Ht.
  apply outcome_bind, outcome_lift; [intros [o q] Hrg|by split].
  apply outcome_bind, outcome_check; [intros _|by split].
  apply outcome_bind, outcome_lift; [intros imp Himp|by split].
  apply outcome_ret. split; [done|]. intros a [= <-]. cbn [items respond fst snd] in *.
  destruct (key_holds e s k i b _ (rep_ok _ _ HA) (rep_data _ _ HA k) Hi Hc) as (d&Hd&_&_&Hty&Hcl&Hh).
  assert (exists n m, d = PageMap n m) as (n&m&->).
  { destruct d as [y|t y|n m]; cbn in Hty; [congruence| |by eauto]. destruct Hh as [Hpb _]. congruence. }
  destruct Hh as (Hn&_&Hw&_&Hz). rewrite size_pages in Hcl by done. exists n, m. split_and!; [done|done|].
  unfold asked. rewrite Hrg. cbn [fst snd]. intros x -> Hnan. unfold cut in Himp. rewrite Hl in Himp.
  destruct (deserializePageBlobRangeHeader_ok _ _ _ _ _ Hrg) as [Hx _]. destruct (Hx x eq_refl) as [Hx0 He].
  pose proof (last_position_ge x q (ranges_of b s) He) as Hge.
  assert (Hcut : cutRanges (ranges_of b s) (mkPageRange x (last_position x q (ranges_of b s))) = Ok imp) by by destruct q.
  destruct (cut_correct (ranges_of b s) x (last_position x q (ranges_of b s)) Hw) as (l'&Hl'&Hwf&Hup&Hba); [lia|].
  assert (l' = imp) as -> by congruence. split_and!; [done| |].
  - intros r y Hin ->. destruct (wf_elem _ _ _ Hwf Hin) as (_&_&?). cbn in Hup. lia.
  - intros y Hy Hey Hmy. apply byte_inside. rewrite Hba. intros Hno. apply Hmy, Hz.
    destruct (Z.leb_spec x y); [|lia]. destruct (Z.leb_spec y (last_position x q (ranges_of b s))); [done|].
    destruct q as [t| |]; [|by eapply (last_position_last x Infinite)|done]. specialize (Hey t eq_refl). cbn in *. lia.
Qed.

(** ** A download that asks for the whole blob *)

Definition no_range (ctx : BlobStorageContext) : Prop :=
  ctx.(BlobHttp.request).(getHeader) "range"%string = None /\
  ctx.(BlobHttp.request).(getHeader) "x-ms-range"%string = None.

Lemma asked_whole d ctx : no_range ctx -> asked d ctx = (Some 0, Infinite).
Proof. intros [Hr Hx]. unfold asked. rewrite Hr, Hx. by destruct d. Qed.

Lemma normalize_whole cid d : normalize_end cid (Some (size_of d)) (Some 0) Infinite = Ok (Exact (size_of d - 1)).
Proof.
  pose proof (size_nonneg d). unfold normalize_end. cbn [quantity q_gt q_add q_ge].
  destruct (Z.ltb_spec (size_of d) 0); [lia|]. by rewrite andb_false_r.
Qed.

Lemma part_whole (b : bytes) : part 0 (Z.of_nat (length b)) b = b.
Proof. unfold part. rewrite drop_0, Nat2Z.id. by apply take_ge. Qed.

Lemma download_blocks_whole options b ctx s e d :
  data_holds e b (blocks_of b s) (ranges_of b s) d -> type_of d <> PageBlob -> no_range ctx ->
  exists r, downloadBlockBlobOrAppendBlob md5 options b ctx (mkBlobService s e) = (Ok r, mkBlobService s e) /\
    r.(items).(dl_body) = bytes_of d /\ r.(BlobHttp.statusCode) = 200.
Proof.
  intros Hh Hpb [Hr Hx]. unfold downloadBlockBlobOrAppendBlob, check. pose proof Hh as (Hc&_&_&Hlen&_).
  rewrite Hc, Hr, Hx, Hlen. change (deserializeRangeHeader None None) with (Ok (E:=exn) (@None (option Z * Quantity))).
  cbn [from_option fmap option_fmap option_map]. run.
  rewrite normalize_whole. cbn [q_sub q_add]. pose proof (size_nonneg d).
  replace (size_of d - 1 - 0 + 1) with (size_of d - 0) by lia.
  rewrite (read_blocks_holds e b s d 0 (size_of d) Hh Hpb) by lia. eexists. split; [reflexivity|].
  split; [|done]. cbn [items respond download_response dl_body]. rewrite Z.sub_0_r. apply part_whole.
Qed.

Lemma download_pages_whole options b ctx s e n m :
  data_holds e b (blocks_of b s) (ranges_of b s) (PageMap n m) -> no_range ctx ->
  exists r, downloadPageBlob md5 options b ctx (mkBlobService s e) = (Ok r, mkBlobService s e) /\
    r.(items).(dl_body) = bytes_of (PageMap n m) /\ r.(BlobHttp.statusCode) = 200.
Proof.
  intros Hh [Hr Hx]. unfold downloadPageBlob, ensure_ranges. pose proof Hh as (_&_&_&Hlen&Hn&[rg Hrg]&_).
  rewrite Hr, Hx, Hlen, Hrg.
  change (deserializePageBlobRangeHeader None None false) with (Ok (E:=exn) (Some 0, Infinite)). run. cbn [fst snd].
  rewrite normalize_whole. cbn [q_sub q_add metadataStore extentStore]. pose proof (size_nonneg (PageMap n m)).
  replace (size_of (PageMap n m) - 1 - 0 + 1) with (size_of (PageMap n m) - 0) by lia.
  pose proof (size_pages n m Hn) as Hsz.
  rewrite (read_pages_holds e b s n m 0 (size_of (PageMap n m)) Hh) by lia. eexists. split; [reflexivity|].
  split; [|done]. cbn [items respond download_response dl_body]. rewrite Z.sub_0_r. apply part_whole.
Qed.

Lemma download_whole options ctx A w d :
  represents A w -> (A (ctx_key ctx)).(data) = Some d -> no_range ctx ->
  default EmptyString options.(do_snapshot) = EmptyString -> options.(do_leaseId) = None -> options.(do_mac) = None ->
  outcome (download md5 options ctx) w (fun r _ => match r with
  | Ok a => a.(items).(dl_body) = bytes_of d /\ a.(BlobHttp.statusCode) = 200
  | Throw x => x = BlobErrors.getBlobArchived ctx.(contextId)
  end).
Proof.
  intros HA Hd Hno Hsn Hl Hm. destruct w as [s e]. pose proof (rep_data _ _ HA (ctx_key ctx)) as Hk.
  rewrite Hd in Hk. cbn [metadataStore extentStore] in Hk. unfold base_content in Hk.
  destruct (base_doc (ctx_key ctx) s) as [b|] eqn:Hb; [|done]. cbn in Hk. apply base_doc_Some in Hb as [i Hi].
  change (data_holds e b (blocks_of b s) (ranges_of b s) d) in Hk. pose proof Hk as (Hc&Het&_).
  destruct (downloadBlob_open (store_ctx ctx) (ctx_key ctx) options.(do_snapshot) i b s (rep_ok _ _ HA) Hsn Hi Hc Het) as (s'&Ho).
  unfold download. rewrite Hl, Hm. apply outcome_bind. unfold outcome at 1, on_db. cbn [metadataStore extentStore].
  unfold ctx_key in Ho. cbn [fst snd] in Ho. rewrite Ho. cbn [fst snd].
  pose proof (downloadBlob_content (store_ctx ctx) (ctx_key ctx) options.(do_snapshot) None None s (rep_ok _ _ HA) Hsn) as Hdc.
  unfold outcome, ctx_key in Hdc. cbn [fst snd] in Hdc. rewrite Ho in Hdc. destruct Hdc as [(_&[Ha1 Ha2]&_) _].
  set (b' := opened _ b) in *.
  assert (Hh : data_holds e b' (blocks_of b' s') (ranges_of b' s') d).
  { cbn [fst snd] in *. unfold blocks_of, ranges_of in *. rewrite Ha1, Ha2. exact Hk. }
  apply outcome_bind, outcome_check; [intros _|done].
  assert (Ht : b'.(b_properties).(bp_blobType) = Some (type_of d)) by apply Hh. rewrite Ht.
  destruct d as [y|t l|n m].
  - destruct (download_blocks_whole options b' ctx s' e (Single y) Hh) as (r&Hr&Hbody); [done|done|].
    unfold outcome. cbn [type_of]. by rewrite Hr.
  - assert (Htp : type_of (BlockList t l) <> PageBlob) by (destruct Hh as (_&_&_&_&Hpb&_); done).
    destruct (download_blocks_whole options b' ctx s' e (BlockList t l) Hh Htp Hno) as (r&Hr&Hbody).
    unfold outcome. cbn [type_of] in *. destruct t; [by rewrite Hr|done|by rewrite Hr].
  - destruct (download_pages_whole options b' ctx s' e n m Hh Hno) as (r&Hr&Hbody).
    unfold outcome. cbn [type_of]. by rewrite Hr.
Qed.

(** ** Histories *)

Inductive call :=
| Upload (env : Env) (body : bytes) (contentLength : Z) (options : WriteOptions) (extentId : string) (ctx : BlobStorageContext)
| StageBlock (env : Env) (blockId : string) (contentLength : Z) (body : bytes)
    (transactionalContentMD5 leaseId clientId : option string) (extentId : string) (ctx : BlobStorageContext)
| CommitBlockList (env : Env) (options : WriteOptions) (ctx : BlobStorageContext)
| GetBlockList (listType snapshot leaseId : option string) (mac : option ModifiedAccessConditions)
    (clientId : option string) (ctx : BlobStorageContext)
| CreateAppendBlob (loose : bool) (env : Env) (contentLength : Z) (options : WriteOptions) (ctx : BlobStorageContext)
| AppendBlock (env : Env) (body : bytes) (contentLength : Z) (leaseId : option string)
    (mac : option ModifiedAccessConditions) (apac : AppendPositionAccessConditions) (clientId : option string)
    (extentId : string) (ctx : BlobStorageContext)
| Seal (env : Env) (leaseId : option string) (mac : option ModifiedAccessConditions) (clientId : option string)
    (ctx : BlobStorageContext)
| CreatePageBlob (env : Env) (contentLength blobContentLength : Z) (blobSequenceNumber : option Z)
    (options : WriteOptions) (ctx : BlobStorageContext)
| UploadPages (env : Env) (body : bytes) (contentLength : Z) (leaseId : option string)
    (mac : option ModifiedAccessConditions) (snac : option SequenceNumberAccessConditions)
    (clientId : option string) (extentId : string) (ctx : BlobStorageContext)
| ClearPages (env : Env) (contentLength : Z) (leaseId : option string) (mac : option ModifiedAccessConditions)
    (snac : option SequenceNumberAccessConditions) (clientId : option string) (ctx : BlobStorageContext)
| GetPageRanges (snapshot leaseId : option string) (mac : option ModifiedAccessConditions) (clientId : option string)
    (ctx : BlobStorageContext)
| Resize (env : Env) (blobContentLength : Z) (leaseId : option string) (mac : option ModifiedAccessConditions)
    (clientId : option string) (ctx : BlobStorageContext)
| UpdateSequenceNumber (env : Env) (action : SequenceNumberActionType) (number : option Z) (leaseId : option string)
    (mac : option ModifiedAccessConditions) (clientId : option string) (ctx : BlobStorageContext)
| DownloadBlob (options : DownloadOptions) (ctx : BlobStorageContext).

(** What a client learns of the content. *)
Inductive Answer :=
| Nothing
| Body (d : Download)
| Blocks (u : list BlockModel) (c : list PersistencyBlockModel)
| Ranges (l : list PersistencyPageRange) (length : option Z).

Definition told {T} (m : proc world exn T) (f : T -> Answer) : proc world exn Answer := a ← m; mret (f a).
Definition silent {T} (m : proc world exn T) : proc world exn Answer := told m (fun _ => Nothing).

Definition perform (q : call) : proc world exn Answer :=
  match q with
  | Upload env b n o id ctx => silent (upload md5 env b n o id ctx)
  | StageBlock env i n b m l c id ctx => silent (BlobHandlers.stageBlock md5 env i n b m l c id ctx)
  | CommitBlockList env o ctx => silent (BlobHandlers.commitBlockList md5 parseXML env o ctx)
  | GetBlockList t sn l mac c ctx =>
      told (BlobHandlers.getBlockList t sn l mac c ctx) (fun r => Blocks r.(items).1.2 r.(items).2)
  | CreateAppendBlob loose env n o ctx => silent (createAppendBlob loose env n o ctx)
  | AppendBlock env b n l mac ap c id ctx => silent (BlobHandlers.appendBlock md5 env b n l mac ap c id ctx)
  | Seal env l mac c ctx => silent (seal env l mac c ctx)
  | CreatePageBlob env n len sq o ctx => silent (createPageBlob env n len sq o ctx)
  | UploadPages env b n l mac snac c id ctx => silent (BlobHandlers.uploadPages env b n l mac snac c id ctx)
  | ClearPages env n l mac snac c ctx => silent (BlobHandlers.clearPages env n l mac snac c ctx)
  | GetPageRanges sn l mac c ctx =>
      told (BlobHandlers.getPageRanges sn l mac c ctx) (fun r => Ranges r.(items).1.1 r.(items).2)
  | Resize env len l mac c ctx => silent (resize env len l mac c ctx)
  | UpdateSequenceNumber env a n l mac c ctx => silent (BlobHandlers.updateSequenceNumber env a n l mac c ctx)
  | DownloadBlob o ctx => told (download md5 o ctx) (fun r => Body r.(items))
  end.

(** The blob a request is for. *)
Definition key (q : call) : Key :=
  match q with
  | Upload _ _ _ _ _ ctx | StageBlock _ _ _ _ _ _ _ _ ctx | CommitBlockList _ _ ctx | GetBlockList _ _ _ _ _ ctx
  | CreateAppendBlob _ _ _ _ ctx | AppendBlock _ _ _ _ _ _ _ _ ctx | Seal _ _ _ _ ctx | CreatePageBlob _ _ _ _ _ ctx
  | UploadPages _ _ _ _ _ _ _ _ ctx | ClearPages _ _ _ _ _ _ ctx | GetPageRanges _ _ _ _ ctx | Resize _ _ _ _ _ ctx
  | UpdateSequenceNumber _ _ _ _ _ _ ctx | DownloadBlob _ ctx => ctx_key ctx
  end.

(** The blob after a request that returns; [None] if it may not return. *)
Definition after (q : call) (B : Blob) : option Blob :=
  match q with
  | Upload _ body _ _ _ _ => Some (mkAbstract B.(staged) (Some (Single body)))
  | StageBlock _ blockId _ body _ _ _ _ _ => Some (mkAbstract (<[blockId := body]> B.(staged)) B.(data))
  | CommitBlockList _ _ ctx => committed parseXML ctx B
  | CreateAppendBlob _ _ _ _ _ => Some (mkAbstract B.(staged) (Some (BlockList AppendBlob [])))
  | AppendBlock _ body _ _ _ _ _ _ _ => appended body B
  | CreatePageBlob _ _ len _ _ _ => Some (mkAbstract B.(staged) (Some (PageMap len (fun _ => 0))))
  | UploadPages _ body _ _ _ _ _ _ ctx => pages_uploaded ctx body B
  | ClearPages _ _ _ _ _ _ ctx => pages_cleared ctx B
  | Resize _ len _ _ _ _ => pages_resized len B
  | GetBlockList _ _ _ _ _ _ | Seal _ _ _ _ _ | GetPageRanges _ _ _ _ _ | UpdateSequenceNumber _ _ _ _ _ _ _
  | DownloadBlob _ _ => Some B
  end.

(** The answer is what the blob holds. *)
Definition right (q : call) (B : Blob) (a : Answer) : Prop :=
  match q, a with
  | DownloadBlob _ ctx, Body dl => exists d, B.(data) = Some d /\ answers d ctx dl
  | GetBlockList t _ _ _ _ _, Blocks u c => lists_blocks B t u c
  | GetPageRanges _ _ _ _ ctx, Ranges l len => lists_pages B ctx l len
  | DownloadBlob _ _, _ | GetBlockList _ _ _ _ _ _, _ | GetPageRanges _ _ _ _ _, _ => False
  | _, _ => True
  end.

Definition base (snapshot : option string) : Prop := default EmptyString snapshot = EmptyString.

(** Requests on blobs, not on snapshots; the ids and etags they draw are new and
    lengths are not negative. *)
Definition admissible w (q : call) : Prop :=
  match q with
  | Upload env _ _ _ id _ | AppendBlock env _ _ _ _ _ _ id _ | UploadPages env _ _ _ _ _ _ id _ =>
      env_ok env /\ fresh w.(extentStore) id
  | StageBlock _ _ _ _ _ _ _ id _ => fresh w.(extentStore) id
  | CommitBlockList env _ _ | CreateAppendBlob _ env _ _ _ | Seal env _ _ _ _ | ClearPages env _ _ _ _ _ _
  | UpdateSequenceNumber env _ _ _ _ _ _ => env_ok env
  | CreatePageBlob env _ len _ _ _ | Resize env len _ _ _ _ => env_ok env /\ 0 <= len
  | GetBlockList _ sn _ _ _ _ | GetPageRanges sn _ _ _ _ => base sn
  | DownloadBlob o _ => base o.(do_snapshot)
  end.

(** What a run of requests can reach from a store without blobs. *)
Inductive reaches : State -> world -> Prop :=
| reaches_empty w :
    store_ok w.(metadataStore) -> docs w.(metadataStore).(blobs) = ∅ -> docs w.(metadataStore).(blocks) = ∅ ->
    reaches (fun _ => nothing) w
| reaches_step A w q r w' :
    reaches A w -> admissible w q -> perform q w = (r, w') ->
    reaches (match r with
             | Ok _ => put (key q) (default (A (key q)) (after q (A (key q)))) A
             | Throw _ => A
             end) w'.

Lemma told_leaves {T} (m : proc world exn T) (f : T -> Answer) A k B w :
  outcome m w (leaves A k (fun _ => B)) -> outcome (told m f) w (fun r w' => leaves A k (fun _ => B) r w').
Proof. intros Hm. unfold told. apply outcome_bind. eapply outcome_weaken; [exact Hm|]. by intros [a|x]. Qed.

Lemma told_reads {T} (m : proc world exn T) (f : T -> Answer) A k w (R : Answer -> Prop) :
  outcome m w (fun r w' => represents A w' /\ forall a, r = Ok a -> R (f a)) ->
  outcome (told m f) w (fun r w' => leaves A k (fun _ => Some (A k)) r w' /\ forall a, r = Ok a -> R a).
Proof.
  intros Hm. unfold told. apply outcome_bind. eapply outcome_weaken; [exact Hm|]. intros [a|x] w' [HA Ha]; [|by split].
  split; [eexists; split; [done|by apply put_same]|]. intros ? [= <-]. by apply Ha.
Qed.

Lemma perform_leaves q A w :
  represents A w -> admissible w q ->
  outcome (perform q) w (fun r w' => leaves A (key q) (fun _ => after q (A (key q))) r w' /\
    forall a, r = Ok a -> right q (A (key q)) a).
Proof.
  intros HA Hq.
  assert (Hwrite : forall (m : proc world exn Answer), outcome m w (leaves A (key q) (fun _ => after q (A (key q)))) ->
    (forall a, right q (A (key q)) a) ->
    outcome m w (fun r w' => leaves A (key q) (fun _ => after q (A (key q))) r w' /\
      forall a, r = Ok a -> right q (A (key q)) a)).
  { intros m Hm Hr. eapply outcome_weaken; [exact Hm|]. by split. }
  destruct q; cbn [perform admissible] in *; destruct_and?; try (apply Hwrite; [|done]; apply told_leaves).
  - by apply upload_leaves.
  - by apply stageBlock_leaves.
  - by apply commitBlockList_leaves.
  - apply told_reads. by apply getBlockList_leaves.
  - by apply createAppendBlob_leaves.
  - by apply appendBlock_leaves.
  - by apply seal_leaves.
  - by apply createPageBlob_leaves.
  - by apply uploadPages_leaves.
  - by apply clearPages_leaves.
  - apply told_reads. by apply getPageRanges_leaves.
  - by apply resize_leaves.
  - by apply updateSequenceNumber_leaves.
  - apply told_reads. by apply download_leaves.
Qed.

Lemma reaches_represents A w : reaches A w -> represents A w.
Proof.
  induction 1 as [w Hs Hb Hk|A w q r w' _ IH Hq Hp].
  - split; [done|..].
    + intros i b Hi. cbn in Hi. by rewrite Hb, lookup_empty in Hi.
    + intros i x Hi. by rewrite Hk, lookup_empty in Hi.
    + intros k. cbn. unfold base_content. destruct (base_doc k _) as [b|] eqn:Hd; [|done].
      apply base_doc_Some in Hd as (i&Hi&_). by rewrite Hb, lookup_empty in Hi.
    + intros k n. cbn. rewrite lookup_empty. intros p (j&x&Hj&_). by rewrite Hk, lookup_empty in Hj.
  - pose proof (perform_leaves q A w IH Hq) as [Hl _]. rewrite Hp in Hl. destruct r as [a|x]; cbn in Hl |- *; [|done].
    destruct Hl as (B&->&HB). done.
Qed.

(** ** The properties *)

(** C1. from a service without blobs, after any requests on the content of blobs,
    whatever they throw, a request that returns tells what the blob holds by the
    requests before it: a download the part of the bytes that its range asks for,
    a block list the committed blocks in their order and the staged ones, page
    ranges all the bytes that are not zero; and a write that returns is one that
    the data of the blob allows. *)
Theorem blob_service_refines A w q a w'
    (Hr : reaches A w) (Hq : admissible w q) (Hp : perform q w = (Ok a, w')) :
  right q (A (key q)) a /\ is_Some (after q (A (key q))).
Proof.
  pose proof (perform_leaves q A w (reaches_represents A w Hr) Hq) as [Hl Ha]. rewrite Hp in Hl, Ha.
  split; [by apply Ha|]. destruct Hl as (B&->&_). by eexists.
Qed.

(** C3. a download of a blob that asks for all of it, without a range, a lease id and
    conditions, returns the bytes of the blob with status 200, or the error of
    the archive tier; it cannot fail otherwise. *)
Theorem blob_download_returns A w d options ctx
    (Hr : reaches A w) (Hd : (A (ctx_key ctx)).(data) = Some d) (Hno : no_range ctx)
    (Hsn : base options.(do_snapshot)) (Hl : options.(do_leaseId) = None) (Hm : options.(do_mac) = None) :
  match (download md5 options ctx w).1 with
  | Ok a => a.(items).(dl_body) = bytes_of d /\ a.(BlobHttp.statusCode) = 200
  | Throw x => x = BlobErrors.getBlobArchived ctx.(contextId)
  end.
Proof. exact (download_whole options ctx A w d (reaches_represents A w Hr) Hd Hno Hsn Hl Hm). Qed.

(** ** Running a list of requests *)

Definition step (c : State * world) (q : call) : State * world :=
  let (r, w') := perform q c.2 in
  (match r with
   | Ok _ => put (key q) (default (c.1 (key q)) (after q (c.1 (key q)))) c.1
   | Throw _ => c.1
   end, w').

Lemma step_reaches c q : reaches c.1 c.2 -> admissible c.2 q -> reaches (step c q).1 (step c q).2.
Proof.
  intros Hc Hq. unfold step. destruct (perform q c.2) as [r w'] eqn:Hp. exact (reaches_step c.1 c.2 q r w' Hc Hq Hp).
Qed.

End Reads.

(** ** Witnesses *)

(** A service with one container and the extent store in memory. *)
Definition memory : Type := MemoryExtentStore (map_coll ExtentDoc).
Definition no_error (_ : Z) (_ _ _ : string) : exn := JsError.
#[local] Instance memory_store : IExtentStore memory := memory_extent_store no_error.
#[local] Instance memory_reader : IExtentReader memory := memory_extent_reader.
#[local] Instance memory_store_laws : IExtentStoreLaws memory := memory_extent_store_laws no_error.
#[local] Instance memory_reader_laws : IExtentReaderLaws memory := memory_extent_reader_laws no_error.

Definition service0 : BlobService map_coll unit memory :=
  mkBlobService (run_calls w_db [w_call 0 (RCreateContainer w_container)])
    (mkMemoryExtentStore "blob" (mkChunkStore None ∅ 0) (∅, 0)).

(** The list of the one block that is staged; the hash is the length. *)
Definition one_block (_ : text) : res (option (list (option string * option string))) :=
  Ok (Some [(Some "AAAA", Some "Latest")]%string).
Definition no_md5 (b : bytes) : string := String.string_of_list_ascii (replicate (length b) "a"%char).

Definition request_with (range : option string) (body : option text) : HttpRequest :=
  mkHttpRequest (fun n => if n === "range"%string then range else None) [] (fun _ => None) body.
Definition ctx_at (n : string) (range : option string) : BlobStorageContext :=
  mkBlobStorageContext "a" "c" n 5 None (request_with range (Some [])) 5.
Definition plain : WriteOptions := mkWriteOptions None None None None None None.
Definition whole : DownloadOptions := mkDownloadOptions None None None None.

Abbreviation next c q := (step no_md5 one_block c q).
Definition start_state : State * BlobService map_coll unit memory := ((fun _ => nothing), service0).
Definition staged_state := next start_state (StageBlock w_env "AAAA" 3 [1; 2; 3] None None None "e1" (ctx_at "blob" None)).
Definition committed_state := next staged_state (CommitBlockList w_env plain (ctx_at "blob" None)).
Definition created_state := next committed_state (CreatePageBlob w_env 0 1024 None plain (ctx_at "pages" None)).
Definition written_state :=
  next created_state (UploadPages w_env (replicate 512 7) 512 None None None None "e2" (ctx_at "pages" (Some "bytes=512-1023"%string))).

Lemma written_reached : reaches no_md5 one_block written_state.1 written_state.2.
Proof.
  assert (Hs : reaches no_md5 one_block start_state.1 start_state.2).
  { apply reaches_empty; [|reflexivity..]. apply calls_store_ok; [apply w_db_ok|repeat constructor]. }
  unfold written_state. apply step_reaches; [|split; [vm_compute; lia|split; [vm_compute; reflexivity|discriminate]]].
  unfold created_state. apply step_reaches; [|split; [vm_compute; lia|lia]].
  unfold committed_state. apply step_reaches; [|vm_compute; lia].
  unfold staged_state. apply step_reaches; [exact Hs|]. split; [vm_compute; reflexivity|discriminate].
Qed.

(** Bytes of the committed block, and of a range that begins with zeros. *)
Lemma blob_service_refines_witness :
  (exists a, (perform no_md5 one_block (DownloadBlob whole (ctx_at "blob" (Some "bytes=1-5"%string))) written_state.2).1 = Ok a /\
     right (DownloadBlob whole (ctx_at "blob" (Some "bytes=1-5"%string))) (written_state.1 ("a", "c", "blob")%string) a) /\
  (exists dl, (perform no_md5 one_block (DownloadBlob whole (ctx_at "pages" (Some "bytes=510-513"%string))) written_state.2).1
     = Ok (Body dl) /\ dl.(dl_body) = [0; 0; 7; 7]).
Proof.
  split.
  - eexists. split; [vm_compute; reflexivity|].
    eapply (blob_service_refines no_md5 one_block written_state.1 written_state.2
      (DownloadBlob whole (ctx_at "blob" (Some "bytes=1-5"%string)))); [apply written_reached|reflexivity|vm_compute; reflexivity].
  - eexists. split; [vm_compute; reflexivity|reflexivity].
Defined.

Lemma blob_download_returns_witness :
  match (download no_md5 whole (ctx_at "blob" None) written_state.2).1 with
  | Ok a => a.(items).(dl_body) = [1; 2; 3] /\ a.(BlobHttp.statusCode) = 200
  | Throw x => x = BlobErrors.getBlobArchived None
  end.
Proof.
  apply (blob_download_returns no_md5 one_block written_state.1 written_state.2
    (BlockList BlockBlob [("AAAA"%string, [1; 2; 3])]) whole (ctx_at "blob" None)).
  - apply written_reached.
  - vm_compute. reflexivity.
  - by split.
  - reflexivity.
  - reflexivity.
  - reflexivity.
Defined.
