(* ===== verification/BlobPages.v ===== *)
(** * BlobPages: the pages of a list of blobs

    src/src/blob/persistence/PageWithDelimiter.ts and FilterBlobPage.ts. A page reads
    its source from an offset on, squashes the names with the delimiter into
    prefixes, and stops when it is full. Names are Latin-1 strings; the source is
    not changed while it is read. The loop of [fill] gets fuel; each round but the
    last takes [maxResults] items from the source. *)

From S2P Require Import Prelude Errors.
Open Scope Z_scope.
Open Scope azurite_scope.

(** The state of a page; a [Set] iterates in the order of insertion. *)
Record PageWithDelimiter (A : Type) := mkPage {
  blobItems : list A;
  blobPrefixes : list string;
  latestMarker : string;
  isFull : bool;
  isExhausted : bool
}.
Arguments mkPage {A}.
Arguments blobItems {A}.
Arguments blobPrefixes {A}.
Arguments latestMarker {A}.
Arguments isFull {A}.
Arguments isExhausted {A}.

Definition empty_page {A} : PageWithDelimiter A := mkPage [] [] EmptyString false false.

Section Page.
Context {A : Type}.
Abbreviation Page := (PageWithDelimiter A).
Context (maxResults : Z) (delimiter prefix : option string).

Definition prefixLength : nat := match prefix with Some p => String.length p | None => 0%nat end.

Definition updateFull (p : Page) : Page :=
  mkPage p.(blobItems) p.(blobPrefixes) p.(latestMarker)
    (Z.of_nat (length p.(blobItems)) + Z.of_nat (length p.(blobPrefixes)) =? maxResults) p.(isExhausted).

Definition set_exhausted (b : bool) (p : Page) : Page :=
  mkPage p.(blobItems) p.(blobPrefixes) p.(latestMarker) p.(isFull) b.

Definition addItem (item : A) (p : Page) : bool * Page :=
  if p.(isExhausted) then (false, p)
  else
    let added := negb p.(isFull) in
    let p := if added then
               mkPage (p.(blobItems) ++ [item]) p.(blobPrefixes) p.(latestMarker) p.(isFull) p.(isExhausted)
             else p in
    let p := updateFull p in
    (added, set_exhausted p.(isFull) p).

(** [this.blobPrefixes.add(prefix)]. *)
Definition set_add (x : string) (l : list string) : list string :=
  if bool_decide (x ∈ l) then l else l ++ [x].

Definition addPrefix (name : string) (p : Page) : bool * Page :=
  if p.(isExhausted) then (false, p)
  else if p.(isFull) then
    let known := bool_decide (name ∈ p.(blobPrefixes)) in
    (known, updateFull (set_exhausted (negb known) p))
  else
    (true, updateFull (mkPage p.(blobItems) (set_add name p.(blobPrefixes)) p.(latestMarker) p.(isFull)
                         p.(isExhausted))).

(** The prefix a name is squashed into: it ends after the first character of the
    delimiter. *)
Definition squashed (name : string) : option string :=
  match delimiter with
  | None => None
  | Some d =>
      match String.index prefixLength d name with
      | Some delimiterPosAfterPrefix => Some (String.substring 0 (delimiterPosAfterPrefix + 1) name)
      | None => None
      end
  end.

Definition add (name : string) (item : A) (p : Page) : res (bool * Page) :=
  if p.(isExhausted) then Ok (false, p)
  else
    throw_when (String.ltb name p.(latestMarker)) JsError;;
    let marker := if String.ltb p.(latestMarker) name then name else p.(latestMarker) in
    let (added, p) := match squashed name with Some s => addPrefix s p | None => addItem item p end in
    Ok (added, if added then mkPage p.(blobItems) p.(blobPrefixes) marker p.(isFull) p.(isExhausted) else p).

(** The number of items that are added. *)
Fixpoint processList (docs : list A) (nameFn : A -> string) (p : Page) : res (nat * Page) :=
  match docs with
  | [] => Ok (0%nat, p)
  | item :: docs =>
      r ← add (nameFn item) item p;
      let (added, p) := (r : bool * Page) in
      let n := if added then 1%nat else 0%nat in
      if p.(isExhausted) then Ok (n, p)
      else
        rest ← processList docs nameFn p;
        Ok ((n + rest.1)%nat, rest.2)
  end.

(** The loop: the number of items added last, and how many were read. *)
Fixpoint fill_loop (fuel : nat) (reader : nat -> list A) (namer : A -> string) (offset added : nat) (p : Page) :
    res (nat * nat * Page) :=
  match fuel with
  | O => Throw OutOfFuel
  | S fuel =>
      match reader offset with
      | [] => Ok (added, 0%nat, p)
      | docs =>
          r ← processList docs namer p;
          if Z.of_nat r.1 <? maxResults then Ok (r.1, length docs, r.2)
          else fill_loop fuel reader namer (offset + r.1) r.1 r.2
      end
  end.

Definition fill (fuel : nat) (reader : nat -> list A) (namer : A -> string) :
    res (list A * list string * string) :=
  r ← fill_loop fuel reader namer 0 0 empty_page;
  let '(added, n, p) := r in
  Ok (p.(blobItems), p.(blobPrefixes), if Nat.ltb added n then p.(latestMarker) else EmptyString).
End Page.

(** [coll.chain()....offset(offset).limit(maxResults)] of a list in order. *)
Definition read_page {A} (l : list A) (maxResults : Z) (offset : nat) : list A :=
  take (Z.to_nat maxResults) (drop offset l).

(** ** Pages of a search

    FilterBlobPage.ts, the same without prefixes. Its reader filters what it read. *)

Module FilterBlobPage.

Record FilterBlobPage (A : Type) := mkPage {
  filterBlobItems : list A;
  latestMarker : string;
  isFull : bool;
  isExhausted : bool
}.
Arguments mkPage {A}.
Arguments filterBlobItems {A}.
Arguments latestMarker {A}.
Arguments isFull {A}.
Arguments isExhausted {A}.

Section Page.
Context {A : Type}.
Abbreviation Page := (FilterBlobPage A).
Context (maxResults : Z).

Definition addItem (item : A) (p : Page) : bool * Page :=
  if p.(isExhausted) then (false, p)
  else
    let added := negb p.(isFull) in
    let items := if added then p.(filterBlobItems) ++ [item] else p.(filterBlobItems) in
    let full := Z.of_nat (length items) =? maxResults in
    (added, mkPage items p.(latestMarker) full full).

Definition add (name : string) (item : A) (p : Page) : res (bool * Page) :=
  if p.(isExhausted) then Ok (false, p)
  else
    throw_when (String.ltb name p.(latestMarker)) JsError;;
    let marker := if String.ltb p.(latestMarker) name then name else p.(latestMarker) in
    let (added, p) := addItem item p in
    Ok (added, if added then mkPage p.(filterBlobItems) marker p.(isFull) p.(isExhausted) else p).

Fixpoint processList (docs : list A) (nameFn : A -> string) (p : Page) : res (nat * Page) :=
  match docs with
  | [] => Ok (0%nat, p)
  | item :: docs =>
      r ← add (nameFn item) item p;
      let (added, p) := (r : bool * Page) in
      let n := if added then 1%nat else 0%nat in
      if p.(isExhausted) then Ok (n, p)
      else
        rest ← processList docs nameFn p;
        Ok ((n + rest.1)%nat, rest.2)
  end.

(** The reader may throw, in the evaluation of the query. *)
Fixpoint fill_loop (fuel : nat) (reader : nat -> res (list A)) (namer : A -> string) (offset added : nat)
    (p : Page) : res (nat * nat * Page) :=
  match fuel with
  | O => Throw OutOfFuel
  | S fuel =>
      docs ← reader offset;
      match docs with
      | [] => Ok (added, 0%nat, p)
      | docs =>
          r ← processList docs namer p;
          if Z.of_nat r.1 <? maxResults then Ok (r.1, length docs, r.2)
          else fill_loop fuel reader namer (offset + r.1) r.1 r.2
      end
  end.

Definition fill (fuel : nat) (reader : nat -> res (list A)) (namer : A -> string) : res (list A * string) :=
  r ← fill_loop fuel reader namer 0 0 (mkPage [] EmptyString false false);
  let '(added, n, p) := r in
  Ok (p.(filterBlobItems), if Nat.ltb added n then p.(latestMarker) else EmptyString).
End Page.
End FilterBlobPage.

(** ** Examples *)

Example squashed_name : squashed (Some "/"%string) (Some "a/"%string) "a/b/c" = Some "a/b/"%string.
Proof. reflexivity. Qed.

(** Two characters of a delimiter, but one of them in the prefix. *)
Example squashed_cut : squashed (Some "--"%string) None "a--b" = Some "a-"%string.
Proof. reflexivity. Qed.

Example page_squashes :
  let l := ["a"; "b/1"; "b/2"; "b/3"; "c"]%string in
  fill 2 (Some "/"%string) None 10 (read_page l 2) id = Ok (["a"], ["b/"], "b/3")%string.
Proof. vm_compute. reflexivity. Qed.
