(* ===== verification/BlobPagesSpec.v ===== *)
(** * BlobPagesSpec: what a page of blobs holds

    The reference: of a sorted list, the items whose names are not squashed and the
    prefixes of the others, each once. A page holds those of the longest part from
    the start that has at most as many entries as asked for ([fill_correct]). *)

From S2P Require Import Prelude Errors Loki BlobPages.
From Stdlib Require String.
Open Scope Z_scope.
Open Scope azurite_scope.

(** ** Strings *)

Abbreviation sub := String.substring.
Abbreviation len := String.length.

Lemma app_cons c (s t : string) : String c s +:+ t = String c (s +:+ t).
Proof. done. Qed.

Lemma sapp_assoc (s t u : string) : s +:+ t +:+ u = (s +:+ t) +:+ u.
Proof. induction s as [|c s IH]; [done|]. by rewrite !app_cons, IH. Qed.

Lemma len_app (s t : string) : len (s +:+ t) = (len s + len t)%nat.
Proof. induction s as [|c s IH]; [done|]. rewrite app_cons. cbn. by rewrite IH. Qed.

Lemma sub_app m k (s t : string) : (m + k <= len s)%nat -> sub m k (s +:+ t) = sub m k s.
Proof.
  revert m k. induction s as [|c s IH]; intros m k H; cbn in H.
  - by assert (m = 0%nat) as -> by lia; assert (k = 0%nat) as -> by lia; destruct t.
  - rewrite app_cons. destruct m as [|m], k as [|k]; cbn; [done|f_equal|..]; apply IH; lia.
Qed.

Lemma sub_all (s t : string) : sub 0 (len s) (s +:+ t) = s.
Proof. induction s as [|c s IH]; [by destruct t|]. rewrite app_cons. cbn. by rewrite IH. Qed.

Lemma sub_past m k (s t : string) : sub (len s + m) k (s +:+ t) = sub m k t.
Proof. induction s as [|c s IH]; [done|]. by rewrite app_cons. Qed.

Lemma len_sub m k (s : string) : (len (sub m k s) <= k)%nat.
Proof.
  revert m k. induction s as [|c s IH]; intros [|m] [|k]; cbn; try lia.
  - specialize (IH 0%nat k). lia.
  - apply (IH m 0%nat).
  - apply IH.
Qed.

Lemma len_sub_le m k (s : string) : (len (sub m k s) <= len s - m)%nat.
Proof.
  revert m k. induction s as [|c s IH]; intros [|m] [|k]; cbn; try lia.
  - specialize (IH 0%nat k). lia.
  - apply (IH m 0%nat).
  - apply (IH m (S k)).
Qed.

Lemma len_sub0 k (s : string) : (k <= len s)%nat -> len (sub 0 k s) = k.
Proof. revert k. induction s as [|c s IH]; intros [|k] Hk; cbn in *; try lia. rewrite IH; lia. Qed.

Lemma sub_sub j k (s : string) : (j <= k)%nat -> sub 0 j (sub 0 k s) = sub 0 j s.
Proof. revert j k. induction s as [|c s IH]; intros [|j] [|k] Hk; cbn; try done; try lia. rewrite IH; [done|lia]. Qed.

(** A string that has [d] at [i]. *)
Lemma sub_occurs i (d s : string) :
  d <> EmptyString -> sub i (len d) s = d -> exists t, s = sub 0 i s +:+ d +:+ t /\ len (sub 0 i s) = i.
Proof.
  intros Hd. revert s. induction i as [|i IH]; intros s Hs.
  - cbn. assert (Hz : sub 0 0 s = EmptyString) by by destruct s. rewrite Hz. cbn.
    clear Hz Hd. revert s Hs. induction d as [|c d IH]; intros s Hs; cbn in Hs |- *; [by exists s|].
    destruct s as [|c' s]; [done|]. injection Hs as -> Hs. destruct (IH s Hs) as (t&->&_). by exists t.
  - destruct s as [|c s]; [cbn in Hs; by destruct d|]. destruct (IH s) as (t&Ht&Hl).
    + destruct d; exact Hs.
    + exists t. cbn. rewrite app_cons, <- Ht. by rewrite Hl.
Qed.

Lemma index_ge n (d s : string) m : String.index n d s = Some m -> (n <= m)%nat.
Proof.
  revert n m. induction s as [|c s IH]; intros [|n] m H; cbn in H; try lia; try done.
  destruct (String.index n d s) eqn:E; [|done]. injection H as <-. apply IH in E. lia.
Qed.

(** What is between two strings that start with [w] starts with it. *)
Lemma between_prefix (w s t b : string) :
  String.ltb (w +:+ s) b = true -> String.ltb b (w +:+ t) = true -> exists u, b = w +:+ u.
Proof.
  revert b. induction w as [|c w IH]; intros b H1 H2; [by exists b|].
  rewrite !app_cons in *. destruct b as [|c' b]; [done|]. unfold String.ltb in *. cbn in H1, H2.
  destruct (Ascii.compare c c') eqn:Ec; [|exfalso|done].
  - apply Ascii.compare_eq_iff in Ec as <-. assert (Ascii.compare c c = Eq) as E by (unfold Ascii.compare; apply N.compare_refl). rewrite E in H2.
    destruct (IH b H1 H2) as [u ->]. by exists u; rewrite app_cons.
  - rewrite Ascii.compare_antisym, Ec in H2. done.
Qed.

Lemma ltb_irrefl (s : string) : String.ltb s s = false.
Proof. rewrite string_ltb_leb. assert (String.leb s s = true) as -> by (destruct (String.leb_total s s); done). done. Qed.

Lemma ltb_trans (a b c : string) : String.ltb a b = true -> String.ltb b c = true -> String.ltb a c = true.
Proof.
  rewrite !string_ltb_leb, !negb_true_iff. intros H1 H2. destruct (String.leb c a) eqn:H; [|done].
  destruct (String.leb_total a b) as [Hab|Hba]; [|congruence].
  by rewrite (string_leb_trans _ _ _ H Hab) in H2.
Qed.

Lemma ltb_asym (a b : string) : String.ltb a b = true -> String.ltb b a = false.
Proof. intros H. destruct (String.ltb b a) eqn:E; [|done]. by rewrite <- (ltb_irrefl a), (ltb_trans a b a). Qed.

(** ** What is squashed *)

Section Squash.
Context (delimiter prefix : option string) (Hdel : delimiter <> Some EmptyString).
Abbreviation squashed := (squashed delimiter prefix).

Lemma squashed_shape a p :
  squashed a = Some p ->
  exists d x t, delimiter = Some d /\ a = x +:+ d +:+ t /\ p = sub 0 (len x + 1) a /\ (len p = len x + 1)%nat /\
    (prefixLength prefix <= len x)%nat /\
    forall i, (prefixLength prefix <= i < len x)%nat -> sub i (len d) a <> d.
Proof.
  unfold BlobPages.squashed. destruct delimiter as [d|]; [|done].
  destruct (String.index _ d a) as [i|] eqn:Hi; [|done]. intros [= <-].
  pose proof (String.index_correct1 _ _ _ _ Hi) as Ho. pose proof (index_ge _ _ _ _ Hi) as Hge.
  destruct (sub_occurs i d a) as (t&Ha&Hl); [congruence|done|]. exists d, (sub 0 i a), t. rewrite Hl.
  split_and!; [done..| |done|].
  - assert (Hd : (1 <= len d)%nat) by (destruct d; [congruence|cbn; lia]).
    apply len_sub0. rewrite Ha, !len_app, Hl. lia.
  - intros j Hj. by apply (String.index_correct2 _ _ _ _ Hi); lia.
Qed.

(** The names that are squashed into one prefix have no other between them. *)
Lemma squashed_between a b c p :
  squashed a = Some p -> squashed c = Some p -> String.ltb a b = true -> String.ltb b c = true ->
  squashed b = Some p.
Proof.
  intros Ha Hc Hab Hbc.
  destruct (squashed_shape a p Ha) as (d&x&t&Hd&Ea&Ep&Hlp&Hpl&Hno).
  destruct (squashed_shape c p Hc) as (d'&x'&t'&Hd'&Ec&Ep'&Hlp'&_&_).
  assert (d' = d) as -> by congruence. assert (Hx : len x' = len x) by lia.
  assert (x' = x) as ->.
  { rewrite <- (sub_all x (d +:+ t)), <- (sub_all x' (d +:+ t')), <- Ea, <- Ec, Hx.
    by rewrite <- (sub_sub (len x) (len x + 1) c), <- (sub_sub (len x) (len x + 1) a), <- Ep, <- Hx, <- Ep' by lia. }
  clear Hx Hlp' Ep'. rewrite Ea, sapp_assoc in Hab. rewrite Ec, sapp_assoc in Hbc.
  destruct (between_prefix _ _ _ _ Hab Hbc) as [u Eb].
  assert (Hin : forall i, (i <= len x)%nat -> sub i (len d) b = sub i (len d) a).
  { intros i Hi. rewrite Eb, Ea, (sapp_assoc x d t), !(sub_app i (len d) (x +:+ d)) by (rewrite len_app; lia). done. }
  assert (Hoc : sub (len x) (len d) b = d).
  { rewrite Hin, Ea by lia. replace (len x) with (len x + 0)%nat by lia. by rewrite sub_past, sub_all. }
  assert (Hdn : (1 <= len d)%nat) by (destruct d; [congruence|cbn; lia]).
  unfold BlobPages.squashed. rewrite Hd. destruct (String.index _ d b) as [i|] eqn:Hi.
  - assert (i = len x) as ->.
    { pose proof (index_ge _ _ _ _ Hi). pose proof (String.index_correct1 _ _ _ _ Hi) as H1.
      destruct (Nat.lt_trichotomy i (len x)) as [Hlt|[?|Hgt]]; [|done|].
      - destruct (Hno i); [lia|]. by rewrite <- Hin by lia.
      - by destruct (String.index_correct2 _ _ _ _ Hi (len x)). }
    rewrite Ep. f_equal. rewrite Eb, Ea, (sapp_assoc x d t), !(sub_app 0 (len x + 1) (x +:+ d)) by (rewrite len_app; lia). done.
  - destruct (String.index_correct3 _ (len x) _ _ Hi); [congruence|done|done].
Qed.
End Squash.

(** ** The reference *)

Section Reference.
Context {A : Type} (name : A -> string) (delimiter prefix : option string).
Abbreviation squashed := (squashed delimiter prefix).
Implicit Types (l : list A).

(** The entries of a list: its items, and its prefixes once. *)
Definition items_of l : list A := filter (fun a => squashed (name a) = None) l.
Definition prefixes_of l : list string :=
  foldl (fun s a => match squashed (name a) with Some p => set_add p s | None => s end) [] l.
Definition entries l : nat := (length (items_of l) + length (prefixes_of l))%nat.

Lemma entries_sum l : (length (items_of l) + length (prefixes_of l))%nat = entries l.
Proof. done. Qed.

Lemma items_of_snoc l a :
  items_of (l ++ [a]) = items_of l ++ match squashed (name a) with Some _ => [] | None => [a] end.
Proof.
  unfold items_of. rewrite filter_app. f_equal. rewrite filter_cons. destruct (squashed (name a)) eqn:E.
  - by rewrite decide_False by congruence.
  - by rewrite decide_True by done.
Qed.

Lemma prefixes_of_snoc l a :
  prefixes_of (l ++ [a])
  = match squashed (name a) with Some p => set_add p (prefixes_of l) | None => prefixes_of l end.
Proof. unfold prefixes_of. by rewrite foldl_app. Qed.

Lemma elem_of_set_add x y (l : list string) : x ∈ set_add y l <-> x = y \/ x ∈ l.
Proof. unfold set_add. case_bool_decide; set_solver. Qed.

Lemma elem_of_prefixes p l : p ∈ prefixes_of l <-> exists a, a ∈ l /\ squashed (name a) = Some p.
Proof.
  induction l as [|a l IH] using rev_ind; [set_solver|]. rewrite prefixes_of_snoc.
  destruct (squashed (name a)) as [q|] eqn:E; rewrite ?elem_of_set_add, IH; split.
  - intros [->|(b&Hb&Hp)]; [exists a|exists b]; set_solver.
  - intros (b&[Hb|Hb%list_elem_of_singleton]%elem_of_app&Hp); [right; by exists b|left; congruence].
  - intros (b&Hb&Hp). exists b. set_solver.
  - intros (b&[Hb|Hb%list_elem_of_singleton]%elem_of_app&Hp); [by exists b|congruence].
Qed.

Lemma prefixes_NoDup l : NoDup (prefixes_of l).
Proof.
  induction l as [|a l IH] using rev_ind; [constructor|]. rewrite prefixes_of_snoc.
  destruct (squashed (name a)); [|done]. unfold set_add. case_bool_decide; [done|].
  apply NoDup_app. split_and!; [done|set_solver|apply NoDup_singleton].
Qed.

(** Apart from each other, two lists have the prefixes of both. *)
Lemma prefixes_of_app l1 l2 :
  (forall p, p ∈ prefixes_of l1 -> p ∈ prefixes_of l2 -> False) ->
  prefixes_of (l1 ++ l2) = prefixes_of l1 ++ prefixes_of l2.
Proof.
  induction l2 as [|a l2 IH] using rev_ind; intros Hdis; [by rewrite !app_nil_r|].
  rewrite (app_assoc l1), !prefixes_of_snoc in *.
  destruct (squashed (name a)) as [p|] eqn:E; [|by apply IH].
  rewrite IH by (intros q H1 H2; apply (Hdis q H1), elem_of_set_add; by right).
  unfold set_add. assert (Hp : p ∉ prefixes_of l1) by (intros Hp; apply (Hdis p Hp), elem_of_set_add; by left).
  case_bool_decide as H1; case_bool_decide as H2; [done|set_solver..|by rewrite app_assoc].
Qed.

Lemma entries_snoc l a :
  entries (l ++ [a])
  = (entries l + match squashed (name a) with
                 | None => 1
                 | Some p => if bool_decide (p ∈ prefixes_of l) then 0 else 1
                 end)%nat.
Proof.
  unfold entries. rewrite items_of_snoc, prefixes_of_snoc, length_app.
  destruct (squashed (name a)); unfold set_add; [case_bool_decide|]; rewrite ?length_app; cbn; lia.
Qed.

Definition sorted l : Prop := StronglySorted (fun a b => String.ltb (name a) (name b) = true) l.

Lemma sorted_app l1 l2 a b : sorted (l1 ++ l2) -> a ∈ l1 -> b ∈ l2 -> String.ltb (name a) (name b) = true.
Proof. intros Hs Ha Hb. exact (StronglySorted_app_1_elem_of _ _ _ _ _ Hs Ha Hb). Qed.

(** A page: the longest part from the start with at most [n] entries. *)
Record page_of (n : nat) (l l1 l2 : list A) : Prop := {
  po_split : l = l1 ++ l2;
  po_fits : (entries l1 <= n)%nat;
  po_longest a : head l2 = Some a -> (n < entries (l1 ++ [a]))%nat
}.

Context (Hdel : delimiter <> Some EmptyString).

(** An item ends the prefixes before it. *)
Lemma item_closes l a b :
  sorted (l ++ [a; b]) -> squashed (name a) = None -> entries (l ++ [a; b]) = S (entries (l ++ [a])).
Proof.
  intros Hs Ha. replace (l ++ [a; b]) with ((l ++ [a]) ++ [b]) in * by by rewrite <- app_assoc.
  rewrite entries_snoc. destruct (squashed (name b)) as [p|] eqn:Hb; [|lia].
  case_bool_decide as Hp; [|lia]. apply elem_of_prefixes in Hp as (c&Hc&Hcp).
  apply elem_of_app in Hc as [Hc|Hc%list_elem_of_singleton]; [|congruence].
  assert (squashed (name a) = Some p); [|congruence].
  apply (squashed_between delimiter prefix Hdel (name c) (name a) (name b)); try done.
  - rewrite <- app_assoc in Hs. apply (sorted_app l ([a] ++ [b])); [done..|set_solver].
  - apply (sorted_app (l ++ [a]) [b]); set_solver.
Qed.

(** The prefixes after a page are not those on it. *)
Lemma page_prefixes n l l1 l2 : sorted l -> page_of n l l1 l2 -> prefixes_of l = prefixes_of l1 ++ prefixes_of l2.
Proof.
  intros Hs [-> Hf Hl]. apply prefixes_of_app. intros p (b&Hb&Hbp)%elem_of_prefixes (c&Hc&Hcp)%elem_of_prefixes.
  destruct l2 as [|a l2]; [by apply elem_of_nil in Hc|]. specialize (Hl a eq_refl).
  rewrite entries_snoc in Hl. assert (Ha : squashed (name a) = Some p).
  { apply elem_of_cons in Hc as [->|Hc]; [done|].
    apply (squashed_between delimiter prefix Hdel (name b) (name a) (name c)); try done.
    - apply (sorted_app l1 (a :: l2)); [done..|set_solver].
    - replace (l1 ++ a :: l2) with ((l1 ++ [a]) ++ l2) in Hs by by rewrite <- app_assoc.
      apply (sorted_app (l1 ++ [a]) l2); set_solver. }
  rewrite Ha, bool_decide_eq_true_2 in Hl; [lia|]. apply elem_of_prefixes. by exists b.
Qed.
End Reference.

(** ** Filling a page *)

Section Fill.
Context {A : Type} (name : A -> string) (delimiter prefix : option string) (n : nat).
Context (Hdel : delimiter <> Some EmptyString) (Hn : (0 < n)%nat).
Abbreviation squashed := (squashed delimiter prefix).
Abbreviation items_of := (items_of name delimiter prefix).
Abbreviation prefixes_of := (prefixes_of name delimiter prefix).
Abbreviation entries := (entries name delimiter prefix).
Abbreviation sorted := (sorted name).
Abbreviation add := (add (Z.of_nat n) delimiter prefix).
Abbreviation processList := (processList (Z.of_nat n) delimiter prefix).
Implicit Types (l : list A) (p : PageWithDelimiter A).

Definition last_name l : string := default EmptyString (name <$> last l).

(** The page has the list [l]. *)
Record holds_list l p : Prop := {
  hl_items : p.(blobItems) = items_of l;
  hl_prefixes : p.(blobPrefixes) = prefixes_of l;
  hl_marker : p.(latestMarker) = last_name l;
  hl_fits : (entries l <= n)%nat
}.

(** It takes more, or what comes next does not fit. *)
Definition open l p : Prop := p.(isExhausted) = false /\ p.(isFull) = bool_decide (entries l = n).
Definition closed l p : Prop :=
  p.(isExhausted) = true /\ forall a, sorted (l ++ [a]) -> (n < entries (l ++ [a]))%nat.

Lemma last_name_snoc l a : last_name (l ++ [a]) = name a.
Proof. unfold last_name. by rewrite last_snoc. Qed.

Lemma is_full l : (Z.of_nat (length (items_of l)) + Z.of_nat (length (prefixes_of l)) =? Z.of_nat n) = bool_decide (entries l = n).
Proof. rewrite <- Nat2Z.inj_add, entries_sum. case_bool_decide as H; [apply Z.eqb_eq|apply Z.eqb_neq]; lia. Qed.

Lemma add_step l p a :
  sorted (l ++ [a]) -> (forall b, b ∈ l ++ [a] -> name b <> EmptyString) -> holds_list l p -> open l p ->
  exists added p', add (name a) a p = Ok (added, p') /\
    if added then
      holds_list (l ++ [a]) p' /\
      (open (l ++ [a]) p' \/ (squashed (name a) = None /\ entries (l ++ [a]) = n /\ p'.(isExhausted) = true))
    else holds_list l p' /\ p'.(isExhausted) = true /\ (n < entries (l ++ [a]))%nat.
Proof.
  intros Hs Hne [Hi Hp Hm Hf] [He Hfull]. unfold BlobPages.add. rewrite He.
  assert (Hlt : String.ltb p.(latestMarker) (name a) = true).
  { rewrite Hm. unfold last_name. destruct (last l) as [b|] eqn:Hb; cbn.
    - apply last_Some in Hb as [l' ->]. apply (sorted_app name (l' ++ [b]) [a]); set_solver.
    - destruct (name a) eqn:Ha; [|done]. destruct (Hne a); set_solver. }
  rewrite (ltb_asym _ _ Hlt), Hlt. cbn [negb].
  pose proof (entries_snoc name delimiter prefix l a) as Hent.
  destruct (squashed (name a)) as [q|] eqn:Hq; cbn [addItem addPrefix].
  - unfold addPrefix. rewrite He, Hfull. destruct (bool_decide (entries l = n)) eqn:Hen;
      [apply bool_decide_eq_true in Hen|apply bool_decide_eq_false in Hen].
    + rewrite Hp. destruct (bool_decide (q ∈ prefixes_of l)) eqn:Hin.
      * eexists true, _. split; [done|]. rewrite Nat.add_0_r in Hent. split; [split|left; split]; cbn.
        all: rewrite ?items_of_snoc, ?prefixes_of_snoc, ?Hq, ?last_name_snoc, ?app_nil_r; try done.
        -- unfold set_add. by rewrite Hin.
        -- lia.
        -- by rewrite Hi, Hp, is_full, Hent.
      * eexists false, _. split; [done|]. split; [by split|]. split; [done|lia].
    + eexists true, _. split; [done|]. assert (Hle : (entries (l ++ [a]) <= n)%nat) by (destruct (bool_decide _); lia).
      split; [split|left; split]; cbn.
      all: rewrite ?last_name_snoc; try done.
      * by rewrite items_of_snoc, Hq, app_nil_r.
      * by rewrite prefixes_of_snoc, Hq, Hp.
      * assert (set_add q p.(blobPrefixes) = prefixes_of (l ++ [a])) as -> by by rewrite prefixes_of_snoc, Hq, Hp.
        assert (p.(blobItems) = items_of (l ++ [a])) as -> by by rewrite items_of_snoc, Hq, app_nil_r.
        by rewrite is_full.
  - unfold addItem. rewrite He, Hfull. case_bool_decide as Hen; cbn.
    + eexists false, _. split; [done|]. split; [by split|]. cbn. rewrite Hi, Hp, is_full.
      rewrite bool_decide_eq_true_2 by done. split; [done|lia].
    + eexists true, _. split; [done|].
      assert (p.(blobItems) ++ [a] = items_of (l ++ [a])) as -> by by rewrite items_of_snoc, Hq, Hi.
      assert (p.(blobPrefixes) = prefixes_of (l ++ [a])) as -> by by rewrite prefixes_of_snoc, Hq, Hp.
      rewrite is_full. split; [split; cbn; [done..|by rewrite last_name_snoc|lia]|].
      destruct (decide (entries (l ++ [a]) = n)) as [E|E].
      * right. by rewrite bool_decide_eq_true_2.
      * left. split; cbn; [by rewrite bool_decide_eq_false_2|done].
Qed.

(** What comes next does not fit on the page. *)
Definition stops l1 l2 : Prop := forall a, head l2 = Some a -> (n < entries (l1 ++ [a]))%nat.

Lemma processList_correct docs rest l p :
  sorted (l ++ docs ++ rest) -> (forall b, b ∈ l ++ docs ++ rest -> name b <> EmptyString) ->
  holds_list l p -> open l p ->
  exists k p', processList docs name p = Ok (k, p') /\ (k <= length docs)%nat /\
    holds_list (l ++ take k docs) p' /\
    ((open (l ++ take k docs) p' /\ k = length docs)
     \/ (p'.(isExhausted) = true /\ stops (l ++ take k docs) (drop k docs ++ rest))).
Proof.
  revert l p. induction docs as [|a docs IH]; intros l p Hs Hne Hh Ho; cbn [BlobPages.processList].
  { exists 0%nat, p. cbn. rewrite app_nil_r. split_and!; [done|done|done|by left]. }
  assert (Hs1 : sorted (l ++ [a])).
  { replace (l ++ (a :: docs) ++ rest) with ((l ++ [a]) ++ docs ++ rest) in Hs by by rewrite <- app_assoc.
    by eapply StronglySorted_app_1_l. }
  destruct (add_step l p a) as (added&p'&Hadd&Hafter); [done|set_solver|done|done|].
  rewrite Hadd. cbn [mbind result_bind]. destruct added.
  - destruct Hafter as [Hh' [Ho'|(Hq&Hen&He)]].
    + rewrite (proj1 Ho').
      destruct (IH (l ++ [a]) p') as (k&p''&Hk&Hle&Hh''&Hend); [by rewrite <- app_assoc|set_solver|done|done|].
      rewrite Hk. exists (S k), p''. cbn. rewrite <- app_assoc in Hh'', Hend. split_and!; [done|lia|done|].
      destruct Hend as [[H1 H2]|H2]; [left; split; [done|lia]|by right].
    + rewrite He. exists 1%nat, p'. cbn. rewrite take_0, drop_0. split_and!; [done|lia|done|].
      right. split; [done|]. intros b Hb. rewrite <- app_assoc. change ([a] ++ [b]) with [a; b]. rewrite (item_closes name delimiter prefix Hdel l a b).
      * cbn. lia.
      * destruct (docs ++ rest) as [|b' r] eqn:Hr; [done|]. injection Hb as ->. cbn in Hs. rewrite Hr in Hs.
        replace (l ++ a :: b :: r) with ((l ++ [a; b]) ++ r) in Hs by by rewrite <- app_assoc.
        by eapply StronglySorted_app_1_l.
      * done.
  - destruct Hafter as (Hh'&He&Hgt). rewrite He. exists 0%nat, p'. cbn. rewrite app_nil_r.
    split_and!; [done|lia|done|]. right. split; [done|]. by intros b [= <-].
Qed.

Lemma fill_loop_correct fuel l l1 l2 added p :
  sorted l -> (forall b, b ∈ l -> name b <> EmptyString) -> l = l1 ++ l2 -> (length l2 < fuel)%nat ->
  holds_list l1 p -> (open l1 p \/ (p.(isExhausted) = true /\ stops l1 l2)) ->
  exists k m p' l1' l2',
    fill_loop (Z.of_nat n) delimiter prefix fuel (read_page l (Z.of_nat n)) name (length l1) added p
    = Ok (k, m, p') /\
    page_of name delimiter prefix n l l1' l2' /\ holds_list l1' p' /\ (Nat.ltb k m = true <-> l2' <> []).
Proof.
  revert l1 l2 added p. induction fuel as [|fuel IH]; intros l1 l2 added p Hs Hne Hl Hfuel Hh Hop; [lia|].
  cbn [fill_loop].
  assert (read_page l (Z.of_nat n) (length l1) = take n l2) as ->
    by (unfold read_page; by rewrite Nat2Z.id, Hl, drop_app_length).
  destruct (decide (l2 = [])) as [->|Hl2]; [rewrite take_nil|].
  { exists added, 0%nat, p, l1, []. split_and!; [done| |done|].
    - split; [done|apply Hh|done].
    - split; [rewrite Nat.ltb_lt; lia|done]. }
  destruct (take n l2) as [|a' docs'] eqn:Hd; [destruct n, l2; (done || lia)|]. rewrite <- Hd.
  assert (Hlen : (length (take n l2) <= n)%nat) by (rewrite length_take; lia).
  assert (Hlen0 : (0 < length (take n l2))%nat) by (rewrite Hd; cbn; lia).
  destruct Hop as [Hop|[He Hstop]].
  - destruct (processList_correct (take n l2) (drop n l2) l1 p) as (k&p'&Hk&Hle&Hh'&Hend); [by rewrite take_drop, <- Hl..|done|done|].
    rewrite Hk. cbn [mbind result_bind fst snd]. rewrite take_take, Nat.min_l in Hh', Hend by lia.
    assert (Hrest : drop k (take n l2) ++ drop n l2 = drop k l2).
    { rewrite <- (take_drop n l2) at 3. by rewrite drop_app_le. }
    rewrite Hrest in Hend. assert (Hl' : l = (l1 ++ take k l2) ++ drop k l2) by (by rewrite <- app_assoc, take_drop).
    destruct (Z.ltb_spec (Z.of_nat k) (Z.of_nat n)).
    + exists k, (length (take n l2)), p', (l1 ++ take k l2), (drop k l2).
      rewrite length_take in *. split_and!; [done| |done|].
      * split; [done|apply Hh'|]. destruct Hend as [[_ ->]|[_ Hst]]; [|done]. rewrite drop_ge by lia. done.
      * rewrite Nat.ltb_lt. split.
        -- intros Hkm Hnil. apply (f_equal length) in Hnil. rewrite length_drop in Hnil. cbn in Hnil. lia.
        -- intros Hnil. destruct (decide (k < n `min` length l2)%nat); [done|].
           rewrite drop_ge in Hnil by lia. done.
    + assert (k = n) as -> by lia.
      replace (length l1 + n)%nat with (length (l1 ++ take n l2)) by (rewrite length_app; lia).
      apply (IH _ (drop n l2)); [done|done|done|rewrite length_drop; rewrite length_take in Hlen0; lia|done|].
      destruct Hend as [[? _]|?]; [by left|by right].
  - assert (Hp : processList (take n l2) name p = Ok (0%nat, p)).
    { rewrite Hd. cbn. unfold BlobPages.add. by rewrite He; cbn; rewrite He. }
    rewrite Hp. cbn [mbind result_bind fst snd]. rewrite (proj2 (Z.ltb_lt _ _)) by lia.
    exists 0%nat, (length (take n l2)), p, l1, l2. split_and!; [done| |done|].
    + split; [done|apply Hh|done].
    + rewrite Nat.ltb_lt. split; [done|intros _; lia].
Qed.

(** A page holds the entries of the longest part that fits on it; its marker is
    the last name there, or empty if there is no more. *)
Lemma fill_correct fuel l :
  sorted l -> (forall b, b ∈ l -> name b <> EmptyString) -> (length l < fuel)%nat ->
  exists l1 l2, page_of name delimiter prefix n l l1 l2 /\
    fill (Z.of_nat n) delimiter prefix fuel (read_page l (Z.of_nat n)) name
    = Ok (items_of l1, prefixes_of l1, match l2 with [] => EmptyString | _ => last_name l1 end).
Proof.
  intros Hs Hne Hfuel. unfold fill.
  destruct (fill_loop_correct fuel l [] l 0 empty_page) as (k&m&p&l1&l2&Hf&Hpage&[Hi Hp Hm _]&Hkm);
    [done..| | |].
  - split; [done..|]. cbn. lia.
  - left. split; [done|]. rewrite bool_decide_eq_false_2; [done|]. cbn. lia.
  - exists l1, l2. split; [done|]. cbn [length] in Hf. rewrite Hf. cbn [mbind result_bind]. rewrite Hi, Hp, Hm. do 3 f_equal.
    destruct (Nat.ltb k m), l2; naive_solver.
Qed.
End Fill.

(** ** Any list

    Whatever the order and the names, a page has documents of the list in their order,
    each once. *)

Section Items.
Context {A : Type} (name : A -> string) (delimiter prefix : option string) (n : Z).
Implicit Types (p : PageWithDelimiter A) (l : list A).

Lemma add_items x p added p' :
  BlobPages.add n delimiter prefix (name x) x p = Ok (added, p') ->
  exists l, p'.(blobItems) = p.(blobItems) ++ l /\ l `sublist_of` [x].
Proof.
  unfold BlobPages.add. intros Ha.
  assert (Hadd : forall q, p.(isExhausted) = false ->
    match squashed delimiter prefix (name x) with Some s => addPrefix n s p | None => addItem n x p end = q ->
    exists l, q.2.(blobItems) = p.(blobItems) ++ l /\ l `sublist_of` [x]).
  { intros q He <-. unfold addPrefix, addItem. rewrite He.
    destruct (squashed _ _ _); destruct p.(isFull); cbn; first
      [exists []; by rewrite app_nil_r; split; [|apply sublist_nil_l]|by exists [x]]. }
  destruct p.(isExhausted) eqn:He; [injection Ha as <- <-; exists []; rewrite app_nil_r; split; [done|apply sublist_nil_l]|].
  destruct (String.ltb _ _); [done|]. destruct (match squashed _ _ _ with Some _ => _ | None => _ end) as [b q] eqn:Hq.
  destruct (Hadd _ eq_refl eq_refl) as (l&Hl&Hs). exists l. injection Ha as <- <-. by destruct b.
Qed.

Lemma processList_items l p k p' :
  processList n delimiter prefix l name p = Ok (k, p') ->
  (k <= length l)%nat /\ exists l', p'.(blobItems) = p.(blobItems) ++ l' /\ l' `sublist_of` l.
Proof.
  revert p k p'. induction l as [|x l IH]; intros p k p' Hp; cbn in Hp.
  { injection Hp as <- <-. split; [done|]. exists []. by rewrite app_nil_r. }
  destruct (BlobPages.add _ _ _ _ _ p) as [[b q]|] eqn:Ha; [|done]. cbn in Hp.
  destruct (add_items _ _ _ _ Ha) as (l1&H1&S1). destruct q.(isExhausted).
  - injection Hp as <- <-. split; [destruct b; cbn; lia|]. exists l1. split; [done|].
    etrans; [exact S1|]. apply sublist_skip, sublist_nil_l.
  - destruct (processList _ _ _ l _ q) as [[j r]|] eqn:Hr; [|done]. injection Hp as <- <-.
    destruct (IH _ _ _ Hr) as (Hj&l2&H2&S2). split; [cbn; destruct b; lia|]. exists (l1 ++ l2).
    split; [by rewrite H2, H1, app_assoc|]. by apply (sublist_app l1 [x]).
Qed.

Lemma fill_loop_items fuel l offset added p k m p' :
  p.(blobItems) `sublist_of` take offset l ->
  fill_loop n delimiter prefix fuel (read_page l n) name offset added p = Ok (k, m, p') ->
  p'.(blobItems) `sublist_of` l.
Proof.
  revert offset added p. induction fuel as [|fuel IH]; intros offset added p Hs Hf; [done|]. cbn [fill_loop] in Hf.
  destruct (read_page l n offset) as [|x docs] eqn:Hd.
  { injection Hf as <- <- <-. etrans; [exact Hs|apply sublist_take]. }
  rewrite <- Hd in Hf. assert (Hn : 0 < n).
  { unfold read_page in Hd. destruct (Z.to_nat n) eqn:E; [done|lia]. }
  destruct (processList _ _ _ (read_page l n offset) _ p) as [[j q]|] eqn:Hr; [|done]. cbn [mbind result_bind fst snd] in Hf.
  destruct (processList_items _ _ _ _ Hr) as (Hj&l1&H1&S1).
  assert (Hq : q.(blobItems) `sublist_of` take (offset + Z.to_nat n) l).
  { rewrite H1, <- take_take_drop. by apply sublist_app. }
  destruct (Z.ltb_spec (Z.of_nat j) n).
  - injection Hf as <- <- <-. etrans; [exact Hq|apply sublist_take].
  - assert (j = Z.to_nat n) as -> by (unfold read_page in Hj; rewrite length_take in Hj; lia). by eapply IH.
Qed.

Lemma fill_items fuel l items prefixes marker :
  fill n delimiter prefix fuel (read_page l n) name = Ok (items, prefixes, marker) -> items `sublist_of` l.
Proof.
  unfold fill. intros Hf. destruct (fill_loop _ _ _ _ _ _ _ _ _) as [[[k m] p]|] eqn:Hl; [|done].
  cbn [mbind result_bind] in Hf. assert (p.(blobItems) = items) as <- by congruence.
  eapply fill_loop_items; [|exact Hl]. apply sublist_nil_l.
Qed.
End Items.
