(* ===== verification/BlobLists.v ===== *)
(** * BlobLists: lists of blobs and searches by tags

    [listBlobs] and [filterBlobs] of src/src/blob/persistence/LokiBlobMetadataStore.ts, and
    what src/src/blob/utils/utils.ts does with their results. The regular expression of
    a prefix, escaped, accepts the names that start with it. Pages get as fuel more
    than the number of documents. *)

From S2P Require Import Prelude Errors Loki Texts JsValues TagQuery Conditions Lease BlobModels BlobContainers BlobStore BlobPages.
Open Scope Z_scope.
Open Scope azurite_scope.

(** [{...}[k] = v] of an element of a result. *)
Definition tag_value_of (v : TagValue) : JsValues.value :=
  match v with
  | Undefined => VUndefined
  | Str s => VStr (js s)
  | Inherited image => VNative (js image)
  end.

(** The key [undefined] is the property of that name. *)
Definition toBlobTags (input : list TagContent) : JsValues.object :=
  foldl (fun tags element =>
           if element.(TagQuery.key) === Some "@container"%string then tags
           else assign (js (default "undefined"%string element.(TagQuery.key)))
                  (tag_value_of element.(TagQuery.value)) tags)
    [] input.

(** [FilterBlobModel] in the result of a search. *)
Record FoundBlob := mkFoundBlob {
  fb_name : string;
  fb_containerName : string;
  fb_tags : JsValues.object
}.

(** [s.substring(a, b)], in either order. *)
Definition substring (a b : nat) (s : string) : string :=
  String.substring (Nat.min a b) (Nat.max a b - Nat.min a b) s.

(** The etag between its quotation marks. *)
Definition removeQuotationFromListBlobEtag (inputEtag : string) : string :=
  let quote := Ascii.ascii_of_nat 34 in
  match inputEtag, String.get (String.length inputEtag - 1) inputEtag with
  | String first _, Some last =>
      if Ascii.eqb first quote && Ascii.eqb last quote
      then substring 1 (String.length inputEtag - 1) inputEtag
      else inputEtag
  | _, _ => inputEtag
  end.

Section Lists.
Context {coll : Type -> Type} `{Loki coll} {P : Type}.
Abbreviation store := (proc (BlobDb coll P) exn).

(** The lease fields of the blobs on a page are brought up to date. *)
Fixpoint settle_blobs (ctx : BlobContext) (ds : list (Z * BlobModel)) : store (list BlobModel) :=
  match ds with
  | [] => mret []
  | (i, doc) :: ds =>
      let (l, f) := BlobLeaseAdapter doc.(b_lease) in
      _ ← save_blob i (with_lease f doc);
      st ← lift (createLeaseState l (lease_ctx ctx));
      let doc := with_lease (sync st (BlobLeaseSyncer_sync f)) doc in
      _ ← save_blob i doc;
      rest ← settle_blobs ctx ds;
      mret (doc :: rest)
  end.

(** What a list selects. *)
Definition listed (account container : string) (blob : option string) (prefix marker : string)
    (includeSnapshots includeUncommittedBlobs : bool) (b : BlobModel) : bool :=
  in_container account container b
  && (match blob with Some n => b.(b_name) === n | None => String.prefix prefix b.(b_name) end)
  && after_marker marker b.(b_name)
  && (includeSnapshots || (b.(b_snapshot) === EmptyString))
  && (includeUncommittedBlobs || b.(b_isCommitted)).

Definition listBlobs (ctx : BlobContext) (account container : string) (delimiter blob : option string)
    (prefix : string) (maxResults : Z) (marker : string) (includeSnapshots includeUncommittedBlobs : bool) :
    store (list BlobModel * list string * string) :=
  s ← get_state;
  let found := lk_find (fun _ => listed account container blob prefix marker includeSnapshots
                                   includeUncommittedBlobs) s.(blobs) in
  let docs := lk_sort blob_name_le found in
  page ← lift (fill maxResults delimiter (Some prefix) (S (length docs)) (read_page docs maxResults)
                 (fun d => d.2.(b_name)));
  let '(blobItems, blobPrefixes, nextMarker) := page in
  bs ← settle_blobs ctx blobItems;
  mret (bs, blobPrefixes, nextMarker).

(** A page of documents, of which the query selects some. *)
Fixpoint filter_docs (filterFunction : FilterBlobModel -> res (list TagContent)) (docs : list BlobModel) :
    res (list FoundBlob) :=
  match docs with
  | [] => Ok []
  | doc :: docs =>
      tagsMeetConditions ← filterFunction (mkFilterBlobModel doc.(b_containerName) doc.(b_blobTags));
      rest ← filter_docs filterFunction docs;
      Ok (match tagsMeetConditions with
          | [] => rest
          | c => mkFoundBlob doc.(b_name) doc.(b_containerName) (toBlobTags c) :: rest
          end)
  end.

Definition searched (account : string) (container : option string) (marker : string) (b : BlobModel) : bool :=
  (b.(b_accountName) === account)
  && (match container with Some c => b.(b_containerName) === c | None => true end)
  && after_marker marker b.(b_name) && (b.(b_snapshot) === EmptyString).

Definition filterBlobs (ctx : BlobContext) (account : string) (container where_ : option string)
    (maxResults : Z) (marker : string) : store (list FoundBlob * string) :=
  _ ← match container with Some c => checkContainerExist ctx account c | None => mret tt end;
  filterFunction ← lift (generateQueryBlobWithTagsWhereFunction ctx.(bc_contextId) where_ None);
  s ← get_state;
  let docs := (lk_sort blob_name_le (lk_find (fun _ => searched account container marker) s.(blobs))).*2 in
  lift (FilterBlobPage.fill maxResults (S (length docs))
          (fun offset => filter_docs filterFunction (read_page docs maxResults offset)) fb_name).
End Lists.

Example etag_unquoted :
  let quote := String (Ascii.ascii_of_nat 34) EmptyString in
  removeQuotationFromListBlobEtag (quote +:+ "0x1" +:+ quote) = "0x1"%string
  /\ removeQuotationFromListBlobEtag quote = quote.
Proof. by vm_compute. Qed.
