(* ===== verification/ContainerHandlers.v ===== *)
(** * ContainerHandlers: the requests on containers

    src/src/blob/handlers/ContainerHandler.ts over the blob metadata store. The optional
    parameters are arguments, the duration of a lease is given; [endpoint] is that of the
    request. Batches of requests are left out. *)

From S2P Require Import Prelude Errors Loki TagQuery Conditions Lease BlobModels BlobContainers BlobStore BlobPages BlobLists BlobHttp.
Open Scope Z_scope.
Open Scope azurite_scope.

Definition EMULATOR_ACCOUNT_SKUNAME : string := "Standard_RAGRS".
Definition EMULATOR_ACCOUNT_KIND : string := "StorageV2".

(** Etag and time of a container that was written. *)
Record Modified := mkModified { md_eTag : string; md_lastModified : Z }.

(** The policies of a container, with its public access. *)
Record AccessPolicies := mkAccessPolicies {
  aps_identifiers : list AccessPolicy;
  aps_blobPublicAccess : option string;
  aps_modified : Modified
}.

(** The parameters of a list of blobs. *)
Record ListOptions := mkListOptions {
  lo_prefix : option string;
  lo_marker : option string;
  lo_maxresults : option Z;
  lo_include : option (list string);
  lo_requestId : option string
}.

(** A blob in a list, with its snapshot if it is one. *)
Record ListedBlob := mkListedBlob {
  lb_blob : BlobModel;
  lb_snapshot : option string
}.

Record ListSegment := mkListSegment {
  ls_serviceEndpoint : string;
  ls_containerName : string;
  ls_prefix : string;
  ls_marker : string;
  ls_maxResults : Z;
  ls_delimiter : option string;
  ls_blobPrefixes : list string;
  ls_blobItems : list ListedBlob;
  ls_nextMarker : string
}.

Record FilterOptions := mkFilterOptions {
  fo_where : option string;
  fo_marker : option string;
  fo_maxresults : option Z;
  fo_requestId : option string
}.

Record FilterSegment := mkFilterSegment {
  fs_serviceEndpoint : string;
  fs_where : option string;
  fs_blobs : list FoundBlob;
  fs_nextMarker : string
}.

Record AccountInfo := mkAccountInfo {
  ai_skuName : string;
  ai_accountKind : string;
  ai_isHierarchicalNamespaceEnabled : option bool
}.

(** [maxresults === undefined || maxresults > DEFAULT_LIST_BLOBS_MAX_RESULTS]. *)
Definition max_results (maxresults : option Z) : Z :=
  match maxresults with
  | None => DEFAULT_LIST_BLOBS_MAX_RESULTS
  | Some n => if DEFAULT_LIST_BLOBS_MAX_RESULTS <? n then DEFAULT_LIST_BLOBS_MAX_RESULTS else n
  end.

(** [options.include.forEach(...)]: whether it has the item. *)
Definition includes (item : string) (include : option (list string)) : bool :=
  existsb (fun element => toLowerCase element === item) (default [] include).

Definition with_etag (etag : string) (p : BlobProperties) : BlobProperties :=
  touch etag p.(bp_lastModified) p.

(** What a list shows of a blob. *)
Definition listed_blob (includeTags includeMetadata : bool) (item : BlobModel) : ListedBlob :=
  let p := item.(b_properties) in
  let p := with_tagCount (getBlobTagsCount item.(b_blobTags))
             (with_etag (removeQuotationFromListBlobEtag p.(bp_etag)) p) in
  let p := with_tier p.(bp_accessTier)
             (if p.(bp_accessTierInferred) === Some true then Some true else None)
             p.(bp_accessTierChangeTime) p in
  mkListedBlob
    (with_tags (if includeTags then item.(b_blobTags) else None)
       (with_metadata (if includeMetadata then item.(b_metadata) else None) (with_properties p item)))
    (if item.(b_snapshot) === EmptyString then None else Some item.(b_snapshot)).

Definition service_endpoint (endpoint account : string) : string := (endpoint ++ "/" ++ account)%string.

Section Handlers.
Context {coll : Type -> Type} `{Loki coll} {P : Type}.
Abbreviation store := (proc (BlobDb coll P) exn).
Implicit Types (ctx : BlobStorageContext) (env : Env).

(** A response without the time of the request. *)
Definition undated {A} ctx (statusCode : Z) (clientId : option string) (x : A) : Response A :=
  mkResponse x None ctx.(contextId) statusCode clientId.

Definition create env (access clientId : option string) ctx : store (Response Modified) :=
  metadata ← lift (convertRawHeadersToMetadata ctx.(request).(getRawHeaders) ctx.(contextId));
  _ ← createContainer (store_ctx ctx)
        (mkContainer ctx.(ctx_account) ctx.(ctx_container) ctx.(startTime) env.(newEtag) access newBlobLease
           metadata None);
  mret (undated ctx 201 clientId (mkModified env.(newEtag) ctx.(startTime))).

(** The container's document has the properties and the metadata. *)
Definition getProperties (leaseId clientId : option string) ctx : store (Response ContainerModel) :=
  c ← getContainerProperties (store_ctx ctx) ctx.(ctx_account) ctx.(ctx_container) leaseId;
  mret (undated ctx 200 clientId c).

Definition getPropertiesWithHead (leaseId clientId : option string) ctx : store (Response ContainerModel) :=
  getProperties leaseId clientId ctx.

Definition delete_ (leaseId : option string) (mac : option ModifiedAccessConditions) (clientId : option string) ctx :
    store (Response unit) :=
  _ ← deleteContainer (store_ctx ctx) ctx.(ctx_account) ctx.(ctx_container) leaseId mac;
  mret (respond ctx 202 clientId tt).

Definition setMetadata env (leaseId : option string) (mac : option ModifiedAccessConditions)
    (clientId : option string) ctx : store (Response Modified) :=
  metadata ← lift (convertRawHeadersToMetadata ctx.(request).(getRawHeaders) ctx.(contextId));
  _ ← setContainerMetadata (store_ctx ctx) ctx.(ctx_account) ctx.(ctx_container) ctx.(startTime) env.(newEtag)
        metadata leaseId mac;
  mret (respond ctx 200 clientId (mkModified env.(newEtag) ctx.(startTime))).

(** The date of the response is the time of the last change. *)
Definition getAccessPolicy (leaseId clientId : option string) ctx : store (Response AccessPolicies) :=
  r ← getContainerACL (store_ctx ctx) ctx.(ctx_account) ctx.(ctx_container) leaseId;
  let c := r.1 in
  mret (mkResponse
    (mkAccessPolicies (default [] r.2) c.(c_publicAccess) (mkModified c.(c_etag) c.(c_lastModified)))
    (Some c.(c_lastModified)) ctx.(contextId) 200 clientId).

Definition setAccessPolicy env (access : option string) (containerAcl : option (list AccessPolicy))
    (leaseId : option string) (mac : option ModifiedAccessConditions) (clientId : option string) ctx :
    store (Response Modified) :=
  _ ← setContainerACL (store_ctx ctx) ctx.(ctx_account) ctx.(ctx_container) ctx.(startTime) env.(newEtag) access
        containerAcl leaseId mac;
  mret (respond ctx 200 clientId (mkModified env.(newEtag) ctx.(startTime))).

Definition restore ctx : store unit := throw (BlobErrors.NotImplementedError ctx.(contextId)).

Definition filterBlobs (options : FilterOptions) (endpoint : string) ctx : store (Response FilterSegment) :=
  _ ← checkContainerExist (store_ctx ctx) ctx.(ctx_account) ctx.(ctx_container);
  r ← BlobLists.filterBlobs (store_ctx ctx) ctx.(ctx_account) (Some ctx.(ctx_container)) options.(fo_where)
        (max_results options.(fo_maxresults)) (default EmptyString options.(fo_marker));
  mret (respond ctx 200 options.(fo_requestId)
    (mkFilterSegment (service_endpoint endpoint ctx.(ctx_account)) options.(fo_where) r.1 r.2)).

(** ** Leases: the container and the lease id *)

Definition modified_of (c : ContainerModel) : Modified := mkModified c.(c_etag) c.(c_lastModified).

Definition acquireLease env (duration : Z) (proposedLeaseId : option string)
    (mac : option ModifiedAccessConditions) (clientId : option string) ctx :
    store (Response (Modified * option string)) :=
  r ← acquireContainerLease env (store_ctx ctx) ctx.(ctx_account) ctx.(ctx_container) duration proposedLeaseId mac;
  mret (respond ctx 201 clientId (modified_of r.1, r.2)).

Definition releaseLease (leaseId : string) (mac : option ModifiedAccessConditions) (clientId : option string) ctx :
    store (Response Modified) :=
  c ← releaseContainerLease (store_ctx ctx) ctx.(ctx_account) ctx.(ctx_container) leaseId mac;
  mret (respond ctx 200 clientId (modified_of c)).

Definition renewLease (leaseId : string) (mac : option ModifiedAccessConditions) (clientId : option string) ctx :
    store (Response (Modified * option string)) :=
  r ← renewContainerLease (store_ctx ctx) ctx.(ctx_account) ctx.(ctx_container) leaseId mac;
  mret (respond ctx 200 clientId (modified_of r.1, r.2)).

Definition breakLease (breakPeriod : option Z) (mac : option ModifiedAccessConditions) (clientId : option string)
    ctx : store (Response (Modified * Z)) :=
  r ← breakContainerLease (store_ctx ctx) ctx.(ctx_account) ctx.(ctx_container) breakPeriod mac;
  mret (respond ctx 202 clientId (modified_of r.1, r.2)).

Definition changeLease (leaseId proposedLeaseId : string) (mac : option ModifiedAccessConditions)
    (clientId : option string) ctx : store (Response (Modified * option string)) :=
  r ← changeContainerLease (store_ctx ctx) ctx.(ctx_account) ctx.(ctx_container) leaseId proposedLeaseId mac;
  mret (respond ctx 200 clientId (modified_of r.1, r.2)).

(** ** Lists *)

(** What both lists do. *)
Definition list_segment (delimiter : option string) (shown : option string) (options : ListOptions)
    (endpoint : string) ctx : store (Response ListSegment) :=
  _ ← checkContainerExist (store_ctx ctx) ctx.(ctx_account) ctx.(ctx_container);
  let prefix := default EmptyString options.(lo_prefix) in
  let marker := default EmptyString options.(lo_marker) in
  let maxresults := max_results options.(lo_maxresults) in
  r ← listBlobs (store_ctx ctx) ctx.(ctx_account) ctx.(ctx_container) delimiter None prefix maxresults marker
        (includes "snapshots" options.(lo_include)) (includes "uncommittedblobs" options.(lo_include));
  let '(blobItems, blobPrefixes, nextMarker) := r in
  mret (respond ctx 200 options.(lo_requestId)
    (mkListSegment (service_endpoint endpoint ctx.(ctx_account)) ctx.(ctx_container) prefix marker maxresults
       shown blobPrefixes
       (listed_blob (includes "tags" options.(lo_include)) (includes "metadata" options.(lo_include)) <$> blobItems)
       nextMarker)).

(** The flat list has no prefixes: there is no delimiter. *)
Definition listBlobFlatSegment (options : ListOptions) (endpoint : string) ctx : store (Response ListSegment) :=
  list_segment None None options endpoint ctx.

Definition listBlobHierarchySegment (delimiter : string) (options : ListOptions) (endpoint : string) ctx :
    store (Response ListSegment) :=
  list_segment (if delimiter === EmptyString then None else Some delimiter) (Some delimiter) options endpoint ctx.

Definition getAccountInfo ctx : store (Response AccountInfo) :=
  mret (respond ctx 200 (ctx.(request).(getHeader) "x-ms-client-request-id"%string)
    (mkAccountInfo EMULATOR_ACCOUNT_SKUNAME EMULATOR_ACCOUNT_KIND None)).

Definition getAccountInfoWithHead ctx : store (Response AccountInfo) := getAccountInfo ctx.
End Handlers.
