(* ===== verification/BlobListsSpec.v ===== *)
(** * BlobListsSpec: following the pages of a list of blobs

    A client that follows the markers of a list sees every blob that is not in a
    folder and every folder, once and in order ([list_pages_complete]). A page
    changes no more than leases. A search by tags has no such property
    ([search_loses_blobs]). *)

From stdpp Require Import relations.
From S2P Require Import Prelude Errors Loki TagQuery Conditions Lease LeaseSpec BlobModels BlobContainers BlobStore.
From S2P Require Import BlobChanges BlobRefine BlobRequests BlobStoreSpec BlobPages BlobPagesSpec BlobLists BlobHttp ContainerHandlers.
From Stdlib Require Import Ascii.
From Stdlib Require String.
Open Scope Z_scope.
Open Scope azurite_scope.

(** ** Folders *)

(** The string up to the first [c], with it. *)
Fixpoint up_to (c : Ascii.ascii) (s : string) : option string :=
  match s with
  | EmptyString => None
  | String d s => if Ascii.eqb c d then Some (String d EmptyString) else String d <$> up_to c s
  end.

(** The folder below [prefix] a name is in. *)
Definition folder (delimiter : option Ascii.ascii) (prefix name : string) : option string :=
  c ← delimiter;
  f ← up_to c (String.substring (String.length prefix) (String.length name - String.length prefix) name);
  Some (prefix +:+ f).

Definition delimiter_string (delimiter : option Ascii.ascii) : string :=
  match delimiter with Some c => String c EmptyString | None => EmptyString end.

Lemma index_char c s :
  String.index 0 (String c EmptyString) s = pred ∘ String.length <$> up_to c s /\
  forall f, up_to c s = Some f -> f = sub 0 (String.length f) s /\ (0 < String.length f)%nat.
Proof.
  induction s as [|d s [IH1 IH2]]; cbn; [done|]. destruct (Ascii.ascii_dec c d) as [->|Hne].
  - rewrite Ascii.eqb_refl. split; [by destruct s|]. intros f [= <-]. cbn. split; [by destruct s|lia].
  - apply Ascii.eqb_neq in Hne. rewrite Hne, IH1. split.
    + destruct (up_to c s) as [f|]; [|done]. cbn. destruct (IH2 f eq_refl) as [_ Hl]. f_equal. lia.
    + intros f. destruct (up_to c s) as [g|]; [|done]. intros [= <-]. cbn.
      destruct (IH2 g eq_refl) as [Hg _]. split; [by rewrite <- Hg|lia].
Qed.

Lemma index_past n d (p s : string) :
  String.index (String.length p + n) d (p +:+ s) = Nat.add (String.length p) <$> String.index n d s.
Proof.
  induction p as [|c p IH]; [change (EmptyString +:+ s) with s; cbn; by destruct (String.index n d s)|].
  rewrite app_cons. cbn. rewrite IH. by destruct (String.index n d s).
Qed.

Lemma sub_none (s : string) : sub 0 0 s = EmptyString.
Proof. by destruct s. Qed.

Lemma sub_split (p s : string) n : sub 0 (String.length p + n) (p +:+ s) = p +:+ sub 0 n s.
Proof. induction p as [|c p IH]; [done|]. rewrite !app_cons. cbn. by rewrite IH. Qed.

Lemma prefix_split (p s : string) : String.prefix p s = true -> exists r, s = p +:+ r.
Proof.
  revert s. induction p as [|c p IH]; intros s Hp; [by exists s|]. destruct s as [|d s]; [done|]. cbn in Hp.
  destruct (Ascii.ascii_dec c d) as [->|]; [|done]. destruct (IH s Hp) as [r ->]. exists r. by rewrite app_cons.
Qed.

Lemma squashed_folder delimiter pre name :
  String.prefix pre name = true ->
  squashed (if delimiter_string delimiter === EmptyString then None else Some (delimiter_string delimiter)) (Some pre) name
  = folder delimiter pre name.
Proof.
  intros [r ->]%prefix_split. unfold folder, squashed. destruct delimiter as [c|]; cbn [delimiter_string mbind option_bind]; [|done].
  rewrite bool_decide_eq_false_2 by done. cbn [prefixLength]. rewrite len_app.
  replace (String.length pre + String.length r - String.length pre)%nat with (String.length r) by lia.
  rewrite <- (Nat.add_0_r (String.length pre)), sub_past, index_past.
  assert (sub 0 (String.length r) r = r) as ->.
  { clear. induction r as [|c r IH]; cbn; [done|by rewrite IH]. }
  destruct (index_char c r) as [-> Hf]. destruct (up_to c r) as [f|]; [|done]. cbn. f_equal.
  destruct (Hf f eq_refl) as [E Hl]. rewrite <- Nat.add_assoc, sub_split. f_equal.
  rewrite E at 2. f_equal. lia.
Qed.

(** ** The names a list is about *)

Section Names.
Context {coll : Type -> Type} `{LokiLaws coll} {P : Type}.
Abbreviation db := (BlobDb coll P).
Implicit Types (s : db).

(** A base blob of a container, that is committed or may not be. *)
Definition named_in (account container : string) (uncommitted : bool) (prefix : string) s (name : string) : Prop :=
  exists i b, docs s.(blobs) !! i = Some b /\ in_container account container b = true /\
    b.(b_name) = name /\ b.(b_snapshot) = EmptyString /\ (uncommitted = true \/ b.(b_isCommitted) = true) /\
    String.prefix prefix name = true /\ name <> EmptyString.

Abbreviation document := (Z * BlobModel)%type.
Definition name_of (d : document) : string := d.2.(b_name).

(** The sorted documents of a page's source. *)
Definition source (account container prefix marker : string) (uncommitted : bool) s : list document :=
  lk_sort blob_name_le
    (lk_find (fun _ => listed account container None prefix marker false uncommitted) s.(blobs)).

Lemma elem_of_source a c pre m u s i b :
  (i, b) ∈ source a c pre m u s <->
  docs s.(blobs) !! i = Some b /\ listed a c None pre m false u b = true.
Proof. unfold source. by rewrite sort_perm, (elem_find (fun _ => listed a c None pre m false u)). Qed.

Lemma listed_true a c pre m u b :
  listed a c None pre m false u b = true <->
  in_container a c b = true /\ String.prefix pre b.(b_name) = true /\ String.ltb m b.(b_name) = true /\
  b.(b_snapshot) = EmptyString /\ (u = true \/ b.(b_isCommitted) = true).
Proof.
  unfold listed, after_marker. cbn [orb]. rewrite !andb_true_iff, orb_true_iff, bool_decide_eq_true. tauto.
Qed.

Lemma empty_first (n : string) : String.ltb EmptyString n = true <-> n <> EmptyString.
Proof. destruct n; cbn; split; done. Qed.

Lemma after_nonempty m (n : string) : String.ltb m n = true -> n <> EmptyString.
Proof. intros Hm ->. by destruct m. Qed.

(** Its names, in order. *)
Lemma elem_of_names a c pre m u s n :
  n ∈ name_of <$> source a c pre m u s <-> named_in a c u pre s n /\ String.ltb m n = true.
Proof.
  rewrite list_elem_of_fmap. split.
  - intros ([i b]&->&[Hi (H1&H2&H3&H4&H5)%listed_true]%elem_of_source). split; [|done].
    exists i, b. split_and!; try done. by eapply after_nonempty.
  - intros ((i&b&Hi&Hc&<-&Hs&Hu&Hp&_)&Hm). exists (i, b). split; [done|]. apply elem_of_source. split; [done|].
    by apply listed_true.
Qed.

Lemma name_le_total (x y : document) : blob_name_le x y || blob_name_le y x = true.
Proof. unfold blob_name_le. destruct (String.leb_total x.2.(b_name) y.2.(b_name)) as [-> | ->]; [done|apply orb_true_r]. Qed.

Lemma name_le_trans (x y z : document) : blob_name_le x y = true -> blob_name_le y z = true -> blob_name_le x z = true.
Proof. apply string_leb_trans. Qed.

Lemma source_sorted a c pre m u s : store_ok s -> sorted name_of (source a c pre m u s).
Proof.
  intros Hs. unfold source.
  pose proof (sort_sorted blob_name_le (lk_find (fun _ => listed a c None pre m false u) s.(blobs)) name_le_total name_le_trans) as Hst.
  assert (Hnd : NoDup (source a c pre m u s).*1).
  { unfold source. rewrite sort_perm. apply (NoDup_find (fun _ => listed a c None pre m false u)). }
  assert (Hin : forall i b, (i, b) ∈ source a c pre m u s -> docs s.(blobs) !! i = Some b /\ listed a c None pre m false u b = true)
    by (intros i b; apply elem_of_source).
  unfold source in Hnd, Hin. revert Hst Hnd Hin. generalize (lk_sort blob_name_le (lk_find (fun _ => listed a c None pre m false u) s.(blobs))).
  intros l Hst. induction Hst as [|[i b] l Hl IH Hx]; intros Hnd Hin; [constructor|].
  apply NoDup_cons in Hnd as [Hi Hnd]. constructor.
  - apply IH; [done|]. intros j d Hj. apply Hin. by right.
  - rewrite Forall_forall in *. intros [j d] Hj. specialize (Hx _ Hj). unfold blob_name_le in Hx. unfold name_of. cbn in *.
    rewrite string_ltb_leb. destruct (String.leb d.(b_name) b.(b_name)) eqn:E; [|done]. exfalso.
    assert (Hn : b.(b_name) = d.(b_name)) by (apply String.leb_antisym; by rewrite ?Hx, ?E).
    destruct (Hin i b) as [Hdi (A1&_&_&A4&_)%listed_true]; [left|].
    destruct (Hin j d) as [Hdj (B1&_&_&B4&_)%listed_true]; [by right|].
    assert (i = j) as ->.
    { apply (ok_base _ Hs i j b d Hdi Hdj); [|done|done].
      unfold in_container in *. rewrite !andb_true_iff, !bool_decide_eq_true in *. repeat split; naive_solver congruence. }
    apply Hi. by apply (list_elem_of_fmap_2 fst _ (j, d)).
Qed.

(** A store whose documents are the same but for their leases has the same names. *)
Lemma named_same a c u pre s s' n : all_same s s' -> named_in a c u pre s n -> named_in a c u pre s' n.
Proof.
  intros Hall (i&b&Hi&Hc&Hn&Hs&Hu&Hp&He). specialize (Hall i). rewrite Hi in Hall.
  inversion Hall as [d d' Hd E1 E2|]; subst. apply (f_equal (fst ∘ fst)) in Hd as Hco. cbn in Hco. exists i, d'. unfold in_container in *.
  assert (Hk : d'.(b_accountName) = b.(b_accountName) /\ d'.(b_containerName) = b.(b_containerName) /\
    d'.(b_name) = b.(b_name) /\ d'.(b_snapshot) = b.(b_snapshot) /\ d'.(b_isCommitted) = b.(b_isCommitted))
    by (split_and!; [exact (f_equal b_accountName Hco)|exact (f_equal b_containerName Hco)|exact (f_equal b_name Hco)
      |exact (f_equal b_snapshot Hco)|exact (f_equal b_isCommitted Hco)]). destruct Hk as (->&->&->&->&->). done.
Qed.

Lemma all_same_sym s s' : all_same s s' -> all_same s' s.
Proof. intros Hall i. specialize (Hall i). inversion Hall; constructor; congruence. Qed.

Definition increasing (l : list string) : Prop := StronglySorted (fun x y => String.ltb x y = true) l.

Lemma increasing_names (l : list document) : sorted name_of l -> increasing (name_of <$> l).
Proof. induction 1 as [|x l Hl IH Hx]; [constructor|]. constructor; [done|]. by apply Forall_fmap. Qed.

Lemma increasing_NoDup l : increasing l -> NoDup l.
Proof.
  induction 1 as [|x l Hl IH Hx]; constructor; [|done]. intros Hin. rewrite Forall_forall in Hx.
  pose proof (Hx x Hin) as Hlt. by rewrite ltb_irrefl in Hlt.
Qed.

Lemma increasing_filter (Q : string -> Prop) `{forall x, Decision (Q x)} l : increasing l -> increasing (filter Q l).
Proof.
  induction 1 as [|x l Hl IH Hx]; [constructor|]. rewrite filter_cons. case_decide; [|done].
  constructor; [done|]. rewrite Forall_forall in *. intros y [_ Hy]%list_elem_of_filter. by apply Hx.
Qed.

Lemma increasing_unique l1 l2 : increasing l1 -> increasing l2 -> (forall x, x ∈ l1 <-> x ∈ l2) -> l1 = l2.
Proof.
  intros H1 H2 Hx. apply (StronglySorted_unique_strong (fun x y => String.ltb x y = true)); [|done|done|].
  - intros x y _ _ Hxy Hyx. by rewrite (ltb_asym _ _ Hxy) in Hyx.
  - apply NoDup_Permutation; [by apply increasing_NoDup..|done].
Qed.

Definition names a c pre m u s : list string := name_of <$> source a c pre m u s.

Lemma names_increasing a c pre m u s : store_ok s -> increasing (names a c pre m u s).
Proof. intros Hs. by apply increasing_names, source_sorted. Qed.

Lemma names_same a c pre m u s s' :
  store_ok s -> store_ok s' -> all_same s s' -> names a c pre m u s' = names a c pre m u s.
Proof.
  intros Hs Hs' Hall. apply increasing_unique; [by apply names_increasing..|].
  intros n. unfold names. rewrite !elem_of_names. split; intros [Hn ?]; (split; [|done]);
    eapply named_same; [apply all_same_sym| |..]; done.
Qed.

(** The source of the page after [x] are the names after it. *)
Lemma names_after a c pre m u s l1 x l2 :
  store_ok s -> names a c pre m u s = l1 ++ [x] ++ l2 -> names a c pre x u s = l2.
Proof.
  intros Hs He. pose proof (names_increasing a c pre m u s Hs) as Hi. rewrite He in Hi.
  apply increasing_unique; [by apply names_increasing|by do 2 eapply StronglySorted_app_1_r|]. intros n.
  assert (Hx : String.ltb m x = true).
  { assert (Hin : x ∈ names a c pre m u s) by (rewrite He; set_solver). by apply elem_of_names in Hin as [_ ?]. }
  assert (Hsp : n ∈ names a c pre x u s <-> n ∈ names a c pre m u s /\ String.ltb x n = true).
  { unfold names. rewrite !elem_of_names. split; [intros [? ?]|tauto]. split_and!; [done| |done]. by eapply ltb_trans. }
  rewrite Hsp, He, !elem_of_app, list_elem_of_singleton. rewrite (app_assoc l1) in Hi. split.
  - intros [[Hn|[->|Hn]] Hlt]; [|by rewrite ltb_irrefl in Hlt|done].
    assert (Hnx : String.ltb n x = true).
    { exact (StronglySorted_app_1_elem_of _ _ _ n x (StronglySorted_app_1_l _ _ _ Hi) Hn (list_elem_of_here _ _)). }
    by rewrite (ltb_asym _ _ Hnx) in Hlt.
  - intros Hn. split; [by do 2 right|]. refine (StronglySorted_app_1_elem_of _ _ _ x n Hi _ Hn). set_solver.
Qed.

(** ** A page *)

Definition quiet (now : Z) : Licence := mkLicence now (fun _ => false) false false false.

Lemma opens_ok now i b s s' : store_ok s -> docs s.(blobs) !! i = Some b -> opens now i b s s' -> store_ok s'.
Proof.
  intros Hs Hi (Hv&_). unfold store_ok. rewrite Hv. apply (db_change_ok (quiet now) (vw s)); [done|].
  unfold opened. apply c_lease; [exact Hi|]. change (l_now (quiet now)) with now.
  destruct (createLeaseState (BlobLeaseAdapter b.(b_lease)).1 (mkContext (Some now) None)) as [st|] eqn:Hc;
    [by eapply kept_settle|apply kept_adapter].
Qed.

Lemma settle_blobs_runs ctx ds s :
  store_ok s -> NoDup ds.*1 -> (forall d, d ∈ ds -> docs s.(blobs) !! d.1 = Some d.2) ->
  exists s', settle_blobs ctx ds s = (Ok (opened ctx.(bc_startTime) <$> ds.*2), s') /\
    store_ok s' /\ all_same s s' /\ (vw s').(vc) = (vw s).(vc).
Proof.
  revert s. induction ds as [|[i b] ds IH]; intros s Hs Hnd Hin.
  { exists s. split_and!; [done|done|apply all_same_refl|done]. }
  apply NoDup_cons in Hnd as [Hni Hnd]. pose proof (Hin (i, b) (list_elem_of_here _ _)) as Hi. cbn in Hi.
  destruct (bo_lease _ _ (ok_blob _ Hs i b Hi)) as [v [Hv Hl]]. cbn [settle_blobs]. unfold lease_ctx.
  assert (Hop : opened ctx.(bc_startTime) b = opened ctx.(bc_startTime) b) by done.
  unfold opened at 2 in Hop. rewrite Hl, adapter_view in Hop |- *. cbn [fst snd] in Hop |- *. run.
  pose proof (adapter_settles ctx.(bc_contextId) ctx.(bc_startTime) v Hv) as H1.
  pose proof (adapter_settles None ctx.(bc_startTime) v Hv) as H2. rewrite adapter_view in H1, H2.
  cbn [fst] in H1, H2. rewrite H2 in Hop. unfold save_blob, update_db. rewrite H1.
  set (s1 := set_blobs _ (set_blobs _ s)).
  assert (Ho : opens ctx.(bc_startTime) i b s s1).
  { split_and!; [|done..]. rewrite Hop. exact (vw_save_twice i _ _ s (mk_is_Some _ _ Hi)). }
  destruct (IH s1) as (s'&Hr&Hs'&Hall&Hc).
  - by eapply opens_ok.
  - done.
  - intros [j d] Hd. change (docs s1.(blobs) !! j = Some d). rewrite (opens_lookup _ _ _ _ _ Ho), lookup_insert_ne; [by apply (Hin (j, d)); right|].
    intros <-. apply Hni. by apply (list_elem_of_fmap_2 fst _ (i, d)).
  - rewrite Hr. exists s'. split_and!; [|done| |].
    + cbn. rewrite Hop. done.
    + eapply all_same_trans; [by eapply opens_content|done].
    + rewrite Hc. by destruct Ho as [-> _].
Qed.

(** The reference is the same on documents and on names. *)
Section Map.
Context (dl pre : option string).
Implicit Types (l : list document).

Lemma items_names l : name_of <$> items_of name_of dl pre l = items_of id dl pre (name_of <$> l).
Proof.
  unfold items_of. induction l as [|d l IH]; [done|]. cbn [fmap list_fmap]. rewrite !filter_cons.
  do 2 case_decide; try done; cbn; by rewrite IH.
Qed.

Lemma prefixes_names l : prefixes_of name_of dl pre l = prefixes_of id dl pre (name_of <$> l).
Proof.
  induction l as [|d l IH] using rev_ind; [done|]. rewrite fmap_app. cbn. by rewrite !prefixes_of_snoc, IH.
Qed.

Lemma entries_names l : entries name_of dl pre l = entries id dl pre (name_of <$> l).
Proof. by rewrite <- !entries_sum, prefixes_names, <- items_names, length_fmap. Qed.

Lemma page_names n l l1 l2 :
  page_of name_of dl pre n l l1 l2 -> page_of id dl pre n (name_of <$> l) (name_of <$> l1) (name_of <$> l2).
Proof.
  intros [-> Hf Hl]. split; [by rewrite fmap_app|by rewrite <- entries_names|].
  intros x Hx. destruct l2 as [|d l2]; [done|]. injection Hx as <-. specialize (Hl d eq_refl).
  by rewrite entries_names, fmap_app in Hl.
Qed.
End Map.

Definition delimiter_option (delimiter : string) : option string :=
  if delimiter === EmptyString then None else Some delimiter.

Lemma delimiter_nonempty d : delimiter_option d <> Some EmptyString.
Proof. unfold delimiter_option. case_bool_decide; congruence. Qed.

Definition marker_of (l1 l2 : list string) : string :=
  match l2 with [] => EmptyString | _ => default EmptyString (last l1) end.

Lemma listBlobs_page ctx a c d pre n m u s :
  store_ok s -> (0 < n)%nat ->
  exists l1 l2 bs s',
    page_of id (delimiter_option d) (Some pre) n (names a c pre m u s) l1 l2 /\
    listBlobs ctx a c (delimiter_option d) None pre (Z.of_nat n) m false u s
    = (Ok (bs, prefixes_of id (delimiter_option d) (Some pre) l1, marker_of l1 l2), s') /\
    b_name <$> bs = items_of id (delimiter_option d) (Some pre) l1 /\
    store_ok s' /\ all_same s s' /\ (vw s').(vc) = (vw s).(vc).
Proof.
  intros Hs Hn. set (dl := delimiter_option d). set (src := source a c pre m u s).
  assert (Hne : forall x, x ∈ src -> name_of x <> EmptyString).
  { intros [i b] [_ (_&_&Hm&_)%listed_true]%elem_of_source. by eapply after_nonempty. }
  destruct (fill_correct name_of dl (Some pre) n (delimiter_nonempty d) Hn (S (length src)) src)
    as (l1&l2&Hpage&Hfill); [by apply source_sorted|done|lia|].
  destruct (settle_blobs_runs ctx (items_of name_of dl (Some pre) l1) s) as (s'&Hrun&Hs'&Hall&Hc); [done|..].
  - eapply sublist_NoDup; [|apply fmap_sublist, sublist_filter].
    assert (Hnd : NoDup src.*1) by (unfold src, source; rewrite sort_perm; apply (NoDup_find (fun _ => _))).
    rewrite (po_split _ _ _ _ _ _ _ Hpage), fmap_app in Hnd. by apply NoDup_app in Hnd as [? _].
  - intros [i b] [_ Hd]%list_elem_of_filter. assert (Hin : (i, b) ∈ src).
    { rewrite (po_split _ _ _ _ _ _ _ Hpage), elem_of_app. by left. }
    by apply elem_of_source in Hin as [Hi _].
  - exists (name_of <$> l1), (name_of <$> l2), (opened ctx.(bc_startTime) <$> (items_of name_of dl (Some pre) l1).*2), s'.
    split_and!; [by apply page_names| | |done..].
    + unfold listBlobs. run. change (lk_sort blob_name_le _) with src.
      change (fun d : document => d.2.(b_name)) with name_of. rewrite Hfill, Hrun, prefixes_names.
      do 3 f_equal. unfold marker_of, last_name. rewrite fmap_last. by destruct l2.
    + rewrite <- items_names. rewrite <- !list_fmap_compose. by apply list_fmap_ext.
Qed.
End Names.

(** ** Following the pages *)

Definition from_marker (marker : string) (o : ListOptions) : ListOptions :=
  mkListOptions o.(lo_prefix) (Some marker) o.(lo_maxresults) o.(lo_include) o.(lo_requestId).

(** The names and the folders a client sees that follows the markers. *)
Fixpoint all_segments {coll} `{Loki coll} {P} (fuel : nat) (delimiter : string) (options : ListOptions)
    (endpoint : string) (ctx : BlobStorageContext) (marker : string) :
    proc (BlobDb coll P) exn (list string * list string) :=
  match fuel with
  | O => throw OutOfFuel
  | S fuel =>
      r ← listBlobHierarchySegment delimiter (from_marker marker options) endpoint ctx;
      let page := r.(items) in
      let seen := b_name ∘ lb_blob <$> page.(ls_blobItems) in
      if page.(ls_nextMarker) === EmptyString then mret (seen, page.(ls_blobPrefixes))
      else
        rest ← all_segments fuel delimiter options endpoint ctx page.(ls_nextMarker);
        mret (seen ++ rest.1, page.(ls_blobPrefixes) ++ rest.2)
  end.

Section Segments.
Context {coll : Type -> Type} `{LokiLaws coll} {P : Type}.
Implicit Types (s : BlobDb coll P).
Context (d endpoint : string) (options : ListOptions) (ctx : BlobStorageContext).
Let a := ctx.(ctx_account).
Let c := ctx.(ctx_container).
Let pre := default EmptyString options.(lo_prefix).
Let u := includes "uncommittedblobs" options.(lo_include).
Let dl := delimiter_option d.
Context (Hsn : includes "snapshots" options.(lo_include) = false).
Context (Hmax : 0 < max_results options.(lo_maxresults)).

Lemma all_segments_from fuel m s :
  store_ok s -> has_container a c (vw s) -> (length (names a c pre m u s) < fuel)%nat ->
  exists s', all_segments fuel d options endpoint ctx m s
    = (Ok (items_of id dl (Some pre) (names a c pre m u s), prefixes_of id dl (Some pre) (names a c pre m u s)), s') /\
    store_ok s' /\ all_same s s'.
Proof.
  revert m s. induction fuel as [|fuel IH]; intros m s Hs Hc Hfuel; [lia|]. cbn [all_segments].
  unfold listBlobHierarchySegment, list_segment. cbn [from_marker lo_prefix lo_marker lo_maxresults lo_include lo_requestId].
  fold a c pre u. change (if d === EmptyString then None else Some d) with dl. rewrite Hsn.
  set (n := Z.to_nat (max_results options.(lo_maxresults))).
  replace (max_results options.(lo_maxresults)) with (Z.of_nat n) by lia. assert (Hn : (0 < n)%nat) by lia.
  destruct (listBlobs_page (store_ctx ctx) a c d pre n m u s Hs Hn) as (l1&l2&bs&s1&Hpage&Hlist&Hbs&Hs1&Hall&Hvc).
  run. rewrite check_eq by done. cbn [default]. change (id m) with m.
  fold dl in Hlist, Hbs, Hpage. rewrite Hlist.
  cbn [items respond ls_blobItems ls_blobPrefixes ls_nextMarker].
  rewrite <- list_fmap_compose. change (b_name ∘ lb_blob ∘ _) with b_name. rewrite Hbs.
  pose proof (po_split _ _ _ _ _ _ _ Hpage) as Hsplit.
  destruct l2 as [|x l2]; cbn [marker_of].
  { rewrite app_nil_r in Hsplit. rewrite Hsplit. eauto. }
  destruct (last l1) as [y|] eqn:Hy.
  2:{ apply last_None in Hy as ->. pose proof (po_longest _ _ _ _ _ _ _ Hpage x eq_refl) as Hlong.
      rewrite entries_snoc in Hlong. unfold entries in Hlong. cbn in Hlong.
      destruct (squashed _ _ _); [case_bool_decide|]; cbn in Hlong; lia. }
  assert (Hyne : y <> EmptyString).
  { assert (Hin : y ∈ names a c pre m u s) by (apply last_Some in Hy as [l0 ->]; rewrite Hsplit; set_solver).
    apply elem_of_names in Hin as [_ Hin]. by eapply after_nonempty. }
  change (default EmptyString (Some y)) with y. rewrite bool_decide_eq_false_2 by done.
  assert (Hnext : names a c pre y u s1 = x :: l2).
  { rewrite (names_same a c pre y u s s1 Hs Hs1 Hall). apply last_Some in Hy as [l0 ->].
    apply (names_after a c pre m u s l0 y (x :: l2) Hs). by rewrite Hsplit, <- app_assoc. }
  destruct (IH y s1) as (s'&Hrest&Hs'&Hall'); [done| | |].
  - unfold has_container in *. by rewrite Hvc.
  - rewrite Hnext. rewrite Hsplit, length_app in Hfuel. destruct l1; [done|]. cbn in *. lia.
  - rewrite Hrest, Hnext. exists s'. split_and!; [|done|by eapply all_same_trans]. do 3 f_equal.
    + rewrite Hsplit. unfold items_of. by rewrite filter_app.
    + symmetry. eapply page_prefixes; [apply delimiter_nonempty| |exact Hpage]. by apply names_increasing.
Qed.
End Segments.

Section Complete.
Context {coll : Type -> Type} `{LokiLaws coll} {P : Type}.
Implicit Types (s : BlobDb coll P).

(** C17. a client that follows the markers of a list, for any size of the pages, sees
    every blob with the prefix that is in no folder below it exactly once and in order,
    and every folder exactly once, and is done after finitely many pages; no page
    changes more than leases. *)
Theorem list_pages_complete (delimiter : option Ascii.ascii) endpoint options ctx s
    (Hs : store_ok s) (Hc : has_container ctx.(ctx_account) ctx.(ctx_container) (vw s))
    (Hsn : includes "snapshots" options.(lo_include) = false)
    (Hmax : 0 < max_results options.(lo_maxresults)) :
  let prefix := default EmptyString options.(lo_prefix) in
  let named := named_in ctx.(ctx_account) ctx.(ctx_container) (includes "uncommittedblobs" options.(lo_include)) prefix s in
  exists blobs_ folders n,
    (forall fuel, (n < fuel)%nat -> exists s',
       all_segments fuel (delimiter_string delimiter) options endpoint ctx EmptyString s
       = (Ok (blobs_, folders), s') /\ store_ok s' /\ all_same s s') /\
    increasing blobs_ /\ (forall x, x ∈ blobs_ <-> named x /\ folder delimiter prefix x = None) /\
    NoDup folders /\ (forall f, f ∈ folders <-> exists x, named x /\ folder delimiter prefix x = Some f).
Proof.
  intros prefix named. set (d := delimiter_string delimiter).
  set (ns := names ctx.(ctx_account) ctx.(ctx_container) prefix EmptyString
               (includes "uncommittedblobs" options.(lo_include)) s).
  exists (items_of id (delimiter_option d) (Some prefix) ns), (prefixes_of id (delimiter_option d) (Some prefix) ns), (length ns).
  assert (Hns : forall x, x ∈ ns <-> named x).
  { intros x. unfold ns, names. rewrite elem_of_names. unfold named. split; [tauto|]. intros Hx.
    split; [done|]. destruct Hx as (?&?&_&_&_&_&_&_&Hx). by apply empty_first. }
  assert (Hf : forall x, named x -> squashed (delimiter_option d) (Some prefix) x = folder delimiter prefix x).
  { intros x (?&?&_&_&_&_&_&Hp&_). by apply squashed_folder. }
  split_and!.
  - intros fuel Hfuel. by apply (all_segments_from d endpoint options ctx Hsn Hmax fuel EmptyString s).
  - by apply increasing_filter, names_increasing.
  - intros x. unfold items_of. rewrite list_elem_of_filter, Hns. unfold id.
    split; intros [H1 H2]; (split; [done || by rewrite Hf|done || by rewrite <- Hf]).
  - apply prefixes_NoDup.
  - intros f. rewrite elem_of_prefixes. unfold id. split; intros (x&Hx&He); exists x; (split; [by apply Hns|]);
      [rewrite <- Hf; [done|by apply Hns]|by rewrite Hf].
Qed.

(** ** A search may lose blobs

    The reader of a search takes [maxResults] blobs and then selects; the page takes
    a read with less than that for the last one. If none of the first blobs is
    selected, nothing is found, and there is no marker to go on with, whatever other
    blobs there are. *)

Lemma filter_docs_none f (l : list BlobModel) :
  (forall b, b ∈ l -> f (mkFilterBlobModel b.(b_containerName) b.(b_blobTags)) = Ok []) -> filter_docs f l = Ok [].
Proof.
  induction l as [|b l IH]; intros Hl; cbn; [done|]. rewrite Hl by left. cbn.
  by rewrite IH by (intros; apply Hl; by right).
Qed.

(** a search in pages of [maxResults] blobs returns nothing, and no marker, if none
    of the first [maxResults] blobs by name satisfies the query: the blobs after them
    that satisfy it are lost. *)
Theorem search_loses_blobs ctx a where_ maxResults f s
    (Hf : generateQueryBlobWithTagsWhereFunction ctx.(bc_contextId) where_ None = Ok f)
    (Hfirst : forall d, d ∈ take (Z.to_nat maxResults)
       (lk_sort blob_name_le (lk_find (fun _ => searched a None EmptyString) s.(blobs))) ->
       f (mkFilterBlobModel d.2.(b_containerName) d.2.(b_blobTags)) = Ok []) :
  BlobLists.filterBlobs ctx a None where_ maxResults EmptyString s = (Ok ([], EmptyString), s).
Proof.
  unfold BlobLists.filterBlobs. run. rewrite Hf. set (docs := (lk_sort _ _).*2).
  unfold FilterBlobPage.fill. cbn [FilterBlobPage.fill_loop]. unfold read_page.
  rewrite drop_0, filter_docs_none; [done|]. intros b Hb. unfold docs in Hb. rewrite <- fmap_take in Hb.
  apply list_elem_of_fmap in Hb as (d&->&Hd). by apply Hfirst.
Qed.
End Complete.

(** ** Witnesses *)

Definition w_named (n : string) : call unit := w_call 1 (RCreateBlob (w_blob n BlockBlob true) None None None None).
Definition w_listed : BlobDb map_coll unit :=
  run_calls w_db [w_call 0 (RCreateContainer w_container); w_named "dir/b"; w_named "x"; w_named "dir/a"; w_named "dirs"].
Definition w_ctx : BlobStorageContext :=
  mkBlobStorageContext "a" "c" EmptyString 9 None (mkHttpRequest (fun _ => None) [] (fun _ => None) None) 9.
Definition w_pages : ListOptions := mkListOptions (Some "d"%string) None (Some 1) None None.

Lemma w_listed_ok : store_ok w_listed.
Proof. apply calls_store_ok; [apply w_db_ok|repeat constructor; discriminate]. Qed.

Example list_pages_computed :
  (all_segments 5 "/" w_pages "http://host" w_ctx EmptyString w_listed).1 = Ok (["dirs"%string], ["dir/"%string]).
Proof. vm_compute. reflexivity. Qed.

Lemma list_pages_complete_witness :
  exists bs fs n, (forall fuel, (n < fuel)%nat -> exists s',
    all_segments fuel "/" w_pages "http://host" w_ctx EmptyString w_listed = (Ok (bs, fs), s')) /\
    "dirs"%string ∈ bs /\ "dir/"%string ∈ fs.
Proof.
  destruct (list_pages_complete (Some "/"%char) "http://host" w_pages w_ctx w_listed) as (bs&fs&n&Hrun&_&Hbs&_&Hfs).
  - apply w_listed_ok.
  - exists 1, w_container. split; vm_compute; reflexivity.
  - reflexivity.
  - reflexivity.
  - assert (Hin : forall i x, b_name <$> docs w_listed.(blobs) !! i = Some x ->
      (in_container "a" "c" <$> docs w_listed.(blobs) !! i = Some true) ->
      (b_snapshot <$> docs w_listed.(blobs) !! i = Some EmptyString) ->
      (b_isCommitted <$> docs w_listed.(blobs) !! i = Some true) -> String.prefix "d" x = true ->
      named_in "a" "c" (includes "uncommittedblobs" w_pages.(lo_include)) "d" w_listed x).
    { intros i x. destruct (docs w_listed.(blobs) !! i) as [b|] eqn:Hi; [|done]. intros [= <-] [= Hc] [= Hs] [= Hu] Hp.
      exists i, b. split_and!; [done..|by right|done|]. by destruct (b_name b). }
    exists bs, fs, n. split_and!.
    + intros fuel Hfuel. destruct (Hrun fuel Hfuel) as (s'&Hr&_). by exists s'.
    + apply Hbs. split; [|reflexivity]. apply (Hin 4); vm_compute; reflexivity.
    + apply Hfs. exists "dir/a"%string. split; [|reflexivity]. apply (Hin 3); vm_compute; reflexivity.
Defined.

(** The second blob has the tag, but the page ends with the first. *)
Definition w_tagged : BlobDb map_coll unit :=
  run_calls w_listed [w_call 2 (RSetTags "a" "c" "x" None None (Some [mkBlobTag "k" "v"]))].
Definition w_query : string := "k = 'v'".
Definition w_find (n : Z) : res (list FoundBlob * string) :=
  (BlobLists.filterBlobs (mkBlobContext 9 None) "a" None (Some w_query) n EmptyString w_tagged).1.

Example search_larger_page :
  match w_find 10 with Ok r => map fb_name r.1 = ["x"%string] | Throw _ => False end.
Proof. vm_compute. reflexivity. Qed.

Lemma search_loses_blobs_witness :
  BlobLists.filterBlobs (mkBlobContext 9 None) "a" None (Some w_query) 1 EmptyString w_tagged = (Ok ([], EmptyString), w_tagged).
Proof.
  destruct (generateQueryBlobWithTagsWhereFunction None (Some w_query) None) as [f|] eqn:Hf; [|by vm_compute in Hf].
  apply (search_loses_blobs (mkBlobContext 9 None) "a" (Some w_query) 1 f w_tagged); [exact Hf|].
  intros d Hd. assert (He : f = default (fun _ => Throw JsError) (match generateQueryBlobWithTagsWhereFunction None (Some w_query) None with
    | Ok g => Some g | Throw _ => None end)) by by rewrite Hf. rewrite He.
  apply list_elem_of_In in Hd. vm_compute in Hd. destruct Hd as [<-|[]]. vm_compute. reflexivity.
Defined.
