(* ===== verification/BlobUrls.v ===== *)
(** * BlobUrls: the names in the URL of a request

    src/src/blob/middlewares/blobStorageContext.middleware.ts, with checkApiVersion and
    validateContainerName of src/src/blob/utils/utils.ts. Host names and paths are texts:
    the path is the encoded one of the URL. What it sets in the context of the request is the
    state; an error handed to [next] is thrown. *)

From S2P Require Import Prelude Errors Extents Utf8 Texts JsValues Uris Regex.
Open Scope Z_scope.
Open Scope azurite_scope.

Definition SECONDARY_SUFFIX : text := js "-secondary".

Definition ValidAPIVersions : list string :=
  ["2025-11-05"; "2025-07-05"; "2025-05-05"; "2025-01-05"; "2024-11-04"; "2024-08-04"; "2024-05-04";
   "2024-02-04"; "2023-11-03"; "2023-08-03"; "2023-01-03"; "2022-11-02"; "2021-12-02"; "2021-10-04";
   "2021-08-06"; "2021-06-08"; "2021-04-10"; "2021-02-12"; "2020-12-06"; "2020-10-02"; "2020-08-04";
   "2020-06-12"; "2020-04-08"; "2020-02-10"; "2019-12-12"; "2019-10-10"; "2019-07-07"; "2019-02-02";
   "2018-11-09"; "2018-03-28"; "2017-11-09"; "2017-07-29"; "2017-04-17"; "2016-05-31"; "2015-12-11";
   "2015-07-08"; "2015-04-05"; "2015-02-21"; "2014-02-14"; "2013-08-15"; "2012-02-12"; "2011-08-18";
   "2009-09-19"; "2009-07-17"; "2009-04-14"]%string.

Definition checkApiVersion (inputApiVersion : string) (validApiVersions : list string)
    (requestId : option string) : res unit :=
  throw_when (negb (bool_decide (inputApiVersion ∈ validApiVersions)))
    (BlobErrors.getInvalidAPIVersion requestId (Some inputApiVersion));;
  Ok tt.

(** ** Names of containers *)

Definition lower_or_digit (u : Z) : bool := is_digit u || ((97 <=? u) && (u <=? 122)).
Definition lower_digit_or_hyphen (u : Z) : bool := lower_or_digit u || (u =? 45).

(** [^[a-z0-9](?!.*--)[a-z0-9-]{1,61}[a-z0-9]$], without the start. *)
Definition CONTAINER_NAME : regex :=
  Seq (Unit lower_or_digit)
    (Seq (NotAhead (Seq (Star Any) (Seq (is_unit 45) (is_unit 45))))
       (Seq (Between 1 61 (Unit lower_digit_or_hyphen)) (Seq (Unit lower_or_digit) EndOfText))).

Definition validateContainerName (requestID : option string) (containerName : text) : res unit :=
  throw_when ((containerName !== []) && ((length containerName <? 3) || (63 <? length containerName))%nat)
    (BlobErrors.getOutOfRangeName requestID);;
  throw_when (negb (defined (match_here CONTAINER_NAME [] containerName)))
    (BlobErrors.getInvalidResourceName requestID);;
  Ok tt.

(** ** Host names *)

(** [^(?:[0-9]{1,3}\.){3}[0-9]{1,3}$] in a string literal: the escape of the dot is lost, it
    stands for any character. *)
Definition IP_REGEX : regex :=
  let digits := Between 1 3 (Unit is_digit) in
  Seq (Times 3 (Seq digits Any)) (Seq digits EndOfText).

Definition NO_ACCOUNT_HOST_NAMES : list text := [js "host.docker.internal"].

Definition dot : Z := 46.
Definition slash : Z := 47.
Definition backslash : Z := 92.

(** The account in a host name of the style of the product, if it is of that style. *)
Definition product_style (hostname : text) (disableProductStyleUrl : bool) : option text :=
  let isIPAddress := defined (match_here IP_REGEX [] hostname) in
  let isNoAccountHostName := bool_decide (lower hostname ∈ NO_ACCOUNT_HOST_NAMES) in
  match index_of [dot] hostname with
  | Some firstDotIndex =>
      if negb disableProductStyleUrl && negb isIPAddress && negb isNoAccountHostName
         && (0 <? firstDotIndex)%nat
      then Some (take firstDotIndex hostname) else None
  | None => None
  end.

(** ** Paths *)

(** [s.split("/")] and [l.join("/")]. *)
Fixpoint split_slash (s : text) : list text :=
  match s with
  | [] => [[]]
  | u :: s =>
      if u =? slash then [] :: split_slash s
      else match split_slash s with x :: l => (u :: x) :: l | [] => [] end
  end.

Fixpoint join_slash (l : list text) : text :=
  match l with
  | [] => []
  | [x] => x
  | x :: l => x ++ [slash] ++ join_slash l
  end.

Definition forward_slashes (s : text) : text :=
  (fun u => if u =? backslash then slash else u) <$> s.

Record StorageParts := mkStorageParts {
  sp_account : text;
  sp_container : option text;
  sp_blob : text;
  sp_isSecondary : bool
}.

Definition extractStoragePartsFromPath (hostname path : text) (disableProductStyleUrl : bool) : res StorageParts :=
  decodedPath ← decodeURIComponent path;
  let normalizedPath := match decodedPath with u :: s => if u =? slash then s else decodedPath | [] => [] end in
  let parts := split_slash normalizedPath in
  let '(account, parts) :=
    match product_style hostname disableProductStyleUrl with
    | Some account => (account, parts)
    | None => (default [] (head parts), tail parts)
    end in
  let container := head parts in
  let blob := forward_slashes (join_slash (tail parts)) in
  Ok (if endsWith SECONDARY_SUFFIX account
      then mkStorageParts (take (length account - length SECONDARY_SUFFIX) account) container blob true
      else mkStorageParts account container blob false).

(** ** The middleware *)

(** The part of [BlobStorageContext] that it sets. *)
Record UrlContext := mkUrlContext {
  uc_account : option text;
  uc_container : option text;
  uc_blob : option text;
  uc_isSecondary : option bool;
  uc_dispatchPattern : option string;
  uc_authenticationPath : option text
}.

(** A text that is there and not empty. *)
Definition given (t : option text) : bool := match t with Some (_ :: _) => true | _ => false end.

Definition dispatchPattern (container : option text) (blob : text) : string :=
  if given container then (if given (Some blob) then "/container/blob" else "/container")%string else "/"%string.

(** The path without the first [-secondary]. *)
Definition authenticationPath (path : text) (isSecondary : bool) : text :=
  if isSecondary then
    match index_of SECONDARY_SUFFIX path with
    | Some pos => take pos path ++ drop (pos + length SECONDARY_SUFFIX) path
    | None => path
    end
  else path.

Definition internalBlobStorageContextMiddleware (apiVersion : option string) (reqHost reqPath : text)
    (skipApiVersionCheck disableProductStyleUrl : bool) (requestID : option string) : proc UrlContext exn unit :=
  _ ← lift (match apiVersion with
            | Some v => if skipApiVersionCheck then Ok tt else checkApiVersion v ValidAPIVersions requestID
            | None => Ok tt
            end);
  parts ← lift (extractStoragePartsFromPath reqHost reqPath disableProductStyleUrl);
  let '(mkStorageParts account container blob isSecondary) := parts in
  _ ← put_state (mkUrlContext (Some account) container (Some blob) (Some isSecondary)
                   (Some (dispatchPattern container blob)) (Some (authenticationPath reqPath isSecondary)));
  if negb (given (Some account)) then throw (BlobErrors.getInvalidQueryParameterValue requestID None None None)
  else match container with
       | Some (u :: c) => if u =? 36 then mret tt else lift (validateContainerName requestID (u :: c))
       | _ => mret tt
       end.

Definition blobStorageContextMiddleware (apiVersion : option string) (hostname path : text)
    (skipApiVersionCheck disableProductStyleUrl : bool) (requestID : option string) : result exn unit * UrlContext :=
  internalBlobStorageContextMiddleware apiVersion hostname path skipApiVersionCheck disableProductStyleUrl requestID
    (mkUrlContext None None None None None None).

(** ** Examples *)

Example path_style :
  extractStoragePartsFromPath (js "127.0.0.1") (js "/acct-secondary/c/a%20b/c%5Cd") false
  = Ok (mkStorageParts (js "acct") (Some (js "c")) (js "a b/c/d") true).
Proof. vm_compute. reflexivity. Qed.

Example host_style :
  extractStoragePartsFromPath (js "acct.blob.localhost") (js "/c") false
  = Ok (mkStorageParts (js "acct") (Some (js "c")) [] false).
Proof. vm_compute. reflexivity. Qed.

(** A host name of digits is taken for an address. *)
Example dot_is_any_character : product_style (js "1a2b3c4.blob.localhost") false = Some (js "1a2b3c4")
  /\ product_style (js "12.1.2.3") false = None /\ product_style (js "1.2x3.4") false = None.
Proof. by vm_compute. Qed.

(** * Names of containers, and names in URLs

    The pattern of container names accepts what the service's documentation says,
    and the names a client encodes in a URL are those the service reads there. *)

From S2P Require Import Prelude Errors Extents Utf8 Texts JsValues Uris Regex.
Open Scope Z_scope.
Open Scope azurite_scope.

(** ** Container names *)

(** Three to 63 lower case letters, digits and hyphens, no two hyphens in a row, and
    none at the ends. *)
Definition container_name (c : text) : Prop :=
  (3 <= length c <= 63)%nat /\
  Forall (fun u => lower_digit_or_hyphen u = true) c /\
  (exists u v t, c = u :: t ++ [v] /\ lower_or_digit u = true /\ lower_or_digit v = true) /\
  ~ (exists l r, c = l ++ [45; 45] ++ r).

Lemma not_line_end u : lower_digit_or_hyphen u = true -> negb (line_terminator u) = true.
Proof.
  unfold lower_digit_or_hyphen, lower_or_digit, is_digit, line_terminator.
  rewrite !orb_true_iff, !andb_true_iff, !Z.leb_le, Z.eqb_eq, negb_true_iff. intros Hu.
  apply bool_decide_eq_false. intros Hin%list_elem_of_In. cbn in Hin. lia.
Qed.

Lemma hyphen_is_kept : lower_or_digit 45 = false.
Proof. reflexivity. Qed.

(** What the pattern looks ahead for. *)
Lemma reads_hyphens p :
  (exists q, reads (Seq (Star Any) (Seq (is_unit 45) (is_unit 45))) p q) <->
  exists t r, p.2 = t ++ [45; 45] ++ r /\ Forall (fun u => negb (line_terminator u) = true) t.
Proof.
  assert (Heq : forall u, (45 =? u) = true -> u = 45) by (intros u Hu; apply Z.eqb_eq in Hu; lia).
  split.
  - intros (q&m&(t&Ht)%reads_star_unit&x&(u&s&Hu&Eu%Heq&->)&(v&s'&Hv&Ev%Heq&->)).
    cbn in Hv. subst. destruct Ht as (Hs&_&Ht). exists t, s'. by rewrite Hs, Hu.
  - intros (t&r&Hp&Ht). exists (45 :: 45 :: rev t ++ p.1, r), (rev t ++ p.1, [45; 45] ++ r).
    split; [apply reads_star_unit; by exists t|].
    exists (45 :: rev t ++ p.1, 45 :: r). split; [by exists 45, (45 :: r)|by exists 45, r].
Qed.

Lemma match_container_name c :
  defined (match_here CONTAINER_NAME [] c) = true <->
  exists u t v, c = u :: t ++ [v] /\ (1 <= length t <= 61)%nat /\
    lower_or_digit u = true /\ lower_or_digit v = true /\
    Forall (fun u => lower_digit_or_hyphen u = true) t /\
    ~ (exists l r, t ++ [v] = l ++ [45; 45] ++ r /\ Forall (fun u => negb (line_terminator u) = true) l).
Proof.
  rewrite match_here_reads. unfold CONTAINER_NAME. cbn -[Between]. split.
  - intros (q&m1&(u&s&Hc&Hu&->)&m2&[<- Hno]&m3&(t&Hl&Ht)%reads_between_unit&m4&(v&s'&Hv&Hvd&->)&[<- He]); [|lia].
    cbn in *. subst. destruct Ht as (Hs&_&Ht). cbn in Hs. rewrite Hv in Hs. subst s.
    exists u, t, v. split_and!; try done; try lia. intros (l&r&Hlr&Hal). apply Hno.
    apply (reads_hyphens ([u], t ++ [v])). by exists l, r.
  - intros (u&t&v&->&Hl&Hu&Hv&Ht&Hno). exists (v :: rev t ++ [u], []), ([u], t ++ [v]).
    split; [by exists u, (t ++ [v])|]. exists ([u], t ++ [v]). split; [split; [done|]|].
    + intros Hm. apply Hno. by apply (reads_hyphens ([u], t ++ [v])).
    + exists (rev t ++ [u], [v]). split; [apply reads_between_unit; [lia|]; by exists t|].
      exists (v :: rev t ++ [u], []). by split; [exists v, []|].
Qed.

Lemma lower_or_digit_allowed u : lower_or_digit u = true -> lower_digit_or_hyphen u = true.
Proof. unfold lower_digit_or_hyphen. by intros ->. Qed.

(** The pattern and the lengths it allows. *)
Lemma match_is_container_name c :
  defined (match_here CONTAINER_NAME [] c) = true <-> container_name c.
Proof.
  rewrite match_container_name. split.
  - intros (u&t&v&->&Hl&Hu&Hv&Ht&Hno).
    assert (Hall : Forall (fun u => lower_digit_or_hyphen u = true) (t ++ [v])).
    { apply Forall_app. split; [done|]. constructor; [by apply lower_or_digit_allowed|done]. }
    split_and!.
    + cbn. rewrite length_app. cbn. lia.
    + cbn. rewrite length_app. cbn. lia.
    + constructor; [by apply lower_or_digit_allowed|done].
    + by exists u, v, t.
    + intros ([|x l]&r&He); injection He as He0 He; [by rewrite He0 in Hu|]. apply Hno. exists l, r.
      split; [done|]. rewrite He in Hall. apply Forall_app in Hall as [Hall _].
      eapply Forall_impl; [exact Hall|]. apply not_line_end.
  - intros (Hl&Hall&(u&v&t&->&Hu&Hv)&Hno). exists u, t, v. cbn in Hl. rewrite length_app in Hl. cbn in Hl.
    apply Forall_cons in Hall as [_ [Ht _]%Forall_app]. split_and!; try done; try lia.
    intros (l&r&He&_). apply Hno. exists (u :: l), r. cbn. by rewrite He.
Qed.

(** the check of container names accepts exactly the names of three to 63 lower
    case letters, digits and single hyphens between them; a name of another length gets
    the error for lengths, unless it is empty, and any other one that for characters. *)
Theorem container_names_checked requestID c :
  match validateContainerName requestID c with
  | Ok _ => container_name c
  | Throw e =>
      ~ container_name c /\
      e = if bool_decide (c = [] \/ 3 <= length c <= 63)%nat then BlobErrors.getInvalidResourceName requestID
          else BlobErrors.getOutOfRangeName requestID
  end.
Proof.
  unfold validateContainerName. pose proof (match_is_container_name c) as Hm.
  destruct (defined (match_here CONTAINER_NAME [] c)) eqn:Hd.
  - assert (Hc : container_name c) by (by apply Hm). pose proof Hc as [Hl _].
    rewrite (proj2 (Nat.ltb_ge _ _)), (proj2 (Nat.ltb_ge 63 _)) by lia. by rewrite andb_false_r.
  - assert (Hn : ~ container_name c) by (intros Hc; apply Hm in Hc; congruence).
    destruct (decide (c = [])) as [->|Hne]; [by split|].
    rewrite (bool_decide_eq_false_2 (c = [])) by done. cbn [negb andb].
    destruct (Nat.ltb_spec (length c) 3); [|destruct (Nat.ltb_spec 63 (length c))]; cbn;
      (split; [done|]); case_bool_decide as Hl; done || destruct Hl; done || lia.
Qed.

(** ** Paths *)

(** The text whose encoding a client wrote. *)
Definition encodes (e s : text) : Prop := decodeURIComponent e = Ok s.

Lemma encodes_decoded e s : encodes e s <-> decoded e = Some s.
Proof. unfold encodes, decodeURIComponent. destruct (decoded e); naive_solver. Qed.

(** What is decoded to its end is decoded before anything. *)
Lemma uri_decode_app st e s t :
  uri_decode (fun _ => false) st e = Some s ->
  uri_decode (fun _ => false) st (e ++ t) = (app s) <$> decoded t.
Proof.
  revert st s. induction e as [e IH] using (induction_ltof1 _ length). unfold ltof in IH. intros st s.
  destruct e as [|u e]; cbn [uri_decode app].
  - destruct st; [|done]. intros [= <-]. symmetry. apply fmap_nil.
  - destruct (u =? 37).
    + destruct e as [|a [|b e]]; [done..|]. cbn [app].
      destruct (digit_value 16 a) as [x|], (digit_value 16 b) as [y|]; try done.
      destruct (uri_byte st (x * 16 + y)) as [[out st']|]; [|done].
      destruct (uri_decode _ st' e) as [s1|] eqn:He; [|done].
      intros [= <-]. rewrite (IH e) with (s := s1) by (cbn; lia || done).
      destruct (decoded t); [|done]. cbn. by rewrite app_assoc.
    + destruct st; [|done]. destruct (decoded e) as [s1|] eqn:He; [|done]. intros [= <-].
      rewrite (IH e) with (s := s1) by (cbn; lia || done). by destruct (decoded t).
Qed.

Lemma encodes_app e1 s1 e2 s2 : encodes e1 s1 -> encodes e2 s2 -> encodes (e1 ++ e2) (s1 ++ s2).
Proof. rewrite !encodes_decoded. intros H1 H2. by rewrite (uri_decode_app _ _ _ _ H1), H2. Qed.

Lemma encodes_slash e s : encodes e s -> encodes (slash :: e) (slash :: s).
Proof. rewrite !encodes_decoded. intros H. rewrite decoded_cons by done. by rewrite H. Qed.

(** A component of a URL, as clients encode it. *)
Lemma encodeURIComponent_encodes s e : encodeURIComponent s = Ok e -> encodes e s.
Proof. apply decode_encodeURIComponent. Qed.

Lemma split_slash_app x s : slash ∉ x -> split_slash (x ++ slash :: s) = x :: split_slash s.
Proof.
  induction x as [|u x IH]; [done|]. intros Hx. cbn.
  destruct (Z.eqb_spec u slash) as [->|]; [by destruct Hx; left|].
  rewrite IH; [done|]. intros Hin. apply Hx. by right.
Qed.

Lemma join_split_slash s : join_slash (split_slash s) = s.
Proof.
  induction s as [|u s IH]; [done|]. cbn. destruct (Z.eqb_spec u slash) as [->|Hu].
  - rewrite <- IH at 2. by destruct (split_slash s) eqn:Hs; [destruct s; cbn in Hs; [|destruct (_ =? _), (split_slash s)]|].
  - destruct (split_slash s) as [|x l] eqn:Hs; [|destruct l; cbn in *; by rewrite <- IH].
    destruct s as [|v s]; cbn in Hs; [done|]. by destruct (v =? slash), (split_slash s).
Qed.

(** The name of an account as a request to its secondary location spells it. *)
Definition spelled (account : text) (isSecondary : bool) : text :=
  account ++ (if isSecondary then SECONDARY_SUFFIX else []).

(** A URL for a blob: the account is the first part of the path, or of a host name of
    the style of the product. *)
Definition addresses (hostname path : text) (disable : bool) (account container blob : text) (isSecondary : bool) :
    Prop :=
  exists ec eb, encodes ec container /\ encodes eb blob /\
    match product_style hostname disable with
    | Some a => a = spelled account isSecondary /\ path = slash :: ec ++ slash :: eb
    | None => exists ea, encodes ea (spelled account isSecondary) /\ path = slash :: ea ++ slash :: ec ++ slash :: eb
    end.

Lemma spelled_suffix account isSecondary :
  endsWith SECONDARY_SUFFIX account = false ->
  endsWith SECONDARY_SUFFIX (spelled account isSecondary) = isSecondary /\
  (if isSecondary
   then take (length (spelled account isSecondary) - length SECONDARY_SUFFIX) (spelled account isSecondary)
   else spelled account isSecondary) = account.
Proof.
  intros Ha. unfold spelled. destruct isSecondary.
  - split; [apply endsWith_app|]. rewrite length_app. rewrite Nat.add_sub. apply take_app_length.
  - by rewrite app_nil_r.
Qed.

(** What follows the account. *)
Lemma split_names container blob :
  slash ∉ container ->
  split_slash (container ++ slash :: blob) = container :: split_slash blob /\
  join_slash (tail (split_slash (container ++ slash :: blob))) = blob.
Proof. intros Hc. rewrite split_slash_app by done. split; [done|]. apply join_split_slash. Qed.

(** C18. a URL that a client makes of the names of an account, a container and a blob,
    in either style and for either location, is read as these names, whatever characters
    it chose to escape; a backslash in the name of the blob is read as a slash. *)
Theorem names_read_back hostname path disable account container blob isSecondary
    (Hurl : addresses hostname path disable account container blob isSecondary)
    (Hac : slash ∉ account) (Hco : slash ∉ container) (Hsec : endsWith SECONDARY_SUFFIX account = false) :
  extractStoragePartsFromPath hostname path disable
  = Ok (mkStorageParts account (Some container) (forward_slashes blob) isSecondary).
Proof.
  destruct Hurl as (ec&eb&Hc&Hb&Hs). unfold extractStoragePartsFromPath.
  pose proof (encodes_app _ _ _ _ Hc (encodes_slash _ _ Hb)) as Hcb.
  destruct (spelled_suffix account isSecondary Hsec) as [Hends Htake].
  destruct (split_names container blob Hco) as [Hsplit Hjoin].
  destruct (product_style hostname disable) as [a|].
  - destruct Hs as [-> ->]. rewrite (encodes_slash _ _ Hcb). cbn [mbind result_bind].
    rewrite Z.eqb_refl. rewrite Hends, Hjoin, Hsplit. cbn [head hd_error].
    destruct isSecondary; [by rewrite Htake|]. do 2 f_equal. exact Htake.
  - destruct Hs as (ea&Ha&->).
    assert (Hsl : slash ∉ spelled account isSecondary).
    { unfold spelled. rewrite elem_of_app. intros [?|Hin]; [done|]. destruct isSecondary; [|by apply elem_of_nil in Hin].
      apply list_elem_of_In in Hin. vm_compute in Hin. decompose [or] Hin; done. }
    rewrite (encodes_slash _ _ (encodes_app _ _ _ _ Ha (encodes_slash _ _ Hcb))). cbn [mbind result_bind].
    rewrite Z.eqb_refl, (split_slash_app _ _ Hsl). cbn [head tail hd_error default from_option]. unfold Datatypes.id.
    rewrite Hends, Hjoin, Hsplit. cbn [head hd_error]. destruct isSecondary; [by rewrite Htake|].
    do 2 f_equal. exact Htake.
Qed.

(** The blob [a/b c] of the secondary location of [acct], in the path and in the host. *)
Lemma names_read_back_witness :
  extractStoragePartsFromPath (js "127.0.0.1") (js "/acct-secondary/c%31/a%2Fb%20c") false
  = Ok (mkStorageParts (js "acct") (Some (js "c1")) (js "a/b c") true) /\
  extractStoragePartsFromPath (js "acct-secondary.blob.localhost") (js "/c%31/a/b%20c") false
  = Ok (mkStorageParts (js "acct") (Some (js "c1")) (js "a/b c") true).
Proof.
  assert (Hno : (slash ∉ js "acct") /\ (slash ∉ js "c1")).
  { split; intros Hin%list_elem_of_In; vm_compute in Hin; decompose [or] Hin; done. }
  destruct Hno. split.
  - refine (names_read_back (js "127.0.0.1") (js "/acct-secondary/c%31/a%2Fb%20c") false (js "acct") (js "c1")
      (js "a/b c") true _ _ _ _); [|done..].
    exists (js "c%31"), (js "a%2Fb%20c"). split; [by vm_compute|]. split; [by vm_compute|].
    exists (js "acct-secondary"). split; by vm_compute.
  - refine (names_read_back (js "acct-secondary.blob.localhost") (js "/c%31/a/b%20c") false (js "acct") (js "c1")
      (js "a/b c") true _ _ _ _); [|done..].
    exists (js "c%31"), (js "a/b%20c"). split; [by vm_compute|]. split; [by vm_compute|]. by vm_compute.
Defined.
