(* ===== verification/BlobPropertyHandlers.v ===== *)
(** * BlobPropertyHandlers: the requests on blobs but for their content

    src/src/blob/handlers/BlobHandler.ts but for the downloads: properties, metadata,
    tags, tiers, leases, snapshots and copies, over the blob metadata store. The optional
    parameters are arguments, the duration of a lease is given, a sequence number is a
    number. [newURL] is the class URL of Node. The service asks itself for the source
    of a copy: [axios_get] is the answer, with the message in it ([parseXML]). *)

From Stdlib Require Import Ascii.
From S2P Require Import Prelude Errors Loki Utf8 Texts TagQuery Conditions Lease BlobModels BlobContainers BlobStore BlobUrls BlobHttp BlobHandlers ContainerHandlers.
Open Scope Z_scope.
Open Scope azurite_scope.

(** The response of Get Blob Properties; without the details for [comp=metadata]. *)
Record Properties := mkPropertiesResponse {
  gp_blob : BlobModel;
  gp_details : option (BlobHTTPHeaders * option Z)
}.

(** The copy in a response. *)
Record Copied := mkCopied {
  cp_modified : Modified;
  cp_copyId : option string;
  cp_copyStatus : option string
}.

(** The parts of a [URL] the handlers read. *)
Record SourceUrl := mkSourceUrl {
  url_hostname : string;
  url_host : string;
  url_pathname : string;
  url_searchParams : string -> option string
}.

(** The response to the request for the source: [message] is the [Message] of its body. *)
Record SourceResponse := mkSourceResponse {
  sr_status : Z;
  sr_contentType : option string;
  sr_message : res (option string)
}.

(** What a client asks for of a copy. *)
Record CopyRequest := mkCopyRequest {
  cr_tier : option string;
  cr_options : CopyOptions;
  cr_blobTagsString : option string;
  cr_requestId : option string
}.

Definition success : string := "success".

(** The status of a copy that was made. *)
Definition copy_status (p : BlobProperties) : option string := (fun _ => success) <$> p.(bp_copy).
Definition copy_id (p : BlobProperties) : option string := copyId <$> p.(bp_copy).

Definition sequence_action (action : string) : SequenceNumberActionType :=
  if action === "max"%string then Max
  else if action === "increment"%string then Increment
  else if action === "update"%string then Update
  else OtherAction action.

(** [message.replace(/\n+/gm, "")]. *)
Definition without_newlines (s : string) : string :=
  String.string_of_list_ascii
    (List.filter (fun c => negb (Ascii.eqb c "010"%char)) (String.list_ascii_of_string s)).

(** [!options.metadata || JSON.stringify(options.metadata) === "{}" ? undefined : metadata]. *)
Definition snapshot_metadata_option (parameter metadata : option (list (string * string))) :
    option (list (string * string)) :=
  match parameter with None | Some [] => None | Some _ => metadata end.

Definition modified_properties (p : BlobProperties) : Modified := mkModified p.(bp_etag) p.(bp_lastModified).

Section Handlers.
Context {coll : Type -> Type} `{Loki coll} {P : Type}.
Context (newURL : string -> option SourceUrl) (axios_get : string -> SourceResponse).
Context (disableProductStyleUrl : bool).
Abbreviation store := (proc (BlobDb coll P) exn).
Implicit Types (ctx : BlobStorageContext) (env : Env).

(** ** Properties *)

Definition getProperties (snapshot leaseId : option string) (mac : option ModifiedAccessConditions)
    (clientId : option string) ctx : store (Response Properties) :=
  res ← getBlobProperties (store_ctx ctx) ctx.(ctx_account) ctx.(ctx_container) ctx.(ctx_blob) snapshot leaseId mac;
  let againstMetadata := ctx.(request).(getQuery) "comp"%string === Some "metadata"%string in
  let p := res.1.(b_properties) in
  mret (respond ctx 200 clientId
    (mkPropertiesResponse res.1
       (if againstMetadata then None
        else Some (overridden ctx.(request) p.(bp_headers),
                   if p.(bp_blobType) === Some AppendBlob then res.2 else None)))).

Definition delete_ (snapshot : option string) (deleteSnapshots : option DeleteSnapshotsOptionType)
    (leaseId : option string) (mac : option ModifiedAccessConditions) (clientId : option string) ctx :
    store (Response unit) :=
  _ ← deleteBlob (store_ctx ctx) ctx.(ctx_account) ctx.(ctx_container) ctx.(ctx_blob) snapshot deleteSnapshots
        leaseId mac;
  mret (respond ctx 202 clientId tt).

Definition undelete ctx : store unit := throw (BlobErrors.NotImplementedError ctx.(contextId)).
Definition setExpiry ctx : store unit := throw (BlobErrors.NotImplementedError ctx.(contextId)).

(** The etag and the time, and the sequence number. A header of an action makes it the
    request for sequence numbers. *)
Definition setHTTPHeaders env (sequenceNumber : option Z) (blobHTTPHeaders : option BlobHTTPHeaders)
    (leaseId : option string) (mac : option ModifiedAccessConditions) (clientId : option string) ctx :
    store (Response (Modified * option Z)) :=
  res ← match ctx.(request).(getHeader) "x-ms-sequence-number-action"%string with
        | Some action =>
            BlobStore.updateSequenceNumber env (store_ctx ctx) ctx.(ctx_account) ctx.(ctx_container) ctx.(ctx_blob)
              (sequence_action (toLowerCase action)) sequenceNumber leaseId mac
        | None =>
            setBlobHTTPHeaders env (store_ctx ctx) ctx.(ctx_account) ctx.(ctx_container) ctx.(ctx_blob)
              leaseId blobHTTPHeaders mac
        end;
  mret (respond ctx 200 clientId (modified_properties res, res.(bp_blobSequenceNumber))).

Definition setImmutabilityPolicy ctx : store unit := throw (BlobErrors.NotImplementedError ctx.(contextId)).
Definition deleteImmutabilityPolicy ctx : store unit := throw (BlobErrors.NotImplementedError ctx.(contextId)).
Definition setLegalHold ctx : store unit := throw (BlobErrors.NotImplementedError ctx.(contextId)).
Definition query ctx : store unit := throw (BlobErrors.NotImplementedError ctx.(contextId)).

Definition setMetadata env (leaseId : option string) (mac : option ModifiedAccessConditions)
    (clientId : option string) ctx : store (Response Modified) :=
  metadata ← lift (convertRawHeadersToMetadata ctx.(request).(getRawHeaders) ctx.(contextId));
  res ← setBlobMetadata env (store_ctx ctx) ctx.(ctx_account) ctx.(ctx_container) ctx.(ctx_blob) leaseId metadata mac;
  mret (respond ctx 200 clientId (modified_properties res)).

(** ** Leases *)

Definition acquireLease env (duration : Z) (proposedLeaseId : option string)
    (mac : option ModifiedAccessConditions) (clientId : option string) ctx :
    store (Response (Modified * option string)) :=
  _ ← match ctx.(request).(getQuery) "snapshot"%string with
      | None | Some EmptyString => mret tt
      | Some _ => throw (BlobErrors.getInvalidOperation ctx.(contextId) "A lease cannot be granted for a blob snapshot")
      end;
  res ← acquireBlobLease env (store_ctx ctx) ctx.(ctx_account) ctx.(ctx_container) ctx.(ctx_blob) duration
          proposedLeaseId mac;
  mret (respond ctx 201 clientId (modified_properties res.1.(b_properties), res.2)).

Definition releaseLease (leaseId : string) (mac : option ModifiedAccessConditions) (clientId : option string) ctx :
    store (Response Modified) :=
  res ← releaseBlobLease (store_ctx ctx) ctx.(ctx_account) ctx.(ctx_container) ctx.(ctx_blob) leaseId mac;
  mret (respond ctx 200 clientId (modified_properties res.(b_properties))).

Definition renewLease (leaseId : string) (mac : option ModifiedAccessConditions) (clientId : option string) ctx :
    store (Response (Modified * option string)) :=
  res ← renewBlobLease (store_ctx ctx) ctx.(ctx_account) ctx.(ctx_container) ctx.(ctx_blob) leaseId mac;
  mret (respond ctx 200 clientId (modified_properties res.1.(b_properties), res.2)).

Definition changeLease (leaseId proposedLeaseId : string) (mac : option ModifiedAccessConditions)
    (clientId : option string) ctx : store (Response (Modified * option string)) :=
  res ← changeBlobLease (store_ctx ctx) ctx.(ctx_account) ctx.(ctx_container) ctx.(ctx_blob) leaseId proposedLeaseId mac;
  mret (respond ctx 200 clientId (modified_properties res.1.(b_properties), res.2)).

Definition breakLease (breakPeriod : option Z) (mac : option ModifiedAccessConditions) (clientId : option string)
    ctx : store (Response (Modified * Z)) :=
  res ← breakBlobLease (store_ctx ctx) ctx.(ctx_account) ctx.(ctx_container) ctx.(ctx_blob) breakPeriod mac;
  mret (respond ctx 202 clientId (modified_properties res.1.(b_properties), res.2)).

(** ** Snapshots *)

Definition createSnapshot (optionsMetadata : option (list (string * string))) (leaseId : option string)
    (mac : option ModifiedAccessConditions) (clientId : option string) ctx : store (Response (Modified * string)) :=
  metadata ← lift (convertRawHeadersToMetadata ctx.(request).(getRawHeaders) ctx.(contextId));
  res ← BlobStore.createSnapshot (store_ctx ctx) ctx.(ctx_account) ctx.(ctx_container) ctx.(ctx_blob) leaseId
          (snapshot_metadata_option optionsMetadata metadata) mac;
  mret (respond ctx 201 clientId (modified_properties res.1, res.2)).

(** ** Copies *)

Definition NewUriFromCopySource (copySource : string) ctx : res SourceUrl :=
  match newURL copySource with
  | Some url => Ok url
  | None => Throw (BlobErrors.getInvalidHeaderValue ctx.(contextId)
                     [("HeaderName", "x-ms-copy-source"); ("HeaderValue", copySource)]%string)
  end.

(** The source of a copy, on this service. *)
Definition copy_source (copySource : string) ctx : res (SourceUrl * BlobId) :=
  url ← NewUriFromCopySource copySource ctx;
  parts ← extractStoragePartsFromPath (js url.(url_hostname)) (js url.(url_pathname)) disableProductStyleUrl;
  let snapshot := str_or (default EmptyString (url.(url_searchParams) "snapshot"%string)) EmptyString in
  match parts.(sp_container) with
  | None => Throw (BlobErrors.getBlobNotFound ctx.(contextId))
  | Some container =>
      Ok (url, mkBlobId (latin parts.(sp_account)) (latin container) (latin parts.(sp_blob)) (Some snapshot))
  end.

(** A source of another account must be on this server, which is asked for it. *)
Definition validateCopySource (copySource : string) ctx : res unit :=
  let refused := BlobErrors.getCannotVerifyCopySource ctx.(contextId) in
  let currentServer := str_or (default EmptyString (ctx.(request).(getHeader) "Host"%string)) EmptyString in
  url ← NewUriFromCopySource copySource ctx;
  throw_when (currentServer !== url.(url_host)) (refused 404 "The specified resource does not exist"%string);;
  let validationResponse := axios_get copySource in
  let status := validationResponse.(sr_status) in
  if status =? 200 then Ok tt
  else if status =? 404 then Throw (refused status "The specified resource does not exist"%string)
  else
    message ← (if validationResponse.(sr_contentType) === Some "application/xml"%string
               then validationResponse.(sr_message) else Ok None);
    Throw (refused status
      match message with
      | Some m => without_newlines m
      | None => "Could not verify the copy source within the specified time."%string
      end).

Definition startCopyFromURL env (copySource : string) (options : CopyRequest) ctx : store (Response Copied) :=
  source ← lift (copy_source copySource ctx);
  let '(url, src) := source in
  _ ← lift (if (src.(id_account) !== ctx.(ctx_account)) || defined (url.(url_searchParams) "sig"%string)
            then validateCopySource copySource ctx else Ok tt);
  metadata ← lift (convertRawHeadersToMetadata ctx.(request).(getRawHeaders) ctx.(contextId));
  res ← BlobStore.startCopyFromURL env (store_ctx ctx) src
          (mkBlobId ctx.(ctx_account) ctx.(ctx_container) ctx.(ctx_blob) None) copySource metadata
          options.(cr_tier) options.(cr_options);
  mret (respond ctx 202 options.(cr_requestId) (mkCopied (modified_properties res) (copy_id res) (copy_status res))).

Definition abortCopyFromURL (copyId : string) (leaseId clientId : option string) ctx : store (Response unit) :=
  blob ← downloadBlob (store_ctx ctx) ctx.(ctx_account) ctx.(ctx_container) ctx.(ctx_blob) None leaseId None;
  _ ← guard (copy_id blob.(b_properties) === Some copyId) (BlobErrors.getCopyIdMismatch ctx.(contextId));
  _ ← guard (copy_status blob.(b_properties) !== Some success)
        (BlobErrors.getNoPendingCopyOperation ctx.(contextId));
  mret (respond ctx 204 clientId tt).

Definition copyFromURL env (copySource : string) (options : CopyRequest) ctx : store (Response Copied) :=
  source ← lift (copy_source copySource ctx);
  let '(url, src) := source in
  _ ← lift (if src.(id_account) !== ctx.(ctx_account) then validateCopySource copySource ctx else Ok tt);
  _ ← guard (negb (options.(cr_options).(co_copySourceTags) && defined options.(cr_blobTagsString)))
        (BlobErrors.getBothUserTagsAndSourceTagsCopyPresentException ctx.(contextId));
  metadata ← lift (convertRawHeadersToMetadata ctx.(request).(getRawHeaders) ctx.(contextId));
  res ← BlobStore.copyFromURL env (store_ctx ctx) src
          (mkBlobId ctx.(ctx_account) ctx.(ctx_container) ctx.(ctx_blob) None) copySource metadata
          options.(cr_tier) options.(cr_options);
  copyStatus ← match copy_status res with
               | None => mret None
               | Some s => if s === success then mret (Some success)
                           else throw (BlobErrors.getUnexpectedSyncCopyStatus ctx.(contextId) s)
               end;
  mret (respond ctx 202 options.(cr_requestId) (mkCopied (modified_properties res) (copy_id res) copyStatus)).

(** ** Tiers and tags *)

(** The status is that of the store. *)
Definition setTier (tier : string) (leaseId clientId : option string) ctx : store (Response unit) :=
  res ← BlobStore.setTier (store_ctx ctx) ctx.(ctx_account) ctx.(ctx_container) ctx.(ctx_blob) tier leaseId;
  mret (undated ctx res clientId tt).

Definition getAccountInfo ctx : store (Response AccountInfo) :=
  mret (respond ctx 200 (ctx.(request).(getHeader) "x-ms-client-request-id"%string)
    (mkAccountInfo EMULATOR_ACCOUNT_SKUNAME EMULATOR_ACCOUNT_KIND None)).

Definition getAccountInfoWithHead ctx : store (Response AccountInfo) := getAccountInfo ctx.

Definition getTags (snapshot leaseId : option string) (mac : option ModifiedAccessConditions)
    (clientId : option string) ctx : store (Response (list BlobTag)) :=
  tags ← getBlobTag (store_ctx ctx) ctx.(ctx_account) ctx.(ctx_container) ctx.(ctx_blob) snapshot leaseId mac;
  mret (respond ctx 200 clientId (default [] tags)).

Definition setTags (tags : list BlobTag) (leaseId clientId : option string) ctx : store (Response unit) :=
  _ ← lift (validateBlobTag tags ctx.(contextId));
  _ ← setBlobTag (store_ctx ctx) ctx.(ctx_account) ctx.(ctx_container) ctx.(ctx_blob)
        (ctx.(request).(getQuery) "snapshot"%string) leaseId (Some tags);
  mret (respond ctx 204 clientId tt).
End Handlers.
