(* ===== verification/BlobServiceHandlers.v ===== *)
(** * BlobServiceHandlers: the requests on the service

    src/src/blob/handlers/ServiceHandler.ts over the blob metadata store, but for
    batches of requests, and getUserDelegationKeyValue of src/src/blob/utils/utils.ts.
    The optional parameters are arguments; [has_cors] says whether the XML of a body has
    an element of that name ([parseXML]), [decode] is that of jsonwebtoken, [hmac] the
    base64 of the HMAC-SHA256 of a text under a key. *)

From Stdlib Require Import Ascii.
From S2P Require Import Prelude Errors Loki Utf8 Texts TagQuery Conditions Lease BlobModels BlobContainers BlobStore BlobLists BlobHttp ContainerHandlers.
Open Scope Z_scope.
Open Scope azurite_scope.

Definition BLOB_API_VERSION : string := "2025-11-05".
Definition DEFAULT_LIST_CONTAINERS_MAX_RESULTS : Z := 5000.
Definition BEARER_TOKEN_PREFIX : string := "Bearer".
Definition USERDELEGATIONKEY_BASIC_KEY : string :=
  "I17GKLvcJUossaebtsEDZZ2RJ8GNLwLH4m7hRMxbVbkx6wNIRAABj4Rtw0FBhFuEAgmbL4gFMzUw+AStz9Sqdg==".

(** ** The settings of an account *)

Record CorsRule := mkCorsRule {
  allowedOrigins : string;
  allowedMethods : string;
  allowedHeaders : option string;
  exposedHeaders : option string;
  maxAgeInSeconds : Z
}.
Record RetentionPolicy := mkRetentionPolicy { rp_enabled : bool; rp_days : option Z }.
Record Metrics := mkMetrics {
  m_version : option string;
  m_enabled : bool;
  m_includeAPIs : option bool;
  m_retentionPolicy : option RetentionPolicy
}.
Record Logging := mkLogging {
  l_version : string;
  l_deleteProperty : bool;
  l_read : bool;
  l_write : bool;
  l_retentionPolicy : RetentionPolicy
}.
Record StaticWebsite := mkStaticWebsite {
  w_enabled : bool;
  w_indexDocument : option string;
  w_errorDocument404Path : option string;
  w_defaultIndexDocumentPath : option string
}.

(** A setting of any kind, as the store keeps it. *)
Inductive Setting :=
| SCors (rules : list CorsRule)
| SMetrics (m : Metrics)
| SLogging (l : Logging)
| SVersion (v : string)
| SRetention (r : RetentionPolicy)
| SWebsite (w : StaticWebsite).

Abbreviation Settings := (ServicePropertiesModel Setting).

Definition no_metrics : Metrics := mkMetrics (Some "1.0"%string) false None (Some (mkRetentionPolicy false None)).

Definition defaultServiceProperties (accountName : string) : Settings :=
  mkServiceProperties accountName (Some (SCors [])) (Some (SMetrics no_metrics))
    (Some (SLogging (mkLogging "1.0" true true true (mkRetentionPolicy false None))))
    (Some (SMetrics no_metrics)) (Some (SVersion BLOB_API_VERSION)) None
    (Some (SWebsite (mkStaticWebsite false None None None))).

Definition or_default (o d : option Setting) : option Setting := match o with Some x => Some x | None => d end.

(** The settings that are [undefined] are set in the document. *)
Definition with_defaults (p : Settings) : Settings :=
  let d := defaultServiceProperties p.(sp_accountName) in
  mkServiceProperties p.(sp_accountName) (or_default p.(sp_cors) d.(sp_cors))
    (or_default p.(sp_hourMetrics) d.(sp_hourMetrics)) (or_default p.(sp_logging) d.(sp_logging))
    (or_default p.(sp_minuteMetrics) d.(sp_minuteMetrics))
    (or_default p.(sp_defaultServiceVersion) d.(sp_defaultServiceVersion)) p.(sp_deleteRetentionPolicy)
    (or_default p.(sp_staticWebsite) d.(sp_staticWebsite)).

Definition fill_cors (c : CorsRule) : CorsRule :=
  mkCorsRule c.(allowedOrigins) c.(allowedMethods) (Some (str_or (default EmptyString c.(allowedHeaders)) EmptyString))
    (Some (str_or (default EmptyString c.(exposedHeaders)) EmptyString)) c.(maxAgeInSeconds).

(** What becomes of the rules of a body. *)
Definition given_cors (has_cors : bool) (cors : option Setting) : option Setting :=
  if has_cors then
    match cors with
    | Some (SCors rules) => Some (SCors (fill_cors <$> rules))
    | c => c
    end
  else None.

(** ** Keys of users *)

Record KeyInfo := mkKeyInfo { ki_start : string; ki_expiry : string }.
Record Token := mkToken { oid : option string; tid : option string }.
Record UserDelegationKey := mkUserDelegationKey {
  signedOid : option string;
  signedTid : option string;
  signedService : string;
  signedVersion : string;
  signedStart : string;
  signedExpiry : string;
  uk_value : string
}.

Fixpoint join_lines (l : list string) : string :=
  match l with
  | [] => EmptyString
  | [x] => x
  | x :: l => (x ++ String "010"%char (join_lines l))%string
  end.

(** ** The requests *)

Record ContainersSegment := mkContainersSegment {
  cs_containerItems : list ContainerModel;
  cs_maxResults : Z;
  cs_nextMarker : string;
  cs_prefix : string;
  cs_serviceEndpoint : string
}.

Definition container_with_metadata (m : option (list (string * string))) (c : ContainerModel) : ContainerModel :=
  mkContainer c.(c_accountName) c.(c_name) c.(c_lastModified) c.(c_etag) c.(c_publicAccess) c.(c_lease) m
    c.(c_containerAcl).

Section Handlers.
Context {coll : Type -> Type} `{Loki coll}.
Context (has_cors : text -> res bool) (decode : string -> option Token) (hmac : string -> string -> string).
Abbreviation store := (proc (BlobDb coll Setting) exn).
Implicit Types (ctx : BlobStorageContext) (env : Env).

Definition getUserDelegationKeyValue (signedObjectid signedTenantid : option string)
    (signedStartsOn signedExpiresOn signedVersion : string) : string :=
  hmac USERDELEGATIONKEY_BASIC_KEY
    (join_lines [default EmptyString signedObjectid; default EmptyString signedTenantid; signedStartsOn;
                 signedExpiresOn; "b"%string; signedVersion]).

(** The token is what follows the prefix and a blank. *)
Definition getUserDelegationKey (keyInfo : KeyInfo) ctx : store (Response UserDelegationKey) :=
  match ctx.(request).(getHeader) "authorization"%string with
  | None => throw TypeError
  | Some authHeaderValue =>
      let n := S (String.length BEARER_TOKEN_PREFIX) in
      match decode (String.substring n (String.length authHeaderValue - n) authHeaderValue) with
      | None => throw TypeError
      | Some t =>
          mret (mkResponse
            (mkUserDelegationKey t.(oid) t.(tid) "b" BLOB_API_VERSION keyInfo.(ki_start) keyInfo.(ki_expiry)
               (getUserDelegationKeyValue t.(oid) t.(tid) keyInfo.(ki_start) keyInfo.(ki_expiry) BLOB_API_VERSION))
            None None 200 None)
      end
  end.

(** The properties of the body go to the account of the request. *)
Definition setProperties (p : Settings) (clientId : option string) ctx : store (Response unit) :=
  cors ← lift (has_cors (default [] ctx.(request).(getBody)));
  _ ← setServiceProperties
        (mkServiceProperties ctx.(ctx_account) (given_cors cors p.(sp_cors)) p.(sp_hourMetrics) p.(sp_logging)
           p.(sp_minuteMetrics) p.(sp_defaultServiceVersion) p.(sp_deleteRetentionPolicy) p.(sp_staticWebsite));
  mret (undated ctx 202 clientId tt).

(** The store returns the document itself, which is changed. *)
Definition getProperties (clientId : option string) ctx : store (Response Settings) :=
  s ← get_state;
  p ← match findOne (fun d => d.(sp_accountName) === ctx.(ctx_account)) s.(services) with
      | Some (i, doc) =>
          _ ← update_db (set_services (lk_update i (with_defaults doc) s.(services)));
          mret (with_defaults doc)
      | None => mret (defaultServiceProperties ctx.(ctx_account))
      end;
  mret (undated ctx 200 clientId p).

(** The status of the replication is [live], its time that of the request. *)
Definition getStatistics (isSecondary : bool) (clientId : option string) ctx : store (Response Z) :=
  _ ← guard isSecondary (BlobErrors.getInvalidQueryParameterValue ctx.(contextId) None None None);
  mret (respond ctx 200 clientId ctx.(startTime)).

Definition listContainersSegment (options : ListOptions) (endpoint : string) ctx :
    store (Response ContainersSegment) :=
  let maxresults := match options.(lo_maxresults) with
                    | Some n => if n =? 0 then DEFAULT_LIST_CONTAINERS_MAX_RESULTS else n
                    | None => DEFAULT_LIST_CONTAINERS_MAX_RESULTS
                    end in
  let prefix := default EmptyString options.(lo_prefix) in
  containers ← listContainers (store_ctx ctx) ctx.(ctx_account) prefix maxresults
                 (default EmptyString options.(lo_marker));
  let includeMetadata := ContainerHandlers.includes "metadata" options.(lo_include) in
  mret (undated ctx 200 options.(lo_requestId)
    (mkContainersSegment
       ((fun c => container_with_metadata (if includeMetadata then c.(c_metadata) else None) c) <$> containers.1)
       maxresults (default EmptyString containers.2) prefix (service_endpoint endpoint ctx.(ctx_account)))).

Definition getAccountInfo ctx : store (Response AccountInfo) :=
  mret (respond ctx 200 (ctx.(request).(getHeader) "x-ms-client-request-id"%string)
    (mkAccountInfo EMULATOR_ACCOUNT_SKUNAME EMULATOR_ACCOUNT_KIND (Some false))).

Definition getAccountInfoWithHead ctx : store (Response AccountInfo) := getAccountInfo ctx.

Definition filterBlobs (options : FilterOptions) (endpoint : string) ctx : store (Response FilterSegment) :=
  r ← BlobLists.filterBlobs (store_ctx ctx) ctx.(ctx_account) None options.(fo_where)
        (max_results options.(fo_maxresults)) (default EmptyString options.(fo_marker));
  mret (respond ctx 200 options.(fo_requestId)
    (mkFilterSegment (service_endpoint endpoint ctx.(ctx_account)) options.(fo_where) r.1 r.2)).
End Handlers.

(** A body without cors leaves those of the account; the settings that were never set
    are those of the defaults. *)
Example cors_kept :
  given_cors false (Some (SCors [])) = None /\
  (with_defaults (mkServiceProperties "a" None None None None None None None)).(sp_cors) = Some (SCors []).
Proof. by split. Qed.
