(* ===== verification/BlobService.v ===== *)
(** * BlobService: the blob service as a whole

    src/src/blob/generated/handlers/handlerMappers.ts: the operations of the service
    (artifacts/operation.ts) with the arguments the deserializer has read, and the
    handler each goes to. A server is its state, [BlobService], and what it was started
    with, [Server]; what a request finds besides is its [Arrival]. Batches are left out,
    and the request a copy makes to the service itself is an answer given. *)

From S2P Require Import Prelude Errors Extents Loki Utf8 TagQuery Conditions Lease LeaseSpec PageRanges.
From S2P Require Import BlobModels BlobContainers BlobStore BlobChanges BlobHttp.
From S2P Require ContainerHandlers BlobServiceHandlers BlobPropertyHandlers.
From S2P Require Import BlobHandlers.
Open Scope Z_scope.
Open Scope azurite_scope.

Abbreviation LeaseId := (option string).
Abbreviation ClientId := (option string).
Abbreviation Access := (option ModifiedAccessConditions).
Abbreviation Setting := BlobServiceHandlers.Setting.

(** ** The operations *)

(** Those no handler implements. *)
Inductive Unimplemented :=
| Container_Restore
| Blob_Undelete | Blob_SetExpiry | Blob_SetImmutabilityPolicy | Blob_DeleteImmutabilityPolicy | Blob_SetLegalHold
| Blob_Query
| PageBlob_UploadPagesFromURL | PageBlob_GetPageRangesDiff | PageBlob_CopyIncremental
| AppendBlob_AppendBlockFromUrl
| BlockBlob_PutBlobFromUrl | BlockBlob_StageBlockFromURL.

(** The account information of the service, a container or a blob. *)
Inductive Level := Service | Container | Blob.

Inductive ServiceOperation :=
| Service_SetProperties (p : BlobServiceHandlers.Settings) (r : ClientId)
| Service_GetProperties (r : ClientId)
| Service_GetStatistics (isSecondary : bool) (r : ClientId)
| Service_ListContainersSegment (options : ContainerHandlers.ListOptions)
| Service_GetUserDelegationKey (keyInfo : BlobServiceHandlers.KeyInfo)
| Service_FilterBlobs (options : ContainerHandlers.FilterOptions)
| GetAccountInfo (level : Level).

Inductive ContainerOperation :=
| Container_Create (access : option string) (r : ClientId)
| Container_GetProperties (l : LeaseId) (r : ClientId)
| Container_Delete (l : LeaseId) (mac : Access) (r : ClientId)
| Container_SetMetadata (l : LeaseId) (mac : Access) (r : ClientId)
| Container_GetAccessPolicy (l : LeaseId) (r : ClientId)
| Container_SetAccessPolicy (access : option string) (acl : option (list AccessPolicy)) (l : LeaseId) (mac : Access)
    (r : ClientId)
| Container_FilterBlobs (options : ContainerHandlers.FilterOptions)
| Container_AcquireLease (duration : Z) (proposed : option string) (mac : Access) (r : ClientId)
| Container_ReleaseLease (leaseId : string) (mac : Access) (r : ClientId)
| Container_RenewLease (leaseId : string) (mac : Access) (r : ClientId)
| Container_BreakLease (breakPeriod : option Z) (mac : Access) (r : ClientId)
| Container_ChangeLease (leaseId proposed : string) (mac : Access) (r : ClientId)
| Container_ListBlobFlatSegment (options : ContainerHandlers.ListOptions)
| Container_ListBlobHierarchySegment (delimiter : string) (options : ContainerHandlers.ListOptions).

Inductive BlobOperation :=
| Blob_Download (options : DownloadOptions)
| Blob_GetProperties (snapshot : option string) (l : LeaseId) (mac : Access) (r : ClientId)
| Blob_Delete (snapshot : option string) (deleteSnapshots : option DeleteSnapshotsOptionType) (l : LeaseId)
    (mac : Access) (r : ClientId)
| Blob_SetHTTPHeaders (sequenceNumber : option Z) (h : option BlobHTTPHeaders) (l : LeaseId) (mac : Access)
    (r : ClientId)
| Blob_SetMetadata (l : LeaseId) (mac : Access) (r : ClientId)
| Blob_AcquireLease (duration : Z) (proposed : option string) (mac : Access) (r : ClientId)
| Blob_ReleaseLease (leaseId : string) (mac : Access) (r : ClientId)
| Blob_RenewLease (leaseId : string) (mac : Access) (r : ClientId)
| Blob_ChangeLease (leaseId proposed : string) (mac : Access) (r : ClientId)
| Blob_BreakLease (breakPeriod : option Z) (mac : Access) (r : ClientId)
| Blob_CreateSnapshot (metadata : option (list (string * string))) (l : LeaseId) (mac : Access) (r : ClientId)
| Blob_StartCopyFromURL (copySource : string) (options : BlobPropertyHandlers.CopyRequest)
| Blob_CopyFromURL (copySource : string) (options : BlobPropertyHandlers.CopyRequest)
| Blob_AbortCopyFromURL (copyId : string) (l : LeaseId) (r : ClientId)
| Blob_SetTier (tier : string) (l : LeaseId) (r : ClientId)
| Blob_GetTags (snapshot : option string) (l : LeaseId) (mac : Access) (r : ClientId)
| Blob_SetTags (tags : list BlobTag) (l : LeaseId) (r : ClientId).

(** Those of block, page and append blobs. *)
Inductive ContentOperation :=
| PageBlob_Create (contentLength blobContentLength : Z) (sequenceNumber : option Z) (options : WriteOptions)
| PageBlob_UploadPages (body : bytes) (contentLength : Z) (l : LeaseId) (mac : Access)
    (snac : option SequenceNumberAccessConditions) (r : ClientId)
| PageBlob_ClearPages (contentLength : Z) (l : LeaseId) (mac : Access) (snac : option SequenceNumberAccessConditions)
    (r : ClientId)
| PageBlob_GetPageRanges (snapshot : option string) (l : LeaseId) (mac : Access) (r : ClientId)
| PageBlob_Resize (blobContentLength : Z) (l : LeaseId) (mac : Access) (r : ClientId)
| PageBlob_UpdateSequenceNumber (action : SequenceNumberActionType) (sequenceNumber : option Z) (l : LeaseId)
    (mac : Access) (r : ClientId)
| AppendBlob_Create (contentLength : Z) (options : WriteOptions)
| AppendBlob_AppendBlock (body : bytes) (contentLength : Z) (l : LeaseId) (mac : Access)
    (apac : AppendPositionAccessConditions) (r : ClientId)
| AppendBlob_Seal (l : LeaseId) (mac : Access) (r : ClientId)
| BlockBlob_Upload (body : bytes) (contentLength : Z) (options : WriteOptions)
| BlockBlob_StageBlock (blockId : string) (contentLength : Z) (body : bytes) (md5 : option string) (l : LeaseId)
    (r : ClientId)
| BlockBlob_CommitBlockList (options : WriteOptions)
| BlockBlob_GetBlockList (listType snapshot : option string) (l : LeaseId) (mac : Access) (r : ClientId).

Inductive Operation :=
| OnService (o : ServiceOperation)
| OnContainer (o : ContainerOperation)
| OnBlob (o : BlobOperation)
| OnContent (o : ContentOperation)
| NotImplemented (o : Unimplemented).

(** A request that is let in: its context, the etags and ids the service draws for
    it, and the id of the next extent. *)
Record Arrival := mkArrival {
  ar_env : Env;
  ar_ctx : BlobStorageContext;
  ar_extentId : string;
  ar_operation : Operation
}.

(** What a server is started with: [--loose], the endpoint, [--disableProductStyleUrl]; and the
    libraries it uses. *)
Record Server := mkServer {
  loose : bool;
  endpoint : string;
  disableProductStyleUrl : bool;
  md5 : bytes -> string;
  parseXML : text -> res (option (list (option string * option string)));
  has_cors : text -> res bool;
  decode : string -> option BlobServiceHandlers.Token;
  hmac : string -> string -> string;
  newURL : string -> option BlobPropertyHandlers.SourceUrl;
  axios_get : string -> BlobPropertyHandlers.SourceResponse
}.

(** ** What an operation may do *)

(** The lease ids it presents to a write or a lease of a blob; a read needs none. *)
Definition blob_leases (o : BlobOperation) : list string :=
  match o with
  | Blob_Delete _ _ l _ _ | Blob_SetHTTPHeaders _ _ l _ _ | Blob_SetMetadata l _ _ | Blob_CreateSnapshot _ l _ _
  | Blob_SetTier _ l _ | Blob_SetTags _ l _ => option_list l
  | Blob_AcquireLease _ proposed _ _ => [default EmptyString proposed]
  | Blob_ReleaseLease leaseId _ _ | Blob_RenewLease leaseId _ _ => [leaseId]
  | Blob_ChangeLease leaseId proposed _ _ => [leaseId; proposed]
  | Blob_StartCopyFromURL _ options | Blob_CopyFromURL _ options =>
      option_list options.(BlobPropertyHandlers.cr_options).(co_leaseAccessId)
  | Blob_Download _ | Blob_GetProperties _ _ _ _ | Blob_BreakLease _ _ _ | Blob_AbortCopyFromURL _ _ _
  | Blob_GetTags _ _ _ _ => []
  end.

Definition content_leases (o : ContentOperation) : list string :=
  match o with
  | PageBlob_UploadPages _ _ l _ _ _ | PageBlob_ClearPages _ l _ _ _ | PageBlob_Resize _ l _ _
  | PageBlob_UpdateSequenceNumber _ _ l _ _ | AppendBlob_AppendBlock _ _ l _ _ _ | AppendBlob_Seal l _ _
  | BlockBlob_StageBlock _ _ _ _ l _ => option_list l
  | PageBlob_Create _ _ _ options | AppendBlob_Create _ options | BlockBlob_Upload _ _ options
  | BlockBlob_CommitBlockList options => option_list options.(wo_leaseId)
  | PageBlob_GetPageRanges _ _ _ _ | BlockBlob_GetBlockList _ _ _ _ _ => []
  end.

Definition presented (o : Operation) : list string :=
  match o with
  | OnBlob o => blob_leases o
  | OnContent o => content_leases o
  | OnService _ | OnContainer _ | NotImplemented _ => []
  end.

(** Lease ids are compared without their case. *)
Definition presents_lease (o : Operation) (id : string) : bool :=
  existsb (fun i => toLowerCase i === toLowerCase id) (presented o).

Definition is_break (o : Operation) : bool := match o with OnBlob (Blob_BreakLease _ _ _) => true | _ => false end.
Definition is_copy (o : Operation) : bool :=
  match o with OnBlob (Blob_StartCopyFromURL _ _ | Blob_CopyFromURL _ _) => true | _ => false end.
Definition is_drop (o : Operation) : bool := match o with OnContainer (Container_Delete _ _ _) => true | _ => false end.

Definition arrival_licence (a : Arrival) : Licence :=
  mkLicence a.(ar_ctx).(startTime) (presents_lease a.(ar_operation)) (is_break a.(ar_operation))
    (is_copy a.(ar_operation)) (is_drop a.(ar_operation)).

(** ** Running an operation *)

Section Run.
Context {coll : Type -> Type} `{Loki coll} {E : Type} `{IExtentStore E} `{!IExtentReader E} (server : Server).
Abbreviation state := (BlobService coll Setting E).
Abbreviation service := (proc state exn).

(** The response is left to the client. *)
Definition done_with {A} (m : service A) : service unit := _ ← m; mret tt.

Definition run_unimplemented (ctx : BlobStorageContext) (o : Unimplemented) : service unit :=
  match o with
  | Container_Restore => on_db (ContainerHandlers.restore ctx)
  | Blob_Undelete => on_db (BlobPropertyHandlers.undelete ctx)
  | Blob_SetExpiry => on_db (BlobPropertyHandlers.setExpiry ctx)
  | Blob_SetImmutabilityPolicy => on_db (BlobPropertyHandlers.setImmutabilityPolicy ctx)
  | Blob_DeleteImmutabilityPolicy => on_db (BlobPropertyHandlers.deleteImmutabilityPolicy ctx)
  | Blob_SetLegalHold => on_db (BlobPropertyHandlers.setLegalHold ctx)
  | Blob_Query => on_db (BlobPropertyHandlers.query ctx)
  | PageBlob_UploadPagesFromURL => uploadPagesFromURL ctx
  | PageBlob_GetPageRangesDiff => getPageRangesDiff ctx
  | PageBlob_CopyIncremental => copyIncremental ctx
  | AppendBlob_AppendBlockFromUrl => appendBlockFromUrl ctx
  | BlockBlob_PutBlobFromUrl => putBlobFromUrl ctx
  | BlockBlob_StageBlockFromURL => stageBlockFromURL ctx
  end.

Definition run_service_operation (ctx : BlobStorageContext) (o : ServiceOperation) : service unit :=
  match o with
  | Service_SetProperties p r => done_with (on_db (BlobServiceHandlers.setProperties server.(has_cors) p r ctx))
  | Service_GetProperties r => done_with (on_db (BlobServiceHandlers.getProperties r ctx))
  | Service_GetStatistics isSecondary r => done_with (on_db (BlobServiceHandlers.getStatistics isSecondary r ctx))
  | Service_ListContainersSegment options =>
      done_with (on_db (BlobServiceHandlers.listContainersSegment options server.(endpoint) ctx))
  | Service_GetUserDelegationKey keyInfo =>
      done_with (on_db (BlobServiceHandlers.getUserDelegationKey server.(decode) server.(hmac) keyInfo ctx))
  | Service_FilterBlobs options => done_with (on_db (BlobServiceHandlers.filterBlobs options server.(endpoint) ctx))
  | GetAccountInfo Service => done_with (on_db (BlobServiceHandlers.getAccountInfo ctx))
  | GetAccountInfo Container => done_with (on_db (ContainerHandlers.getAccountInfo ctx))
  | GetAccountInfo Blob => done_with (on_db (BlobPropertyHandlers.getAccountInfo ctx))
  end.

Definition run_container_operation (env : Env) (ctx : BlobStorageContext) (o : ContainerOperation) : service unit :=
  match o with
  | Container_Create access r => done_with (on_db (ContainerHandlers.create env access r ctx))
  | Container_GetProperties l r => done_with (on_db (ContainerHandlers.getProperties l r ctx))
  | Container_Delete l mac r => done_with (on_db (ContainerHandlers.delete_ l mac r ctx))
  | Container_SetMetadata l mac r => done_with (on_db (ContainerHandlers.setMetadata env l mac r ctx))
  | Container_GetAccessPolicy l r => done_with (on_db (ContainerHandlers.getAccessPolicy l r ctx))
  | Container_SetAccessPolicy access acl l mac r =>
      done_with (on_db (ContainerHandlers.setAccessPolicy env access acl l mac r ctx))
  | Container_FilterBlobs options => done_with (on_db (ContainerHandlers.filterBlobs options server.(endpoint) ctx))
  | Container_AcquireLease d p mac r => done_with (on_db (ContainerHandlers.acquireLease env d p mac r ctx))
  | Container_ReleaseLease l mac r => done_with (on_db (ContainerHandlers.releaseLease l mac r ctx))
  | Container_RenewLease l mac r => done_with (on_db (ContainerHandlers.renewLease l mac r ctx))
  | Container_BreakLease p mac r => done_with (on_db (ContainerHandlers.breakLease p mac r ctx))
  | Container_ChangeLease l p mac r => done_with (on_db (ContainerHandlers.changeLease l p mac r ctx))
  | Container_ListBlobFlatSegment options =>
      done_with (on_db (ContainerHandlers.listBlobFlatSegment options server.(endpoint) ctx))
  | Container_ListBlobHierarchySegment delimiter options =>
      done_with (on_db (ContainerHandlers.listBlobHierarchySegment delimiter options server.(endpoint) ctx))
  end.

Definition run_blob_operation (env : Env) (ctx : BlobStorageContext) (o : BlobOperation) : service unit :=
  match o with
  | Blob_Download options => done_with (download server.(md5) options ctx)
  | Blob_GetProperties sn l mac r => done_with (on_db (BlobPropertyHandlers.getProperties sn l mac r ctx))
  | Blob_Delete sn d l mac r => done_with (on_db (BlobPropertyHandlers.delete_ sn d l mac r ctx))
  | Blob_SetHTTPHeaders n h l mac r => done_with (on_db (BlobPropertyHandlers.setHTTPHeaders env n h l mac r ctx))
  | Blob_SetMetadata l mac r => done_with (on_db (BlobPropertyHandlers.setMetadata env l mac r ctx))
  | Blob_AcquireLease d p mac r => done_with (on_db (BlobPropertyHandlers.acquireLease env d p mac r ctx))
  | Blob_ReleaseLease l mac r => done_with (on_db (BlobPropertyHandlers.releaseLease l mac r ctx))
  | Blob_RenewLease l mac r => done_with (on_db (BlobPropertyHandlers.renewLease l mac r ctx))
  | Blob_ChangeLease l p mac r => done_with (on_db (BlobPropertyHandlers.changeLease l p mac r ctx))
  | Blob_BreakLease p mac r => done_with (on_db (BlobPropertyHandlers.breakLease p mac r ctx))
  | Blob_CreateSnapshot md l mac r => done_with (on_db (BlobPropertyHandlers.createSnapshot md l mac r ctx))
  | Blob_StartCopyFromURL source options =>
      done_with (on_db (BlobPropertyHandlers.startCopyFromURL server.(newURL) server.(axios_get)
        server.(disableProductStyleUrl) env source options ctx))
  | Blob_CopyFromURL source options =>
      done_with (on_db (BlobPropertyHandlers.copyFromURL server.(newURL) server.(axios_get)
        server.(disableProductStyleUrl) env source options ctx))
  | Blob_AbortCopyFromURL copyId l r => done_with (on_db (BlobPropertyHandlers.abortCopyFromURL copyId l r ctx))
  | Blob_SetTier tier l r => done_with (on_db (BlobPropertyHandlers.setTier tier l r ctx))
  | Blob_GetTags sn l mac r => done_with (on_db (BlobPropertyHandlers.getTags sn l mac r ctx))
  | Blob_SetTags tags l r => done_with (on_db (BlobPropertyHandlers.setTags tags l r ctx))
  end.

Definition run_content_operation (env : Env) (ctx : BlobStorageContext) (extentId : string) (o : ContentOperation) :
    service unit :=
  match o with
  | PageBlob_Create n len seq options => done_with (createPageBlob env n len seq options ctx)
  | PageBlob_UploadPages body n l mac snac r =>
      done_with (BlobHandlers.uploadPages env body n l mac snac r extentId ctx)
  | PageBlob_ClearPages n l mac snac r => done_with (clearPages env n l mac snac r ctx)
  | PageBlob_GetPageRanges sn l mac r => done_with (BlobHandlers.getPageRanges sn l mac r ctx)
  | PageBlob_Resize len l mac r => done_with (resize env len l mac r ctx)
  | PageBlob_UpdateSequenceNumber act n l mac r =>
      done_with (BlobHandlers.updateSequenceNumber env act n l mac r ctx)
  | AppendBlob_Create n options => done_with (createAppendBlob server.(loose) env n options ctx)
  | AppendBlob_AppendBlock body n l mac apac r =>
      done_with (BlobHandlers.appendBlock server.(md5) env body n l mac apac r extentId ctx)
  | AppendBlob_Seal l mac r => done_with (seal env l mac r ctx)
  | BlockBlob_Upload body n options => done_with (upload server.(md5) env body n options extentId ctx)
  | BlockBlob_StageBlock blockId n body m l r =>
      done_with (BlobHandlers.stageBlock server.(md5) env blockId n body m l r extentId ctx)
  | BlockBlob_CommitBlockList options =>
      done_with (BlobHandlers.commitBlockList server.(md5) server.(parseXML) env options ctx)
  | BlockBlob_GetBlockList t sn l mac r => done_with (BlobHandlers.getBlockList t sn l mac r ctx)
  end.

(** The handler of an operation. *)
Definition run_operation (env : Env) (ctx : BlobStorageContext) (extentId : string) (o : Operation) : service unit :=
  match o with
  | OnService o => run_service_operation ctx o
  | OnContainer o => run_container_operation env ctx o
  | OnBlob o => run_blob_operation env ctx o
  | OnContent o => run_content_operation env ctx extentId o
  | NotImplemented o => run_unimplemented ctx o
  end.

(** A request, and requests one after the other; what one throws goes to its client. *)
Definition serve (s : state) (a : Arrival) : state :=
  (run_operation a.(ar_env) a.(ar_ctx) a.(ar_extentId) a.(ar_operation) s).2.
Definition serve_all (s : state) (arrivals : list Arrival) : state := foldl serve s arrivals.
End Run.
