(* ===== verification/BlobServiceSpec.v ===== *)
(** * BlobServiceSpec: theorems about the blob service

    Every operation of the service, through its handler, makes only the changes of the
    metadata store its licence allows ([makes]), whether it returns or throws. Hence what
    holds after any history of requests of HTTP: the invariant of the store, that a lease
    protects a blob, that snapshots do not change. *)

From stdpp Require Import relations.
From S2P Require Import Prelude ExtentMetadata MemoryExtentStore MemoryExtentStoreSpec.
From S2P Require Import Prelude Errors Extents Loki Utf8 TagQuery Conditions Lease LeaseSpec PageRanges PageRangesSpec.
From S2P Require Import BlobModels BlobContainers BlobStore BlobChanges BlobRefine BlobRequests BlobStoreSpec.
From S2P Require Import BlobHttp BlobPages BlobPagesSpec BlobLists BlobHandlers BlobData BlobWrites.
From S2P Require ContainerHandlers BlobServiceHandlers BlobPropertyHandlers.
From S2P Require Import BlobService.
Open Scope Z_scope.
Open Scope azurite_scope.

(** ** The rules *)

Section Rules.
Context {coll : Type -> Type} `{LokiLaws coll} {P E : Type} (L : Licence).
Abbreviation db := (BlobDb coll P).
Abbreviation state := (BlobService coll P E).
Implicit Types (s : state) (d : db).

(** The operation makes changes of the metadata store; what it returns satisfies [Q]. *)
Definition makes {A} s (m : proc state exn A) (Q : A -> state -> Prop) : Prop :=
  view_ok (vw s.(metadataStore)) ->
  rtc (db_change L) (vw s.(metadataStore)) (vw (m s).2.(metadataStore)) /\
  match (m s).1 with Ok a => Q a (m s).2 | Throw _ => True end.

Definition whatever {A} (_ : A) (_ : state) : Prop := True.

Context {A B : Type}.
Implicit Types (m : proc state exn A) (Q : A -> state -> Prop).

Lemma makes_bind s m Q (k : A -> proc state exn B) R :
  makes s m Q -> (forall a s', Q a s' -> makes s' (k a) R) -> makes s (m ≫= k) R.
Proof.
  intros Hm Hk Hs. destruct (Hm Hs) as [Hc HQ]. run. destruct (m s) as [[a|e] s']; cbn in *; [|done].
  destruct (Hk a s' HQ) as [Hc' HR]; [by eapply changes_ok|]. split; [by etrans|done].
Qed.

Lemma makes_weaken s m Q Q' : makes s m Q -> (forall a s', Q a s' -> Q' a s') -> makes s m Q'.
Proof. intros Hm HQ Hs. destruct (Hm Hs) as [Hc Hq]. split; [done|]. destruct (m s).1; auto. Qed.

Lemma makes_ok s m Q : (view_ok (vw s.(metadataStore)) -> makes s m Q) -> makes s m Q.
Proof. intros Hm Hs. by apply Hm. Qed.

Lemma makes_ret s (a : A) Q : Q a s -> makes s (mret a) Q.
Proof. intros HQ Hs. by split. Qed.

Lemma makes_throw s e Q : makes s (throw (A := A) e) Q.
Proof. intros Hs. by split. Qed.

Lemma makes_lift s (r : res A) : makes s (lift r) (fun a s' => s' = s /\ r = Ok a).
Proof. intros Hs. split; [done|]. cbn. by destruct r. Qed.

Lemma makes_get s : makes s get_state (fun a s' => a = s /\ s' = s).
Proof. intros Hs. by split. Qed.

Lemma makes_check s ok e : makes s (check ok e) (fun _ s' => s' = s /\ ok = true).
Proof. intros Hs. unfold check. by destruct ok. Qed.

Lemma makes_on_db s (f : proc db exn A) (Q : A -> db -> Prop) :
  steps L s.(metadataStore) f Q ->
  makes s (on_db f) (fun a s' => Q a s'.(metadataStore) /\ s'.(extentStore) = s.(extentStore)).
Proof.
  intros Hf Hs. destruct (Hf Hs) as [Hc HQ]. unfold on_db. destruct (f _) as [r d]. cbn in *.
  split; [done|]. by destruct r.
Qed.

Lemma makes_on_extents s (f : proc E exn A) :
  makes s (on_extents f) (fun _ s' => s'.(metadataStore) = s.(metadataStore)).
Proof. intros Hs. unfold on_extents. destruct (f _) as [r e]. split; [done|]. by destruct r. Qed.

End Rules.

(** ** What the handlers of a store call *)

Section Store.
Context {coll : Type -> Type} `{LokiLaws coll} {P : Type}.
Abbreviation db := (BlobDb coll P).
Context (L : Licence) (ctx : BlobContext).
Hypothesis Hnow : ctx.(bc_startTime) = L.(l_now).
Implicit Types (s : db).

Lemma filterBlobs_steps a c w n mk s : steps L s (BlobLists.filterBlobs ctx a c w n mk) anything.
Proof.
  unfold BlobLists.filterBlobs. eapply (steps_bind _ _ _ (fun _ s' => s' = s)).
  - destruct c; [|by apply steps_ret]. eapply steps_weaken; [apply steps_check|]. by intros _ [] s' [-> _].
  - intros [] ? ->. do 2 statement. by apply steps_lift.
Qed.

(** A blob that is found keeps its name and its snapshot where a lease is settled. *)
Lemma settle_blobs_steps (ds : list (Z * BlobModel)) s :
  NoDup ds.*1 -> (forall d, d ∈ ds -> (vw s).(vb) !! d.1 = Some d.2) ->
  steps L s (settle_blobs ctx ds) anything.
Proof.
  revert s. induction ds as [|[i b] ds IH]; intros s Hnd Hds; [by apply steps_ret|].
  apply NoDup_cons in Hnd as [Hni Hnd]. cbn [settle_blobs]. rewrite (surjective_pairing (BlobLeaseAdapter _)).
  assert (Hi : (vw s).(vb) !! i = Some b) by (apply (Hds (i, b)); by left).
  eapply steps_bind; [apply (steps_save_lease L i b); [done|apply kept_adapter]|]. intros [] s1 Hv1.
  eapply steps_bind; [apply steps_lift_same|]. intros st ? [-> Hst]. unfold lease_ctx in Hst. rewrite Hnow in Hst.
  eapply steps_bind; [apply (steps_save_lease L i (with_lease (BlobLeaseAdapter b.(b_lease)).2 b))|].
  - rewrite Hv1. cbn. by rewrite lookup_insert_eq.
  - by eapply kept_settle.
  - intros [] s2 Hv2. eapply steps_then_ret, IH; [done|]. intros [j d] Hd. cbn [fst snd].
    assert (j <> i). { intros ->. apply Hni. by apply (list_elem_of_fmap_2 fst _ (i, d)). }
    rewrite Hv2. unfold put_blob, put_blobs. cbn [vb]. rewrite lookup_insert_ne, Hv1 by done.
    unfold put_blob, put_blobs. cbn [vb]. rewrite lookup_insert_ne by done.
    apply (Hds (j, d)). by right.
Qed.

Lemma listBlobs_steps a c d o pre n m sn u s : steps L s (listBlobs ctx a c d o pre n m sn u) anything.
Proof.
  unfold listBlobs. statement. set (src := lk_sort blob_name_le _).
  eapply steps_bind; [apply steps_lift_same|]. intros [[items prefixes] marker] ? [-> Hf].
  apply fill_items in Hf as Hsub. eapply steps_then_ret, settle_blobs_steps.
  - eapply sublist_NoDup; [|by apply fmap_sublist]. unfold src. rewrite sort_perm. apply (NoDup_find (fun _ => _)).
  - intros [i b] Hd. eapply elem_of_sublist in Hd; [|exact Hsub]. unfold src in Hd. rewrite sort_perm in Hd.
    by apply elem_find in Hd as [Hd _].
Qed.
End Store.

(** ** The handlers *)

Section Handlers.
Context {coll : Type -> Type} `{LokiLaws coll} {E : Type} `{IExtentStore E} `{!IExtentReader E} (server : Server).
Abbreviation state := (BlobService coll Setting E).
Implicit Types (s : state) (d : BlobDb coll Setting).

Lemma makes_done {A} (L : Licence) s (m : proc state exn A) Q : makes L s m Q -> makes L s (done_with m) whatever.
Proof. intros Hm. eapply makes_bind; [exact Hm|]. intros. by apply makes_ret. Qed.

Lemma makes_store {A} (L : Licence) s (f : proc (BlobDb coll Setting) exn A) :
  steps L s.(metadataStore) f anything -> makes L s (done_with (on_db f)) whatever.
Proof. intros Hf. eapply makes_done, makes_on_db, Hf. Qed.

(** ** Leases that are presented *)

Lemma covers_arrival a acc :
  presented a.(ar_operation) = option_list acc -> covers (arrival_licence a) acc.
Proof.
  intros Hp x id -> Hx. cbn. unfold presents_lease. rewrite Hp. cbn. by rewrite bool_decide_eq_true_2.
Qed.

Lemma covers_arrival_op a op :
  is_break a.(ar_operation) = LeaseSpec.is_break op -> presented a.(ar_operation) = op_ids op ->
  covers_op (arrival_licence a) op.
Proof.
  intros Hb Hp. unfold covers_op. destruct (LeaseSpec.is_break op) eqn:He; [done|]. intros id Hq. cbn.
  unfold presents_lease. rewrite Hp. apply existsb_exists. exists id. rewrite bool_decide_eq_true_2 by done.
  split; [|done]. destruct op; cbn in *; rewrite ?orb_true_iff, ?bool_decide_eq_true in Hq; naive_solver.
Qed.

Create HintDb handlers.
#[local] Hint Resolve setBlobMetadata_steps setBlobHTTPHeaders_steps setTier_steps setBlobTag_steps
  downloadBlob_steps getBlobTag_steps getBlobProperties_steps deleteBlob_steps createSnapshot_steps
  updateSequenceNumber_steps startCopyFromURL_steps copyFromURL_steps listContainers_steps createContainer_steps
  getContainerProperties_steps getContainerACL_steps setContainerMetadata_steps setContainerACL_steps
  deleteContainer_steps setServiceProperties_steps container_lease_steps acquireBlobLease_steps
  releaseBlobLease_steps renewBlobLease_steps changeBlobLease_steps breakBlobLease_steps listBlobs_steps filterBlobs_steps
  : handlers.
#[local] Hint Extern 1 (covers (arrival_licence _) _) => by apply covers_arrival : handlers.
#[local] Hint Extern 1 (covers_op (arrival_licence _) _) => by apply covers_arrival_op : handlers.
#[local] Hint Extern 1 (_ = true) => done : handlers.
#[local] Hint Extern 1 (_ = false) => done : handlers.

(** The statements of a handler. *)
Ltac handler_statement :=
  lazymatch goal with
  | |- steps _ _ (lift _ ≫= _) _ => eapply steps_bind; [apply steps_lift_same|]; intros ? ? [-> ?]
  | |- steps _ _ (guard _ _ ≫= _) _ => eapply steps_bind; [apply steps_guard_same|]; intros [] ? [-> ?]
  | |- steps _ _ (get_state ≫= _) _ => eapply steps_bind; [apply steps_get_same|]; intros ? ? [-> ->]
  | |- steps _ _ (checkContainerExist _ _ _ ≫= _) _ => eapply steps_bind; [apply steps_check|]; intros [] ? [-> ?]
  | |- steps _ _ (mret _) _ => by apply steps_ret
  | |- steps _ _ (throw _) _ => apply steps_throw
  | |- steps _ _ (match ?x with _ => _ end) _ => destruct x
  | |- steps _ _ (match ?x with _ => _ end ≫= _) _ =>
      eapply (steps_bind _ _ _ anything); [destruct x|intros ? ? _]
  | |- steps _ _ (_ ≫= _) _ =>
      eapply (steps_bind _ _ _ anything); [solve [eauto with handlers | eapply steps_then_ret; eauto with handlers]|];
      intros ? ? _
  | |- steps _ _ (update_db _) anything => by apply steps_update
  | |- steps _ _ _ anything => solve [eauto with handlers]
  end.

Lemma service_makes (L : Licence) ctx o s :
  ctx.(startTime) = L.(l_now) -> makes L s (run_service_operation server ctx o) whatever.
Proof.
  intros Hnow. destruct o; try destruct level; apply makes_store; cbn [metadataStore].
  - unfold BlobServiceHandlers.setProperties. repeat handler_statement.
  - unfold BlobServiceHandlers.getProperties. repeat handler_statement.
    eapply (steps_bind _ _ _ anything); [by apply steps_update|]. intros. by apply steps_ret.
  - unfold BlobServiceHandlers.getStatistics. repeat handler_statement.
  - unfold BlobServiceHandlers.listContainersSegment. repeat handler_statement.
  - unfold BlobServiceHandlers.getUserDelegationKey. repeat handler_statement.
  - unfold BlobServiceHandlers.filterBlobs. repeat handler_statement.
  - by apply steps_ret.
  - by apply steps_ret.
  - by apply steps_ret.
Qed.

Lemma container_makes (L : Licence) env ctx o s :
  ctx.(startTime) = L.(l_now) -> (is_drop (OnContainer o) = true -> L.(l_drops) = true) ->
  makes L s (run_container_operation server env ctx o) whatever.
Proof.
  intros Hnow Hd. destruct o; apply makes_store; cbn [metadataStore].
  - unfold ContainerHandlers.create. repeat handler_statement.
  - unfold ContainerHandlers.getProperties. repeat handler_statement.
  - specialize (Hd eq_refl). unfold ContainerHandlers.delete_. repeat handler_statement.
  - unfold ContainerHandlers.setMetadata. repeat handler_statement.
  - unfold ContainerHandlers.getAccessPolicy. repeat handler_statement.
  - unfold ContainerHandlers.setAccessPolicy. repeat handler_statement.
  - unfold ContainerHandlers.filterBlobs. repeat handler_statement.
  - unfold ContainerHandlers.acquireLease, acquireContainerLease. repeat handler_statement.
  - unfold ContainerHandlers.releaseLease, releaseContainerLease. repeat handler_statement.
  - unfold ContainerHandlers.renewLease, renewContainerLease. repeat handler_statement.
  - unfold ContainerHandlers.breakLease, breakContainerLease. repeat handler_statement.
  - unfold ContainerHandlers.changeLease, changeContainerLease. repeat handler_statement.
  - unfold ContainerHandlers.listBlobFlatSegment, ContainerHandlers.list_segment. repeat handler_statement.
  - unfold ContainerHandlers.listBlobHierarchySegment, ContainerHandlers.list_segment. repeat handler_statement.
Qed.

(** The blob that a download opens. *)
Lemma downloadBlob_found (L : Licence) ctx a c n sn acc mac d :
  ctx.(bc_startTime) = L.(l_now) ->
  steps L d (downloadBlob ctx a c n sn acc mac) (fun b d' => exists i, found a c n (default EmptyString sn) d' (i, b)).
Proof. intros Hnow. unfold downloadBlob. do 4 statement. apply steps_ret. by exists i. Qed.

Lemma makes_persist (L : Licence) ctx body n ext s :
  makes L s (persist ctx body n ext)
    (fun c s' => s'.(metadataStore) = s.(metadataStore) /\ c.(count) = n).
Proof.
  unfold persist. eapply makes_bind; [apply makes_on_extents|]. intros c s1 Hs.
  eapply makes_bind; [apply makes_check|]. intros [] ? [-> Hn]. apply makes_ret. split; [done|]. by apply Z.eqb_eq.
Qed.

Lemma makes_md5 (L : Licence) h c s : makes L s (md5_of h c) (fun _ s' => s' = s).
Proof.
  unfold md5_of. eapply makes_bind; [apply makes_get|]. intros ? ? [-> ->].
  eapply makes_bind; [apply makes_lift|]. intros ? ? [-> _]. by apply makes_ret.
Qed.

(** A page blob that is found has an array of ranges. *)
Lemma makes_ensure (L : Licence) a c n sn s i b :
  found a c n sn s.(metadataStore) (i, b) -> b.(b_properties).(bp_blobType) = Some PageBlob ->
  makes L s (ensure_ranges b) (fun _ s' => s' = s).
Proof.
  intros [Hi _] Ht. apply makes_ok. intros Hs. destruct (bo_refs _ _ (ok_blob _ Hs i b Hi)) as (_&_&Hp).
  destruct (Hp Ht) as [r Hr]. unfold ensure_ranges. rewrite Hr. by apply makes_ret.
Qed.

Lemma makes_page_blob (L : Licence) leaseId ctx s :
  ctx.(startTime) = L.(l_now) ->
  makes L s (page_blob leaseId ctx) (fun b _ => b.(b_snapshot) = EmptyString).
Proof.
  intros Hnow. unfold page_blob. eapply makes_bind; [by apply makes_on_db, downloadBlob_found|].
  intros b s1 [[i (_&(_&_&_&Hsn)&_)] _]. eapply makes_bind; [apply makes_check|]. intros [] ? [-> _]. by apply makes_ret.
Qed.

(** The statements of a handler that uses the extents. *)
Ltac service_statement :=
  lazymatch goal with
  | |- makes _ _ (lift _ ≫= _) _ => eapply makes_bind; [apply makes_lift|]; intros ? ? [-> ?]
  | |- makes _ _ (check _ _ ≫= _) _ => eapply makes_bind; [apply makes_check|]; intros [] ? [-> ?]
  | |- makes _ _ (get_state ≫= _) _ => eapply makes_bind; [apply makes_get|]; intros ? ? [-> ->]
  | |- makes _ _ (md5_of _ _ ≫= _) _ => eapply makes_bind; [apply makes_md5|]; intros ? ? ->
  | |- makes _ _ (persist _ _ _ _ ≫= _) _ => eapply makes_bind; [apply makes_persist|]; intros ? ? [? ?]
  | |- makes _ _ (check _ _) whatever => by eapply makes_weaken; [apply makes_check|]
  | |- makes _ _ (mret _) _ => by apply makes_ret
  | |- makes _ _ (throw _) _ => apply makes_throw
  | |- makes _ _ (match ?x with _ => _ end) _ => destruct x
  | |- makes _ _ (on_db (checkContainerExist _ _ _) ≫= _) _ =>
      eapply makes_bind; [apply makes_on_db, steps_check|]; intros ? ? _
  | |- makes _ _ (on_db _ ≫= _) _ =>
      eapply makes_bind; [eapply makes_on_db; solve [eauto with handlers]|]; intros ? ? _
  end.

Lemma download_makes (L : Licence) options ctx s :
  ctx.(startTime) = L.(l_now) -> makes L s (download server.(md5) options ctx) whatever.
Proof.
  intros Hnow. unfold download. eapply makes_bind; [by apply makes_on_db, downloadBlob_found|].
  intros b s1 [[i Hf] _]. service_statement. destruct (bp_blobType _) as [[]|] eqn:Ht; [| | |service_statement].
  - unfold downloadBlockBlobOrAppendBlob. repeat service_statement.
  - unfold downloadPageBlob. do 2 service_statement. eapply makes_bind; [by eapply makes_ensure|].
    intros [] ? ->. repeat service_statement.
  - unfold downloadBlockBlobOrAppendBlob. repeat service_statement.
Qed.

Lemma blob_makes env ctx ext o s :
  makes (arrival_licence (mkArrival env ctx ext (OnBlob o))) s (run_blob_operation server env ctx o) whatever.
Proof.
  set (a := mkArrival env ctx ext (OnBlob o)).
  assert (Hnow : (store_ctx ctx).(bc_startTime) = l_now (arrival_licence a)) by done.
  destruct o; try apply makes_store; cbn [metadataStore].
  - by eapply makes_done, download_makes.
  - unfold BlobPropertyHandlers.getProperties. repeat handler_statement.
  - unfold BlobPropertyHandlers.delete_. repeat handler_statement.
  - unfold BlobPropertyHandlers.setHTTPHeaders. repeat handler_statement.
  - unfold BlobPropertyHandlers.setMetadata. repeat handler_statement.
  - unfold BlobPropertyHandlers.acquireLease. repeat handler_statement.
  - unfold BlobPropertyHandlers.releaseLease. repeat handler_statement.
  - unfold BlobPropertyHandlers.renewLease. repeat handler_statement.
  - unfold BlobPropertyHandlers.changeLease. repeat handler_statement.
  - unfold BlobPropertyHandlers.breakLease. repeat handler_statement.
  - unfold BlobPropertyHandlers.createSnapshot. repeat handler_statement.
  - unfold BlobPropertyHandlers.startCopyFromURL. repeat handler_statement.
  - unfold BlobPropertyHandlers.copyFromURL. repeat handler_statement.
  - unfold BlobPropertyHandlers.abortCopyFromURL. repeat handler_statement.
  - unfold BlobPropertyHandlers.setTier. repeat handler_statement.
  - unfold BlobPropertyHandlers.getTags. repeat handler_statement.
  - unfold BlobPropertyHandlers.setTags. repeat handler_statement.
Qed.

#[local] Hint Resolve getPageRanges_steps getBlockList_steps sealBlob_steps stageBlock_steps appendBlock_steps : handlers.

(** The document of a new append blob or page blob, with its new array. *)
Lemma new_append_doc (d d' : BlobDb coll Setting) r b :
  vw d' = put_block_array r [] (vw d) ->
  (forall j c, (vw d).(vb) !! j = Some c -> c.(b_committedBlocksInOrder) <> Some r) ->
  new_base b -> b.(b_committedBlocksInOrder) = Some r -> b.(b_pageRangesInOrder) = None ->
  b.(b_properties).(bp_blobType) <> Some PageBlob -> new_doc d' b.
Proof.
  intros Hv Hr [Hsn Hun] Hb1 Hb2 Ht. split_and!; [done|by destruct Hun; eexists| |].
  - split_and!; rewrite ?Hb1, ?Hb2; [|done|by intros ?]. intros ? [= <-]. rewrite Hv. cbn. by rewrite lookup_insert_eq.
  - intros j c r' Hj. rewrite Hb1, Hb2. split; [|done]. intros [= <-]. rewrite Hv in Hj. by apply (Hr j).
Qed.

Lemma new_page_doc (d d' : BlobDb coll Setting) r b :
  vw d' = put_range_array r [] (vw d) ->
  (forall j c, (vw d).(vb) !! j = Some c -> c.(b_pageRangesInOrder) <> Some r) ->
  new_base b -> b.(b_committedBlocksInOrder) = None -> b.(b_pageRangesInOrder) = Some r -> new_doc d' b.
Proof.
  intros Hv Hr [Hsn Hun] Hb1 Hb2. split_and!; [done|by destruct Hun; eexists| |].
  - split_and!; [by rewrite Hb1| |intros _; by rewrite Hb2]. rewrite Hb2. intros ? [= <-]. rewrite Hv. cbn.
    by rewrite lookup_insert_eq.
  - intros j c r' Hj. rewrite Hb1, Hb2. split; [done|]. intros [= <-]. rewrite Hv in Hj. by apply (Hr j).
Qed.

(** What the deserializer sees to: a length is not negative. *)
Definition operation_ok (o : Operation) : Prop :=
  match o with OnContent (PageBlob_Resize len _ _ _) => 0 <= len | _ => True end.

Lemma content_makes env ctx ext o s :
  operation_ok (OnContent o) ->
  makes (arrival_licence (mkArrival env ctx ext (OnContent o))) s (run_content_operation server env ctx ext o) whatever.
Proof.
  set (a := mkArrival env ctx ext (OnContent o)). intros Hok.
  assert (Hnow : (store_ctx ctx).(bc_startTime) = l_now (arrival_licence a)) by done.
  destruct o; apply (makes_done _ _ _ whatever).
  - unfold createPageBlob. repeat lazymatch goal with |- makes _ _ (on_db (new_ranges _) ≫= _) _ => fail | _ => service_statement end.
    eapply makes_bind; [by apply makes_on_db, steps_new_ranges|]. intros r s1 [[Hv Hr] _].
    eapply makes_bind; [eapply makes_on_db, createBlob_steps; [done|by apply covers_arrival|]|].
    + eapply new_page_doc; [exact Hv|exact Hr|split; [done|apply unleased_new]|done|done].
    + intros ? ? _. service_statement.
  - unfold BlobHandlers.uploadPages. service_statement. eapply makes_bind; [by apply makes_page_blob|].
    intros b s1 Hsn. service_statement. eapply makes_bind; [apply makes_lift|]. intros range ? [-> Hr].
    destruct (write_range_ok ctx range Hr) as (x&Hx&Hx0&Hends&Hnan&_). destruct range as [q1 q2]. cbn [fst snd] in *. subst q1.
    eapply makes_bind; [apply makes_check|]. intros [] ? [-> Hsame]. service_statement.
    destruct q2 as [y| |]; cbn in Hsame; [|done|done]. apply Z.eqb_eq in Hsame. cbn in Hends.
    eapply makes_bind; [apply makes_persist|]. intros c ? [_ Hc]. service_statement. cbn [default last_position].
    eapply makes_bind; [eapply makes_on_db, uploadPages_steps; [done|done|by apply covers_arrival|done|]|].
    + split; cbn; lia.
    + intros ? ? _. service_statement.
  - unfold clearPages. service_statement. eapply makes_bind; [by apply makes_page_blob|].
    intros b s1 Hsn. eapply makes_bind; [apply makes_lift|]. intros range ? [-> Hr].
    destruct (write_range_ok ctx range Hr) as (x&Hx&Hx0&Hends&Hnan&_). destruct range as [q1 q2]. cbn [fst snd] in *. subst q1.
    do 2 service_statement. cbn [default].
    eapply makes_bind; [eapply makes_on_db, clearRange_steps; [done|done|by apply covers_arrival|done|]|].
    + split; [done|]. by apply BlobData.last_position_ge.
    + intros ? ? _. service_statement.
  - unfold BlobHandlers.getPageRanges. repeat service_statement.
  - unfold resize. service_statement. eapply makes_bind; [by apply makes_on_db, resizePageBlob_steps; [..|apply covers_arrival|]|].
    intros ? ? _. service_statement.
  - unfold BlobHandlers.updateSequenceNumber. repeat service_statement.
  - unfold createAppendBlob. repeat lazymatch goal with |- makes _ _ (on_db (new_blocks _) ≫= _) _ => fail | _ => service_statement end.
    eapply makes_bind; [by apply makes_on_db, steps_new_blocks|]. intros r s1 [[Hv Hr] _].
    eapply makes_bind; [eapply makes_on_db, createBlob_steps; [done|by apply covers_arrival|]|].
    + eapply new_append_doc; [exact Hv|exact Hr|split; [done|apply unleased_new]|done|done|done].
    + intros ? ? _. service_statement.
  - unfold BlobHandlers.appendBlock. do 6 service_statement. service_statement. eapply (makes_bind _ _ _ whatever).
    { repeat service_statement. }
    intros ? ? _. repeat service_statement.
  - unfold seal. repeat service_statement.
  - unfold upload. repeat lazymatch goal with |- makes _ _ (on_db (createBlob _ _ _ _) ≫= _) _ => fail | _ => service_statement end.
    eapply makes_bind; [eapply makes_on_db, createBlob_steps; [done|by apply covers_arrival|]|].
    + apply base_new_doc; [split; [done|apply unleased_new]|done..].
    + intros ? ? _. service_statement.
  - unfold BlobHandlers.stageBlock. repeat service_statement.
  - unfold BlobHandlers.commitBlockList. service_statement; [|service_statement]. do 5 service_statement.
    eapply makes_bind; [eapply makes_on_db, commitBlockList_steps; [done|done|by apply covers_arrival| | |]|].
    + apply base_new_doc; [split; [done|apply unleased_none]|done..].
    + done.
    + done.
    + intros ? ? _. service_statement.
  - unfold BlobHandlers.getBlockList. repeat service_statement.
Qed.

Lemma unimplemented_makes (L : Licence) ctx o s : makes L s (run_unimplemented ctx o) whatever.
Proof. by destruct o. Qed.

(** The refinement: an operation makes the changes its licence allows. *)
Lemma operation_makes a s :
  operation_ok a.(ar_operation) ->
  makes (arrival_licence a) s (run_operation server a.(ar_env) a.(ar_ctx) a.(ar_extentId) a.(ar_operation)) whatever.
Proof.
  destruct a as [env ctx ext [o|o|o|o|o]]; intros Hok; cbn [ar_env ar_ctx ar_extentId ar_operation run_operation].
  - by apply service_makes.
  - by apply container_makes.
  - apply blob_makes.
  - by apply content_makes.
  - apply unimplemented_makes.
Qed.

(** ** Histories *)

Implicit Types (a : Arrival).

Definition arrival_ok a : Prop := operation_ok a.(ar_operation).
Definition copies_nothing a : Prop := is_copy a.(ar_operation) = false.
Definition service_ok s : Prop := store_ok s.(metadataStore).
Definition unshared_arrays s : Prop := own_arrays s.(metadataStore).

Lemma serve_history s arrivals :
  Forall arrival_ok arrivals -> service_ok s ->
  history (arrival_licence <$> arrivals) (vw s.(metadataStore)) (vw (serve_all server s arrivals).(metadataStore)).
Proof.
  intros Hok. revert s. induction Hok as [|a arrivals Ha _ IH]; intros s Hs; [constructor|].
  destruct (operation_makes a s Ha Hs) as [Hr _]. eapply history_cons; [exact Hr|].
  apply (IH (serve server s a)). by eapply changes_ok.
Qed.

Lemma arrivals_no_copies arrivals : Forall copies_nothing arrivals -> Forall no_copies (arrival_licence <$> arrivals).
Proof. intros Hc. by apply Forall_fmap. Qed.

(** C13. after any requests to the service, whatever their handlers throw (resizes of
    page blobs to a negative length, which the handler accepts, left out), every
    blob and snapshot is in a container that exists, has exactly one base blob and a
    valid lease, a snapshot has none, a page blob has page ranges, the lists they
    refer to exist, and page ranges are sorted and disjoint; without copies no two
    documents share a list. *)
Theorem service_invariant s arrivals (Hs : service_ok s) (Hok : Forall arrival_ok arrivals) :
  service_ok (serve_all server s arrivals) /\
  (Forall copies_nothing arrivals -> unshared_arrays s -> unshared_arrays (serve_all server s arrivals)).
Proof.
  pose proof (serve_history s arrivals Hok Hs) as Hh. split; [by eapply history_ok|].
  intros Hc Hu. eapply history_unshared; [exact Hh|by apply arrivals_no_copies|done..].
Qed.


(** C14. a snapshot, as long as it is not deleted, keeps its content, properties and
    metadata through any requests to the service without copies; once deleted, its
    document never comes back. *)
Theorem snapshot_kept s arrivals i b
    (Hs : service_ok s) (Hu : unshared_arrays s) (Hok : Forall arrival_ok arrivals)
    (Hc : Forall copies_nothing arrivals)
    (Hi : docs s.(metadataStore).(blobs) !! i = Some b) (Hb : b.(b_snapshot) <> EmptyString) :
  let s' := serve_all server s arrivals in
  match docs s'.(metadataStore).(blobs) !! i with
  | Some b' => frozen_content s'.(metadataStore) b' = frozen_content s.(metadataStore) b
  | None => forall later, Forall arrival_ok later ->
      docs (serve_all server s' later).(metadataStore).(blobs) !! i = None
  end.
Proof.
  intros s'. pose proof (serve_history s arrivals Hok Hs) as Hh. change (serve_all server s arrivals) with s' in Hh.
  pose proof (history_ok _ _ _ Hh Hs) as Hs'. change (docs s'.(metadataStore).(blobs)) with ((vw s'.(metadataStore)).(vb)).
  destruct (history_snapshot _ _ _ i b Hh) as [[Hm Hn]|(b'&Hi'&Hf&[A1 A2])]; try done.
  - by apply arrivals_no_copies.
  - rewrite Hn. intros later Hl. exact (proj2 (history_gone _ _ _ i (serve_history _ later Hl Hs') Hs' Hm Hn)).
  - rewrite Hi'. unfold frozen_content. rewrite Hf. by f_equal; [f_equal|].
Qed.

End Handlers.

(** ** Witnesses *)

(** A service with the extent store in memory; what is outside answers nothing. *)
Abbreviation memory := (MemoryExtentStore (map_coll ExtentDoc)).
#[local] Instance service_memory : IExtentStore memory := memory_extent_store (fun _ _ _ _ => JsError).
#[local] Instance service_reader : IExtentReader memory := memory_extent_reader.

Definition w_server : Server :=
  mkServer false "http" false (fun _ => EmptyString) (fun _ => Ok None) (fun _ => Ok false) (fun _ => None)
    (fun _ _ => EmptyString) (fun _ => None) (fun _ => BlobPropertyHandlers.mkSourceResponse 404 None (Ok None)).
Definition w_service : BlobService map_coll Setting memory :=
  mkBlobService (mkBlobDb (∅, 0) (∅, 0) (∅, 0) (∅, 0) ∅ ∅) (mkMemoryExtentStore "blob" (mkChunkStore None ∅ 0) (∅, 0)).
Definition w_options : WriteOptions := mkWriteOptions None None None None None None.
Definition w_arrival (t : Z) (ext : string) (o : Operation) : Arrival :=
  mkArrival w_env (mkBlobStorageContext "a" "c" "log" t None (mkHttpRequest (fun _ => None) [] (fun _ => None) None) t)
    ext o.
Definition w_append_block (x : Z) (l : LeaseId) : Operation :=
  OnContent (AppendBlob_AppendBlock [x; x; x] 3 l None w_append None).

(** A container with a leased append blob, and a snapshot of it. *)
Definition w_arrivals : list Arrival :=
  [w_arrival 0 "" (OnContainer (Container_Create None None));
   w_arrival 1 "" (OnContent (AppendBlob_Create 0 w_options));
   w_arrival 2 "e1" (w_append_block 7 None);
   w_arrival 3 "" (OnBlob (Blob_AcquireLease (-1) None None None));
   w_arrival 4 "" (OnBlob (Blob_CreateSnapshot None None None None))].

Definition w_served : BlobService map_coll Setting memory := serve_all w_server w_service w_arrivals.

Lemma w_service_ok : service_ok w_service /\ unshared_arrays w_service.
Proof.
  split; [split; try done; intros i b Hi; cbn in Hi; by rewrite lookup_empty in Hi|].
  intros i b Hi. cbn in Hi. by rewrite lookup_empty in Hi.
Qed.

Lemma w_served_ok : service_ok w_served /\ unshared_arrays w_served.
Proof.
  destruct w_service_ok as [Hs Hu]. assert (Hh := serve_history w_server w_service w_arrivals ltac:(repeat constructor) Hs).
  split; [by eapply history_ok|]. eapply history_unshared; [exact Hh| |done..]. apply arrivals_no_copies. repeat constructor.
Qed.

Definition w_document (i : Z) : BlobModel :=
  default (w_blob "log" AppendBlob true) (w_served.(metadataStore).(blobs).1 !! i).

(** Requests of someone who does not hold the lease. *)
Definition w_strangers : list Arrival :=
  [w_arrival 5 "e2" (w_append_block 8 (Some "l2"%string));
   w_arrival 6 "" (OnBlob (Blob_SetMetadata None None None));
   w_arrival 7 "" (OnBlob (Blob_Delete None (Some Include) None None None))].

Lemma service_invariant_witness :
  service_ok (serve_all w_server w_service w_arrivals) /\
  (Forall copies_nothing w_arrivals -> unshared_arrays w_service ->
   unshared_arrays (serve_all w_server w_service w_arrivals)).
Proof. apply (service_invariant w_server w_service w_arrivals); [apply w_service_ok|repeat constructor]. Defined.


Lemma snapshot_kept_witness :
  match docs (serve_all w_server w_served w_strangers).(metadataStore).(blobs) !! 2 with
  | Some b' => frozen_content (serve_all w_server w_served w_strangers).(metadataStore) b'
      = frozen_content w_served.(metadataStore) (w_document 2)
  | None => forall later, Forall arrival_ok later ->
      docs (serve_all w_server (serve_all w_server w_served w_strangers) later).(metadataStore).(blobs) !! 2 = None
  end.
Proof.
  apply (snapshot_kept w_server w_served w_strangers 2 (w_document 2)).
  - apply w_served_ok.
  - apply w_served_ok.
  - repeat constructor.
  - repeat constructor.
  - vm_compute. reflexivity.
  - vm_compute. congruence.
Defined.
