(* ===== verification/BlobReads.v ===== *)
(** * BlobReads: operations that only read

    A read saves documents: it settles leases at the time of the request, counts the tags
    of a blob and fills defaults into the settings. What requests see from that time on is
    the same ([at_rest]): the same content, properties and lease. So does every read
    operation of the service, whether it returns or throws. *)

From stdpp Require Import relations.
From S2P Require Import Prelude Errors Extents Loki Utf8 TagQuery Conditions Lease LeaseSpec PageRanges PageRangesSpec.
From S2P Require Import BlobModels BlobContainers BlobStore BlobChanges BlobRefine BlobRequests BlobStoreSpec.
From S2P Require Import BlobHttp BlobPages BlobPagesSpec BlobLists BlobHandlers.
From S2P Require ContainerHandlers BlobServiceHandlers BlobPropertyHandlers.
From S2P Require Import BlobService.
Open Scope Z_scope.
Open Scope azurite_scope.

(** ** Documents at rest *)

(** What a request at a time makes of a lease: the state it is settled in, or its error. *)
Definition settled_lease (t : Z) (l : ILease) : res ILease := lease <$> createLeaseState l (mkContext (Some t) None).

Definition no_lease : LeaseFields := mkFields None None None None None None None.

(** A blob as requests see it at a time, without the count of its tags; nothing reads the
    lease of a snapshot. *)
Definition rested (t : Z) (b : BlobModel) : option (res ILease) * BlobModel :=
  (if b.(b_snapshot) === EmptyString then Some (settled_lease t (BlobLeaseAdapter b.(b_lease)).1) else None,
   with_lease no_lease (with_properties (with_tagCount None b.(b_properties)) b)).

(** A container as requests see it at a time. *)
Definition container_rested (t : Z) (c : ContainerModel) : res ILease * ContainerModel :=
  (ContainerLeaseAdapter c.(BlobModels.c_lease) ≫= settled_lease t, container_with_lease no_lease c).

(** From the time [now] on requests see the same; a count of tags that has changed is right. *)
Record same_blob (now : Z) (b b' : BlobModel) : Prop := {
  sb_rested t : now <= t -> rested t b' = rested t b;
  sb_tags : b'.(b_properties).(bp_tagCount) = b.(b_properties).(bp_tagCount) \/
            b'.(b_properties).(bp_tagCount) = getBlobTagsCount b.(b_blobTags)
}.
Definition same_container (now : Z) (c c' : ContainerModel) : Prop :=
  forall t, now <= t -> container_rested t c' = container_rested t c.

(** The databases are the same, seen by requests from the time [now] on. *)
Record at_rest (now : Z) (w w' : View) : Prop := {
  ar_blobs i : option_Forall2 (same_blob now) (w.(vb) !! i) (w'.(vb) !! i);
  ar_containers i : option_Forall2 (same_container now) (w.(vc) !! i) (w'.(vc) !! i);
  ar_blocks : w'.(vk) = w.(vk);
  ar_block_arrays : w'.(va) = w.(va);
  ar_range_arrays : w'.(vr) = w.(vr)
}.

Lemma rested_tags t b b' : rested t b' = rested t b -> b'.(b_blobTags) = b.(b_blobTags).
Proof. intros He. exact (f_equal (fun x => b_blobTags x.2) He). Qed.

#[export] Instance same_blob_pre now : PreOrder (same_blob now).
Proof.
  split; [by intros b; split; [|left]|]. intros b1 b2 b3 [A1 A2] [B1 B2]. split.
  - intros t Ht. by rewrite B1, A1.
  - rewrite (rested_tags now _ _ (A1 now ltac:(done))) in B2. destruct B2 as [->|]; [done|by right].
Qed.

#[export] Instance same_container_pre now : PreOrder (same_container now).
Proof. split; [by intros c t|]. intros c1 c2 c3 A B t Ht. by rewrite B, A. Qed.

Lemma same_option_trans {A} (R : A -> A -> Prop) `{!PreOrder R} o1 o2 o3 :
  option_Forall2 R o1 o2 -> option_Forall2 R o2 o3 -> option_Forall2 R o1 o3.
Proof. intros [x y Hxy|]; inversion 1; subst; constructor. by etrans. Qed.

#[export] Instance at_rest_pre now : PreOrder (at_rest now).
Proof.
  split.
  - intros w. split; intros; try done; by destruct (_ !! _); constructor.
  - intros w1 w2 w3 [A1 A2 A3 A4 A5] [B1 B2 B3 B4 B5].
    split; [intros i; exact (same_option_trans _ _ _ _ (A1 i) (B1 i))|intros i; exact (same_option_trans _ _ _ _ (A2 i) (B2 i))|congruence..].
Qed.

Lemma at_rest_put now w i b b' : w.(vb) !! i = Some b -> same_blob now b b' -> at_rest now w (put_blob i b' w).
Proof.
  intros Hi Hb. split; try done. intros j. cbn.
  destruct (decide (j = i)) as [->|Hne]; [rewrite lookup_insert_eq, Hi; by constructor|].
  by rewrite lookup_insert_ne.
Qed.

Lemma at_rest_container now w i c c' :
  w.(vc) !! i = Some c -> same_container now c c' -> at_rest now w (put_containers (<[i := c']> w.(vc)) w).
Proof.
  intros Hi Hc. split; try done. intros j. cbn.
  destruct (decide (j = i)) as [->|Hne]; [rewrite lookup_insert_eq, Hi; by constructor|].
  by rewrite lookup_insert_ne.
Qed.

(** A blob found later is one that requests see as it was. *)
Lemma at_rest_doc now w w' i b' :
  at_rest now w w' -> w'.(vb) !! i = Some b' -> exists b, w.(vb) !! i = Some b /\ same_blob now b b'.
Proof. intros Hr Hi. pose proof (ar_blobs _ _ _ Hr i) as Hb. rewrite Hi in Hb. inversion Hb; subst. by eexists. Qed.

Definition docs_paged (w : View) : Prop := forall i b, w.(vb) !! i = Some b -> paged b.

Lemma at_rest_paged now w w' : at_rest now w w' -> docs_paged w -> docs_paged w'.
Proof.
  intros Hr Hp i b' Hi. destruct (at_rest_doc now w w' i b' Hr Hi) as (b&Hb&He). specialize (Hp i b Hb).
  pose proof (sb_rested _ _ _ He now ltac:(done)) as Hs. unfold paged in *.
  rewrite (f_equal (fun x => b_pageRangesInOrder x.2) Hs : b_pageRangesInOrder b' = b_pageRangesInOrder b).
  by rewrite (f_equal (fun x => bp_blobType (b_properties x.2)) Hs
    : bp_blobType (b_properties b') = bp_blobType (b_properties b)).
Qed.

(** ** Leases that are settled *)

(** A lease that was settled is settled, at every later time, as it would have been. *)
Lemma settled_twice now cid l st t :
  createLeaseState l (mkContext (Some now) cid) = Ok st -> l.(leaseState) <> None -> now <= t ->
  settled_lease t st.(lease) = settled_lease t l.
Proof.
  intros Hst Hs Ht. destruct (decide (st.(lease) = l)) as [->|Hne]; [done|].
  destruct l as [id [[]|] stt dt secs ex br]; cbn in Hs; [| | | | |done]; cbn in Hst;
    unfold new_LeaseAvailableState, new_LeaseLeasedState, new_LeaseExpiredState, new_LeaseBreakingState,
      new_LeaseBrokenState, reached, pending in Hst; cbn in Hst;
    repeat (case_match; try discriminate Hst); try (injection Hst as <-; by destruct Hne).
  all: injection Hst as <-; clear Hne; destruct id as [id|]; [|by guards];
    unfold settled_lease, createLeaseState, new_LeaseExpiredState, new_LeaseBrokenState, reached, pending; cbn.
  - destruct br, secs as [secs|]; try done. cbn in *. rewrite (proj2 (Z.ltb_ge t z)) by lia.
    guards; by try rewrite (bool_decide_eq_false_2 (Some secs = _)) by done; vm_compute.
  - destruct ex, secs, dt; try done. cbn in *. rewrite (proj2 (Z.ltb_ge t z)) by lia. guards; by vm_compute.
Qed.

(** The leases that a read writes. *)
Lemma same_adapted now b : same_blob now b (with_lease (BlobLeaseAdapter b.(b_lease)).2 b).
Proof. split; [|by left]. intros t _. by destruct b as [? ? ? ? ? ? []]. Qed.

(** The fields of a settled lease are defined where the constructors look at them. *)
Lemma settled_defined l ctx st :
  createLeaseState l ctx = Ok st -> l.(leaseState) <> None ->
  is_Some st.(lease).(leaseState) /\ is_Some st.(lease).(leaseStatus).
Proof.
  destruct ctx as [[now|] cid], l as [id [[]|] [stt|] dt secs ex br]; intros Hst Hs; cbn in Hs; try done; cbn in Hst;
    unfold new_LeaseAvailableState, new_LeaseLeasedState, new_LeaseExpiredState, new_LeaseBreakingState,
      new_LeaseBrokenState in Hst; cbn in Hst;
    repeat (case_match; try discriminate Hst); injection Hst as <-; by split; eexists.
Qed.

Lemma same_settled now ctx f b st :
  createLeaseState (BlobLeaseAdapter b.(b_lease)).1 (lease_ctx ctx) = Ok st -> ctx.(bc_startTime) <= now ->
  same_blob now b (with_lease (sync st (BlobLeaseSyncer_sync f)) b).
Proof.
  intros Hst Hn. split; [|by left]. intros t Ht.
  assert (He : settled_lease t (BlobLeaseAdapter (sync st (BlobLeaseSyncer_sync f))).1
    = settled_lease t (BlobLeaseAdapter b.(b_lease)).1).
  { rewrite <- (settled_twice ctx.(bc_startTime) ctx.(bc_contextId) _ st t Hst) by (done || lia). f_equal.
    destruct (settled_defined _ _ _ Hst ltac:(done)) as [[x Hx] [y Hy]]. destruct st as [? [] ?]. cbn in *. by subst. }
  unfold rested. cbn -[BlobLeaseAdapter sync BlobLeaseSyncer_sync settled_lease]. by rewrite He.
Qed.

Lemma same_resettled now b b1 b2 : same_blob now b b1 -> same_blob now b b2 -> 
  b1.(b_properties) = b.(b_properties) -> same_blob now b1 b2.
Proof.
  intros [A1 _] [B1 B2] Hp. split; [intros t Ht; by rewrite A1, B1|]. rewrite Hp.
  by rewrite (rested_tags now _ _ (A1 now ltac:(done))).
Qed.

Lemma same_snapshot now f b : b.(b_snapshot) <> EmptyString -> same_blob now b (with_lease f b).
Proof. intros Hs. split; [|by left]. intros t _. unfold rested. cbn. by rewrite bool_decide_eq_false_2. Qed.

Lemma same_tags now b :
  same_blob now b (with_properties (with_tagCount (getBlobTagsCount b.(b_blobTags)) b.(b_properties)) b).
Proof. split; [done|by right]. Qed.

Lemma same_settled_container now ctx l c st :
  ContainerLeaseAdapter c.(BlobModels.c_lease) = Ok l -> createLeaseState l (lease_ctx ctx) = Ok st ->
  ctx.(bc_startTime) <= now ->
  same_container now c (container_with_lease (sync st (ContainerLeaseSyncer_sync c.(BlobModels.c_lease))) c).
Proof.
  intros Hl Hst Hn t Ht.
  assert (Hs : l.(leaseState) <> None).
  { unfold ContainerLeaseAdapter in Hl. destruct (p_leaseState _) in Hl; [|done]. destruct (p_leaseStatus _); [|done].
    cbn in Hl. by injection Hl as <-. }
  assert (He : ContainerLeaseAdapter (sync st (ContainerLeaseSyncer_sync c.(BlobModels.c_lease))) = Ok st.(lease)).
  { destruct (settled_defined _ _ _ Hst Hs) as [[x Hx] [y Hy]]. destruct st as [? [] ?]. cbn in *. by subst. }
  unfold container_rested. cbn -[ContainerLeaseAdapter sync ContainerLeaseSyncer_sync settled_lease]. rewrite He, Hl. cbn -[settled_lease].
  by rewrite (settled_twice ctx.(bc_startTime) ctx.(bc_contextId) l st t Hst Hs) by lia.
Qed.

Lemma adapter_twice f : (BlobLeaseAdapter (BlobLeaseAdapter f).2).1 = (BlobLeaseAdapter f).1.
Proof. by destruct f. Qed.

(** ** Methods that only read *)

Section Rules.
Context (now : Z) {S T : Type} (view : S -> View) (beside : S -> T).

(** The method leaves the documents at rest, and what is beside them as it is; what it
    returns satisfies [Q]. *)
Definition only {A} s (m : proc S exn A) (Q : A -> S -> Prop) : Prop :=
  (at_rest now (view s) (view (m s).2) /\ beside (m s).2 = beside s) /\
  match (m s).1 with Ok a => Q a (m s).2 | Throw _ => True end.

Definition any_answer {A} (_ : A) (_ : S) : Prop := True.

Lemma only_bind {A B} s (m : proc S exn A) Q (k : A -> proc S exn B) V :
  only s m Q -> (forall a s', at_rest now (view s) (view s') /\ beside s' = beside s -> Q a s' -> only s' (k a) V) -> only s (m ≫= k) V.
Proof.
  intros [[HR HE] HQ] Hk. unfold only. run. destruct (m s) as [[a|e] s']; cbn in *; [|done].
  destruct (Hk a s' (conj HR HE) HQ) as [[HR' HE'] HV]. split; [split; [by etrans|congruence]|done].
Qed.

Lemma only_ret {A} s (a : A) (Q : A -> S -> Prop) : Q a s -> only s (mret a) Q.
Proof. by split. Qed.

Lemma only_throw {A} s e (Q : A -> S -> Prop) : only s (throw (A := A) e) Q.
Proof. by split. Qed.

Lemma only_lift {A} s (r : res A) : only s (lift r) (fun a s' => s' = s /\ r = Ok a).
Proof. split; [done|]. cbn. by destruct r. Qed.

Lemma only_get s : only s get_state (fun a s' => a = s /\ s' = s).
Proof. by split. Qed.

Lemma only_any {A} s (m : proc S exn A) Q : only s m Q -> only s m any_answer.
Proof. intros [? _]. split; [done|]. by destruct (m s).1. Qed.
End Rules.

(** ** The methods of the store *)

Section Store.
Context {coll : Type -> Type} `{LokiLaws coll} {P : Type}.
Context (now : Z) {T : Type} (g : coll (ServicePropertiesModel P) -> T).
Abbreviation db := (BlobDb coll P).
Implicit Types (s : db).

Abbreviation reads := (only now vw (fun s => g s.(services))).

Lemma reads_check ctx a c s : reads s (checkContainerExist ctx a c) (fun _ s' => s' = s).
Proof. unfold checkContainerExist, only. run. by destruct (findOne _ _). Qed.

Lemma reads_guard ok e s : reads s (guard ok e) (fun _ s' => s' = s /\ ok = true).
Proof. unfold guard, only. by destruct ok. Qed.

Lemma reads_save i b b' s :
  (vw s).(vb) !! i = Some b -> same_blob now b b' ->
  reads s (save_blob i b') (fun _ s' => vw s' = put_blob i b' (vw s)).
Proof.
  intros Hi Hb. pose proof (vw_save i b' s (mk_is_Some _ _ Hi)) as Hv. split; [split; [|done]|exact Hv].
  change (save_blob i b' s).2 with (set_blobs (lk_update i b' s.(blobs)) s). rewrite Hv.
  by apply (at_rest_put _ _ _ b).
Qed.

Lemma reads_save_container i c c' s :
  (vw s).(vc) !! i = Some c -> same_container now c c' ->
  reads s (save_container i c') any_answer.
Proof.
  intros Hi Hc. split; [split; [|done]|done]. pose proof (vw_save_container i c' s (mk_is_Some _ _ Hi)) as Hv.
  change (save_container i c' s).2 with (set_containers (lk_update i c' s.(containers)) s). rewrite Hv.
  by apply (at_rest_container _ _ _ c).
Qed.

(** The document at [i] is [b]. *)
Definition stored_at (d : Z * BlobModel) s : Prop := (vw s).(vb) !! d.1 = Some d.2.

(** What every read begins with. *)
Lemma reads_open ctx a c n sn fe fc s :
  ctx.(bc_startTime) <= now ->
  reads s (getBlobWithLeaseUpdated ctx a c n sn fe fc)
    (fun o s' => forall d, o = Some d -> stored_at d s').
Proof.
  intros Hnow. assert (Hmiss : forall s', reads s' (if fe then throw (BlobErrors.getBlobNotFound ctx.(bc_contextId)) else mret None)
    (fun o s' => forall d : Z * BlobModel, o = Some d -> stored_at d s')).
  { intros s'. destruct fe; [apply only_throw|by apply only_ret]. }
  unfold getBlobWithLeaseUpdated. eapply only_bind; [apply reads_check|]. intros [] ? _ ->.
  eapply only_bind; [apply only_get|]. intros ? ? _ [-> ->].
  destruct (findOne _ _) as [[i b]|] eqn:Hf; [|apply Hmiss]. apply findOne_Some in Hf as [Hi Hsn].
  destruct (fc && negb _); [apply Hmiss|]. destruct (_ !== _) eqn:Hne.
  - eapply only_bind; [apply (reads_save i b); [done|]|].
    { apply same_snapshot. unfold is_blob in Hsn. apply andb_prop in Hsn as [_ Hsn%bool_decide_eq_true].
      rewrite Hsn. by apply negb_true_iff, bool_decide_eq_false in Hne. }
    intros [] s1 _ Hv. apply only_ret.
    intros d [= <-]. unfold stored_at. rewrite Hv. cbn. by rewrite lookup_insert_eq.
  - pose proof (same_adapted now b) as Had. pose proof (fun st => same_settled now ctx (BlobLeaseAdapter b.(b_lease)).2 b st) as Hset.
    destruct (BlobLeaseAdapter _) as [l f]. cbn [fst snd] in Had, Hset. eapply only_bind; [by apply (reads_save i b)|]. intros [] s1 _ Hv.
    eapply only_bind; [apply only_lift|]. intros st ? _ [-> Hst].
    eapply only_bind; [apply (reads_save i (with_lease f b))|].
    { rewrite Hv. cbn. by rewrite lookup_insert_eq. }
    { apply (same_resettled now b); [done|by apply Hset|done]. }
    intros [] s2 _ Hv2. apply only_ret. intros d [= <-]. unfold stored_at. rewrite Hv2. cbn.
    by rewrite lookup_insert_eq.
Qed.

Lemma reads_existing ctx o s : reads s (existing ctx o) (fun d s' => s' = s /\ o = Some d).
Proof. unfold existing. destruct o; [by apply only_ret|apply only_throw]. Qed.

End Store.

Create HintDb reads.
#[export] Hint Extern 1 (bc_startTime _ <= _) => (cbn in *; lia) : reads.

(** The statements of a read. *)
Ltac read_statement :=
  lazymatch goal with
  | |- only _ _ _ _ (lift _ ≫= _) _ => eapply only_bind; [apply only_lift|]; intros ? ? _ [-> ?]
  | |- only _ _ _ _ (read_conditions _ _ _ _ ≫= _) _ => eapply only_bind; [apply only_lift|]; intros ? ? _ [-> ?]
  | |- only _ _ _ _ (read_lease _ _ _ ≫= _) _ => eapply only_bind; [apply only_lift|]; intros ? ? _ [-> ?]
  | |- only _ _ _ _ (container_conditions _ _ _ ≫= _) _ => eapply only_bind; [apply only_lift|]; intros ? ? _ [-> ?]
  | |- only _ _ _ _ (guard _ _ ≫= _) _ => eapply only_bind; [apply reads_guard|]; intros [] ? _ [-> ?]
  | |- only _ _ _ _ (get_state ≫= _) _ => eapply only_bind; [apply only_get|]; intros ? ? _ [-> ->]
  | |- only _ _ _ _ (checkContainerExist _ _ _ ≫= _) _ => eapply only_bind; [apply reads_check|]; intros [] ? _ ->
  | |- only _ _ _ _ (getBlobWithLeaseUpdated _ _ _ _ _ _ _ ≫= _) _ =>
      let Hd := fresh "Hd" in eapply only_bind; [apply reads_open; solve [auto with reads]|]; intros ? ? _ Hd
  | |- only _ _ _ _ (existing _ _ ≫= _) _ => let d := fresh "d" in eapply only_bind; [apply reads_existing|]; intros d ? _ [-> ->]
  | |- only _ _ _ _ (mret _) _ => by apply only_ret
  | |- only _ _ _ _ (throw _) _ => apply only_throw
  | |- only _ _ _ _ (match ?x with _ => _ end) _ => destruct x
  | |- only _ _ _ _ (lift _) any_answer => by eapply only_any, only_lift
  | |- only _ _ _ _ (_ ≫= _) _ => eapply only_bind; [solve [eauto with reads]|]; intros ? ? _ ?
  | |- only _ _ _ _ _ any_answer => solve [eauto with reads]
  end.

(** ** Blobs *)

Section Methods.
Context {coll : Type -> Type} `{LokiLaws coll} {P : Type}.
Context (now : Z) {T : Type} (g : coll (ServicePropertiesModel P) -> T).
Abbreviation db := (BlobDb coll P).
Implicit Types (s : db).
Abbreviation reads := (only now vw (fun s => g s.(services))).

Lemma downloadBlob_reads ctx a c n sn acc mac s :
  ctx.(bc_startTime) <= now -> reads s (downloadBlob ctx a c n sn acc mac) (fun b s' => exists i, stored_at (i, b) s').
Proof. intros Hnow. unfold downloadBlob. do 4 read_statement. apply only_ret. destruct d. eauto. Qed.

Lemma getBlobProperties_reads ctx a c n sn acc mac s :
  ctx.(bc_startTime) <= now -> reads s (getBlobProperties ctx a c n sn acc mac) any_answer.
Proof.
  intros Hnow. unfold getBlobProperties. do 4 read_statement. eapply only_bind; [apply (reads_save _ _ _ d.2); [by apply Hd|apply same_tags]|].
  intros [] s1 _ _. repeat read_statement.
Qed.

Lemma getBlobTag_reads ctx a c n sn acc mac s :
  ctx.(bc_startTime) <= now -> reads s (getBlobTag ctx a c n sn acc mac) any_answer.
Proof. intros Hnow. unfold getBlobTag. repeat read_statement. Qed.

Lemma getBlockList_reads ctx a c n sn o acc mac s :
  ctx.(bc_startTime) <= now -> reads s (BlobStore.getBlockList ctx a c n sn o acc mac) any_answer.
Proof. intros Hnow. unfold BlobStore.getBlockList. repeat read_statement. Qed.

Lemma getPageRanges_reads ctx a c n sn acc mac s :
  ctx.(bc_startTime) <= now -> reads s (BlobStore.getPageRanges ctx a c n sn acc mac) any_answer.
Proof. intros Hnow. unfold BlobStore.getPageRanges. repeat read_statement. Qed.

(** ** Lists *)

Lemma settle_blobs_reads ctx (ds : list (Z * BlobModel)) s :
  ctx.(bc_startTime) <= now -> NoDup ds.*1 -> (forall d, d ∈ ds -> stored_at d s) -> reads s (settle_blobs ctx ds) any_answer.
Proof.
  intros Hnow. revert s. induction ds as [|[i b] ds IH]; intros s Hnd Hds; [by apply only_ret|].
  apply NoDup_cons in Hnd as [Hni Hnd]. cbn [settle_blobs].
  pose proof (same_adapted now b) as Had. pose proof (fun st => same_settled now ctx (BlobLeaseAdapter b.(b_lease)).2 b st) as Hset.
  destruct (BlobLeaseAdapter _) as [l f]. cbn [fst snd] in Had, Hset.
  eapply only_bind; [apply (reads_save _ _ i b); [apply (Hds (i, b)); by left|done]|]. intros [] s1 _ Hv1.
  eapply only_bind; [apply only_lift|]. intros st ? _ [-> Hst]. eapply only_bind; [apply (reads_save _ _ i (with_lease f b))|].
  { rewrite Hv1. cbn. by rewrite lookup_insert_eq. }
  { apply (same_resettled now b); [done|by apply Hset|done]. }
  intros [] s2 _ Hv2. eapply only_bind; [apply IH; [done|]|].
  - intros [j d] Hd. assert (j <> i). { intros ->. apply Hni. by apply (list_elem_of_fmap_2 fst _ (i, d)). }
    unfold stored_at, put_blob, put_blobs in *. rewrite Hv2. cbn [vb]. rewrite lookup_insert_ne by done.
    rewrite Hv1. cbn [vb]. rewrite lookup_insert_ne by done. apply (Hds (j, d)). by right.
  - intros. by apply only_ret.
Qed.

Lemma listBlobs_reads ctx a c d o pre n m sn u s :
  ctx.(bc_startTime) <= now -> reads s (listBlobs ctx a c d o pre n m sn u) any_answer.
Proof.
  intros Hnow. unfold listBlobs. read_statement. set (src := lk_sort blob_name_le _).
  eapply only_bind; [apply only_lift|]. intros [[items prefixes] marker] ? _ [-> Hf].
  apply fill_items in Hf as Hsub. eapply only_bind; [apply settle_blobs_reads; [done|..]|intros; by apply only_ret].
  - eapply sublist_NoDup; [|by apply fmap_sublist]. unfold src. rewrite sort_perm. apply (NoDup_find (fun _ => _)).
  - intros [i b] Hd. eapply elem_of_sublist in Hd; [|exact Hsub]. unfold src in Hd. rewrite sort_perm in Hd.
    by apply elem_find in Hd as [Hd _].
Qed.

Lemma filterBlobs_reads ctx a c w n mk s : reads s (BlobLists.filterBlobs ctx a c w n mk) any_answer.
Proof.
  unfold BlobLists.filterBlobs. eapply (only_bind _ _ _ _ _ (fun _ s' => s' = s)).
  - destruct c; [apply reads_check|by apply only_ret].
  - intros [] ? _ ->. repeat read_statement.
Qed.

(** ** Containers *)

Definition container_at (d : Z * ContainerModel) s : Prop := (vw s).(vc) !! d.1 = Some d.2.

Lemma settle_container_reads ctx d s : ctx.(bc_startTime) <= now -> container_at d s ->
  reads s (settle_container ctx d)
    (fun d' s' => d'.1 = d.1 /\ container_at d' s' /\ forall j, j <> d.1 -> (vw s').(vc) !! j = (vw s).(vc) !! j).
Proof.
  intros Hnow Hd. unfold settle_container. eapply only_bind; [apply only_lift|]. intros l ? _ [-> Hl].
  eapply only_bind; [apply only_lift|]. intros st ? _ [-> Hst]. pose proof (same_settled_container now ctx l d.2 st Hl Hst Hnow) as Hsame.
  set (c := container_with_lease _ _) in *.
  pose proof (vw_save_container d.1 c s (mk_is_Some _ _ Hd)) as Hv.
  eapply (only_bind _ _ _ _ _ (fun _ s' => vw s' = put_containers (<[d.1 := c]> (vw s).(vc)) (vw s))).
  - destruct (reads_save_container now g d.1 d.2 c s Hd Hsame) as [Hr _]. split; [exact Hr|exact Hv].
  - intros [] s1 _ Hv1. apply only_ret. unfold container_at. rewrite Hv1. cbn.
    rewrite lookup_insert_eq. split_and!; [done..|]. intros j Hj. by rewrite lookup_insert_ne.
Qed.

Lemma settle_containers_reads ctx (ds : list (Z * ContainerModel)) s :
  ctx.(bc_startTime) <= now -> NoDup ds.*1 -> (forall d, d ∈ ds -> container_at d s) ->
  reads s (settle_containers ctx ds) any_answer.
Proof.
  intros Hnow. revert s. induction ds as [|d ds IH]; intros s Hnd Hds; [by apply only_ret|].
  apply NoDup_cons in Hnd as [Hni Hnd]. cbn [settle_containers].
  eapply only_bind; [apply settle_container_reads; [done|apply Hds; by left]|]. intros d' s1 _ (_&_&Ho).
  eapply only_bind; [apply IH; [done|]|intros; by apply only_ret].
  intros x Hx. unfold container_at. rewrite Ho; [apply Hds; by right|].
  intros He. apply Hni. rewrite <- He. by apply list_elem_of_fmap_2.
Qed.

Lemma getContainerWithLeaseUpdated_reads ctx a c fe s :
  ctx.(bc_startTime) <= now -> reads s (getContainerWithLeaseUpdated ctx a c fe) any_answer.
Proof.
  intros Hnow. unfold getContainerWithLeaseUpdated. read_statement. destruct (findOne _ _) as [d|] eqn:Hf.
  - destruct d as [i d]. apply findOne_Some in Hf as [Hi _].
    eapply only_bind; [by apply settle_container_reads|]. intros. by apply only_ret.
  - destruct fe; [apply only_throw|by apply only_ret].
Qed.

Lemma container_rest_reads ctx acc (o : option (Z * ContainerModel)) s {A} (f : Z * ContainerModel -> A) :
  reads s (d ← existing_container ctx o;
           _ ← container_lease_allows ContainerReadLeaseValidator ctx acc d; mret (f d)) any_answer.
Proof.
  eapply (only_bind _ _ _ _ _ any_answer); [destruct o; [by apply only_ret|apply only_throw]|]. intros d s1 _ _.
  eapply (only_bind _ _ _ _ _ any_answer); [unfold container_lease_allows; repeat read_statement|].
  intros. by apply only_ret.
Qed.

Lemma getContainerProperties_reads ctx a c acc s :
  ctx.(bc_startTime) <= now -> reads s (getContainerProperties ctx a c acc) any_answer.
Proof.
  intros Hnow. unfold getContainerProperties. eapply only_bind; [by apply getContainerWithLeaseUpdated_reads|]. intros o s1 _ _.
  apply container_rest_reads.
Qed.

Lemma getContainerACL_reads ctx a c acc s :
  ctx.(bc_startTime) <= now -> reads s (getContainerACL ctx a c acc) any_answer.
Proof.
  intros Hnow. unfold getContainerACL. eapply only_bind; [by apply getContainerWithLeaseUpdated_reads|]. intros o s1 _ _.
  apply (container_rest_reads ctx acc o s1 (fun d => (d.2, d.2.(c_containerAcl)))).
Qed.

Lemma listContainers_reads ctx a pre n m s :
  ctx.(bc_startTime) <= now -> reads s (listContainers ctx a pre n m) any_answer.
Proof.
  intros Hnow. unfold listContainers. read_statement. set (ds := take _ _).
  assert (Hds : NoDup ds.*1 /\ forall d, d ∈ ds -> container_at d s).
  { split.
    - unfold ds. rewrite fmap_take. eapply sublist_NoDup; [|apply sublist_take].
      rewrite sort_perm. apply (NoDup_find (fun _ => _)).
    - intros [i b] Hd. eapply elem_of_sublist in Hd; [|apply sublist_take]. rewrite sort_perm in Hd.
      by apply elem_find in Hd as [Hd _]. }
  destruct Hds as [Hnd Hin]. destruct (_ <=? _).
  - eapply only_bind; [by apply settle_containers_reads|]. intros. by apply only_ret.
  - destruct (if Nat.leb _ _ then _ else _); [|apply only_throw].
    eapply only_bind; [apply settle_containers_reads; [done|..]|intros; by apply only_ret].
    + rewrite fmap_take. eapply sublist_NoDup; [exact Hnd|apply sublist_take].
    + intros x Hx. apply Hin. eapply elem_of_sublist; [exact Hx|apply sublist_take].
Qed.
End Methods.

(** ** The operations *)

(** The operations that only read. *)
Definition is_read (o : Operation) : bool :=
  match o with
  | OnService (Service_SetProperties _ _) => false
  | OnService _ => true
  | OnContainer (Container_GetProperties _ _ | Container_GetAccessPolicy _ _ | Container_FilterBlobs _
    | Container_ListBlobFlatSegment _ | Container_ListBlobHierarchySegment _ _) => true
  | OnContainer _ => false
  | OnBlob (Blob_Download _ | Blob_GetProperties _ _ _ _ | Blob_GetTags _ _ _ _) => true
  | OnBlob _ => false
  | OnContent (PageBlob_GetPageRanges _ _ _ _ | BlockBlob_GetBlockList _ _ _ _ _) => true
  | OnContent _ => false
  | NotImplemented _ => true
  end.

Section Operations.
Context {coll : Type -> Type} `{LokiLaws coll} {E : Type} `{IExtentStore E} `{!IExtentReader E} (server : Server).
Abbreviation state := (BlobService coll Setting E).
Implicit Types (s : state) (d : BlobDb coll Setting).

Context (now : Z).

Definition service_view s : View := vw s.(metadataStore).

(** The settings, with the defaults that a read of them fills in. *)
Definition settings (c : coll (ServicePropertiesModel Setting)) : gmap Z (ServicePropertiesModel Setting) :=
  BlobServiceHandlers.with_defaults <$> docs c.
Definition service_beside s : E * gmap Z (ServicePropertiesModel Setting) :=
  (s.(extentStore), settings s.(metadataStore).(services)).
Abbreviation reads := (only now service_view service_beside).
Abbreviation db_reads := (only now vw (fun d => settings d.(services))).

Lemma reads_on_db {A} s (f : proc (BlobDb coll Setting) exn A) (Q : A -> BlobDb coll Setting -> Prop) :
  db_reads s.(metadataStore) f Q -> reads s (on_db f) (fun a s' => Q a s'.(metadataStore)).
Proof.
  intros [[Hr Hg] HQ]. unfold only, service_view, service_beside, on_db in *.
  destruct (f _) as [[a|e] d]; cbn in *; by rewrite Hg.
Qed.

Lemma reads_done {A} s (m : proc state exn A) Q : reads s m Q -> reads s (done_with m) any_answer.
Proof. intros Hm. eapply only_bind; [exact Hm|]. intros. by apply only_ret. Qed.

Lemma reads_store {A} s (f : proc (BlobDb coll Setting) exn A) :
  db_reads s.(metadataStore) f any_answer -> reads s (done_with (on_db f)) any_answer.
Proof. intros Hf. eapply reads_done, reads_on_db, Hf. Qed.

Lemma reads_check_service s ok e : reads s (check ok e) (fun _ s' => s' = s).
Proof. unfold check, only. by destruct ok. Qed.

#[local] Hint Resolve getBlobProperties_reads getBlobTag_reads getBlockList_reads getPageRanges_reads listBlobs_reads
  filterBlobs_reads getContainerProperties_reads getContainerACL_reads listContainers_reads : reads.

(** Statements that only calculate. *)
Ltac service_read :=
  lazymatch goal with
  | |- only _ _ _ _ (lift _ ≫= _) _ => eapply only_bind; [apply only_lift|]; intros ? ? _ [-> ?]
  | |- only _ _ _ _ (check _ _ ≫= _) _ => eapply only_bind; [apply reads_check_service|]; intros [] ? _ ->
  | |- only _ _ _ _ (get_state ≫= _) _ => eapply only_bind; [apply only_get|]; intros ? ? _ [-> ->]
  | |- only _ _ _ _ (on_db _ ≫= _) _ =>
      eapply only_bind; [apply reads_on_db; solve [eauto with reads]|]; intros ? ? _ _
  | |- only _ _ _ _ (mret _) _ => by apply only_ret
  | |- only _ _ _ _ (throw _) _ => apply only_throw
  | |- only _ _ _ _ (match ?x with _ => _ end) _ => destruct x
  end.

Lemma download_reads options ctx s :
  ctx.(startTime) <= now -> docs_paged (service_view s) -> reads s (download server.(md5) options ctx) any_answer.
Proof.
  intros Hnow Hp. unfold download. eapply only_bind; [by apply reads_on_db, downloadBlob_reads|].
  intros b s1 [Hr _] [i Hi]. assert (Hb : paged b) by exact (at_rest_paged _ _ _ Hr Hp i b Hi).
  service_read. destruct (bp_blobType _) as [[]|] eqn:Ht; [| | |service_read].
  - unfold downloadBlockBlobOrAppendBlob. repeat service_read.
  - unfold downloadPageBlob. do 2 service_read. destruct (Hb Ht) as [r Hrr]. unfold ensure_ranges. rewrite Hrr.
    eapply (only_bind _ _ _ _ _ (fun _ s' => s' = s1)); [by apply only_ret|]. intros [] ? _ ->. repeat service_read.
  - unfold downloadBlockBlobOrAppendBlob. repeat service_read.
Qed.

Lemma defaults_twice p : BlobServiceHandlers.with_defaults (BlobServiceHandlers.with_defaults p) = BlobServiceHandlers.with_defaults p.
Proof. destruct p as [? [] [] [] [] [] ? []]; done. Qed.

Lemma settings_read i doc d : docs d.(services) !! i = Some doc ->
  db_reads d (update_db (set_services (lk_update i (BlobServiceHandlers.with_defaults doc) d.(services)))) any_answer.
Proof.
  intros Hi. split; [split; [done|]|done]. unfold settings. cbn. rewrite docs_update by by eexists.
  rewrite fmap_insert, defaults_twice. apply insert_id. by rewrite lookup_fmap, Hi.
Qed.

Lemma service_reads ctx o s :
  ctx.(startTime) <= now -> is_read (OnService o) = true -> reads s (run_service_operation server ctx o) any_answer.
Proof.
  intros Hnow. destruct o; [done|..]; intros _; try destruct level; apply reads_store; cbn [metadataStore].
  - unfold BlobServiceHandlers.getProperties. read_statement.
    eapply (only_bind _ _ _ _ _ any_answer); [|intros; by apply only_ret].
    destruct (findOne _ _) as [[i doc]|] eqn:Hf; [|by apply only_ret]. apply findOne_Some in Hf as [Hi _].
    eapply only_bind; [by apply settings_read|intros; by apply only_ret].
  - unfold BlobServiceHandlers.getStatistics. repeat read_statement.
  - unfold BlobServiceHandlers.listContainersSegment. repeat read_statement.
  - unfold BlobServiceHandlers.getUserDelegationKey. repeat read_statement.
  - unfold BlobServiceHandlers.filterBlobs. repeat read_statement.
  - by apply only_ret.
  - by apply only_ret.
  - by apply only_ret.
Qed.

Lemma container_reads env ctx o s :
  ctx.(startTime) <= now -> is_read (OnContainer o) = true ->
  reads s (run_container_operation server env ctx o) any_answer.
Proof.
  intros Hnow. destruct o; try done; intros _; apply reads_store; cbn [metadataStore].
  - unfold ContainerHandlers.getProperties. repeat read_statement.
  - unfold ContainerHandlers.getAccessPolicy. repeat read_statement.
  - unfold ContainerHandlers.filterBlobs. repeat read_statement.
  - unfold ContainerHandlers.listBlobFlatSegment, ContainerHandlers.list_segment. repeat read_statement.
  - unfold ContainerHandlers.listBlobHierarchySegment, ContainerHandlers.list_segment. repeat read_statement.
Qed.

Lemma blob_reads env ctx o s :
  ctx.(startTime) <= now -> docs_paged (service_view s) -> is_read (OnBlob o) = true ->
  reads s (run_blob_operation server env ctx o) any_answer.
Proof.
  intros Hnow Hp. destruct o; try done; intros _; [by eapply reads_done, download_reads|..];
    apply reads_store; cbn [metadataStore].
  - unfold BlobPropertyHandlers.getProperties. repeat read_statement.
  - unfold BlobPropertyHandlers.getTags. repeat read_statement.
Qed.

Lemma content_reads env ctx ext o s :
  ctx.(startTime) <= now -> is_read (OnContent o) = true ->
  reads s (run_content_operation server env ctx ext o) any_answer.
Proof.
  intros Hnow. destruct o; try done; intros _; apply (reads_done _ _ any_answer).
  - unfold BlobHandlers.getPageRanges. repeat service_read.
  - unfold BlobHandlers.getBlockList. repeat service_read.
Qed.

(** What a read operation leaves, whether it returns or throws. *)
Lemma operation_reads env ctx ext o s :
  ctx.(startTime) <= now -> docs_paged (service_view s) -> is_read o = true -> reads s (run_operation server env ctx ext o) any_answer.
Proof.
  intros Hnow Hp. destruct o as [o|o|o|o|o]; cbn [run_operation].
  - by apply service_reads.
  - by apply container_reads.
  - by apply blob_reads.
  - by apply content_reads.
  - intros _. by destruct o.
Qed.
End Operations.
