(* ===== verification/Protocol.v ===== *)
(** * Protocol: the generated protocol layer

    What src/src/blob/generated, src/src/queue/generated and src/src/table/generated share:
    the specifications of operations, the dispatch of a request to an operation
    (middleware/dispatch.middleware.ts), the reading of its parameters and the writing of
    its response (deserialize and serialize of utils/serializer.ts). The packages are
    arguments: [fromUri] of uri-templates, and the serializer of ms-rest-js with the
    parsers and printers of bodies. *)

From stdpp Require Import pretty.
From S2P Require JsValues.
From S2P Require Import Prelude Errors Extents Utf8 Texts.
Open Scope Z_scope.
Open Scope azurite_scope.

(** ** Texts and objects *)

(** [s.split(sep)] for a single unit. *)
Fixpoint split_on (sep : Z) (s : text) : list text :=
  match s with
  | [] => [[]]
  | u :: s =>
      if u =? sep then [] :: split_on sep s
      else match split_on sep s with x :: l => (u :: x) :: l | [] => [[u]] end
  end.

(** The properties of an object: assigning a text to [__proto__] does nothing. Their order
    matters only for keys that differ in case, which are no indices. *)
Definition proto : text := js "__proto__".
Fixpoint assign {A} (key : text) (value : A) (o : list (text * A)) : list (text * A) :=
  if key === proto then o
  else match o with
       | [] => [(key, value)]
       | (k, v) :: o => if k === key then (key, value) :: o else (k, v) :: assign key value o
       end.
Definition property {A} (key : text) (o : list (text * A)) : option A :=
  snd <$> List.find (fun p => p.1 === key) o.

(** ** Requests: IRequest.ts

    [rq_headers] are the properties of the object of headers, in order. *)

Inductive HeaderValue := HUndefined | HString (s : text) | HStrings (l : list text).

Record IRequest := mkRequest {
  rq_method : text;
  rq_url : text;
  rq_path : text;
  rq_protocol : text;
  rq_header : string -> option text;
  rq_headers : list (text * HeaderValue);
  rq_query : string -> option text
}.

(** ** Specifications: what artifacts/parameters.ts and artifacts/specifications.ts consist of *)

Inductive MapperType :=
| TString | TNumber | TBoolean | TByteArray | TDateTimeRfc1123 | TStream | TObject
| TEnum (allowedValues : list string)
| TSequence (element : MapperType)
| TDictionary (value : MapperType)
| TComposite (className : string) (additionalProperties : option MapperType).

Inductive Constant := CString (s : string) | CNumber (n : Z).

Record Mapper := mkMapper {
  required : bool;
  isConstant : bool;
  serializedName : string;
  defaultValue : option Constant;
  type_ : MapperType;
  headerCollectionPrefix : option string;
  constraints : list (string * string);
  xmlElementName : option string;
  xmlName : option string;
  xmlIsWrapped : bool;
  xmlIsAttribute : bool
}.

(** Mappers with no more than a serialized name and a type, and with a name in XML. *)
Definition simple (required : bool) (serializedName : string) (t : MapperType) : Mapper :=
  mkMapper required false serializedName None t None [] None None false false.
Definition named (xmlName : string) (required : bool) (serializedName : string) (t : MapperType) : Mapper :=
  mkMapper required false serializedName None t None [] None (Some xmlName) false false.

(** A model of artifacts/mappers.ts. *)
Record CompositeMapper := mkComposite {
  cm_serializedName : string;
  cm_xmlName : option string;
  cm_className : string;
  modelProperties : list (string * Mapper);
  additionalProperties : option MapperType
}.

(** A path of one name is the name. *)
Record OperationParameter := mkParameter {
  parameterPath : list string;
  mapper : Mapper;
  collectionFormat : option string
}.

Record RequestBody := mkRequestBody {
  rb_parameterPath : list string;
  rb_mapper : Mapper
}.

Record ResponseSpec := mkResponse {
  bodyMapper : option Mapper;
  headersMapper : option string
}.

Record OperationSpec := mkSpec {
  httpMethod : string;
  path : option string;
  urlParameters : list OperationParameter;
  queryParameters : list OperationParameter;
  headerParameters : list OperationParameter;
  requestBody : option RequestBody;
  contentType : option string;
  responses : list (string * ResponseSpec);
  isXML : bool
}.

(** handlers/handlerMappers.ts. *)
Record IHandlerPath := mkHandlerPath {
  arguments : list string;
  handler : string;
  method : string
}.

(** ** Dispatch *)

Section Dispatch.
Context (fromUri : text -> text -> option (list (text * text))).
Implicit Types (rq : IRequest) (spec : OperationSpec) (p : OperationParameter).

(** utils/utils.ts: the template matches, and no variable is empty. *)
Definition isURITemplateMatch (url template : text) : bool :=
  match fromUri template url with
  | None => false
  | Some result => forallb (fun x => x.2 !== []) result
  end.

(** The methods that a header may put in the place of that of the request. *)
Definition overriding : list text := js <$> ["GET"; "MERGE"; "PATCH"; "DELETE"]%string.

Definition method_of rq : text :=
  match rq.(rq_header) "X-HTTP-Method"%string with
  | Some (u :: x) => let value := trim (u :: x) in if bool_decide (value ∈ overriding) then value else rq.(rq_method)
  | _ => rq.(rq_method)
  end.

Definition path_of spec : text :=
  match spec.(path) with
  | Some (String c s) => if startsWith (js "/") (js (String c s)) then js (String c s) else js "/" ++ js (String c s)
  | _ => js "/"
  end.

Definition allowed (m : Mapper) (value : text) : bool :=
  match m.(type_) with
  | TEnum allowedValues => existsb (fun v => js v === value) allowedValues
  | _ => true
  end.

(** A constant of the query is compared as it is, one of a header without its case and as a text. *)
Definition query_constant (m : Mapper) (value : text) : bool :=
  negb m.(isConstant) || match m.(defaultValue) with Some (CString s) => js s === value | _ => false end.
Definition header_constant (m : Mapper) (value : text) : bool :=
  negb m.(isConstant)
  || (lower (match m.(defaultValue) with
             | Some (CString s) => js s
             | Some (CNumber n) => if n =? 0 then [] else js (pretty n)
             | None => []
             end) === lower value).

(** A required parameter: whether the request meets it. *)
Definition meets (get : string -> option text) (constant : Mapper -> text -> bool) p : bool :=
  match get p.(mapper).(serializedName) with
  | None => false
  | Some value => allowed p.(mapper) value && constant p.(mapper) value
  end.

(** The number of required parameters, if all of them are met. *)
Fixpoint met (get : string -> option text) (constant : Mapper -> text -> bool) (ps : list OperationParameter) : option nat :=
  match ps with
  | [] => Some 0%nat
  | p :: ps =>
      if p.(mapper).(required) then
        if meets get constant p then S <$> met get constant ps else None
      else met get constant ps
  end.

(** The number of conditions a request meets that is one of the operation. *)
Definition isRequestAgainstOperation rq spec (dispatchPathPattern : option text) : option nat :=
  if js spec.(httpMethod) !== method_of rq then None
  else if negb (isURITemplateMatch (default rq.(rq_path) dispatchPathPattern) (path_of spec)) then None
  else n ← met rq.(rq_query) query_constant spec.(queryParameters);
       m ← met rq.(rq_header) header_constant spec.(headerParameters);
       Some (n + m)%nat.

Context {O : Type} (Specifications : O -> option OperationSpec).

(** The loop over the operations: the first one with the most conditions. *)
Fixpoint best_operation rq (pattern : option text) (best : option (O * nat)) (operations : list O) : option (O * nat) :=
  match operations with
  | [] => best
  | o :: operations =>
      let res := spec ← Specifications o; isRequestAgainstOperation rq spec pattern in
      best_operation rq pattern
        (match res, best with
         | Some n, Some (_, m) => if (m <? n)%nat then Some (o, n) else best
         | Some n, None => Some (o, n)
         | None, _ => best
         end) operations
  end.

(** The operation of the context; without one the request is unsupported. *)
Definition dispatchMiddleware rq (pattern : option text) (operations : list O) : option O :=
  fst <$> best_operation rq pattern None operations.
End Dispatch.

(** ** Reading the parameters of a request: utils/serializer.ts

    Values of JavaScript; [JOpaque] stands for the objects of packages (streams, buffers,
    dates). *)

Inductive Value (T : Type) : Type :=
| JUndefined
| JNull
| JBoolean (b : bool)
| JNumber (x : JsValues.number)
| JText (s : text)
| JArray (l : list (Value T))
| JObject (o : list (text * Value T))
| JOpaque (t : T).
Arguments JUndefined {T}.
Arguments JNull {T}.
Arguments JBoolean {T}.
Arguments JNumber {T}.
Arguments JText {T}.
Arguments JArray {T}.
Arguments JObject {T}.
Arguments JOpaque {T}.

Definition truthy {T} (v : Value T) : bool :=
  match v with
  | JUndefined | JNull | JText [] => false
  | JBoolean b => b
  | JNumber x => JsValues.truthy (JsValues.VNum x)
  | _ => true
  end.

(** Exceptions are known by their message. *)
Abbreviation outcome := (result text).

(** The packages: the serializer of ms-rest-js (the third argument of [serialize_] is the
    name, if one is given), JSON.parse and the parser of XML. *)
Record Serializer (T : Type) := mkSerializer {
  deserialize_ : Mapper -> Value T -> text -> outcome (Value T);
  serialize_ : Mapper -> Value T -> option text -> outcome (Value T);
  JSON_parse : text -> outcome (Value T);
  parseXML : text -> outcome (Value T)
}.
Arguments deserialize_ {T}.
Arguments serialize_ {T}.
Arguments JSON_parse {T}.
Arguments parseXML {T}.

Section Parameters.
Context {T : Type} (serializer : Serializer T).
Implicit Types (rq : IRequest) (spec : OperationSpec) (p : OperationParameter).
Implicit Types (o parameters : list (text * Value T)) (v : Value T).

(** A value of the object, [undefined] if there is none. *)
Definition get_property (name : text) o : Value T := default JUndefined (property name o).

(** [typeof v === "object" ? v[name] : []]. *)
Definition element_of (name : text) v : outcome (Value T) :=
  match v with
  | JNull => Throw (js "Cannot read properties of null")
  | JObject o => Ok (get_property name o)
  | JArray _ | JOpaque _ => Ok JUndefined
  | _ => Ok (JArray [])
  end.

(** A path leads through objects, which are made where there is no value. No
    specification leads a path through another value. *)
Fixpoint setParametersValue o (parameterPath : list text) v : outcome (list (text * Value T)) :=
  match parameterPath with
  | [] => Ok (assign (js "undefined") v o)
  | [name] => Ok (assign name v o)
  | name :: parameterPath =>
      let child := get_property name o in
      match (if truthy child then child else JObject []) with
      | JObject o' =>
          o'' ← setParametersValue o' parameterPath v;
          Ok (assign name (JObject o'') o)
      | _ => Throw (js "Cannot create property")
      end
  end.

Definition no_name (kind : string) : text :=
  js kind ++ js "Parameter mapper doesn't include valid " ++ [34] ++ js "serializedName" ++ [34].

(** Formats of one unit. *)
Definition split_format (format : string) (s : text) : list text :=
  match js format with
  | [u] => split_on u s
  | _ => [s]
  end.

Definition queryValueOriginal rq p : Value T :=
  match rq.(rq_query) p.(mapper).(serializedName) with
  | None => JUndefined
  | Some value =>
      match p.(collectionFormat), p.(mapper).(type_) with
      | Some format, TSequence _ => JArray (JText <$> split_format format value)
      | _, _ => JText value
      end
  end.

(** The value is validated by the serializer. *)
Definition deserialize_validated (m : Mapper) v : outcome (Value T) :=
  value ← serializer.(deserialize_) m v (js m.(serializedName));
  _ ← serializer.(serialize_) m value None;
  Ok value.

Definition deserialize_query rq p parameters : outcome (list (text * Value T)) :=
  throw_when (p.(mapper).(serializedName) === ""%string) (no_name "Query");;
  value ← deserialize_validated p.(mapper) (queryValueOriginal rq p);
  setParametersValue parameters (js <$> p.(parameterPath)) value.

Definition header_value (v : HeaderValue) : Value T :=
  match v with
  | HUndefined => JUndefined
  | HString s => JText s
  | HStrings l => JArray (JText <$> l)
  end.

Definition value_mapper (t : MapperType) : Mapper :=
  simple false "" (match t with TDictionary value => value | _ => t end).

(** The headers whose names begin with the prefix, under the rest of their names. *)
Fixpoint header_dictionary (m : Mapper) (prefix : text) (headers : list (text * HeaderValue)) o : outcome (list (text * Value T)) :=
  match headers with
  | [] => Ok o
  | (key, value) :: headers =>
      if startsWith (lower prefix) (lower key) then
        v ← serializer.(serialize_) (value_mapper m.(type_)) (header_value value) (Some key);
        header_dictionary m prefix headers (assign (drop (length prefix) key) v o)
      else header_dictionary m prefix headers o
  end.

Definition headerValueOriginal rq p : Value T :=
  match rq.(rq_header) p.(mapper).(serializedName) with Some value => JText value | None => JUndefined end.

Definition deserialize_header rq p parameters : outcome (list (text * Value T)) :=
  throw_when (p.(mapper).(serializedName) === ""%string) (no_name "Header");;
  match p.(mapper).(headerCollectionPrefix) with
  | Some (String c s) =>
      dictionary ← header_dictionary p.(mapper) (js (String c s)) rq.(rq_headers) [];
      setParametersValue parameters (js <$> p.(parameterPath)) (JObject dictionary)
  | _ =>
      value ← deserialize_validated p.(mapper) (headerValueOriginal rq p);
      setParametersValue parameters (js <$> p.(parameterPath)) value
  end.

Fixpoint each (f : OperationParameter -> list (text * Value T) -> outcome (list (text * Value T)))
    (ps : list OperationParameter) parameters : outcome (list (text * Value T)) :=
  match ps with
  | [] => Ok parameters
  | p :: ps => parameters ← f p parameters; each f ps parameters
  end.

Definition jsonContentTypes : list text := js <$> ["application/json"; "text/json"]%string.
Definition xmlContentTypes : list text := js <$> ["application/xml"; "application/atom+xml"]%string.

Definition contentComponents rq : list text :=
  match default [] (rq.(rq_header) "content-type"%string) with
  | [] => []
  | contentType => lower <$> split_on 59 contentType
  end.

Definition is_stream (t : MapperType) : bool := match t with TStream => true | _ => false end.
Definition is_sequence (t : MapperType) : bool := match t with TSequence _ => true | _ => false end.

(** What becomes of the text of a body. *)
Definition valueToDeserialize rq spec (m : Mapper) (body : text) : outcome (Value T) :=
  let isRequestWithJSON := existsb (fun c => bool_decide (c ∈ jsonContentTypes)) (contentComponents rq) in
  let isRequestWithXML :=
    spec.(isXML) || existsb (fun c => bool_decide (c ∈ xmlContentTypes)) (contentComponents rq) in
  parsedBody ←
    (if isRequestWithJSON then serializer.(JSON_parse) body
     else if isRequestWithXML then
       v ← serializer.(parseXML) body; Ok (if truthy v then v else JObject [])
     else Ok (JObject []));
  if spec.(isXML) && is_sequence m.(type_) then
    element_of (js (default "undefined"%string m.(xmlElementName))) parsedBody
  else Ok parsedBody.

(** [body] is what reading the stream gives. *)
Definition deserialize_body rq spec (stream : T) (body : outcome text) parameters : outcome (list (text * Value T)) :=
  match spec.(requestBody) with
  | None => Ok parameters
  | Some bodyParameter =>
      let m := bodyParameter.(rb_mapper) in
      if is_stream m.(type_) then setParametersValue parameters [js "body"] (JOpaque stream)
      else
        body ← body;
        v ← valueToDeserialize rq spec m body;
        value ← deserialize_validated m v;
        parameters ← setParametersValue parameters (js <$> bodyParameter.(rb_parameterPath)) value;
        setParametersValue parameters [js "body"] (JText body)
  end.

Definition deserialize rq spec (stream : T) (body : outcome text) : outcome (list (text * Value T)) :=
  parameters ← each (deserialize_query rq) spec.(queryParameters) [];
  parameters ← each (deserialize_header rq) spec.(headerParameters) parameters;
  deserialize_body rq spec stream body parameters.

(** middleware/HandlerMiddlewareFactory.ts: what the handler's method is called with, before
    the context. *)
Definition handler_arguments (handlerPath : IHandlerPath) parameters : list (Value T) :=
  (fun arg => get_property (js arg) parameters) <$> handlerPath.(arguments).
End Parameters.

(** ** Responses: utils/serializer.ts and ExpressResponseAdapter.ts

    The names of headers are kept in lower case; the body is what is written or piped. *)

Record IResponse (T : Type) := mkIResponse {
  rs_statusCode : Z;
  rs_headers : list (text * Value T);
  rs_body : list (Value T)
}.
Arguments mkIResponse {T}.
Arguments rs_statusCode {T}.
Arguments rs_headers {T}.
Arguments rs_body {T}.

(** What a handler returns: its status code, its properties, and as a value. *)
Record HandlerResponse (T : Type) := mkHandlerResponse {
  hr_statusCode : Z;
  hr_property : string -> Value T;
  hr_self : Value T
}.
Arguments mkHandlerResponse {T}.
Arguments hr_statusCode {T}.
Arguments hr_property {T}.
Arguments hr_self {T}.

Fixpoint set_field {A} (field : text) (value : A) (headers : list (text * A)) : list (text * A) :=
  match headers with
  | [] => [(field, value)]
  | (k, v) :: headers => if k === field then (field, value) :: headers else (k, v) :: set_field field value headers
  end.

(** What a header is set to: other values are left out. *)
Definition header_of {T} (value : Value T) : option (Value T) :=
  match value with
  | JNumber x => Some (JText (JsValues.number_text x))
  | JBoolean b => Some (JText (js (if b then "true" else "false")))
  | JText _ | JArray _ => Some value
  | _ => None
  end.

(** The names and the values that Node sends; an array is the texts in it. *)
Definition header_token : text := js "!#$%&'*+-.^_`|~0123456789abcdefghijklmnopqrstuvwxyzABCDEFGHIJKLMNOPQRSTUVWXYZ".
Definition valid_field (field : text) : bool :=
  negb (field === []) && forallb (fun u => bool_decide (u ∈ header_token)) field.
Definition header_unit (u : Z) : bool := (u =? 9) || (32 <=? u) && (u <=? 126) || (128 <=? u) && (u <=? 255).
Fixpoint valid_content {T} (value : Value T) : bool :=
  match value with
  | JText t => forallb header_unit t
  | JArray l => forallb valid_content l
  | _ => true
  end.

(** [setHeader] of Node's responses. *)
Definition node_setHeader {T} (field : text) (v : Value T) (res : IResponse T) : outcome (IResponse T) :=
  throw_when (negb (valid_field field)) (js "Header name must be a valid HTTP token");;
  throw_when (negb (valid_content v)) (js "Invalid character in header content");;
  Ok (mkIResponse res.(rs_statusCode) (set_field (lower field) v res.(rs_headers)) res.(rs_body)).

Definition setHeader {T} (field : text) (value : Value T) (res : IResponse T) : outcome (IResponse T) :=
  match header_of value with
  | Some v => node_setHeader field v res
  | None => Ok res
  end.

Definition setContentType {T} (value : text) (res : IResponse T) : outcome (IResponse T) :=
  node_setHeader (js "content-type") (JText value) res.

(** What is written to the stream, or piped to it. *)
Definition write_body {T} (v : Value T) (res : IResponse T) : IResponse T :=
  mkIResponse res.(rs_statusCode) res.(rs_headers) (res.(rs_body) ++ [v]).

Section Responses.
(** [stringifyXML] gets the name of the root, if it has one. *)
Context {T : Type} (serializer headerSerializer : Serializer T).
Context (stringifyXML : Value T -> option text -> outcome text) (JSON_stringify : Value T -> outcome text).
Context (Mappers : string -> option CompositeMapper).
Implicit Types (res : IResponse T) (handlerResponse : HandlerResponse T) (spec : OperationSpec).

(** The headers of a collection are the prefix with the names of the dictionary. *)
Fixpoint set_collection (prefix : text) (dictionary : list (text * Value T)) res : outcome (IResponse T) :=
  match dictionary with
  | [] => Ok res
  | (name, value) :: dictionary =>
      res ← (match prefix ++ name with [] => Ok res | name => setHeader name value res end);
      set_collection prefix dictionary res
  end.

(** A header, or the headers of a collection; a dictionary is serialized as an object. *)
Definition serialize_header handlerResponse (property : string * Mapper) res : outcome (IResponse T) :=
  let headerValueOriginal := handlerResponse.(hr_property) property.1 in
  headerValueSerialized ← headerSerializer.(serialize_) property.2 headerValueOriginal None;
  match property.2.(headerCollectionPrefix), headerValueOriginal with
  | None, _ | _, JUndefined =>
      if property.2.(serializedName) === ""%string then Ok res
      else setHeader (js property.2.(serializedName)) headerValueSerialized res
  | Some prefix, _ =>
      match headerValueSerialized with
      | JObject dictionary =>
          throw_when (existsb (fun p => p.1 === js "hasOwnProperty") dictionary) (js "hasOwnProperty is not a function");;
          set_collection (js prefix) dictionary res
      | _ => Ok res
      end
  end.

Fixpoint serialize_headers handlerResponse (properties : list (string * Mapper)) res : outcome (IResponse T) :=
  match properties with
  | [] => Ok res
  | property :: properties =>
      res ← serialize_header handlerResponse property res;
      serialize_headers handlerResponse properties res
  end.

(** A sequence gets an element around it. *)
Definition wrapped (m : Mapper) (body : Value T) : Value T :=
  match m.(type_), m.(xmlElementName) with
  | TSequence _, Some sequenceElementName => JObject [(js sequenceElementName, body)]
  | _, _ => body
  end.

Definition nonempty_text (s : string) : option text := match s with EmptyString => None | s => Some (js s) end.
Definition rootName (m : Mapper) : option text :=
  match m.(xmlName) ≫= nonempty_text with Some n => Some n | None => nonempty_text m.(serializedName) end.

Definition serialize_body spec handlerResponse (m : Mapper) res : outcome (IResponse T) :=
  if is_stream m.(type_) then
    let body := handlerResponse.(hr_property) "body"%string in
    Ok (if truthy body then write_body body res else res)
  else
    body ← serializer.(serialize_) m handlerResponse.(hr_self) None;
    if spec.(isXML) then
      xmlBody ← stringifyXML (wrapped m body) (rootName m);
      res ← setContentType (js "application/xml") res;
      Ok (write_body (JText xmlBody) res)
    else
      res ← (if truthy (get_property (js "content-type") res.(rs_headers)) then Ok res
             else setContentType (js "application/json") res);
      jsonBody ← JSON_stringify (wrapped m body);
      Ok (write_body (JText jsonBody) res).

Definition response_of spec (statusCode : Z) : option ResponseSpec :=
  snd <$> List.find (fun r => js r.1 === js (pretty statusCode)) spec.(responses).

Definition serialize spec handlerResponse res : outcome (IResponse T) :=
  let statusCode := handlerResponse.(hr_statusCode) in
  let res := mkIResponse statusCode res.(rs_headers) res.(rs_body) in
  match response_of spec statusCode with
  | None => Throw (js "Request specification doesn't include provided response status code")
  | Some responseSpec =>
      res ← (match responseSpec.(headersMapper) ≫= Mappers with
             | Some headersMapper => serialize_headers handlerResponse headersMapper.(modelProperties) res
             | None => Ok res
             end);
      match responseSpec.(bodyMapper) with
      | Some m => serialize_body spec handlerResponse m res
      | None => Ok res
      end
  end.
End Responses.

(** ** From a request to a handler

    The middlewares of a service, but for those that are not generated (context,
    authentication): the request has no operation, or its parameters cannot be read, or
    a method is called. *)

Inductive Arrived (T : Type) :=
| UnsupportedRequest
| DeserializationError (message : text)
| NoHandler
| Called (path : IHandlerPath) (args : list (Value T)).
Arguments UnsupportedRequest {T}.
Arguments DeserializationError {T}.
Arguments NoHandler {T}.
Arguments Called {T}.

Section Middlewares.
Context (fromUri : text -> text -> option (list (text * text))).
Context {O T : Type} (serializer : Serializer T).
Context (Specifications : O -> option OperationSpec) (Operation : list O) (getHandlerByOperation : O -> option IHandlerPath).

Definition handle (rq : IRequest) (pattern : option text) (stream : T) (body : outcome text) : Arrived T :=
  match dispatchMiddleware fromUri Specifications rq pattern Operation with
  | None => UnsupportedRequest
  | Some operation =>
      match Specifications operation with
      | None => DeserializationError (js "Cannot read properties of undefined")
      | Some spec =>
          match deserialize serializer rq spec stream body with
          | Throw message => DeserializationError message
          | Ok parameters =>
              match getHandlerByOperation operation with
              | None => NoHandler
              | Some handlerPath => Called handlerPath (handler_arguments handlerPath parameters)
              end
          end
      end
  end.
End Middlewares.
