(* ===== verification/BlobSAS.v ===== *)
(** * BlobSAS: shared access signatures of the blob service

    The permissions operations need, src/src/blob/authentication/OperationBlobSASPermission.ts
    and OperationAccountSASPermission.ts, and the strings that are signed,
    IBlobSASSignatureValues.ts and src/src/common/authentication/IAccountSASSignatureValues.ts.
    The values come from the query of a request, so that they are texts; [hmac] is
    the base64 of the HMAC-SHA256 of a text under a key ([computeHMACSHA256]). *)

From S2P Require Import Prelude Errors Extents Utf8 Texts.
From S2P Require BlobServiceHandlers.
Open Scope Z_scope.
Open Scope azurite_scope.

(** ** The operations: src/src/blob/generated/artifacts/operation.ts *)

Module Op.
Inductive operation :=
| Service_SetProperties | Service_GetProperties | Service_GetStatistics
| Service_ListContainersSegment | Service_GetUserDelegationKey | Service_GetAccountInfo
| Service_GetAccountInfoWithHead | Service_SubmitBatch | Service_FilterBlobs | Container_Create
| Container_GetProperties | Container_GetPropertiesWithHead | Container_Delete
| Container_SetMetadata | Container_GetAccessPolicy | Container_SetAccessPolicy | Container_Restore
| Container_SubmitBatch | Container_FilterBlobs | Container_AcquireLease | Container_ReleaseLease
| Container_RenewLease | Container_BreakLease | Container_ChangeLease
| Container_ListBlobFlatSegment | Container_ListBlobHierarchySegment | Container_GetAccountInfo
| Container_GetAccountInfoWithHead | Blob_Download | Blob_GetProperties | Blob_Delete
| Blob_Undelete | Blob_SetExpiry | Blob_SetHTTPHeaders | Blob_SetImmutabilityPolicy
| Blob_DeleteImmutabilityPolicy | Blob_SetLegalHold | Blob_SetMetadata | Blob_AcquireLease
| Blob_ReleaseLease | Blob_RenewLease | Blob_ChangeLease | Blob_BreakLease | Blob_CreateSnapshot
| Blob_StartCopyFromURL | Blob_CopyFromURL | Blob_AbortCopyFromURL | Blob_SetTier
| Blob_GetAccountInfo | Blob_GetAccountInfoWithHead | Blob_Query | Blob_GetTags | Blob_SetTags
| PageBlob_Create | PageBlob_UploadPages | PageBlob_ClearPages | PageBlob_UploadPagesFromURL
| PageBlob_GetPageRanges | PageBlob_GetPageRangesDiff | PageBlob_Resize
| PageBlob_UpdateSequenceNumber | PageBlob_CopyIncremental | AppendBlob_Create
| AppendBlob_AppendBlock | AppendBlob_AppendBlockFromUrl | AppendBlob_Seal | BlockBlob_Upload
| BlockBlob_PutBlobFromUrl | BlockBlob_StageBlock | BlockBlob_StageBlockFromURL
| BlockBlob_CommitBlockList | BlockBlob_GetBlockList.
End Op.

#[export] Instance operation_eq_dec : EqDecision Op.operation.
Proof. solve_decision. Defined.

(** ** Permissions *)

(** The letters of [BlobSASPermission], [ContainerSASPermission] and
    [AccountSASPermission]. *)
Definition Read : text := js "r".
Definition Add : text := js "a".
Definition Create : text := js "c".
Definition Write : text := js "w".
Definition Delete : text := js "d".
Definition Tag : text := js "t".
Definition List : text := js "l".
Definition Filter : text := js "f".
Definition Process : text := js "p".
Definition Update : text := js "u".
Definition Any : text := js "AnyPermission".

(** Those of [AccountSASService] and [AccountSASResourceType]. *)
Definition SBlob : text := js "b".
Definition RService : text := js "s".
Definition RContainer : text := js "c".
Definition RObject : text := js "o".
Definition RAny : text := js "AnyResourceType".

(** [for (const p of needed) if (given.includes(p)) return true]. *)
Definition one_of (needed given : text) : bool := existsb (fun p => bool_decide (p ∈ given)) needed.

Definition any_or_one_of (any needed given : text) : bool :=
  if needed === any then given !== [] else one_of needed given.

(** [permissions.toString()] of [undefined] throws. *)
Definition validatePermissions (permission : text) (permissions : option text) : res bool :=
  match permissions with
  | Some p => Ok (any_or_one_of Any permission p)
  | None => if permission === [] then Ok false else Throw TypeError
  end.

Record OperationAccountSASPermission := mkAccountPermission {
  service : text;
  resourceType : text;
  permission : text
}.

Definition validateServices (p : OperationAccountSASPermission) (services : text) : bool :=
  defined (index_of p.(service) services).
Definition validateResourceTypes (p : OperationAccountSASPermission) (resourceTypes : text) : bool :=
  any_or_one_of RAny p.(resourceType) resourceTypes.
Definition validateAccountPermissions (p : OperationAccountSASPermission) (permissions : text) : bool :=
  any_or_one_of Any p.(permission) permissions.

(** The tables. *)


Definition OPERATION_BLOB_SAS_BLOB_PERMISSIONS (o : Op.operation) : option text :=
  match o with
  | Op.Service_SetProperties | Op.Service_GetProperties | Op.Service_GetStatistics
    | Op.Service_ListContainersSegment | Op.Service_GetAccountInfo | Op.Service_GetAccountInfoWithHead
    | Op.Container_Create | Op.Container_GetProperties | Op.Container_GetPropertiesWithHead
    | Op.Container_Delete | Op.Container_SetMetadata | Op.Container_GetAccessPolicy
    | Op.Container_SetAccessPolicy | Op.Container_AcquireLease | Op.Container_ReleaseLease
    | Op.Container_RenewLease | Op.Container_BreakLease | Op.Container_ChangeLease
    | Op.Container_ListBlobFlatSegment | Op.Container_ListBlobHierarchySegment => Some []
  | Op.Container_GetAccountInfo | Op.Container_GetAccountInfoWithHead | Op.Blob_Download
    | Op.Blob_GetProperties | Op.Blob_GetAccountInfo | Op.Blob_GetAccountInfoWithHead
    | Op.PageBlob_GetPageRanges | Op.PageBlob_GetPageRangesDiff | Op.BlockBlob_GetBlockList => Some Read
  | Op.Blob_Delete => Some Delete
  | Op.Blob_Undelete | Op.Blob_SetHTTPHeaders | Op.Blob_SetMetadata | Op.Blob_AcquireLease
    | Op.Blob_ReleaseLease | Op.Blob_RenewLease | Op.Blob_ChangeLease | Op.Blob_AbortCopyFromURL
    | Op.Blob_SetTier | Op.PageBlob_UploadPages | Op.PageBlob_ClearPages | Op.PageBlob_Resize
    | Op.PageBlob_UpdateSequenceNumber | Op.BlockBlob_StageBlock | Op.BlockBlob_StageBlockFromURL
    | Op.BlockBlob_CommitBlockList => Some Write
  | Op.Blob_BreakLease => Some (Delete ++ Write)
  | Op.Blob_CreateSnapshot | Op.PageBlob_Create => Some (Create ++ Write)
  | Op.Blob_StartCopyFromURL | Op.Blob_CopyFromURL | Op.PageBlob_CopyIncremental | Op.AppendBlob_Create
    | Op.BlockBlob_Upload => Some (Write ++ Create)
  | Op.Blob_GetTags | Op.Blob_SetTags => Some Tag
  | Op.AppendBlob_AppendBlock => Some (Add ++ Write)
  | Op.Service_GetUserDelegationKey | Op.Service_SubmitBatch | Op.Service_FilterBlobs | Op.Container_Restore
    | Op.Container_SubmitBatch | Op.Container_FilterBlobs | Op.Blob_SetExpiry
    | Op.Blob_SetImmutabilityPolicy | Op.Blob_DeleteImmutabilityPolicy | Op.Blob_SetLegalHold
    | Op.Blob_Query | Op.PageBlob_UploadPagesFromURL | Op.AppendBlob_AppendBlockFromUrl | Op.AppendBlob_Seal
    | Op.BlockBlob_PutBlobFromUrl => None
  end.

Definition OPERATION_BLOB_SAS_CONTAINER_PERMISSIONS (o : Op.operation) : option text :=
  match o with
  | Op.Service_SetProperties | Op.Service_GetProperties | Op.Service_GetStatistics
    | Op.Service_ListContainersSegment | Op.Service_GetAccountInfo | Op.Service_GetAccountInfoWithHead
    | Op.Container_Create | Op.Container_GetProperties | Op.Container_GetPropertiesWithHead
    | Op.Container_Delete | Op.Container_SetMetadata | Op.Container_GetAccessPolicy
    | Op.Container_SetAccessPolicy | Op.Container_AcquireLease | Op.Container_ReleaseLease
    | Op.Container_RenewLease | Op.Container_BreakLease | Op.Container_ChangeLease => Some []
  | Op.Container_SubmitBatch => Some Any
  | Op.Container_FilterBlobs => Some Filter
  | Op.Container_ListBlobFlatSegment | Op.Container_ListBlobHierarchySegment => Some List
  | Op.Container_GetAccountInfo | Op.Container_GetAccountInfoWithHead | Op.Blob_Download
    | Op.Blob_GetProperties | Op.Blob_GetAccountInfo | Op.Blob_GetAccountInfoWithHead
    | Op.PageBlob_GetPageRanges | Op.PageBlob_GetPageRangesDiff | Op.BlockBlob_GetBlockList => Some Read
  | Op.Blob_Delete => Some Delete
  | Op.Blob_Undelete | Op.Blob_SetHTTPHeaders | Op.Blob_SetMetadata | Op.Blob_AcquireLease
    | Op.Blob_ReleaseLease | Op.Blob_RenewLease | Op.Blob_ChangeLease | Op.Blob_AbortCopyFromURL
    | Op.Blob_SetTier | Op.PageBlob_UploadPages | Op.PageBlob_ClearPages | Op.PageBlob_Resize
    | Op.PageBlob_UpdateSequenceNumber | Op.BlockBlob_StageBlock | Op.BlockBlob_StageBlockFromURL
    | Op.BlockBlob_CommitBlockList => Some Write
  | Op.Blob_BreakLease => Some (Write ++ Delete)
  | Op.Blob_CreateSnapshot | Op.Blob_StartCopyFromURL | Op.Blob_CopyFromURL | Op.PageBlob_Create
    | Op.PageBlob_CopyIncremental | Op.AppendBlob_Create | Op.BlockBlob_Upload => Some (Write ++ Create)
  | Op.Blob_GetTags | Op.Blob_SetTags => Some Tag
  | Op.AppendBlob_AppendBlock => Some (Add ++ Write)
  | Op.Service_GetUserDelegationKey | Op.Service_SubmitBatch | Op.Service_FilterBlobs | Op.Container_Restore
    | Op.Blob_SetExpiry | Op.Blob_SetImmutabilityPolicy | Op.Blob_DeleteImmutabilityPolicy
    | Op.Blob_SetLegalHold | Op.Blob_Query | Op.PageBlob_UploadPagesFromURL
    | Op.AppendBlob_AppendBlockFromUrl | Op.AppendBlob_Seal | Op.BlockBlob_PutBlobFromUrl => None
  end.

Definition OPERATION_ACCOUNT_SAS_PERMISSIONS (o : Op.operation) : option OperationAccountSASPermission :=
  match o with
  | Op.Service_SetProperties => Some (mkAccountPermission SBlob RService Write)
  | Op.Service_GetProperties | Op.Service_GetStatistics => Some (mkAccountPermission SBlob RService Read)
  | Op.Service_ListContainersSegment => Some (mkAccountPermission SBlob RService List)
  | Op.Service_GetAccountInfo | Op.Service_GetAccountInfoWithHead | Op.Container_GetAccountInfo
    | Op.Container_GetAccountInfoWithHead | Op.Blob_GetAccountInfo | Op.Blob_GetAccountInfoWithHead => Some (mkAccountPermission SBlob (RService ++ RContainer ++ RObject) 
               (Read ++ Create ++ Delete ++ List ++ Process ++ Read ++ Update ++ Write))
  | Op.Service_SubmitBatch => Some (mkAccountPermission SBlob RAny Any)
  | Op.Service_FilterBlobs => Some (mkAccountPermission SBlob RObject Filter)
  | Op.Container_Create => Some (mkAccountPermission SBlob RContainer (Create ++ Write))
  | Op.Container_GetProperties | Op.Container_GetPropertiesWithHead => Some (mkAccountPermission SBlob RContainer Read)
  | Op.Container_Delete => Some (mkAccountPermission SBlob RContainer Delete)
  | Op.Container_SetMetadata | Op.Container_AcquireLease | Op.Container_ReleaseLease
    | Op.Container_RenewLease | Op.Container_ChangeLease => Some (mkAccountPermission SBlob RContainer Write)
  | Op.Container_GetAccessPolicy | Op.Container_SetAccessPolicy => Some (mkAccountPermission SBlob RContainer [])
  | Op.Container_FilterBlobs => Some (mkAccountPermission SBlob RContainer Filter)
  | Op.Container_BreakLease => Some (mkAccountPermission SBlob RContainer (Write ++ Delete))
  | Op.Container_ListBlobFlatSegment | Op.Container_ListBlobHierarchySegment => Some (mkAccountPermission SBlob RContainer List)
  | Op.Blob_Download | Op.Blob_GetProperties | Op.PageBlob_GetPageRanges | Op.PageBlob_GetPageRangesDiff
    | Op.BlockBlob_GetBlockList => Some (mkAccountPermission SBlob RObject Read)
  | Op.Blob_Delete => Some (mkAccountPermission SBlob RObject Delete)
  | Op.Blob_SetHTTPHeaders | Op.Blob_SetMetadata | Op.Blob_AcquireLease | Op.Blob_ReleaseLease
    | Op.Blob_RenewLease | Op.Blob_ChangeLease | Op.Blob_AbortCopyFromURL | Op.Blob_SetTier
    | Op.PageBlob_UploadPages | Op.PageBlob_ClearPages | Op.PageBlob_UpdateSequenceNumber
    | Op.BlockBlob_StageBlock | Op.BlockBlob_CommitBlockList => Some (mkAccountPermission SBlob RObject Write)
  | Op.Blob_BreakLease => Some (mkAccountPermission SBlob RObject (Delete ++ Write))
  | Op.Blob_CreateSnapshot | Op.Blob_StartCopyFromURL | Op.Blob_CopyFromURL | Op.PageBlob_Create
    | Op.PageBlob_CopyIncremental | Op.AppendBlob_Create | Op.BlockBlob_Upload => Some (mkAccountPermission SBlob RObject (Write ++ Create))
  | Op.Blob_GetTags | Op.Blob_SetTags => Some (mkAccountPermission SBlob RObject Tag)
  | Op.AppendBlob_AppendBlock => Some (mkAccountPermission SBlob RObject (Add ++ Write))
  | Op.Service_GetUserDelegationKey | Op.Container_Restore | Op.Container_SubmitBatch | Op.Blob_Undelete
    | Op.Blob_SetExpiry | Op.Blob_SetImmutabilityPolicy | Op.Blob_DeleteImmutabilityPolicy
    | Op.Blob_SetLegalHold | Op.Blob_Query | Op.PageBlob_UploadPagesFromURL | Op.PageBlob_Resize
    | Op.AppendBlob_AppendBlockFromUrl | Op.AppendBlob_Seal | Op.BlockBlob_PutBlobFromUrl
    | Op.BlockBlob_StageBlockFromURL => None
  end.

(** ** The strings that are signed *)

(** [values.join("\n")]. *)
Fixpoint join_lines (l : list text) : text :=
  match l with
  | [] => []
  | [x] => x
  | x :: l => x ++ [10] ++ join_lines l
  end.

(** [x ? x : ""], and [undefined] in [join]. *)
Definition or_empty (x : option text) : text := default [] x.

(** [version >= v] on strings. *)
Definition since (v version : text) : bool := negb (text_ltb version v).

Record IAccountSASSignatureValues := mkAccountValues {
  as_version : text;
  as_protocol : option text;
  as_startTime : option text;
  as_expiryTime : text;
  as_permissions : text;
  as_ipRange : option text;
  as_services : text;
  as_resourceTypes : text;
  as_encryptionScope : option text
}.

Definition generateAccountSASSignature20201206 (v : IAccountSASSignatureValues) (accountName : text) : text :=
  join_lines [accountName; v.(as_permissions); v.(as_services); v.(as_resourceTypes); or_empty v.(as_startTime);
    v.(as_expiryTime); or_empty v.(as_ipRange); or_empty v.(as_protocol); v.(as_version);
    or_empty v.(as_encryptionScope); []].

Definition generateAccountSASSignature20150405 (v : IAccountSASSignatureValues) (accountName : text) : text :=
  join_lines [accountName; v.(as_permissions); v.(as_services); v.(as_resourceTypes); or_empty v.(as_startTime);
    v.(as_expiryTime); or_empty v.(as_ipRange); or_empty v.(as_protocol); v.(as_version); []].

(** The string of the values, which is what is signed. *)
Definition account_string (v : IAccountSASSignatureValues) (accountName : text) : text :=
  if since (js "2020-12-06") v.(as_version) then generateAccountSASSignature20201206 v accountName
  else generateAccountSASSignature20150405 v accountName.

Record IBlobSASSignatureValues := mkBlobValues {
  bs_version : text;
  bs_protocol : option text;
  bs_startTime : option text;
  bs_expiryTime : option text;
  bs_permissions : option text;
  bs_ipRange : option text;
  bs_containerName : text;
  bs_blobName : option text;
  bs_identifier : option text;
  bs_encryptionScope : option text;
  bs_cacheControl : option text;
  bs_contentDisposition : option text;
  bs_contentEncoding : option text;
  bs_contentLanguage : option text;
  bs_contentType : option text;
  bs_signedResource : option text;
  bs_snapshot : option text;
  bs_signedObjectId : option text;
  bs_signedTenantId : option text;
  bs_signedService : option text;
  bs_signedVersion : option text;
  bs_signedStartsOn : option text;
  bs_signedExpiresOn : option text
}.

Inductive BlobSASResourceType := RTContainer | RTBlob | RTBlobSnapshot.

Definition resource_text (r : BlobSASResourceType) : text :=
  match r with RTContainer => js "c" | RTBlob => js "b" | RTBlobSnapshot => js "bs" end.

(** [/blob/account/container], followed by [/blob] if there is a name. *)
Definition getCanonicalName (accountName containerName : text) (blobName : option text) : text :=
  js "/blob/" ++ accountName ++ js "/" ++ containerName
  ++ match blobName with Some (u :: n) => js "/" ++ u :: n | _ => [] end.

(** The name of the blob, if the resource is one of those. *)
Definition signed_blob (named : BlobSASResourceType -> bool) (resource : BlobSASResourceType)
    (v : IBlobSASSignatureValues) : option text :=
  if named resource then v.(bs_blobName) else Some [].

Definition is_blob_resource (r : BlobSASResourceType) : bool := match r with RTBlob => true | _ => false end.
Definition is_blob_or_snapshot (r : BlobSASResourceType) : bool := match r with RTContainer => false | _ => true end.

(** [a && b] of strings as a condition. *)
Definition is_truthy (t : option text) : bool := match t with Some (_ :: _) => true | _ => false end.

(** The check all of the strings begin with. *)
Definition checked (v : IBlobSASSignatureValues) (s : text) : res text :=
  throw_when (negb (is_truthy v.(bs_identifier)) && (negb (is_truthy v.(bs_permissions)) && negb (is_truthy v.(bs_expiryTime))))
    RangeError;; Ok s.

(** What the strings begin with: permissions, times and the resource. *)
Definition signed_head (named : BlobSASResourceType -> bool) (v : IBlobSASSignatureValues)
    (resource : BlobSASResourceType) (accountName : text) : list text :=
  [or_empty v.(bs_permissions); or_empty v.(bs_startTime); or_empty v.(bs_expiryTime);
   getCanonicalName accountName v.(bs_containerName) (signed_blob named resource v)].

(** What they end with: the headers of the response. *)
Definition signed_headers (v : IBlobSASSignatureValues) : list text :=
  [or_empty v.(bs_cacheControl); or_empty v.(bs_contentDisposition); or_empty v.(bs_contentEncoding);
   or_empty v.(bs_contentLanguage); or_empty v.(bs_contentType)].

Definition generateBlobSASSignature20201206 (v : IBlobSASSignatureValues) (resource : BlobSASResourceType)
    (accountName : text) : list text :=
  signed_head is_blob_or_snapshot v resource accountName ++
  [or_empty v.(bs_identifier); or_empty v.(bs_ipRange); or_empty v.(bs_protocol); v.(bs_version);
   or_empty v.(bs_signedResource); or_empty v.(bs_snapshot); or_empty v.(bs_encryptionScope)] ++ signed_headers v.

Definition generateBlobSASSignature20181109 (v : IBlobSASSignatureValues) (resource : BlobSASResourceType)
    (accountName : text) : list text :=
  signed_head is_blob_or_snapshot v resource accountName ++
  [or_empty v.(bs_identifier); or_empty v.(bs_ipRange); or_empty v.(bs_protocol); v.(bs_version);
   or_empty v.(bs_signedResource); or_empty v.(bs_snapshot)] ++ signed_headers v.

Definition generateBlobSASSignature20150405 (v : IBlobSASSignatureValues) (resource : BlobSASResourceType)
    (accountName : text) : list text :=
  signed_head is_blob_resource v resource accountName ++
  [or_empty v.(bs_identifier); or_empty v.(bs_ipRange); or_empty v.(bs_protocol); v.(bs_version)] ++ signed_headers v.

(** The fields of the string that is signed with a key of the account. *)
Definition blob_fields (v : IBlobSASSignatureValues) (resource : BlobSASResourceType) (accountName : text) : list text :=
  if since (js "2020-12-06") v.(bs_version) then generateBlobSASSignature20201206 v resource accountName
  else if since (js "2018-11-09") v.(bs_version) then generateBlobSASSignature20181109 v resource accountName
  else generateBlobSASSignature20150405 v resource accountName.

Definition blob_string (v : IBlobSASSignatureValues) (resource : BlobSASResourceType) (accountName : text) : res text :=
  checked v (join_lines (blob_fields v resource accountName)).

(** The fields a user delegation key signs. *)
Definition signed_key (v : IBlobSASSignatureValues) : list text :=
  [or_empty v.(bs_signedObjectId); or_empty v.(bs_signedTenantId); or_empty v.(bs_signedStartsOn);
   or_empty v.(bs_signedExpiresOn); or_empty v.(bs_signedService); or_empty v.(bs_signedVersion)].

Definition every_resource (_ : BlobSASResourceType) : bool := true.

Definition generateBlobSASSignatureUDK20181109 (v : IBlobSASSignatureValues) (resource : BlobSASResourceType)
    (accountName : text) : list text :=
  signed_head every_resource v resource accountName ++ signed_key v ++
  [or_empty v.(bs_ipRange); or_empty v.(bs_protocol); v.(bs_version); resource_text resource; []] ++ signed_headers v.

Definition generateBlobSASSignatureWithUDK20200210 (v : IBlobSASSignatureValues) (resource : BlobSASResourceType)
    (accountName : text) : list text :=
  signed_head every_resource v resource accountName ++ signed_key v ++
  [[]; []; []; or_empty v.(bs_ipRange); or_empty v.(bs_protocol); v.(bs_version); resource_text resource; []]
  ++ signed_headers v.

Definition generateBlobSASBlobSASSignatureWithUDK20201206 (v : IBlobSASSignatureValues)
    (resource : BlobSASResourceType) (accountName : text) : list text :=
  signed_head is_blob_resource v resource accountName ++ signed_key v ++
  [[]; []; []; or_empty v.(bs_ipRange); or_empty v.(bs_protocol); v.(bs_version); resource_text resource; [];
   or_empty v.(bs_encryptionScope)] ++ signed_headers v.

(** The fields of delegated users are not read from requests. *)
Definition generateBlobSASBlobSASSignatureWithUDK20250705 (v : IBlobSASSignatureValues)
    (resource : BlobSASResourceType) (accountName : text) : list text :=
  signed_head is_blob_resource v resource accountName ++ signed_key v ++
  [[]; []; []; []; []; or_empty v.(bs_ipRange); or_empty v.(bs_protocol); v.(bs_version); resource_text resource; [];
   or_empty v.(bs_encryptionScope)] ++ signed_headers v.

Definition udk_string (v : IBlobSASSignatureValues) (resource : BlobSASResourceType) (accountName : text) : res text :=
  if since (js "2025-07-05") v.(bs_version)
  then checked v (join_lines (generateBlobSASBlobSASSignatureWithUDK20250705 v resource accountName))
  else if since (js "2020-12-06") v.(bs_version)
  then checked v (join_lines (generateBlobSASBlobSASSignatureWithUDK20201206 v resource accountName))
  else if since (js "2020-02-10") v.(bs_version)
  then checked v (join_lines (generateBlobSASSignatureWithUDK20200210 v resource accountName))
  else if since (js "2018-11-09") v.(bs_version)
  then checked v (join_lines (generateBlobSASSignatureUDK20181109 v resource accountName))
  else Throw RangeError.

Section Sign.
Context (hmac : text -> bytes -> text).

Definition generateAccountSASSignature (v : IAccountSASSignatureValues) (accountName : text) (sharedKey : bytes) : text :=
  hmac (account_string v accountName) sharedKey.

Definition generateBlobSASSignature (v : IBlobSASSignatureValues) (resource : BlobSASResourceType)
    (accountName : text) (sharedKey : bytes) : res text :=
  s ← blob_string v resource accountName; Ok (hmac s sharedKey).

Definition generateBlobSASSignatureWithUDK (v : IBlobSASSignatureValues) (resource : BlobSASResourceType)
    (accountName : text) (udkValue : bytes) : res text :=
  s ← udk_string v resource accountName; Ok (hmac s udkValue).
End Sign.

(** A signature for a container does not depend on the blob of the request; one with a
    user delegation key of the version of 2018 does. *)
Example container_signatures :
  let v n := mkBlobValues (js "2018-11-09") None None (Some (js "2030")) (Some (js "r")) None (js "c") (Some (js n))
               None None None None None None None (Some (js "c")) None (Some (js "o")) (Some (js "t")) (Some (js "b"))
               (Some (js "2018-11-09")) (Some (js "2020")) (Some (js "2030")) in
  blob_string (v "x") RTContainer (js "a") = blob_string (v "y") RTContainer (js "a") /\
  udk_string (v "x") RTContainer (js "a") <> udk_string (v "y") RTContainer (js "a").
Proof. split; [reflexivity|]. by vm_compute. Qed.

