(* ===== verification/BlobSpecifications.v ===== *)
(** * BlobSpecifications: the requests of the blob service

    src/src/blob/generated/artifacts: the parameters and the specification of each
    operation, what requests for it have and what its responses may be. Mappers of
    models are named by their class. *)

From S2P Require Import Prelude Protocol.
From S2P Require Import BlobSAS.
Open Scope string_scope.

(** ** src/src/blob/generated/artifacts/parameters.ts *)

Module BlobParameters.
Definition access : OperationParameter := mkParameter ["options"; "access"] (simple false
  "x-ms-blob-public-access" TString) None.
Definition action0 : OperationParameter := mkParameter ["action"] (mkMapper true true "x-ms-lease-action" (Some
  (CString "acquire")) TString None [] None None false false) None.
Definition action1 : OperationParameter := mkParameter ["action"] (mkMapper true true "x-ms-lease-action" (Some
  (CString "release")) TString None [] None None false false) None.
Definition action2 : OperationParameter := mkParameter ["action"] (mkMapper true true "x-ms-lease-action" (Some
  (CString "renew")) TString None [] None None false false) None.
Definition action3 : OperationParameter := mkParameter ["action"] (mkMapper true true "x-ms-lease-action" (Some
  (CString "break")) TString None [] None None false false) None.
Definition action4 : OperationParameter := mkParameter ["action"] (mkMapper true true "x-ms-lease-action" (Some
  (CString "change")) TString None [] None None false false) None.
Definition appendPosition : OperationParameter := mkParameter ["options"; "appendPositionAccessConditions";
  "appendPosition"] (simple false "x-ms-blob-condition-appendpos" TNumber) None.
Definition blob : OperationParameter := mkParameter ["blob"] (mkMapper true false "blob" None TString None
  [("MaxLength", "1024"); ("MinLength", "1"); ("Pattern",
  "^[a-zA-Z0-9]+(?:\/[a-zA-Z0-9]+)*(?:\.[a-zA-Z0-9]+){0,1}$")] None None false false) None.
Definition blobCacheControl : OperationParameter := mkParameter ["options"; "blobHTTPHeaders";
  "blobCacheControl"] (simple false "x-ms-blob-cache-control" TString) None.
Definition blobContentDisposition : OperationParameter := mkParameter ["options"; "blobHTTPHeaders";
  "blobContentDisposition"] (simple false "x-ms-blob-content-disposition" TString) None.
Definition blobContentEncoding : OperationParameter := mkParameter ["options"; "blobHTTPHeaders";
  "blobContentEncoding"] (simple false "x-ms-blob-content-encoding" TString) None.
Definition blobContentLanguage : OperationParameter := mkParameter ["options"; "blobHTTPHeaders";
  "blobContentLanguage"] (simple false "x-ms-blob-content-language" TString) None.
Definition blobContentLength : OperationParameter := mkParameter ["blobContentLength"] (simple true
  "x-ms-blob-content-length" TNumber) None.
Definition blobContentMD5 : OperationParameter := mkParameter ["options"; "blobHTTPHeaders"; "blobContentMD5"]
  (simple false "x-ms-blob-content-md5" TByteArray) None.
Definition blobContentType : OperationParameter := mkParameter ["options"; "blobHTTPHeaders"; "blobContentType"]
  (simple false "x-ms-blob-content-type" TString) None.
Definition blobDeleteType : OperationParameter := mkParameter ["options"; "blobDeleteType"] (simple false
  "deletetype" (TEnum ["Permanent"])) None.
Definition blobSequenceNumber : OperationParameter := mkParameter ["options"; "blobSequenceNumber"] (mkMapper
  false false "x-ms-blob-sequence-number" (Some (CNumber 0)) TNumber None [] None None false false) None.
Definition blobTagsString : OperationParameter := mkParameter ["options"; "blobTagsString"] (simple false
  "x-ms-tags" TString) None.
Definition blobType0 : OperationParameter := mkParameter ["blobType"] (mkMapper true true "x-ms-blob-type" (Some
  (CString "PageBlob")) TString None [] None None false false) None.
Definition blobType1 : OperationParameter := mkParameter ["blobType"] (mkMapper true true "x-ms-blob-type" (Some
  (CString "AppendBlob")) TString None [] None None false false) None.
Definition blobType2 : OperationParameter := mkParameter ["blobType"] (mkMapper true true "x-ms-blob-type" (Some
  (CString "BlockBlob")) TString None [] None None false false) None.
Definition blockId : OperationParameter := mkParameter ["blockId"] (simple true "blockid" TString) None.
Definition breakPeriod : OperationParameter := mkParameter ["options"; "breakPeriod"] (simple false
  "x-ms-lease-break-period" TNumber) None.
Definition comp0 : OperationParameter := mkParameter ["comp"] (mkMapper true true "comp" (Some (CString
  "properties")) TString None [] None None false false) None.
Definition comp1 : OperationParameter := mkParameter ["comp"] (mkMapper true true "comp" (Some (CString
  "stats")) TString None [] None None false false) None.
Definition comp10 : OperationParameter := mkParameter ["comp"] (mkMapper true true "comp" (Some (CString
  "expiry")) TString None [] None None false false) None.
Definition comp11 : OperationParameter := mkParameter ["comp"] (mkMapper true true "comp" (Some (CString
  "immutabilityPolicies")) TString None [] None None false false) None.
Definition comp12 : OperationParameter := mkParameter ["comp"] (mkMapper true true "comp" (Some (CString
  "legalhold")) TString None [] None None false false) None.
Definition comp13 : OperationParameter := mkParameter ["comp"] (mkMapper true true "comp" (Some (CString
  "snapshot")) TString None [] None None false false) None.
Definition comp14 : OperationParameter := mkParameter ["comp"] (mkMapper true true "comp" (Some (CString
  "copy")) TString None [] None None false false) None.
Definition comp15 : OperationParameter := mkParameter ["comp"] (mkMapper true true "comp" (Some (CString
  "tier")) TString None [] None None false false) None.
Definition comp16 : OperationParameter := mkParameter ["comp"] (mkMapper true true "comp" (Some (CString
  "query")) TString None [] None None false false) None.
Definition comp17 : OperationParameter := mkParameter ["comp"] (mkMapper true true "comp" (Some (CString
  "tags")) TString None [] None None false false) None.
Definition comp18 : OperationParameter := mkParameter ["comp"] (mkMapper true true "comp" (Some (CString
  "page")) TString None [] None None false false) None.
Definition comp19 : OperationParameter := mkParameter ["comp"] (mkMapper true true "comp" (Some (CString
  "pagelist")) TString None [] None None false false) None.
Definition comp2 : OperationParameter := mkParameter ["comp"] (mkMapper true true "comp" (Some (CString "list"))
  TString None [] None None false false) None.
Definition comp20 : OperationParameter := mkParameter ["comp"] (mkMapper true true "comp" (Some (CString
  "incrementalcopy")) TString None [] None None false false) None.
Definition comp21 : OperationParameter := mkParameter ["comp"] (mkMapper true true "comp" (Some (CString
  "appendblock")) TString None [] None None false false) None.
Definition comp22 : OperationParameter := mkParameter ["comp"] (mkMapper true true "comp" (Some (CString
  "seal")) TString None [] None None false false) None.
Definition comp23 : OperationParameter := mkParameter ["comp"] (mkMapper true true "comp" (Some (CString
  "block")) TString None [] None None false false) None.
Definition comp24 : OperationParameter := mkParameter ["comp"] (mkMapper true true "comp" (Some (CString
  "blocklist")) TString None [] None None false false) None.
Definition comp3 : OperationParameter := mkParameter ["comp"] (mkMapper true true "comp" (Some (CString
  "userdelegationkey")) TString None [] None None false false) None.
Definition comp4 : OperationParameter := mkParameter ["comp"] (mkMapper true true "comp" (Some (CString
  "batch")) TString None [] None None false false) None.
Definition comp5 : OperationParameter := mkParameter ["comp"] (mkMapper true true "comp" (Some (CString
  "blobs")) TString None [] None None false false) None.
Definition comp6 : OperationParameter := mkParameter ["comp"] (mkMapper true true "comp" (Some (CString
  "metadata")) TString None [] None None false false) None.
Definition comp7 : OperationParameter := mkParameter ["comp"] (mkMapper true true "comp" (Some (CString "acl"))
  TString None [] None None false false) None.
Definition comp8 : OperationParameter := mkParameter ["comp"] (mkMapper true true "comp" (Some (CString
  "undelete")) TString None [] None None false false) None.
Definition comp9 : OperationParameter := mkParameter ["comp"] (mkMapper true true "comp" (Some (CString
  "lease")) TString None [] None None false false) None.
Definition containerName : OperationParameter := mkParameter ["containerName"] (simple true "containerName"
  TString) None.
Definition contentLength : OperationParameter := mkParameter ["contentLength"] (simple true "Content-Length"
  TNumber) None.
Definition copyActionAbortConstant : OperationParameter := mkParameter ["copyActionAbortConstant"] (mkMapper
  true true "x-ms-copy-action" (Some (CString "abort")) TString None [] None None false false) None.
Definition copyId : OperationParameter := mkParameter ["copyId"] (simple true "copyid" TString) None.
Definition copySource : OperationParameter := mkParameter ["copySource"] (simple true "x-ms-copy-source"
  TString) None.
Definition copySourceAuthorization : OperationParameter := mkParameter ["options"; "copySourceAuthorization"]
  (simple false "x-ms-copy-source-authorization" TString) None.
Definition copySourceBlobProperties : OperationParameter := mkParameter ["options"; "copySourceBlobProperties"]
  (simple false "x-ms-copy-source-blob-properties" TBoolean) None.
Definition copySourceTags : OperationParameter := mkParameter ["options"; "copySourceTags"] (simple false
  "x-ms-copy-source-tag-option" (TEnum ["REPLACE"; "COPY"])) None.
Definition defaultEncryptionScope : OperationParameter := mkParameter ["options"; "containerCpkScopeInfo";
  "defaultEncryptionScope"] (simple false "x-ms-default-encryption-scope" TString) None.
Definition deletedContainerName : OperationParameter := mkParameter ["options"; "deletedContainerName"] (simple
  false "x-ms-deleted-container-name" TString) None.
Definition deletedContainerVersion : OperationParameter := mkParameter ["options"; "deletedContainerVersion"]
  (simple false "x-ms-deleted-container-version" TString) None.
Definition deleteSnapshots : OperationParameter := mkParameter ["options"; "deleteSnapshots"] (simple false
  "x-ms-delete-snapshots" (TEnum ["include"; "only"])) None.
Definition delimiter : OperationParameter := mkParameter ["delimiter"] (simple true "delimiter" TString) None.
Definition duration : OperationParameter := mkParameter ["options"; "duration"] (simple false
  "x-ms-lease-duration" TNumber) None.
Definition encryptionAlgorithm : OperationParameter := mkParameter ["options"; "cpkInfo"; "encryptionAlgorithm"]
  (simple false "x-ms-encryption-algorithm" (TEnum ["AES256"])) None.
Definition encryptionKey : OperationParameter := mkParameter ["options"; "cpkInfo"; "encryptionKey"] (simple
  false "x-ms-encryption-key" TString) None.
Definition encryptionKeySha256 : OperationParameter := mkParameter ["options"; "cpkInfo"; "encryptionKeySha256"]
  (simple false "x-ms-encryption-key-sha256" TString) None.
Definition encryptionScope : OperationParameter := mkParameter ["options"; "cpkScopeInfo"; "encryptionScope"]
  (simple false "x-ms-encryption-scope" TString) None.
Definition expiresOn : OperationParameter := mkParameter ["options"; "expiresOn"] (simple false
  "x-ms-expiry-time" TString) None.
Definition expiryOptions : OperationParameter := mkParameter ["expiryOptions"] (simple true "x-ms-expiry-option"
  TString) None.
Definition ifMatch : OperationParameter := mkParameter ["options"; "modifiedAccessConditions"; "ifMatch"]
  (simple false "If-Match" TString) None.
Definition ifModifiedSince : OperationParameter := mkParameter ["options"; "modifiedAccessConditions";
  "ifModifiedSince"] (simple false "If-Modified-Since" TDateTimeRfc1123) None.
Definition ifNoneMatch : OperationParameter := mkParameter ["options"; "modifiedAccessConditions";
  "ifNoneMatch"] (simple false "If-None-Match" TString) None.
Definition ifSequenceNumberEqualTo : OperationParameter := mkParameter ["options";
  "sequenceNumberAccessConditions"; "ifSequenceNumberEqualTo"] (simple false "x-ms-if-sequence-number-eq"
  TNumber) None.
Definition ifSequenceNumberLessThan : OperationParameter := mkParameter ["options";
  "sequenceNumberAccessConditions"; "ifSequenceNumberLessThan"] (simple false "x-ms-if-sequence-number-lt"
  TNumber) None.
Definition ifSequenceNumberLessThanOrEqualTo : OperationParameter := mkParameter ["options";
  "sequenceNumberAccessConditions"; "ifSequenceNumberLessThanOrEqualTo"] (simple false
  "x-ms-if-sequence-number-le" TNumber) None.
Definition ifTags : OperationParameter := mkParameter ["options"; "modifiedAccessConditions"; "ifTags"] (simple
  false "x-ms-if-tags" TString) None.
Definition ifUnmodifiedSince : OperationParameter := mkParameter ["options"; "modifiedAccessConditions";
  "ifUnmodifiedSince"] (simple false "If-Unmodified-Since" TDateTimeRfc1123) None.
Definition immutabilityPolicyExpiry : OperationParameter := mkParameter ["options"; "immutabilityPolicyExpiry"]
  (simple false "x-ms-immutability-policy-until-date" TDateTimeRfc1123) None.
Definition immutabilityPolicyMode : OperationParameter := mkParameter ["options"; "immutabilityPolicyMode"]
  (simple false "x-ms-immutability-policy-mode" (TEnum ["Mutable"; "Unlocked"; "Locked"])) None.
Definition include0 : OperationParameter := mkParameter ["options"; "include"] (simple false "include"
  (TSequence (TEnum [""; "metadata"; "deleted"; "system"]))) (Some ",").
Definition include1 : OperationParameter := mkParameter ["options"; "include"] (simple false "include"
  (TSequence (TEnum ["none"; "versions"]))) (Some ",").
Definition include2 : OperationParameter := mkParameter ["options"; "include"] (simple false "include"
  (TSequence (TEnum [""; "copy"; "deleted"; "metadata"; "snapshots"; "uncommittedblobs"; "versions"; "tags";
  "immutabilitypolicy"; "legalhold"; "deletedwithversions"; "permissions"]))) (Some ",").
Definition leaseId0 : OperationParameter := mkParameter ["options"; "leaseAccessConditions"; "leaseId"] (simple
  false "x-ms-lease-id" TString) None.
Definition leaseId1 : OperationParameter := mkParameter ["leaseId"] (simple true "x-ms-lease-id" TString) None.
Definition legalHold0 : OperationParameter := mkParameter ["legalHold"] (simple true "x-ms-legal-hold" TBoolean)
  None.
Definition legalHold1 : OperationParameter := mkParameter ["options"; "legalHold"] (simple false
  "x-ms-legal-hold" TBoolean) None.
Definition listType : OperationParameter := mkParameter ["options"; "listType"] (mkMapper false false
  "blocklisttype" (Some (CString "committed")) (TEnum ["committed"; "uncommitted"; "all"]) None [] None None
  false false) None.
Definition marker : OperationParameter := mkParameter ["options"; "marker"] (simple false "marker" TString)
  None.
Definition maxresults : OperationParameter := mkParameter ["options"; "maxresults"] (mkMapper false false
  "maxresults" None TNumber None [("InclusiveMinimum", "1")] None None false false) None.
Definition maxSize : OperationParameter := mkParameter ["options"; "appendPositionAccessConditions"; "maxSize"]
  (simple false "x-ms-blob-condition-maxsize" TNumber) None.
Definition metadata : OperationParameter := mkParameter ["options"; "metadata"] (mkMapper false false
  "x-ms-meta" None (TDictionary TString) (Some "x-ms-meta-") [] None None false false) None.
Definition multipartContentType : OperationParameter := mkParameter ["multipartContentType"] (simple true
  "Content-Type" TString) None.
Definition pageWrite0 : OperationParameter := mkParameter ["pageWrite"] (mkMapper true true "x-ms-page-write"
  (Some (CString "update")) TString None [] None None false false) None.
Definition pageWrite1 : OperationParameter := mkParameter ["pageWrite"] (mkMapper true true "x-ms-page-write"
  (Some (CString "clear")) TString None [] None None false false) None.
Definition prefix : OperationParameter := mkParameter ["options"; "prefix"] (simple false "prefix" TString)
  None.
Definition preventEncryptionScopeOverride : OperationParameter := mkParameter ["options";
  "containerCpkScopeInfo"; "preventEncryptionScopeOverride"] (simple false "x-ms-deny-encryption-scope-override"
  TBoolean) None.
Definition prevsnapshot : OperationParameter := mkParameter ["options"; "prevsnapshot"] (simple false
  "prevsnapshot" TString) None.
Definition prevSnapshotUrl : OperationParameter := mkParameter ["options"; "prevSnapshotUrl"] (simple false
  "x-ms-previous-snapshot-url" TString) None.
Definition proposedLeaseId0 : OperationParameter := mkParameter ["options"; "proposedLeaseId"] (simple false
  "x-ms-proposed-lease-id" TString) None.
Definition proposedLeaseId1 : OperationParameter := mkParameter ["proposedLeaseId"] (simple true
  "x-ms-proposed-lease-id" TString) None.
Definition range0 : OperationParameter := mkParameter ["options"; "range"] (simple false "x-ms-range" TString)
  None.
Definition range1 : OperationParameter := mkParameter ["range"] (simple true "x-ms-range" TString) None.
Definition rangeGetContentCRC64 : OperationParameter := mkParameter ["options"; "rangeGetContentCRC64"] (simple
  false "x-ms-range-get-content-crc64" TBoolean) None.
Definition rangeGetContentMD5 : OperationParameter := mkParameter ["options"; "rangeGetContentMD5"] (simple
  false "x-ms-range-get-content-md5" TBoolean) None.
Definition rehydratePriority : OperationParameter := mkParameter ["options"; "rehydratePriority"] (simple false
  "x-ms-rehydrate-priority" TString) None.
Definition requestId : OperationParameter := mkParameter ["options"; "requestId"] (simple false
  "x-ms-client-request-id" TString) None.
Definition restype0 : OperationParameter := mkParameter ["restype"] (mkMapper true true "restype" (Some (CString
  "service")) TString None [] None None false false) None.
Definition restype1 : OperationParameter := mkParameter ["restype"] (mkMapper true true "restype" (Some (CString
  "account")) TString None [] None None false false) None.
Definition restype2 : OperationParameter := mkParameter ["restype"] (mkMapper true true "restype" (Some (CString
  "container")) TString None [] None None false false) None.
Definition sealBlob : OperationParameter := mkParameter ["options"; "sealBlob"] (simple false "x-ms-seal-blob"
  TBoolean) None.
Definition sequenceNumberAction : OperationParameter := mkParameter ["sequenceNumberAction"] (simple true
  "x-ms-sequence-number-action" (TEnum ["max"; "update"; "increment"])) None.
Definition snapshot : OperationParameter := mkParameter ["options"; "snapshot"] (simple false "snapshot"
  TString) None.
Definition sourceContentcrc64 : OperationParameter := mkParameter ["options"; "sourceContentcrc64"] (simple
  false "x-ms-source-content-crc64" TByteArray) None.
Definition sourceContentMD5 : OperationParameter := mkParameter ["options"; "sourceContentMD5"] (simple false
  "x-ms-source-content-md5" TByteArray) None.
Definition sourceIfMatch : OperationParameter := mkParameter ["options"; "sourceModifiedAccessConditions";
  "sourceIfMatch"] (simple false "x-ms-source-if-match" TString) None.
Definition sourceIfModifiedSince : OperationParameter := mkParameter ["options";
  "sourceModifiedAccessConditions"; "sourceIfModifiedSince"] (simple false "x-ms-source-if-modified-since"
  TDateTimeRfc1123) None.
Definition sourceIfNoneMatch : OperationParameter := mkParameter ["options"; "sourceModifiedAccessConditions";
  "sourceIfNoneMatch"] (simple false "x-ms-source-if-none-match" TString) None.
Definition sourceIfTags : OperationParameter := mkParameter ["options"; "sourceModifiedAccessConditions";
  "sourceIfTags"] (simple false "x-ms-source-if-tags" TString) None.
Definition sourceIfUnmodifiedSince : OperationParameter := mkParameter ["options";
  "sourceModifiedAccessConditions"; "sourceIfUnmodifiedSince"] (simple false "x-ms-source-if-unmodified-since"
  TDateTimeRfc1123) None.
Definition sourceRange0 : OperationParameter := mkParameter ["sourceRange"] (simple true "x-ms-source-range"
  TString) None.
Definition sourceRange1 : OperationParameter := mkParameter ["options"; "sourceRange"] (simple false
  "x-ms-source-range" TString) None.
Definition sourceUrl : OperationParameter := mkParameter ["sourceUrl"] (simple true "x-ms-copy-source" TString)
  None.
Definition tier0 : OperationParameter := mkParameter ["options"; "tier"] (simple false "x-ms-access-tier"
  TString) None.
Definition tier1 : OperationParameter := mkParameter ["tier"] (simple true "x-ms-access-tier" TString) None.
Definition timeout : OperationParameter := mkParameter ["options"; "timeout"] (mkMapper false false "timeout"
  None TNumber None [("InclusiveMinimum", "0")] None None false false) None.
Definition transactionalContentCrc64 : OperationParameter := mkParameter ["options";
  "transactionalContentCrc64"] (simple false "x-ms-content-crc64" TByteArray) None.
Definition transactionalContentMD5 : OperationParameter := mkParameter ["options"; "transactionalContentMD5"]
  (simple false "Content-MD5" TByteArray) None.
Definition url : OperationParameter := mkParameter ["url"] (mkMapper true false "url" (Some (CString ""))
  TString None [] None None false false) None.
Definition version : OperationParameter := mkParameter ["version"] (simple false "x-ms-version" TString) None.
Definition versionId : OperationParameter := mkParameter ["options"; "versionId"] (simple false "versionid"
  TString) None.
Definition where_ : OperationParameter := mkParameter ["options"; "where"] (simple false "where" TString) None.
Definition xMsRequiresSync : OperationParameter := mkParameter ["xMsRequiresSync"] (mkMapper true true
  "x-ms-requires-sync" (Some (CString "true")) TString None [] None None false false) None.
End BlobParameters.

(** ** src/src/blob/generated/artifacts/specifications.ts *)

Definition serviceSetPropertiesOperationSpec : OperationSpec := mkSpec "PUT" None [BlobParameters.url]
  [BlobParameters.timeout; BlobParameters.restype0; BlobParameters.comp0] [BlobParameters.version;
  BlobParameters.requestId] (Some (mkRequestBody ["storageServiceProperties"] (simple true
  "StorageServiceProperties" (TComposite "StorageServiceProperties" None)))) (Some
  "application/xml; charset=utf-8") [("202", mkResponse None (Some "ServiceSetPropertiesHeaders")); ("default",
  mkResponse (Some (simple false "StorageError" (TComposite "StorageError" None))) None)] true.

Definition serviceGetPropertiesOperationSpec : OperationSpec := mkSpec "GET" None [BlobParameters.url]
  [BlobParameters.timeout; BlobParameters.restype0; BlobParameters.comp0] [BlobParameters.version;
  BlobParameters.requestId] None None [("200", mkResponse (Some (simple false "StorageServiceProperties"
  (TComposite "StorageServiceProperties" None))) (Some "ServiceGetPropertiesHeaders")); ("default", mkResponse
  (Some (simple false "StorageError" (TComposite "StorageError" None))) None)] true.

Definition serviceGetStatisticsOperationSpec : OperationSpec := mkSpec "GET" None [BlobParameters.url]
  [BlobParameters.timeout; BlobParameters.restype0; BlobParameters.comp1] [BlobParameters.version;
  BlobParameters.requestId] None None [("200", mkResponse (Some (simple false "StorageServiceStats" (TComposite
  "StorageServiceStats" None))) (Some "ServiceGetStatisticsHeaders")); ("default", mkResponse (Some (simple
  false "StorageError" (TComposite "StorageError" None))) None)] true.

Definition serviceListContainersSegmentOperationSpec : OperationSpec := mkSpec "GET" None [BlobParameters.url]
  [BlobParameters.prefix; BlobParameters.marker; BlobParameters.maxresults; BlobParameters.include0;
  BlobParameters.timeout; BlobParameters.comp2] [BlobParameters.version; BlobParameters.requestId] None None
  [("200", mkResponse (Some (named "EnumerationResults" false "ListContainersSegmentResponse" (TComposite
  "ListContainersSegmentResponse" None))) (Some "ServiceListContainersSegmentHeaders")); ("default", mkResponse
  (Some (simple false "StorageError" (TComposite "StorageError" None))) None)] true.

Definition serviceGetUserDelegationKeyOperationSpec : OperationSpec := mkSpec "POST" None [BlobParameters.url]
  [BlobParameters.timeout; BlobParameters.restype0; BlobParameters.comp3] [BlobParameters.version;
  BlobParameters.requestId] (Some (mkRequestBody ["keyInfo"] (simple true "KeyInfo" (TComposite "KeyInfo"
  None)))) (Some "application/xml; charset=utf-8") [("200", mkResponse (Some (simple false "UserDelegationKey"
  (TComposite "UserDelegationKey" None))) (Some "ServiceGetUserDelegationKeyHeaders")); ("default", mkResponse
  (Some (simple false "StorageError" (TComposite "StorageError" None))) None)] true.

Definition serviceGetAccountInfoOperationSpec : OperationSpec := mkSpec "GET" None [BlobParameters.url]
  [BlobParameters.restype1; BlobParameters.comp0] [BlobParameters.version] None None [("200", mkResponse None
  (Some "ServiceGetAccountInfoHeaders")); ("default", mkResponse (Some (simple false "StorageError" (TComposite
  "StorageError" None))) None)] true.

Definition serviceGetAccountInfoWithHeadOperationSpec : OperationSpec := mkSpec "HEAD" None [BlobParameters.url]
  [BlobParameters.restype1; BlobParameters.comp0] [BlobParameters.version] None None [("200", mkResponse None
  (Some "ServiceGetAccountInfoWithHeadHeaders")); ("default", mkResponse (Some (simple false "StorageError"
  (TComposite "StorageError" None))) None)] true.

Definition serviceSubmitBatchOperationSpec : OperationSpec := mkSpec "POST" None [BlobParameters.url]
  [BlobParameters.timeout; BlobParameters.comp4] [BlobParameters.contentLength;
  BlobParameters.multipartContentType; BlobParameters.version; BlobParameters.requestId] (Some (mkRequestBody
  ["body"] (simple true "body" TStream))) (Some "application/xml; charset=utf-8") [("202", mkResponse (Some
  (simple false "Stream" TStream)) (Some "ServiceSubmitBatchHeaders")); ("default", mkResponse (Some (simple
  false "StorageError" (TComposite "StorageError" None))) None)] true.

Definition serviceFilterBlobsOperationSpec : OperationSpec := mkSpec "GET" None [BlobParameters.url]
  [BlobParameters.timeout; BlobParameters.where_; BlobParameters.marker; BlobParameters.maxresults;
  BlobParameters.include1; BlobParameters.comp5] [BlobParameters.version; BlobParameters.requestId] None None
  [("200", mkResponse (Some (named "EnumerationResults" false "FilterBlobSegment" (TComposite
  "FilterBlobSegment" None))) (Some "ServiceFilterBlobsHeaders")); ("default", mkResponse (Some (simple false
  "StorageError" (TComposite "StorageError" None))) None)] true.

Definition containerCreateOperationSpec : OperationSpec := mkSpec "PUT" (Some "{containerName}")
  [BlobParameters.url; BlobParameters.containerName] [BlobParameters.timeout; BlobParameters.restype2]
  [BlobParameters.metadata; BlobParameters.access; BlobParameters.version; BlobParameters.requestId;
  BlobParameters.defaultEncryptionScope; BlobParameters.preventEncryptionScopeOverride] None None [("201",
  mkResponse None (Some "ContainerCreateHeaders")); ("default", mkResponse (Some (simple false "StorageError"
  (TComposite "StorageError" None))) None)] true.

Definition containerGetPropertiesOperationSpec : OperationSpec := mkSpec "GET" (Some "{containerName}")
  [BlobParameters.url; BlobParameters.containerName] [BlobParameters.timeout; BlobParameters.restype2]
  [BlobParameters.version; BlobParameters.requestId; BlobParameters.leaseId0] None None [("200", mkResponse None
  (Some "ContainerGetPropertiesHeaders")); ("default", mkResponse (Some (simple false "StorageError" (TComposite
  "StorageError" None))) None)] true.

Definition containerGetPropertiesWithHeadOperationSpec : OperationSpec := mkSpec "HEAD" (Some "{containerName}")
  [BlobParameters.url; BlobParameters.containerName] [BlobParameters.timeout; BlobParameters.restype2]
  [BlobParameters.version; BlobParameters.requestId; BlobParameters.leaseId0] None None [("200", mkResponse None
  (Some "ContainerGetPropertiesWithHeadHeaders")); ("default", mkResponse (Some (simple false "StorageError"
  (TComposite "StorageError" None))) None)] true.

Definition containerDeleteOperationSpec : OperationSpec := mkSpec "DELETE" (Some "{containerName}")
  [BlobParameters.url; BlobParameters.containerName] [BlobParameters.timeout; BlobParameters.restype2]
  [BlobParameters.version; BlobParameters.requestId; BlobParameters.leaseId0; BlobParameters.ifModifiedSince;
  BlobParameters.ifUnmodifiedSince] None None [("202", mkResponse None (Some "ContainerDeleteHeaders"));
  ("default", mkResponse (Some (simple false "StorageError" (TComposite "StorageError" None))) None)] true.

Definition containerSetMetadataOperationSpec : OperationSpec := mkSpec "PUT" (Some "{containerName}")
  [BlobParameters.url; BlobParameters.containerName] [BlobParameters.timeout; BlobParameters.restype2;
  BlobParameters.comp6] [BlobParameters.metadata; BlobParameters.version; BlobParameters.requestId;
  BlobParameters.leaseId0; BlobParameters.ifModifiedSince] None None [("200", mkResponse None (Some
  "ContainerSetMetadataHeaders")); ("default", mkResponse (Some (simple false "StorageError" (TComposite
  "StorageError" None))) None)] true.

Definition containerGetAccessPolicyOperationSpec : OperationSpec := mkSpec "GET" (Some "{containerName}")
  [BlobParameters.url; BlobParameters.containerName] [BlobParameters.timeout; BlobParameters.restype2;
  BlobParameters.comp7] [BlobParameters.version; BlobParameters.requestId; BlobParameters.leaseId0] None None
  [("200", mkResponse (Some (mkMapper false false "SignedIdentifiers" None (TSequence (TComposite
  "SignedIdentifier" None)) None [] (Some "SignedIdentifier") None false false)) (Some
  "ContainerGetAccessPolicyHeaders")); ("default", mkResponse (Some (simple false "StorageError" (TComposite
  "StorageError" None))) None)] true.

Definition containerSetAccessPolicyOperationSpec : OperationSpec := mkSpec "PUT" (Some "{containerName}")
  [BlobParameters.url; BlobParameters.containerName] [BlobParameters.timeout; BlobParameters.restype2;
  BlobParameters.comp7] [BlobParameters.access; BlobParameters.version; BlobParameters.requestId;
  BlobParameters.leaseId0; BlobParameters.ifModifiedSince; BlobParameters.ifUnmodifiedSince] (Some
  (mkRequestBody ["options"; "containerAcl"] (mkMapper false false "containerAcl" None (TSequence (TComposite
  "SignedIdentifier" None)) None [] (Some "SignedIdentifier") (Some "SignedIdentifiers") false false))) (Some
  "application/xml; charset=utf-8") [("200", mkResponse None (Some "ContainerSetAccessPolicyHeaders"));
  ("default", mkResponse (Some (simple false "StorageError" (TComposite "StorageError" None))) None)] true.

Definition containerRestoreOperationSpec : OperationSpec := mkSpec "PUT" (Some "{containerName}")
  [BlobParameters.url; BlobParameters.containerName] [BlobParameters.timeout; BlobParameters.restype2;
  BlobParameters.comp8] [BlobParameters.version; BlobParameters.requestId; BlobParameters.deletedContainerName;
  BlobParameters.deletedContainerVersion] None None [("201", mkResponse None (Some "ContainerRestoreHeaders"));
  ("default", mkResponse (Some (simple false "StorageError" (TComposite "StorageError" None))) None)] true.

Definition containerSubmitBatchOperationSpec : OperationSpec := mkSpec "POST" (Some "{containerName}")
  [BlobParameters.url; BlobParameters.containerName] [BlobParameters.timeout; BlobParameters.restype2;
  BlobParameters.comp4] [BlobParameters.contentLength; BlobParameters.multipartContentType;
  BlobParameters.version; BlobParameters.requestId] (Some (mkRequestBody ["body"] (simple true "body" TStream)))
  (Some "application/xml; charset=utf-8") [("202", mkResponse (Some (simple false "Stream" TStream)) (Some
  "ContainerSubmitBatchHeaders")); ("default", mkResponse (Some (simple false "StorageError" (TComposite
  "StorageError" None))) None)] true.

Definition containerFilterBlobsOperationSpec : OperationSpec := mkSpec "GET" (Some "{containerName}")
  [BlobParameters.url; BlobParameters.containerName] [BlobParameters.timeout; BlobParameters.where_;
  BlobParameters.marker; BlobParameters.maxresults; BlobParameters.include1; BlobParameters.restype2;
  BlobParameters.comp5] [BlobParameters.version; BlobParameters.requestId] None None [("200", mkResponse (Some
  (named "EnumerationResults" false "FilterBlobSegment" (TComposite "FilterBlobSegment" None))) (Some
  "ContainerFilterBlobsHeaders")); ("default", mkResponse (Some (simple false "StorageError" (TComposite
  "StorageError" None))) None)] true.

Definition containerAcquireLeaseOperationSpec : OperationSpec := mkSpec "PUT" (Some "{containerName}")
  [BlobParameters.url; BlobParameters.containerName] [BlobParameters.timeout; BlobParameters.comp9;
  BlobParameters.restype2] [BlobParameters.duration; BlobParameters.proposedLeaseId0; BlobParameters.version;
  BlobParameters.requestId; BlobParameters.action0; BlobParameters.ifModifiedSince;
  BlobParameters.ifUnmodifiedSince] None None [("201", mkResponse None (Some "ContainerAcquireLeaseHeaders"));
  ("default", mkResponse (Some (simple false "StorageError" (TComposite "StorageError" None))) None)] true.

Definition containerReleaseLeaseOperationSpec : OperationSpec := mkSpec "PUT" (Some "{containerName}")
  [BlobParameters.url; BlobParameters.containerName] [BlobParameters.timeout; BlobParameters.comp9;
  BlobParameters.restype2] [BlobParameters.leaseId1; BlobParameters.version; BlobParameters.requestId;
  BlobParameters.action1; BlobParameters.ifModifiedSince; BlobParameters.ifUnmodifiedSince] None None [("200",
  mkResponse None (Some "ContainerReleaseLeaseHeaders")); ("default", mkResponse (Some (simple false
  "StorageError" (TComposite "StorageError" None))) None)] true.

Definition containerRenewLeaseOperationSpec : OperationSpec := mkSpec "PUT" (Some "{containerName}")
  [BlobParameters.url; BlobParameters.containerName] [BlobParameters.timeout; BlobParameters.comp9;
  BlobParameters.restype2] [BlobParameters.leaseId1; BlobParameters.version; BlobParameters.requestId;
  BlobParameters.action2; BlobParameters.ifModifiedSince; BlobParameters.ifUnmodifiedSince] None None [("200",
  mkResponse None (Some "ContainerRenewLeaseHeaders")); ("default", mkResponse (Some (simple false
  "StorageError" (TComposite "StorageError" None))) None)] true.

Definition containerBreakLeaseOperationSpec : OperationSpec := mkSpec "PUT" (Some "{containerName}")
  [BlobParameters.url; BlobParameters.containerName] [BlobParameters.timeout; BlobParameters.comp9;
  BlobParameters.restype2] [BlobParameters.breakPeriod; BlobParameters.version; BlobParameters.requestId;
  BlobParameters.action3; BlobParameters.ifModifiedSince; BlobParameters.ifUnmodifiedSince] None None [("202",
  mkResponse None (Some "ContainerBreakLeaseHeaders")); ("default", mkResponse (Some (simple false
  "StorageError" (TComposite "StorageError" None))) None)] true.

Definition containerChangeLeaseOperationSpec : OperationSpec := mkSpec "PUT" (Some "{containerName}")
  [BlobParameters.url; BlobParameters.containerName] [BlobParameters.timeout; BlobParameters.comp9;
  BlobParameters.restype2] [BlobParameters.leaseId1; BlobParameters.proposedLeaseId1; BlobParameters.version;
  BlobParameters.requestId; BlobParameters.action4; BlobParameters.ifModifiedSince;
  BlobParameters.ifUnmodifiedSince] None None [("200", mkResponse None (Some "ContainerChangeLeaseHeaders"));
  ("default", mkResponse (Some (simple false "StorageError" (TComposite "StorageError" None))) None)] true.

Definition containerListBlobFlatSegmentOperationSpec : OperationSpec := mkSpec "GET" (Some "{containerName}")
  [BlobParameters.url; BlobParameters.containerName] [BlobParameters.prefix; BlobParameters.marker;
  BlobParameters.maxresults; BlobParameters.include2; BlobParameters.timeout; BlobParameters.restype2;
  BlobParameters.comp2] [BlobParameters.version; BlobParameters.requestId] None None [("200", mkResponse (Some
  (named "EnumerationResults" false "ListBlobsFlatSegmentResponse" (TComposite "ListBlobsFlatSegmentResponse"
  None))) (Some "ContainerListBlobFlatSegmentHeaders")); ("default", mkResponse (Some (simple false
  "StorageError" (TComposite "StorageError" None))) None)] true.

Definition containerListBlobHierarchySegmentOperationSpec : OperationSpec := mkSpec "GET" (Some
  "{containerName}") [BlobParameters.url; BlobParameters.containerName] [BlobParameters.prefix;
  BlobParameters.delimiter; BlobParameters.marker; BlobParameters.maxresults; BlobParameters.include2;
  BlobParameters.timeout; BlobParameters.restype2; BlobParameters.comp2] [BlobParameters.version;
  BlobParameters.requestId] None None [("200", mkResponse (Some (named "EnumerationResults" false
  "ListBlobsHierarchySegmentResponse" (TComposite "ListBlobsHierarchySegmentResponse" None))) (Some
  "ContainerListBlobHierarchySegmentHeaders")); ("default", mkResponse (Some (simple false "StorageError"
  (TComposite "StorageError" None))) None)] true.

Definition containerGetAccountInfoOperationSpec : OperationSpec := mkSpec "GET" (Some "{containerName}")
  [BlobParameters.url; BlobParameters.containerName] [BlobParameters.restype1; BlobParameters.comp0]
  [BlobParameters.version] None None [("200", mkResponse None (Some "ContainerGetAccountInfoHeaders"));
  ("default", mkResponse (Some (simple false "StorageError" (TComposite "StorageError" None))) None)] true.

Definition containerGetAccountInfoWithHeadOperationSpec : OperationSpec := mkSpec "HEAD" (Some
  "{containerName}") [BlobParameters.url; BlobParameters.containerName] [BlobParameters.restype1;
  BlobParameters.comp0] [BlobParameters.version] None None [("200", mkResponse None (Some
  "ContainerGetAccountInfoWithHeadHeaders")); ("default", mkResponse (Some (simple false "StorageError"
  (TComposite "StorageError" None))) None)] true.

Definition blobDownloadOperationSpec : OperationSpec := mkSpec "GET" (Some "{containerName}/{blob}")
  [BlobParameters.url; BlobParameters.containerName; BlobParameters.blob] [BlobParameters.snapshot;
  BlobParameters.versionId; BlobParameters.timeout] [BlobParameters.range0; BlobParameters.rangeGetContentMD5;
  BlobParameters.rangeGetContentCRC64; BlobParameters.version; BlobParameters.requestId;
  BlobParameters.leaseId0; BlobParameters.encryptionKey; BlobParameters.encryptionKeySha256;
  BlobParameters.encryptionAlgorithm; BlobParameters.ifModifiedSince; BlobParameters.ifUnmodifiedSince;
  BlobParameters.ifMatch; BlobParameters.ifNoneMatch; BlobParameters.ifTags] None None [("200", mkResponse (Some
  (simple false "Stream" TStream)) (Some "BlobDownloadHeaders")); ("206", mkResponse (Some (simple false
  "Stream" TStream)) (Some "BlobDownloadHeaders")); ("default", mkResponse (Some (simple false "StorageError"
  (TComposite "StorageError" None))) None)] true.

Definition blobGetPropertiesOperationSpec : OperationSpec := mkSpec "HEAD" (Some "{containerName}/{blob}")
  [BlobParameters.url; BlobParameters.containerName; BlobParameters.blob] [BlobParameters.snapshot;
  BlobParameters.versionId; BlobParameters.timeout] [BlobParameters.version; BlobParameters.requestId;
  BlobParameters.leaseId0; BlobParameters.encryptionKey; BlobParameters.encryptionKeySha256;
  BlobParameters.encryptionAlgorithm; BlobParameters.ifModifiedSince; BlobParameters.ifUnmodifiedSince;
  BlobParameters.ifMatch; BlobParameters.ifNoneMatch; BlobParameters.ifTags] None None [("200", mkResponse None
  (Some "BlobGetPropertiesHeaders")); ("default", mkResponse (Some (simple false "StorageError" (TComposite
  "StorageError" None))) None)] true.

Definition blobDeleteOperationSpec : OperationSpec := mkSpec "DELETE" (Some "{containerName}/{blob}")
  [BlobParameters.url; BlobParameters.containerName; BlobParameters.blob] [BlobParameters.snapshot;
  BlobParameters.versionId; BlobParameters.timeout; BlobParameters.blobDeleteType]
  [BlobParameters.deleteSnapshots; BlobParameters.version; BlobParameters.requestId; BlobParameters.leaseId0;
  BlobParameters.ifModifiedSince; BlobParameters.ifUnmodifiedSince; BlobParameters.ifMatch;
  BlobParameters.ifNoneMatch; BlobParameters.ifTags] None None [("202", mkResponse None (Some
  "BlobDeleteHeaders")); ("default", mkResponse (Some (simple false "StorageError" (TComposite "StorageError"
  None))) None)] true.

Definition blobUndeleteOperationSpec : OperationSpec := mkSpec "PUT" (Some "{containerName}/{blob}")
  [BlobParameters.url; BlobParameters.containerName; BlobParameters.blob] [BlobParameters.timeout;
  BlobParameters.comp8] [BlobParameters.version; BlobParameters.requestId] None None [("200", mkResponse None
  (Some "BlobUndeleteHeaders")); ("default", mkResponse (Some (simple false "StorageError" (TComposite
  "StorageError" None))) None)] true.

Definition blobSetExpiryOperationSpec : OperationSpec := mkSpec "PUT" (Some "{containerName}/{blob}")
  [BlobParameters.url; BlobParameters.containerName; BlobParameters.blob] [BlobParameters.timeout;
  BlobParameters.comp10] [BlobParameters.version; BlobParameters.requestId; BlobParameters.expiryOptions;
  BlobParameters.expiresOn] None None [("200", mkResponse None (Some "BlobSetExpiryHeaders")); ("default",
  mkResponse (Some (simple false "StorageError" (TComposite "StorageError" None))) None)] true.

Definition blobSetHTTPHeadersOperationSpec : OperationSpec := mkSpec "PUT" (Some "{containerName}/{blob}")
  [BlobParameters.url; BlobParameters.containerName; BlobParameters.blob] [BlobParameters.timeout;
  BlobParameters.comp0] [BlobParameters.version; BlobParameters.requestId; BlobParameters.blobCacheControl;
  BlobParameters.blobContentType; BlobParameters.blobContentMD5; BlobParameters.blobContentEncoding;
  BlobParameters.blobContentLanguage; BlobParameters.blobContentDisposition; BlobParameters.leaseId0;
  BlobParameters.ifModifiedSince; BlobParameters.ifUnmodifiedSince; BlobParameters.ifMatch;
  BlobParameters.ifNoneMatch; BlobParameters.ifTags] None None [("200", mkResponse None (Some
  "BlobSetHTTPHeadersHeaders")); ("default", mkResponse (Some (simple false "StorageError" (TComposite
  "StorageError" None))) None)] true.

Definition blobSetImmutabilityPolicyOperationSpec : OperationSpec := mkSpec "PUT" (Some
  "{containerName}/{blob}") [BlobParameters.url; BlobParameters.containerName; BlobParameters.blob]
  [BlobParameters.timeout; BlobParameters.comp11] [BlobParameters.version; BlobParameters.requestId;
  BlobParameters.immutabilityPolicyExpiry; BlobParameters.immutabilityPolicyMode;
  BlobParameters.ifUnmodifiedSince] None None [("200", mkResponse None (Some
  "BlobSetImmutabilityPolicyHeaders")); ("default", mkResponse (Some (simple false "StorageError" (TComposite
  "StorageError" None))) None)] true.

Definition blobDeleteImmutabilityPolicyOperationSpec : OperationSpec := mkSpec "DELETE" (Some
  "{containerName}/{blob}") [BlobParameters.url; BlobParameters.containerName; BlobParameters.blob]
  [BlobParameters.timeout; BlobParameters.comp11] [BlobParameters.version; BlobParameters.requestId] None None
  [("200", mkResponse None (Some "BlobDeleteImmutabilityPolicyHeaders")); ("default", mkResponse (Some (simple
  false "StorageError" (TComposite "StorageError" None))) None)] true.

Definition blobSetLegalHoldOperationSpec : OperationSpec := mkSpec "PUT" (Some "{containerName}/{blob}")
  [BlobParameters.url; BlobParameters.containerName; BlobParameters.blob] [BlobParameters.timeout;
  BlobParameters.comp12] [BlobParameters.version; BlobParameters.requestId; BlobParameters.legalHold0] None None
  [("200", mkResponse None (Some "BlobSetLegalHoldHeaders")); ("default", mkResponse (Some (simple false
  "StorageError" (TComposite "StorageError" None))) None)] true.

Definition blobSetMetadataOperationSpec : OperationSpec := mkSpec "PUT" (Some "{containerName}/{blob}")
  [BlobParameters.url; BlobParameters.containerName; BlobParameters.blob] [BlobParameters.timeout;
  BlobParameters.comp6] [BlobParameters.metadata; BlobParameters.version; BlobParameters.requestId;
  BlobParameters.leaseId0; BlobParameters.encryptionKey; BlobParameters.encryptionKeySha256;
  BlobParameters.encryptionAlgorithm; BlobParameters.encryptionScope; BlobParameters.ifModifiedSince;
  BlobParameters.ifUnmodifiedSince; BlobParameters.ifMatch; BlobParameters.ifNoneMatch; BlobParameters.ifTags]
  None None [("200", mkResponse None (Some "BlobSetMetadataHeaders")); ("default", mkResponse (Some (simple
  false "StorageError" (TComposite "StorageError" None))) None)] true.

Definition blobAcquireLeaseOperationSpec : OperationSpec := mkSpec "PUT" (Some "{containerName}/{blob}")
  [BlobParameters.url; BlobParameters.containerName; BlobParameters.blob] [BlobParameters.timeout;
  BlobParameters.comp9] [BlobParameters.duration; BlobParameters.proposedLeaseId0; BlobParameters.version;
  BlobParameters.requestId; BlobParameters.action0; BlobParameters.ifModifiedSince;
  BlobParameters.ifUnmodifiedSince; BlobParameters.ifMatch; BlobParameters.ifNoneMatch; BlobParameters.ifTags]
  None None [("201", mkResponse None (Some "BlobAcquireLeaseHeaders")); ("default", mkResponse (Some (simple
  false "StorageError" (TComposite "StorageError" None))) None)] true.

Definition blobReleaseLeaseOperationSpec : OperationSpec := mkSpec "PUT" (Some "{containerName}/{blob}")
  [BlobParameters.url; BlobParameters.containerName; BlobParameters.blob] [BlobParameters.timeout;
  BlobParameters.comp9] [BlobParameters.leaseId1; BlobParameters.version; BlobParameters.requestId;
  BlobParameters.action1; BlobParameters.ifModifiedSince; BlobParameters.ifUnmodifiedSince;
  BlobParameters.ifMatch; BlobParameters.ifNoneMatch; BlobParameters.ifTags] None None [("200", mkResponse None
  (Some "BlobReleaseLeaseHeaders")); ("default", mkResponse (Some (simple false "StorageError" (TComposite
  "StorageError" None))) None)] true.

Definition blobRenewLeaseOperationSpec : OperationSpec := mkSpec "PUT" (Some "{containerName}/{blob}")
  [BlobParameters.url; BlobParameters.containerName; BlobParameters.blob] [BlobParameters.timeout;
  BlobParameters.comp9] [BlobParameters.leaseId1; BlobParameters.version; BlobParameters.requestId;
  BlobParameters.action2; BlobParameters.ifModifiedSince; BlobParameters.ifUnmodifiedSince;
  BlobParameters.ifMatch; BlobParameters.ifNoneMatch; BlobParameters.ifTags] None None [("200", mkResponse None
  (Some "BlobRenewLeaseHeaders")); ("default", mkResponse (Some (simple false "StorageError" (TComposite
  "StorageError" None))) None)] true.

Definition blobChangeLeaseOperationSpec : OperationSpec := mkSpec "PUT" (Some "{containerName}/{blob}")
  [BlobParameters.url; BlobParameters.containerName; BlobParameters.blob] [BlobParameters.timeout;
  BlobParameters.comp9] [BlobParameters.leaseId1; BlobParameters.proposedLeaseId1; BlobParameters.version;
  BlobParameters.requestId; BlobParameters.action4; BlobParameters.ifModifiedSince;
  BlobParameters.ifUnmodifiedSince; BlobParameters.ifMatch; BlobParameters.ifNoneMatch; BlobParameters.ifTags]
  None None [("200", mkResponse None (Some "BlobChangeLeaseHeaders")); ("default", mkResponse (Some (simple
  false "StorageError" (TComposite "StorageError" None))) None)] true.

Definition blobBreakLeaseOperationSpec : OperationSpec := mkSpec "PUT" (Some "{containerName}/{blob}")
  [BlobParameters.url; BlobParameters.containerName; BlobParameters.blob] [BlobParameters.timeout;
  BlobParameters.comp9] [BlobParameters.breakPeriod; BlobParameters.version; BlobParameters.requestId;
  BlobParameters.action3; BlobParameters.ifModifiedSince; BlobParameters.ifUnmodifiedSince;
  BlobParameters.ifMatch; BlobParameters.ifNoneMatch; BlobParameters.ifTags] None None [("202", mkResponse None
  (Some "BlobBreakLeaseHeaders")); ("default", mkResponse (Some (simple false "StorageError" (TComposite
  "StorageError" None))) None)] true.

Definition blobCreateSnapshotOperationSpec : OperationSpec := mkSpec "PUT" (Some "{containerName}/{blob}")
  [BlobParameters.url; BlobParameters.containerName; BlobParameters.blob] [BlobParameters.timeout;
  BlobParameters.comp13] [BlobParameters.metadata; BlobParameters.version; BlobParameters.requestId;
  BlobParameters.encryptionKey; BlobParameters.encryptionKeySha256; BlobParameters.encryptionAlgorithm;
  BlobParameters.encryptionScope; BlobParameters.ifModifiedSince; BlobParameters.ifUnmodifiedSince;
  BlobParameters.ifMatch; BlobParameters.ifNoneMatch; BlobParameters.ifTags; BlobParameters.leaseId0] None None
  [("201", mkResponse None (Some "BlobCreateSnapshotHeaders")); ("default", mkResponse (Some (simple false
  "StorageError" (TComposite "StorageError" None))) None)] true.

Definition blobStartCopyFromURLOperationSpec : OperationSpec := mkSpec "PUT" (Some "{containerName}/{blob}")
  [BlobParameters.url; BlobParameters.containerName; BlobParameters.blob] [BlobParameters.timeout]
  [BlobParameters.metadata; BlobParameters.tier0; BlobParameters.rehydratePriority; BlobParameters.copySource;
  BlobParameters.version; BlobParameters.requestId; BlobParameters.blobTagsString; BlobParameters.sealBlob;
  BlobParameters.immutabilityPolicyExpiry; BlobParameters.immutabilityPolicyMode; BlobParameters.legalHold1;
  BlobParameters.sourceIfModifiedSince; BlobParameters.sourceIfUnmodifiedSince; BlobParameters.sourceIfMatch;
  BlobParameters.sourceIfNoneMatch; BlobParameters.sourceIfTags; BlobParameters.ifModifiedSince;
  BlobParameters.ifUnmodifiedSince; BlobParameters.ifMatch; BlobParameters.ifNoneMatch; BlobParameters.ifTags;
  BlobParameters.leaseId0] None None [("202", mkResponse None (Some "BlobStartCopyFromURLHeaders")); ("default",
  mkResponse (Some (simple false "StorageError" (TComposite "StorageError" None))) None)] true.

Definition blobCopyFromURLOperationSpec : OperationSpec := mkSpec "PUT" (Some "{containerName}/{blob}")
  [BlobParameters.url; BlobParameters.containerName; BlobParameters.blob] [BlobParameters.timeout]
  [BlobParameters.metadata; BlobParameters.tier0; BlobParameters.copySource; BlobParameters.version;
  BlobParameters.requestId; BlobParameters.sourceContentMD5; BlobParameters.blobTagsString;
  BlobParameters.immutabilityPolicyExpiry; BlobParameters.immutabilityPolicyMode; BlobParameters.legalHold1;
  BlobParameters.copySourceAuthorization; BlobParameters.copySourceTags; BlobParameters.xMsRequiresSync;
  BlobParameters.sourceIfModifiedSince; BlobParameters.sourceIfUnmodifiedSince; BlobParameters.sourceIfMatch;
  BlobParameters.sourceIfNoneMatch; BlobParameters.ifModifiedSince; BlobParameters.ifUnmodifiedSince;
  BlobParameters.ifMatch; BlobParameters.ifNoneMatch; BlobParameters.ifTags; BlobParameters.leaseId0;
  BlobParameters.encryptionScope] None None [("202", mkResponse None (Some "BlobCopyFromURLHeaders"));
  ("default", mkResponse (Some (simple false "StorageError" (TComposite "StorageError" None))) None)] true.

Definition blobAbortCopyFromURLOperationSpec : OperationSpec := mkSpec "PUT" (Some "{containerName}/{blob}")
  [BlobParameters.url; BlobParameters.containerName; BlobParameters.blob] [BlobParameters.copyId;
  BlobParameters.timeout; BlobParameters.comp14] [BlobParameters.version; BlobParameters.requestId;
  BlobParameters.copyActionAbortConstant; BlobParameters.leaseId0] None None [("204", mkResponse None (Some
  "BlobAbortCopyFromURLHeaders")); ("default", mkResponse (Some (simple false "StorageError" (TComposite
  "StorageError" None))) None)] true.

Definition blobSetTierOperationSpec : OperationSpec := mkSpec "PUT" (Some "{containerName}/{blob}")
  [BlobParameters.url; BlobParameters.containerName; BlobParameters.blob] [BlobParameters.snapshot;
  BlobParameters.versionId; BlobParameters.timeout; BlobParameters.comp15] [BlobParameters.tier1;
  BlobParameters.rehydratePriority; BlobParameters.version; BlobParameters.requestId; BlobParameters.leaseId0;
  BlobParameters.ifTags] None None [("200", mkResponse None (Some "BlobSetTierHeaders")); ("202", mkResponse
  None (Some "BlobSetTierHeaders")); ("default", mkResponse (Some (simple false "StorageError" (TComposite
  "StorageError" None))) None)] true.

Definition blobGetAccountInfoOperationSpec : OperationSpec := mkSpec "GET" (Some "{containerName}/{blob}")
  [BlobParameters.url; BlobParameters.containerName; BlobParameters.blob] [BlobParameters.restype1;
  BlobParameters.comp0] [BlobParameters.version] None None [("200", mkResponse None (Some
  "BlobGetAccountInfoHeaders")); ("default", mkResponse (Some (simple false "StorageError" (TComposite
  "StorageError" None))) None)] true.

Definition blobGetAccountInfoWithHeadOperationSpec : OperationSpec := mkSpec "HEAD" (Some
  "{containerName}/{blob}") [BlobParameters.url; BlobParameters.containerName; BlobParameters.blob]
  [BlobParameters.restype1; BlobParameters.comp0] [BlobParameters.version] None None [("200", mkResponse None
  (Some "BlobGetAccountInfoWithHeadHeaders")); ("default", mkResponse (Some (simple false "StorageError"
  (TComposite "StorageError" None))) None)] true.

Definition blobQueryOperationSpec : OperationSpec := mkSpec "POST" (Some "{containerName}/{blob}")
  [BlobParameters.url; BlobParameters.containerName; BlobParameters.blob] [BlobParameters.snapshot;
  BlobParameters.timeout; BlobParameters.comp16] [BlobParameters.version; BlobParameters.requestId;
  BlobParameters.leaseId0; BlobParameters.encryptionKey; BlobParameters.encryptionKeySha256;
  BlobParameters.encryptionAlgorithm; BlobParameters.ifModifiedSince; BlobParameters.ifUnmodifiedSince;
  BlobParameters.ifMatch; BlobParameters.ifNoneMatch; BlobParameters.ifTags] (Some (mkRequestBody ["options";
  "queryRequest"] (simple false "QueryRequest" (TComposite "QueryRequest" None)))) (Some
  "application/xml; charset=utf-8") [("200", mkResponse (Some (simple false "Stream" TStream)) (Some
  "BlobQueryHeaders")); ("206", mkResponse (Some (simple false "Stream" TStream)) (Some "BlobQueryHeaders"));
  ("default", mkResponse (Some (simple false "StorageError" (TComposite "StorageError" None))) None)] true.

Definition blobGetTagsOperationSpec : OperationSpec := mkSpec "GET" (Some "{containerName}/{blob}")
  [BlobParameters.url; BlobParameters.containerName; BlobParameters.blob] [BlobParameters.timeout;
  BlobParameters.snapshot; BlobParameters.versionId; BlobParameters.comp17] [BlobParameters.version;
  BlobParameters.requestId; BlobParameters.ifTags; BlobParameters.leaseId0] None None [("200", mkResponse (Some
  (named "Tags" false "BlobTags" (TComposite "BlobTags" None))) (Some "BlobGetTagsHeaders")); ("default",
  mkResponse (Some (simple false "StorageError" (TComposite "StorageError" None))) None)] true.

Definition blobSetTagsOperationSpec : OperationSpec := mkSpec "PUT" (Some "{containerName}/{blob}")
  [BlobParameters.url; BlobParameters.containerName; BlobParameters.blob] [BlobParameters.timeout;
  BlobParameters.versionId; BlobParameters.comp17] [BlobParameters.version;
  BlobParameters.transactionalContentMD5; BlobParameters.transactionalContentCrc64; BlobParameters.requestId;
  BlobParameters.ifTags; BlobParameters.leaseId0] (Some (mkRequestBody ["options"; "tags"] (named "Tags" false
  "BlobTags" (TComposite "BlobTags" None)))) (Some "application/xml; charset=utf-8") [("204", mkResponse None
  (Some "BlobSetTagsHeaders")); ("default", mkResponse (Some (simple false "StorageError" (TComposite
  "StorageError" None))) None)] true.

Definition pageBlobCreateOperationSpec : OperationSpec := mkSpec "PUT" (Some "{containerName}/{blob}")
  [BlobParameters.url; BlobParameters.containerName; BlobParameters.blob] [BlobParameters.timeout]
  [BlobParameters.contentLength; BlobParameters.tier0; BlobParameters.metadata;
  BlobParameters.blobContentLength; BlobParameters.blobSequenceNumber; BlobParameters.version;
  BlobParameters.requestId; BlobParameters.blobTagsString; BlobParameters.immutabilityPolicyExpiry;
  BlobParameters.immutabilityPolicyMode; BlobParameters.legalHold1; BlobParameters.blobType0;
  BlobParameters.blobContentType; BlobParameters.blobContentEncoding; BlobParameters.blobContentLanguage;
  BlobParameters.blobContentMD5; BlobParameters.blobCacheControl; BlobParameters.blobContentDisposition;
  BlobParameters.leaseId0; BlobParameters.encryptionKey; BlobParameters.encryptionKeySha256;
  BlobParameters.encryptionAlgorithm; BlobParameters.encryptionScope; BlobParameters.ifModifiedSince;
  BlobParameters.ifUnmodifiedSince; BlobParameters.ifMatch; BlobParameters.ifNoneMatch; BlobParameters.ifTags]
  None None [("201", mkResponse None (Some "PageBlobCreateHeaders")); ("default", mkResponse (Some (simple false
  "StorageError" (TComposite "StorageError" None))) None)] true.

Definition pageBlobUploadPagesOperationSpec : OperationSpec := mkSpec "PUT" (Some "{containerName}/{blob}")
  [BlobParameters.url; BlobParameters.containerName; BlobParameters.blob] [BlobParameters.timeout;
  BlobParameters.comp18] [BlobParameters.contentLength; BlobParameters.transactionalContentMD5;
  BlobParameters.transactionalContentCrc64; BlobParameters.range0; BlobParameters.version;
  BlobParameters.requestId; BlobParameters.pageWrite0; BlobParameters.leaseId0; BlobParameters.encryptionKey;
  BlobParameters.encryptionKeySha256; BlobParameters.encryptionAlgorithm; BlobParameters.encryptionScope;
  BlobParameters.ifSequenceNumberLessThanOrEqualTo; BlobParameters.ifSequenceNumberLessThan;
  BlobParameters.ifSequenceNumberEqualTo; BlobParameters.ifModifiedSince; BlobParameters.ifUnmodifiedSince;
  BlobParameters.ifMatch; BlobParameters.ifNoneMatch; BlobParameters.ifTags] (Some (mkRequestBody ["body"]
  (simple true "body" TStream))) (Some "application/octet-stream") [("201", mkResponse None (Some
  "PageBlobUploadPagesHeaders")); ("default", mkResponse (Some (simple false "StorageError" (TComposite
  "StorageError" None))) None)] true.

Definition pageBlobClearPagesOperationSpec : OperationSpec := mkSpec "PUT" (Some "{containerName}/{blob}")
  [BlobParameters.url; BlobParameters.containerName; BlobParameters.blob] [BlobParameters.timeout;
  BlobParameters.comp18] [BlobParameters.contentLength; BlobParameters.range0; BlobParameters.version;
  BlobParameters.requestId; BlobParameters.pageWrite1; BlobParameters.leaseId0; BlobParameters.encryptionKey;
  BlobParameters.encryptionKeySha256; BlobParameters.encryptionAlgorithm; BlobParameters.encryptionScope;
  BlobParameters.ifSequenceNumberLessThanOrEqualTo; BlobParameters.ifSequenceNumberLessThan;
  BlobParameters.ifSequenceNumberEqualTo; BlobParameters.ifModifiedSince; BlobParameters.ifUnmodifiedSince;
  BlobParameters.ifMatch; BlobParameters.ifNoneMatch; BlobParameters.ifTags] None None [("201", mkResponse None
  (Some "PageBlobClearPagesHeaders")); ("default", mkResponse (Some (simple false "StorageError" (TComposite
  "StorageError" None))) None)] true.

Definition pageBlobUploadPagesFromURLOperationSpec : OperationSpec := mkSpec "PUT" (Some
  "{containerName}/{blob}") [BlobParameters.url; BlobParameters.containerName; BlobParameters.blob]
  [BlobParameters.timeout; BlobParameters.comp18] [BlobParameters.sourceUrl; BlobParameters.sourceRange0;
  BlobParameters.sourceContentMD5; BlobParameters.sourceContentcrc64; BlobParameters.contentLength;
  BlobParameters.range1; BlobParameters.version; BlobParameters.requestId;
  BlobParameters.copySourceAuthorization; BlobParameters.pageWrite0; BlobParameters.encryptionKey;
  BlobParameters.encryptionKeySha256; BlobParameters.encryptionAlgorithm; BlobParameters.encryptionScope;
  BlobParameters.leaseId0; BlobParameters.ifSequenceNumberLessThanOrEqualTo;
  BlobParameters.ifSequenceNumberLessThan; BlobParameters.ifSequenceNumberEqualTo;
  BlobParameters.ifModifiedSince; BlobParameters.ifUnmodifiedSince; BlobParameters.ifMatch;
  BlobParameters.ifNoneMatch; BlobParameters.ifTags; BlobParameters.sourceIfModifiedSince;
  BlobParameters.sourceIfUnmodifiedSince; BlobParameters.sourceIfMatch; BlobParameters.sourceIfNoneMatch] None
  None [("201", mkResponse None (Some "PageBlobUploadPagesFromURLHeaders")); ("default", mkResponse (Some
  (simple false "StorageError" (TComposite "StorageError" None))) None)] true.

Definition pageBlobGetPageRangesOperationSpec : OperationSpec := mkSpec "GET" (Some "{containerName}/{blob}")
  [BlobParameters.url; BlobParameters.containerName; BlobParameters.blob] [BlobParameters.snapshot;
  BlobParameters.timeout; BlobParameters.marker; BlobParameters.maxresults; BlobParameters.comp19]
  [BlobParameters.range0; BlobParameters.version; BlobParameters.requestId; BlobParameters.leaseId0;
  BlobParameters.ifModifiedSince; BlobParameters.ifUnmodifiedSince; BlobParameters.ifMatch;
  BlobParameters.ifNoneMatch; BlobParameters.ifTags] None None [("200", mkResponse (Some (simple false
  "PageList" (TComposite "PageList" None))) (Some "PageBlobGetPageRangesHeaders")); ("default", mkResponse (Some
  (simple false "StorageError" (TComposite "StorageError" None))) None)] true.

Definition pageBlobGetPageRangesDiffOperationSpec : OperationSpec := mkSpec "GET" (Some
  "{containerName}/{blob}") [BlobParameters.url; BlobParameters.containerName; BlobParameters.blob]
  [BlobParameters.snapshot; BlobParameters.timeout; BlobParameters.prevsnapshot; BlobParameters.marker;
  BlobParameters.maxresults; BlobParameters.comp19] [BlobParameters.prevSnapshotUrl; BlobParameters.range0;
  BlobParameters.version; BlobParameters.requestId; BlobParameters.leaseId0; BlobParameters.ifModifiedSince;
  BlobParameters.ifUnmodifiedSince; BlobParameters.ifMatch; BlobParameters.ifNoneMatch; BlobParameters.ifTags]
  None None [("200", mkResponse (Some (simple false "PageList" (TComposite "PageList" None))) (Some
  "PageBlobGetPageRangesDiffHeaders")); ("default", mkResponse (Some (simple false "StorageError" (TComposite
  "StorageError" None))) None)] true.

Definition pageBlobResizeOperationSpec : OperationSpec := mkSpec "PUT" (Some "{containerName}/{blob}")
  [BlobParameters.url; BlobParameters.containerName; BlobParameters.blob] [BlobParameters.timeout;
  BlobParameters.comp0] [BlobParameters.blobContentLength; BlobParameters.version; BlobParameters.requestId;
  BlobParameters.leaseId0; BlobParameters.encryptionKey; BlobParameters.encryptionKeySha256;
  BlobParameters.encryptionAlgorithm; BlobParameters.encryptionScope; BlobParameters.ifModifiedSince;
  BlobParameters.ifUnmodifiedSince; BlobParameters.ifMatch; BlobParameters.ifNoneMatch; BlobParameters.ifTags]
  None None [("200", mkResponse None (Some "PageBlobResizeHeaders")); ("default", mkResponse (Some (simple false
  "StorageError" (TComposite "StorageError" None))) None)] true.

Definition pageBlobUpdateSequenceNumberOperationSpec : OperationSpec := mkSpec "PUT" (Some
  "{containerName}/{blob}") [BlobParameters.url; BlobParameters.containerName; BlobParameters.blob]
  [BlobParameters.timeout; BlobParameters.comp0] [BlobParameters.sequenceNumberAction;
  BlobParameters.blobSequenceNumber; BlobParameters.version; BlobParameters.requestId; BlobParameters.leaseId0;
  BlobParameters.ifModifiedSince; BlobParameters.ifUnmodifiedSince; BlobParameters.ifMatch;
  BlobParameters.ifNoneMatch; BlobParameters.ifTags] None None [("200", mkResponse None (Some
  "PageBlobUpdateSequenceNumberHeaders")); ("default", mkResponse (Some (simple false "StorageError" (TComposite
  "StorageError" None))) None)] true.

Definition pageBlobCopyIncrementalOperationSpec : OperationSpec := mkSpec "PUT" (Some "{containerName}/{blob}")
  [BlobParameters.url; BlobParameters.containerName; BlobParameters.blob] [BlobParameters.timeout;
  BlobParameters.comp20] [BlobParameters.copySource; BlobParameters.version; BlobParameters.requestId;
  BlobParameters.ifModifiedSince; BlobParameters.ifUnmodifiedSince; BlobParameters.ifMatch;
  BlobParameters.ifNoneMatch; BlobParameters.ifTags] None None [("202", mkResponse None (Some
  "PageBlobCopyIncrementalHeaders")); ("default", mkResponse (Some (simple false "StorageError" (TComposite
  "StorageError" None))) None)] true.

Definition appendBlobCreateOperationSpec : OperationSpec := mkSpec "PUT" (Some "{containerName}/{blob}")
  [BlobParameters.url; BlobParameters.containerName; BlobParameters.blob] [BlobParameters.timeout]
  [BlobParameters.contentLength; BlobParameters.metadata; BlobParameters.version; BlobParameters.requestId;
  BlobParameters.blobTagsString; BlobParameters.immutabilityPolicyExpiry; BlobParameters.immutabilityPolicyMode;
  BlobParameters.legalHold1; BlobParameters.blobType1; BlobParameters.blobContentType;
  BlobParameters.blobContentEncoding; BlobParameters.blobContentLanguage; BlobParameters.blobContentMD5;
  BlobParameters.blobCacheControl; BlobParameters.blobContentDisposition; BlobParameters.leaseId0;
  BlobParameters.encryptionKey; BlobParameters.encryptionKeySha256; BlobParameters.encryptionAlgorithm;
  BlobParameters.encryptionScope; BlobParameters.ifModifiedSince; BlobParameters.ifUnmodifiedSince;
  BlobParameters.ifMatch; BlobParameters.ifNoneMatch; BlobParameters.ifTags] None None [("201", mkResponse None
  (Some "AppendBlobCreateHeaders")); ("default", mkResponse (Some (simple false "StorageError" (TComposite
  "StorageError" None))) None)] true.

Definition appendBlobAppendBlockOperationSpec : OperationSpec := mkSpec "PUT" (Some "{containerName}/{blob}")
  [BlobParameters.url; BlobParameters.containerName; BlobParameters.blob] [BlobParameters.timeout;
  BlobParameters.comp21] [BlobParameters.contentLength; BlobParameters.transactionalContentMD5;
  BlobParameters.transactionalContentCrc64; BlobParameters.version; BlobParameters.requestId;
  BlobParameters.leaseId0; BlobParameters.maxSize; BlobParameters.appendPosition; BlobParameters.encryptionKey;
  BlobParameters.encryptionKeySha256; BlobParameters.encryptionAlgorithm; BlobParameters.encryptionScope;
  BlobParameters.ifModifiedSince; BlobParameters.ifUnmodifiedSince; BlobParameters.ifMatch;
  BlobParameters.ifNoneMatch; BlobParameters.ifTags] (Some (mkRequestBody ["body"] (simple true "body"
  TStream))) (Some "application/octet-stream") [("201", mkResponse None (Some "AppendBlobAppendBlockHeaders"));
  ("default", mkResponse (Some (simple false "StorageError" (TComposite "StorageError" None))) None)] true.

Definition appendBlobAppendBlockFromUrlOperationSpec : OperationSpec := mkSpec "PUT" (Some
  "{containerName}/{blob}") [BlobParameters.url; BlobParameters.containerName; BlobParameters.blob]
  [BlobParameters.timeout; BlobParameters.comp21] [BlobParameters.sourceUrl; BlobParameters.sourceRange1;
  BlobParameters.sourceContentMD5; BlobParameters.sourceContentcrc64; BlobParameters.contentLength;
  BlobParameters.transactionalContentMD5; BlobParameters.version; BlobParameters.requestId;
  BlobParameters.copySourceAuthorization; BlobParameters.encryptionKey; BlobParameters.encryptionKeySha256;
  BlobParameters.encryptionAlgorithm; BlobParameters.encryptionScope; BlobParameters.leaseId0;
  BlobParameters.maxSize; BlobParameters.appendPosition; BlobParameters.ifModifiedSince;
  BlobParameters.ifUnmodifiedSince; BlobParameters.ifMatch; BlobParameters.ifNoneMatch; BlobParameters.ifTags;
  BlobParameters.sourceIfModifiedSince; BlobParameters.sourceIfUnmodifiedSince; BlobParameters.sourceIfMatch;
  BlobParameters.sourceIfNoneMatch] None None [("201", mkResponse None (Some
  "AppendBlobAppendBlockFromUrlHeaders")); ("default", mkResponse (Some (simple false "StorageError" (TComposite
  "StorageError" None))) None)] true.

Definition appendBlobSealOperationSpec : OperationSpec := mkSpec "PUT" (Some "{containerName}/{blob}")
  [BlobParameters.url; BlobParameters.containerName; BlobParameters.blob] [BlobParameters.timeout;
  BlobParameters.comp22] [BlobParameters.version; BlobParameters.requestId; BlobParameters.leaseId0;
  BlobParameters.ifModifiedSince; BlobParameters.ifUnmodifiedSince; BlobParameters.ifMatch;
  BlobParameters.ifNoneMatch; BlobParameters.appendPosition] None None [("200", mkResponse None (Some
  "AppendBlobSealHeaders")); ("default", mkResponse (Some (simple false "StorageError" (TComposite
  "StorageError" None))) None)] true.

Definition blockBlobUploadOperationSpec : OperationSpec := mkSpec "PUT" (Some "{containerName}/{blob}")
  [BlobParameters.url; BlobParameters.containerName; BlobParameters.blob] [BlobParameters.timeout]
  [BlobParameters.transactionalContentMD5; BlobParameters.contentLength; BlobParameters.metadata;
  BlobParameters.tier0; BlobParameters.version; BlobParameters.requestId; BlobParameters.blobTagsString;
  BlobParameters.immutabilityPolicyExpiry; BlobParameters.immutabilityPolicyMode; BlobParameters.legalHold1;
  BlobParameters.transactionalContentCrc64; BlobParameters.blobType2; BlobParameters.blobContentType;
  BlobParameters.blobContentEncoding; BlobParameters.blobContentLanguage; BlobParameters.blobContentMD5;
  BlobParameters.blobCacheControl; BlobParameters.blobContentDisposition; BlobParameters.leaseId0;
  BlobParameters.encryptionKey; BlobParameters.encryptionKeySha256; BlobParameters.encryptionAlgorithm;
  BlobParameters.encryptionScope; BlobParameters.ifModifiedSince; BlobParameters.ifUnmodifiedSince;
  BlobParameters.ifMatch; BlobParameters.ifNoneMatch; BlobParameters.ifTags] (Some (mkRequestBody ["body"]
  (simple true "body" TStream))) (Some "application/octet-stream") [("201", mkResponse None (Some
  "BlockBlobUploadHeaders")); ("default", mkResponse (Some (simple false "StorageError" (TComposite
  "StorageError" None))) None)] true.

Definition blockBlobPutBlobFromUrlOperationSpec : OperationSpec := mkSpec "PUT" (Some "{containerName}/{blob}")
  [BlobParameters.url; BlobParameters.containerName; BlobParameters.blob] [BlobParameters.timeout]
  [BlobParameters.transactionalContentMD5; BlobParameters.contentLength; BlobParameters.metadata;
  BlobParameters.tier0; BlobParameters.version; BlobParameters.requestId; BlobParameters.sourceContentMD5;
  BlobParameters.blobTagsString; BlobParameters.copySource; BlobParameters.copySourceBlobProperties;
  BlobParameters.copySourceAuthorization; BlobParameters.copySourceTags; BlobParameters.blobType2;
  BlobParameters.blobContentType; BlobParameters.blobContentEncoding; BlobParameters.blobContentLanguage;
  BlobParameters.blobContentMD5; BlobParameters.blobCacheControl; BlobParameters.blobContentDisposition;
  BlobParameters.leaseId0; BlobParameters.encryptionKey; BlobParameters.encryptionKeySha256;
  BlobParameters.encryptionAlgorithm; BlobParameters.encryptionScope; BlobParameters.ifModifiedSince;
  BlobParameters.ifUnmodifiedSince; BlobParameters.ifMatch; BlobParameters.ifNoneMatch; BlobParameters.ifTags;
  BlobParameters.sourceIfModifiedSince; BlobParameters.sourceIfUnmodifiedSince; BlobParameters.sourceIfMatch;
  BlobParameters.sourceIfNoneMatch; BlobParameters.sourceIfTags] None None [("201", mkResponse None (Some
  "BlockBlobPutBlobFromUrlHeaders")); ("default", mkResponse (Some (simple false "StorageError" (TComposite
  "StorageError" None))) None)] true.

Definition blockBlobStageBlockOperationSpec : OperationSpec := mkSpec "PUT" (Some "{containerName}/{blob}")
  [BlobParameters.url; BlobParameters.containerName; BlobParameters.blob] [BlobParameters.blockId;
  BlobParameters.timeout; BlobParameters.comp23] [BlobParameters.contentLength;
  BlobParameters.transactionalContentMD5; BlobParameters.transactionalContentCrc64; BlobParameters.version;
  BlobParameters.requestId; BlobParameters.leaseId0; BlobParameters.encryptionKey;
  BlobParameters.encryptionKeySha256; BlobParameters.encryptionAlgorithm; BlobParameters.encryptionScope] (Some
  (mkRequestBody ["body"] (simple true "body" TStream))) (Some "application/octet-stream") [("201", mkResponse
  None (Some "BlockBlobStageBlockHeaders")); ("default", mkResponse (Some (simple false "StorageError"
  (TComposite "StorageError" None))) None)] true.

Definition blockBlobStageBlockFromURLOperationSpec : OperationSpec := mkSpec "PUT" (Some
  "{containerName}/{blob}") [BlobParameters.url; BlobParameters.containerName; BlobParameters.blob]
  [BlobParameters.blockId; BlobParameters.timeout; BlobParameters.comp23] [BlobParameters.contentLength;
  BlobParameters.sourceUrl; BlobParameters.sourceRange1; BlobParameters.sourceContentMD5;
  BlobParameters.sourceContentcrc64; BlobParameters.version; BlobParameters.requestId;
  BlobParameters.copySourceAuthorization; BlobParameters.encryptionKey; BlobParameters.encryptionKeySha256;
  BlobParameters.encryptionAlgorithm; BlobParameters.encryptionScope; BlobParameters.leaseId0;
  BlobParameters.sourceIfModifiedSince; BlobParameters.sourceIfUnmodifiedSince; BlobParameters.sourceIfMatch;
  BlobParameters.sourceIfNoneMatch] None None [("201", mkResponse None (Some
  "BlockBlobStageBlockFromURLHeaders")); ("default", mkResponse (Some (simple false "StorageError" (TComposite
  "StorageError" None))) None)] true.

Definition blockBlobCommitBlockListOperationSpec : OperationSpec := mkSpec "PUT" (Some "{containerName}/{blob}")
  [BlobParameters.url; BlobParameters.containerName; BlobParameters.blob] [BlobParameters.timeout;
  BlobParameters.comp24] [BlobParameters.transactionalContentMD5; BlobParameters.transactionalContentCrc64;
  BlobParameters.metadata; BlobParameters.tier0; BlobParameters.version; BlobParameters.requestId;
  BlobParameters.blobTagsString; BlobParameters.immutabilityPolicyExpiry; BlobParameters.immutabilityPolicyMode;
  BlobParameters.legalHold1; BlobParameters.blobCacheControl; BlobParameters.blobContentType;
  BlobParameters.blobContentEncoding; BlobParameters.blobContentLanguage; BlobParameters.blobContentMD5;
  BlobParameters.blobContentDisposition; BlobParameters.leaseId0; BlobParameters.encryptionKey;
  BlobParameters.encryptionKeySha256; BlobParameters.encryptionAlgorithm; BlobParameters.encryptionScope;
  BlobParameters.ifModifiedSince; BlobParameters.ifUnmodifiedSince; BlobParameters.ifMatch;
  BlobParameters.ifNoneMatch; BlobParameters.ifTags] (Some (mkRequestBody ["blocks"] (named "BlockList" true
  "BlockLookupList" (TComposite "BlockLookupList" None)))) (Some "application/xml; charset=utf-8") [("201",
  mkResponse None (Some "BlockBlobCommitBlockListHeaders")); ("default", mkResponse (Some (simple false
  "StorageError" (TComposite "StorageError" None))) None)] true.

Definition blockBlobGetBlockListOperationSpec : OperationSpec := mkSpec "GET" (Some "{containerName}/{blob}")
  [BlobParameters.url; BlobParameters.containerName; BlobParameters.blob] [BlobParameters.snapshot;
  BlobParameters.listType; BlobParameters.timeout; BlobParameters.comp24] [BlobParameters.version;
  BlobParameters.requestId; BlobParameters.leaseId0; BlobParameters.ifTags] None None [("200", mkResponse (Some
  (simple false "BlockList" (TComposite "BlockList" None))) (Some "BlockBlobGetBlockListHeaders")); ("default",
  mkResponse (Some (simple false "StorageError" (TComposite "StorageError" None))) None)] true.

Definition Specifications (o : Op.operation) : option OperationSpec :=
  match o with
  | Op.Service_SetProperties => Some serviceSetPropertiesOperationSpec
  | Op.Service_GetProperties => Some serviceGetPropertiesOperationSpec
  | Op.Service_GetStatistics => Some serviceGetStatisticsOperationSpec
  | Op.Service_ListContainersSegment => Some serviceListContainersSegmentOperationSpec
  | Op.Service_GetUserDelegationKey => Some serviceGetUserDelegationKeyOperationSpec
  | Op.Service_GetAccountInfo => Some serviceGetAccountInfoOperationSpec
  | Op.Service_GetAccountInfoWithHead => Some serviceGetAccountInfoWithHeadOperationSpec
  | Op.Service_SubmitBatch => Some serviceSubmitBatchOperationSpec
  | Op.Service_FilterBlobs => Some serviceFilterBlobsOperationSpec
  | Op.Container_Create => Some containerCreateOperationSpec
  | Op.Container_GetProperties => Some containerGetPropertiesOperationSpec
  | Op.Container_GetPropertiesWithHead => Some containerGetPropertiesWithHeadOperationSpec
  | Op.Container_Delete => Some containerDeleteOperationSpec
  | Op.Container_SetMetadata => Some containerSetMetadataOperationSpec
  | Op.Container_GetAccessPolicy => Some containerGetAccessPolicyOperationSpec
  | Op.Container_SetAccessPolicy => Some containerSetAccessPolicyOperationSpec
  | Op.Container_Restore => Some containerRestoreOperationSpec
  | Op.Container_SubmitBatch => Some containerSubmitBatchOperationSpec
  | Op.Container_FilterBlobs => Some containerFilterBlobsOperationSpec
  | Op.Container_AcquireLease => Some containerAcquireLeaseOperationSpec
  | Op.Container_ReleaseLease => Some containerReleaseLeaseOperationSpec
  | Op.Container_RenewLease => Some containerRenewLeaseOperationSpec
  | Op.Container_BreakLease => Some containerBreakLeaseOperationSpec
  | Op.Container_ChangeLease => Some containerChangeLeaseOperationSpec
  | Op.Container_ListBlobFlatSegment => Some containerListBlobFlatSegmentOperationSpec
  | Op.Container_ListBlobHierarchySegment => Some containerListBlobHierarchySegmentOperationSpec
  | Op.Container_GetAccountInfo => Some containerGetAccountInfoOperationSpec
  | Op.Container_GetAccountInfoWithHead => Some containerGetAccountInfoWithHeadOperationSpec
  | Op.Blob_Download => Some blobDownloadOperationSpec
  | Op.Blob_GetProperties => Some blobGetPropertiesOperationSpec
  | Op.Blob_Delete => Some blobDeleteOperationSpec
  | Op.Blob_Undelete => Some blobUndeleteOperationSpec
  | Op.Blob_SetExpiry => Some blobSetExpiryOperationSpec
  | Op.Blob_SetHTTPHeaders => Some blobSetHTTPHeadersOperationSpec
  | Op.Blob_SetImmutabilityPolicy => Some blobSetImmutabilityPolicyOperationSpec
  | Op.Blob_DeleteImmutabilityPolicy => Some blobDeleteImmutabilityPolicyOperationSpec
  | Op.Blob_SetLegalHold => Some blobSetLegalHoldOperationSpec
  | Op.Blob_SetMetadata => Some blobSetMetadataOperationSpec
  | Op.Blob_AcquireLease => Some blobAcquireLeaseOperationSpec
  | Op.Blob_ReleaseLease => Some blobReleaseLeaseOperationSpec
  | Op.Blob_RenewLease => Some blobRenewLeaseOperationSpec
  | Op.Blob_ChangeLease => Some blobChangeLeaseOperationSpec
  | Op.Blob_BreakLease => Some blobBreakLeaseOperationSpec
  | Op.Blob_CreateSnapshot => Some blobCreateSnapshotOperationSpec
  | Op.Blob_StartCopyFromURL => Some blobStartCopyFromURLOperationSpec
  | Op.Blob_CopyFromURL => Some blobCopyFromURLOperationSpec
  | Op.Blob_AbortCopyFromURL => Some blobAbortCopyFromURLOperationSpec
  | Op.Blob_SetTier => Some blobSetTierOperationSpec
  | Op.Blob_GetAccountInfo => Some blobGetAccountInfoOperationSpec
  | Op.Blob_GetAccountInfoWithHead => Some blobGetAccountInfoWithHeadOperationSpec
  | Op.Blob_Query => Some blobQueryOperationSpec
  | Op.Blob_GetTags => Some blobGetTagsOperationSpec
  | Op.Blob_SetTags => Some blobSetTagsOperationSpec
  | Op.PageBlob_Create => Some pageBlobCreateOperationSpec
  | Op.PageBlob_UploadPages => Some pageBlobUploadPagesOperationSpec
  | Op.PageBlob_ClearPages => Some pageBlobClearPagesOperationSpec
  | Op.PageBlob_UploadPagesFromURL => Some pageBlobUploadPagesFromURLOperationSpec
  | Op.PageBlob_GetPageRanges => Some pageBlobGetPageRangesOperationSpec
  | Op.PageBlob_GetPageRangesDiff => Some pageBlobGetPageRangesDiffOperationSpec
  | Op.PageBlob_Resize => Some pageBlobResizeOperationSpec
  | Op.PageBlob_UpdateSequenceNumber => Some pageBlobUpdateSequenceNumberOperationSpec
  | Op.PageBlob_CopyIncremental => Some pageBlobCopyIncrementalOperationSpec
  | Op.AppendBlob_Create => Some appendBlobCreateOperationSpec
  | Op.AppendBlob_AppendBlock => Some appendBlobAppendBlockOperationSpec
  | Op.AppendBlob_AppendBlockFromUrl => Some appendBlobAppendBlockFromUrlOperationSpec
  | Op.AppendBlob_Seal => Some appendBlobSealOperationSpec
  | Op.BlockBlob_Upload => Some blockBlobUploadOperationSpec
  | Op.BlockBlob_PutBlobFromUrl => Some blockBlobPutBlobFromUrlOperationSpec
  | Op.BlockBlob_StageBlock => Some blockBlobStageBlockOperationSpec
  | Op.BlockBlob_StageBlockFromURL => Some blockBlobStageBlockFromURLOperationSpec
  | Op.BlockBlob_CommitBlockList => Some blockBlobCommitBlockListOperationSpec
  | Op.BlockBlob_GetBlockList => Some blockBlobGetBlockListOperationSpec
  end.

(** The operations in the order of their numbers. *)
Definition Operation : list Op.operation :=
[Op.Service_SetProperties; Op.Service_GetProperties; Op.Service_GetStatistics; Op.Service_ListContainersSegment;
   Op.Service_GetUserDelegationKey; Op.Service_GetAccountInfo; Op.Service_GetAccountInfoWithHead;
   Op.Service_SubmitBatch; Op.Service_FilterBlobs; Op.Container_Create; Op.Container_GetProperties;
   Op.Container_GetPropertiesWithHead; Op.Container_Delete; Op.Container_SetMetadata;
   Op.Container_GetAccessPolicy; Op.Container_SetAccessPolicy; Op.Container_Restore; Op.Container_SubmitBatch;
   Op.Container_FilterBlobs; Op.Container_AcquireLease; Op.Container_ReleaseLease; Op.Container_RenewLease;
   Op.Container_BreakLease; Op.Container_ChangeLease; Op.Container_ListBlobFlatSegment;
   Op.Container_ListBlobHierarchySegment; Op.Container_GetAccountInfo; Op.Container_GetAccountInfoWithHead;
   Op.Blob_Download; Op.Blob_GetProperties; Op.Blob_Delete; Op.Blob_Undelete; Op.Blob_SetExpiry;
   Op.Blob_SetHTTPHeaders; Op.Blob_SetImmutabilityPolicy; Op.Blob_DeleteImmutabilityPolicy;
   Op.Blob_SetLegalHold; Op.Blob_SetMetadata; Op.Blob_AcquireLease; Op.Blob_ReleaseLease; Op.Blob_RenewLease;
   Op.Blob_ChangeLease; Op.Blob_BreakLease; Op.Blob_CreateSnapshot; Op.Blob_StartCopyFromURL;
   Op.Blob_CopyFromURL; Op.Blob_AbortCopyFromURL; Op.Blob_SetTier; Op.Blob_GetAccountInfo;
   Op.Blob_GetAccountInfoWithHead; Op.Blob_Query; Op.Blob_GetTags; Op.Blob_SetTags; Op.PageBlob_Create;
   Op.PageBlob_UploadPages; Op.PageBlob_ClearPages; Op.PageBlob_UploadPagesFromURL; Op.PageBlob_GetPageRanges;
   Op.PageBlob_GetPageRangesDiff; Op.PageBlob_Resize; Op.PageBlob_UpdateSequenceNumber;
   Op.PageBlob_CopyIncremental; Op.AppendBlob_Create; Op.AppendBlob_AppendBlock;
   Op.AppendBlob_AppendBlockFromUrl; Op.AppendBlob_Seal; Op.BlockBlob_Upload; Op.BlockBlob_PutBlobFromUrl;
   Op.BlockBlob_StageBlock; Op.BlockBlob_StageBlockFromURL; Op.BlockBlob_CommitBlockList;
   Op.BlockBlob_GetBlockList].
(** ** src/src/blob/generated/handlers/handlerMappers.ts *)

Definition getHandlerByOperation (o : Op.operation) : option IHandlerPath :=
  match o with
  | Op.Service_SetProperties => Some (mkHandlerPath ["storageServiceProperties"; "options"] "serviceHandler"
      "setProperties")
  | Op.Service_GetProperties => Some (mkHandlerPath ["options"] "serviceHandler" "getProperties")
  | Op.Service_GetStatistics => Some (mkHandlerPath ["options"] "serviceHandler" "getStatistics")
  | Op.Service_ListContainersSegment => Some (mkHandlerPath ["options"] "serviceHandler" "listContainersSegment")
  | Op.Service_GetUserDelegationKey => Some (mkHandlerPath ["keyInfo"; "options"] "serviceHandler"
      "getUserDelegationKey")
  | Op.Service_GetAccountInfo => Some (mkHandlerPath [] "serviceHandler" "getAccountInfo")
  | Op.Service_GetAccountInfoWithHead => Some (mkHandlerPath [] "serviceHandler" "getAccountInfo")
  | Op.Service_SubmitBatch => Some (mkHandlerPath ["body"; "contentLength"; "multipartContentType"; "options"]
      "serviceHandler" "submitBatch")
  | Op.Service_FilterBlobs => Some (mkHandlerPath ["options"] "serviceHandler" "filterBlobs")
  | Op.Container_Create => Some (mkHandlerPath ["options"] "containerHandler" "create")
  | Op.Container_GetProperties => Some (mkHandlerPath ["options"] "containerHandler" "getProperties")
  | Op.Container_GetPropertiesWithHead => Some (mkHandlerPath ["options"] "containerHandler" "getProperties")
  | Op.Container_Delete => Some (mkHandlerPath ["options"] "containerHandler" "delete")
  | Op.Container_SetMetadata => Some (mkHandlerPath ["options"] "containerHandler" "setMetadata")
  | Op.Container_GetAccessPolicy => Some (mkHandlerPath ["options"] "containerHandler" "getAccessPolicy")
  | Op.Container_SetAccessPolicy => Some (mkHandlerPath ["options"] "containerHandler" "setAccessPolicy")
  | Op.Container_Restore => Some (mkHandlerPath ["options"] "containerHandler" "restore")
  | Op.Container_SubmitBatch => Some (mkHandlerPath ["body"; "contentLength"; "multipartContentType"; "options"]
      "containerHandler" "submitBatch")
  | Op.Container_FilterBlobs => Some (mkHandlerPath ["options"] "containerHandler" "filterBlobs")
  | Op.Container_AcquireLease => Some (mkHandlerPath ["options"] "containerHandler" "acquireLease")
  | Op.Container_ReleaseLease => Some (mkHandlerPath ["leaseId"; "options"] "containerHandler" "releaseLease")
  | Op.Container_RenewLease => Some (mkHandlerPath ["leaseId"; "options"] "containerHandler" "renewLease")
  | Op.Container_BreakLease => Some (mkHandlerPath ["options"] "containerHandler" "breakLease")
  | Op.Container_ChangeLease => Some (mkHandlerPath ["leaseId"; "proposedLeaseId"; "options"] "containerHandler"
      "changeLease")
  | Op.Container_ListBlobFlatSegment => Some (mkHandlerPath ["options"] "containerHandler" "listBlobFlatSegment")
  | Op.Container_ListBlobHierarchySegment => Some (mkHandlerPath ["delimiter"; "options"] "containerHandler"
      "listBlobHierarchySegment")
  | Op.Container_GetAccountInfo => Some (mkHandlerPath [] "containerHandler" "getAccountInfo")
  | Op.Container_GetAccountInfoWithHead => Some (mkHandlerPath [] "containerHandler" "getAccountInfo")
  | Op.Blob_Download => Some (mkHandlerPath ["options"] "blobHandler" "download")
  | Op.Blob_GetProperties => Some (mkHandlerPath ["options"] "blobHandler" "getProperties")
  | Op.Blob_Delete => Some (mkHandlerPath ["options"] "blobHandler" "delete")
  | Op.Blob_Undelete => Some (mkHandlerPath ["options"] "blobHandler" "undelete")
  | Op.Blob_SetExpiry => Some (mkHandlerPath ["expiryOptions"; "options"] "blobHandler" "setExpiry")
  | Op.Blob_SetHTTPHeaders => Some (mkHandlerPath ["options"] "blobHandler" "setHTTPHeaders")
  | Op.Blob_SetImmutabilityPolicy => Some (mkHandlerPath ["options"] "blobHandler" "setImmutabilityPolicy")
  | Op.Blob_DeleteImmutabilityPolicy => Some (mkHandlerPath ["options"] "blobHandler" "deleteImmutabilityPolicy")
  | Op.Blob_SetLegalHold => Some (mkHandlerPath ["legalHold"; "options"] "blobHandler" "setLegalHold")
  | Op.Blob_SetMetadata => Some (mkHandlerPath ["options"] "blobHandler" "setMetadata")
  | Op.Blob_AcquireLease => Some (mkHandlerPath ["options"] "blobHandler" "acquireLease")
  | Op.Blob_ReleaseLease => Some (mkHandlerPath ["leaseId"; "options"] "blobHandler" "releaseLease")
  | Op.Blob_RenewLease => Some (mkHandlerPath ["leaseId"; "options"] "blobHandler" "renewLease")
  | Op.Blob_ChangeLease => Some (mkHandlerPath ["leaseId"; "proposedLeaseId"; "options"] "blobHandler"
      "changeLease")
  | Op.Blob_BreakLease => Some (mkHandlerPath ["options"] "blobHandler" "breakLease")
  | Op.Blob_CreateSnapshot => Some (mkHandlerPath ["options"] "blobHandler" "createSnapshot")
  | Op.Blob_StartCopyFromURL => Some (mkHandlerPath ["copySource"; "options"] "blobHandler" "startCopyFromURL")
  | Op.Blob_CopyFromURL => Some (mkHandlerPath ["copySource"; "options"] "blobHandler" "copyFromURL")
  | Op.Blob_AbortCopyFromURL => Some (mkHandlerPath ["copyId"; "options"] "blobHandler" "abortCopyFromURL")
  | Op.Blob_SetTier => Some (mkHandlerPath ["tier"; "options"] "blobHandler" "setTier")
  | Op.Blob_GetAccountInfo => Some (mkHandlerPath [] "blobHandler" "getAccountInfo")
  | Op.Blob_GetAccountInfoWithHead => Some (mkHandlerPath [] "blobHandler" "getAccountInfo")
  | Op.Blob_Query => Some (mkHandlerPath ["options"] "blobHandler" "query")
  | Op.Blob_GetTags => Some (mkHandlerPath ["options"] "blobHandler" "getTags")
  | Op.Blob_SetTags => Some (mkHandlerPath ["options"] "blobHandler" "setTags")
  | Op.PageBlob_Create => Some (mkHandlerPath ["contentLength"; "blobContentLength"; "options"] "pageBlobHandler"
      "create")
  | Op.PageBlob_UploadPages => Some (mkHandlerPath ["body"; "contentLength"; "options"] "pageBlobHandler"
      "uploadPages")
  | Op.PageBlob_ClearPages => Some (mkHandlerPath ["contentLength"; "options"] "pageBlobHandler" "clearPages")
  | Op.PageBlob_UploadPagesFromURL => Some (mkHandlerPath ["sourceUrl"; "sourceRange"; "contentLength"; "range";
      "options"] "pageBlobHandler" "uploadPagesFromURL")
  | Op.PageBlob_GetPageRanges => Some (mkHandlerPath ["options"] "pageBlobHandler" "getPageRanges")
  | Op.PageBlob_GetPageRangesDiff => Some (mkHandlerPath ["options"] "pageBlobHandler" "getPageRangesDiff")
  | Op.PageBlob_Resize => Some (mkHandlerPath ["blobContentLength"; "options"] "pageBlobHandler" "resize")
  | Op.PageBlob_UpdateSequenceNumber => Some (mkHandlerPath ["sequenceNumberAction"; "options"] "pageBlobHandler"
      "updateSequenceNumber")
  | Op.PageBlob_CopyIncremental => Some (mkHandlerPath ["copySource"; "options"] "pageBlobHandler"
      "copyIncremental")
  | Op.AppendBlob_Create => Some (mkHandlerPath ["contentLength"; "options"] "appendBlobHandler" "create")
  | Op.AppendBlob_AppendBlock => Some (mkHandlerPath ["body"; "contentLength"; "options"] "appendBlobHandler"
      "appendBlock")
  | Op.AppendBlob_AppendBlockFromUrl => Some (mkHandlerPath ["sourceUrl"; "contentLength"; "options"]
      "appendBlobHandler" "appendBlockFromUrl")
  | Op.AppendBlob_Seal => Some (mkHandlerPath ["options"] "appendBlobHandler" "seal")
  | Op.BlockBlob_Upload => Some (mkHandlerPath ["body"; "contentLength"; "options"] "blockBlobHandler" "upload")
  | Op.BlockBlob_PutBlobFromUrl => Some (mkHandlerPath ["contentLength"; "copySource"; "options"]
      "blockBlobHandler" "putBlobFromUrl")
  | Op.BlockBlob_StageBlock => Some (mkHandlerPath ["blockId"; "contentLength"; "body"; "options"]
      "blockBlobHandler" "stageBlock")
  | Op.BlockBlob_StageBlockFromURL => Some (mkHandlerPath ["blockId"; "contentLength"; "sourceUrl"; "options"]
      "blockBlobHandler" "stageBlockFromURL")
  | Op.BlockBlob_CommitBlockList => Some (mkHandlerPath ["blocks"; "options"] "blockBlobHandler"
      "commitBlockList")
  | Op.BlockBlob_GetBlockList => Some (mkHandlerPath ["options"] "blockBlobHandler" "getBlockList")
  end.
