(* ===== verification/QueueSpecifications.v ===== *)
(** * QueueSpecifications: the requests of the queue service

    src/src/queue/generated/artifacts: the operations, their parameters and their
    specifications. Mappers of models are named by their class. *)

From S2P Require Import Prelude Protocol.

Open Scope string_scope.

(** ** src/src/queue/generated/artifacts/parameters.ts *)

Module QueueParameters.
Definition comp0 : OperationParameter := mkParameter ["comp"] (mkMapper true true "comp" (Some (CString
  "properties")) TString None [] None None false false) None.
Definition comp1 : OperationParameter := mkParameter ["comp"] (mkMapper true true "comp" (Some (CString
  "stats")) TString None [] None None false false) None.
Definition comp2 : OperationParameter := mkParameter ["comp"] (mkMapper true true "comp" (Some (CString "list"))
  TString None [] None None false false) None.
Definition comp3 : OperationParameter := mkParameter ["comp"] (mkMapper true true "comp" (Some (CString
  "metadata")) TString None [] None None false false) None.
Definition comp4 : OperationParameter := mkParameter ["comp"] (mkMapper true true "comp" (Some (CString "acl"))
  TString None [] None None false false) None.
Definition include : OperationParameter := mkParameter ["options"; "include"] (simple false "include" (TSequence
  (TEnum ["metadata"]))) (Some ",").
Definition marker : OperationParameter := mkParameter ["options"; "marker"] (simple false "marker" TString)
  None.
Definition maxresults : OperationParameter := mkParameter ["options"; "maxresults"] (mkMapper false false
  "maxresults" None TNumber None [("InclusiveMinimum", "1")] None None false false) None.
Definition messageTimeToLive : OperationParameter := mkParameter ["options"; "messageTimeToLive"] (mkMapper
  false false "messagettl" None TNumber None [("InclusiveMinimum", "-1")] None None false false) None.
Definition metadata : OperationParameter := mkParameter ["options"; "metadata"] (mkMapper false false
  "x-ms-meta" None (TDictionary TString) (Some "x-ms-meta-") [] None None false false) None.
Definition numberOfMessages : OperationParameter := mkParameter ["options"; "numberOfMessages"] (mkMapper false
  false "numofmessages" None TNumber None [("InclusiveMinimum", "1")] None None false false) None.
Definition peekonly : OperationParameter := mkParameter ["peekonly"] (mkMapper true true "peekonly" (Some
  (CString "true")) TString None [] None None false false) None.
Definition popReceipt : OperationParameter := mkParameter ["popReceipt"] (simple true "popreceipt" TString)
  None.
Definition prefix : OperationParameter := mkParameter ["options"; "prefix"] (simple false "prefix" TString)
  None.
Definition requestId : OperationParameter := mkParameter ["options"; "requestId"] (simple false
  "x-ms-client-request-id" TString) None.
Definition restype : OperationParameter := mkParameter ["restype"] (mkMapper true true "restype" (Some (CString
  "service")) TString None [] None None false false) None.
Definition timeout : OperationParameter := mkParameter ["options"; "timeout"] (mkMapper false false "timeout"
  None TNumber None [("InclusiveMinimum", "0")] None None false false) None.
Definition url : OperationParameter := mkParameter ["url"] (mkMapper true false "url" (Some (CString ""))
  TString None [] None None false false) None.
Definition version : OperationParameter := mkParameter ["version"] (simple false "x-ms-version" TString) None.
Definition visibilitytimeout0 : OperationParameter := mkParameter ["options"; "visibilitytimeout"] (simple false
  "visibilitytimeout" TNumber) None.
Definition visibilitytimeout1 : OperationParameter := mkParameter ["visibilitytimeout"] (simple true
  "visibilitytimeout" TNumber) None.
End QueueParameters.

(** ** src/src/queue/generated/artifacts/operation.ts *)

Module QueueOp.
Inductive operation :=
| Service_SetProperties | Service_GetProperties | Service_GetStatistics | Service_ListQueuesSegment |
  Queue_Create | Queue_Delete | Queue_GetProperties | Queue_GetPropertiesWithHead | Queue_SetMetadata |
  Queue_GetAccessPolicy | Queue_GetAccessPolicyWithHead | Queue_SetAccessPolicy | Messages_Dequeue |
  Messages_Clear | Messages_Enqueue | Messages_Peek | MessageId_Update | MessageId_Delete.
End QueueOp.

#[export] Instance queue_operation_eq_dec : EqDecision QueueOp.operation.
Proof. solve_decision. Defined.

(** ** src/src/queue/generated/artifacts/specifications.ts *)

Definition serviceSetPropertiesOperationSpec : OperationSpec := mkSpec "PUT" None [QueueParameters.url]
  [QueueParameters.timeout; QueueParameters.restype; QueueParameters.comp0] [QueueParameters.version;
  QueueParameters.requestId] (Some (mkRequestBody ["storageServiceProperties"] (simple true
  "StorageServiceProperties" (TComposite "StorageServiceProperties" None)))) (Some
  "application/xml; charset=utf-8") [("202", mkResponse None (Some "ServiceSetPropertiesHeaders")); ("default",
  mkResponse (Some (simple false "StorageError" (TComposite "StorageError" None))) None)] true.

Definition serviceGetPropertiesOperationSpec : OperationSpec := mkSpec "GET" None [QueueParameters.url]
  [QueueParameters.timeout; QueueParameters.restype; QueueParameters.comp0] [QueueParameters.version;
  QueueParameters.requestId] None None [("200", mkResponse (Some (simple false "StorageServiceProperties"
  (TComposite "StorageServiceProperties" None))) (Some "ServiceGetPropertiesHeaders")); ("default", mkResponse
  (Some (simple false "StorageError" (TComposite "StorageError" None))) None)] true.

Definition serviceGetStatisticsOperationSpec : OperationSpec := mkSpec "GET" None [QueueParameters.url]
  [QueueParameters.timeout; QueueParameters.restype; QueueParameters.comp1] [QueueParameters.version;
  QueueParameters.requestId] None None [("200", mkResponse (Some (simple false "StorageServiceStats" (TComposite
  "StorageServiceStats" None))) (Some "ServiceGetStatisticsHeaders")); ("default", mkResponse (Some (simple
  false "StorageError" (TComposite "StorageError" None))) None)] true.

Definition serviceListQueuesSegmentOperationSpec : OperationSpec := mkSpec "GET" None [QueueParameters.url]
  [QueueParameters.prefix; QueueParameters.marker; QueueParameters.maxresults; QueueParameters.include;
  QueueParameters.timeout; QueueParameters.comp2] [QueueParameters.version; QueueParameters.requestId] None None
  [("200", mkResponse (Some (named "EnumerationResults" false "ListQueuesSegmentResponse" (TComposite
  "ListQueuesSegmentResponse" None))) (Some "ServiceListQueuesSegmentHeaders")); ("default", mkResponse (Some
  (simple false "StorageError" (TComposite "StorageError" None))) None)] true.

Definition queueCreateOperationSpec : OperationSpec := mkSpec "PUT" (Some "{queueName}") [QueueParameters.url]
  [QueueParameters.timeout] [QueueParameters.metadata; QueueParameters.version; QueueParameters.requestId] None
  None [("201", mkResponse None (Some "QueueCreateHeaders")); ("204", mkResponse None (Some
  "QueueCreateHeaders")); ("default", mkResponse (Some (simple false "StorageError" (TComposite "StorageError"
  None))) None)] true.

Definition queueDeleteOperationSpec : OperationSpec := mkSpec "DELETE" (Some "{queueName}")
  [QueueParameters.url] [QueueParameters.timeout] [QueueParameters.version; QueueParameters.requestId] None None
  [("204", mkResponse None (Some "QueueDeleteHeaders")); ("default", mkResponse (Some (simple false
  "StorageError" (TComposite "StorageError" None))) None)] true.

Definition queueGetPropertiesOperationSpec : OperationSpec := mkSpec "GET" (Some "{queueName}")
  [QueueParameters.url] [QueueParameters.timeout; QueueParameters.comp3] [QueueParameters.version;
  QueueParameters.requestId] None None [("200", mkResponse None (Some "QueueGetPropertiesHeaders")); ("default",
  mkResponse (Some (simple false "StorageError" (TComposite "StorageError" None))) None)] true.

Definition queueGetPropertiesWithHeadOperationSpec : OperationSpec := mkSpec "HEAD" (Some "{queueName}")
  [QueueParameters.url] [QueueParameters.timeout; QueueParameters.comp3] [QueueParameters.version;
  QueueParameters.requestId] None None [("200", mkResponse None (Some "QueueGetPropertiesWithHeadHeaders"));
  ("default", mkResponse (Some (simple false "StorageError" (TComposite "StorageError" None))) None)] true.

Definition queueSetMetadataOperationSpec : OperationSpec := mkSpec "PUT" (Some "{queueName}")
  [QueueParameters.url] [QueueParameters.timeout; QueueParameters.comp3] [QueueParameters.metadata;
  QueueParameters.version; QueueParameters.requestId] None None [("204", mkResponse None (Some
  "QueueSetMetadataHeaders")); ("default", mkResponse (Some (simple false "StorageError" (TComposite
  "StorageError" None))) None)] true.

Definition queueGetAccessPolicyOperationSpec : OperationSpec := mkSpec "GET" (Some "{queueName}")
  [QueueParameters.url] [QueueParameters.timeout; QueueParameters.comp4] [QueueParameters.version;
  QueueParameters.requestId] None None [("200", mkResponse (Some (mkMapper false false "SignedIdentifiers" None
  (TSequence (TComposite "SignedIdentifier" None)) None [] (Some "SignedIdentifier") None false false)) (Some
  "QueueGetAccessPolicyHeaders")); ("default", mkResponse (Some (simple false "StorageError" (TComposite
  "StorageError" None))) None)] true.

Definition queueGetAccessPolicyWithHeadOperationSpec : OperationSpec := mkSpec "HEAD" (Some "{queueName}")
  [QueueParameters.url] [QueueParameters.timeout; QueueParameters.comp4] [QueueParameters.version;
  QueueParameters.requestId] None None [("200", mkResponse (Some (mkMapper false false "SignedIdentifiers" None
  (TSequence (TComposite "SignedIdentifier" None)) None [] (Some "SignedIdentifier") None false false)) (Some
  "QueueGetAccessPolicyWithHeadHeaders")); ("default", mkResponse (Some (simple false "StorageError" (TComposite
  "StorageError" None))) None)] true.

Definition queueSetAccessPolicyOperationSpec : OperationSpec := mkSpec "PUT" (Some "{queueName}")
  [QueueParameters.url] [QueueParameters.timeout; QueueParameters.comp4] [QueueParameters.version;
  QueueParameters.requestId] (Some (mkRequestBody ["options"; "queueAcl"] (mkMapper false false "queueAcl" None
  (TSequence (TComposite "SignedIdentifier" None)) None [] (Some "SignedIdentifier") (Some "SignedIdentifiers")
  false false))) (Some "application/xml; charset=utf-8") [("204", mkResponse None (Some
  "QueueSetAccessPolicyHeaders")); ("default", mkResponse (Some (simple false "StorageError" (TComposite
  "StorageError" None))) None)] true.

Definition messagesDequeueOperationSpec : OperationSpec := mkSpec "GET" (Some "{queueName}/messages")
  [QueueParameters.url] [QueueParameters.numberOfMessages; QueueParameters.visibilitytimeout0;
  QueueParameters.timeout] [QueueParameters.version; QueueParameters.requestId] None None [("200", mkResponse
  (Some (mkMapper false false "QueueMessagesList" None (TSequence (TComposite "DequeuedMessageItem" None)) None
  [] (Some "QueueMessage") None false false)) (Some "MessagesDequeueHeaders")); ("default", mkResponse (Some
  (simple false "StorageError" (TComposite "StorageError" None))) None)] true.

Definition messagesClearOperationSpec : OperationSpec := mkSpec "DELETE" (Some "{queueName}/messages")
  [QueueParameters.url] [QueueParameters.timeout] [QueueParameters.version; QueueParameters.requestId] None None
  [("204", mkResponse None (Some "MessagesClearHeaders")); ("default", mkResponse (Some (simple false
  "StorageError" (TComposite "StorageError" None))) None)] true.

Definition messagesEnqueueOperationSpec : OperationSpec := mkSpec "POST" (Some "{queueName}/messages")
  [QueueParameters.url] [QueueParameters.visibilitytimeout0; QueueParameters.messageTimeToLive;
  QueueParameters.timeout] [QueueParameters.version; QueueParameters.requestId] (Some (mkRequestBody
  ["queueMessage"] (simple true "QueueMessage" (TComposite "QueueMessage" None)))) (Some
  "application/xml; charset=utf-8") [("201", mkResponse (Some (mkMapper false false "QueueMessagesList" None
  (TSequence (TComposite "EnqueuedMessage" None)) None [] (Some "QueueMessage") None false false)) (Some
  "MessagesEnqueueHeaders")); ("default", mkResponse (Some (simple false "StorageError" (TComposite
  "StorageError" None))) None)] true.

Definition messagesPeekOperationSpec : OperationSpec := mkSpec "GET" (Some "{queueName}/messages")
  [QueueParameters.url] [QueueParameters.numberOfMessages; QueueParameters.timeout; QueueParameters.peekonly]
  [QueueParameters.version; QueueParameters.requestId] None None [("200", mkResponse (Some (mkMapper false false
  "QueueMessagesList" None (TSequence (TComposite "PeekedMessageItem" None)) None [] (Some "QueueMessage") None
  false false)) (Some "MessagesPeekHeaders")); ("default", mkResponse (Some (simple false "StorageError"
  (TComposite "StorageError" None))) None)] true.

Definition messageIdUpdateOperationSpec : OperationSpec := mkSpec "PUT" (Some
  "{queueName}/messages/{messageid}") [QueueParameters.url] [QueueParameters.popReceipt;
  QueueParameters.visibilitytimeout1; QueueParameters.timeout] [QueueParameters.version;
  QueueParameters.requestId] (Some (mkRequestBody ["queueMessage"] (simple true "QueueMessage" (TComposite
  "QueueMessage" None)))) (Some "application/xml; charset=utf-8") [("204", mkResponse None (Some
  "MessageIdUpdateHeaders")); ("default", mkResponse (Some (simple false "StorageError" (TComposite
  "StorageError" None))) None)] true.

Definition messageIdDeleteOperationSpec : OperationSpec := mkSpec "DELETE" (Some
  "{queueName}/messages/{messageid}") [QueueParameters.url] [QueueParameters.popReceipt;
  QueueParameters.timeout] [QueueParameters.version; QueueParameters.requestId] None None [("204", mkResponse
  None (Some "MessageIdDeleteHeaders")); ("default", mkResponse (Some (simple false "StorageError" (TComposite
  "StorageError" None))) None)] true.

Definition Specifications (o : QueueOp.operation) : option OperationSpec :=
  match o with
  | QueueOp.Service_SetProperties => Some serviceSetPropertiesOperationSpec
  | QueueOp.Service_GetProperties => Some serviceGetPropertiesOperationSpec
  | QueueOp.Service_GetStatistics => Some serviceGetStatisticsOperationSpec
  | QueueOp.Service_ListQueuesSegment => Some serviceListQueuesSegmentOperationSpec
  | QueueOp.Queue_Create => Some queueCreateOperationSpec
  | QueueOp.Queue_Delete => Some queueDeleteOperationSpec
  | QueueOp.Queue_GetProperties => Some queueGetPropertiesOperationSpec
  | QueueOp.Queue_GetPropertiesWithHead => Some queueGetPropertiesWithHeadOperationSpec
  | QueueOp.Queue_SetMetadata => Some queueSetMetadataOperationSpec
  | QueueOp.Queue_GetAccessPolicy => Some queueGetAccessPolicyOperationSpec
  | QueueOp.Queue_GetAccessPolicyWithHead => Some queueGetAccessPolicyWithHeadOperationSpec
  | QueueOp.Queue_SetAccessPolicy => Some queueSetAccessPolicyOperationSpec
  | QueueOp.Messages_Dequeue => Some messagesDequeueOperationSpec
  | QueueOp.Messages_Clear => Some messagesClearOperationSpec
  | QueueOp.Messages_Enqueue => Some messagesEnqueueOperationSpec
  | QueueOp.Messages_Peek => Some messagesPeekOperationSpec
  | QueueOp.MessageId_Update => Some messageIdUpdateOperationSpec
  | QueueOp.MessageId_Delete => Some messageIdDeleteOperationSpec
  end.

(** The operations in the order of their numbers. *)
Definition Operation : list QueueOp.operation :=
[QueueOp.Service_SetProperties; QueueOp.Service_GetProperties; QueueOp.Service_GetStatistics;
   QueueOp.Service_ListQueuesSegment; QueueOp.Queue_Create; QueueOp.Queue_Delete; QueueOp.Queue_GetProperties;
   QueueOp.Queue_GetPropertiesWithHead; QueueOp.Queue_SetMetadata; QueueOp.Queue_GetAccessPolicy;
   QueueOp.Queue_GetAccessPolicyWithHead; QueueOp.Queue_SetAccessPolicy; QueueOp.Messages_Dequeue;
   QueueOp.Messages_Clear; QueueOp.Messages_Enqueue; QueueOp.Messages_Peek; QueueOp.MessageId_Update;
   QueueOp.MessageId_Delete].
(** ** src/src/queue/generated/handlers/handlerMappers.ts *)

Definition getHandlerByOperation (o : QueueOp.operation) : option IHandlerPath :=
  match o with
  | QueueOp.Service_SetProperties => Some (mkHandlerPath ["storageServiceProperties"; "options"] "serviceHandler"
      "setProperties")
  | QueueOp.Service_GetProperties => Some (mkHandlerPath ["options"] "serviceHandler" "getProperties")
  | QueueOp.Service_GetStatistics => Some (mkHandlerPath ["options"] "serviceHandler" "getStatistics")
  | QueueOp.Service_ListQueuesSegment => Some (mkHandlerPath ["options"] "serviceHandler" "listQueuesSegment")
  | QueueOp.Queue_Create => Some (mkHandlerPath ["options"] "queueHandler" "create")
  | QueueOp.Queue_Delete => Some (mkHandlerPath ["options"] "queueHandler" "delete")
  | QueueOp.Queue_GetProperties => Some (mkHandlerPath ["options"] "queueHandler" "getProperties")
  | QueueOp.Queue_GetPropertiesWithHead => Some (mkHandlerPath ["options"] "queueHandler" "getPropertiesWithHead")
  | QueueOp.Queue_SetMetadata => Some (mkHandlerPath ["options"] "queueHandler" "setMetadata")
  | QueueOp.Queue_GetAccessPolicy => Some (mkHandlerPath ["options"] "queueHandler" "getAccessPolicy")
  | QueueOp.Queue_GetAccessPolicyWithHead => Some (mkHandlerPath ["options"] "queueHandler"
      "getAccessPolicyWithHead")
  | QueueOp.Queue_SetAccessPolicy => Some (mkHandlerPath ["options"] "queueHandler" "setAccessPolicy")
  | QueueOp.Messages_Dequeue => Some (mkHandlerPath ["options"] "messagesHandler" "dequeue")
  | QueueOp.Messages_Clear => Some (mkHandlerPath ["options"] "messagesHandler" "clear")
  | QueueOp.Messages_Enqueue => Some (mkHandlerPath ["queueMessage"; "options"] "messagesHandler" "enqueue")
  | QueueOp.Messages_Peek => Some (mkHandlerPath ["options"] "messagesHandler" "peek")
  | QueueOp.MessageId_Update => Some (mkHandlerPath ["queueMessage"; "popReceipt"; "visibilitytimeout"; "options"]
      "messageIdHandler" "update")
  | QueueOp.MessageId_Delete => Some (mkHandlerPath ["popReceipt"; "options"] "messageIdHandler" "delete")
  end.
