(* ===== verification/TableSpecifications.v ===== *)
(** * TableSpecifications: the requests of the table service

    src/src/table/generated/artifacts: the operations, their parameters and their
    specifications. Mappers of models are named by their class. *)

From S2P Require Import Prelude Protocol.

Open Scope string_scope.

(** ** src/src/table/generated/artifacts/parameters.ts *)

Module TableParameters.
Definition comp0 : OperationParameter := mkParameter ["comp"] (mkMapper true true "comp" (Some (CString "acl"))
  TString None [] None None false false) None.
Definition comp1 : OperationParameter := mkParameter ["comp"] (mkMapper true true "comp" (Some (CString
  "properties")) TString None [] None None false false) None.
Definition comp2 : OperationParameter := mkParameter ["comp"] (mkMapper true true "comp" (Some (CString
  "stats")) TString None [] None None false false) None.
Definition contentLength : OperationParameter := mkParameter ["contentLength"] (simple true "Content-Length"
  TNumber) None.
Definition dataServiceVersion : OperationParameter := mkParameter ["options"; "dataServiceVersion"] (simple
  false "DataServiceVersion" TString) None.
Definition filter : OperationParameter := mkParameter ["options"; "queryOptions"; "filter"] (simple false
  "$filter" TString) None.
Definition format : OperationParameter := mkParameter ["options"; "queryOptions"; "format"] (simple false
  "$format" TString) None.
Definition ifMatch0 : OperationParameter := mkParameter ["options"; "ifMatch"] (simple false "If-Match" TString)
  None.
Definition ifMatch1 : OperationParameter := mkParameter ["ifMatch"] (simple true "If-Match" TString) None.
Definition multipartContentType : OperationParameter := mkParameter ["multipartContentType"] (simple true
  "Content-Type" TString) None.
Definition nextPartitionKey : OperationParameter := mkParameter ["options"; "nextPartitionKey"] (simple false
  "NextPartitionKey" TString) None.
Definition nextRowKey : OperationParameter := mkParameter ["options"; "nextRowKey"] (simple false "NextRowKey"
  TString) None.
Definition nextTableName : OperationParameter := mkParameter ["options"; "nextTableName"] (simple false
  "NextTableName" TString) None.
Definition partitionKey : OperationParameter := mkParameter ["partitionKey"] (simple true "partitionKey"
  TString) None.
Definition requestId : OperationParameter := mkParameter ["options"; "requestId"] (simple false
  "x-ms-client-request-id" TString) None.
Definition responsePreference : OperationParameter := mkParameter ["options"; "responsePreference"] (simple
  false "Prefer" TString) None.
Definition restype : OperationParameter := mkParameter ["restype"] (mkMapper true true "restype" (Some (CString
  "service")) TString None [] None None false false) None.
Definition rowKey : OperationParameter := mkParameter ["rowKey"] (simple true "rowKey" TString) None.
Definition select : OperationParameter := mkParameter ["options"; "queryOptions"; "select"] (simple false
  "$select" TString) None.
Definition table : OperationParameter := mkParameter ["table"] (simple true "table" TString) None.
Definition timeout : OperationParameter := mkParameter ["options"; "timeout"] (mkMapper false false "timeout"
  None TNumber None [("InclusiveMinimum", "0")] None None false false) None.
Definition top : OperationParameter := mkParameter ["options"; "queryOptions"; "top"] (mkMapper false false
  "$top" None TNumber None [("InclusiveMinimum", "0")] None None false false) None.
Definition url : OperationParameter := mkParameter ["url"] (mkMapper true false "url" (Some (CString ""))
  TString None [] None None false false) None.
Definition version : OperationParameter := mkParameter ["version"] (simple false "x-ms-version" TString) None.
End TableParameters.

(** ** src/src/table/generated/artifacts/operation.ts *)

Module TableOp.
Inductive operation :=
| Table_Query | Table_Create | Table_Batch | Table_Delete | Table_QueryEntities |
  Table_QueryEntitiesWithPartitionAndRowKey | Table_UpdateEntity | Table_MergeEntity | Table_DeleteEntity |
  Table_MergeEntityWithMerge | Table_InsertEntity | Table_GetAccessPolicy | Table_SetAccessPolicy |
  Service_SetProperties | Service_GetProperties | Service_GetStatistics.
End TableOp.

#[export] Instance table_operation_eq_dec : EqDecision TableOp.operation.
Proof. solve_decision. Defined.

(** ** src/src/table/generated/artifacts/specifications.ts *)

Definition tableQueryOperationSpec : OperationSpec := mkSpec "GET" (Some "Tables") [TableParameters.url]
  [TableParameters.nextTableName; TableParameters.format; TableParameters.top; TableParameters.select;
  TableParameters.filter] [TableParameters.version; TableParameters.requestId;
  TableParameters.dataServiceVersion] None None [("200", mkResponse (Some (simple false "TableQueryResponse"
  (TComposite "TableQueryResponse" None))) (Some "TableQueryHeaders")); ("default", mkResponse None None)] true.

Definition tableCreateOperationSpec : OperationSpec := mkSpec "POST" (Some "Tables") [TableParameters.url]
  [TableParameters.format] [TableParameters.version; TableParameters.requestId;
  TableParameters.dataServiceVersion; TableParameters.responsePreference] (Some (mkRequestBody
  ["tableProperties"] (simple true "TableProperties" (TComposite "TableProperties" None)))) (Some
  "application/json;odata=nometadata; charset=utf-8") [("201", mkResponse (Some (simple false "TableResponse"
  (TComposite "TableResponse" None))) (Some "TableCreateHeaders")); ("204", mkResponse None (Some
  "TableCreateHeaders")); ("default", mkResponse (Some (simple false "TableServiceError" (TComposite
  "TableServiceError" None))) None)] true.

Definition tableBatchOperationSpec : OperationSpec := mkSpec "POST" (Some "$batch") [TableParameters.url] []
  [TableParameters.version; TableParameters.requestId; TableParameters.dataServiceVersion;
  TableParameters.multipartContentType; TableParameters.contentLength] (Some (mkRequestBody ["body"] (simple
  true "body" TStream))) (Some "application/json;odata=nometadata; charset=utf-8") [("202", mkResponse (Some
  (simple false "Stream" TStream)) (Some "TableBatchHeaders")); ("default", mkResponse (Some (simple false
  "TableServiceError" (TComposite "TableServiceError" None))) None)] true.

Definition tableDeleteOperationSpec : OperationSpec := mkSpec "DELETE" (Some "Tables('{table}')")
  [TableParameters.url; TableParameters.table] [] [TableParameters.version; TableParameters.requestId] None None
  [("204", mkResponse None (Some "TableDeleteHeaders")); ("default", mkResponse (Some (simple false
  "TableServiceError" (TComposite "TableServiceError" None))) None)] true.

Definition tableQueryEntitiesOperationSpec : OperationSpec := mkSpec "GET" (Some "{table}()")
  [TableParameters.url; TableParameters.table] [TableParameters.timeout; TableParameters.nextPartitionKey;
  TableParameters.nextRowKey; TableParameters.format; TableParameters.top; TableParameters.select;
  TableParameters.filter] [TableParameters.version; TableParameters.requestId;
  TableParameters.dataServiceVersion] None None [("200", mkResponse (Some (simple false "Stream" TStream)) (Some
  "TableQueryEntitiesHeaders")); ("default", mkResponse (Some (simple false "TableServiceError" (TComposite
  "TableServiceError" None))) None)] true.

Definition tableQueryEntitiesWithPartitionAndRowKeyOperationSpec : OperationSpec := mkSpec "GET" (Some
  "{table}(PartitionKey='{partitionKey}',RowKey='{rowKey}')") [TableParameters.url; TableParameters.table;
  TableParameters.partitionKey; TableParameters.rowKey] [TableParameters.timeout; TableParameters.format;
  TableParameters.select; TableParameters.filter] [TableParameters.version; TableParameters.requestId;
  TableParameters.dataServiceVersion] None None [("200", mkResponse (Some (simple false "Stream" TStream)) (Some
  "TableQueryEntitiesWithPartitionAndRowKeyHeaders")); ("default", mkResponse (Some (simple false
  "TableServiceError" (TComposite "TableServiceError" None))) None)] true.

Definition tableUpdateEntityOperationSpec : OperationSpec := mkSpec "PUT" (Some
  "{table}(PartitionKey='{partitionKey}',RowKey='{rowKey}')") [TableParameters.url; TableParameters.table;
  TableParameters.partitionKey; TableParameters.rowKey] [TableParameters.timeout; TableParameters.format]
  [TableParameters.version; TableParameters.requestId; TableParameters.dataServiceVersion;
  TableParameters.ifMatch0] (Some (mkRequestBody ["options"; "tableEntityProperties"] (simple false
  "tableEntityProperties" (TDictionary TObject)))) None [("204", mkResponse None (Some
  "TableUpdateEntityHeaders")); ("default", mkResponse (Some (simple false "TableServiceError" (TComposite
  "TableServiceError" None))) None)] true.

Definition tableMergeEntityOperationSpec : OperationSpec := mkSpec "PATCH" (Some
  "{table}(PartitionKey='{partitionKey}',RowKey='{rowKey}')") [TableParameters.url; TableParameters.table;
  TableParameters.partitionKey; TableParameters.rowKey] [TableParameters.timeout; TableParameters.format]
  [TableParameters.version; TableParameters.requestId; TableParameters.dataServiceVersion;
  TableParameters.ifMatch0] (Some (mkRequestBody ["options"; "tableEntityProperties"] (simple false
  "tableEntityProperties" (TDictionary TObject)))) None [("204", mkResponse None (Some
  "TableMergeEntityHeaders")); ("default", mkResponse (Some (simple false "TableServiceError" (TComposite
  "TableServiceError" None))) None)] true.

Definition tableDeleteEntityOperationSpec : OperationSpec := mkSpec "DELETE" (Some
  "{table}(PartitionKey='{partitionKey}',RowKey='{rowKey}')") [TableParameters.url; TableParameters.table;
  TableParameters.partitionKey; TableParameters.rowKey] [TableParameters.timeout; TableParameters.format]
  [TableParameters.version; TableParameters.requestId; TableParameters.dataServiceVersion;
  TableParameters.ifMatch1] None None [("204", mkResponse None (Some "TableDeleteEntityHeaders")); ("default",
  mkResponse (Some (simple false "TableServiceError" (TComposite "TableServiceError" None))) None)] true.

Definition tableMergeEntityWithMergeOperationSpec : OperationSpec := mkSpec "POST" (Some
  "{table}(PartitionKey='{partitionKey}',RowKey='{rowKey}')") [TableParameters.url; TableParameters.table;
  TableParameters.partitionKey; TableParameters.rowKey] [TableParameters.timeout; TableParameters.format]
  [TableParameters.version; TableParameters.requestId; TableParameters.dataServiceVersion;
  TableParameters.ifMatch0] (Some (mkRequestBody ["options"; "tableEntityProperties"] (simple false
  "tableEntityProperties" (TDictionary TObject)))) None [("204", mkResponse None (Some
  "TableMergeEntityWithMergeHeaders")); ("default", mkResponse (Some (simple false "TableServiceError"
  (TComposite "TableServiceError" None))) None)] true.

Definition tableInsertEntityOperationSpec : OperationSpec := mkSpec "POST" (Some "{table}")
  [TableParameters.url; TableParameters.table] [TableParameters.timeout; TableParameters.format]
  [TableParameters.version; TableParameters.requestId; TableParameters.dataServiceVersion;
  TableParameters.responsePreference] (Some (mkRequestBody ["options"; "tableEntityProperties"] (simple false
  "tableEntityProperties" (TDictionary TObject)))) (Some "application/json;odata=nometadata; charset=utf-8")
  [("201", mkResponse (Some (simple false "Stream" TStream)) (Some "TableInsertEntityHeaders")); ("204",
  mkResponse None (Some "TableInsertEntityHeaders")); ("default", mkResponse (Some (simple false
  "TableServiceError" (TComposite "TableServiceError" None))) None)] true.

Definition tableGetAccessPolicyOperationSpec : OperationSpec := mkSpec "GET" (Some "{table}")
  [TableParameters.url; TableParameters.table] [TableParameters.timeout; TableParameters.comp0]
  [TableParameters.version; TableParameters.requestId] None None [("200", mkResponse (Some (mkMapper false false
  "SignedIdentifiers" None (TSequence (TComposite "SignedIdentifier" None)) None [] (Some "SignedIdentifier")
  None false false)) (Some "TableGetAccessPolicyHeaders")); ("default", mkResponse (Some (simple false
  "TableServiceError" (TComposite "TableServiceError" None))) None)] true.

Definition tableSetAccessPolicyOperationSpec : OperationSpec := mkSpec "PUT" (Some "{table}")
  [TableParameters.url; TableParameters.table] [TableParameters.timeout; TableParameters.comp0]
  [TableParameters.version; TableParameters.requestId] (Some (mkRequestBody ["options"; "tableAcl"] (mkMapper
  false false "tableAcl" None (TSequence (TComposite "SignedIdentifier" None)) None [] (Some "SignedIdentifier")
  (Some "SignedIdentifiers") false false))) (Some "application/xml; charset=utf-8") [("204", mkResponse None
  (Some "TableSetAccessPolicyHeaders")); ("default", mkResponse (Some (simple false "TableServiceError"
  (TComposite "TableServiceError" None))) None)] true.

Definition serviceSetPropertiesOperationSpec : OperationSpec := mkSpec "PUT" None [TableParameters.url]
  [TableParameters.timeout; TableParameters.restype; TableParameters.comp1] [TableParameters.version;
  TableParameters.requestId] (Some (mkRequestBody ["tableServiceProperties"] (named "StorageServiceProperties"
  true "TableServiceProperties" (TComposite "TableServiceProperties" None)))) (Some
  "application/xml; charset=utf-8") [("202", mkResponse None (Some "ServiceSetPropertiesHeaders")); ("default",
  mkResponse (Some (simple false "TableServiceError" (TComposite "TableServiceError" None))) None)] true.

Definition serviceGetPropertiesOperationSpec : OperationSpec := mkSpec "GET" None [TableParameters.url]
  [TableParameters.restype; TableParameters.comp1; TableParameters.timeout] [TableParameters.version;
  TableParameters.requestId] None None [("200", mkResponse (Some (named "StorageServiceProperties" false
  "TableServiceProperties" (TComposite "TableServiceProperties" None))) (Some "ServiceGetPropertiesHeaders"));
  ("default", mkResponse (Some (simple false "TableServiceError" (TComposite "TableServiceError" None))) None)]
  true.

Definition serviceGetStatisticsOperationSpec : OperationSpec := mkSpec "GET" None [TableParameters.url]
  [TableParameters.timeout; TableParameters.restype; TableParameters.comp2] [TableParameters.version;
  TableParameters.requestId] None None [("200", mkResponse (Some (named "StorageServiceStats" false
  "TableServiceStats" (TComposite "TableServiceStats" None))) (Some "ServiceGetStatisticsHeaders")); ("default",
  mkResponse (Some (simple false "TableServiceError" (TComposite "TableServiceError" None))) None)] true.

Definition Specifications (o : TableOp.operation) : option OperationSpec :=
  match o with
  | TableOp.Table_Query => Some tableQueryOperationSpec
  | TableOp.Table_Create => Some tableCreateOperationSpec
  | TableOp.Table_Batch => Some tableBatchOperationSpec
  | TableOp.Table_Delete => Some tableDeleteOperationSpec
  | TableOp.Table_QueryEntities => Some tableQueryEntitiesOperationSpec
  | TableOp.Table_QueryEntitiesWithPartitionAndRowKey => Some tableQueryEntitiesWithPartitionAndRowKeyOperationSpec
  | TableOp.Table_UpdateEntity => Some tableUpdateEntityOperationSpec
  | TableOp.Table_MergeEntity => Some tableMergeEntityOperationSpec
  | TableOp.Table_DeleteEntity => Some tableDeleteEntityOperationSpec
  | TableOp.Table_MergeEntityWithMerge => Some tableMergeEntityWithMergeOperationSpec
  | TableOp.Table_InsertEntity => Some tableInsertEntityOperationSpec
  | TableOp.Table_GetAccessPolicy => Some tableGetAccessPolicyOperationSpec
  | TableOp.Table_SetAccessPolicy => Some tableSetAccessPolicyOperationSpec
  | TableOp.Service_SetProperties => Some serviceSetPropertiesOperationSpec
  | TableOp.Service_GetProperties => Some serviceGetPropertiesOperationSpec
  | TableOp.Service_GetStatistics => Some serviceGetStatisticsOperationSpec
  end.

(** The operations in the order of their numbers. *)
Definition Operation : list TableOp.operation :=
[TableOp.Table_Query; TableOp.Table_Create; TableOp.Table_Batch; TableOp.Table_Delete;
   TableOp.Table_QueryEntities; TableOp.Table_QueryEntitiesWithPartitionAndRowKey; TableOp.Table_UpdateEntity;
   TableOp.Table_MergeEntity; TableOp.Table_DeleteEntity; TableOp.Table_MergeEntityWithMerge;
   TableOp.Table_InsertEntity; TableOp.Table_GetAccessPolicy; TableOp.Table_SetAccessPolicy;
   TableOp.Service_SetProperties; TableOp.Service_GetProperties; TableOp.Service_GetStatistics].
(** ** src/src/table/generated/handlers/handlerMappers.ts *)

Definition getHandlerByOperation (o : TableOp.operation) : option IHandlerPath :=
  match o with
  | TableOp.Table_Query => Some (mkHandlerPath ["options"] "tableHandler" "query")
  | TableOp.Table_Create => Some (mkHandlerPath ["tableProperties"; "options"] "tableHandler" "create")
  | TableOp.Table_Batch => Some (mkHandlerPath ["body"; "multipartContentType"; "contentLength"; "options"]
      "tableHandler" "batch")
  | TableOp.Table_Delete => Some (mkHandlerPath ["table"; "options"] "tableHandler" "delete")
  | TableOp.Table_QueryEntities => Some (mkHandlerPath ["table"; "options"] "tableHandler" "queryEntities")
  | TableOp.Table_QueryEntitiesWithPartitionAndRowKey => Some (mkHandlerPath ["table"; "partitionKey"; "rowKey";
      "options"] "tableHandler" "queryEntitiesWithPartitionAndRowKey")
  | TableOp.Table_UpdateEntity => Some (mkHandlerPath ["table"; "partitionKey"; "rowKey"; "options"]
      "tableHandler" "updateEntity")
  | TableOp.Table_MergeEntity => Some (mkHandlerPath ["table"; "partitionKey"; "rowKey"; "options"] "tableHandler"
      "mergeEntity")
  | TableOp.Table_DeleteEntity => Some (mkHandlerPath ["table"; "partitionKey"; "rowKey"; "ifMatch"; "options"]
      "tableHandler" "deleteEntity")
  | TableOp.Table_MergeEntityWithMerge => Some (mkHandlerPath ["table"; "partitionKey"; "rowKey"; "options"]
      "tableHandler" "mergeEntityWithMerge")
  | TableOp.Table_InsertEntity => Some (mkHandlerPath ["table"; "options"] "tableHandler" "insertEntity")
  | TableOp.Table_GetAccessPolicy => Some (mkHandlerPath ["table"; "options"] "tableHandler" "getAccessPolicy")
  | TableOp.Table_SetAccessPolicy => Some (mkHandlerPath ["table"; "options"] "tableHandler" "setAccessPolicy")
  | TableOp.Service_SetProperties => Some (mkHandlerPath ["tableServiceProperties"; "options"] "serviceHandler"
      "setProperties")
  | TableOp.Service_GetProperties => Some (mkHandlerPath ["options"] "serviceHandler" "getProperties")
  | TableOp.Service_GetStatistics => Some (mkHandlerPath ["options"] "serviceHandler" "getStatistics")
  end.
