(* ===== verification/Mappers.v ===== *)
(** * Mappers: the models of the three services

    src/src/blob/generated/artifacts/mappers.ts and those of queues and tables: what the
    serializer knows of each model, bodies and headers of responses. *)

From S2P Require Import Prelude Protocol.
Open Scope string_scope.

(** ** src/src/blob/generated/artifacts/mappers.ts *)

Module BlobMappers.
Definition KeyInfo : CompositeMapper := mkComposite "KeyInfo" None "KeyInfo" [("start", (named "Start" true
  "Start" TString)); ("expiry", (named "Expiry" true "Expiry" TString))] None.
Definition UserDelegationKey : CompositeMapper := mkComposite "UserDelegationKey" None "UserDelegationKey"
  [("signedOid", (named "SignedOid" true "SignedOid" TString)); ("signedTid", (named "SignedTid" true
  "SignedTid" TString)); ("signedStart", (named "SignedStart" true "SignedStart" TString)); ("signedExpiry",
  (named "SignedExpiry" true "SignedExpiry" TString)); ("signedService", (named "SignedService" true
  "SignedService" TString)); ("signedVersion", (named "SignedVersion" true "SignedVersion" TString)); ("value",
  (named "Value" true "Value" TString))] None.
Definition StorageError : CompositeMapper := mkComposite "StorageError" None "StorageError" [("message", (named
  "Message" false "Message" TString))] None.
Definition AccessPolicy : CompositeMapper := mkComposite "AccessPolicy" None "AccessPolicy" [("start", (named
  "Start" false "Start" TString)); ("expiry", (named "Expiry" false "Expiry" TString)); ("permission", (named
  "Permission" false "Permission" TString))] None.
Definition BlobPropertiesInternal : CompositeMapper := mkComposite "BlobPropertiesInternal" (Some "Properties")
  "BlobPropertiesInternal" [("creationTime", (named "Creation-Time" false "Creation-Time" TDateTimeRfc1123));
  ("lastModified", (named "Last-Modified" true "Last-Modified" TDateTimeRfc1123)); ("etag", (named "Etag" true
  "Etag" TString)); ("contentLength", (named "Content-Length" false "Content-Length" TNumber)); ("contentType",
  (named "Content-Type" false "Content-Type" TString)); ("contentEncoding", (named "Content-Encoding" false
  "Content-Encoding" TString)); ("contentLanguage", (named "Content-Language" false "Content-Language"
  TString)); ("contentMD5", (named "Content-MD5" false "Content-MD5" TByteArray)); ("contentDisposition", (named
  "Content-Disposition" false "Content-Disposition" TString)); ("cacheControl", (named "Cache-Control" false
  "Cache-Control" TString)); ("blobSequenceNumber", (named "x-ms-blob-sequence-number" false
  "x-ms-blob-sequence-number" TNumber)); ("blobType", (named "BlobType" false "BlobType" (TEnum ["BlockBlob";
  "PageBlob"; "AppendBlob"]))); ("leaseStatus", (named "LeaseStatus" false "LeaseStatus" (TEnum ["locked";
  "unlocked"]))); ("leaseState", (named "LeaseState" false "LeaseState" (TEnum ["available"; "leased";
  "expired"; "breaking"; "broken"]))); ("leaseDuration", (named "LeaseDuration" false "LeaseDuration" (TEnum
  ["infinite"; "fixed"]))); ("copyId", (named "CopyId" false "CopyId" TString)); ("copyStatus", (named
  "CopyStatus" false "CopyStatus" (TEnum ["pending"; "success"; "aborted"; "failed"]))); ("copySource", (named
  "CopySource" false "CopySource" TString)); ("copyProgress", (named "CopyProgress" false "CopyProgress"
  TString)); ("copyCompletionTime", (named "CopyCompletionTime" false "CopyCompletionTime" TDateTimeRfc1123));
  ("copyStatusDescription", (named "CopyStatusDescription" false "CopyStatusDescription" TString));
  ("serverEncrypted", (named "ServerEncrypted" false "ServerEncrypted" TBoolean)); ("incrementalCopy", (named
  "IncrementalCopy" false "IncrementalCopy" TBoolean)); ("destinationSnapshot", (named "DestinationSnapshot"
  false "DestinationSnapshot" TString)); ("deletedTime", (named "DeletedTime" false "DeletedTime"
  TDateTimeRfc1123)); ("remainingRetentionDays", (named "RemainingRetentionDays" false "RemainingRetentionDays"
  TNumber)); ("accessTier", (named "AccessTier" false "AccessTier" TString)); ("accessTierInferred", (named
  "AccessTierInferred" false "AccessTierInferred" TBoolean)); ("archiveStatus", (named "ArchiveStatus" false
  "ArchiveStatus" TString)); ("customerProvidedKeySha256", (named "CustomerProvidedKeySha256" false
  "CustomerProvidedKeySha256" TString)); ("encryptionScope", (named "EncryptionScope" false "EncryptionScope"
  TString)); ("accessTierChangeTime", (named "AccessTierChangeTime" false "AccessTierChangeTime"
  TDateTimeRfc1123)); ("tagCount", (named "TagCount" false "TagCount" TNumber)); ("expiresOn", (named
  "Expiry-Time" false "Expiry-Time" TDateTimeRfc1123)); ("isSealed", (named "Sealed" false "Sealed" TBoolean));
  ("rehydratePriority", (named "RehydratePriority" false "RehydratePriority" TString)); ("lastAccessedOn",
  (named "LastAccessTime" false "LastAccessTime" TDateTimeRfc1123)); ("immutabilityPolicyExpiresOn", (named
  "ImmutabilityPolicyUntilDate" false "ImmutabilityPolicyUntilDate" TDateTimeRfc1123));
  ("immutabilityPolicyMode", (named "ImmutabilityPolicyMode" false "ImmutabilityPolicyMode" (TEnum ["Mutable";
  "Unlocked"; "Locked"]))); ("legalHold", (named "LegalHold" false "LegalHold" TBoolean))] None.
Definition BlobMetadata : CompositeMapper := mkComposite "BlobMetadata" (Some "Metadata") "BlobMetadata"
  [("encrypted", (mkMapper false false "Encrypted" None TString None [] None (Some "Encrypted") false true))]
  (Some TString).
Definition BlobTag : CompositeMapper := mkComposite "BlobTag" (Some "Tag") "BlobTag" [("key", (named "Key" true
  "Key" TString)); ("value", (named "Value" true "Value" TString))] None.
Definition BlobTags : CompositeMapper := mkComposite "BlobTags" (Some "Tags") "BlobTags" [("blobTagSet",
  (mkMapper true false "BlobTagSet" None (TSequence (TComposite "BlobTag" None)) None [] (Some "Tag") (Some
  "TagSet") true false))] None.
Definition BlobItemInternal : CompositeMapper := mkComposite "BlobItemInternal" (Some "Blob") "BlobItemInternal"
  [("name", (named "Name" true "Name" TString)); ("deleted", (named "Deleted" false "Deleted" TBoolean));
  ("snapshot", (named "Snapshot" false "Snapshot" TString)); ("versionId", (named "VersionId" false "VersionId"
  TString)); ("isCurrentVersion", (named "IsCurrentVersion" false "IsCurrentVersion" TBoolean)); ("properties",
  (named "Properties" true "Properties" (TComposite "BlobPropertiesInternal" None))); ("metadata", (named
  "Metadata" false "Metadata" (TComposite "BlobMetadata" (Some TString)))); ("blobTags", (named "Tags" false
  "BlobTags" (TComposite "BlobTags" None))); ("objectReplicationMetadata", (named "OrMetadata" false
  "ObjectReplicationMetadata" (TDictionary TString))); ("hasVersionsOnly", (named "HasVersionsOnly" false
  "HasVersionsOnly" TBoolean))] None.
Definition BlobFlatListSegment : CompositeMapper := mkComposite "BlobFlatListSegment" (Some "Blobs")
  "BlobFlatListSegment" [("blobItems", (mkMapper true false "BlobItems" None (TSequence (TComposite
  "BlobItemInternal" None)) None [] (Some "Blob") (Some "BlobItems") false false))] None.
Definition ListBlobsFlatSegmentResponse : CompositeMapper := mkComposite "ListBlobsFlatSegmentResponse" (Some
  "EnumerationResults") "ListBlobsFlatSegmentResponse" [("serviceEndpoint", (mkMapper true false
  "ServiceEndpoint" None TString None [] None (Some "ServiceEndpoint") false true)); ("containerName", (mkMapper
  true false "ContainerName" None TString None [] None (Some "ContainerName") false true)); ("prefix", (named
  "Prefix" false "Prefix" TString)); ("marker", (named "Marker" false "Marker" TString)); ("maxResults", (named
  "MaxResults" false "MaxResults" TNumber)); ("segment", (named "Blobs" true "Segment" (TComposite
  "BlobFlatListSegment" None))); ("nextMarker", (named "NextMarker" false "NextMarker" TString))] None.
Definition BlobPrefix : CompositeMapper := mkComposite "BlobPrefix" None "BlobPrefix" [("name", (named "Name"
  true "Name" TString))] None.
Definition BlobHierarchyListSegment : CompositeMapper := mkComposite "BlobHierarchyListSegment" (Some "Blobs")
  "BlobHierarchyListSegment" [("blobPrefixes", (mkMapper false false "BlobPrefixes" None (TSequence (TComposite
  "BlobPrefix" None)) None [] (Some "BlobPrefix") (Some "BlobPrefixes") false false)); ("blobItems", (mkMapper
  true false "BlobItems" None (TSequence (TComposite "BlobItemInternal" None)) None [] (Some "Blob") (Some
  "BlobItems") false false))] None.
Definition ListBlobsHierarchySegmentResponse : CompositeMapper := mkComposite
  "ListBlobsHierarchySegmentResponse" (Some "EnumerationResults") "ListBlobsHierarchySegmentResponse"
  [("serviceEndpoint", (mkMapper true false "ServiceEndpoint" None TString None [] None (Some "ServiceEndpoint")
  false true)); ("containerName", (mkMapper true false "ContainerName" None TString None [] None (Some
  "ContainerName") false true)); ("prefix", (named "Prefix" false "Prefix" TString)); ("marker", (named "Marker"
  false "Marker" TString)); ("maxResults", (named "MaxResults" false "MaxResults" TNumber)); ("delimiter",
  (named "Delimiter" false "Delimiter" TString)); ("segment", (named "Blobs" true "Segment" (TComposite
  "BlobHierarchyListSegment" None))); ("nextMarker", (named "NextMarker" false "NextMarker" TString))] None.
Definition BlobName : CompositeMapper := mkComposite "BlobName" None "BlobName" [("encoded", (mkMapper false
  false "Encoded" None TBoolean None [] None (Some "Encoded") false true)); ("content", (named "content" false
  "content" TString))] None.
Definition Block : CompositeMapper := mkComposite "Block" None "Block" [("name", (named "Name" true "Name"
  TString)); ("size", (named "Size" true "Size" TNumber))] None.
Definition BlockList : CompositeMapper := mkComposite "BlockList" None "BlockList" [("committedBlocks",
  (mkMapper false false "CommittedBlocks" None (TSequence (TComposite "Block" None)) None [] (Some "Block")
  (Some "CommittedBlocks") true false)); ("uncommittedBlocks", (mkMapper false false "UncommittedBlocks" None
  (TSequence (TComposite "Block" None)) None [] (Some "Block") (Some "UncommittedBlocks") true false))] None.
Definition BlockLookupList : CompositeMapper := mkComposite "BlockLookupList" (Some "BlockList")
  "BlockLookupList" [("committed", (mkMapper false false "Committed" None (TSequence TString) None [] (Some
  "Committed") (Some "Committed") false false)); ("uncommitted", (mkMapper false false "Uncommitted" None
  (TSequence TString) None [] (Some "Uncommitted") (Some "Uncommitted") false false)); ("latest", (mkMapper
  false false "Latest" None (TSequence TString) None [] (Some "Latest") (Some "Latest") false false))] None.
Definition ContainerProperties : CompositeMapper := mkComposite "ContainerProperties" None "ContainerProperties"
  [("lastModified", (named "Last-Modified" true "Last-Modified" TDateTimeRfc1123)); ("etag", (named "Etag" true
  "Etag" TString)); ("leaseStatus", (named "LeaseStatus" false "LeaseStatus" (TEnum ["locked"; "unlocked"])));
  ("leaseState", (named "LeaseState" false "LeaseState" (TEnum ["available"; "leased"; "expired"; "breaking";
  "broken"]))); ("leaseDuration", (named "LeaseDuration" false "LeaseDuration" (TEnum ["infinite"; "fixed"])));
  ("publicAccess", (named "PublicAccess" false "PublicAccess" TString)); ("hasImmutabilityPolicy", (named
  "HasImmutabilityPolicy" false "HasImmutabilityPolicy" TBoolean)); ("hasLegalHold", (named "HasLegalHold" false
  "HasLegalHold" TBoolean)); ("defaultEncryptionScope", (named "DefaultEncryptionScope" false
  "DefaultEncryptionScope" TString)); ("preventEncryptionScopeOverride", (named "DenyEncryptionScopeOverride"
  false "DenyEncryptionScopeOverride" TBoolean)); ("deletedTime", (named "DeletedTime" false "DeletedTime"
  TDateTimeRfc1123)); ("remainingRetentionDays", (named "RemainingRetentionDays" false "RemainingRetentionDays"
  TNumber)); ("isImmutableStorageWithVersioningEnabled", (named "ImmutableStorageWithVersioningEnabled" false
  "ImmutableStorageWithVersioningEnabled" TBoolean))] None.
Definition ContainerItem : CompositeMapper := mkComposite "ContainerItem" (Some "Container") "ContainerItem"
  [("name", (named "Name" true "Name" TString)); ("deleted", (named "Deleted" false "Deleted" TBoolean));
  ("version", (named "Version" false "Version" TString)); ("properties", (named "Properties" true "Properties"
  (TComposite "ContainerProperties" None))); ("metadata", (named "Metadata" false "Metadata" (TDictionary
  TString)))] None.
Definition DelimitedTextConfiguration : CompositeMapper := mkComposite "DelimitedTextConfiguration" None
  "DelimitedTextConfiguration" [("columnSeparator", (named "ColumnSeparator" false "ColumnSeparator" TString));
  ("fieldQuote", (named "FieldQuote" false "FieldQuote" TString)); ("recordSeparator", (named "RecordSeparator"
  false "RecordSeparator" TString)); ("escapeChar", (named "EscapeChar" false "EscapeChar" TString));
  ("headersPresent", (named "HasHeaders" false "HeadersPresent" TBoolean))] None.
Definition JsonTextConfiguration : CompositeMapper := mkComposite "JsonTextConfiguration" None
  "JsonTextConfiguration" [("recordSeparator", (named "RecordSeparator" false "RecordSeparator" TString))] None.
Definition ArrowField : CompositeMapper := mkComposite "ArrowField" (Some "Field") "ArrowField" [("type", (named
  "Type" true "Type" TString)); ("name", (named "Name" false "Name" TString)); ("precision", (named "Precision"
  false "Precision" TNumber)); ("scale", (named "Scale" false "Scale" TNumber))] None.
Definition ArrowConfiguration : CompositeMapper := mkComposite "ArrowConfiguration" None "ArrowConfiguration"
  [("schema", (mkMapper true false "Schema" None (TSequence (TComposite "ArrowField" None)) None [] (Some
  "Field") (Some "Schema") true false))] None.
Definition ListContainersSegmentResponse : CompositeMapper := mkComposite "ListContainersSegmentResponse" (Some
  "EnumerationResults") "ListContainersSegmentResponse" [("serviceEndpoint", (mkMapper true false
  "ServiceEndpoint" None TString None [] None (Some "ServiceEndpoint") false true)); ("prefix", (named "Prefix"
  false "Prefix" TString)); ("marker", (named "Marker" false "Marker" TString)); ("maxResults", (named
  "MaxResults" false "MaxResults" TNumber)); ("containerItems", (mkMapper true false "ContainerItems" None
  (TSequence (TComposite "ContainerItem" None)) None [] (Some "Container") (Some "Containers") true false));
  ("nextMarker", (named "NextMarker" false "NextMarker" TString))] None.
Definition CorsRule : CompositeMapper := mkComposite "CorsRule" None "CorsRule" [("allowedOrigins", (named
  "AllowedOrigins" true "AllowedOrigins" TString)); ("allowedMethods", (named "AllowedMethods" true
  "AllowedMethods" TString)); ("allowedHeaders", (named "AllowedHeaders" false "AllowedHeaders" TString));
  ("exposedHeaders", (named "ExposedHeaders" false "ExposedHeaders" TString)); ("maxAgeInSeconds", (mkMapper
  true false "MaxAgeInSeconds" None TNumber None [("InclusiveMinimum", "0")] None (Some "MaxAgeInSeconds") false
  false))] None.
Definition FilterBlobItem : CompositeMapper := mkComposite "FilterBlobItem" (Some "Blob") "FilterBlobItem"
  [("name", (named "Name" true "Name" TString)); ("containerName", (named "ContainerName" true "ContainerName"
  TString)); ("tags", (named "Tags" false "Tags" (TComposite "BlobTags" None))); ("versionId", (named
  "VersionId" false "VersionId" TString)); ("isCurrentVersion", (named "IsCurrentVersion" false
  "IsCurrentVersion" TBoolean))] None.
Definition FilterBlobSegment : CompositeMapper := mkComposite "FilterBlobSegment" (Some "EnumerationResults")
  "FilterBlobSegment" [("serviceEndpoint", (mkMapper true false "ServiceEndpoint" None TString None [] None
  (Some "ServiceEndpoint") false true)); ("where", (named "Where" true "Where" TString)); ("blobs", (mkMapper
  true false "Blobs" None (TSequence (TComposite "FilterBlobItem" None)) None [] (Some "Blob") (Some "Blobs")
  true false)); ("nextMarker", (named "NextMarker" false "NextMarker" TString))] None.
Definition GeoReplication : CompositeMapper := mkComposite "GeoReplication" None "GeoReplication" [("status",
  (named "Status" true "Status" TString)); ("lastSyncTime", (named "LastSyncTime" true "LastSyncTime"
  TDateTimeRfc1123))] None.
Definition RetentionPolicy : CompositeMapper := mkComposite "RetentionPolicy" None "RetentionPolicy"
  [("enabled", (named "Enabled" true "Enabled" TBoolean)); ("days", (mkMapper false false "Days" None TNumber
  None [("InclusiveMinimum", "1")] None (Some "Days") false false)); ("allowPermanentDelete", (named
  "AllowPermanentDelete" false "AllowPermanentDelete" TBoolean))] None.
Definition Logging : CompositeMapper := mkComposite "Logging" None "Logging" [("version", (named "Version" true
  "Version" TString)); ("deleteProperty", (named "Delete" true "Delete" TBoolean)); ("read", (named "Read" true
  "Read" TBoolean)); ("write", (named "Write" true "Write" TBoolean)); ("retentionPolicy", (named
  "RetentionPolicy" true "RetentionPolicy" (TComposite "RetentionPolicy" None)))] None.
Definition Metrics : CompositeMapper := mkComposite "Metrics" None "Metrics" [("version", (named "Version" false
  "Version" TString)); ("enabled", (named "Enabled" true "Enabled" TBoolean)); ("includeAPIs", (named
  "IncludeAPIs" false "IncludeAPIs" TBoolean)); ("retentionPolicy", (named "RetentionPolicy" false
  "RetentionPolicy" (TComposite "RetentionPolicy" None)))] None.
Definition PageRange : CompositeMapper := mkComposite "PageRange" None "PageRange" [("start", (named "Start"
  true "Start" TNumber)); ("end", (named "End" true "End" TNumber))] None.
Definition ClearRange : CompositeMapper := mkComposite "ClearRange" None "ClearRange" [("start", (named "Start"
  true "Start" TNumber)); ("end", (named "End" true "End" TNumber))] None.
Definition PageList : CompositeMapper := mkComposite "PageList" None "PageList" [("pageRange", (mkMapper false
  false "PageRange" None (TSequence (TComposite "PageRange" None)) None [] (Some "PageRange") (Some "PageRange")
  false false)); ("clearRange", (mkMapper false false "ClearRange" None (TSequence (TComposite "ClearRange"
  None)) None [] (Some "ClearRange") (Some "ClearRange") false false)); ("nextMarker", (named "NextMarker" false
  "NextMarker" TString))] None.
Definition QueryFormat : CompositeMapper := mkComposite "QueryFormat" None "QueryFormat" [("type", (named "Type"
  true "Type" (TEnum ["delimited"; "json"; "arrow"; "parquet"]))); ("delimitedTextConfiguration", (named
  "DelimitedTextConfiguration" false "DelimitedTextConfiguration" (TComposite "DelimitedTextConfiguration"
  None))); ("jsonTextConfiguration", (named "JsonTextConfiguration" false "JsonTextConfiguration" (TComposite
  "JsonTextConfiguration" None))); ("arrowConfiguration", (named "ArrowConfiguration" false "ArrowConfiguration"
  (TComposite "ArrowConfiguration" None))); ("parquetTextConfiguration", (named "ParquetTextConfiguration" false
  "ParquetTextConfiguration" TObject))] None.
Definition QuerySerialization : CompositeMapper := mkComposite "QuerySerialization" None "QuerySerialization"
  [("format", (named "Format" true "Format" (TComposite "QueryFormat" None)))] None.
Definition QueryRequest : CompositeMapper := mkComposite "QueryRequest" None "QueryRequest" [("queryType",
  (mkMapper true true "QueryType" (Some (CString "SQL")) TString None [] None (Some "QueryType") false false));
  ("expression", (named "Expression" true "Expression" TString)); ("inputSerialization", (named
  "InputSerialization" false "InputSerialization" (TComposite "QuerySerialization" None)));
  ("outputSerialization", (named "OutputSerialization" false "OutputSerialization" (TComposite
  "QuerySerialization" None)))] None.
Definition SignedIdentifier : CompositeMapper := mkComposite "SignedIdentifier" None "SignedIdentifier" [("id",
  (named "Id" true "Id" TString)); ("accessPolicy", (named "AccessPolicy" true "AccessPolicy" (TComposite
  "AccessPolicy" None)))] None.
Definition StaticWebsite : CompositeMapper := mkComposite "StaticWebsite" None "StaticWebsite" [("enabled",
  (named "Enabled" true "Enabled" TBoolean)); ("indexDocument", (named "IndexDocument" false "IndexDocument"
  TString)); ("errorDocument404Path", (named "ErrorDocument404Path" false "ErrorDocument404Path" TString));
  ("defaultIndexDocumentPath", (named "DefaultIndexDocumentPath" false "DefaultIndexDocumentPath" TString))]
  None.
Definition StorageServiceProperties : CompositeMapper := mkComposite "StorageServiceProperties" None
  "StorageServiceProperties" [("logging", (named "Logging" false "Logging" (TComposite "Logging" None)));
  ("hourMetrics", (named "HourMetrics" false "HourMetrics" (TComposite "Metrics" None))); ("minuteMetrics",
  (named "MinuteMetrics" false "MinuteMetrics" (TComposite "Metrics" None))); ("cors", (mkMapper false false
  "Cors" None (TSequence (TComposite "CorsRule" None)) None [] (Some "CorsRule") (Some "Cors") true false));
  ("defaultServiceVersion", (named "DefaultServiceVersion" false "DefaultServiceVersion" TString));
  ("deleteRetentionPolicy", (named "DeleteRetentionPolicy" false "DeleteRetentionPolicy" (TComposite
  "RetentionPolicy" None))); ("staticWebsite", (named "StaticWebsite" false "StaticWebsite" (TComposite
  "StaticWebsite" None)))] None.
Definition StorageServiceStats : CompositeMapper := mkComposite "StorageServiceStats" None "StorageServiceStats"
  [("geoReplication", (named "GeoReplication" false "GeoReplication" (TComposite "GeoReplication" None)))] None.
Definition ContainerCpkScopeInfo : CompositeMapper := mkComposite "" (Some "container-cpk-scope-info")
  "ContainerCpkScopeInfo" [("defaultEncryptionScope", (named "defaultEncryptionScope" false "" TString));
  ("preventEncryptionScopeOverride", (named "preventEncryptionScopeOverride" false "" TBoolean))] None.
Definition LeaseAccessConditions : CompositeMapper := mkComposite "" (Some "lease-access-conditions")
  "LeaseAccessConditions" [("leaseId", (named "leaseId" false "" TString))] None.
Definition ModifiedAccessConditions : CompositeMapper := mkComposite "" (Some "modified-access-conditions")
  "ModifiedAccessConditions" [("ifModifiedSince", (named "ifModifiedSince" false "" TDateTimeRfc1123));
  ("ifUnmodifiedSince", (named "ifUnmodifiedSince" false "" TDateTimeRfc1123)); ("ifMatch", (named "ifMatch"
  false "" TString)); ("ifNoneMatch", (named "ifNoneMatch" false "" TString)); ("ifTags", (named "ifTags" false
  "" TString))] None.
Definition CpkInfo : CompositeMapper := mkComposite "" (Some "cpk-info") "CpkInfo" [("encryptionKey", (named
  "encryptionKey" false "" TString)); ("encryptionKeySha256", (named "encryptionKeySha256" false "" TString));
  ("encryptionAlgorithm", (named "encryptionAlgorithm" false "" (TEnum ["AES256"])))] None.
Definition BlobHTTPHeaders : CompositeMapper := mkComposite "" (Some "blob-HTTP-headers") "BlobHTTPHeaders"
  [("blobCacheControl", (named "blobCacheControl" false "" TString)); ("blobContentType", (named
  "blobContentType" false "" TString)); ("blobContentMD5", (named "blobContentMD5" false "" TByteArray));
  ("blobContentEncoding", (named "blobContentEncoding" false "" TString)); ("blobContentLanguage", (named
  "blobContentLanguage" false "" TString)); ("blobContentDisposition", (named "blobContentDisposition" false ""
  TString))] None.
Definition CpkScopeInfo : CompositeMapper := mkComposite "" (Some "cpk-scope-info") "CpkScopeInfo"
  [("encryptionScope", (named "encryptionScope" false "" TString))] None.
Definition SourceModifiedAccessConditions : CompositeMapper := mkComposite "" (Some
  "source-modified-access-conditions") "SourceModifiedAccessConditions" [("sourceIfModifiedSince", (named
  "sourceIfModifiedSince" false "" TDateTimeRfc1123)); ("sourceIfUnmodifiedSince", (named
  "sourceIfUnmodifiedSince" false "" TDateTimeRfc1123)); ("sourceIfMatch", (named "sourceIfMatch" false ""
  TString)); ("sourceIfNoneMatch", (named "sourceIfNoneMatch" false "" TString)); ("sourceIfTags", (named
  "sourceIfTags" false "" TString))] None.
Definition SequenceNumberAccessConditions : CompositeMapper := mkComposite "" (Some
  "sequence-number-access-conditions") "SequenceNumberAccessConditions" [("ifSequenceNumberLessThanOrEqualTo",
  (named "ifSequenceNumberLessThanOrEqualTo" false "" TNumber)); ("ifSequenceNumberLessThan", (named
  "ifSequenceNumberLessThan" false "" TNumber)); ("ifSequenceNumberEqualTo", (named "ifSequenceNumberEqualTo"
  false "" TNumber))] None.
Definition AppendPositionAccessConditions : CompositeMapper := mkComposite "" (Some
  "append-position-access-conditions") "AppendPositionAccessConditions" [("maxSize", (named "maxSize" false ""
  TNumber)); ("appendPosition", (named "appendPosition" false "" TNumber))] None.
Definition ServiceSetPropertiesHeaders : CompositeMapper := mkComposite "service-setproperties-headers" None
  "ServiceSetPropertiesHeaders" [("clientRequestId", (simple false "x-ms-client-request-id" TString));
  ("requestId", (simple false "x-ms-request-id" TString)); ("version", (simple false "x-ms-version" TString));
  ("errorCode", (simple false "x-ms-error-code" TString))] None.
Definition ServiceGetPropertiesHeaders : CompositeMapper := mkComposite "service-getproperties-headers" None
  "ServiceGetPropertiesHeaders" [("clientRequestId", (simple false "x-ms-client-request-id" TString));
  ("requestId", (simple false "x-ms-request-id" TString)); ("version", (simple false "x-ms-version" TString));
  ("errorCode", (simple false "x-ms-error-code" TString))] None.
Definition ServiceGetStatisticsHeaders : CompositeMapper := mkComposite "service-getstatistics-headers" None
  "ServiceGetStatisticsHeaders" [("clientRequestId", (simple false "x-ms-client-request-id" TString));
  ("requestId", (simple false "x-ms-request-id" TString)); ("version", (simple false "x-ms-version" TString));
  ("date", (simple false "date" TDateTimeRfc1123)); ("errorCode", (simple false "x-ms-error-code" TString))]
  None.
Definition ServiceListContainersSegmentHeaders : CompositeMapper := mkComposite
  "service-listcontainerssegment-headers" None "ServiceListContainersSegmentHeaders" [("clientRequestId",
  (simple false "x-ms-client-request-id" TString)); ("requestId", (simple false "x-ms-request-id" TString));
  ("version", (simple false "x-ms-version" TString)); ("errorCode", (simple false "x-ms-error-code" TString))]
  None.
Definition ServiceGetUserDelegationKeyHeaders : CompositeMapper := mkComposite
  "service-getuserdelegationkey-headers" None "ServiceGetUserDelegationKeyHeaders" [("clientRequestId", (simple
  false "x-ms-client-request-id" TString)); ("requestId", (simple false "x-ms-request-id" TString)); ("version",
  (simple false "x-ms-version" TString)); ("date", (simple false "date" TDateTimeRfc1123)); ("errorCode",
  (simple false "x-ms-error-code" TString))] None.
Definition ServiceGetAccountInfoHeaders : CompositeMapper := mkComposite "service-getaccountinfo-headers" None
  "ServiceGetAccountInfoHeaders" [("clientRequestId", (simple false "x-ms-client-request-id" TString));
  ("requestId", (simple false "x-ms-request-id" TString)); ("version", (simple false "x-ms-version" TString));
  ("date", (simple false "date" TDateTimeRfc1123)); ("skuName", (simple false "x-ms-sku-name" (TEnum
  ["Standard_LRS"; "Standard_GRS"; "Standard_RAGRS"; "Standard_ZRS"; "Premium_LRS"]))); ("accountKind", (simple
  false "x-ms-account-kind" (TEnum ["Storage"; "BlobStorage"; "StorageV2"; "FileStorage";
  "BlockBlobStorage"]))); ("isHierarchicalNamespaceEnabled", (simple false "x-ms-is-hns-enabled" TBoolean));
  ("errorCode", (simple false "x-ms-error-code" TString))] None.
Definition ServiceGetAccountInfoWithHeadHeaders : CompositeMapper := mkComposite
  "service-getaccountinfowithhead-headers" None "ServiceGetAccountInfoWithHeadHeaders" [("clientRequestId",
  (simple false "x-ms-client-request-id" TString)); ("requestId", (simple false "x-ms-request-id" TString));
  ("version", (simple false "x-ms-version" TString)); ("date", (simple false "date" TDateTimeRfc1123));
  ("skuName", (simple false "x-ms-sku-name" (TEnum ["Standard_LRS"; "Standard_GRS"; "Standard_RAGRS";
  "Standard_ZRS"; "Premium_LRS"]))); ("accountKind", (simple false "x-ms-account-kind" (TEnum ["Storage";
  "BlobStorage"; "StorageV2"; "FileStorage"; "BlockBlobStorage"]))); ("isHierarchicalNamespaceEnabled", (simple
  false "x-ms-is-hns-enabled" TBoolean)); ("errorCode", (simple false "x-ms-error-code" TString))] None.
Definition ServiceSubmitBatchHeaders : CompositeMapper := mkComposite "service-submitbatch-headers" None
  "ServiceSubmitBatchHeaders" [("contentType", (simple false "content-type" TString)); ("requestId", (simple
  false "x-ms-request-id" TString)); ("version", (simple false "x-ms-version" TString)); ("errorCode", (simple
  false "x-ms-error-code" TString))] None.
Definition ServiceFilterBlobsHeaders : CompositeMapper := mkComposite "service-filterblobs-headers" None
  "ServiceFilterBlobsHeaders" [("clientRequestId", (simple false "x-ms-client-request-id" TString));
  ("requestId", (simple false "x-ms-request-id" TString)); ("version", (simple false "x-ms-version" TString));
  ("date", (simple false "date" TDateTimeRfc1123)); ("errorCode", (simple false "x-ms-error-code" TString))]
  None.
Definition ContainerCreateHeaders : CompositeMapper := mkComposite "container-create-headers" None
  "ContainerCreateHeaders" [("eTag", (simple false "etag" TString)); ("lastModified", (simple false
  "last-modified" TDateTimeRfc1123)); ("clientRequestId", (simple false "x-ms-client-request-id" TString));
  ("requestId", (simple false "x-ms-request-id" TString)); ("version", (simple false "x-ms-version" TString));
  ("date", (simple false "date" TDateTimeRfc1123)); ("errorCode", (simple false "x-ms-error-code" TString))]
  None.
Definition ContainerGetPropertiesHeaders : CompositeMapper := mkComposite "container-getproperties-headers" None
  "ContainerGetPropertiesHeaders" [("metadata", (mkMapper false false "x-ms-meta" None (TDictionary TString)
  (Some "x-ms-meta-") [] None None false false)); ("eTag", (simple false "etag" TString)); ("lastModified",
  (simple false "last-modified" TDateTimeRfc1123)); ("leaseDuration", (simple false "x-ms-lease-duration" (TEnum
  ["infinite"; "fixed"]))); ("leaseState", (simple false "x-ms-lease-state" (TEnum ["available"; "leased";
  "expired"; "breaking"; "broken"]))); ("leaseStatus", (simple false "x-ms-lease-status" (TEnum ["locked";
  "unlocked"]))); ("clientRequestId", (simple false "x-ms-client-request-id" TString)); ("requestId", (simple
  false "x-ms-request-id" TString)); ("version", (simple false "x-ms-version" TString)); ("date", (simple false
  "date" TDateTimeRfc1123)); ("blobPublicAccess", (simple false "x-ms-blob-public-access" TString));
  ("hasImmutabilityPolicy", (simple false "x-ms-has-immutability-policy" TBoolean)); ("hasLegalHold", (simple
  false "x-ms-has-legal-hold" TBoolean)); ("defaultEncryptionScope", (simple false
  "x-ms-default-encryption-scope" TString)); ("denyEncryptionScopeOverride", (simple false
  "x-ms-deny-encryption-scope-override" TBoolean)); ("isImmutableStorageWithVersioningEnabled", (simple false
  "x-ms-immutable-storage-with-versioning-enabled" TBoolean)); ("errorCode", (simple false "x-ms-error-code"
  TString))] None.
Definition ContainerGetPropertiesWithHeadHeaders : CompositeMapper := mkComposite
  "container-getpropertieswithhead-headers" None "ContainerGetPropertiesWithHeadHeaders" [("metadata", (mkMapper
  false false "x-ms-meta" None (TDictionary TString) (Some "x-ms-meta-") [] None None false false)); ("eTag",
  (simple false "etag" TString)); ("lastModified", (simple false "last-modified" TDateTimeRfc1123));
  ("leaseDuration", (simple false "x-ms-lease-duration" (TEnum ["infinite"; "fixed"]))); ("leaseState", (simple
  false "x-ms-lease-state" (TEnum ["available"; "leased"; "expired"; "breaking"; "broken"]))); ("leaseStatus",
  (simple false "x-ms-lease-status" (TEnum ["locked"; "unlocked"]))); ("clientRequestId", (simple false
  "x-ms-client-request-id" TString)); ("requestId", (simple false "x-ms-request-id" TString)); ("version",
  (simple false "x-ms-version" TString)); ("date", (simple false "date" TDateTimeRfc1123)); ("blobPublicAccess",
  (simple false "x-ms-blob-public-access" TString)); ("hasImmutabilityPolicy", (simple false
  "x-ms-has-immutability-policy" TBoolean)); ("hasLegalHold", (simple false "x-ms-has-legal-hold" TBoolean));
  ("defaultEncryptionScope", (simple false "x-ms-default-encryption-scope" TString));
  ("denyEncryptionScopeOverride", (simple false "x-ms-deny-encryption-scope-override" TBoolean));
  ("isImmutableStorageWithVersioningEnabled", (simple false "x-ms-immutable-storage-with-versioning-enabled"
  TBoolean)); ("errorCode", (simple false "x-ms-error-code" TString))] None.
Definition ContainerDeleteHeaders : CompositeMapper := mkComposite "container-delete-headers" None
  "ContainerDeleteHeaders" [("clientRequestId", (simple false "x-ms-client-request-id" TString)); ("requestId",
  (simple false "x-ms-request-id" TString)); ("version", (simple false "x-ms-version" TString)); ("date",
  (simple false "date" TDateTimeRfc1123)); ("errorCode", (simple false "x-ms-error-code" TString))] None.
Definition ContainerSetMetadataHeaders : CompositeMapper := mkComposite "container-setmetadata-headers" None
  "ContainerSetMetadataHeaders" [("eTag", (simple false "etag" TString)); ("lastModified", (simple false
  "last-modified" TDateTimeRfc1123)); ("clientRequestId", (simple false "x-ms-client-request-id" TString));
  ("requestId", (simple false "x-ms-request-id" TString)); ("version", (simple false "x-ms-version" TString));
  ("date", (simple false "date" TDateTimeRfc1123)); ("errorCode", (simple false "x-ms-error-code" TString))]
  None.
Definition ContainerGetAccessPolicyHeaders : CompositeMapper := mkComposite "container-getaccesspolicy-headers"
  None "ContainerGetAccessPolicyHeaders" [("blobPublicAccess", (simple false "x-ms-blob-public-access"
  TString)); ("eTag", (simple false "etag" TString)); ("lastModified", (simple false "last-modified"
  TDateTimeRfc1123)); ("clientRequestId", (simple false "x-ms-client-request-id" TString)); ("requestId",
  (simple false "x-ms-request-id" TString)); ("version", (simple false "x-ms-version" TString)); ("date",
  (simple false "date" TDateTimeRfc1123)); ("errorCode", (simple false "x-ms-error-code" TString))] None.
Definition ContainerSetAccessPolicyHeaders : CompositeMapper := mkComposite "container-setaccesspolicy-headers"
  None "ContainerSetAccessPolicyHeaders" [("eTag", (simple false "etag" TString)); ("lastModified", (simple
  false "last-modified" TDateTimeRfc1123)); ("clientRequestId", (simple false "x-ms-client-request-id"
  TString)); ("requestId", (simple false "x-ms-request-id" TString)); ("version", (simple false "x-ms-version"
  TString)); ("date", (simple false "date" TDateTimeRfc1123)); ("errorCode", (simple false "x-ms-error-code"
  TString))] None.
Definition ContainerRestoreHeaders : CompositeMapper := mkComposite "container-restore-headers" None
  "ContainerRestoreHeaders" [("clientRequestId", (simple false "x-ms-client-request-id" TString)); ("requestId",
  (simple false "x-ms-request-id" TString)); ("version", (simple false "x-ms-version" TString)); ("date",
  (simple false "date" TDateTimeRfc1123)); ("errorCode", (simple false "x-ms-error-code" TString))] None.
Definition ContainerSubmitBatchHeaders : CompositeMapper := mkComposite "container-submitbatch-headers" None
  "ContainerSubmitBatchHeaders" [("contentType", (simple false "content-type" TString)); ("requestId", (simple
  false "x-ms-request-id" TString)); ("version", (simple false "x-ms-version" TString)); ("errorCode", (simple
  false "x-ms-error-code" TString))] None.
Definition ContainerFilterBlobsHeaders : CompositeMapper := mkComposite "container-filterblobs-headers" None
  "ContainerFilterBlobsHeaders" [("clientRequestId", (simple false "x-ms-client-request-id" TString));
  ("requestId", (simple false "x-ms-request-id" TString)); ("version", (simple false "x-ms-version" TString));
  ("date", (simple false "date" TDateTimeRfc1123)); ("errorCode", (simple false "x-ms-error-code" TString))]
  None.
Definition ContainerAcquireLeaseHeaders : CompositeMapper := mkComposite "container-acquirelease-headers" None
  "ContainerAcquireLeaseHeaders" [("eTag", (simple false "etag" TString)); ("lastModified", (simple false
  "last-modified" TDateTimeRfc1123)); ("leaseId", (simple false "x-ms-lease-id" TString)); ("clientRequestId",
  (simple false "x-ms-client-request-id" TString)); ("requestId", (simple false "x-ms-request-id" TString));
  ("version", (simple false "x-ms-version" TString)); ("date", (simple false "date" TDateTimeRfc1123));
  ("errorCode", (simple false "x-ms-error-code" TString))] None.
Definition ContainerReleaseLeaseHeaders : CompositeMapper := mkComposite "container-releaselease-headers" None
  "ContainerReleaseLeaseHeaders" [("eTag", (simple false "etag" TString)); ("lastModified", (simple false
  "last-modified" TDateTimeRfc1123)); ("clientRequestId", (simple false "x-ms-client-request-id" TString));
  ("requestId", (simple false "x-ms-request-id" TString)); ("version", (simple false "x-ms-version" TString));
  ("date", (simple false "date" TDateTimeRfc1123)); ("errorCode", (simple false "x-ms-error-code" TString))]
  None.
Definition ContainerRenewLeaseHeaders : CompositeMapper := mkComposite "container-renewlease-headers" None
  "ContainerRenewLeaseHeaders" [("eTag", (simple false "etag" TString)); ("lastModified", (simple false
  "last-modified" TDateTimeRfc1123)); ("leaseId", (simple false "x-ms-lease-id" TString)); ("clientRequestId",
  (simple false "x-ms-client-request-id" TString)); ("requestId", (simple false "x-ms-request-id" TString));
  ("version", (simple false "x-ms-version" TString)); ("date", (simple false "date" TDateTimeRfc1123));
  ("errorCode", (simple false "x-ms-error-code" TString))] None.
Definition ContainerBreakLeaseHeaders : CompositeMapper := mkComposite "container-breaklease-headers" None
  "ContainerBreakLeaseHeaders" [("eTag", (simple false "etag" TString)); ("lastModified", (simple false
  "last-modified" TDateTimeRfc1123)); ("leaseTime", (simple false "x-ms-lease-time" TNumber));
  ("clientRequestId", (simple false "x-ms-client-request-id" TString)); ("requestId", (simple false
  "x-ms-request-id" TString)); ("version", (simple false "x-ms-version" TString)); ("date", (simple false "date"
  TDateTimeRfc1123)); ("errorCode", (simple false "x-ms-error-code" TString))] None.
Definition ContainerChangeLeaseHeaders : CompositeMapper := mkComposite "container-changelease-headers" None
  "ContainerChangeLeaseHeaders" [("eTag", (simple false "etag" TString)); ("lastModified", (simple false
  "last-modified" TDateTimeRfc1123)); ("leaseId", (simple false "x-ms-lease-id" TString)); ("clientRequestId",
  (simple false "x-ms-client-request-id" TString)); ("requestId", (simple false "x-ms-request-id" TString));
  ("version", (simple false "x-ms-version" TString)); ("date", (simple false "date" TDateTimeRfc1123));
  ("errorCode", (simple false "x-ms-error-code" TString))] None.
Definition ContainerListBlobFlatSegmentHeaders : CompositeMapper := mkComposite
  "container-listblobflatsegment-headers" None "ContainerListBlobFlatSegmentHeaders" [("contentType", (simple
  false "content-type" TString)); ("clientRequestId", (simple false "x-ms-client-request-id" TString));
  ("requestId", (simple false "x-ms-request-id" TString)); ("version", (simple false "x-ms-version" TString));
  ("date", (simple false "date" TDateTimeRfc1123)); ("errorCode", (simple false "x-ms-error-code" TString))]
  None.
Definition ContainerListBlobHierarchySegmentHeaders : CompositeMapper := mkComposite
  "container-listblobhierarchysegment-headers" None "ContainerListBlobHierarchySegmentHeaders" [("contentType",
  (simple false "content-type" TString)); ("clientRequestId", (simple false "x-ms-client-request-id" TString));
  ("requestId", (simple false "x-ms-request-id" TString)); ("version", (simple false "x-ms-version" TString));
  ("date", (simple false "date" TDateTimeRfc1123)); ("errorCode", (simple false "x-ms-error-code" TString))]
  None.
Definition ContainerGetAccountInfoHeaders : CompositeMapper := mkComposite "container-getaccountinfo-headers"
  None "ContainerGetAccountInfoHeaders" [("clientRequestId", (simple false "x-ms-client-request-id" TString));
  ("requestId", (simple false "x-ms-request-id" TString)); ("version", (simple false "x-ms-version" TString));
  ("date", (simple false "date" TDateTimeRfc1123)); ("skuName", (simple false "x-ms-sku-name" (TEnum
  ["Standard_LRS"; "Standard_GRS"; "Standard_RAGRS"; "Standard_ZRS"; "Premium_LRS"]))); ("accountKind", (simple
  false "x-ms-account-kind" (TEnum ["Storage"; "BlobStorage"; "StorageV2"; "FileStorage";
  "BlockBlobStorage"]))); ("errorCode", (simple false "x-ms-error-code" TString))] None.
Definition ContainerGetAccountInfoWithHeadHeaders : CompositeMapper := mkComposite
  "container-getaccountinfowithhead-headers" None "ContainerGetAccountInfoWithHeadHeaders" [("clientRequestId",
  (simple false "x-ms-client-request-id" TString)); ("requestId", (simple false "x-ms-request-id" TString));
  ("version", (simple false "x-ms-version" TString)); ("date", (simple false "date" TDateTimeRfc1123));
  ("skuName", (simple false "x-ms-sku-name" (TEnum ["Standard_LRS"; "Standard_GRS"; "Standard_RAGRS";
  "Standard_ZRS"; "Premium_LRS"]))); ("accountKind", (simple false "x-ms-account-kind" (TEnum ["Storage";
  "BlobStorage"; "StorageV2"; "FileStorage"; "BlockBlobStorage"]))); ("errorCode", (simple false
  "x-ms-error-code" TString))] None.
Definition BlobDownloadHeaders : CompositeMapper := mkComposite "blob-download-headers" None
  "BlobDownloadHeaders" [("lastModified", (simple false "last-modified" TDateTimeRfc1123)); ("metadata",
  (mkMapper false false "x-ms-meta" None (TDictionary TString) (Some "x-ms-meta-") [] None None false false));
  ("creationTime", (simple false "x-ms-creation-time" TDateTimeRfc1123)); ("objectReplicationPolicyId", (simple
  false "x-ms-or-policy-id" TString)); ("objectReplicationRules", (mkMapper false false "x-ms-or" None
  (TDictionary TString) (Some "x-ms-or-") [] None None false false)); ("contentLength", (simple false
  "content-length" TNumber)); ("contentType", (simple false "content-type" TString)); ("contentRange", (simple
  false "content-range" TString)); ("eTag", (simple false "etag" TString)); ("contentMD5", (simple false
  "content-md5" TByteArray)); ("contentEncoding", (simple false "content-encoding" TString)); ("cacheControl",
  (simple false "cache-control" TString)); ("contentDisposition", (simple false "content-disposition" TString));
  ("contentLanguage", (simple false "content-language" TString)); ("blobSequenceNumber", (simple false
  "x-ms-blob-sequence-number" TNumber)); ("blobType", (simple false "x-ms-blob-type" (TEnum ["BlockBlob";
  "PageBlob"; "AppendBlob"]))); ("copyCompletionTime", (simple false "x-ms-copy-completion-time"
  TDateTimeRfc1123)); ("copyStatusDescription", (simple false "x-ms-copy-status-description" TString));
  ("copyId", (simple false "x-ms-copy-id" TString)); ("copyProgress", (simple false "x-ms-copy-progress"
  TString)); ("copySource", (simple false "x-ms-copy-source" TString)); ("copyStatus", (simple false
  "x-ms-copy-status" (TEnum ["pending"; "success"; "aborted"; "failed"]))); ("leaseDuration", (simple false
  "x-ms-lease-duration" (TEnum ["infinite"; "fixed"]))); ("leaseState", (simple false "x-ms-lease-state" (TEnum
  ["available"; "leased"; "expired"; "breaking"; "broken"]))); ("leaseStatus", (simple false "x-ms-lease-status"
  (TEnum ["locked"; "unlocked"]))); ("clientRequestId", (simple false "x-ms-client-request-id" TString));
  ("requestId", (simple false "x-ms-request-id" TString)); ("version", (simple false "x-ms-version" TString));
  ("versionId", (simple false "x-ms-version-id" TString)); ("isCurrentVersion", (simple false
  "x-ms-is-current-version" TBoolean)); ("acceptRanges", (simple false "accept-ranges" TString)); ("date",
  (simple false "date" TDateTimeRfc1123)); ("blobCommittedBlockCount", (simple false
  "x-ms-blob-committed-block-count" TNumber)); ("isServerEncrypted", (simple false "x-ms-server-encrypted"
  TBoolean)); ("encryptionKeySha256", (simple false "x-ms-encryption-key-sha256" TString)); ("encryptionScope",
  (simple false "x-ms-encryption-scope" TString)); ("blobContentMD5", (simple false "x-ms-blob-content-md5"
  TByteArray)); ("tagCount", (simple false "x-ms-tag-count" TNumber)); ("isSealed", (simple false
  "x-ms-blob-sealed" TBoolean)); ("lastAccessed", (simple false "x-ms-last-access-time" TDateTimeRfc1123));
  ("immutabilityPolicyExpiresOn", (simple false "x-ms-immutability-policy-until-date" TDateTimeRfc1123));
  ("immutabilityPolicyMode", (simple false "x-ms-immutability-policy-mode" TString)); ("legalHold", (simple
  false "x-ms-legal-hold" TBoolean)); ("contentCrc64", (simple false "x-ms-content-crc64" TByteArray));
  ("errorCode", (simple false "x-ms-error-code" TString))] None.
Definition BlobGetPropertiesHeaders : CompositeMapper := mkComposite "blob-getproperties-headers" None
  "BlobGetPropertiesHeaders" [("lastModified", (simple false "last-modified" TDateTimeRfc1123));
  ("creationTime", (simple false "x-ms-creation-time" TDateTimeRfc1123)); ("metadata", (mkMapper false false
  "x-ms-meta" None (TDictionary TString) (Some "x-ms-meta-") [] None None false false));
  ("objectReplicationPolicyId", (simple false "x-ms-or-policy-id" TString)); ("objectReplicationRules",
  (mkMapper false false "x-ms-or" None (TDictionary TString) (Some "x-ms-or-") [] None None false false));
  ("blobType", (simple false "x-ms-blob-type" (TEnum ["BlockBlob"; "PageBlob"; "AppendBlob"])));
  ("copyCompletionTime", (simple false "x-ms-copy-completion-time" TDateTimeRfc1123)); ("copyStatusDescription",
  (simple false "x-ms-copy-status-description" TString)); ("copyId", (simple false "x-ms-copy-id" TString));
  ("copyProgress", (simple false "x-ms-copy-progress" TString)); ("copySource", (simple false "x-ms-copy-source"
  TString)); ("copyStatus", (simple false "x-ms-copy-status" (TEnum ["pending"; "success"; "aborted";
  "failed"]))); ("isIncrementalCopy", (simple false "x-ms-incremental-copy" TBoolean)); ("destinationSnapshot",
  (simple false "x-ms-copy-destination-snapshot" TString)); ("leaseDuration", (simple false
  "x-ms-lease-duration" (TEnum ["infinite"; "fixed"]))); ("leaseState", (simple false "x-ms-lease-state" (TEnum
  ["available"; "leased"; "expired"; "breaking"; "broken"]))); ("leaseStatus", (simple false "x-ms-lease-status"
  (TEnum ["locked"; "unlocked"]))); ("contentLength", (simple false "content-length" TNumber)); ("contentType",
  (simple false "content-type" TString)); ("eTag", (simple false "etag" TString)); ("contentMD5", (simple false
  "content-md5" TByteArray)); ("contentEncoding", (simple false "content-encoding" TString));
  ("contentDisposition", (simple false "content-disposition" TString)); ("contentLanguage", (simple false
  "content-language" TString)); ("cacheControl", (simple false "cache-control" TString)); ("blobSequenceNumber",
  (simple false "x-ms-blob-sequence-number" TNumber)); ("clientRequestId", (simple false
  "x-ms-client-request-id" TString)); ("requestId", (simple false "x-ms-request-id" TString)); ("version",
  (simple false "x-ms-version" TString)); ("date", (simple false "date" TDateTimeRfc1123)); ("acceptRanges",
  (simple false "accept-ranges" TString)); ("blobCommittedBlockCount", (simple false
  "x-ms-blob-committed-block-count" TNumber)); ("isServerEncrypted", (simple false "x-ms-server-encrypted"
  TBoolean)); ("encryptionKeySha256", (simple false "x-ms-encryption-key-sha256" TString)); ("encryptionScope",
  (simple false "x-ms-encryption-scope" TString)); ("accessTier", (simple false "x-ms-access-tier" TString));
  ("accessTierInferred", (simple false "x-ms-access-tier-inferred" TBoolean)); ("archiveStatus", (simple false
  "x-ms-archive-status" TString)); ("accessTierChangeTime", (simple false "x-ms-access-tier-change-time"
  TDateTimeRfc1123)); ("versionId", (simple false "x-ms-version-id" TString)); ("isCurrentVersion", (simple
  false "x-ms-is-current-version" TBoolean)); ("tagCount", (simple false "x-ms-tag-count" TNumber));
  ("expiresOn", (simple false "x-ms-expiry-time" TDateTimeRfc1123)); ("isSealed", (simple false
  "x-ms-blob-sealed" TBoolean)); ("rehydratePriority", (simple false "x-ms-rehydrate-priority" TString));
  ("lastAccessed", (simple false "x-ms-last-access-time" TDateTimeRfc1123)); ("immutabilityPolicyExpiresOn",
  (simple false "x-ms-immutability-policy-until-date" TDateTimeRfc1123)); ("immutabilityPolicyMode", (simple
  false "x-ms-immutability-policy-mode" (TEnum ["Mutable"; "Unlocked"; "Locked"]))); ("legalHold", (simple false
  "x-ms-legal-hold" TBoolean)); ("errorCode", (simple false "x-ms-error-code" TString))] None.
Definition BlobDeleteHeaders : CompositeMapper := mkComposite "blob-delete-headers" None "BlobDeleteHeaders"
  [("clientRequestId", (simple false "x-ms-client-request-id" TString)); ("requestId", (simple false
  "x-ms-request-id" TString)); ("version", (simple false "x-ms-version" TString)); ("date", (simple false "date"
  TDateTimeRfc1123)); ("deleteTypePermanent", (simple false "x-ms-delete-type-permanent" TBoolean));
  ("errorCode", (simple false "x-ms-error-code" TString))] None.
Definition PageBlobCreateHeaders : CompositeMapper := mkComposite "pageblob-create-headers" None
  "PageBlobCreateHeaders" [("eTag", (simple false "etag" TString)); ("lastModified", (simple false
  "last-modified" TDateTimeRfc1123)); ("contentMD5", (simple false "content-md5" TByteArray));
  ("clientRequestId", (simple false "x-ms-client-request-id" TString)); ("requestId", (simple false
  "x-ms-request-id" TString)); ("version", (simple false "x-ms-version" TString)); ("versionId", (simple false
  "x-ms-version-id" TString)); ("date", (simple false "date" TDateTimeRfc1123)); ("isServerEncrypted", (simple
  false "x-ms-request-server-encrypted" TBoolean)); ("encryptionKeySha256", (simple false
  "x-ms-encryption-key-sha256" TString)); ("encryptionScope", (simple false "x-ms-encryption-scope" TString));
  ("errorCode", (simple false "x-ms-error-code" TString))] None.
Definition AppendBlobCreateHeaders : CompositeMapper := mkComposite "appendblob-create-headers" None
  "AppendBlobCreateHeaders" [("eTag", (simple false "etag" TString)); ("lastModified", (simple false
  "last-modified" TDateTimeRfc1123)); ("contentMD5", (simple false "content-md5" TByteArray));
  ("clientRequestId", (simple false "x-ms-client-request-id" TString)); ("requestId", (simple false
  "x-ms-request-id" TString)); ("version", (simple false "x-ms-version" TString)); ("versionId", (simple false
  "x-ms-version-id" TString)); ("date", (simple false "date" TDateTimeRfc1123)); ("isServerEncrypted", (simple
  false "x-ms-request-server-encrypted" TBoolean)); ("encryptionKeySha256", (simple false
  "x-ms-encryption-key-sha256" TString)); ("encryptionScope", (simple false "x-ms-encryption-scope" TString));
  ("errorCode", (simple false "x-ms-error-code" TString))] None.
Definition BlockBlobUploadHeaders : CompositeMapper := mkComposite "blockblob-upload-headers" None
  "BlockBlobUploadHeaders" [("eTag", (simple false "etag" TString)); ("lastModified", (simple false
  "last-modified" TDateTimeRfc1123)); ("contentMD5", (simple false "content-md5" TByteArray));
  ("clientRequestId", (simple false "x-ms-client-request-id" TString)); ("requestId", (simple false
  "x-ms-request-id" TString)); ("version", (simple false "x-ms-version" TString)); ("versionId", (simple false
  "x-ms-version-id" TString)); ("date", (simple false "date" TDateTimeRfc1123)); ("isServerEncrypted", (simple
  false "x-ms-request-server-encrypted" TBoolean)); ("encryptionKeySha256", (simple false
  "x-ms-encryption-key-sha256" TString)); ("encryptionScope", (simple false "x-ms-encryption-scope" TString));
  ("errorCode", (simple false "x-ms-error-code" TString))] None.
Definition BlockBlobPutBlobFromUrlHeaders : CompositeMapper := mkComposite "blockblob-putblobfromurl-headers"
  None "BlockBlobPutBlobFromUrlHeaders" [("eTag", (simple false "etag" TString)); ("lastModified", (simple false
  "last-modified" TDateTimeRfc1123)); ("contentMD5", (simple false "content-md5" TByteArray));
  ("clientRequestId", (simple false "x-ms-client-request-id" TString)); ("requestId", (simple false
  "x-ms-request-id" TString)); ("version", (simple false "x-ms-version" TString)); ("versionId", (simple false
  "x-ms-version-id" TString)); ("date", (simple false "date" TDateTimeRfc1123)); ("isServerEncrypted", (simple
  false "x-ms-request-server-encrypted" TBoolean)); ("encryptionKeySha256", (simple false
  "x-ms-encryption-key-sha256" TString)); ("encryptionScope", (simple false "x-ms-encryption-scope" TString));
  ("errorCode", (simple false "x-ms-error-code" TString))] None.
Definition BlobUndeleteHeaders : CompositeMapper := mkComposite "blob-undelete-headers" None
  "BlobUndeleteHeaders" [("clientRequestId", (simple false "x-ms-client-request-id" TString)); ("requestId",
  (simple false "x-ms-request-id" TString)); ("version", (simple false "x-ms-version" TString)); ("date",
  (simple false "date" TDateTimeRfc1123)); ("errorCode", (simple false "x-ms-error-code" TString))] None.
Definition BlobSetExpiryHeaders : CompositeMapper := mkComposite "blob-setexpiry-headers" None
  "BlobSetExpiryHeaders" [("eTag", (simple false "etag" TString)); ("lastModified", (simple false
  "last-modified" TDateTimeRfc1123)); ("clientRequestId", (simple false "x-ms-client-request-id" TString));
  ("requestId", (simple false "x-ms-request-id" TString)); ("version", (simple false "x-ms-version" TString));
  ("date", (simple false "date" TDateTimeRfc1123)); ("errorCode", (simple false "x-ms-error-code" TString))]
  None.
Definition BlobSetHTTPHeadersHeaders : CompositeMapper := mkComposite "blob-sethttpheaders-headers" None
  "BlobSetHTTPHeadersHeaders" [("eTag", (simple false "etag" TString)); ("lastModified", (simple false
  "last-modified" TDateTimeRfc1123)); ("blobSequenceNumber", (simple false "x-ms-blob-sequence-number"
  TNumber)); ("clientRequestId", (simple false "x-ms-client-request-id" TString)); ("requestId", (simple false
  "x-ms-request-id" TString)); ("version", (simple false "x-ms-version" TString)); ("date", (simple false "date"
  TDateTimeRfc1123)); ("errorCode", (simple false "x-ms-error-code" TString))] None.
Definition BlobSetImmutabilityPolicyHeaders : CompositeMapper := mkComposite
  "blob-setimmutabilitypolicy-headers" None "BlobSetImmutabilityPolicyHeaders" [("clientRequestId", (simple
  false "x-ms-client-request-id" TString)); ("requestId", (simple false "x-ms-request-id" TString)); ("version",
  (simple false "x-ms-version" TString)); ("date", (simple false "date" TDateTimeRfc1123));
  ("immutabilityPolicyExpiry", (simple false "x-ms-immutability-policy-until-date" TDateTimeRfc1123));
  ("immutabilityPolicyMode", (simple false "x-ms-immutability-policy-mode" (TEnum ["Mutable"; "Unlocked";
  "Locked"]))); ("errorCode", (simple false "x-ms-error-code" TString))] None.
Definition BlobDeleteImmutabilityPolicyHeaders : CompositeMapper := mkComposite
  "blob-deleteimmutabilitypolicy-headers" None "BlobDeleteImmutabilityPolicyHeaders" [("clientRequestId",
  (simple false "x-ms-client-request-id" TString)); ("requestId", (simple false "x-ms-request-id" TString));
  ("version", (simple false "x-ms-version" TString)); ("date", (simple false "date" TDateTimeRfc1123));
  ("errorCode", (simple false "x-ms-error-code" TString))] None.
Definition BlobSetLegalHoldHeaders : CompositeMapper := mkComposite "blob-setlegalhold-headers" None
  "BlobSetLegalHoldHeaders" [("clientRequestId", (simple false "x-ms-client-request-id" TString)); ("requestId",
  (simple false "x-ms-request-id" TString)); ("version", (simple false "x-ms-version" TString)); ("date",
  (simple false "date" TDateTimeRfc1123)); ("legalHold", (simple false "x-ms-legal-hold" TBoolean));
  ("errorCode", (simple false "x-ms-error-code" TString))] None.
Definition BlobSetMetadataHeaders : CompositeMapper := mkComposite "blob-setmetadata-headers" None
  "BlobSetMetadataHeaders" [("eTag", (simple false "etag" TString)); ("lastModified", (simple false
  "last-modified" TDateTimeRfc1123)); ("clientRequestId", (simple false "x-ms-client-request-id" TString));
  ("requestId", (simple false "x-ms-request-id" TString)); ("version", (simple false "x-ms-version" TString));
  ("versionId", (simple false "x-ms-version-id" TString)); ("date", (simple false "date" TDateTimeRfc1123));
  ("isServerEncrypted", (simple false "x-ms-request-server-encrypted" TBoolean)); ("encryptionKeySha256",
  (simple false "x-ms-encryption-key-sha256" TString)); ("encryptionScope", (simple false
  "x-ms-encryption-scope" TString)); ("errorCode", (simple false "x-ms-error-code" TString))] None.
Definition BlobAcquireLeaseHeaders : CompositeMapper := mkComposite "blob-acquirelease-headers" None
  "BlobAcquireLeaseHeaders" [("eTag", (simple false "etag" TString)); ("lastModified", (simple false
  "last-modified" TDateTimeRfc1123)); ("leaseId", (simple false "x-ms-lease-id" TString)); ("clientRequestId",
  (simple false "x-ms-client-request-id" TString)); ("requestId", (simple false "x-ms-request-id" TString));
  ("version", (simple false "x-ms-version" TString)); ("date", (simple false "date" TDateTimeRfc1123));
  ("errorCode", (simple false "x-ms-error-code" TString))] None.
Definition BlobReleaseLeaseHeaders : CompositeMapper := mkComposite "blob-releaselease-headers" None
  "BlobReleaseLeaseHeaders" [("eTag", (simple false "etag" TString)); ("lastModified", (simple false
  "last-modified" TDateTimeRfc1123)); ("clientRequestId", (simple false "x-ms-client-request-id" TString));
  ("requestId", (simple false "x-ms-request-id" TString)); ("version", (simple false "x-ms-version" TString));
  ("date", (simple false "date" TDateTimeRfc1123)); ("errorCode", (simple false "x-ms-error-code" TString))]
  None.
Definition BlobRenewLeaseHeaders : CompositeMapper := mkComposite "blob-renewlease-headers" None
  "BlobRenewLeaseHeaders" [("eTag", (simple false "etag" TString)); ("lastModified", (simple false
  "last-modified" TDateTimeRfc1123)); ("leaseId", (simple false "x-ms-lease-id" TString)); ("clientRequestId",
  (simple false "x-ms-client-request-id" TString)); ("requestId", (simple false "x-ms-request-id" TString));
  ("version", (simple false "x-ms-version" TString)); ("date", (simple false "date" TDateTimeRfc1123));
  ("errorCode", (simple false "x-ms-error-code" TString))] None.
Definition BlobChangeLeaseHeaders : CompositeMapper := mkComposite "blob-changelease-headers" None
  "BlobChangeLeaseHeaders" [("eTag", (simple false "etag" TString)); ("lastModified", (simple false
  "last-modified" TDateTimeRfc1123)); ("clientRequestId", (simple false "x-ms-client-request-id" TString));
  ("requestId", (simple false "x-ms-request-id" TString)); ("leaseId", (simple false "x-ms-lease-id" TString));
  ("version", (simple false "x-ms-version" TString)); ("date", (simple false "date" TDateTimeRfc1123));
  ("errorCode", (simple false "x-ms-error-code" TString))] None.
Definition BlobBreakLeaseHeaders : CompositeMapper := mkComposite "blob-breaklease-headers" None
  "BlobBreakLeaseHeaders" [("eTag", (simple false "etag" TString)); ("lastModified", (simple false
  "last-modified" TDateTimeRfc1123)); ("leaseTime", (simple false "x-ms-lease-time" TNumber));
  ("clientRequestId", (simple false "x-ms-client-request-id" TString)); ("requestId", (simple false
  "x-ms-request-id" TString)); ("version", (simple false "x-ms-version" TString)); ("date", (simple false "date"
  TDateTimeRfc1123)); ("errorCode", (simple false "x-ms-error-code" TString))] None.
Definition BlobCreateSnapshotHeaders : CompositeMapper := mkComposite "blob-createsnapshot-headers" None
  "BlobCreateSnapshotHeaders" [("snapshot", (simple false "x-ms-snapshot" TString)); ("eTag", (simple false
  "etag" TString)); ("lastModified", (simple false "last-modified" TDateTimeRfc1123)); ("clientRequestId",
  (simple false "x-ms-client-request-id" TString)); ("requestId", (simple false "x-ms-request-id" TString));
  ("version", (simple false "x-ms-version" TString)); ("versionId", (simple false "x-ms-version-id" TString));
  ("date", (simple false "date" TDateTimeRfc1123)); ("isServerEncrypted", (simple false
  "x-ms-request-server-encrypted" TBoolean)); ("errorCode", (simple false "x-ms-error-code" TString))] None.
Definition BlobStartCopyFromURLHeaders : CompositeMapper := mkComposite "blob-startcopyfromurl-headers" None
  "BlobStartCopyFromURLHeaders" [("eTag", (simple false "etag" TString)); ("lastModified", (simple false
  "last-modified" TDateTimeRfc1123)); ("clientRequestId", (simple false "x-ms-client-request-id" TString));
  ("requestId", (simple false "x-ms-request-id" TString)); ("version", (simple false "x-ms-version" TString));
  ("versionId", (simple false "x-ms-version-id" TString)); ("date", (simple false "date" TDateTimeRfc1123));
  ("copyId", (simple false "x-ms-copy-id" TString)); ("copyStatus", (simple false "x-ms-copy-status" (TEnum
  ["pending"; "success"; "aborted"; "failed"]))); ("errorCode", (simple false "x-ms-error-code" TString))] None.
Definition BlobCopyFromURLHeaders : CompositeMapper := mkComposite "blob-copyfromurl-headers" None
  "BlobCopyFromURLHeaders" [("eTag", (simple false "etag" TString)); ("lastModified", (simple false
  "last-modified" TDateTimeRfc1123)); ("clientRequestId", (simple false "x-ms-client-request-id" TString));
  ("requestId", (simple false "x-ms-request-id" TString)); ("version", (simple false "x-ms-version" TString));
  ("versionId", (simple false "x-ms-version-id" TString)); ("date", (simple false "date" TDateTimeRfc1123));
  ("copyId", (simple false "x-ms-copy-id" TString)); ("copyStatus", (simple false "x-ms-copy-status" (TEnum
  ["success"]))); ("contentMD5", (simple false "content-md5" TByteArray)); ("xMsContentCrc64", (simple false
  "x-ms-content-crc64" TByteArray)); ("encryptionScope", (simple false "x-ms-encryption-scope" TString));
  ("errorCode", (simple false "x-ms-error-code" TString))] None.
Definition BlobAbortCopyFromURLHeaders : CompositeMapper := mkComposite "blob-abortcopyfromurl-headers" None
  "BlobAbortCopyFromURLHeaders" [("clientRequestId", (simple false "x-ms-client-request-id" TString));
  ("requestId", (simple false "x-ms-request-id" TString)); ("version", (simple false "x-ms-version" TString));
  ("date", (simple false "date" TDateTimeRfc1123)); ("errorCode", (simple false "x-ms-error-code" TString))]
  None.
Definition BlobSetTierHeaders : CompositeMapper := mkComposite "blob-settier-headers" None "BlobSetTierHeaders"
  [("clientRequestId", (simple false "x-ms-client-request-id" TString)); ("requestId", (simple false
  "x-ms-request-id" TString)); ("version", (simple false "x-ms-version" TString)); ("errorCode", (simple false
  "x-ms-error-code" TString))] None.
Definition BlobGetAccountInfoHeaders : CompositeMapper := mkComposite "blob-getaccountinfo-headers" None
  "BlobGetAccountInfoHeaders" [("clientRequestId", (simple false "x-ms-client-request-id" TString));
  ("requestId", (simple false "x-ms-request-id" TString)); ("version", (simple false "x-ms-version" TString));
  ("date", (simple false "date" TDateTimeRfc1123)); ("skuName", (simple false "x-ms-sku-name" (TEnum
  ["Standard_LRS"; "Standard_GRS"; "Standard_RAGRS"; "Standard_ZRS"; "Premium_LRS"]))); ("accountKind", (simple
  false "x-ms-account-kind" (TEnum ["Storage"; "BlobStorage"; "StorageV2"; "FileStorage";
  "BlockBlobStorage"]))); ("errorCode", (simple false "x-ms-error-code" TString))] None.
Definition BlobGetAccountInfoWithHeadHeaders : CompositeMapper := mkComposite
  "blob-getaccountinfowithhead-headers" None "BlobGetAccountInfoWithHeadHeaders" [("clientRequestId", (simple
  false "x-ms-client-request-id" TString)); ("requestId", (simple false "x-ms-request-id" TString)); ("version",
  (simple false "x-ms-version" TString)); ("date", (simple false "date" TDateTimeRfc1123)); ("skuName", (simple
  false "x-ms-sku-name" (TEnum ["Standard_LRS"; "Standard_GRS"; "Standard_RAGRS"; "Standard_ZRS";
  "Premium_LRS"]))); ("accountKind", (simple false "x-ms-account-kind" (TEnum ["Storage"; "BlobStorage";
  "StorageV2"; "FileStorage"; "BlockBlobStorage"]))); ("errorCode", (simple false "x-ms-error-code" TString))]
  None.
Definition BlockBlobStageBlockHeaders : CompositeMapper := mkComposite "blockblob-stageblock-headers" None
  "BlockBlobStageBlockHeaders" [("contentMD5", (simple false "content-md5" TByteArray)); ("clientRequestId",
  (simple false "x-ms-client-request-id" TString)); ("requestId", (simple false "x-ms-request-id" TString));
  ("version", (simple false "x-ms-version" TString)); ("date", (simple false "date" TDateTimeRfc1123));
  ("xMsContentCrc64", (simple false "x-ms-content-crc64" TByteArray)); ("isServerEncrypted", (simple false
  "x-ms-request-server-encrypted" TBoolean)); ("encryptionKeySha256", (simple false "x-ms-encryption-key-sha256"
  TString)); ("encryptionScope", (simple false "x-ms-encryption-scope" TString)); ("errorCode", (simple false
  "x-ms-error-code" TString))] None.
Definition BlockBlobStageBlockFromURLHeaders : CompositeMapper := mkComposite
  "blockblob-stageblockfromurl-headers" None "BlockBlobStageBlockFromURLHeaders" [("contentMD5", (simple false
  "content-md5" TByteArray)); ("xMsContentCrc64", (simple false "x-ms-content-crc64" TByteArray));
  ("clientRequestId", (simple false "x-ms-client-request-id" TString)); ("requestId", (simple false
  "x-ms-request-id" TString)); ("version", (simple false "x-ms-version" TString)); ("date", (simple false "date"
  TDateTimeRfc1123)); ("isServerEncrypted", (simple false "x-ms-request-server-encrypted" TBoolean));
  ("encryptionKeySha256", (simple false "x-ms-encryption-key-sha256" TString)); ("encryptionScope", (simple
  false "x-ms-encryption-scope" TString)); ("errorCode", (simple false "x-ms-error-code" TString))] None.
Definition BlockBlobCommitBlockListHeaders : CompositeMapper := mkComposite "blockblob-commitblocklist-headers"
  None "BlockBlobCommitBlockListHeaders" [("eTag", (simple false "etag" TString)); ("lastModified", (simple
  false "last-modified" TDateTimeRfc1123)); ("contentMD5", (simple false "content-md5" TByteArray));
  ("xMsContentCrc64", (simple false "x-ms-content-crc64" TByteArray)); ("clientRequestId", (simple false
  "x-ms-client-request-id" TString)); ("requestId", (simple false "x-ms-request-id" TString)); ("version",
  (simple false "x-ms-version" TString)); ("versionId", (simple false "x-ms-version-id" TString)); ("date",
  (simple false "date" TDateTimeRfc1123)); ("isServerEncrypted", (simple false "x-ms-request-server-encrypted"
  TBoolean)); ("encryptionKeySha256", (simple false "x-ms-encryption-key-sha256" TString)); ("encryptionScope",
  (simple false "x-ms-encryption-scope" TString)); ("errorCode", (simple false "x-ms-error-code" TString))]
  None.
Definition BlockBlobGetBlockListHeaders : CompositeMapper := mkComposite "blockblob-getblocklist-headers" None
  "BlockBlobGetBlockListHeaders" [("lastModified", (simple false "last-modified" TDateTimeRfc1123)); ("eTag",
  (simple false "etag" TString)); ("contentType", (simple false "content-type" TString)); ("blobContentLength",
  (simple false "x-ms-blob-content-length" TNumber)); ("clientRequestId", (simple false "x-ms-client-request-id"
  TString)); ("requestId", (simple false "x-ms-request-id" TString)); ("version", (simple false "x-ms-version"
  TString)); ("date", (simple false "date" TDateTimeRfc1123)); ("errorCode", (simple false "x-ms-error-code"
  TString))] None.
Definition PageBlobUploadPagesHeaders : CompositeMapper := mkComposite "pageblob-uploadpages-headers" None
  "PageBlobUploadPagesHeaders" [("eTag", (simple false "etag" TString)); ("lastModified", (simple false
  "last-modified" TDateTimeRfc1123)); ("contentMD5", (simple false "content-md5" TByteArray));
  ("xMsContentCrc64", (simple false "x-ms-content-crc64" TByteArray)); ("blobSequenceNumber", (simple false
  "x-ms-blob-sequence-number" TNumber)); ("clientRequestId", (simple false "x-ms-client-request-id" TString));
  ("requestId", (simple false "x-ms-request-id" TString)); ("version", (simple false "x-ms-version" TString));
  ("date", (simple false "date" TDateTimeRfc1123)); ("isServerEncrypted", (simple false
  "x-ms-request-server-encrypted" TBoolean)); ("encryptionKeySha256", (simple false "x-ms-encryption-key-sha256"
  TString)); ("encryptionScope", (simple false "x-ms-encryption-scope" TString)); ("errorCode", (simple false
  "x-ms-error-code" TString))] None.
Definition PageBlobClearPagesHeaders : CompositeMapper := mkComposite "pageblob-clearpages-headers" None
  "PageBlobClearPagesHeaders" [("eTag", (simple false "etag" TString)); ("lastModified", (simple false
  "last-modified" TDateTimeRfc1123)); ("contentMD5", (simple false "content-md5" TByteArray));
  ("xMsContentCrc64", (simple false "x-ms-content-crc64" TByteArray)); ("blobSequenceNumber", (simple false
  "x-ms-blob-sequence-number" TNumber)); ("clientRequestId", (simple false "x-ms-client-request-id" TString));
  ("requestId", (simple false "x-ms-request-id" TString)); ("version", (simple false "x-ms-version" TString));
  ("date", (simple false "date" TDateTimeRfc1123)); ("errorCode", (simple false "x-ms-error-code" TString))]
  None.
Definition PageBlobUploadPagesFromURLHeaders : CompositeMapper := mkComposite
  "pageblob-uploadpagesfromurl-headers" None "PageBlobUploadPagesFromURLHeaders" [("eTag", (simple false "etag"
  TString)); ("lastModified", (simple false "last-modified" TDateTimeRfc1123)); ("contentMD5", (simple false
  "content-md5" TByteArray)); ("xMsContentCrc64", (simple false "x-ms-content-crc64" TByteArray));
  ("blobSequenceNumber", (simple false "x-ms-blob-sequence-number" TNumber)); ("requestId", (simple false
  "x-ms-request-id" TString)); ("version", (simple false "x-ms-version" TString)); ("date", (simple false "date"
  TDateTimeRfc1123)); ("isServerEncrypted", (simple false "x-ms-request-server-encrypted" TBoolean));
  ("encryptionKeySha256", (simple false "x-ms-encryption-key-sha256" TString)); ("encryptionScope", (simple
  false "x-ms-encryption-scope" TString)); ("errorCode", (simple false "x-ms-error-code" TString))] None.
Definition PageBlobGetPageRangesHeaders : CompositeMapper := mkComposite "pageblob-getpageranges-headers" None
  "PageBlobGetPageRangesHeaders" [("lastModified", (simple false "last-modified" TDateTimeRfc1123)); ("eTag",
  (simple false "etag" TString)); ("blobContentLength", (simple false "x-ms-blob-content-length" TNumber));
  ("clientRequestId", (simple false "x-ms-client-request-id" TString)); ("requestId", (simple false
  "x-ms-request-id" TString)); ("version", (simple false "x-ms-version" TString)); ("date", (simple false "date"
  TDateTimeRfc1123)); ("errorCode", (simple false "x-ms-error-code" TString))] None.
Definition PageBlobGetPageRangesDiffHeaders : CompositeMapper := mkComposite
  "pageblob-getpagerangesdiff-headers" None "PageBlobGetPageRangesDiffHeaders" [("lastModified", (simple false
  "last-modified" TDateTimeRfc1123)); ("eTag", (simple false "etag" TString)); ("blobContentLength", (simple
  false "x-ms-blob-content-length" TNumber)); ("clientRequestId", (simple false "x-ms-client-request-id"
  TString)); ("requestId", (simple false "x-ms-request-id" TString)); ("version", (simple false "x-ms-version"
  TString)); ("date", (simple false "date" TDateTimeRfc1123)); ("errorCode", (simple false "x-ms-error-code"
  TString))] None.
Definition PageBlobResizeHeaders : CompositeMapper := mkComposite "pageblob-resize-headers" None
  "PageBlobResizeHeaders" [("eTag", (simple false "etag" TString)); ("lastModified", (simple false
  "last-modified" TDateTimeRfc1123)); ("blobSequenceNumber", (simple false "x-ms-blob-sequence-number"
  TNumber)); ("clientRequestId", (simple false "x-ms-client-request-id" TString)); ("requestId", (simple false
  "x-ms-request-id" TString)); ("version", (simple false "x-ms-version" TString)); ("date", (simple false "date"
  TDateTimeRfc1123)); ("errorCode", (simple false "x-ms-error-code" TString))] None.
Definition PageBlobUpdateSequenceNumberHeaders : CompositeMapper := mkComposite
  "pageblob-updatesequencenumber-headers" None "PageBlobUpdateSequenceNumberHeaders" [("eTag", (simple false
  "etag" TString)); ("lastModified", (simple false "last-modified" TDateTimeRfc1123)); ("blobSequenceNumber",
  (simple false "x-ms-blob-sequence-number" TNumber)); ("clientRequestId", (simple false
  "x-ms-client-request-id" TString)); ("requestId", (simple false "x-ms-request-id" TString)); ("version",
  (simple false "x-ms-version" TString)); ("date", (simple false "date" TDateTimeRfc1123)); ("errorCode",
  (simple false "x-ms-error-code" TString))] None.
Definition PageBlobCopyIncrementalHeaders : CompositeMapper := mkComposite "pageblob-copyincremental-headers"
  None "PageBlobCopyIncrementalHeaders" [("eTag", (simple false "etag" TString)); ("lastModified", (simple false
  "last-modified" TDateTimeRfc1123)); ("clientRequestId", (simple false "x-ms-client-request-id" TString));
  ("requestId", (simple false "x-ms-request-id" TString)); ("version", (simple false "x-ms-version" TString));
  ("date", (simple false "date" TDateTimeRfc1123)); ("copyId", (simple false "x-ms-copy-id" TString));
  ("copyStatus", (simple false "x-ms-copy-status" (TEnum ["pending"; "success"; "aborted"; "failed"])));
  ("errorCode", (simple false "x-ms-error-code" TString))] None.
Definition AppendBlobAppendBlockHeaders : CompositeMapper := mkComposite "appendblob-appendblock-headers" None
  "AppendBlobAppendBlockHeaders" [("eTag", (simple false "etag" TString)); ("lastModified", (simple false
  "last-modified" TDateTimeRfc1123)); ("contentMD5", (simple false "content-md5" TByteArray));
  ("xMsContentCrc64", (simple false "x-ms-content-crc64" TByteArray)); ("clientRequestId", (simple false
  "x-ms-client-request-id" TString)); ("requestId", (simple false "x-ms-request-id" TString)); ("version",
  (simple false "x-ms-version" TString)); ("date", (simple false "date" TDateTimeRfc1123)); ("blobAppendOffset",
  (simple false "x-ms-blob-append-offset" TString)); ("blobCommittedBlockCount", (simple false
  "x-ms-blob-committed-block-count" TNumber)); ("isServerEncrypted", (simple false
  "x-ms-request-server-encrypted" TBoolean)); ("encryptionKeySha256", (simple false "x-ms-encryption-key-sha256"
  TString)); ("encryptionScope", (simple false "x-ms-encryption-scope" TString)); ("errorCode", (simple false
  "x-ms-error-code" TString))] None.
Definition AppendBlobAppendBlockFromUrlHeaders : CompositeMapper := mkComposite
  "appendblob-appendblockfromurl-headers" None "AppendBlobAppendBlockFromUrlHeaders" [("eTag", (simple false
  "etag" TString)); ("lastModified", (simple false "last-modified" TDateTimeRfc1123)); ("contentMD5", (simple
  false "content-md5" TByteArray)); ("xMsContentCrc64", (simple false "x-ms-content-crc64" TByteArray));
  ("requestId", (simple false "x-ms-request-id" TString)); ("version", (simple false "x-ms-version" TString));
  ("date", (simple false "date" TDateTimeRfc1123)); ("blobAppendOffset", (simple false "x-ms-blob-append-offset"
  TString)); ("blobCommittedBlockCount", (simple false "x-ms-blob-committed-block-count" TNumber));
  ("encryptionKeySha256", (simple false "x-ms-encryption-key-sha256" TString)); ("encryptionScope", (simple
  false "x-ms-encryption-scope" TString)); ("isServerEncrypted", (simple false "x-ms-request-server-encrypted"
  TBoolean)); ("errorCode", (simple false "x-ms-error-code" TString))] None.
Definition AppendBlobSealHeaders : CompositeMapper := mkComposite "appendblob-seal-headers" None
  "AppendBlobSealHeaders" [("eTag", (simple false "etag" TString)); ("lastModified", (simple false
  "last-modified" TDateTimeRfc1123)); ("clientRequestId", (simple false "x-ms-client-request-id" TString));
  ("requestId", (simple false "x-ms-request-id" TString)); ("version", (simple false "x-ms-version" TString));
  ("date", (simple false "date" TDateTimeRfc1123)); ("isSealed", (simple false "x-ms-blob-sealed" TBoolean));
  ("errorCode", (simple false "x-ms-error-code" TString))] None.
Definition BlobQueryHeaders : CompositeMapper := mkComposite "blob-query-headers" None "BlobQueryHeaders"
  [("lastModified", (simple false "last-modified" TDateTimeRfc1123)); ("metadata", (mkMapper false false
  "x-ms-meta" None (TDictionary TString) (Some "x-ms-meta-") [] None None false false)); ("contentLength",
  (simple false "content-length" TNumber)); ("contentType", (simple false "content-type" TString));
  ("contentRange", (simple false "content-range" TString)); ("eTag", (simple false "etag" TString));
  ("contentMD5", (simple false "content-md5" TByteArray)); ("contentEncoding", (simple false "content-encoding"
  TString)); ("cacheControl", (simple false "cache-control" TString)); ("contentDisposition", (simple false
  "content-disposition" TString)); ("contentLanguage", (simple false "content-language" TString));
  ("blobSequenceNumber", (simple false "x-ms-blob-sequence-number" TNumber)); ("blobType", (simple false
  "x-ms-blob-type" (TEnum ["BlockBlob"; "PageBlob"; "AppendBlob"]))); ("copyCompletionTime", (simple false
  "x-ms-copy-completion-time" TDateTimeRfc1123)); ("copyStatusDescription", (simple false
  "x-ms-copy-status-description" TString)); ("copyId", (simple false "x-ms-copy-id" TString)); ("copyProgress",
  (simple false "x-ms-copy-progress" TString)); ("copySource", (simple false "x-ms-copy-source" TString));
  ("copyStatus", (simple false "x-ms-copy-status" (TEnum ["pending"; "success"; "aborted"; "failed"])));
  ("leaseDuration", (simple false "x-ms-lease-duration" (TEnum ["infinite"; "fixed"]))); ("leaseState", (simple
  false "x-ms-lease-state" (TEnum ["available"; "leased"; "expired"; "breaking"; "broken"]))); ("leaseStatus",
  (simple false "x-ms-lease-status" (TEnum ["locked"; "unlocked"]))); ("clientRequestId", (simple false
  "x-ms-client-request-id" TString)); ("requestId", (simple false "x-ms-request-id" TString)); ("version",
  (simple false "x-ms-version" TString)); ("acceptRanges", (simple false "accept-ranges" TString)); ("date",
  (simple false "date" TDateTimeRfc1123)); ("blobCommittedBlockCount", (simple false
  "x-ms-blob-committed-block-count" TNumber)); ("isServerEncrypted", (simple false "x-ms-server-encrypted"
  TBoolean)); ("encryptionKeySha256", (simple false "x-ms-encryption-key-sha256" TString)); ("encryptionScope",
  (simple false "x-ms-encryption-scope" TString)); ("blobContentMD5", (simple false "x-ms-blob-content-md5"
  TByteArray)); ("contentCrc64", (simple false "x-ms-content-crc64" TByteArray)); ("errorCode", (simple false
  "x-ms-error-code" TString))] None.
Definition BlobGetTagsHeaders : CompositeMapper := mkComposite "blob-gettags-headers" None "BlobGetTagsHeaders"
  [("clientRequestId", (simple false "x-ms-client-request-id" TString)); ("requestId", (simple false
  "x-ms-request-id" TString)); ("version", (simple false "x-ms-version" TString)); ("date", (simple false "date"
  TDateTimeRfc1123)); ("errorCode", (simple false "x-ms-error-code" TString))] None.
Definition BlobSetTagsHeaders : CompositeMapper := mkComposite "blob-settags-headers" None "BlobSetTagsHeaders"
  [("clientRequestId", (simple false "x-ms-client-request-id" TString)); ("requestId", (simple false
  "x-ms-request-id" TString)); ("version", (simple false "x-ms-version" TString)); ("date", (simple false "date"
  TDateTimeRfc1123)); ("errorCode", (simple false "x-ms-error-code" TString))] None.
Definition all : list CompositeMapper := [KeyInfo; UserDelegationKey; StorageError; AccessPolicy;
  BlobPropertiesInternal; BlobMetadata; BlobTag; BlobTags; BlobItemInternal; BlobFlatListSegment;
  ListBlobsFlatSegmentResponse; BlobPrefix; BlobHierarchyListSegment; ListBlobsHierarchySegmentResponse;
  BlobName; Block; BlockList; BlockLookupList; ContainerProperties; ContainerItem; DelimitedTextConfiguration;
  JsonTextConfiguration; ArrowField; ArrowConfiguration; ListContainersSegmentResponse; CorsRule;
  FilterBlobItem; FilterBlobSegment; GeoReplication; RetentionPolicy; Logging; Metrics; PageRange; ClearRange;
  PageList; QueryFormat; QuerySerialization; QueryRequest; SignedIdentifier; StaticWebsite;
  StorageServiceProperties; StorageServiceStats; ContainerCpkScopeInfo; LeaseAccessConditions;
  ModifiedAccessConditions; CpkInfo; BlobHTTPHeaders; CpkScopeInfo; SourceModifiedAccessConditions;
  SequenceNumberAccessConditions; AppendPositionAccessConditions; ServiceSetPropertiesHeaders;
  ServiceGetPropertiesHeaders; ServiceGetStatisticsHeaders; ServiceListContainersSegmentHeaders;
  ServiceGetUserDelegationKeyHeaders; ServiceGetAccountInfoHeaders; ServiceGetAccountInfoWithHeadHeaders;
  ServiceSubmitBatchHeaders; ServiceFilterBlobsHeaders; ContainerCreateHeaders; ContainerGetPropertiesHeaders;
  ContainerGetPropertiesWithHeadHeaders; ContainerDeleteHeaders; ContainerSetMetadataHeaders;
  ContainerGetAccessPolicyHeaders; ContainerSetAccessPolicyHeaders; ContainerRestoreHeaders;
  ContainerSubmitBatchHeaders; ContainerFilterBlobsHeaders; ContainerAcquireLeaseHeaders;
  ContainerReleaseLeaseHeaders; ContainerRenewLeaseHeaders; ContainerBreakLeaseHeaders;
  ContainerChangeLeaseHeaders; ContainerListBlobFlatSegmentHeaders; ContainerListBlobHierarchySegmentHeaders;
  ContainerGetAccountInfoHeaders; ContainerGetAccountInfoWithHeadHeaders; BlobDownloadHeaders;
  BlobGetPropertiesHeaders; BlobDeleteHeaders; PageBlobCreateHeaders; AppendBlobCreateHeaders;
  BlockBlobUploadHeaders; BlockBlobPutBlobFromUrlHeaders; BlobUndeleteHeaders; BlobSetExpiryHeaders;
  BlobSetHTTPHeadersHeaders; BlobSetImmutabilityPolicyHeaders; BlobDeleteImmutabilityPolicyHeaders;
  BlobSetLegalHoldHeaders; BlobSetMetadataHeaders; BlobAcquireLeaseHeaders; BlobReleaseLeaseHeaders;
  BlobRenewLeaseHeaders; BlobChangeLeaseHeaders; BlobBreakLeaseHeaders; BlobCreateSnapshotHeaders;
  BlobStartCopyFromURLHeaders; BlobCopyFromURLHeaders; BlobAbortCopyFromURLHeaders; BlobSetTierHeaders;
  BlobGetAccountInfoHeaders; BlobGetAccountInfoWithHeadHeaders; BlockBlobStageBlockHeaders;
  BlockBlobStageBlockFromURLHeaders; BlockBlobCommitBlockListHeaders; BlockBlobGetBlockListHeaders;
  PageBlobUploadPagesHeaders; PageBlobClearPagesHeaders; PageBlobUploadPagesFromURLHeaders;
  PageBlobGetPageRangesHeaders; PageBlobGetPageRangesDiffHeaders; PageBlobResizeHeaders;
  PageBlobUpdateSequenceNumberHeaders; PageBlobCopyIncrementalHeaders; AppendBlobAppendBlockHeaders;
  AppendBlobAppendBlockFromUrlHeaders; AppendBlobSealHeaders; BlobQueryHeaders; BlobGetTagsHeaders;
  BlobSetTagsHeaders].
End BlobMappers.

(** ** src/src/queue/generated/artifacts/mappers.ts *)

Module QueueMappers.
Definition AccessPolicy : CompositeMapper := mkComposite "AccessPolicy" None "AccessPolicy" [("start", (named
  "Start" false "Start" TString)); ("expiry", (named "Expiry" false "Expiry" TString)); ("permission", (named
  "Permission" false "Permission" TString))] None.
Definition QueueItem : CompositeMapper := mkComposite "QueueItem" (Some "Queue") "QueueItem" [("name", (named
  "Name" true "Name" TString)); ("metadata", (named "Metadata" false "Metadata" (TDictionary TString)))] None.
Definition ListQueuesSegmentResponse : CompositeMapper := mkComposite "ListQueuesSegmentResponse" (Some
  "EnumerationResults") "ListQueuesSegmentResponse" [("serviceEndpoint", (mkMapper true false "ServiceEndpoint"
  None TString None [] None (Some "ServiceEndpoint") false true)); ("prefix", (named "Prefix" true "Prefix"
  TString)); ("marker", (named "Marker" false "Marker" TString)); ("maxResults", (named "MaxResults" true
  "MaxResults" TNumber)); ("queueItems", (mkMapper false false "QueueItems" None (TSequence (TComposite
  "QueueItem" None)) None [] (Some "Queue") (Some "Queues") true false)); ("nextMarker", (named "NextMarker"
  true "NextMarker" TString))] None.
Definition CorsRule : CompositeMapper := mkComposite "CorsRule" None "CorsRule" [("allowedOrigins", (named
  "AllowedOrigins" true "AllowedOrigins" TString)); ("allowedMethods", (named "AllowedMethods" true
  "AllowedMethods" TString)); ("allowedHeaders", (named "AllowedHeaders" false "AllowedHeaders" TString));
  ("exposedHeaders", (named "ExposedHeaders" false "ExposedHeaders" TString)); ("maxAgeInSeconds", (mkMapper
  true false "MaxAgeInSeconds" None TNumber None [("InclusiveMinimum", "0")] None (Some "MaxAgeInSeconds") false
  false))] None.
Definition GeoReplication : CompositeMapper := mkComposite "GeoReplication" None "GeoReplication" [("status",
  (named "Status" true "Status" TString)); ("lastSyncTime", (named "LastSyncTime" true "LastSyncTime"
  TDateTimeRfc1123))] None.
Definition RetentionPolicy : CompositeMapper := mkComposite "RetentionPolicy" None "RetentionPolicy"
  [("enabled", (named "Enabled" true "Enabled" TBoolean)); ("days", (mkMapper false false "Days" None TNumber
  None [("InclusiveMinimum", "1")] None (Some "Days") false false))] None.
Definition Logging : CompositeMapper := mkComposite "Logging" None "Logging" [("version", (named "Version" true
  "Version" TString)); ("deleteProperty", (named "Delete" true "Delete" TBoolean)); ("read", (named "Read" true
  "Read" TBoolean)); ("write", (named "Write" true "Write" TBoolean)); ("retentionPolicy", (named
  "RetentionPolicy" true "RetentionPolicy" (TComposite "RetentionPolicy" None)))] None.
Definition StorageError : CompositeMapper := mkComposite "StorageError" None "StorageError" [("message", (named
  "Message" false "Message" TString))] None.
Definition Metrics : CompositeMapper := mkComposite "Metrics" None "Metrics" [("version", (named "Version" false
  "Version" TString)); ("enabled", (named "Enabled" true "Enabled" TBoolean)); ("includeAPIs", (named
  "IncludeAPIs" false "IncludeAPIs" TBoolean)); ("retentionPolicy", (named "RetentionPolicy" false
  "RetentionPolicy" (TComposite "RetentionPolicy" None)))] None.
Definition QueueMessage : CompositeMapper := mkComposite "QueueMessage" None "QueueMessage" [("messageText",
  (named "MessageText" false "MessageText" TString))] None.
Definition DequeuedMessageItem : CompositeMapper := mkComposite "DequeuedMessageItem" (Some "QueueMessage")
  "DequeuedMessageItem" [("messageId", (named "MessageId" true "MessageId" TString)); ("insertionTime", (named
  "InsertionTime" true "InsertionTime" TDateTimeRfc1123)); ("expirationTime", (named "ExpirationTime" true
  "ExpirationTime" TDateTimeRfc1123)); ("popReceipt", (named "PopReceipt" true "PopReceipt" TString));
  ("timeNextVisible", (named "TimeNextVisible" true "TimeNextVisible" TDateTimeRfc1123)); ("dequeueCount",
  (named "DequeueCount" true "DequeueCount" TNumber)); ("messageText", (named "MessageText" true "MessageText"
  TString))] None.
Definition PeekedMessageItem : CompositeMapper := mkComposite "PeekedMessageItem" (Some "QueueMessage")
  "PeekedMessageItem" [("messageId", (named "MessageId" true "MessageId" TString)); ("insertionTime", (named
  "InsertionTime" true "InsertionTime" TDateTimeRfc1123)); ("expirationTime", (named "ExpirationTime" true
  "ExpirationTime" TDateTimeRfc1123)); ("dequeueCount", (named "DequeueCount" true "DequeueCount" TNumber));
  ("messageText", (named "MessageText" true "MessageText" TString))] None.
Definition EnqueuedMessage : CompositeMapper := mkComposite "EnqueuedMessage" (Some "QueueMessage")
  "EnqueuedMessage" [("messageId", (named "MessageId" true "MessageId" TString)); ("insertionTime", (named
  "InsertionTime" true "InsertionTime" TDateTimeRfc1123)); ("expirationTime", (named "ExpirationTime" true
  "ExpirationTime" TDateTimeRfc1123)); ("popReceipt", (named "PopReceipt" true "PopReceipt" TString));
  ("timeNextVisible", (named "TimeNextVisible" true "TimeNextVisible" TDateTimeRfc1123))] None.
Definition SignedIdentifier : CompositeMapper := mkComposite "SignedIdentifier" None "SignedIdentifier" [("id",
  (named "Id" true "Id" TString)); ("accessPolicy", (named "AccessPolicy" true "AccessPolicy" (TComposite
  "AccessPolicy" None)))] None.
Definition StorageServiceProperties : CompositeMapper := mkComposite "StorageServiceProperties" None
  "StorageServiceProperties" [("logging", (named "Logging" false "Logging" (TComposite "Logging" None)));
  ("hourMetrics", (named "HourMetrics" false "HourMetrics" (TComposite "Metrics" None))); ("minuteMetrics",
  (named "MinuteMetrics" false "MinuteMetrics" (TComposite "Metrics" None))); ("cors", (mkMapper false false
  "Cors" None (TSequence (TComposite "CorsRule" None)) None [] (Some "CorsRule") (Some "Cors") true false))]
  None.
Definition StorageServiceStats : CompositeMapper := mkComposite "StorageServiceStats" None "StorageServiceStats"
  [("geoReplication", (named "GeoReplication" false "GeoReplication" (TComposite "GeoReplication" None)))] None.
Definition ServiceSetPropertiesHeaders : CompositeMapper := mkComposite "service-setproperties-headers" None
  "ServiceSetPropertiesHeaders" [("clientRequestId", (simple false "x-ms-client-request-id" TString));
  ("requestId", (simple false "x-ms-request-id" TString)); ("version", (simple false "x-ms-version" TString));
  ("errorCode", (simple false "x-ms-error-code" TString))] None.
Definition ServiceGetPropertiesHeaders : CompositeMapper := mkComposite "service-getproperties-headers" None
  "ServiceGetPropertiesHeaders" [("clientRequestId", (simple false "x-ms-client-request-id" TString));
  ("requestId", (simple false "x-ms-request-id" TString)); ("version", (simple false "x-ms-version" TString));
  ("errorCode", (simple false "x-ms-error-code" TString))] None.
Definition ServiceGetStatisticsHeaders : CompositeMapper := mkComposite "service-getstatistics-headers" None
  "ServiceGetStatisticsHeaders" [("clientRequestId", (simple false "x-ms-client-request-id" TString));
  ("requestId", (simple false "x-ms-request-id" TString)); ("version", (simple false "x-ms-version" TString));
  ("date", (simple false "date" TDateTimeRfc1123)); ("errorCode", (simple false "x-ms-error-code" TString))]
  None.
Definition ServiceListQueuesSegmentHeaders : CompositeMapper := mkComposite "service-listqueuessegment-headers"
  None "ServiceListQueuesSegmentHeaders" [("clientRequestId", (simple false "x-ms-client-request-id" TString));
  ("requestId", (simple false "x-ms-request-id" TString)); ("version", (simple false "x-ms-version" TString));
  ("date", (simple false "date" TDateTimeRfc1123)); ("errorCode", (simple false "x-ms-error-code" TString))]
  None.
Definition QueueCreateHeaders : CompositeMapper := mkComposite "queue-create-headers" None "QueueCreateHeaders"
  [("clientRequestId", (simple false "x-ms-client-request-id" TString)); ("requestId", (simple false
  "x-ms-request-id" TString)); ("version", (simple false "x-ms-version" TString)); ("date", (simple false "date"
  TDateTimeRfc1123)); ("errorCode", (simple false "x-ms-error-code" TString))] None.
Definition QueueDeleteHeaders : CompositeMapper := mkComposite "queue-delete-headers" None "QueueDeleteHeaders"
  [("clientRequestId", (simple false "x-ms-client-request-id" TString)); ("requestId", (simple false
  "x-ms-request-id" TString)); ("version", (simple false "x-ms-version" TString)); ("date", (simple false "date"
  TDateTimeRfc1123)); ("errorCode", (simple false "x-ms-error-code" TString))] None.
Definition QueueGetPropertiesHeaders : CompositeMapper := mkComposite "queue-getproperties-headers" None
  "QueueGetPropertiesHeaders" [("clientRequestId", (simple false "x-ms-client-request-id" TString));
  ("metadata", (mkMapper false false "x-ms-meta" None (TDictionary TString) (Some "x-ms-meta-") [] None None
  false false)); ("approximateMessagesCount", (simple false "x-ms-approximate-messages-count" TNumber));
  ("requestId", (simple false "x-ms-request-id" TString)); ("version", (simple false "x-ms-version" TString));
  ("date", (simple false "date" TDateTimeRfc1123)); ("errorCode", (simple false "x-ms-error-code" TString))]
  None.
Definition QueueGetPropertiesWithHeadHeaders : CompositeMapper := mkComposite
  "queue-getpropertieswithhead-headers" None "QueueGetPropertiesWithHeadHeaders" [("clientRequestId", (simple
  false "x-ms-client-request-id" TString)); ("metadata", (mkMapper false false "x-ms-meta" None (TDictionary
  TString) (Some "x-ms-meta-") [] None None false false)); ("approximateMessagesCount", (simple false
  "x-ms-approximate-messages-count" TNumber)); ("requestId", (simple false "x-ms-request-id" TString));
  ("version", (simple false "x-ms-version" TString)); ("date", (simple false "date" TDateTimeRfc1123));
  ("errorCode", (simple false "x-ms-error-code" TString))] None.
Definition QueueSetMetadataHeaders : CompositeMapper := mkComposite "queue-setmetadata-headers" None
  "QueueSetMetadataHeaders" [("clientRequestId", (simple false "x-ms-client-request-id" TString)); ("requestId",
  (simple false "x-ms-request-id" TString)); ("version", (simple false "x-ms-version" TString)); ("date",
  (simple false "date" TDateTimeRfc1123)); ("errorCode", (simple false "x-ms-error-code" TString))] None.
Definition QueueGetAccessPolicyHeaders : CompositeMapper := mkComposite "queue-getaccesspolicy-headers" None
  "QueueGetAccessPolicyHeaders" [("clientRequestId", (simple false "x-ms-client-request-id" TString));
  ("requestId", (simple false "x-ms-request-id" TString)); ("version", (simple false "x-ms-version" TString));
  ("date", (simple false "date" TDateTimeRfc1123)); ("errorCode", (simple false "x-ms-error-code" TString))]
  None.
Definition QueueGetAccessPolicyWithHeadHeaders : CompositeMapper := mkComposite
  "queue-getaccesspolicywithhead-headers" None "QueueGetAccessPolicyWithHeadHeaders" [("clientRequestId",
  (simple false "x-ms-client-request-id" TString)); ("requestId", (simple false "x-ms-request-id" TString));
  ("version", (simple false "x-ms-version" TString)); ("date", (simple false "date" TDateTimeRfc1123));
  ("errorCode", (simple false "x-ms-error-code" TString))] None.
Definition QueueSetAccessPolicyHeaders : CompositeMapper := mkComposite "queue-setaccesspolicy-headers" None
  "QueueSetAccessPolicyHeaders" [("clientRequestId", (simple false "x-ms-client-request-id" TString));
  ("requestId", (simple false "x-ms-request-id" TString)); ("version", (simple false "x-ms-version" TString));
  ("date", (simple false "date" TDateTimeRfc1123)); ("errorCode", (simple false "x-ms-error-code" TString))]
  None.
Definition MessagesDequeueHeaders : CompositeMapper := mkComposite "messages-dequeue-headers" None
  "MessagesDequeueHeaders" [("clientRequestId", (simple false "x-ms-client-request-id" TString)); ("requestId",
  (simple false "x-ms-request-id" TString)); ("version", (simple false "x-ms-version" TString)); ("date",
  (simple false "date" TDateTimeRfc1123)); ("errorCode", (simple false "x-ms-error-code" TString))] None.
Definition MessagesClearHeaders : CompositeMapper := mkComposite "messages-clear-headers" None
  "MessagesClearHeaders" [("clientRequestId", (simple false "x-ms-client-request-id" TString)); ("requestId",
  (simple false "x-ms-request-id" TString)); ("version", (simple false "x-ms-version" TString)); ("date",
  (simple false "date" TDateTimeRfc1123)); ("errorCode", (simple false "x-ms-error-code" TString))] None.
Definition MessagesEnqueueHeaders : CompositeMapper := mkComposite "messages-enqueue-headers" None
  "MessagesEnqueueHeaders" [("clientRequestId", (simple false "x-ms-client-request-id" TString)); ("requestId",
  (simple false "x-ms-request-id" TString)); ("version", (simple false "x-ms-version" TString)); ("date",
  (simple false "date" TDateTimeRfc1123)); ("errorCode", (simple false "x-ms-error-code" TString))] None.
Definition MessagesPeekHeaders : CompositeMapper := mkComposite "messages-peek-headers" None
  "MessagesPeekHeaders" [("clientRequestId", (simple false "x-ms-client-request-id" TString)); ("requestId",
  (simple false "x-ms-request-id" TString)); ("version", (simple false "x-ms-version" TString)); ("date",
  (simple false "date" TDateTimeRfc1123)); ("errorCode", (simple false "x-ms-error-code" TString))] None.
Definition MessageIdUpdateHeaders : CompositeMapper := mkComposite "messageid-update-headers" None
  "MessageIdUpdateHeaders" [("clientRequestId", (simple false "x-ms-client-request-id" TString)); ("requestId",
  (simple false "x-ms-request-id" TString)); ("version", (simple false "x-ms-version" TString)); ("date",
  (simple false "date" TDateTimeRfc1123)); ("popReceipt", (simple false "x-ms-popreceipt" TString));
  ("timeNextVisible", (simple false "x-ms-time-next-visible" TDateTimeRfc1123)); ("errorCode", (simple false
  "x-ms-error-code" TString))] None.
Definition MessageIdDeleteHeaders : CompositeMapper := mkComposite "messageid-delete-headers" None
  "MessageIdDeleteHeaders" [("clientRequestId", (simple false "x-ms-client-request-id" TString)); ("requestId",
  (simple false "x-ms-request-id" TString)); ("version", (simple false "x-ms-version" TString)); ("date",
  (simple false "date" TDateTimeRfc1123)); ("errorCode", (simple false "x-ms-error-code" TString))] None.
Definition all : list CompositeMapper := [AccessPolicy; QueueItem; ListQueuesSegmentResponse; CorsRule;
  GeoReplication; RetentionPolicy; Logging; StorageError; Metrics; QueueMessage; DequeuedMessageItem;
  PeekedMessageItem; EnqueuedMessage; SignedIdentifier; StorageServiceProperties; StorageServiceStats;
  ServiceSetPropertiesHeaders; ServiceGetPropertiesHeaders; ServiceGetStatisticsHeaders;
  ServiceListQueuesSegmentHeaders; QueueCreateHeaders; QueueDeleteHeaders; QueueGetPropertiesHeaders;
  QueueGetPropertiesWithHeadHeaders; QueueSetMetadataHeaders; QueueGetAccessPolicyHeaders;
  QueueGetAccessPolicyWithHeadHeaders; QueueSetAccessPolicyHeaders; MessagesDequeueHeaders;
  MessagesClearHeaders; MessagesEnqueueHeaders; MessagesPeekHeaders; MessageIdUpdateHeaders;
  MessageIdDeleteHeaders].
End QueueMappers.

(** ** src/src/table/generated/artifacts/mappers.ts *)

Module TableMappers.
Definition TableServiceError : CompositeMapper := mkComposite "TableServiceError" None "TableServiceError"
  [("message", (named "Message" false "Message" TString))] None.
Definition RetentionPolicy : CompositeMapper := mkComposite "RetentionPolicy" None "RetentionPolicy"
  [("enabled", (named "Enabled" true "Enabled" TBoolean)); ("days", (mkMapper false false "Days" None TNumber
  None [("InclusiveMinimum", "1")] None (Some "Days") false false))] None.
Definition Logging : CompositeMapper := mkComposite "Logging" None "Logging" [("version", (named "Version" true
  "Version" TString)); ("deleteProperty", (named "Delete" true "Delete" TBoolean)); ("read", (named "Read" true
  "Read" TBoolean)); ("write", (named "Write" true "Write" TBoolean)); ("retentionPolicy", (named
  "RetentionPolicy" true "RetentionPolicy" (TComposite "RetentionPolicy" None)))] None.
Definition Metrics : CompositeMapper := mkComposite "Metrics" None "Metrics" [("version", (named "Version" false
  "Version" TString)); ("enabled", (named "Enabled" true "Enabled" TBoolean)); ("includeAPIs", (named
  "IncludeAPIs" false "IncludeAPIs" TBoolean)); ("retentionPolicy", (named "RetentionPolicy" false
  "RetentionPolicy" (TComposite "RetentionPolicy" None)))] None.
Definition CorsRule : CompositeMapper := mkComposite "CorsRule" None "CorsRule" [("allowedOrigins", (named
  "AllowedOrigins" true "AllowedOrigins" TString)); ("allowedMethods", (named "AllowedMethods" true
  "AllowedMethods" TString)); ("allowedHeaders", (named "AllowedHeaders" true "AllowedHeaders" TString));
  ("exposedHeaders", (named "ExposedHeaders" true "ExposedHeaders" TString)); ("maxAgeInSeconds", (mkMapper true
  false "MaxAgeInSeconds" None TNumber None [("InclusiveMinimum", "0")] None (Some "MaxAgeInSeconds") false
  false))] None.
Definition TableServiceProperties : CompositeMapper := mkComposite "TableServiceProperties" (Some
  "StorageServiceProperties") "TableServiceProperties" [("logging", (named "Logging" false "Logging" (TComposite
  "Logging" None))); ("hourMetrics", (named "HourMetrics" false "HourMetrics" (TComposite "Metrics" None)));
  ("minuteMetrics", (named "MinuteMetrics" false "MinuteMetrics" (TComposite "Metrics" None))); ("cors",
  (mkMapper false false "Cors" None (TSequence (TComposite "CorsRule" None)) None [] (Some "CorsRule") (Some
  "Cors") true false))] None.
Definition GeoReplication : CompositeMapper := mkComposite "GeoReplication" None "GeoReplication" [("status",
  (named "Status" true "Status" TString)); ("lastSyncTime", (named "LastSyncTime" true "LastSyncTime"
  TDateTimeRfc1123))] None.
Definition TableServiceStats : CompositeMapper := mkComposite "TableServiceStats" (Some "StorageServiceStats")
  "TableServiceStats" [("geoReplication", (named "GeoReplication" false "GeoReplication" (TComposite
  "GeoReplication" None)))] None.
Definition TableProperties : CompositeMapper := mkComposite "TableProperties" None "TableProperties"
  [("tableName", (named "TableName" false "TableName" TString))] None.
Definition TableResponse : CompositeMapper := mkComposite "TableResponse" None "TableResponse"
  [("odatametadata", (named "odata.metadata" false "odata\\.metadata" TString)); ("tableName", (named
  "TableName" false "TableName" TString)); ("odatatype", (named "odata.type" false "odata\\.type" TString));
  ("odataid", (named "odata.id" false "odata\\.id" TString)); ("odataeditLink", (named "odata.editLink" false
  "odata\\.editLink" TString))] None.
Definition TableResponseProperties : CompositeMapper := mkComposite "TableResponseProperties" None
  "TableResponseProperties" [("tableName", (named "TableName" false "TableName" TString)); ("odatatype", (named
  "odata.type" false "odata\\.type" TString)); ("odataid", (named "odata.id" false "odata\\.id" TString));
  ("odataeditLink", (named "odata.editLink" false "odata\\.editLink" TString))] None.
Definition TableQueryResponse : CompositeMapper := mkComposite "TableQueryResponse" None "TableQueryResponse"
  [("odatametadata", (named "odata.metadata" false "odata\\.metadata" TString)); ("value", (mkMapper false false
  "value" None (TSequence (TComposite "TableResponseProperties" None)) None [] (Some "TableResponseProperties")
  (Some "value") false false))] None.
Definition AccessPolicy : CompositeMapper := mkComposite "AccessPolicy" None "AccessPolicy" [("start", (named
  "Start" true "Start" TString)); ("expiry", (named "Expiry" true "Expiry" TString)); ("permission", (named
  "Permission" true "Permission" TString))] None.
Definition SignedIdentifier : CompositeMapper := mkComposite "SignedIdentifier" None "SignedIdentifier" [("id",
  (named "Id" true "Id" TString)); ("accessPolicy", (named "AccessPolicy" true "AccessPolicy" (TComposite
  "AccessPolicy" None)))] None.
Definition TableEntityQueryResponse : CompositeMapper := mkComposite "TableEntityQueryResponse" None
  "TableEntityQueryResponse" [("odatametadata", (named "odata.metadata" false "odata\\.metadata" TString));
  ("value", (named "value" false "value" (TSequence (TDictionary TObject))))] None.
Definition QueryOptions : CompositeMapper := mkComposite "" (Some "QueryOptions") "QueryOptions" [("format",
  (named "format" false "" TString)); ("top", (named "top" false "" TNumber)); ("select", (named "select" false
  "" TString)); ("filter", (named "filter" false "" TString))] None.
Definition TableQueryHeaders : CompositeMapper := mkComposite "table-query-headers" None "TableQueryHeaders"
  [("clientRequestId", (simple false "x-ms-client-request-id" TString)); ("requestId", (simple false
  "x-ms-request-id" TString)); ("version", (simple false "x-ms-version" TString)); ("date", (simple false "date"
  TDateTimeRfc1123)); ("xMsContinuationNextTableName", (simple false "x-ms-continuation-nexttablename"
  TString))] None.
Definition TableCreateHeaders : CompositeMapper := mkComposite "table-create-headers" None "TableCreateHeaders"
  [("clientRequestId", (simple false "x-ms-client-request-id" TString)); ("requestId", (simple false
  "x-ms-request-id" TString)); ("version", (simple false "x-ms-version" TString)); ("date", (simple false "date"
  TDateTimeRfc1123)); ("preferenceApplied", (simple false "preference-applied" TString)); ("errorCode", (simple
  false "x-ms-error-code" TString))] None.
Definition TableBatchHeaders : CompositeMapper := mkComposite "table-batch-headers" None "TableBatchHeaders"
  [("contentType", (simple false "content-type" TString)); ("requestId", (simple false "x-ms-request-id"
  TString)); ("version", (simple false "x-ms-version" TString)); ("date", (simple false "date"
  TDateTimeRfc1123)); ("errorCode", (simple false "x-ms-error-code" TString))] None.
Definition TableDeleteHeaders : CompositeMapper := mkComposite "table-delete-headers" None "TableDeleteHeaders"
  [("clientRequestId", (simple false "x-ms-client-request-id" TString)); ("requestId", (simple false
  "x-ms-request-id" TString)); ("version", (simple false "x-ms-version" TString)); ("date", (simple false "date"
  TDateTimeRfc1123)); ("errorCode", (simple false "x-ms-error-code" TString))] None.
Definition TableQueryEntitiesHeaders : CompositeMapper := mkComposite "table-queryentities-headers" None
  "TableQueryEntitiesHeaders" [("clientRequestId", (simple false "x-ms-client-request-id" TString));
  ("requestId", (simple false "x-ms-request-id" TString)); ("version", (simple false "x-ms-version" TString));
  ("date", (simple false "date" TDateTimeRfc1123)); ("xMsContinuationNextPartitionKey", (simple false
  "x-ms-continuation-nextpartitionkey" TString)); ("xMsContinuationNextRowKey", (simple false
  "x-ms-continuation-nextrowkey" TString)); ("errorCode", (simple false "x-ms-error-code" TString))] None.
Definition TableQueryEntitiesWithPartitionAndRowKeyHeaders : CompositeMapper := mkComposite
  "table-queryentitieswithpartitionandrowkey-headers" None "TableQueryEntitiesWithPartitionAndRowKeyHeaders"
  [("clientRequestId", (simple false "x-ms-client-request-id" TString)); ("requestId", (simple false
  "x-ms-request-id" TString)); ("version", (simple false "x-ms-version" TString)); ("date", (simple false "date"
  TDateTimeRfc1123)); ("eTag", (simple false "etag" TString)); ("xMsContinuationNextPartitionKey", (simple false
  "x-ms-continuation-nextpartitionkey" TString)); ("xMsContinuationNextRowKey", (simple false
  "x-ms-continuation-nextrowkey" TString)); ("errorCode", (simple false "x-ms-error-code" TString))] None.
Definition TableUpdateEntityHeaders : CompositeMapper := mkComposite "table-updateentity-headers" None
  "TableUpdateEntityHeaders" [("clientRequestId", (simple false "x-ms-client-request-id" TString));
  ("requestId", (simple false "x-ms-request-id" TString)); ("version", (simple false "x-ms-version" TString));
  ("date", (simple false "date" TDateTimeRfc1123)); ("eTag", (simple false "etag" TString)); ("errorCode",
  (simple false "x-ms-error-code" TString))] None.
Definition TableMergeEntityHeaders : CompositeMapper := mkComposite "table-mergeentity-headers" None
  "TableMergeEntityHeaders" [("clientRequestId", (simple false "x-ms-client-request-id" TString)); ("requestId",
  (simple false "x-ms-request-id" TString)); ("version", (simple false "x-ms-version" TString)); ("date",
  (simple false "date" TDateTimeRfc1123)); ("eTag", (simple false "etag" TString)); ("errorCode", (simple false
  "x-ms-error-code" TString))] None.
Definition TableDeleteEntityHeaders : CompositeMapper := mkComposite "table-deleteentity-headers" None
  "TableDeleteEntityHeaders" [("clientRequestId", (simple false "x-ms-client-request-id" TString));
  ("requestId", (simple false "x-ms-request-id" TString)); ("version", (simple false "x-ms-version" TString));
  ("date", (simple false "date" TDateTimeRfc1123)); ("errorCode", (simple false "x-ms-error-code" TString))]
  None.
Definition TableMergeEntityWithMergeHeaders : CompositeMapper := mkComposite
  "table-mergeentitywithmerge-headers" None "TableMergeEntityWithMergeHeaders" [("clientRequestId", (simple
  false "x-ms-client-request-id" TString)); ("requestId", (simple false "x-ms-request-id" TString)); ("version",
  (simple false "x-ms-version" TString)); ("date", (simple false "date" TDateTimeRfc1123)); ("eTag", (simple
  false "etag" TString)); ("errorCode", (simple false "x-ms-error-code" TString))] None.
Definition TableInsertEntityHeaders : CompositeMapper := mkComposite "table-insertentity-headers" None
  "TableInsertEntityHeaders" [("clientRequestId", (simple false "x-ms-client-request-id" TString));
  ("requestId", (simple false "x-ms-request-id" TString)); ("version", (simple false "x-ms-version" TString));
  ("date", (simple false "date" TDateTimeRfc1123)); ("eTag", (simple false "etag" TString));
  ("preferenceApplied", (simple false "preference-applied" TString)); ("contentType", (simple false
  "content-type" TString)); ("errorCode", (simple false "x-ms-error-code" TString))] None.
Definition TableGetAccessPolicyHeaders : CompositeMapper := mkComposite "table-getaccesspolicy-headers" None
  "TableGetAccessPolicyHeaders" [("clientRequestId", (simple false "x-ms-client-request-id" TString));
  ("requestId", (simple false "x-ms-request-id" TString)); ("version", (simple false "x-ms-version" TString));
  ("date", (simple false "date" TDateTimeRfc1123)); ("errorCode", (simple false "x-ms-error-code" TString))]
  None.
Definition TableSetAccessPolicyHeaders : CompositeMapper := mkComposite "table-setaccesspolicy-headers" None
  "TableSetAccessPolicyHeaders" [("clientRequestId", (simple false "x-ms-client-request-id" TString));
  ("requestId", (simple false "x-ms-request-id" TString)); ("version", (simple false "x-ms-version" TString));
  ("date", (simple false "date" TDateTimeRfc1123)); ("errorCode", (simple false "x-ms-error-code" TString))]
  None.
Definition ServiceSetPropertiesHeaders : CompositeMapper := mkComposite "service-setproperties-headers" None
  "ServiceSetPropertiesHeaders" [("clientRequestId", (simple false "x-ms-client-request-id" TString));
  ("requestId", (simple false "x-ms-request-id" TString)); ("version", (simple false "x-ms-version" TString));
  ("errorCode", (simple false "x-ms-error-code" TString))] None.
Definition ServiceGetPropertiesHeaders : CompositeMapper := mkComposite "service-getproperties-headers" None
  "ServiceGetPropertiesHeaders" [("clientRequestId", (simple false "x-ms-client-request-id" TString));
  ("requestId", (simple false "x-ms-request-id" TString)); ("version", (simple false "x-ms-version" TString));
  ("errorCode", (simple false "x-ms-error-code" TString))] None.
Definition ServiceGetStatisticsHeaders : CompositeMapper := mkComposite "service-getstatistics-headers" None
  "ServiceGetStatisticsHeaders" [("clientRequestId", (simple false "x-ms-client-request-id" TString));
  ("requestId", (simple false "x-ms-request-id" TString)); ("version", (simple false "x-ms-version" TString));
  ("date", (simple false "date" TDateTimeRfc1123)); ("errorCode", (simple false "x-ms-error-code" TString))]
  None.
Definition all : list CompositeMapper := [TableServiceError; RetentionPolicy; Logging; Metrics; CorsRule;
  TableServiceProperties; GeoReplication; TableServiceStats; TableProperties; TableResponse;
  TableResponseProperties; TableQueryResponse; AccessPolicy; SignedIdentifier; TableEntityQueryResponse;
  QueryOptions; TableQueryHeaders; TableCreateHeaders; TableBatchHeaders; TableDeleteHeaders;
  TableQueryEntitiesHeaders; TableQueryEntitiesWithPartitionAndRowKeyHeaders; TableUpdateEntityHeaders;
  TableMergeEntityHeaders; TableDeleteEntityHeaders; TableMergeEntityWithMergeHeaders; TableInsertEntityHeaders;
  TableGetAccessPolicyHeaders; TableSetAccessPolicyHeaders; ServiceSetPropertiesHeaders;
  ServiceGetPropertiesHeaders; ServiceGetStatisticsHeaders].
End TableMappers.

(** The mapper of a class. *)
Definition mapper_of (all : list CompositeMapper) (name : string) : option CompositeMapper :=
  List.find (fun c => bool_decide (c.(cm_className) = name)) all.
