(* ===== verification/ProtocolSpec.v ===== *)
(** * ProtocolSpec: theorems about dispatch and parameters

    Which operation a request is dispatched to, which requests reach an operation, and
    what a handler's method is called with, for the operations of the three services. *)

From S2P Require Import BlobSAS BlobSpecifications QueueSpecifications TableSpecifications Mappers.
From S2P Require Loki QueueHandlers QueueServiceHandlers QueueHandlersSpec.
From S2P Require Import Prelude Errors Extents Utf8 Texts Protocol.
Open Scope Z_scope.
Open Scope azurite_scope.

(** ** The operation of a request *)

Section Dispatch.
Context (fromUri : text -> text -> option (list (text * text))).
Context {O : Type} (Specifications : O -> option OperationSpec) (rq : IRequest) (pattern : option text).
Implicit Types (o : O) (n m : nat) (ops : list O).

(** The number of conditions of an operation that the request meets, if it is one for it. *)
Definition score o : option nat := spec ← Specifications o; isRequestAgainstOperation fromUri rq spec pattern.

Lemma best_cons best o ops :
  best_operation fromUri Specifications rq pattern best (o :: ops)
  = best_operation fromUri Specifications rq pattern
      (match score o, best with
       | Some n, Some (_, m) => if (m <? n)%nat then Some (o, n) else best
       | Some n, None => Some (o, n)
       | None, _ => best
       end) ops.
Proof. done. Qed.

(** The best operation so far stays unless one of the rest has more conditions. *)
Lemma best_stays best o m ops :
  (forall o' n, o' ∈ ops -> score o' = Some n -> (n <= m)%nat) -> best = Some (o, m) ->
  best_operation fromUri Specifications rq pattern best ops = Some (o, m).
Proof.
  intros Hops ->. induction ops as [|o' ops IH]; [done|]. rewrite best_cons.
  assert (Hrest : forall o' n, o' ∈ ops -> score o' = Some n -> (n <= m)%nat) by (intros; eapply Hops; [by right|done]).
  destruct (score o') as [n|] eqn:Hn; [|by apply IH]. specialize (Hops o' n ltac:(by left) Hn).
  destruct (Nat.ltb_spec m n); [lia|by apply IH].
Qed.

Lemma best_first best o n before after :
  (forall m, (exists o', best = Some (o', m)) -> (m < n)%nat) ->
  (forall o' m, o' ∈ before -> score o' = Some m -> (m < n)%nat) -> score o = Some n ->
  (forall o' m, o' ∈ after -> score o' = Some m -> (m <= n)%nat) ->
  best_operation fromUri Specifications rq pattern best (before ++ o :: after) = Some (o, n).
Proof.
  intros Hbest Hbefore Ho Hafter. induction before as [|o' before IH] in best, Hbest, Hbefore |- *; cbn [app].
  - rewrite best_cons, Ho. apply best_stays; [done|]. destruct best as [[o' m]|]; [|done].
    specialize (Hbest m ltac:(by exists o')). by destruct (Nat.ltb_spec m n); [|lia].
  - rewrite best_cons. apply IH; [|intros; eapply Hbefore; [by right|done]].
    intros m [o1 Hm]. destruct (score o') as [m'|] eqn:Hm'; [|apply Hbest; by exists o1].
    specialize (Hbefore o' m' ltac:(by left) Hm').
    destruct best as [[o2 m2]|]; [destruct (m2 <? m')%nat|]; simplify_eq; try done. apply Hbest. by exists o1.
Qed.

Lemma best_none best ops :
  (forall o, o ∈ ops -> score o = None) -> best_operation fromUri Specifications rq pattern best ops = best.
Proof.
  intros Hops. induction ops as [|o ops IH]; [done|]. rewrite best_cons, (Hops o) by by left.
  apply IH. intros o' Ho'. apply Hops. by right.
Qed.

(** The first of the operations with the most conditions. *)
Definition first_best o ops : Prop :=
  exists n before after, ops = before ++ o :: after /\ score o = Some n /\
    (forall o' m, o' ∈ before -> score o' = Some m -> (m < n)%nat) /\
    (forall o' m, o' ∈ after -> score o' = Some m -> (m <= n)%nat).

Lemma first_best_exists ops : (forall o, o ∈ ops -> score o = None) \/ exists o, first_best o ops.
Proof.
  induction ops as [|o ops [IH|(o1&n1&before&after&->&Hn1&Hb&Ha)]].
  - left. intros o Ho. by apply not_elem_of_nil in Ho.
  - destruct (score o) as [n|] eqn:Hn.
    + right. exists o, n, [], ops. split_and!; [done..| |].
      * intros o' m Ho'. by apply not_elem_of_nil in Ho'.
      * intros o' m Ho'. by rewrite (IH o' Ho').
    + left. intros o' [->|Ho']%elem_of_cons; [done|by apply IH].
  - right. destruct (score o) as [n|] eqn:Hn; [destruct (decide (n1 <= n)%nat) as [Hle|Hgt]|].
    + exists o, n, [], (before ++ o1 :: after). split_and!; [done..| |].
      * intros o' m Ho'. by apply not_elem_of_nil in Ho'.
      * intros o' m [Ho'|[->|Ho']%elem_of_cons]%elem_of_app Hs.
        -- specialize (Hb o' m Ho' Hs). lia.
        -- rewrite Hn1 in Hs. by injection Hs as <-.
        -- specialize (Ha o' m Ho' Hs). lia.
    + exists o1, n1, (o :: before), after. split_and!; [done..| |done].
      intros o' m [->|Ho']%elem_of_cons Hs; [rewrite Hn in Hs; injection Hs as <-; lia|by eapply Hb].
    + exists o1, n1, (o :: before), after. split_and!; [done..| |done].
      intros o' m [->|Ho']%elem_of_cons Hs; [congruence|by eapply Hb].
Qed.

Lemma dispatch_first_best o ops :
  first_best o ops -> dispatchMiddleware fromUri Specifications rq pattern ops = Some o.
Proof.
  intros (n&before&after&->&Hn&Hb&Ha). unfold dispatchMiddleware.
  by rewrite (best_first None o n) by (try done; intros m [? ?]; done).
Qed.

Lemma dispatch_none ops :
  (forall o, o ∈ ops -> score o = None) -> dispatchMiddleware fromUri Specifications rq pattern ops = None.
Proof. intros Hnone. unfold dispatchMiddleware. by rewrite best_none. Qed.

Lemma dispatched_first_best o ops :
  dispatchMiddleware fromUri Specifications rq pattern ops = Some o -> first_best o ops.
Proof.
  intros Hd. destruct (first_best_exists ops) as [Hnone%dispatch_none|[o1 Hbest]]; [by rewrite Hd in Hnone|].
  pose proof (dispatch_first_best o1 ops Hbest) as Hd1. rewrite Hd in Hd1. by injection Hd1 as ->.
Qed.

(** C34. a request is dispatched to the first of the operations that has the most required
    parameters among those whose method, path and required parameters the request has; to
    none exactly if there are none. *)
Theorem dispatch_most_specific ops :
  (forall o, dispatchMiddleware fromUri Specifications rq pattern ops = Some o <-> first_best o ops) /\
  (dispatchMiddleware fromUri Specifications rq pattern ops = None <-> forall o, o ∈ ops -> score o = None).
Proof.
  split; [intros o; split; [apply dispatched_first_best|apply dispatch_first_best]|].
  split; [|apply dispatch_none]. intros Hd o Ho. apply eq_None_not_Some. intros [n Hn].
  destruct (first_best_exists ops) as [Hnone|[o1 Hbest%dispatch_first_best]]; [by rewrite Hnone in Hn|by rewrite Hd in Hbest].
Qed.
End Dispatch.

(** ** Which requests reach an operation *)

Definition required_of (ps : list OperationParameter) : list OperationParameter :=
  List.filter (fun p => p.(mapper).(required)) ps.
Definition names_of (ps : list OperationParameter) : list string :=
  (fun p => p.(mapper).(serializedName)) <$> required_of ps.

Lemma name_required p ps : p ∈ required_of ps -> p.(mapper).(serializedName) ∈ names_of ps.
Proof. intros Hp. unfold names_of. apply list_elem_of_fmap. by exists p. Qed.

(** What an operation needs of a request: these decide about the dispatch. *)
Definition conditions (spec : OperationSpec) : text * text * list OperationParameter * list OperationParameter :=
  (js spec.(httpMethod), path_of spec, required_of spec.(queryParameters), required_of spec.(headerParameters)).

Lemma met_required get constant ps : met get constant ps = met get constant (required_of ps).
Proof.
  induction ps as [|p ps IH]; [done|]. unfold required_of. cbn [met List.filter].
  destruct (required (mapper p)) eqn:Hr; [|done]. cbn [met]. rewrite Hr. fold (required_of ps). by rewrite IH.
Qed.

Lemma met_some get constant ps n :
  met get constant ps = Some n ->
  n = length (required_of ps) /\ forall p, p ∈ required_of ps -> meets get constant p = true.
Proof.
  revert n. induction ps as [|p ps IH]; intros n Hn.
  - injection Hn as <-. split; [done|]. intros p Hp. by apply not_elem_of_nil in Hp.
  - unfold required_of in *. cbn [met List.filter] in *. destruct (required (mapper p)); [|by apply IH].
    destruct (meets get constant p) eqn:Hm; [|done]. destruct (met get constant ps) as [m|]; [|done].
    injection Hn as <-. destruct (IH m eq_refl) as [-> Hall]. split; [done|].
    intros q [->|Hq]%elem_of_cons; [done|by apply Hall].
Qed.

Lemma same_conditions fromUri rq spec spec' pattern :
  conditions spec = conditions spec' ->
  isRequestAgainstOperation fromUri rq spec pattern = isRequestAgainstOperation fromUri rq spec' pattern.
Proof.
  intros Hc. unfold conditions in Hc. injection Hc as Hm Hp Hq Hh. unfold isRequestAgainstOperation.
  rewrite Hm, Hp. do 2 (case_match; [done|]).
  rewrite (met_required _ _ (queryParameters spec)), (met_required _ _ (headerParameters spec)), Hq, Hh.
  by rewrite <- !met_required.
Qed.

(** Constants of the same name that no value equals. *)
Definition constants_differ (same : text -> text -> bool) (p q : OperationParameter) : bool :=
  (p.(mapper).(serializedName) === q.(mapper).(serializedName))
  && p.(mapper).(isConstant) && q.(mapper).(isConstant)
  && match p.(mapper).(defaultValue), q.(mapper).(defaultValue) with
     | Some (CString s), Some (CString s') => negb (same (js s) (js s'))
     | _, _ => false
     end.

(** No request with the required parameters of [spec], and no others that operations
    require, is rather one for [spec'], which is another template, or another method, or
    requires something else, or a different constant, or less ([earlier]: or as much). *)
Definition rivals (earlier : bool) (spec spec' : OperationSpec) : bool :=
  let q := required_of spec.(queryParameters) in
  let q' := required_of spec'.(queryParameters) in
  let h := required_of spec.(headerParameters) in
  let h' := required_of spec'.(headerParameters) in
  negb
    ((js spec.(httpMethod) !== js spec'.(httpMethod)) || (path_of spec !== path_of spec')
     || existsb (fun p => bool_decide (p.(mapper).(serializedName) ∉ names_of spec.(queryParameters))) q'
     || existsb (fun p => bool_decide (p.(mapper).(serializedName) ∉ names_of spec.(headerParameters))) h'
     || existsb (fun p => existsb (constants_differ (fun s t => s === t) p) q') q
     || existsb (fun p => existsb (constants_differ (fun s t => lower s === lower t) p) h') h
     || if earlier then (length q' + length h' <? length q + length h)%nat
        else (length q' + length h' <=? length q + length h)%nat).

Section Reaches.
Context {O : Type} `{EqDecision O} (Specifications : O -> option OperationSpec) (Operation : list O).
Context (fromUri : text -> text -> option (list (text * text))).
Implicit Types (rq : IRequest) (o : O).

(** The request has what the operation requires, and no parameters that only other
    operations require. *)
Record asks rq (pattern : option text) (o : O) (spec : OperationSpec) : Prop := {
  as_spec : Specifications o = Some spec;
  as_meets : is_Some (isRequestAgainstOperation fromUri rq spec pattern);
  as_query name o' spec' : Specifications o' = Some spec' -> name ∈ names_of spec'.(queryParameters) ->
    name ∉ names_of spec.(queryParameters) -> rq.(rq_query) name = None;
  as_header name o' spec' : Specifications o' = Some spec' -> name ∈ names_of spec'.(headerParameters) ->
    name ∉ names_of spec.(headerParameters) -> rq.(rq_header) name = None
}.

(** A path matches at most one of the templates of the service. *)
Definition templates_apart (path : text) : Prop :=
  forall o o' spec spec', Specifications o = Some spec -> Specifications o' = Some spec' ->
    isURITemplateMatch fromUri path (path_of spec) = true ->
    isURITemplateMatch fromUri path (path_of spec') = true -> path_of spec = path_of spec'.

Definition no_rival (earlier : bool) (spec : OperationSpec) o : bool :=
  match Specifications o with Some spec' => negb (rivals earlier spec spec') | None => true end.

(** [before] are the operations that come earlier. *)
Fixpoint unrivalled (spec : OperationSpec) o (ops : list O) : bool :=
  match ops with
  | [] => false
  | o' :: ops => if o' === o then forallb (no_rival false spec) ops else no_rival true spec o' && unrivalled spec o ops
  end.

Lemma meets_constant get (same : text -> text -> bool) constant p q :
  (forall m value s, m.(isConstant) = true -> m.(defaultValue) = Some (CString s) -> constant m value = same (js s) value) ->
  (forall s t u, same s u = true -> same t u = true -> same s t = true) ->
  meets get constant p = true -> meets get constant q = true -> constants_differ same p q = false.
Proof.
  intros Hsame Htrans Hp Hq. unfold constants_differ.
  destruct (p.(mapper).(serializedName) === _) eqn:Hn; [apply bool_decide_eq_true in Hn|done].
  destruct (isConstant (mapper p)) eqn:Hcp; [|done]. destruct (isConstant (mapper q)) eqn:Hcq; [|done].
  destruct (defaultValue (mapper p)) as [[s|]|] eqn:Hdp; [|done..].
  destruct (defaultValue (mapper q)) as [[t|]|] eqn:Hdq; [|done..]. cbn [andb].
  unfold meets in Hp, Hq. rewrite Hn in Hp. destruct (get _) as [v|]; [|done].
  apply andb_prop in Hp as [_ Hp], Hq as [_ Hq].
  rewrite (Hsame _ _ s) in Hp by done. rewrite (Hsame _ _ t) in Hq by done.
  by rewrite (Htrans _ _ v).
Qed.

Lemma query_constants get p q : meets get query_constant p = true -> meets get query_constant q = true ->
  constants_differ (fun s t => s === t) p q = false.
Proof.
  apply meets_constant.
  - intros m value s Hc Hd. unfold query_constant. by rewrite Hc, Hd.
  - intros s t u Hs%bool_decide_eq_true Ht%bool_decide_eq_true. apply bool_decide_eq_true. congruence.
Qed.

Lemma header_constants get p q : meets get header_constant p = true -> meets get header_constant q = true ->
  constants_differ (fun s t => lower s === lower t) p q = false.
Proof.
  apply meets_constant.
  - intros m value s Hc Hd. unfold header_constant. by rewrite Hc, Hd.
  - intros s t u Hs%bool_decide_eq_true Ht%bool_decide_eq_true. apply bool_decide_eq_true. congruence.
Qed.

Lemma meets_present get constant p : meets get constant p = true -> get p.(mapper).(serializedName) <> None.
Proof. unfold meets. by destruct (get _). Qed.

(** What a request that is one for an operation is like. *)
Lemma against_some rq spec pattern n :
  isRequestAgainstOperation fromUri rq spec pattern = Some n ->
  js spec.(httpMethod) = method_of rq /\
  isURITemplateMatch fromUri (default rq.(rq_path) pattern) (path_of spec) = true /\
  n = (length (required_of spec.(queryParameters)) + length (required_of spec.(headerParameters)))%nat /\
  (forall p, p ∈ required_of spec.(queryParameters) -> meets rq.(rq_query) query_constant p = true) /\
  (forall p, p ∈ required_of spec.(headerParameters) -> meets rq.(rq_header) header_constant p = true).
Proof.
  unfold isRequestAgainstOperation. destruct (js (httpMethod spec) === method_of rq) eqn:Hm; [|done]. cbn [negb].
  destruct (isURITemplateMatch _ _ _) eqn:Ht; [|done]. cbn [negb].
  destruct (met _ query_constant _) as [i|] eqn:Hq; [|done]. destruct (met _ header_constant _) as [j|] eqn:Hh; [|done].
  intros [= <-]. apply met_some in Hq as [-> Hq], Hh as [-> Hh]. apply bool_decide_eq_true in Hm. done.
Qed.

Lemma unrivalled_score rq pattern o spec earlier o' spec' n m :
  asks rq pattern o spec -> templates_apart (default rq.(rq_path) pattern) -> Specifications o' = Some spec' ->
  rivals earlier spec spec' = false ->
  isRequestAgainstOperation fromUri rq spec pattern = Some n ->
  isRequestAgainstOperation fromUri rq spec' pattern = Some m -> if earlier then (m < n)%nat else (m <= n)%nat.
Proof.
  intros [Ho _ Hq Hh] Hapart Ho' Hr Hn Hm.
  apply against_some in Hn as (Hm1&Ht1&->&Hq1&Hh1), Hm as (Hm2&Ht2&->&Hq2&Hh2).
  unfold rivals in Hr. apply negb_false_iff in Hr.
  rewrite Hm1, Hm2, (Hapart o o' spec spec') in Hr by done.
  repeat apply orb_prop in Hr as [Hr|Hr].
  - by rewrite bool_decide_eq_true_2 in Hr.
  - by rewrite bool_decide_eq_true_2 in Hr.
  - apply existsb_exists in Hr as (p&Hp%list_elem_of_In&Hnot%bool_decide_eq_true).
    destruct (meets_present _ _ _ (Hq2 p Hp)). eapply Hq; [exact Ho'|by apply name_required|done].
  - apply existsb_exists in Hr as (p&Hp%list_elem_of_In&Hnot%bool_decide_eq_true).
    destruct (meets_present _ _ _ (Hh2 p Hp)). eapply Hh; [exact Ho'|by apply name_required|done].
  - apply existsb_exists in Hr as (p&Hp%list_elem_of_In&(p'&Hp'%list_elem_of_In&Hd)%existsb_exists).
    by rewrite (query_constants rq.(rq_query)) in Hd by auto.
  - apply existsb_exists in Hr as (p&Hp%list_elem_of_In&(p'&Hp'%list_elem_of_In&Hd)%existsb_exists).
    by rewrite (header_constants rq.(rq_header)) in Hd by auto.
  - destruct earlier; [by apply Nat.ltb_lt|by apply Nat.leb_le].
Qed.

Lemma no_rival_score rq pattern o spec earlier o' n m :
  asks rq pattern o spec -> templates_apart (default rq.(rq_path) pattern) -> no_rival earlier spec o' = true ->
  score fromUri Specifications rq pattern o = Some n -> score fromUri Specifications rq pattern o' = Some m ->
  if earlier then (m < n)%nat else (m <= n)%nat.
Proof.
  intros Ha Hapart Hno Hn Hm. unfold no_rival in Hno. unfold score in Hn, Hm. rewrite (as_spec _ _ _ _ Ha) in Hn.
  destruct (Specifications o') as [spec'|] eqn:Ho'; [|done]. apply negb_true_iff in Hno.
  by eapply unrivalled_score.
Qed.

Lemma asks_dispatched rq pattern o spec :
  unrivalled spec o Operation = true -> asks rq pattern o spec -> templates_apart (default rq.(rq_path) pattern) ->
  dispatchMiddleware fromUri Specifications rq pattern Operation = Some o.
Proof.
  intros Hun Ha Hapart. destruct (as_meets _ _ _ _ Ha) as [n Hn].
  assert (Hs : score fromUri Specifications rq pattern o = Some n)
    by (unfold score; by rewrite (as_spec _ _ _ _ Ha)).
  apply dispatch_first_best. exists n. induction Operation as [|o' ops IH]; [done|]. cbn [unrivalled] in Hun.
  destruct (o' === o) eqn:He.
  - apply bool_decide_eq_true in He as ->. exists [], ops. split_and!; [done..| |].
    + intros o' m Ho'. by apply not_elem_of_nil in Ho'.
    + intros o' m Ho' Hm. apply (no_rival_score rq pattern o spec false o'); [done..| |done|done].
      rewrite forallb_forall in Hun. by apply Hun, list_elem_of_In.
  - apply andb_prop in Hun as [Hno Hun]. destruct (IH Hun) as (before&after&->&_&Hb&Hafter).
    exists (o' :: before), after. split_and!; [done..| |done].
    intros o1 m [->|Ho1]%elem_of_cons Hm; [|by eapply Hb].
    by apply (no_rival_score rq pattern o spec true o').
Qed.
End Reaches.

(** ** The operations of the blob and the queue service *)

Definition blob_dispatch (fromUri : text -> text -> option (list (text * text))) rq pattern : option Op.operation :=
  dispatchMiddleware fromUri BlobSpecifications.Specifications rq pattern BlobSpecifications.Operation.
Definition queue_dispatch (fromUri : text -> text -> option (list (text * text))) rq pattern : option QueueOp.operation :=
  dispatchMiddleware fromUri QueueSpecifications.Specifications rq pattern QueueSpecifications.Operation.

Lemma blob_operation o : List.In o BlobSpecifications.Operation.
Proof. apply list_elem_of_In. destruct o; apply (bool_decide_unpack _); by vm_compute. Qed.

(** Headers that no operation requires. *)
Lemma never_required name :
  forallb (fun o => match BlobSpecifications.Specifications o with
    | Some spec => bool_decide (name ∉ names_of spec.(headerParameters)) | None => true end) BlobSpecifications.Operation = true ->
  forall o spec, BlobSpecifications.Specifications o = Some spec -> name ∉ names_of spec.(headerParameters).
Proof.
  intros Hall o spec Ho. rewrite forallb_forall in Hall. specialize (Hall o (blob_operation o)). rewrite Ho in Hall.
  by apply bool_decide_eq_true in Hall.
Qed.

Lemma blob_unrivalled o spec :
  o <> Op.PageBlob_GetPageRangesDiff -> BlobSpecifications.Specifications o = Some spec ->
  unrivalled BlobSpecifications.Specifications spec o BlobSpecifications.Operation = true.
Proof.
  intros Hne Ho. assert (Hall : forallb (fun o => (o === Op.PageBlob_GetPageRangesDiff)
    || match BlobSpecifications.Specifications o with
       | Some spec => unrivalled BlobSpecifications.Specifications spec o BlobSpecifications.Operation
       | None => true
       end) BlobSpecifications.Operation = true) by by vm_compute.
  rewrite forallb_forall in Hall. specialize (Hall o). rewrite Ho in Hall.
  destruct (orb_prop _ _ (Hall (blob_operation o))) as [He%bool_decide_eq_true|]; done.
Qed.

Lemma queue_unrivalled o spec :
  QueueSpecifications.Specifications o = Some spec ->
  unrivalled QueueSpecifications.Specifications spec o QueueSpecifications.Operation = true.
Proof. intros Ho. destruct o; injection Ho as <-; by vm_compute. Qed.

(** C6. every operation of the blob service but PageBlob_GetPageRangesDiff, and every one
    of the queue service, is reached: by any request that meets what it requires and has
    none of the parameters that only other operations require, whatever else it has. *)
Theorem requests_reach (fromUri : text -> text -> option (list (text * text))) rq pattern :
  (forall o spec, o <> Op.PageBlob_GetPageRangesDiff ->
     asks BlobSpecifications.Specifications fromUri rq pattern o spec ->
     templates_apart BlobSpecifications.Specifications fromUri (default rq.(rq_path) pattern) ->
     blob_dispatch fromUri rq pattern = Some o) /\
  (forall o spec, asks QueueSpecifications.Specifications fromUri rq pattern o spec ->
     templates_apart QueueSpecifications.Specifications fromUri (default rq.(rq_path) pattern) ->
     queue_dispatch fromUri rq pattern = Some o).
Proof.
  split; intros o spec.
  - intros Hne Ha Hapart.
    apply (asks_dispatched BlobSpecifications.Specifications BlobSpecifications.Operation fromUri rq pattern o spec); [|done..]. apply blob_unrivalled, Ha. exact Hne.
  - intros Ha Hapart.
    apply (asks_dispatched QueueSpecifications.Specifications QueueSpecifications.Operation fromUri rq pattern o spec); [|done..]. apply queue_unrivalled, Ha.
Qed.

(** no request is dispatched to PageBlob_GetPageRangesDiff: it requires what
    PageBlob_GetPageRanges requires, which comes first; prevsnapshot is not looked at. *)
Theorem page_ranges_diff_unreachable fromUri rq pattern :
  blob_dispatch fromUri rq pattern <> Some Op.PageBlob_GetPageRangesDiff.
Proof.
  unfold blob_dispatch. intros Hd. apply dispatched_first_best in Hd as (n&before&after&Hops&Hn&Hb&_).
  assert (Hsame : score fromUri BlobSpecifications.Specifications rq pattern Op.PageBlob_GetPageRanges = Some n).
  { rewrite <- Hn. unfold score. cbn [mbind option_bind BlobSpecifications.Specifications].
    apply same_conditions. by vm_compute. }
  enough (Hin : Op.PageBlob_GetPageRanges ∈ before) by (specialize (Hb _ n Hin Hsame); lia).
  assert (Hnth : BlobSpecifications.Operation !! length before = Some Op.PageBlob_GetPageRangesDiff)
    by (rewrite Hops; by apply list_lookup_middle).
  assert (Hlen : length before = 58%nat).
  { assert (Hnd : NoDup BlobSpecifications.Operation) by (apply (bool_decide_unpack _); by vm_compute).
    by apply (NoDup_lookup _ (length before) 58 Op.PageBlob_GetPageRangesDiff Hnd). }
  assert (Hget : (before ++ Op.PageBlob_GetPageRangesDiff :: after) !! 57%nat = Some Op.PageBlob_GetPageRanges)
    by by rewrite <- Hops.
  rewrite lookup_app_l in Hget by lia. by eapply list_elem_of_lookup_2.
Qed.

(** The method of a request that is dispatched is that of the operation. *)
Lemma dispatched_method {O} fromUri (Specifications : O -> option OperationSpec) rq pattern ops o :
  dispatchMiddleware fromUri Specifications rq pattern ops = Some o ->
  exists spec n, Specifications o = Some spec /\ o ∈ ops /\
    isRequestAgainstOperation fromUri rq spec pattern = Some n /\ js spec.(httpMethod) = method_of rq.
Proof.
  intros (n&before&after&->&Hn&_)%dispatched_first_best. unfold score in Hn.
  destruct (Specifications o) as [spec|] eqn:Ho; [|done]. exists spec, n. split_and!; [done|set_solver|done|].
  by apply (against_some fromUri) in Hn as (?&_).
Qed.

(** ** Parameters at their paths *)

Section Paths.
Context {T : Type}.
Implicit Types (o : list (text * Value T)) (v : Value T) (path : list text).

Lemma property_assign {A} k (v : A) (o : list (text * A)) : k <> proto -> property k (assign k v o) = Some v.
Proof.
  intros Hk. unfold property. induction o as [|[k' v'] o IH]; cbn [assign].
  all: destruct (k === proto) eqn:Hp; [by apply bool_decide_eq_true in Hp|].
  - cbn. by rewrite bool_decide_eq_true_2.
  - destruct (k' === k) eqn:He; cbn [List.find fst snd]; [by rewrite bool_decide_eq_true_2|by rewrite He].
Qed.

Lemma property_assign_ne {A} k k' (v : A) (o : list (text * A)) : k' <> k -> property k' (assign k v o) = property k' o.
Proof.
  intros Hk. unfold property. induction o as [|[k1 v1] o IH]; cbn [assign].
  all: destruct (k === proto) eqn:Hp; [done|].
  - cbn [List.find fst]. by destruct (k === k') eqn:He; [apply bool_decide_eq_true in He|].
  - destruct (k1 === k) eqn:He.
    + apply bool_decide_eq_true in He as ->. cbn [List.find fst].
      by destruct (k === k') eqn:He; [apply bool_decide_eq_true in He|].
    + cbn [List.find fst]. by destruct (k1 === k').
Qed.

(** The value at the end of a path. *)
Fixpoint get_path o path : Value T :=
  match path with
  | [] => JUndefined
  | [name] => get_property name o
  | name :: path => match get_property name o with JObject o' => get_path o' path | _ => JUndefined end
  end.

Lemma get_path_nil path : get_path [] path = JUndefined.
Proof. by destruct path as [|n [|]]. Qed.

Definition good_path path : bool := (path !== []) && forallb (fun n => n !== proto) path.

(** Neither path leads through the end of the other. *)
Definition apart path path' : bool := bool_decide (~ path `prefix_of` path' /\ ~ path' `prefix_of` path).

Lemma apart_sym path path' : apart path path' = apart path' path.
Proof. unfold apart. apply bool_decide_ext. tauto. Qed.

Lemma apart_cons n path path' : apart (n :: path) (n :: path') = true -> apart path path' = true.
Proof.
  intros [H1 H2]%bool_decide_eq_true. apply bool_decide_eq_true. split; intros Hp; [apply H1|apply H2]; by apply prefix_cons.
Qed.

Lemma apart_nil path : apart [] path = false.
Proof. apply bool_decide_eq_false. intros [H1 _]. apply H1, prefix_nil. Qed.

Lemma apart_single n path : apart [n] (n :: path) = false.
Proof. apply bool_decide_eq_false. intros [H1 _]. apply H1. by exists path. Qed.

Lemma set_cons o n n' path v :
  setParametersValue o (n :: n' :: path) v
  = let child := get_property n o in
    match (if truthy child then child else JObject []) with
    | JObject o' => o'' ← setParametersValue o' (n' :: path) v; Ok (assign n (JObject o'') o)
    | _ => Throw (js "Cannot create property")
    end.
Proof. done. Qed.

Lemma get_cons o n n' path :
  get_path o (n :: n' :: path) = match get_property n o with JObject o' => get_path o' (n' :: path) | _ => JUndefined end.
Proof. done. Qed.

Lemma set_path o path v o' :
  good_path path = true -> setParametersValue o path v = Ok o' -> get_path o' path = v.
Proof.
  revert o o'. induction path as [|n [|n' path] IH]; intros o o' Hg Hs.
  - by apply andb_prop in Hg as [Hg _].
  - injection Hs as <-. cbn [get_path]. unfold get_property. rewrite property_assign; [done|].
    apply andb_prop in Hg as [_ Hg]. cbn in Hg. rewrite andb_true_r in Hg.
    apply negb_true_iff, bool_decide_eq_false in Hg. done.
  - apply andb_prop in Hg as [_ Hg]. cbn [forallb] in Hg. apply andb_prop in Hg as [Hn Hg].
    apply negb_true_iff, bool_decide_eq_false in Hn. rewrite set_cons in Hs. cbv zeta in Hs.
    destruct (if truthy _ then _ else _) as [| | | | | |oc|] eqn:Hc; try done.
    destruct (setParametersValue oc (n' :: path) v) as [o''|] eqn:Hs'; [|done]. injection Hs as <-.
    rewrite get_cons. unfold get_property. rewrite property_assign by done. by eapply (IH oc).
Qed.

Lemma set_other o path path' v o' :
  apart path path' = true -> setParametersValue o path v = Ok o' -> get_path o' path' = get_path o path'.
Proof.
  revert o o' path'. induction path as [|n [|n' path] IH]; intros o o' path' Ha Hs.
  - by rewrite apart_nil in Ha.
  - injection Hs as <-. destruct path' as [|m path']; [done|].
    destruct (decide (m = n)) as [->|Hne]; [by rewrite apart_single in Ha|].
    destruct path'; cbn [get_path]; unfold get_property; by rewrite property_assign_ne.
  - rewrite set_cons in Hs. cbv zeta in Hs. destruct (if truthy _ then _ else _) as [| | | | | |oc|] eqn:Hc; try done.
    destruct (setParametersValue oc (n' :: path) v) as [o''|] eqn:Hs'; [|done]. injection Hs as <-.
    destruct path' as [|m path']; [done|]. destruct (decide (m = n)) as [->|Hne].
    + destruct path' as [|m' path']; [by rewrite apart_sym, apart_single in Ha|]. apply apart_cons in Ha.
      destruct (decide (n = proto)) as [->|Hn].
      { assert (assign proto (JObject o'') o = o) as -> by by destruct o as [|[]]. done. }
      transitivity (get_path o'' (m' :: path')).
      { rewrite get_cons. unfold get_property. by rewrite property_assign. }
      rewrite (IH oc o'' (m' :: path') Ha Hs').
      rewrite get_cons.
      destruct (truthy (get_property n o)) eqn:Ht; [by rewrite Hc|].
      injection Hc as <-. rewrite get_path_nil. by destruct (get_property n o).
    + destruct path' as [|m' path']; rewrite ?get_cons; cbn [get_path]; unfold get_property; by rewrite property_assign_ne.
Qed.
End Paths.

(** The paths of a list are apart from each other. *)
Fixpoint all_apart (paths : list (list text)) : bool :=
  match paths with
  | [] => true
  | path :: paths => good_path path && forallb (apart path) paths && all_apart paths
  end.

Lemma all_apart_app l l' :
  all_apart (l ++ l') = true ->
  all_apart l = true /\ all_apart l' = true /\ forall p p', p ∈ l -> p' ∈ l' -> apart p p' = true.
Proof.
  induction l as [|p l IH]; cbn [app all_apart]; intros Ha.
  - split_and!; [done..|]. intros p p' Hp. by apply not_elem_of_nil in Hp.
  - apply andb_prop in Ha as [[Hg Hp]%andb_prop Ha]. rewrite forallb_app in Hp. apply andb_prop in Hp as [Hp Hp'].
    destruct (IH Ha) as (Hl&Hl'&Hll). rewrite Hg, Hp, Hl. split_and!; [done..|].
    intros q q' [->|Hq]%elem_of_cons Hq'; [|by apply Hll].
    rewrite forallb_forall in Hp'. by apply Hp', list_elem_of_In.
Qed.

Definition path_of_parameter (p : OperationParameter) : list text := js <$> p.(parameterPath).

Definition body_paths (spec : OperationSpec) : list (list text) :=
  match spec.(requestBody) with
  | None => []
  | Some b => (if is_stream b.(rb_mapper).(type_) then [] else [js <$> b.(rb_parameterPath)]) ++ [[js "body"]]
  end.

Definition paths_of (spec : OperationSpec) : list (list text) :=
  (path_of_parameter <$> spec.(queryParameters)) ++ (path_of_parameter <$> spec.(headerParameters)) ++ body_paths spec.

(** ** What the parameters of a request are *)

Section Given.
Context {T : Type} (serializer : Serializer T).
Implicit Types (rq : IRequest) (spec : OperationSpec) (p : OperationParameter) (parameters : list (text * Value T)).

(** [f] puts what [Val] says of a parameter at its path. *)
Definition writes (f : OperationParameter -> list (text * Value T) -> outcome (list (text * Value T)))
    (Val : OperationParameter -> Value T -> Prop) : Prop :=
  forall p parameters parameters', f p parameters = Ok parameters' ->
    exists v, Val p v /\ setParametersValue parameters (path_of_parameter p) v = Ok parameters'.

Lemma each_writes f Val ps parameters parameters' :
  writes f Val -> all_apart (path_of_parameter <$> ps) = true -> each f ps parameters = Ok parameters' ->
  (forall p, p ∈ ps -> Val p (get_path parameters' (path_of_parameter p))) /\
  (forall path, (forall p, p ∈ ps -> apart (path_of_parameter p) path = true) ->
     get_path parameters' path = get_path parameters path).
Proof.
  intros Hf. revert parameters. induction ps as [|p ps IH]; intros parameters Hap He.
  - injection He as <-. split; [|done]. intros p Hp. by apply not_elem_of_nil in Hp.
  - cbn [each] in He. destruct (f p parameters) as [parameters1|] eqn:Hp; [|done].
    cbn [fmap list_fmap all_apart] in Hap. apply andb_prop in Hap as [[Hg Hps]%andb_prop Hap].
    rewrite forallb_forall in Hps. destruct (Hf _ _ _ Hp) as (v&Hv&Hset). destruct (IH _ Hap He) as [Hin Hout]. split.
    + intros q [->|Hq]%elem_of_cons; [|by apply Hin]. rewrite Hout; [by rewrite (set_path _ _ _ _ Hg Hset)|].
      intros q Hq. rewrite apart_sym. apply Hps, list_elem_of_In, list_elem_of_fmap. by exists q.
    + intros path Hpath. rewrite Hout by (intros q Hq; apply Hpath; by right).
      apply (set_other _ (path_of_parameter p) _ v); [|done]. apply Hpath. by left.
Qed.

(** The value of a parameter of the query, and of a header. *)
Definition query_given rq p (v : Value T) : Prop :=
  deserialize_validated serializer p.(mapper) (queryValueOriginal rq p) = Ok v.
Definition header_given rq p (v : Value T) : Prop :=
  match p.(mapper).(headerCollectionPrefix) with
  | Some (String c s) =>
      exists d, header_dictionary serializer p.(mapper) (js (String c s)) rq.(rq_headers) [] = Ok d /\ v = JObject d
  | _ => deserialize_validated serializer p.(mapper) (headerValueOriginal rq p) = Ok v
  end.

Lemma query_writes rq : writes (deserialize_query serializer rq) (query_given rq).
Proof.
  intros p parameters parameters' Hd. unfold deserialize_query in Hd. destruct (_ === _); [done|]. cbn in Hd.
  destruct (deserialize_validated _ _ _) as [v|] eqn:Hv; [|done]. by exists v.
Qed.

Lemma header_writes rq : writes (deserialize_header serializer rq) (header_given rq).
Proof.
  intros p parameters parameters' Hd. unfold deserialize_header in Hd. destruct (_ === _); [done|]. cbn in Hd.
  unfold header_given. destruct (headerCollectionPrefix _) as [[|c s]|].
  2: { destruct (header_dictionary _ _ _ _ _) as [d|] eqn:Hv; [|done]. exists (JObject d). eauto. }
  all: destruct (deserialize_validated _ _ _) as [v|] eqn:Hv; [|done]; by exists v.
Qed.

(** The parameters that a handler is given for a request. *)
Record given rq spec (stream : T) (body : outcome text) parameters : Prop := {
  gv_query p : p ∈ spec.(queryParameters) -> query_given rq p (get_path parameters (path_of_parameter p));
  gv_header p : p ∈ spec.(headerParameters) -> header_given rq p (get_path parameters (path_of_parameter p));
  gv_body b : spec.(requestBody) = Some b ->
    if is_stream b.(rb_mapper).(type_) then get_property (js "body") parameters = JOpaque stream
    else exists text v, body = Ok text /\ get_property (js "body") parameters = JText text /\
      valueToDeserialize serializer rq spec b.(rb_mapper) text = Ok v /\
      deserialize_validated serializer b.(rb_mapper) v = Ok (get_path parameters (js <$> b.(rb_parameterPath)));
  gv_rest name : (forall path, path ∈ paths_of spec -> apart path [name] = true) -> get_property name parameters = JUndefined
}.

Lemma body_given rq spec stream body parameters parameters' :
  all_apart (body_paths spec) = true -> deserialize_body serializer rq spec stream body parameters = Ok parameters' ->
  (forall b, spec.(requestBody) = Some b ->
    if is_stream b.(rb_mapper).(type_) then get_property (js "body") parameters' = JOpaque stream
    else exists text v, body = Ok text /\ get_property (js "body") parameters' = JText text /\
      valueToDeserialize serializer rq spec b.(rb_mapper) text = Ok v /\
      deserialize_validated serializer b.(rb_mapper) v = Ok (get_path parameters' (js <$> b.(rb_parameterPath)))) /\
  (forall path, (forall path', path' ∈ body_paths spec -> apart path' path = true) ->
     get_path parameters' path = get_path parameters path).
Proof.
  unfold body_paths, deserialize_body. destruct (requestBody spec) as [b|]; [|intros _ [= <-]; done].
  destruct (is_stream _) eqn:Hs; cbn [app all_apart]; intros Hap Hd.
  - split.
    + intros b' [= <-]. rewrite Hs. by apply (set_path _ [js "body"] _ _ eq_refl Hd).
    + intros path Hpath. apply (set_other _ [js "body"] _ _ _ (Hpath _ ltac:(by left)) Hd).
  - destruct body as [text|]; [|done]. cbn in Hd.
    destruct (valueToDeserialize _ _ _ _ _) as [v|] eqn:Hv; [|done]. cbn in Hd.
    destruct (deserialize_validated _ _ _) as [value|] eqn:Hval; [|done]. cbn in Hd.
    destruct (setParametersValue _ (js <$> _) _) as [params1|] eqn:Hset; [|done]. cbn in Hd.
    apply andb_prop in Hap as [[Hg Hb]%andb_prop _]. cbn [forallb] in Hb. rewrite andb_true_r in Hb. split.
    + intros b' [= <-]. rewrite Hs. exists text, v. split_and!; [done|by apply (set_path _ [js "body"] _ _ eq_refl Hd)|done|].
      rewrite (set_other params1 [js "body"] _ (JText text) parameters'); [|by rewrite apart_sym|done].
      by rewrite (set_path _ _ _ _ Hg Hset).
    + intros path Hpath. rewrite (set_other params1 [js "body"] _ (JText text) parameters'); [|apply Hpath; by right; left|done].
      eapply (set_other _ _ _ value); [apply Hpath; by left|done].
Qed.

Lemma deserialize_given rq spec stream body parameters :
  all_apart (paths_of spec) = true -> deserialize serializer rq spec stream body = Ok parameters ->
  given rq spec stream body parameters.
Proof.
  unfold paths_of, deserialize. intros Hap Hd.
  apply all_apart_app in Hap as (Hq&Hap&Hqh). apply all_apart_app in Hap as (Hh&Hb&Hhb).
  destruct (each (deserialize_query _ _) _ _) as [params1|] eqn:H1; [|done]. cbn [mbind result_bind] in Hd.
  destruct (each (deserialize_header _ _) _ _) as [params2|] eqn:H2; [|done]. cbn [mbind result_bind] in Hd.
  destruct (each_writes _ _ _ _ _ (query_writes rq) Hq H1) as [Q1 Q2].
  destruct (each_writes _ _ _ _ _ (header_writes rq) Hh H2) as [R1 R2].
  destruct (body_given rq spec stream body params2 parameters Hb Hd) as [B1 B2].
  assert (Hpath : forall p l, p ∈ l -> path_of_parameter p ∈ path_of_parameter <$> l)
    by (intros p l Hp; apply list_elem_of_fmap; by exists p).
  split; [| |exact B1|].
  - intros p Hp. rewrite B2, R2; [by apply Q1| |].
    + intros q Hqin. rewrite apart_sym. apply Hqh; [by apply Hpath|]. apply elem_of_app. left. by apply Hpath.
    + intros path Hin. rewrite apart_sym. apply Hqh; [by apply Hpath|]. apply elem_of_app. by right.
  - intros p Hp. rewrite B2; [by apply R1|]. intros path Hin. rewrite apart_sym. apply Hhb; [by apply Hpath|done].
  - intros name Hname. change (get_path parameters [name] = JUndefined). rewrite B2, R2, Q2.
    + by apply (get_path_nil [name]).
    + intros p Hp. apply Hname, elem_of_app. left. by apply Hpath.
    + intros p Hp. apply Hname, elem_of_app. right. apply elem_of_app. left. by apply Hpath.
    + intros path Hin. apply Hname, elem_of_app. right. apply elem_of_app. by right.
Qed.
End Given.

(** ** What handlers are called with *)

Section Called.
Context {O : Type} (Specifications : O -> option OperationSpec) (Operation : list O)
  (getHandlerByOperation : O -> option IHandlerPath).

(** Required parameters are texts that the request has. *)
Record required_given rq (spec : OperationSpec) : Prop := {
  rg_query p : p ∈ required_of spec.(queryParameters) -> rq.(rq_query) p.(mapper).(serializedName) <> None;
  rg_header p : p ∈ required_of spec.(headerParameters) -> rq.(rq_header) p.(mapper).(serializedName) <> None
}.

(** A method that is called is that of the operation the request is dispatched to, and
    its arguments are the parameters of the request. *)
Definition parameters_arrive : Prop :=
  forall T (serializer : Serializer T) fromUri rq pattern stream body path args,
    handle fromUri serializer Specifications Operation getHandlerByOperation rq pattern stream body = Called path args ->
    exists o spec parameters,
      dispatchMiddleware fromUri Specifications rq pattern Operation = Some o /\ Specifications o = Some spec /\
      getHandlerByOperation o = Some path /\ args = handler_arguments path parameters /\
      required_given rq spec /\ given serializer rq spec stream body parameters.

Definition paths_apart : bool :=
  forallb (fun o => match Specifications o with Some spec => all_apart (paths_of spec) | None => true end) Operation.

Lemma apart_arrive : paths_apart = true -> parameters_arrive.
Proof.
  intros Hap T serializer fromUri rq pattern stream body path args Hc. unfold handle in Hc.
  destruct (dispatchMiddleware _ _ _ _ _) as [o|] eqn:Hd; [|done]. destruct (Specifications o) as [spec|] eqn:Ho; [|done].
  destruct (deserialize _ _ _ _ _) as [parameters|] eqn:Hp; [|done].
  destruct (getHandlerByOperation o) as [path'|] eqn:Hh; [|done]. injection Hc as <- <-.
  exists o, spec, parameters. apply dispatched_method in Hd as Hm. destruct Hm as (spec'&n&Ho'&Hin&Hn&_).
  rewrite Ho in Ho'. injection Ho' as <-. apply against_some in Hn as (_&_&_&Hq&Hhd). split_and!; [done..| |].
  - split; intros p Hpin; [by apply (meets_present _ query_constant p), Hq|by apply (meets_present _ header_constant p), Hhd].
  - apply deserialize_given; [|done]. unfold paths_apart in Hap. rewrite forallb_forall in Hap.
    apply list_elem_of_In in Hin. specialize (Hap o Hin). by rewrite Ho in Hap.
Qed.
End Called.

(** C4. a handler of the three services is called for the operation its request is
    dispatched to, each required parameter is one the request has, and each parameter of
    the specification is found, at its own path, to be what the serializer made of that
    query, header or body: no parameter overwrites another. *)
Theorem handler_parameters :
  parameters_arrive BlobSpecifications.Specifications BlobSpecifications.Operation BlobSpecifications.getHandlerByOperation /\
  parameters_arrive QueueSpecifications.Specifications QueueSpecifications.Operation QueueSpecifications.getHandlerByOperation /\
  parameters_arrive TableSpecifications.Specifications TableSpecifications.Operation TableSpecifications.getHandlerByOperation.
Proof. split_and!; apply apart_arrive; by vm_compute. Qed.

(** An argument of a handler that the request always has: a required parameter or the body. *)
Definition provided (spec : OperationSpec) (arg : string) : bool :=
  existsb (fun p => p.(parameterPath) === [arg]) (required_of (spec.(queryParameters) ++ spec.(headerParameters)))
  || match spec.(requestBody) with
     | Some b => (arg === "body"%string) || (b.(rb_parameterPath) === [arg])
     | None => false
     end.

(** the handlers of blobs and queues get, but for [options], only arguments that the
    request always has; those of tables never get a table, a partition key or a row key as
    an argument: what they get there is undefined, and they read them off the context. *)
Theorem table_names_undefined :
  (forall o spec path arg, BlobSpecifications.Specifications o = Some spec ->
     BlobSpecifications.getHandlerByOperation o = Some path -> arg ∈ path.(arguments) -> arg <> "options"%string ->
     provided spec arg = true) /\
  (forall o spec path arg, QueueSpecifications.Specifications o = Some spec ->
     QueueSpecifications.getHandlerByOperation o = Some path -> arg ∈ path.(arguments) -> arg <> "options"%string ->
     provided spec arg = true) /\
  (forall T (serializer : Serializer T) fromUri rq pattern stream body path args i arg,
     handle fromUri serializer TableSpecifications.Specifications TableSpecifications.Operation
       TableSpecifications.getHandlerByOperation rq pattern stream body = Called path args ->
     path.(arguments) !! i = Some arg -> arg ∈ ["table"; "partitionKey"; "rowKey"]%string -> args !! i = Some JUndefined).
Proof.
  assert (Hprovided : forall spec path, forallb (fun arg => (arg === "options"%string) || provided spec arg) path.(arguments) = true ->
    forall arg, arg ∈ path.(arguments) -> arg <> "options"%string -> provided spec arg = true).
  { intros spec path Hall arg Harg Hne. rewrite forallb_forall in Hall. apply list_elem_of_In in Harg.
    by destruct (orb_prop _ _ (Hall arg Harg)) as [He%bool_decide_eq_true|]. }
  split_and!.
  - intros o spec path arg Ho Hp. apply Hprovided. destruct o; injection Ho as <-; injection Hp as <-; by vm_compute.
  - intros o spec path arg Ho Hp. apply Hprovided. destruct o; injection Ho as <-; injection Hp as <-; by vm_compute.
  - intros T serializer fromUri rq pattern stream body path args i arg Hc Hi Harg.
    assert (Harrive : parameters_arrive TableSpecifications.Specifications TableSpecifications.Operation
      TableSpecifications.getHandlerByOperation) by (apply apart_arrive; by vm_compute).
    destruct (Harrive _ _ _ _ _ _ _ _ _ Hc) as (o&spec&parameters&_&Ho&_&->&_&Hg).
    unfold handler_arguments. rewrite list_lookup_fmap, Hi. cbn. f_equal. apply (gv_rest _ _ _ _ _ _ Hg).
    assert (Hall : forallb (fun o => match TableSpecifications.Specifications o with
      | Some spec => forallb (fun path => forallb (fun arg => apart path [js arg]) ["table"; "partitionKey"; "rowKey"]%string) (paths_of spec)
      | None => true end) TableSpecifications.Operation = true) by by vm_compute.
    rewrite forallb_forall in Hall.
    assert (Hin : List.In o TableSpecifications.Operation)
      by (apply list_elem_of_In; destruct o; apply (bool_decide_unpack _); by vm_compute).
    specialize (Hall o Hin). rewrite Ho in Hall. rewrite forallb_forall in Hall. intros path' Hpath'%list_elem_of_In.
    specialize (Hall path' Hpath'). rewrite forallb_forall in Hall. by apply Hall, list_elem_of_In.
Qed.

(** ** Headers of responses *)

(** The value a header is sent with. *)
Definition sent {T} (name : text) (res : IResponse T) : option (Value T) :=
  snd <$> List.find (fun p => p.1 === name) res.(rs_headers).

Lemma find_set_field {A} k (v : A) hs : snd <$> List.find (fun p => p.1 === k) (set_field k v hs) = Some v.
Proof.
  induction hs as [|[k' v'] hs IH]; cbn; [by rewrite bool_decide_eq_true_2|].
  destruct (k' === k) eqn:He; cbn; [by rewrite bool_decide_eq_true_2|by rewrite He].
Qed.

Lemma find_set_field_ne {A} k k' (v : A) hs :
  k' <> k -> List.find (fun p => p.1 === k') (set_field k v hs) = List.find (fun p => p.1 === k') hs.
Proof.
  intros Hk. induction hs as [|[k1 v1] hs IH]; cbn.
  - by rewrite bool_decide_eq_false_2.
  - destruct (k1 === k) eqn:He; cbn; [|by rewrite IH].
    apply bool_decide_eq_true in He as ->. by rewrite (bool_decide_eq_false_2 (k = k')).
Qed.

Section Headers.
Context {T : Type} (serializer headerSerializer : Serializer T).
Context (stringifyXML : Value T -> option text -> outcome text) (JSON_stringify : Value T -> outcome text).
Implicit Types (res : IResponse T) (hr : HandlerResponse T) (spec : OperationSpec) (v : Value T) (name : text).
Implicit Types (p : string * Mapper) (ps : list (string * Mapper)) (l : list (text * Value T)).

(** A response with the headers of a list set, one after the other. *)
Definition with_headers l res : IResponse T :=
  mkIResponse res.(rs_statusCode) (foldl (fun hs h => set_field h.1 h.2 hs) res.(rs_headers) l) res.(rs_body).

Lemma with_headers_app l l' res : with_headers (l ++ l') res = with_headers l' (with_headers l res).
Proof. unfold with_headers. by rewrite foldl_app. Qed.

Lemma sent_other name l res : name ∉ l.*1 -> sent name (with_headers l res) = sent name res.
Proof.
  unfold sent, with_headers. cbn. intros Hn. f_equal. generalize res.(rs_headers). induction l as [|h l IH]; intros hs; [done|].
  cbn in Hn |- *. rewrite IH by set_solver. apply find_set_field_ne. set_solver.
Qed.

Lemma sent_in name v l res : NoDup l.*1 -> (name, v) ∈ l -> sent name (with_headers l res) = Some v.
Proof.
  intros Hnd Hin. apply list_elem_of_split in Hin as (l1&l2&->). rewrite with_headers_app.
  change ((name, v) :: l2) with ([(name, v)] ++ l2). rewrite with_headers_app, sent_other.
  - unfold sent, with_headers. cbn. apply find_set_field.
  - rewrite fmap_app in Hnd. apply NoDup_app in Hnd as (_&_&Hnd). cbn in Hnd. by apply NoDup_cons in Hnd as [? _].
Qed.

(** The headers a value is sent as, under a name. *)
Definition header name v : list (text * Value T) :=
  match name, header_of v with
  | _ :: _, Some x => [(lower name, x)]
  | _, _ => []
  end.

(** The headers of a property of the response. *)
Definition headers_of hr p : list (text * Value T) :=
  match headerSerializer.(serialize_) p.2 (hr.(hr_property) p.1) None with
  | Throw _ => []
  | Ok v =>
      match p.2.(headerCollectionPrefix), hr.(hr_property) p.1 with
      | None, _ | _, JUndefined => header (js p.2.(serializedName)) v
      | Some prefix, _ => match v with JObject o => o ≫= (fun h => header (js prefix ++ h.1) h.2) | _ => [] end
      end
  end.

Lemma setHeader_with name v res res' :
  name <> [] -> setHeader name v res = Ok res' -> res' = with_headers (header name v) res.
Proof.
  unfold setHeader, node_setHeader, header. destruct name as [|u name]; [done|]. intros _.
  destruct (header_of v) as [x|]; [|by intros [= <-]; destruct res].
  destruct (negb (valid_field _)); [done|]. destruct (negb (valid_content _)); [done|]. by intros [= <-].
Qed.

Lemma set_collection_with prefix o res res' :
  set_collection prefix o res = Ok res' -> res' = with_headers (o ≫= (fun h => header (prefix ++ h.1) h.2)) res.
Proof.
  induction o as [|[n v] o IH] in res |- *; cbn [set_collection mbind list_bind]; [by intros [= <-]; destruct res|].
  intros Hs. rewrite with_headers_app. destruct (prefix ++ n) as [|u name] eqn:Hn; cbn [fst snd] in *; rewrite Hn.
  - rewrite (IH _ Hs). by destruct res.
  - destruct (setHeader _ _ _) as [res1|] eqn:H1; [|done]. apply setHeader_with in H1; [|done]. rewrite <- H1. by apply IH.
Qed.

Lemma serialize_header_with hr p res res' :
  serialize_header headerSerializer hr p res = Ok res' -> res' = with_headers (headers_of hr p) res.
Proof.
  unfold serialize_header, headers_of. destruct (serialize_ _ _ _ _) as [v|]; [|done]. cbn [mbind result_bind].
  assert (Hplain : (if p.2.(serializedName) === ""%string then Ok res else setHeader (js p.2.(serializedName)) v res) = Ok res' ->
    res' = with_headers (header (js p.2.(serializedName)) v) res).
  { destruct p.2.(serializedName) as [|c s]; [by intros [= <-]; destruct res|]. by apply setHeader_with. }
  destruct p.2.(headerCollectionPrefix) as [prefix|]; [|done].
  destruct (hr_property hr p.1); [done|..]; (destruct v; try (by intros [= <-]; destruct res)).
  all: destruct (existsb _ _); [done|]; apply set_collection_with.
Qed.

Lemma serialize_headers_with hr ps res res' :
  serialize_headers headerSerializer hr ps res = Ok res' -> res' = with_headers (ps ≫= headers_of hr) res.
Proof.
  induction ps as [|p ps IH] in res |- *; cbn [serialize_headers mbind list_bind]; [by intros [= <-]; destruct res|].
  destruct (serialize_header _ _ _ _) as [res1|] eqn:H1; [|done]. apply serialize_header_with in H1 as ->.
  intros Hs. by rewrite (IH _ Hs), with_headers_app.
Qed.

(** The body changes no header but the type of the content. *)
Lemma serialize_body_sent spec hr m res res' :
  serialize_body serializer stringifyXML JSON_stringify spec hr m res = Ok res' ->
  res'.(rs_statusCode) = res.(rs_statusCode) /\
  forall name, name <> js "content-type" \/ is_stream m.(type_) = true -> sent name res' = sent name res.
Proof.
  unfold serialize_body. intros Hb. destruct (is_stream m.(type_)); [by destruct (truthy _); simplify_eq|].
  destruct (serialize_ _ _ _ _) as [b|]; [|done]. cbn [mbind result_bind] in Hb.
  assert (Hct : forall value r, setContentType value res = Ok r -> r.(rs_statusCode) = res.(rs_statusCode) /\
    forall name, name <> js "content-type" \/ false = true -> sent name r = sent name res).
  { intros value r Hr. unfold setContentType, node_setHeader in Hr.
    destruct (negb (valid_field _)); [done|]. destruct (negb (valid_content _)); [done|]. injection Hr as <-.
    split; [done|]. intros name [Hne|]; [|done]. unfold sent. cbn. by rewrite find_set_field_ne. }
  destruct spec.(isXML); [destruct (stringifyXML _ _) as [x|]; [|done]|]; cbn [mbind result_bind] in Hb.
  - destruct (setContentType _ _) as [r|] eqn:Hr; [|done]. injection Hb as <-. by apply (Hct _ r Hr).
  - destruct (truthy _); [|destruct (setContentType _ _) as [r|] eqn:Hr; [|done]]; cbn [mbind result_bind] in Hb;
      (destruct (JSON_stringify _); [|done]); injection Hb as <-; [done|by apply (Hct _ r Hr)].
Qed.
End Headers.

(** The names a property of a response may write: one name, and those with a prefix. *)
Inductive Names := Exactly (name : text) | Prefixed (prefix : text).
Definition among (n : Names) (name : text) : bool :=
  match n with Exactly t => name === t | Prefixed t => startsWith t name end.
Definition names_written (p : string * Mapper) : list Names :=
  Exactly (lower (js p.2.(serializedName)))
  :: match p.2.(headerCollectionPrefix) with Some prefix => [Prefixed (lower (js prefix))] | None => [] end.
Definition clash (m n : Names) : bool :=
  match m, n with
  | Exactly s, n | n, Exactly s => among n s
  | Prefixed s, Prefixed t => startsWith s t || startsWith t s
  end.
Definition clashing (p q : string * Mapper) : bool :=
  existsb (fun m => existsb (clash m) (names_written q)) (names_written p).

(** A later property that may overwrite a header: that of the policy of replications is
    one of those that are overwritten. *)
Definition overwritten (p : string * Mapper) : bool := p.1 === "objectReplicationPolicyId"%string.
Fixpoint all_kept (ps : list (string * Mapper)) : bool :=
  match ps with
  | [] => true
  | p :: ps => (overwritten p || negb (existsb (clashing p) ps)) && all_kept ps
  end.

Lemma startsWith_prefix s t : startsWith s t = true <-> s `prefix_of` t.
Proof.
  split; [|intros [k ->]; apply startsWith_app]. intros Ht%startsWith_true. rewrite Ht. by apply prefix_app_r.
Qed.

Lemma clash_common m n name : among m name = true -> among n name = true -> clash m n = true.
Proof.
  destruct m as [s|s], n as [t|t]; cbn [among clash]; intros Hm Hn; try (apply bool_decide_eq_true in Hm; subst s); try done.
  - apply bool_decide_eq_true in Hn. by subst t.
  - apply orb_true_iff. rewrite startsWith_prefix in *. rewrite !startsWith_prefix. by apply (prefix_weak_total _ _ name).
Qed.

Lemma clashing_common p q name : existsb (fun m => among m name) (names_written p) = true ->
  existsb (fun m => among m name) (names_written q) = true -> clashing p q = true.
Proof.
  intros (m&Hm&Hmn)%existsb_exists (n&Hn&Hnn)%existsb_exists. apply existsb_exists. exists m. split; [done|].
  apply existsb_exists. exists n. split; [done|]. by eapply clash_common.
Qed.

Section Kept.
Context {T : Type} (headerSerializer : Serializer T).
Implicit Types (hr : HandlerResponse T) (v : Value T) (name : text) (ps : list (string * Mapper)).

Lemma header_name t v name x : (name, x) ∈ header t v -> name = lower t /\ t <> [].
Proof.
  unfold header. destruct t as [|u t]; [by intros ?%not_elem_of_nil|].
  destruct (header_of v); [|by intros ?%not_elem_of_nil]. by intros [= -> ->]%list_elem_of_singleton.
Qed.

Lemma headers_of_written hr p name x :
  (name, x) ∈ headers_of headerSerializer hr p -> existsb (fun m => among m name) (names_written p) = true.
Proof.
  unfold headers_of, names_written. destruct (serialize_ _ _ _ _) as [v|]; [|by intros ?%not_elem_of_nil].
  assert (Hplain : forall rest, (name, x) ∈ header (js p.2.(serializedName)) v ->
    existsb (fun m => among m name) (Exactly (lower (js p.2.(serializedName))) :: rest) = true).
  { intros rest [-> _]%header_name. cbn. by rewrite bool_decide_eq_true_2. }
  destruct p.2.(headerCollectionPrefix) as [prefix|]; [|apply Hplain].
  destruct (hr_property hr p.1); [apply Hplain|..]; (destruct v; try by intros ?%not_elem_of_nil).
  all: intros (h&[-> _]%header_name&_)%list_elem_of_bind; cbn; unfold lower; rewrite fmap_app, startsWith_app; by destruct (_ === _).
Qed.

(** What a property sets stays. *)
Lemma kept_sent hr ps p name v (res : IResponse T) :
  all_kept ps = true -> p ∈ ps -> overwritten p = false ->
  NoDup (headers_of headerSerializer hr p).*1 -> (name, v) ∈ headers_of headerSerializer hr p ->
  sent name (with_headers (ps ≫= headers_of headerSerializer hr) res) = Some v.
Proof.
  intros Hk Hp Ho Hnd Hin. induction ps as [|q ps IH] in res, Hk, Hp |- *; [by apply not_elem_of_nil in Hp|].
  cbn [all_kept mbind list_bind] in *. apply andb_prop in Hk as [Hq Hk]. rewrite with_headers_app.
  apply elem_of_cons in Hp as [<-|Hp]; [|by apply IH].
  rewrite sent_other; [by apply sent_in|]. intros ([name' v']&->&Hl)%list_elem_of_fmap.
  apply list_elem_of_bind in Hl as (p'&Hp'&Hpin). rewrite Ho in Hq. cbn [orb] in Hq.
  assert (Hc : existsb (clashing p) ps = true); [|by rewrite Hc in Hq].
  apply existsb_exists. exists p'. split; [by apply list_elem_of_In|].
  by eapply clashing_common; eapply headers_of_written.
Qed.

Lemma sent_from name v l (res : IResponse T) :
  sent name (with_headers l res) = Some v -> (name, v) ∈ l \/ sent name res = Some v.
Proof.
  induction l as [|[n x] l IH] using rev_ind; [by right; destruct res|]. rewrite with_headers_app.
  destruct (decide (name = n)) as [<-|Hne].
  - rewrite (sent_in name x) by (try apply NoDup_singleton; set_solver). intros [= <-]. left. set_solver.
  - rewrite sent_other by set_solver. intros [?|?]%IH; [left; set_solver|by right].
Qed.
End Kept.

Section Responses.
Context {O : Type} (Specifications : O -> option OperationSpec) (Operation : list O) (models : list CompositeMapper).

(** A response of an operation has its status and the headers of its properties, and no
    others but the type of its content. *)
Definition headers_arrive : Prop :=
  forall T (serializer headerSerializer : Serializer T) stringifyXML JSON_stringify o spec hr (res res' : IResponse T),
    o ∈ Operation -> Specifications o = Some spec ->
    serialize serializer headerSerializer stringifyXML JSON_stringify (mapper_of models) spec hr res = Ok res' ->
    res'.(rs_statusCode) = hr.(hr_statusCode) /\
    exists r ps, response_of spec hr.(hr_statusCode) = Some r /\
      (forall name, r.(headersMapper) = Some name -> modelProperties <$> mapper_of models name = Some ps) /\
      (r.(headersMapper) = None -> ps = []) /\
      (forall p name v, p ∈ ps -> overwritten p = false -> NoDup (headers_of headerSerializer hr p).*1 ->
         (name, v) ∈ headers_of headerSerializer hr p ->
         name <> js "content-type" \/ (forall m, r.(bodyMapper) = Some m -> is_stream m.(type_) = true) ->
         sent name res' = Some v) /\
      (forall name v, sent name res' = Some v -> name <> js "content-type" -> 
         sent name res = Some v \/ exists p, p ∈ ps /\ (name, v) ∈ headers_of headerSerializer hr p).

(** Every mapper of headers that a response names is there, and its properties do not clash. *)
Definition response_kept (r : string * ResponseSpec) : bool :=
  match r.2.(headersMapper) with
  | Some name => match mapper_of models name with Some c => all_kept c.(modelProperties) | None => false end
  | None => true
  end.
Definition responses_kept : bool :=
  forallb (fun o => match Specifications o with Some spec => forallb response_kept spec.(responses) | None => true end) Operation.

Lemma kept_response o spec status r :
  responses_kept = true -> o ∈ Operation -> Specifications o = Some spec -> response_of spec status = Some r ->
  match r.(headersMapper) with
  | Some name => exists c, mapper_of models name = Some c /\ all_kept c.(modelProperties) = true
  | None => True
  end.
Proof.
  intros Hk Ho Hs Hr. unfold responses_kept in Hk. rewrite forallb_forall in Hk. apply list_elem_of_In in Ho.
  specialize (Hk o Ho). rewrite Hs, forallb_forall in Hk. unfold response_of in Hr.
  destruct (List.find _ _) as [[code r']|] eqn:Hf; [|done]. injection Hr as ->. apply find_some in Hf as [Hin _].
  specialize (Hk _ Hin). unfold response_kept in Hk. cbn in Hk. destruct r.(headersMapper) as [name|]; [|done].
  destruct (mapper_of models name) as [c|]; [|done]. by exists c.
Qed.

Lemma kept_arrive : responses_kept = true -> headers_arrive.
Proof.
  intros Hk T serializer headerSerializer stringifyXML JSON_stringify o spec hr res res' Ho Hs Hser.
  unfold serialize in Hser. destruct (response_of spec _) as [r|] eqn:Hr; [|done].
  set (res0 := mkIResponse _ _ _) in Hser. assert (Hsent0 : forall name, sent name res0 = sent name res) by done.
  pose proof (kept_response o spec _ r Hk Ho Hs Hr) as Hm.
  set (ps := match r.(headersMapper) ≫= mapper_of models with Some c => c.(modelProperties) | None => [] end).
  assert (Hheaders : exists res1, (match r.(headersMapper) ≫= mapper_of models with
             | Some headersMapper => serialize_headers headerSerializer hr headersMapper.(modelProperties) res0
             | None => Ok res0
             end) = Ok res1 /\ res1 = with_headers (ps ≫= headers_of headerSerializer hr) res0 /\
             (match r.(bodyMapper) with
              | Some m => serialize_body serializer stringifyXML JSON_stringify spec hr m res1
              | None => Ok res1 end) = Ok res').
  { destruct (match _ with Some _ => _ | None => _ end) as [res1|] eqn:H1 in Hser; [|done]. exists res1.
    split; [done|]. split; [|done]. unfold ps. destruct (_ ≫= _) as [c|]; [by apply serialize_headers_with in H1|].
    injection H1 as <-. by destruct res0. }
  destruct Hheaders as (res1&_&->&Hbody). clear Hser.
  assert (Hbs : res'.(rs_statusCode) = hr.(hr_statusCode) /\
    forall name, name <> js "content-type" \/ (forall m, r.(bodyMapper) = Some m -> is_stream m.(type_) = true) ->
    sent name res' = sent name (with_headers (ps ≫= headers_of headerSerializer hr) res0)).
  { destruct r.(bodyMapper) as [m|]; [|by injection Hbody as <-]. apply serialize_body_sent in Hbody as [Hst Hb].
    split; [done|]. intros name [?|Hm']; apply Hb; [by left|right; by apply Hm']. }
  destruct Hbs as [Hst Hbs]. split; [done|]. exists r, ps.
  assert (Hps : all_kept ps = true).
  { unfold ps. destruct r.(headersMapper) as [name|]; [|done]. destruct Hm as (c&Hc&?). cbn. by rewrite Hc. }
  split_and!; [done|..].
  - intros name Hn. rewrite Hn in Hm. destruct Hm as (c&Hc&_). unfold ps. rewrite Hn. cbn. by rewrite Hc.
  - intros Hn. unfold ps. by rewrite Hn.
  - intros p name v Hp Hov Hnd Hin Hname. rewrite Hbs by done. by apply kept_sent with p.
  - intros name v Hv Hne. rewrite Hbs in Hv by by left. apply sent_from in Hv as [Hin|Hv]; [right|by left].
    apply list_elem_of_bind in Hin as (p&?&?). by exists p.
Qed.
End Responses.

(** A response that is serialized for an operation of the three services has the status
    of the handler's answer, which its specification describes; each header that the
    mapper of the headers makes of a property of the answer is sent with that value (the
    policy of replications and, under a body, the type of the content apart), and no other
    headers are. *)
Theorem response_headers :
  headers_arrive BlobSpecifications.Specifications BlobSpecifications.Operation BlobMappers.all /\
  headers_arrive QueueSpecifications.Specifications QueueSpecifications.Operation QueueMappers.all /\
  headers_arrive TableSpecifications.Specifications TableSpecifications.Operation TableMappers.all.
Proof. split_and!; apply kept_arrive; by vm_compute. Qed.

(** ** The answers of the queue service *)

(** The methods of the handlers that a request runs. *)
Definition methods (q : QueueHandlersSpec.call) : list (string * string) :=
  match q with
  | QueueHandlersSpec.Enqueue _ _ _ _ _ _ _ _ => [("messagesHandler", "enqueue")]
  | QueueHandlersSpec.UpdateM _ _ _ _ _ _ _ => [("messageIdHandler", "update")]
  | QueueHandlersSpec.Dequeue _ _ _ _ _ => [("messagesHandler", "dequeue")]
  | QueueHandlersSpec.Peek _ _ _ => [("messagesHandler", "peek")]
  | QueueHandlersSpec.Clear _ _ => [("messagesHandler", "clear")]
  | QueueHandlersSpec.Delete _ _ _ => [("messageIdHandler", "delete")]
  | QueueHandlersSpec.Manage o _ =>
      match o with
      | QueueServiceHandlers.Create _ _ _ => [("queueHandler", "create")]
      | QueueServiceHandlers.DeleteQ _ => [("queueHandler", "delete")]
      | QueueServiceHandlers.GetProperties _ => [("queueHandler", "getProperties"); ("queueHandler", "getPropertiesWithHead")]
      | QueueServiceHandlers.SetMetadata _ _ _ => [("queueHandler", "setMetadata")]
      | QueueServiceHandlers.GetAccessPolicy _ => [("queueHandler", "getAccessPolicy"); ("queueHandler", "getAccessPolicyWithHead")]
      | QueueServiceHandlers.SetAccessPolicy _ _ => [("queueHandler", "setAccessPolicy")]
      | QueueServiceHandlers.SetServiceProperties _ _ => [("serviceHandler", "setProperties")]
      | QueueServiceHandlers.GetServiceProperties _ => [("serviceHandler", "getProperties")]
      | QueueServiceHandlers.GetStatistics _ _ => [("serviceHandler", "getStatistics")]
      | QueueServiceHandlers.ListQueuesSegment _ _ _ _ _ _ => [("serviceHandler", "listQueuesSegment")]
      end
  end%string.

Section Answers.
Context {coll : Type -> Type} `{Loki.Loki coll} {E : Type} `{Extents.IExtentStore E} `{QueueHandlers.ReadStream}.
Context (parseXMLwithEmpty : string -> res (list (string * text))) (root_names : string -> res (option (list string))).

Definition described (spec : OperationSpec) (status : Z) : bool :=
  match response_of spec status with Some _ => true | None => false end.

(** Every request to the queue service that succeeds is answered with a status that the
    specification of each operation, whose handler it may have been, describes: its answer
    is not refused for its status. *)
Theorem queue_answers_described (q : QueueHandlersSpec.call) (w : QueueHandlers.QueueService coll QueueServiceHandlers.Setting E) status :
  QueueHandlersSpec.status_of_call parseXMLwithEmpty root_names q w = Ok status ->
  (exists o path, QueueSpecifications.getHandlerByOperation o = Some path /\ (path.(handler), path.(method)) ∈ methods q) /\
  forall o spec path, QueueSpecifications.Specifications o = Some spec ->
    QueueSpecifications.getHandlerByOperation o = Some path -> (path.(handler), path.(method)) ∈ methods q ->
    described spec status = true.
Proof.
  intros Hs%QueueHandlersSpec.status_of_call_in.
  assert (Hop : existsb (fun o => match QueueSpecifications.getHandlerByOperation o with
      | Some path => bool_decide ((path.(handler), path.(method)) ∈ methods q) | None => false end) QueueSpecifications.Operation = true).
  { by destruct q as [| | | | | |[] ?]; vm_compute. }
  assert (Hd : forall o, match QueueSpecifications.Specifications o, QueueSpecifications.getHandlerByOperation o with
      | Some spec, Some path => negb (bool_decide ((path.(handler), path.(method)) ∈ methods q)) || forallb (described spec) (QueueHandlersSpec.statuses q)
      | _, _ => true end = true).
  { intros o. destruct q as [| | | | | |[] ?]; destruct o; by vm_compute. }
  split.
  - apply existsb_exists in Hop as (o&_&Ho).
    destruct (QueueSpecifications.getHandlerByOperation o) as [path|] eqn:Hp; [|done].
    apply bool_decide_eq_true in Ho. by exists o, path.
  - intros o spec path Ho Hp Hin. specialize (Hd o). rewrite Ho, Hp, bool_decide_eq_true_2 in Hd by done.
    cbn [negb orb] in Hd. rewrite forallb_forall in Hd. by apply Hd, list_elem_of_In.
Qed.
End Answers.

(** ** Witnesses *)

(** The paths of blobs, containers and the service match their templates. *)
Definition toy_fromUri (template url : text) : option (list (text * text)) :=
  if bool_decide ((url, template) ∈ [(js "/", js "/"); (js "/container", js "/{containerName}");
       (js "/container/blob", js "/{containerName}/{blob}")])
  then Some [] else None.

Definition w_get : IRequest := mkRequest (js "GET") (js "/a/c/b") (js "/a/c/b") (js "http") (fun _ => None) [] (fun _ => None).

Lemma w_get_asks :
  asks BlobSpecifications.Specifications toy_fromUri w_get (Some (js "/container/blob")) Op.Blob_Download
    BlobSpecifications.blobDownloadOperationSpec.
Proof. split; [done| |done..]. exists 0%nat. by vm_compute. Qed.

Lemma toy_blob_path t : isURITemplateMatch toy_fromUri (js "/container/blob") t = true -> t = js "/{containerName}/{blob}".
Proof.
  unfold isURITemplateMatch, toy_fromUri. destruct (bool_decide _) eqn:Hm; [|done]. intros _.
  apply bool_decide_eq_true in Hm. rewrite !elem_of_cons in Hm.
  destruct Hm as [He|[He|[He|Hm%not_elem_of_nil]]]; [done..|by injection He|done].
Qed.

Lemma w_templates_apart :
  templates_apart BlobSpecifications.Specifications toy_fromUri (js "/container/blob").
Proof. intros o o' spec spec' _ _ Ht%toy_blob_path Ht'%toy_blob_path. congruence. Qed.

Lemma requests_reach_witness : blob_dispatch toy_fromUri w_get (Some (js "/container/blob")) = Some Op.Blob_Download.
Proof.
  apply (proj1 (requests_reach toy_fromUri w_get (Some (js "/container/blob"))) Op.Blob_Download
    BlobSpecifications.blobDownloadOperationSpec); [discriminate|exact w_get_asks|exact w_templates_apart].
Defined.

(** A serializer that leaves values as they are. *)
Definition toy_serializer : Serializer unit :=
  mkSerializer unit (fun _ v _ => Ok v) (fun _ v _ => Ok v) (fun _ => Throw []) (fun _ => Throw []).

Definition w_created : HandlerResponse unit :=
  mkHandlerResponse 201 (fun key => if bool_decide (key = "requestId"%string) then JText (js "id")
                                    else if bool_decide (key = "version"%string) then JText (js "2021") else JUndefined)
    JUndefined.

Definition w_serialized : outcome (IResponse unit) :=
  serialize toy_serializer toy_serializer (fun _ _ => Throw []) (fun _ => Throw []) (mapper_of QueueMappers.all)
    QueueSpecifications.queueCreateOperationSpec w_created (mkIResponse 200 [] []).

Lemma response_headers_witness :
  exists res, w_serialized = Ok res /\ sent (js "x-ms-request-id") res = Some (JText (js "id")).
Proof.
  destruct w_serialized as [res|e] eqn:Hser; [|by vm_compute in Hser]. exists res. split; [done|].
  destruct (proj1 (proj2 response_headers) unit toy_serializer toy_serializer (fun _ _ => Throw []) (fun _ => Throw [])
    QueueOp.Queue_Create QueueSpecifications.queueCreateOperationSpec w_created (mkIResponse 200 [] []) res
    ltac:(apply (bool_decide_unpack _); by vm_compute) eq_refl Hser) as (_&r&ps&Hr&Hps&_&Hsent&_).
  vm_compute in Hr. injection Hr as <-. specialize (Hps _ eq_refl). vm_compute in Hps. injection Hps as <-.
  apply (Hsent ("requestId"%string, simple false "x-ms-request-id" TString)).
  - apply list_elem_of_further, list_elem_of_here.
  - done.
  - apply (bool_decide_unpack _); by vm_compute.
  - by left.
  - left. by vm_compute.
Defined.

#[local] Existing Instances Loki.map_loki QueueHandlersSpec.memory_store QueueHandlersSpec.file_stream.

Lemma queue_answers_described_witness :
  let q := QueueHandlersSpec.Manage (QueueServiceHandlers.Create None [] None) (QueueHandlersSpec.at_time 500) in
  QueueHandlersSpec.status_of_call QueueHandlersSpec.no_xml QueueHandlersSpec.no_names q QueueHandlersSpec.service_empty = Ok 201 /\
  described QueueSpecifications.queueCreateOperationSpec 201 = true.
Proof.
  intros q. assert (Hs : QueueHandlersSpec.status_of_call QueueHandlersSpec.no_xml QueueHandlersSpec.no_names q
    QueueHandlersSpec.service_empty = Ok 201) by (vm_compute; reflexivity).
  split; [exact Hs|]. destruct (queue_answers_described _ _ q _ _ Hs) as [_ Hd].
  eapply (Hd QueueOp.Queue_Create); [reflexivity..|apply list_elem_of_here].
Defined.

(** Pages since a snapshot are asked for, and all pages are the answer. *)
Example pages_since_snapshot :
  blob_dispatch toy_fromUri (mkRequest (js "GET") [] [] [] (fun _ => None) []
    (fun name => if bool_decide (name = "comp"%string) then Some (js "pagelist")
                 else if bool_decide (name = "prevsnapshot"%string) then Some (js "2020") else None)) (Some (js "/container/blob"))
  = Some Op.PageBlob_GetPageRanges.
Proof. by vm_compute. Qed.
