(* ===== verification/BlobAuth.v ===== *)
(** * BlobAuth: who may send a request to the blob service

    The authenticators of src/src/blob/authentication and
    src/src/blob/middlewares/AuthenticationMiddlewareFactory.ts, in the order of
    BlobRequestListenerFactory.ts. They read the blob metadata store. An authenticator
    lets a request in, [Some true], finds a signature that is wrong, [Some false], does
    not know, [None], or throws. What is not of the source is an argument: the HMAC,
    [Date_parse] (the milliseconds of [new Date(s)], if [s] is a date for it), the decoding
    of tokens, [localeCompare], and [url_query], the query of [url.parse]. Names of accounts
    have no dollar sign. *)

From S2P Require Import Prelude Errors Extents Loki Utf8 Texts Uris Regex.
From S2P Require Import BlobModels BlobContainers BlobStore BlobHttp BlobUrls.
From S2P Require BlobServiceHandlers.
From S2P Require Import Protocol BlobSAS.
Open Scope Z_scope.
Open Scope azurite_scope.

(** ** Requests and accounts *)

(** The context, with the time of the clock. *)
Record AuthContext := mkAuthContext {
  ac_url : UrlContext;
  ac_operation : option Op.operation;
  ac_contextId : option string;
  ac_startTime : Z;
  ac_loose : bool;
  ac_now : Z
}.

Record IAccountProperties := mkAccount {
  key1 : bytes;
  key2 : option bytes
}.

Definition AUTHENTICATION_BEARERTOKEN_REQUIRED : string := "Only authentication scheme Bearer is supported".

Section Authenticators.
Context {coll : Type -> Type} `{Loki coll} {P : Type}.
Context (getAccount : text -> option IAccountProperties).
Context (hmac : text -> bytes -> text) (Date_parse : text -> option Z).
Context (localeCompare : text -> text -> Z) (url_query : text -> option text).
Abbreviation store := (proc (BlobDb coll P) exn).
Implicit Types (rq : IRequest) (ctx : AuthContext).

Definition account_of ctx : text := default [] ctx.(ac_url).(uc_account).

(** [dataStore.getAccount(account)]. *)
Definition account_properties ctx (account : text) : res IAccountProperties :=
  match getAccount account with
  | Some p => Ok p
  | None => Throw (BlobErrors.ResourceNotFound ctx.(ac_contextId))
  end.

(** The operation, which the dispatcher has set; a key for users needs a token. *)
Definition required_operation ctx : res Op.operation :=
  match ctx.(ac_operation) with
  | None => Throw JsError
  | Some Op.Service_GetUserDelegationKey =>
      Throw (BlobErrors.getAuthenticationFailed ctx.(ac_contextId) AUTHENTICATION_BEARERTOKEN_REQUIRED)
  | Some o => Ok o
  end.

(** ** What the authenticators of signatures share *)

Definition decodeIfExist (value : option text) : res (option text) :=
  match value with
  | Some v => d ← decodeURIComponent v; Ok (Some d)
  | None => Ok None
  end.

Definition query rq (name : string) : res (option text) := decodeIfExist (rq.(rq_query) name).

(** An invalid date is neither before nor after another. *)
Definition validateTime (now : Z) (expiry start : option text) : bool :=
  match expiry ≫= Date_parse with Some t => negb (t <? now) | None => true end
  && match start ≫= Date_parse with Some t => negb (now <? t) | None => true end.

Definition validateProtocol (sasProtocol : option text) (requestProtocol : text) : bool :=
  let p := default (js "https,http") sasProtocol in
  bool_decide (44 ∈ p) || (lower p === requestProtocol).

Definition validateIPRange : bool := true.

(** The signature is that of the first key, or of the second if there is one. *)
Definition signature_passes (sign : bytes -> res text) (a : IAccountProperties) (signature : option text) : res bool :=
  sig1 ← sign a.(key1);
  match a.(key2) with
  | Some k =>
      sig2 ← sign k;
      Ok ((signature === Some sig1) || (signature === Some sig2))
  | None => Ok (signature === Some sig1)
  end.

Definition blobExist (account container blob : text) : store bool :=
  blobModel ← getBlobType (latin account) (latin container) (latin blob) None;
  mret (match blobModel with
        | None => false
        | Some (t, isCommitted) => negb ((t === Some BlockBlob) && negb isCommitted)
        end).

(** The writes that replace a blob. *)
Definition replaces_blob (o : Op.operation) : bool :=
  match o with
  | Op.BlockBlob_Upload | Op.PageBlob_Create | Op.AppendBlob_Create | Op.Blob_StartCopyFromURL | Op.Blob_CopyFromURL => true
  | _ => false
  end.

(** If the blob exists, they need [Write]. *)
Definition special_requirement ctx (o : Op.operation) (permissions : option text) : store unit :=
  if replaces_blob o then
    exists_ ← blobExist (account_of ctx) (default [] ctx.(ac_url).(uc_container)) (default [] ctx.(ac_url).(uc_blob));
    if exists_ : bool then
      match permissions with
      | None => throw TypeError
      | Some p => guard (one_of Write p) (BlobErrors.getAuthorizationPermissionMismatch ctx.(ac_contextId))
      end
    else mret tt
  else mret tt.

(** ** src/src/blob/authentication/AccountSASAuthenticator.ts *)

Definition getAccountSASSignatureValuesFromRequest rq : res (option IAccountSASSignatureValues) :=
  version ← query rq "sv";
  services ← query rq "ss";
  resourceTypes ← query rq "srt";
  protocol ← query rq "spr";
  startTime ← query rq "st";
  expiryTime ← query rq "se";
  ipRange ← query rq "sip";
  permissions ← query rq "sp";
  signature ← query rq "sig";
  encryptionScope ← query rq "ses";
  Ok (match version, expiryTime, permissions, services, resourceTypes, signature with
      | Some version, Some expiryTime, Some permissions, Some services, Some resourceTypes, Some _ =>
          Some (mkAccountValues version protocol startTime expiryTime permissions ipRange services resourceTypes
                  encryptionScope)
      | _, _, _, _, _, _ => None
      end).

(** What is checked once the signature is right. *)
Definition enforce_account_sas (values : IAccountSASSignatureValues) rq ctx : store (option bool) :=
  let fail := ctx.(ac_contextId) in
  _ ← guard (validateTime ctx.(ac_now) (Some values.(as_expiryTime)) values.(as_startTime))
        (BlobErrors.getAuthorizationFailure fail);
  _ ← guard validateIPRange (BlobErrors.getAuthorizationSourceIPMismatch fail);
  _ ← guard (validateProtocol values.(as_protocol) rq.(rq_protocol)) (BlobErrors.getAuthorizationProtocolMismatch fail);
  operation ← lift (required_operation ctx);
  accountSASPermission ← lift (match OPERATION_ACCOUNT_SAS_PERMISSIONS operation with
                               | Some p => Ok p
                               | None => Throw JsError
                               end);
  _ ← guard (validateServices accountSASPermission values.(as_services))
        (BlobErrors.getAuthorizationServiceMismatch fail);
  _ ← guard (validateResourceTypes accountSASPermission values.(as_resourceTypes))
        (BlobErrors.getAuthorizationResourceTypeMismatch fail);
  _ ← guard (validateAccountPermissions accountSASPermission values.(as_permissions))
        (BlobErrors.getAuthorizationPermissionMismatch fail);
  _ ← special_requirement ctx operation (Some values.(as_permissions));
  mret (Some true).

Definition AccountSASAuthenticator rq ctx : store (option bool) :=
  let account := account_of ctx in
  accountProperties ← lift (account_properties ctx account);
  signature ← lift (query rq "sig");
  values ← lift (getAccountSASSignatureValuesFromRequest rq);
  match values with
  | None => mret (Some false)
  | Some values =>
      _ ← guard (ctx.(ac_loose) || undefined values.(as_encryptionScope))
            (BlobErrors.StrictModelNotSupportedError "SAS Encryption Scope 'ses'" ctx.(ac_contextId));
      passes ← lift (signature_passes (fun k => Ok (generateAccountSASSignature hmac values account k))
                       accountProperties signature);
      if passes : bool then enforce_account_sas values rq ctx else mret (Some false)
  end.

(** ** src/src/blob/authentication/BlobSASAuthenticator.ts *)

Definition getBlobSASSignatureValuesFromRequest rq (containerName : text) (blobName : option text) :
    res (option IBlobSASSignatureValues) :=
  version ← query rq "sv";
  protocol ← query rq "spr";
  startTime ← query rq "st";
  expiryTime ← query rq "se";
  permissions ← query rq "sp";
  ipRange ← query rq "sip";
  identifier ← query rq "si";
  let q := rq.(rq_query) in
  signedResource ← query rq "sr";
  snapshot ← query rq "snapshot";
  encryptionScope ← query rq "ses";
  signedObjectId ← query rq "skoid";
  signedTenantId ← query rq "sktid";
  signedStartsOn ← query rq "skt";
  signedExpiresOn ← query rq "ske";
  signedVersion ← query rq "skv";
  signedService ← query rq "sks";
  Ok (if negb (is_truthy identifier) && (negb (is_truthy permissions) || negb (is_truthy expiryTime)) then None
      else match version with
           | None => None
           | Some version =>
               Some (mkBlobValues version protocol startTime expiryTime permissions ipRange containerName blobName
                 identifier encryptionScope (q "rscc"%string) (q "rscd"%string) (q "rsce"%string) (q "rscl"%string)
                 (q "rsct"%string) signedResource snapshot signedObjectId signedTenantId signedService signedVersion
                 signedStartsOn signedExpiresOn)
           end).

Definition resource_of (sr : option text) : option BlobSASResourceType :=
  if sr === Some (js "c") then Some RTContainer
  else if sr === Some (js "b") then Some RTBlob
  else if sr === Some (js "bs") then Some RTBlobSnapshot
  else None.

(** The fields of a user delegation key. *)
Definition key_fields (v : IBlobSASSignatureValues) : list (option text) :=
  [v.(bs_signedObjectId); v.(bs_signedTenantId); v.(bs_signedService); v.(bs_signedVersion); v.(bs_signedStartsOn);
   v.(bs_signedExpiresOn)].

Definition with_udk (v : IBlobSASSignatureValues) : bool := existsb is_truthy (key_fields v).

(** getUserDelegationKeyValue of src/src/blob/utils/utils.ts. *)
Definition getUserDelegationKeyValue (v : IBlobSASSignatureValues) : text :=
  hmac (join_lines [or_empty v.(bs_signedObjectId); or_empty v.(bs_signedTenantId); or_empty v.(bs_signedStartsOn);
                    or_empty v.(bs_signedExpiresOn); js "b"; or_empty v.(bs_signedVersion)])
    (from_base64 (js BlobServiceHandlers.USERDELEGATIONKEY_BASIC_KEY)).

(** Whether the signature with such a key is right. *)
Definition udk_passes (v : IBlobSASSignatureValues) (resource : BlobSASResourceType) (account : text)
    (signature : text) rq ctx : res bool :=
  let refused := BlobErrors.getAuthorizationFailure ctx.(ac_contextId) in
  throw_when (negb (forallb is_truthy (key_fields v)) || (v.(bs_signedService) !== Some (js "b"))) refused;;
  savedPolicy ← query rq "si";
  throw_when (is_truthy savedPolicy) refused;;
  throw_when (negb (validateTime ctx.(ac_now) v.(bs_signedExpiresOn) v.(bs_signedStartsOn))) refused;;
  sig ← generateBlobSASSignatureWithUDK hmac v resource account (from_base64 (getUserDelegationKeyValue v));
  Ok (sig === signature).

(** What a [catch] that returns [undefined] makes of a method. *)
Definition attempt {A} (m : store A) : store (option A) :=
  fun s => match m s with (Ok a, s') => (Ok (Some a), s') | (Throw _, s') => (Ok None, s') end.

Definition auth_ctx ctx : BlobContext := mkBlobContext ctx.(ac_startTime) ctx.(ac_contextId).

Definition getContainerAccessPolicyByIdentifier (account container id : text) ctx : store (option AccessPolicy) :=
  r ← attempt (getContainerACL (auth_ctx ctx) (latin account) (latin container) None);
  mret (match r with
        | Some (_, Some acl) => List.find (fun p => js p.(ap_id) === id) acl
        | _ => None
        end).

(** The times and the permissions of the policy take the place of those of the values. *)
Definition apply_policy (v : IBlobSASSignatureValues) (p : AccessPolicy) : IBlobSASSignatureValues :=
  mkBlobValues v.(bs_version) v.(bs_protocol) (js <$> p.(ap_start)) (js <$> p.(ap_expiry)) (js <$> p.(ap_permission))
    v.(bs_ipRange) v.(bs_containerName) v.(bs_blobName) v.(bs_identifier) v.(bs_encryptionScope) v.(bs_cacheControl)
    v.(bs_contentDisposition) v.(bs_contentEncoding) v.(bs_contentLanguage) v.(bs_contentType) v.(bs_signedResource)
    v.(bs_snapshot) v.(bs_signedObjectId) v.(bs_signedTenantId) v.(bs_signedService) v.(bs_signedVersion)
    v.(bs_signedStartsOn) v.(bs_signedExpiresOn).

Definition saved_policy (v : IBlobSASSignatureValues) (account container : text) ctx : store IBlobSASSignatureValues :=
  match v.(bs_identifier) with
  | None => mret v
  | Some id =>
      accessPolicy ← getContainerAccessPolicyByIdentifier account container id ctx;
      match accessPolicy with
      | None => throw (BlobErrors.getAuthorizationFailure ctx.(ac_contextId))
      | Some p => mret (apply_policy v p)
      end
  end.

Definition blob_permission (resource : BlobSASResourceType) (o : Op.operation) : option text :=
  match resource with
  | RTBlob => OPERATION_BLOB_SAS_BLOB_PERMISSIONS o
  | _ => OPERATION_BLOB_SAS_CONTAINER_PERMISSIONS o
  end.

Definition enforce_blob_sas (values : IBlobSASSignatureValues) (resource : BlobSASResourceType)
    (account container : text) rq ctx : store (option bool) :=
  let fail := ctx.(ac_contextId) in
  values ← saved_policy values account container ctx;
  _ ← guard (validateTime ctx.(ac_now) values.(bs_expiryTime) values.(bs_startTime))
        (BlobErrors.getAuthorizationFailure fail);
  _ ← guard validateIPRange (BlobErrors.getAuthorizationSourceIPMismatch fail);
  _ ← guard (validateProtocol values.(bs_protocol) rq.(rq_protocol)) (BlobErrors.getAuthorizationProtocolMismatch fail);
  operation ← lift (required_operation ctx);
  blobSASPermission ← lift (match blob_permission resource operation with
                            | Some p => Ok p
                            | None => Throw JsError
                            end);
  allowed ← lift (validatePermissions blobSASPermission values.(bs_permissions));
  _ ← guard allowed (BlobErrors.getAuthorizationPermissionMismatch fail);
  _ ← special_requirement ctx operation values.(bs_permissions);
  mret (Some true).

Definition BlobSASAuthenticator rq ctx : store (option bool) :=
  match ctx.(ac_url).(uc_account), ctx.(ac_url).(uc_container) with
  | None, _ => throw RangeError
  | _, None => mret None
  | Some account, Some container =>
      accountProperties ← lift (account_properties ctx account);
      signature ← lift (query rq "sig");
      match signature with
      | None => mret None
      | Some signature =>
          sr ← lift (query rq "sr");
          match resource_of sr with
          | None => mret None
          | Some resource =>
              values ← lift (getBlobSASSignatureValuesFromRequest rq container ctx.(ac_url).(uc_blob));
              match values with
              | None => mret None
              | Some values =>
                  _ ← guard (ctx.(ac_loose) || undefined values.(bs_encryptionScope))
                        (BlobErrors.StrictModelNotSupportedError "SAS Encryption Scope 'ses'" ctx.(ac_contextId));
                  passes ← lift (if with_udk values then udk_passes values resource account signature rq ctx
                                 else signature_passes (generateBlobSASSignature hmac values resource account)
                                        accountProperties (Some signature));
                  if passes : bool then enforce_blob_sas values resource account container rq ctx
                  else mret (Some false)
              end
          end
      end
  end.

(** ** src/src/blob/authentication/PublicAccessAuthenticator.ts *)

Definition BLOB_PUBLIC_READ_OPERATIONS (o : Op.operation) : bool :=
  match o with
  | Op.Blob_Download | Op.Blob_GetProperties | Op.PageBlob_GetPageRanges | Op.PageBlob_GetPageRangesDiff
  | Op.BlockBlob_GetBlockList => true
  | _ => false
  end.

Definition CONTAINER_PUBLIC_READ_OPERATIONS (o : Op.operation) : bool :=
  match o with
  | Op.Container_GetProperties | Op.Container_GetPropertiesWithHead | Op.Container_GetAccessPolicy
  | Op.Container_ListBlobFlatSegment | Op.Container_ListBlobHierarchySegment | Op.Blob_Download | Op.Blob_GetProperties
  | Op.PageBlob_GetPageRanges | Op.PageBlob_GetPageRangesDiff | Op.BlockBlob_GetBlockList => true
  | _ => false
  end.

Definition getContainerPublicAccessType (account container : text) ctx : store (option string) :=
  r ← attempt (getContainerACL (auth_ctx ctx) (latin account) (latin container) None);
  mret (r ≫= fun r => r.1.(c_publicAccess)).

Definition PublicAccessAuthenticator ctx : store (option bool) :=
  match ctx.(ac_url).(uc_container) with
  | None => mret None
  | Some container =>
      access ← getContainerPublicAccessType (account_of ctx) container ctx;
      match access with
      | None => mret None
      | Some access =>
          operation ← lift (match ctx.(ac_operation) with Some o => Ok o | None => Throw JsError end);
          if access === "container"%string then
            mret (if CONTAINER_PUBLIC_READ_OPERATIONS operation then Some true else None)
          else if access === "blob"%string then
            mret (if BLOB_PUBLIC_READ_OPERATIONS operation then Some true else None)
          else throw JsError
      end
  end.
End Authenticators.
