(* ===== verification/BlobAccess.v ===== *)
(** * BlobAccess: keys, tokens and the authentication of a request

    BlobSharedKeyAuthenticator.ts and BlobTokenAuthenticator.ts of
    src/src/blob/authentication, [getURLQueries] of src/src/common/utils/utils.ts, and
    AuthenticationMiddlewareFactory.ts, which asks the authenticators one after the other.
    Methods, names of headers and URLs are ASCII; the claims of a token have the types
    the code takes them for, and times of tokens are whole seconds. *)

From S2P Require Import Prelude Errors Extents Loki Utf8 Texts Uris Regex.
From S2P Require Import BlobModels BlobContainers BlobStore BlobHttp BlobUrls.
From S2P Require BlobServiceHandlers.
From S2P Require Import Protocol BlobSAS BlobAuth.
Open Scope Z_scope.
Open Scope azurite_scope.

(** ** src/src/common/utils/utils.ts *)

(** The pieces with one equals sign, which is not the first unit. *)
Definition key_value (piece : text) : option (text * text) :=
  match split_on 61 piece with
  | [[]; _] => None
  | [key; value] => Some (key, value)
  | _ => None
  end.

(** A first question mark belongs to the query only if it was there twice. *)
Definition getURLQueries (url_query : text -> option text) (url : text) : list (text * text) :=
  match url_query url with
  | None | Some [] => []
  | Some queryString =>
      let queryString := trim queryString in
      let queryString := if startsWith (js "?") queryString then drop 1 queryString else queryString in
      foldl (fun o p => assign p.1 p.2 o) [] (omap key_value (split_on 38 queryString))
  end.

(** ** Sorting *)

(** A stable sort: [before x y] if [x] may stay in front of [y]. *)
Fixpoint insert_sorted {A} (before : A -> A -> bool) (x : A) (l : list A) : list A :=
  match l with
  | [] => [x]
  | y :: l' => if before x y then x :: l else y :: insert_sorted before x l'
  end.
Definition sort_by {A} (before : A -> A -> bool) (l : list A) : list A := foldr (insert_sorted before) [] l.

(** ** src/src/blob/authentication/BlobSharedKeyAuthenticator.ts *)

Definition upper_unit (u : Z) : Z := if (97 <=? u) && (u <=? 122) then u - 32 else u.
Definition upper (s : text) : text := upper_unit <$> s.
Definition trim_end (s : text) : text := reverse (trim_start (reverse s)).

Definition PREFIX_FOR_STORAGE : text := js "x-ms-".

(** The headers whose values are signed. *)
Definition SIGNED_HEADERS : list string :=
  ["content-encoding"; "content-language"; "content-length"; "content-md5"; "content-type"; "date";
   "if-modified-since"; "if-match"; "if-none-match"; "if-unmodified-since"; "Range"]%string.

Definition getHeaderValueToSign (rq : IRequest) (headerName : string) : text :=
  match rq.(rq_header) headerName with
  | Some (u :: value) =>
      if (headerName === "content-length"%string) && (u :: value === js "0") then [] else u :: value
  | _ => []
  end.

(** [l.join(",")]. *)
Fixpoint join_commas (l : list text) : text :=
  match l with
  | [] => []
  | [x] => x
  | x :: l => x ++ [44] ++ join_commas l
  end.

Definition header_text (v : HeaderValue) : text :=
  match v with HUndefined => [] | HString s => s | HStrings l => join_commas l end.

(** A claim of a token that was read. *)
Record Claims := mkClaims {
  cl_nbf : option Z;
  cl_exp : option Z;
  cl_iat : option Z;
  cl_iss : option text;
  cl_aud : option text
}.

Definition VALID_ISSUE_PREFIXES : list text :=
  js <$> ["https://sts.windows.net/"; "https://sts.microsoftonline.de/"; "https://sts.chinacloudapi.cn/";
          "https://sts.windows-ppe.net"]%string.

(** [\/?$]. *)
Definition last_slash : regex := Seq (Opt (is_unit 47)) EndOfText.
Definition account_host (suffix : string) : regex :=
  Seq (Lit "https://") (Seq (Capture 1 (Star Regex.Any)) (Seq (Lit suffix) last_slash)).

(** They start at the first unit. *)
Definition VALID_BLOB_AUDIENCES : list regex :=
  [Seq (Lit "https://storage.azure.com") last_slash;
   Seq (Lit "e406a681-f3d4-42a8-90b6-c2b029497af1") EndOfText;
   account_host ".blob.core.windows.net";
   account_host ".blob.core.chinacloudapi.cn";
   account_host ".blob.core.usgovcloudapi.net";
   account_host ".blob.core.cloudapi.de"].

(** [m[1]] of a match. *)
Definition first_group (f : found) : option text := snd <$> List.find (fun x => Nat.eqb x.1 1) f.(f_captures).

(** The first expression that matches the whole audience decides: it may name an account. *)
Fixpoint audience_match (audiences : list regex) (aud account : text) : bool :=
  match audiences with
  | [] => false
  | r :: audiences =>
      match match_here r [] aud with
      | Some f =>
          if f.(f_text) === aud then
            match first_group f with Some a => a === account | None => true end
          else audience_match audiences aud account
      | None => audience_match audiences aud account
      end
  end.

Section Access.
Context {coll : Type -> Type} `{Loki coll} {P : Type}.
Context (getAccount : text -> option IAccountProperties).
Context (hmac : text -> bytes -> text) (Date_parse : text -> option Z).
Context (localeCompare : text -> text -> Z) (url_query : text -> option text).
Context (decode : text -> res (option Claims)).
Abbreviation store := (proc (BlobDb coll P) exn).
Implicit Types (rq : IRequest) (ctx : AuthContext).

Definition getCanonicalizedHeadersString rq : text :=
  let headers := (fun h => (lower h.1, header_text h.2)) <$> rq.(rq_headers) in
  let headersArray := List.filter (fun h => startsWith PREFIX_FOR_STORAGE h.1) headers in
  concat ((fun h => trim_end h.1 ++ [58] ++ trim_start h.2 ++ [10])
            <$> sort_by (fun a b => localeCompare a.1 b.1 <=? 0) headersArray).

(** [key:decodeURIComponent(value.replace(/\+/g, "%20"))]; no text is stored under [__proto__]. *)
Definition query_line (queries : list (text * text)) (key : text) : res text :=
  match property key queries with
  | None => Throw TypeError
  | Some value =>
      d ← decodeURIComponent (mjoin ((fun u => if u =? 43 then js "%20" else [u]) <$> value));
      Ok ([10] ++ key ++ [58] ++ d)
  end.

Fixpoint query_lines (queries : list (text * text)) (keys : list text) : res text :=
  match keys with
  | [] => Ok []
  | key :: keys =>
      line ← query_line queries key;
      rest ← query_lines queries keys;
      Ok (line ++ rest)
  end.

(** A query named [hasOwnProperty] takes the place of the method. *)
Definition getCanonicalizedResourceString rq (account : text) (authenticationPath : option text) : res text :=
  let path := default (match rq.(rq_path) with [] => js "/" | p => p end) authenticationPath in
  let queries := getURLQueries url_query rq.(rq_url) in
  throw_when (defined (property (js "hasOwnProperty") queries)) TypeError;;
  let lowercaseQueries := foldl (fun o p => assign (lower p.1) p.2 o) [] queries in
  let queryKeys := sort_by text_leb ((fun p => lower p.1) <$> queries) in
  lines ← query_lines lowercaseQueries queryKeys;
  Ok (js "/" ++ account ++ path ++ lines).

Definition stringToSign rq (account : text) (authenticationPath : option text) : res text :=
  resource ← getCanonicalizedResourceString rq account authenticationPath;
  Ok (join_lines (upper rq.(rq_method) :: (getHeaderValueToSign rq <$> SIGNED_HEADERS)) ++ [10]
      ++ getCanonicalizedHeadersString rq ++ resource).

Definition authValue (account stringToSign : text) (key : bytes) : text :=
  js "SharedKey " ++ account ++ js ":" ++ hmac stringToSign key.

(** Whether the header has the signature with one of the keys. *)
Definition key_passes (a : IAccountProperties) (account stringToSign authHeaderValue : text) : bool :=
  (authHeaderValue === authValue account stringToSign a.(key1))
  || match a.(key2) with Some k => authHeaderValue === authValue account stringToSign k | None => false end.

Definition BlobSharedKeyAuthenticator rq ctx : res (option bool) :=
  let account := account_of ctx in
  let authenticationPath := ctx.(ac_url).(uc_authenticationPath) in
  match rq.(rq_header) "authorization"%string with
  | None => Ok None
  | Some authHeaderValue =>
      if negb (startsWith (js "SharedKey") authHeaderValue) then Ok None
      else
        accountProperties ← account_properties getAccount ctx account;
        _ ← required_operation ctx;
        s ← stringToSign rq account authenticationPath;
        if key_passes accountProperties account s authHeaderValue then Ok (Some true)
        else if (ctx.(ac_url).(uc_isSecondary) === Some true)
                && ((authenticationPath ≫= index_of account) === Some 1%nat) then
          s ← stringToSign rq account
                (replace_first account (account ++ js "-secondary") <$> authenticationPath);
          Ok (Some (key_passes accountProperties account s authHeaderValue))
        else Ok (Some false)
  end.

(** ** src/src/blob/authentication/BlobTokenAuthenticator.ts *)

Definition unsupported ctx : exn :=
  BlobErrors.getAuthenticationFailed ctx.(ac_contextId) "Authentication scheme Bearer is not supported.".

Definition authenticateBasic (token : text) ctx : res bool :=
  let failed := BlobErrors.getAuthenticationFailed ctx.(ac_contextId) in
  match decode token with
  | Throw _ | Ok None => Throw (unsupported ctx)
  | Ok (Some decoded) =>
      match decoded.(cl_nbf), decoded.(cl_exp), decoded.(cl_iat) with
      | Some nbf, Some exp, Some _ =>
          let now := ctx.(ac_startTime) in
          throw_when (now <? nbf * 1000) (failed "Lifetime validation failed.");;
          throw_when (exp * 1000 <? now) (failed "Lifetime validation failed. The token is expired.");;
          match decoded.(cl_iss) with
          | None | Some [] => Throw (unsupported ctx)
          | Some iss =>
              throw_when (negb (existsb (fun p => startsWith p iss) VALID_ISSUE_PREFIXES))
                (failed "Invalid token issuer.");;
              match decoded.(cl_aud) with
              | None | Some [] => Throw (unsupported ctx)
              | Some aud =>
                  throw_when (negb (audience_match VALID_BLOB_AUDIENCES aud (account_of ctx)))
                    (failed "Invalid token audience.");;
                  Ok true
              end
          end
      | _, _, _ => Throw (unsupported ctx)
      end
  end.

(** The only level of OAuth is [BASIC]. *)
Definition BlobTokenAuthenticator rq ctx : res (option bool) :=
  _ ← account_properties getAccount ctx (account_of ctx);
  match rq.(rq_header) "authorization"%string with
  | None => Ok None
  | Some authHeaderValue =>
      if (ctx.(ac_operation) === Some Op.Container_GetAccessPolicy)
         || (ctx.(ac_operation) === Some Op.Container_SetAccessPolicy) then Ok None
      else
        throw_when (negb (startsWith (js "Bearer") authHeaderValue))
          (BlobErrors.getInvalidAuthenticationInfo ctx.(ac_contextId));;
        throw_when (lower rq.(rq_protocol) !== js "https")
          (BlobErrors.getAuthenticationFailed ctx.(ac_contextId)
             "Authentication scheme Bearer is not allowed with HTTP.");;
        pass ← authenticateBasic (drop 7 authHeaderValue) ctx;
        Ok (Some pass)
  end.

(** ** src/src/blob/middlewares/AuthenticationMiddlewareFactory.ts *)

(** [authenticate]: the first authenticator that lets the request in decides; what one throws is the answer. *)
Fixpoint authenticate (authenticators : list (store (option bool))) : store bool :=
  match authenticators with
  | [] => mret false
  | authenticator :: authenticators =>
      pass ← authenticator;
      if pass === Some true then mret true else authenticate authenticators
  end.

(** Those of BlobRequestListenerFactory.ts, where [oauth] says whether there are tokens. *)
Definition blob_authenticators (oauth : bool) rq ctx : list (store (option bool)) :=
  [PublicAccessAuthenticator ctx;
   lift (BlobSharedKeyAuthenticator rq ctx);
   AccountSASAuthenticator getAccount hmac Date_parse rq ctx;
   BlobSASAuthenticator getAccount hmac Date_parse rq ctx]
  ++ if oauth then [lift (BlobTokenAuthenticator rq ctx)] else [].

(** The middleware: what is not let in is refused. *)
Definition createAuthenticationMiddleware (oauth : bool) rq ctx : store unit :=
  pass ← authenticate (blob_authenticators oauth rq ctx);
  guard pass (BlobErrors.getAuthorizationFailure ctx.(ac_contextId)).
End Access.

Example queries_of_url :
  getURLQueries (fun _ => Some (js "a=1&b=&c&=d&e=f=g&a=2")) [] = [(js "a", js "2"); (js "b", [])].
Proof. by vm_compute. Qed.

(** An audience that names the account of the request, and one that names another. *)
Example audiences :
  audience_match VALID_BLOB_AUDIENCES (js "https://acct.blob.core.windows.net/") (js "acct") = true
  /\ audience_match VALID_BLOB_AUDIENCES (js "https://other.blob.core.windows.net") (js "acct") = false
  /\ audience_match VALID_BLOB_AUDIENCES (js "https://storage.azure.com/") (js "acct") = true
  /\ audience_match VALID_BLOB_AUDIENCES (js "https://storage.azure.com//") (js "acct") = false.
Proof. by vm_compute. Qed.
