(* ===== verification/BlobAuthSpec.v ===== *)
(** * BlobAuthSpec: theorems about who is let in

    A request goes through the authenticators and, if one lets it in, to the handler of
    its operation ([enter]). *)

From stdpp Require Import relations.
From S2P Require Import Prelude Errors Extents Loki Utf8 Texts Uris Lease.
From S2P Require Import BlobModels BlobContainers BlobStore BlobChanges BlobRefine BlobHttp BlobUrls BlobHandlers.
From S2P Require Import BlobService BlobReads BlobServiceSpec.
From S2P Require BlobServiceHandlers.
From S2P Require BlobSpecifications.
From S2P Require Import Protocol ProtocolSpec BlobSAS BlobAuth BlobAccess.
Open Scope Z_scope.
Open Scope azurite_scope.

(** ** Operations and their names *)

(** The names an operation is dispatched under. *)
Definition names (o : Operation) : list Op.operation :=
  match o with
  | OnService o => match o with
    | Service_SetProperties _ _ => [Op.Service_SetProperties]
    | Service_GetProperties _ => [Op.Service_GetProperties]
    | Service_GetStatistics _ _ => [Op.Service_GetStatistics]
    | Service_ListContainersSegment _ => [Op.Service_ListContainersSegment]
    | Service_GetUserDelegationKey _ => [Op.Service_GetUserDelegationKey]
    | Service_FilterBlobs _ => [Op.Service_FilterBlobs]
    | GetAccountInfo Service => [Op.Service_GetAccountInfo; Op.Service_GetAccountInfoWithHead]
    | GetAccountInfo Container => [Op.Container_GetAccountInfo; Op.Container_GetAccountInfoWithHead]
    | GetAccountInfo Blob => [Op.Blob_GetAccountInfo; Op.Blob_GetAccountInfoWithHead]
    end
  | OnContainer o => match o with
    | Container_Create _ _ => [Op.Container_Create]
    | Container_GetProperties _ _ => [Op.Container_GetProperties; Op.Container_GetPropertiesWithHead]
    | Container_Delete _ _ _ => [Op.Container_Delete]
    | Container_SetMetadata _ _ _ => [Op.Container_SetMetadata]
    | Container_GetAccessPolicy _ _ => [Op.Container_GetAccessPolicy]
    | Container_SetAccessPolicy _ _ _ _ _ => [Op.Container_SetAccessPolicy]
    | Container_FilterBlobs _ => [Op.Container_FilterBlobs]
    | Container_AcquireLease _ _ _ _ => [Op.Container_AcquireLease]
    | Container_ReleaseLease _ _ _ => [Op.Container_ReleaseLease]
    | Container_RenewLease _ _ _ => [Op.Container_RenewLease]
    | Container_BreakLease _ _ _ => [Op.Container_BreakLease]
    | Container_ChangeLease _ _ _ _ => [Op.Container_ChangeLease]
    | Container_ListBlobFlatSegment _ => [Op.Container_ListBlobFlatSegment]
    | Container_ListBlobHierarchySegment _ _ => [Op.Container_ListBlobHierarchySegment]
    end
  | OnBlob o => match o with
    | Blob_Download _ => [Op.Blob_Download]
    | Blob_GetProperties _ _ _ _ => [Op.Blob_GetProperties]
    | Blob_Delete _ _ _ _ _ => [Op.Blob_Delete]
    | Blob_SetHTTPHeaders _ _ _ _ _ => [Op.Blob_SetHTTPHeaders]
    | Blob_SetMetadata _ _ _ => [Op.Blob_SetMetadata]
    | Blob_AcquireLease _ _ _ _ => [Op.Blob_AcquireLease]
    | Blob_ReleaseLease _ _ _ => [Op.Blob_ReleaseLease]
    | Blob_RenewLease _ _ _ => [Op.Blob_RenewLease]
    | Blob_ChangeLease _ _ _ _ => [Op.Blob_ChangeLease]
    | Blob_BreakLease _ _ _ => [Op.Blob_BreakLease]
    | Blob_CreateSnapshot _ _ _ _ => [Op.Blob_CreateSnapshot]
    | Blob_StartCopyFromURL _ _ => [Op.Blob_StartCopyFromURL]
    | Blob_CopyFromURL _ _ => [Op.Blob_CopyFromURL]
    | Blob_AbortCopyFromURL _ _ _ => [Op.Blob_AbortCopyFromURL]
    | Blob_SetTier _ _ _ => [Op.Blob_SetTier]
    | Blob_GetTags _ _ _ _ => [Op.Blob_GetTags]
    | Blob_SetTags _ _ _ => [Op.Blob_SetTags]
    end
  | OnContent o => match o with
    | PageBlob_Create _ _ _ _ => [Op.PageBlob_Create]
    | PageBlob_UploadPages _ _ _ _ _ _ => [Op.PageBlob_UploadPages]
    | PageBlob_ClearPages _ _ _ _ _ => [Op.PageBlob_ClearPages]
    | PageBlob_GetPageRanges _ _ _ _ => [Op.PageBlob_GetPageRanges]
    | PageBlob_Resize _ _ _ _ => [Op.PageBlob_Resize]
    | PageBlob_UpdateSequenceNumber _ _ _ _ _ => [Op.PageBlob_UpdateSequenceNumber]
    | AppendBlob_Create _ _ => [Op.AppendBlob_Create]
    | AppendBlob_AppendBlock _ _ _ _ _ _ => [Op.AppendBlob_AppendBlock]
    | AppendBlob_Seal _ _ _ => [Op.AppendBlob_Seal]
    | BlockBlob_Upload _ _ _ => [Op.BlockBlob_Upload]
    | BlockBlob_StageBlock _ _ _ _ _ _ => [Op.BlockBlob_StageBlock]
    | BlockBlob_CommitBlockList _ => [Op.BlockBlob_CommitBlockList]
    | BlockBlob_GetBlockList _ _ _ _ _ => [Op.BlockBlob_GetBlockList]
    end
  | NotImplemented o => match o with
    | Container_Restore => [Op.Container_Restore]
    | Blob_Undelete => [Op.Blob_Undelete]
    | Blob_SetExpiry => [Op.Blob_SetExpiry]
    | Blob_SetImmutabilityPolicy => [Op.Blob_SetImmutabilityPolicy]
    | Blob_DeleteImmutabilityPolicy => [Op.Blob_DeleteImmutabilityPolicy]
    | Blob_SetLegalHold => [Op.Blob_SetLegalHold]
    | Blob_Query => [Op.Blob_Query]
    | PageBlob_UploadPagesFromURL => [Op.PageBlob_UploadPagesFromURL]
    | PageBlob_GetPageRangesDiff => [Op.PageBlob_GetPageRangesDiff]
    | PageBlob_CopyIncremental => [Op.PageBlob_CopyIncremental]
    | AppendBlob_AppendBlockFromUrl => [Op.AppendBlob_AppendBlockFromUrl]
    | BlockBlob_PutBlobFromUrl => [Op.BlockBlob_PutBlobFromUrl]
    | BlockBlob_StageBlockFromURL => [Op.BlockBlob_StageBlockFromURL]
    end
  end.

(** The letters that let a request write: write, create, delete, add and tags. *)
Definition writing_letters : text := js "wcdat".

(** Writing is under none of these names. *)
Definition name_reads (o : Op.operation) : bool :=
  match o with
  | Op.Service_GetProperties | Op.Service_GetStatistics | Op.Service_ListContainersSegment
  | Op.Service_GetUserDelegationKey | Op.Service_FilterBlobs
  | Op.Service_GetAccountInfo | Op.Service_GetAccountInfoWithHead | Op.Service_SubmitBatch
  | Op.Container_GetProperties | Op.Container_GetPropertiesWithHead | Op.Container_GetAccessPolicy
  | Op.Container_FilterBlobs | Op.Container_ListBlobFlatSegment | Op.Container_ListBlobHierarchySegment
  | Op.Container_GetAccountInfo | Op.Container_GetAccountInfoWithHead | Op.Container_SubmitBatch
  | Op.Blob_Download | Op.Blob_GetProperties | Op.Blob_GetAccountInfo | Op.Blob_GetAccountInfoWithHead
  | Op.Blob_GetTags | Op.PageBlob_GetPageRanges | Op.PageBlob_GetPageRangesDiff | Op.BlockBlob_GetBlockList => true
  | _ => false
  end.

Lemma name_reads_operation o name : name ∈ names o -> name_reads name = true -> is_read o = true.
Proof.
  intros Hn Hr. apply list_elem_of_In in Hn.
  destruct o as [[]|[]|[]|[]|[]]; try destruct level; cbn in *; intuition (subst; done).
Qed.

(** What a permission needs: none of the letters that write. *)
Definition harmless (p : text) : Prop := Forall (fun u => u ∉ writing_letters) p.
Definition writes (needed : text) : bool :=
  forallb (fun u => bool_decide (u ∈ writing_letters)) needed && (needed !== BlobSAS.Any).

Lemma harmless_refused needed p : writes needed = true -> harmless p -> any_or_one_of BlobSAS.Any needed p = false.
Proof.
  intros [Hw Ha]%andb_prop Hp. unfold any_or_one_of. apply negb_true_iff in Ha as ->.
  apply not_true_iff_false. intros (u&Hu&Hup%bool_decide_eq_true)%existsb_exists.
  rewrite forallb_forall in Hw. apply Hw, bool_decide_eq_true in Hu.
  unfold harmless in Hp. rewrite Forall_forall in Hp. by apply (Hp u).
Qed.

(** The tables: what is no read needs a letter that writes. *)
Lemma account_table o p :
  OPERATION_ACCOUNT_SAS_PERMISSIONS o = Some p -> name_reads o || writes p.(permission) = true.
Proof. destruct o; intros [= <-]; vm_compute; done. Qed.

Lemma blob_table r o p : blob_permission r o = Some p -> name_reads o || writes p = true.
Proof. destruct r, o; intros [= <-]; vm_compute; done. Qed.

(** ** The values of a request *)

Section Values.
Implicit Types (rq : IRequest).

Lemma bind_value {A B} (r : res A) (k : A -> res B) b : (r ≫= k) = Ok b -> exists a, r = Ok a /\ k a = Ok b.
Proof. destruct r as [a|]; [by exists a|done]. Qed.

(** Every value is that of the query. *)
Ltac values H :=
  repeat (apply bind_value in H as (?&?&H)); injection H as H.

(** The permissions and the version of the values are those of the query. *)
Lemma account_values rq v :
  getAccountSASSignatureValuesFromRequest rq = Ok (Some v) ->
  query rq "sp" = Ok (Some v.(as_permissions)) /\ query rq "sv" = Ok (Some v.(as_version)).
Proof.
  unfold getAccountSASSignatureValuesFromRequest. intros Hv. values Hv.
  repeat (case_match; [|done]). by injection Hv as <-; subst.
Qed.

Lemma blob_values rq c b v :
  getBlobSASSignatureValuesFromRequest rq c b = Ok (Some v) ->
  query rq "sp" = Ok v.(bs_permissions) /\ query rq "si" = Ok v.(bs_identifier) /\
  query rq "sv" = Ok (Some v.(bs_version)) /\ query rq "sr" = Ok v.(bs_signedResource) /\
  v.(bs_containerName) = c /\ v.(bs_blobName) = b.
Proof.
  unfold getBlobSASSignatureValuesFromRequest. intros Hv. cbv zeta in Hv. values Hv.
  case_match; [done|]. case_match; [|done]. subst. by injection Hv as <-.
Qed.
End Values.

(** ** Authenticators only read

    and what they let in of requests that present no more than a harmless signature. *)

Definition unprivileged (rq : IRequest) : Prop :=
  (forall p, query rq "sp" = Ok (Some p) -> harmless p) /\ query rq "si" = Ok None /\
  rq.(rq_header) "authorization"%string = None.
Definition named_read (ctx : AuthContext) : Prop := forall o, ctx.(ac_operation) = Some o -> name_reads o = true.

Section Harmless.
Context {coll : Type -> Type} `{LokiLaws coll} {P : Type}.
Context (getAccount : text -> option IAccountProperties) (hmac : text -> bytes -> text).
Context (Date_parse : text -> option Z) (localeCompare : text -> text -> Z) (url_query : text -> option text).
Context (decode : text -> res (option Claims)).
Context (now : Z) {T : Type} (g : coll (ServicePropertiesModel P) -> T).
Abbreviation db := (BlobDb coll P).
Abbreviation db_reads := (only now vw (fun s => g s.(services))).
Implicit Types (s : db).
Context (rq : IRequest) (ctx : AuthContext) (Hnow : ctx.(ac_startTime) <= now).

(** An authenticator only reads; the name of what it lets in is one of a read. *)
Definition lets_in_reads s (m : proc db exn (option bool)) : Prop :=
  db_reads s m (fun r _ => r = Some true -> named_read ctx).

Lemma attempt_reads {A} s (m : proc db exn A) Q : db_reads s m Q -> db_reads s (attempt m) any_answer.
Proof. unfold only, attempt. intros [Hm _]. split; [|by destruct (m s) as [[] ?]]. by destruct (m s) as [[] ?]. Qed.

Lemma public_reads s : lets_in_reads s (PublicAccessAuthenticator ctx).
Proof.
  unfold lets_in_reads, PublicAccessAuthenticator, getContainerPublicAccessType.
  destruct (uc_container _) as [c|]; [|by apply only_ret].
  eapply only_bind; [eapply only_bind; [eapply attempt_reads, getContainerACL_reads; exact Hnow|]|].
  { intros r s1 _ _. apply (only_ret _ _ _ _ _ any_answer). done. }
  intros access s1 _ _. destruct access as [access|]; [|by apply only_ret].
  eapply only_bind; [apply only_lift|]. intros o ? _ [-> Hop].
  assert (Ho : ctx.(ac_operation) = Some o) by (destruct (ac_operation ctx); by simplify_eq).
  assert (Hret : forall b : bool, (b = true -> name_reads o = true) ->
    db_reads s1 (mret (if b then Some true else None))
      (fun r _ => r = Some true -> named_read ctx)).
  { intros [] Hb; apply only_ret; [|done]. intros _ o' Ho'. rewrite Ho in Ho'. injection Ho' as <-. by apply Hb. }
  clear Hop. destruct (access === "container"%string); [apply Hret; by destruct o|].
  destruct (access === "blob"%string); [apply Hret; by destruct o|apply only_throw].
Qed.

Lemma blobExist_reads a c b s : db_reads s (blobExist a c b) any_answer.
Proof.
  unfold blobExist, getBlobType. eapply (only_bind _ _ _ _ _ any_answer); [|intros; by apply only_ret].
  read_statement. by apply only_ret.
Qed.

Lemma special_requirement_reads o p s : db_reads s (special_requirement ctx o p) any_answer.
Proof.
  unfold special_requirement. destruct (replaces_blob o); [|by apply only_ret].
  eapply only_bind; [apply blobExist_reads|]. intros [] s1 _ _; [|by apply only_ret].
  destruct p; [|apply only_throw]. eapply only_any, reads_guard.
Qed.

(** The operation that is required is that of the context. *)
Lemma required_name o : required_operation ctx = Ok o -> ctx.(ac_operation) = Some o.
Proof. unfold required_operation. destruct (ac_operation ctx) as [[]|]; intros; simplify_eq; done. Qed.

Lemma saved_policy_reads v a c s :
  db_reads s (saved_policy v a c ctx) (fun v' _ => v.(bs_identifier) = None -> v' = v).
Proof.
  unfold saved_policy. destruct (bs_identifier v) as [id|]; [|by apply only_ret].
  eapply (only_bind _ _ _ _ _ any_answer).
  - eapply (only_bind _ _ _ _ _ any_answer); [eapply attempt_reads, getContainerACL_reads; exact Hnow|]. intros. by apply only_ret.
  - intros [p|] s1 _ _; [by apply only_ret|apply only_throw].
Qed.

(** The request's permissions are harmless and no policy replaces them, or it is one for
    reading. *)
Hypothesis Hrq : unprivileged rq \/ named_read ctx.

Lemma enforce_account_reads v s :
  query rq "sp" = Ok (Some v.(as_permissions)) -> lets_in_reads s (enforce_account_sas Date_parse v rq ctx).
Proof.
  intros Hp. unfold lets_in_reads, enforce_account_sas.
  eapply only_bind; [apply reads_guard|]. intros [] ? _ [-> _].
  eapply only_bind; [apply reads_guard|]. intros [] ? _ [-> _].
  eapply only_bind; [apply reads_guard|]. intros [] ? _ [-> _].
  eapply only_bind; [apply only_lift|]. intros o ? _ [-> Ho%required_name].
  eapply only_bind; [apply only_lift|]. intros p ? _ [-> Hpo].
  eapply only_bind; [apply reads_guard|]. intros [] ? _ [-> _].
  eapply only_bind; [apply reads_guard|]. intros [] ? _ [-> _].
  eapply only_bind; [apply reads_guard|]. intros [] ? _ [-> Hallowed].
  eapply only_bind; [apply special_requirement_reads|]. intros [] s1 _ _.
  apply only_ret. intros _. destruct Hrq as [[Hsp _]|Hr]; [|done]. apply Hsp in Hp.
  intros o' Ho'. rewrite Ho in Ho'. injection Ho' as <-.
  destruct (OPERATION_ACCOUNT_SAS_PERMISSIONS o) as [p'|] eqn:Ht; [|done]. injection Hpo as <-.
  apply account_table, orb_prop in Ht as [Ht|Ht]; [done|].
  unfold validateAccountPermissions in Hallowed. by rewrite harmless_refused in Hallowed.
Qed.

Lemma account_sas_reads s : lets_in_reads s (AccountSASAuthenticator getAccount hmac Date_parse rq ctx).
Proof.
  unfold lets_in_reads, AccountSASAuthenticator.
  eapply only_bind; [apply only_lift|]. intros a ? _ [-> _].
  eapply only_bind; [apply only_lift|]. intros sig ? _ [-> _].
  eapply only_bind; [apply only_lift|]. intros [v|] ? _ [-> Hv]; [|by apply only_ret].
  eapply only_bind; [apply reads_guard|]. intros [] ? _ [-> _].
  eapply only_bind; [apply only_lift|]. intros [] ? _ [-> _]; [|by apply only_ret].
  apply account_values in Hv as [Hp _]. by apply enforce_account_reads.
Qed.

Lemma enforce_blob_reads v0 r a c s :
  query rq "sp" = Ok v0.(bs_permissions) -> query rq "si" = Ok v0.(bs_identifier) ->
  lets_in_reads s (enforce_blob_sas Date_parse v0 r a c rq ctx).
Proof.
  intros Hp Hi. unfold lets_in_reads, enforce_blob_sas.
  eapply (only_bind _ _ _ _ _ (fun v _ => v0.(bs_identifier) = None -> v = v0)); [apply saved_policy_reads|].
  intros v s0 _ Hv.
  eapply only_bind; [apply reads_guard|]. intros [] ? _ [-> _].
  eapply only_bind; [apply reads_guard|]. intros [] ? _ [-> _].
  eapply only_bind; [apply reads_guard|]. intros [] ? _ [-> _].
  eapply only_bind; [apply only_lift|]. intros o ? _ [-> Ho%required_name].
  eapply only_bind; [apply only_lift|]. intros p ? _ [-> Hpo].
  eapply only_bind; [apply only_lift|]. intros allowed ? _ [-> Hal].
  eapply only_bind; [apply reads_guard|]. intros [] ? _ [-> ->].
  eapply only_bind; [apply special_requirement_reads|]. intros [] s1 _ _.
  apply only_ret. intros _. destruct Hrq as [(Hsp&Hsi&_)|Hr]; [|done].
  rewrite Hsi in Hi. injection Hi as Hi. rewrite (Hv (eq_sym Hi)) in *. clear Hi Hv.
  intros o' Ho'. rewrite Ho in Ho'. injection Ho' as <-.
  destruct (blob_permission r o) as [p'|] eqn:Ht; [|done]. injection Hpo as <-.
  apply blob_table, orb_prop in Ht as [Ht|Ht]; [done|].
  unfold validatePermissions in Hal. destruct (bs_permissions v0) as [given|]; [|by case_match].
  injection Hal as Hal. by rewrite harmless_refused in Hal by eauto.
Qed.

Lemma blob_sas_reads s : lets_in_reads s (BlobSASAuthenticator getAccount hmac Date_parse rq ctx).
Proof.
  unfold lets_in_reads, BlobSASAuthenticator.
  destruct (uc_account _) as [a|]; [|apply only_throw]. destruct (uc_container _) as [c|]; [|by apply only_ret].
  eapply only_bind; [apply only_lift|]. intros ap ? _ [-> _].
  eapply only_bind; [apply only_lift|]. intros [sig|] ? _ [-> _]; [|by apply only_ret].
  eapply only_bind; [apply only_lift|]. intros sr ? _ [-> _]. destruct (resource_of sr) as [r|]; [|by apply only_ret].
  eapply only_bind; [apply only_lift|]. intros [v|] ? _ [-> Hv]; [|by apply only_ret].
  eapply only_bind; [apply reads_guard|]. intros [] ? _ [-> _].
  eapply only_bind; [apply only_lift|]. intros [] ? _ [-> _]; [|by apply only_ret].
  apply blob_values in Hv as (Hp&Hi&_). by apply enforce_blob_reads.
Qed.

Lemma lift_lets_in s (r : res (option bool)) :
  (unprivileged rq -> r <> Ok (Some true)) -> lets_in_reads s (lift r).
Proof.
  intros Hr. split; [done|]. cbn. destruct r as [x|]; [|done]. intros ->. destruct Hrq as [Hu|]; [|done].
  by destruct (Hr Hu).
Qed.

Lemma authenticate_reads oauth s :
  db_reads s (authenticate (blob_authenticators getAccount hmac Date_parse localeCompare url_query decode oauth rq ctx))
    (fun pass _ => pass = true -> named_read ctx).
Proof.
  assert (Hall : Forall (fun m => forall s, lets_in_reads s m)
    (blob_authenticators getAccount hmac Date_parse localeCompare url_query decode oauth rq ctx)).
  { unfold blob_authenticators. apply Forall_app. split.
    - rewrite !Forall_cons, Forall_nil. split_and!; [|intros s1|..|done].
      + intros s1. apply public_reads.
      + apply lift_lets_in. intros (_&_&Hheader). unfold BlobSharedKeyAuthenticator. by rewrite Hheader.
      + intros s1. apply account_sas_reads.
      + intros s1. apply blob_sas_reads.
    - destruct oauth; [|done]. rewrite Forall_cons, Forall_nil. split; [|done]. intros s1. apply lift_lets_in.
      intros (_&_&Hheader). unfold BlobTokenAuthenticator. rewrite Hheader. by destruct (account_properties _ _ _). }
  induction Hall as [|m l Hm _ IH] in s |- *; cbn [authenticate]; [by apply only_ret|].
  eapply only_bind; [apply Hm|]. intros r s1 _ Hr. case_match eqn:Ht; [|apply IH].
  apply bool_decide_eq_true in Ht. apply only_ret. auto.
Qed.

Lemma middleware_reads oauth s :
  db_reads s (createAuthenticationMiddleware getAccount hmac Date_parse localeCompare url_query decode oauth rq ctx)
    (fun _ _ => named_read ctx).
Proof.
  unfold createAuthenticationMiddleware. eapply only_bind; [apply authenticate_reads|]. intros pass d _ Hpass.
  destruct pass; [apply only_ret; auto|apply only_throw].
Qed.
End Harmless.

(** ** Signed strings

    The lines of a signed string are its fields: a string that was signed for fields
    without line breaks has no others of the same number. *)

Definition breaks (s : text) : nat := length (List.filter (Z.eqb 10) s).

Lemma breaks_app s t : breaks (s ++ t) = (breaks s + breaks t)%nat.
Proof. unfold breaks. by rewrite List.filter_app, length_app. Qed.

Lemma breaks_none s : breaks s = 0%nat <-> 10 ∉ s.
Proof.
  unfold breaks. induction s as [|u s IH]; [split; [|done]; intros _ ?%not_elem_of_nil; done|].
  cbn [List.filter]. rewrite not_elem_of_cons, <- IH. destruct (Z.eqb_spec 10 u); cbn [length].
  - split; [lia|]. by intros [].
  - by split; [|intros []].
Qed.

Definition one_line (s : text) : Prop := 10 ∉ s.
Definition lines_of (l : list text) : nat := foldr (fun s n => (breaks s + n)%nat) 0%nat l.

Lemma breaks_join x l : breaks (join_lines (x :: l)) = (length l + lines_of (x :: l))%nat.
Proof.
  revert x. induction l as [|y l IH]; intros x; [cbn [join_lines lines_of foldr length]; lia|].
  change (join_lines (x :: y :: l)) with (x ++ [10] ++ join_lines (y :: l)).
  rewrite !breaks_app, IH. change (breaks [10]) with 1%nat. cbn [lines_of foldr length]. lia.
Qed.

Lemma lines_none l : lines_of l = 0%nat <-> Forall one_line l.
Proof.
  induction l as [|x l IH]; [by split|]. cbn [lines_of foldr]. rewrite Forall_cons, <- IH. unfold one_line.
  rewrite <- breaks_none. unfold lines_of. lia.
Qed.

(** A text up to the first [sep] is determined. *)
Lemma first_part (sep : Z) x y s t : sep ∉ x -> sep ∉ y -> x ++ sep :: s = y ++ sep :: t -> x = y /\ s = t.
Proof.
  revert y. induction x as [|u x IH]; intros [|v y] Hx Hy He; cbn in *.
  - by simplify_eq.
  - injection He as <- _. by destruct Hy; left.
  - injection He as -> _. by destruct Hx; left.
  - injection He as -> He. apply not_elem_of_cons in Hx as [_ Hx], Hy as [_ Hy].
    destruct (IH y Hx Hy He) as [-> ->]. done.
Qed.

Lemma lines_inj l l' :
  length l = length l' -> Forall one_line l -> Forall one_line l' -> join_lines l = join_lines l' -> l = l'.
Proof.
  revert l'. induction l as [|x l IH]; intros [|y l'] Hn Hl Hl' He; try done.
  apply Forall_cons in Hl as [Hx Hl], Hl' as [Hy Hl']. injection Hn as Hn.
  destruct l as [|x' l], l' as [|y' l']; try done; [cbn in He; congruence|].
  change (x ++ 10 :: join_lines (x' :: l) = y ++ 10 :: join_lines (y' :: l')) in He.
  apply first_part in He as [-> He]; [|done..]. f_equal. by apply IH.
Qed.

(** The other fields need not be known to have no breaks. *)
Lemma join_lines_inj l l' :
  length l = length l' -> Forall one_line l -> join_lines l = join_lines l' -> l = l'.
Proof.
  intros Hn Hl He. apply lines_inj; [done..| |done]. destruct l as [|x l], l' as [|y l']; try done.
  pose proof (f_equal breaks He) as Hb. rewrite !breaks_join in Hb. injection Hn as Hn.
  apply lines_none. apply lines_none in Hl. rewrite Hl in Hb. lia.
Qed.

(** The fields of an account signature. *)
Definition account_fields (v : IAccountSASSignatureValues) (accountName : text) : list text :=
  [accountName; v.(as_permissions); v.(as_services); v.(as_resourceTypes); or_empty v.(as_startTime);
   v.(as_expiryTime); or_empty v.(as_ipRange); or_empty v.(as_protocol); v.(as_version)]
  ++ (if since (js "2020-12-06") v.(as_version) then [or_empty v.(as_encryptionScope)] else []) ++ [[]].

Lemma account_string_fields v a : account_string v a = join_lines (account_fields v a).
Proof. unfold account_string, account_fields. by destruct (since _ _). Qed.

(** Versions whose strings have the same fields. *)
Definition same_format (formats : list text) (version version' : text) : Prop :=
  Forall (fun f => since f version = since f version') formats.

Lemma account_strings v a v' a' :
  same_format [js "2020-12-06"] v.(as_version) v'.(as_version) -> Forall one_line (account_fields v a) ->
  account_string v a = account_string v' a' -> account_fields v a = account_fields v' a'.
Proof.
  rewrite !account_string_fields. intros Hf. apply join_lines_inj. inversion Hf as [|? ? Hs]; subst.
  unfold account_fields. rewrite Hs. by destruct (since (js "2020-12-06") (as_version v')).
Qed.

Lemma blob_strings v r a v' r' a' s :
  same_format [js "2020-12-06"; js "2018-11-09"] v.(bs_version) v'.(bs_version) -> Forall one_line (blob_fields v r a) ->
  blob_string v r a = Ok s -> blob_string v' r' a' = Ok s -> blob_fields v r a = blob_fields v' r' a'.
Proof.
  unfold blob_string, checked. intros Hf Hl Hs Hs'. repeat case_match; try done.
  injection Hs as <-. injection Hs' as Hs'. apply join_lines_inj; [|done..].
  unfold blob_fields. inversion Hf as [|? ? Hf1 Hf']; subst. inversion Hf' as [|? ? Hf2]; subst. rewrite Hf1, Hf2.
  destruct (since (js "2020-12-06") (bs_version v')); [done|].
  by destruct (since (js "2018-11-09") (bs_version v')).
Qed.

(** Names of accounts and containers without slashes are read off a canonical name. *)
Definition no_slash (s : text) : Prop := slash ∉ s.

Lemma split_slash_inj x y s t : no_slash x -> no_slash y ->
  (s = [] \/ exists s', s = slash :: s') -> (t = [] \/ exists t', t = slash :: t') ->
  x ++ s = y ++ t -> x = y /\ s = t.
Proof.
  intros Hx Hy Hs Ht He. assert (Hcut : forall r, (r = [] \/ exists r', r = slash :: r') -> exists r', r ++ [slash] = slash :: r').
  { intros r [->|[r' ->]]; [by exists []|]. by exists (r' ++ [slash]). }
  destruct (Hcut s Hs) as [s' Hs'], (Hcut t Ht) as [t' Ht'].
  assert (Hxy : x = y).
  { apply (f_equal (fun l => l ++ [slash])) in He. rewrite <- !app_assoc, Hs', Ht' in He. by apply first_part in He as [-> _]. }
  subst y. split; [done|]. by apply app_inv_head in He.
Qed.

Lemma canonical_inj a c b a' c' b' :
  no_slash a -> no_slash c -> no_slash a' -> no_slash c' ->
  getCanonicalName a c b = getCanonicalName a' c' b' -> a = a' /\ c = c' /\ or_empty b = or_empty b'.
Proof.
  intros Ha Hc Ha' Hc' He. unfold getCanonicalName in He. apply app_inv_head in He.
  change (js "/") with [slash] in He. cbn [app] in He.
  apply split_slash_inj in He as [-> He]; [|done|done|right; by eexists..]. split; [done|].
  injection He as He. apply split_slash_inj in He as [-> He]; [split; [done|]|done|done|..].
  - destruct b as [[|]|], b' as [[|]|]; by simplify_eq/=.
  - destruct b as [[|]|]; [by left|right; by eexists|by left].
  - destruct b' as [[|]|]; [by left|right; by eexists|by left].
Qed.

(** ** What a method that returns has gone through *)

Lemma bind_answer {S A B} (m : proc S exn A) (k : A -> proc S exn B) (s : S) b :
  ((m ≫= k) s).1 = Ok b -> exists a s', m s = (Ok a, s') /\ (k a s').1 = Ok b.
Proof. run. destruct (m s) as [[x|] s']; [by exists x, s'|done]. Qed.

Lemma lift_answer {S A B} (r : res A) (k : A -> proc S exn B) (s : S) b :
  ((lift r ≫= k) s).1 = Ok b -> exists a, r = Ok a /\ (k a s).1 = Ok b.
Proof. run. destruct r as [x|]; [by exists x|done]. Qed.

Lemma passing_signature sign ap sig :
  signature_passes sign ap sig = Ok true -> exists k x, sign k = Ok x /\ sig = Some x.
Proof.
  unfold signature_passes. intros Hs. apply bind_value in Hs as (x&Hx&Hs). destruct (key2 ap) as [k|].
  - apply bind_value in Hs as (y&Hy&Hs). injection Hs as [Hs|Hs]%orb_prop; apply bool_decide_eq_true in Hs; eauto.
  - injection Hs as Hs%bool_decide_eq_true. eauto.
Qed.

(** ** The properties *)

Section Properties.
Context {coll : Type -> Type} `{LokiLaws coll} {E : Type} `{IExtentStore E} `{!IExtentReader E} (server : Server).
Context (getAccount : text -> option IAccountProperties) (hmac : text -> bytes -> text).
Context (Date_parse : text -> option Z) (localeCompare : text -> text -> Z) (url_query : text -> option text).
Context (decode : text -> res (option Claims)) (oauth : bool).
Abbreviation state := (BlobService coll Setting E).
Implicit Types (s : state) (rq : IRequest) (ctx : AuthContext).

(** A request: the authentication, and if it is let in the handler. *)
Definition enter rq ctx (a : Arrival) : proc state exn unit :=
  _ ← on_db (createAuthenticationMiddleware getAccount hmac Date_parse localeCompare url_query decode oauth rq ctx);
  run_operation server a.(ar_env) a.(ar_ctx) a.(ar_extentId) a.(ar_operation).

(** What requests see of the service from a time on is the same: the documents
    ([at_rest]), the settings and the extents. *)
Definition unchanged (now : Z) s s' : Prop :=
  at_rest now (service_view s) (service_view s') /\
  settings s'.(metadataStore).(services) = settings s.(metadataStore).(services) /\
  s'.(extentStore) = s.(extentStore).

Lemma only_unchanged {A} now s (m : proc state exn A) Q :
  only now service_view service_beside s m Q -> unchanged now s (m s).2.
Proof. intros [[Hr Hb] _]. unfold service_beside in Hb. injection Hb as He Hset. by split_and!. Qed.

(** A request of an operation for which the authentication only lets reads in. *)
Lemma enter_reads rq ctx (a : Arrival) s name now :
  docs_paged (service_view s) -> ctx.(ac_operation) = Some name -> name ∈ names a.(ar_operation) ->
  ctx.(ac_startTime) <= now -> a.(ar_ctx).(startTime) <= now -> unprivileged rq \/ named_read ctx ->
  unchanged now s (enter rq ctx a s).2.
Proof.
  intros Hs Hname Hop Ht Ht' Hrq. apply (only_unchanged _ _ _ any_answer). unfold enter.
  eapply only_bind; [apply reads_on_db; by apply middleware_reads|]. intros _ s1 [Hr _] Hn.
  apply operation_reads; [done|by eapply at_rest_paged|]. by eapply name_reads_operation, Hn.
Qed.

(** C2. a request without an Authorization header whose signature, if it has one, grants
    none of write, create, delete, add and tags and names no stored policy, changes
    nothing, whatever the operation it asks for: requests from that time on see the same
    blobs, with their content, properties and leases (snapshots have none), the same containers, blocks and
    settings, and the extents are as they were. What it may save are leases whose time
    has come, as any request would, right counts of tags and the defaults of settings.
    Page blobs have page ranges before, as the invariant of the service says; batches,
    which are requests of their own, are not covered. *)
Theorem read_only_link rq ctx (a : Arrival) s name now
    (Hs : docs_paged (service_view s))
    (Hname : ctx.(ac_operation) = Some name) (Hop : name ∈ names a.(ar_operation))
    (Htime : ctx.(ac_startTime) <= now /\ a.(ar_ctx).(startTime) <= now)
    (Hheader : rq.(rq_header) "authorization"%string = None)
    (Hsp : forall p, query rq "sp" = Ok (Some p) -> harmless p)
    (Hsi : query rq "si" = Ok None) :
  unchanged now s (enter rq ctx a s).2.
Proof. destruct Htime. eapply enter_reads; [done..|]. by left. Qed.

(** The operations with these methods read. *)
Lemma safe_dispatch fromUri rq pattern name :
  rq.(rq_method) ∈ js <$> ["GET"; "HEAD"]%string -> rq.(rq_header) "X-HTTP-Method"%string = None ->
  blob_dispatch fromUri rq pattern = Some name -> name_reads name = true.
Proof.
  unfold blob_dispatch. intros Hm Hx Hd. apply dispatched_method in Hd as (spec&n&Hspec&_&_&He).
  unfold method_of in He. rewrite Hx in He. rewrite <- He in Hm. clear He Hx.
  assert (Hall : forallb (fun o => match BlobSpecifications.Specifications o with
    | Some spec => name_reads o || bool_decide (js spec.(httpMethod) ∉ js <$> ["GET"; "HEAD"]%string)
    | None => true
    end) BlobSpecifications.Operation = true) by by vm_compute.
  rewrite forallb_forall in Hall. specialize (Hall name). rewrite Hspec in Hall.
  destruct (orb_prop _ _ (Hall (blob_operation name))) as [|Hnot%bool_decide_eq_true]; done.
Qed.

(** C5. GET and HEAD are safe: a request of one of these methods without an X-HTTP-Method
    header, dispatched to any operation and let in by any of the authenticators or by
    none, changes nothing that requests from that time on see, as [unchanged] says: it
    settles leases whose time has come, counts tags and fills in defaults at most. Page
    blobs have page ranges before, as the invariant of the service says. *)
Theorem safe_methods fromUri rq pattern ctx (a : Arrival) s name now
    (Hs : docs_paged (service_view s))
    (Hmethod : rq.(rq_method) ∈ js <$> ["GET"; "HEAD"]%string) (Hheader : rq.(rq_header) "X-HTTP-Method"%string = None)
    (Hdispatch : blob_dispatch fromUri rq pattern = Some name)
    (Hname : ctx.(ac_operation) = Some name) (Hop : name ∈ names a.(ar_operation))
    (Htime : ctx.(ac_startTime) <= now /\ a.(ar_ctx).(startTime) <= now) :
  unchanged now s (enter rq ctx a s).2.
Proof.
  destruct Htime. apply safe_dispatch in Hdispatch; [|done..]. eapply enter_reads; [done..|].
  right. intros o Ho. rewrite Hname in Ho. by injection Ho as <-.
Qed.

(** ** Signatures that were made by someone who has a key *)

(** What the account authenticator lets in has a signature of its own values. *)
Lemma account_sas_signed rq ctx (d : BlobDb coll Setting) :
  (AccountSASAuthenticator getAccount hmac Date_parse rq ctx d).1 = Ok (Some true) ->
  exists v k, getAccountSASSignatureValuesFromRequest rq = Ok (Some v) /\
    query rq "sig" = Ok (Some (hmac (account_string v (account_of ctx)) k)).
Proof.
  unfold AccountSASAuthenticator. intros Hin. apply lift_answer in Hin as (ap&_&Hin).
  apply lift_answer in Hin as (sig&Hsig&Hin). apply lift_answer in Hin as (v&Hv&Hin). destruct v as [v|]; [|done].
  apply bind_answer in Hin as ([]&d1&_&Hin). apply lift_answer in Hin as (passes&Hp&Hin). destruct passes; [|done].
  apply passing_signature in Hp as (k&x&Hx&->). injection Hx as <-. by exists v, k.
Qed.

(** The same for blobs, where no user delegation key is used. *)
Lemma blob_sas_signed rq ctx (d : BlobDb coll Setting) :
  (BlobSASAuthenticator getAccount hmac Date_parse rq ctx d).1 = Ok (Some true) ->
  exists a c r v, ctx.(ac_url).(uc_account) = Some a /\ ctx.(ac_url).(uc_container) = Some c /\
    resource_of v.(bs_signedResource) = Some r /\
    getBlobSASSignatureValuesFromRequest rq c ctx.(ac_url).(uc_blob) = Ok (Some v) /\
    (with_udk v = false -> exists k x, blob_string v r a = Ok x /\ query rq "sig" = Ok (Some (hmac x k))).
Proof.
  unfold BlobSASAuthenticator. destruct (uc_account _) as [a|]; [|done]. destruct (uc_container _) as [c|]; [|done].
  intros Hin. apply lift_answer in Hin as (ap&_&Hin). apply lift_answer in Hin as (sig&Hsig&Hin).
  destruct sig as [sig|]; [|done]. apply lift_answer in Hin as (sr&Hsr&Hin).
  destruct (resource_of sr) as [r|] eqn:Hr; [|done].
  apply lift_answer in Hin as (v&Hv&Hin). destruct v as [v|]; [|done].
  apply bind_answer in Hin as ([]&d1&_&Hin). apply lift_answer in Hin as (passes&Hp&Hin). destruct passes; [|done].
  exists a, c, r, v. apply blob_values in Hv as Hq. destruct Hq as (_&_&_&Hq&_). rewrite Hsr in Hq. injection Hq as ->.
  split_and!; [done..|]. intros Hu. rewrite Hu in Hp. apply passing_signature in Hp as (k&x&Hx&Hsx).
  unfold generateBlobSASSignature in Hx. apply bind_value in Hx as (y&Hy&Hx). injection Hx as <-.
  exists k, y. split; [done|]. congruence.
Qed.

(** The fields of the versions since 2018. *)
Lemma modern_fields v r a v' r' a' :
  since (js "2018-11-09") v.(bs_version) = true ->
  same_format [js "2020-12-06"; js "2018-11-09"] v.(bs_version) v'.(bs_version) ->
  blob_fields v r a = blob_fields v' r' a' ->
  or_empty v.(bs_permissions) = or_empty v'.(bs_permissions) /\
  or_empty v.(bs_startTime) = or_empty v'.(bs_startTime) /\ or_empty v.(bs_expiryTime) = or_empty v'.(bs_expiryTime) /\
  or_empty v.(bs_identifier) = or_empty v'.(bs_identifier) /\
  or_empty v.(bs_signedResource) = or_empty v'.(bs_signedResource) /\
  getCanonicalName a v.(bs_containerName) (signed_blob is_blob_or_snapshot r v)
  = getCanonicalName a' v'.(bs_containerName) (signed_blob is_blob_or_snapshot r' v').
Proof.
  intros Hm Hf He. inversion Hf as [|? ? Hf1 Hf']; subst. inversion Hf' as [|? ? Hf2]; subst.
  unfold blob_fields in He. rewrite <- Hf1, <- Hf2, Hm in He.
  assert (Hnth : forall n, nth n (if since (js "2020-12-06") v.(bs_version)
      then generateBlobSASSignature20201206 v r a else generateBlobSASSignature20181109 v r a) []
    = nth n (if since (js "2020-12-06") v.(bs_version)
      then generateBlobSASSignature20201206 v' r' a' else generateBlobSASSignature20181109 v' r' a') [])
    by (intros n; by rewrite He).
  clear He. destruct (since (js "2020-12-06") (bs_version v)).
  all: split_and!; [exact (Hnth 0%nat)|exact (Hnth 1%nat)|exact (Hnth 2%nat)|exact (Hnth 4%nat)|exact (Hnth 8%nat)
    |exact (Hnth 3%nat)].
Qed.

(** The request with one more header. *)
Definition with_method_header (method : text) rq : IRequest :=
  mkRequest rq.(rq_method) rq.(rq_url) rq.(rq_path) rq.(rq_protocol)
    (fun name => if name === "X-HTTP-Method"%string then Some method else rq.(rq_header) name)
    ((js "x-http-method", HString method) :: rq.(rq_headers)) rq.(rq_query).

Definition with_operation (o : Op.operation) ctx : AuthContext :=
  mkAuthContext ctx.(ac_url) (Some o) ctx.(ac_contextId) ctx.(ac_startTime) ctx.(ac_loose) ctx.(ac_now).

Lemma method_header_unsigned method rq account path :
  stringToSign localeCompare url_query (with_method_header method rq) account path
  = stringToSign localeCompare url_query rq account path.
Proof. done. Qed.

Lemma method_header_passes method rq o ctx :
  is_ok (required_operation ctx) = true -> is_ok (required_operation (with_operation o ctx)) = true ->
  BlobSharedKeyAuthenticator getAccount hmac localeCompare url_query (with_method_header method rq) (with_operation o ctx)
  = BlobSharedKeyAuthenticator getAccount hmac localeCompare url_query rq ctx.
Proof.
  intros Ho Ho'. unfold BlobSharedKeyAuthenticator.
  change (rq_header (with_method_header method rq) "authorization"%string) with (rq.(rq_header) "authorization"%string).
  destruct (rq_header rq "authorization"%string) as [h|]; [|done]. destruct (negb _); [done|].
  change (account_properties getAccount (with_operation o ctx)) with (account_properties getAccount ctx).
  destruct (account_properties _ _ _); [|done].
  by destruct (required_operation ctx), (required_operation (with_operation o ctx)).
Qed.

(** C35. no key signs the header X-HTTP-Method, which decides about the operation: a GET
    request for a blob that a key signed is let in, with the same signature, as one that
    deletes the blob if that header is added to it. *)
Theorem unsigned_method fromUri rq pattern ctx spec
    (Hasks : asks BlobSpecifications.Specifications fromUri rq pattern Op.Blob_Download spec)
    (Hapart : templates_apart BlobSpecifications.Specifications fromUri (default rq.(rq_path) pattern))
    (Hop : ctx.(ac_operation) = Some Op.Blob_Download)
    (Hin : BlobSharedKeyAuthenticator getAccount hmac localeCompare url_query rq ctx = Ok (Some true)) :
  let rq' := with_method_header (js "DELETE") rq in
  blob_dispatch fromUri rq' pattern = Some Op.Blob_Delete /\
  BlobSharedKeyAuthenticator getAccount hmac localeCompare url_query rq' (with_operation Op.Blob_Delete ctx) = Ok (Some true).
Proof.
  intros rq'. split; [|unfold rq'; rewrite method_header_passes; [done|unfold required_operation; by rewrite Hop|done]].
  apply (asks_dispatched BlobSpecifications.Specifications BlobSpecifications.Operation fromUri rq' pattern
    Op.Blob_Delete BlobSpecifications.blobDeleteOperationSpec); [by vm_compute| |done].
  destruct Hasks as [Hspec [n Hn] Hq Hh]. injection Hspec as <-. apply against_some in Hn as (_&Ht&_).
  split; [done| | |].
  - exists 0%nat. unfold isRequestAgainstOperation. change (method_of rq') with (js "DELETE").
    change (rq_path rq') with (rq_path rq). change (path_of BlobSpecifications.blobDeleteOperationSpec) with
      (path_of BlobSpecifications.blobDownloadOperationSpec). rewrite Ht.
    rewrite (met_required _ _ (queryParameters _)), (met_required _ _ (headerParameters _)). done.
  - done.
  - intros name o' spec' Ho' Hname Hnot.
    pose proof (never_required "X-HTTP-Method" ltac:(by vm_compute) o' spec' Ho') as Hother.
    cbn [rq' with_method_header rq_header].
    destruct (name === "X-HTTP-Method"%string) eqn:He; [apply bool_decide_eq_true in He; by subst|].
    by apply (Hh name o' spec').
Qed.

(** Different texts have different codes under any keys. *)
Hypothesis hmac_inj : forall x k y k', hmac x k = hmac y k' -> x = y.

(** an account signature made for values without line breaks is good for no others:
    a request it is let in with has the account, permissions, services, resource types,
    times, addresses, protocol and scope that were signed. *)
Theorem account_sas_covers rq ctx (d : BlobDb coll Setting) v0 account0 k0
    (Hsig : query rq "sig" = Ok (Some (hmac (account_string v0 account0) k0)))
    (Hlines : Forall one_line (account_fields v0 account0))
    (Hversion : forall v, query rq "sv" = Ok (Some v) -> same_format [js "2020-12-06"] v0.(as_version) v)
    (Hin : (AccountSASAuthenticator getAccount hmac Date_parse rq ctx d).1 = Ok (Some true)) :
  exists v, getAccountSASSignatureValuesFromRequest rq = Ok (Some v) /\
    account_fields v (account_of ctx) = account_fields v0 account0.
Proof.
  apply account_sas_signed in Hin as (v&k&Hv&Hs). exists v. split; [done|]. symmetry.
  apply account_values in Hv as [_ Hver]. apply account_strings; [by apply Hversion|done|].
  rewrite Hsig in Hs. injection Hs as Hs. by eapply hmac_inj.
Qed.

(** C32. a signature for a container or a blob that was made with a key of the account,
    for a version from 2018-11-09 on and values without line breaks, is good for no others:
    a request it is let in with, whose version has the same format and which uses no user
    delegation key, is one for that container or blob, with the permissions, times and
    policy that were signed. *)
Theorem blob_sas_covers rq ctx (d : BlobDb coll Setting) v0 r0 account0 k0 x0
    (Hsig : query rq "sig" = Ok (Some (hmac x0 k0))) (Hx0 : blob_string v0 r0 account0 = Ok x0)
    (Hlines : Forall one_line (blob_fields v0 r0 account0))
    (Hresource : v0.(bs_signedResource) = Some (resource_text r0))
    (Hmodern : since (js "2018-11-09") v0.(bs_version) = true)
    (Hversion : forall v, query rq "sv" = Ok (Some v) ->
       same_format [js "2020-12-06"; js "2018-11-09"] v0.(bs_version) v)
    (Hnames : no_slash account0 /\ no_slash v0.(bs_containerName))
    (Hurl : forall n, ctx.(ac_url).(uc_account) = Some n \/ ctx.(ac_url).(uc_container) = Some n -> no_slash n)
    (Hin : (BlobSASAuthenticator getAccount hmac Date_parse rq ctx d).1 = Ok (Some true)) :
  exists c v, ctx.(ac_url).(uc_container) = Some c /\
    getBlobSASSignatureValuesFromRequest rq c ctx.(ac_url).(uc_blob) = Ok (Some v) /\
    (with_udk v = false ->
     ctx.(ac_url).(uc_account) = Some account0 /\ c = v0.(bs_containerName) /\
     (r0 = RTContainer \/ or_empty ctx.(ac_url).(uc_blob) = or_empty v0.(bs_blobName)) /\
     v.(bs_signedResource) = Some (resource_text r0) /\ or_empty v.(bs_permissions) = or_empty v0.(bs_permissions) /\
     or_empty v.(bs_startTime) = or_empty v0.(bs_startTime) /\
     or_empty v.(bs_expiryTime) = or_empty v0.(bs_expiryTime) /\
     or_empty v.(bs_identifier) = or_empty v0.(bs_identifier)).
Proof.
  apply blob_sas_signed in Hin as (a&c&r&v&Ha&Hc&Hr&Hv&Hs). exists c, v. split_and!; [done..|]. intros Hu.
  destruct (Hs Hu) as (k&x&Hx&Hkx). rewrite Hsig in Hkx. injection Hkx as Hkx%hmac_inj. subst x0.
  apply blob_values in Hv as (_&_&Hver&_&<-&<-).
  assert (Hf := blob_strings v0 r0 account0 v r a x (Hversion _ Hver) Hlines Hx0 Hx).
  destruct (modern_fields v0 r0 account0 v r a) as (F1&F2&F3&F4&F5&F6); [done|by apply Hversion|done|].
  assert (Hres : v.(bs_signedResource) = Some (resource_text r0)).
  { rewrite Hresource in F5. unfold or_empty in F5. cbn [default] in F5.
    destruct (bs_signedResource v); cbn in F5; [by rewrite F5|]. by destruct r0. }
  assert (r = r0) as -> by (rewrite Hres in Hr; by destruct r0; injection Hr).
  destruct Hnames as [Ha0 Hc0].
  apply canonical_inj in F6 as (<-&Hcc&Hb); [|done|done|apply Hurl; by left|apply Hurl; by right].
  split_and!; [done|done| |done|done|done|done|done]. destruct r0; [by left|right..]; done.
Qed.

(** a signature that names a stored policy without times lets a request read the
    container for as long as the policy stands and allows it, whatever times and
    permissions were signed: those of the policy take their place, so that a signature
    that has expired is accepted. *)
Theorem policy_replaces_times v r account container rq ctx (d d' : BlobDb coll Setting) id p permissions
    (Hid : v.(bs_identifier) = Some id)
    (Hpolicy : getContainerAccessPolicyByIdentifier account container id ctx d = (Ok (Some p), d'))
    (Htimes : p.(ap_start) = None /\ p.(ap_expiry) = None) (Hp : p.(ap_permission) = Some permissions)
    (Hread : 114 ∈ js permissions) (Hprotocol : v.(bs_protocol) = None)
    (Hop : ctx.(ac_operation) = Some Op.Blob_Download) :
  enforce_blob_sas Date_parse v r account container rq ctx d = (Ok (Some true), d').
Proof.
  unfold enforce_blob_sas, saved_policy. rewrite Hid. destruct Htimes as [Ht1 Ht2].
  assert (Hv : (accessPolicy ← getContainerAccessPolicyByIdentifier account container id ctx;
     match accessPolicy with
     | None => throw (BlobErrors.getAuthorizationFailure ctx.(ac_contextId))
     | Some p => mret (apply_policy v p)
     end) d = (Ok (apply_policy v p), d')) by (run; by rewrite Hpolicy).
  revert Hv. run. intros ->.
  assert (validateTime Date_parse (ac_now ctx) (bs_expiryTime (apply_policy v p)) (bs_startTime (apply_policy v p)) = true) as ->
    by (cbn; by rewrite Ht1, Ht2).
  assert (validateProtocol (bs_protocol (apply_policy v p)) (rq_protocol rq) = true) as ->
    by (cbn; by rewrite Hprotocol).
  unfold required_operation. rewrite Hop.
  assert (blob_permission r Op.Blob_Download = Some Read) as -> by by destruct r.
  change (bs_permissions (apply_policy v p)) with (js <$> p.(ap_permission)). rewrite Hp. cbn [fmap option_fmap option_map].
  assert (validatePermissions Read (Some (js permissions)) = Ok true) as ->.
  { unfold validatePermissions, any_or_one_of, one_of. change (Read === BlobSAS.Any) with false.
    change Read with [114]. cbn [existsb]. by rewrite bool_decide_eq_true_2. }
  done.
Qed.

Lemma auth_value_inj account x k account' x' k' :
  58 ∉ account -> 58 ∉ account' -> authValue hmac account x k = authValue hmac account' x' k' ->
  account = account' /\ x = x'.
Proof.
  intros Ha Ha' He. unfold authValue in He. apply app_inv_head in He. change (js ":") with [58] in He.
  apply first_part in He as [-> He]; [|done..]. split; [done|]. by eapply hmac_inj.
Qed.

(** C33. a header that was made with a key for the string of some request lets in only
    requests of that account with the same string: the same method, signed headers,
    storage headers, path and query. *)
Theorem shared_key_covers rq ctx account0 x0 k0
    (Hheader : rq.(rq_header) "authorization"%string = Some (authValue hmac account0 x0 k0))
    (Hcolon : (58 ∉ account0) /\ (58 ∉ account_of ctx))
    (Hin : BlobSharedKeyAuthenticator getAccount hmac localeCompare url_query rq ctx = Ok (Some true)) :
  let path := ctx.(ac_url).(uc_authenticationPath) in
  account_of ctx = account0 /\
  (stringToSign localeCompare url_query rq account0 path = Ok x0 \/
   (ctx.(ac_url).(uc_isSecondary) = Some true /\
    stringToSign localeCompare url_query rq account0
      (replace_first account0 (account0 ++ js "-secondary") <$> path) = Ok x0)).
Proof.
  intros path. destruct Hcolon as [Hc0 Hc].
  assert (Hkey : forall ap x, key_passes hmac ap (account_of ctx) x (authValue hmac account0 x0 k0) = true ->
    account_of ctx = account0 /\ x = x0).
  { intros ap x [Hx|Hx]%orb_prop; [|destruct (key2 ap); [|done]]; apply bool_decide_eq_true in Hx;
      by apply auth_value_inj in Hx as [-> ->]. }
  unfold BlobSharedKeyAuthenticator in Hin. rewrite Hheader in Hin.
  destruct (negb _); [done|]. apply bind_value in Hin as (ap&_&Hin). apply bind_value in Hin as (op&_&Hin).
  apply bind_value in Hin as (x&Hx&Hin). destruct (key_passes _ _ _ _ _) eqn:Hk.
  - apply Hkey in Hk as [Ha ->]. rewrite Ha in Hx. split; [done|by left].
  - destruct (_ && _) eqn:Hsec; [|done]. apply bind_value in Hin as (y&Hy&Hin). injection Hin as Hin%Hkey.
    destruct Hin as [Ha ->]. rewrite Ha in Hy. apply andb_prop in Hsec as [Hsec%bool_decide_eq_true _].
    split; [done|right; by split].
Qed.
End Properties.

(** ** Witnesses *)

(** What is outside: the code of a text is the text, and every date is at 2000. *)
Definition toy_hmac (s : text) (_ : bytes) : text := s.
Definition toy_date (_ : text) : option Z := Some 2000.
Definition toy_account (_ : text) : option IAccountProperties := Some (mkAccount [1] None).
Definition toy_compare (_ _ : text) : Z := 0.
Definition toy_query (_ : text) : option text := None.
Definition toy_decode (_ : text) : res (option Claims) := Ok None.

Definition w_url : UrlContext :=
  mkUrlContext (Some (js "a")) (Some (js "c")) (Some (js "log")) (Some false) None (Some (js "/a/c/log")).
Definition w_auth (o : Op.operation) : AuthContext := mkAuthContext w_url (Some o) None 1000 false 1000.
Definition w_request (header : option text) (query : list (string * text)) : IRequest :=
  mkRequest (js "GET") (js "/a/c/log") (js "/a/c/log") (js "http")
    (fun n => if n === "authorization"%string then header else None) [] (fun n => list_to_map (M := gmap string text) query !! n).

(** An account signature for reading and listing. *)
Definition w_values : IAccountSASSignatureValues :=
  mkAccountValues (js "2022-11-02") None None (js "2030-01-01") (js "rl") None (js "b") (js "sco") None.
Definition w_link : IRequest :=
  w_request None [("sv", js "2022-11-02"); ("se", js "2030-01-01"); ("sp", js "rl"); ("ss", js "b");
    ("srt", js "sco"); ("sig", account_string w_values (js "a"))]%string.

Definition w_download : Arrival := w_arrival 9 "" (OnBlob (Blob_Download (mkDownloadOptions None None None None))).
Definition w_write : Arrival := w_arrival 9 "e9" (w_append_block 7 (Some "l1"%string)).

#[local] Existing Instance service_memory.
#[local] Existing Instance service_reader.

(** The link downloads, and does not append. *)
Lemma read_only_link_witness :
  let enter o a := enter w_server toy_account toy_hmac toy_date toy_compare toy_query toy_decode false w_link (w_auth o) a
                     w_served in
  (enter Op.Blob_Download w_download).1 = Ok tt /\
  is_ok (enter Op.AppendBlob_AppendBlock w_write).1 = false /\
  unchanged 1000 w_served (enter Op.AppendBlob_AppendBlock w_write).2.
Proof.
  intros e. split; [vm_compute; reflexivity|]. split; [vm_compute; reflexivity|].
  apply (read_only_link w_server toy_account toy_hmac toy_date toy_compare toy_query toy_decode false w_link
           (w_auth Op.AppendBlob_AppendBlock) w_write w_served Op.AppendBlob_AppendBlock).
  - intros i b Hi. destruct w_served_ok as [Hs _]. apply (bo_refs _ _ (ok_blob _ Hs i b Hi)).
  - reflexivity.
  - by left.
  - split; apply Z.leb_le; vm_compute; reflexivity.
  - reflexivity.
  - intros p Hp. vm_compute in Hp. injection Hp as <-. unfold harmless. apply (bool_decide_unpack _). vm_compute. exact I.
  - vm_compute. reflexivity.
Defined.

Lemma toy_injective x (k : bytes) y (k' : bytes) : toy_hmac x k = toy_hmac y k' -> x = y.
Proof. done. Qed.

Lemma account_sas_covers_witness :
  exists v, getAccountSASSignatureValuesFromRequest w_link = Ok (Some v) /\
    account_fields v (account_of (w_auth Op.Blob_Download)) = account_fields w_values (js "a").
Proof.
  apply (account_sas_covers toy_account toy_hmac toy_date toy_injective w_link (w_auth Op.Blob_Download)
           w_served.(metadataStore) w_values (js "a") [1]).
  - vm_compute. reflexivity.
  - apply (bool_decide_unpack _). vm_compute. exact I.
  - intros v Hv. vm_compute in Hv. injection Hv as <-. repeat constructor.
  - vm_compute. reflexivity.
Defined.

(** A signature for a container. *)
Definition w_blob_values : IBlobSASSignatureValues :=
  mkBlobValues (js "2022-11-02") None None (Some (js "2030-01-01")) (Some (js "r")) None (js "c") None
    None None None None None None None (Some (js "c")) None None None None None None None.
Definition w_blob_string : text :=
  match blob_string w_blob_values RTContainer (js "a") with Ok x => x | Throw _ => [] end.
Definition w_blob_link : IRequest :=
  w_request None [("sv", js "2022-11-02"); ("se", js "2030-01-01"); ("sp", js "r"); ("sr", js "c");
    ("sig", w_blob_string)]%string.

Lemma blob_sas_covers_witness :
  exists c v, (w_auth Op.Blob_Download).(ac_url).(uc_container) = Some c /\
    getBlobSASSignatureValuesFromRequest w_blob_link c (Some (js "log")) = Ok (Some v) /\
    (with_udk v = false ->
     (w_auth Op.Blob_Download).(ac_url).(uc_account) = Some (js "a") /\ c = js "c" /\
     (RTContainer = RTContainer \/ or_empty (Some (js "log")) = or_empty None) /\
     v.(bs_signedResource) = Some (js "c") /\ or_empty v.(bs_permissions) = js "r" /\
     or_empty v.(bs_startTime) = [] /\ or_empty v.(bs_expiryTime) = js "2030-01-01" /\ or_empty v.(bs_identifier) = []).
Proof.
  apply (blob_sas_covers toy_account toy_hmac toy_date toy_injective w_blob_link (w_auth Op.Blob_Download)
           w_served.(metadataStore) w_blob_values RTContainer (js "a") [1] w_blob_string).
  - vm_compute. reflexivity.
  - vm_compute. reflexivity.
  - apply (bool_decide_unpack _). vm_compute. exact I.
  - reflexivity.
  - vm_compute. reflexivity.
  - intros v Hv. vm_compute in Hv. injection Hv as <-. repeat constructor.
  - split; apply (bool_decide_unpack _); vm_compute; exact I.
  - intros n [Hn|Hn]; vm_compute in Hn; injection Hn as <-; apply (bool_decide_unpack _); vm_compute; exact I.
  - vm_compute. reflexivity.
Defined.

(** A container whose policy has no times, and a link that expired before the request. *)
Definition w_policy : AccessPolicy := mkAccessPolicy "p" None None (Some "r"%string).
Definition w_with_policy : BlobService map_coll Setting memory :=
  serve w_server w_served (w_arrival 8 "" (OnContainer (Container_SetAccessPolicy None (Some [w_policy]) None None None))).
Definition w_expired : IBlobSASSignatureValues :=
  mkBlobValues (js "2022-11-02") None None (Some (js "2001-01-01")) None None (js "c") None
    (Some (js "p")) None None None None None None (Some (js "c")) None None None None None None None.
Definition w_after : BlobDb map_coll Setting :=
  (getContainerAccessPolicyByIdentifier (js "a") (js "c") (js "p") (w_auth Op.Blob_Download) w_with_policy.(metadataStore)).2.

Lemma policy_replaces_times_witness :
  validateTime (fun _ => Some 0) 1000 w_expired.(bs_expiryTime) None = false /\
  enforce_blob_sas (fun _ => Some 0) w_expired RTContainer (js "a") (js "c") w_blob_link (w_auth Op.Blob_Download)
    w_with_policy.(metadataStore) = (Ok (Some true), w_after).
Proof.
  split; [vm_compute; reflexivity|].
  apply (policy_replaces_times (fun _ => Some 0) w_expired RTContainer (js "a") (js "c") w_blob_link (w_auth Op.Blob_Download)
           w_with_policy.(metadataStore) w_after (js "p") w_policy "r").
  - reflexivity.
  - vm_compute. reflexivity.
  - by split.
  - reflexivity.
  - apply (bool_decide_unpack _). vm_compute. exact I.
  - reflexivity.
  - reflexivity.
Defined.

(** A request that is signed with the key. *)
Definition w_string : text :=
  match stringToSign toy_compare toy_query (w_request None []) (js "a") (Some (js "/a/c/log")) with
  | Ok x => x
  | Throw _ => []
  end.
Definition w_signed : IRequest := w_request (Some (authValue toy_hmac (js "a") w_string [1])) [].

Lemma shared_key_covers_witness :
  let path := Some (js "/a/c/log") in
  js "a" = js "a" /\
  (stringToSign toy_compare toy_query w_signed (js "a") path = Ok w_string \/
   ((w_auth Op.Blob_Download).(ac_url).(uc_isSecondary) = Some true /\
    stringToSign toy_compare toy_query w_signed (js "a") (replace_first (js "a") (js "a" ++ js "-secondary") <$> path)
    = Ok w_string)).
Proof.
  apply (shared_key_covers toy_account toy_hmac toy_compare toy_query toy_injective w_signed (w_auth Op.Blob_Download)
           (js "a") w_string [1]).
  - reflexivity.
  - split; apply (bool_decide_unpack _); vm_compute; exact I.
  - vm_compute. reflexivity.
Defined.

Lemma safe_methods_witness :
  let s' := (enter w_server toy_account toy_hmac toy_date toy_compare toy_query toy_decode false w_link
              (w_auth Op.Blob_Download) w_download w_served).2 in
  unchanged 1000 w_served s'.
Proof.
  apply (safe_methods w_server toy_account toy_hmac toy_date toy_compare toy_query toy_decode false
           toy_fromUri w_link (Some (js "/container/blob")) (w_auth Op.Blob_Download) w_download w_served Op.Blob_Download).
  - intros i b Hi. destruct w_served_ok as [Hs _]. apply (bo_refs _ _ (ok_blob _ Hs i b Hi)).
  - by left.
  - reflexivity.
  - vm_compute. reflexivity.
  - reflexivity.
  - by left.
  - split; apply Z.leb_le; vm_compute; reflexivity.
Defined.

(** The same request with a key. *)
Definition w_keyed : IRequest :=
  mkRequest (js "GET") (js "/a/c/log") (js "/a/c/log") (js "http")
    (fun n => if n === "authorization"%string then
       match stringToSign toy_compare toy_query w_get (js "a") (Some (js "/a/c/log")) with
       | Ok x => Some (authValue toy_hmac (js "a") x [1])
       | Throw _ => None
       end else None) [] (fun _ => None).

Lemma unsigned_method_witness :
  let rq := with_method_header (js "DELETE") w_keyed in
  blob_dispatch toy_fromUri rq (Some (js "/container/blob")) = Some Op.Blob_Delete /\
  BlobSharedKeyAuthenticator toy_account toy_hmac toy_compare toy_query rq (w_auth Op.Blob_Delete) = Ok (Some true).
Proof.
  apply (unsigned_method toy_account toy_hmac toy_compare toy_query toy_fromUri w_keyed (Some (js "/container/blob"))
           (w_auth Op.Blob_Download) BlobSpecifications.blobDownloadOperationSpec).
  - destruct w_get_asks as [Hspec Hmeets Hq Hh]. split; [exact Hspec| |done|].
    + exists 0%nat. vm_compute. reflexivity.
    + intros name o' spec' Ho' Hname Hnot. cbn [w_keyed rq_header].
      pose proof (never_required "authorization" ltac:(by vm_compute) o' spec' Ho') as Hother.
      rewrite bool_decide_eq_false_2; [done|]. intros ->. by apply Hother.
  - exact w_templates_apart.
  - reflexivity.
  - vm_compute. reflexivity.
Defined.
